(* ===== verification/_CoqProject ===== *)
-Q . S2P
Prelude.v
StateMonad.v
Bytes.v
Crypto.v
Addr.v
UdpSocket.v
PollRegistry.v
PollThread.v
EpollBackend.v
SelectBackend.v
StunMessage.v
StunAttributes.v
ChannelData.v
StunConn.v
TcpWriter.v
TurnState.v
TurnCore.v
TurnHandlers.v
TurnServer.v
TurnInv.v
TurnGrants.v
TurnSafe.v
TurnRequests.v
TurnLinks.v
TurnSteps.v
TurnRelay.v
TurnDispatch.v
TurnEvents.v
TurnConns.v
TurnExpiry.v
TurnRun.v
TurnTheorems.v
TurnData.v
TurnManage.v
TurnTypes.v
TurnClient.v
TurnClientInv.v
TurnClientSafe.v
TurnClientSteps.v
TurnClientTheorems.v
TurnWire.v
TurnPair.v
StunClient.v
TcpTransport.v
TcpStream.v
TurnTcpConn.v
TurnTcpTheorems.v
UdpMux.v
MdnsCodec.v
MdnsClient.v
TcpMux.v
TcpMuxInv.v
TcpMuxTheorems.v
CText.v
IceServers.v
Candidate.v
CandidatePair.v
Sdp.v
Config.v
AddrRewrite.v
PairingStrategy.v
Lifetime.v
AgentState.v
AgentPairs.v
AgentStun.v
AgentLoop.v
AgentGather.v
AgentInv.v
AgentSafe.v
AgentSteps.v
AgentRun.v
AgentDemo.v
AgentChecks.v
AgentAuth.v
AgentTimers.v
AgentTheorems.v
AgentTcp.v
MuxAgents.v
TcpMuxAgents.v
AgentSend.v
