(* ===== verification/Prelude.v ===== *)
(** * stice: a verification library

    stice is a C++ implementation of ICE (RFC 8445), STUN (RFC 8489) and TURN (RFC 8656,
    RFC 6062), with a TURN server, stserver.  This library models its protocol code as
    executable functions, translated from the sources under src/, and proves what makes it
    correct.

    ** The program

    - Byte buffers, digests and addresses (types.hpp, crypto/, net/addr) are used by
      everything else.
    - The STUN codec (stun/message, stun/attributes) builds and reads messages; the TURN
      framings (turn/channeldata, turn/stunconn) put them and ChannelData on datagrams and
      streams.
    - stserver (stserver/turn_server, stserver/config) answers the requests of TURN clients
      and relays between them and their peers.  Threads of an IO backend deliver packets and
      connection events; a business thread and data threads take them from queues.
    - The ICE agent (ice/agent) gathers candidates (ice/candidate, ice/addr_rewrite),
      exchanges them as session descriptions (ice/sdp), pairs them (ice/candidatepair,
      ice/pairing_strategy), checks the pairs with STUN requests, nominates one and keeps it
      alive.  It drives TURN clients (turn/turn) and TCP transports (net/tcp), and is called
      by a poll thread and by the application.
    - A blocking client (stun/client) asks a STUN server for an address; the agent keeps the
      lists of the servers it may use, given as structures or as URLs.
    - Many agents can share a UDP socket (net/udp_mux) or a listening TCP socket (net/tcp_mux),
      which find the agent a packet is meant for.  The mDNS client (net/mdns) answers and asks
      for .local names.
    - A poll registry (net/poll) watches the sockets of agents and multiplexers and calls them;
      the IO backends of stserver (stserver/io_epoll, stserver/io_select) do this for the server.

    ** Files

    - [Prelude]: machine words and their arithmetic, record updates, list lemmas.
      [StateMonad]: state passing with failure, and its total-correctness predicate [wp].
    - [Bytes], [Crypto], [Addr]: types.hpp, crypto.cpp, addr.cpp.
    - [UdpSocket]: udp.cpp, over a record of the kernel's answers.
    - [PollRegistry]: poll.cpp and epoll_poll.cpp, what is registered, dispatched and waited
      for; [PollThread]: its thread and the owners of participants, interleaved.
    - [EpollBackend], [SelectBackend]: io_epoll.cpp and io_select.cpp, with their threads
      interleaved.
    - [StunMessage], [StunAttributes], [ChannelData], [StunConn]: the codec and framings.
    - [TurnState], [TurnCore], [TurnHandlers], [TurnServer], [TcpWriter]: turn_server.cpp, its
      state with the allocations in a heap, its request handlers and its events.
      [TurnInv] to [TurnRun] prove the invariant of its tables along all events, the last with
      a sample server; [TurnTheorems], [TurnData] and [TurnManage] state
      the results.  [Config] is stserver's configuration file.
    - [TurnTypes], [TurnClient]: turn.cpp, with the callbacks of its sink as outputs and a
      reference to a binding as an index of the current generation.  [TurnClientInv] to
      [TurnClientSteps] prove its invariant along all calls, [TurnClientTheorems] states the
      results.  [TurnWire] and [TurnPair] compose the client with the server, datagram by
      datagram, and have two runs in which they disagree.  [StunClient] is
      client.cpp, alone and with the server.
    - [TcpTransport]: tcp.cpp, over a record of system calls; [TcpStream] proves what arrives.
      [TurnTcpConn] are the TURN control and data connections the agent runs over it, with
      their theorems in [TurnTcpTheorems].
    - [UdpMux], [TcpMux]: the multiplexers, with the entries and connections that several
      containers share in a heap.  [UdpMux], [TcpMuxInv] and [TcpMuxTheorems] prove their
      invariants and state the results; [MuxAgents] and [TcpMuxAgents] compose them with agents.
    - [MdnsCodec], [MdnsClient]: mdns.cpp.
    - [CText], [Candidate], [CandidatePair], [Sdp], [AddrRewrite], [PairingStrategy]: the data
      of ICE.  [IceServers]: the server lists and URLs of agent.cpp.
    - [AgentState], [AgentPairs], [AgentStun], [AgentLoop], [AgentGather]: agent.cpp.  The
      state is the record [Agent], one definition stands for each member function, and
      [Output] is what the agent sends and reports.  [AgentInv], [AgentSafe], [AgentSteps] and
      [AgentRun] prove the invariant along all entry points ([Event], [step], [reach]);
      [AgentDemo] has two sample agents; [AgentTheorems], [AgentChecks], [AgentAuth]
      and [AgentTimers] state the results.  [AgentTcp] puts the agent and the transport of
      [TcpTransport] together: dialling a passive candidate, the events of the connection and
      its deadlines ([tcpStep]); every event runs to its end and leaves the agent's view of
      the connection true ([ice_tcp_events_run]), and a lost connection fails exactly the
      pairs over it and their checks ([failTcp_run]).  [AgentSend] puts the agent and its TURN
      clients together for [send]: the shortcut that writes outside the lock comes to the same
      as the way through the client.
    - [Lifetime]: the guard that keeps callbacks out of a destroyed agent, as an interleaving
      of threads whose atomic accesses have the release and acquire orders of the code.

    ** How code is modelled

    A w-bit integer is a [Z] with its wrap-around written out; a byte buffer is a list of
    such integers.  [None] is undefined behaviour: a read outside a buffer, a pointer to a
    freed object, an invalid iterator.  A failure the code reports is a value.  An object that
    others point to lives in a heap or a list and is named by its index there; a pointer into
    a container that can be replaced carries the generation of the container.  The operating
    system and other libraries are parameters: a record [Env] in the server and in the agent,
    section variables and arguments elsewhere (random source, epoll and select, sockets, name resolution, inet_pton,
    out-of-range conversions of atoi).  Locks are not part of the state: an entry point that
    holds the agent's or the server's lock is one step.  In [Lifetime], [PollThread],
    [EpollBackend] and [SelectBackend], which are about threads, every access to what they
    share, or every critical section, is a step; only [Lifetime] distinguishes memory orders.

    Loops over lists are structural.  The others have fuel: the attribute loops of the
    decoder and of the checks run at most once for every byte of the message, since each turn
    advances by at least four; the stream parser at most once for every byte it holds; the
    port scan of the server once for every port of the range; the writer of a TCP transport and
    the reader of its frames at most once for every byte queued or held; the parser of DNS names
    for twelve passes over the message, one more than the pointers it follows; the STUN client
    until the turn at which its time is over.  Each has a lemma that the fuel
    is enough, so that a theorem speaks of a result and not of a result if there is one.

    ** What is proved

    - Codec: encoding and decoding are inverse, signed messages verify, readers stay inside
      the message, streams of frames are cut at the right places however they arrive, digests
      computed in pieces equal the ones of the whole.
    - Server: every event runs to its end, but for one: closing a data socket that is paired
      with itself, which a reused descriptor makes possible, erases its pairing twice.  Events
      keep the tables consistent; data is relayed only for a granted peer; what is not authenticated changes nothing; the handlers,
      expiry, connection teardown and the output buffer do what they promise.  A TCP relay
      requested over UDP breaks this, and [TurnTheorems] shows how; its theorems about all
      events leave out datagrams that get one, and say so.
    - TURN client: every call runs to its end whatever arrives; what is in flight and what is
      buffered is accounted for; buffered data is sent in order; an Allocate nobody answers
      ends.  Together with the server: a client with the right password has its relay after
      two round trips.
    - TCP transport: what is accepted is what was queued, in order, and messages without control
      frames between them arrive as they were sent, however the stream is cut.
      The tunnel of an RFC 6062 data connection delivers what was sent into it, from the first
      byte behind the answer to the bind on; the control connection hands every frame to the
      TURN client.  A server can make the agent follow a null pointer while it connects.
    - UDP sockets and the STUN client: a free port of the range is found, marks do not leak
      between datagrams, host addresses are those of the interfaces; a Binding call returns in
      time, and with the server's answer it returns the client's own address.
    - Server lists: they behave as lists of values although the servers point into shared
      storage, and URLs are read as they are written.
    - Multiplexers: packets go to registered agents only; the check of a peer reaches the agent
      it is meant for, over UDP from any address and over TCP in any chunks; data stays with the
      agent that talked to its source first; connections that wait are limited in number and
      time.  A connection for an unknown agent stops the poll thread, and a second connection
      from an address leaves the poll loop with a freed one.
    - mDNS: every packet is parsed to its end; queries are reported once; a name that is
      advertised is resolved.
    - Agent: every entry point runs to its end, except a timer pass that appends to the deque
      it walks over; when the remote description is set before there are pairs, its lists are
      well formed and the states it reports follow the state machine; the check list is exactly the pairs allowed; checks
      are started under the configured schedule; a request without our credentials changes
      nothing and the check of the peer is accepted; role conflicts are resolved the same way
      on both sides; an unanswered check is sent again at doubling intervals and ends.  The
      destructor can return while a callback enters, as the memory orders of the lifetime guard
      allow; those it waited for have left.  [AgentTheorems] has the runs in which the
      agent does not do what it means to.
    - Poll registry: every synchronisation stays inside the slot table; after a forced one the
      kernel watches exactly the open sockets somebody wants and an event leads to the callback
      of its owner, whatever numbers were
      used again before; no wait passes a timer; a participant that was removed and synced is
      not called again; [sticePoll] is poll(2) where it is used.
    - IO backends: the bytes of a connection reach the server in order however many epoll
      workers serve it, while its lock object lives; every socket of the select backend has one
      worker, while no descriptor is registered with a call on it unfinished.
    - Descriptions and configuration files: what is printed is parsed back; what a file says
      is what is loaded; address rewriting picks the most specific rule.

    ** What is not modelled

    - Of the agent, the constructor and destructor, opening its TURN control connections, its
      registration with the multiplexers and the set-up of mDNS: calls into the system and into
      other components in an order that only start-up has; the model starts after them.  The
      agent sees a TURN client through [TurnView] and calls it through outputs.
    - TLS backends, the IOCP backend of stserver, the starting and stopping of threads, the
      command line, the C interface, logging and the vendored wepoll: input, output and glue. *)

From Stdlib Require Export ZArith Lia ZifyNat Bool.
From stdpp Require Export base numbers list gmap strings option fin_maps.

Declare Scope c_scope.
Delimit Scope c_scope with c.

(** C's bit operators on unsigned words, which the model keeps in [Z]. *)
Notation "a &. b" := (Z.land a b) (at level 46, left associativity) : c_scope.
Notation "a ^. b" := (Z.lxor a b) (at level 47, left associativity) : c_scope.
Notation "a |. b" := (Z.lor a b) (at level 48, left associativity) : c_scope.
Notation "a <<. n" := (Z.shiftl a n) (at level 45, left associativity) : c_scope.
Notation "a >>. n" := (Z.shiftr a n) (at level 45, left associativity) : c_scope.

Open Scope Z_scope.
Open Scope c_scope.

Abbreviation bytes := (list Z).

(** ** Machine integers *)

(** Conversion to an unsigned type of [w] bits. *)
Definition wrap (w x : Z) : Z := x mod 2 ^ w.
Abbreviation u8 := (wrap 8).
Abbreviation u16 := (wrap 16).
Abbreviation u32 := (wrap 32).
Abbreviation u64 := (wrap 64).

(** [x] is representable in [w] bits. *)
Definition fits (w x : Z) : Prop := 0 <= x < 2 ^ w.
Abbreviation is_byte := (fits 8).
Abbreviation bytes_ok := (Forall is_byte).

#[export] Instance fits_dec w x : Decision (fits w x).
Proof. unfold fits; apply _. Defined.

Create HintDb stice discriminated.

(** [lia] decides division and remainder by a constant. *)
Ltac Zify.zify_post_hook ::= Z.to_euclidean_division_equations.

(** [w]-bit facts reduced to linear arithmetic: [fits] is unfolded and the powers of
    two evaluated. *)
Ltac pow2_norm :=
  repeat match goal with
  | H : context [2 ^ ?n] |- _ =>
      match n with Zpos _ => let v := eval vm_compute in (2 ^ n) in
      change (2 ^ n) with v in H end
  | |- context [2 ^ ?n] =>
      match n with Zpos _ => let v := eval vm_compute in (2 ^ n) in
      change (2 ^ n) with v end
  end.

Ltac width := unfold fits, wrap in *; pow2_norm; try lia.

Lemma wrap_fits w x : 0 <= w -> fits w (wrap w x).
Proof. intros Hw. apply Z.mod_pos_bound, Z.pow_pos_nonneg; lia. Qed.

Lemma wrap_id w x : fits w x -> wrap w x = x.
Proof. apply Z.mod_small. Qed.

Lemma wrap_wrap w x : wrap w (wrap w x) = wrap w x.
Proof. apply Zmod_mod. Qed.

Lemma fits_mono w w' x : w <= w' -> fits w x -> fits w' x.
Proof.
  intros Hw [H0 H1]. split; [done|].
  eapply Z.lt_le_trans; [done|]. apply Z.pow_le_mono_r; lia.
Qed.

#[export] Hint Resolve wrap_fits : stice.

(** ** Bit operations as arithmetic *)

Lemma land_mask w x : 0 <= w -> x &. (2 ^ w - 1) = x mod 2 ^ w.
Proof. intros Hw. rewrite <- Z.land_ones by done. by rewrite Z.ones_equiv, Z.sub_1_r. Qed.

Lemma shiftr_div w x : 0 <= w -> x >>. w = x / 2 ^ w.
Proof. apply Z.shiftr_div_pow2. Qed.

Lemma shiftl_mul w x : 0 <= w -> x <<. w = x * 2 ^ w.
Proof. apply Z.shiftl_mul_pow2. Qed.

(** A mask of [w] consecutive bits from bit [k] cuts a field out of the word. *)
Lemma land_field x w k M :
  0 <= w -> 0 <= k -> M = (2 ^ w - 1) * 2 ^ k -> x &. M = (x / 2 ^ k mod 2 ^ w) * 2 ^ k.
Proof.
  intros Hw Hk ->. rewrite <- (land_mask w), <- (shiftr_div k), <- !shiftl_mul by done.
  rewrite Z.shiftl_land. apply Z.bits_inj'. intros i Hi.
  rewrite !Z.land_spec, !Z.shiftl_spec by done.
  destruct (decide (i < k)).
  - by rewrite !(Z.testbit_neg_r _ (i - k)), !andb_false_r by lia.
  - rewrite Z.shiftr_spec by lia. by replace (i - k + k) with i by lia.
Qed.

(** A bit beyond the width of a word is clear. *)
Lemma fits_testbit w x i : 0 <= w -> fits w x -> w <= i -> Z.testbit x i = false.
Proof.
  intros Hw Hx Hi. rewrite <- (wrap_id w x Hx). unfold wrap.
  by apply Z.mod_pow2_bits_high.
Qed.

(** A word whose bits from [w] on are clear fits in [w] bits. *)
Lemma testbit_fits w x :
  0 <= w -> 0 <= x -> (forall i, w <= i -> Z.testbit x i = false) -> fits w x.
Proof.
  intros Hw Hx Hb. assert (Heq : x = x mod 2 ^ w).
  { apply Z.bits_inj'. intros i Hi. destruct (decide (i < w)).
    - by rewrite Z.mod_pow2_bits_low by lia.
    - by rewrite Z.mod_pow2_bits_high, Hb by lia. }
  rewrite Heq. by apply wrap_fits.
Qed.

Lemma lor_disjoint_add a b w :
  0 <= w -> fits w b -> (a <<. w) |. b = a * 2 ^ w + b.
Proof.
  intros Hw Hb. rewrite <- Z.lxor_lor.
  - rewrite <- Z.add_nocarry_lxor.
    + by rewrite shiftl_mul.
    + apply Z.bits_inj'. intros i Hi. rewrite Z.land_spec, Z.bits_0, Z.shiftl_spec by lia.
      destruct (decide (i < w)).
      * by rewrite Z.testbit_neg_r by lia.
      * by rewrite (fits_testbit w b), andb_false_r by (done || lia).
  - apply Z.bits_inj'. intros i Hi. rewrite Z.land_spec, Z.bits_0, Z.shiftl_spec by lia.
    destruct (decide (i < w)).
    + by rewrite Z.testbit_neg_r by lia.
    + by rewrite (fits_testbit w b), andb_false_r by (done || lia).
Qed.

Lemma fits_lxor w a b : 0 <= w -> fits w a -> fits w b -> fits w (a ^. b).
Proof.
  intros Hw Ha Hb. apply testbit_fits; [done| |].
  - apply Z.lxor_nonneg. split; intros _; [apply Hb | apply Ha].
  - intros i Hi. by rewrite Z.lxor_spec, !(fits_testbit w) by done.
Qed.

Lemma fits_land w a b : 0 <= w -> fits w a -> 0 <= b -> fits w (a &. b).
Proof.
  intros Hw Ha Hb. apply testbit_fits; [done| |].
  - apply Z.land_nonneg. by right.
  - intros i Hi. by rewrite Z.land_spec, (fits_testbit w) by done.
Qed.

Lemma fits_lor w a b : 0 <= w -> fits w a -> fits w b -> fits w (a |. b).
Proof.
  intros Hw Ha Hb. apply testbit_fits; [done| |].
  - apply Z.lor_nonneg. split; [apply Ha | apply Hb].
  - intros i Hi. by rewrite Z.lor_spec, !(fits_testbit w) by done.
Qed.

Lemma fits_shiftr w n a : 0 <= w -> 0 <= n -> fits w a -> fits w (a >>. n).
Proof.
  intros Hw Hn [Ha0 Ha1]. rewrite shiftr_div by done.
  assert (0 < 2 ^ n) by (apply Z.pow_pos_nonneg; lia).
  split; [by apply Z.div_pos|].
  eapply Z.le_lt_trans; [|done]. apply Z.div_le_upper_bound; [done|]. nia.
Qed.

#[export] Hint Resolve fits_lxor fits_lor fits_land fits_shiftr : stice.

(** Masking with [xor] twice restores the word. *)
Lemma lxor_cancel a m : (a ^. m) ^. m = a.
Proof. by rewrite Z.lxor_assoc, Z.lxor_nilpotent, Z.lxor_0_r. Qed.

(** ** Options *)

Lemma bind_assoc {A B C} (o : option A) (f : A -> option B) (g : B -> option C) :
  ((o ≫= f) ≫= g) = (o ≫= (fun x => f x ≫= g)).
Proof. by destruct o. Qed.

(** ** Record update *)

(** [r <| f := v |>] is [r] with the field [f] set to [v], and [r <| f ::= g |>] with [g]
    applied to the field.  A record type takes part by giving its eta expansion as an
    instance of [RecordFields]; the update of a field abstracts the projection from it. *)
Class RecordFields (R : Type) := fields_of : R -> R.
Class FieldUpdate {R T : Type} (f : R -> T) := field_update : (T -> T) -> R -> R.
Arguments field_update {_ _} _ {_} _ _ : simpl never.

Ltac derive_update :=
  match goal with
  | |- @FieldUpdate ?R ?T ?f =>
      let e := constr:(_ : RecordFields R) in
      let e := eval hnf in e in
      lazymatch eval pattern f in e with
      | ?k _ => let u := eval cbv beta in (fun (g : T -> T) (r : R) => k (fun x => g (f x)) r) in exact u
      end
  end.
#[export] Hint Extern 1 (FieldUpdate _) => derive_update : typeclass_instances.

Notation "r <| f ::= g |>" := (field_update f g r)
  (at level 12, left associativity, format "r  <| f  ::=  g |>") : c_scope.
Notation "r <| f := v |>" := (field_update f (fun _ => v) r)
  (at level 12, left associativity, format "r  <| f  :=  v |>") : c_scope.

(** A field of an updated record, in the goal or in a hypothesis: the new value when the field
    is the updated one, the old one when it is not. *)
Ltac upd :=
  repeat match goal with
  | |- context [?p ?u] =>
      lazymatch u with
      | @field_update _ _ ?f _ ?g ?s =>
          first [progress change (p u) with (p s) | progress change (p u) with (g (f s)); cbv beta]
      end
  | H : context [?p ?u] |- _ =>
      lazymatch u with
      | @field_update _ _ ?f _ ?g ?s =>
          first [progress change (p u) with (p s) in H
                | progress change (p u) with (g (f s)) in H; cbv beta in H]
      end
  end.
