(* ===== verification/StateMonad.v ===== *)
(** * State passing with failure

    The monad the server's and the agent's operations are written in, over any state type: an operation takes
    the state and returns a result and the new state, or [None] for undefined behaviour (a
    dereference of a pointer to a freed or moved object, an iterator used after the container
    invalidated it, an access outside a buffer).  [wp] is total correctness: the operation
    returns, and its result and state satisfy the postcondition. *)

From S2P Require Import Prelude.

Section Monad.
Context {S : Type}.

Definition SM (A : Type) : Type := S -> option (A * S).

#[export] Instance SM_ret : MRet SM := fun A x s => Some (x, s).
#[export] Instance SM_bind : MBind SM := fun A B f m s =>
  match m s with Some (a, s') => f a s' | None => None end.

Definition gets {A} (f : S -> A) : SM A := fun s => Some (f s, s).
Definition modify (f : S -> S) : SM unit := fun s => Some (tt, f s).
Definition lift {A} (o : option A) : SM A :=
  fun s => match o with Some a => Some (a, s) | None => None end.
Definition skip : SM unit := mret tt.
Definition when (b : bool) (m : SM unit) : SM unit := if b then m else skip.

(** A range-for loop whose body does not leave it. *)
Fixpoint forM {A} (l : list A) (f : A -> SM unit) : SM unit :=
  match l with [] => skip | x :: l => f x ≫= (fun _ => forM l f) end.

Definition wp {A} (m : SM A) (Q : A -> S -> Prop) (s : S) : Prop :=
  exists a s', m s = Some (a, s') /\ Q a s'.

Lemma wp_ret {A} (x : A) (Q : A -> S -> Prop) s : Q x s -> wp (mret x) Q s.
Proof. intros H. by exists x, s. Qed.

Lemma wp_bind {A B} (m : SM A) (f : A -> SM B) (Q : B -> S -> Prop) s :
  wp m (fun a s' => wp (f a) Q s') s -> wp (m ≫= f) Q s.
Proof.
  intros (a & s1 & E1 & b & s2 & E2 & H). exists b, s2.
  split; [|done]. unfold mbind, SM_bind. by rewrite E1.
Qed.

Lemma wp_mono {A} (m : SM A) (P Q : A -> S -> Prop) s :
  wp m P s -> (forall a s', P a s' -> Q a s') -> wp m Q s.
Proof. intros (a & s' & E & H) HPQ. exists a, s'. auto. Qed.

Lemma wp_eq {A} (m : SM A) (Q : A -> S -> Prop) s :
  wp m Q s -> wp m (fun a s' => m s = Some (a, s') /\ Q a s') s.
Proof. intros (a & s' & E & H). by exists a, s'. Qed.

Lemma wp_gets {A} (f : S -> A) (Q : A -> S -> Prop) s : Q (f s) s -> wp (gets f) Q s.
Proof. intros H. by exists (f s), s. Qed.

Lemma wp_modify f (Q : unit -> S -> Prop) s : Q tt (f s) -> wp (modify f) Q s.
Proof. intros H. by exists tt, (f s). Qed.

Lemma wp_lift {A} (o : option A) (Q : A -> S -> Prop) s x : o = Some x -> Q x s -> wp (lift o) Q s.
Proof. intros -> H. by exists x, s. Qed.

Lemma wp_when b m (Q : unit -> S -> Prop) s :
  (b = true -> wp m Q s) -> (b = false -> Q tt s) -> wp (when b m) Q s.
Proof. intros H1 H2. destruct b; [by apply H1 | by apply wp_ret, H2]. Qed.

(** A loop keeps what every turn keeps. *)
Lemma wp_forM {A} (l : list A) f (I : S -> Prop) s :
  (forall x s, x ∈ l -> I s -> wp (f x) (fun _ => I) s) -> I s -> wp (forM l f) (fun _ => I) s.
Proof.
  revert s. induction l as [|x l IH]; intros s Hf HI; simpl; [by apply wp_ret|].
  apply wp_bind. eapply wp_mono; [apply Hf; [left | done]|].
  intros a s' H. apply IH; [|done]. intros y s2 Hy. apply Hf. by right.
Qed.

Lemma wp_run {A} (m : SM A) (Q : A -> S -> Prop) s a s' : wp m Q s -> m s = Some (a, s') -> Q a s'.
Proof. intros (a' & s2 & E & H) E'. congruence. Qed.

(** ** Running step by step *)

Lemma run_bind {A B} (m : SM A) (k : A -> SM B) s a s' : m s = Some (a, s') -> (m ≫= k) s = k a s'.
Proof. intros E. unfold mbind, SM_bind. by rewrite E. Qed.

Lemma run_gets {A B} (f : S -> A) (k : A -> SM B) s : (gets f ≫= k) s = k (f s) s.
Proof. done. Qed.

Lemma run_modify {B} f (k : unit -> SM B) s : (modify f ≫= k) s = k tt (f s).
Proof. done. Qed.

Lemma run_ret {A B} (x : A) (k : A -> SM B) s : (mret x ≫= k) s = k x s.
Proof. done. Qed.

Lemma run_skip {B} (k : unit -> SM B) s : (skip ≫= k) s = k tt s.
Proof. done. Qed.

Lemma run_lift {A B} (o : option A) (k : A -> SM B) s a : o = Some a -> (lift o ≫= k) s = k a s.
Proof. by intros ->. Qed.

Lemma run_assoc {A B C} (m : SM A) (k : A -> SM B) (l : B -> SM C) s :
  ((m ≫= k) ≫= l) s = (m ≫= (fun a => k a ≫= l)) s.
Proof. unfold mbind, SM_bind. by destruct (m s) as [[a s']|]. Qed.

(** ** What an operation leaves alone *)

Definition preserves {T A} (f : S -> T) (m : SM A) : Prop :=
  forall s a s', m s = Some (a, s') -> f s' = f s.

Lemma pres_ret {T A} (f : S -> T) (x : A) : preserves f (mret x).
Proof. by intros s a s' [= <- <-]. Qed.

Lemma pres_gets {T A} (f : S -> T) (g : S -> A) : preserves f (gets g).
Proof. by intros s a s' [= <- <-]. Qed.

Lemma pres_modify {T} (f : S -> T) g : (forall s, f (g s) = f s) -> preserves f (modify g).
Proof. by intros H s a s' [= <- <-]. Qed.

Lemma pres_lift {T A} (f : S -> T) (o : option A) : preserves f (lift o).
Proof. intros s a s'. unfold lift. destruct o; [by intros [= <- <-] | done]. Qed.

Lemma pres_bind {T A B} (f : S -> T) (m : SM A) (k : A -> SM B) :
  preserves f m -> (forall a, preserves f (k a)) -> preserves f (m ≫= k).
Proof.
  intros Hm Hk s b s'. unfold mbind, SM_bind. destruct (m s) as [[a s1]|] eqn:E; [|done].
  intros Hb. rewrite (Hk a s1 b s' Hb). by eapply Hm.
Qed.

Lemma pres_when {T} (f : S -> T) b m : preserves f m -> preserves f (when b m).
Proof. intros H. destruct b; [done | apply pres_ret]. Qed.

Lemma pres_forM {T A} (f : S -> T) (l : list A) k :
  (forall x, preserves f (k x)) -> preserves f (forM l k).
Proof.
  intros H. induction l as [|x l IH]; simpl; [apply pres_ret|]. apply pres_bind; [apply H | by intros].
Qed.

Lemma wp_pres {T A} (f : S -> T) (m : SM A) (Q : A -> S -> Prop) s :
  preserves f m -> wp m Q s -> wp m (fun a s' => Q a s' /\ f s' = f s) s.
Proof. intros Hp (a & s' & E & H). exists a, s'. eauto. Qed.

End Monad.

(** [run] executes the reads and writes at the head of a sequence. *)
Ltac run := repeat (first [rewrite run_assoc | rewrite run_gets | rewrite run_modify | rewrite run_ret | rewrite run_skip]).

Create HintDb pres.

(** [preserve] walks through the definition of an operation; the lemmas about the operations
    it calls are in the hint database. *)
Ltac preserve_step :=
  lazymatch goal with
  | |- preserves _ (mret _) => apply pres_ret
  | |- preserves _ skip => apply pres_ret
  | |- preserves _ (gets _) => apply pres_gets
  | |- preserves _ (lift _) => apply pres_lift
  | |- preserves _ (modify _) => apply pres_modify; intros
  | |- preserves _ (when _ _) => apply pres_when
  | |- preserves _ (forM _ _) => apply pres_forM; intros
  | |- preserves _ (_ ≫= _) => apply pres_bind; [|intros]
  | |- preserves _ (if ?b then _ else _) => destruct b
  | |- preserves _ (match ?x with _ => _ end) => destruct x
  end.
Ltac preserve := repeat (first [solve [eauto 2 with pres] | preserve_step]).

Arguments SM : clear implicits.

