(* ===== verification/Bytes.v ===== *)
(** * Byte buffers (include/stice/types.hpp)

    Padding to the 4-byte boundary and the big-endian readers and writers every wire
    format of the program goes through.  A buffer is a [list Z] of bytes, a position in it
    a [nat].  A reader returns [option]: [None] stands for a read outside the buffer, which
    is undefined behaviour in the source, so that a theorem which gives [Some] is also a
    memory-safety statement.  A writer into an existing buffer ([poke]) fails the same
    way. *)

From S2P Require Import Prelude.
Open Scope Z_scope.
Open Scope c_scope.

(** ** Definitions *)

(** [paddedSize] on [size_t] (64 bits): [(n + 3) & ~3]. *)
Definition paddedSize (n : Z) : Z := u64 (n + 3) &. u64 (Z.lnot 3).

(** The size of a value of [n] bytes with its padding, as a list length. *)
Definition paddedLen (n : nat) : nat := Z.to_nat (paddedSize (Z.of_nat n)).

Definition readU16Be (p : bytes) (off : nat) : option Z :=
  p0 ← p !! off;
  p1 ← p !! (off + 1)%nat;
  Some (u16 ((p0 <<. 8) |. p1)).

Definition readU32Be (p : bytes) (off : nat) : option Z :=
  p0 ← p !! off;
  p1 ← p !! (off + 1)%nat;
  p2 ← p !! (off + 2)%nat;
  p3 ← p !! (off + 3)%nat;
  Some (u32 ((((p0 <<. 24) |. (p1 <<. 16)) |. (p2 <<. 8)) |. p3)).

(** The bytes [writeU16Be] and [writeU32Be] store. *)
Definition writeU16Be (v : Z) : bytes := [u8 (v >>. 8); u8 (v &. 255)].

Definition writeU32Be (v : Z) : bytes :=
  [u8 (v >>. 24); u8 (v >>. 16); u8 (v >>. 8); u8 (v &. 255)].

(** [std::vector::resize]: truncate, or extend with zero bytes. *)
Definition resize (n : nat) (l : bytes) : bytes := take n l ++ replicate (n - length l) 0.

(** Store [src] at [off]: [memcpy(dst.data() + off, src, n)]. *)
Definition poke (dst : bytes) (off : nat) (src : bytes) : option bytes :=
  if (off + length src <=? length dst)%nat
  then Some (take off dst ++ src ++ drop (off + length src) dst)
  else None.

(** Read [n] bytes at [off]: the range [[p + off, p + off + n)]. *)
Definition peek (p : bytes) (off n : nat) : option bytes :=
  if (off + n <=? length p)%nat then Some (take n (drop off p)) else None.

(** A [uint64_t] most significant byte first, as the TIE-BREAKER attributes store it. *)
Definition writeU64Be (v : Z) : bytes :=
  (fun i => u8 (v >>. (56 - 8 * i))) <$> seqZ 0 8.

Definition readU64Be (p : bytes) : Z := foldl (fun out b => u64 (out <<. 8) |. b) 0 p.

(** ** Padding *)

Lemma paddedSize_spec n : 0 <= n < 2 ^ 64 - 3 -> paddedSize n = 4 * ((n + 3) / 4).
Proof.
  intros Hn. unfold paddedSize. rewrite (wrap_id 64 (n + 3)) by (width).
  replace (u64 (Z.lnot 3)) with (Z.ldiff (Z.ones 64) (Z.ones 2)) by (vm_compute; done).
  assert (Hf : fits 64 (n + 3)) by (width).
  transitivity (Z.shiftl (Z.shiftr (n + 3) 2) 2).
  - apply Z.bits_inj'. intros i Hi.
    rewrite Z.land_spec, Z.ldiff_spec, Z.shiftl_spec by lia.
    destruct (decide (i < 2)).
    + rewrite (Z.testbit_neg_r _ (i - 2)) by lia.
      rewrite (Z.ones_spec_low 2) by lia. by rewrite andb_false_r, andb_false_r.
    + rewrite Z.shiftr_spec by lia. replace (i - 2 + 2) with i by lia.
      rewrite (Z.ones_spec_high 2) by lia. rewrite andb_true_r.
      destruct (decide (i < 64)).
      * by rewrite Z.ones_spec_low, andb_true_r by lia.
      * by rewrite (fits_testbit 64 (n + 3)) by (done || lia).
  - rewrite shiftr_div, shiftl_mul by lia. width.
Qed.

(** Padding rounds up to a multiple of four and adds at most three bytes. *)
Lemma paddedLen_bounds (n : nat) :
  Z.of_nat n < 2 ^ 64 - 3 ->
  (n <= paddedLen n < n + 4)%nat /\ (paddedLen n mod 4 = 0)%nat.
Proof.
  intros Hn. unfold paddedLen. rewrite paddedSize_spec by lia.
  split; [lia|]. rewrite Z2Nat.inj_mul by lia.
  change (Z.to_nat 4) with 4%nat. rewrite Nat.mul_comm. by apply Nat.Div0.mod_mul.
Qed.

(** ** Readers and writers *)

Lemma writeU16Be_ok v : bytes_ok (writeU16Be v).
Proof. repeat constructor; unfold writeU16Be; width. Qed.

Lemma writeU32Be_ok v : bytes_ok (writeU32Be v).
Proof. repeat constructor; unfold writeU32Be; width. Qed.

#[export] Hint Resolve writeU16Be_ok writeU32Be_ok : stice.

Lemma length_writeU16Be v : length (writeU16Be v) = 2%nat.
Proof. done. Qed.

Lemma length_writeU32Be v : length (writeU32Be v) = 4%nat.
Proof. done. Qed.

Lemma mask_byte v : v &. 255 = v mod 256.
Proof. apply (land_mask 8); lia. Qed.

(** Reading a big-endian pair is positional notation. *)
Lemma be16_value b0 b1 : is_byte b0 -> is_byte b1 -> u16 ((b0 <<. 8) |. b1) = b0 * 256 + b1.
Proof. intros H0 H1. rewrite lor_disjoint_add by (done || lia). width. Qed.

Lemma be32_value b0 b1 b2 b3 :
  is_byte b0 -> is_byte b1 -> is_byte b2 -> is_byte b3 ->
  u32 ((((b0 <<. 24) |. (b1 <<. 16)) |. (b2 <<. 8)) |. b3)
  = b0 * 16777216 + b1 * 65536 + b2 * 256 + b3.
Proof.
  intros H0 H1 H2 H3.
  replace ((((b0 <<. 24) |. (b1 <<. 16)) |. (b2 <<. 8)) |. b3)
    with (((((((b0 <<. 8) |. b1) <<. 8) |. b2) <<. 8) |. b3)).
  - rewrite !lor_disjoint_add by (done || lia). width.
  - rewrite !Z.shiftl_lor, !Z.shiftl_shiftl by lia. done.
Qed.

Lemma readU16Be_at (p : bytes) off b0 b1 :
  p !! off = Some b0 -> p !! (off + 1)%nat = Some b1 -> is_byte b0 -> is_byte b1 ->
  readU16Be p off = Some (b0 * 256 + b1).
Proof. intros E0 E1 H0 H1. unfold readU16Be. rewrite E0, E1; simpl. by rewrite be16_value. Qed.

Lemma readU16Be_app_write pre v suf :
  fits 16 v -> readU16Be (pre ++ writeU16Be v ++ suf) (length pre) = Some v.
Proof.
  intros Hv. rewrite (readU16Be_at _ _ (u8 (v >>. 8)) (u8 (v &. 255))).
  - rewrite mask_byte, shiftr_div by lia. f_equal. width.
  - by rewrite lookup_app_r, Nat.sub_diag by lia.
  - rewrite lookup_app_r by lia. by replace (length pre + 1 - length pre)%nat with 1%nat by lia.
  - width.
  - width.
Qed.

Lemma readU32Be_app_write pre v suf :
  fits 32 v -> readU32Be (pre ++ writeU32Be v ++ suf) (length pre) = Some v.
Proof.
  intros Hv. unfold readU32Be, writeU32Be.
  rewrite !(lookup_app_r pre) by lia. rewrite Nat.sub_diag.
  replace (length pre + 1 - length pre)%nat with 1%nat by lia.
  replace (length pre + 2 - length pre)%nat with 2%nat by lia.
  replace (length pre + 3 - length pre)%nat with 3%nat by lia. simpl.
  rewrite be32_value by width. rewrite mask_byte, !shiftr_div by lia. f_equal. width.
Qed.

Lemma readU16Be_write v : fits 16 v -> readU16Be (writeU16Be v) 0 = Some v.
Proof.
  intros Hv. pose proof (readU16Be_app_write [] v [] Hv) as H. by rewrite app_nil_r in H.
Qed.

Lemma readU32Be_write v : fits 32 v -> readU32Be (writeU32Be v) 0 = Some v.
Proof.
  intros Hv. pose proof (readU32Be_app_write [] v [] Hv) as H. by rewrite app_nil_r in H.
Qed.

(** A read inside the buffer succeeds with a 16-bit (32-bit) value. *)
Lemma readU16Be_inb (p : bytes) off :
  bytes_ok p -> (off + 2 <= length p)%nat -> exists v, readU16Be p off = Some v /\ fits 16 v.
Proof.
  intros Hp Hlen.
  destruct (lookup_lt_is_Some_2 p off) as [b0 E0]; [lia|].
  destruct (lookup_lt_is_Some_2 p (off + 1)) as [b1 E1]; [lia|].
  assert (is_byte b0) by (by eapply Forall_lookup_1). assert (is_byte b1) by (by eapply Forall_lookup_1).
  exists (b0 * 256 + b1). split; [by apply readU16Be_at|]. width.
Qed.

Lemma readU32Be_inb (p : bytes) off :
  (off + 4 <= length p)%nat -> exists v, readU32Be p off = Some v /\ fits 32 v.
Proof.
  intros Hlen. unfold readU32Be.
  destruct (lookup_lt_is_Some_2 p off) as [b0 ->]; [lia|].
  destruct (lookup_lt_is_Some_2 p (off + 1)) as [b1 ->]; [lia|].
  destruct (lookup_lt_is_Some_2 p (off + 2)) as [b2 ->]; [lia|].
  destruct (lookup_lt_is_Some_2 p (off + 3)) as [b3 ->]; [lia|]. simpl.
  eexists; split; [done|]. by apply wrap_fits.
Qed.

(** The words only depend on the bytes they cover. *)
Lemma readU16Be_app_l (p q : bytes) off :
  (off + 2 <= length p)%nat -> readU16Be (p ++ q) off = readU16Be p off.
Proof. intros H. unfold readU16Be. by rewrite !lookup_app_l by lia. Qed.

Lemma readU32Be_app_l (p q : bytes) off :
  (off + 4 <= length p)%nat -> readU32Be (p ++ q) off = readU32Be p off.
Proof. intros H. unfold readU32Be. by rewrite !lookup_app_l by lia. Qed.

Lemma readU16Be_app_r (p q : bytes) off :
  (length p <= off)%nat -> readU16Be (p ++ q) off = readU16Be q (off - length p).
Proof.
  intros H. unfold readU16Be. rewrite !(lookup_app_r p) by lia.
  by replace (off + 1 - length p)%nat with (off - length p + 1)%nat by lia.
Qed.

(** ** Buffers *)

Lemma poke_app (a b c src : bytes) :
  length b = length src -> poke (a ++ b ++ c) (length a) src = Some (a ++ src ++ c).
Proof.
  intros Hl. unfold poke. rewrite !length_app.
  destruct (Nat.leb_spec (length a + length src) (length a + (length b + length c))); [|lia].
  f_equal. rewrite take_app_length. f_equal. f_equal.
  rewrite drop_app, drop_ge by lia. simpl.
  replace (length a + length src - length a)%nat with (length b) by lia.
  by rewrite drop_app_length.
Qed.

Lemma resize_grow n (l : bytes) :
  (length l <= n)%nat -> resize n l = l ++ replicate (n - length l) 0.
Proof. intros H. unfold resize. by rewrite take_ge. Qed.

Lemma peek_app (a b c : bytes) : peek (a ++ b ++ c) (length a) (length b) = Some b.
Proof.
  unfold peek. rewrite !length_app.
  destruct (Nat.leb_spec (length a + length b) (length a + (length b + length c))); [|lia].
  by rewrite drop_app_length, take_app_length.
Qed.

Lemma peek_inb (p : bytes) off n :
  (off + n <= length p)%nat -> peek p off n = Some (take n (drop off p)).
Proof. intros H. unfold peek. destruct (Nat.leb_spec (off + n) (length p)); [done|lia]. Qed.

Lemma peek_lookup (p v : bytes) off n i :
  peek p off n = Some v -> (i < n)%nat -> p !! (off + i)%nat = v !! i.
Proof.
  unfold peek. destruct (Nat.leb_spec (off + n) (length p)); [|done]. intros [= <-] Hi.
  by rewrite lookup_take_lt, lookup_drop by lia.
Qed.

Lemma peek_readU32Be (p v : bytes) off :
  peek p off 4 = Some v -> readU32Be p off = readU32Be v 0.
Proof.
  intros E. unfold readU32Be. rewrite <- (Nat.add_0_r off) at 1.
  by rewrite !(peek_lookup p v off 4) by (done || lia).
Qed.

Lemma bytes_ok_app (a b : bytes) : bytes_ok a -> bytes_ok b -> bytes_ok (a ++ b).
Proof. intros. by apply Forall_app. Qed.

Lemma bytes_ok_zeros n : bytes_ok (replicate n 0).
Proof. apply Forall_replicate. width. Qed.

#[export] Hint Resolve bytes_ok_app bytes_ok_zeros : stice.

(** Shifting in the next byte of [v] moves one byte down the word. *)
Lemma be64_step v m n :
  fits 64 v -> 0 <= n -> m = n + 8 -> u64 ((v >>. m) <<. 8) |. u8 (v >>. n) = v >>. n.
Proof.
  intros Hv Hn ->. rewrite (Z.add_comm n 8), Z.add_comm, <- Z.shiftr_shiftr by lia.
  assert (Hx : fits 64 (v >>. n)) by (apply fits_shiftr; lia || done).
  set (x := v >>. n) in *. rewrite (shiftr_div 8), wrap_id.
  - rewrite lor_disjoint_add by (lia || by apply wrap_fits). width.
  - rewrite shiftl_mul by lia. width.
  - lia.
Qed.

(** A 64-bit value survives its byte form. *)
Lemma readU64Be_writeU64Be v : fits 64 v -> readU64Be (writeU64Be v) = v.
Proof.
  intros Hv. change (writeU64Be v) with
    [u8 (v >>. 56); u8 (v >>. 48); u8 (v >>. 40); u8 (v >>. 32);
     u8 (v >>. 24); u8 (v >>. 16); u8 (v >>. 8); u8 (v >>. 0)].
  unfold readU64Be. cbn [foldl].
  assert (H0 : 0 = v >>. 64) by (rewrite shiftr_div by lia; width).
  rewrite H0 at 1.
  rewrite !be64_step by (done || lia).
  apply Z.shiftr_0_r.
Qed.

Lemma writeU64Be_ok v : bytes_ok (writeU64Be v) /\ length (writeU64Be v) = 8%nat.
Proof. split; [|done]. apply Forall_fmap, Forall_true. intros i. by apply wrap_fits. Qed.
