(* ===== verification/Crypto.v ===== *)
(** * Cryptographic primitives (src/crypto/crypto.cpp)

    MD5, SHA-1 and SHA-256 with their streaming contexts, HMAC, CRC-32 and the long-term
    credential key.  The three digests are the same Merkle-Damgaard construction in three
    copies: [HashFn] is the part that differs (initial state, compression function, byte
    order of the length and of the digest), [update] and [final] the part the source
    repeats.  A context keeps the valid prefix of its 64-byte buffer, so [bufLen] is the
    length of [buf].

    The theorems relate the streaming code to the padded-message definition of the
    standards ([digest_spec]), HMAC to RFC 2104, and the table-driven CRC to the bitwise
    division by the polynomial. *)

From S2P Require Import Prelude.
From S2P Require Import Bytes.
Open Scope Z_scope.
Open Scope c_scope.

(** ** 32-bit words *)

Definition add32 (a b : Z) : Z := u32 (a + b).
Definition not32 (a : Z) : Z := u32 (Z.lnot a).
Definition rotl32 (x n : Z) : Z := u32 (x <<. n) |. (x >>. (32 - n)).
Definition rotr32 (x n : Z) : Z := (x >>. n) |. u32 (x <<. (32 - n)).

(** Element [i] of an array that is always indexed in range. *)
Abbreviation at_ l i := (nth i l 0).

(** ** Compression functions *)

(** A little-endian (MD5) and a big-endian (SHA) 32-bit word at byte [4 * i]. *)
Definition le32 (p : bytes) (i : nat) : Z :=
  ((at_ p (i * 4) |. (at_ p (i * 4 + 1) <<. 8)) |. (at_ p (i * 4 + 2) <<. 16))
    |. (at_ p (i * 4 + 3) <<. 24).

Definition be32 (p : bytes) (i : nat) : Z :=
  (((at_ p (i * 4) <<. 24) |. (at_ p (i * 4 + 1) <<. 16)) |. (at_ p (i * 4 + 2) <<. 8))
    |. at_ p (i * 4 + 3).

(** *** MD5 *)

Definition md5K : list Z := [
  0xd76aa478; 0xe8c7b756; 0x242070db; 0xc1bdceee; 0xf57c0faf; 0x4787c62a; 0xa8304613; 0xfd469501;
  0x698098d8; 0x8b44f7af; 0xffff5bb1; 0x895cd7be; 0x6b901122; 0xfd987193; 0xa679438e; 0x49b40821;
  0xf61e2562; 0xc040b340; 0x265e5a51; 0xe9b6c7aa; 0xd62f105d; 0x02441453; 0xd8a1e681; 0xe7d3fbc8;
  0x21e1cde6; 0xc33707d6; 0xf4d50d87; 0x455a14ed; 0xa9e3e905; 0xfcefa3f8; 0x676f02d9; 0x8d2a4c8a;
  0xfffa3942; 0x8771f681; 0x6d9d6122; 0xfde5380c; 0xa4beea44; 0x4bdecfa9; 0xf6bb4b60; 0xbebfbc70;
  0x289b7ec6; 0xeaa127fa; 0xd4ef3085; 0x04881d05; 0xd9d4d039; 0xe6db99e5; 0x1fa27cf8; 0xc4ac5665;
  0xf4292244; 0x432aff97; 0xab9423a7; 0xfc93a039; 0x655b59c3; 0x8f0ccc92; 0xffeff47d; 0x85845dd1;
  0x6fa87e4f; 0xfe2ce6e0; 0xa3014314; 0x4e0811a1; 0xf7537e82; 0xbd3af235; 0x2ad7d2bb; 0xeb86d391].

Definition md5S : list Z := [
  7; 12; 17; 22; 7; 12; 17; 22; 7; 12; 17; 22; 7; 12; 17; 22;
  5; 9; 14; 20; 5; 9; 14; 20; 5; 9; 14; 20; 5; 9; 14; 20;
  4; 11; 16; 23; 4; 11; 16; 23; 4; 11; 16; 23; 4; 11; 16; 23;
  6; 10; 15; 21; 6; 10; 15; 21; 6; 10; 15; 21; 6; 10; 15; 21].

(** The initial [a, b, c, d] of [md5Init]. *)
Definition md5H0 : list Z := [0x67452301; 0xefcdab89; 0x98badcfe; 0x10325476].

Definition md5Round (M : list Z) (s : Z * Z * Z * Z) (i : nat) : Z * Z * Z * Z :=
  let '(a, b, cc, d) := s in
  let '(f, g) :=
    if (i <? 16)%nat then ((b &. cc) |. (not32 b &. d), i)
    else if (i <? 32)%nat then ((d &. b) |. (not32 d &. cc), ((5 * i + 1) mod 16)%nat)
    else if (i <? 48)%nat then (b ^. cc ^. d, ((3 * i + 5) mod 16)%nat)
    else (cc ^. (b |. not32 d), ((7 * i) mod 16)%nat) in
  (d, add32 b (rotl32 (u32 (a + f + at_ md5K i + at_ M g)) (at_ md5S i)), b, cc).

Definition md5Block (h : list Z) (p : bytes) : list Z :=
  let M := le32 p <$> seq 0 16 in
  let '(a, b, cc, d) :=
    foldl (md5Round M) (at_ h 0, at_ h 1, at_ h 2, at_ h 3) (seq 0 64) in
  [add32 (at_ h 0) a; add32 (at_ h 1) b; add32 (at_ h 2) cc; add32 (at_ h 3) d].

(** *** SHA-1 *)

Definition sha1H0 : list Z := [0x67452301; 0xEFCDAB89; 0x98BADCFE; 0x10325476; 0xC3D2E1F0].

(** The message schedule, built by appending [w[i]] for [i = 16 .. 79]. *)
Definition sha1Schedule (p : bytes) : list Z :=
  foldl (fun w i => w ++ [rotl32 (at_ w (i - 3) ^. at_ w (i - 8) ^. at_ w (i - 14)
                                    ^. at_ w (i - 16)) 1])
        (be32 p <$> seq 0 16) (seq 16 64).

Definition sha1Round (w : list Z) (s : Z * Z * Z * Z * Z) (i : nat) : Z * Z * Z * Z * Z :=
  let '(a, b, cc, d, e) := s in
  let '(f, k) :=
    if (i <? 20)%nat then ((b &. cc) |. (not32 b &. d), 0x5A827999)
    else if (i <? 40)%nat then (b ^. cc ^. d, 0x6ED9EBA1)
    else if (i <? 60)%nat then ((b &. cc) |. (b &. d) |. (cc &. d), 0x8F1BBCDC)
    else (b ^. cc ^. d, 0xCA62C1D6) in
  let t := u32 (rotl32 a 5 + f + e + k + at_ w i) in
  (t, a, rotl32 b 30, cc, d).

Definition sha1Block (h : list Z) (p : bytes) : list Z :=
  let w := sha1Schedule p in
  let '(a, b, cc, d, e) :=
    foldl (sha1Round w) (at_ h 0, at_ h 1, at_ h 2, at_ h 3, at_ h 4) (seq 0 80) in
  [add32 (at_ h 0) a; add32 (at_ h 1) b; add32 (at_ h 2) cc; add32 (at_ h 3) d;
   add32 (at_ h 4) e].

(** *** SHA-256 *)

Definition sha256K : list Z := Eval cbv in
  mjoin [
    [0x428a2f98; 0x71374491; 0xb5c0fbcf; 0xe9b5dba5];
    [0x3956c25b; 0x59f111f1; 0x923f82a4; 0xab1c5ed5];
    [0xd807aa98; 0x12835b01; 0x243185be; 0x550c7dc3];
    [0x72be5d74; 0x80deb1fe; 0x9bdc06a7; 0xc19bf174];
    [0xe49b69c1; 0xefbe4786; 0x0fc19dc6; 0x240ca1cc];
    [0x2de92c6f; 0x4a7484aa; 0x5cb0a9dc; 0x76f988da];
    [0x983e5152; 0xa831c66d; 0xb00327c8; 0xbf597fc7];
    [0xc6e00bf3; 0xd5a79147; 0x06ca6351; 0x14292967];
    [0x27b70a85; 0x2e1b2138; 0x4d2c6dfc; 0x53380d13];
    [0x650a7354; 0x766a0abb; 0x81c2c92e; 0x92722c85];
    [0xa2bfe8a1; 0xa81a664b; 0xc24b8b70; 0xc76c51a3];
    [0xd192e819; 0xd6990624; 0xf40e3585; 0x106aa070];
    [0x19a4c116; 0x1e376c08; 0x2748774c; 0x34b0bcb5];
    [0x391c0cb3; 0x4ed8aa4a; 0x5b9cca4f; 0x682e6ff3];
    [0x748f82ee; 0x78a5636f; 0x84c87814; 0x8cc70208];
    [0x90befffa; 0xa4506ceb; 0xbef9a3f7; 0xc67178f2] ].

Definition sha256H0 : list Z := [
  0x6a09e667; 0xbb67ae85; 0x3c6ef372; 0xa54ff53a; 0x510e527f; 0x9b05688c; 0x1f83d9ab; 0x5be0cd19].

Definition sha256Schedule (p : bytes) : list Z :=
  foldl (fun w i =>
           let w15 := at_ w (i - 15) in let w2 := at_ w (i - 2) in
           let s0 := rotr32 w15 7 ^. rotr32 w15 18 ^. (w15 >>. 3) in
           let s1 := rotr32 w2 17 ^. rotr32 w2 19 ^. (w2 >>. 10) in
           w ++ [u32 (at_ w (i - 16) + s0 + at_ w (i - 7) + s1)])
        (be32 p <$> seq 0 16) (seq 16 48).

Definition sha256Round (w : list Z) (s : list Z) (i : nat) : list Z :=
  match s with
  | [a; b; cc; d; e; f; g; h] =>
      let S1 := rotr32 e 6 ^. rotr32 e 11 ^. rotr32 e 25 in
      let ch := (e &. f) ^. (not32 e &. g) in
      let t1 := u32 (h + S1 + ch + at_ sha256K i + at_ w i) in
      let S0 := rotr32 a 2 ^. rotr32 a 13 ^. rotr32 a 22 in
      let maj := (a &. b) ^. (a &. cc) ^. (b &. cc) in
      let t2 := add32 S0 maj in
      [add32 t1 t2; a; b; cc; add32 d t1; e; f; g]
  | _ => s
  end.

Definition sha256Block (h : list Z) (p : bytes) : list Z :=
  zip_with add32 h (foldl (sha256Round (sha256Schedule p)) h (seq 0 64)).

(** ** Streaming contexts *)

(** What distinguishes the three digests. *)
Record HashFn := {
  hInit : list Z;                      (* initial chaining value *)
  hBlock : list Z -> bytes -> list Z;  (* compression of one 64-byte block *)
  hLenBytes : Z -> bytes;              (* the 8 bytes of the bit count *)
  hOut : list Z -> bytes;              (* the digest of a chaining value *)
}.

(** [MD5Ctx], [SHA1Ctx], [SHA256Ctx]: chaining value, total byte count, buffered bytes. *)
Record Ctx := mkCtx { cH : list Z; cLen : Z; cBuf : bytes }.

Definition leOut (w : Z) : bytes := [u8 w; u8 (w >>. 8); u8 (w >>. 16); u8 (w >>. 24)].
Definition beOut (w : Z) : bytes := [u8 (w >>. 24); u8 (w >>. 16); u8 (w >>. 8); u8 w].

Definition md5Fn : HashFn := {|
  hInit := md5H0; hBlock := md5Block;
  hLenBytes bits := (fun i => u8 (bits >>. (8 * i))) <$> seqZ 0 8;
  hOut h := mjoin (leOut <$> h) |}.

Definition sha1Fn : HashFn := {|
  hInit := sha1H0; hBlock := sha1Block; hLenBytes := writeU64Be;
  hOut h := mjoin (beOut <$> h) |}.

Definition sha256Fn : HashFn := {|
  hInit := sha256H0; hBlock := sha256Block; hLenBytes := writeU64Be;
  hOut h := mjoin (beOut <$> h) |}.

Section Stream.
Context (H : HashFn).

Definition init : Ctx := mkCtx (hInit H) 0 [].

(** [while (len >= 64) { block(data); data += 64; len -= 64; }]; each turn consumes 64
    bytes, so the length of the data is enough fuel. *)
Fixpoint blocks (fuel : nat) (h : list Z) (data : bytes) : list Z * bytes :=
  match fuel with
  | O => (h, data)
  | S fuel' =>
      if (64 <=? length data)%nat
      then blocks fuel' (hBlock H h (take 64 data)) (drop 64 data)
      else (h, data)
  end.

Definition update (c : Ctx) (data : bytes) : Ctx :=
  let len := u64 (cLen c + Z.of_nat (length data)) in
  let '(h, buf, data) :=
    if (length (cBuf c) =? 0)%nat then (cH c, cBuf c, data)
    else
      let need := (64 - length (cBuf c))%nat in
      let take_ := (need `min` length data)%nat in
      let buf := cBuf c ++ take take_ data in
      if (length buf =? 64)%nat then (hBlock H (cH c) buf, [], drop take_ data)
      else (cH c, buf, drop take_ data) in
  let '(h, rest) := blocks (length data) h data in
  mkCtx h len (if (length rest =? 0)%nat then buf else rest).

(** [while (c.bufLen != 56) Update(c, &zero, 1)]. *)
Fixpoint padZeros (fuel : nat) (c : Ctx) : option Ctx :=
  match fuel with
  | O => None
  | S fuel' => if (length (cBuf c) =? 56)%nat then Some c else padZeros fuel' (update c [0])
  end.

Definition final (c : Ctx) : option bytes :=
  let bits := u64 (cLen c * 8) in
  let c := update c [128] in
  c ← padZeros 64 c;
  Some (hOut H (cH (update c (hLenBytes H bits)))).

Definition digest (data : bytes) : option bytes := final (update init data).

End Stream.

(** The functions of the source, as instances. *)
Definition md5Init : Ctx := init md5Fn.
Definition md5Update : Ctx -> bytes -> Ctx := update md5Fn.
Definition md5Final : Ctx -> option bytes := final md5Fn.
Definition sha1Init : Ctx := init sha1Fn.
Definition sha1Update : Ctx -> bytes -> Ctx := update sha1Fn.
Definition sha1Final : Ctx -> option bytes := final sha1Fn.
Definition sha256Init : Ctx := init sha256Fn.
Definition sha256Update : Ctx -> bytes -> Ctx := update sha256Fn.
Definition sha256Final : Ctx -> option bytes := final sha256Fn.

Definition md5 (data : bytes) : bytes := default [] (md5Final (md5Update md5Init data)).
Definition sha1 (data : bytes) : bytes := default [] (sha1Final (sha1Update sha1Init data)).
Definition sha256 (data : bytes) : bytes :=
  default [] (sha256Final (sha256Update sha256Init data)).

(** ** HMAC *)

(** [hmacImpl]: the key is hashed when it is longer than a block and zero-padded to 64
    bytes. *)
Definition hmacImpl (H : HashFn) (key msg : bytes) : option bytes :=
  k0 ← (if (length key <=? 64)%nat then Some (resize 64 key)
        else k ← final H (update H (init H) key); Some (resize 64 k));
  let ipad := (fun b => u8 (b ^. 0x36)) <$> k0 in
  let opad := (fun b => u8 (b ^. 0x5c)) <$> k0 in
  innerDigest ← final H (update H (update H (init H) ipad) msg);
  final H (update H (update H (init H) opad) innerDigest).

Definition hmacSha1 (key msg : bytes) : bytes := default [] (hmacImpl sha1Fn key msg).
Definition hmacSha256 (key msg : bytes) : bytes := default [] (hmacImpl sha256Fn key msg).

(** ** CRC-32 *)

Definition crcPoly : Z := 0xEDB88320.

(** One step of the table construction, [c = (c & 1) ? poly ^ (c >> 1) : c >> 1]. *)
Definition crcStep (c : Z) : Z :=
  if (c &. 1 =? 0) then c >>. 1 else crcPoly ^. (c >>. 1).

Definition crcTable : list Z := (fun i => Nat.iter 8 crcStep i) <$> seqZ 0 256.

Definition crcUpdate (crc b : Z) : Z :=
  at_ crcTable (Z.to_nat ((crc ^. b) &. 255)) ^. (crc >>. 8).

Definition crc32 (data : bytes) : Z := foldl crcUpdate 0xFFFFFFFF data ^. 0xFFFFFFFF.

(** ** Strings and keys *)

(** The bytes of a [std::string]. *)
Definition bytes_of_string (s : string) : bytes :=
  (fun c => Z.of_N (Ascii.N_of_ascii c)) <$> String.list_ascii_of_string s.

Definition string_of_bytes (l : bytes) : string :=
  String.string_of_list_ascii ((fun b => Ascii.ascii_of_N (Z.to_N b)) <$> l).

Definition longTermKey (username realm password : string) : bytes :=
  md5 (bytes_of_string (username +:+ ":" +:+ realm +:+ ":" +:+ password)).

Definition base64Alphabet : string :=
  "ABCDEFGHIJKLMNOPQRSTUVWXYZabcdefghijklmnopqrstuvwxyz0123456789+/".

(** The random word and string generators, over the bytes the CSPRNG delivers ([None] when
    [randomBytes] fails). *)
Definition randomU32 (rnd : option bytes) : Z :=
  default 0 (b ← rnd; readU32Be b 0).

Definition randomU64 (rnd : option bytes) : Z :=
  default 0 (b ← rnd; hi ← readU32Be b 0; lo ← readU32Be b 4; Some ((hi <<. 32) |. lo)).

(** [randomStr64]: [rnd k] is the [k]-th buffer of 32 random bytes; a failed read counts
    as 32 zero bytes. *)
Definition randomStr64 (rnd : nat -> option bytes) (len : nat) : string :=
  String.string_of_list_ascii
    ((fun j => let buf := default (replicate 32 0) (rnd (j / 32)%nat) in
               default Ascii.zero
                 (String.list_ascii_of_string base64Alphabet
                    !! Z.to_nat (at_ buf (j mod 32) &. 63)))
     <$> seq 0 len).

(** RFC 1321, FIPS 180-4, RFC 2202 and IEEE 802.3 test vectors. *)
Example md5_abc : md5 (bytes_of_string "abc") =
  [0x90;0x01;0x50;0x98;0x3c;0xd2;0x4f;0xb0;0xd6;0x96;0x3f;0x7d;0x28;0xe1;0x7f;0x72].
Proof. vm_compute. reflexivity. Qed.

Example sha1_abc : sha1 (bytes_of_string "abc") =
  [0xA9;0x99;0x3E;0x36;0x47;0x06;0x81;0x6A;0xBA;0x3E;0x25;0x71;0x78;0x50;0xC2;0x6C;
   0x9C;0xD0;0xD8;0x9D].
Proof. vm_compute. reflexivity. Qed.

Example sha256_abc : sha256 (bytes_of_string "abc") =
  [0xBA;0x78;0x16;0xBF;0x8F;0x01;0xCF;0xEA;0x41;0x41;0x40;0xDE;0x5D;0xAE;0x22;0x23;
   0xB0;0x03;0x61;0xA3;0x96;0x17;0x7A;0x9C;0xB4;0x10;0xFF;0x61;0xF2;0x00;0x15;0xAD].
Proof. vm_compute. reflexivity. Qed.

Example hmacSha1_rfc2202 :
  hmacSha1 (bytes_of_string "Jefe") (bytes_of_string "what do ya want for nothing?") =
  [0xef;0xfc;0xdf;0x6a;0xe5;0xeb;0x2f;0xa2;0xd2;0x74;0x16;0xd5;0xf1;0x84;0xdf;0x9c;
   0x25;0x9a;0x7c;0x79].
Proof. vm_compute. reflexivity. Qed.

Example crc32_check : crc32 (bytes_of_string "123456789") = 0xCBF43926.
Proof. vm_compute. reflexivity. Qed.

(** ** The digests of the standards *)

Section Digest.
Context (H : HashFn).

(** Compression of all full blocks of a message, and the bytes left over. *)
Definition run (h : list Z) (m : bytes) : list Z * bytes := blocks H (length m) h m.

(** Merkle-Damgaard padding: a 1 bit, zeros up to 56 modulo 64, the bit count. *)
Definition pad (m : bytes) : bytes :=
  m ++ [128] ++ replicate ((119 - length m mod 64) mod 64) 0
    ++ hLenBytes H (u64 (Z.of_nat (length m) * 8)).

Definition digest_spec (m : bytes) : bytes := hOut H (run (hInit H) (pad m)).1.

(** The context that holds the message [m]. *)
Definition ctx_of (m : bytes) : Ctx :=
  let r := run (hInit H) m in mkCtx r.1 (u64 (Z.of_nat (length m))) r.2.

Lemma blocks_fuel fuel fuel' h m :
  (length m <= fuel)%nat -> (length m <= fuel')%nat -> blocks H fuel h m = blocks H fuel' h m.
Proof.
  revert fuel' h m. induction fuel as [|fuel IH]; intros fuel' h m H1 H2; cbn [blocks].
  - destruct fuel'; cbn [blocks]; [done|]. destruct (Nat.leb_spec 64 (length m)); [lia|done].
  - destruct fuel'; cbn [blocks].
    + destruct (Nat.leb_spec 64 (length m)); [lia|done].
    + destruct (Nat.leb_spec 64 (length m)); [|done].
      apply IH; rewrite length_drop; lia.
Qed.

Lemma run_short h m : (length m < 64)%nat -> run h m = (h, m).
Proof.
  intros Hm. unfold run. destruct (length m) eqn:E; cbn [blocks]; [done|].
  rewrite E. destruct (Nat.leb_spec 64 (S n)); [lia|done].
Qed.

Lemma run_block h b m :
  length b = 64%nat -> run h (b ++ m) = run (hBlock H h b) m.
Proof.
  intros Hb. unfold run. rewrite length_app, Hb.
  change (64 + length m)%nat with (S (63 + length m)). cbn [blocks].
  rewrite length_app, Hb.
  destruct (Nat.leb_spec 64 (64 + length m)); [|lia].
  rewrite (take_app_length' b m 64), (drop_app_length' b m 64) by done.
  apply blocks_fuel; lia.
Qed.

Lemma run_drop h m :
  (64 <= length m)%nat -> run h m = run (hBlock H h (take 64 m)) (drop 64 m).
Proof.
  intros Hm. rewrite <- (take_drop 64 m) at 1. apply run_block. rewrite length_take; lia.
Qed.

(** A message is its full blocks followed by the remainder. *)
Lemma run_app h a b : run h (a ++ b) = run (run h a).1 ((run h a).2 ++ b).
Proof.
  remember (length a) as n eqn:Hn. revert h a Hn.
  induction (lt_wf n) as [n _ IH]; intros h a Hn.
  destruct (Nat.lt_ge_cases (length a) 64) as [Hs|Hl].
  - by rewrite (run_short h a).
  - rewrite run_drop by (rewrite length_app; lia). rewrite (run_drop h a) by done.
    rewrite <- (IH (length (drop 64 a))) by (rewrite ?length_drop; lia).
    by rewrite take_app_le, drop_app_le by lia.
Qed.

Lemma run_rest_length h m : length (run h m).2 = (length m mod 64)%nat.
Proof.
  remember (length m) as n eqn:Hn. revert h m Hn.
  induction (lt_wf n) as [n _ IH]; intros h m Hn.
  destruct (Nat.lt_ge_cases (length m) 64) as [Hs|Hl].
  - rewrite run_short by done. cbn [snd]. rewrite Nat.mod_small; lia.
  - rewrite run_drop by done.
    rewrite (IH (length (drop 64 m))) by (rewrite ?length_drop; lia).
    rewrite length_drop. lia.
Qed.

Lemma u64_add a b : u64 (u64 a + b) = u64 (a + b).
Proof. unfold wrap. by rewrite Zplus_mod_idemp_l. Qed.

(** Feeding a chunk to the context of [m] gives the context of [m] and the chunk: how the
    caller splits a message does not matter. *)
Lemma update_ctx_of m data : update H (ctx_of m) data = ctx_of (m ++ data).
Proof.
  pose proof (run_rest_length (hInit H) m) as Hr.
  unfold update, ctx_of. cbn [cBuf cH cLen].
  rewrite run_app, (length_app m data), Nat2Z.inj_add, u64_add.
  destruct (run (hInit H) m) as [h r]; cbn [fst snd] in *.
  assert (Hlt : (length r < 64)%nat) by (rewrite Hr; lia). clear Hr.
  destruct (Nat.eqb_spec (length r) 0) as [E0|E0].
  { apply nil_length_inv in E0 as ->. cbn [app]. unfold run.
    destruct (blocks H (length data) h data) as [h' rest] eqn:E. cbn [fst snd].
    by destruct rest. }
  rewrite length_app, length_take.
  destruct (Nat.lt_ge_cases (length r + length data) 64) as [Hs|Hl].
  - rewrite (Nat.min_r (64 - length r)) by lia. rewrite Nat.min_id.
    destruct (Nat.eqb_spec (length r + length data) 64); [lia|].
    rewrite drop_ge, take_ge by lia. cbn [length blocks].
    rewrite run_short by (rewrite length_app; lia). done.
  - rewrite (Nat.min_l (64 - length r)) by lia.
    rewrite (Nat.min_l (64 - length r)) by lia.
    replace (length r + (64 - length r))%nat with 64%nat by lia. rewrite Nat.eqb_refl.
    assert (E : run h (r ++ data) =
                run (hBlock H h (r ++ take (64 - length r) data)) (drop (64 - length r) data)).
    { rewrite <- run_block, <- app_assoc, take_drop; [done|].
      rewrite length_app, length_take; lia. }
    rewrite E. unfold run. set (d := drop (64 - length r) data).
    destruct (blocks H (length d) _ d) as [h' rest]. cbn [fst snd]. by destruct rest.
Qed.

Lemma init_ctx_of : init H = ctx_of [].
Proof. done. Qed.

Lemma ctx_of_buf m : length (cBuf (ctx_of m)) = (length m mod 64)%nat.
Proof. apply run_rest_length. Qed.

(** The zero-padding loop stops after the [k] zeros that complete the block, for any fuel
    above [k]. *)
Lemma padZeros_ctx_of k fuel m :
  (k < fuel)%nat -> (k < 64)%nat -> ((length m + k) mod 64 = 56)%nat ->
  padZeros H fuel (ctx_of m) = Some (ctx_of (m ++ replicate k 0)).
Proof.
  revert fuel m. induction k as [|k IH]; intros [|fuel] m Hf Hk Hm; [lia| |lia|];
    cbn [padZeros]; rewrite ctx_of_buf.
  - rewrite Nat.add_0_r in Hm. by rewrite Hm, Nat.eqb_refl, app_nil_r.
  - destruct (Nat.eqb_spec (length m mod 64) 56); [lia|].
    rewrite update_ctx_of, IH by (rewrite ?length_app; cbn [length]; lia).
    by rewrite <- app_assoc.
Qed.

(** [final] on the context of [m] is total and gives the digest of the standard. *)
Lemma final_ctx_of m : final H (ctx_of m) = Some (digest_spec m).
Proof.
  unfold final, digest_spec, pad.
  change (cLen (ctx_of m)) with (u64 (Z.of_nat (length m))).
  replace (u64 (u64 (Z.of_nat (length m)) * 8)) with (u64 (Z.of_nat (length m) * 8))
    by (unfold wrap; by rewrite Zmult_mod_idemp_l).
  rewrite update_ctx_of.
  rewrite (padZeros_ctx_of ((119 - length m mod 64) mod 64))
    by (rewrite ?length_app; cbn [length]; lia).
  cbn [mbind option_bind]. by rewrite update_ctx_of, <- !app_assoc.
Qed.

Lemma final_update_chunks (chunks : list bytes) :
  final H (foldl (update H) (init H) chunks) = Some (digest_spec (mjoin chunks)).
Proof.
  rewrite init_ctx_of, <- (app_nil_l (mjoin chunks)). generalize (@nil Z) as m.
  induction chunks as [|c cs IH]; intros m; simpl.
  - rewrite app_nil_r. apply final_ctx_of.
  - by rewrite update_ctx_of, IH, app_assoc.
Qed.

Lemma final_update1 m : final H (update H (init H) m) = Some (digest_spec m).
Proof. rewrite init_ctx_of, update_ctx_of. apply final_ctx_of. Qed.

Lemma final_update2 a m :
  final H (update H (update H (init H) a) m) = Some (digest_spec (a ++ m)).
Proof. rewrite init_ctx_of, !update_ctx_of. apply final_ctx_of. Qed.

(** RFC 2104 over the digest. *)
Definition hmac_spec (key m : bytes) : bytes :=
  let k0 := resize 64 (if (length key <=? 64)%nat then key else digest_spec key) in
  digest_spec (((fun b => u8 (b ^. 0x5c)) <$> k0) ++
               digest_spec (((fun b => u8 (b ^. 0x36)) <$> k0) ++ m)).

Lemma hmacImpl_spec key m : hmacImpl H key m = Some (hmac_spec key m).
Proof.
  unfold hmacImpl, hmac_spec. generalize final_update1 final_update2.
  generalize (final H) (update H) (init H) digest_spec. intros F U i D H1 H2.
  rewrite H1. destruct (length key <=? 64)%nat; simpl; rewrite H2; simpl; apply H2.
Qed.

End Digest.

(** ** Digest sizes *)

(** What HMAC and the message codec rely on: a digest is [n] 32-bit words. *)
Class DigestWords (H : HashFn) (n : nat) := {
  dw_init : length (hInit H) = n;
  dw_block h p : length h = n -> length (hBlock H h p) = n;
  dw_out h : length (hOut H h) = (4 * length h)%nat /\ bytes_ok (hOut H h);
}.

Lemma mjoin_out_words (f : Z -> bytes) h :
  (forall w, length (f w) = 4%nat /\ bytes_ok (f w)) ->
  length (mjoin (f <$> h)) = (4 * length h)%nat /\ bytes_ok (mjoin (f <$> h)).
Proof.
  intros Hf. induction h as [|w h [IHl IHo]]; [done|].
  change (mjoin (f <$> w :: h)) with (f w ++ mjoin (f <$> h)). destruct (Hf w) as [Hl Ho]. split; [|by apply bytes_ok_app].
  rewrite length_app, Hl. cbn [length]. lia.
Qed.

Lemma leOut_ok w : length (leOut w) = 4%nat /\ bytes_ok (leOut w).
Proof. split; [done|]. repeat constructor; by apply wrap_fits. Qed.

Lemma beOut_ok w : length (beOut w) = 4%nat /\ bytes_ok (beOut w).
Proof. split; [done|]. repeat constructor; by apply wrap_fits. Qed.

#[export] Instance md5_words : DigestWords md5Fn 4.
Proof.
  split; [done| |].
  - intros h p _. unfold hBlock, md5Fn, md5Block.
    by destruct (foldl _ _ _) as [[[? ?] ?] ?].
  - intros h. apply mjoin_out_words, leOut_ok.
Qed.

#[export] Instance sha1_words : DigestWords sha1Fn 5.
Proof.
  split; [done| |].
  - intros h p _. unfold hBlock, sha1Fn, sha1Block.
    by destruct (foldl _ _ _) as [[[[? ?] ?] ?] ?].
  - intros h. apply mjoin_out_words, beOut_ok.
Qed.

Lemma sha256Round_length w s i : length s = 8%nat -> length (sha256Round w s i) = 8%nat.
Proof. by destruct s as [|? [|? [|? [|? [|? [|? [|? [|? [|? ?]]]]]]]]]. Qed.

Lemma foldl_inv {A B} (P : A -> Prop) (f : A -> B -> A) a l :
  (forall a b, P a -> P (f a b)) -> P a -> P (foldl f a l).
Proof. intros Hf. revert a. induction l as [|b l IH]; intros a Ha; [done|]. by apply IH, Hf. Qed.

#[export] Instance sha256_words : DigestWords sha256Fn 8.
Proof.
  split; [done| |].
  - intros h p Hh. unfold hBlock, sha256Fn, sha256Block.
    rewrite length_zip_with, Hh.
    rewrite (foldl_inv (fun s => length s = 8%nat)); [done| |done].
    intros. by apply sha256Round_length.
  - intros h. apply mjoin_out_words, beOut_ok.
Qed.

Section Sizes.
Context (H : HashFn) {n} `{!DigestWords H n}.

Lemma blocks_words fuel h m : length h = n -> length (blocks H fuel h m).1 = n.
Proof.
  revert h m. induction fuel as [|fuel IH]; intros h m Hh; cbn [blocks]; [done|].
  destruct (64 <=? length m)%nat; [|done]. by apply IH, dw_block.
Qed.

Lemma digest_spec_ok m : length (digest_spec H m) = (4 * n)%nat /\ bytes_ok (digest_spec H m).
Proof.
  unfold digest_spec, run. destruct (dw_out (H := H) (blocks H (length (pad H m)) (hInit H) (pad H m)).1)
    as [Hl Ho]. split; [|done].
  rewrite Hl, blocks_words; [done|]. apply dw_init.
Qed.

End Sizes.

Lemma hmacSha1_spec key m : hmacSha1 key m = hmac_spec sha1Fn key m.
Proof. unfold hmacSha1. by rewrite hmacImpl_spec. Qed.

Lemma hmacSha1_ok key m : length (hmacSha1 key m) = 20%nat /\ bytes_ok (hmacSha1 key m).
Proof. rewrite hmacSha1_spec. unfold hmac_spec. apply (digest_spec_ok sha1Fn (n := 5)). Qed.

Lemma md5_digest m : md5 m = digest_spec md5Fn m.
Proof. unfold md5, md5Final, md5Update, md5Init. by rewrite final_update1. Qed.

Lemma longTermKey_ok u r p : length (longTermKey u r p) = 16%nat /\ bytes_ok (longTermKey u r p).
Proof. unfold longTermKey. rewrite md5_digest. apply (digest_spec_ok md5Fn (n := 4)). Qed.

(** ** CRC-32 as polynomial division *)

(** The CRC of a message bit by bit: each byte is added to the register and divided by the
    polynomial, eight single-bit steps. *)
Definition crcBitwise (data : bytes) : Z :=
  foldl (fun crc b => Nat.iter 8 crcStep (crc ^. b)) 0xFFFFFFFF data ^. 0xFFFFFFFF.

Lemma land_1_odd c : (c &. 1 =? 0) = negb (Z.odd c).
Proof.
  change 1 with (Z.ones 1). rewrite Z.land_ones by lia. change (2 ^ 1) with 2.
  rewrite Zmod_odd. by destruct (Z.odd c).
Qed.

Lemma crcStep_alt c : crcStep c = (if Z.odd c then crcPoly else 0) ^. (c >>. 1).
Proof. unfold crcStep. rewrite land_1_odd. by destruct (Z.odd c). Qed.

Lemma crcStep_lxor a b : crcStep (a ^. b) = crcStep a ^. crcStep b.
Proof.
  rewrite !crcStep_alt, Z.shiftr_lxor.
  assert (Ho : Z.odd (a ^. b) = xorb (Z.odd a) (Z.odd b))
    by (rewrite <- !Z.bit0_odd; apply Z.lxor_spec).
  rewrite Ho. generalize (a >>. 1) (b >>. 1). intros x y.
  apply Z.bits_inj'. intros i _. rewrite !Z.lxor_spec.
  destruct (Z.odd a), (Z.odd b); cbn [xorb]; rewrite ?Z.bits_0;
    destruct (Z.testbit crcPoly i), (Z.testbit x i), (Z.testbit y i); done.
Qed.

Lemma crcIter_lxor n a b :
  Nat.iter n crcStep (a ^. b) = Nat.iter n crcStep a ^. Nat.iter n crcStep b.
Proof. induction n as [|n IH]; simpl; [done|]. by rewrite IH, crcStep_lxor. Qed.

Lemma crcStep_fits c : fits 32 c -> fits 32 (crcStep c).
Proof.
  intros Hc. rewrite crcStep_alt. apply fits_lxor; [lia| |by apply fits_shiftr].
  destruct (Z.odd c); vm_compute; split; congruence.
Qed.

Lemma crcIter_fits n c : fits 32 c -> fits 32 (Nat.iter n crcStep c).
Proof. intros Hc. induction n; simpl; [done|]. by apply crcStep_fits. Qed.

(** Eight steps shift a register whose low byte is clear. *)
Lemma crcIter_shift (n : nat) c :
  Nat.iter n crcStep (c <<. Z.of_nat n) = c.
Proof.
  induction n as [|n IH]; [apply Z.shiftl_0_r|].
  rewrite Nat.iter_succ_r, crcStep_alt.
  replace (Z.of_nat (S n)) with (Z.of_nat n + 1) by lia.
  rewrite <- Z.shiftl_shiftl, <- Z.bit0_odd by lia.
  rewrite Z.shiftl_spec_low by lia. rewrite Z.lxor_0_l, Z.shiftr_shiftl_l by lia.
  by rewrite Z.sub_diag, Z.shiftl_0_r.
Qed.

Lemma split_low_byte c : c = ((c >>. 8) <<. 8) ^. (c &. 255).
Proof.
  apply Z.bits_inj'. intros i Hi.
  change 255 with (Z.ones 8). rewrite Z.lxor_spec, Z.land_spec, Z.shiftl_spec by lia.
  destruct (decide (i < 8)).
  - rewrite (Z.testbit_neg_r _ (i - 8)), Z.ones_spec_low by lia.
    by rewrite andb_true_r.
  - rewrite Z.shiftr_spec, Z.ones_spec_high by lia.
    replace (i - 8 + 8) with i by lia. by rewrite andb_false_r, xorb_false_r.
Qed.

Lemma crcTable_at i : is_byte i -> at_ crcTable (Z.to_nat i) = Nat.iter 8 crcStep i.
Proof.
  intros Hi. unfold crcTable.
  assert (E : ((fun i => Nat.iter 8 crcStep i) <$> seqZ 0 256) !! Z.to_nat i
              = Some (Nat.iter 8 crcStep i)).
  { rewrite list_lookup_fmap, lookup_seqZ_lt by width. simpl. repeat f_equal; width. }
  by apply nth_lookup_Some.
Qed.

(** One table step is eight division steps. *)
Lemma crcUpdate_bitwise crc b :
  is_byte b -> crcUpdate crc b = Nat.iter 8 crcStep (crc ^. b).
Proof.
  intros Hb. unfold crcUpdate. rewrite crcTable_at.
  - rewrite (split_low_byte (crc ^. b)) at 2. rewrite crcIter_lxor.
    rewrite (crcIter_shift 8), Z.lxor_comm. f_equal.
    rewrite Z.shiftr_lxor. rewrite (shiftr_div 8 b) by lia.
    rewrite Z.div_small, Z.lxor_0_r by width. done.
  - rewrite mask_byte. width.
Qed.

Lemma crc_foldl_bitwise crc data :
  bytes_ok data ->
  foldl crcUpdate crc data = foldl (fun c b => Nat.iter 8 crcStep (c ^. b)) crc data.
Proof.
  intros Hd. revert crc. induction Hd as [|b data Hb _ IH]; intros crc; [done|].
  simpl. rewrite crcUpdate_bitwise by done. apply IH.
Qed.

(** The polynomial has its top bit set, so a division step can be undone. *)
Lemma crcStep_inj a b : fits 32 a -> fits 32 b -> crcStep a = crcStep b -> a = b.
Proof.
  intros Ha Hb E. rewrite !crcStep_alt in E.
  assert (Hodd : forall c, fits 32 c ->
            Z.testbit ((if Z.odd c then crcPoly else 0) ^. (c >>. 1)) 31 = Z.odd c).
  { intros c Hc. rewrite Z.lxor_spec, Z.shiftr_spec by lia.
    rewrite (fits_testbit 32 c (31 + 1)) by (done || lia).
    by destruct (Z.odd c). }
  pose proof (f_equal (fun z => Z.testbit z 31) E) as Eo. cbv beta in Eo.
  rewrite !Hodd in Eo by done. rewrite Eo in E.
  apply (f_equal (Z.lxor (if Z.odd b then crcPoly else 0))) in E.
  rewrite <- !Z.lxor_assoc, Z.lxor_nilpotent, !Z.lxor_0_l, !shiftr_div in E by lia.
  change (2 ^ 1) with 2 in E. rewrite (Zdiv.Z_div_mod_eq_full a 2), (Zdiv.Z_div_mod_eq_full b 2), E.
  f_equal. by rewrite !Zmod_odd, Eo.
Qed.

Lemma crcIter_inj n a b :
  fits 32 a -> fits 32 b -> Nat.iter n crcStep a = Nat.iter n crcStep b -> a = b.
Proof.
  intros Ha Hb. induction n as [|n IH]; simpl; [done|]. intros E.
  apply IH, crcStep_inj; [by apply crcIter_fits..|done].
Qed.

Lemma lxor_inj_r m a b : a ^. m = b ^. m -> a = b.
Proof. intros E. rewrite <- (lxor_cancel a m), E. apply lxor_cancel. Qed.

Lemma byte_fits32 b : is_byte b -> fits 32 b.
Proof. apply fits_mono; lia. Qed.

#[export] Hint Resolve byte_fits32 : stice.

Lemma crcReg_fits crc data : fits 32 crc -> bytes_ok data -> fits 32 (foldl crcUpdate crc data).
Proof.
  intros Hc Hd. revert crc Hc. induction Hd as [|b data Hb _ IH]; intros crc Hc; [done|].
  simpl. apply IH. rewrite crcUpdate_bitwise by done.
  apply crcIter_fits, fits_lxor; [lia|done|by apply byte_fits32].
Qed.

Lemma crc32_fits data : bytes_ok data -> fits 32 (crc32 data).
Proof. intros Hd. apply fits_lxor; [lia|apply crcReg_fits; [width|done]|width]. Qed.

Lemma crcReg_inj data c1 c2 :
  bytes_ok data -> fits 32 c1 -> fits 32 c2 ->
  foldl crcUpdate c1 data = foldl crcUpdate c2 data -> c1 = c2.
Proof.
  intros Hd. revert c1 c2. induction Hd as [|b data Hb _ IH]; intros c1 c2 H1 H2; [done|].
  simpl. rewrite !crcUpdate_bitwise by done. intros E.
  apply (lxor_inj_r b), (crcIter_inj 8).
  - apply fits_lxor; [lia|done|by apply byte_fits32].
  - apply fits_lxor; [lia|done|by apply byte_fits32].
  - apply IH; [apply crcIter_fits, fits_lxor; [lia|done|by apply byte_fits32]..|done].
Qed.

(** ** Properties *)

(** The streaming interface computes the digests of the standards.  For every way of
    splitting a message into chunks, Init, one Update per chunk and Final return (the
    zero-padding loop of Final terminates) the Merkle-Damgaard digest of the concatenated
    message: compression of the blocks of the padded message, the bit count modulo 2^64. *)
Theorem digest_streaming (chunks : list bytes) :
  md5Final (foldl md5Update md5Init chunks) = Some (digest_spec md5Fn (mjoin chunks)) /\
  sha1Final (foldl sha1Update sha1Init chunks) = Some (digest_spec sha1Fn (mjoin chunks)) /\
  sha256Final (foldl sha256Update sha256Init chunks) = Some (digest_spec sha256Fn (mjoin chunks)).
Proof. split; [|split]; apply final_update_chunks. Qed.

(** HMAC-SHA1 and HMAC-SHA256 are the construction of RFC 2104 for keys of every
    length, and their results have 20 and 32 bytes. *)
Theorem hmac_rfc2104 (key msg : bytes) :
  hmacSha1 key msg = hmac_spec sha1Fn key msg /\ length (hmacSha1 key msg) = 20%nat /\
  hmacSha256 key msg = hmac_spec sha256Fn key msg /\ length (hmacSha256 key msg) = 32%nat.
Proof.
  assert (E : hmacSha256 key msg = hmac_spec sha256Fn key msg)
    by (unfold hmacSha256; by rewrite hmacImpl_spec).
  split; [apply hmacSha1_spec|]. split; [apply hmacSha1_ok|]. split; [done|].
  rewrite E. unfold hmac_spec. apply (digest_spec_ok sha256Fn (n := 8)).
Qed.

(** The table-driven CRC-32 equals the bitwise division by the reflected polynomial
    0xEDB88320 on every byte string, and the result is a 32-bit word. *)
Theorem crc32_table_correct (data : bytes) :
  bytes_ok data -> crc32 data = crcBitwise data /\ fits 32 (crc32 data).
Proof.
  intros Hd. unfold crc32, crcBitwise. rewrite crc_foldl_bitwise at 1 by done.
  split; [done|]. by apply crc32_fits.
Qed.

Lemma crc32_table_correct_witness :
  bytes_ok [0x31; 0x32; 0x33] /\
  (crc32 [0x31; 0x32; 0x33] = crcBitwise [0x31; 0x32; 0x33] /\ fits 32 (crc32 [0x31; 0x32; 0x33])).
Proof.
  assert (H : bytes_ok [0x31; 0x32; 0x33]) by (repeat constructor; done).
  split; [exact H | exact (crc32_table_correct [0x31; 0x32; 0x33] H)].
Defined.

(** The CRC distinguishes any two messages that differ in exactly one byte, so a
    FINGERPRINT never survives the corruption of a single byte. *)
Theorem crc32_detects_byte_error (pre suf : bytes) (b1 b2 : Z) :
  bytes_ok pre -> bytes_ok suf -> is_byte b1 -> is_byte b2 -> b1 <> b2 ->
  crc32 (pre ++ b1 :: suf) <> crc32 (pre ++ b2 :: suf).
Proof.
  intros Hp Hs H1 H2 Hne E. apply Hne. unfold crc32 in E.
  apply lxor_inj_r in E. rewrite !foldl_app in E. simpl in E.
  set (r := foldl crcUpdate 4294967295 pre) in E.
  assert (Hr : fits 32 r) by (apply crcReg_fits; [width|done]).
  rewrite !crcUpdate_bitwise in E by done.
  apply crcReg_inj, crcIter_inj in E;
    try (apply crcIter_fits); try done;
    try (apply fits_lxor; [lia|done|by apply byte_fits32]).
  rewrite !(Z.lxor_comm r) in E. by apply lxor_inj_r in E.
Qed.

Lemma crc32_detects_byte_error_witness : crc32 ([1; 2] ++ 3 :: [4]) <> crc32 ([1; 2] ++ 7 :: [4]).
Proof.
  apply (crc32_detects_byte_error [1; 2] [4] 3 7);
    [repeat constructor; done | repeat constructor; done | done | done | discriminate].
Defined.
