(* ===== verification/Addr.v ===== *)
(** * Socket addresses (include/stice/net/addr.hpp, src/net/addr.cpp)

    A [sockaddr] is the family with the fields the program reads: the port and the address
    bytes.  [sin_port] and [s_addr] are kept in network byte order by the source and go
    through [ntohs], [htons] and [ntohl] at each use; the model keeps the port as the value
    it denotes and the address as its bytes in wire order, so the conversions are the
    identity on the port and [be32] on the address.  The constants are those of Linux.
    The resolver and the numeric printers and parsers of the C library
    ([getaddrinfo], [getnameinfo], [inet_ntop], [inet_pton]) are parameters of the
    definitions that call them. *)

From stdpp Require Import pretty.
From S2P Require Import Prelude.
From S2P Require Import Bytes.
From S2P Require Import Crypto.
Open Scope Z_scope.
Open Scope c_scope.

Definition AF_UNSPEC : Z := 0.
Definition AF_INET : Z := 2.
Definition AF_INET6 : Z := 10.
Definition SOCK_STREAM : Z := 1.
Definition SOCK_DGRAM : Z := 2.
Definition sizeof_sockaddr_in : Z := 16.
Definition sizeof_sockaddr_in6 : Z := 28.

(** [sockaddr_in], [sockaddr_in6], or a family the program does not handle. *)
Inductive sockaddr :=
| SockIn (port : Z) (addr : bytes)
| SockIn6 (port : Z) (addr : bytes)
| SockOther (family : Z).

#[export] Instance sockaddr_eq_dec : EqDecision sockaddr.
Proof. solve_decision. Defined.

(** [struct AddrRecord]; the default value has the zero family, length and type. *)
Record AddrRecord := mkAddrRecord { addr : sockaddr; len : Z; socktype : Z }.

#[export] Instance AddrRecord_eq_dec : EqDecision AddrRecord.
Proof. solve_decision. Defined.

Definition emptyAddr : AddrRecord := mkAddrRecord (SockOther AF_UNSPEC) 0 0.

Definition sa_family (sa : sockaddr) : Z :=
  match sa with SockIn _ _ => AF_INET | SockIn6 _ _ => AF_INET6 | SockOther f => f end.

(** The shape the C types guarantee. *)
Definition sockaddr_ok (sa : sockaddr) : Prop :=
  match sa with
  | SockIn p a => fits 16 p /\ length a = 4%nat /\ bytes_ok a
  | SockIn6 p a => fits 16 p /\ length a = 16%nat /\ bytes_ok a
  | SockOther f => f <> AF_INET /\ f <> AF_INET6
  end.

(** *** The macros of netinet/in.h *)

Definition IN6_IS_ADDR_UNSPECIFIED (a : bytes) : bool := bool_decide (a = replicate 16 0).
Definition IN6_IS_ADDR_LOOPBACK (a : bytes) : bool := bool_decide (a = replicate 15 0 ++ [1]).
Definition IN6_IS_ADDR_LINKLOCAL (a : bytes) : bool :=
  (at_ a 0 =? 0xfe) && ((at_ a 1 &. 0xc0) =? 0x80).
Definition IN6_IS_ADDR_V4MAPPED (a : bytes) : bool :=
  bool_decide (take 12 a = replicate 10 0 ++ [255; 255]).

(** [ntohl] of the four bytes of an IPv4 address. *)
Definition s_addr (a : bytes) : Z := be32 a 0.

(** *** Operations *)

Definition addrLen (sa : sockaddr) : Z :=
  match sa with
  | SockIn _ _ => sizeof_sockaddr_in
  | SockIn6 _ _ => sizeof_sockaddr_in6
  | SockOther _ => 0
  end.

(** A pointer argument that may be null is an [option]. *)
Definition addrPort (sa : option sockaddr) : Z :=
  match sa with
  | Some (SockIn p _) => p
  | Some (SockIn6 p _) => p
  | _ => 0
  end.

Definition addrSetPort (sa : sockaddr) (port : Z) : sockaddr :=
  match sa with
  | SockIn _ a => SockIn port a
  | SockIn6 _ a => SockIn6 port a
  | SockOther f => SockOther f
  end.

Definition addrIsAny (sa : option sockaddr) : bool :=
  match sa with
  | None => true
  | Some (SockIn _ a) => bool_decide (a = replicate 4 0)
  | Some (SockIn6 _ a) => IN6_IS_ADDR_UNSPECIFIED a
  | Some (SockOther _) => false
  end.

(** Loopback 127.0.0.0/8 and link-local 169.254.0.0/16. *)
Definition isLoopback4 (a : Z) : bool := (a &. 0xFF000000) =? 0x7F000000.
Definition isLinkLocal4 (a : Z) : bool := (a &. 0xFFFF0000) =? 0xA9FE0000.

Definition addrIsLocal (sa : option sockaddr) : bool :=
  match sa with
  | Some (SockIn _ a) =>
      let v := s_addr a in
      if isLoopback4 v then true else if isLinkLocal4 v then true else false
  | Some (SockIn6 _ a) =>
      if IN6_IS_ADDR_LOOPBACK a then true
      else if IN6_IS_ADDR_LINKLOCAL a then true
      else if IN6_IS_ADDR_V4MAPPED a then
        let v := s_addr (drop 12 a) in
        if isLoopback4 v then true else if isLinkLocal4 v then true else false
      else false
  | _ => false
  end.

Definition addrIsLinkLocal (sa : option sockaddr) : bool :=
  match sa with
  | Some (SockIn _ a) => isLinkLocal4 (s_addr a)
  | Some (SockIn6 _ a) =>
      if IN6_IS_ADDR_LINKLOCAL a then true
      else if IN6_IS_ADDR_V4MAPPED a then isLinkLocal4 (s_addr (drop 12 a))
      else false
  | _ => false
  end.

(** In-place conversions: [None] when the source returns false and leaves its arguments
    unchanged, otherwise the new address and length. *)
Definition addrUnmapInet6V4Mapped (sa : sockaddr) : option (sockaddr * Z) :=
  match sa with
  | SockIn6 p a =>
      if IN6_IS_ADDR_V4MAPPED a
      then Some (SockIn p [at_ a 12; at_ a 13; at_ a 14; at_ a 15], sizeof_sockaddr_in)
      else None
  | _ => None
  end.

Definition addrMapInet6V4Mapped (sa : sockaddr) : option (sockaddr * Z) :=
  match sa with
  | SockIn p a => Some (SockIn6 p (replicate 10 0 ++ [255; 255] ++ a), sizeof_sockaddr_in6)
  | _ => None
  end.

(** The [normalize] lambda of [addrEqual]: family, address bytes and port with a v4-mapped
    address taken for the IPv4 address it embeds. *)
Definition normalize (sa : sockaddr) : option (Z * bytes * Z) :=
  match sa with
  | SockIn p a => Some (AF_INET, a, p)
  | SockIn6 p a =>
      if IN6_IS_ADDR_V4MAPPED a then Some (AF_INET, drop 12 a, p) else Some (AF_INET6, a, p)
  | SockOther _ => None
  end.

Definition addrEqual (a b : sockaddr) (comparePorts : bool) : bool :=
  match normalize a, normalize b with
  | Some (fa, na, pa), Some (fb, nb, pb) =>
      if negb (fa =? fb) then false
      else if negb (bool_decide (na = nb)) then false
      else if comparePorts && negb (pa =? pb) then false
      else true
  | _, _ => false
  end.

Definition isEqual (a b : AddrRecord) (comparePorts : bool) : bool :=
  if negb (socktype a =? socktype b) then false
  else addrEqual (addr a) (addr b) comparePorts.

(** [operator==]. *)
Definition addrRecordEq (a b : AddrRecord) : bool := isEqual a b true.

(** One djb2 round, [h = ((h << 5) + h) + x] on 64 bits. *)
Definition djb2 (h x : Z) : Z := u64 (u64 (u64 (h <<. 5) + h) + x).

Definition hash (r : AddrRecord) (withPort : bool) : Z :=
  let '(family, bs, port) :=
    match addr r with
    | SockIn p a => (AF_INET, a, p)
    | SockIn6 p a =>
        if IN6_IS_ADDR_V4MAPPED a then (AF_INET, drop 12 a, p) else (AF_INET6, a, p)
    | SockOther f => (f, [], 0)
    end in
  let h := djb2 5381 family in
  let h := djb2 h (u64 (socktype r)) in
  let h := foldl djb2 h bs in
  if withPort then djb2 h port else h.

Section Libc.
(** [getnameinfo] with numeric flags (host and service), and [inet_ntop]. *)
Context (getnameinfo : sockaddr -> option (string * string)).
Context (inet_ntop : sockaddr -> option string).
(** [inet_pton] for the two families: the address bytes when the text is numeric. *)
Context (inet_pton4 inet_pton6 : string -> option bytes).
(** [getaddrinfo]: address, length and socket type of each result. *)
Context (getaddrinfo : string -> string -> Z -> list AddrRecord).

Definition addrToString (sa : option sockaddr) : string :=
  match sa with
  | None => EmptyString
  | Some sa =>
      let rendered :=
        match getnameinfo sa with
        | Some ns => Some ns
        | None =>
            match sa with
            | SockIn p _ | SockIn6 p _ => node ← inet_ntop sa; Some (node, pretty p)
            | SockOther _ => None
            end
        end in
      match rendered with
      | None => EmptyString
      | Some (node, serv) =>
          (match sa with
           | SockIn6 _ _ => "[" +:+ node +:+ "]"
           | _ => node
           end) +:+ ":" +:+ serv
      end
  end.

Definition toString (r : AddrRecord) : string := addrToString (Some (addr r)).

Definition parseAddr (host : string) (port : Z) : option (sockaddr * Z) :=
  match inet_pton4 host with
  | Some a => Some (SockIn port a, sizeof_sockaddr_in)
  | None =>
      match inet_pton6 host with
      | Some a => Some (SockIn6 port a, sizeof_sockaddr_in6)
      | None => None
      end
  end.

Definition resolve (hostname service : string) (st : Z) : list AddrRecord :=
  (fun r => match addrUnmapInet6V4Mapped (addr r) with
            | Some (sa, l) => mkAddrRecord sa l (socktype r)
            | None => r
            end) <$> getaddrinfo hostname service st.

End Libc.

(** ** Equality *)

(** Equality of addresses is equality of normal forms, the port left out on request. *)
Lemma addrEqual_iff a b cp :
  addrEqual a b cp = true <->
  exists f n pa pb, normalize a = Some (f, n, pa) /\ normalize b = Some (f, n, pb) /\
                    (cp = true -> pa = pb).
Proof.
  unfold addrEqual. destruct (normalize a) as [[[fa na] pa]|], (normalize b) as [[[fb nb] pb]|];
    [|naive_solver..].
  destruct (Z.eqb_spec fa fb) as [->|]; simpl; [|naive_solver].
  destruct (bool_decide_reflect (na = nb)) as [->|]; simpl; [|naive_solver].
  destruct cp; simpl; [destruct (Z.eqb_spec pa pb); simpl|]; naive_solver.
Qed.

Lemma addrEqual_sym a b cp : addrEqual a b cp = true -> addrEqual b a cp = true.
Proof. rewrite !addrEqual_iff. naive_solver. Qed.

Lemma addrEqual_trans a b c cp :
  addrEqual a b cp = true -> addrEqual b c cp = true -> addrEqual a c cp = true.
Proof. rewrite !addrEqual_iff. naive_solver. Qed.

Lemma addrEqual_refl a cp : is_Some (normalize a) -> addrEqual a a cp = true.
Proof. intros [[[f n] p] E]. apply addrEqual_iff. naive_solver. Qed.

Lemma addrEqual_ports a b : addrEqual a b true = true -> addrEqual a b false = true.
Proof. rewrite !addrEqual_iff. naive_solver. Qed.

Lemma isEqual_iff a b cp :
  isEqual a b cp = true <-> socktype a = socktype b /\ addrEqual (addr a) (addr b) cp = true.
Proof. unfold isEqual. destruct (Z.eqb_spec (socktype a) (socktype b)); simpl; naive_solver. Qed.

Lemma addrRecordEq_sym a b : addrRecordEq a b = true -> addrRecordEq b a = true.
Proof. unfold addrRecordEq. rewrite !isEqual_iff. naive_solver eauto using addrEqual_sym. Qed.

Lemma addrRecordEq_trans a b c :
  addrRecordEq a b = true -> addrRecordEq b c = true -> addrRecordEq a c = true.
Proof.
  unfold addrRecordEq. rewrite !isEqual_iff. intros [-> H1] [-> H2].
  split; [done|]. by eapply addrEqual_trans.
Qed.

Lemma addrRecordEq_refl a : is_Some (normalize (addr a)) -> addrRecordEq a a = true.
Proof. intros H. apply isEqual_iff. split; [done|]. by apply addrEqual_refl. Qed.

(** An IPv4 or IPv6 address is comparable. *)
Lemma normalize_inet sa :
  match sa with SockOther _ => False | _ => True end -> is_Some (normalize sa).
Proof. destruct sa; simpl; [done| |done]. intros _. by destruct (IN6_IS_ADDR_V4MAPPED _). Qed.

(** The hash depends on the normal form only. *)
Lemma hash_normalize r f n p wp :
  normalize (addr r) = Some (f, n, p) ->
  hash r wp = (let h := foldl djb2 (djb2 (djb2 5381 f) (u64 (socktype r))) n in
               if wp then djb2 h p else h).
Proof.
  unfold hash, normalize. destruct (addr r) as [q a|q a|g]; [| |done].
  - by intros [= -> -> ->].
  - destruct (IN6_IS_ADDR_V4MAPPED a); by intros [= -> -> ->].
Qed.

(** ** v4-mapped addresses *)

Lemma v4mapped_map a : IN6_IS_ADDR_V4MAPPED (replicate 10 0 ++ [255; 255] ++ a) = true.
Proof. unfold IN6_IS_ADDR_V4MAPPED. by apply bool_decide_eq_true_2. Qed.

Lemma normalize_map sa sa' l :
  addrMapInet6V4Mapped sa = Some (sa', l) -> normalize sa' = normalize sa.
Proof.
  destruct sa as [p a| |]; [|done..]. intros E.
  injection E as <- <-. unfold normalize, IN6_IS_ADDR_V4MAPPED.
  by rewrite bool_decide_eq_true_2.
Qed.

(** ** Properties *)

(** The contract of the hash maps keyed by addresses.  Two records that compare equal
    (with or without the port) have the same hash, for every mixture of plain IPv4 and
    v4-mapped IPv6 forms, and an IPv4 or IPv6 record equals itself. *)
Theorem equal_records_same_hash (a b : AddrRecord) (withPort : bool) :
  (isEqual a b withPort = true -> hash a withPort = hash b withPort) /\
  (is_Some (normalize (addr a)) -> addrRecordEq a a = true) /\
  (addrRecordEq a b = true -> addrRecordEq b a = true).
Proof.
  split; [|split; [apply addrRecordEq_refl | apply addrRecordEq_sym]].
  rewrite isEqual_iff, addrEqual_iff. intros (Hs & f & n & pa & pb & Ha & Hb & Hp).
  rewrite (hash_normalize a f n pa), (hash_normalize b f n pb) by done.
  rewrite Hs. destruct withPort; [|done]. by rewrite Hp.
Qed.

Lemma equal_records_same_hash_witness :
  hash (mkAddrRecord (SockIn 3478 [192; 0; 2; 1]) 16 SOCK_DGRAM) true =
  hash (mkAddrRecord (SockIn6 3478 (replicate 10 0 ++ [255; 255; 192; 0; 2; 1])) 28 SOCK_DGRAM) true.
Proof. apply equal_records_same_hash. vm_compute. reflexivity. Defined.

(** Mapping an IPv4 address into IPv6 loses nothing and changes no decision: unmapping
    restores the address and its length, the two forms compare equal, and the locality
    filters used on enumerated and remote candidates answer alike for both. *)
Theorem v4mapped_roundtrip (p : Z) (a : bytes) :
  length a = 4%nat ->
  exists sa6, addrMapInet6V4Mapped (SockIn p a) = Some (sa6, sizeof_sockaddr_in6) /\
    addrUnmapInet6V4Mapped sa6 = Some (SockIn p a, sizeof_sockaddr_in) /\
    addrEqual sa6 (SockIn p a) true = true /\
    addrIsLocal (Some sa6) = addrIsLocal (Some (SockIn p a)) /\
    addrIsLinkLocal (Some sa6) = addrIsLinkLocal (Some (SockIn p a)) /\
    addrPort (Some sa6) = addrPort (Some (SockIn p a)).
Proof.
  intros Ha. destruct a as [|a0 [|a1 [|a2 [|a3 [|? ?]]]]]; try done. clear Ha.
  eexists. split; [done|]. split.
  { unfold addrUnmapInet6V4Mapped. by rewrite v4mapped_map. }
  split. { eapply addrEqual_iff. unfold normalize. rewrite v4mapped_map. naive_solver. }
  assert (Hl : IN6_IS_ADDR_LOOPBACK (replicate 10 0 ++ [255; 255] ++ [a0; a1; a2; a3]) = false)
    by (apply bool_decide_eq_false_2; done).
  unfold addrIsLocal, addrIsLinkLocal. rewrite Hl, v4mapped_map. done.
Qed.

Lemma v4mapped_roundtrip_witness :
  exists sa6, addrMapInet6V4Mapped (SockIn 5000 [169; 254; 1; 2]) = Some (sa6, sizeof_sockaddr_in6) /\
    addrUnmapInet6V4Mapped sa6 = Some (SockIn 5000 [169; 254; 1; 2], sizeof_sockaddr_in) /\
    addrEqual sa6 (SockIn 5000 [169; 254; 1; 2]) true = true /\
    addrIsLocal (Some sa6) = addrIsLocal (Some (SockIn 5000 [169; 254; 1; 2])) /\
    addrIsLinkLocal (Some sa6) = addrIsLinkLocal (Some (SockIn 5000 [169; 254; 1; 2])) /\
    addrPort (Some sa6) = addrPort (Some (SockIn 5000 [169; 254; 1; 2])).
Proof. apply v4mapped_roundtrip. reflexivity. Defined.
