(* ===== verification/UdpSocket.v ===== *)
(** * UDP sockets

    net/udp.cpp: binding a socket to a port of a range, receiving, sending from a dual-stack
    socket, per-datagram DSCP marks and the enumeration of host addresses (the POSIX build).
    The kernel is a record of its answers; what a call leaves behind in the process (the
    static port counter, descriptors closed) and in the socket (marks, datagrams sent) is
    explicit state.  The socket options that only tune the kernel (dual stack, fragmentation,
    buffer sizes) have no effect on it. *)

From S2P Require Import Prelude.
From S2P Require Import StateMonad.
From S2P Require Import Bytes.
From S2P Require Import Addr.
Open Scope Z_scope.
Open Scope c_scope.

(** ** Creating a socket *)

Record UdpSocketConfig := mkUdpConfig { bindAddress : string; portBegin : Z; portEnd : Z }.

(** What [::bind] does: success, EADDRINUSE or EACCES, another error. *)
Inductive BindResult := Bound | Busy | Refused.

#[export] Instance BindResult_eq_dec : EqDecision BindResult.
Proof. solve_decision. Defined.

(** [getaddrinfo] of the bind address, [::socket], [setNonBlocking], [::bind] and the CSPRNG. *)
Record Kernel := mkKernel {
  getaddrinfo : string -> option (list sockaddr);
  socket : sockaddr -> option Z;
  setNonBlocking : Z -> bool;
  bind : sockaddr -> BindResult;
  randomU32 : nat -> Z;
}.

(** The static counter of [nextPortInRange], the random words drawn for it, the addresses
    [bind] was called with and the descriptors closed. *)
Record Process := mkProcess { count : Z; drawn : nat; tried : list sockaddr; closed : list Z }.

#[export] Instance Process_fields : RecordFields Process :=
  fun s => mkProcess (count s) (drawn s) (tried s) (closed s).

Definition M := @SM Process.

Definition findFamily (ai : list sockaddr) (family : Z) : option sockaddr :=
  head (filter (fun a => sa_family a = family) ai).

Section Create.
Context (K : Kernel).

(** [if (count == 0) count = crypto::randomU32()]. *)
Definition seedCount : M unit :=
  c ← gets count;
  if c =? 0 then
    k ← gets drawn;
    modify (fun s => s <| drawn := S k |>);;
    modify (fun s => s <| count := randomU32 K k |>)
  else skip.

Definition nextPortInRange (begin end_ : Z) : M Z :=
  let begin := if begin =? 0 then 1024 else begin in
  let end_ := if end_ =? 0 then 0xFFFF else end_ in
  if begin =? end_ then mret begin else
  seedCount;;
  let diff := if end_ >? begin then end_ - begin else 0 in
  c ← gets count;
  modify (fun s => s <| count := u32 (c + 1) |>);;
  mret (u16 (begin + u16 (c mod u32 (diff + 1)))).

(** [::bind], noted. *)
Definition tryBind (sa : sockaddr) : M BindResult :=
  modify (fun s => s <| tried ::= fun l => l ++ [sa] |>);;
  mret (bind K sa).

(** The [do ... while] over the port range: [retries] more turns after this one. *)
Fixpoint bindInRange (retries : nat) (begin end_ : Z) (sa : sockaddr) : M bool :=
  port ← nextPortInRange begin end_;
  let sa := addrSetPort sa port in
  r ← tryBind sa;
  match r with
  | Bound => mret true
  | Refused => mret false
  | Busy => match retries with O => mret false | S retries => bindInRange retries begin end_ sa end
  end.

Definition closeSocket (sock : Z) : M unit := modify (fun s => s <| closed ::= fun l => l ++ [sock] |>).

Definition bindConfigured (cfg : UdpSocketConfig) (ai : sockaddr) : M bool :=
  if (portBegin cfg =? 0) && (portEnd cfg =? 0) then
    r ← tryBind ai; mret (bool_decide (r = Bound))
  else if portBegin cfg =? portEnd cfg then
    r ← tryBind (addrSetPort ai (portBegin cfg)); mret (bool_decide (r = Bound))
  else bindInRange (Z.to_nat (portEnd cfg - portBegin cfg)) (portBegin cfg) (portEnd cfg) ai.

Definition createForAddrinfo (cfg : UdpSocketConfig) (ai : sockaddr) : M (option Z) :=
  match socket K ai with
  | None => mret None
  | Some sock =>
      if negb (setNonBlocking K sock) then closeSocket sock;; mret None else
      ok ← bindConfigured cfg ai;
      if ok : bool then mret (Some sock) else closeSocket sock;; mret None
  end.

(** The loop over the address families; the result is [sock_] and [family_]. *)
Fixpoint createLoop (cfg : UdpSocketConfig) (aiList : list sockaddr) (families : list Z) : M (option (Z * Z)) :=
  match families with
  | [] => mret None
  | fam :: families =>
      match findFamily aiList fam with
      | None => createLoop cfg aiList families
      | Some ai =>
          sock ← createForAddrinfo cfg ai;
          match sock with
          | Some sock => mret (Some (sock, fam))
          | None => createLoop cfg aiList families
          end
      end
  end.

Definition create (cfg : UdpSocketConfig) : M (option (Z * Z)) :=
  match getaddrinfo K (bindAddress cfg) with
  | None => mret None
  | Some aiList => createLoop cfg aiList [AF_INET6; AF_INET]
  end.
End Create.

(** ** Receiving *)

(** What the next [::recvfrom] reports; an empty queue is EWOULDBLOCK. *)
Inductive RecvEvent :=
| Datagram (data : bytes) (src : AddrRecord)
| Unreachable  (* ECONNRESET, ECONNREFUSED or ENETRESET *)
| RecvFailed.

(** The unmapping in place: an address that is not mapped is left alone. *)
Definition unmapped (r : AddrRecord) : AddrRecord :=
  match addrUnmapInet6V4Mapped (addr r) with
  | Some (sa, l) => mkAddrRecord sa l (socktype r)
  | None => r
  end.

(** The bytes and the source ([None] for -1), and the queue that is left. *)
Fixpoint recvfrom (size : nat) (queue : list RecvEvent) : option (bytes * AddrRecord) * list RecvEvent :=
  match queue with
  | [] => (None, [])
  | Datagram data src :: queue =>
      (Some (take size data, unmapped (mkAddrRecord (addr src) (len src) SOCK_DGRAM)), queue)
  | Unreachable :: queue => recvfrom size queue
  | RecvFailed :: queue => (None, queue)
  end.

(** ** Sending *)

(** A datagram as the kernel gets it, with the marks the socket has at that moment. *)
Record Sent := mkSent { dest : sockaddr; destLen : Z; payload : bytes; mark4 : Z; mark6 : Z }.

(** The socket: its family, what [getsockname] says, [IP_TOS], [IPV6_TCLASS], what was sent. *)
Record Sock := mkSock { family_ : Z; name : option AddrRecord; ip_tos : Z; ipv6_tclass : Z; sent : list Sent }.

#[export] Instance Sock_fields : RecordFields Sock :=
  fun s => mkSock (family_ s) (name s) (ip_tos s) (ipv6_tclass s) (sent s).

(** Whether [::sendto] takes a datagram, and [setsockopt] a mark. *)
Record Options := mkOptions { sendOk : sockaddr -> bool; tosOk : bool; tclassOk : bool }.

Section Send.
Context (O : Options).

Definition kernelSend (data : bytes) (sa : sockaddr) (l : Z) (s : Sock) : Z * Sock :=
  if sendOk O sa
  then (Z.of_nat (length data), s <| sent ::= fun q => q ++ [mkSent sa l data (ip_tos s) (ipv6_tclass s)] |>)
  else (-1, s).

(** The address handed to the kernel: an IPv4 destination is mapped on an IPv6 socket. *)
Definition destination (family : Z) (dst : AddrRecord) : sockaddr * Z :=
  if (family =? AF_INET6) && (sa_family (addr dst) =? AF_INET)
  then default (addr dst, len dst) (addrMapInet6V4Mapped (addr dst))
  else (addr dst, len dst).

Definition sendto (data : bytes) (dst : AddrRecord) (s : Sock) : Z * Sock :=
  let '(sa, l) := destination (family_ s) dst in kernelSend data sa l s.

(** [boundAddr] returns whether [getsockname] succeeded; the record is reset either way. *)
Definition sizeof_sockaddr_storage : Z := 128.
Definition boundAddr (s : Sock) : bool * AddrRecord :=
  match name s with
  | Some r => (true, mkAddrRecord (addr r) (len r) SOCK_DGRAM)
  | None => (false, mkAddrRecord (SockOther AF_UNSPEC) sizeof_sockaddr_storage SOCK_DGRAM)
  end.

(** The guard compares the [bool] with 0, so it never holds. *)
Definition boundFailed (ok : bool) : bool := Z.b2z ok <? 0.

Definition sendtoSelf (data : bytes) (s : Sock) : Z * Sock :=
  let '(ok, local) := boundAddr s in
  if boundFailed ok then (-1, s) else kernelSend data (addr local) (len local) s.

Definition port (s : Sock) : Z :=
  let '(ok, r) := boundAddr s in if boundFailed ok then 0 else addrPort (Some (addr r)).

(** The Linux branch: [sendmmsg] stops at the first datagram the kernel refuses; addresses
    are passed as they are. *)
Fixpoint sendBatch (l : list (bytes * AddrRecord)) (s : Sock) : Z * Sock :=
  match l with
  | [] => (0, s)
  | (data, dst) :: l =>
      let '(r, s) := kernelSend data (addr dst) (len dst) s in
      if r <? 0 then (0, s) else let '(n, s) := sendBatch l s in (1 + n, s)
  end.

(** [setsockopt] of one mark: its result and the socket. *)
Definition setTos (ds : Z) (s : Sock) : Z * Sock := if tosOk O then (0, s <| ip_tos := ds |>) else (-1, s).
Definition setTclass (ds : Z) (s : Sock) : Z * Sock := if tclassOk O then (0, s <| ipv6_tclass := ds |>) else (-1, s).

Definition setDiffserv (ds : Z) (s : Sock) : Z * Sock :=
  let '(ok, r) := boundAddr s in
  if boundFailed ok then (-1, s) else
  if sa_family (addr r) =? AF_INET then setTos ds s
  else if sa_family (addr r) =? AF_INET6 then
    let '(n, s) := setTclass ds s in (n, (setTos ds s).2)
  else (-1, s).

Definition sendtoWithDiffserv (data : bytes) (dst : AddrRecord) (ds : Z) (s : Sock) : Z * Sock :=
  if ds <? 0 then sendto data dst s else
  let s := (setDiffserv ds s).2 in
  let '(n, s) := sendto data dst s in
  (n, (setDiffserv 0 s).2).
End Send.

(** ** Host addresses *)

(** An entry of [getifaddrs]. *)
Record IfAddr := mkIfAddr { ifa_up : bool; ifa_loopback : bool; ifa_name : string; ifa_addr : option sockaddr }.

Definition sameIp (a b : sockaddr) : bool :=
  match a, b with
  | SockIn _ x, SockIn _ y => bool_decide (x = y)
  | SockIn6 _ x, SockIn6 _ y => bool_decide (x = y)
  | _, _ => false
  end.

Definition hasDuplicate (sa : sockaddr) (records : list AddrRecord) : bool :=
  existsb (fun r => sameIp (addr r) sa) records.

(** The [continue]s and the condition of the loop, apart from the duplicates. *)
Definition usable (boundFamily : Z) (ifa : IfAddr) : option sockaddr :=
  if negb (ifa_up ifa) || ifa_loopback ifa then None else
  if String.eqb (ifa_name ifa) "docker0" then None else
  sa ← ifa_addr ifa;
  if addrLen sa =? 0 then None else
  if ((sa_family sa =? AF_INET) || ((sa_family sa =? AF_INET6) && (boundFamily =? AF_INET6)))
     && negb (addrIsLocal (Some sa)) then Some sa else None.

Fixpoint scanAddrs (boundFamily port : Z) (ifas : list IfAddr) (records : list AddrRecord) : list AddrRecord :=
  match ifas with
  | [] => records
  | ifa :: ifas =>
      scanAddrs boundFamily port ifas
        match usable boundFamily ifa with
        | Some sa =>
            if hasDuplicate sa records then records
            else records ++ [mkAddrRecord (addrSetPort sa port) (addrLen sa) SOCK_DGRAM]
        | None => records
        end
  end.

(** [ifas] is [None] when [getifaddrs] fails. *)
Definition localAddrs (s : Sock) (ifas : option (list IfAddr)) (family : Z) : list AddrRecord :=
  let '(ok, bound) := boundAddr s in
  if negb ok then [] else
  if negb (addrIsAny (Some (addr bound))) then [bound] else
  match ifas with
  | None => []
  | Some ifas => scanAddrs (sa_family (addr bound)) (addrPort (Some (addr bound))) ifas []
  end.

(** ** Ports of a range *)

(** The port the counter stands for. *)
Definition portAt (begin end_ c : Z) : Z := begin + c mod (end_ - begin + 1).

Lemma portAt_range begin end_ c : begin < end_ -> begin <= portAt begin end_ c <= end_.
Proof. intros H. unfold portAt. pose proof (Z.mod_pos_bound c (end_ - begin + 1)). lia. Qed.

(** Every port of the range is met within as many turns as the range has ports. *)
Lemma portAt_meets begin end_ c p :
  begin < end_ -> begin <= p <= end_ ->
  exists j, 0 <= j <= end_ - begin /\ portAt begin end_ (c + j) = p.
Proof.
  intros H Hp. exists ((p - begin - c) mod (end_ - begin + 1)).
  pose proof (Z.mod_pos_bound (p - begin - c) (end_ - begin + 1)). split; [lia|].
  unfold portAt. rewrite Zplus_mod_idemp_r, Z.mod_small by lia. lia.
Qed.

Lemma addrSetPort_twice sa p q : addrSetPort (addrSetPort sa p) q = addrSetPort sa q.
Proof. by destruct sa. Qed.

Section Range.
Context (K : Kernel) (begin end_ : Z).
Hypothesis Hrange : 0 < begin < end_.
Hypothesis Hport : fits 16 end_.

(** The value of the counter the next call uses. *)
Definition seeded (s : Process) : Z := if count s =? 0 then randomU32 K (drawn s) else count s.

Lemma nextPort_run s :
  exists s', nextPortInRange K begin end_ s = Some (portAt begin end_ (seeded s), s') /\
    count s' = u32 (seeded s + 1) /\ tried s' = tried s /\ closed s' = closed s.
Proof.
  assert (H16 : end_ < 65536) by (unfold fits in Hport; lia). unfold nextPortInRange.
  rewrite (proj2 (Z.eqb_neq begin 0)), (proj2 (Z.eqb_neq end_ 0)), (proj2 (Z.eqb_neq begin end_)) by lia.
  rewrite (proj2 (Z.gtb_lt _ _)) by lia.
  assert (Hu : u32 (end_ - begin + 1) = end_ - begin + 1) by (apply wrap_id; unfold fits; lia).
  assert (Hv : u16 (begin + u16 (seeded s mod u32 (end_ - begin + 1))) = portAt begin end_ (seeded s)).
  { rewrite Hu. unfold portAt. pose proof (Z.mod_pos_bound (seeded s) (end_ - begin + 1) ltac:(lia)) as Hm.
    set (x := _ mod _) in *. clearbody x. rewrite (wrap_id 16 x), wrap_id by (unfold fits; lia). done. }
  rewrite <- Hv. unfold seedCount, seeded. destruct (Z.eqb_spec (count s) 0) as [E|E].
  - rewrite (run_bind _ _ s tt (s <| drawn := S (drawn s) |> <| count := randomU32 K (drawn s) |>)).
    { by eexists. }
    unfold mbind, SM_bind, gets. by rewrite E.
  - rewrite (run_bind _ _ s tt s); [by eexists|]. unfold mbind, SM_bind, gets.
    by rewrite (proj2 (Z.eqb_neq _ _) E).
Qed.

Lemma bindInRange_step n sa s :
  exists s1, count s1 = u32 (seeded s + 1) /\
    tried s1 = tried s ++ [addrSetPort sa (portAt begin end_ (seeded s))] /\ closed s1 = closed s /\
    bindInRange K n begin end_ sa s
    = match bind K (addrSetPort sa (portAt begin end_ (seeded s))), n with
      | Bound, _ => Some (true, s1)
      | Busy, S n => bindInRange K n begin end_ (addrSetPort sa (portAt begin end_ (seeded s))) s1
      | _, _ => Some (false, s1)
      end.
Proof.
  destruct (nextPort_run s) as (s' & E & Hc & Ht & Hcl). set (p := portAt _ _ _) in *.
  exists (s' <| tried ::= fun l => l ++ [addrSetPort sa p] |>). upd. rewrite Ht.
  split; [done|]. split; [done|]. split; [done|].
  pose proof (eq_refl : tryBind K (addrSetPort sa p) s' = Some (bind K (addrSetPort sa p), _)) as T.
  destruct n; cbn [bindInRange]; rewrite (run_bind _ _ _ _ _ E); cbv beta zeta;
    rewrite (run_bind _ _ _ _ _ T); by destruct (bind K _).
Qed.

(** Not every port refused for good, one of them free: the loop binds one of the range. *)
Lemma bindInRange_finds n sa s j :
  (forall p, begin <= p <= end_ -> bind K (addrSetPort sa p) <> Refused) ->
  0 < seeded s -> seeded s + Z.of_nat n < 2 ^ 32 -> (j <= n)%nat ->
  bind K (addrSetPort sa (portAt begin end_ (seeded s + Z.of_nat j))) = Bound ->
  exists q s', bindInRange K n begin end_ sa s = Some (true, s') /\ begin <= q <= end_ /\
    last (tried s') = Some (addrSetPort sa q) /\ bind K (addrSetPort sa q) = Bound /\ closed s' = closed s.
Proof.
  revert sa s j. induction n as [|n IH]; intros sa s j Href H0 Hw Hj Hb.
  all: match goal with |- context [bindInRange K ?m] => destruct (bindInRange_step m sa s) as (s1 & C1 & T1 & L1 & ->) end.
  all: pose proof (portAt_range begin end_ (seeded s) ltac:(lia)) as Hp; specialize (Href _ Hp) as Hnot.
  all: destruct (bind K (addrSetPort sa (portAt begin end_ (seeded s)))) eqn:Eb; [|  |done].
  1, 3: exists (portAt begin end_ (seeded s)), s1; rewrite T1, last_snoc; done.
  - assert (j = 0%nat) as -> by lia. rewrite Z.add_0_r in Hb. congruence.
  - destruct j as [|j]; [rewrite Z.add_0_r in Hb; congruence|].
    assert (Hs : seeded s1 = seeded s + 1).
    { unfold seeded at 1. rewrite C1, wrap_id by (unfold fits; lia). by rewrite (proj2 (Z.eqb_neq _ _)) by lia. }
    destruct (IH (addrSetPort sa (portAt begin end_ (seeded s))) s1 j) as (q & s' & E & Hq & Hl & Hbq & Hcl).
    + intros p Hr. rewrite addrSetPort_twice. auto.
    + lia.
    + lia.
    + lia.
    + rewrite addrSetPort_twice, Hs. rewrite <- Hb. f_equal. f_equal. f_equal. lia.
    + exists q, s'. rewrite addrSetPort_twice in Hl, Hbq. rewrite Hcl. done.
Qed.
End Range.

(** A socket is bound to a port of the configured range whenever one of its ports is free
    and the others are only taken: the loop of [createForAddrinfo] comes by every port once
    before it gives up, so creation succeeds, on a port of the range that [bind] accepted, and
    no descriptor is closed, as long as the process-wide port counter does not wrap on the way. *)
Theorem port_range_exhausted K cfg ai sock s free :
  socket K ai = Some sock -> setNonBlocking K sock = true ->
  0 < portBegin cfg < portEnd cfg -> fits 16 (portEnd cfg) ->
  0 < seeded K s -> seeded K s + (portEnd cfg - portBegin cfg) < 2 ^ 32 ->
  (forall p, portBegin cfg <= p <= portEnd cfg -> bind K (addrSetPort ai p) <> Refused) ->
  portBegin cfg <= free <= portEnd cfg -> bind K (addrSetPort ai free) = Bound ->
  exists q s', createForAddrinfo K cfg ai s = Some (Some sock, s') /\
    portBegin cfg <= q <= portEnd cfg /\ last (tried s') = Some (addrSetPort ai q) /\
    bind K (addrSetPort ai q) = Bound /\ closed s' = closed s.
Proof.
  intros Hsock Hnb Hr H16 H0 Hw Href Hf Hb. unfold createForAddrinfo, bindConfigured. rewrite Hsock, Hnb. cbn [negb].
  rewrite (proj2 (Z.eqb_neq (portBegin cfg) 0)), (proj2 (Z.eqb_neq (portBegin cfg) (portEnd cfg))) by lia. cbn [andb].
  destruct (portAt_meets (portBegin cfg) (portEnd cfg) (seeded K s) free) as (j & Hj & Ej); [lia|done|].
  destruct (bindInRange_finds K (portBegin cfg) (portEnd cfg) Hr H16 (Z.to_nat (portEnd cfg - portBegin cfg)) ai s
    (Z.to_nat j) Href H0) as (q & s' & E & Hq & Hl & Hbq & Hcl); [lia|lia|by rewrite Z2Nat.id, Ej by lia|].
  exists q, s'. by rewrite (run_bind _ _ _ _ _ E).
Qed.

(** A kernel on which only port [free] can be bound. *)
Definition onlyPort (free : Z) : Kernel :=
  mkKernel (fun _ => Some [SockIn 0 [0; 0; 0; 0]]) (fun _ => Some 7) (fun _ => true)
    (fun sa => if addrPort (Some sa) =? free then Bound else Busy) (fun _ => 3).

Lemma port_range_exhausted_witness :
  exists q s', createForAddrinfo (onlyPort 5001) (mkUdpConfig EmptyString 5000 5002) (SockIn 0 [0; 0; 0; 0])
      (mkProcess 0 0 [] []) = Some (Some 7, s') /\
    5000 <= q <= 5002 /\ last (tried s') = Some (SockIn q [0; 0; 0; 0]) /\
    bind (onlyPort 5001) (SockIn q [0; 0; 0; 0]) = Bound /\ closed s' = [].
Proof.
  apply (port_range_exhausted (onlyPort 5001) (mkUdpConfig EmptyString 5000 5002) (SockIn 0 [0; 0; 0; 0]) 7
    (mkProcess 0 0 [] []) 5001); cbn; try done; try lia.
  intros p _. by destruct (p =? 5001).
Defined.

(** When the counter wraps on the way it is seeded again, and a free port can be missed. *)
Lemma port_counter_wraps :
  exists s', createForAddrinfo (onlyPort 5002) (mkUdpConfig EmptyString 5000 5002) (SockIn 0 [0; 0; 0; 0])
      (mkProcess (2 ^ 32 - 1) 0 [] []) = Some (None, s') /\
    map (fun sa => addrPort (Some sa)) (tried s') = [5000; 5000; 5001] /\ closed s' = [7].
Proof. eexists. split; [vm_compute; reflexivity|done]. Qed.

(** With a first port but no last one the range is open to 65535, yet one port is tried. *)
Lemma open_range_tried_once :
  exists s', createForAddrinfo (onlyPort 5002) (mkUdpConfig EmptyString 5000 0) (SockIn 0 [0; 0; 0; 0])
      (mkProcess 1 0 [] []) = Some (None, s') /\ length (tried s') = 1%nat.
Proof. eexists. split; [vm_compute; reflexivity|done]. Qed.

(** ** Marks *)

Section Marks.
Context (O : Options).
Hypothesis Hopts : tosOk O = true /\ tclassOk O = true.

(** A call of [sendtoWithDiffserv]. *)
Definition Request : Type := bytes * AddrRecord * Z.
Definition sendAll (l : list Request) (s : Sock) : Sock :=
  fold_left (fun s '(data, dst, ds) => (sendtoWithDiffserv O data dst ds s).2) l s.

(** The mark a call asks for; none is 0. *)
Definition asked (ds : Z) : Z := if ds <? 0 then 0 else ds.

(** The datagram of a call on a socket of family [fam] bound to an address of family [bf]. *)
Definition marked (fam bf : Z) (r : Request) : option Sent :=
  let '(data, dst, ds) := r in
  let '(sa, l) := destination fam dst in
  if sendOk O sa then Some (mkSent sa l data (asked ds) (if bf =? AF_INET6 then asked ds else 0)) else None.

Lemma setDiffserv_run ds s r :
  name s = Some r -> sa_family (addr r) = AF_INET \/ sa_family (addr r) = AF_INET6 ->
  setDiffserv O ds s
  = (0, if sa_family (addr r) =? AF_INET6 then s <| ipv6_tclass := ds |> <| ip_tos := ds |> else s <| ip_tos := ds |>).
Proof.
  intros Hn Hf. destruct Hopts as [H1 H2]. unfold setDiffserv, boundAddr. rewrite Hn. cbn [addr boundFailed Z.b2z Z.ltb].
  unfold setTclass, setTos. rewrite H1, H2. by destruct Hf as [-> | ->].
Qed.

Lemma sendto_run data dst s :
  (sendto O data dst s).2
  = s <| sent ::= fun q => q ++ option_list (let '(sa, l) := destination (family_ s) dst in
           if sendOk O sa then Some (mkSent sa l data (ip_tos s) (ipv6_tclass s)) else None) |>.
Proof.
  unfold sendto, kernelSend. destruct (destination _ _) as [sa l]. destruct (sendOk O sa); [done|].
  destruct s. unfold field_update. cbn. by rewrite app_nil_r.
Qed.

(** One call leaves a clean socket clean. *)
Lemma diffserv_one data dst ds s r :
  name s = Some r -> sa_family (addr r) = AF_INET \/ sa_family (addr r) = AF_INET6 ->
  ip_tos s = 0 -> ipv6_tclass s = 0 ->
  (sendtoWithDiffserv O data dst ds s).2
  = s <| sent ::= fun q => q ++ option_list (marked (family_ s) (sa_family (addr r)) (data, dst, ds)) |>.
Proof.
  intros Hn Hf H4 H6. unfold sendtoWithDiffserv, marked, asked. destruct (ds <? 0) eqn:Ed.
  - rewrite sendto_run, H4, H6. by destruct (_ =? AF_INET6).
  - rewrite (setDiffserv_run ds s r Hn Hf). cbn [snd].
    set (s1 := if _ : bool then _ else _).
    assert (A : name s1 = Some r /\ family_ s1 = family_ s /\ ip_tos s1 = ds /\
      ipv6_tclass s1 = (if sa_family (addr r) =? AF_INET6 then ds else 0)).
    { unfold s1. destruct (_ =? AF_INET6); upd; done. }
    destruct A as (A1 & A2 & A3 & A4). destruct (sendto O data dst s1) as [n s2] eqn:E2.
    pose proof (sendto_run data dst s1) as R. rewrite E2 in R. cbn [snd] in R. subst s2.
    rewrite (setDiffserv_run 0 _ r) by done. cbn [snd]. rewrite A2, A3, A4. unfold s1.
    destruct s. cbn in H4, H6. clear A1 A2 A3 A4 E2. subst. unfold field_update. cbn. by destruct (_ =? AF_INET6).
Qed.

(** Marks do not leak between the datagrams of a shared socket.  On a socket bound to an
    IPv4 or IPv6 address whose marks are clear, whatever sequence of sends with and without a
    DSCP mark is made, every datagram leaves with the mark its own call asked for, both as
    IP_TOS and, on an IPv6 socket, as IPV6_TCLASS, and the socket is clear afterwards. *)
Theorem marks_do_not_leak s r l :
  name s = Some r -> sa_family (addr r) = AF_INET \/ sa_family (addr r) = AF_INET6 ->
  ip_tos s = 0 -> ipv6_tclass s = 0 ->
  let s' := sendAll l s in
  sent s' = sent s ++ omap (marked (family_ s) (sa_family (addr r))) l /\ ip_tos s' = 0 /\ ipv6_tclass s' = 0.
Proof.
  intros Hn Hf H4 H6. cbv zeta. revert s Hn H4 H6. induction l as [|[[data dst] ds] l IH]; intros s Hn H4 H6.
  { unfold sendAll. cbn. by rewrite app_nil_r. }
  unfold sendAll. cbn [fold_left]. rewrite (diffserv_one data dst ds s r Hn Hf H4 H6).
  destruct (IH (s <| sent ::= fun q => q ++ option_list (marked (family_ s) (sa_family (addr r)) (data, dst, ds)) |>))
    as (I1 & I2 & I3); [done..|].
  split; [|done]. unfold sendAll in I1. rewrite I1. upd.
  rewrite <- app_assoc. f_equal. cbn [omap list_omap]. by destruct (marked _ _ _).
Qed.
End Marks.

(** ** Host addresses *)

(** The address bytes [hasDuplicate] compares. *)
Definition ipOf (sa : sockaddr) : option (Z * bytes) :=
  match sa with
  | SockIn _ a => Some (AF_INET, a)
  | SockIn6 _ a => Some (AF_INET6, a)
  | SockOther _ => None
  end.

Lemma sameIp_iff a b : sameIp a b = true <-> ipOf a = ipOf b /\ ipOf a <> None.
Proof.
  destruct a, b; cbn; try (rewrite bool_decide_eq_true); split; try done; try (by intros [? ?]);
    try (by intros ->); intros [H ?]; by injection H.
Qed.

Lemma ipOf_setPort sa p : ipOf (addrSetPort sa p) = ipOf sa.
Proof. by destruct sa. Qed.

Lemma usable_ip bf ifa sa : usable bf ifa = Some sa -> ipOf sa <> None.
Proof.
  unfold usable. destruct (_ || _); [done|]. destruct (String.eqb _ _); [done|].
  destruct (ifa_addr ifa) as [a|]; cbn [mbind option_bind]; [|done].
  destruct (addrLen a =? 0) eqn:El; [done|]. destruct (_ && _); [|done]. intros [= <-]. by destruct a.
Qed.

(** The entry made for a usable address. *)
Definition hostEntry (p : Z) (sa : sockaddr) : AddrRecord :=
  mkAddrRecord (addrSetPort sa p) (addrLen sa) SOCK_DGRAM.

(** What the records found so far are: entries of usable addresses, one per IP. *)
Record found (bf p : Z) (seen : list IfAddr) (rs : list AddrRecord) : Prop := {
  found_sound r : r ∈ rs -> exists ifa sa, ifa ∈ seen /\ usable bf ifa = Some sa /\ r = hostEntry p sa;
  found_complete ifa sa : ifa ∈ seen -> usable bf ifa = Some sa -> exists r, r ∈ rs /\ ipOf (addr r) = ipOf sa;
  found_once : NoDup ((fun r => ipOf (addr r)) <$> rs);
}.

Lemma hasDuplicate_iff sa rs :
  ipOf sa <> None -> hasDuplicate sa rs = true <-> exists r, r ∈ rs /\ ipOf (addr r) = ipOf sa.
Proof.
  intros Hs. unfold hasDuplicate. rewrite existsb_exists. split; intros (r & Hr & E).
  - exists r. split; [by apply list_elem_of_In|]. apply sameIp_iff in E. apply E.
  - exists r. split; [by apply list_elem_of_In|]. apply sameIp_iff. by rewrite E.
Qed.

Lemma scan_found bf p l seen rs : found bf p seen rs -> found bf p (seen ++ l) (scanAddrs bf p l rs).
Proof.
  revert seen rs. induction l as [|ifa l IH]; intros seen rs [F1 F2 F3]; cbn [scanAddrs]; [by rewrite app_nil_r|].
  rewrite (cons_middle ifa seen l), app_assoc. apply IH.
  destruct (usable bf ifa) as [sa|] eqn:E; [pose proof (usable_ip _ _ _ E) as Hip|];
    [destruct (hasDuplicate sa rs) eqn:Hd|].
  - apply hasDuplicate_iff in Hd; [|done]. constructor; [|intros i a Hi Ha|done].
    + intros r Hr. destruct (F1 r Hr) as (i & a & Hi & H). exists i, a. split; [|done]. apply elem_of_app. by left.
    + apply elem_of_app in Hi as [Hi | ->%list_elem_of_singleton]; [by apply (F2 i)|].
      assert (a = sa) as -> by congruence. done.
  - assert (Hn : ~ exists r, r ∈ rs /\ ipOf (addr r) = ipOf sa)
      by (rewrite <- hasDuplicate_iff by done; by rewrite Hd).
    constructor.
    + intros r [Hr | ->%list_elem_of_singleton]%elem_of_app.
      * destruct (F1 r Hr) as (i & a & Hi & H). exists i, a. split; [|done]. apply elem_of_app. by left.
      * exists ifa, sa. split; [|done]. apply elem_of_app. right. by apply list_elem_of_singleton.
    + intros i a [Hi | ->%list_elem_of_singleton]%elem_of_app Ha.
      * destruct (F2 i a Hi Ha) as (r & Hr & Hq). exists r. split; [|done]. apply elem_of_app. by left.
      * exists (hostEntry p sa). split; [apply elem_of_app; right; by apply list_elem_of_singleton|].
        assert (a = sa) as -> by congruence. apply ipOf_setPort.
    + rewrite fmap_app. apply NoDup_app. split; [done|]. split; [|apply NoDup_singleton].
      intros x (r & -> & Hr)%list_elem_of_fmap Hx%list_elem_of_singleton. apply Hn. exists r. split; [done|].
      by rewrite Hx, <- (ipOf_setPort sa p).
  - constructor; [|intros i a Hi Ha|done].
    + intros r Hr. destruct (F1 r Hr) as (i & a & Hi & H). exists i, a. split; [|done]. apply elem_of_app. by left.
    + apply elem_of_app in Hi as [Hi | Hi%list_elem_of_singleton]; [by apply (F2 i)|]. subst. congruence.
Qed.

(** The host addresses of a socket bound to the wildcard address are exactly those of the
    interfaces: every record returned is the address of an interface that is up, not a
    loopback, not docker0 and neither loopback nor link-local itself (IPv6 only on an IPv6
    socket), with the port of the socket; every such address is returned; and none twice. *)
Theorem local_addrs_exact s bound ifas family :
  name s = Some bound -> addrIsAny (Some (addr bound)) = true ->
  found (sa_family (addr bound)) (addrPort (Some (addr bound))) ifas (localAddrs s (Some ifas) family).
Proof.
  intros Hn Hany. unfold localAddrs, boundAddr. rewrite Hn. cbn [addr negb]. rewrite Hany. cbn [negb].
  apply (scan_found _ _ ifas []). constructor; [by intros ? ?%elem_of_nil|by intros ? ? ?%elem_of_nil|constructor].
Qed.

(** A dual-stack socket, a kernel that takes what a dual-stack socket can send, two hosts. *)
Definition dualSock : Sock :=
  mkSock AF_INET6 (Some (mkAddrRecord (SockIn6 4000 (replicate 16 0)) sizeof_sockaddr_in6 SOCK_DGRAM)) 0 0 [].
Definition dualOpts : Options := mkOptions (fun sa => sa_family sa =? AF_INET6) true true.
Definition hostA : AddrRecord := mkAddrRecord (SockIn 9 [10; 0; 0; 1]) sizeof_sockaddr_in SOCK_DGRAM.
Definition hostB : AddrRecord := mkAddrRecord (SockIn 9 [10; 0; 0; 2]) sizeof_sockaddr_in SOCK_DGRAM.

Lemma marks_do_not_leak_witness :
  let s' := sendAll dualOpts [([1], hostA, 46); ([2], hostB, -1)] dualSock in
  sent s' = sent dualSock ++ omap (marked dualOpts AF_INET6 AF_INET6) [([1], hostA, 46); ([2], hostB, -1)] /\
  ip_tos s' = 0 /\ ipv6_tclass s' = 0.
Proof.
  apply (marks_do_not_leak dualOpts (conj eq_refl eq_refl) dualSock
    (mkAddrRecord (SockIn6 4000 (replicate 16 0)) sizeof_sockaddr_in6 SOCK_DGRAM)); [done| |done|done].
  by right.
Defined.

(** The interfaces of a host: its loopback, two of one address, a container bridge. *)
Definition demoIfs : list IfAddr :=
  [mkIfAddr true true "lo" (Some (SockIn 0 [127; 0; 0; 1])); mkIfAddr true false "eth0" (Some (SockIn 0 [10; 0; 0; 7]));
   mkIfAddr true false "eth1" (Some (SockIn 0 [10; 0; 0; 7])); mkIfAddr true false "docker0" (Some (SockIn 0 [172; 17; 0; 1]))].

Lemma local_addrs_exact_witness :
  found AF_INET6 4000 demoIfs (localAddrs dualSock (Some demoIfs) AF_UNSPEC) /\
  localAddrs dualSock (Some demoIfs) AF_UNSPEC = [hostEntry 4000 (SockIn 0 [10; 0; 0; 7])].
Proof.
  split; [|reflexivity].
  apply (local_addrs_exact dualSock (mkAddrRecord (SockIn6 4000 (replicate 16 0)) sizeof_sockaddr_in6 SOCK_DGRAM) demoIfs
    AF_UNSPEC); reflexivity.
Defined.

(** [sendBatch] hands an IPv4 destination to a dual-stack socket unmapped: what [sendto]
    sends, the batch does not. *)
Lemma batch_unmapped :
  (sendto dualOpts [1] hostA dualSock).1 = 1 /\ (sendBatch dualOpts [([1], hostA)] dualSock).1 = 0.
Proof. done. Qed.

(** A socket without a name: [sendtoSelf] still sends, to the empty address. *)
Lemma self_without_name :
  let s := mkSock AF_INET None 0 0 [] in
  let s' := (sendtoSelf (mkOptions (fun _ => true) true true) [0] s).2 in
  dest <$> sent s' = [SockOther AF_UNSPEC].
Proof. done. Qed.

(** The argument of [localAddrs] that selects a family is not looked at. *)
Lemma family_ignored s ifas f g : localAddrs s ifas f = localAddrs s ifas g.
Proof. done. Qed.
