(* ===== verification/PollRegistry.v ===== *)
(** * The poll loop: registrations, timeouts and waits

    net/poll.cpp with its epoll backend, and net/epoll_poll.cpp.  [Registry] is what the poll
    thread keeps: the slot table, the map from descriptors to slots, and the kernel's interest
    list, from which the kernel drops a descriptor by itself when its socket is closed
    ([closed]).  What the getters of a participant return when they are asked is a record
    [Participant]; a participant is named by a number.  Which descriptors are open is an
    argument ([open]), as is the clock.  A slot's number is a natural number here; the code
    keeps it in 32 bits.

    The mutexes and the order of the thread's steps are the subject of [PollThread]. *)

From S2P Require Import Prelude.
Open Scope Z_scope.
Open Scope c_scope.

Definition INVALID : Z := -1.

(** poll.h and sys/epoll.h; the two agree on these bits. *)
Definition EPOLLIN : Z := 0x1.
Definition EPOLLOUT : Z := 0x4.
Definition EPOLLERR : Z := 0x8.
Definition EPOLLHUP : Z := 0x10.
Definition POLLIN : Z := 0x1.
Definition POLLOUT : Z := 0x4.
Definition POLLERR : Z := 0x8.
Definition POLLHUP : Z := 0x10.
Definition POLLNVAL : Z := 0x20.

Definition has (flags bit : Z) : bool := negb (flags &. bit =? 0).

(** The four tests the code repeats wherever it turns one kind of event set into the other. *)
Definition toEpoll (ev : Z) : Z :=
  (if has ev POLLIN then EPOLLIN else 0) |. (if has ev POLLOUT then EPOLLOUT else 0)
  |. (if has ev POLLERR then EPOLLERR else 0) |. (if has ev POLLHUP then EPOLLHUP else 0).
Definition mapToPollEvents (ev : Z) : Z :=
  (if has ev EPOLLIN then POLLIN else 0) |. (if has ev EPOLLOUT then POLLOUT else 0)
  |. (if has ev EPOLLERR then POLLERR else 0) |. (if has ev EPOLLHUP then POLLHUP else 0).

(** An entry of a kernel interest list: events and user data. *)
Record Interest := mkInterest { i_events : Z; i_data : nat }.
Abbreviation InterestList := (gmap Z Interest).

(** [epoll_ctl]: ADD fails on a closed or a registered descriptor, MOD on one that is not
    registered, DEL has an effect on a registered one. *)
Definition ctlAdd (open : Z -> bool) (fd : Z) (i : Interest) (k : InterestList) : option InterestList :=
  match k !! fd with None => if open fd then Some (<[fd := i]> k) else None | Some _ => None end.
Definition ctlMod (fd : Z) (i : Interest) (k : InterestList) : option InterestList :=
  match k !! fd with Some _ => Some (<[fd := i]> k) | None => None end.
Definition ctlDel (fd : Z) (k : InterestList) : InterestList := delete fd k.

(** What the kernel reports of a descriptor for which [ready] holds: the events asked for, and
    errors and hang-ups always. *)
Definition reported (i : Interest) (ready : Z) : Z := ready &. (i_events i |. EPOLLERR |. EPOLLHUP).

(** ** The participants *)

Record Participant := mkParticipant {
  pid : nat; udpSocket : Z; hasTcp : bool; tcpSocket : Z; tcpDesiredEvents : Z;
  hasTurnTcp : bool; turnTcpSocket : Z; turnTcpDesiredEvents : Z; turnTcpSlots : list (Z * Z);
  hasListener : bool; listenerSocket : Z;
  hasTurnDataTcp : bool; turnDataTcpSocket : Z; turnDataDesiredEvents : Z; nextTimestampMs : Z }.

Record Desired := mkDesired { d_fd : Z; d_p : nat; d_kind : Z; d_idx : Z; d_events : Z }.

Definition when (b : bool) (d : Desired) : list Desired := if b && negb (d_fd d =? INVALID) then [d] else [].

(** The sockets a participant wants watched, in the order the code asks for them. *)
Definition desiredOf (p : Participant) : list Desired :=
  when true (mkDesired (udpSocket p) (pid p) 1 (-1) POLLIN)
  ++ when (hasTcp p) (mkDesired (tcpSocket p) (pid p) 2 (-1) (tcpDesiredEvents p))
  ++ when (hasTurnTcp p) (mkDesired (turnTcpSocket p) (pid p) 3 (-1) (turnTcpDesiredEvents p))
  ++ concat (imap (fun si '(fd, ev) =>
       when (negb (hasTurnTcp p && (fd =? turnTcpSocket p))) (mkDesired fd (pid p) 6 (Z.of_nat si) ev)) (turnTcpSlots p))
  ++ when (hasListener p) (mkDesired (listenerSocket p) (pid p) 4 (-1) POLLIN)
  ++ when (hasTurnDataTcp p) (mkDesired (turnDataTcpSocket p) (pid p) 5 (-1) (turnDataDesiredEvents p)).

(** ** The registry *)

Record Slot := mkSlot {
  s_fd : Z; s_participant : option nat; s_kind : Z; s_idx : Z; s_lastEvents : Z; s_active : bool; s_seen : bool }.
#[export] Instance Slot_fields : RecordFields Slot := fun s =>
  mkSlot (s_fd s) (s_participant s) (s_kind s) (s_idx s) (s_lastEvents s) (s_active s) (s_seen s).

Record Registry := mkRegistry {
  slots_ : list Slot; fdToSlot_ : gmap Z nat; kernel : InterestList; epollLastFullSyncMs_ : Z }.
#[export] Instance Registry_fields : RecordFields Registry := fun r =>
  mkRegistry (slots_ r) (fdToSlot_ r) (kernel r) (epollLastFullSyncMs_ r).

(** [epollSetup] on a fresh registry: slot 0 is the interrupt socket's. *)
Definition epollSetup (open : Z -> bool) (interruptSock : Z) : Registry :=
  if interruptSock =? INVALID then mkRegistry [] ∅ ∅ 0 else
  mkRegistry [mkSlot interruptSock None 0 (-1) POLLIN true true] {[interruptSock := 0%nat]}
    (default ∅ (ctlAdd open interruptSock (mkInterest EPOLLIN 0) ∅)) 0.

Definition kFullResyncMs : Z := 1000.

(** One round of the loop over the desired sockets; [None] is an access out of the table. *)
Definition reconcile (open : Z -> bool) (forceAll : bool) (d : Desired) (r : Registry) : option Registry :=
  match fdToSlot_ r !! d_fd d with
  | None =>
      let idx := length (slots_ r) in
      match ctlAdd open (d_fd d) (mkInterest (toEpoll (d_events d)) idx) (kernel r) with
      | None => Some r
      | Some k =>
          Some (r <| kernel := k |>
                  <| slots_ ::= fun l => l ++ [mkSlot (d_fd d) (Some (d_p d)) (d_kind d) (d_idx d) (d_events d) true true] |>
                  <| fdToSlot_ ::= <[d_fd d := idx]> |>)
      end
  | Some idx =>
      s ← slots_ r !! idx;
      let ownerChanged := negb (bool_decide (s_participant s = Some (d_p d)))
                          || negb (s_kind s =? d_kind d) || negb (s_idx s =? d_idx d) in
      let s' := s <| s_seen := true |> <| s_participant := Some (d_p d) |> <| s_kind := d_kind d |> <| s_idx := d_idx d |> in
      if negb (s_lastEvents s =? d_events d) || ownerChanged || forceAll then
        let ee := mkInterest (toEpoll (d_events d)) idx in
        let k := match ctlMod (d_fd d) ee (kernel r) with
                 | Some k => k
                 | None => let k := ctlDel (d_fd d) (kernel r) in default k (ctlAdd open (d_fd d) ee k)
                 end in
        Some (r <| kernel := k |> <| slots_ ::= <[idx := s' <| s_lastEvents := d_events d |>]> |>)
      else Some (r <| slots_ ::= <[idx := s']> |>)
  end.

Fixpoint reconcileAll (open : Z -> bool) (forceAll : bool) (ds : list Desired) (r : Registry) : option Registry :=
  match ds with [] => Some r | d :: ds => r ← reconcile open forceAll d r; reconcileAll open forceAll ds r end.

Definition unseen (s : Slot) : Slot := if s_kind s =? 0 then s else s <| s_seen := false |>.

Definition leaves (s : Slot) : bool := negb (s_kind s =? 0) && s_active s && negb (s_seen s).
Definition vacate (s : Slot) : Slot := s <| s_active := false |> <| s_fd := INVALID |> <| s_participant := None |>.

(** The last loop: sockets that left the desired set. *)
Fixpoint sweep (l : list Slot) (r : Registry) : Registry :=
  match l with
  | [] => r
  | s :: l => sweep l (if leaves s then r <| kernel ::= ctlDel (s_fd s) |> <| fdToSlot_ ::= delete (s_fd s) |> else r)
  end.
Definition sweepSlots (r : Registry) : Registry :=
  sweep (slots_ r) r <| slots_ ::= map (fun s => if leaves s then vacate s else s) |>.

Definition epollSync (open : Z -> bool) (participants : list Participant) (forceResync : bool) (now : Z)
    (r : Registry) : option Registry :=
  let desired := concat (map desiredOf participants) in
  let r := r <| slots_ ::= map unseen |> in
  let forceAll := forceResync || (kFullResyncMs <=? now - epollLastFullSyncMs_ r) in
  r ← reconcileAll open forceAll desired r;
  let r := if forceAll then r <| epollLastFullSyncMs_ := now |> else r in
  Some (sweepSlots r).

(** A socket is closed by its owner: the kernel forgets it. *)
Definition closed (fd : Z) (r : Registry) : Registry := r <| kernel ::= delete fd |>.

(** ** Dispatch *)

Inductive Callback :=
| OnUdpReadable (p : nat) | OnTcpEvents (p : nat) (rev : Z) | OnTurnTcpEvents (p : nat) (rev : Z) | OnAccept (p : nat)
| OnTurnDataTcpEvents (p : nat) (rev : Z) | OnTurnTcpEventsSock (p : nat) (fd rev : Z).

(** The [switch] of the dispatch loop. *)
Definition callback (kind : Z) (p : nat) (fd rev : Z) : list Callback :=
  if kind =? 1 then [OnUdpReadable p] else if kind =? 2 then [OnTcpEvents p rev]
  else if kind =? 3 then [OnTurnTcpEvents p rev] else if kind =? 4 then [OnAccept p]
  else if kind =? 5 then [OnTurnDataTcpEvents p rev] else if kind =? 6 then [OnTurnTcpEventsSock p fd rev] else [].

(** The slots an event names lose a participant that is not registered any more. *)
Definition validate (participants_ : list nat) (idx : nat) (l : list Slot) : list Slot :=
  alter (fun s => if s_active s then
    match s_participant s with
    | Some p => if bool_decide (p ∈ participants_) then s else s <| s_participant := None |>
    | None => s
    end else s) idx l.

Definition dispatchOne (r : Registry) (idx : nat) (ev : Z) : list Callback :=
  match slots_ r !! idx with
  | None => []
  | Some s =>
      if negb (s_active s) then [] else if s_kind s =? 0 then [] else
      match s_participant s with None => [] | Some p => callback (s_kind s) p (s_fd s) (mapToPollEvents ev) end
  end.

(** The events of one [epoll_wait]. *)
Definition dispatch (participants_ : list nat) (events : list (nat * Z)) (r : Registry) : list Callback * Registry :=
  let r := r <| slots_ ::= fun l => foldl (fun l '(idx, _) => validate participants_ idx l) l events |> in
  (concat (map (fun '(idx, ev) => dispatchOne r idx ev) events), r).

(** ** The pool and the timeout *)

Definition poolSize (hc : Z) : Z := if 16 <=? hc then 16 else if 2 <=? hc then hc else 1.

(** The pool as its size and the counter; the result is the index of the instance given out. *)
Record Pool := mkPool { poolLen : Z; next : Z }.
Definition acquire (hc : Z) (p : Pool) : Z * Pool :=
  let n := if poolLen p =? 0 then 1
           else if (poolLen p <=? next p) && (poolLen p <? poolSize hc) then poolLen p + 1 else poolLen p in
  (next p mod n, mkPool n (next p + 1)).

Definition sooner (next : Z) (p : Participant) : Z :=
  let t := nextTimestampMs p in if (0 <? t) && (t <? next) then t else next.

Definition computeTimeoutMs (participants : list Participant) (now : Z) : Z :=
  let next := foldl sooner (now + 1000) participants in
  let timeout := next - now in
  let timeout := if timeout <? 0 then 0 else timeout in
  if 1000 <? timeout then 1000 else timeout.

(** ** [sticePoll] *)

Record Pollfd := mkPollfd { p_fd : Z; p_events : Z; p_revents : Z }.
#[export] Instance Pollfd_fields : RecordFields Pollfd := fun p => mkPollfd (p_fd p) (p_events p) (p_revents p).

(** The registration loop: the entries with their results so far, the interest list of the
    fresh handle, and the count of failures. *)
Fixpoint pollRegister (open : Z -> bool) (i : nat) (fds : list Pollfd) (k : InterestList) : list Pollfd * InterestList * Z :=
  match fds with
  | [] => ([], k, 0)
  | p :: fds =>
      let p := p <| p_revents := 0 |> in
      let ee := mkInterest (toEpoll (p_events p)) i in
      let '(p, k, bad) :=
        if p_fd p <? 0 then (p, k, 0) else if i_events ee =? 0 then (p, k, 0) else
        match ctlAdd open (p_fd p) ee k with
        | Some k => (p, k, 0)
        | None =>
            match k !! p_fd p with
            | Some _ => (p, default k (ctlMod (p_fd p) ee k), 0)
            | None => (p <| p_revents := POLLNVAL |>, k, 1)
            end
        end in
      let '(fds, k, ready) := pollRegister open (S i) fds k in
      (p :: fds, k, bad + ready)
  end.

(** The events [epoll_wait] returns, one per registered descriptor with something to report. *)
Definition epollEvents (readyOf : Z -> Z) (k : InterestList) : list (nat * Z) :=
  omap (fun '(fd, i) => let ev := reported i (readyOf fd) in if ev =? 0 then None else Some (i_data i, ev)) (map_to_list k).

Definition applyEvent (acc : list Pollfd * Z) (e : nat * Z) : list Pollfd * Z :=
  let '(fds, ready) := acc in
  if (e.1 <? length fds)%nat
  then (alter (fun p => p <| p_revents ::= fun r => r |. mapToPollEvents e.2 |>) e.1 fds, ready + 1) else (fds, ready).

(** [created] is the outcome of [epoll_create1]; what is ready when the wait ends is [wait],
    [None] when it fails. *)
Definition sticePoll (open : Z -> bool) (created : bool) (wait : option (Z -> Z)) (fds : list Pollfd) (timeout : Z)
    : list Pollfd * Z :=
  match fds with
  | [] => ([], 0)
  | _ =>
      if negb created then (fds, -1) else
      let '(fds, k, ready) := pollRegister open 0 fds ∅ in
      if (ready =? 0) && negb (timeout =? 0) then
        match wait with None => (fds, -1) | Some readyOf => foldl applyEvent (fds, ready) (epollEvents readyOf k) end
      else (fds, ready)
  end.

(** ** The registrations follow the participants *)

(** Slots, map and interest list agree: a descriptor is mapped to the active slot that names
    it, and what the kernel watches for it carries the number of that slot. *)
Record rinv (r : Registry) : Prop := {
  v_map fd k : fdToSlot_ r !! fd = Some k -> exists s, slots_ r !! k = Some s /\ s_active s = true /\ s_fd s = fd;
  v_slot k s : slots_ r !! k = Some s -> s_active s = true -> fdToSlot_ r !! s_fd s = Some k;
  v_ker fd i : kernel r !! fd = Some i -> fdToSlot_ r !! fd = Some (i_data i);
}.

(** The slot of a desired socket is up to date. *)
Definition slotFor (d : Desired) (s : Slot) : Prop :=
  s_fd s = d_fd d /\ s_participant s = Some (d_p d) /\ s_kind s = d_kind d /\ s_idx s = d_idx d /\
  s_active s = true /\ s_seen s = true.

Definition served (d : Desired) (r : Registry) : Prop :=
  exists k s, fdToSlot_ r !! d_fd d = Some k /\ slots_ r !! k = Some s /\ slotFor d s /\
    kernel r !! d_fd d = Some (mkInterest (toEpoll (d_events d)) k).

(** What a round leaves alone. *)
Record frame (fd : Z) (r r' : Registry) : Prop := {
  f_ker x : x <> fd -> kernel r' !! x = kernel r !! x;
  f_map x : x <> fd -> fdToSlot_ r' !! x = fdToSlot_ r !! x;
  f_slot x k s : x <> fd -> fdToSlot_ r !! x = Some k -> slots_ r !! k = Some s -> slots_ r' !! k = Some s;
}.

Lemma ctlAdd_Some open fd i k k' : ctlAdd open fd i k = Some k' -> k !! fd = None /\ open fd = true /\ k' = <[fd := i]> k.
Proof. unfold ctlAdd. destruct (k !! fd), (open fd); naive_solver. Qed.

(** The kernel after the registration of a known descriptor. *)
Definition reassert (open : Z -> bool) (fd : Z) (ee : Interest) (k : InterestList) : InterestList :=
  match ctlMod fd ee k with Some k => k | None => let k := ctlDel fd k in default k (ctlAdd open fd ee k) end.

Lemma reassert_lookup open fd ee k x :
  (open fd = false -> k !! fd = None) ->
  reassert open fd ee k !! x = if decide (x = fd) then (if open fd then Some ee else None) else k !! x.
Proof.
  intros Hc. unfold reassert, ctlMod, ctlDel, ctlAdd. destruct (k !! fd) eqn:E.
  - destruct (open fd); [|specialize (Hc eq_refl); congruence]. destruct (decide (x = fd)) as [->|]; [by rewrite lookup_insert_eq|].
    by rewrite lookup_insert_ne.
  - rewrite lookup_delete_eq. destruct (open fd); cbn; destruct (decide (x = fd)) as [->|].
    + by rewrite lookup_insert_eq.
    + by rewrite lookup_insert_ne, lookup_delete_ne.
    + by rewrite lookup_delete_eq.
    + by rewrite lookup_delete_ne.
Qed.

(** One slot is written in place: the agreement is kept when its descriptor and its being
    active are, and the kernel changes at that descriptor only, to an entry naming the slot. *)
Lemma rinv_rewrite r k fd s s' K :
  rinv r -> fdToSlot_ r !! fd = Some k -> slots_ r !! k = Some s -> s_fd s' = s_fd s -> s_active s' = s_active s ->
  (forall x i, K !! x = Some i -> kernel r !! x = Some i \/ (x = fd /\ i_data i = k)) ->
  rinv (r <| kernel := K |> <| slots_ ::= <[k := s']> |>).
Proof.
  intros [M S V] Hm Hs Hf Ha HK. assert (Hlt : (k < length (slots_ r))%nat) by (by eapply lookup_lt_Some).
  constructor; upd.
  - intros x j Hx. destruct (M x j Hx) as (t & Ht & At & Ft). destruct (decide (k = j)) as [<-|Hne].
    + exists s'. rewrite list_lookup_insert_eq by done. assert (t = s) as -> by congruence. split; [done|]. split; congruence.
    + exists t. by rewrite list_lookup_insert_ne.
  - intros j t Ht At. destruct (decide (k = j)) as [<-|Hne].
    + rewrite list_lookup_insert_eq in Ht by done. injection Ht as <-. rewrite Hf. apply S; congruence.
    + rewrite list_lookup_insert_ne in Ht by done. by apply S.
  - intros x i Hi. destruct (HK x i Hi) as [H|[-> <-]]; [by apply V|done].
Qed.

Lemma frame_rewrite r k fd s s' K :
  rinv r -> fdToSlot_ r !! fd = Some k -> slots_ r !! k = Some s -> (forall x, x <> fd -> K !! x = kernel r !! x) ->
  frame fd r (r <| kernel := K |> <| slots_ ::= <[k := s']> |>).
Proof.
  intros I Hm Hs HK. constructor; upd; [exact HK|done|]. intros x j t Hx Hj Ht.
  rewrite list_lookup_insert_ne; [done|]. intros <-. destruct (v_map _ I x k Hj) as (t1 & T1 & _ & F1).
  destruct (v_map _ I fd k Hm) as (t2 & T2 & _ & F2). congruence.
Qed.

(** A new slot at the end of the table. *)
Lemma rinv_append r fd s i :
  rinv r -> fdToSlot_ r !! fd = None -> s_fd s = fd -> s_active s = true -> i_data i = length (slots_ r) ->
  let r' := r <| kernel := <[fd := i]> (kernel r) |> <| slots_ ::= fun l => l ++ [s] |>
              <| fdToSlot_ ::= <[fd := length (slots_ r)]> |> in
  rinv r' /\ frame fd r r'.
Proof.
  intros [M S V] Hn Hf Ha Hi r'. unfold r'. split; constructor; upd.
  - intros x k [[<- <-]|[Hne Hx]]%lookup_insert_Some.
    + exists s. by rewrite list_lookup_middle.
    + destruct (M x k Hx) as (t & Ht & At). exists t. by rewrite lookup_app_l_Some with (x := t).
  - intros k t [Ht|[Hge Ht]]%lookup_app_Some At.
    + rewrite lookup_insert_ne; [by apply S|]. intros ->. specialize (S k t Ht At). congruence.
    + destruct (k - length (slots_ r))%nat eqn:E; [|done]. cbn in Ht. injection Ht as <-. rewrite Hf, lookup_insert_eq. f_equal. lia.
  - intros x j [[<- <-]|[Hne Hx]]%lookup_insert_Some; [by rewrite lookup_insert_eq, Hi|]. rewrite lookup_insert_ne by done. by apply V.
  - intros x Hx. by rewrite lookup_insert_ne.
  - intros x Hx. by rewrite lookup_insert_ne.
  - intros x k t Hx Hk Ht. by apply lookup_app_l_Some.
Qed.

(** What the kernel watches is open. *)
Definition onlyOpen (open : Z -> bool) (r : Registry) : Prop := forall fd, open fd = false -> kernel r !! fd = None.

(** A round serves its socket when that is open and the registration is asserted. *)
Lemma reconcile_spec open f d r :
  rinv r -> onlyOpen open r ->
  exists r', reconcile open f d r = Some r' /\ rinv r' /\ onlyOpen open r' /\ frame (d_fd d) r r' /\
    (f = true -> open (d_fd d) = true -> served d r') /\
    (forall k s, slots_ r' !! k = Some s -> slots_ r !! k = Some s \/ slotFor d s).
Proof.
  intros I Ho. unfold reconcile. destruct (fdToSlot_ r !! d_fd d) as [k|] eqn:Em.
  - destruct (v_map _ I _ _ Em) as (s & Hs & Ha & Hf). rewrite Hs. cbn [mbind option_bind].
    assert (Hlt : (k < length (slots_ r))%nat) by (by eapply lookup_lt_Some).
    assert (R : forall K s', slotFor d s' ->
      (forall x, K !! x = if decide (x = d_fd d) then (if open (d_fd d) then Some (mkInterest (toEpoll (d_events d)) k) else None)
                          else kernel r !! x) \/ (f = false /\ K = kernel r) ->
      let r' := r <| kernel := K |> <| slots_ ::= <[k := s']> |> in
      rinv r' /\ onlyOpen open r' /\ frame (d_fd d) r r' /\ (f = true -> open (d_fd d) = true -> served d r') /\
      (forall k s, slots_ r' !! k = Some s -> slots_ r !! k = Some s \/ slotFor d s)).
    { intros K s' Hfor HK r'. pose proof Hfor as (F1 & _ & _ & _ & F5 & _). unfold r'. split; [|split; [|split; [|split]]].
      - apply (rinv_rewrite r k (d_fd d) s s' K I Em Hs); [congruence|congruence|]. destruct HK as [HK|[_ ->]]; [|by left].
        intros x i Hi. rewrite HK in Hi. destruct (decide (x = d_fd d)) as [->|]; [|by left].
        destruct (open (d_fd d)); [|done]. injection Hi as <-. by right.
      - intros x Hx. upd. destruct HK as [HK|[_ ->]]; [|by apply Ho]. rewrite HK.
        destruct (decide (x = d_fd d)) as [->|]; [by rewrite Hx|by apply Ho].
      - apply (frame_rewrite r k (d_fd d) s s' K I Em Hs). intros x Hx. destruct HK as [HK|[_ ->]]; [|done].
        rewrite HK. by rewrite decide_False.
      - intros Hf' Hopen. exists k, s'. upd. split; [done|]. rewrite list_lookup_insert_eq by done. split; [done|].
        split; [done|]. destruct HK as [HK|[? _]]; [|congruence]. by rewrite HK, decide_True, Hopen.
      - intros j t. upd. intros [(_ & <- & _)|[_ H]]%list_lookup_insert_Some; [by right|by left]. }
    destruct (_ || f) eqn:Ef.
    + eexists. split; [reflexivity|]. apply R; [by repeat split|]. left. intros x. apply reassert_lookup, Ho.
    + eexists. split; [reflexivity|]. apply (R (kernel r)); [by repeat split|]. right. split; [|done].
      by apply orb_false_iff in Ef as [_ ->].
  - assert (Hnk : kernel r !! d_fd d = None).
    { destruct (kernel r !! d_fd d) eqn:E; [|done]. apply (v_ker _ I) in E. congruence. }
    unfold ctlAdd. rewrite Hnk. destruct (open (d_fd d)) eqn:Hopen.
    + destruct (rinv_append r (d_fd d) (mkSlot (d_fd d) (Some (d_p d)) (d_kind d) (d_idx d) (d_events d) true true)
        (mkInterest (toEpoll (d_events d)) (length (slots_ r))) I Em eq_refl eq_refl eq_refl) as [I' F'].
      eexists. split; [reflexivity|]. split; [exact I'|]. split; [|split; [exact F'|split]].
      * intros x Hx. upd. rewrite lookup_insert_ne by congruence. by apply Ho.
      * intros _ _. eexists (length (slots_ r)), _. upd. rewrite lookup_insert_eq. split; [done|].
        rewrite list_lookup_middle by done. split; [done|]. split; [by repeat split|]. by rewrite lookup_insert_eq.
      * intros j t. upd. intros [H|[_ H]]%lookup_app_Some; [by left|right].
        destruct (j - length (slots_ r))%nat; [|done]. injection H as <-. by repeat split.
    + exists r. split; [done|]. split; [done|]. split; [done|]. split; [by split|]. split; [done|]. by left.
Qed.

Lemma served_frame d fd r r' : served d r -> frame fd r r' -> d_fd d <> fd -> served d r'.
Proof.
  intros (k & s & Hm & Hs & Hf & Hk) F Hne. exists k, s. rewrite (f_map _ _ _ F), (f_ker _ _ _ F) by done.
  split; [done|]. split; [|done]. by apply (f_slot _ _ _ F (d_fd d)).
Qed.

Lemma reconcileAll_spec open f ds r :
  rinv r -> onlyOpen open r ->
  exists r', reconcileAll open f ds r = Some r' /\ rinv r' /\ onlyOpen open r' /\
    (f = true -> forall l1 d l2, ds = l1 ++ d :: l2 -> d_fd d ∉ d_fd <$> l2 -> open (d_fd d) = true -> served d r') /\
    (forall d, served d r -> d_fd d ∉ d_fd <$> ds -> served d r') /\
    (forall k s, slots_ r' !! k = Some s -> slots_ r !! k = Some s \/ exists d, d ∈ ds /\ slotFor d s).
Proof.
  revert r. induction ds as [|d ds IH]; intros r I Ho; cbn [reconcileAll].
  { exists r. split; [done|]. split; [done|]. split; [done|]. split; [by intros _ [|]|]. split; [done|]. by left. }
  destruct (reconcile_spec open f d r I Ho) as (r1 & E & I1 & O1 & F1 & S1 & A1). rewrite E. cbn [mbind option_bind].
  destruct (IH r1 I1 O1) as (r2 & E2 & I2 & O2 & S2 & K2 & A2). exists r2. split; [done|]. split; [done|]. split; [done|].
  split; [|split].
  - intros Hf [|x l1] d' l2 El Hd Hopen; injection El as <- El; [|by eapply S2]. subst l2. apply K2; [by apply S1|done].
  - intros d' Hs Hn. rewrite fmap_cons in Hn. apply not_elem_of_cons in Hn as [Hne Hn]. apply K2; [|done]. by eapply served_frame.
  - intros k s Hs. destruct (A2 k s Hs) as [H|(d' & Hin & H)].
    + destruct (A1 k s H) as [H'|H']; [by left|right; exists d; split; [by left|done]].
    + right. exists d'. split; [by right|done].
Qed.

(** ** The sockets that left *)

Definition leaving (l : list Slot) (fd : Z) : Prop := exists s, s ∈ l /\ leaves s = true /\ s_fd s = fd.

Lemma leaving_cons s l fd : leaving (s :: l) fd <-> (leaves s = true /\ s_fd s = fd) \/ leaving l fd.
Proof. unfold leaving. setoid_rewrite elem_of_cons. naive_solver. Qed.

Lemma sweep_lookup l r fd i k :
  (kernel (sweep l r) !! fd = Some i <-> kernel r !! fd = Some i /\ ~ leaving l fd) /\
  (fdToSlot_ (sweep l r) !! fd = Some k <-> fdToSlot_ r !! fd = Some k /\ ~ leaving l fd).
Proof.
  revert r. induction l as [|s l IH]; intros r; cbn [sweep].
  { assert (~ leaving [] fd) by (intros (s & H & _); by apply elem_of_nil in H). tauto. }
  destruct (IH (if leaves s then r <| kernel ::= ctlDel (s_fd s) |> <| fdToSlot_ ::= delete (s_fd s) |> else r)) as [H1 H2].
  rewrite H1, H2, leaving_cons. clear. destruct (leaves s); upd; [|intuition congruence].
  unfold ctlDel. rewrite !lookup_delete_Some. tauto.
Qed.

Lemma sweep_slots l r : slots_ (sweep l r) = slots_ r.
Proof. revert r. induction l as [|s l IH]; intros r; cbn [sweep]; [done|]. rewrite IH. by destruct (leaves s). Qed.

Lemma sweepSlots_lookup r k s :
  slots_ (sweepSlots r) !! k = Some s <-> exists t, slots_ r !! k = Some t /\ s = if leaves t then vacate t else t.
Proof.
  unfold sweepSlots. upd. rewrite sweep_slots. change (map ?f ?l) with (f <$> l). rewrite list_lookup_fmap_Some. naive_solver.
Qed.

(** Only the slot of a descriptor can be leaving with it. *)
Lemma leaving_own r k s : rinv r -> slots_ r !! k = Some s -> s_active s = true -> leaving (slots_ r) (s_fd s) -> leaves s = true.
Proof.
  intros I Hs Ha (t & Ht & Hl & Hf). apply list_elem_of_lookup in Ht as [j Ht].
  assert (At : s_active t = true) by (unfold leaves in Hl; by destruct (s_active t), (s_kind t =? 0)).
  pose proof (v_slot _ I k s Hs Ha) as H1. pose proof (v_slot _ I j t Ht At) as H2. rewrite Hf in H2. congruence.
Qed.

Lemma sweep_inv r : rinv r -> rinv (sweepSlots r).
Proof.
  intros I. constructor.
  - intros fd k H. apply (sweep_lookup _ _ _ (mkInterest 0 0)) in H as [H Hn]. destruct (v_map _ I fd k H) as (s & Hs & Ha & Hf).
    exists s. split; [|done]. apply sweepSlots_lookup. exists s. split; [done|]. destruct (leaves s) eqn:E; [|done].
    destruct Hn. exists s. split; [by eapply list_elem_of_lookup_2|done].
  - intros k s' (s & Hs & ->)%sweepSlots_lookup. destruct (leaves s) eqn:E; [done|]. intros Ha.
    apply (sweep_lookup _ _ _ (mkInterest 0 0)). split; [by apply (v_slot _ I)|]. intros Hl.
    by rewrite (leaving_own r k s) in E.
  - intros fd i H. apply (sweep_lookup _ _ _ _ 0%nat) in H as [H Hn]. apply (sweep_lookup _ _ _ i). split; [by apply (v_ker _ I)|done].
Qed.

Lemma sweep_served d r : rinv r -> served d r -> served d (sweepSlots r).
Proof.
  intros I (k & s & Hm & Hs & Hf & Hk). pose proof Hf as (F1 & _ & _ & _ & Ha & Hseen).
  assert (El : leaves s = false) by (unfold leaves; by rewrite Hseen, andb_false_r).
  assert (Hn : ~ leaving (slots_ r) (d_fd d)).
  { intros Hl. rewrite <- F1 in Hl. by rewrite (leaving_own r k s) in El. }
  exists k, s. split; [by apply (sweep_lookup _ _ _ (mkInterest 0 0))|]. split; [apply sweepSlots_lookup; exists s; by rewrite El|].
  split; [done|]. by apply (sweep_lookup _ _ _ _ 0%nat).
Qed.

(** ** All calls of the poll thread *)

Definition desiredAll (ps : list Participant) : list Desired := concat (map desiredOf ps).

(** Slots of kind 0 are the interrupt socket's. *)
Definition zeroIs (isock : Z) (r : Registry) : Prop := forall k s, slots_ r !! k = Some s -> s_kind s = 0 -> s_fd s = isock.

Record polled (isock : Z) (open : Z -> bool) (r : Registry) : Prop := {
  po_inv : rinv r; po_open : onlyOpen open r; po_zero : zeroIs isock r }.

Lemma when_ok (P : Desired -> Prop) b d : P d -> Forall P (when b d).
Proof. intros H. unfold when. destruct (b && _); auto. Qed.

Lemma desired_kind ps : Forall (fun d => d_kind d <> 0) (desiredAll ps).
Proof.
  apply Forall_concat, Forall_forall. intros l (p & -> & _)%list_elem_of_fmap. unfold desiredOf.
  repeat (apply Forall_app; split); try (by apply when_ok).
  apply Forall_concat, Forall_forall. intros l (i & [fd ev] & -> & _)%elem_of_lookup_imap. by apply when_ok.
Qed.

(** Slots may change one by one as long as they keep descriptor, activity and kind. *)
Definition sameSlot (g : Slot -> Slot) : Prop :=
  forall s, s_fd (g s) = s_fd s /\ s_active (g s) = s_active s /\ s_kind (g s) = s_kind s.

Lemma pointwise_polled isock open F r :
  polled isock open r -> (forall k, exists g, sameSlot g /\ F (slots_ r) !! k = g <$> slots_ r !! k) ->
  polled isock open (r <| slots_ ::= F |>).
Proof.
  intros [[M S V] O Z] HF. split; [constructor| |]; upd; [..|exact V|exact O|].
  - intros fd k H. destruct (M fd k H) as (s & Hs & Ha & Hf), (HF k) as (g & Hg & Hk). exists (g s).
    destruct (Hg s) as (G1 & G2 & _). rewrite Hk, Hs, G1, G2. done.
  - intros k t Ht. destruct (HF k) as (g & Hg & Hk). rewrite Hk in Ht. apply fmap_Some in Ht as (s & Hs & ->).
    destruct (Hg s) as (-> & -> & _). by apply S.
  - intros k t. upd. intros Ht. destruct (HF k) as (g & Hg & Hk). rewrite Hk in Ht. apply fmap_Some in Ht as (s & Hs & ->).
    destruct (Hg s) as (-> & _ & ->). by apply (Z k).
Qed.

Lemma unseen_polled isock open r : polled isock open r -> polled isock open (r <| slots_ ::= map unseen |>).
Proof.
  intros P. apply pointwise_polled; [done|]. intros k. exists unseen. split; [|apply list_lookup_fmap].
  intros s. unfold unseen. by destruct (s_kind s =? 0).
Qed.

Lemma setup_polled open isock : polled isock open (epollSetup open isock).
Proof.
  unfold epollSetup. destruct (isock =? INVALID).
  { split; [by constructor|done|]. intros [|k] s H; done. }
  assert (K : forall fd i, default ∅ (ctlAdd open isock (mkInterest EPOLLIN 0) ∅) !! fd = Some i ->
    fd = isock /\ i_data i = 0%nat /\ open fd = true).
  { intros fd i. unfold ctlAdd. rewrite lookup_empty. destruct (open isock) eqn:E; cbn; [|by rewrite lookup_empty].
    intros [[<- <-]|[_ H]]%lookup_insert_Some; [done|by rewrite lookup_empty in H]. }
  split; [constructor| |]; cbn.
  - intros fd k [<- <-]%lookup_singleton_Some. by eexists.
  - intros [|k] s; [|done]. intros [= <-] _. cbn. by rewrite lookup_singleton_eq.
  - intros fd i (-> & -> & _)%K. by rewrite lookup_singleton_eq.
  - intros fd Hfd. cbn. destruct (_ !! fd) as [i|] eqn:E; [|done]. apply K in E as (_ & _ & E). congruence.
  - intros [|k] s; [|done]. by intros [= <-].
Qed.

Lemma closed_polled isock open fd r : polled isock open r -> polled isock (fun x => open x && negb (x =? fd)) (closed fd r).
Proof.
  intros [[M S V] O Z]. split; [constructor| |]; unfold closed; upd; try done.
  - intros x i [_ H]%lookup_delete_Some. by apply V.
  - intros x. upd. destruct (Z.eqb_spec x fd) as [->|Hne]; [intros _; by rewrite lookup_delete_eq|].
    rewrite andb_true_r. intros Hx. rewrite lookup_delete_ne by done. by apply O.
Qed.

Lemma opened_polled isock open open' r : polled isock open r -> (forall x, open x = true -> open' x = true) -> polled isock open' r.
Proof.
  intros [I O Z] H. split; [done| |done]. intros x Hx. apply O. specialize (H x). destruct (open x); [|done]. by rewrite H in Hx.
Qed.

Lemma validate_same parts j k l : exists g, sameSlot g /\ validate parts j l !! k = g <$> l !! k.
Proof.
  unfold validate. destruct (decide (k = j)) as [->|Hne].
  - rewrite list_lookup_alter_eq. eexists. split; [|reflexivity]. intros s. cbn.
    destruct (s_active s) eqn:Ea, (s_participant s); try case_bool_decide; by split_and!.
  - rewrite list_lookup_alter_ne by done. exists id. split; [by intros s|]. by destruct (l !! k).
Qed.

(** A slot's participant is forgotten: nothing else depends on it. *)
Lemma dispatch_polled isock open parts events r : polled isock open r -> polled isock open (dispatch parts events r).2.
Proof.
  intros P. cbn [dispatch snd]. apply pointwise_polled; [done|]. generalize (slots_ r). clear.
  induction events as [|[j ev] events IH]; intros l k; cbn [foldl].
  - exists id. split; [by intros s|]. by destruct (l !! k).
  - destruct (IH (validate parts j l) k) as (g & Hg & ->). destruct (validate_same parts j k l) as (h & Hh & ->).
    exists (g ∘ h). split; [|by destruct (l !! k)]. intros s. cbn. destruct (Hg (h s)) as (-> & -> & ->). apply Hh.
Qed.

(** The whole of [epollSync]: it never leaves the table, keeps the agreement, and when the
    registrations are asserted every open socket somebody wants is served, and no other
    socket than the interrupt socket is watched. *)
Lemma sync_spec isock open ps force now r :
  polled isock open r ->
  exists r', epollSync open ps force now r = Some r' /\ polled isock open r' /\
    (force || (kFullResyncMs <=? now - epollLastFullSyncMs_ r) = true -> forall l1 d l2,
     desiredAll ps = l1 ++ d :: l2 -> d_fd d ∉ d_fd <$> l2 -> open (d_fd d) = true -> served d r') /\
    (forall fd, fd <> isock -> is_Some (kernel r' !! fd) -> fd ∈ d_fd <$> desiredAll ps).
Proof.
  intros P. unfold epollSync. fold (desiredAll ps). set (r0 := r <| slots_ ::= map unseen |>).
  pose proof (unseen_polled isock open r P) as [I0 O0 Z0]. fold r0 in I0, O0, Z0. upd. set (f := force || _).
  change (epollLastFullSyncMs_ r0) with (epollLastFullSyncMs_ r). fold f.
  destruct (reconcileAll_spec open f (desiredAll ps) r0 I0 O0) as (r1 & E & I1 & O1 & S1 & _ & A1). rewrite E. cbn [mbind option_bind].
  set (r2 := if f then _ else r1).
  assert (H2 : slots_ r2 = slots_ r1 /\ fdToSlot_ r2 = fdToSlot_ r1 /\ kernel r2 = kernel r1) by (unfold r2; by destruct f).
  destruct H2 as (H2s & H2m & H2k). assert (I2 : rinv r2) by (destruct I1; constructor; by rewrite ?H2s, ?H2m, ?H2k).
  exists (sweepSlots r2). split; [done|]. split; [split; [by apply sweep_inv| |]|split].
  - intros fd Hfd. destruct (kernel (sweepSlots r2) !! fd) eqn:Ek; [|done].
    apply (sweep_lookup _ _ _ _ 0%nat) in Ek as [Ek _]. rewrite H2k, O1 in Ek by done. done.
  - intros k s (t & Ht & ->)%sweepSlots_lookup. rewrite H2s in Ht. destruct (A1 k t Ht) as [H|(d & Hd & (_ & _ & Kd & _))].
    + destruct (leaves t) eqn:El; [|by apply (Z0 k t)]. unfold leaves in El. intros Hk. change (s_kind t = 0) in Hk. by rewrite Hk in El.
    + pose proof (proj1 (Forall_forall _ _) (desired_kind ps) d Hd). destruct (leaves t); intros Hk; [change (s_kind t = 0) in Hk|]; congruence.
  - intros Hf l1 d l2 El Hd Hopen. apply sweep_served; [done|]. specialize (S1 Hf l1 d l2 El Hd Hopen). unfold served in *. by rewrite H2s, H2m, H2k.
  - intros fd Hne [i Hi]. apply (sweep_lookup _ _ _ _ 0%nat) in Hi as [Hi Hn]. apply (v_ker _ I2) in Hi.
    destruct (v_map _ I2 _ _ Hi) as (s & Hs & Ha & Hf). rewrite H2s in Hs.
    destruct (leaves s) eqn:El; [destruct Hn; exists s; rewrite H2s; split; [by eapply list_elem_of_lookup_2|done]|].
    destruct (A1 _ s Hs) as [H|(d & Hd & F1 & _)]; [|rewrite <- Hf, F1; by apply list_elem_of_fmap_2].
    exfalso. unfold r0 in H. upd. change (map ?f ?l) with (f <$> l) in H. apply list_lookup_fmap_Some in H as (t & -> & Ht).
    unfold unseen in *. destruct (Z.eqb_spec (s_kind t) 0) as [Hk|Hk].
    + apply Hne. rewrite <- Hf. by apply (po_zero _ _ _ P (i_data i)).
    + unfold leaves in El. upd. rewrite Ha in El. by destruct (Z.eqb_spec (s_kind t) 0).
Qed.

(** Sockets are opened and closed between the calls of the poll thread. *)
Inductive PollStep :=
| Sync (ps : list Participant) (force : bool) (now : Z)
| Opened (fd : Z)
| Closed (fd : Z)
| Dispatched (participants_ : list nat) (events : list (nat * Z)).

Definition isOpen (o : gset Z) (fd : Z) : bool := bool_decide (fd ∈ o).

Definition pollStep (x : PollStep) (c : gset Z * Registry) : option (gset Z * Registry) :=
  let '(o, r) := c in
  match x with
  | Sync ps force now => r ← epollSync (isOpen o) ps force now r; Some (o, r)
  | Opened fd => Some ({[fd]} ∪ o, r)
  | Closed fd => Some (o ∖ {[fd]}, closed fd r)
  | Dispatched parts events => Some (o, (dispatch parts events r).2)
  end.

Fixpoint pollSteps (l : list PollStep) (c : gset Z * Registry) : option (gset Z * Registry) :=
  match l with [] => Some c | x :: l => c ← pollStep x c; pollSteps l c end.

Lemma polled_ext isock open open' r : (forall x, open x = open' x) -> polled isock open r -> polled isock open' r.
Proof. intros H [I O Z]. split; [done| |done]. intros x. rewrite <- H. apply O. Qed.

Lemma step_polled isock x o r : polled isock (isOpen o) r ->
  exists o' r', pollStep x (o, r) = Some (o', r') /\ polled isock (isOpen o') r'.
Proof.
  intros P. destruct x as [ps force now|fd|fd|parts events]; cbn [pollStep].
  - destruct (sync_spec isock _ ps force now r P) as (r' & E & P' & _). rewrite E. cbn. eauto.
  - eexists _, _. split; [done|]. apply (opened_polled isock (isOpen o)); [done|]. intros x. unfold isOpen.
    rewrite !bool_decide_eq_true. set_solver.
  - eexists _, _. split; [done|]. apply (polled_ext _ (fun x => isOpen o x && negb (x =? fd))); [|by apply closed_polled].
    intros x. unfold isOpen. apply Bool.eq_iff_eq_true. rewrite andb_true_iff, negb_true_iff, Z.eqb_neq, !bool_decide_eq_true. set_solver.
  - eexists _, _. split; [done|]. by apply dispatch_polled.
Qed.

Lemma steps_polled isock l o r : polled isock (isOpen o) r ->
  exists o' r', pollSteps l (o, r) = Some (o', r') /\ polled isock (isOpen o') r'.
Proof.
  revert o r. induction l as [|x l IH]; intros o r P; cbn [pollSteps]; [eauto|].
  destruct (step_polled isock x o r P) as (o1 & r1 & E & P1). rewrite E. cbn [mbind option_bind]. by apply IH.
Qed.

Lemma served_dispatch d r ev : served d r -> d_kind d <> 0 ->
  exists i, kernel r !! d_fd d = Some i /\ i_events i = toEpoll (d_events d) /\
    dispatchOne r (i_data i) ev = callback (d_kind d) (d_p d) (d_fd d) (mapToPollEvents ev).
Proof.
  intros (k & s & _ & Hs & (F1 & F2 & F3 & F4 & F5 & _) & Hk) Hkind. eexists. split; [done|]. split; [done|]. cbn [i_data].
  unfold dispatchOne. rewrite Hs, F5, F3, F2, F1. cbn [negb]. by destruct (Z.eqb_spec (d_kind d) 0).
Qed.

(** C33: The kernel watches what the participants want, and events reach their owners.  Any
    history of synchronisations (asserting or not), dispatches and sockets opened and closed
    (with their numbers used again) runs: no call leaves the slot table.  After it every
    further synchronisation runs too and leaves nothing watched but the interrupt socket and
    open sockets that are wanted; and when it asserts all registrations, because the
    participants changed or a second has passed, it ends with every open socket that is wanted
    watched for the events its owner wants, under a slot from which an event leads to the
    callback of its owner for that kind of socket.  The owner of a socket that is wanted once
    is the one who wants it; when several want the same socket, the last one in the order of
    the participants. *)
Theorem events_reach_owners isock o0 l :
  exists o r, pollSteps l (o0, epollSetup (isOpen o0) isock) = Some (o, r) /\
  forall ps force now, exists r', epollSync (isOpen o) ps force now r = Some r' /\
    (force || (kFullResyncMs <=? now - epollLastFullSyncMs_ r) = true -> forall before d after ev,
      desiredAll ps = before ++ d :: after -> d_fd d ∉ d_fd <$> after -> d_fd d ∈ o ->
      exists i, kernel r' !! d_fd d = Some i /\ i_events i = toEpoll (d_events d) /\
        dispatchOne r' (i_data i) ev = callback (d_kind d) (d_p d) (d_fd d) (mapToPollEvents ev)) /\
    (forall fd, fd <> isock -> is_Some (kernel r' !! fd) -> fd ∈ o /\ fd ∈ d_fd <$> desiredAll ps).
Proof.
  destruct (steps_polled isock l _ _ (setup_polled (isOpen o0) isock)) as (o & r & E & P).
  exists o, r. split; [done|]. intros ps force now. destruct (sync_spec isock _ ps force now r P) as (r' & E' & P' & S & W).
  exists r'. split; [done|]. split.
  - intros Hf l1 d l2 ev El Hd Ho. apply served_dispatch; [by apply (S Hf l1 d l2); [..|apply bool_decide_eq_true]|].
    apply (proj1 (Forall_forall _ _) (desired_kind ps) d). rewrite El. apply elem_of_app. right. by left.
  - intros fd Hne Hk. split; [|by apply W]. apply dec_stable. intros Hn. destruct Hk as [i Hi].
    rewrite (po_open _ _ _ P') in Hi; [done|]. by apply bool_decide_eq_false.
Qed.

(** One agent with a UDP socket and an ICE-TCP connection. *)
Definition demoParticipant (udp tcp : Z) : Participant :=
  mkParticipant 7 udp true tcp (POLLIN |. POLLOUT) false INVALID 0 [] false INVALID false INVALID 0 0.

(** The agent's UDP socket is closed and its number given to the agent's next socket. *)
Definition demoHistory : list PollStep :=
  [Opened 4; Opened 5; Sync [demoParticipant 4 5] true 2000; Closed 4; Opened 4].
Definition demoState : gset Z * Registry := default (∅, epollSetup (fun _ => true) 3) (pollSteps demoHistory ({[3]}, epollSetup (isOpen {[3]}) 3)).

(** The number of a closed socket was given to the agent's next one: after the next asserting
    synchronisation its events lead to the agent. *)
Lemma events_reach_owners_witness :
  exists r', epollSync (isOpen demoState.1) [demoParticipant 4 5] true 2500 demoState.2 = Some r' /\
    (forall ev, exists i, kernel r' !! 4 = Some i /\ dispatchOne r' (i_data i) ev = [OnUdpReadable 7]).
Proof.
  destruct (events_reach_owners 3 {[3]} demoHistory) as (o & r & Hl & Hsync).
  assert (Hd : demoState = (o, r)) by (apply (inj Some); rewrite <- Hl; vm_compute; reflexivity).
  assert (H4 : bool_decide (4 ∈ demoState.1) = true) by (vm_compute; reflexivity).
  rewrite Hd in *. destruct (Hsync [demoParticipant 4 5] true 2500) as (r' & E & S & _).
  exists r'. split; [exact E|]. intros ev.
  destruct (S eq_refl [] (mkDesired 4 7 1 (-1) POLLIN) [mkDesired 5 7 2 (-1) (POLLIN |. POLLOUT)] ev) as (i & Hi & _ & Hc).
  - reflexivity.
  - set_solver.
  - exact (bool_decide_eq_true_1 _ H4).
  - exists i. split; [exact Hi|exact Hc].
Defined.

(** Without the assertion the kernel does not watch the new socket: slot and events are the
    same, so the registration is taken to be there. *)
Lemma unforced_sync_misses :
  exists r', epollSync (isOpen demoState.1) [demoParticipant 4 5] false 2500 demoState.2 = Some r' /\
    4 ∈ demoState.1 /\ kernel r' !! 4 = None.
Proof.
  exists (default demoState.2 (epollSync (isOpen demoState.1) [demoParticipant 4 5] false 2500 demoState.2)).
  split; [vm_compute; reflexivity|]. split; [|vm_compute; reflexivity].
  apply (bool_decide_eq_true_1 (4 ∈ demoState.1)). vm_compute. reflexivity.
Qed.

(** The table only grows: a slot is never used again, so every socket that comes and goes
    leaves one behind. *)
Fixpoint churn (n : nat) : list PollStep :=
  match n with
  | 0%nat => []
  | S n => [Opened 4; Sync [demoParticipant 4 INVALID] true 0; Closed 4; Sync [] true 0] ++ churn n
  end.

Lemma slots_grow : (fun c => length (slots_ c.2)) <$> pollSteps (churn 50) ({[3]}, epollSetup (isOpen {[3]}) 3) = Some 51%nat.
Proof. vm_compute. reflexivity. Qed.

(** ** The pool and the timeout *)

Lemma computeTimeout_fold ps next :
  foldl sooner next ps <= next /\
  (forall p, p ∈ ps -> 0 < nextTimestampMs p ->
    foldl sooner next ps <= nextTimestampMs p) /\
  (foldl sooner next ps = next \/
   exists p, p ∈ ps /\ 0 < nextTimestampMs p /\
     foldl sooner next ps = nextTimestampMs p).
Proof.
  revert next. induction ps as [|p ps IH]; intros next; cbn [foldl]; [split; [lia|]; split; [set_solver|by left]|].
  set (n1 := sooner next p). destruct (IH n1) as (H1 & H2 & H3).
  assert (Hn : n1 <= next /\ (0 < nextTimestampMs p -> n1 <= nextTimestampMs p) /\ (n1 = next \/ (0 < nextTimestampMs p /\ n1 = nextTimestampMs p))).
  { unfold n1, sooner. destruct (Z.ltb_spec 0 (nextTimestampMs p)), (Z.ltb_spec (nextTimestampMs p) next); cbn; lia. }
  destruct Hn as (N1 & N2 & N3). split; [lia|]. split.
  - intros q [->|Hq]%elem_of_cons Hpos; [specialize (N2 Hpos); lia|by apply H2].
  - destruct H3 as [->|(q & Hq & Hpos & ->)]; [|right; exists q; split; [by right|done]].
    destruct N3 as [->|[Hpos ->]]; [by left|]. right. exists p. split; [by left|done].
Qed.

(** C36: The wait of a round is between zero and a second and never passes a timer: the loop
    wakes no later than the earliest timestamp a participant asks for, or at once when that is
    over, and it wakes early only for one. *)
Theorem wait_meets_timers ps now :
  let T := computeTimeoutMs ps now in
  0 <= T <= 1000 /\
  (forall p, p ∈ ps -> 0 < nextTimestampMs p -> now + T <= Z.max now (nextTimestampMs p)) /\
  (T < 1000 -> exists p, p ∈ ps /\ 0 < nextTimestampMs p /\ now + T = Z.max now (nextTimestampMs p)).
Proof.
  cbv zeta. unfold computeTimeoutMs. destruct (computeTimeout_fold ps (now + 1000)) as (H1 & H2 & H3).
  set (n := foldl _ _ ps) in *. clearbody n.
  set (T := if 1000 <? _ then 1000 else _). assert (HT : T = Z.max 0 (n - now)).
  { unfold T. destruct (Z.ltb_spec (n - now) 0), (Z.ltb_spec 1000 (n - now)); cbn; try lia. }
  rewrite HT. split; [lia|]. split.
  - intros p Hp Hpos. specialize (H2 p Hp Hpos). lia.
  - intros Hlt. destruct H3 as [->|(p & Hp & Hpos & ->)]; [lia|]. exists p. split; [done|]. lia.
Qed.

Fixpoint acquireN (hc : Z) (n : nat) (p : Pool) : list Z * Pool :=
  match n with 0%nat => ([], p) | S n => let '(i, p) := acquire hc p in let '(l, p) := acquireN hc n p in (i :: l, p) end.

Lemma poolSize_range hc : 1 <= poolSize hc <= 16.
Proof. unfold poolSize. destruct (Z.leb_spec 16 hc), (Z.leb_spec 2 hc); lia. Qed.

Lemma acquire_next hc k : 0 <= k ->
  acquire hc (mkPool (Z.min k (poolSize hc)) k) = (k mod poolSize hc, mkPool (Z.min (k + 1) (poolSize hc)) (k + 1)).
Proof.
  intros Hk. pose proof (poolSize_range hc) as Hs. unfold acquire. cbn [poolLen next].
  destruct (Z.eqb_spec (Z.min k (poolSize hc)) 0) as [E|E].
  - assert (k = 0) as -> by lia. replace (Z.min (0 + 1) (poolSize hc)) with 1 by lia. by rewrite Z.mod_1_r, Z.mod_0_l by lia.
  - destruct (Z.leb_spec (Z.min k (poolSize hc)) k); [|lia]. destruct (Z.ltb_spec (Z.min k (poolSize hc)) (poolSize hc)); cbn [andb].
    + assert (k < poolSize hc) by lia. replace (Z.min k (poolSize hc) + 1) with (k + 1) by lia.
      replace (Z.min (k + 1) (poolSize hc)) with (k + 1) by lia. by rewrite !Z.mod_small by lia.
    + replace (Z.min k (poolSize hc)) with (poolSize hc) by lia. by replace (Z.min (k + 1) (poolSize hc)) with (poolSize hc) by lia.
Qed.

(** The pool is handed out in turn: the [k]-th caller of the process gets instance
    [k mod poolSize], however it grew, and there are never more instances than callers nor
    than [poolSize], which is at most 16. *)
Theorem pool_round_robin hc n :
  acquireN hc n (mkPool 0 0)
  = ((fun k => Z.of_nat k mod poolSize hc) <$> seq 0 n, mkPool (Z.min (Z.of_nat n) (poolSize hc)) (Z.of_nat n)) /\
  1 <= poolSize hc <= 16.
Proof.
  split; [|apply poolSize_range]. assert (G : forall m, acquireN hc n (mkPool (Z.min (Z.of_nat m) (poolSize hc)) (Z.of_nat m))
    = ((fun k => Z.of_nat k mod poolSize hc) <$> seq m n, mkPool (Z.min (Z.of_nat (m + n)) (poolSize hc)) (Z.of_nat (m + n)))).
  { induction n as [|n IH]; intros m; cbn [acquireN]; [by rewrite Nat.add_0_r|]. rewrite acquire_next by lia.
    replace (Z.of_nat m + 1) with (Z.of_nat (S m)) by lia. rewrite IH. cbn [seq fmap list_fmap]. by rewrite Nat.add_succ_r. }
  specialize (G 0%nat). cbn in G. rewrite Z.min_l in G by (pose proof (poolSize_range hc); lia). exact G.
Qed.

(** ** [sticePoll] against poll(2) *)

Definition pollBits : Z := POLLIN |. POLLOUT |. POLLERR |. POLLHUP.

(** An event set of the four bits. *)
Definition plain (ev : Z) : Prop := ev &. pollBits = ev.

(** poll(2): the events asked for, errors and hang-ups always; the count of entries with
    something to report. *)
Definition pollEntry (open : Z -> bool) (readyOf : Z -> Z) (p : Pollfd) : Pollfd :=
  p <| p_revents := if p_fd p <? 0 then 0 else if open (p_fd p)
                    then readyOf (p_fd p) &. (p_events p |. POLLERR |. POLLHUP) else POLLNVAL |>.
Definition pollRef (open : Z -> bool) (readyOf : Z -> Z) (fds : list Pollfd) : list Pollfd * Z :=
  let fds := pollEntry open readyOf <$> fds in
  (fds, Z.of_nat (length (filter (fun p => p_revents p <> 0) fds))).

Lemma plain_fits ev : plain ev -> fits 5 ev.
Proof.
  unfold plain. intros H. rewrite <- H, Z.land_comm. apply fits_land; [lia|by vm_compute|].
  rewrite <- H. apply Z.land_nonneg. by right.
Qed.

(** On the four bits the two kinds of event sets are the same. *)
Lemma plain_same ev : plain ev -> toEpoll ev = ev /\ mapToPollEvents ev = ev.
Proof.
  intros H. assert (C : Forall (fun ev => ev &. pollBits = ev -> toEpoll ev = ev /\ mapToPollEvents ev = ev) (seqZ 0 32)).
  { apply (bool_decide_unpack _). vm_compute. exact I. }
  apply (proj1 (Forall_forall _ _) C ev); [|done]. apply elem_of_seqZ. pose proof (plain_fits ev H). width.
Qed.

Lemma plain_land a b : plain a -> plain (a &. b).
Proof. unfold plain. intros H. by rewrite (Z.land_comm a b), <- Z.land_assoc, H. Qed.

(** What [pollRegister] is given to register from entry [i] on. *)
Definition entries (i : nat) (fds : list Pollfd) : list (Z * Interest) :=
  imap (fun j p => (p_fd p, mkInterest (toEpoll (p_events p)) (i + j))) fds.

Lemma entries_cons i p fds : entries i (p :: fds) = (p_fd p, mkInterest (toEpoll (p_events p)) i) :: entries (S i) fds.
Proof.
  unfold entries. cbn [imap]. rewrite Nat.add_0_r. f_equal. apply imap_ext. intros j q _. cbn. do 2 f_equal. lia.
Qed.

(** An entry that can be registered. *)
Definition usable (open : Z -> bool) (p : Pollfd) : Prop :=
  0 <= p_fd p /\ open (p_fd p) = true /\ plain (p_events p) /\ p_events p <> 0.

Lemma register_spec open i fds k :
  Forall (usable open) fds -> NoDup (p_fd <$> fds) -> (forall p, p ∈ fds -> k !! p_fd p = None) ->
  exists k', pollRegister open i fds k = ((fun p => p <| p_revents := 0 |>) <$> fds, k', 0) /\
    map_to_list k' ≡ₚ entries i fds ++ map_to_list k.
Proof.
  revert i k. induction fds as [|p fds IH]; intros i k Hu Hnd Hk; cbn [pollRegister]; [by exists k|].
  apply Forall_cons in Hu as [(H0 & Ho & Hp & Hne) Hu]. rewrite fmap_cons in Hnd. apply NoDup_cons in Hnd as [Hn Hnd].
  assert (Hkp : k !! p_fd p = None) by (apply Hk; by left). upd. cbn [i_events].
  destruct (Z.ltb_spec (p_fd p) 0); [lia|]. rewrite (proj1 (plain_same _ Hp)). destruct (Z.eqb_spec (p_events p) 0); [done|].
  unfold ctlAdd. rewrite Hkp, Ho. set (ee := mkInterest _ i).
  destruct (IH (S i) (<[p_fd p := ee]> k) Hu Hnd) as (k' & E & P).
  { intros q Hq. rewrite lookup_insert_ne; [apply Hk; by right|]. intros Heq. apply Hn. rewrite Heq. by apply list_elem_of_fmap_2. }
  rewrite E. exists k'. split; [done|]. rewrite P, map_to_list_insert, entries_cons by done.
  rewrite (proj1 (plain_same _ Hp)). fold ee. cbn [app]. by rewrite Permutation_middle.
Qed.

(** The events change each their own entry. *)
Lemma applyEvents_spec E fds n :
  NoDup E.*1 -> (forall e, e ∈ E -> (e.1 < length fds)%nat) ->
  (foldl applyEvent (fds, n) E).2 = n + Z.of_nat (length E) /\
  (forall e, e ∈ E -> (foldl applyEvent (fds, n) E).1 !! e.1
     = (fun p => p <| p_revents ::= fun r => r |. mapToPollEvents e.2 |>) <$> fds !! e.1) /\
  (forall j, j ∉ E.*1 -> (foldl applyEvent (fds, n) E).1 !! j = fds !! j) /\
  length (foldl applyEvent (fds, n) E).1 = length fds.
Proof.
  revert fds n. induction E as [|e E IH]; intros fds n Hnd Hlt; cbn [foldl].
  { split; [cbn; lia|]. split; [set_solver|]. by split. }
  rewrite fmap_cons in Hnd. apply NoDup_cons in Hnd as [Hn Hnd]. cbn [applyEvent].
  destruct (Nat.ltb_spec e.1 (length fds)) as [L|L]; [|specialize (Hlt e ltac:(by left)); lia].
  set (fds1 := alter _ e.1 fds). destruct (IH fds1 (n + 1) Hnd) as (I1 & I2 & I3 & I4).
  { intros e' He. unfold fds1. rewrite length_alter. apply Hlt. by right. }
  split; [rewrite I1; cbn [length]; lia|]. split; [|split].
  - intros e' [->|He]%elem_of_cons.
    + rewrite I3 by done. unfold fds1. by rewrite list_lookup_alter_eq.
    + rewrite I2 by done. unfold fds1. rewrite list_lookup_alter_ne; [done|]. intros Heq. apply Hn. rewrite Heq. by apply list_elem_of_fmap_2.
  - intros j Hj. rewrite fmap_cons in Hj. apply not_elem_of_cons in Hj as [Hj1 Hj2]. rewrite I3 by done. unfold fds1.
    by rewrite list_lookup_alter_ne.
  - rewrite I4. unfold fds1. apply length_alter.
Qed.

Definition eventOf (readyOf : Z -> Z) (e : Z * Interest) : option (nat * Z) :=
  let ev := reported e.2 (readyOf e.1) in if ev =? 0 then None else Some (i_data e.2, ev).

Section AgainstPoll.
Context (open : Z -> bool) (readyOf : Z -> Z) (Hready : forall fd, plain (readyOf fd)).

Local Abbreviation evs i fds := (omap (eventOf readyOf) (entries i fds)).

(** The event of a usable entry carries what poll(2) reports for it. *)
Lemma usable_reported p i : usable open p ->
  reported (mkInterest (toEpoll (p_events p)) i) (readyOf (p_fd p)) = p_revents (pollEntry open readyOf p).
Proof.
  intros (H0 & Ho & Hp & _). unfold reported, pollEntry. upd. cbn [i_events]. rewrite (proj1 (plain_same _ Hp)), Ho.
  destruct (Z.ltb_spec (p_fd p) 0); [lia|done].
Qed.

Lemma evs_cons i p fds : usable open p ->
  evs i (p :: fds) = (if p_revents (pollEntry open readyOf p) =? 0 then [] else [(i, p_revents (pollEntry open readyOf p))]) ++ evs (S i) fds.
Proof. intros Hu. rewrite entries_cons. cbn. unfold eventOf at 1. cbn. rewrite usable_reported by done. by destruct (_ =? 0). Qed.

Lemma evs_indices i fds : Forall (usable open) fds -> (evs i fds).*1 `sublist_of` seq i (length fds).
Proof.
  revert i. induction fds as [|p fds IH]; intros i Hu; [done|]. apply Forall_cons in Hu as [Hp Hu].
  rewrite evs_cons by done. cbn [seq length]. destruct (_ =? 0); cbn; [by apply sublist_cons, IH|by apply sublist_skip, IH].
Qed.

Lemma evs_lookup i fds j p : Forall (usable open) fds -> fds !! j = Some p -> p_revents (pollEntry open readyOf p) <> 0 ->
  ((i + j)%nat, p_revents (pollEntry open readyOf p)) ∈ evs i fds.
Proof.
  revert i j. induction fds as [|q fds IH]; intros i j Hu Hj Hne; [done|]. apply Forall_cons in Hu as [Hq Hu].
  rewrite evs_cons by done. apply elem_of_app. destruct j as [|j]; cbn in Hj.
  - injection Hj as ->. left. rewrite Nat.add_0_r. destruct (Z.eqb_spec (p_revents (pollEntry open readyOf p)) 0); [done|by left].
  - right. rewrite Nat.add_succ_r. by apply (IH (S i) j).
Qed.

Lemma evs_elem i fds e : Forall (usable open) fds -> e ∈ evs i fds ->
  exists j p, e.1 = (i + j)%nat /\ fds !! j = Some p /\ e.2 = p_revents (pollEntry open readyOf p) /\ e.2 <> 0.
Proof.
  revert i. induction fds as [|q fds IH]; intros i Hu He; [by apply elem_of_nil in He|]. apply Forall_cons in Hu as [Hq Hu].
  rewrite evs_cons in He by done. apply elem_of_app in He as [He|He].
  - destruct (Z.eqb_spec (p_revents (pollEntry open readyOf q)) 0); [by apply elem_of_nil in He|].
    apply list_elem_of_singleton in He as ->. exists 0%nat, q. by rewrite Nat.add_0_r.
  - destruct (IH (S i) Hu He) as (j & p & H1 & H2 & H3 & H4). exists (S j), p. by rewrite Nat.add_succ_r.
Qed.

Lemma evs_count i fds : Forall (usable open) fds ->
  length (evs i fds) = length (filter (fun p => p_revents p <> 0) (pollEntry open readyOf <$> fds)).
Proof.
  revert i. induction fds as [|p fds IH]; intros i Hu; [done|]. apply Forall_cons in Hu as [Hp Hu]. rewrite evs_cons by done.
  rewrite fmap_cons, filter_cons, length_app, (IH (S i)) by done.
  destruct (Z.eqb_spec (p_revents (pollEntry open readyOf p)) 0) as [E|E].
  - rewrite decide_False; [done|]. congruence.
  - by rewrite decide_True.
Qed.

Lemma entry_reported p : usable open p ->
  p <| p_revents := 0 |> <| p_revents ::= fun r => r |. mapToPollEvents (p_revents (pollEntry open readyOf p)) |>
  = pollEntry open readyOf p.
Proof.
  intros (H0 & Ho & Hp & _). assert (Hpl : plain (p_revents (pollEntry open readyOf p))).
  { unfold pollEntry. upd. rewrite Ho. destruct (Z.ltb_spec (p_fd p) 0); [lia|by apply plain_land]. }
  rewrite (proj2 (plain_same _ Hpl)). done.
Qed.
End AgainstPoll.

(** C35: On entries it can register, [sticePoll] is poll(2): when the wait is not empty and
    every entry asks for something on an open descriptor of its own, the entries it leaves and
    the number it returns are those of the reference, whatever is ready. *)
Theorem stice_poll_is_poll open readyOf fds timeout :
  (forall fd, plain (readyOf fd)) -> Forall (usable open) fds -> NoDup (p_fd <$> fds) -> timeout <> 0 ->
  sticePoll open true (Some readyOf) fds timeout = pollRef open readyOf fds.
Proof.
  intros Hready Hu Hnd Ht. destruct fds as [|p0 fds0] eqn:Efds; [done|]. rewrite <- Efds in *. unfold sticePoll. rewrite Efds at 1. cbn [negb].
  destruct (register_spec open 0 fds ∅ Hu Hnd) as (k & E & P); [intros; apply lookup_empty|]. rewrite E.
  destruct (Z.eqb_spec timeout 0); [done|]. cbn [negb andb Z.eqb]. rewrite map_to_list_empty, app_nil_r in P.
  set (E' := epollEvents readyOf k). assert (PE : E' ≡ₚ omap (eventOf readyOf) (entries 0 fds)).
  { unfold E', epollEvents. rewrite <- P. apply reflexive_eq, list_omap_ext. apply Forall_Forall2_diag, Forall_true. by intros [fd i]. }
  set (z := (fun p => p <| p_revents := 0 |>) <$> fds).
  destruct (applyEvents_spec E' z 0) as (A1 & A2 & A3 & A4).
  { rewrite PE. eapply sublist_NoDup; [apply NoDup_seq|by apply (evs_indices open readyOf)]. }
  { intros e He. rewrite PE in He. destruct (evs_elem open readyOf 0 fds e Hu He) as (j & p & -> & Hj & _).
    unfold z. rewrite length_fmap. by eapply lookup_lt_Some. }
  rewrite (surjective_pairing (foldl _ _ _)), A1. unfold pollRef. f_equal.
  - apply list_eq. intros j. rewrite list_lookup_fmap. destruct (fds !! j) as [p|] eqn:Hj; cbn [fmap option_fmap option_map].
    + assert (Hz : z !! j = Some (p <| p_revents := 0 |>)) by (unfold z; by rewrite list_lookup_fmap, Hj).
      pose proof (proj1 (Forall_lookup _ _) Hu j p Hj) as Hp.
      destruct (decide (p_revents (pollEntry open readyOf p) = 0)) as [Ez|Ez].
      * rewrite A3, Hz.
        -- f_equal. unfold pollEntry in *. upd. by rewrite Ez.
        -- intros Hin. rewrite PE in Hin. apply list_elem_of_fmap in Hin as (e & Ej & He).
           destruct (evs_elem open readyOf 0 fds e Hu He) as (j' & p' & E1 & Hj' & E2 & E3). cbn in E1. congruence.
      * pose proof (evs_lookup open readyOf 0 fds j p Hu Hj Ez) as Hin. rewrite <- PE in Hin. specialize (A2 _ Hin). cbn [fst snd] in A2.
        rewrite Nat.add_0_l in A2. rewrite A2, Hz. cbn [fmap option_fmap option_map]. f_equal. by apply entry_reported.
    + apply lookup_ge_None. rewrite A4. unfold z. rewrite length_fmap. by apply lookup_ge_None.
  - by rewrite Z.add_0_l, PE, (evs_count open readyOf 0 fds Hu).
Qed.

Definition readable5 (fd : Z) : Z := if fd =? 5 then POLLIN else if fd =? 6 then POLLHUP else 0.
Definition twoEntries : list Pollfd := [mkPollfd 5 POLLIN 0; mkPollfd 6 POLLOUT 0].

Lemma readable5_plain fd : plain (readable5 fd).
Proof. unfold readable5. by destruct (fd =? 5), (fd =? 6). Qed.

(** One descriptor is readable, the other one hung up. *)
Lemma stice_poll_is_poll_witness :
  sticePoll (fun _ => true) true (Some readable5) twoEntries 20 = ([mkPollfd 5 POLLIN POLLIN; mkPollfd 6 POLLOUT POLLHUP], 2).
Proof.
  rewrite (stice_poll_is_poll (fun _ => true) readable5 twoEntries 20 readable5_plain); [vm_compute; reflexivity| | |lia].
  - repeat constructor; vm_compute; congruence.
  - repeat constructor; set_solver.
Defined.

(** What poll(2) does otherwise: a wait of zero returns what is ready, here nothing is looked
    at, whatever is ready. *)
Lemma zero_timeout_blind open wait wait' fds : sticePoll open true wait fds 0 = sticePoll open true wait' fds 0.
Proof.
  unfold sticePoll. destruct fds as [|p fds]; [done|]. cbn [negb]. destruct (pollRegister _ _ _ _) as [[? ?] ?].
  by rewrite andb_false_r.
Qed.

(** A descriptor that appears twice reports to its last entry only: the registration of the
    first one is replaced. *)
Lemma duplicate_entry_silent :
  sticePoll (fun _ => true) true (Some readable5) [mkPollfd 5 POLLIN 0; mkPollfd 5 POLLOUT 0] 20
  = ([mkPollfd 5 POLLIN 0; mkPollfd 5 POLLOUT 0], 0) /\
  pollRef (fun _ => true) readable5 [mkPollfd 5 POLLIN 0; mkPollfd 5 POLLOUT 0]
  = ([mkPollfd 5 POLLIN POLLIN; mkPollfd 5 POLLOUT 0], 1).
Proof. split; vm_compute; reflexivity. Qed.
