(* ===== verification/PollThread.v ===== *)
(** * The poll thread and the owners of its participants

    The run loop of net/poll.cpp as steps of the poll thread, interleaved with the calls the
    owners of participants make from other threads: [add], [remove], the two halves of [sync]
    and the destruction of the participant.  A step of the thread is one critical section or
    one call of a participant; the participants a step still has to call are in its program
    counter.  [inSlots] are the participants the slot table names, and [fault] records that a
    destroyed participant was called.  An iteration whose [epoll_wait] fails starts again
    without advancing [generation_].  What the registrations are is the subject of
    [PollRegistry]. *)

From S2P Require Import Prelude.
Open Scope Z_scope.
Open Scope c_scope.

Inductive Pc :=
| Top
| Timeouts (left : list nat)
| Syncing (parts left : list nat)
| Waiting
| Dispatching (left : list nat)
| Booking (left : list nat).

(** How far the owner of a participant is. *)
Inductive Owner := Live | Removed | InSync (target : nat) | Synced | GaveUp | Destroyed.

#[export] Instance Owner_eq_dec : EqDecision Owner.
Proof. solve_decision. Defined.

Record Loop := mkLoop {
  participants_ : list nat; generation_ : nat; pc : Pc; inSlots : gset nat; owners : gmap nat Owner; fault : bool }.
#[export] Instance Loop_fields : RecordFields Loop := fun c =>
  mkLoop (participants_ c) (generation_ c) (pc c) (inSlots c) (owners c) (fault c).

Definition ownerOf (c : Loop) (p : nat) : option Owner := owners c !! p.
Definition setOwner (p : nat) (o : Owner) (c : Loop) : Loop := c <| owners ::= <[p := o]> |>.

(** A virtual call on [p]. *)
Definition touch (p : nat) (c : Loop) : Loop :=
  if decide (ownerOf c p = Some Destroyed) then c <| fault := true |> else c.

(** One step of [run]; [events] are the participants of the slots [epoll_wait] names, [None]
    when it fails. *)
Definition threadStep (events : option (list nat)) (c : Loop) : Loop :=
  match pc c with
  | Top => c <| pc := Timeouts (participants_ c) |>
  | Timeouts (p :: l) => touch p c <| pc := Timeouts l |>
  | Timeouts [] => c <| pc := Syncing (participants_ c) (participants_ c) |>
  | Syncing parts (p :: l) => touch p c <| pc := Syncing parts l |>
  | Syncing parts [] => c <| inSlots := list_to_set parts |> <| pc := Waiting |>
  | Waiting =>
      match events with
      | None => c <| pc := Top |>
      | Some events =>
          let named := filter (fun p => p ∈ inSlots c) events in
          c <| inSlots ::= fun s => s ∖ list_to_set (filter (fun p => p ∉ participants_ c) named) |>
            <| pc := Dispatching (filter (fun p => p ∈ participants_ c) named) |>
      end
  | Dispatching (p :: l) => touch p c <| pc := Dispatching l |>
  | Dispatching [] => c <| pc := Booking (participants_ c) |>
  | Booking (p :: l) => touch p c <| pc := Booking l |>
  | Booking [] => c <| pc := Top |> <| generation_ ::= S |>
  end.

Inductive Action :=
| Thread (events : option (list nat))
| Add (p : nat)
| Remove (p : nat)
| SyncBegin (p : nat)
| SyncEnd (p : nat)
| SyncGiveUp (p : nat)
| Destroy (p : nat).

(** [None]: the owner is not at a point where it can do this. *)
Definition act (a : Action) (c : Loop) : option Loop :=
  match a with
  | Thread events => Some (threadStep events c)
  | Add p =>
      if decide (ownerOf c p = Some Destroyed) then None else
      Some (setOwner p Live (if decide (p ∈ participants_ c) then c else c <| participants_ ::= fun l => l ++ [p] |>))
  | Remove p =>
      if decide (ownerOf c p = Some Live) then Some (setOwner p Removed (c <| participants_ ::= filter (fun q => q <> p) |>)) else None
  | SyncBegin p => if decide (ownerOf c p = Some Removed) then Some (setOwner p (InSync (S (generation_ c))) c) else None
  | SyncEnd p =>
      match ownerOf c p with
      | Some (InSync target) => if (target <=? generation_ c)%nat then Some (setOwner p Synced c) else None
      | _ => None
      end
  | SyncGiveUp p => match ownerOf c p with Some (InSync _) => Some (setOwner p GaveUp c) | _ => None end
  | Destroy p => if decide (ownerOf c p = Some Synced \/ ownerOf c p = Some GaveUp) then Some (setOwner p Destroyed c) else None
  end.

Fixpoint acts (l : list Action) (c : Loop) : option Loop :=
  match l with [] => Some c | a :: l => c ← act a c; acts l c end.

Definition started : Loop := mkLoop [] 0 Top ∅ ∅ false.

(** ** No call on a destroyed participant *)

(** The participants the thread may still call in this iteration. *)
Definition pending (c : Loop) : list nat :=
  match pc c with
  | Top => []
  | Timeouts l => l
  | Syncing parts l => parts ++ l
  | Waiting => elements (inSlots c)
  | Dispatching l => l
  | Booking l => l
  end.

(** The owner's side of the protocol: when [sync] is over, the thread has let go; no owner gives up. *)
Definition protocol (c : Loop) (p : nat) (o : Owner) : Prop :=
  match o with
  | Live => True
  | Removed => p ∉ participants_ c
  | GaveUp => False
  | InSync t => p ∉ participants_ c /\ (t <= S (generation_ c))%nat /\ ((t <= generation_ c)%nat -> p ∉ pending c)
  | Synced | Destroyed => p ∉ participants_ c /\ p ∉ pending c
  end.

Record linv (c : Loop) : Prop := {
  l_live p : p ∈ participants_ c -> ownerOf c p = Some Live;
  l_owner p o : ownerOf c p = Some o -> protocol c p o;
  l_safe : fault c = false;
}.

(** A step of the thread brings nobody back who was removed. *)
Lemma thread_pending events c p : p ∉ participants_ c -> p ∉ pending c -> p ∉ pending (threadStep events c).
Proof.
  unfold pending, threadStep. destruct (pc c) as [|[|q l]|parts [|q l]| |[|q l]|[|q l]] eqn:E; intros H1 H2; upd; cbn; try done.
  1,2,4,6,7: clear -H1 H2; set_solver.
  - rewrite elem_of_elements, elem_of_list_to_set. set_solver.
  - destruct events as [events|]; upd; cbn; [|set_solver]. rewrite !list_elem_of_filter. tauto.
Qed.

Lemma touch_fields p c : participants_ (touch p c) = participants_ c /\ generation_ (touch p c) = generation_ c /\ owners (touch p c) = owners c.
Proof. unfold touch. by destruct (decide _). Qed.

Lemma thread_fields events c :
  participants_ (threadStep events c) = participants_ c /\ owners (threadStep events c) = owners c /\
  (generation_ (threadStep events c) = generation_ c \/
   generation_ (threadStep events c) = S (generation_ c) /\ pc (threadStep events c) = Top).
Proof.
  unfold threadStep. destruct (pc c) as [|[|q l]|parts [|q l]| |[|q l]|[|q l]]; upd; auto;
    try (destruct (touch_fields q c) as (T1 & T2 & T3); rewrite T1, T2, T3; auto).
  destruct events; upd; auto.
Qed.

(** The participants a step calls are pending, so none of them is destroyed. *)
Lemma thread_safe events c : linv c -> fault (threadStep events c) = false.
Proof.
  intros [L O S]. assert (T : forall p, p ∈ pending c -> fault (touch p c) = false).
  { intros p Hp. unfold touch. destruct (decide _) as [E|]; [|done]. destruct (O p _ E) as [_ H]. done. }
  unfold threadStep, pending in *. destruct (pc c) as [|[|q l]|parts [|q l]| |[|q l]|[|q l]]; upd; auto; try (apply T; set_solver).
  destruct events; upd; auto.
Qed.

Lemma thread_inv events c : linv c -> linv (threadStep events c).
Proof.
  intros I. pose proof I as [L O S]. destruct (thread_fields events c) as (F1 & F2 & F3). constructor.
  - intros p. unfold ownerOf. rewrite F1, F2. apply L.
  - intros p o. unfold ownerOf. rewrite F2. intros Ho. specialize (O p o Ho). unfold protocol in *. rewrite F1.
    destruct o as [| |t| | |]; try done.
    + destruct O as (O1 & O2 & O3). split; [done|]. destruct F3 as [->|[-> Htop]].
      * split; [done|]. intros Ht. apply thread_pending; auto.
      * split; [lia|]. intros _. unfold pending. rewrite Htop. apply not_elem_of_nil.
    + destruct O as [O1 O2]. split; [done|]. by apply thread_pending.
    + destruct O as [O1 O2]. split; [done|]. by apply thread_pending.
  - by apply thread_safe.
Qed.

(** What the others see of an owner's call: nobody else joins. *)
Lemma protocol_others c c' p o :
  protocol c p o -> (p ∈ participants_ c' -> p ∈ participants_ c) -> generation_ c' = generation_ c -> pending c' = pending c -> protocol c' p o.
Proof. intros H Hp Hg Hl. unfold protocol in *. rewrite Hg, Hl. destruct o; tauto. Qed.

Lemma owner_inv p o (F : list nat -> list nat) c :
  linv c -> (forall q, q <> p -> q ∈ F (participants_ c) <-> q ∈ participants_ c) -> (p ∈ F (participants_ c) -> o = Live) ->
  protocol (c <| participants_ ::= F |>) p o -> linv (setOwner p o (c <| participants_ ::= F |>)).
Proof.
  intros [L O S] HF Hlive Hp. constructor; unfold ownerOf, setOwner; upd; [| |done].
  - intros q Hq. destruct (decide (p = q)) as [<-|Hne]; [rewrite lookup_insert_eq; f_equal; auto|].
    rewrite lookup_insert_ne by done. apply L. by apply HF.
  - intros q o' [[<- <-]|[Hne Ho]]%lookup_insert_Some; [done|].
    apply (protocol_others c); [by apply O| |done|done]. intros Hq. by apply HF.
Qed.

(** The calls that leave the list alone. *)
Lemma owner_inv_same p o c : linv c -> o <> Live -> (p ∉ participants_ c) -> protocol c p o -> linv (setOwner p o c).
Proof. intros I Hne Hn Hp. by apply (owner_inv p o id). Qed.

Lemma loop_act_inv a c c' : (forall p, a <> SyncGiveUp p) -> linv c -> act a c = Some c' -> linv c'.
Proof.
  intros Hg I. pose proof I as [L O S]. destruct a as [ev|p|p|p|p|p|p]; cbn [act].
  - intros [= <-]. by apply thread_inv.
  - destruct (decide _) as [|Hd]; [done|]. intros [= <-]. destruct (decide _) as [Hin|Hin].
    + by apply (owner_inv p Live id).
    + apply (owner_inv p Live (fun l => l ++ [p])); [done|set_solver|done|done].
  - destruct (decide _) as [Hd|]; [|done]. intros [= <-].
    apply (owner_inv p Removed (filter (fun q => q <> p))); [done| | |]; unfold protocol; upd; setoid_rewrite list_elem_of_filter; tauto.
  - destruct (decide _) as [Hd|]; [|done]. intros [= <-]. pose proof (O p _ Hd) as Hp. apply owner_inv_same; [done|done|done|].
    split; [done|]. split; [lia|]. intros. lia.
  - destruct (ownerOf c p) as [[| |t| | |]|] eqn:E; try done. destruct (Nat.leb_spec t (generation_ c)); [|done]. intros [= <-].
    destruct (O p _ E) as (O1 & O2 & O3). apply owner_inv_same; [done|done|done|]. split; auto.
  - by destruct (Hg p).
  - destruct (decide _) as [[Hd|Hd]|]; [..|done]; intros [= <-].
    + destruct (O p _ Hd) as [O1 O2]. by apply owner_inv_same.
    + by destruct (O p _ Hd).
Qed.

Lemma loop_started_inv : linv started.
Proof. constructor; [|done|done]. intros p H. by apply elem_of_nil in H. Qed.

Lemma loop_acts_inv l c c' : Forall (fun a => forall p, a <> SyncGiveUp p) l -> linv c -> acts l c = Some c' -> linv c'.
Proof.
  intros Hl. revert c. induction Hl as [|a l Ha _ IH]; intros c I; cbn [acts]; [by intros [= <-]|].
  destruct (act a c) as [c1|] eqn:E; [|done]. cbn [mbind option_bind]. apply IH. by eapply loop_act_inv.
Qed.

(** C34: A participant is not called after it was destroyed: in every interleaving of the poll
    thread's steps, whatever sockets are ready and whether or not the waits fail, with owners
    that add and remove participants, also again, and destroy one only when the [sync] that
    follows its removal has seen the generation advance, the thread calls no destroyed
    participant. *)
Theorem synced_destroy_safe l c :
  Forall (fun a => forall p, a <> SyncGiveUp p) l -> acts l started = Some c -> fault c = false.
Proof. intros Hl Ha. by apply (l_safe c), (loop_acts_inv l started c Hl loop_started_inv). Qed.

(** One iteration over a participant, and its orderly end while the next one is under way. *)
Definition orderly : list Action :=
  [Add 1; Thread None; Thread None; Thread None; Remove 1; SyncBegin 1; Thread None; Thread None; Thread (Some [1%nat]);
   Thread None; Thread None; SyncEnd 1; Destroy 1; Thread None; Thread None; Thread None; Thread (Some [1%nat]); Thread None; Thread None].

Lemma synced_destroy_safe_witness :
  exists c, acts orderly started = Some c /\ ownerOf c 1 = Some Destroyed /\ generation_ c = 2%nat /\ fault c = false.
Proof.
  exists (default started (acts orderly started)). split; [vm_compute; reflexivity|]. split; [vm_compute; reflexivity|].
  split; [vm_compute; reflexivity|].
  apply (synced_destroy_safe orderly); [|vm_compute; reflexivity]. repeat constructor; intros p; discriminate.
Defined.

(** [sync] gives up after two seconds, and its owners go on to destroy the participant.  The
    thread, still in the bookkeeping pass of the iteration, then calls it: the pass works on a
    copy of the list and looks at nothing before the call. *)
Definition gaveUp : list Action :=
  [Add 1; Add 2; Thread None; Thread None; Thread None; Thread None; Thread None; Thread None; Thread None; Thread (Some []);
   Thread None; Remove 2; SyncBegin 2; SyncGiveUp 2; Destroy 2; Thread None; Thread None].

Lemma abandoned_sync_dangles : (fun c => (pc c, fault c)) <$> acts gaveUp started = Some (Booking [], true).
Proof. vm_compute. reflexivity. Qed.

(** ** [sync] returns *)

Fixpoint threadSteps (n : nat) (events : list nat) (c : Loop) : Loop :=
  match n with 0%nat => c | S n => threadSteps n events (threadStep (Some events) c) end.

(** The steps that are left of an iteration. *)
Definition stepsLeft (events : list nat) (c : Loop) : nat :=
  let N := length (participants_ c) in let E := length events in
  match pc c with
  | Booking l => 1 + length l
  | Dispatching l => length l + (2 + N)
  | Waiting => E + (3 + N)
  | Syncing _ l => length l + (4 + E + N)
  | Timeouts l => length l + (5 + E + 2 * N)
  | Top => 6 + E + 3 * N
  end.

Lemma thread_progress events c :
  let c' := threadStep (Some events) c in
  generation_ c' = S (generation_ c) \/ (generation_ c' = generation_ c /\ (stepsLeft events c' < stepsLeft events c)%nat).
Proof.
  cbv zeta. unfold threadStep, stepsLeft. destruct (pc c) as [|[|q l]|parts [|q l]| |[|q l]|[|q l]]; upd; cbn [length];
    try (destruct (touch_fields q c) as (T1 & T2 & T3); rewrite T1, T2); try (by left); right; split; try done; try lia.
  - pose proof (length_filter (fun p => p ∈ participants_ c) (filter (fun p => p ∈ inSlots c) events)).
    pose proof (length_filter (fun p => p ∈ inSlots c) events). lia.
  - by destruct (touch_fields q c) as (_ & -> & _).
Qed.

(** The wait of [sync] ends: from any point of the loop the thread, left to itself and with
    waits that succeed, advances the generation within a number of steps given by the numbers
    of participants and events, provided that the participants return from the calls. *)
Theorem generation_advances events c :
  exists n, (n <= stepsLeft events c)%nat /\
    generation_ (threadSteps n events c) = S (generation_ c).
Proof.
  assert (G : forall m c, (stepsLeft events c <= m)%nat -> exists n, (n <= m)%nat /\ generation_ (threadSteps n events c) = S (generation_ c)).
  { clear c. induction m as [|m IH]; intros c Hm; destruct (thread_progress events c) as [E|[E L]]; try lia.
    - exfalso. unfold stepsLeft in Hm. destruct (pc c); lia.
    - exists 1%nat. split; [lia|]. done.
    - destruct (IH (threadStep (Some events) c)) as (n & Hn & En); [lia|]. exists (S n). split; [lia|]. cbn [threadSteps]. by rewrite En, E. }
  destruct (G (stepsLeft events c) c) as (n & Hn & En); [lia|]. exists n. split; [lia|done].
Qed.
