(* ===== verification/EpollBackend.v ===== *)
(** * The epoll backend of stserver

    stserver/io_epoll.cpp in two parts.  The first is what one worker does: the registrations
    it keeps, how an event is told apart by its user data, the draining of sockets, and the
    calls of the server that result ([OwnerCall]).  The kernel's interest list is part of the
    state; what the reads of an event return is an argument.  The second part is how workers
    interleave on a socket: every access to a lock, the read and the dispatch are steps of
    their own, and the order of the bytes that reach the server is followed through any
    schedule. *)

From stdpp Require Import sorting.
From S2P Require Import Prelude.
From S2P Require Import Bytes.
From S2P Require Import Addr.
From S2P Require Import PollRegistry.
Open Scope Z_scope.
Open Scope c_scope.

Definition kUdpListenerTag : Z := 0x100000000.
Definition kTcpListenerTag : Z := 0x200000000.

Definition EPOLLET : Z := 0x80000000.

(** An entry of the interest list: events and user data. *)
Record Interest := mkInterest { i_events : Z; i_data : Z }.

#[export] Instance Interest_eq_dec : EqDecision Interest.
Proof. solve_decision. Defined.

Record Backend := mkBackend {
  relaySockets_ : gset Z; writePending_ : gset Z; udpListener_ : Z; tcpListener_ : Z;
  interest : gmap Z Interest }.

#[export] Instance Backend_fields : RecordFields Backend := fun b =>
  mkBackend (relaySockets_ b) (writePending_ b) (udpListener_ b) (tcpListener_ b) (interest b).

(** [epoll_ctl]: ADD fails on a registered descriptor, MOD on one that is not. *)
Definition epollAdd (s : Z) (i : Interest) (b : Backend) : bool * Backend :=
  match interest b !! s with Some _ => (false, b) | None => (true, b <| interest ::= <[s := i]> |>) end.
Definition epollMod (s : Z) (i : Interest) (b : Backend) : bool * Backend :=
  match interest b !! s with Some _ => (true, b <| interest ::= <[s := i]> |>) | None => (false, b) end.
Definition epollDel (s : Z) (b : Backend) : Backend := b <| interest ::= delete s |>.

Definition init (udp tcp : Z) : bool * Backend :=
  let b := mkBackend ∅ ∅ udp tcp ∅ in
  let '(ok1, b) := if udp =? INVALID then (true, b)
                   else epollAdd udp (mkInterest (EPOLLIN |. EPOLLET) (kUdpListenerTag |. udp)) b in
  if negb ok1 then (false, b) else
  if tcp =? INVALID then (true, b)
  else epollAdd tcp (mkInterest (EPOLLIN |. EPOLLET) (kTcpListenerTag |. tcp)) b.

Definition addRelaySocket (s : Z) (b : Backend) : Backend :=
  if s =? INVALID then b else
  (epollAdd s (mkInterest (EPOLLIN |. EPOLLET) s) (b <| relaySockets_ ::= fun r => {[s]} ∪ r |>)).2.

Definition removeRelaySocket (s : Z) (b : Backend) : Backend :=
  epollDel s b <| relaySockets_ ::= fun r => r ∖ {[s]} |>.

(** The events of a connection. *)
Definition connEvents (pending : bool) : Z :=
  if pending then EPOLLIN |. EPOLLET |. EPOLLOUT else EPOLLIN |. EPOLLET.

Definition addTcpConn (s : Z) (hasWritePending : bool) (b : Backend) : Backend :=
  if s =? INVALID then b else
  let b := if hasWritePending then b <| writePending_ ::= fun w => {[s]} ∪ w |> else b in
  (epollAdd s (mkInterest (connEvents hasWritePending) s) b).2.

Definition removeTcpConn (s : Z) (b : Backend) : Backend :=
  epollDel s b <| writePending_ ::= fun w => w ∖ {[s]} |>.

Definition setTcpConnWritePending (s : Z) (pending : bool) (b : Backend) : Backend :=
  let b := if pending then b <| writePending_ ::= fun w => {[s]} ∪ w |>
           else b <| writePending_ ::= fun w => w ∖ {[s]} |> in
  (epollMod s (mkInterest (connEvents pending) s) b).2.

(** ** One worker *)

(** The calls of [IoBackendOwner]. *)
Inductive OwnerCall :=
| IoUdpData (data : bytes) (from : AddrRecord)
| IoTcpAccepted (s : Z) (peer : AddrRecord)
| IoRelayData (s : Z) (data : bytes) (from : AddrRecord)
| IoTcpConnData (s : Z) (data : bytes)
| IoTcpConnClosed (s : Z)
| IoTcpConnWritable (s : Z)
| IoTimerTick.

(** What successive reads return: bytes, the end, would-block, an error. *)
Inductive ConnRead := Got (data : bytes) | Eof | Again | Broken.

Definition dgramFrom (a : AddrRecord) : AddrRecord := mkAddrRecord (addr a) (len a) SOCK_DGRAM.

(** Datagrams until none is left; an empty one ends the loop too. *)
Fixpoint drainUdpListener (reads : list (bytes * AddrRecord)) : list OwnerCall :=
  match reads with
  | [] => []
  | (data, from) :: reads =>
      if (length data =? 0)%nat then [] else IoUdpData data (dgramFrom from) :: drainUdpListener reads
  end.

Fixpoint drainRelay (s : Z) (reads : list (bytes * AddrRecord)) : list OwnerCall :=
  match reads with
  | [] => []
  | (data, from) :: reads =>
      if (length data =? 0)%nat then [] else IoRelayData s data (dgramFrom from) :: drainRelay s reads
  end.

Fixpoint drainTcpConn (s : Z) (reads : list ConnRead) : list OwnerCall :=
  match reads with
  | [] | Again :: _ => []
  | Got data :: reads => IoTcpConnData s data :: drainTcpConn s reads
  | Eof :: _ | Broken :: _ => [IoTcpConnClosed s]
  end.

(** The connections [accept] returns. *)
Definition acceptedPeer (a : AddrRecord) : AddrRecord :=
  match addrUnmapInet6V4Mapped (addr a) with
  | Some (sa, l) => mkAddrRecord sa l SOCK_STREAM
  | None => mkAddrRecord (addr a) (len a) SOCK_STREAM
  end.
Definition drainAccept (conns : list (Z * AddrRecord)) : list OwnerCall :=
  map (fun '(s, a) => IoTcpAccepted s (acceptedPeer a)) conns.

(** The result is always true. *)
Definition handleReadable (b : Backend) (s : Z) (dgrams : list (bytes * AddrRecord)) (reads : list ConnRead)
    : bool * list OwnerCall :=
  if bool_decide (s ∈ relaySockets_ b) then (true, drainRelay s dgrams) else (true, drainTcpConn s reads).

(** What the sockets hold when an event is served. *)
Record Ready := mkReady { r_dgrams : list (bytes * AddrRecord); r_conns : list (Z * AddrRecord); r_reads : list ConnRead }.

Definition tagOf (data : Z) : Z := data &. 0xF00000000.
Definition sockOf (data : Z) : Z := data &. 0xFFFFFFFF.

(** The body of the worker's loop for one event. *)
Definition serveEvent (b : Backend) (data flags : Z) (r : Ready) : list OwnerCall :=
  let sock := sockOf data in
  if tagOf data =? kUdpListenerTag then if has flags EPOLLIN then drainUdpListener (r_dgrams r) else []
  else if tagOf data =? kTcpListenerTag then if has flags EPOLLIN then drainAccept (r_conns r) else []
  else
    let '(go, calls) := if has flags EPOLLIN then handleReadable b sock (r_dgrams r) (r_reads r) else (true, []) in
    if negb go then calls else
    calls ++ (if has flags EPOLLOUT then [IoTcpConnWritable sock] else [])
          ++ (if has flags (EPOLLHUP |. EPOLLERR) then [IoTcpConnClosed sock] else []).

(** One pass of the write-retry thread: the set in ascending order. *)
Definition writeRetry (b : Backend) : list OwnerCall := IoTcpConnWritable <$> merge_sort Z.le (elements (writePending_ b)).

(** ** Several workers *)

(** Where a worker is: waiting; with the lock object of a socket in hand; holding it; with
    bytes it has read and not yet dispatched. *)
Inductive Pc :=
| Idle
| HasLock (s : Z) (l : nat)
| Locked (s : Z) (l : nat)
| Received (s : Z) (l : nat) (data : bytes).

#[export] Instance Pc_eq_dec : EqDecision Pc.
Proof. solve_decision. Defined.

(** The bytes in the kernel, the map of lock objects, the objects that are held and by whom,
    the number of the next object, the workers, what the server was given, and, to speak
    about it, everything that ever arrived. *)
Record Workers := mkWorkers {
  kernel : gmap Z bytes; drainLocks_ : gmap Z nat; heldBy : gmap nat nat; nextLock : nat;
  pcs : gmap nat Pc; given : list (Z * bytes); arrived : gmap Z bytes }.

#[export] Instance Workers_fields : RecordFields Workers := fun c =>
  mkWorkers (kernel c) (drainLocks_ c) (heldBy c) (nextLock c) (pcs c) (given c) (arrived c).

Definition bytesOf (m : gmap Z bytes) (s : Z) : bytes := default [] (m !! s).
Definition pcOf (c : Workers) (w : nat) : Pc := default Idle (pcs c !! w).
Definition setPc (w : nat) (p : Pc) (c : Workers) : Workers := c <| pcs ::= <[w := p]> |>.

(** A step: bytes arrive, a worker is woken for a socket, takes the lock, reads up to [n]
    bytes, dispatches them, or an object is dropped from the map ([dropDrainLock]). *)
Inductive Action :=
| Arrive (s : Z) (data : bytes)
| Wake (w : nat) (s : Z)
| Lock (w : nat)
| Read (w : nat) (n : nat)
| Dispatch (w : nat)
| Drop (s : Z).

(** [drainLockFor]. *)
Definition drainLockFor (s : Z) (c : Workers) : nat * Workers :=
  match drainLocks_ c !! s with
  | Some l => (l, c)
  | None => (nextLock c, c <| drainLocks_ ::= <[s := nextLock c]> |> <| nextLock := S (nextLock c) |>)
  end.

(** [None] when the step is not possible. *)
Definition act (a : Action) (c : Workers) : option Workers :=
  match a with
  | Arrive s data =>
      Some (c <| kernel ::= <[s := bytesOf (kernel c) s ++ data]> |> <| arrived ::= <[s := bytesOf (arrived c) s ++ data]> |>)
  | Wake w s =>
      match pcOf c w with
      | Idle => let '(l, c) := drainLockFor s c in Some (setPc w (HasLock s l) c)
      | _ => None
      end
  | Lock w =>
      match pcOf c w with
      | HasLock s l =>
          match heldBy c !! l with
          | None => Some (setPc w (Locked s l) (c <| heldBy ::= <[l := w]> |>))
          | Some _ => None
          end
      | _ => None
      end
  | Read w n =>
      match pcOf c w with
      | Locked s l =>
          match take n (bytesOf (kernel c) s) with
          | [] => Some (setPc w Idle (c <| heldBy ::= delete l |>))
          | data => Some (setPc w (Received s l data) (c <| kernel ::= <[s := drop n (bytesOf (kernel c) s)]> |>))
          end
      | _ => None
      end
  | Dispatch w =>
      match pcOf c w with
      | Received s l data =>
          Some (setPc w (HasLock s l) (c <| heldBy ::= delete l |> <| given ::= fun g => g ++ [(s, data)] |>))
      | _ => None
      end
  | Drop s => Some (c <| drainLocks_ ::= delete s |>)
  end.

Fixpoint acts (l : list Action) (c : Workers) : option Workers :=
  match l with [] => Some c | a :: l => c ← act a c; acts l c end.

Definition started : Workers := mkWorkers ∅ ∅ ∅ 0 ∅ [] ∅.

(** ** The order of a connection's bytes *)

(** The socket and the lock object a worker is concerned with, and the one it holds. *)
Definition onSock (p : Pc) : option (Z * nat) :=
  match p with Idle => None | HasLock s l | Locked s l | Received s l _ => Some (s, l) end.
Definition holds (p : Pc) : option nat :=
  match p with Locked _ l | Received _ l _ => Some l | _ => None end.

Definition givenOf (c : Workers) (s : Z) : bytes := mjoin (omap (fun p => if decide (p.1 = s) then Some p.2 else None) (given c)).

Record winv (c : Workers) : Prop := {
  w_fresh s l : drainLocks_ c !! s = Some l -> (l < nextLock c)%nat;
  w_inj s s' l : drainLocks_ c !! s = Some l -> drainLocks_ c !! s' = Some l -> s = s';
  w_map w s l : onSock (pcOf c w) = Some (s, l) -> drainLocks_ c !! s = Some l;
  w_held l w : heldBy c !! l = Some w <-> holds (pcOf c w) = Some l;
  w_busy w s l b : pcOf c w = Received s l b -> givenOf c s ++ b ++ bytesOf (kernel c) s = bytesOf (arrived c) s;
  w_calm s : (forall w l b, pcOf c w <> Received s l b) -> givenOf c s ++ bytesOf (kernel c) s = bytesOf (arrived c) s;
}.

Lemma pcOf_set w p c w' : pcOf (setPc w p c) w' = if decide (w = w') then p else pcOf c w'.
Proof.
  unfold pcOf, setPc. upd. destruct (decide (w = w')) as [<-|Hne]; [by rewrite lookup_insert_eq|].
  by rewrite lookup_insert_ne.
Qed.

Lemma bytesOf_insert m s b s' : bytesOf (<[s := b]> m) s' = if decide (s = s') then b else bytesOf m s'.
Proof.
  unfold bytesOf. destruct (decide (s = s')) as [<-|Hne]; [by rewrite lookup_insert_eq|]. by rewrite lookup_insert_ne.
Qed.

Lemma holds_on p l : holds p = Some l -> exists s, onSock p = Some (s, l).
Proof. destruct p; cbn; intros [= <-]; eauto. Qed.

(** Only one worker can have bytes of a socket in hand. *)
Lemma one_reader c w w' s l l' p p' :
  winv c -> pcOf c w = p -> pcOf c w' = p' -> onSock p = Some (s, l) -> onSock p' = Some (s, l') ->
  holds p = Some l -> holds p' = Some l' -> w = w'.
Proof.
  intros I <- <- H1 H2 G1 G2. pose proof (w_map _ I _ _ _ H1). pose proof (w_map _ I _ _ _ H2). assert (l = l') as <- by congruence.
  apply (w_held _ I) in G1, G2. congruence.
Qed.

(** When a step is allowed: an object is dropped only while no worker is concerned with it. *)
Definition allowed (a : Action) (c : Workers) : Prop :=
  match a with Drop s => forall w l, onSock (pcOf c w) <> Some (s, l) | _ => True end.

Lemma inv_arrive s data c : winv c -> winv (c <| kernel ::= <[s := bytesOf (kernel c) s ++ data]> |>
  <| arrived ::= <[s := bytesOf (arrived c) s ++ data]> |>).
Proof.
  intros [I1 I2 I3 I4 I5 I6]. constructor; try done.
  - intros w s' l b Hp. change (pcOf c w = Received s' l b) in Hp. specialize (I5 _ _ _ _ Hp).
    change (givenOf (_ <| arrived ::= _ |>) s') with (givenOf c s'). upd. rewrite !bytesOf_insert.
    destruct (decide (s = s')) as [->|]; [|done]. by rewrite !app_assoc, <- I5, !app_assoc.
  - intros s' Hp. specialize (I6 s' Hp). change (givenOf (_ <| arrived ::= _ |>) s') with (givenOf c s'). upd.
    rewrite !bytesOf_insert. destruct (decide (s = s')) as [->|]; [|done]. by rewrite app_assoc, I6.
Qed.

Lemma inv_wake w s c : winv c -> pcOf c w = Idle -> winv (setPc w (HasLock s (drainLockFor s c).1) (drainLockFor s c).2).
Proof.
  intros [I1 I2 I3 I4 I5 I6] Hw. set (l := (drainLockFor s c).1). set (c1 := (drainLockFor s c).2).
  assert (A : drainLocks_ c1 !! s = Some l /\ (l < nextLock c1)%nat /\ (nextLock c <= nextLock c1)%nat /\
    (forall s' l', drainLocks_ c1 !! s' = Some l' -> s' <> s -> drainLocks_ c !! s' = Some l') /\
    (forall s' l', drainLocks_ c !! s' = Some l' -> drainLocks_ c1 !! s' = Some l') /\
    (forall s', s' <> s -> drainLocks_ c !! s' <> Some l)).
  { unfold l, c1, drainLockFor. destruct (drainLocks_ c !! s) as [k|] eqn:E; cbn [fst snd].
    - split; [done|]. split; [by eapply I1|]. split; [done|]. split; [done|]. split; [done|].
      intros s' Hne Hs. apply Hne. by eapply I2.
    - upd. split; [by rewrite lookup_insert_eq|]. split; [lia|]. split; [lia|]. split; [|split].
      + intros s' l' H Hne. by rewrite lookup_insert_ne in H.
      + intros s' l' H. rewrite lookup_insert_ne; [done|]. intros ->. congruence.
      + intros s' _ H. apply I1 in H. lia. }
  assert (B : heldBy c1 = heldBy c /\ kernel c1 = kernel c /\ arrived c1 = arrived c /\ (forall w, pcOf c1 w = pcOf c w) /\
    (forall s, givenOf c1 s = givenOf c s)).
  { unfold c1, drainLockFor. by destruct (drainLocks_ c !! s). }
  destruct A as (A1 & A2 & A3 & A4 & A5 & A6). destruct B as (B1 & B2 & B3 & B4 & B5). clearbody l c1.
  constructor.
  - intros s' l' H. change (drainLocks_ c1 !! s' = Some l') in H. change (l' < nextLock c1)%nat.
    destruct (decide (s' = s)) as [->|Hne]; [congruence|]. specialize (I1 _ _ (A4 _ _ H Hne)). lia.
  - intros s1 s2 k H1 H2. change (drainLocks_ c1 !! s1 = Some k) in H1. change (drainLocks_ c1 !! s2 = Some k) in H2.
    destruct (decide (s1 = s)) as [->|N1], (decide (s2 = s)) as [->|N2]; [done| | |].
    + exfalso. apply (A6 s2 N2). rewrite A1 in H1. injection H1 as <-. by apply A4.
    + exfalso. apply (A6 s1 N1). rewrite A1 in H2. injection H2 as <-. by apply A4.
    + eapply I2; by apply A4.
  - intros w' s' l'. rewrite pcOf_set. destruct (decide (w = w')); [by intros [= <- <-]|]. rewrite B4. intros H. by apply A5, (I3 w').
  - intros l' w'. change (heldBy (setPc w _ c1)) with (heldBy c1). rewrite B1, pcOf_set, B4, I4.
    destruct (decide (w = w')) as [<-|]; [by rewrite Hw|done].
  - intros w' s' l' b. rewrite pcOf_set. destruct (decide (w = w')); [done|]. rewrite B4. intros H.
    change (givenOf (setPc w _ c1)) with (givenOf c1). change (kernel (setPc w _ c1)) with (kernel c1).
    change (arrived (setPc w _ c1)) with (arrived c1). rewrite B5, B2, B3. by eapply I5.
  - intros s' H. change (givenOf (setPc w _ c1)) with (givenOf c1). change (kernel (setPc w _ c1)) with (kernel c1).
    change (arrived (setPc w _ c1)) with (arrived c1). rewrite B5, B2, B3. apply I6. intros w' l' b Hb.
    apply (H w' l' b). rewrite pcOf_set. destruct (decide (w = w')) as [<-|]; [congruence|]. by rewrite B4.
Qed.

Lemma inv_lock w s l c :
  winv c -> pcOf c w = HasLock s l -> heldBy c !! l = None -> winv (setPc w (Locked s l) (c <| heldBy ::= <[l := w]> |>)).
Proof.
  intros [I1 I2 I3 I4 I5 I6] Hw Hh. constructor; [exact I1|exact I2| | | |].
  - intros w' s' l'. rewrite pcOf_set. destruct (decide (w = w')) as [<-|]; [|apply I3].
    intros [= <- <-]. apply (I3 w). by rewrite Hw.
  - intros l' w'. rewrite pcOf_set. change (heldBy (setPc w _ _)) with (<[l := w]> (heldBy c)).
    destruct (decide (l = l')) as [<-|Hl].
    + rewrite lookup_insert_eq. destruct (decide (w = w')) as [<-|Hne]; [done|]. split; [congruence|].
      intros H. apply I4 in H. congruence.
    + rewrite lookup_insert_ne, I4 by done. destruct (decide (w = w')) as [<-|]; [|done]. rewrite Hw. cbn. split; congruence.
  - intros w' s' l' b. rewrite pcOf_set. destruct (decide (w = w')); [done|]. apply I5.
  - intros s' H. apply I6. intros w' l' b Hb. apply (H w' l' b). rewrite pcOf_set.
    destruct (decide (w = w')) as [<-|]; [congruence|done].
Qed.

(** The lock is given back and the worker goes elsewhere. *)
Lemma held_release w p l c s :
  winv c -> onSock (pcOf c w) = Some (s, l) -> holds (pcOf c w) = Some l -> holds p = None ->
  forall l' w', delete l (heldBy c) !! l' = Some w' <-> holds (if decide (w = w') then p else pcOf c w') = Some l'.
Proof.
  intros I Hs Hl Hp l' w'. pose proof (proj2 (w_held _ I _ _) Hl) as Hh. destruct (decide (l = l')) as [<-|Hne].
  - rewrite lookup_delete_eq. destruct (decide (w = w')) as [<-|Hw]; [by rewrite Hp|]. split; [done|].
    intros H. apply (w_held _ I) in H. congruence.
  - rewrite lookup_delete_ne, (w_held _ I) by done. destruct (decide (w = w')) as [<-|]; [|done]. rewrite Hp, Hl. split; congruence.
Qed.

Lemma inv_stop w s l c : winv c -> pcOf c w = Locked s l -> winv (setPc w Idle (c <| heldBy ::= delete l |>)).
Proof.
  intros I Hw. pose proof I as [I1 I2 I3 I4 I5 I6]. constructor; [exact I1|exact I2| | | |].
  - intros w' s' l'. rewrite pcOf_set. destruct (decide (w = w')); [done|apply I3].
  - intros l' w'. rewrite pcOf_set. apply (held_release w Idle l c s I); by rewrite ?Hw.
  - intros w' s' l' b. rewrite pcOf_set. destruct (decide (w = w')); [done|apply I5].
  - intros s' H. apply I6. intros w' l' b Hb. apply (H w' l' b). rewrite pcOf_set.
    destruct (decide (w = w')) as [<-|]; [congruence|done].
Qed.

Lemma inv_read w s l n data c :
  winv c -> pcOf c w = Locked s l -> take n (bytesOf (kernel c) s) = data ->
  winv (setPc w (Received s l data) (c <| kernel ::= <[s := drop n (bytesOf (kernel c) s)]> |>)).
Proof.
  intros I Hw Hd. pose proof I as [I1 I2 I3 I4 I5 I6].
  assert (Hnone : forall w' l' b, pcOf c w' <> Received s l' b).
  { intros w' l' b Hb. assert (w = w') as <- by (eapply (one_reader c w w' s); [exact I|exact Hw|exact Hb|done..]). congruence. }
  constructor; [exact I1|exact I2| | | |].
  - intros w' s' l'. rewrite pcOf_set. destruct (decide (w = w')) as [<-|]; [|apply I3]. intros [= <- <-]. apply (I3 w). by rewrite Hw.
  - intros l' w'. rewrite pcOf_set. change (heldBy (setPc w _ _)) with (heldBy c). rewrite I4.
    destruct (decide (w = w')) as [<-|]; [by rewrite Hw|done].
  - intros w' s' l' b. rewrite pcOf_set. change (kernel (setPc w _ _)) with (<[s := drop n (bytesOf (kernel c) s)]> (kernel c)).
    change (givenOf (setPc w _ _) s') with (givenOf c s'). change (arrived (setPc w _ _)) with (arrived c). rewrite bytesOf_insert.
    destruct (decide (w = w')) as [<-|Hne].
    + intros [= <- <- <-]. rewrite decide_True by done. rewrite <- Hd, take_drop. by apply I6.
    + intros Hb. destruct (decide (s = s')) as [<-|]; [by apply Hnone in Hb|]. by eapply I5.
  - intros s' H. change (kernel (setPc w _ _)) with (<[s := drop n (bytesOf (kernel c) s)]> (kernel c)).
    change (givenOf (setPc w _ _) s') with (givenOf c s'). change (arrived (setPc w _ _)) with (arrived c). rewrite bytesOf_insert.
    destruct (decide (s = s')) as [<-|Hne].
    + exfalso. apply (H w l data). rewrite pcOf_set. by rewrite decide_True.
    + apply I6. intros w' l' b Hb. apply (H w' l' b). rewrite pcOf_set. destruct (decide (w = w')) as [<-|]; [congruence|done].
Qed.

Lemma givenOf_snoc c s data s' w p l :
  givenOf (setPc w p (c <| heldBy ::= delete l |> <| given ::= fun g => g ++ [(s, data)] |>)) s'
  = givenOf c s' ++ if decide (s = s') then data else [].
Proof.
  unfold givenOf, setPc. upd. rewrite omap_app, join_app. f_equal. cbn. by destruct (decide (s = s')); cbn; rewrite ?app_nil_r.
Qed.

Lemma inv_dispatch w s l data c :
  winv c -> pcOf c w = Received s l data ->
  winv (setPc w (HasLock s l) (c <| heldBy ::= delete l |> <| given ::= fun g => g ++ [(s, data)] |>)).
Proof.
  intros I Hw. pose proof I as [I1 I2 I3 I4 I5 I6].
  assert (Hothers : forall w' l' b, w <> w' -> pcOf c w' <> Received s l' b).
  { intros w' l' b Hne Hb. apply Hne. eapply (one_reader c w w' s); [exact I|exact Hw|exact Hb|done..]. }
  constructor; [exact I1|exact I2| | | |].
  - intros w' s' l'. rewrite pcOf_set. destruct (decide (w = w')) as [<-|]; [|apply I3]. intros [= <- <-]. apply (I3 w). by rewrite Hw.
  - intros l' w'. rewrite pcOf_set. apply (held_release w (HasLock s l) l c s I); by rewrite ?Hw.
  - intros w' s' l' b. rewrite pcOf_set, givenOf_snoc. destruct (decide (w = w')); [done|]. intros Hb.
    destruct (decide (s = s')) as [<-|]; [by apply Hothers in Hb|]. rewrite app_nil_r. by eapply I5.
  - intros s' H. rewrite givenOf_snoc. destruct (decide (s = s')) as [<-|Hne].
    + rewrite <- app_assoc. by apply (I5 w s l).
    + rewrite app_nil_r. apply I6. intros w' l' b Hb. apply (H w' l' b). rewrite pcOf_set.
      destruct (decide (w = w')) as [<-|]; [congruence|done].
Qed.

Lemma inv_drop s c : winv c -> (forall w l, onSock (pcOf c w) <> Some (s, l)) -> winv (c <| drainLocks_ ::= delete s |>).
Proof.
  intros [I1 I2 I3 I4 I5 I6] Hq. constructor; [| | |exact I4|exact I5|exact I6]; upd.
  - intros s' l [_ H]%lookup_delete_Some. by eapply I1.
  - intros s1 s2 l [_ H1]%lookup_delete_Some [_ H2]%lookup_delete_Some. by eapply I2.
  - intros w s' l H. change (onSock (pcOf c w) = Some (s', l)) in H. rewrite lookup_delete_ne; [by apply (I3 w)|].
    intros <-. by apply (Hq w l).
Qed.

Lemma act_inv a c c' : winv c -> allowed a c -> act a c = Some c' -> winv c'.
Proof.
  intros I Ha. destruct a as [s data|w s|w|w n|w|s]; cbn [act].
  - intros [= <-]. by apply inv_arrive.
  - destruct (pcOf c w) eqn:E; try done. pose proof (inv_wake w s c I E) as H. destruct (drainLockFor s c). by intros [= <-].
  - destruct (pcOf c w) eqn:E; try done. destruct (heldBy c !! l) eqn:El; [done|]. intros [= <-]. by apply inv_lock.
  - destruct (pcOf c w) eqn:E; try done. destruct (take n (bytesOf (kernel c) s)) as [|b0 r] eqn:Et; intros [= <-].
    + by eapply inv_stop.
    + by eapply inv_read.
  - destruct (pcOf c w) eqn:E; try done. intros [= <-]. by apply inv_dispatch.
  - intros [= <-]. by apply inv_drop.
Qed.

(** A schedule in which every step is allowed where it is taken. *)
Fixpoint safeActs (l : list Action) (c : Workers) : Prop :=
  match l with
  | [] => True
  | a :: l => allowed a c /\ match act a c with Some c => safeActs l c | None => True end
  end.

Lemma started_inv : winv started.
Proof. by constructor. Qed.

Lemma acts_inv l c c' : winv c -> safeActs l c -> acts l c = Some c' -> winv c'.
Proof.
  revert c. induction l as [|a l IH]; intros c I Hs; cbn [acts]; [by intros [= <-]|]. destruct Hs as [Ha Hs].
  destruct (act a c) as [c1|] eqn:E; [|done]. cbn [mbind option_bind]. apply IH; [by eapply act_inv|done].
Qed.

Lemma undropped_safe l c : Forall (fun a => match a with Drop _ => False | _ => True end) l -> safeActs l c.
Proof.
  intros H. revert c. induction H as [|a l Ha _ IH]; intros c; [done|]. split; [by destruct a|]. by destruct (act a c).
Qed.

(** Either a worker has bytes of the socket in hand or none has. *)
Definition elsewhere (s : Z) (p : Pc) : Prop := match p with Received s' _ _ => s' <> s | _ => True end.

#[export] Instance elsewhere_dec s p : Decision (elsewhere s p).
Proof. destruct p; apply _. Defined.

Lemma in_hand c s : (exists w k b, pcOf c w = Received s k b) \/ (forall w k b, pcOf c w <> Received s k b).
Proof.
  destruct (decide (map_Forall (fun _ => elsewhere s) (pcs c))) as [Hall|Hnot].
  - right. intros w k b E. unfold pcOf in E. destruct (pcs c !! w) as [p|] eqn:Ew; [|done]. cbn in E. subst p.
    by apply (Hall _ _ Ew).
  - left. apply map_not_Forall in Hnot as (w & p & Ew & Hp); [|apply _]. destruct p as [| | |s' k b]; try (by destruct Hp).
    exists w, k, b. unfold pcOf. rewrite Ew. cbn. f_equal. by apply dec_stable.
Qed.

(** C37: The server gets the bytes of a connection in the order they arrived, however many
    workers serve it: in every schedule of arrivals, wake-ups, lock operations, reads of any
    sizes and dispatches in which the lock object of a socket is dropped only while no worker
    is concerned with that socket, what was dispatched for a socket is a beginning of what
    arrived, and all of it once the kernel is empty and no worker has bytes in hand. *)
Theorem connection_bytes_in_order l c s :
  safeActs l started -> acts l started = Some c ->
  givenOf c s `prefix_of` bytesOf (arrived c) s /\
  (bytesOf (kernel c) s = [] -> (forall w k b, pcOf c w <> Received s k b) -> givenOf c s = bytesOf (arrived c) s).
Proof.
  intros Hs Ha. pose proof (acts_inv l started c started_inv Hs Ha) as I. split.
  - destruct (in_hand c s) as [(w & k & b & E)|Hn].
    + rewrite <- (w_busy _ I w s k b E). by apply prefix_app_r.
    + rewrite <- (w_calm _ I s Hn). by apply prefix_app_r.
  - intros Hk Hn. by rewrite <- (w_calm _ I s Hn), Hk, app_nil_r.
Qed.

Definition inOrderRun : list Action :=
  [Arrive 5 [97; 98; 99]; Wake 0 5; Wake 1 5; Lock 0; Read 0 2; Dispatch 0;
   Lock 1; Read 1 2; Dispatch 1; Arrive 5 [100]; Lock 0; Read 0 9; Dispatch 0].

Definition inOrderEnd : Workers := default started (acts inOrderRun started).

(** Two workers share the bytes of one connection. *)
Lemma connection_bytes_in_order_witness :
  givenOf inOrderEnd 5 = [97; 98; 99; 100] /\ givenOf inOrderEnd 5 `prefix_of` bytesOf (arrived inOrderEnd) 5.
Proof.
  split; [vm_compute; reflexivity|].
  refine (proj1 (connection_bytes_in_order inOrderRun inOrderEnd 5 _ _)).
  - apply undropped_safe. repeat constructor.
  - vm_compute. reflexivity.
Defined.

(** ** What the locks do not cover *)

Definition droppedLockRun : list Action :=
  [Arrive 5 [97; 98]; Wake 0 5; Lock 0; Read 0 1; Drop 5; Wake 1 5; Lock 1; Read 1 1; Dispatch 1; Dispatch 0].

(** When the lock object is dropped while a worker still has it ([removeTcpConn] or the end of
    another drain, with the descriptor in use again), the next worker makes a fresh object,
    both read at the same time, and the server gets the bytes in the wrong order. *)
Lemma dropped_lock_reorders :
  exists c, acts droppedLockRun started = Some c /\
    bytesOf (arrived c) 5 = [97; 98] /\ givenOf c 5 = [98; 97].
Proof. exists (default started (acts droppedLockRun started)). split; [|split]; vm_compute; reflexivity. Qed.

(** A tag above 32 bits and a descriptor below are told apart again. *)
Lemma tag_splits t s : 0 <= t < 16 -> fits 32 s -> tagOf ((t <<. 32) |. s) = t <<. 32 /\ sockOf ((t <<. 32) |. s) = s.
Proof.
  intros Ht Hs. unfold tagOf, sockOf. rewrite !Z.land_lor_distr_l. split.
  - change 0xF00000000 with (Z.ones 4 <<. 32). rewrite <- Z.shiftl_land, Z.land_ones by lia.
    rewrite (Z.mod_small t) by (cbn; lia). replace (Z.land s (Z.ones 4 <<. 32)) with 0; [by rewrite Z.lor_0_r|].
    symmetry. apply Z.bits_inj'. intros i Hi. rewrite Z.land_spec, Z.bits_0. destruct (Z.ltb_spec i 32).
    + by rewrite Z.shiftl_spec_low, andb_false_r.
    + by rewrite (fits_testbit 32 s i).
  - change 0xFFFFFFFF with (Z.ones 32). rewrite !Z.land_ones, Z.shiftl_mul_pow2, Z_mod_mult by lia. by rewrite Z.mod_small.
Qed.

Lemma no_tag s : fits 32 s -> tagOf s = 0 /\ sockOf s = s.
Proof. intros Hs. destruct (tag_splits 0 s) as [H1 H2]; [lia|done|]. by rewrite Z.shiftl_0_l, Z.lor_0_l in H1, H2. Qed.

(** An event of a registered socket is served by the socket's own handler: the data a listener
    was registered with leads to the draining of that listener, that of a relay socket or a
    connection to the draining of it. *)
Lemma events_reach_handlers udp tcp b s r :
  fits 32 udp -> fits 32 tcp -> fits 32 s ->
  serveEvent b (kUdpListenerTag |. udp) EPOLLIN r = drainUdpListener (r_dgrams r) /\
  serveEvent b (kTcpListenerTag |. tcp) EPOLLIN r = drainAccept (r_conns r) /\
  serveEvent b s EPOLLIN r = if decide (s ∈ relaySockets_ b) then drainRelay s (r_dgrams r) else drainTcpConn s (r_reads r).
Proof.
  intros Hu Ht Hs. destruct (tag_splits 1 udp) as [U1 U2]; [lia|done|]. destruct (tag_splits 2 tcp) as [T1 T2]; [lia|done|].
  destruct (no_tag s Hs) as [S1 S2]. unfold serveEvent, handleReadable. rewrite S1, S2. change kUdpListenerTag with (1 <<. 32).
  change kTcpListenerTag with (2 <<. 32). rewrite U1, T1. split; [done|]. split; [done|].
  change (0 =? 1 <<. 32) with false. change (0 =? 2 <<. 32) with false. change (has EPOLLIN EPOLLIN) with true.
  change (has EPOLLIN EPOLLOUT) with false. change (has EPOLLIN (EPOLLHUP |. EPOLLERR)) with false. cbv iota.
  case_bool_decide as E; destruct (decide (s ∈ relaySockets_ b)); try done; cbn [negb]; by rewrite !app_nil_r.
Qed.

(** [handleReadable] returns true after it has closed the connection, so one event with
    EPOLLIN and EPOLLHUP reports the end twice; by the second report the descriptor may be
    another connection's. *)
Lemma hangup_closes_twice b s dgrams :
  s ∉ relaySockets_ b -> fits 32 s ->
  serveEvent b s (EPOLLIN |. EPOLLHUP) (mkReady dgrams [] [Eof]) = [IoTcpConnClosed s; IoTcpConnClosed s].
Proof.
  intros Hs Hr. destruct (no_tag s Hr) as [H1 H2]. unfold serveEvent, handleReadable. rewrite H1, H2.
  by rewrite bool_decide_eq_false_2.
Qed.

(** The drain of an edge-triggered socket ends at an empty datagram as at an empty queue: the
    datagrams behind it stay in the kernel until another one arrives. *)
Lemma empty_datagram_stops_drain l a l' :
  Forall (fun d => d.1 <> []) l ->
  drainUdpListener (l ++ ([], a) :: l') = (fun d => IoUdpData d.1 (dgramFrom d.2)) <$> l.
Proof.
  intros H. induction H as [|[data from] l Hd _ IH]; [done|]. cbn [app drainUdpListener].
  destruct data; [done|]. cbn [length Nat.eqb]. by rewrite IH.
Qed.

(** ** The registrations *)

(** What the kernel is asked to watch: every watched descriptor is a listener, a relay socket
    or a connection, its user data leads back to it, and write interest is recorded for
    connections only while a write is pending. *)
Record reg_inv (b : Backend) : Prop := {
  ri_data s i : interest b !! s = Some i -> s <> udpListener_ b -> s <> tcpListener_ b -> i_data i = s;
  ri_write s i : interest b !! s = Some i -> has (i_events i) EPOLLOUT = true -> s ∈ writePending_ b;
}.

Inductive RegOp :=
| AddRelay (s : Z) | RemoveRelay (s : Z) | AddConn (s : Z) (pending : bool) | RemoveConn (s : Z)
| SetPending (s : Z) (pending : bool).

Definition regOp (o : RegOp) : Backend -> Backend :=
  match o with
  | AddRelay s => addRelaySocket s
  | RemoveRelay s => removeRelaySocket s
  | AddConn s p => addTcpConn s p
  | RemoveConn s => removeTcpConn s
  | SetPending s p => setTcpConnWritePending s p
  end.

Lemma connEvents_write p : has (connEvents p) EPOLLOUT = p.
Proof. by destruct p. Qed.

(** A descriptor's entry is set to [i], with [W] the descriptors that wait for writing. *)
Lemma reg_insert s i b W :
  reg_inv b -> i_data i = s -> (has (i_events i) EPOLLOUT = true -> s ∈ W) -> (forall x, x <> s -> x ∈ writePending_ b -> x ∈ W) ->
  reg_inv (b <| interest ::= <[s := i]> |> <| writePending_ := W |>).
Proof.
  intros [D R] Hd Hw HW. constructor; upd; intros s' i' H.
  - intros H1 H2. destruct (decide (s = s')) as [<-|Hne].
    + rewrite lookup_insert_eq in H. by injection H as <-.
    + rewrite lookup_insert_ne in H by done. by apply (D s').
  - intros He. destruct (decide (s = s')) as [<-|Hne].
    + rewrite lookup_insert_eq in H. injection H as <-. by apply Hw.
    + rewrite lookup_insert_ne in H by done. apply HW; [done|]. by apply (R s' i').
Qed.

Lemma reg_delete s b W :
  reg_inv b -> (forall x, x <> s -> x ∈ writePending_ b -> x ∈ W) -> reg_inv (b <| interest ::= delete s |> <| writePending_ := W |>).
Proof.
  intros [D R] HW. constructor; upd; intros s' i' [Hne H]%lookup_delete_Some.
  - by apply D.
  - intros He. apply HW; [done|]. by apply (R s' i').
Qed.

(** The descriptors that wait for writing may change where the kernel does not ask for it. *)
Lemma reg_pending b W :
  reg_inv b -> (forall x i, interest b !! x = Some i -> x ∈ writePending_ b -> x ∈ W) -> reg_inv (b <| writePending_ := W |>).
Proof. intros [D R] HW. constructor; upd; [exact D|]. intros s i H He. by apply (HW s i), (R s i). Qed.

Lemma reg_relays b f : reg_inv b -> reg_inv (b <| relaySockets_ ::= f |>).
Proof. intros [D R]. by constructor. Qed.

Lemma reg_op o b : reg_inv b -> reg_inv (regOp o b).
Proof.
  intros I. destruct o as [s|s|s p|s|s p]; cbn [regOp].
  - unfold addRelaySocket, epollAdd. destruct (s =? INVALID); [done|]. upd.
    destruct (interest b !! s) as [i|] eqn:E; [by apply reg_relays|].
    apply (reg_insert s _ (b <| relaySockets_ ::= _ |>) (writePending_ b)); [by apply reg_relays|done|done|done].
  - apply reg_relays. by apply (reg_delete s b (writePending_ b)).
  - unfold addTcpConn, epollAdd. destruct (s =? INVALID); [done|]. destruct p; upd.
    + destruct (interest b !! s) as [i|] eqn:E.
      * apply (reg_pending b ({[s]} ∪ writePending_ b)); [done|set_solver].
      * apply (reg_insert s _ b ({[s]} ∪ writePending_ b)); [done|done|set_solver|set_solver].
    + destruct (interest b !! s) as [i|] eqn:E; [done|].
      by apply (reg_insert s _ b (writePending_ b)).
  - by apply (reg_delete s b (writePending_ b ∖ {[s]})); [|set_solver].
  - unfold setTcpConnWritePending, epollMod. destruct p; upd; destruct (interest b !! s) as [i|] eqn:E; cbn [snd].
    + apply (reg_insert s _ b ({[s]} ∪ writePending_ b)); [done|done|set_solver|set_solver].
    + apply (reg_pending b ({[s]} ∪ writePending_ b)); [done|set_solver].
    + apply (reg_insert s _ b (writePending_ b ∖ {[s]})); [done|done|done|set_solver].
    + apply (reg_pending b (writePending_ b ∖ {[s]})); [done|]. intros x i Hi Hx. apply elem_of_difference.
      split; [done|]. intros ->%elem_of_singleton. congruence.
Qed.

Lemma epollAdd_lookup s i b s' j :
  interest (epollAdd s i b).2 !! s' = Some j -> (s' = s /\ j = i) \/ interest b !! s' = Some j.
Proof.
  unfold epollAdd. destruct (interest b !! s); [by right|]. cbn [snd]. upd.
  intros [[<- <-]|[_ H]]%lookup_insert_Some; auto.
Qed.

Lemma init_entries udp tcp s i :
  interest (init udp tcp).2 !! s = Some i -> i_events i = EPOLLIN |. EPOLLET /\ (s = udp \/ s = tcp).
Proof.
  unfold init. set (b0 := mkBackend _ _ _ _ _). set (iu := mkInterest _ (_ |. udp)). set (it := mkInterest _ (_ |. tcp)).
  assert (H1 : forall b, interest b !! s = Some i -> b = b0 \/ b = (epollAdd udp iu b0).2 ->
    i_events i = EPOLLIN |. EPOLLET /\ (s = udp \/ s = tcp)).
  { intros b Hb [->| ->]; [change ((∅ : gmap Z Interest) !! s = Some i) in Hb; by rewrite lookup_empty in Hb|].
    destruct (epollAdd_lookup _ _ _ _ _ Hb) as [[-> ->]|H]; [by auto|change ((∅ : gmap Z Interest) !! s = Some i) in H; by rewrite lookup_empty in H]. }
  destruct (if udp =? INVALID then (true, b0) else epollAdd udp iu b0) as [ok b1] eqn:E.
  assert (Hb : b1 = b0 \/ b1 = (epollAdd udp iu b0).2) by (destruct (udp =? INVALID); [left; congruence|right; by rewrite E]).
  destruct ok, (tcp =? INVALID); cbn [negb snd]; try (intros H; by apply (H1 b1)).
  intros [[-> ->]|H]%epollAdd_lookup; [by auto|by apply (H1 b1)].
Qed.

Lemma init_listeners udp tcp : udpListener_ (init udp tcp).2 = udp /\ tcpListener_ (init udp tcp).2 = tcp.
Proof. unfold init, epollAdd. repeat case_match; simplify_eq; cbn; auto. Qed.

Lemma reg_init udp tcp : reg_inv (init udp tcp).2.
Proof.
  destruct (init_listeners udp tcp) as [L1 L2]. constructor.
  - intros s i Hi H1 H2. rewrite L1 in H1. rewrite L2 in H2. by destruct (init_entries udp tcp s i Hi) as [_ [-> | ->]].
  - intros s i Hi He. destruct (init_entries udp tcp s i Hi) as [E _]. by rewrite E in He.
Qed.

Lemma op_listeners o b : udpListener_ (regOp o b) = udpListener_ b /\ tcpListener_ (regOp o b) = tcpListener_ b.
Proof.
  destruct o as [s|s|s p|s|s p]; cbn; unfold addRelaySocket, addTcpConn, setTcpConnWritePending, epollAdd, epollMod;
    repeat case_match; simplify_eq; auto.
Qed.

(** Whatever is registered, removed or marked after the start, every descriptor the kernel
    watches besides the two listeners carries its own number as user data, so an event of it
    is served as its own, and every descriptor the kernel watches for writability is also in
    the set the write-retry thread goes through. *)
Theorem registrations_agree udp tcp ops s i :
  let b := fold_left (fun b o => regOp o b) ops (init udp tcp).2 in
  interest b !! s = Some i ->
  (s <> udp -> s <> tcp -> i_data i = s) /\
  (has (i_events i) EPOLLOUT = true -> IoTcpConnWritable s ∈ writeRetry b).
Proof.
  intros b Hi. assert (I : reg_inv b /\ udpListener_ b = udp /\ tcpListener_ b = tcp).
  { clear Hi. unfold b. clear b. induction ops as [|o ops IH] using rev_ind.
    - split; [apply reg_init|apply init_listeners].
    - rewrite fold_left_app. cbn [fold_left]. destruct IH as (I1 & I2 & I3). split; [by apply reg_op|].
      destruct (op_listeners o (fold_left (fun b o => regOp o b) ops (init udp tcp).2)) as [-> ->]. by split. }
  destruct I as (I & Hu & Ht). split.
  - intros H1 H2. apply (ri_data _ I s i Hi); congruence.
  - intros He. apply list_elem_of_fmap. exists s. split; [done|]. rewrite merge_sort_Permutation.
    apply elem_of_elements. by apply (ri_write _ I s i).
Qed.

(** The two listeners, a relay socket and a connection with bytes to write. *)
Lemma registrations_agree_witness :
  let b := fold_left (fun b o => regOp o b) [AddRelay 7; AddConn 9 false; SetPending 9 true] (init 3 4).2 in
  interest b !! 9 = Some (mkInterest (EPOLLIN |. EPOLLET |. EPOLLOUT) 9) /\ IoTcpConnWritable 9 ∈ writeRetry b.
Proof.
  intros b. assert (H : interest b !! 9 = Some (mkInterest (EPOLLIN |. EPOLLET |. EPOLLOUT) 9)) by (vm_compute; reflexivity).
  split; [exact H|].
  refine (proj2 (registrations_agree 3 4 [AddRelay 7; AddConn 9 false; SetPending 9 true] 9 _ H) _).
  vm_compute. reflexivity.
Defined.
