(* ===== verification/SelectBackend.v ===== *)
(** * The select backend of stserver

    stserver/io_select.cpp: connections and relay sockets are shared out among two pools of
    workers; each pass of a worker copies its sockets, builds the descriptor sets, waits and
    serves what is ready.  Between the copy and the serving other threads change the tables, so
    a pass is split where the code lets go of its locks, and what a recheck answers is taken
    from the state at that moment.  A call or a pruning that needs both the assignments and a
    worker's table is two operations, [begin] and [finish], which threads interleave.
    [FD_SET] writes into an array of [FD_SETSIZE] bits, and [None] is a write outside it or an
    index outside a vector.  What [select] and the reads return are arguments; the interrupt
    datagrams only cut a wait short and are left out, as are the threads' creation and end. *)

From stdpp Require Import sorting.
From S2P Require Import Prelude.
From S2P Require Import Bytes.
From S2P Require Import Addr.
From S2P Require Import PollRegistry.
From S2P Require Import EpollBackend.
Open Scope Z_scope.
Open Scope c_scope.

Definition FD_SETSIZE : Z := 1024.
Definition MaxFdsPerWorkerSet : Z := FD_SETSIZE - 1.
Definition MaxDrainPerCycle : nat := 2048.
Definition ControlSelectTimeoutMs : Z := 50.

(** The value of an [int] after arithmetic modulo 2^32. *)
Definition int32 (x : Z) : Z := (x + 2 ^ 31) mod 2 ^ 32 - 2 ^ 31.

Record Select := mkSelect {
  tcpWorkers_ : list (gmap Z bool); tcpAssignment_ : gmap Z Z; nextWorker_ : Z;
  relayWorkers_ : list (gset Z); relayAssignment_ : gmap Z Z; nextRelayWorker_ : Z;
  sudpListener : Z; stcpListener : Z }.
#[export] Instance Select_fields : RecordFields Select := fun b =>
  mkSelect (tcpWorkers_ b) (tcpAssignment_ b) (nextWorker_ b) (relayWorkers_ b) (relayAssignment_ b) (nextRelayWorker_ b)
    (sudpListener b) (stcpListener b).

(** [init] and the tables [start] makes, for [workerCount]. *)
Definition startSelect (udp tcp workerCount : Z) : Select :=
  let n := Z.to_nat (Z.max 1 workerCount) in
  mkSelect (replicate n ∅) ∅ 0 (replicate n ∅) ∅ 0 udp tcp.

(** The element of a vector, for an index that may be negative. *)
Definition at_ {A} (l : list A) (w : Z) : option A := if w <? 0 then None else l !! Z.to_nat w.

(** ** Registration

    Assignments and tables are under different locks, so every call, and every pruning after a
    failed wait, works in two critical sections.  The first is an operation of its own and says
    what is left for the second. *)

Inductive Half :=
| InsertConn (worker s : Z) (pending : bool) | EraseConn (worker s : Z) | MarkConn (worker s : Z) (pending : bool)
| UnassignConns (dead : list Z)
| InsertRelay (worker s : Z) | EraseRelay (worker s : Z) | UnassignRelays (dead : list Z).

Definition assignTcp (s : Z) (hasWritePending : bool) (b : Select) : option Half * Select :=
  if s =? INVALID then (None, b) else
  if (length (tcpWorkers_ b) =? 0)%nat then (None, b) else
  let worker := Z.rem (nextWorker_ b) (Z.of_nat (length (tcpWorkers_ b))) in
  (Some (InsertConn worker s hasWritePending),
   b <| nextWorker_ := int32 (nextWorker_ b + 1) |> <| tcpAssignment_ ::= <[s := worker]> |>).

Definition unassignTcp (s : Z) (b : Select) : option Half * Select :=
  match tcpAssignment_ b !! s with
  | None => (None, b)
  | Some worker => (Some (EraseConn worker s), b <| tcpAssignment_ ::= delete s |>)
  end.

Definition findTcp (s : Z) (pending : bool) (b : Select) : option Half * Select :=
  ((fun worker => MarkConn worker s pending) <$> tcpAssignment_ b !! s, b).

Definition assignRelay (s : Z) (b : Select) : option Half * Select :=
  if s =? INVALID then (None, b) else
  if (length (relayWorkers_ b) =? 0)%nat then (None, b) else
  if (s =? sudpListener b) || (s =? stcpListener b) then (None, b) else
  let worker := Z.rem (nextRelayWorker_ b) (Z.of_nat (length (relayWorkers_ b))) in
  (Some (InsertRelay worker s),
   b <| nextRelayWorker_ := int32 (nextRelayWorker_ b + 1) |> <| relayAssignment_ ::= <[s := worker]> |>).

Definition unassignRelay (s : Z) (b : Select) : option Half * Select :=
  match relayAssignment_ b !! s with
  | None => (None, b)
  | Some worker => (Some (EraseRelay worker s), b <| relayAssignment_ ::= delete s |>)
  end.

(** A failed wait: the sockets that are closed leave the worker's table, and after that their
    assignments. *)
Definition pruneConns (valid : Z -> bool) (worker : nat) (b : Select) : option Half * Select :=
  match tcpWorkers_ b !! worker with
  | None => (None, b)
  | Some w =>
      let dead := filter (fun s => valid s = false) (merge_sort Z.le (elements (dom w))) in
      (if bool_decide (dead = []) then None else Some (UnassignConns dead),
       b <| tcpWorkers_ ::= <[worker := filter (fun p => valid p.1 = true) w]> |>)
  end.

Definition pruneRelays (valid : Z -> bool) (worker : nat) (b : Select) : option Half * Select :=
  match relayWorkers_ b !! worker with
  | None => (None, b)
  | Some w =>
      let dead := filter (fun s => valid s = false) (merge_sort Z.le (elements w)) in
      (if bool_decide (dead = []) then None else Some (UnassignRelays dead),
       b <| relayWorkers_ ::= <[worker := filter (fun s => valid s = true) w]> |>)
  end.

(** The second critical section.  A registration indexes the vector; the others look whether
    the worker is in range. *)
Definition finish (h : Half) (b : Select) : option Select :=
  match h with
  | InsertConn worker s pending =>
      w ← at_ (tcpWorkers_ b) worker;
      Some (b <| tcpWorkers_ ::= <[Z.to_nat worker := <[s := pending]> w]> |>)
  | EraseConn worker s =>
      match at_ (tcpWorkers_ b) worker with
      | None => Some b
      | Some w => Some (b <| tcpWorkers_ ::= <[Z.to_nat worker := delete s w]> |>)
      end
  | MarkConn worker s pending =>
      match w ← at_ (tcpWorkers_ b) worker; old ← w !! s; Some (w, old) with
      | None => Some b
      | Some (w, old) =>
          if Bool.eqb old pending then Some b
          else Some (b <| tcpWorkers_ ::= <[Z.to_nat worker := <[s := pending]> w]> |>)
      end
  | UnassignConns dead => Some (b <| tcpAssignment_ ::= fun m => foldr delete m dead |>)
  | InsertRelay worker s =>
      w ← at_ (relayWorkers_ b) worker;
      Some (b <| relayWorkers_ ::= <[Z.to_nat worker := {[s]} ∪ w]> |>)
  | EraseRelay worker s =>
      match at_ (relayWorkers_ b) worker with
      | None => Some b
      | Some w => Some (b <| relayWorkers_ ::= <[Z.to_nat worker := w ∖ {[s]}]> |>)
      end
  | UnassignRelays dead => Some (b <| relayAssignment_ ::= fun m => foldr delete m dead |>)
  end.

(** A call nobody comes between. *)
Definition whole (r : option Half * Select) : option Select :=
  match r.1 with None => Some r.2 | Some h => finish h r.2 end.
Definition addTcp (s : Z) (hasWritePending : bool) (b : Select) : option Select := whole (assignTcp s hasWritePending b).
Definition removeTcp (s : Z) (b : Select) : option Select := whole (unassignTcp s b).
Definition setPending (s : Z) (pending : bool) (b : Select) : option Select := whole (findTcp s pending b).
Definition addRelay (s : Z) (b : Select) : option Select := whole (assignRelay s b).
Definition removeRelay (s : Z) (b : Select) : option Select := whole (unassignRelay s b).

(** The capacity message of [addTcpConn]: it looks at the number of sockets. *)
Definition warnsFull (w : gmap Z bool) : bool := MaxFdsPerWorkerSet <=? Z.of_nat (size w).

(** ** A pass of a connection worker *)

(** A descriptor set; a bit outside the array is [None]. *)
Definition FD_SET (s : Z) (f : gset Z) : option (gset Z) := if (0 <=? s) && (s <? FD_SETSIZE) then Some ({[s]} ∪ f) else None.

(** The copy, in the order of the map, and the sets made from it. *)
Definition snapshotTcp (w : gmap Z bool) : list (Z * bool) :=
  (fun s => (s, default false (w !! s))) <$> merge_sort Z.le (elements (dom w)).

Fixpoint buildSets (conns : list (Z * bool)) (rfds wfds : gset Z) : option (gset Z * gset Z) :=
  match conns with
  | [] => Some (rfds, wfds)
  | (s, pending) :: conns =>
      if s =? INVALID then buildSets conns rfds wfds else
      rfds ← FD_SET s rfds;
      wfds ← if pending then FD_SET s wfds else Some wfds;
      buildSets conns rfds wfds
  end.

Definition interruptSet (isock : Z) : option (gset Z) := if isock =? INVALID then Some ∅ else FD_SET isock ∅.

Definition tcpSets (isock : Z) (w : gmap Z bool) : option (gset Z * gset Z) :=
  rfds ← interruptSet isock; buildSets (snapshotTcp w) rfds ∅.

Definition readTcpConn : Z -> list ConnRead -> list OwnerCall := drainTcpConn.

(** What a pass serves of its copy, with the sets the wait returned and the answers of the two
    rechecks. *)
Definition serveTcp (ownedR ownedW : Z -> bool) (conns : list (Z * bool)) (rfds wfds : gset Z) (reads : Z -> list ConnRead)
    : list OwnerCall :=
  concat (map (fun '(s, _) => if (s =? INVALID) || negb (bool_decide (s ∈ rfds)) then [] else
                              if ownedR s then readTcpConn s (reads s) else []) conns)
  ++ concat (map (fun '(s, _) => if (s =? INVALID) || negb (bool_decide (s ∈ wfds)) then [] else
                                 if ownedW s then [IoTcpConnWritable s] else []) conns).

(** The recheck of a worker. *)
Definition ownsTcp (b : Select) (worker : nat) (s : Z) : bool :=
  match tcpWorkers_ b !! worker with Some w => bool_decide (is_Some (w !! s)) | None => false end.

(** ** A pass of a relay worker *)

(** The answers of [recvfrom]. *)
Inductive DgramRead := Dgram (data : bytes) (from : AddrRecord) | DgramAgain | DgramFailed.

(** The drain of one socket: the calls, and whether the socket is given up. *)
Fixpoint drainBounded (call : bytes -> AddrRecord -> OwnerCall) (n : nat) (reads : list DgramRead) : list OwnerCall * bool :=
  match n, reads with
  | S n, Dgram data from :: reads =>
      if (length data =? 0)%nat then ([], false) else
      let '(calls, failed) := drainBounded call n reads in (call data (dgramFrom from) :: calls, failed)
  | S _, DgramFailed :: _ => ([], true)
  | _, _ => ([], false)
  end.

Definition ownsRelay (b : Select) (worker : nat) (s : Z) : bool := bool_decide (relayAssignment_ b !! s = Some (Z.of_nat worker)).

(** What a pass serves of its copy, with the answers of the recheck, and the sockets it gives
    up, each through [removeRelaySocket]. *)
Fixpoint serveRelay (owned : Z -> bool) (snapshot : list Z) (rfds : gset Z) (reads : Z -> list DgramRead)
    : list OwnerCall * list Z :=
  match snapshot with
  | [] => ([], [])
  | s :: snapshot =>
      if negb (bool_decide (s ∈ rfds)) || negb (owned s) then serveRelay owned snapshot rfds reads else
      let '(calls, failed) := drainBounded (IoRelayData s) MaxDrainPerCycle (reads s) in
      let '(calls', given) := serveRelay owned snapshot rfds reads in
      (calls ++ calls', if failed then s :: given else given)
  end.

(** ** The other threads *)

Definition udpRecv (reads : list DgramRead) : list OwnerCall := (drainBounded IoUdpData MaxDrainPerCycle reads).1.

(** One turn of the control loop: the last tick and the calls. *)
Definition controlTurn (b : Select) (lastTick now : Z) (listenerReady : bool) (conns : list (Z * AddrRecord)) : Z * list OwnerCall :=
  let accepted := if negb (stcpListener b =? INVALID) && listenerReady then drainAccept conns else [] in
  if ControlSelectTimeoutMs <=? now - lastTick then (now, accepted ++ [IoTimerTick]) else (lastTick, accepted).

(** ** The calls of several threads *)

Inductive SelOp :=
| SAddTcp (s : Z) (pending : bool) | SRemoveTcp (s : Z) | SSetPending (s : Z) (pending : bool)
| SPruneTcp (worker : nat) (valid : Z -> bool)
| SAddRelay (s : Z) | SRemoveRelay (s : Z) | SPruneRelay (worker : nat) (valid : Z -> bool).

Definition begin (o : SelOp) (b : Select) : option Half * Select :=
  match o with
  | SAddTcp s p => assignTcp s p b
  | SRemoveTcp s => unassignTcp s b
  | SSetPending s p => findTcp s p b
  | SPruneTcp w valid => pruneConns valid w b
  | SAddRelay s => assignRelay s b
  | SRemoveRelay s => unassignRelay s b
  | SPruneRelay w valid => pruneRelays valid w b
  end.

(** The tables, and the second half each thread has before it. *)
Record Threads := mkThreads { sel : Select; halves : gmap nat Half }.

Inductive SelStep := Begin (t : nat) (o : SelOp) | Finish (t : nat).

(** A thread begins a call when it is in none. *)
Definition selStep (e : SelStep) (c : Threads) : option Threads :=
  match e with
  | Begin t o =>
      match halves c !! t with
      | Some _ => Some c
      | None => let '(h, b) := begin o (sel c) in
                Some (mkThreads b (match h with Some h => <[t := h]> (halves c) | None => halves c end))
      end
  | Finish t =>
      match halves c !! t with
      | None => Some c
      | Some h => b ← finish h (sel c); Some (mkThreads b (delete t (halves c)))
      end
  end.

Fixpoint selSteps (l : list SelStep) (c : Threads) : option Threads :=
  match l with [] => Some c | e :: l => c ← selStep e c; selSteps l c end.

(** What a half does to the ownership of the sockets of one kind. *)
Inductive KindHalf := KIns (worker s : Z) | KEra (worker s : Z) | KUna (dead : list Z).
Definition ofTcp (h : Half) : option KindHalf :=
  match h with
  | InsertConn w s _ => Some (KIns w s) | EraseConn w s => Some (KEra w s) | UnassignConns dead => Some (KUna dead)
  | _ => None
  end.
Definition ofRelay (h : Half) : option KindHalf :=
  match h with
  | InsertRelay w s => Some (KIns w s) | EraseRelay w s => Some (KEra w s) | UnassignRelays dead => Some (KUna dead)
  | _ => None
  end.
Definition concerns (s : Z) (k : KindHalf) : bool :=
  match k with KIns _ s' | KEra _ s' => s =? s' | KUna dead => bool_decide (s ∈ dead) end.
Definition inserts (s : Z) (k : KindHalf) : bool := match k with KIns _ s' => s =? s' | _ => false end.

(** No call on the socket is under way. *)
Definition quiet (s : Z) (K : gmap nat KindHalf) : Prop := map_Forall (fun _ k => concerns s k = false) K.

(** A descriptor is registered when it is not registered and no call on it is under way, and
    it is not removed in the middle of its registration. *)
Definition orderly (e : SelStep) (c : Threads) : Prop :=
  match e with
  | Begin _ (SAddTcp s _) => tcpAssignment_ (sel c) !! s = None /\ quiet s (omap ofTcp (halves c))
  | Begin _ (SAddRelay s) => relayAssignment_ (sel c) !! s = None /\ quiet s (omap ofRelay (halves c))
  | Begin _ (SRemoveTcp s) => map_Forall (fun _ k => inserts s k = false) (omap ofTcp (halves c))
  | Begin _ (SRemoveRelay s) => map_Forall (fun _ k => inserts s k = false) (omap ofRelay (halves c))
  | _ => True
  end.
Fixpoint orderlySteps (l : list SelStep) (c : Threads) : Prop :=
  match l with
  | [] => True
  | e :: l => orderly e c /\ match selStep e c with Some c => orderlySteps l c | None => True end
  end.

#[export] Instance quiet_dec s K : Decision (quiet s K).
Proof. unfold quiet. apply _. Defined.
#[export] Instance orderly_dec e c : Decision (orderly e c).
Proof. destruct e as [t []|t]; apply _. Defined.
#[export] Instance orderlySteps_dec l c : Decision (orderlySteps l c).
Proof.
  revert c. induction l as [|e l IH]; intros c; cbn [orderlySteps]; [apply _|]. destruct (selStep e c); apply _.
Defined.

(** ** Every socket has one worker *)

Definition tcpOwns (b : Select) (w : nat) (s : Z) : Prop := exists m, tcpWorkers_ b !! w = Some m /\ is_Some (m !! s).
Definition relayOwns (b : Select) (w : nat) (s : Z) : Prop := exists m, relayWorkers_ b !! w = Some m /\ s ∈ m.

(** The tables and the assignments of one kind, up to the halves that are still to come. *)
Record shared (n : nat) (owns : nat -> Z -> Prop) (asg : gmap Z Z) (K : gmap nat KindHalf) : Prop := {
  h_one : forall w w' s, owns w s -> owns w' s -> w = w';
  h_own : forall w s, owns w s -> asg !! s = Some (Z.of_nat w) \/ exists t, K !! t = Some (KEra (Z.of_nat w) s);
  h_asg : forall s z, asg !! s = Some z -> exists w, z = Z.of_nat w /\
    (owns w s \/ exists t, K !! t = Some (KIns z s) \/ exists dead, K !! t = Some (KUna dead) /\ s ∈ dead);
  h_ins : forall t z s, K !! t = Some (KIns z s) ->
    asg !! s = Some z /\ (exists w, z = Z.of_nat w /\ (w < n)%nat) /\ (forall w, ~ owns w s) /\
    forall t' k, K !! t' = Some k -> t' = t \/ concerns s k = false;
  h_era : forall t z s, K !! t = Some (KEra z s) -> asg !! s = None;
  h_una : forall t dead s w, K !! t = Some (KUna dead) -> s ∈ dead -> ~ owns w s }.

Lemma quiet_lookup s K t k : quiet s K -> K !! t = Some k -> concerns s k = false.
Proof. intros Q. apply Q. Qed.

(** Outside the calls the assignments are the ownership. *)
Lemma shared_quiet n owns asg K s w : shared n owns asg K -> quiet s K -> owns w s <-> asg !! s = Some (Z.of_nat w).
Proof.
  intros S Q. split.
  - intros [?|[t Ht]]%(h_own _ _ _ _ S); [done|]. apply (quiet_lookup s) in Ht; [|done]. cbn in Ht. lia.
  - intros (v & Hv & [H|(t & [Ht|(dead & Ht & Hd)])])%(h_asg _ _ _ _ S).
    + assert (w = v) as -> by lia. exact H.
    + apply (quiet_lookup s) in Ht; [|done]. cbn in Ht. lia.
    + apply (quiet_lookup s) in Ht; [|done]. by apply bool_decide_eq_false in Ht.
Qed.

(** The steps of one kind. *)
Section SharedSteps.
Context (n : nat) (owns : nat -> Z -> Prop) (asg : gmap Z Z) (K : gmap nat KindHalf) (t : nat).
Hypothesis S : shared n owns asg K.

Lemma shared_assign s w :
  K !! t = None -> asg !! s = None -> quiet s K -> (w < n)%nat ->
  shared n owns (<[s := Z.of_nat w]> asg) (<[t := KIns (Z.of_nat w) s]> K).
Proof using S.
  intros Ht Hs Q Hw. assert (No : forall v, ~ owns v s).
  { intros v H. apply (shared_quiet _ _ _ _ _ _ S Q) in H. congruence. }
  destruct S as [One Own Asg Ins Era Una]. split.
  - exact One.
  - intros v x Hx. assert (x <> s) by (intros ->; by apply (No v)). rewrite lookup_insert_ne by done.
    destruct (Own v x Hx) as [?|[t' ?]]; [by left|]. right. exists t'. rewrite lookup_insert_ne by congruence. done.
  - intros x z. rewrite lookup_insert_Some. intros [[<- <-]|[Hne Hx]].
    + exists w. split; [done|]. right. exists t. left. by rewrite lookup_insert_eq.
    + destruct (Asg x z Hx) as (v & -> & [?|(t' & H)]); exists v; (split; [done|]); [by left|right]. exists t'.
      destruct H as [H|(dead & H & Hd)]; [left|right; exists dead; split; [|done]]; by rewrite lookup_insert_ne by congruence.
  - intros t' z x. rewrite lookup_insert_Some. intros [[<- [= <- <-]]|[Hne Hx]].
    + rewrite lookup_insert_eq. split_and!; [done|by exists w|done|]. intros t' k. rewrite lookup_insert_Some.
      intros [[<- _]|[_ Hk]]; [by left|right]. by apply (quiet_lookup _ K t').
    + destruct (Ins t' z x Hx) as (Ha & Hz & Hn & Hk). assert (x <> s) by congruence. rewrite lookup_insert_ne by done.
      split_and!; [done|done|done|]. intros t1 k. rewrite lookup_insert_Some. intros [[<- <-]|[_ Hk1]]; [right; cbn; lia|by apply (Hk t1)].
  - intros t' z x. rewrite lookup_insert_Some. intros [[_ [=]]|[_ H]]. pose proof (quiet_lookup s K t' _ Q H) as Hq. cbn in Hq.
    rewrite lookup_insert_ne by lia. by apply (Era t' z).
  - intros t' dead x v. rewrite lookup_insert_Some. intros [[_ [=]]|[_ H]]. by apply (Una t').
Qed.

Lemma shared_insert s w owns' :
  K !! t = Some (KIns (Z.of_nat w) s) -> (forall v x, owns' v x <-> (v = w /\ x = s) \/ owns v x) -> shared n owns' asg (delete t K).
Proof using S.
  intros Ht Ho. destruct S as [One Own Asg Ins Era Una]. destruct (Ins t _ s Ht) as (Ha & _ & Hn & Hk). split.
  - intros v v' x. rewrite !Ho. intros [[-> ->]|H] [[-> H']|H']; subst; try done; [by apply Hn in H'|by apply Hn in H|by apply (One v v' x)].
  - intros v x. rewrite Ho. intros [[-> ->]|H]; [by left|]. destruct (Own v x H) as [?|[t' ?]]; [by left|right].
    exists t'. rewrite lookup_delete_ne by congruence. done.
  - intros x z Hx. destruct (Asg x z Hx) as (v & -> & H). exists v. split; [done|]. rewrite Ho. destruct (decide (x = s)) as [->|Hne].
    + left. left. split; [|done]. rewrite Hx in Ha. injection Ha. lia.
    + destruct H as [?|(t' & H)]; [by left; right|right]. exists t'.
      destruct H as [H|(dead & H & Hd)]; [left|right; exists dead; split; [|done]]; rewrite lookup_delete_ne by congruence; done.
  - intros t' z x. rewrite lookup_delete_Some. intros [Hne Hx]. destruct (Ins t' z x Hx) as (Ha' & Hz & Hn' & Hk').
    split_and!; [done|done| |].
    + intros v. rewrite Ho. intros [[-> ->]|H]; [|by apply (Hn' v)]. destruct (Hk t' _ Hx) as [->|H]; [done|cbn in H; lia].
    + intros t1 k. rewrite lookup_delete_Some. intros [_ H]. by apply (Hk' t1).
  - intros t' z x. rewrite lookup_delete_Some. intros [_ H]. by apply (Era t' z).
  - intros t' dead x v. rewrite lookup_delete_Some, Ho. intros [Hne H] Hd [[-> ->]|Hv]; [|by apply (Una t' dead x v)].
    destruct (Hk t' _ H) as [->|Hc]; [done|]. cbn in Hc. by apply bool_decide_eq_false in Hc.
Qed.

Lemma shared_unassign s z :
  K !! t = None -> asg !! s = Some z -> map_Forall (fun _ k => inserts s k = false) K ->
  shared n owns (delete s asg) (<[t := KEra z s]> K).
Proof using S.
  intros Ht Hs Q. destruct S as [One Own Asg Ins Era Una]. split.
  - exact One.
  - intros v x Hx. destruct (decide (x = s)) as [->|Hne].
    + right. exists t. rewrite lookup_insert_eq. destruct (Own v s Hx) as [H|[t' H]]; [by simplify_eq|]. apply Era in H. congruence.
    + rewrite lookup_delete_ne by done. destruct (Own v x Hx) as [?|[t' ?]]; [by left|right]. exists t'.
      rewrite lookup_insert_ne by congruence. done.
  - intros x y. rewrite lookup_delete_Some. intros [Hne Hx]. destruct (Asg x y Hx) as (v & -> & [?|(t' & H)]); exists v; (split; [done|]);
      [by left|right]. exists t'.
    destruct H as [H|(dead & H & Hd)]; [left|right; exists dead; split; [|done]]; by rewrite lookup_insert_ne by congruence.
  - intros t' y x. rewrite lookup_insert_Some. intros [[_ [=]]|[Hne Hx]]. destruct (Ins t' y x Hx) as (Ha & Hz & Hn & Hk).
    pose proof (Q t' _ Hx) as Hq. cbn in Hq. rewrite lookup_delete_ne by lia. split_and!; [done|done|done|].
    intros t1 k. rewrite lookup_insert_Some. intros [[<- <-]|[_ H]]; [right; cbn; lia|by apply (Hk t1)].
  - intros t' y x. rewrite lookup_insert_Some. intros [[_ [= _ <-]]|[_ H]]; [apply lookup_delete_eq|].
    rewrite lookup_delete_None. right. by apply (Era t' y).
  - intros t' dead x v. rewrite lookup_insert_Some. intros [[_ [=]]|[_ H]]. by apply (Una t').
Qed.

Lemma shared_erase s z owns' :
  K !! t = Some (KEra z s) -> (forall v x, owns' v x <-> owns v x /\ ~ (Z.of_nat v = z /\ x = s)) -> shared n owns' asg (delete t K).
Proof using S.
  intros Ht Ho. destruct S as [One Own Asg Ins Era Una]. pose proof (Era t z s Ht) as Hs. split.
  - intros v v' x. rewrite !Ho. intros [H _] [H' _]. by apply (One v v' x).
  - intros v x. rewrite Ho. intros [H Hn]. destruct (Own v x H) as [?|[t' H']]; [by left|right]. exists t'.
    rewrite lookup_delete_ne; [done|]. intros ->. rewrite Ht in H'. simplify_eq. by destruct Hn.
  - intros x y Hx. destruct (Asg x y Hx) as (v & -> & H). exists v. split; [done|]. rewrite Ho. destruct H as [H|(t' & H)].
    + left. split; [done|]. intros [_ ->]. congruence.
    + right. exists t'. destruct H as [H|(dead & H & Hd)]; [left|right; exists dead; split; [|done]]; by rewrite lookup_delete_ne by congruence.
  - intros t' y x. rewrite lookup_delete_Some. intros [Hne Hx]. destruct (Ins t' y x Hx) as (Ha & Hz & Hn & Hk).
    split_and!; [done|done| |].
    + intros v. rewrite Ho. intros [H _]. by apply (Hn v).
    + intros t1 k. rewrite lookup_delete_Some. intros [_ H]. by apply (Hk t1).
  - intros t' y x. rewrite lookup_delete_Some. intros [_ H]. by apply (Era t' y).
  - intros t' dead x v. rewrite lookup_delete_Some, Ho. intros [_ H] Hd [Hv _]. by apply (Una t' dead x v).
Qed.

Lemma shared_prune w dead owns' :
  K !! t = None -> Forall (owns w) dead -> (forall v x, owns' v x <-> owns v x /\ x ∉ dead) ->
  shared n owns' asg (<[t := KUna dead]> K).
Proof using S.
  intros Ht Hd Ho. rewrite Forall_forall in Hd. destruct S as [One Own Asg Ins Era Una]. split.
  - intros v v' x. rewrite !Ho. intros [H _] [H' _]. by apply (One v v' x).
  - intros v x. rewrite Ho. intros [H _]. destruct (Own v x H) as [?|[t' H']]; [by left|right]. exists t'.
    rewrite lookup_insert_ne by congruence. done.
  - intros x y Hx. destruct (Asg x y Hx) as (v & -> & H). exists v. split; [done|]. rewrite Ho. destruct H as [H|(t' & H)].
    + destruct (decide (x ∈ dead)) as [Hin|]; [|by left]. right. exists t. right. exists dead. by rewrite lookup_insert_eq.
    + right. exists t'. destruct H as [H|(d & H & Hx')]; [left|right; exists d; split; [|done]]; by rewrite lookup_insert_ne by congruence.
  - intros t' y x. rewrite lookup_insert_Some. intros [[_ [=]]|[Hne Hx]]. destruct (Ins t' y x Hx) as (Ha & Hz & Hn & Hk).
    split_and!; [done|done| |].
    + intros v. rewrite Ho. intros [H _]. by apply (Hn v).
    + intros t1 k. rewrite lookup_insert_Some. intros [[<- <-]|[_ H]]; [right|by apply (Hk t1)]. cbn. apply bool_decide_eq_false.
      intros Hin. by apply (Hn w), Hd.
  - intros t' y x. rewrite lookup_insert_Some. intros [[_ [=]]|[_ H]]. by apply (Era t' y).
  - intros t' d x v. rewrite lookup_insert_Some, Ho. intros [[_ [= <-]]|[_ H]] Hx [Hv Hn]; [done|]. by apply (Una t' d x v).
Qed.

Lemma shared_unassigns dead asg' :
  K !! t = Some (KUna dead) -> (forall x z, asg' !! x = Some z <-> asg !! x = Some z /\ x ∉ dead) -> shared n owns asg' (delete t K).
Proof using S.
  intros Ht Ha'. destruct S as [One Own Asg Ins Era Una]. split.
  - exact One.
  - intros v x H. destruct (Own v x H) as [?|[t' H']].
    + left. apply Ha'. split; [done|]. intros Hx. by apply (Una t dead x v).
    + right. exists t'. rewrite lookup_delete_ne by congruence. done.
  - intros x y [Hx Hn]%Ha'. destruct (Asg x y Hx) as (v & -> & [H|(t' & H)]); exists v; (split; [done|]); [by left|right]. exists t'.
    destruct H as [H|(d & H & Hx')]; [left|right; exists d; split; [|done]]; rewrite lookup_delete_ne by congruence; done.
  - intros t' y x. rewrite lookup_delete_Some. intros [Hne Hx]. destruct (Ins t' y x Hx) as (Ha & Hz & Hn & Hk).
    split_and!; [|done|done|].
    + apply Ha'. split; [done|]. intros Hd. destruct (Hk t _ Ht) as [->|H]; [done|]. cbn in H. by apply bool_decide_eq_false in H.
    + intros t1 k. rewrite lookup_delete_Some. intros [_ H]. by apply (Hk t1).
  - intros t' y x. rewrite lookup_delete_Some. intros [_ H]. apply Era in H. destruct (asg' !! x) eqn:E; [|done].
    apply Ha' in E. destruct E. congruence.
  - intros t' d x v. rewrite lookup_delete_Some. intros [_ H]. by apply (Una t').
Qed.

Lemma shared_same owns' : (forall v x, owns' v x <-> owns v x) -> shared n owns' asg K.
Proof using S. intros Ho. destruct S. split; intros *; rewrite ?Ho; naive_solver. Qed.
End SharedSteps.

(** The invariant of the backend; the counters stay behind the number [k] of steps. *)
Record sinv (k : nat) (c : Threads) : Prop := {
  e_tcp : shared (length (tcpWorkers_ (sel c))) (tcpOwns (sel c)) (tcpAssignment_ (sel c)) (omap ofTcp (halves c));
  e_relay : shared (length (relayWorkers_ (sel c))) (relayOwns (sel c)) (relayAssignment_ (sel c)) (omap ofRelay (halves c));
  k_tcp : 0 <= nextWorker_ (sel c) <= Z.of_nat k;
  k_relay : 0 <= nextRelayWorker_ (sel c) <= Z.of_nat k }.

Lemma at_nat {A} (l : list A) w : at_ l (Z.of_nat w) = l !! w.
Proof. unfold at_. destruct (Z.ltb_spec (Z.of_nat w) 0); [lia|]. by rewrite Nat2Z.id. Qed.

Lemma at_Some {A} (l : list A) z x : at_ l z = Some x -> exists w, z = Z.of_nat w /\ l !! w = Some x.
Proof. unfold at_. destruct (Z.ltb_spec z 0); [done|]. intros Hl. exists (Z.to_nat z). split; [lia|done]. Qed.

Lemma at_None {A} (l : list A) z w x : at_ l z = None -> l !! w = Some x -> Z.of_nat w <> z.
Proof. intros Hz Hw <-. rewrite at_nat in Hz. congruence. Qed.

(** A worker's table is replaced. *)
Lemma owns_insert {A} (l : list A) (P : A -> Z -> Prop) w m m' v s :
  l !! w = Some m ->
  (exists x, <[w := m']> l !! v = Some x /\ P x s) <-> (v = w /\ P m' s) \/ (v <> w /\ exists x, l !! v = Some x /\ P x s).
Proof.
  intros Hw. assert (Hlt : (w < length l)%nat) by (by eapply lookup_lt_Some). destruct (decide (w = v)) as [<-|Hne].
  - rewrite list_lookup_insert_eq by done. naive_solver.
  - rewrite list_lookup_insert_ne by done. naive_solver.
Qed.

Lemma tcpOwns_insert b w m m' v s : tcpWorkers_ b !! w = Some m ->
  tcpOwns (b <| tcpWorkers_ ::= <[w := m']> |>) v s <-> (v = w /\ is_Some (m' !! s)) \/ (v <> w /\ tcpOwns b v s).
Proof. apply (owns_insert _ (fun m s => is_Some (m !! s))). Qed.
Lemma relayOwns_insert b w m m' v s : relayWorkers_ b !! w = Some m ->
  relayOwns (b <| relayWorkers_ ::= <[w := m']> |>) v s <-> (v = w /\ s ∈ m') \/ (v <> w /\ relayOwns b v s).
Proof. apply (owns_insert _ (fun m s => s ∈ m)). Qed.

Lemma int32_id x : - 2 ^ 31 <= x < 2 ^ 31 -> int32 x = x.
Proof. intros H. unfold int32. rewrite Z.mod_small; lia. Qed.

Lemma rem_index x (n : nat) : 0 <= x -> (n =? 0)%nat = false -> exists w, Z.rem x (Z.of_nat n) = Z.of_nat w /\ (w < n)%nat.
Proof.
  intros Hx Hn. apply Nat.eqb_neq in Hn. rewrite Z.rem_mod_nonneg by lia. pose proof (Z.mod_pos_bound x (Z.of_nat n)).
  exists (Z.to_nat (x mod Z.of_nat n)). lia.
Qed.

Lemma foldr_delete_lookup (dead : list Z) (m : gmap Z Z) t z : foldr delete m dead !! t = Some z <-> m !! t = Some z /\ t ∉ dead.
Proof.
  induction dead as [|d dead IH]; cbn [foldr]; [split; [intros; split; [done|apply not_elem_of_nil]|tauto]|].
  rewrite lookup_delete_Some, IH, not_elem_of_cons. naive_solver.
Qed.

(** What a begun or a finished call leaves of the halves of a kind. *)
Lemma halves_begun (f : Half -> option KindHalf) t h (H : gmap nat Half) : H !! t = None ->
  omap f (<[t := h]> H) = match f h with Some k => <[t := k]> (omap f H) | None => omap f H end.
Proof.
  intros Ht. destruct (f h) as [k|] eqn:E.
  - by apply omap_insert_Some.
  - rewrite omap_insert_None by done. apply delete_id. by rewrite lookup_omap, Ht.
Qed.

Lemma halves_finished (f : Half -> option KindHalf) t h (H : gmap nat Half) : H !! t = Some h ->
  omap f (delete t H) = match f h with Some _ => delete t (omap f H) | None => omap f H end.
Proof.
  intros Ht. rewrite omap_delete. destruct (f h) as [k|] eqn:E; [done|]. apply delete_id. by rewrite lookup_omap, Ht.
Qed.

Lemma halves_of (f : Half -> option KindHalf) t h k (H : gmap nat Half) : H !! t = Some h -> f h = Some k -> omap f H !! t = Some k.
Proof. intros Ht E. by rewrite lookup_omap, Ht. Qed.

Lemma halves_none (f : Half -> option KindHalf) t (H : gmap nat Half) : H !! t = None -> omap f H !! t = None.
Proof. intros Ht. by rewrite lookup_omap, Ht. Qed.

Definition begun (t : nat) (r : option Half * Select) (H : gmap nat Half) : Threads :=
  mkThreads r.2 (match r.1 with Some h => <[t := h]> H | None => H end).

Lemma selStep_begin t o c : halves c !! t = None -> selStep (Begin t o) c = Some (begun t (begin o (sel c)) (halves c)).
Proof. intros Ht. cbn [selStep]. rewrite Ht. by destruct (begin o (sel c)). Qed.

Ltac keep_kind I := destruct I; split; cbn in *; rewrite ?halves_begun by done; cbn; upd; try done; try lia.

Lemma assignTcp_inv k c t s p : sinv k c -> Z.of_nat k < 2 ^ 31 - 1 -> halves c !! t = None -> orderly (Begin t (SAddTcp s p)) c ->
  sinv (S k) (begun t (assignTcp s p (sel c)) (halves c)).
Proof.
  intros I Hk Ht [Hs Q]. unfold assignTcp. destruct (s =? INVALID); [keep_kind I|]. destruct (_ =? _)%nat eqn:El; [keep_kind I|].
  pose proof I as []. destruct (rem_index (nextWorker_ (sel c)) _ ltac:(lia) El) as (w & -> & Hw).
  split; cbn; rewrite ?halves_begun, ?int32_id by (done || lia); cbn; upd; try done; try lia.
  apply shared_assign; try done. by apply halves_none.
Qed.

Lemma unassignTcp_inv k c t s : sinv k c -> halves c !! t = None -> orderly (Begin t (SRemoveTcp s)) c ->
  sinv (S k) (begun t (unassignTcp s (sel c)) (halves c)).
Proof.
  intros I Ht Q. unfold unassignTcp. destruct (tcpAssignment_ (sel c) !! s) as [z|] eqn:Ea; [|keep_kind I].
  keep_kind I. apply shared_unassign; try done. by apply halves_none.
Qed.

Lemma assignRelay_inv k c t s : sinv k c -> Z.of_nat k < 2 ^ 31 - 1 -> halves c !! t = None -> orderly (Begin t (SAddRelay s)) c ->
  sinv (S k) (begun t (assignRelay s (sel c)) (halves c)).
Proof.
  intros I Hk Ht [Hs Q]. unfold assignRelay. destruct (s =? INVALID); [keep_kind I|]. destruct (_ =? _)%nat eqn:El; [keep_kind I|].
  destruct (_ || _); [keep_kind I|].
  pose proof I as []. destruct (rem_index (nextRelayWorker_ (sel c)) _ ltac:(lia) El) as (w & -> & Hw).
  split; cbn; rewrite ?halves_begun, ?int32_id by (done || lia); cbn; upd; try done; try lia.
  apply shared_assign; try done. by apply halves_none.
Qed.

Lemma unassignRelay_inv k c t s : sinv k c -> halves c !! t = None -> orderly (Begin t (SRemoveRelay s)) c ->
  sinv (S k) (begun t (unassignRelay s (sel c)) (halves c)).
Proof.
  intros I Ht Q. unfold unassignRelay. destruct (relayAssignment_ (sel c) !! s) as [z|] eqn:Ea; [|keep_kind I].
  keep_kind I. apply shared_unassign; try done. by apply halves_none.
Qed.

(** The dead of a table, in the order of the map. *)
Lemma dead_spec (valid : Z -> bool) (l : list Z) s : s ∈ filter (fun s => valid s = false) (merge_sort Z.le l) <-> s ∈ l /\ valid s = false.
Proof. rewrite list_elem_of_filter, merge_sort_Permutation. tauto. Qed.

Lemma filter_is_Some (valid : Z -> bool) (m : gmap Z bool) s :
  is_Some (filter (fun p : Z * bool => valid p.1 = true) m !! s) <-> is_Some (m !! s) /\ valid s = true.
Proof. unfold is_Some. setoid_rewrite map_lookup_filter_Some. cbn. naive_solver. Qed.

Lemma shared_pruned n owns owns' asg K t w dead :
  shared n owns asg K -> K !! t = None -> Forall (owns w) dead -> (forall v x, owns' v x <-> owns v x /\ x ∉ dead) ->
  shared n owns' asg (match (if bool_decide (dead = []) then None else Some (KUna dead)) with Some k => <[t := k]> K | None => K end).
Proof.
  intros S Ht Hd Ho. case_bool_decide as E; cbn; [|by apply (shared_prune _ owns _ _ _ S w)].
  apply (shared_same _ owns _ _ S). intros v x. rewrite Ho, E. pose proof (not_elem_of_nil x). tauto.
Qed.

Lemma halves_pruned (f : Half -> option KindHalf) t (dead : list Z) h (H : gmap nat Half) : H !! t = None ->
  omap f (match (if bool_decide (dead = []) then None else Some h) with Some h => <[t := h]> H | None => H end) =
  match (if bool_decide (dead = []) then None else f h) with Some k => <[t := k]> (omap f H) | None => omap f H end.
Proof. intros Ht. case_bool_decide; [done|]. by apply halves_begun. Qed.

Lemma pruneConns_inv k c t valid w : sinv k c -> halves c !! t = None -> sinv (S k) (begun t (pruneConns valid w (sel c)) (halves c)).
Proof.
  intros I Ht. unfold pruneConns. destruct (tcpWorkers_ (sel c) !! w) as [m|] eqn:Hw; [|keep_kind I]. cbv zeta.
  set (dead := filter _ (merge_sort _ _)).
  assert (Hd : forall s, s ∈ dead <-> is_Some (m !! s) /\ valid s = false).
  { intros s. unfold dead. by rewrite dead_spec, elem_of_elements, elem_of_dom. }
  destruct I as [T R K1 K2]. split; cbn; rewrite ?halves_pruned by done; upd; cbn; rewrite ?length_insert; try lia.
  - apply (shared_pruned _ (tcpOwns (sel c)) _ _ _ _ w); [done|by apply halves_none| |].
    + apply Forall_forall. intros s [Hs _]%Hd. by exists m.
    + intros v s. rewrite (tcpOwns_insert (sel c) w m) by done. rewrite Hd, filter_is_Some.
      assert (One : tcpOwns (sel c) v s -> is_Some (m !! s) -> v = w).
      { intros Hv Hs. apply (h_one _ _ _ _ T v w s Hv). by exists m. }
      assert (tcpOwns (sel c) w s <-> is_Some (m !! s)) by (unfold tcpOwns; naive_solver).
      destruct (decide (v = w)) as [->|]; [destruct (valid s)|]; intuition congruence.
  - by case_bool_decide.
Qed.

Lemma pruneRelays_inv k c t valid w : sinv k c -> halves c !! t = None -> sinv (S k) (begun t (pruneRelays valid w (sel c)) (halves c)).
Proof.
  intros I Ht. unfold pruneRelays. destruct (relayWorkers_ (sel c) !! w) as [m|] eqn:Hw; [|keep_kind I]. cbv zeta.
  set (dead := filter _ (merge_sort _ _)).
  assert (Hd : forall s, s ∈ dead <-> s ∈ m /\ valid s = false).
  { intros s. unfold dead. by rewrite dead_spec, elem_of_elements. }
  destruct I as [T R K1 K2]. split; cbn; rewrite ?halves_pruned by done; upd; cbn; rewrite ?length_insert; try lia.
  - by case_bool_decide.
  - apply (shared_pruned _ (relayOwns (sel c)) _ _ _ _ w); [done|by apply halves_none| |].
    + apply Forall_forall. intros s [Hs _]%Hd. by exists m.
    + intros v s. rewrite (relayOwns_insert (sel c) w m) by done. rewrite Hd, elem_of_filter.
      assert (One : relayOwns (sel c) v s -> s ∈ m -> v = w).
      { intros Hv Hs. apply (h_one _ _ _ _ R v w s Hv). by exists m. }
      assert (relayOwns (sel c) w s <-> s ∈ m) by (unfold relayOwns; naive_solver).
      destruct (decide (v = w)) as [->|]; [destruct (valid s)|]; intuition congruence.
Qed.

Lemma begin_inv k c t o : sinv k c -> Z.of_nat k < 2 ^ 31 - 1 -> halves c !! t = None -> orderly (Begin t o) c ->
  sinv (S k) (begun t (begin o (sel c)) (halves c)).
Proof.
  intros I Hk Ht Ho. destruct o; cbn [begin].
  - by apply assignTcp_inv.
  - by apply unassignTcp_inv.
  - unfold findTcp. destruct (tcpAssignment_ (sel c) !! s); keep_kind I.
  - by apply pruneConns_inv.
  - by apply assignRelay_inv.
  - by apply unassignRelay_inv.
  - by apply pruneRelays_inv.
Qed.

Ltac finished Ht := split; cbn; rewrite ?(halves_finished _ _ _ _ Ht); upd; cbn; rewrite ?length_insert; try done; try lia.

(** Marking a connection changes no ownership. *)
Lemma finish_mark k c t w s p : sinv k c -> halves c !! t = Some (MarkConn w s p) ->
  exists b, finish (MarkConn w s p) (sel c) = Some b /\ sinv (S k) (mkThreads b (delete t (halves c))).
Proof.
  intros I Ht. cbn [finish]. destruct (_ ≫= _) as [[m old]|] eqn:E; [destruct (Bool.eqb old p)|]; eexists; (split; [done|]);
    destruct I as [T R K1 K2]; finished Ht.
  apply bind_Some in E as (m' & Hm & (o & Ho & [= -> ->])%bind_Some). destruct (at_Some _ _ _ Hm) as (v & -> & Hv). rewrite Nat2Z.id.
  apply (shared_same _ (tcpOwns (sel c))); [done|]. intros u x. rewrite (tcpOwns_insert (sel c) v m), lookup_insert_is_Some by done.
  assert (tcpOwns (sel c) v x <-> is_Some (m !! x)) by (unfold tcpOwns; naive_solver).
  destruct (decide (u = v)) as [->|], (decide (s = x)) as [<-|]; naive_solver.
Qed.

Lemma finish_insertConn k c t z s p : sinv k c -> halves c !! t = Some (InsertConn z s p) ->
  exists b, finish (InsertConn z s p) (sel c) = Some b /\ sinv (S k) (mkThreads b (delete t (halves c))).
Proof.
  intros [T R K1 K2] Ht. assert (Hk := halves_of ofTcp _ _ _ _ Ht eq_refl).
  destruct (h_ins _ _ _ _ T _ _ _ Hk) as (_ & (w & -> & Hw) & Hn & _). apply lookup_lt_is_Some in Hw as [m Hw].
  cbn [finish]. rewrite at_nat, Hw, Nat2Z.id. cbn [mbind option_bind]. eexists. split; [done|].
  finished Ht.
  apply (shared_insert _ (tcpOwns (sel c)) _ _ _ T s w); [done|]. intros v x.
  rewrite (tcpOwns_insert (sel c) w m), lookup_insert_is_Some by done.
  assert (tcpOwns (sel c) w x <-> is_Some (m !! x)) by (unfold tcpOwns; naive_solver).
  specialize (Hn v). destruct (decide (v = w)) as [->|], (decide (s = x)) as [<-|]; naive_solver.
Qed.

Lemma finish_insertRelay k c t z s : sinv k c -> halves c !! t = Some (InsertRelay z s) ->
  exists b, finish (InsertRelay z s) (sel c) = Some b /\ sinv (S k) (mkThreads b (delete t (halves c))).
Proof.
  intros [T R K1 K2] Ht. assert (Hk := halves_of ofRelay _ _ _ _ Ht eq_refl).
  destruct (h_ins _ _ _ _ R _ _ _ Hk) as (_ & (w & -> & Hw) & Hn & _). apply lookup_lt_is_Some in Hw as [m Hw].
  cbn [finish]. rewrite at_nat, Hw, Nat2Z.id. cbn [mbind option_bind]. eexists. split; [done|].
  finished Ht.
  apply (shared_insert _ (relayOwns (sel c)) _ _ _ R s w); [done|]. intros v x.
  rewrite (relayOwns_insert (sel c) w m), elem_of_union, elem_of_singleton by done.
  assert (relayOwns (sel c) w x <-> x ∈ m) by (unfold relayOwns; naive_solver).
  specialize (Hn v). destruct (decide (v = w)) as [->|], (decide (s = x)) as [<-|]; naive_solver.
Qed.

Lemma finish_eraseConn k c t z s : sinv k c -> halves c !! t = Some (EraseConn z s) ->
  exists b, finish (EraseConn z s) (sel c) = Some b /\ sinv (S k) (mkThreads b (delete t (halves c))).
Proof.
  intros [T R K1 K2] Ht. assert (Hk := halves_of ofTcp _ _ _ _ Ht eq_refl). cbn [finish].
  destruct (at_ _ z) as [m|] eqn:E; eexists; (split; [done|]);
    finished Ht;
    apply (shared_erase _ (tcpOwns (sel c)) _ _ _ T s z); try done; intros v x.
  - destruct (at_Some _ _ _ E) as (w & -> & Hw). rewrite Nat2Z.id. rewrite (tcpOwns_insert (sel c) w m), lookup_delete_is_Some by done.
    assert (tcpOwns (sel c) w x <-> is_Some (m !! x)) by (unfold tcpOwns; naive_solver).
    destruct (decide (v = w)) as [->|]; [naive_solver|]. assert (Z.of_nat v <> Z.of_nat w) by lia. naive_solver.
  - split; [|naive_solver]. intros H. split; [done|]. intros [Hv _]. destruct H as (m & Hm & _). by apply (at_None _ _ _ _ E Hm).
Qed.

Lemma finish_eraseRelay k c t z s : sinv k c -> halves c !! t = Some (EraseRelay z s) ->
  exists b, finish (EraseRelay z s) (sel c) = Some b /\ sinv (S k) (mkThreads b (delete t (halves c))).
Proof.
  intros [T R K1 K2] Ht. assert (Hk := halves_of ofRelay _ _ _ _ Ht eq_refl). cbn [finish].
  destruct (at_ _ z) as [m|] eqn:E; eexists; (split; [done|]);
    finished Ht;
    apply (shared_erase _ (relayOwns (sel c)) _ _ _ R s z); try done; intros v x.
  - destruct (at_Some _ _ _ E) as (w & -> & Hw). rewrite Nat2Z.id.
    rewrite (relayOwns_insert (sel c) w m), elem_of_difference, elem_of_singleton by done.
    assert (relayOwns (sel c) w x <-> x ∈ m) by (unfold relayOwns; naive_solver).
    destruct (decide (v = w)) as [->|]; [naive_solver|]. assert (Z.of_nat v <> Z.of_nat w) by lia. naive_solver.
  - split; [|naive_solver]. intros H. split; [done|]. intros [Hv _]. destruct H as (m & Hm & _). by apply (at_None _ _ _ _ E Hm).
Qed.

Lemma finish_inv k c t h : sinv k c -> halves c !! t = Some h ->
  exists b, finish h (sel c) = Some b /\ sinv (S k) (mkThreads b (delete t (halves c))).
Proof.
  intros I Ht. destruct h as [z s p|z s|z s p|dead|z s|z s|dead].
  - by apply finish_insertConn.
  - by apply finish_eraseConn.
  - by apply finish_mark.
  - eexists. split; [done|]. assert (Hk := halves_of ofTcp _ _ _ _ Ht eq_refl). destruct I as [T R K1 K2].
    finished Ht.
    apply (shared_unassigns _ (tcpOwns (sel c)) _ _ _ T dead); [done|]. intros x y. apply foldr_delete_lookup.
  - by apply finish_insertRelay.
  - by apply finish_eraseRelay.
  - eexists. split; [done|]. assert (Hk := halves_of ofRelay _ _ _ _ Ht eq_refl). destruct I as [T R K1 K2].
    finished Ht.
    apply (shared_unassigns _ (relayOwns (sel c)) _ _ _ R dead); [done|]. intros x y. apply foldr_delete_lookup.
Qed.

Lemma sinv_weaken k c : sinv k c -> sinv (S k) c.
Proof. intros []. split; try done; lia. Qed.

Lemma selStep_inv k c e : sinv k c -> Z.of_nat k < 2 ^ 31 - 1 -> orderly e c -> exists c', selStep e c = Some c' /\ sinv (S k) c'.
Proof.
  intros I Hk Ho. destruct e as [t o|t].
  - destruct (halves c !! t) as [h|] eqn:Ht.
    + exists c. cbn [selStep]. rewrite Ht. split; [done|by apply sinv_weaken].
    + rewrite selStep_begin by done. eexists. split; [done|by apply begin_inv].
  - cbn [selStep]. destruct (halves c !! t) as [h|] eqn:Ht; [|exists c; split; [done|by apply sinv_weaken]].
    destruct (finish_inv k c t h I Ht) as (b & -> & I'). by eexists.
Qed.

Definition startThreads (udp tcp n : Z) : Threads := mkThreads (startSelect udp tcp n) ∅.

Lemma shared_empty n owns : (forall w s, ~ owns w s) -> shared n owns ∅ ∅.
Proof.
  intros No. split.
  - intros w w' s H. by apply No in H.
  - intros w s H. by apply No in H.
  - intros s z H. by rewrite lookup_empty in H.
  - intros t z s H. by rewrite lookup_empty in H.
  - intros t z s H. by rewrite lookup_empty in H.
  - intros t dead s w H. by rewrite lookup_empty in H.
Qed.

Lemma start_inv udp tcp n : sinv 0 (startThreads udp tcp n).
Proof.
  split; [| |cbn; lia..]; cbn; rewrite omap_empty; apply shared_empty; intros w s (m & [-> _]%lookup_replicate & H).
  - rewrite lookup_empty in H. by destruct H.
  - set_solver.
Qed.

(** With nobody in between, the two sections are the call. *)
Lemma uninterrupted t o c : halves c !! t = None ->
  selSteps [Begin t o; Finish t] c = (b ← whole (begin o (sel c)); Some (mkThreads b (halves c))).
Proof.
  intros Ht. cbn [selSteps]. rewrite selStep_begin by done. cbn [mbind option_bind]. unfold whole, begun.
  destruct (begin o (sel c)) as [[h|] b]; cbn.
  - rewrite lookup_insert_eq. destruct (finish h b); cbn; [|done]. by rewrite delete_insert_id.
  - by rewrite Ht.
Qed.

(** C38: A connection or relay socket is never in the tables of two workers, and outside the
    calls on it it is in the table of exactly the worker it is assigned to: whatever threads
    register and remove sockets, mark connections and prune both kinds of workers after a
    failed wait, with the two critical sections of every call interleaved in any order, after
    fewer than 2^31 steps no index has left a vector and at most one worker passes the recheck
    of a connection or watches a relay socket.  This asks that a descriptor is registered only
    when it is not assigned and no unfinished call or pruning is on it, and not removed in the
    middle of its registration; [pruning_orphans] and [giving_up_blinds] show the code without
    that. *)
Theorem sockets_have_one_worker udp tcp n l :
  Z.of_nat (length l) < 2 ^ 31 -> orderlySteps l (startThreads udp tcp n) ->
  exists c, selSteps l (startThreads udp tcp n) = Some c /\
    (forall s w w', ownsTcp (sel c) w s = true -> ownsTcp (sel c) w' s = true -> w = w') /\
    (forall s w w', relayOwns (sel c) w s -> relayOwns (sel c) w' s -> w = w') /\
    (forall s w, quiet s (omap ofTcp (halves c)) -> ownsTcp (sel c) w s = true <-> tcpAssignment_ (sel c) !! s = Some (Z.of_nat w)) /\
    (forall s w, quiet s (omap ofRelay (halves c)) -> relayOwns (sel c) w s <-> ownsRelay (sel c) w s = true).
Proof.
  intros Hlen Hf. assert (G : exists k c, selSteps l (startThreads udp tcp n) = Some c /\ sinv k c).
  { assert (I := start_inv udp tcp n). revert Hlen Hf I. generalize (startThreads udp tcp n).
    replace (length l) with (0 + length l)%nat by lia. generalize 0%nat.
    induction l as [|e l IH]; intros k c Hlen Hf I; cbn [selSteps]; [by exists k, c|]. cbn [length] in Hlen. destruct Hf as [F Hf].
    destruct (selStep_inv k c e) as (c1 & E & I1); [done|lia|done|]. rewrite E in Hf |- *. cbn [mbind option_bind].
    apply (IH (S k)); [lia|done|done]. }
  destruct G as (k & c & E & [T R _ _]). exists c. split; [done|].
  assert (O : forall s w, ownsTcp (sel c) w s = true <-> tcpOwns (sel c) w s).
  { intros s w. unfold ownsTcp, tcpOwns. destruct (tcpWorkers_ (sel c) !! w); [rewrite bool_decide_eq_true|]; naive_solver. }
  split_and!.
  - intros s w w' H H'. apply O in H, H'. by apply (h_one _ _ _ _ T w w' s).
  - intros s w w'. apply (h_one _ _ _ _ R).
  - intros s w Q. rewrite O. by apply (shared_quiet _ _ _ _ _ _ T).
  - intros s w Q. unfold ownsRelay. rewrite bool_decide_eq_true. by apply (shared_quiet _ _ _ _ _ _ R).
Qed.

(** The business thread is 0, the workers are 1 and 2: a connection is pruned by its worker
    while another is registered, a relay socket is given up by its worker while the business
    thread removes it, and its number is in use again. *)
Definition demoSteps : list SelStep :=
  [Begin 0 (SAddTcp 10 false); Finish 0; Begin 0 (SAddTcp 11 true); Finish 0; Begin 0 (SAddRelay 20); Finish 0;
   Begin 1 (SPruneTcp 0 (fun s => negb (s =? 10))); Begin 0 (SAddTcp 12 false); Begin 2 (SRemoveRelay 20); Finish 1; Finish 0;
   Begin 0 (SRemoveRelay 20); Finish 0; Finish 2; Begin 0 (SAddRelay 20); Finish 0; Begin 0 (SAddRelay 21); Finish 0;
   Begin 0 (SAddTcp 10 false); Finish 0; Begin 0 (SSetPending 11 false); Begin 2 (SPruneRelay 0 (fun _ => false)); Finish 0].
Definition demoEnd : Threads := default (startThreads 3 4 2) (selSteps demoSteps (startThreads 3 4 2)).

Lemma demo_runs : selSteps demoSteps (startThreads 3 4 2) = Some demoEnd.
Proof. vm_compute. reflexivity. Qed.

Lemma sockets_have_one_worker_witness :
  ownsTcp (sel demoEnd) 1 10 = true /\ relayOwns (sel demoEnd) 1 20 /\ is_Some (halves demoEnd !! 2%nat) /\
  (forall s w w', ownsTcp (sel demoEnd) w s = true -> ownsTcp (sel demoEnd) w' s = true -> w = w').
Proof.
  destruct (sockets_have_one_worker 3 4 2 demoSteps) as (c & E & H1 & H2 & H3 & H4).
  - vm_compute. reflexivity.
  - apply (bool_decide_unpack _). vm_compute. exact I.
  - rewrite demo_runs in E. apply (inj Some) in E. subst c. split_and!.
    + apply H3; [apply (bool_decide_unpack _); vm_compute; exact I|vm_compute; reflexivity].
    + apply H4; [apply (bool_decide_unpack _); vm_compute; exact I|vm_compute; reflexivity].
    + vm_compute. by eexists.
    + exact H1.
Defined.

(** ** The descriptor sets *)

Lemma FD_SET_Some s f : 0 <= s < FD_SETSIZE -> FD_SET s f = Some ({[s]} ∪ f).
Proof. intros H. unfold FD_SET. destruct (Z.leb_spec 0 s), (Z.ltb_spec s FD_SETSIZE); cbn; [done|lia..]. Qed.

Lemma buildSets_spec conns rfds wfds :
  Forall (fun c => 0 <= c.1 < FD_SETSIZE) conns ->
  exists rf wf, buildSets conns rfds wfds = Some (rf, wf) /\
    (forall s, s ∈ rf <-> s ∈ rfds \/ s ∈ conns.*1) /\ (forall s, s ∈ wf <-> s ∈ wfds \/ (s, true) ∈ conns).
Proof.
  intros H. revert rfds wfds. induction H as [|[s p] conns Hs _ IH]; intros rfds wfds; cbn [buildSets].
  { exists rfds, wfds. split; [done|]. split; intros s; [rewrite fmap_nil|]; rewrite elem_of_nil; tauto. }
  cbn in Hs. destruct (Z.eqb_spec s INVALID) as [->|_]; [by destruct Hs|]. rewrite (FD_SET_Some s rfds Hs). cbn [mbind option_bind].
  assert (P : exists wf, (if p then FD_SET s wfds else Some wfds) = Some wf /\ forall t, t ∈ wf <-> t ∈ wfds \/ (t, true) = (s, p)).
  { destruct p; [rewrite FD_SET_Some by done|]; eexists; (split; [done|]); set_solver. }
  destruct P as (wf1 & -> & P). cbn [mbind option_bind]. destruct (IH ({[s]} ∪ rfds) wf1) as (rf & wf & E & R & W).
  exists rf, wf. split; [done|]. split; intros t.
  - rewrite R, fmap_cons, elem_of_cons. set_solver.
  - rewrite W, P, elem_of_cons. tauto.
Qed.

(** When every descriptor is below [FD_SETSIZE], a pass watches the interrupt socket and all
    the worker's connections for reading, and for writing those that are marked. *)
Theorem pass_watches_all isock w :
  0 <= isock < FD_SETSIZE -> (forall s, is_Some (w !! s) -> 0 <= s < FD_SETSIZE) ->
  exists rf wf, tcpSets isock w = Some (rf, wf) /\
    (forall s, s ∈ rf <-> s = isock \/ is_Some (w !! s)) /\ (forall s, s ∈ wf <-> w !! s = Some true).
Proof.
  intros Hi Hw. unfold tcpSets, interruptSet. destruct (Z.eqb_spec isock INVALID) as [->|_]; [by destruct Hi|].
  rewrite FD_SET_Some by done. cbn [mbind option_bind].
  assert (M : forall s, s ∈ merge_sort Z.le (elements (dom w)) <-> is_Some (w !! s)).
  { intros s. by rewrite merge_sort_Permutation, elem_of_elements, elem_of_dom. }
  destruct (buildSets_spec (snapshotTcp w) ({[isock]} ∪ ∅) ∅) as (rf & wf & E & R & W).
  { apply Forall_forall. intros c (s & -> & Hs%M)%list_elem_of_fmap. by apply Hw. }
  exists rf, wf. split; [done|]. split; intros s.
  - rewrite R. unfold snapshotTcp. rewrite <- list_fmap_compose. replace (fst ∘ _) with (@id Z) by done. rewrite list_fmap_id, M. set_solver.
  - rewrite W. unfold snapshotTcp. rewrite list_elem_of_fmap. setoid_rewrite M. split.
    + intros [H|(t & [= <- Ht] & Hs)]; [set_solver|]. destruct (w !! s) as [[]|]; naive_solver.
    + intros Hs. right. exists s. by rewrite Hs.
Qed.

(** A descriptor of 1024 or more is written outside the set, though the worker has no other
    connection and the capacity check says nothing. *)
Lemma high_descriptor_overflows :
  exists b w, addTcp 1024 false (startSelect 3 4 1) = Some b /\ tcpWorkers_ b !! 0%nat = Some w /\
    warnsFull w = false /\ tcpSets 5 w = None.
Proof.
  eexists (default (startSelect 3 4 1) (addTcp 1024 false (startSelect 3 4 1))), {[1024 := false]}.
  split; [|split; [|split]]; vm_compute; reflexivity.
Qed.

(** After 2^31 connections the counter is negative, and so is the index it gives. *)
Lemma counter_wraps_out_of_range :
  let b := startSelect 3 4 3 <| nextWorker_ := 2 ^ 31 - 1 |> in
  exists b1, addTcp 10 false b = Some b1 /\ nextWorker_ b1 = - 2 ^ 31 /\ addTcp 11 false b1 = None.
Proof.
  intros b. exists (default b (addTcp 10 false b)). split; [|split]; vm_compute; reflexivity.
Qed.

(** A descriptor that is registered again, as the interface allows, is given to a second worker
    and stays with the first: both read it, and its removal leaves it with the first. *)
Lemma registered_twice_stays :
  exists c, selSteps [Begin 0 (SAddTcp 10 false); Finish 0; Begin 0 (SAddTcp 10 false); Finish 0; Begin 0 (SRemoveTcp 10); Finish 0]
      (startThreads 3 4 2) = Some c /\
    halves c = ∅ /\ ownsTcp (sel c) 0 10 = true /\ tcpAssignment_ (sel c) !! 10 = None.
Proof. eexists. split; [vm_compute; reflexivity|]. split_and!; vm_compute; reflexivity. Qed.

(** Between the two halves of a pruning the number can be in use again: the new connection
    then loses its assignment, and its removal leaves it in the worker's table. *)
Lemma pruning_orphans :
  exists c, selSteps [Begin 0 (SAddTcp 10 false); Finish 0; Begin 1 (SPruneTcp 0 (fun _ => false));
      Begin 0 (SAddTcp 10 false); Finish 0; Finish 1; Begin 0 (SRemoveTcp 10); Finish 0] (startThreads 3 4 2) = Some c /\
    halves c = ∅ /\ ownsTcp (sel c) 1 10 = true /\ tcpAssignment_ (sel c) !! 10 = None.
Proof. eexists. split; [vm_compute; reflexivity|]. split_and!; vm_compute; reflexivity. Qed.

(** A relay worker gives up a socket; before it gets to its table the number is registered
    again with it: the new socket is assigned and nobody watches it. *)
Lemma giving_up_blinds :
  exists c, selSteps [Begin 0 (SAddRelay 20); Finish 0; Begin 1 (SRemoveRelay 20); Begin 0 (SRemoveRelay 20);
      Begin 0 (SAddRelay 20); Finish 0; Finish 1] (startThreads 3 4 1) = Some c /\
    halves c = ∅ /\ ownsRelay (sel c) 0 20 = true /\ relayWorkers_ (sel c) = [∅].
Proof. eexists. split; [vm_compute; reflexivity|]. split_and!; vm_compute; reflexivity. Qed.

(** ** Sharing out *)

(** Connections are dealt out in turn: the [k]-th goes to worker [k mod n]. *)
Lemma dealt_in_turn s p b : 0 <= nextWorker_ b < 2 ^ 31 - 1 -> s <> INVALID -> tcpWorkers_ b <> [] ->
  exists b', addTcp s p b = Some b' /\ tcpAssignment_ b' !! s = Some (nextWorker_ b mod Z.of_nat (length (tcpWorkers_ b))) /\
    nextWorker_ b' = nextWorker_ b + 1 /\ length (tcpWorkers_ b') = length (tcpWorkers_ b).
Proof.
  intros Hn Hs Hw. unfold addTcp, assignTcp. destruct (Z.eqb_spec s INVALID); [done|].
  destruct (length (tcpWorkers_ b) =? 0)%nat eqn:E0; [by destruct (tcpWorkers_ b)|].
  destruct (rem_index (nextWorker_ b) _ ltac:(lia) E0) as (w & Ew & Hlt). pose proof Hlt as [m Hm]%lookup_lt_is_Some.
  cbv zeta. rewrite Ew. unfold whole. cbn [fst snd finish]. upd. rewrite at_nat, Hm, Nat2Z.id. cbn [mbind option_bind].
  eexists. split; [done|]. upd. rewrite lookup_insert_eq, int32_id, length_insert by lia.
  split; [|done]. f_equal. rewrite <- Ew. apply Z.rem_mod_nonneg; lia.
Qed.
