(* ===== verification/StunMessage.v ===== *)
(** * STUN messages (include/stice/stun/message.hpp, src/stun/message.cpp)

    The message codec: the 16-bit type field, the attribute list, [encode] with its
    credential, SOFTWARE, MESSAGE-INTEGRITY and FINGERPRINT attributes, [decode] and the
    two checks.  The functions work on byte offsets as the source does; [None] is a read or
    write outside the buffer or a loop that outruns its fuel, and the theorems show that
    neither happens.

    An enumeration the source fills by a cast from the wire ([Method], [AttrType]) is an
    integer with named values; [Class] has two bits, so the cast never leaves its four
    constructors. *)

From S2P Require Import Prelude.
From S2P Require Import Bytes.
From S2P Require Import Crypto.
Open Scope Z_scope.
Open Scope c_scope.

(** ** Constants *)

Definition TransactionIDSize : nat := 12.
Definition MessageHeaderSize : nat := 20.
Definition AttributeHeaderSize : nat := 4.
Definition MagicCookie : Z := 0x2112A442.
Definition FingerprintXor : Z := 0x5354554E.
Definition HmacSha1Size : nat := 20.

(** [enum class Method]. *)
Module Method.
Definition Binding : Z := 0x001.
Definition Allocate : Z := 0x003.
Definition Refresh : Z := 0x004.
Definition Send : Z := 0x006.
Definition Data : Z := 0x007.
Definition CreatePermission : Z := 0x008.
Definition ChannelBind : Z := 0x009.
Definition Connect : Z := 0x00A.
Definition ConnectionBind : Z := 0x00B.
Definition ConnectionAttempt : Z := 0x00C.
End Method.

(** [enum class Class]. *)
Inductive Class_ := Request | Indication | SuccessResponse | ErrorResponse.

#[export] Instance Class_eq_dec : EqDecision Class_.
Proof. solve_decision. Defined.

Definition class_val (c : Class_) : Z :=
  match c with Request => 0 | Indication => 1 | SuccessResponse => 2 | ErrorResponse => 3 end.

(** The cast from two bits. *)
Definition class_of (v : Z) : Class_ :=
  if v =? 0 then Request else if v =? 1 then Indication
  else if v =? 2 then SuccessResponse else ErrorResponse.

(** [enum class AttrType]. *)
Module AttrType.
Definition MappedAddress : Z := 0x0001.
Definition Username : Z := 0x0006.
Definition MessageIntegrity : Z := 0x0008.
Definition ErrorCode : Z := 0x0009.
Definition UnknownAttributes : Z := 0x000A.
Definition Realm : Z := 0x0014.
Definition Nonce : Z := 0x0015.
Definition MessageIntegritySha256 : Z := 0x001C.
Definition PasswordAlgorithm : Z := 0x001D.
Definition Userhash : Z := 0x001E.
Definition XorMappedAddress : Z := 0x0020.
Definition Priority : Z := 0x0024.
Definition UseCandidate : Z := 0x0025.
Definition TcpType : Z := 0x0026.
Definition ChannelNumber : Z := 0x000C.
Definition Lifetime : Z := 0x000D.
Definition XorPeerAddress : Z := 0x0012.
Definition Data : Z := 0x0013.
Definition XorRelayedAddress : Z := 0x0016.
Definition EvenPort : Z := 0x0018.
Definition RequestedTransport : Z := 0x0019.
Definition DontFragment : Z := 0x001A.
Definition ReservationToken : Z := 0x0022.
Definition RequestedAddressFamily : Z := 0x0017.
Definition ConnectionId : Z := 0x002A.
Definition Software : Z := 0x8022.
Definition AlternateServer : Z := 0x8023.
Definition Fingerprint : Z := 0x8028.
Definition IceControlled : Z := 0x8029.
Definition IceControlling : Z := 0x802A.
Definition Nomination : Z := 0xC001.
End AttrType.

Definition FamilyIPv4 : Z := 1.
Definition FamilyIPv6 : Z := 2.

Definition StunErrorBadRequest : Z := 400.
Definition StunErrorUnauthenticated : Z := 401.
Definition StunErrorForbidden : Z := 403.
Definition StunErrorAllocationMismatch : Z := 437.
Definition StunErrorStaleNonce : Z := 438.
Definition StunErrorAllocationQuotaReached : Z := 486.
Definition StunErrorInsufficientCapacity : Z := 508.

(** ** The type field *)

Definition encodeType (method : Z) (cls : Class_) : Z :=
  let m := method in
  let c := class_val cls in
  let a := m &. 0x000F in
  let b := m &. 0x0070 in
  let d := m &. 0x0F80 in
  let msgBits := u16 (a + (b <<. 1) + (d <<. 2)) in
  let c0 := u16 ((c &. 0x0001) <<. 4) in
  let c1 := u16 ((c &. 0x0002) <<. 7) in
  u16 (msgBits + c0 + c1).

Definition decodeType (type : Z) : Z * Class_ :=
  let c0 := (type >>. 4) &. 0x0001 in
  let c1 := (type >>. 7) &. 0x0002 in
  let a := type &. 0x000F in
  let b := (type >>. 1) &. 0x0070 in
  let d := (type >>. 2) &. 0x0F80 in
  ((a |. b) |. d, class_of (c0 |. c1)).

Definition isResponseType (cls : Class_) : bool := negb (class_val cls &. 2 =? 0).

Definition errorReason (code : Z) : string :=
  if code =? 300 then "Try Alternate" else if code =? 400 then "Bad Request"
  else if code =? 401 then "Unauthenticated" else if code =? 403 then "Forbidden"
  else if code =? 420 then "Unknown Attribute" else if code =? 437 then "Allocation Mismatch"
  else if code =? 438 then "Stale Nonce" else if code =? 440 then "Address Family not Supported"
  else if code =? 441 then "Wrong credentials"
  else if code =? 442 then "Unsupported Transport Protocol"
  else if code =? 443 then "Peer Address Family Mismatch"
  else if code =? 486 then "Allocation Quota Reached" else if code =? 500 then "Server Error"
  else if code =? 508 then "Insufficient Capacity" else "Unknown Error".

(** ** Messages *)

Record Attribute := mkAttr { atype : Z; value : bytes }.

#[export] Instance Attribute_eq_dec : EqDecision Attribute.
Proof. solve_decision. Defined.

Record Credentials := mkCreds {
  cr_username : bytes; cr_realm : bytes; cr_nonce : bytes; cr_key : bytes }.

Record Message := mkMessage {
  method : Z; cls : Class_; transactionID : bytes; attributes : list Attribute; raw : bytes }.

(** A default-constructed [Message]. *)
Definition emptyMessage : Message :=
  mkMessage Method.Binding Request (replicate 12 0) [] [].

Definition xorMask (tid : bytes) : bytes := [0x21; 0x12; 0xA4; 0x42] ++ tid.

(** [rnd] is what the CSPRNG delivers, [None] when it fails. *)
Definition newTransactionID (rnd : option bytes) (m : Message) : Message :=
  mkMessage (method m) (cls m) (default (replicate 12 0) rnd) (attributes m) (raw m).

Definition addAttribute (m : Message) (type : Z) (v : bytes) : Message :=
  mkMessage (method m) (cls m) (transactionID m) (attributes m ++ [mkAttr type v]) (raw m).

Fixpoint find_attr (type : Z) (l : list Attribute) : option Attribute :=
  match l with
  | [] => None
  | a :: l => if atype a =? type then Some a else find_attr type l
  end.

(** The member [find]: the first attribute of the type, a null pointer when there is
    none. *)
Definition find (m : Message) (type : Z) : option Attribute := find_attr type (attributes m).

(** *** Encoding *)

(** The lambda [appendAttr] of [encode]. *)
Definition appendAttr (raw : bytes) (type : Z) (v : bytes) : option bytes :=
  let offset := length raw in
  let len := length v in
  let raw := resize (offset + AttributeHeaderSize + paddedLen len) raw in
  raw ← poke raw offset (writeU16Be (u16 type));
  raw ← poke raw (offset + 2) (writeU16Be (u16 (Z.of_nat len)));
  raw ← (if (len =? 0)%nat then Some raw else poke raw (offset + 4) v);
  poke raw (offset + 4 + len) (replicate (paddedLen len - len) 0).

Fixpoint appendAttrs (raw : bytes) (l : list Attribute) : option bytes :=
  match l with
  | [] => Some raw
  | a :: l => raw ← appendAttr raw (atype a) (value a); appendAttrs raw l
  end.

Definition appendNonEmpty (raw : bytes) (type : Z) (v : bytes) : option bytes :=
  if (length v =? 0)%nat then Some raw else appendAttr raw type v.

(** Step 4 of [encode]: the length field is patched to cover the MESSAGE-INTEGRITY TLV, the
    HMAC of everything before the TLV is computed and the TLV appended. *)
Definition appendIntegrity (raw key : bytes) : option bytes :=
  let bodyLen := (length raw - MessageHeaderSize)%nat in
  raw ← poke raw 2 (writeU16Be (u16 (Z.of_nat (bodyLen + AttributeHeaderSize + HmacSha1Size))));
  let hmac := hmacSha1 key raw in
  let miTlvOff := length raw in
  let raw := resize (length raw + AttributeHeaderSize + HmacSha1Size) raw in
  raw ← poke raw miTlvOff (writeU16Be AttrType.MessageIntegrity);
  raw ← poke raw (miTlvOff + 2) (writeU16Be (Z.of_nat HmacSha1Size));
  poke raw (miTlvOff + AttributeHeaderSize) hmac.

(** Step 5: the same with the CRC and the FINGERPRINT TLV. *)
Definition appendFingerprint (raw : bytes) : option bytes :=
  let bodyLen := (length raw - MessageHeaderSize)%nat in
  raw ← poke raw 2 (writeU16Be (u16 (Z.of_nat (bodyLen + AttributeHeaderSize + 4))));
  let crc := crc32 raw in
  let fp := crc ^. FingerprintXor in
  let fpTlvOff := length raw in
  let raw := resize (length raw + AttributeHeaderSize + 4) raw in
  raw ← poke raw fpTlvOff (writeU16Be AttrType.Fingerprint);
  raw ← poke raw (fpTlvOff + 2) (writeU16Be 4);
  poke raw (fpTlvOff + AttributeHeaderSize) (writeU32Be fp).

(** The HMAC key of step 4: the credentials' key when there is one, else the password. *)
Definition integrityKey (password : bytes) (creds : option Credentials) : bytes :=
  match creds with
  | Some c => if (length (cr_key c) =? 0)%nat then password else cr_key c
  | None => password
  end.

(** The header with a zero length field. *)
Definition encodeHeader (type : Z) (tid : bytes) : option bytes :=
  raw ← poke (replicate MessageHeaderSize 0) 0 (writeU16Be type);
  raw ← poke raw 2 (writeU16Be 0);
  raw ← poke raw 4 (writeU32Be MagicCookie);
  poke raw 8 tid.

(** Step 1: USERNAME, REALM and NONCE of a credentialed request or response. *)
Definition appendCredentials (raw : bytes) (c : Class_) (password : option bytes)
    (creds : option Credentials) : option bytes :=
  match creds, password with
  | Some cr, Some _ =>
      if decide (c = Indication) then Some raw
      else
        raw ← appendNonEmpty raw AttrType.Username (cr_username cr);
        raw ← appendNonEmpty raw AttrType.Realm (cr_realm cr);
        appendNonEmpty raw AttrType.Nonce (cr_nonce cr)
  | _, _ => Some raw
  end.

(** Step 3: SOFTWARE. *)
Definition appendSoftware (raw : bytes) (software : option bytes) : option bytes :=
  match software with
  | Some s => appendNonEmpty raw AttrType.Software s
  | None => Some raw
  end.

(** Step 4 with its guard. *)
Definition appendAuth (raw : bytes) (c : Class_) (password : option bytes)
    (creds : option Credentials) : option bytes :=
  match password with
  | Some pw => if decide (c = Indication) then Some raw
               else appendIntegrity raw (integrityKey pw creds)
  | None => Some raw
  end.

(** [Message::encode].  A [const char *] is its bytes up to the terminator, null when
    [None].  [encode] always returns true. *)
Definition encode (m : Message) (password : option bytes) (creds : option Credentials)
    (software : option bytes) : option Message :=
  raw ← encodeHeader (encodeType (method m) (cls m)) (transactionID m);
  raw ← appendCredentials raw (cls m) password creds;
  raw ← appendAttrs raw (attributes m);
  raw ← appendSoftware raw software;
  raw ← appendAuth raw (cls m) password creds;
  raw ← appendFingerprint raw;
  raw ← poke raw 2 (writeU16Be (u16 (Z.of_nat (length raw - MessageHeaderSize))));
  Some (mkMessage (method m) (cls m) (transactionID m) (attributes m) raw).

(** *** Decoding *)

Definition isMessage (data : bytes) : option bool :=
  if (length data <? MessageHeaderSize)%nat then Some false else
  d0 ← data !! 0%nat;
  if negb (d0 &. 0xC0 =? 0) then Some false else
  cookie ← readU32Be data 4;
  if negb (cookie =? MagicCookie) then Some false else
  length_ ← readU16Be data 2;
  if negb (length_ &. 0x03 =? 0) then Some false else
  if (length data <? MessageHeaderSize + Z.to_nat length_)%nat then Some false else Some true.

(** The attribute loop of [decode]; every turn advances by at least the 4-byte header. *)
Fixpoint decodeAttrs (fuel : nat) (data : bytes) (offset end_ : nat) (attrs : list Attribute)
    : option (bool * list Attribute) :=
  match fuel with
  | O => None
  | S fuel =>
      if (offset + AttributeHeaderSize <=? end_)%nat then
        ty ← readU16Be data offset;
        vlen ← readU16Be data (offset + 2);
        let vlen := Z.to_nat vlen in
        let offset := (offset + AttributeHeaderSize)%nat in
        if (end_ <? offset + vlen)%nat then Some (false, attrs) else
        v ← peek data offset vlen;
        decodeAttrs fuel data (offset + paddedLen vlen) end_ (attrs ++ [mkAttr ty v])
      else Some (true, attrs)
  end.

(** [Message::decode]: the result flag and the message it leaves behind; a failure after
    the header has already overwritten the fields. *)
Definition decode (m : Message) (data : bytes) : option (bool * Message) :=
  if (length data <? MessageHeaderSize)%nat then Some (false, m) else
  ok ← isMessage data;
  if negb ok then Some (false, m) else
  type ← readU16Be data 0;
  length_ ← readU16Be data 2;
  let '(me, cl) := decodeType type in
  tid ← peek data 8 TransactionIDSize;
  let end_ := (MessageHeaderSize + Z.to_nat length_)%nat in
  if (length data <? end_)%nat then Some (false, mkMessage me cl tid [] data) else
  r ← decodeAttrs (S end_) data MessageHeaderSize end_ [];
  Some (r.1, mkMessage me cl tid r.2 data).

(** *** Integrity and fingerprint *)

(** [findIntegrityOffset]: the returned offset (0 when absent) and the [attrStart] output. *)
Fixpoint findIntegrityLoop (fuel : nat) (raw : bytes) (offset end_ attrStart : nat)
    : option (nat * nat) :=
  match fuel with
  | O => None
  | S fuel =>
      if (offset + AttributeHeaderSize <=? end_)%nat then
        ty ← readU16Be raw offset;
        vlen ← readU16Be raw (offset + 2);
        if ty =? AttrType.MessageIntegrity
        then Some ((offset + AttributeHeaderSize)%nat, offset)
        else findIntegrityLoop fuel raw (offset + (AttributeHeaderSize + paddedLen (Z.to_nat vlen)))
               end_ offset
      else Some (0%nat, attrStart)
  end.

Definition findIntegrityOffset (raw : bytes) : option (nat * nat) :=
  length_ ← readU16Be raw 2;
  let end_ := (MessageHeaderSize + Z.to_nat length_)%nat in
  findIntegrityLoop (S end_) raw MessageHeaderSize end_ 0.

Definition checkIntegrity (m : Message) (key : bytes) (allowMissing : bool) : option bool :=
  r ← findIntegrityOffset (raw m);
  let '(valueOff, attrStart) := r in
  if (valueOff =? 0)%nat then Some allowMissing else
  if (length (raw m) <? valueOff + HmacSha1Size)%nat then Some false else
  let bodyBeforeMi := (attrStart - MessageHeaderSize)%nat in
  copy ← peek (raw m) 0 attrStart;
  copy ← poke copy 2
    (writeU16Be (u16 (Z.of_nat (bodyBeforeMi + AttributeHeaderSize + HmacSha1Size))));
  let hmac := hmacSha1 key copy in
  mi ← peek (raw m) valueOff HmacSha1Size;
  Some (bool_decide (hmac = mi)).

(** The search of [checkFingerprint]: the offset of the last FINGERPRINT, 0 if none. *)
Fixpoint findFingerprintLoop (fuel : nat) (raw : bytes) (offset end_ fpAttrStart : nat)
    : option nat :=
  match fuel with
  | O => None
  | S fuel =>
      if (offset + AttributeHeaderSize <=? end_)%nat then
        ty ← readU16Be raw offset;
        vlen ← readU16Be raw (offset + 2);
        findFingerprintLoop fuel raw (offset + (AttributeHeaderSize + paddedLen (Z.to_nat vlen)))
          end_ (if ty =? AttrType.Fingerprint then offset else fpAttrStart)
      else Some fpAttrStart
  end.

Definition checkFingerprint (m : Message) (allowMissing : bool) : option bool :=
  length_ ← readU16Be (raw m) 2;
  let end_ := (MessageHeaderSize + Z.to_nat length_)%nat in
  fpAttrStart ← findFingerprintLoop (S end_) (raw m) MessageHeaderSize end_ 0;
  if (fpAttrStart =? 0)%nat then Some allowMissing else
  let valueOff := (fpAttrStart + AttributeHeaderSize)%nat in
  if (length (raw m) <? valueOff + 4)%nat then Some false else
  let bodyBeforeFp := (fpAttrStart - MessageHeaderSize)%nat in
  copy ← peek (raw m) 0 fpAttrStart;
  copy ← poke copy 2 (writeU16Be (u16 (Z.of_nat (bodyBeforeFp + AttributeHeaderSize + 4))));
  let crc := crc32 copy in
  fp ← readU32Be (raw m) valueOff;
  Some (crc =? fp ^. FingerprintXor).

(** ** The wire format *)

(** The header and the TLV of the RFC; the closed form the buffer code is measured
    against. *)
Definition hdr (type len : Z) (tid : bytes) : bytes :=
  writeU16Be type ++ writeU16Be len ++ writeU32Be MagicCookie ++ tid.

Definition tlv (a : Attribute) : bytes :=
  writeU16Be (u16 (atype a)) ++ writeU16Be (u16 (Z.of_nat (length (value a))))
    ++ value a ++ replicate (paddedLen (length (value a)) - length (value a)) 0.

Definition tlvs (l : list Attribute) : bytes := mjoin (tlv <$> l).

(** An attribute that fits its TLV: 16-bit type and length. *)
Definition attr_ok (a : Attribute) : Prop :=
  fits 16 (atype a) /\ Z.of_nat (length (value a)) < 2 ^ 16 /\ bytes_ok (value a).

Definition opt_attr (type : Z) (v : bytes) : list Attribute :=
  if (length v =? 0)%nat then [] else [mkAttr type v].

(** The attributes [encode] writes before MESSAGE-INTEGRITY. *)
Definition credAttrs (c : Class_) (password : option bytes) (creds : option Credentials)
    : list Attribute :=
  match creds, password with
  | Some cr, Some _ =>
      if decide (c = Indication) then []
      else opt_attr AttrType.Username (cr_username cr) ++ opt_attr AttrType.Realm (cr_realm cr)
             ++ opt_attr AttrType.Nonce (cr_nonce cr)
  | _, _ => []
  end.

Definition softAttrs (software : option bytes) : list Attribute :=
  match software with Some s => opt_attr AttrType.Software s | None => [] end.

Definition encAttrs (m : Message) (password : option bytes) (creds : option Credentials)
    (software : option bytes) : list Attribute :=
  credAttrs (cls m) password creds ++ attributes m ++ softAttrs software.

(** MESSAGE-INTEGRITY and FINGERPRINT of a message with header type [type] and attributes
    [l]: the digest covers the header with its length counting the new TLV. *)
Definition miAttr (type : Z) (tid : bytes) (l : list Attribute) (key : bytes) : Attribute :=
  mkAttr AttrType.MessageIntegrity
    (hmacSha1 key (hdr type (u16 (Z.of_nat (length (tlvs l) + 24))) tid ++ tlvs l)).

Definition fpAttr (type : Z) (tid : bytes) (l : list Attribute) : Attribute :=
  mkAttr AttrType.Fingerprint
    (writeU32Be (crc32 (hdr type (u16 (Z.of_nat (length (tlvs l) + 8))) tid ++ tlvs l)
                 ^. FingerprintXor)).

(** The attributes up to and including MESSAGE-INTEGRITY. *)
Definition encAttrsMi (m : Message) (password : option bytes) (creds : option Credentials)
    (software : option bytes) : list Attribute :=
  let l := encAttrs m password creds software in
  match password with
  | Some pw =>
      if decide (cls m = Indication) then l
      else l ++ [miAttr (encodeType (method m) (cls m)) (transactionID m) l (integrityKey pw creds)]
  | None => l
  end.

(** All attributes of the encoded message. *)
Definition wireAttrs (m : Message) (password : option bytes) (creds : option Credentials)
    (software : option bytes) : list Attribute :=
  let l := encAttrsMi m password creds software in
  l ++ [fpAttr (encodeType (method m) (cls m)) (transactionID m) l].

(** A message with [l] as its attributes. *)
Definition frame (type : Z) (tid : bytes) (l : list Attribute) : bytes :=
  hdr type (u16 (Z.of_nat (length (tlvs l)))) tid ++ tlvs l.

(** ** Buffer lemmas *)

Lemma tlvs_app l1 l2 : tlvs (l1 ++ l2) = tlvs l1 ++ tlvs l2.
Proof. unfold tlvs. by rewrite fmap_app, join_app. Qed.

Lemma tlvs_one a : tlvs [a] = tlv a.
Proof. apply app_nil_r. Qed.

Lemma tlvs_cons a l : tlvs (a :: l) = tlv a ++ tlvs l.
Proof. done. Qed.

(** Every length this development handles is far from the [size_t] limit. *)
Definition sized (v : bytes) : Prop := Z.of_nat (length v) < 2 ^ 63.

Lemma tlv_length a :
  sized (value a) -> length (tlv a) = (4 + paddedLen (length (value a)))%nat.
Proof.
  intros Hs. unfold sized in Hs. unfold tlv. rewrite !length_app, length_replicate.
  destruct (paddedLen_bounds (length (value a))) as [Hp _]; [width|]. simpl. lia.
Qed.

Lemma poke_grow (raw src : bytes) n :
  (length src <= n)%nat ->
  poke (raw ++ replicate n 0) (length raw) src = Some (raw ++ src ++ replicate (n - length src) 0).
Proof.
  intros Hn. replace n with (length src + (n - length src))%nat at 1 by lia.
  rewrite replicate_add. apply poke_app. by rewrite length_replicate.
Qed.

Lemma appendAttr_tlv raw type v :
  sized v -> appendAttr raw type v = Some (raw ++ tlv (mkAttr type v)).
Proof.
  intros Hs. unfold sized in Hs. unfold appendAttr, tlv. cbn [atype value].
  destruct (paddedLen_bounds (length v)) as [Hp _]; [width|].
  set (k := paddedLen (length v)) in *. rewrite resize_grow by lia.
  replace (length raw + AttributeHeaderSize + k - length raw)%nat with (4 + k)%nat
    by (unfold AttributeHeaderSize; lia).
  rewrite poke_grow by (simpl; lia). cbn [mbind option_bind].
  rewrite length_writeU16Be. replace (4 + k - 2)%nat with (2 + k)%nat by lia.
  set (t := writeU16Be (u16 type)).
  replace (length raw + 2)%nat with (length (raw ++ t)) by (rewrite length_app; done).
  rewrite app_assoc, poke_grow by (simpl; lia). cbn [mbind option_bind].
  rewrite length_writeU16Be. replace (2 + k - 2)%nat with k by lia.
  set (n := writeU16Be (u16 (Z.of_nat (length v)))).
  rewrite app_assoc.
  replace (length raw + 4)%nat with (length ((raw ++ t) ++ n)) by (rewrite !length_app; simpl; lia).
  assert (Ev : (if (length v =? 0)%nat then Some (((raw ++ t) ++ n) ++ replicate k 0)
                else poke (((raw ++ t) ++ n) ++ replicate k 0) (length ((raw ++ t) ++ n)) v)
               = Some (((raw ++ t) ++ n) ++ v ++ replicate (k - length v) 0)).
  { destruct (Nat.eqb_spec (length v) 0) as [E|E].
    - apply nil_length_inv in E as ->. by rewrite Nat.sub_0_r.
    - apply poke_grow. lia. }
  rewrite Ev. cbn [mbind option_bind].
  rewrite app_assoc.
  replace (length ((raw ++ t) ++ n) + length v)%nat with (length (((raw ++ t) ++ n) ++ v))
    by (rewrite length_app; lia).
  rewrite poke_grow by (rewrite length_replicate; lia).
  rewrite length_replicate, Nat.sub_diag. f_equal.
  by rewrite app_nil_r, <- !app_assoc.
Qed.

Lemma appendAttrs_tlvs raw l :
  Forall (fun a => sized (value a)) l -> appendAttrs raw l = Some (raw ++ tlvs l).
Proof.
  intros Hl. revert raw. induction Hl as [|a l Ha _ IH]; intros raw; simpl.
  - by rewrite app_nil_r.
  - destruct a as [t v]. rewrite appendAttr_tlv by done. simpl.
    by rewrite IH, tlvs_cons, app_assoc.
Qed.

Lemma appendNonEmpty_tlvs raw type v :
  sized v -> appendNonEmpty raw type v = Some (raw ++ tlvs (opt_attr type v)).
Proof.
  intros Hs. unfold appendNonEmpty, opt_attr. destruct (length v =? 0)%nat.
  - by rewrite app_nil_r.
  - by rewrite tlvs_one, appendAttr_tlv.
Qed.

Lemma hdr_length t l tid : length tid = 12%nat -> length (hdr t l tid) = 20%nat.
Proof. intros H. unfold hdr. rewrite !length_app, H. done. Qed.

(** Patching the length field of a message in the buffer. *)
Lemma poke_length t l l' tid (b : bytes) :
  poke (hdr t l tid ++ b) 2 (writeU16Be l') = Some (hdr t l' tid ++ b).
Proof.
  unfold hdr. rewrite <- !app_assoc. change 2%nat with (length (writeU16Be t)).
  by rewrite poke_app.
Qed.

(** A 20-byte or 4-byte value needs no padding: the two digest TLVs are their own
    [tlv]. *)
Lemma append_digest_tlv raw type v n :
  length v = n -> (n mod 4 = 0)%nat -> Z.of_nat n < 2 ^ 16 -> fits 16 type ->
  (let raw' := resize (length raw + AttributeHeaderSize + n) raw in
   raw' ← poke raw' (length raw) (writeU16Be type);
   raw' ← poke raw' (length raw + 2) (writeU16Be (Z.of_nat n));
   poke raw' (length raw + AttributeHeaderSize) v) = Some (raw ++ tlv (mkAttr type v)).
Proof.
  intros <- H4 Hn Ht. unfold tlv; cbn [atype value]. cbv zeta.
  destruct (paddedLen_bounds (length v)) as [Hp Hp4]; [width|].
  assert (Hk : paddedLen (length v) = length v) by lia.
  rewrite Hk, Nat.sub_diag, !(wrap_id 16) by width. rewrite app_nil_r.
  rewrite resize_grow by lia.
  replace (length raw + AttributeHeaderSize + length v - length raw)%nat with (4 + length v)%nat
    by (unfold AttributeHeaderSize; lia).
  rewrite poke_grow by (simpl; lia). cbn [mbind option_bind]. rewrite length_writeU16Be.
  set (t := writeU16Be type).
  replace (length raw + 2)%nat with (length (raw ++ t)) by (rewrite length_app; done).
  rewrite app_assoc, poke_grow by (simpl; lia). cbn [mbind option_bind].
  rewrite length_writeU16Be. set (n := writeU16Be (Z.of_nat (length v))).
  rewrite app_assoc.
  replace (length raw + AttributeHeaderSize)%nat with (length ((raw ++ t) ++ n))
    by (rewrite !length_app; unfold AttributeHeaderSize; simpl; lia).
  rewrite poke_grow by lia. replace (4 + length v - 2 - 2 - length v)%nat with 0%nat by lia.
  by rewrite app_nil_r, <- !app_assoc.
Qed.

Lemma appendIntegrity_tlv t n tid l key :
  length tid = 12%nat ->
  appendIntegrity (hdr t n tid ++ tlvs l) key
  = Some (hdr t (u16 (Z.of_nat (length (tlvs l) + 24))) tid ++ tlvs (l ++ [miAttr t tid l key])).
Proof.
  intros Ht. unfold appendIntegrity. rewrite length_app, hdr_length by done.
  replace (20 + length (tlvs l) - MessageHeaderSize + AttributeHeaderSize + HmacSha1Size)%nat
    with (length (tlvs l) + 24)%nat
    by (unfold MessageHeaderSize, AttributeHeaderSize, HmacSha1Size; lia).
  rewrite poke_length. cbn [mbind option_bind].
  set (r := hdr t (u16 (Z.of_nat (length (tlvs l) + 24))) tid ++ tlvs l).
  destruct (hmacSha1_ok key r) as [Hl _].
  pose proof (append_digest_tlv r AttrType.MessageIntegrity (hmacSha1 key r) 20 Hl) as E.
  rewrite tlvs_app, tlvs_one, app_assoc. fold r. by apply E.
Qed.

Lemma appendFingerprint_tlv t n tid l :
  length tid = 12%nat ->
  appendFingerprint (hdr t n tid ++ tlvs l)
  = Some (hdr t (u16 (Z.of_nat (length (tlvs l) + 8))) tid ++ tlvs (l ++ [fpAttr t tid l])).
Proof.
  intros Ht. unfold appendFingerprint. rewrite length_app, hdr_length by done.
  replace (20 + length (tlvs l) - MessageHeaderSize + AttributeHeaderSize + 4)%nat
    with (length (tlvs l) + 8)%nat by (unfold MessageHeaderSize, AttributeHeaderSize; lia).
  rewrite poke_length. cbn [mbind option_bind].
  set (r := hdr t (u16 (Z.of_nat (length (tlvs l) + 8))) tid ++ tlvs l).
  pose proof (append_digest_tlv r AttrType.Fingerprint
                (writeU32Be (crc32 r ^. FingerprintXor)) 4 eq_refl) as E.
  rewrite tlvs_app, tlvs_one, app_assoc. fold r. by apply E.
Qed.

(** Everything [encode] is given has a realistic size. *)
Definition enc_sized (m : Message) (creds : option Credentials) (software : option bytes) : Prop :=
  Forall (fun a => sized (value a)) (attributes m) /\
  match creds with
  | Some c => sized (cr_username c) /\ sized (cr_realm c) /\ sized (cr_nonce c)
  | None => True
  end /\
  match software with Some s => sized s | None => True end.

Lemma encodeHeader_hdr t tid : length tid = 12%nat -> encodeHeader t tid = Some (hdr t 0 tid).
Proof.
  intros Ht. do 12 (destruct tid as [|? tid]; [done|]). destruct tid; [|done]. reflexivity.
Qed.

Lemma appendCredentials_tlvs raw c password creds :
  match creds with
  | Some cr => sized (cr_username cr) /\ sized (cr_realm cr) /\ sized (cr_nonce cr)
  | None => True
  end ->
  appendCredentials raw c password creds = Some (raw ++ tlvs (credAttrs c password creds)).
Proof.
  intros Hc. unfold appendCredentials, credAttrs.
  destruct creds as [cr|], password; try by rewrite app_nil_r.
  destruct (decide (c = Indication)); [by rewrite app_nil_r|].
  destruct Hc as (H1 & H2 & H3).
  rewrite appendNonEmpty_tlvs by done. cbn [mbind option_bind].
  rewrite appendNonEmpty_tlvs by done. cbn [mbind option_bind].
  rewrite appendNonEmpty_tlvs by done. by rewrite !tlvs_app, <- !app_assoc.
Qed.

Lemma appendSoftware_tlvs raw software :
  match software with Some s => sized s | None => True end ->
  appendSoftware raw software = Some (raw ++ tlvs (softAttrs software)).
Proof.
  destruct software; simpl; intros Hs; [by apply appendNonEmpty_tlvs|by rewrite app_nil_r].
Qed.

Lemma appendAuth_tlvs n m password creds software :
  length (transactionID m) = 12%nat ->
  exists n', appendAuth (hdr (encodeType (method m) (cls m)) n (transactionID m)
               ++ tlvs (encAttrs m password creds software)) (cls m) password creds
  = Some (hdr (encodeType (method m) (cls m)) n' (transactionID m)
            ++ tlvs (encAttrsMi m password creds software)).
Proof.
  intros Ht. unfold appendAuth, encAttrsMi. destruct password as [pw|]; [|by eexists].
  destruct (decide (cls m = Indication)); [by eexists|].
  eexists. by apply appendIntegrity_tlv.
Qed.

(** [encode] never leaves its buffer, and the bytes it produces are the framed list of
    [wireAttrs]. *)
Lemma encode_frame m password creds software :
  length (transactionID m) = 12%nat -> enc_sized m creds software ->
  encode m password creds software
  = Some (mkMessage (method m) (cls m) (transactionID m) (attributes m)
            (frame (encodeType (method m) (cls m)) (transactionID m)
               (wireAttrs m password creds software))).
Proof.
  intros Ht (Ha & Hc & Hs). unfold encode.
  rewrite encodeHeader_hdr by done. cbn [mbind option_bind].
  rewrite appendCredentials_tlvs by done. cbn [mbind option_bind].
  rewrite appendAttrs_tlvs by done. cbn [mbind option_bind].
  rewrite appendSoftware_tlvs by done. cbn [mbind option_bind].
  rewrite <- !app_assoc, <- !tlvs_app.
  destruct (appendAuth_tlvs 0 m password creds software Ht) as [n' E].
  unfold encAttrs at 1 in E. rewrite E. cbn [mbind option_bind].
  rewrite appendFingerprint_tlv by done. cbn [mbind option_bind].
  rewrite poke_length. cbn [mbind option_bind]. unfold frame, wireAttrs.
  rewrite length_app, hdr_length by done. repeat f_equal.
  unfold MessageHeaderSize. lia.
Qed.

(** ** Walking a framed message *)

Lemma attr_ok_sized a : attr_ok a -> sized (value a).
Proof. intros (_ & H & _). unfold sized. width. Qed.

#[export] Hint Resolve attr_ok_sized : stice.

(** What a reader finds at the start of a TLV: the type, the length and the value, and the
    next TLV behind the padding. *)
Lemma tlv_read pre a post :
  attr_ok a ->
  let data := pre ++ tlv a ++ post in
  readU16Be data (length pre) = Some (atype a) /\
  readU16Be data (length pre + 2) = Some (Z.of_nat (length (value a))) /\
  peek data (length pre + 4) (length (value a)) = Some (value a).
Proof.
  intros (Ht & Hl & Hb) data. unfold data, tlv.
  rewrite !(wrap_id 16) by (done || (unfold fits; lia)).
  set (z := replicate _ 0). set (n := writeU16Be (Z.of_nat (length (value a)))).
  set (t := writeU16Be (atype a)). split; [|split].
  - rewrite <- !app_assoc. by apply readU16Be_app_write.
  - replace (pre ++ (t ++ n ++ value a ++ z) ++ post)
      with ((pre ++ t) ++ n ++ (value a ++ z ++ post)) by (by rewrite <- !app_assoc).
    replace (length pre + 2)%nat with (length (pre ++ t)) by (rewrite length_app; done).
    apply readU16Be_app_write. unfold fits; lia.
  - replace (pre ++ (t ++ n ++ value a ++ z) ++ post)
      with (((pre ++ t) ++ n) ++ value a ++ (z ++ post)) by (by rewrite <- !app_assoc).
    replace (length pre + 4)%nat with (length ((pre ++ t) ++ n))
      by (rewrite !length_app; simpl; lia).
    apply peek_app.
Qed.

Lemma tlv_length_ok a : attr_ok a -> length (tlv a) = (4 + paddedLen (length (value a)))%nat.
Proof. intros H. by apply tlv_length, attr_ok_sized. Qed.

(** The decoder's loop reads back the attributes of the TLVs between [offset] and
    [end_]. *)
Lemma decodeAttrs_tlvs fuel pre l post acc :
  Forall attr_ok l -> (length l < fuel)%nat ->
  decodeAttrs fuel (pre ++ tlvs l ++ post) (length pre) (length pre + length (tlvs l)) acc
  = Some (true, acc ++ l).
Proof.
  intros Hl. revert fuel pre acc. induction Hl as [|a l Ha _ IH]; intros [|fuel] pre acc Hf;
    [simpl in Hf; lia| |simpl in Hf; lia|]; cbn [decodeAttrs].
  - cbn [tlvs fmap list_fmap mjoin list_join length].
    destruct (Nat.leb_spec (length pre + AttributeHeaderSize) (length pre + 0));
      [unfold AttributeHeaderSize in *; lia|]. by rewrite app_nil_r.
  - rewrite tlvs_cons, length_app, <- app_assoc.
    destruct (tlv_read pre a (tlvs l ++ post) Ha) as (E1 & E2 & E3).
    pose proof (tlv_length_ok a Ha) as Hlen.
    destruct (paddedLen_bounds (length (value a))) as [Hp _]; [destruct Ha as (_&?&_); width|].
    unfold AttributeHeaderSize.
    destruct (Nat.leb_spec (length pre + 4) (length pre + (length (tlv a) + length (tlvs l))));
      [|lia].
    rewrite E1, E2. cbn [mbind option_bind]. rewrite Nat2Z.id.
    destruct (Nat.ltb_spec (length pre + (length (tlv a) + length (tlvs l)))
                (length pre + 4 + length (value a))); [lia|].
    rewrite E3. cbn [mbind option_bind].
    specialize (IH fuel (pre ++ tlv a) (acc ++ [mkAttr (atype a) (value a)])).
    rewrite length_app, <- !app_assoc in IH. rewrite Hlen in *.
    replace (length pre + 4 + paddedLen (length (value a)))%nat
      with (length pre + (4 + paddedLen (length (value a))))%nat by lia.
    replace (length pre + (4 + paddedLen (length (value a)) + length (tlvs l)))%nat
      with (length pre + (4 + paddedLen (length (value a))) + length (tlvs l))%nat by lia.
    rewrite IH by (simpl in Hf; lia). by destruct a.
Qed.

(** MESSAGE-INTEGRITY is found at the first TLV of its type. *)
Lemma findIntegrityLoop_tlvs fuel pre l a post rest st :
  Forall attr_ok l -> attr_ok a -> atype a = AttrType.MessageIntegrity ->
  Forall (fun x => atype x <> AttrType.MessageIntegrity) l -> (length l < fuel)%nat ->
  findIntegrityLoop fuel (pre ++ tlvs (l ++ a :: post) ++ rest) (length pre)
    (length pre + length (tlvs (l ++ a :: post))) st
  = Some ((length pre + length (tlvs l) + 4)%nat, (length pre + length (tlvs l))%nat).
Proof.
  intros Hl Ha Hty. revert fuel pre st. induction Hl as [|x l Hx _ IH];
    intros [|fuel] pre st Hne Hf; [simpl in Hf; lia| |simpl in Hf; lia|];
    cbn [findIntegrityLoop app]; rewrite tlvs_cons, length_app, <- app_assoc.
  - destruct (tlv_read pre a (tlvs post ++ rest) Ha) as (E1 & E2 & _).
    pose proof (tlv_length_ok a Ha) as Hlen. unfold AttributeHeaderSize.
    destruct (Nat.leb_spec (length pre + 4) (length pre + (length (tlv a) + length (tlvs post))));
      [|lia].
    rewrite E1, E2. cbn [mbind option_bind]. rewrite Hty, Z.eqb_refl.
    cbn [tlvs fmap list_fmap mjoin list_join length]. by rewrite !Nat.add_0_r.
  - apply Forall_cons in Hne as [Hnx Hne].
    destruct (tlv_read pre x (tlvs (l ++ a :: post) ++ rest) Hx) as (E1 & E2 & _).
    pose proof (tlv_length_ok x Hx) as Hlen. unfold AttributeHeaderSize.
    destruct (Nat.leb_spec (length pre + 4)
                (length pre + (length (tlv x) + length (tlvs (l ++ a :: post))))); [|lia].
    rewrite E1, E2. cbn [mbind option_bind]. rewrite Nat2Z.id.
    destruct (Z.eqb_spec (atype x) AttrType.MessageIntegrity); [done|].
    rewrite <- Hlen.
    specialize (IH fuel (pre ++ tlv x) (length pre) Hne).
    rewrite length_app, <- !app_assoc in IH.
    rewrite Nat.add_assoc, IH by (simpl in Hf; lia).
    rewrite tlvs_cons, length_app. do 2 f_equal; lia.
Qed.

(** The last FINGERPRINT is found. *)
Lemma findFingerprintLoop_tlvs fuel pre l a rest st :
  Forall attr_ok l -> attr_ok a -> atype a = AttrType.Fingerprint -> (S (length l) < fuel)%nat ->
  findFingerprintLoop fuel (pre ++ tlvs (l ++ [a]) ++ rest) (length pre)
    (length pre + length (tlvs (l ++ [a]))) st
  = Some (length pre + length (tlvs l))%nat.
Proof.
  intros Hl Ha Hty. revert fuel pre st. induction Hl as [|x l Hx _ IH];
    intros [|fuel] pre st Hf; [simpl in Hf; lia| |simpl in Hf; lia|];
    cbn [findFingerprintLoop app]; rewrite tlvs_cons, length_app, <- app_assoc.
  - destruct (tlv_read pre a rest Ha) as (E1 & E2 & _).
    pose proof (tlv_length_ok a Ha) as Hlen. unfold AttributeHeaderSize.
    cbn [tlvs fmap list_fmap mjoin list_join length app]. rewrite Nat.add_0_r.
    destruct (Nat.leb_spec (length pre + 4) (length pre + length (tlv a))); [|lia].
    rewrite E1, E2. cbn [mbind option_bind]. rewrite Hty, Z.eqb_refl, Nat2Z.id, <- Hlen.
    destruct fuel as [|fuel]; [simpl in Hf; lia|]. cbn [findFingerprintLoop].
    destruct (Nat.leb_spec (length pre + length (tlv a) + AttributeHeaderSize)
                (length pre + length (tlv a))); [unfold AttributeHeaderSize in *; lia|].
    by rewrite Nat.add_0_r.
  - destruct (tlv_read pre x (tlvs (l ++ [a]) ++ rest) Hx) as (E1 & E2 & _).
    pose proof (tlv_length_ok x Hx) as Hlen. unfold AttributeHeaderSize.
    destruct (Nat.leb_spec (length pre + 4)
                (length pre + (length (tlv x) + length (tlvs (l ++ [a]))))); [|lia].
    rewrite E1, E2. cbn [mbind option_bind]. rewrite Nat2Z.id, <- Hlen.
    match goal with |- context [findFingerprintLoop _ _ _ _ ?s] =>
      specialize (IH fuel (pre ++ tlv x) s) end.
    rewrite length_app, <- !app_assoc in IH.
    rewrite Nat.add_assoc, IH by (simpl in Hf; lia).
    rewrite tlvs_cons, length_app. f_equal; lia.
Qed.

(** ** The type field *)

Lemma encodeType_val m c :
  fits 12 m ->
  encodeType m c
  = m mod 16 + 32 * (m / 16 mod 8) + 512 * (m / 128)
    + 16 * (class_val c mod 2) + 256 * (class_val c / 2).
Proof.
  intros Hm. unfold encodeType.
  rewrite (land_field m 4 0 15), (land_field m 3 4 112), (land_field m 5 7 3968),
    (land_field (class_val c) 1 0 1), (land_field (class_val c) 1 1 2) by (lia || done).
  rewrite !shiftl_mul by lia.
  assert (Hc : 0 <= class_val c < 4) by (destruct c; cbn; lia). width.
Qed.

Lemma decodeType_val t :
  fits 14 t ->
  decodeType t = (t mod 16 + 16 * (t / 32 mod 8) + 128 * (t / 512),
                  class_of (t / 16 mod 2 + 2 * (t / 256 mod 2))).
Proof.
  intros Ht. unfold decodeType.
  rewrite !shiftr_div by lia.
  rewrite (land_field _ 4 0 15), (land_field _ 3 4 112), (land_field _ 5 7 3968),
    (land_field _ 1 0 1), (land_field _ 1 1 2) by (lia || done).
  rewrite !Z.pow_0_r, !Z.div_1_r, !Z.mul_1_r. pow2_norm.
  assert (Hl : forall x y k, 0 <= k -> fits k x -> x |. (y * 2 ^ k) = y * 2 ^ k + x).
  { intros. rewrite Z.lor_comm, <- (lor_disjoint_add y x) by done. by rewrite shiftl_mul. }
  pose proof (Hl ((t / 16) mod 2) ((t / 128 / 2) mod 2) 1 ltac:(lia) ltac:(width)) as E1.
  pose proof (Hl (t mod 16) ((t / 2 / 16) mod 8) 4 ltac:(lia) ltac:(width)) as E2.
  pow2_norm.  rewrite E1, E2.
  pose proof (Hl ((t / 2 / 16) mod 8 * 16 + t mod 16) ((t / 4 / 128) mod 32) 7 ltac:(lia) ltac:(width)) as E3.
  pow2_norm. change (2^1) with 2 in *. rewrite E3. clear E1 E2 E3 Hl. f_equal; [width|]. f_equal. width.
Qed.

Lemma class_of_val c : class_of (class_val c) = c.
Proof. by destruct c. Qed.

Lemma class_val_of v : 0 <= v < 4 -> class_val (class_of v) = v.
Proof.
  intros Hv. unfold class_of. 
  destruct (Z.eqb_spec v 0), (Z.eqb_spec v 1), (Z.eqb_spec v 2); cbn [class_val]; lia.
Qed.

Lemma encodeType_decode m c :
  fits 12 m -> decodeType (encodeType m c) = (m, c) /\ fits 14 (encodeType m c).
Proof.
  intros Hm. rewrite (encodeType_val m c Hm).
  assert (Hc : 0 <= class_val c < 4) by (destruct c; cbn; lia).
  match goal with |- decodeType ?t = _ /\ _ => assert (Ht : fits 14 t) by width end.
  split; [|done]. rewrite decodeType_val by done. f_equal; [width|].
  trans (class_of (class_val c)); [f_equal; width|apply class_of_val].
Qed.

(** ** Framed messages *)

Lemma tlvs_length_mod4 l : Forall attr_ok l -> (length (tlvs l) mod 4 = 0)%nat.
Proof.
  induction 1 as [|a l Ha _ IH]; [done|]. rewrite tlvs_cons, length_app, tlv_length_ok by done.
  destruct (paddedLen_bounds (length (value a))) as [_ H4]; [destruct Ha as (_&?&_); width|]. lia.
Qed.

Lemma tlv_bytes a : attr_ok a -> bytes_ok (tlv a).
Proof.
  intros (_ & _ & Hb). unfold tlv. repeat apply bytes_ok_app; auto with stice.
Qed.

Lemma tlvs_bytes l : Forall attr_ok l -> bytes_ok (tlvs l).
Proof.
  induction 1 as [|a l Ha _ IH]; [constructor|]. rewrite tlvs_cons.
  apply bytes_ok_app; [by apply tlv_bytes|done].
Qed.

Lemma tlvs_count l : Forall attr_ok l -> (length l <= length (tlvs l))%nat.
Proof.
  induction 1 as [|a l Ha _ IH]; [done|]. rewrite tlvs_cons, length_app, tlv_length_ok by done.
  simpl. lia.
Qed.

(** What makes a frame one STUN message: the type has its top bits clear and the body fits
    the length field. *)
Record frame_ok (t : Z) (tid : bytes) (l : list Attribute) : Prop := {
  fo_type : fits 14 t;
  fo_tid : length tid = 12%nat /\ bytes_ok tid;
  fo_attrs : Forall attr_ok l;
  fo_size : Z.of_nat (length (tlvs l)) < 2 ^ 16;
}.

Section Frame.
Context (t : Z) (tid : bytes) (l : list Attribute) (Hok : frame_ok t tid l) (rest : bytes).

Lemma frame_hdr :
  frame t tid l = hdr t (Z.of_nat (length (tlvs l))) tid ++ tlvs l.
Proof. unfold frame. rewrite wrap_id; [done|]. destruct Hok. width. Qed.

Lemma frame_length : length (frame t tid l) = (20 + length (tlvs l))%nat.
Proof. rewrite frame_hdr, length_app, hdr_length; [done|]. apply Hok. Qed.

Lemma frame_read_type : readU16Be (frame t tid l ++ rest) 0 = Some t.
Proof.
  rewrite frame_hdr. unfold hdr. rewrite <- !app_assoc.
  apply (readU16Be_app_write []). destruct Hok. eapply fits_mono; [|done]. lia.
Qed.

Lemma frame_read_length :
  readU16Be (frame t tid l ++ rest) 2 = Some (Z.of_nat (length (tlvs l))).
Proof.
  rewrite frame_hdr. unfold hdr. rewrite <- !app_assoc.
  change 2%nat with (length (writeU16Be t)). apply readU16Be_app_write.
  destruct Hok. width.
Qed.

Lemma frame_read_cookie : readU32Be (frame t tid l ++ rest) 4 = Some MagicCookie.
Proof.
  rewrite frame_hdr. unfold hdr. rewrite <- !app_assoc.
  rewrite (app_assoc (writeU16Be t)).
  change 4%nat with (length (writeU16Be t ++ writeU16Be (Z.of_nat (length (tlvs l))))).
  by apply readU32Be_app_write.
Qed.

Lemma frame_read_tid : peek (frame t tid l ++ rest) 8 12 = Some tid.
Proof.
  rewrite frame_hdr. unfold hdr. rewrite <- !app_assoc.
  rewrite (app_assoc (writeU16Be t)), (app_assoc (writeU16Be t ++ _)).
  destruct Hok as [_ [Ht _] _ _]. rewrite <- Ht.
  change 8%nat with (length ((writeU16Be t ++ writeU16Be (Z.of_nat (length (tlvs l))))
                               ++ writeU32Be MagicCookie)).
  apply peek_app.
Qed.

Lemma frame_first_byte :
  exists b, (frame t tid l ++ rest) !! 0%nat = Some b /\ b &. 0xC0 = 0.
Proof.
  exists (u8 (t >>. 8)). split; [done|].
  destruct Hok as [Ht _ _ _].
  assert (Hb : u8 (t >>. 8) = t / 256) by (rewrite shiftr_div by lia; width). rewrite Hb.
  assert (H6 : fits 6 (t / 256)) by width.
  apply Z.bits_inj'. intros i Hi. rewrite Z.land_spec, Z.bits_0.
  destruct (decide (i < 6)) as [Hi6|].
  - assert (i = 0 \/ i = 1 \/ i = 2 \/ i = 3 \/ i = 4 \/ i = 5) as Hc by lia.
    repeat destruct Hc as [Hc|Hc]; subst i; apply andb_false_r.
  - by rewrite (fits_testbit 6) by (done || lia).
Qed.

Lemma frame_isMessage : isMessage (frame t tid l ++ rest) = Some true.
Proof.
  unfold isMessage. rewrite length_app, frame_length.
  destruct (Nat.ltb_spec (20 + length (tlvs l) + length rest) MessageHeaderSize);
    [unfold MessageHeaderSize in *; lia|].
  destruct frame_first_byte as (b & Eb & Hb). rewrite Eb. cbn [mbind option_bind].
  rewrite Hb, frame_read_cookie. cbn [mbind option_bind negb Z.eqb]. rewrite Z.eqb_refl.
  rewrite frame_read_length. cbn [mbind option_bind negb].
  assert (H4 : Z.of_nat (length (tlvs l)) &. 3 = 0).
  { rewrite (land_mask 2) by lia. pose proof (tlvs_length_mod4 l (fo_attrs _ _ _ Hok)). width. }
  rewrite H4, Nat2Z.id. cbn [negb Z.eqb].
  destruct (Nat.ltb_spec (20 + length (tlvs l) + length rest)
              (MessageHeaderSize + length (tlvs l))); [unfold MessageHeaderSize in *; lia|done].
Qed.

(** Decoding a frame, also when bytes of a later message follow it, gives back its type,
    transaction id and attributes. *)
Lemma decode_frame m :
  decode m (frame t tid l ++ rest)
  = Some (true, mkMessage (decodeType t).1 (decodeType t).2 tid l (frame t tid l ++ rest)).
Proof.
  unfold decode. rewrite length_app, frame_length.
  destruct (Nat.ltb_spec (20 + length (tlvs l) + length rest) MessageHeaderSize);
    [unfold MessageHeaderSize in *; lia|].
  rewrite frame_isMessage. cbn [mbind option_bind negb].
  rewrite frame_read_type, frame_read_length. cbn [mbind option_bind].
  destruct (decodeType t) as [me cl]. unfold TransactionIDSize; rewrite frame_read_tid. cbn [mbind option_bind].
  rewrite Nat2Z.id.
  destruct (Nat.ltb_spec (20 + length (tlvs l) + length rest)
              (MessageHeaderSize + length (tlvs l))); [unfold MessageHeaderSize in *; lia|].
  assert (Hh : length (hdr t (Z.of_nat (length (tlvs l))) tid) = MessageHeaderSize)
    by (apply hdr_length, Hok).
  pose proof (decodeAttrs_tlvs (S (MessageHeaderSize + length (tlvs l)))
                (hdr t (Z.of_nat (length (tlvs l))) tid) l rest [] (fo_attrs _ _ _ Hok)) as E.
  rewrite app_assoc, <- frame_hdr, Hh in E. rewrite E; [done|].
  pose proof (tlvs_count l (fo_attrs _ _ _ Hok)). lia.
Qed.

End Frame.

(** ** Encoded messages *)

(** The inputs of [encode] the wire format can carry: 12-bit method, 12-byte transaction
    id, 16-bit attribute types and lengths, and a body the length field can count. *)
Definition text_ok (s : bytes) : Prop := Z.of_nat (length s) < 2 ^ 16 /\ bytes_ok s.

Record enc_ok (m : Message) (password : option bytes) (creds : option Credentials)
    (software : option bytes) : Prop := {
  eo_method : fits 12 (method m);
  eo_tid : length (transactionID m) = 12%nat /\ bytes_ok (transactionID m);
  eo_attrs : Forall attr_ok (attributes m);
  eo_creds : match creds with
             | Some c => text_ok (cr_username c) /\ text_ok (cr_realm c) /\ text_ok (cr_nonce c)
             | None => True
             end;
  eo_software : match software with Some s => text_ok s | None => True end;
  eo_size : Z.of_nat (length (tlvs (wireAttrs m password creds software))) < 2 ^ 16;
}.

Lemma opt_attr_ok ty v : fits 16 ty -> text_ok v -> Forall attr_ok (opt_attr ty v).
Proof.
  intros Ht [Hl Hb]. unfold opt_attr. destruct (length v =? 0)%nat; [constructor|].
  constructor; [done|constructor].
Qed.

Lemma miAttr_ok t tid l key : attr_ok (miAttr t tid l key).
Proof.
  unfold miAttr, attr_ok. cbn [atype value].
  destruct (hmacSha1_ok key (hdr t (u16 (Z.of_nat (length (tlvs l) + 24))) tid ++ tlvs l))
    as [-> Hb]. done.
Qed.

Lemma fpAttr_ok t tid l : attr_ok (fpAttr t tid l).
Proof. unfold fpAttr, attr_ok. cbn [atype value]. split; [done|]. split; [done|]. apply writeU32Be_ok. Qed.

Section Encoded.
Context (m : Message) (password : option bytes) (creds : option Credentials)
  (software : option bytes) (Hok : enc_ok m password creds software).

Lemma encAttrs_ok : Forall attr_ok (encAttrs m password creds software).
Proof.
  destruct Hok as [_ _ Ha Hc Hs _]. unfold encAttrs. repeat apply Forall_app_2; [|done|].
  - unfold credAttrs. destruct creds as [c|], password; try constructor.
    destruct (decide (cls m = Indication)); [constructor|]. destruct Hc as (? & ? & ?).
    repeat apply Forall_app_2; by apply opt_attr_ok.
  - unfold softAttrs. destruct software; [by apply opt_attr_ok|constructor].
Qed.

Lemma encAttrsMi_ok : Forall attr_ok (encAttrsMi m password creds software).
Proof.
  unfold encAttrsMi. pose proof encAttrs_ok. destruct password; [|done].
  destruct (decide (cls m = Indication)); [done|].
  apply Forall_app_2; [done|]. constructor; [apply miAttr_ok|constructor].
Qed.

Lemma wireAttrs_ok : Forall attr_ok (wireAttrs m password creds software).
Proof.
  unfold wireAttrs. apply Forall_app_2; [apply encAttrsMi_ok|].
  constructor; [apply fpAttr_ok|constructor].
Qed.

Lemma encode_frame_ok :
  frame_ok (encodeType (method m) (cls m)) (transactionID m) (wireAttrs m password creds software).
Proof.
  destruct Hok as [Hm Ht Ha Hc Hs Hz]. constructor; [by apply encodeType_decode|done| |done].
  apply wireAttrs_ok.
Qed.

Lemma text_ok_sized s : text_ok s -> sized s.
Proof. intros [H _]. unfold sized. width. Qed.

Lemma enc_ok_sized : enc_sized m creds software.
Proof.
  destruct Hok as [_ _ Ha Hc Hs _]. split; [|split].
  - eapply Forall_impl; [done|]. apply attr_ok_sized.
  - destruct creds; [|done]. destruct Hc as (? & ? & ?). auto using text_ok_sized.
  - destruct software; [|done]. by apply text_ok_sized.
Qed.

Lemma encode_ok :
  encode m password creds software
  = Some (mkMessage (method m) (cls m) (transactionID m) (attributes m)
            (frame (encodeType (method m) (cls m)) (transactionID m)
               (wireAttrs m password creds software))).
Proof. apply encode_frame; [apply Hok|apply enc_ok_sized]. Qed.

End Encoded.

(** The checks on a frame. *)
Section Checks.
Context (t : Z) (tid : bytes).

(** The frame cut before the TLV of [a], its length field patched to [n]. *)
Lemma frame_prefix l1 a l2 n :
  frame_ok t tid (l1 ++ a :: l2) ->
  (copy ← peek (frame t tid (l1 ++ a :: l2)) 0 (20 + length (tlvs l1));
   poke copy 2 (writeU16Be n)) = Some (hdr t n tid ++ tlvs l1).
Proof.
  intros Hf. rewrite (frame_hdr _ _ _ Hf), tlvs_app, app_assoc.
  set (L := Z.of_nat _). destruct Hf as [_ [Ht _] _ _].
  replace (20 + length (tlvs l1))%nat with (length (hdr t L tid ++ tlvs l1))
    by (rewrite length_app, hdr_length; done).
  pose proof (peek_app [] (hdr t L tid ++ tlvs l1) (tlvs (a :: l2))) as E.
  cbn [app length] in E. rewrite E. cbn [mbind option_bind]. apply poke_length.
Qed.

(** The value bytes of [a] in the frame. *)
Lemma frame_value l1 a l2 :
  frame_ok t tid (l1 ++ a :: l2) ->
  peek (frame t tid (l1 ++ a :: l2)) (20 + length (tlvs l1) + 4) (length (value a)) = Some (value a).
Proof.
  intros Hf. rewrite (frame_hdr _ _ _ Hf), tlvs_app, app_assoc, tlvs_cons.
  set (L := Z.of_nat _). destruct Hf as [_ [Ht _] Ha _].
  replace (20 + length (tlvs l1))%nat with (length (hdr t L tid ++ tlvs l1))
    by (rewrite length_app, hdr_length; done).
  apply Forall_app in Ha as [_ Ha]. apply Forall_cons in Ha as [Ha _].
  by apply (tlv_read (hdr t L tid ++ tlvs l1) a (tlvs l2)).
Qed.

Lemma frame_findIntegrity l1 a l2 :
  frame_ok t tid (l1 ++ a :: l2) -> atype a = AttrType.MessageIntegrity ->
  Forall (fun x => atype x <> AttrType.MessageIntegrity) l1 ->
  findIntegrityOffset (frame t tid (l1 ++ a :: l2))
  = Some ((20 + length (tlvs l1) + 4)%nat, (20 + length (tlvs l1))%nat).
Proof.
  intros Hf Ha Hne. unfold findIntegrityOffset.
  pose proof (frame_read_length _ _ _ Hf []) as E. rewrite app_nil_r in E. rewrite E.
  cbn [mbind option_bind]. rewrite Nat2Z.id, (frame_hdr _ _ _ Hf).
  destruct Hf as [_ [Ht _] Hl _]. set (L := Z.of_nat _).
  pose proof (tlvs_count _ Hl) as Hn. rewrite length_app in Hn. simpl in Hn.
  apply Forall_app in Hl as [Hl1 Hl2]. apply Forall_cons in Hl2 as [Hok _].
  pose proof (findIntegrityLoop_tlvs (S (20 + length (tlvs (l1 ++ a :: l2)))) (hdr t L tid)
                l1 a l2 [] 0 Hl1 Hok Ha Hne) as E'.
  rewrite app_nil_r, (hdr_length t L tid Ht) in E'. apply E'. lia.
Qed.

(** A message passes the integrity check exactly when its MESSAGE-INTEGRITY is the HMAC of
    what precedes it; what follows has no influence. *)
Lemma checkIntegrity_frame l1 a l2 key am m :
  frame_ok t tid (l1 ++ a :: l2) -> atype a = AttrType.MessageIntegrity ->
  length (value a) = 20%nat ->
  Forall (fun x => atype x <> AttrType.MessageIntegrity) l1 ->
  raw m = frame t tid (l1 ++ a :: l2) ->
  checkIntegrity m key am = Some (bool_decide (value (miAttr t tid l1 key) = value a)).
Proof.
  intros Hf Ha Hv Hne Hraw. unfold checkIntegrity. rewrite Hraw.
  rewrite frame_findIntegrity by done. cbn [mbind option_bind].
  destruct (Nat.eqb_spec (20 + length (tlvs l1) + 4) 0); [lia|].
  assert (Hlen : (20 + length (tlvs l1) + 24 <= length (frame t tid (l1 ++ a :: l2)))%nat).
  { rewrite (frame_length _ _ _ Hf), tlvs_app, tlvs_cons, !length_app.
    destruct Hf as [_ _ Hl _]. apply Forall_app in Hl as [_ Hl]. apply Forall_cons in Hl as [Hl _].
    rewrite tlv_length_ok, Hv by done.
    destruct (paddedLen_bounds 20) as [Hp _]; [width|]. lia. }
  unfold HmacSha1Size.
  destruct (Nat.ltb_spec (length (frame t tid (l1 ++ a :: l2)))
              (20 + length (tlvs l1) + 4 + 20)); [lia|].
  rewrite <- bind_assoc, frame_prefix by done. cbn [mbind option_bind].
  pose proof (frame_value l1 a l2 Hf) as Ev. rewrite Hv in Ev. rewrite Ev.
  cbn [mbind option_bind].
  replace (20 + length (tlvs l1) - MessageHeaderSize + AttributeHeaderSize + 20)%nat
    with (length (tlvs l1) + 24)%nat by (unfold MessageHeaderSize, AttributeHeaderSize; lia).
  done.
Qed.

(** A message that ends in its FINGERPRINT passes the check. *)
Lemma checkFingerprint_frame l am m :
  frame_ok t tid (l ++ [fpAttr t tid l]) ->
  raw m = frame t tid (l ++ [fpAttr t tid l]) -> checkFingerprint m am = Some true.
Proof.
  intros Hf Hraw. unfold checkFingerprint. rewrite Hraw.
  pose proof (frame_read_length _ _ _ Hf []) as E. rewrite app_nil_r in E. rewrite E.
  cbn [mbind option_bind]. rewrite Nat2Z.id.
  pose proof (frame_value l (fpAttr t tid l) [] Hf) as Ev.
  pose proof (frame_length _ _ _ Hf) as Hlen.
  assert (Hpre : forall n, (copy ← peek (frame t tid (l ++ [fpAttr t tid l])) 0
            (20 + length (tlvs l)); poke copy 2 (writeU16Be n)) = Some (hdr t n tid ++ tlvs l))
    by (intros n; by apply frame_prefix).
  assert (Efind : findFingerprintLoop (S (MessageHeaderSize + length (tlvs (l ++ [fpAttr t tid l]))))
            (frame t tid (l ++ [fpAttr t tid l])) MessageHeaderSize
            (MessageHeaderSize + length (tlvs (l ++ [fpAttr t tid l]))) 0
            = Some (20 + length (tlvs l))%nat).
  { rewrite (frame_hdr _ _ _ Hf). destruct Hf as [_ [Ht _] Hl _]. set (L := Z.of_nat _).
    pose proof (tlvs_count _ Hl) as Hn. rewrite length_app in Hn. simpl in Hn.
    apply Forall_app in Hl as [Hl _].
    pose proof (findFingerprintLoop_tlvs (S (20 + length (tlvs (l ++ [fpAttr t tid l]))))
      (hdr t L tid) l (fpAttr t tid l) [] 0 Hl (fpAttr_ok t tid l) eq_refl) as E'.
    rewrite app_nil_r, (hdr_length t L tid Ht) in E'. apply E'. lia. }
  rewrite Efind. cbn [mbind option_bind].
  destruct (Nat.eqb_spec (20 + length (tlvs l)) 0); [lia|].
  assert (H4 : (20 + length (tlvs l) + 4 + 4 <= length (frame t tid (l ++ [fpAttr t tid l])))%nat).
  { rewrite Hlen, tlvs_app, tlvs_one, length_app, (tlv_length_ok _ (fpAttr_ok t tid l)). simpl.
    destruct (paddedLen_bounds 4) as [Hp _]; [width|]. lia. }
  unfold AttributeHeaderSize.
  destruct (Nat.ltb_spec (length (frame t tid (l ++ [fpAttr t tid l])))
              (20 + length (tlvs l) + 4 + 4)); [lia|].
  rewrite <- bind_assoc, Hpre. cbn [mbind option_bind].
  replace (20 + length (tlvs l) - MessageHeaderSize + 4 + 4)%nat
    with (length (tlvs l) + 8)%nat by (unfold MessageHeaderSize; lia).
  rewrite (peek_readU32Be _ _ _ Ev). unfold fpAttr; cbn [value].
  set (c := crc32 _). assert (Hc : fits 32 c).
  { destruct Hf as [_ [_ Ht] Hl _]. apply Forall_app in Hl as [Hl _].
    apply crc32_fits. unfold hdr. repeat apply bytes_ok_app; auto using tlvs_bytes with stice. }
  rewrite readU32Be_write by (apply fits_lxor; [lia|done|unfold FingerprintXor; width]). cbn [mbind option_bind].
  by rewrite lxor_cancel, Z.eqb_refl.
Qed.

End Checks.

(** ** Arbitrary input *)

(** An early return of [false] makes no promise. *)
Ltac early_return :=
  solve [eexists; split; [reflexivity|congruence]
        | do 2 eexists; split; [reflexivity|congruence]].

Section Safety.
Context (data : bytes) (Hb : bytes_ok data).

Lemma data_slice n off : bytes_ok (take n (drop off data)).
Proof. by apply Forall_take, Forall_drop. Qed.

(** The loop stays inside the buffer and ends: the distance to [end_] shrinks by the
    header each turn. *)
Lemma decodeAttrs_total fuel offset end_ acc :
  (end_ <= length data)%nat -> (end_ < offset + fuel)%nat -> (0 < fuel)%nat ->
  Forall attr_ok acc ->
  exists b l, decodeAttrs fuel data offset end_ acc = Some (b, l) /\ Forall attr_ok l.
Proof.
  intros Hend. revert offset acc. induction fuel as [|fuel IH]; intros offset acc Hf H0 Hacc; [lia|].
  cbn [decodeAttrs]. unfold AttributeHeaderSize.
  destruct (Nat.leb_spec (offset + 4) end_) as [Hle|]; [|by eauto].
  destruct (readU16Be_inb data offset Hb) as (ty & -> & Hty); [lia|].
  destruct (readU16Be_inb data (offset + 2) Hb) as (vl & -> & Hvl); [lia|].
  cbn [mbind option_bind].
  destruct (Nat.ltb_spec end_ (offset + 4 + Z.to_nat vl)); [by eauto|].
  rewrite peek_inb by lia. cbn [mbind option_bind].
  apply IH; [lia|lia|]. apply Forall_app_2; [done|]. constructor; [|constructor].
  split; [done|]. cbn [value]. rewrite length_take, length_drop.
  split; [width|apply data_slice].
Qed.

Lemma isMessage_total :
  exists b, isMessage data = Some b /\
    (b = true -> exists n, readU16Be data 2 = Some n /\ fits 16 n /\
                           (20 + Z.to_nat n <= length data)%nat).
Proof.
  unfold isMessage, MessageHeaderSize.
  destruct (Nat.ltb_spec (length data) 20) as [|Hl]; [early_return|].
  destruct (lookup_lt_is_Some_2 data 0) as [d0 ->]; [lia|]. cbn [mbind option_bind].
  destruct (negb _); [early_return|].
  destruct (readU32Be_inb data 4) as (ck & -> & _); [lia|]. cbn [mbind option_bind].
  destruct (negb _); [early_return|].
  destruct (readU16Be_inb data 2 Hb) as (n & -> & Hn); [lia|]. cbn [mbind option_bind].
  destruct (negb _); [early_return|].
  destruct (Nat.ltb_spec (length data) (20 + Z.to_nat n)); [early_return|].
  eexists. split; [done|]. eauto.
Qed.

Lemma findIntegrityLoop_total fuel offset end_ st :
  (end_ <= length data)%nat -> (end_ < offset + fuel)%nat -> (0 < fuel)%nat -> (20 <= offset)%nat ->
  exists v a, findIntegrityLoop fuel data offset end_ st = Some (v, a) /\
    (v <> 0%nat -> v = (a + 4)%nat /\ (20 <= a)%nat /\ (a + 4 <= end_)%nat).
Proof.
  intros Hend. revert offset st. induction fuel as [|fuel IH]; intros offset st Hf H0 Hge; [lia|].
  cbn [findIntegrityLoop]. unfold AttributeHeaderSize.
  destruct (Nat.leb_spec (offset + 4) end_) as [Hle|];
    [|do 2 eexists; split; [done|]; intros Hv; by destruct Hv].
  destruct (readU16Be_inb data offset Hb) as (ty & -> & _); [lia|].
  destruct (readU16Be_inb data (offset + 2) Hb) as (vl & -> & _); [lia|].
  cbn [mbind option_bind].
  destruct (ty =? AttrType.MessageIntegrity); [|apply IH; lia].
  do 2 eexists; split; [done|]. lia.
Qed.

Lemma findFingerprintLoop_total fuel offset end_ st :
  (end_ <= length data)%nat -> (end_ < offset + fuel)%nat -> (0 < fuel)%nat -> (20 <= offset)%nat ->
  (st = 0 \/ 20 <= st /\ st + 4 <= length data)%nat ->
  exists v, findFingerprintLoop fuel data offset end_ st = Some v /\
    (v = 0 \/ 20 <= v /\ v + 4 <= length data)%nat.
Proof.
  intros Hend. revert offset st.
  induction fuel as [|fuel IH]; intros offset st Hf H0 Hge Hst; [lia|].
  cbn [findFingerprintLoop]. unfold AttributeHeaderSize.
  destruct (Nat.leb_spec (offset + 4) end_) as [Hle|]; [|by eauto].
  destruct (readU16Be_inb data offset Hb) as (ty & -> & _); [lia|].
  destruct (readU16Be_inb data (offset + 2) Hb) as (vl & -> & _); [lia|].
  cbn [mbind option_bind]. apply IH; [lia|lia|lia|].
  destruct (ty =? AttrType.Fingerprint); lia.
Qed.

(** The prefix both checks copy and patch. *)
Lemma prefix_copy_total a n :
  (20 <= a)%nat -> (a <= length data)%nat ->
  exists c, (copy ← peek data 0 a; poke copy 2 (writeU16Be n)) = Some c.
Proof.
  intros H20 Ha. rewrite peek_inb by lia. cbn [mbind option_bind]. unfold poke.
  rewrite length_take, length_drop, length_writeU16Be.
  destruct (Nat.leb_spec (2 + 2) (a `min` (length data - 0))); [by eauto|lia].
Qed.

Lemma checkIntegrity_total n m key am :
  raw m = data -> readU16Be data 2 = Some n -> (20 + Z.to_nat n <= length data)%nat ->
  is_Some (checkIntegrity m key am).
Proof.
  intros Hraw Hn Hlen. unfold checkIntegrity, findIntegrityOffset. rewrite Hraw, Hn.
  cbn [mbind option_bind]. unfold MessageHeaderSize.
  destruct (findIntegrityLoop_total (S (20 + Z.to_nat n)) 20 (20 + Z.to_nat n) 0)
    as (v & a & -> & Hv); [lia..|]. cbn [mbind option_bind].
  destruct (Nat.eqb_spec v 0) as [|Hv0]; [done|]. destruct (Hv Hv0) as (-> & H20 & H4).
  destruct (Nat.ltb_spec (length data) (a + 4 + HmacSha1Size)) as [|Hs]; [done|].
  rewrite <- bind_assoc.
  destruct (prefix_copy_total a
    (u16 (Z.of_nat (a - 20 + AttributeHeaderSize + HmacSha1Size)))) as [c ->]; [lia..|].
  cbn [mbind option_bind]. rewrite peek_inb by done. done.
Qed.

Lemma checkFingerprint_total n m am :
  raw m = data -> readU16Be data 2 = Some n -> (20 + Z.to_nat n <= length data)%nat ->
  is_Some (checkFingerprint m am).
Proof.
  intros Hraw Hn Hlen. unfold checkFingerprint. rewrite Hraw, Hn.
  cbn [mbind option_bind]. unfold MessageHeaderSize, AttributeHeaderSize.
  destruct (findFingerprintLoop_total (S (20 + Z.to_nat n)) 20 (20 + Z.to_nat n) 0)
    as (v & -> & Hv); [lia..|]. cbn [mbind option_bind].
  destruct (Nat.eqb_spec v 0) as [|Hv0]; [done|].
  destruct (Nat.ltb_spec (length data) (v + 4 + 4)) as [|Hs]; [done|].
  rewrite <- bind_assoc.
  destruct (prefix_copy_total v (u16 (Z.of_nat (v - 20 + 4 + 4)))) as [c ->]; [lia..|].
  cbn [mbind option_bind]. destruct (readU32Be_inb data (v + 4)) as (fp & -> & _); [lia|]. done.
Qed.

End Safety.

(** [decode] on any byte string. *)
Lemma decode_total (m : Message) (data : bytes) :
  bytes_ok data ->
  exists b m', decode m data = Some (b, m') /\
    (b = true -> raw m' = data /\
       (length (transactionID m') = 12%nat /\ bytes_ok (transactionID m')) /\
       Forall attr_ok (attributes m') /\
       (forall key am, is_Some (checkIntegrity m' key am)) /\
       (forall am, is_Some (checkFingerprint m' am))).
Proof.
  intros Hb. unfold decode. unfold MessageHeaderSize.
  destruct (Nat.ltb_spec (length data) 20) as [|Hl]; [early_return|].
  destruct (isMessage_total data Hb) as ([] & -> & Hm); cbn [mbind option_bind negb]; [|early_return].
  destruct (Hm eq_refl) as (n & En & Hn & Hlen).
  destruct (readU16Be_inb data 0 Hb) as (ty & -> & Hty); [lia|]. rewrite En.
  cbn [mbind option_bind]. destruct (decodeType ty) as [me cl].
  unfold TransactionIDSize. rewrite peek_inb by lia. cbn [mbind option_bind].
  destruct (Nat.ltb_spec (length data) (20 + Z.to_nat n)); [early_return|].
  destruct (decodeAttrs_total data Hb (S (20 + Z.to_nat n)) 20 (20 + Z.to_nat n) [])
    as (b & l & -> & Hattrs); [lia..|constructor|]. cbn [mbind option_bind fst snd].
  do 2 eexists. split; [done|]. intros ->. cbn [raw transactionID attributes].
  split; [done|].
  split; [split; [rewrite length_take, length_drop; lia|by apply data_slice]|]. split; [done|].
  split; intros; [by eapply checkIntegrity_total | by eapply checkFingerprint_total].
Qed.

(** ** Properties *)

(** The 16-bit type field is a bijection between (method, class) pairs and the values
    whose two top bits are clear: packing then unpacking gives the 12-bit method and the
    class back, and unpacking then packing gives the field back. *)
Theorem type_field_bijection (m t : Z) (c : Class_) :
  (fits 12 m -> decodeType (encodeType m c) = (m, c) /\ fits 14 (encodeType m c)) /\
  (fits 14 t -> encodeType (decodeType t).1 (decodeType t).2 = t /\ fits 12 (decodeType t).1).
Proof.
  split; [apply encodeType_decode|]. intros Ht.
  rewrite (decodeType_val t Ht). cbn [fst snd]. split; [|width].
  rewrite encodeType_val, class_val_of by width. width.
Qed.

(** C20: every datagram can be handed to the codec.  [decode] terminates on any byte string
    without reading outside it, and so do both checks on whatever it accepts; an accepted
    message keeps the bytes it was decoded from and its attributes are well formed. *)
Theorem decode_safe (m : Message) (data key : bytes) (am : bool) :
  bytes_ok data ->
  exists b m', decode m data = Some (b, m') /\
    (b = true -> raw m' = data /\ length (transactionID m') = 12%nat /\
                 Forall attr_ok (attributes m') /\
                 is_Some (checkIntegrity m' key am) /\ is_Some (checkFingerprint m' am)).
Proof.
  intros Hb. destruct (decode_total m data Hb) as (b & m' & Ed & H). exists b, m'.
  split; [done|]. intros Hb'. destruct (H Hb') as (H1 & [H2 _] & H3 & H4 & H5). auto 6.
Qed.

Lemma decode_safe_witness :
  exists b m', decode emptyMessage [0; 1; 0; 0] = Some (b, m') /\
    (b = true -> raw m' = [0; 1; 0; 0] /\ length (transactionID m') = 12%nat /\
                 Forall attr_ok (attributes m') /\
                 is_Some (checkIntegrity m' [] false) /\ is_Some (checkFingerprint m' false)).
Proof. apply decode_safe. repeat constructor; vm_compute; congruence. Defined.

(** C19: the codec round trip.  [encode] succeeds on every message the wire format can carry
    and [decode] of its bytes, also with the bytes of a following packet behind them,
    returns the same method, class and transaction id and exactly the attributes written:
    the credentials, the message's own in order, SOFTWARE, MESSAGE-INTEGRITY and
    FINGERPRINT. *)
Theorem encode_decode_roundtrip m password creds software (m0 : Message) (rest : bytes) :
  enc_ok m password creds software ->
  exists m', encode m password creds software = Some m' /\
    decode m0 (raw m' ++ rest)
    = Some (true, mkMessage (method m) (cls m) (transactionID m)
                    (wireAttrs m password creds software) (raw m' ++ rest)).
Proof.
  intros Hok. eexists. split; [by apply encode_ok|]. cbn [raw].
  rewrite decode_frame by (by apply encode_frame_ok).
  by rewrite (proj1 (encodeType_decode _ _ (eo_method _ _ _ _ Hok))).
Qed.

(** A Binding request with a USERNAME attribute. *)
Definition sampleRequest : Message :=
  mkMessage Method.Binding Request [1;2;3;4;5;6;7;8;9;10;11;12]
    [mkAttr AttrType.Username (bytes_of_string "evtj:h6vY");
     mkAttr AttrType.Priority [0x6e; 0x00; 0x01; 0xff]] [].

Lemma sampleRequest_ok :
  enc_ok sampleRequest (Some (bytes_of_string "VOkJxbRl1RmTxUk")) None (Some (bytes_of_string "stice")).
Proof.
  constructor; [by vm_compute| | |done| |by vm_compute].
  - split; [done|]. by apply (bool_decide_unpack _), I.
  - by apply (bool_decide_unpack _), I.
  - by apply (bool_decide_unpack _), I.
Qed.

Lemma encode_decode_roundtrip_witness :
  exists m', encode sampleRequest (Some (bytes_of_string "VOkJxbRl1RmTxUk")) None
               (Some (bytes_of_string "stice")) = Some m' /\
    decode emptyMessage (raw m' ++ [0x40; 0; 0; 0])
    = Some (true, mkMessage Method.Binding Request [1;2;3;4;5;6;7;8;9;10;11;12]
                    (wireAttrs sampleRequest (Some (bytes_of_string "VOkJxbRl1RmTxUk")) None
                       (Some (bytes_of_string "stice"))) (raw m' ++ [0x40; 0; 0; 0])).
Proof.
  exact (encode_decode_roundtrip sampleRequest (Some (bytes_of_string "VOkJxbRl1RmTxUk")) None
           (Some (bytes_of_string "stice")) emptyMessage [0x40; 0; 0; 0] sampleRequest_ok).
Defined.

(** Nothing before MESSAGE-INTEGRITY is one, so the check looks at the one [encode] wrote. *)
Lemma encAttrs_no_integrity m password creds software :
  Forall (fun a => atype a <> AttrType.MessageIntegrity) (attributes m) ->
  Forall (fun a => atype a <> AttrType.MessageIntegrity) (encAttrs m password creds software).
Proof.
  intros Hne. unfold encAttrs. repeat apply Forall_app_2; [|done|].
  - unfold credAttrs, opt_attr. destruct creds, password; try constructor.
    destruct (decide (cls m = Indication)); [constructor|].
    repeat apply Forall_app_2; (destruct (_ =? _)%nat; [constructor|by repeat constructor]).
  - unfold softAttrs, opt_attr. destruct software; [|constructor].
    destruct (_ =? _)%nat; [constructor|by repeat constructor].
Qed.

Lemma checkIntegrity_encoded m pw creds software m1 key am :
  enc_ok m (Some pw) creds software -> cls m <> Indication ->
  Forall (fun a => atype a <> AttrType.MessageIntegrity) (attributes m) ->
  raw m1 = frame (encodeType (method m) (cls m)) (transactionID m) (wireAttrs m (Some pw) creds software) ->
  let signed k := value (miAttr (encodeType (method m) (cls m)) (transactionID m)
                           (encAttrs m (Some pw) creds software) k) in
  checkIntegrity m1 key am = Some (bool_decide (signed key = signed (integrityKey pw creds))).
Proof.
  intros Hok Hc Hne Hraw signed. pose proof (encode_frame_ok _ _ _ _ Hok) as Hf.
  set (t := encodeType (method m) (cls m)) in *. set (l := encAttrs m (Some pw) creds software).
  assert (Hw : wireAttrs m (Some pw) creds software
               = l ++ miAttr t (transactionID m) l (integrityKey pw creds)
                   :: [fpAttr t (transactionID m) (l ++ [miAttr t (transactionID m) l (integrityKey pw creds)])]).
  { unfold wireAttrs, encAttrsMi. destruct (decide (cls m = Indication)); [done|].
    fold l t. by rewrite <- app_assoc. }
  rewrite Hw in *. eapply checkIntegrity_frame; [exact Hf | done | apply hmacSha1_ok | | exact Hraw].
  by apply encAttrs_no_integrity.
Qed.

(** What [encode] signs, the checks accept.  The encoded message passes
    [checkFingerprint]; when it was encoded with a password, is not an indication and
    carries no MESSAGE-INTEGRITY of the caller's own, it passes [checkIntegrity] with the
    key [encode] used, and with any other key exactly when the two HMACs collide. *)
Theorem encode_passes_checks m password creds software m' (key : bytes) (am : bool) :
  enc_ok m password creds software -> encode m password creds software = Some m' ->
  checkFingerprint m' am = Some true /\
  (forall pw, password = Some pw -> cls m <> Indication ->
     Forall (fun a => atype a <> AttrType.MessageIntegrity) (attributes m) ->
     checkIntegrity m' (integrityKey pw creds) am = Some true /\
     let signed := value (miAttr (encodeType (method m) (cls m)) (transactionID m)
                            (encAttrs m password creds software) (integrityKey pw creds)) in
     checkIntegrity m' key am
     = Some (bool_decide (value (miAttr (encodeType (method m) (cls m)) (transactionID m)
                                   (encAttrs m password creds software) key) = signed))).
Proof.
  intros Hok E. pose proof (encode_frame_ok _ _ _ _ Hok) as Hf.
  rewrite encode_ok in E by done. injection E as <-. split.
  { eapply checkFingerprint_frame; [exact Hf|done]. }
  intros pw -> Hc Hne.
  split; [|by apply checkIntegrity_encoded]. erewrite checkIntegrity_encoded by done.
  by rewrite bool_decide_eq_true_2.
Qed.

Lemma encode_passes_checks_witness :
  exists m', encode sampleRequest (Some (bytes_of_string "VOkJxbRl1RmTxUk")) None
               (Some (bytes_of_string "stice")) = Some m' /\
  checkFingerprint m' false = Some true /\
  checkIntegrity m' (bytes_of_string "VOkJxbRl1RmTxUk") false = Some true.
Proof.
  eexists. split; [apply (encode_ok _ _ _ _ sampleRequest_ok)|].
  destruct (encode_passes_checks sampleRequest (Some (bytes_of_string "VOkJxbRl1RmTxUk")) None
              (Some (bytes_of_string "stice")) _ [] false sampleRequest_ok
              (encode_ok _ _ _ _ sampleRequest_ok)) as [H1 H2].
  split; [exact H1|].
  apply (H2 (bytes_of_string "VOkJxbRl1RmTxUk")); [reflexivity|discriminate|].
  repeat constructor; discriminate.
Defined.

(** MESSAGE-INTEGRITY protects only what precedes it.  For every message that passes
    the integrity check, inserting any attributes behind its MESSAGE-INTEGRITY (and
    adjusting the unprotected length field) gives a message that still passes with the
    same key and whose decoded attribute list contains the insertions: nothing between
    [decode], [find] and the handlers drops attributes that follow MESSAGE-INTEGRITY. *)
Theorem trailing_attributes_unprotected t tid l1 mi extra (key : bytes) m m0 :
  frame_ok t tid (l1 ++ mi :: extra) -> frame_ok t tid (l1 ++ [mi]) ->
  atype mi = AttrType.MessageIntegrity -> length (value mi) = 20%nat ->
  Forall (fun a => atype a <> AttrType.MessageIntegrity) l1 ->
  raw m = frame t tid (l1 ++ [mi]) -> checkIntegrity m key false = Some true ->
  exists m', decode m0 (frame t tid (l1 ++ mi :: extra)) = Some (true, m') /\
    checkIntegrity m' key false = Some true /\ attributes m' = l1 ++ mi :: extra.
Proof.
  intros Hf Hf' Hmi Hv Hne Hraw Hc.
  pose proof (decode_frame _ _ _ Hf [] m0) as E. rewrite app_nil_r in E.
  eexists. split; [exact E|]. split; [|done].
  rewrite (checkIntegrity_frame t tid l1 mi []) in Hc by done.
  by rewrite (checkIntegrity_frame t tid l1 mi extra) by done.
Qed.

(** A signed request with an XOR-PEER-ADDRESS slipped in behind its signature. *)
Definition sampleSigned : list Attribute :=
  [mkAttr AttrType.Username (bytes_of_string "u")].
Definition sampleTid : bytes := [1;2;3;4;5;6;7;8;9;10;11;12].
Definition sampleMi : Attribute := miAttr (encodeType Method.CreatePermission Request) sampleTid
                                     sampleSigned (bytes_of_string "key").
Definition sampleExtra : list Attribute :=
  [mkAttr AttrType.XorPeerAddress [0; 1; 0x21; 0x12; 0x21; 0x12; 0xA4; 0x42]].

Lemma sample_frame_ok l :
  bool_decide (Forall attr_ok l) = true -> (Z.of_nat (length (tlvs l)) <? 65536) = true ->
  frame_ok (encodeType Method.CreatePermission Request) sampleTid l.
Proof.
  intros Hl Hn. apply bool_decide_eq_true in Hl. apply Z.ltb_lt in Hn.
  constructor; [by vm_compute| |done|done].
  split; [done|]. by apply (bool_decide_unpack _), I.
Qed.

Lemma trailing_attributes_unprotected_witness :
  exists m', decode emptyMessage (frame (encodeType Method.CreatePermission Request) sampleTid
               (sampleSigned ++ sampleMi :: sampleExtra)) = Some (true, m') /\
    checkIntegrity m' (bytes_of_string "key") false = Some true /\
    attributes m' = sampleSigned ++ sampleMi :: sampleExtra.
Proof.
  apply (trailing_attributes_unprotected (encodeType Method.CreatePermission Request) sampleTid
           sampleSigned sampleMi sampleExtra (bytes_of_string "key")
           (mkMessage Method.CreatePermission Request sampleTid []
              (frame (encodeType Method.CreatePermission Request) sampleTid
                 (sampleSigned ++ [sampleMi])))).
  - apply sample_frame_ok; vm_compute; reflexivity.
  - apply sample_frame_ok; vm_compute; reflexivity.
  - reflexivity.
  - vm_compute; reflexivity.
  - repeat constructor; discriminate.
  - reflexivity.
  - vm_compute; reflexivity.
Defined.
