(* ===== verification/StunAttributes.v ===== *)
(** * STUN attribute helpers (include/stice/stun/attributes.hpp, src/stun/attributes.cpp)

    The typed attributes on top of [StunMessage]: XOR-encoded and plain addresses, the
    integer attributes, ERROR-CODE and the text attributes.  A reader has the type
    [option (option A)]: the outer [None] is an access outside the value, the inner one the
    [false] of the source, which leaves the output argument as it was.

    [WireAttr] is what an attribute helper promises to the rest of the program; the wire
    theorem is proved once against it and every pair of helpers is an instance. *)

From S2P Require Import Prelude.
From S2P Require Import Bytes.
From S2P Require Import Crypto.
From S2P Require Import Addr.
From S2P Require Import StunMessage.
Open Scope Z_scope.
Open Scope c_scope.

(** ** Addresses *)

(** The 16 bits [xport ^= mask[0] << 8 | mask[1]] works with. *)
Definition maskPort (mask : bytes) : Z := u16 (at_ mask 0 <<. 8) |. at_ mask 1.

(** The bytes of a vector resized and filled front to back. *)
Definition encodeXorAddr (rec : AddrRecord) (tid : bytes) : bytes :=
  let mask := xorMask tid in
  match addr rec with
  | SockIn port ip =>
      let xport := u16 (port ^. maskPort mask) in
      [0; FamilyIPv4; u8 (xport >>. 8); u8 (xport &. 0xFF)] ++ zip_with Z.lxor ip (take 4 mask)
  | SockIn6 port ip =>
      let xport := u16 (port ^. maskPort mask) in
      [0; FamilyIPv6; u8 (xport >>. 8); u8 (xport &. 0xFF)] ++ zip_with Z.lxor ip (take 16 mask)
  | SockOther _ => []
  end.

Definition decodeXorAddr (value : bytes) (tid : bytes) : option (option AddrRecord) :=
  if (length value <? 4)%nat then Some None else
  family ← value !! 1%nat;
  let mask := xorMask tid in
  xport ← readU16Be value 2;
  let port := u16 (xport ^. maskPort mask) in
  if family =? FamilyIPv4 then
    if (length value <? 8)%nat then Some None else
    ip ← peek value 4 4;
    Some (Some (mkAddrRecord (SockIn port (zip_with Z.lxor ip (take 4 mask)))
                  sizeof_sockaddr_in SOCK_DGRAM))
  else if family =? FamilyIPv6 then
    if (length value <? 20)%nat then Some None else
    ip ← peek value 4 16;
    Some (Some (mkAddrRecord (SockIn6 port (zip_with Z.lxor ip (take 16 mask)))
                  sizeof_sockaddr_in6 SOCK_DGRAM))
  else Some None.

Definition writeXorAddress (msg : Message) (type : Z) (a : AddrRecord) (tid : bytes)
    : bool * Message :=
  let v := encodeXorAddr a tid in
  if (length v =? 0)%nat then (false, msg) else (true, addAttribute msg type v).

Definition readXorAddress (msg : Message) (type : Z) (tid : bytes) : option (option AddrRecord) :=
  match find msg type with
  | None => Some None
  | Some a => decodeXorAddr (value a) tid
  end.

Definition writeMappedAddress (msg : Message) (a : AddrRecord) : bool * Message :=
  match addr a with
  | SockIn port ip =>
      (true, addAttribute msg AttrType.MappedAddress
               ([0; FamilyIPv4; u8 (port >>. 8); u8 (port &. 0xFF)] ++ ip))
  | SockIn6 port ip =>
      (true, addAttribute msg AttrType.MappedAddress
               ([0; FamilyIPv6; u8 (port >>. 8); u8 (port &. 0xFF)] ++ ip))
  | SockOther _ => (false, msg)
  end.

Definition readMappedAddress (msg : Message) : option (option AddrRecord) :=
  match find msg AttrType.MappedAddress with
  | None => Some None
  | Some a =>
      if (length (value a) <? 4)%nat then Some None else
      family ← value a !! 1%nat;
      port ← readU16Be (value a) 2;
      if family =? FamilyIPv4 then
        if (length (value a) <? 8)%nat then Some None else
        ip ← peek (value a) 4 4;
        Some (Some (mkAddrRecord (SockIn port ip) sizeof_sockaddr_in SOCK_DGRAM))
      else if family =? FamilyIPv6 then
        if (length (value a) <? 20)%nat then Some None else
        ip ← peek (value a) 4 16;
        Some (Some (mkAddrRecord (SockIn6 port ip) sizeof_sockaddr_in6 SOCK_DGRAM))
      else Some None
  end.

(** ** Text, flags and integers *)

Definition addString (msg : Message) (type : Z) (s : bytes) : Message := addAttribute msg type s.
Definition getString (msg : Message) (type : Z) : bytes :=
  match find msg type with Some a => value a | None => [] end.

(** The shape shared by the integer readers: find, check the size, read. *)
Definition readSized (msg : Message) (type : Z) (sizeOk : nat -> bool)
    (rd : bytes -> option Z) : option (option Z) :=
  match find msg type with
  | None => Some None
  | Some a => if sizeOk (length (value a)) then v ← rd (value a); Some (Some v) else Some None
  end.

Definition addPriority (msg : Message) (priority : Z) : Message :=
  addAttribute msg AttrType.Priority (writeU32Be priority).
Definition readPriority (msg : Message) : option (option Z) :=
  readSized msg AttrType.Priority (fun n => n =? 4)%nat (fun v => readU32Be v 0).

Definition addUseCandidate (msg : Message) : Message := addAttribute msg AttrType.UseCandidate [].
Definition hasUseCandidate (msg : Message) : bool :=
  bool_decide (is_Some (find msg AttrType.UseCandidate)).

(** NOMINATION and CONNECTION-ID accept a longer value than they write. *)
Definition addNomination (msg : Message) (v : Z) : Message :=
  addAttribute msg AttrType.Nomination (writeU32Be v).
Definition readNomination (msg : Message) : option (option Z) :=
  readSized msg AttrType.Nomination (fun n => 4 <=? n)%nat (fun v => readU32Be v 0).

Definition addIceControlling (msg : Message) (tiebreaker : Z) : Message :=
  addAttribute msg AttrType.IceControlling (writeU64Be tiebreaker).
Definition addIceControlled (msg : Message) (tiebreaker : Z) : Message :=
  addAttribute msg AttrType.IceControlled (writeU64Be tiebreaker).
Definition readIceControlling (msg : Message) : option (option Z) :=
  readSized msg AttrType.IceControlling (fun n => n =? 8)%nat (fun v => Some (readU64Be v)).
Definition readIceControlled (msg : Message) : option (option Z) :=
  readSized msg AttrType.IceControlled (fun n => n =? 8)%nat (fun v => Some (readU64Be v)).

(** [code / 100] and [code % 100] truncate. *)
Definition addErrorCode (msg : Message) (code : Z) (reason : bytes) : Message :=
  let cls := Z.quot code 100 in
  let num := Z.rem code 100 in
  let r := if (length reason =? 0)%nat then bytes_of_string (errorReason code) else reason in
  addAttribute msg AttrType.ErrorCode ([0; 0; u8 (cls &. 0x07); u8 num] ++ r).

Definition readErrorCode (msg : Message) : option (option (Z * bytes)) :=
  match find msg AttrType.ErrorCode with
  | None => Some None
  | Some a =>
      if (length (value a) <? 4)%nat then Some None else
      v2 ← value a !! 2%nat;
      v3 ← value a !! 3%nat;
      let cls := v2 &. 0x07 in
      Some (Some (cls * 100 + v3, drop 4 (value a)))
  end.

Definition addChannelNumber (msg : Message) (channel : Z) : Message :=
  addAttribute msg AttrType.ChannelNumber [u8 (channel >>. 8); u8 (channel &. 0xFF); 0; 0].
Definition readChannelNumber (msg : Message) : option (option Z) :=
  readSized msg AttrType.ChannelNumber (fun n => n =? 4)%nat (fun v => readU16Be v 0).

Definition addLifetime (msg : Message) (seconds : Z) : Message :=
  addAttribute msg AttrType.Lifetime (writeU32Be seconds).
Definition readLifetime (msg : Message) : option (option Z) :=
  readSized msg AttrType.Lifetime (fun n => n =? 4)%nat (fun v => readU32Be v 0).

Definition addRequestedTransport (msg : Message) (protocol : Z) : Message :=
  addAttribute msg AttrType.RequestedTransport [protocol; 0; 0; 0].

Definition addConnectionId (msg : Message) (connId : Z) : Message :=
  addAttribute msg AttrType.ConnectionId (writeU32Be connId).
Definition readConnectionId (msg : Message) : option (option Z) :=
  readSized msg AttrType.ConnectionId (fun n => 4 <=? n)%nat (fun v => readU32Be v 0).

Definition addDontFragment (msg : Message) : Message := addAttribute msg AttrType.DontFragment [].
Definition addData (msg : Message) (data : bytes) : Message := addAttribute msg AttrType.Data data.

Definition addRequestedAddressFamily (msg : Message) (family : Z) : Message :=
  addAttribute msg AttrType.RequestedAddressFamily [family].
Definition addReservationToken (msg : Message) (token : bytes) : Message :=
  addAttribute msg AttrType.ReservationToken token.

Definition TcpTypeActive : Z := 0x00000006.
Definition TcpTypePassive : Z := 0x00000005.
Definition TcpTypeSo : Z := 0x00000002.
Definition addTcpType (msg : Message) (tcpType : Z) : Message :=
  addAttribute msg AttrType.TcpType (writeU32Be tcpType).
Definition readTcpType (msg : Message) : option (option Z) :=
  readSized msg AttrType.TcpType (fun n => n =? 4)%nat (fun v => readU32Be v 0).

(** ** Attributes on the wire *)

Lemma find_attr_app ty l1 l2 :
  find_attr ty l1 = None -> find_attr ty (l1 ++ l2) = find_attr ty l2.
Proof. induction l1 as [|a l IH]; simpl; [done|]. by destruct (atype a =? ty). Qed.

Lemma find_addAttribute m ty v :
  find m ty = None -> find (addAttribute m ty v) ty = Some (mkAttr ty v).
Proof.
  unfold find, addAttribute. cbn [attributes]. intros H. rewrite find_attr_app by done.
  cbn [find_attr atype]. by rewrite Z.eqb_refl.
Qed.

(** The first attribute of a type is found before anything appended behind it. *)
Lemma find_attr_app_Some ty l1 l2 a :
  find_attr ty l1 = Some a -> find_attr ty (l1 ++ l2) = Some a.
Proof. induction l1 as [|b l IH]; simpl; [done|]. by destruct (atype b =? ty). Qed.

(** Types [encode] may write in front of the message's own attributes. *)
Definition cred_type (ty : Z) : bool :=
  (ty =? AttrType.Username) || (ty =? AttrType.Realm) || (ty =? AttrType.Nonce).

Lemma find_opt_attr ty ty' v : ty' =? ty = false -> find_attr ty (opt_attr ty' v) = None.
Proof. intros H. unfold opt_attr. destruct (_ =? _)%nat; [done|]. cbn [find_attr atype]. by rewrite H. Qed.

Lemma find_credAttrs ty c pw cr : cred_type ty = false -> find_attr ty (credAttrs c pw cr) = None.
Proof.
  unfold cred_type. rewrite !orb_false_iff, !Z.eqb_neq. intros [[H1 H2] H3].
  unfold credAttrs. destruct cr, pw; try done. destruct (decide _); [done|].
  rewrite !find_attr_app; try done; apply find_opt_attr; by apply Z.eqb_neq.
Qed.

(** Encoding in front of a decoder keeps the first attribute of every type other than the
    credentials. *)
Lemma find_on_wire m pw cr sw ty a :
  cred_type ty = false -> find m ty = Some a -> find_attr ty (wireAttrs m pw cr sw) = Some a.
Proof.
  intros Hc Hf. unfold wireAttrs, encAttrsMi.
  assert (H : find_attr ty (encAttrs m pw cr sw) = Some a).
  { unfold encAttrs. rewrite find_attr_app by (by apply find_credAttrs).
    by apply find_attr_app_Some. }
  apply find_attr_app_Some. destruct pw; [|done].
  destruct (decide _); [done|]. by apply find_attr_app_Some.
Qed.

(** ** The interface of an attribute helper *)

(** A pair of helpers for the attribute type [wa_type]: the writer appends one attribute
    whose value only depends on what is written, and the reader of a message whose first
    attribute of the type is that one returns what was written.  [wa_dom] is the range of
    values the attribute can carry. *)
Class WireAttr {A : Type} (add : Message -> A -> Message)
    (rd : Message -> option (option A)) := {
  wa_type : Z;
  wa_dom : A -> Prop;
  wa_val : A -> bytes;
  wa_not_cred : cred_type wa_type = false;
  wa_add m v : wa_dom v -> add m v = addAttribute m wa_type (wa_val v);
  wa_rd m v : wa_dom v -> find m wa_type = Some (mkAttr wa_type (wa_val v)) ->
              rd m = Some (Some v);
}.

(** What is added to a message that has no attribute of the type yet is read back by
    whoever decodes the encoded message. *)
Definition survives {A} (add : Message -> A -> Message) (rd : Message -> option (option A))
    (type : Z) (dom : A -> Prop) : Prop :=
  forall m v password creds software m0 rest,
    dom v -> find m type = None -> enc_ok (add m v) password creds software ->
    exists m' d, encode (add m v) password creds software = Some m' /\
      decode m0 (raw m' ++ rest) = Some (true, d) /\ rd d = Some (Some v).

Lemma wire_attr_survives {A} add (rd : Message -> option (option A)) `{!WireAttr add rd} :
  survives add rd wa_type wa_dom.
Proof.
  intros m v pw cr sw m0 rest Hv Hf Hok. do 2 eexists. split; [by apply encode_ok|].
  cbn [raw]. split; [by apply decode_frame, encode_frame_ok|]. apply wa_rd; [done|].
  unfold find. cbn [attributes]. apply find_on_wire; [apply wa_not_cred|].
  rewrite wa_add by done. by apply find_addAttribute.
Qed.

(** Integer attributes of one 32-bit word. *)
Lemma readSized_u32 m ty f v :
  fits 32 v -> f 4%nat = true -> find m ty = Some (mkAttr ty (writeU32Be v)) ->
  readSized m ty f (fun b => readU32Be b 0) = Some (Some v).
Proof.
  intros Hv Hf E. unfold readSized. rewrite E. cbn [value]. rewrite length_writeU32Be, Hf.
  by rewrite readU32Be_write.
Qed.

Lemma readSized_u64 m ty f v :
  fits 64 v -> f 8%nat = true -> find m ty = Some (mkAttr ty (writeU64Be v)) ->
  readSized m ty f (fun b => Some (readU64Be b)) = Some (Some v).
Proof.
  intros Hv Hf E. unfold readSized. rewrite E. cbn [value].
  rewrite (proj2 (writeU64Be_ok v)), Hf. cbn [mbind option_bind]. by rewrite readU64Be_writeU64Be.
Qed.

#[export] Instance priority_wire : WireAttr addPriority readPriority :=
  {| wa_type := AttrType.Priority; wa_dom := fits 32; wa_val := writeU32Be;
     wa_not_cred := eq_refl; wa_add m v _ := eq_refl;
     wa_rd m v Hv := readSized_u32 m _ _ v Hv eq_refl |}.
#[export] Instance nomination_wire : WireAttr addNomination readNomination :=
  {| wa_type := AttrType.Nomination; wa_dom := fits 32; wa_val := writeU32Be;
     wa_not_cred := eq_refl; wa_add m v _ := eq_refl;
     wa_rd m v Hv := readSized_u32 m _ _ v Hv eq_refl |}.
#[export] Instance lifetime_wire : WireAttr addLifetime readLifetime :=
  {| wa_type := AttrType.Lifetime; wa_dom := fits 32; wa_val := writeU32Be;
     wa_not_cred := eq_refl; wa_add m v _ := eq_refl;
     wa_rd m v Hv := readSized_u32 m _ _ v Hv eq_refl |}.
#[export] Instance connectionId_wire : WireAttr addConnectionId readConnectionId :=
  {| wa_type := AttrType.ConnectionId; wa_dom := fits 32; wa_val := writeU32Be;
     wa_not_cred := eq_refl; wa_add m v _ := eq_refl;
     wa_rd m v Hv := readSized_u32 m _ _ v Hv eq_refl |}.
#[export] Instance tcpType_wire : WireAttr addTcpType readTcpType :=
  {| wa_type := AttrType.TcpType; wa_dom := fits 32; wa_val := writeU32Be;
     wa_not_cred := eq_refl; wa_add m v _ := eq_refl;
     wa_rd m v Hv := readSized_u32 m _ _ v Hv eq_refl |}.
#[export] Instance controlling_wire : WireAttr addIceControlling readIceControlling :=
  {| wa_type := AttrType.IceControlling; wa_dom := fits 64; wa_val := writeU64Be;
     wa_not_cred := eq_refl; wa_add m v _ := eq_refl;
     wa_rd m v Hv := readSized_u64 m _ _ v Hv eq_refl |}.
#[export] Instance controlled_wire : WireAttr addIceControlled readIceControlled :=
  {| wa_type := AttrType.IceControlled; wa_dom := fits 64; wa_val := writeU64Be;
     wa_not_cred := eq_refl; wa_add m v _ := eq_refl;
     wa_rd m v Hv := readSized_u64 m _ _ v Hv eq_refl |}.

Lemma readChannelNumber_spec m v :
  fits 16 v ->
  find m AttrType.ChannelNumber
  = Some (mkAttr AttrType.ChannelNumber [u8 (v >>. 8); u8 (v &. 0xFF); 0; 0]) ->
  readChannelNumber m = Some (Some v).
Proof.
  intros Hv E. unfold readChannelNumber, readSized. rewrite E. cbn [value length Nat.eqb].
  pose proof (readU16Be_app_write [] v [0; 0] Hv) as H.
  change ([] ++ writeU16Be v ++ [0; 0]) with [u8 (v >>. 8); u8 (v &. 255); 0; 0] in H.
  cbn [length] in H. by rewrite H.
Qed.

#[export] Instance channelNumber_wire : WireAttr addChannelNumber readChannelNumber :=
  {| wa_type := AttrType.ChannelNumber; wa_dom := fits 16;
     wa_val v := [u8 (v >>. 8); u8 (v &. 0xFF); 0; 0];
     wa_not_cred := eq_refl; wa_add m v _ := eq_refl;
     wa_rd := readChannelNumber_spec |}.

(** ERROR-CODE as a pair of code and non-empty reason. *)
Definition addError (m : Message) (e : Z * bytes) : Message := addErrorCode m e.1 e.2.

Definition error_dom (e : Z * bytes) : Prop := 0 <= e.1 < 800 /\ e.2 <> [].

Definition error_val (e : Z * bytes) : bytes :=
  [0; 0; u8 (Z.quot e.1 100 &. 0x07); u8 (Z.rem e.1 100)]
    ++ (if (length e.2 =? 0)%nat then bytes_of_string (errorReason e.1) else e.2).

Lemma land_7 x : x &. 7 = x mod 8.
Proof. apply (land_mask 3); lia. Qed.

Lemma readErrorCode_spec m e :
  error_dom e -> find m AttrType.ErrorCode = Some (mkAttr AttrType.ErrorCode (error_val e)) ->
  readErrorCode m = Some (Some e).
Proof.
  destruct e as [code r]. intros [Hc Hr] E. cbn [fst snd] in *.
  unfold readErrorCode. rewrite E. unfold error_val. cbn [value fst snd].
  destruct (Nat.eqb_spec (length r) 0) as [|_]; [by destruct r|].
  rewrite Z.quot_div_nonneg, Z.rem_mod_nonneg by lia.
  cbn [app length Nat.ltb Nat.leb lookup list_lookup mbind option_bind drop].
  rewrite !land_7. do 3 f_equal. width.
Qed.

#[export] Instance error_wire : WireAttr addError readErrorCode :=
  {| wa_type := AttrType.ErrorCode; wa_dom := error_dom; wa_val := error_val;
     wa_not_cred := eq_refl; wa_add m v _ := eq_refl;
     wa_rd := readErrorCode_spec |}.

(** ** Address attributes *)

Lemma zip_lxor_cancel (a k : bytes) :
  (length a <= length k)%nat -> zip_with Z.lxor (zip_with Z.lxor a k) k = a.
Proof.
  revert k. induction a as [|x a IH]; intros [|y k] H; simpl in *; try done; [lia|].
  rewrite lxor_cancel, IH by lia. done.
Qed.

Lemma zip_lxor_ok (a k : bytes) : bytes_ok a -> bytes_ok k -> bytes_ok (zip_with Z.lxor a k).
Proof.
  intros Ha. revert k. induction Ha as [|x a Hx Ha IH]; intros k Hk; [constructor|].
  destruct Hk as [|y k Hy Hk]; [constructor|]. simpl. constructor; [|by apply IH].
  apply fits_lxor; lia || done.
Qed.

Definition tid_ok (tid : bytes) : Prop := length tid = 12%nat /\ bytes_ok tid.

Lemma maskPort_val tid : maskPort (xorMask tid) = 0x2112.
Proof. done. Qed.

Lemma xorMask_length tid : tid_ok tid -> length (xorMask tid) = 16%nat.
Proof. intros [H _]. unfold xorMask. rewrite length_app, H. done. Qed.

(** The value of an address attribute: a reserved byte, the family, the port and the
    address bytes. *)
Definition addrValue (family port : Z) (ip : bytes) : bytes :=
  0 :: family :: writeU16Be port ++ ip.

Lemma addrValue_read family port ip :
  fits 16 port ->
  length (addrValue family port ip) = (4 + length ip)%nat /\
  addrValue family port ip !! 1%nat = Some family /\
  readU16Be (addrValue family port ip) 2 = Some port /\
  peek (addrValue family port ip) 4 (length ip) = Some ip.
Proof.
  intros Hp. split; [done|]. split; [done|]. split.
  - by apply (readU16Be_app_write [0; family] port ip).
  - pose proof (peek_app (0 :: family :: writeU16Be port) ip []) as E.
    by rewrite app_nil_r in E.
Qed.

Lemma xport_fits p : fits 16 p -> fits 16 (u16 (p ^. 0x2112)).
Proof. intros _. by apply wrap_fits. Qed.

Lemma xport_back p : fits 16 p -> u16 (u16 (p ^. 0x2112) ^. 0x2112) = p.
Proof.
  intros Hp. rewrite (wrap_id 16 (p ^. _)) by (apply fits_lxor; lia || done).
  rewrite lxor_cancel. by apply wrap_id.
Qed.

Lemma zip_mask_length (ip mask : bytes) n :
  length ip = n -> (n <= length mask)%nat -> length (zip_with Z.lxor ip (take n mask)) = n.
Proof. intros H1 H2. rewrite length_zip_with, length_take. lia. Qed.

(** Run a reader on an [addrValue] whose address bytes have a known length. *)
Ltac read_addr_value Hp Hz :=
  let v := fresh "v" in let Hlen := fresh "Hlen" in
  let H1 := fresh "H1" in let H2 := fresh "H2" in let H4 := fresh "H4" in
  match goal with |- context [addrValue ?f ?x ?z] =>
    destruct (addrValue_read f x z Hp) as (Hlen & H1 & H2 & H4);
    rewrite Hz in Hlen, H4; set (v := addrValue f x z) in *; clearbody v end;
  rewrite Hlen, H1, H2; cbn [mbind option_bind Nat.add Nat.ltb Nat.leb Z.eqb FamilyIPv4 FamilyIPv6 Pos.eqb];
  rewrite H4; cbn [mbind option_bind].

Lemma decodeXorAddr_encode rec tid :
  sockaddr_ok (addr rec) -> tid_ok tid ->
  decodeXorAddr (encodeXorAddr rec tid) tid
  = Some (if decide (addrLen (addr rec) = 0) then None
          else Some (mkAddrRecord (addr rec) (addrLen (addr rec)) SOCK_DGRAM)).
Proof.
  intros Hs Ht. pose proof (xorMask_length tid Ht) as Hm.
  unfold encodeXorAddr, decodeXorAddr. rewrite maskPort_val.
  destruct (addr rec) as [p ip|p ip|f]; cbn [addrLen sockaddr_ok] in *; [| |done];
    destruct Hs as (Hp & Hl & Hb).
  - pose proof (zip_mask_length ip (xorMask tid) 4 Hl ltac:(lia)) as Hz.
    change ([0; FamilyIPv4; u8 (u16 (p ^. 8466) >>. 8); u8 (u16 (p ^. 8466) &. 255)] ++ ?z)
      with (addrValue FamilyIPv4 (u16 (p ^. 8466)) z).
    read_addr_value (xport_fits p Hp) Hz.
    rewrite xport_back, zip_lxor_cancel by (done || rewrite ?length_take; lia). done.
  - pose proof (zip_mask_length ip (xorMask tid) 16 Hl ltac:(lia)) as Hz.
    change ([0; FamilyIPv6; u8 (u16 (p ^. 8466) >>. 8); u8 (u16 (p ^. 8466) &. 255)] ++ ?z)
      with (addrValue FamilyIPv6 (u16 (p ^. 8466)) z).
    read_addr_value (xport_fits p Hp) Hz.
    rewrite xport_back, zip_lxor_cancel by (done || rewrite ?length_take; lia). done.
Qed.

(** An address record as the readers build it. *)
Definition dgram_addr (r : AddrRecord) : Prop :=
  sockaddr_ok (addr r) /\ addrLen (addr r) <> 0 /\ len r = addrLen (addr r) /\
  socktype r = SOCK_DGRAM.

(** The XOR address attribute of one type as a pair of helpers: the transaction id is the
    message's. *)
Definition addXor (type : Z) (tid : bytes) (m : Message) (r : AddrRecord) : Message :=
  (writeXorAddress m type r tid).2.
Definition addMapped (m : Message) (r : AddrRecord) : Message := (writeMappedAddress m r).2.

Definition mappedVal (r : AddrRecord) : bytes :=
  match addr r with
  | SockIn p ip => addrValue FamilyIPv4 p ip
  | SockIn6 p ip => addrValue FamilyIPv6 p ip
  | SockOther _ => []
  end.

Lemma dgram_addr_eq r :
  dgram_addr r -> mkAddrRecord (addr r) (addrLen (addr r)) SOCK_DGRAM = r.
Proof. destruct r as [a l s]. unfold dgram_addr. cbn. by intros (_ & _ & -> & ->). Qed.

Lemma readXor_spec ty tid m r :
  tid_ok tid -> dgram_addr r -> find m ty = Some (mkAttr ty (encodeXorAddr r tid)) ->
  readXorAddress m ty tid = Some (Some r).
Proof.
  intros Ht Hr E. unfold readXorAddress. rewrite E. cbn [value].
  destruct (Hr) as (Hok & Hz & _). rewrite decodeXorAddr_encode by done.
  destruct (decide _); [done|]. by rewrite dgram_addr_eq.
Qed.

Lemma readMapped_spec m r :
  dgram_addr r -> find m AttrType.MappedAddress = Some (mkAttr AttrType.MappedAddress (mappedVal r)) ->
  readMappedAddress m = Some (Some r).
Proof.
  intros Hr E. unfold readMappedAddress. rewrite E. cbn [value].
  trans (Some (Some (mkAddrRecord (addr r) (addrLen (addr r)) SOCK_DGRAM)));
    [|by rewrite (dgram_addr_eq r Hr)]. unfold mappedVal.
  destruct Hr as (Hok & Hz & _).
  destruct (addr r) as [p ip|p ip|f]; cbn [addrLen sockaddr_ok] in *; [| |done];
    destruct Hok as (Hp & Hl & Hb); read_addr_value Hp Hl; done.
Qed.

Lemma encodeXorAddr_nonempty r tid : addrLen (addr r) <> 0 -> length (encodeXorAddr r tid) <> 0%nat.
Proof. unfold encodeXorAddr. by destruct (addr r). Qed.

Lemma addXor_spec ty tid m r :
  dgram_addr r -> addXor ty tid m r = addAttribute m ty (encodeXorAddr r tid).
Proof.
  intros (_ & Hz & _). unfold addXor, writeXorAddress.
  by rewrite (proj2 (Nat.eqb_neq _ _) (encodeXorAddr_nonempty r tid Hz)).
Qed.

Lemma addMapped_spec m r :
  dgram_addr r -> addMapped m r = addAttribute m AttrType.MappedAddress (mappedVal r).
Proof. intros (_ & Hz & _). unfold addMapped, writeMappedAddress, mappedVal. by destruct (addr r). Qed.

#[export] Instance xor_wire ty tid (Hc : cred_type ty = false) (Ht : tid_ok tid) :
  WireAttr (addXor ty tid) (fun m => readXorAddress m ty tid) :=
  {| wa_type := ty; wa_dom := dgram_addr; wa_val r := encodeXorAddr r tid;
     wa_not_cred := Hc; wa_add := addXor_spec ty tid; wa_rd m r := readXor_spec ty tid m r Ht |}.

#[export] Instance mapped_wire : WireAttr addMapped readMappedAddress :=
  {| wa_type := AttrType.MappedAddress; wa_dom := dgram_addr; wa_val := mappedVal;
     wa_not_cred := eq_refl; wa_add := addMapped_spec; wa_rd := readMapped_spec |}.

(** ** Safety of the readers *)

(** A reader that stays inside the value, whose result satisfies [P]. *)
Definition safe_read {A} (r : option (option A)) (P : A -> Prop) : Prop :=
  exists o, r = Some o /\ forall v, o = Some v -> P v.

Lemma find_attr_ok ty l a : Forall attr_ok l -> find_attr ty l = Some a -> attr_ok a.
Proof. induction 1 as [|b l Hb Hl IH]; simpl; [done|]. destruct (_ =? _); [by intros [= <-]|done]. Qed.

Lemma readSized_safe m ty f rd (P : Z -> Prop) :
  Forall attr_ok (attributes m) ->
  (forall b, bytes_ok b -> f (length b) = true -> exists v, rd b = Some v /\ P v) ->
  safe_read (readSized m ty f rd) P.
Proof.
  intros Ha Hrd. unfold readSized, safe_read, find.
  destruct (find_attr ty (attributes m)) as [a|] eqn:E; [|by exists None].
  destruct (find_attr_ok _ _ _ Ha E) as (_ & _ & Hb).
  destruct (f (length (value a))) eqn:Hf; [|by exists None].
  destruct (Hrd _ Hb Hf) as (v & -> & Hv). exists (Some v). by split; [|intros ? [= <-]].
Qed.

Lemma readU64Be_fits b : bytes_ok b -> fits 64 (readU64Be b).
Proof.
  intros Hb. unfold readU64Be. generalize (conj (Z.le_refl 0) (ltac:(lia) : 0 < 2 ^ 64) : fits 64 0).
  generalize 0. induction Hb as [|x b Hx Hb IH]; intros a Ha; simpl; [done|]. apply IH.
  apply fits_lor; [lia|by apply wrap_fits|]. by apply (fits_mono 8).
Qed.

Lemma decodeXorAddr_safe v tid :
  bytes_ok v -> tid_ok tid -> safe_read (decodeXorAddr v tid) dgram_addr.
Proof.
  intros Hv Ht. pose proof (xorMask_length tid Ht) as Hm. unfold decodeXorAddr, safe_read.
  destruct (Nat.ltb_spec (length v) 4); [by exists None|].
  destruct (lookup_lt_is_Some_2 v 1) as [fam ->]; [lia|]. cbn [mbind option_bind].
  destruct (readU16Be_inb v 2 Hv) as (x & -> & Hx); [lia|]. cbn [mbind option_bind].
  assert (Hmask : bytes_ok (xorMask tid)).
  { apply bytes_ok_app; [by apply (bool_decide_unpack _), I|apply Ht]. }
  assert (Hip : forall n, (4 + n <= length v)%nat -> (n <= 16)%nat ->
    exists ip, peek v 4 n = Some ip /\ bytes_ok (zip_with Z.lxor ip (take n (xorMask tid))) /\
      length (zip_with Z.lxor ip (take n (xorMask tid))) = n).
  { intros n Hn Hn'. exists (take n (drop 4 v)). rewrite peek_inb by lia. split; [done|]. split.
    - apply zip_lxor_ok; by repeat (apply Forall_take || apply Forall_drop).
    - apply zip_mask_length; [rewrite length_take, length_drop|]; lia. }
  destruct (fam =? FamilyIPv4); [|destruct (fam =? FamilyIPv6); [|by exists None]].
  - destruct (Nat.ltb_spec (length v) 8); [by exists None|].
    destruct (Hip 4%nat) as (ip & -> & Hb & Hl); [lia..|]. cbn [mbind option_bind].
    eexists; split; [done|]. intros ? [= <-]. repeat split; cbn; try done; by apply wrap_fits.
  - destruct (Nat.ltb_spec (length v) 20); [by exists None|].
    destruct (Hip 16%nat) as (ip & -> & Hb & Hl); [lia..|]. cbn [mbind option_bind].
    eexists; split; [done|]. intros ? [= <-]. repeat split; cbn; try done; by apply wrap_fits.
Qed.

Lemma readXorAddress_safe m ty tid :
  Forall attr_ok (attributes m) -> tid_ok tid -> safe_read (readXorAddress m ty tid) dgram_addr.
Proof.
  intros Ha Ht. unfold readXorAddress, find.
  destruct (find_attr ty (attributes m)) as [a|] eqn:E; [|by exists None].
  apply decodeXorAddr_safe; [|done]. by destruct (find_attr_ok _ _ _ Ha E) as (_ & _ & Hb).
Qed.

Lemma readMappedAddress_safe m :
  Forall attr_ok (attributes m) -> safe_read (readMappedAddress m) dgram_addr.
Proof.
  intros Ha. unfold readMappedAddress, find, safe_read.
  destruct (find_attr _ (attributes m)) as [a|] eqn:E; [|by exists None].
  destruct (find_attr_ok _ _ _ Ha E) as (_ & _ & Hv). clear E. set (v := value a) in *.
  destruct (Nat.ltb_spec (length v) 4); [by exists None|].
  destruct (lookup_lt_is_Some_2 v 1) as [fam ->]; [lia|]. cbn [mbind option_bind].
  destruct (readU16Be_inb v 2 Hv) as (x & -> & Hx); [lia|]. cbn [mbind option_bind].
  destruct (fam =? FamilyIPv4); [|destruct (fam =? FamilyIPv6); [|by exists None]].
  - destruct (Nat.ltb_spec (length v) 8); [by exists None|]. rewrite peek_inb by lia.
    eexists; split; [done|]. intros ? [= <-].
    repeat split; try apply Hx; try done; cbn; [rewrite length_take, length_drop; lia|].
    by apply Forall_take, Forall_drop.
  - destruct (Nat.ltb_spec (length v) 20); [by exists None|]. rewrite peek_inb by lia.
    eexists; split; [done|]. intros ? [= <-].
    repeat split; try apply Hx; try done; cbn; [rewrite length_take, length_drop; lia|].
    by apply Forall_take, Forall_drop.
Qed.

Lemma readErrorCode_safe m :
  Forall attr_ok (attributes m) ->
  safe_read (readErrorCode m) (fun e => 0 <= e.1 < 956 /\ text_ok e.2).
Proof.
  intros Ha. unfold readErrorCode, find, safe_read.
  destruct (find_attr _ (attributes m)) as [a|] eqn:E; [|by exists None].
  destruct (find_attr_ok _ _ _ Ha E) as (_ & Hl & Hv). clear E. set (v := value a) in *.
  destruct (Nat.ltb_spec (length v) 4); [by exists None|].
  destruct (lookup_lt_is_Some_2 v 2) as [c E2]; [lia|].
  destruct (lookup_lt_is_Some_2 v 3) as [n E3]; [lia|]. rewrite E2, E3. cbn [mbind option_bind].
  eexists; split; [done|]. intros ? [= <-]. cbn [fst snd].
  pose proof (Forall_lookup_1 _ _ _ _ Hv E3). rewrite land_7. split; [width|].
  split; [rewrite length_drop; lia|by apply Forall_drop].
Qed.

Lemma encodeXorAddr_ok r tid :
  sockaddr_ok (addr r) -> tid_ok tid ->
  (length (encodeXorAddr r tid) <= 20)%nat /\ bytes_ok (encodeXorAddr r tid).
Proof.
  intros Hs Ht. assert (Hmask : bytes_ok (xorMask tid)).
  { apply bytes_ok_app; [by apply (bool_decide_unpack _), I|apply Ht]. }
  assert (Hhd : forall fam x y, is_byte fam -> bytes_ok [0; fam; u8 x; u8 y]).
  { intros fam x y Hf. repeat (apply Forall_cons; split; [first [done|apply wrap_fits; lia]|]). constructor. }
  unfold encodeXorAddr. destruct (addr r) as [p ip|p ip|f].
  1-2: destruct Hs as (Hp & Hl & Hb); rewrite length_app, length_zip_with, length_take, Hl;
    (split; [cbn [length]; lia|]); apply bytes_ok_app; [by apply Hhd|];
    (apply zip_lxor_ok; [done|by apply Forall_take]).
  split; [cbn; lia|constructor].
Qed.

(** ** Messages to be encoded and messages received *)

Definition sizedStr (s : string) : Prop := sized (bytes_of_string s).

Definition body_ok (m : Message) : Prop :=
  length (transactionID m) = 12%nat /\ Forall (fun a => sized (value a)) (attributes m).

Definition req_ok (m : Message) : Prop :=
  tid_ok (transactionID m) /\ Forall attr_ok (attributes m) /\
  (forall key am, is_Some (checkIntegrity m key am)).

Lemma body_add m ty v : body_ok m -> sized v -> body_ok (addAttribute m ty v).
Proof. intros [H1 H2] Hv. split; [done|]. cbn. apply Forall_app. split; [done|by constructor]. Qed.

Lemma sized_small (v : bytes) : (length v <= 100)%nat -> sized v.
Proof. intros H. unfold sized. lia. Qed.

Lemma body_writeXor m ty a tid : body_ok m -> body_ok (writeXorAddress m ty a tid).2.
Proof.
  intros H. unfold writeXorAddress. destruct (_ =? _)%nat; [done|]. cbn [snd].
  apply body_add; [done|]. apply sized_small. unfold encodeXorAddr.
  destruct (addr a); [| |cbn; lia];
    rewrite length_app, length_zip_with, length_take; cbn [length]; lia.
Qed.

Lemma getString_sized m ty : Forall attr_ok (attributes m) -> sized (getString m ty).
Proof.
  intros Ha. unfold sized, getString, find.
  destruct (find_attr ty (attributes m)) as [a|] eqn:Ef; [|cbn; lia].
  destruct (find_attr_ok _ _ _ Ha Ef) as (_ & H & _). lia.
Qed.

Lemma decode_req data m : bytes_ok data -> decode emptyMessage data = Some (true, m) -> req_ok m.
Proof.
  intros Hb Hd. destruct (decode_total emptyMessage data Hb) as (b & m' & Hd' & H).
  assert (b = true /\ m' = m) as [-> ->] by (split; congruence).
  destruct (H eq_refl) as (_ & H1 & H2 & H3 & _). done.
Qed.

(** ** Properties *)

(** Typed attributes survive the wire.  For each helper pair of the program (PRIORITY,
    NOMINATION, LIFETIME, CONNECTION-ID, TCP-TYPE, ICE-CONTROLLING, ICE-CONTROLLED,
    CHANNEL-NUMBER, ERROR-CODE, MAPPED-ADDRESS and the XOR address attributes under any
    transaction id), what the writer adds to a message with no such attribute is what the
    reader returns from the decoding of the encoded message. *)
Theorem attributes_survive_wire :
  survives addPriority readPriority AttrType.Priority (fits 32) /\
  survives addNomination readNomination AttrType.Nomination (fits 32) /\
  survives addLifetime readLifetime AttrType.Lifetime (fits 32) /\
  survives addConnectionId readConnectionId AttrType.ConnectionId (fits 32) /\
  survives addTcpType readTcpType AttrType.TcpType (fits 32) /\
  survives addIceControlling readIceControlling AttrType.IceControlling (fits 64) /\
  survives addIceControlled readIceControlled AttrType.IceControlled (fits 64) /\
  survives addChannelNumber readChannelNumber AttrType.ChannelNumber (fits 16) /\
  survives addError readErrorCode AttrType.ErrorCode
    (fun e => 0 <= e.1 < 800 /\ e.2 <> []) /\
  survives addMapped readMappedAddress AttrType.MappedAddress dgram_addr /\
  (forall ty tid, cred_type ty = false -> tid_ok tid ->
     survives (addXor ty tid) (fun m => readXorAddress m ty tid) ty dgram_addr).
Proof.
  repeat split.
  1-10: lazymatch goal with |- survives ?a ?r _ _ => exact (wire_attr_survives a r) end.
  intros ty tid Hc Ht. exact (wire_attr_survives _ _ (WireAttr0 := xor_wire ty tid Hc Ht)).
Qed.

(** No attribute reader looks outside the attribute it reads.  On any message whose
    attributes are well formed, as every decoded message's are, each reader returns, and a
    value it reports is in the range of its type: 32-, 64- and 16-bit integers, error codes
    below 956, and addresses of a known family with their four or sixteen bytes. *)
Theorem attribute_readers_safe (m : Message) (ty : Z) (tid : bytes) :
  Forall attr_ok (attributes m) -> tid_ok tid ->
  safe_read (readPriority m) (fits 32) /\ safe_read (readNomination m) (fits 32) /\
  safe_read (readLifetime m) (fits 32) /\ safe_read (readConnectionId m) (fits 32) /\
  safe_read (readTcpType m) (fits 32) /\ safe_read (readChannelNumber m) (fits 16) /\
  safe_read (readIceControlling m) (fits 64) /\ safe_read (readIceControlled m) (fits 64) /\
  safe_read (readErrorCode m) (fun e => 0 <= e.1 < 956 /\ text_ok e.2) /\
  safe_read (readMappedAddress m) dgram_addr /\
  safe_read (readXorAddress m ty tid) dgram_addr.
Proof.
  intros Ha Ht. repeat split;
    auto using readErrorCode_safe, readMappedAddress_safe, readXorAddress_safe;
    apply readSized_safe; try done; intros b Hb Hf.
  1-5: apply readU32Be_inb; apply Nat.eqb_eq in Hf || apply Nat.leb_le in Hf; lia.
  1: apply readU16Be_inb; [done|]; apply Nat.eqb_eq in Hf; lia.
  all: eexists; split; [done|by apply readU64Be_fits].
Qed.

Lemma attribute_readers_safe_witness :
  safe_read (readXorAddress (mkMessage Method.Refresh Request sampleTid sampleExtra [])
               AttrType.XorPeerAddress sampleTid) dgram_addr.
Proof.
  apply (attribute_readers_safe (mkMessage Method.Refresh Request sampleTid sampleExtra [])
           AttrType.XorPeerAddress sampleTid).
  - by apply (bool_decide_unpack _), I.
  - split; [reflexivity|]. by apply (bool_decide_unpack _), I.
Defined.
