(* ===== verification/ChannelData.v ===== *)
(** * ChannelData framing (include/stice/turn/channeldata.hpp, src/turn/channeldata.cpp)

    The 4-byte header that carries application data between a TURN client and its server.
    [None] is an access outside a buffer.  A [size_t] result is a [nat]. *)

From S2P Require Import Prelude.
From S2P Require Import Bytes.
From S2P Require Import StunMessage.
Open Scope Z_scope.
Open Scope c_scope.

Definition ChannelMin : Z := 0x4000.
Definition ChannelMax : Z := 0x7FFF.
Definition ChannelDataHeaderSize : nat := 4.

Definition channelValid (c : Z) : bool := (ChannelMin <=? c) && (c <=? ChannelMax).

Definition isChannelData (data : bytes) : option bool :=
  if (length data <? ChannelDataHeaderSize)%nat then Some false else
  d0 ← data !! 0%nat;
  if (d0 <? 0x40) || (0x7F <? d0) then Some false else
  d2 ← data !! 2%nat;
  d3 ← data !! 3%nat;
  let len := Z.to_nat ((d2 <<. 8) |. d3) in
  Some (len + ChannelDataHeaderSize <=? length data)%nat.

(** The returned size and the vector [out]; a refusal returns 0 and leaves [out] alone. *)
Definition wrapChannelData (channel : Z) (data : bytes) (out : bytes) : option (nat * bytes) :=
  if negb (channelValid channel) then Some (0%nat, out) else
  let size := length data in
  if 0xFFFF <? Z.of_nat size then Some (0%nat, out) else
  let padded := paddedLen size in
  let out := resize (ChannelDataHeaderSize + padded) out in
  out ← poke out 0 [u8 (channel >>. 8)];
  out ← poke out 1 [u8 (channel &. 0xFF)];
  out ← poke out 2 [u8 (Z.of_nat size >>. 8)];
  out ← poke out 3 [u8 (Z.of_nat size &. 0xFF)];
  out ← (if (size =? 0)%nat then Some out else poke out 4 data);
  out ← poke out (4 + size) (replicate (padded - size) 0);
  Some (length out, out).

(** What [unwrapChannelData] leaves in its result and output arguments; [un_data] is the
    offset of [outData] in the buffer, [None] while the pointer is as the caller left it. *)
Record Unwrapped := mkUnwrapped {
  un_ret : nat; un_channel : Z; un_data : option nat; un_frameSize : nat }.

Definition unwrapChannelData (buf : bytes) (channel0 : Z) (frameSize0 : nat) : option Unwrapped :=
  let size := length buf in
  if (size <? ChannelDataHeaderSize)%nat then Some (mkUnwrapped 0 channel0 None frameSize0) else
  b0 ← buf !! 0%nat;
  b1 ← buf !! 1%nat;
  let channel := u16 ((b0 <<. 8) |. b1) in
  if negb (channelValid channel) then Some (mkUnwrapped 0 channel None frameSize0) else
  b2 ← buf !! 2%nat;
  b3 ← buf !! 3%nat;
  let len := Z.to_nat ((b2 <<. 8) |. b3) in
  if (size - ChannelDataHeaderSize <? len)%nat
  then Some (mkUnwrapped 0 channel None frameSize0) else
  let padded := paddedLen len in
  let frameSize := (ChannelDataHeaderSize + Nat.min padded (size - ChannelDataHeaderSize))%nat in
  Some (mkUnwrapped len channel (Some ChannelDataHeaderSize) frameSize).

(** [r] is the word the CSPRNG delivers. *)
Definition randomChannelNumber (r : Z) : Z := u16 (ChannelMin |. (r &. 0x3FFF)).

(** ** Lemmas *)

(** The frame of the RFC: header, data, zero padding. *)
Definition channelFrame (channel : Z) (data : bytes) : bytes :=
  writeU16Be channel ++ writeU16Be (Z.of_nat (length data)) ++ data
    ++ replicate (paddedLen (length data) - length data) 0.

Definition payload_ok (data : bytes) : Prop := Z.of_nat (length data) <= 0xFFFF.

Lemma payload_padded data :
  payload_ok data ->
  (length data <= paddedLen (length data) < length data + 4)%nat /\
  (paddedLen (length data) mod 4 = 0)%nat.
Proof. intros H. apply paddedLen_bounds. unfold payload_ok in H. lia. Qed.

Lemma channelFrame_length channel data :
  payload_ok data -> length (channelFrame channel data) = (4 + paddedLen (length data))%nat.
Proof.
  intros H. destruct (payload_padded data H). unfold channelFrame.
  rewrite !length_app, length_replicate. cbn [length writeU16Be]. lia.
Qed.

(** Writing front to back over a buffer of the right size. *)
Lemma poke_header {B} x0 x1 x2 x3 (l : bytes) y0 y1 y2 y3 (k : bytes -> option B) :
  (out ← poke (x0 :: x1 :: x2 :: x3 :: l) 0 [y0]; out ← poke out 1 [y1];
   out ← poke out 2 [y2]; out ← poke out 3 [y3]; k out) = k (y0 :: y1 :: y2 :: y3 :: l).
Proof. done. Qed.

Lemma split_len {A} (l : list A) (n k : nat) :
  length l = (n + k)%nat -> exists a b, l = a ++ b /\ length a = n /\ length b = k.
Proof.
  intros H. exists (take n l), (drop n l). rewrite take_drop, length_take, length_drop.
  split; [done|lia].
Qed.

Lemma resize_length n (l : bytes) : length (resize n l) = n.
Proof. unfold resize. rewrite length_app, length_take, length_replicate. lia. Qed.

Lemma wrapChannelData_frame channel data out :
  channelValid channel = true -> payload_ok data ->
  wrapChannelData channel data out
  = Some (length (channelFrame channel data), channelFrame channel data).
Proof.
  intros Hc Hd. unfold wrapChannelData. rewrite Hc. cbn [negb].
  destruct (Z.ltb_spec 0xFFFF (Z.of_nat (length data))); [unfold payload_ok in Hd; lia|].
  destruct (payload_padded data Hd) as [Hp _].
  set (n := length data) in *. set (p := paddedLen n) in *.
  pose proof (resize_length (ChannelDataHeaderSize + p) out) as Hr.
  destruct (resize (ChannelDataHeaderSize + p) out) as [|x0 [|x1 [|x2 [|x3 l]]]]; try discriminate Hr.
  injection Hr as Hr.
  destruct (split_len l n (p - n)) as (a & b & -> & Ha & Hb); [lia|]. clear Hr.
  rewrite poke_header.
  match goal with |- context [?h0 :: ?h1 :: ?h2 :: ?h3 :: a ++ b] =>
    assert (E : (if (n =? 0)%nat then Some (h0 :: h1 :: h2 :: h3 :: a ++ b)
                 else poke (h0 :: h1 :: h2 :: h3 :: a ++ b) 4 data)
                = Some ([h0; h1; h2; h3] ++ data ++ b)) end.
  { destruct (Nat.eqb_spec n 0) as [Hn|Hn].
    - destruct data; [|done]. by destruct a; [|simpl in *; lia].
    - by apply (poke_app [_; _; _; _] a b data). }
  rewrite E. cbn [mbind option_bind]. clear E.
  pose proof (poke_app ([u8 (channel >>. 8); u8 (channel &. 255);
                           u8 (Z.of_nat n >>. 8); u8 (Z.of_nat n &. 255)] ++ data)
                b [] (replicate (p - n) 0)) as E.
  rewrite length_replicate, !app_nil_r, <- app_assoc, length_app in E.
  change (length [_; _; _; _] + length data)%nat with (4 + n)%nat in E.
  rewrite E by done. cbn [mbind option_bind]. rewrite <- app_assoc. done.
Qed.

Lemma channelValid_spec c : channelValid c = true -> 0x4000 <= c <= 0x7FFF.
Proof. unfold channelValid. rewrite andb_true_iff, !Z.leb_le. done. Qed.

(** The header words of a frame. *)
Lemma channelFrame_head channel data rest :
  channelValid channel = true -> payload_ok data ->
  exists b0 b1 b2 b3 tl, channelFrame channel data ++ rest = b0 :: b1 :: b2 :: b3 :: tl /\
    is_byte b0 /\ is_byte b1 /\ is_byte b2 /\ is_byte b3 /\
    0x40 <= b0 <= 0x7F /\ b0 * 256 + b1 = channel /\ b2 * 256 + b3 = Z.of_nat (length data).
Proof.
  intros Hc%channelValid_spec Hd. unfold payload_ok in Hd.
  unfold channelFrame, writeU16Be. cbn [app]. do 5 eexists. split; [done|].
  rewrite !mask_byte, !shiftr_div by lia. width.
Qed.

Lemma be_len b2 b3 : is_byte b2 -> is_byte b3 -> (b2 <<. 8) |. b3 = b2 * 256 + b3.
Proof. intros. rewrite lor_disjoint_add by (done || lia). done. Qed.

Lemma channelFrame_payload channel data rest :
  peek (channelFrame channel data ++ rest) 4 (length data) = Some data.
Proof.
  unfold channelFrame. rewrite <- !app_assoc.
  apply (peek_app (writeU16Be channel ++ writeU16Be (Z.of_nat (length data))) data).
Qed.

Lemma isChannelData_frame channel data rest :
  channelValid channel = true -> payload_ok data ->
  isChannelData (channelFrame channel data ++ rest) = Some true.
Proof.
  intros Hc Hd. pose proof (channelFrame_length channel data Hd) as Hl.
  destruct (payload_padded data Hd) as [Hp _].
  assert (Hl' : length (channelFrame channel data ++ rest) =
                (4 + paddedLen (length data) + length rest)%nat) by (rewrite length_app; lia).
  destruct (channelFrame_head channel data rest Hc Hd)
    as (b0 & b1 & b2 & b3 & tl & E & H0 & H1 & H2 & H3 & Hb & _ & Hn).
  rewrite E in *. unfold isChannelData, ChannelDataHeaderSize. rewrite Hl'.
  cbn [Nat.add Nat.ltb Nat.leb lookup list_lookup mbind option_bind].
  destruct (Z.ltb_spec b0 64), (Z.ltb_spec 127 b0); try lia. cbn [orb].
  rewrite be_len, Hn, Nat2Z.id by done. f_equal. apply Nat.leb_le. lia.
Qed.

(** What [isChannelData] accepts. *)
Lemma isChannelData_total data :
  exists b, isChannelData data = Some b /\
    (b = true -> exists d0, data !! 0%nat = Some d0 /\ 0x40 <= d0 <= 0x7F /\ (4 <= length data)%nat).
Proof.
  unfold isChannelData, ChannelDataHeaderSize.
  destruct (Nat.ltb_spec (length data) 4); [by eexists|].
  destruct data as [|d0 [|d1 [|d2 [|d3 tl]]]]; try (simpl in *; lia).
  cbn [lookup list_lookup mbind option_bind].
  destruct (Z.ltb_spec d0 64), (Z.ltb_spec 127 d0); cbn [orb]; try by eexists.
  eexists; split; [done|]. intros _. exists d0. split; [done|]. split; [lia|simpl; lia].
Qed.

(** A STUN message starts with a byte below 0x40. *)
Lemma isMessage_first data d0 :
  is_byte d0 -> data !! 0%nat = Some d0 -> isMessage data = Some true -> d0 < 0x40.
Proof.
  intros Hb E. unfold isMessage. destruct (_ <? _)%nat; [done|]. rewrite E. cbn [mbind option_bind].
  destruct (Z.eqb_spec (d0 &. 0xC0) 0) as [Hz|]; [|done]. intros _.
  rewrite (land_field d0 2 6) in Hz by (lia || done). width.
Qed.

(** [unwrapChannelData] on any buffer. *)
Lemma unwrapChannelData_total (buf : bytes) (c0 : Z) (f0 : nat) :
  bytes_ok buf ->
  exists u, unwrapChannelData buf c0 f0 = Some u /\
    (un_ret u <> 0%nat ->
       un_data u = Some 4%nat /\ (4 + un_ret u <= un_frameSize u <= length buf)%nat /\
       channelValid (un_channel u) = true).
Proof.
  intros Hb.
  unfold unwrapChannelData, ChannelDataHeaderSize.
  destruct (Nat.ltb_spec (length buf) 4); [by eexists|].
  destruct buf as [|b0 [|b1 [|b2 [|b3 tl]]]]; try (simpl in *; lia).
  cbn [lookup list_lookup mbind option_bind].
  destruct (channelValid _) eqn:Hc; cbn [negb]; [|by eexists].
  rewrite !Forall_cons in Hb. destruct Hb as (H0 & H1 & H2 & H3 & _).
  rewrite be_len by done. set (n := Z.to_nat (b2 * 256 + b3)).
  destruct (Nat.ltb_spec (length (b0 :: b1 :: b2 :: b3 :: tl) - 4) n); [by eexists|].
  eexists; split; [done|]. intros _. cbn [un_data un_ret un_frameSize un_channel].
  assert (n <= paddedLen n)%nat by (apply paddedLen_bounds; subst n; width).
  split; [done|]. split; [|done]. simpl length in *. lia.
Qed.

(** [wrapChannelData] never leaves the vector it has sized. *)
Lemma wrapChannelData_total channel data out :
  exists n f, wrapChannelData channel data out = Some (n, f) /\
    (n <> 0%nat -> channelValid channel = true /\ payload_ok data /\ f = channelFrame channel data).
Proof.
  destruct (channelValid channel) eqn:Hc.
  - destruct (decide (payload_ok data)) as [Hd|Hd].
    + rewrite wrapChannelData_frame by done. eauto 7.
    + unfold wrapChannelData. rewrite Hc. cbn [negb].
      destruct (Z.ltb_spec 0xFFFF (Z.of_nat (length data))); [|unfold payload_ok in Hd; lia].
      by exists 0%nat, out.
  - unfold wrapChannelData. rewrite Hc. by exists 0%nat, out.
Qed.

Lemma unwrapChannelData_frame channel data rest c0 f0 :
  channelValid channel = true -> payload_ok data ->
  unwrapChannelData (channelFrame channel data ++ rest) c0 f0
  = Some (mkUnwrapped (length data) channel (Some 4%nat) (length (channelFrame channel data))).
Proof.
  intros Hc Hd. pose proof (channelFrame_length channel data Hd) as Hl.
  destruct (payload_padded data Hd) as [Hp Hp4].
  assert (Hl' : length (channelFrame channel data ++ rest) =
                (4 + paddedLen (length data) + length rest)%nat) by (rewrite length_app; lia).
  destruct (channelFrame_head channel data rest Hc Hd)
    as (b0 & b1 & b2 & b3 & tl & E & H0 & H1 & H2 & H3 & Hb & Hch & Hn).
  rewrite Hl. rewrite E in *. unfold unwrapChannelData, ChannelDataHeaderSize. rewrite Hl'.
  destruct (Nat.ltb_spec (4 + paddedLen (length data) + length rest) 4); [lia|].
  cbn [lookup list_lookup mbind option_bind].
  rewrite be16_value, Hch, Hc by done. cbn [negb]. rewrite be_len, Hn, Nat2Z.id by done.
  destruct (Nat.ltb_spec (4 + paddedLen (length data) + length rest - 4) (length data)); [lia|].
  match goal with |- context [Nat.min ?a ?b] => rewrite (Nat.min_l a b) by lia end. done.
Qed.

(** ** Properties *)

(** ChannelData round trip.  For a channel in 0x4000..0x7FFF and at most 65535 bytes of
    data, [wrapChannelData] into any vector yields a frame whose size is a multiple of
    four; the frame, also with the bytes of later frames behind it, is recognised as
    ChannelData, and [unwrapChannelData] returns the data length, the channel, a pointer
    to exactly the data, and the frame's size. *)
Theorem channeldata_roundtrip (channel : Z) (data out rest : bytes) (c0 : Z) (f0 : nat) :
  channelValid channel = true -> Z.of_nat (length data) <= 0xFFFF ->
  exists frame, wrapChannelData channel data out = Some (length frame, frame) /\
    (length frame mod 4 = 0)%nat /\
    isChannelData (frame ++ rest) = Some true /\
    unwrapChannelData (frame ++ rest) c0 f0
    = Some (mkUnwrapped (length data) channel (Some 4%nat) (length frame)) /\
    peek (frame ++ rest) 4 (length data) = Some data.
Proof.
  intros Hc Hd. exists (channelFrame channel data). split; [by apply wrapChannelData_frame|].
  pose proof (channelFrame_length channel data Hd) as Hl.
  destruct (payload_padded data Hd) as [Hp Hp4]. split; [rewrite Hl; lia|].
  split; [by apply isChannelData_frame|]. split; [|apply channelFrame_payload].
  by apply unwrapChannelData_frame.
Qed.

Lemma channeldata_roundtrip_witness :
  exists frame, wrapChannelData 0x4001 [1; 2; 3; 4; 5] [9; 9] = Some (length frame, frame) /\
    (length frame mod 4 = 0)%nat /\
    isChannelData (frame ++ [0x40]) = Some true /\
    unwrapChannelData (frame ++ [0x40]) 0 0
    = Some (mkUnwrapped 5 0x4001 (Some 4%nat) (length frame)) /\
    peek (frame ++ [0x40]) 4 5 = Some [1; 2; 3; 4; 5].
Proof.
  apply (channeldata_roundtrip 0x4001 [1; 2; 3; 4; 5] [9; 9] [0x40] 0 0);
    [reflexivity | vm_compute; discriminate].
Defined.

(** ChannelData never looks outside the datagram and never claims more than it holds.
    On every byte string [unwrapChannelData] returns; a non-zero result is a data range
    inside the frame it reports, which lies inside the buffer, on a valid channel; and a
    packet [isMessage] takes for STUN is never taken for ChannelData. *)
Theorem channeldata_safe (buf : bytes) (c0 : Z) (f0 : nat) :
  bytes_ok buf ->
  (exists u, unwrapChannelData buf c0 f0 = Some u /\
     (un_ret u <> 0%nat ->
        un_data u = Some 4%nat /\ (4 + un_ret u <= un_frameSize u <= length buf)%nat /\
        channelValid (un_channel u) = true)) /\
  (isMessage buf = Some true -> isChannelData buf = Some false).
Proof.
  intros Hb. split.
  - by apply unwrapChannelData_total.
  - intros Hm. destruct (isChannelData_total buf) as ([] & E & Hd); [|done].
    destruct (Hd eq_refl) as (d0 & E0 & Hr & _).
    pose proof (isMessage_first buf d0 (Forall_lookup_1 _ _ _ _ Hb E0) E0 Hm). lia.
Qed.

Lemma channeldata_safe_witness :
  (exists u, unwrapChannelData [0x40; 0; 0; 9; 1] 0 0 = Some u /\
     (un_ret u <> 0%nat ->
        un_data u = Some 4%nat /\ (4 + un_ret u <= un_frameSize u <= 5)%nat /\
        channelValid (un_channel u) = true)) /\
  (isMessage [0x40; 0; 0; 9; 1] = Some true -> isChannelData [0x40; 0; 0; 9; 1] = Some false).
Proof. apply (channeldata_safe [0x40; 0; 0; 9; 1] 0 0). by apply (bool_decide_unpack _), I. Defined.
