(* ===== verification/StunConn.v ===== *)
(** * The TURN-over-TCP stream parser (include/stice/turn/stunconn.hpp, src/turn/stunconn.cpp)

    [StunConn] cuts a TCP byte stream into self-delimiting STUN and ChannelData frames.  Its
    state is the buffer and the number of bytes already consumed, as in the class; a
    [size_t] result that may be the sentinel [SIZE_MAX] is kept in [Z].  [readFrame] hands
    out a pointer into the buffer, here an offset.

    The specification is a function [cutStream] on the whole byte stream.  The refinement
    theorems show that the class with the receive loop of the server
    (src/stserver/turn_server.cpp, [handleTcpConnData]) computes it, whatever the sizes of
    the chunks the bytes arrive in. *)

From S2P Require Import Prelude.
From S2P Require Import Bytes.
From S2P Require Import Crypto.
From S2P Require Import StunMessage.
From S2P Require Import ChannelData.
Open Scope Z_scope.
Open Scope c_scope.

Definition SIZE_MAX : Z := 2 ^ 64 - 1.

Definition kStunHeaderSize : Z := 20.
Definition kStunMagicCookie : Z := 0x2112A442.
Definition kChannelMin : Z := 0x4000.
Definition kChannelMax : Z := 0x7FFF.
Definition kChannelDataHeaderSize : Z := 4.
Definition kChannelDataPadding : Z := 4.

(** The size of the frame at the head of the buffer, 0 when it is incomplete, [SIZE_MAX]
    when there is none. *)
Definition consumeSingleTurnFrame (buf : bytes) : option Z :=
  let size := Z.of_nat (length buf) in
  if size <? 4 then Some 0 else
  b0 ← buf !! 0%nat;
  if b0 <? 0x40 then
    if size <? 8 then Some 0 else
    cookie ← readU32Be buf 4;
    if negb (cookie =? kStunMagicCookie) then Some SIZE_MAX else
    length ← readU16Be buf 2;
    let frameSize := kStunHeaderSize + length in
    if size <? frameSize then Some 0 else Some frameSize
  else
    channel ← readU16Be buf 0;
    if (kChannelMin <=? channel) && (channel <=? kChannelMax) then
      length ← readU16Be buf 2;
      let frameSize := kChannelDataHeaderSize + length in
      let padding := frameSize mod kChannelDataPadding in
      let frameSize := if negb (padding =? 0) then frameSize + (kChannelDataPadding - padding)
                       else frameSize in
      if size <? frameSize then Some 0 else Some frameSize
    else Some SIZE_MAX.

Record StunConn := mkStunConn { buf_ : bytes; consumed_ : nat }.

Definition newStunConn : StunConn := mkStunConn [] 0.

Definition feed (c : StunConn) (data : bytes) : StunConn :=
  if (length data =? 0)%nat then c else
  let c := if (0 <? consumed_ c)%nat && (length (buf_ c) / 2 <=? consumed_ c)%nat
           then mkStunConn (drop (consumed_ c) (buf_ c)) 0 else c in
  mkStunConn (buf_ c ++ data) (consumed_ c).

(** The returned size, the offset [out] points to when it was set, and the new state. *)
Definition readFrame (c : StunConn) : option (Z * option nat * StunConn) :=
  if (length (buf_ c) <=? consumed_ c)%nat then Some (0, None, c) else
  frameSize ← consumeSingleTurnFrame (drop (consumed_ c) (buf_ c));
  if frameSize =? 0 then Some (0, None, c) else
  if frameSize =? SIZE_MAX
  then Some (SIZE_MAX, None, mkStunConn (buf_ c) (consumed_ c + 1)) else
  Some (frameSize, Some (consumed_ c), mkStunConn (buf_ c) (consumed_ c + Z.to_nat frameSize)).

Definition buffered (c : StunConn) : nat := (length (buf_ c) - consumed_ c)%nat.

Definition takeBuffered (c : StunConn) : bytes * StunConn :=
  ((if (consumed_ c <? length (buf_ c))%nat then drop (consumed_ c) (buf_ c) else []),
   mkStunConn [] 0).

(** The receive loop of [handleTcpConnData]: every frame in turn, until the buffer holds no
    complete frame or the stream is broken.  The result has the frames handed to
    [handleTcpFrame], and whether the connection stays open. *)
Fixpoint frameLoop (fuel : nat) (c : StunConn) (frames : list bytes)
    : option (list bytes * bool * StunConn) :=
  match fuel with
  | O => None
  | S fuel =>
      r ← readFrame c;
      let '(fs, out, c') := r in
      if fs =? 0 then Some (frames, true, c') else
      if fs =? SIZE_MAX then Some (frames, false, c') else
      off ← out;
      frame ← peek (buf_ c') off (Z.to_nat fs);
      frameLoop fuel c' (frames ++ [frame])
  end.

(** One chunk from the socket: [feed], then the loop. *)
Definition onChunk (c : StunConn) (data : bytes) : option (list bytes * bool * StunConn) :=
  let c := feed c data in frameLoop (S (length (buf_ c))) c [].

(** Chunks until the connection is closed. *)
Fixpoint onChunks (c : StunConn) (chunks : list bytes) : option (list bytes * bool * StunConn) :=
  match chunks with
  | [] => Some ([], true, c)
  | d :: chunks =>
      r ← onChunk c d;
      let '(fs, open, c) := r in
      if negb open then Some (fs, false, c) else
      r ← onChunks c chunks;
      let '(fs', open, c) := r in
      Some (fs ++ fs', open, c)
  end.

(** ** Specification *)

Inductive Cut := Incomplete | Bad | Frame (n : nat).

(** What the head of a stream is, from the first bytes alone. *)
Definition cutFrame (s : bytes) : Cut :=
  let need n := if (length s <? n)%nat then Incomplete else Frame n in
  match s with
  | b0 :: _ :: l0 :: l1 :: tl =>
      let len := Z.to_nat (l0 * 256 + l1) in
      if b0 <? 0x40 then
        match tl with
        | c0 :: c1 :: c2 :: c3 :: _ =>
            if bool_decide ([c0; c1; c2; c3] = [0x21; 0x12; 0xA4; 0x42])
            then need (20 + len)%nat else Bad
        | _ => Incomplete
        end
      else if b0 <? 0x80 then need (4 + paddedLen len)%nat else Bad
  | _ => Incomplete
  end.

(** The frames of a stream; [Some] the bytes behind the last complete frame, [None] when
    the stream is broken. *)
Fixpoint cutLoop (fuel : nat) (s : bytes) : list bytes * option bytes :=
  match fuel with
  | O => ([], Some s)
  | S fuel =>
      match cutFrame s with
      | Incomplete => ([], Some s)
      | Bad => ([], None)
      | Frame n => let '(fs, r) := cutLoop fuel (drop n s) in (take n s :: fs, r)
      end
  end.

Definition cutStream (s : bytes) : list bytes * option bytes := cutLoop (length s) s.

(** ** The code finds the same frames as the specification *)

Definition cut_size (c : Cut) : Z :=
  match c with Incomplete => 0 | Bad => SIZE_MAX | Frame n => Z.of_nat n end.

Lemma cookie_bytes c0 c1 c2 c3 :
  is_byte c0 -> is_byte c1 -> is_byte c2 -> is_byte c3 ->
  (c0 * 16777216 + c1 * 65536 + c2 * 256 + c3 =? kStunMagicCookie)
  = bool_decide ([c0; c1; c2; c3] = [0x21; 0x12; 0xA4; 0x42]).
Proof.
  intros H0 H1 H2 H3. apply eq_true_iff_eq. rewrite Z.eqb_eq, bool_decide_eq_true.
  unfold kStunMagicCookie. split; [|by intros [= -> -> -> ->]].
  intros E. repeat f_equal; width.
Qed.

(** Rounding the whole frame or the data alone up to four is the same. *)
Lemma tcp_padding len :
  0 <= len < 2 ^ 16 ->
  (let f := kChannelDataHeaderSize + len in
   let padding := f mod kChannelDataPadding in
   if negb (padding =? 0) then f + (kChannelDataPadding - padding) else f)
  = Z.of_nat (4 + paddedLen (Z.to_nat len)).
Proof.
  intros Hl. unfold paddedLen. rewrite Z2Nat.id, paddedSize_spec by lia.
  unfold kChannelDataHeaderSize, kChannelDataPadding. cbv zeta.
  destruct (Z.eqb_spec ((4 + len) mod 4) 0); cbn [negb]; lia.
Qed.

Lemma size_ltb (s : bytes) (z : Z) (n : nat) : z = Z.of_nat n ->
  (if Z.of_nat (length s) <? z then Some 0 else Some z)
  = Some (cut_size (if (length s <? n)%nat then Incomplete else Frame n)).
Proof.
  intros ->. destruct (Z.ltb_spec (Z.of_nat (length s)) (Z.of_nat n)),
    (Nat.ltb_spec (length s) n); try lia; done.
Qed.

Lemma consumeSingleTurnFrame_spec s :
  bytes_ok s -> consumeSingleTurnFrame s = Some (cut_size (cutFrame s)).
Proof.
  intros Hs. unfold consumeSingleTurnFrame, cutFrame.
  destruct s as [|b0 [|b1 [|l0 [|l1 tl]]]]; try done.
  rewrite !Forall_cons in Hs. destruct Hs as (K0 & K1 & K2 & K3 & Ht).
  set (s := b0 :: b1 :: l0 :: l1 :: tl).
  destruct (Z.ltb_spec (Z.of_nat (length s)) 4); [cbn in *; lia|].
  assert (E2 : readU16Be s 2 = Some (l0 * 256 + l1)) by (by apply readU16Be_at).
  assert (E0 : readU16Be s 0 = Some (b0 * 256 + b1)) by (by apply readU16Be_at).
  change (s !! 0%nat) with (Some b0). cbn [mbind option_bind]. rewrite E2, E0. cbn [mbind option_bind].
  destruct (Z.ltb_spec b0 64).
  - destruct tl as [|c0 [|c1 [|c2 [|c3 tl]]]]; try done.
    rewrite !Forall_cons in Ht. destruct Ht as (K4 & K5 & K6 & K7 & Ht).
    destruct (Z.ltb_spec (Z.of_nat (length s)) 8); [cbn in *; lia|].
    assert (E4 : readU32Be s 4 = Some (c0 * 16777216 + c1 * 65536 + c2 * 256 + c3)).
    { unfold readU32Be. cbn [s lookup list_lookup Nat.add mbind option_bind]. by rewrite be32_value. }
    rewrite E4. cbn [mbind option_bind]. rewrite cookie_bytes by done.
    case_bool_decide; cbn [negb]; [|done].
    apply (size_ltb s). unfold kStunHeaderSize. width.
  - assert (Ec : (kChannelMin <=? b0 * 256 + b1) && (b0 * 256 + b1 <=? kChannelMax) = (b0 <? 128)).
    { unfold kChannelMin, kChannelMax. apply eq_true_iff_eq.
      rewrite andb_true_iff, !Z.leb_le, Z.ltb_lt. width. }
    rewrite Ec. destruct (b0 <? 128); [|done].
    pose proof (tcp_padding (l0 * 256 + l1) ltac:(width)) as Ep. cbv zeta in Ep. rewrite Ep.
    by apply (size_ltb s).
Qed.

(** ** Cutting a stream *)

Lemma cutFrame_bounds s n : cutFrame s = Frame n -> (4 <= n <= length s)%nat.
Proof.
  unfold cutFrame. destruct s as [|b0 [|b1 [|l0 [|l1 tl]]]]; try done.
  set (s := b0 :: b1 :: l0 :: l1 :: tl).
  assert (Hneed : forall k, (4 <= k)%nat ->
    (if (length s <? k)%nat then Incomplete else Frame k) = Frame n -> (4 <= n <= length s)%nat).
  { intros k Hk. destruct (Nat.ltb_spec (length s) k); [done|]. intros [= <-]. lia. }
  destruct (b0 <? 64).
  - destruct tl as [|c0 [|c1 [|c2 [|c3 tl]]]]; try done.
    case_bool_decide; [|done]. apply Hneed. lia.
  - destruct (b0 <? 128); [|done]. apply Hneed. lia.
Qed.

(** More bytes never change a verdict, once there is one. *)
Lemma cutFrame_app s q : cutFrame s <> Incomplete -> cutFrame (s ++ q) = cutFrame s.
Proof.
  unfold cutFrame. destruct s as [|b0 [|b1 [|l0 [|l1 tl]]]]; try done. cbn [app].
  set (s := b0 :: b1 :: l0 :: l1 :: tl).
  assert (Hneed : forall k,
    (if (length s <? k)%nat then Incomplete else Frame k) <> Incomplete ->
    (if (length (s ++ q) <? k)%nat then Incomplete else Frame k)
    = (if (length s <? k)%nat then Incomplete else Frame k)).
  { intros k. rewrite length_app. destruct (Nat.ltb_spec (length s) k); [done|].
    destruct (Nat.ltb_spec (length s + length q) k); [lia|done]. }
  change (b0 :: b1 :: l0 :: l1 :: tl ++ q) with (s ++ q).
  destruct (b0 <? 64).
  - destruct tl as [|c0 [|c1 [|c2 [|c3 tl]]]]; try done. cbn [app].
    case_bool_decide; [|done]. apply Hneed.
  - destruct (b0 <? 128); [|done]. apply Hneed.
Qed.

Lemma cutLoop_fuel f1 f2 s :
  (length s <= f1)%nat -> (length s <= f2)%nat -> cutLoop f1 s = cutLoop f2 s.
Proof.
  revert f2 s. induction f1 as [|f1 IH]; intros f2 s H1 H2.
  { destruct s; [|simpl in *; lia]. by destruct f2. }
  destruct f2 as [|f2]; [destruct s; [done|simpl in *; lia]|]. simpl.
  destruct (cutFrame s) as [| |n] eqn:E; try done.
  pose proof (cutFrame_bounds _ _ E). rewrite (IH f2); [done|rewrite length_drop; lia..].
Qed.

(** The equation of [cutStream]. *)
Lemma cutStream_unfold s :
  cutStream s = match cutFrame s with
                | Incomplete => ([], Some s)
                | Bad => ([], None)
                | Frame n => (take n s :: (cutStream (drop n s)).1, (cutStream (drop n s)).2)
                end.
Proof.
  unfold cutStream. rewrite (cutLoop_fuel _ (S (length s)) s) by lia. simpl.
  destruct (cutFrame s) as [| |n] eqn:E; try done. pose proof (cutFrame_bounds _ _ E).
  rewrite (cutLoop_fuel (length s) (length (drop n s))) by (rewrite ?length_drop; lia).
  by destruct (cutLoop _ (drop n s)).
Qed.

(** Induction on the frames of a stream. *)
Lemma stream_ind (P : bytes -> Prop) :
  (forall s, (forall n, cutFrame s = Frame n -> P (drop n s)) -> P s) -> forall s, P s.
Proof.
  intros H s. induction s as [s IH] using (well_founded_induction (well_founded_ltof _ length)).
  apply H. intros n E. apply IH. unfold ltof. pose proof (cutFrame_bounds _ _ E).
  rewrite length_drop. lia.
Qed.

(** Cutting what has arrived and going on later is cutting everything at once. *)
Lemma cutStream_app s q :
  cutStream (s ++ q)
  = match cutStream s with
    | (fs, Some r) => (fs ++ (cutStream (r ++ q)).1, (cutStream (r ++ q)).2)
    | (fs, None) => (fs, None)
    end.
Proof.
  induction s as [s IH] using stream_ind. rewrite (cutStream_unfold s).
  destruct (cutFrame s) as [| |n] eqn:E.
  - by destruct (cutStream (s ++ q)).
  - rewrite cutStream_unfold, cutFrame_app by congruence. by rewrite E.
  - rewrite (cutStream_unfold (s ++ q)), cutFrame_app by congruence. rewrite E.
    pose proof (cutFrame_bounds _ _ E) as Hn.
    rewrite take_app_le, drop_app_le by lia. rewrite (IH n eq_refl).
    by destruct (cutStream (drop n s)) as [fs [r|]].
Qed.

(** Nothing is lost: the frames and the rest make up the stream. *)
Lemma cutStream_join s fs r : cutStream s = (fs, Some r) -> mjoin fs ++ r = s.
Proof.
  revert fs r. induction s as [s IH] using stream_ind. intros fs r. rewrite cutStream_unfold.
  destruct (cutFrame s) as [| |n] eqn:E; [by intros [= <- <-]|done|].
  destruct (cutStream (drop n s)) as [fs' [r'|]] eqn:E'; [|done]. intros [= <- <-].
  simpl. rewrite <- app_assoc, (IH n eq_refl fs' r' E'). apply take_drop.
Qed.

(** ** The class refines the stream *)

(** The bytes received and not yet handed out. *)
Definition pending (c : StunConn) : bytes := drop (consumed_ c) (buf_ c).

Definition conn_ok (c : StunConn) : Prop :=
  (consumed_ c <= length (buf_ c))%nat /\ bytes_ok (buf_ c).

Lemma pending_ok c : conn_ok c -> bytes_ok (pending c).
Proof. intros [_ H]. by apply Forall_drop. Qed.

Lemma feed_spec c d :
  conn_ok c -> bytes_ok d -> conn_ok (feed c d) /\ pending (feed c d) = pending c ++ d.
Proof.
  intros [Hc Hb] Hd. unfold feed, pending, conn_ok.
  destruct (Nat.eqb_spec (length d) 0) as [E|E].
  { destruct d; [|done]. by rewrite app_nil_r. }
  destruct (_ && _); cbn [buf_ consumed_].
  - rewrite drop_0. split; [|done]. split; [lia|]. by apply bytes_ok_app; [apply Forall_drop|].
  - rewrite length_app, drop_app_le by lia. split; [|done]. split; [lia|]. by apply bytes_ok_app.
Qed.

Lemma buffered_spec c : buffered c = length (pending c).
Proof. unfold buffered, pending. by rewrite length_drop. Qed.

Lemma takeBuffered_spec c :
  conn_ok c -> takeBuffered c = (pending c, newStunConn).
Proof.
  intros [Hc _]. unfold takeBuffered, pending, newStunConn.
  destruct (Nat.ltb_spec (consumed_ c) (length (buf_ c))); [done|]. by rewrite drop_ge by lia.
Qed.

(** [readFrame] by the verdict on the pending bytes. *)
(** A frame is as long as its 16-bit length field says. *)
Lemma cutFrame_small s n : bytes_ok s -> cutFrame s = Frame n -> Z.of_nat n < 70000.
Proof.
  intros Hp E. unfold cutFrame in E.
  destruct s as [|b0 [|b1 [|l0 [|l1 tl]]]]; try done.
  rewrite !Forall_cons in Hp. destruct Hp as (_ & _ & H2 & H3 & _).
  assert (Hlen : Z.of_nat (Z.to_nat (l0 * 256 + l1)) < 65536) by width.
  destruct (paddedLen_bounds (Z.to_nat (l0 * 256 + l1))) as [Hpad _]; [lia|].
  set (len := Z.to_nat (l0 * 256 + l1)) in *. clearbody len.
  destruct (b0 <? 64).
  - destruct tl as [|c0 [|c1 [|c2 [|c3 tl]]]]; try done. case_bool_decide; [|done].
    destruct (_ <? _)%nat; [done|]. injection E as <-. lia.
  - destruct (b0 <? 128); [|done]. destruct (_ <? _)%nat; [done|]. injection E as <-. lia.
Qed.

Lemma readFrame_spec c :
  conn_ok c ->
  match cutFrame (pending c) with
  | Incomplete => readFrame c = Some (0, None, c)
  | Bad => readFrame c = Some (SIZE_MAX, None, mkStunConn (buf_ c) (consumed_ c + 1)) /\
           (consumed_ c + 1 <= length (buf_ c))%nat
  | Frame n =>
      readFrame c = Some (Z.of_nat n, Some (consumed_ c), mkStunConn (buf_ c) (consumed_ c + n)) /\
      (consumed_ c + n <= length (buf_ c))%nat
  end.
Proof.
  intros Hok. pose proof (pending_ok c Hok) as Hp. destruct Hok as [Hc Hb].
  unfold readFrame. destruct (Nat.leb_spec (length (buf_ c)) (consumed_ c)) as [Hle|Hlt].
  { unfold pending. by rewrite drop_ge by lia. }
  fold (pending c). rewrite consumeSingleTurnFrame_spec by done. cbn [mbind option_bind].
  assert (Hl : length (pending c) = (length (buf_ c) - consumed_ c)%nat)
    by apply length_drop.
  destruct (cutFrame (pending c)) as [| |n] eqn:E; cbn [cut_size]; [done|split; [done|lia]|].
  pose proof (cutFrame_bounds _ _ E) as Hn.
  assert (Hmax : Z.of_nat n <> SIZE_MAX).
  { pose proof (cutFrame_small _ _ Hp E). unfold SIZE_MAX. lia. }
  destruct (Z.eqb_spec (Z.of_nat n) 0); [lia|].
  destruct (Z.eqb_spec (Z.of_nat n) SIZE_MAX); [done|]. rewrite Nat2Z.id. split; [done|lia].
Qed.

(** The loop hands out the frames of the pending bytes. *)
Lemma frameLoop_spec fuel c acc :
  conn_ok c -> (length (pending c) < fuel)%nat ->
  exists c', conn_ok c' /\
    frameLoop fuel c acc
    = Some (acc ++ (cutStream (pending c)).1,
            bool_decide (is_Some (cutStream (pending c)).2), c') /\
    (forall r, (cutStream (pending c)).2 = Some r -> pending c' = r).
Proof.
  revert c acc. induction fuel as [|fuel IH]; intros c acc Hok Hf; [lia|].
  cbn [frameLoop]. pose proof (readFrame_spec c Hok) as Hr. rewrite (cutStream_unfold (pending c)).
  destruct (cutFrame (pending c)) as [| |n] eqn:E.
  - rewrite Hr. exists c. cbn. rewrite app_nil_r. split; [done|]. split; [done|]. by intros r [= <-].
  - destruct Hr as [-> Hlen]. cbn. rewrite app_nil_r. eexists. split; [|done]. by split; [|apply Hok].
  - destruct Hr as [-> Hlen]. cbn [mbind option_bind]. pose proof (cutFrame_bounds _ _ E) as Hn.
    destruct (Z.eqb_spec (Z.of_nat n) 0); [lia|].
    assert (Hn' : (Z.of_nat n =? SIZE_MAX) = false).
    { pose proof (readFrame_spec c Hok) as H. rewrite E in H. destruct H as [H _].
      unfold readFrame in H. destruct (_ <=? _)%nat; [injection H as H; lia|].
      destruct (consumeSingleTurnFrame _) as [k|]; [|done]. cbn [mbind option_bind] in H.
      destruct (k =? 0); [injection H as H; lia|].
      destruct (k =? SIZE_MAX) eqn:Ek; [done|]. congruence. }
    rewrite Hn'. cbn [mbind option_bind]. rewrite Nat2Z.id.
    rewrite peek_inb by (cbn [buf_]; lia). cbn [mbind option_bind buf_]. fold (pending c).
    set (c1 := mkStunConn (buf_ c) (consumed_ c + n)).
    assert (Hok1 : conn_ok c1) by (split; [cbn; lia|apply Hok]).
    assert (Hp1 : pending c1 = drop n (pending c)) by (unfold pending; cbn; by rewrite drop_drop).
    destruct (IH c1 (acc ++ [take n (pending c)]) Hok1) as (c' & Hok' & -> & Hr).
    { rewrite Hp1, length_drop. lia. }
    rewrite Hp1 in *. exists c'. split; [done|]. split; [|done]. cbn [fst snd].
    by rewrite <- app_assoc.
Qed.

Lemma onChunk_spec c d :
  conn_ok c -> bytes_ok d ->
  exists c', conn_ok c' /\
    onChunk c d = Some ((cutStream (pending c ++ d)).1,
                        bool_decide (is_Some (cutStream (pending c ++ d)).2), c') /\
    (forall r, (cutStream (pending c ++ d)).2 = Some r -> pending c' = r).
Proof.
  intros Hc Hd. destruct (feed_spec c d Hc Hd) as [Hok Hp]. unfold onChunk. rewrite <- Hp.
  apply (frameLoop_spec _ (feed c d) []); [done|].
  unfold pending. rewrite length_drop. lia.
Qed.

(** Bytes behind an incomplete head. *)
Lemma cutStream_rest s fs r : cutStream s = (fs, Some r) -> cutStream r = ([], Some r).
Proof.
  revert fs. induction s as [s IH] using stream_ind. intros fs. rewrite cutStream_unfold.
  destruct (cutFrame s) as [| |n] eqn:E; [|done|].
  - intros [= <- <-]. by rewrite cutStream_unfold, E.
  - destruct (cutStream (drop n s)) as [fs' r'] eqn:E'. cbn [fst snd]. intros [= <- ->].
    by eapply (IH n eq_refl).
Qed.

Lemma onChunks_spec chunks c :
  conn_ok c -> Forall bytes_ok chunks -> cutStream (pending c) = ([], Some (pending c)) ->
  exists c', conn_ok c' /\ onChunks c chunks
    = Some ((cutStream (pending c ++ mjoin chunks)).1,
            bool_decide (is_Some (cutStream (pending c ++ mjoin chunks)).2), c') /\
    (forall r, (cutStream (pending c ++ mjoin chunks)).2 = Some r -> pending c' = r).
Proof.
  intros Hc Hd. revert c Hc. induction Hd as [|d chunks Hd _ IH]; intros c Hc Hp.
  { cbn. exists c. rewrite app_nil_r, Hp. split; [done|]. split; [done|]. by intros r [= <-]. }
  cbn [onChunks mjoin list_join]. rewrite app_assoc, cutStream_app.
  destruct (onChunk_spec c d Hc Hd) as (c' & Hc' & -> & Hr). cbn [mbind option_bind].
  destruct (cutStream (pending c ++ d)) as [fs [r|]] eqn:E; cbn [fst snd] in *.
  - specialize (Hr r eq_refl). rewrite bool_decide_eq_true_2 by done. cbn [negb].
    destruct (IH c' Hc') as (c'' & Hc'' & -> & Hr').
    { rewrite Hr. by eapply cutStream_rest. }
    rewrite Hr in *. cbn [mbind option_bind]. by exists c''.
  - rewrite bool_decide_eq_false_2 by (by intros [? ?]). cbn [negb]. by exists c'.
Qed.

Lemma newStunConn_ok : conn_ok newStunConn.
Proof. by split; [cbn; lia|constructor]. Qed.

Lemma Forall_mjoin_split {A} (P : A -> Prop) (ls : list (list A)) :
  Forall P (mjoin ls) <-> Forall (Forall P) ls.
Proof. induction ls as [|l ls IH]; simpl; [done|]. by rewrite Forall_app, Forall_cons, IH. Qed.

(** ** The frames of the program delimit themselves *)

Definition self_delimited (f : bytes) : Prop := cutFrame f = Frame (length f).

Lemma stun_self_delimited t tid l : frame_ok t tid l -> self_delimited (frame t tid l).
Proof.
  intros Hok. pose proof (frame_length t tid l Hok) as Hl.
  destruct (Hok) as [Ht _ _ Hz]. unfold self_delimited, cutFrame.
  rewrite frame_hdr in * by done.
  set (n := length (tlvs l)) in *. unfold hdr, writeU16Be, writeU32Be in *. cbn [app] in *.
  set (f := _ :: _) in *. rewrite Hl.
  rewrite !mask_byte, !shiftr_div by lia.
  assert (E0 : u8 (t / 2 ^ 8) <? 64 = true) by (apply Z.ltb_lt; width). rewrite E0.
  replace (Z.to_nat (u8 (Z.of_nat n / 2 ^ 8) * 256 + u8 (Z.of_nat n mod 256))) with n by width.
  rewrite bool_decide_eq_true_2 by done.
  by destruct (Nat.ltb_spec (20 + n) (20 + n)); [lia|].
Qed.

Lemma channel_self_delimited channel data :
  channelValid channel = true -> payload_ok data -> self_delimited (channelFrame channel data).
Proof.
  intros Hc Hd. pose proof (channelFrame_length channel data Hd) as Hl.
  destruct (channelFrame_head channel data [] Hc Hd)
    as (b0 & b1 & b2 & b3 & tl & E & _ & _ & _ & _ & Hb & _ & Hn).
  rewrite app_nil_r in E. rewrite E in *. unfold self_delimited, cutFrame. rewrite Hl, Hn, Nat2Z.id.
  destruct (Z.ltb_spec b0 64), (Z.ltb_spec b0 128); try lia.
  by destruct (Nat.ltb_spec (4 + paddedLen (length data)) (4 + paddedLen (length data))); [lia|].
Qed.

Lemma cutStream_frames fs : Forall self_delimited fs -> cutStream (mjoin fs) = (fs, Some []).
Proof.
  induction 1 as [|f fs Hf _ IH]; [done|]. cbn [mjoin list_join].
  rewrite cutStream_unfold, cutFrame_app by (rewrite Hf; done).
  rewrite Hf, take_app_length, drop_app_length. by setoid_rewrite IH.
Qed.

(** ** Properties *)

(** C18: the TCP parser is independent of chunking.  Feed a new [StunConn] any byte stream in
    any chunks, running the server's receive loop after each: the loop terminates, the
    frames handed out are exactly those the specification cuts out of the whole stream,
    the connection is closed exactly when the stream is broken, and otherwise the bytes
    behind the last complete frame are what the buffer still holds, so that no byte is
    lost, repeated or reordered. *)
Theorem stream_parser_refines (chunks : list bytes) :
  Forall bytes_ok chunks ->
  let '(frames, rest) := cutStream (mjoin chunks) in
  exists c, onChunks newStunConn chunks = Some (frames, bool_decide (is_Some rest), c) /\
    (forall r, rest = Some r ->
       mjoin frames ++ r = mjoin chunks /\ takeBuffered c = (r, newStunConn)).
Proof.
  intros Hd. destruct (onChunks_spec chunks newStunConn newStunConn_ok Hd) as (c & Hc & E & Hr);
    [done|]. change (pending newStunConn) with (@nil Z) in *. cbn [app] in *.
  destruct (cutStream (mjoin chunks)) as [frames rest] eqn:Ec. exists c. split; [done|].
  intros r ->. split; [by eapply cutStream_join|].
  by rewrite takeBuffered_spec, (Hr r) by done.
Qed.

(** A ChannelData frame and the head of a STUN message, cut in the middle of the header. *)
Definition sampleChunks : list bytes :=
  [[0x40]; [1; 0; 3; 7; 8; 9]; [0; 0; 1; 0; 0; 0x21]; [0x12; 0xA4; 0x42; 5]].

Lemma stream_parser_refines_witness :
  exists c, onChunks newStunConn sampleChunks = Some ([[0x40; 1; 0; 3; 7; 8; 9; 0]], true, c) /\
    (forall r, Some [0; 1; 0; 0; 0x21; 0x12; 0xA4; 0x42; 5] = Some r ->
       mjoin [[0x40; 1; 0; 3; 7; 8; 9; 0]] ++ r = mjoin sampleChunks /\
       takeBuffered c = (r, newStunConn)).
Proof. apply (stream_parser_refines sampleChunks). by apply (bool_decide_unpack _), I. Defined.

(** Every message the program sends over TCP arrives.  For any sequence of frames, each
    the encoding of a STUN message or a ChannelData frame [wrapChannelData] built, and any
    way TCP splits the stream into chunks, the receiving side hands out exactly that
    sequence, keeps the connection open and has nothing left over. *)
Theorem sent_frames_received (fs chunks : list bytes) :
  Forall (fun f => (exists t tid l, frame_ok t tid l /\ f = frame t tid l) \/
                   (exists channel data n, channelValid channel = true /\
                      bytes_ok data /\ n <> 0%nat /\
                      wrapChannelData channel data [] = Some (n, f))) fs ->
  mjoin chunks = mjoin fs ->
  exists c, onChunks newStunConn chunks = Some (fs, true, c) /\ buffered c = 0%nat.
Proof.
  intros Hfs Hj.
  assert (Hf : Forall (fun f => self_delimited f /\ bytes_ok f) fs).
  { eapply Forall_impl; [exact Hfs|]. intros f [(t & tid & l & Hok & ->)|(ch & d & n & Hc & Hb & Hn & E)].
    - split; [by apply stun_self_delimited|]. rewrite frame_hdr by done. destruct Hok as [_ [_ ?] ? _].
      unfold hdr. repeat apply bytes_ok_app; auto using writeU16Be_ok, writeU32Be_ok, tlvs_bytes.
    - unfold wrapChannelData in E. rewrite Hc in E. cbn [negb] in E.
      destruct (Z.ltb_spec 0xFFFF (Z.of_nat (length d))) as [|Hd]; [congruence|].
      pose proof (wrapChannelData_frame ch d [] Hc Hd) as E'. unfold wrapChannelData in E'.
      rewrite Hc in E'. cbn [negb] in E'. destruct (Z.ltb_spec 0xFFFF (Z.of_nat (length d))); [lia|].
      rewrite E' in E. injection E as _ <-. split; [by apply channel_self_delimited|].
      unfold channelFrame. repeat apply bytes_ok_app; auto using writeU16Be_ok, bytes_ok_zeros. }
  apply Forall_and in Hf as [Hsd Hb].
  assert (Hb' : Forall bytes_ok chunks).
  { apply Forall_mjoin_split. rewrite Hj. by apply Forall_mjoin_split. }
  destruct (onChunks_spec chunks newStunConn newStunConn_ok Hb' eq_refl) as (c & _ & E & Hr).
  change (pending newStunConn) with (@nil Z) in *. cbn [app] in *.
  rewrite Hj, cutStream_frames in * by done. exists c. split; [exact E|].
  rewrite buffered_spec, (Hr []) by done. done.
Qed.

Lemma sent_frames_received_witness :
  exists c, onChunks newStunConn [[0x40; 1; 0]; [1; 7; 0; 0]; [0]]
            = Some ([[0x40; 1; 0; 1; 7; 0; 0; 0]], true, c) /\ buffered c = 0%nat.
Proof.
  apply sent_frames_received; [|reflexivity]. constructor; [|constructor]. right.
  exists 0x4001, [7], 8%nat. split; [reflexivity|]. split; [by apply (bool_decide_unpack _), I|].
  split; [discriminate|vm_compute; reflexivity].
Defined.
