(* ===== verification/TcpWriter.v ===== *)
(** * The non-blocking TCP writer of the server (src/stserver/turn_server.cpp)

    [sendTcpRawLocked] and [flushTcpLocked] on the write state of a connection
    ([TcpConn::writeBuf], [TcpConn::writeOff] of include/stice/stserver/turn_server.hpp).
    [::send] is the parameter [send]: call number [k] with [len] bytes on offer returns the
    result [n] and, for a negative [n], whether [wouldBlock()] holds.  POSIX bounds [n] by
    [len].  The result of an operation carries the bytes the kernel accepted, in order, and
    the last write-pending state reported to the IO backend.

    The abstract specification is a FIFO of bytes: [pendingBytes] is what was queued and not
    yet accepted. *)

From S2P Require Import Prelude.
From S2P Require Import Bytes.
Open Scope Z_scope.

Record Writer := mkWriter { writeBuf : bytes; writeOff : nat }.

Definition newWriter : Writer := mkWriter [] 0.

(** What a flush or a send did: the returned flag, the bytes accepted, the write-pending
    state reported (absent when nothing was reported), the state and the number of the next
    call to [send]. *)
Record WriteResult := mkWR {
  wr_ok : bool; wr_sent : bytes; wr_armed : option bool; wr_state : Writer; wr_calls : nat }.

Section Writer.
Context (send : nat -> nat -> Z * bool).

(** The loop of [flushTcpLocked]; [acc] collects the accepted bytes. *)
Fixpoint flushLoop (fuel : nat) (k : nat) (w : Writer) (acc : bytes) : option WriteResult :=
  match fuel with
  | O => None
  | S fuel =>
      if (writeOff w <? length (writeBuf w))%nat then
        let '(n, wb) := send k (length (writeBuf w) - writeOff w) in
        if 0 <? n then
          chunk ← peek (writeBuf w) (writeOff w) (Z.to_nat n);
          flushLoop fuel (S k) (mkWriter (writeBuf w) (writeOff w + Z.to_nat n)) (acc ++ chunk)
        else if (n <? 0) && wb then
          (* partial: the remainder waits for writability *)
          let drained := (length (writeBuf w) <=? writeOff w)%nat in
          Some (mkWR true acc (Some (negb drained)) (if drained then mkWriter [] 0 else w) (S k))
        else
          (* hard error: the buffer is dropped *)
          Some (mkWR false acc (Some false) (mkWriter [] 0) (S k))
      else
        let drained := (length (writeBuf w) <=? writeOff w)%nat in
        Some (mkWR true acc (Some (negb drained)) (if drained then mkWriter [] 0 else w) k)
  end.

Definition flushTcpLocked (k : nat) (w : Writer) : option WriteResult :=
  flushLoop (S (length (writeBuf w))) k w [].

Definition sendTcpRawLocked (k : nat) (w : Writer) (data : bytes) : option WriteResult :=
  if (length data =? 0)%nat then Some (mkWR true [] None w k) else
  let w := if (0 <? writeOff w)%nat then
             if (length (writeBuf w) <=? writeOff w)%nat then mkWriter [] 0
             else mkWriter (drop (writeOff w) (writeBuf w)) 0
           else w in
  flushTcpLocked k (mkWriter (writeBuf w ++ data) (writeOff w)).

(** ** Specification *)

Definition pendingBytes (w : Writer) : bytes := drop (writeOff w) (writeBuf w).

Definition writer_ok (w : Writer) : Prop := (writeOff w <= length (writeBuf w))%nat.

(** [::send] never reports more than it was offered. *)
Definition send_bounded : Prop := forall k len, (send k len).1 <= Z.of_nat len.

Context (Hsend : send_bounded).

Lemma flushLoop_spec fuel k w acc :
  writer_ok w -> (length (pendingBytes w) < fuel)%nat ->
  exists r sent, flushLoop fuel k w acc = Some r /\ wr_sent r = acc ++ sent /\
    writer_ok (wr_state r) /\
    (wr_ok r = true -> sent ++ pendingBytes (wr_state r) = pendingBytes w) /\
    (wr_ok r = false -> pendingBytes (wr_state r) = [] /\ sent `prefix_of` pendingBytes w) /\
    wr_armed r = Some (bool_decide (pendingBytes (wr_state r) <> [])).
Proof.
  revert k w acc. induction fuel as [|fuel IH]; intros k w acc Hw Hf; [lia|]. cbn [flushLoop].
  assert (Hp : length (pendingBytes w) = (length (writeBuf w) - writeOff w)%nat)
    by apply length_drop.
  destruct (Nat.ltb_spec (writeOff w) (length (writeBuf w))) as [Hlt|Hge].
  - pose proof (Hsend k (length (writeBuf w) - writeOff w)%nat) as Hb.
    destruct (send k _) as [n wb]. cbn [fst] in Hb.
    assert (Hne : pendingBytes w <> []) by (intros E; rewrite E in Hp; simpl in Hp; lia).
    destruct (Z.ltb_spec 0 n) as [Hn|Hn].
    + rewrite peek_inb by lia. cbn [mbind option_bind]. fold (pendingBytes w).
      set (w1 := mkWriter (writeBuf w) (writeOff w + Z.to_nat n)).
      assert (Hp1 : pendingBytes w1 = drop (Z.to_nat n) (pendingBytes w))
        by (unfold pendingBytes; cbn; by rewrite drop_drop).
      destruct (IH (S k) w1 (acc ++ take (Z.to_nat n) (pendingBytes w)))
        as (r & sent & -> & Hs & Hok & Ht & Hfl & Ha).
      { unfold writer_ok, w1; cbn. lia. }
      { rewrite Hp1, length_drop. lia. }
      exists r, (take (Z.to_nat n) (pendingBytes w) ++ sent).
      rewrite Hp1 in *. split; [done|]. split; [by rewrite Hs, <- app_assoc|]. split; [done|].
      split; [|split; [|done]].
      * intros E. rewrite <- app_assoc, (Ht E). apply take_drop.
      * intros E. destruct (Hfl E) as [H1 H2]. split; [done|].
        rewrite <- (take_drop (Z.to_nat n) (pendingBytes w)) at 2. by apply prefix_app.
    + destruct ((n <? 0) && wb).
      * destruct (Nat.leb_spec (length (writeBuf w)) (writeOff w)); [lia|].
        eexists _, []. split; [done|]. cbn. rewrite app_nil_r, bool_decide_eq_true_2 by done. done.
      * eexists _, []. split; [done|]. cbn. rewrite app_nil_r. split; [done|].
        split; [apply Nat.le_0_l|]. split; [done|]. split; [|done]. split; [done|apply prefix_nil].
  - destruct (Nat.leb_spec (length (writeBuf w)) (writeOff w)); [|lia].
    assert (E : pendingBytes w = []) by (apply length_zero_iff_nil; lia).
    eexists _, []. split; [done|]. cbn. rewrite app_nil_r, E. split; [done|].
    split; [apply Nat.le_0_l|done].
Qed.

Lemma flushTcpLocked_spec k w :
  writer_ok w ->
  exists r, flushTcpLocked k w = Some r /\ writer_ok (wr_state r) /\
    (wr_ok r = true -> wr_sent r ++ pendingBytes (wr_state r) = pendingBytes w) /\
    (wr_ok r = false -> pendingBytes (wr_state r) = [] /\ wr_sent r `prefix_of` pendingBytes w) /\
    wr_armed r = Some (bool_decide (pendingBytes (wr_state r) <> [])).
Proof.
  intros Hw. destruct (flushLoop_spec (S (length (writeBuf w))) k w [] Hw)
    as (r & sent & E & Hs & H); [unfold pendingBytes; rewrite length_drop; lia|].
  exists r. split; [done|]. cbn [app] in Hs. by rewrite Hs.
Qed.

(** Dropping the sent prefix before appending keeps the queue. *)
Lemma compact_pending w data :
  writer_ok w ->
  let w' := if (0 <? writeOff w)%nat then
              if (length (writeBuf w) <=? writeOff w)%nat then mkWriter [] 0
              else mkWriter (drop (writeOff w) (writeBuf w)) 0
            else w in
  writer_ok (mkWriter (writeBuf w' ++ data) (writeOff w')) /\
  pendingBytes (mkWriter (writeBuf w' ++ data) (writeOff w')) = pendingBytes w ++ data.
Proof.
  unfold writer_ok, pendingBytes. intros Hw. cbv zeta. destruct (Nat.ltb_spec 0 (writeOff w)).
  - destruct (Nat.leb_spec (length (writeBuf w)) (writeOff w)); cbn.
    + rewrite (drop_ge (writeBuf w)) by lia. by split; [apply Nat.le_0_l|].
    + by split; [apply Nat.le_0_l|].
  - cbn. rewrite length_app. assert (E : writeOff w = 0%nat) by lia. rewrite E. split; [lia|done].
Qed.

Lemma sendTcpRawLocked_spec k w data :
  writer_ok w ->
  exists r, sendTcpRawLocked k w data = Some r /\ writer_ok (wr_state r) /\
    (wr_ok r = true -> wr_sent r ++ pendingBytes (wr_state r) = pendingBytes w ++ data) /\
    (wr_ok r = false -> pendingBytes (wr_state r) = [] /\
                        wr_sent r `prefix_of` pendingBytes w ++ data).
Proof.
  intros Hw. unfold sendTcpRawLocked. destruct (Nat.eqb_spec (length data) 0) as [E|E].
  { destruct data; [|done]. eexists. split; [done|]. cbn. rewrite app_nil_r. done. }
  destruct (compact_pending w data Hw) as [Hw' Hp]. cbv zeta in Hw', Hp.
  destruct (flushTcpLocked_spec k _ Hw') as (r & -> & Hok & H1 & H2 & _).
  rewrite Hp in *. eauto 6.
Qed.

(** ** Traces of writes *)

(** A write of some data, or a writability event. *)
Inductive WriteOp := WSend (data : bytes) | WFlush.

Definition queued (o : WriteOp) : bytes := match o with WSend d => d | WFlush => [] end.

Definition runOp (k : nat) (w : Writer) (o : WriteOp) : option WriteResult :=
  match o with WSend d => sendTcpRawLocked k w d | WFlush => flushTcpLocked k w end.

(** The bytes accepted over a sequence of operations, until the first hard error. *)
Fixpoint runOps (k : nat) (w : Writer) (os : list WriteOp) : option WriteResult :=
  match os with
  | [] => Some (mkWR true [] None w k)
  | o :: os =>
      r ← runOp k w o;
      if negb (wr_ok r) then Some r else
      r' ← runOps (wr_calls r) (wr_state r) os;
      Some (mkWR (wr_ok r') (wr_sent r ++ wr_sent r') (wr_armed r') (wr_state r') (wr_calls r'))
  end.

Lemma runOp_spec k w o :
  writer_ok w ->
  exists r, runOp k w o = Some r /\ writer_ok (wr_state r) /\
    (wr_ok r = true -> wr_sent r ++ pendingBytes (wr_state r) = pendingBytes w ++ queued o) /\
    (wr_ok r = false -> wr_sent r `prefix_of` pendingBytes w ++ queued o).
Proof.
  intros Hw. destruct o as [d|]; cbn [runOp queued].
  - destruct (sendTcpRawLocked_spec k w d Hw) as (r & -> & Hok & H1 & H2).
    exists r. split; [done|]. split; [done|]. split; [done|]. intros E. by apply H2.
  - destruct (flushTcpLocked_spec k w Hw) as (r & -> & Hok & H1 & H2 & _). rewrite app_nil_r.
    exists r. split; [done|]. split; [done|]. split; [done|]. intros E. by apply H2.
Qed.

Lemma runOps_spec k w os :
  writer_ok w ->
  exists r, runOps k w os = Some r /\
    (wr_ok r = true ->
       wr_sent r ++ pendingBytes (wr_state r) = pendingBytes w ++ mjoin (queued <$> os)) /\
    (wr_ok r = false -> wr_sent r `prefix_of` pendingBytes w ++ mjoin (queued <$> os)).
Proof.
  revert k w. induction os as [|o os IH]; intros k w Hw.
  { eexists. split; [done|]. cbn. rewrite app_nil_r. done. }
  cbn [runOps fmap list_fmap mjoin list_join].
  destruct (runOp_spec k w o Hw) as (r & -> & Hok & H1 & H2). cbn [mbind option_bind].
  destruct (wr_ok r) eqn:Er; cbn [negb].
  - specialize (H1 eq_refl). destruct (IH (wr_calls r) (wr_state r) Hok) as (r' & -> & H1' & H2').
    cbn [mbind option_bind]. eexists. split; [done|]. cbn [wr_ok wr_sent wr_state].
    rewrite app_assoc, <- H1, <- !app_assoc. split; intros E.
    + by rewrite (H1' E).
    + apply prefix_app. by apply H2'.
  - exists r. split; [done|]. split; [congruence|]. intros _. rewrite app_assoc.
    apply prefix_app_r. by apply H2.
Qed.

End Writer.

(** ** Properties *)

(** The TCP writer is a lossless FIFO.  For every sequence of writes and writability
    events on a new connection and every behaviour of [send] that respects POSIX (never
    more than offered; partial sends, would-block and errors at any point), the operations
    terminate; without a hard error the bytes the kernel accepted followed by the bytes
    still queued are exactly the bytes written, in order; after a hard error the accepted
    bytes are a prefix of them. *)
Theorem tcp_writer_fifo (send : nat -> nat -> Z * bool) (os : list WriteOp) :
  (forall k len, (send k len).1 <= Z.of_nat len) ->
  exists r, runOps send 0 newWriter os = Some r /\
    (wr_ok r = true -> wr_sent r ++ pendingBytes (wr_state r) = mjoin (queued <$> os)) /\
    (wr_ok r = false -> wr_sent r `prefix_of` mjoin (queued <$> os)).
Proof. intros Hs. exact (runOps_spec send Hs 0 newWriter os (Nat.le_0_l _)). Qed.

(** A kernel that takes two bytes at a time and blocks every third call. *)
Definition sampleSend (k len : nat) : Z * bool :=
  if (k mod 3 =? 2)%nat then (-1, true) else (Z.min 2 (Z.of_nat len), false).

Lemma tcp_writer_fifo_witness :
  exists r, runOps sampleSend 0 newWriter [WSend [1; 2; 3; 4; 5; 6; 7]; WSend [8]; WFlush] = Some r /\
    (wr_ok r = true -> wr_sent r ++ pendingBytes (wr_state r) = [1; 2; 3; 4; 5; 6; 7; 8]) /\
    (wr_ok r = false -> wr_sent r `prefix_of` [1; 2; 3; 4; 5; 6; 7; 8]).
Proof.
  apply (tcp_writer_fifo sampleSend [WSend [1; 2; 3; 4; 5; 6; 7]; WSend [8]; WFlush]).
  intros k len. unfold sampleSend. destruct (_ =? _)%nat; cbn [fst]; lia.
Defined.

(** Every queued byte has a wake-up.  After a flush, the write-pending state reported
    to the IO backend is on exactly when bytes are left in the queue, so a would-block never
    strands data and a drained connection does not spin. *)
Theorem write_pending_armed (send : nat -> nat -> Z * bool) (k : nat) (w : Writer) :
  (forall k len, (send k len).1 <= Z.of_nat len) -> (writeOff w <= length (writeBuf w))%nat ->
  exists r, flushTcpLocked send k w = Some r /\
    wr_armed r = Some (bool_decide (pendingBytes (wr_state r) <> [])) /\
    (wr_ok r = true -> wr_sent r ++ pendingBytes (wr_state r) = pendingBytes w).
Proof.
  intros Hs Hw. destruct (flushTcpLocked_spec send Hs k w Hw) as (r & E & _ & H1 & _ & Ha). eauto.
Qed.

Lemma write_pending_armed_witness :
  exists r, flushTcpLocked sampleSend 1 (mkWriter [1; 2; 3; 4; 5] 1) = Some r /\
    wr_armed r = Some (bool_decide (pendingBytes (wr_state r) <> [])) /\
    (wr_ok r = true -> wr_sent r ++ pendingBytes (wr_state r) = [2; 3; 4; 5]).
Proof.
  apply (write_pending_armed sampleSend 1 (mkWriter [1; 2; 3; 4; 5] 1)); [|cbn; lia].
  intros k len. unfold sampleSend. destruct (_ =? _)%nat; cbn [fst]; lia.
Defined.
