(* ===== verification/TurnState.v ===== *)
(** * The state of the TURN server (include/stice/stserver/turn_server.hpp)

    The data of [stserver::TurnServer] and the primitive steps its handlers are written in.
    An [Allocation *] or [TcpConn *] is the number of an object in a heap; the maps hold
    numbers, as the source's maps hold pointers, and a number whose object was freed is a
    dangling pointer.  A handler is a function in the monad [M]: state passing with [None]
    for undefined behaviour, which is an access to a freed object, an access outside a
    buffer, or a loop out of fuel.

    Every handler runs under the locks of the source ([stateMutex_], [Allocation::mtx],
    [prePairMtx], [writeMtx]), so one event is one step here; the clock stands still within
    a step.  The reference counts that keep an object alive while another thread uses it
    ([ioUsers], [dying_] of an allocation) guard the gaps between the locks and have no
    counterpart in a step.  Log output and the diagnostic counters are left out.

    The operating system is the record [Env]: the random source, the sockets and the
    address printer. *)

From stdpp Require Import sorting.
From S2P Require Import Prelude.
From S2P Require Import StateMonad.
From S2P Require Import Bytes.
From S2P Require Import Crypto.
From S2P Require Import Addr.
From S2P Require Import StunMessage.
From S2P Require Import StunConn.
From S2P Require Import TcpWriter.
Open Scope Z_scope.

Abbreviation socket_t := Z.
Definition STICE_INVALID_SOCKET : socket_t := -1.

(** ** Data *)

Record Permission := mkPermission { pm_peer : AddrRecord; pm_expiryMs : Z }.

Record Channel := mkChannel { ch_number : Z; ch_peer : AddrRecord; ch_expiryMs : Z }.

Record PendingConnect := mkPending {
  pc_connId : Z; pc_peerRelayAddr : AddrRecord; pc_firstDataSock : socket_t;
  pc_connectTid : bytes; pc_connectResponded : bool; pc_expiryMs : Z }.

(** [relaySock] is the handle of the [UdpSocket]; [valid()] is [<> STICE_INVALID_SOCKET]. *)
Record Allocation := mkAllocation {
  transport : Z; clientAddr : AddrRecord; controlSock : socket_t; relaySock : socket_t;
  relayedAddr : AddrRecord; relayPort : Z; username : string;
  permissions : list Permission; channels : list Channel; expiryMs : Z;
  pendingConnects : list PendingConnect }.

Record TcpConn := mkTcpConn {
  tc_sock : socket_t; peerAddr : AddrRecord; stunConn : StunConn; isData : bool;
  tc_connId : Z; writer : Writer; prePairBuf : bytes; dying : bool }.

Inductive WorkKind := UdpData | TcpAccepted | RelayData | TcpConnData | TcpConnClosed
  | TcpConnWritable.

Record WorkItem := mkWork {
  wk_kind : WorkKind; wk_sock : socket_t; wk_from : AddrRecord; wk_data : bytes }.

(** What the server does to the outside: datagrams from the listener and from relay
    sockets, bytes the kernel accepted on a TCP socket, and calls to the IO backend. *)
Inductive Output :=
| OUdp (dst : AddrRecord) (data : bytes)
| ORelay (sock : socket_t) (dst : AddrRecord) (data : bytes)
| OTcp (sock : socket_t) (data : bytes)
| OWritePending (sock : socket_t) (pending : bool)
| OAddRelay (sock : socket_t)
| ORemoveRelay (sock : socket_t)
| OAddTcp (sock : socket_t)
| ORemoveTcp (sock : socket_t)
| OClose (sock : socket_t).

(** The allocation tables. *)
Record Tables := mkTables {
  heap : gmap nat Allocation; nextAlloc : nat;
  allocations_ : gmap string nat;
  allocByRelaySock_ : gmap socket_t nat;
  allocByRelayAddr_ : list (AddrRecord * nat);
  allocByClientAddr_ : list (AddrRecord * nat);
  allocByControlSock_ : gmap socket_t nat;
  pendingByConnId_ : gmap Z nat;
  usedRelayPorts_ : gmap Z (option nat);
  nextConnId_ : Z; relayPortBegin_ : Z; relayPortEnd_ : Z }.

(** The TCP connections. *)
Record Conns := mkConns {
  conns : gmap nat TcpConn; nextConn : nat;
  tcpConns_ : list nat; tcpBySock_ : gmap socket_t nat;
  dataPipe_ : gmap socket_t socket_t; dataPipePeer_ : gmap socket_t nat;
  pendingFreeConns_ : list nat }.

Record Srv := mkSrv {
  tabs : Tables; cns : Conns; nonce_ : string; nonceExpiryMs_ : Z;
  clock : Z; draws : nat; binds : nat; sends : nat; outs : list Output;
  controlQueue_ : list WorkItem; shardQueues : list (list WorkItem) }.

(** The settings [init] copies from the configuration, and the operating system.
    [csprng k n] is the [k]-th request for [n] random bytes; [udpBind k port] the [k]-th
    [UdpSocket::create] on the relay address, [Some] of the handle and of the port
    [boundAddr] reports; [tcpSend k sock len] the [k]-th [::send]. *)
Record Env := mkEnv {
  realm_ : string; users_ : gmap string string; maxAllocations_ : Z;
  allocationLifetime_ : Z; nonceLifetimeMs_ : Z;
  relayIpAddr_ : sockaddr; relayIpLen_ : Z; localRelayShortcut : bool;
  csprng : nat -> nat -> option bytes;
  udpBind : nat -> Z -> option (socket_t * option Z);
  tcpSend : nat -> socket_t -> nat -> Z * bool;
  env_getnameinfo : sockaddr -> option (string * string);
  env_inet_ntop : sockaddr -> option string }.

(** ** Field updates *)

Definition set_tabs (f : Tables -> Tables) (s : Srv) : Srv :=
  mkSrv (f (tabs s)) (cns s) (nonce_ s) (nonceExpiryMs_ s) (clock s) (draws s) (binds s) (sends s)
    (outs s) (controlQueue_ s) (shardQueues s).
Definition set_cns (f : Conns -> Conns) (s : Srv) : Srv :=
  mkSrv (tabs s) (f (cns s)) (nonce_ s) (nonceExpiryMs_ s) (clock s) (draws s) (binds s) (sends s)
    (outs s) (controlQueue_ s) (shardQueues s).
Definition set_nonce (n : string) (e : Z) (s : Srv) : Srv :=
  mkSrv (tabs s) (cns s) n e (clock s) (draws s) (binds s) (sends s)
    (outs s) (controlQueue_ s) (shardQueues s).
Definition set_clock (c : Z) (s : Srv) : Srv :=
  mkSrv (tabs s) (cns s) (nonce_ s) (nonceExpiryMs_ s) c (draws s) (binds s) (sends s)
    (outs s) (controlQueue_ s) (shardQueues s).
Definition set_draws (n : nat) (s : Srv) : Srv :=
  mkSrv (tabs s) (cns s) (nonce_ s) (nonceExpiryMs_ s) (clock s) n (binds s) (sends s)
    (outs s) (controlQueue_ s) (shardQueues s).
Definition set_binds (n : nat) (s : Srv) : Srv :=
  mkSrv (tabs s) (cns s) (nonce_ s) (nonceExpiryMs_ s) (clock s) (draws s) n (sends s)
    (outs s) (controlQueue_ s) (shardQueues s).
Definition set_sends (n : nat) (s : Srv) : Srv :=
  mkSrv (tabs s) (cns s) (nonce_ s) (nonceExpiryMs_ s) (clock s) (draws s) (binds s) n
    (outs s) (controlQueue_ s) (shardQueues s).
Definition add_outs (o : list Output) (s : Srv) : Srv :=
  mkSrv (tabs s) (cns s) (nonce_ s) (nonceExpiryMs_ s) (clock s) (draws s) (binds s) (sends s)
    (outs s ++ o) (controlQueue_ s) (shardQueues s).
Definition set_controlQueue (q : list WorkItem) (s : Srv) : Srv :=
  mkSrv (tabs s) (cns s) (nonce_ s) (nonceExpiryMs_ s) (clock s) (draws s) (binds s) (sends s)
    (outs s) q (shardQueues s).
Definition set_shardQueues (q : list (list WorkItem)) (s : Srv) : Srv :=
  mkSrv (tabs s) (cns s) (nonce_ s) (nonceExpiryMs_ s) (clock s) (draws s) (binds s) (sends s)
    (outs s) (controlQueue_ s) q.

Definition set_heap (h : gmap nat Allocation) (t : Tables) : Tables :=
  mkTables h (nextAlloc t) (allocations_ t) (allocByRelaySock_ t) (allocByRelayAddr_ t)
    (allocByClientAddr_ t) (allocByControlSock_ t) (pendingByConnId_ t) (usedRelayPorts_ t)
    (nextConnId_ t) (relayPortBegin_ t) (relayPortEnd_ t).
Definition set_allocations (m : gmap string nat) (t : Tables) : Tables :=
  mkTables (heap t) (nextAlloc t) m (allocByRelaySock_ t) (allocByRelayAddr_ t)
    (allocByClientAddr_ t) (allocByControlSock_ t) (pendingByConnId_ t) (usedRelayPorts_ t)
    (nextConnId_ t) (relayPortBegin_ t) (relayPortEnd_ t).
Definition set_relayMaps (m : gmap socket_t nat) (l : list (AddrRecord * nat)) (t : Tables) : Tables :=
  mkTables (heap t) (nextAlloc t) (allocations_ t) m l
    (allocByClientAddr_ t) (allocByControlSock_ t) (pendingByConnId_ t) (usedRelayPorts_ t)
    (nextConnId_ t) (relayPortBegin_ t) (relayPortEnd_ t).
Definition set_clientMap (l : list (AddrRecord * nat)) (t : Tables) : Tables :=
  mkTables (heap t) (nextAlloc t) (allocations_ t) (allocByRelaySock_ t) (allocByRelayAddr_ t)
    l (allocByControlSock_ t) (pendingByConnId_ t) (usedRelayPorts_ t)
    (nextConnId_ t) (relayPortBegin_ t) (relayPortEnd_ t).
Definition set_controlMap (m : gmap socket_t nat) (t : Tables) : Tables :=
  mkTables (heap t) (nextAlloc t) (allocations_ t) (allocByRelaySock_ t) (allocByRelayAddr_ t)
    (allocByClientAddr_ t) m (pendingByConnId_ t) (usedRelayPorts_ t)
    (nextConnId_ t) (relayPortBegin_ t) (relayPortEnd_ t).
Definition set_pendingMap (m : gmap Z nat) (t : Tables) : Tables :=
  mkTables (heap t) (nextAlloc t) (allocations_ t) (allocByRelaySock_ t) (allocByRelayAddr_ t)
    (allocByClientAddr_ t) (allocByControlSock_ t) m (usedRelayPorts_ t)
    (nextConnId_ t) (relayPortBegin_ t) (relayPortEnd_ t).
Definition set_ports (m : gmap Z (option nat)) (t : Tables) : Tables :=
  mkTables (heap t) (nextAlloc t) (allocations_ t) (allocByRelaySock_ t) (allocByRelayAddr_ t)
    (allocByClientAddr_ t) (allocByControlSock_ t) (pendingByConnId_ t) m
    (nextConnId_ t) (relayPortBegin_ t) (relayPortEnd_ t).
Definition set_portRange (b e : Z) (t : Tables) : Tables :=
  mkTables (heap t) (nextAlloc t) (allocations_ t) (allocByRelaySock_ t) (allocByRelayAddr_ t)
    (allocByClientAddr_ t) (allocByControlSock_ t) (pendingByConnId_ t) (usedRelayPorts_ t)
    (nextConnId_ t) b e.
Definition set_nextConnId (n : Z) (t : Tables) : Tables :=
  mkTables (heap t) (nextAlloc t) (allocations_ t) (allocByRelaySock_ t) (allocByRelayAddr_ t)
    (allocByClientAddr_ t) (allocByControlSock_ t) (pendingByConnId_ t) (usedRelayPorts_ t)
    n (relayPortBegin_ t) (relayPortEnd_ t).
Definition set_nextAlloc (n : nat) (t : Tables) : Tables :=
  mkTables (heap t) n (allocations_ t) (allocByRelaySock_ t) (allocByRelayAddr_ t)
    (allocByClientAddr_ t) (allocByControlSock_ t) (pendingByConnId_ t) (usedRelayPorts_ t)
    (nextConnId_ t) (relayPortBegin_ t) (relayPortEnd_ t).

Definition set_conns (m : gmap nat TcpConn) (c : Conns) : Conns :=
  mkConns m (nextConn c) (tcpConns_ c) (tcpBySock_ c) (dataPipe_ c) (dataPipePeer_ c)
    (pendingFreeConns_ c).

(** ** The monad *)

(** The operations of the server are state passers over [Srv]. *)
Notation M := (SM Srv).

Definition emit (o : Output) : M unit := modify (add_outs [o]).
Definition nowMs : M Z := gets clock.

(** Dereferencing and updating the objects behind a pointer. *)
Definition alloc_get (a : nat) : M Allocation := fun s =>
  match heap (tabs s) !! a with Some x => Some (x, s) | None => None end.
Definition alloc_put (a : nat) (x : Allocation) : M unit :=
  modify (set_tabs (fun t => set_heap (<[a := x]> (heap t)) t)).
Definition conn_get (c : nat) : M TcpConn := fun s =>
  match conns (cns s) !! c with Some x => Some (x, s) | None => None end.
Definition conn_put (c : nat) (x : TcpConn) : M unit :=
  modify (set_cns (fun t => set_conns (<[c := x]> (conns t)) t)).

(** *** Hash maps keyed by an address *)

(** [std::unordered_map<AddrRecord, Allocation *, AddrHash>] with its [operator==]; equal
    records have equal hashes, so a lookup finds the entry whose key is equal. *)
Fixpoint alookup (k : AddrRecord) (l : list (AddrRecord * nat)) : option nat :=
  match l with
  | [] => None
  | (k', v) :: l => if addrRecordEq k' k then Some v else alookup k l
  end.

Fixpoint ainsert (k : AddrRecord) (v : nat) (l : list (AddrRecord * nat)) : list (AddrRecord * nat) :=
  match l with
  | [] => [(k, v)]
  | (k', v') :: l => if addrRecordEq k' k then (k', v) :: l else (k', v') :: ainsert k v l
  end.

Fixpoint aerase (k : AddrRecord) (l : list (AddrRecord * nat)) : list (AddrRecord * nat) :=
  match l with
  | [] => []
  | (k', v) :: l => if addrRecordEq k' k then l else (k', v) :: aerase k l
  end.

(** The entries of a [std::map<std::string, _>] in iteration order. *)
Definition key_le (a b : string * nat) : Prop := String.leb a.1 b.1 = true.
#[export] Instance key_le_dec a b : Decision (key_le a b).
Proof. unfold key_le. apply _. Defined.
Definition entries (m : gmap string nat) : list (string * nat) := merge_sort key_le (map_to_list m).

(** ** Total correctness of a step *)

Lemma wp_alloc_get a x (Q : Allocation -> Srv -> Prop) s :
  heap (tabs s) !! a = Some x -> Q x s -> wp (alloc_get a) Q s.
Proof. intros E H. exists x, s. unfold alloc_get. by rewrite E. Qed.

Lemma wp_conn_get c x (Q : TcpConn -> Srv -> Prop) s :
  conns (cns s) !! c = Some x -> Q x s -> wp (conn_get c) Q s.
Proof. intros E H. exists x, s. unfold conn_get. by rewrite E. Qed.

(** One step of symbolic execution. *)
Ltac wp_step :=
  lazymatch goal with
  | |- wp (mret _) _ _ => apply wp_ret
  | |- wp skip _ _ => apply wp_ret
  | |- wp (_ ≫= _) _ _ => apply wp_bind
  | |- wp nowMs _ _ => apply wp_gets
  | |- wp (gets _) _ _ => apply wp_gets
  | |- wp (modify _) _ _ => apply wp_modify
  | |- wp (emit _) _ _ => apply wp_modify
  | |- wp (alloc_put _ _) _ _ => apply wp_modify
  | |- wp (conn_put _ _) _ _ => apply wp_modify
  end.
