(* ===== verification/TurnCore.v ===== *)
(** * TURN server core: lookup, relay ports, authentication, responses
    (src/stserver/turn_server.cpp, lines 96-678)

    The operations the request handlers are built from.  [tcpConn] arguments that may be
    null are [option nat]; a [std::string] is a [string], its characters the bytes of the
    attribute it came from. *)

From S2P Require Import Prelude.
From S2P Require Import StateMonad.
From S2P Require Import Bytes.
From S2P Require Import Crypto.
From S2P Require Import Addr.
From S2P Require Import StunMessage.
From S2P Require Import StunAttributes.
From S2P Require Import ChannelData.
From S2P Require Import StunConn.
From S2P Require Import TcpWriter.
From S2P Require Import TurnState.
Open Scope Z_scope.
Open Scope c_scope.

Definition PermissionLifetimeMs : Z := 5 * 60 * 1000.
Definition ChannelBindLifetimeMs : Z := 10 * 60 * 1000.
Definition PendingConnectLifetimeMs : Z := 30 * 1000.

Definition samePeerIP (a b : AddrRecord) : bool := addrEqual (addr a) (addr b) false.

Section Core.
Context (E : Env).

(** ** Randomness and nonce *)

Definition drawU32 : M Z :=
  k ← gets draws;
  modify (set_draws (S k));;
  mret (randomU32 (csprng E k 4)).

Definition refreshNonce : M unit :=
  k ← gets draws;
  modify (set_draws (S k));;
  now ← nowMs;
  modify (set_nonce (randomStr64 (fun j => csprng E (k + j) 32) 32) (now + nonceLifetimeMs_ E)).

(** [Message::newTransactionID]. *)
Definition drawTid (m : Message) : M Message :=
  k ← gets draws;
  modify (set_draws (S k));;
  mret (newTransactionID (csprng E k 12) m).

(** ** Keys and lookups *)

Definition allocKey (tr : Z) (client : AddrRecord) : string :=
  let t := if tr =? SOCK_STREAM then "T" else "U" in
  t +:+ "|" +:+ toString (env_getnameinfo E) (env_inet_ntop E) client.

Definition findAlloc (key : string) : M (option nat) := gets (fun s => allocations_ (tabs s) !! key).

Definition findAllocByRelaySock (sk : socket_t) : M (option nat) :=
  gets (fun s => allocByRelaySock_ (tabs s) !! sk).

(** The first TCP allocation, in key order, whose relayed address is the peer. *)
Fixpoint findTcpLoop (peer : AddrRecord) (exclude : nat) (l : list (string * nat)) : M (option nat) :=
  match l with
  | [] => mret None
  | (_, a) :: l =>
      if (a =? exclude)%nat then findTcpLoop peer exclude l else
      x ← alloc_get a;
      if negb (transport x =? SOCK_STREAM) then findTcpLoop peer exclude l else
      if addrRecordEq (relayedAddr x) peer then mret (Some a)
      else findTcpLoop peer exclude l
  end.

Definition findTcpAllocByPeer (peer : AddrRecord) (exclude : nat) : M (option nat) :=
  l ← gets (fun s => entries (allocations_ (tabs s)));
  findTcpLoop peer exclude l.

(** The allocation and the index of the pending connect; [None] when either is missing. *)
Definition findPendingByConnId (connId : Z) : M (option (nat * nat)) :=
  o ← gets (fun s => pendingByConnId_ (tabs s) !! connId);
  match o with
  | None => mret None
  | Some a =>
      x ← alloc_get a;
      mret (match list_find (fun pc => pc_connId pc = connId) (pendingConnects x) with
            | Some (i, _) => Some (a, i)
            | None => None
            end)
  end.

(** The lookups of the data plane read the [dying_] flag behind the pointer they found; an
    allocation in the heap has it clear, [destroyAllocation] sets it and frees the object in
    one step. *)
Definition refAlloc (o : option nat) : M (option nat) :=
  match o with
  | None => mret None
  | Some a => alloc_get a;; mret (Some a)
  end.
Definition findAllocByClientRef (ad : AddrRecord) : M (option nat) :=
  o ← gets (fun s => alookup ad (allocByClientAddr_ (tabs s))); refAlloc o.
Definition findAllocByRelayRef (sk : socket_t) : M (option nat) :=
  o ← gets (fun s => allocByRelaySock_ (tabs s) !! sk); refAlloc o.
Definition findAllocByRelayAddrRef (ad : AddrRecord) : M (option nat) :=
  o ← gets (fun s => alookup ad (allocByRelayAddr_ (tabs s))); refAlloc o.
Definition findAllocByControlSockRef (sk : socket_t) : M (option nat) :=
  o ← gets (fun s => allocByControlSock_ (tabs s) !! sk); refAlloc o.

(** A connection that is being closed is not handed out. *)
Definition tcpConnRef (sk : socket_t) : M (option nat) :=
  o ← gets (fun s => tcpBySock_ (cns s) !! sk);
  match o with
  | None => mret None
  | Some c => x ← conn_get c; mret (if dying x then None else Some c)
  end.

Definition dataPipePeerRef (sk : socket_t) : M (option nat) :=
  o ← gets (fun s => dataPipePeer_ (cns s) !! sk);
  match o with
  | None => mret None
  | Some c => x ← conn_get c; mret (if dying x then None else Some c)
  end.

(** ** Relay ports *)

Definition portFree (avoid : gset Z) (t : Tables) (port : Z) : bool :=
  bool_decide (usedRelayPorts_ t !! port = None) && bool_decide (port ∉ avoid).

Definition reservePort (port : Z) : M unit :=
  modify (set_tabs (fun t => set_ports (<[port := None]> (usedRelayPorts_ t)) t)).

(** The 200 random attempts. *)
Fixpoint randomPort (tries : nat) (begin_ span : Z) (avoid : gset Z) : M (option Z) :=
  match tries with
  | O => mret None
  | S tries =>
      r ← drawU32;
      let port := u16 (begin_ + u16 (r mod span)) in
      t ← gets tabs;
      if portFree avoid t port then reservePort port;; mret (Some port)
      else randomPort tries begin_ span avoid
  end.

(** The sequential scan of the ports [p], [p + 1], ... *)
Fixpoint scanPorts (n : nat) (p : Z) (avoid : gset Z) : M Z :=
  match n with
  | O => mret 0
  | S n =>
      let port := u16 p in
      t ← gets tabs;
      if portFree avoid t port then reservePort port;; mret port
      else scanPorts n (p + 1) avoid
  end.

Definition allocRelayPort (avoid : gset Z) : M Z :=
  t ← gets tabs;
  (if relayPortEnd_ t <? relayPortBegin_ t
   then modify (set_tabs (fun t => set_portRange (relayPortEnd_ t) (relayPortBegin_ t) t))
   else skip);;
  t ← gets tabs;
  let span := u32 (relayPortEnd_ t - relayPortBegin_ t + 1) in
  o ← randomPort 200 (relayPortBegin_ t) span avoid;
  match o with
  | Some port => mret port
  | None => scanPorts (Z.to_nat (relayPortEnd_ t - relayPortBegin_ t + 1)) (relayPortBegin_ t) avoid
  end.

(** Only the owner, or anyone while no owner is recorded, may free a port. *)
Definition releasePort (port : Z) (owner : option nat) (t : Tables) : Tables :=
  match usedRelayPorts_ t !! port with
  | None => t
  | Some (Some o) =>
      if bool_decide (Some o = owner) then set_ports (delete port (usedRelayPorts_ t)) t else t
  | Some None => set_ports (delete port (usedRelayPorts_ t)) t
  end.
Definition releaseRelayPort (port : Z) (owner : option nat) : M unit :=
  modify (set_tabs (releasePort port owner)).

Definition buildRelayedAddr (port : Z) : AddrRecord :=
  mkAddrRecord (addrSetPort (relayIpAddr_ E) port) (relayIpLen_ E) SOCK_DGRAM.

(** ** Destroying an allocation *)

(** [allocations_.erase(key)]: the object the entry owns is freed, its destructor closes
    the relay socket. *)
Definition eraseAllocation (key : string) : M unit :=
  o ← findAlloc key;
  match o with
  | None => skip
  | Some i =>
      x ← alloc_get i;
      modify (set_tabs (fun t => set_allocations (delete key (allocations_ t))
                                   (set_heap (delete i (heap t)) t)));;
      if negb (relaySock x =? STICE_INVALID_SOCKET) then emit (OClose (relaySock x)) else skip
  end.

Definition erasePending (l : list PendingConnect) (m : gmap Z nat) : gmap Z nat :=
  foldl (fun m pc => delete (pc_connId pc) m) m l.

Definition destroyAllocation (a : nat) : M unit :=
  x ← alloc_get a;
  (if (transport x =? SOCK_DGRAM) && negb (relaySock x =? STICE_INVALID_SOCKET)
   then emit (ORemoveRelay (relaySock x)) else skip);;
  modify (set_tabs (fun t =>
    set_relayMaps (delete (relaySock x) (allocByRelaySock_ t))
      (aerase (relayedAddr x) (allocByRelayAddr_ t)) t));;
  modify (set_tabs (fun t => set_clientMap (aerase (clientAddr x) (allocByClientAddr_ t)) t));;
  (if negb (controlSock x =? STICE_INVALID_SOCKET)
   then modify (set_tabs (fun t => set_controlMap (delete (controlSock x) (allocByControlSock_ t)) t))
   else skip);;
  modify (set_tabs (fun t =>
    set_pendingMap (erasePending (pendingConnects x) (pendingByConnId_ t)) t));;
  releaseRelayPort (relayPort x) (Some a);;
  eraseAllocation (allocKey (transport x) (clientAddr x)).

(** ** Authentication *)

Definition getStr (m : Message) (type : Z) : string := string_of_bytes (getString m type).

(** 0, 401 or 438, and the verified user name. *)
Definition authenticate (msg : Message) : M (Z * string) :=
  match find msg AttrType.MessageIntegrity with
  | None => mret (StunErrorUnauthenticated, EmptyString)
  | Some _ =>
      let user := getStr msg AttrType.Username in
      let realm := getStr msg AttrType.Realm in
      let nonce := getStr msg AttrType.Nonce in
      now ← nowMs;
      expiry ← gets nonceExpiryMs_;
      if expiry <=? now then refreshNonce;; mret (StunErrorStaleNonce, EmptyString) else
      cur ← gets nonce_;
      if negb (bool_decide (nonce = cur)) then mret (StunErrorStaleNonce, EmptyString) else
      match users_ E !! user with
      | None => mret (StunErrorUnauthenticated, EmptyString)
      | Some pw =>
          ok ← lift (checkIntegrity msg (longTermKey user realm pw) false);
          if negb ok then mret (StunErrorUnauthenticated, EmptyString) else mret (0, user)
      end
  end.

(** ** Sending *)

Definition sendUdp (dst : AddrRecord) (msg : Message) : M unit :=
  if negb (length (raw msg) =? 0)%nat then emit (OUdp dst (raw msg)) else skip.

Definition conn_writer (x : TcpConn) (w : Writer) : TcpConn :=
  mkTcpConn (tc_sock x) (peerAddr x) (stunConn x) (isData x) (tc_connId x) w (prePairBuf x) (dying x).

(** Record what the writer did: the connection's new write state, the bytes accepted and
    the write-pending report. *)
Definition applyWrite (c : nat) (x : TcpConn) (r : WriteResult) : M unit :=
  modify (set_sends (wr_calls r));;
  conn_put c (conn_writer x (wr_state r));;
  (if (length (wr_sent r) =? 0)%nat then skip else emit (OTcp (tc_sock x) (wr_sent r)));;
  match wr_armed r with Some b => emit (OWritePending (tc_sock x) b) | None => skip end.

Definition sendTcpRaw (c : nat) (data : bytes) : M unit :=
  x ← conn_get c;
  k ← gets sends;
  r ← lift (sendTcpRawLocked (fun j n => tcpSend E j (tc_sock x) n) k (writer x) data);
  applyWrite c x r.

Definition flushTcp (c : nat) : M bool :=
  x ← conn_get c;
  k ← gets sends;
  r ← lift (flushTcpLocked (fun j n => tcpSend E j (tc_sock x) n) k (writer x));
  applyWrite c x r;;
  mret (wr_ok r).

Definition sendTcp (c : nat) (msg : Message) : M unit :=
  if negb (length (raw msg) =? 0)%nat then sendTcpRaw c (raw msg) else skip.

(** The reply goes back the way the request came. *)
Definition reply (tcpConn : option nat) (dst : AddrRecord) (msg : Message) : M unit :=
  match tcpConn with Some c => sendTcp c msg | None => sendUdp dst msg end.

Definition software : option bytes := Some (bytes_of_string "stserver").

Definition errorBody (req : Message) (code : Z) : Message :=
  addErrorCode (mkMessage (method req) ErrorResponse (transactionID req) [] []) code [].

(** [sendErrorResponseUdp] and [sendErrorResponseTcp]. *)
Definition sendErrorResponse (tcpConn : option nat) (dst : AddrRecord) (req : Message) (code : Z)
    : M unit :=
  resp ← lift (encode (errorBody req code) None None software);
  reply tcpConn dst resp.

(** [sendAuthErrorResponse] and [sendAuthErrorResponseTcp]: with REALM and NONCE. *)
Definition sendAuthErrorResponse (tcpConn : option nat) (dst : AddrRecord) (req : Message)
    (code : Z) : M unit :=
  n ← gets nonce_;
  let resp := errorBody req code in
  let resp := addString resp AttrType.Realm (bytes_of_string (realm_ E)) in
  let resp := addString resp AttrType.Nonce (bytes_of_string n) in
  resp ← lift (encode resp None None software);
  reply tcpConn dst resp.

(** The encoded success response; [resp] has its attributes. *)
Definition sendSuccessResponse (req : Message) (user : string) (resp : Message) : M Message :=
  let resp := mkMessage (method req) SuccessResponse (transactionID req) (attributes resp) (raw resp) in
  match users_ E !! user with
  | None => lift (encode resp None None software)
  | Some pw =>
      n ← gets nonce_;
      let key := longTermKey user (realm_ E) pw in
      let creds := mkCreds (bytes_of_string user) (bytes_of_string (realm_ E))
                     (bytes_of_string n) key in
      lift (encode resp (Some []) (Some creds) software)
  end.

End Core.
