(* ===== verification/TurnHandlers.v ===== *)
(** * TURN server request handlers (src/stserver/turn_server.cpp, lines 682-1574)

    Binding, Allocate, Refresh, CreatePermission, ChannelBind, Send, ChannelData, the
    forwarding of relayed data to the client, and the RFC 6062 CONNECT and CONNECTION-BIND
    requests, with the dispatcher that authenticates them.  [alloc] is the allocation the
    request's 5-tuple was looked up to, [tcpConn] the control connection or [None] for a
    datagram. *)

From S2P Require Import Prelude.
From S2P Require Import StateMonad.
From S2P Require Import Bytes.
From S2P Require Import Crypto.
From S2P Require Import Addr.
From S2P Require Import StunMessage.
From S2P Require Import StunAttributes.
From S2P Require Import ChannelData.
From S2P Require Import StunConn.
From S2P Require Import TcpWriter.
From S2P Require Import TurnState.
From S2P Require Import TurnCore.
Open Scope Z_scope.
Open Scope c_scope.

Definition al_permissions (l : list Permission) (x : Allocation) : Allocation :=
  mkAllocation (transport x) (clientAddr x) (controlSock x) (relaySock x) (relayedAddr x)
    (relayPort x) (username x) l (channels x) (expiryMs x) (pendingConnects x).
Definition al_channels (l : list Channel) (x : Allocation) : Allocation :=
  mkAllocation (transport x) (clientAddr x) (controlSock x) (relaySock x) (relayedAddr x)
    (relayPort x) (username x) (permissions x) l (expiryMs x) (pendingConnects x).
Definition al_expiry (e : Z) (x : Allocation) : Allocation :=
  mkAllocation (transport x) (clientAddr x) (controlSock x) (relaySock x) (relayedAddr x)
    (relayPort x) (username x) (permissions x) (channels x) e (pendingConnects x).
Definition al_pending (l : list PendingConnect) (x : Allocation) : Allocation :=
  mkAllocation (transport x) (clientAddr x) (controlSock x) (relaySock x) (relayedAddr x)
    (relayPort x) (username x) (permissions x) (channels x) (expiryMs x) l.

(** A default-constructed [Message] in which a response is collected. *)
Definition resp0 : Message := emptyMessage.

Definition withXor (m : Message) (type : Z) (a : AddrRecord) (tid : bytes) : Message :=
  (writeXorAddress m type a tid).2.

Section Handlers.
Context (E : Env).

(** ** Binding *)

Definition handleBinding (req : Message) (src : AddrRecord) (tcpConn : option nat) : M unit :=
  let resp := mkMessage Method.Binding SuccessResponse (transactionID req) [] [] in
  let resp := withXor resp AttrType.XorMappedAddress src (transactionID req) in
  resp ← lift (encode resp None None software);
  reply E tcpConn src resp.

(** ** Allocate *)

(** [UdpSocket::create] on one port. *)
Definition createUdp (port : Z) : M (option (socket_t * option Z)) :=
  k ← gets binds;
  modify (set_binds (S k));;
  mret (udpBind E k port).

(** The retry loop: [tries] attempts are left. *)
Fixpoint bindRetry (tries : nat) (failed : gset Z) (port : Z) (rs : option (socket_t * option Z))
    : M (Z * option (socket_t * option Z)) :=
  match rs, tries with
  | None, S tries =>
      let failed := {[port]} ∪ failed in
      releaseRelayPort port None;;
      port ← allocRelayPort E failed;
      if port =? 0 then mret (0, None) else
      rs ← createUdp port;
      bindRetry tries failed port rs
  | _, _ => mret (port, rs)
  end.

(** The relay of a new allocation: port, relay socket; or an error code. *)
Definition allocateRelay (proto : Z) : M (Z + Z * socket_t) :=
  if proto =? 6 then
    port ← allocRelayPort E ∅;
    if port =? 0 then mret (inl StunErrorInsufficientCapacity)
    else mret (inr (port, STICE_INVALID_SOCKET))
  else
    port ← allocRelayPort E ∅;
    if port =? 0 then mret (inl StunErrorInsufficientCapacity) else
    rs ← createUdp port;
    r ← bindRetry 50 ∅ port rs;
    let '(port, rs) := r in
    match rs with
    | None =>
        (if negb (port =? 0) then releaseRelayPort port None else skip);;
        mret (inl StunErrorInsufficientCapacity)
    | Some (handle, bound) =>
        let reserved := port in
        let port := default port bound in
        (if negb (port =? reserved) then
           releaseRelayPort reserved None;; reservePort port
         else skip);;
        mret (inr (port, handle))
    end.

(** Registration in the lookup maps; [allocations_[key] = std::move(a)] frees an object the
    key owned before. *)
Definition registerAllocation (key : string) (src : AddrRecord) (viaTcp : bool) (x : Allocation)
    : M nat :=
  t ← gets tabs;
  let a := nextAlloc t in
  modify (set_tabs (fun t => set_nextAlloc (S a) (set_heap (<[a := x]> (heap t)) t)));;
  modify (set_tabs (fun t => set_ports (<[relayPort x := Some a]> (usedRelayPorts_ t)) t));;
  (if transport x =? SOCK_DGRAM then
     modify (set_tabs (fun t =>
       set_relayMaps (<[relaySock x := a]> (allocByRelaySock_ t))
         (ainsert (relayedAddr x) a (allocByRelayAddr_ t)) t));;
     modify (set_tabs (fun t => set_clientMap (ainsert src a (allocByClientAddr_ t)) t));;
     emit (OAddRelay (relaySock x))
   else
     modify (set_tabs (fun t => set_controlMap (<[controlSock x := a]> (allocByControlSock_ t)) t)));;
  (if viaTcp && negb (controlSock x =? STICE_INVALID_SOCKET) then
     modify (set_tabs (fun t => set_controlMap (<[controlSock x := a]> (allocByControlSock_ t)) t))
   else skip);;
  eraseAllocation key;;
  modify (set_tabs (fun t => set_allocations (<[key := a]> (allocations_ t)) t));;
  mret a.

Definition handleAllocate (req : Message) (src : AddrRecord) (tcpConn : option nat) : M unit :=
  match find req AttrType.RequestedTransport with
  | None => sendErrorResponse E tcpConn src req StunErrorBadRequest
  | Some rt =>
  match value rt with
  | [] => sendErrorResponse E tcpConn src req StunErrorBadRequest
  | proto :: _ =>
      n ← gets (fun s => size (allocations_ (tabs s)));
      if maxAllocations_ E <=? Z.of_nat n
      then sendErrorResponse E tcpConn src req StunErrorAllocationQuotaReached else
      let user := getStr req AttrType.Username in
      r ← allocateRelay proto;
      match r with
      | inl code => sendErrorResponse E tcpConn src req code
      | inr (port, rsock) =>
          csock ← (match tcpConn with
                   | Some c => x ← conn_get c; mret (tc_sock x)
                   | None => mret STICE_INVALID_SOCKET
                   end);
          let lifetime := allocationLifetime_ E in
          now ← nowMs;
          let tr := if proto =? 6 then SOCK_STREAM else SOCK_DGRAM in
          let relayed := buildRelayedAddr E port in
          let x := mkAllocation tr src csock rsock relayed port user [] []
                     (now + lifetime * 1000) [] in
          let resp := withXor resp0 AttrType.XorRelayedAddress relayed (transactionID req) in
          let resp := withXor resp AttrType.XorMappedAddress src (transactionID req) in
          let resp := addLifetime resp lifetime in
          resp ← sendSuccessResponse E req user resp;
          registerAllocation (allocKey E tr src) src (bool_decide (is_Some tcpConn)) x;;
          reply E tcpConn src resp
      end
  end
  end.

(** ** Refresh *)

Definition handleRefresh (req : Message) (src : AddrRecord) (tcpConn : option nat) (alloc : nat)
    : M unit :=
  o ← lift (readLifetime req);
  let lifetime := match o with
                  | Some l => if allocationLifetime_ E <? l then allocationLifetime_ E else l
                  | None => allocationLifetime_ E
                  end in
  now ← nowMs;
  (if lifetime =? 0 then skip
   else x ← alloc_get alloc; alloc_put alloc (al_expiry (now + lifetime * 1000) x));;
  x ← alloc_get alloc;
  resp ← sendSuccessResponse E req (username x) (addLifetime resp0 lifetime);
  reply E tcpConn src resp;;
  if lifetime =? 0 then destroyAllocation E alloc else skip.

(** ** CreatePermission *)

(** Replace the first permission for the peer's IP, or append one. *)
Fixpoint putPermission (peer : AddrRecord) (expiry : Z) (l : list Permission) : list Permission :=
  match l with
  | [] => [mkPermission peer expiry]
  | p :: l => if samePeerIP (pm_peer p) peer then mkPermission peer expiry :: l
              else p :: putPermission peer expiry l
  end.

Fixpoint installPermissions (tid : bytes) (expiry : Z) (attrs : list Attribute)
    (perms : list Permission) : option (list Permission) :=
  match attrs with
  | [] => Some perms
  | a :: attrs =>
      if negb (atype a =? AttrType.XorPeerAddress) then installPermissions tid expiry attrs perms
      else
        let tmp := addAttribute (mkMessage Method.Binding Request tid [] [])
                     AttrType.XorPeerAddress (value a) in
        o ← readXorAddress tmp AttrType.XorPeerAddress tid;
        match o with
        | None => installPermissions tid expiry attrs perms
        | Some peer => installPermissions tid expiry attrs (putPermission peer expiry perms)
        end
  end.

Definition handleCreatePermission (req : Message) (src : AddrRecord) (tcpConn : option nat)
    (alloc : nat) : M unit :=
  now ← nowMs;
  let expiry := now + PermissionLifetimeMs in
  x ← alloc_get alloc;
  perms ← lift (installPermissions (transactionID req) expiry (attributes req) (permissions x));
  alloc_put alloc (al_permissions perms x);;
  resp ← sendSuccessResponse E req (username x) resp0;
  reply E tcpConn src resp.

(** ** ChannelBind *)

Definition badBinding (channel : Z) (peer : AddrRecord) (c : Channel) : bool :=
  ((ch_number c =? channel) && negb (samePeerIP (ch_peer c) peer)) ||
  (samePeerIP (ch_peer c) peer && negb (ch_number c =? channel)).

Fixpoint putChannel (channel : Z) (peer : AddrRecord) (expiry : Z) (l : list Channel) : list Channel :=
  match l with
  | [] => [mkChannel channel peer expiry]
  | c :: l => if ch_number c =? channel then mkChannel channel peer expiry :: l
              else c :: putChannel channel peer expiry l
  end.

(** The permission a ChannelBind installs: an existing one keeps its peer. *)
Fixpoint touchPermission (peer : AddrRecord) (expiry : Z) (l : list Permission) : list Permission :=
  match l with
  | [] => [mkPermission peer expiry]
  | p :: l => if samePeerIP (pm_peer p) peer then mkPermission (pm_peer p) expiry :: l
              else p :: touchPermission peer expiry l
  end.

Definition handleChannelBind (req : Message) (src : AddrRecord) (tcpConn : option nat)
    (alloc : nat) : M unit :=
  o ← lift (readChannelNumber req);
  match o with
  | None => sendErrorResponse E tcpConn src req StunErrorBadRequest
  | Some channel =>
      if negb (channelValid channel) then sendErrorResponse E tcpConn src req StunErrorBadRequest else
      o ← lift (readXorAddress req AttrType.XorPeerAddress (transactionID req));
      match o with
      | None => sendErrorResponse E tcpConn src req StunErrorBadRequest
      | Some peer =>
          x ← alloc_get alloc;
          if existsb (badBinding channel peer) (channels x)
          then sendErrorResponse E tcpConn src req StunErrorBadRequest else
          now ← nowMs;
          let x := al_channels (putChannel channel peer (now + ChannelBindLifetimeMs) (channels x)) x in
          let x := al_permissions
                     (touchPermission peer (now + PermissionLifetimeMs) (permissions x)) x in
          alloc_put alloc x;;
          resp ← sendSuccessResponse E req (username x) resp0;
          reply E tcpConn src resp
      end
  end.

(** ** Peer to client *)

Definition permits (now : Z) (peer : AddrRecord) (p : Permission) : bool :=
  samePeerIP (pm_peer p) peer && (now <? pm_expiryMs p).

Definition channelFor (now : Z) (peer : AddrRecord) (c : Channel) : bool :=
  addrRecordEq (ch_peer c) peer && (now <? ch_expiryMs c).

Inductive Act := ActNone | ActFrame (frame : bytes) | ActInd (ind : Message).

(** The Data indication, with a fresh transaction id. *)
Definition dataIndication (peer : AddrRecord) (data : bytes) : M Message :=
  ind ← drawTid E (mkMessage Method.Data Indication (replicate 12 0) [] []);
  let ind := withXor ind AttrType.XorPeerAddress peer (transactionID ind) in
  lift (encode (addData ind data) None None software).

Definition forwardToClient (alloc : nat) (peer : AddrRecord) (data : bytes) : M unit :=
  x ← alloc_get alloc;
  let controlIsTcp := negb (controlSock x =? STICE_INVALID_SOCKET) in
  dstTcp ← (if controlIsTcp then tcpConnRef (controlSock x) else mret None);
  now ← nowMs;
  let reachable := negb controlIsTcp || bool_decide (is_Some dstTcp) in
  act ← (match List.find (channelFor now peer) (channels x) with
         | Some c =>
             r ← lift (wrapChannelData (ch_number c) data []);
             mret (if (0 <? r.1)%nat && reachable then ActFrame r.2 else ActNone)
         | None => mret ActNone
         end);
  act ← (match act with
         | ActNone =>
             match List.find (permits now peer) (permissions x) with
             | Some _ =>
                 ind ← dataIndication peer data;
                 mret (if reachable then ActInd ind else ActNone)
             | None => mret ActNone
             end
         | _ => mret act
         end);
  match act with
  | ActNone => skip
  | ActFrame frame =>
      match dstTcp with
      | Some c => sendTcpRaw E c frame
      | None => emit (OUdp (clientAddr x) frame)
      end
  | ActInd ind =>
      match dstTcp with
      | Some c => sendTcp E c ind
      | None => emit (OUdp (clientAddr x) (raw ind))
      end
  end.

(** ** Client to peer *)

Definition relayOut (x : Allocation) (peer : AddrRecord) (data : bytes) : M unit :=
  if (transport x =? SOCK_DGRAM) && negb (relaySock x =? STICE_INVALID_SOCKET)
  then emit (ORelay (relaySock x) peer data) else skip.

Definition handleSendIndication (req : Message) (alloc : nat) : M unit :=
  o ← lift (readXorAddress req AttrType.XorPeerAddress (transactionID req));
  match o with
  | None => skip
  | Some peer =>
      match find req AttrType.Data with
      | None => skip
      | Some dataAttr =>
          x ← alloc_get alloc;
          now ← nowMs;
          if existsb (permits now peer) (permissions x) then relayOut x peer (value dataAttr) else skip
      end
  end.

Definition handleChannelDataFrame (data : bytes) (alloc : nat) : M unit :=
  u ← lift (unwrapChannelData data 0 0);
  if (un_ret u =? 0)%nat then skip else
  x ← alloc_get alloc;
  match List.find (fun c => ch_number c =? un_channel u) (channels x) with
  | None => skip
  | Some ch =>
      let peer := ch_peer ch in
      if negb ((transport x =? SOCK_DGRAM) && negb (relaySock x =? STICE_INVALID_SOCKET))
      then skip else
      off ← lift (un_data u);
      payload ← lift (peek data off (un_ret u));
      dst ← (if localRelayShortcut E then findAllocByRelayAddrRef peer else mret None);
      local ← (match dst with
               | None => mret None
               | Some d =>
                   y ← alloc_get d;
                   mret (if negb (d =? alloc)%nat && (transport y =? SOCK_DGRAM) &&
                            (controlSock y =? STICE_INVALID_SOCKET) &&
                            negb (relaySock y =? STICE_INVALID_SOCKET)
                         then Some d else None)
               end);
      match local with
      | Some d => forwardToClient d (relayedAddr x) payload
      | None => emit (ORelay (relaySock x) peer payload)
      end
  end.

(** ** RFC 6062 *)

Definition sendConnectionAttempt (target : nat) (connId : Z) (peerRelayAddr : AddrRecord) : M unit :=
  ind ← drawTid E (mkMessage Method.ConnectionAttempt Indication (replicate 12 0) [] []);
  let ind := withXor ind AttrType.XorPeerAddress peerRelayAddr (transactionID ind) in
  ind ← lift (encode (addConnectionId ind connId) None None software);
  x ← alloc_get target;
  dst ← tcpConnRef (controlSock x);
  match dst with Some c => sendTcp E c ind | None => skip end.

Definition handleConnect (req : Message) (tcpConn : nat) (alloc : nat) : M unit :=
  c ← conn_get tcpConn;
  o ← lift (readXorAddress req AttrType.XorPeerAddress (transactionID req));
  match o with
  | None => sendErrorResponse E (Some tcpConn) (peerAddr c) req StunErrorBadRequest
  | Some peer =>
      target ← findTcpAllocByPeer peer alloc;
      match target with
      | None => sendErrorResponse E (Some tcpConn) (peerAddr c) req StunErrorForbidden
      | Some target =>
          connId ← gets (fun s => nextConnId_ (tabs s));
          modify (set_tabs (set_nextConnId (u32 (connId + 1))));;
          now ← nowMs;
          let pc := mkPending connId peer STICE_INVALID_SOCKET (transactionID req) false
                      (now + PendingConnectLifetimeMs) in
          x ← alloc_get alloc;
          alloc_put alloc (al_pending (pendingConnects x ++ [pc]) x);;
          modify (set_tabs (fun t => set_pendingMap (<[connId := alloc]> (pendingByConnId_ t)) t));;
          sendConnectionAttempt target connId (relayedAddr x)
      end
  end.

(** Bytes held back until the pair exists go to the peer once it does. *)
Definition conn_prePair (x : TcpConn) (b : bytes) : TcpConn :=
  mkTcpConn (tc_sock x) (peerAddr x) (stunConn x) (isData x) (tc_connId x) (writer x) b (dying x).

Definition flushPrePair (c : nat) : M unit :=
  x ← conn_get c;
  if (length (prePairBuf x) =? 0)%nat then skip else
  peer ← dataPipePeerRef (tc_sock x);
  match peer with
  | None => skip
  | Some p =>
      sendTcpRaw E p (prePairBuf x);;
      x ← conn_get c;
      conn_put c (conn_prePair x [])
  end.

Definition conn_bind (x : TcpConn) (connId : Z) : TcpConn :=
  mkTcpConn (tc_sock x) (peerAddr x) (stunConn x) true connId (writer x) (prePairBuf x) (dying x).

Definition pc_first (sk : socket_t) (p : PendingConnect) : PendingConnect :=
  mkPending (pc_connId p) (pc_peerRelayAddr p) sk (pc_connectTid p) (pc_connectResponded p)
    (pc_expiryMs p).
Definition pc_responded (p : PendingConnect) : PendingConnect :=
  mkPending (pc_connId p) (pc_peerRelayAddr p) (pc_firstDataSock p) (pc_connectTid p) true
    (pc_expiryMs p).

Definition alloc_modify (a : nat) (f : Allocation -> Allocation) : M unit :=
  x ← alloc_get a; alloc_put a (f x).

(** Success responses built against a request that is only a method and a transaction id. *)
Definition stubRequest (meth : Z) (tid : bytes) : Message := mkMessage meth Request tid [] [].

(** The two sockets of a CONNECTION-ID become each other's peer. *)
Definition publishPipe (s1 s2 : socket_t) (c1 c2 : nat) (c : Conns) : Conns :=
  mkConns (conns c) (nextConn c) (tcpConns_ c) (tcpBySock_ c)
    (<[s2 := s1]> (<[s1 := s2]> (dataPipe_ c)))
    (<[s2 := c1]> (<[s1 := c2]> (dataPipePeer_ c)))
    (pendingFreeConns_ c).

Definition handleConnectionBind (req : Message) (tcpConn : option nat) : M unit :=
  match tcpConn with
  | None => skip
  | Some c =>
      x0 ← conn_get c;
      r ← authenticate E req;
      let '(code, user) := r in
      if negb (code =? 0) then sendAuthErrorResponse E (Some c) (peerAddr x0) req code else
      o ← lift (readConnectionId req);
      match o with
      | None => sendErrorResponse E (Some c) (peerAddr x0) req StunErrorBadRequest
      | Some connId =>
          found ← findPendingByConnId connId;
          match found with
          | None => sendErrorResponse E (Some c) (peerAddr x0) req StunErrorAllocationMismatch
          | Some (connector, i) =>
              y ← alloc_get connector;
              pc ← lift (pendingConnects y !! i);
              if pc_firstDataSock pc =? STICE_INVALID_SOCKET then
                alloc_put connector
                  (al_pending (alter (pc_first (tc_sock x0)) i (pendingConnects y)) y);;
                conn_put c (conn_bind x0 connId);;
                (if pc_connectResponded pc then skip else
                   connectResp ← sendSuccessResponse E (stubRequest Method.Connect (pc_connectTid pc))
                                   (username y) (addConnectionId resp0 connId);
                   dst ← tcpConnRef (controlSock y);
                   (match dst with Some d => sendTcp E d connectResp | None => skip end);;
                   alloc_modify connector
                     (fun y => al_pending (alter pc_responded i (pendingConnects y)) y));;
                bindResp ← sendSuccessResponse E (stubRequest Method.ConnectionBind (transactionID req))
                             user resp0;
                sendTcp E c bindResp
              else
                conn_put c (conn_bind x0 connId);;
                bindResp ← sendSuccessResponse E (stubRequest Method.ConnectionBind (transactionID req))
                             user resp0;
                sendTcp E c bindResp;;
                peer ← tcpConnRef (pc_firstDataSock pc);
                (match peer with
                 | None => skip
                 | Some p =>
                     modify (set_cns (publishPipe (tc_sock x0) (pc_firstDataSock pc) c p));;
                     flushPrePair c;;
                     flushPrePair p
                 end);;
                modify (set_tabs (fun t => set_pendingMap (delete connId (pendingByConnId_ t)) t));;
                alloc_modify connector (fun y =>
                  al_pending (filter (fun p => pc_connId p <> connId) (pendingConnects y)) y)
          end
      end
  end.

(** ** Dispatch *)

(** Authenticate, then run the handler; a failure is answered with REALM and NONCE. *)
Definition withAuth (msg : Message) (src : AddrRecord) (tcpConn : option nat) (h : M unit) : M unit :=
  r ← authenticate E msg;
  let '(code, _) := r in
  if negb (code =? 0) then sendAuthErrorResponse E tcpConn src msg code else h.

(** A request on an existing allocation. *)
Definition onAlloc (msg : Message) (src : AddrRecord) (tcpConn : option nat) (alloc : option nat)
    (h : nat -> M unit) : M unit :=
  match alloc with
  | None => sendErrorResponse E tcpConn src msg StunErrorAllocationMismatch
  | Some a => withAuth msg src tcpConn (h a)
  end.

Definition dispatchAllocate (msg : Message) (src : AddrRecord) (tcpConn : option nat)
    (alloc : option nat) : M unit :=
  match alloc with
  | None => withAuth msg src tcpConn (handleAllocate msg src tcpConn)
  | Some a =>
      x ← alloc_get a;
      now ← nowMs;
      if expiryMs x <=? now then
        destroyAllocation E a;; withAuth msg src tcpConn (handleAllocate msg src tcpConn)
      else sendErrorResponse E tcpConn src msg StunErrorAllocationMismatch
  end.

Definition dispatchConnect (msg : Message) (src : AddrRecord) (tcpConn : option nat)
    (alloc : option nat) : M unit :=
  match alloc, tcpConn with
  | Some a, Some c =>
      x ← alloc_get a;
      if negb (transport x =? SOCK_STREAM)
      then sendErrorResponse E tcpConn src msg StunErrorBadRequest
      else withAuth msg src tcpConn (handleConnect msg c a)
  | _, Some _ => sendErrorResponse E tcpConn src msg StunErrorAllocationMismatch
  | _, None => skip
  end.

Definition dispatchStun (msg : Message) (src : AddrRecord) (tcpConn : option nat)
    (alloc : option nat) : M unit :=
  let isReq := bool_decide (cls msg = Request) in
  let isInd := bool_decide (cls msg = Indication) in
  if negb isReq && negb isInd then skip else
  let m := method msg in
  if m =? Method.Binding then (if isReq then handleBinding msg src tcpConn else skip)
  else if m =? Method.Allocate then (if isReq then dispatchAllocate msg src tcpConn alloc else skip)
  else if m =? Method.Refresh then
    (if isReq then onAlloc msg src tcpConn alloc (handleRefresh msg src tcpConn) else skip)
  else if m =? Method.CreatePermission then
    (if isReq then onAlloc msg src tcpConn alloc (handleCreatePermission msg src tcpConn) else skip)
  else if m =? Method.ChannelBind then
    (if isReq then onAlloc msg src tcpConn alloc (handleChannelBind msg src tcpConn) else skip)
  else if m =? Method.Send then
    match alloc with Some a => if isInd then handleSendIndication msg a else skip | None => skip end
  else if m =? Method.Connect then (if isReq then dispatchConnect msg src tcpConn alloc else skip)
  else if m =? Method.ConnectionBind then (if isReq then handleConnectionBind msg tcpConn else skip)
  else if isReq then sendErrorResponse E tcpConn src msg StunErrorBadRequest else skip.

Definition handleUdpPacket (data : bytes) (src : AddrRecord) : M unit :=
  cd ← lift (isChannelData data);
  if cd : bool then
    o ← findAlloc (allocKey E SOCK_DGRAM src);
    match o with Some a => handleChannelDataFrame data a | None => skip end
  else
    im ← lift (isMessage data);
    if negb im then skip else
    r ← lift (decode emptyMessage data);
    if negb r.1 then skip else
    o ← findAlloc (allocKey E SOCK_DGRAM src);
    dispatchStun r.2 src None o.

Definition handleTcpFrame (c : nat) (connSock : socket_t) (data : bytes) : M unit :=
  x ← conn_get c;
  if isData x then
    peer ← dataPipePeerRef connSock;
    match peer with Some p => sendTcpRaw E p data | None => skip end
  else
    cd ← lift (isChannelData data);
    if cd : bool then
      o ← findAllocByControlSockRef connSock;
      match o with Some a => handleChannelDataFrame data a | None => skip end
    else
      im ← lift (isMessage data);
      if negb im then skip else
      r ← lift (decode emptyMessage data);
      if negb r.1 then skip else
      o ← (if connSock =? STICE_INVALID_SOCKET then mret None
           else gets (fun s => allocByControlSock_ (tabs s) !! connSock));
      dispatchStun r.2 (peerAddr x) (Some c) o.

End Handlers.
