(* ===== verification/TurnServer.v ===== *)
(** * TURN server events (src/stserver/turn_server.cpp, lines 1578-2144)

    Connection management, expiry, the RFC 6062 data pipe, and the callbacks and queues that
    carry events from the IO backend to the business thread and the data shards.  One
    [Event] is one uninterrupted piece of work of one thread: an IO callback, one item taken
    from a queue, the reaping of closed connections or the timer tick. *)

From S2P Require Import Prelude.
From S2P Require Import StateMonad.
From S2P Require Import Bytes.
From S2P Require Import Crypto.
From S2P Require Import Addr.
From S2P Require Import StunMessage.
From S2P Require Import StunAttributes.
From S2P Require Import ChannelData.
From S2P Require Import StunConn.
From S2P Require Import TcpWriter.
From S2P Require Import TurnState.
From S2P Require Import TurnCore.
From S2P Require Import TurnHandlers.
Open Scope Z_scope.
Open Scope c_scope.

Definition kPrePairBufCap : Z := 256 * 1024.

Section Server.
Context (E : Env).

(** ** Queues *)

Definition enqueueControl (it : WorkItem) : M unit :=
  modify (fun s => set_controlQueue (controlQueue_ s ++ [it]) s).

Definition enqueueCloseConn (sk : socket_t) : M unit :=
  enqueueControl (mkWork TcpConnClosed sk emptyAddr []).

(** The shard of a socket: a 64-bit mix of the handle, modulo the number of shards. *)
Definition shardIndexFor (shardCount : Z) (sk : socket_t) : Z :=
  let h := u64 sk in
  let h := h ^. (h >>. 33) in
  let h := u64 (h * 0xff51afd7ed558ccd) in
  let h := h ^. (h >>. 33) in
  let h := u64 (h * 0xc4ceb9fe1a85ec53) in
  let h := h ^. (h >>. 33) in
  h mod shardCount.

Definition enqueueToShard (idx : nat) (it : WorkItem) : M unit :=
  modify (fun s => set_shardQueues (alter (fun q => q ++ [it]) idx (shardQueues s)) s).

(** Route an item to the shard that owns a socket. *)
Definition toShardOf (sk : socket_t) (it : WorkItem) : M unit :=
  n ← gets (fun s => length (shardQueues s));
  enqueueToShard (Z.to_nat (shardIndexFor (Z.of_nat n) sk)) it.

(** ** Connections *)

Definition registerTcpConn (sk : socket_t) (peer : AddrRecord) : M unit :=
  modify (set_cns (fun c =>
    let i := nextConn c in
    mkConns (<[i := mkTcpConn sk peer newStunConn false 0 newWriter [] false]> (conns c)) (S i)
      (tcpConns_ c ++ [i]) (<[sk := i]> (tcpBySock_ c)) (dataPipe_ c) (dataPipePeer_ c)
      (pendingFreeConns_ c)));;
  emit (OAddTcp sk).

(** [dataPipe_.erase(dp->second); dataPipe_.erase(dp)]: of a socket that is paired with
    itself the first erase removes the entry [dp] points to, and the second one goes through
    an invalid iterator. *)
Definition erasePipe (sk : socket_t) (m : gmap socket_t socket_t) : option (gmap socket_t socket_t) :=
  match m !! sk with
  | Some other => if other =? sk then None else Some (delete sk (delete other m))
  | None => Some m
  end.

(** Unlink a connection from the socket map and the peer pointers, with the data pipe [dp] it
    leaves behind, and park it for reaping. *)
Definition unlinkConn (i : nat) (x : TcpConn) (dp : gmap socket_t socket_t) (c : Conns) : Conns :=
  let sk := tc_sock x in
  mkConns
    (<[i := mkTcpConn STICE_INVALID_SOCKET (peerAddr x) (stunConn x) (isData x) (tc_connId x)
              (writer x) (prePairBuf x) true]> (conns c))
    (nextConn c) (filter (fun j => j <> i) (tcpConns_ c)) (delete sk (tcpBySock_ c)) dp
    (filter (fun kv => kv.1 <> sk /\ kv.2 <> i) (dataPipePeer_ c))
    (if decide (i ∈ tcpConns_ c) then pendingFreeConns_ c ++ [i] else pendingFreeConns_ c).

Definition closeTcpConn (i : nat) : M unit :=
  x ← conn_get i;
  let sk := tc_sock x in
  if sk =? STICE_INVALID_SOCKET then skip else
  o ← gets (fun s => allocByControlSock_ (tabs s) !! sk);
  (match o with Some a => destroyAllocation E a | None => skip end);;
  pipe ← gets (fun s => dataPipe_ (cns s));
  dp ← lift (erasePipe sk pipe);
  modify (set_cns (unlinkConn i x dp));;
  emit (ORemoveTcp sk);;
  emit (OClose sk).

(** No reference outlives its step, so every parked connection is freed. *)
Definition reapPendingConns : M unit :=
  modify (set_cns (fun c =>
    mkConns (foldl (fun m i => delete i m) (conns c) (pendingFreeConns_ c)) (nextConn c)
      (tcpConns_ c) (tcpBySock_ c) (dataPipe_ c) (dataPipePeer_ c) [])).

(** ** Expiry *)

Definition expirePending (now : Z) (l : list PendingConnect) (m : gmap Z nat) : gmap Z nat :=
  foldl (fun m pc => if pc_expiryMs pc <=? now then delete (pc_connId pc) m else m) m l.

Definition expireContents (now : Z) (x : Allocation) : Allocation :=
  mkAllocation (transport x) (clientAddr x) (controlSock x) (relaySock x) (relayedAddr x)
    (relayPort x) (username x)
    (filter (fun p => now < pm_expiryMs p) (permissions x))
    (filter (fun c => now < ch_expiryMs c) (channels x)) (expiryMs x)
    (filter (fun p => now < pc_expiryMs p) (pendingConnects x)).

Fixpoint expireLoop (now : Z) (l : list (string * nat)) : M unit :=
  match l with
  | [] => skip
  | (_, a) :: l =>
      x ← alloc_get a;
      modify (set_tabs (fun t =>
        set_pendingMap (expirePending now (pendingConnects x) (pendingByConnId_ t)) t));;
      alloc_put a (expireContents now x);;
      (if expiryMs x <=? now then destroyAllocation E a else skip);;
      expireLoop now l
  end.

(** Release the ports whose owner has no entry in the allocation table. *)
Fixpoint sweepPorts (l : list (Z * option nat)) : M unit :=
  match l with
  | [] => skip
  | (port, None) :: l => sweepPorts l
  | (port, Some o) :: l =>
      x ← alloc_get o;
      found ← findAlloc (allocKey E (transport x) (clientAddr x));
      (match found with
       | None => modify (set_tabs (fun t => set_ports (delete port (usedRelayPorts_ t)) t))
       | Some _ => skip
       end);;
      sweepPorts l
  end.

Definition expireStale : M unit :=
  now ← nowMs;
  nexp ← gets nonceExpiryMs_;
  (if nexp <=? now then refreshNonce E else skip);;
  l ← gets (fun s => entries (allocations_ (tabs s)));
  expireLoop now l;;
  ports ← gets (fun s => map_to_list (usedRelayPorts_ (tabs s)));
  sweepPorts ports.

(** ** The data pipe *)

Definition appendPrePair (c : nat) (connSock : socket_t) (data : bytes) : M unit :=
  peer ← dataPipePeerRef connSock;
  match peer with
  | Some p =>
      x ← conn_get c;
      (if (length (prePairBuf x) =? 0)%nat then skip else
         sendTcpRaw E p (prePairBuf x);;
         x ← conn_get c;
         conn_put c (conn_prePair x []));;
      sendTcpRaw E p data
  | None =>
      x ← conn_get c;
      if kPrePairBufCap <? Z.of_nat (length (prePairBuf x)) + Z.of_nat (length data) then
        conn_put c (conn_prePair x []);;
        enqueueCloseConn connSock
      else conn_put c (conn_prePair x (prePairBuf x ++ data))
  end.

Definition conn_stun (x : TcpConn) (sc : StunConn) : TcpConn :=
  mkTcpConn (tc_sock x) (peerAddr x) sc (isData x) (tc_connId x) (writer x) (prePairBuf x) (dying x).

(** The receive loop: frames until the buffer is empty or the stream is broken. *)
Fixpoint connLoop (fuel : nat) (c : nat) (connSock : socket_t) : M unit :=
  match fuel with
  | O => lift None
  | S fuel =>
      x ← conn_get c;
      r ← lift (readFrame (stunConn x));
      let '(fs, out, sc) := r in
      conn_put c (conn_stun x sc);;
      if fs =? 0 then skip else
      if fs =? SIZE_MAX then enqueueCloseConn connSock else
      off ← lift out;
      frame ← lift (peek (buf_ sc) off (Z.to_nat fs));
      handleTcpFrame E c connSock frame;;
      connLoop fuel c connSock
  end.

Definition handleTcpConnData (connSock : socket_t) (data : bytes) : M unit :=
  o ← tcpConnRef connSock;
  match o with
  | None => skip
  | Some c =>
      x ← conn_get c;
      if isData x then appendPrePair c connSock data else
      let sc := feed (stunConn x) data in
      conn_put c (conn_stun x sc);;
      connLoop (S (length (buf_ sc))) c connSock
  end.

(** ** Events *)

(** The callbacks of the IO backend. *)
Definition ioOnUdpData (data : bytes) (from : AddrRecord) : M unit :=
  cd ← lift (isChannelData data);
  a ← (if cd : bool then findAllocByClientRef from else mret None);
  match a with
  | Some a => handleChannelDataFrame E data a
  | None => enqueueControl (mkWork UdpData STICE_INVALID_SOCKET from data)
  end.

Definition ioOnTcpAccepted (sk : socket_t) (peer : AddrRecord) : M unit :=
  enqueueControl (mkWork TcpAccepted sk peer []).

Definition ioOnRelayData (sk : socket_t) (data : bytes) (from : AddrRecord) : M unit :=
  o ← findAllocByRelayRef sk;
  match o with
  | None => skip
  | Some a =>
      x ← alloc_get a;
      if controlSock x =? STICE_INVALID_SOCKET then forwardToClient E a from data
      else toShardOf (controlSock x) (mkWork RelayData sk from data)
  end.

Definition ioOnTcpConnData (sk : socket_t) (data : bytes) : M unit :=
  toShardOf sk (mkWork TcpConnData sk emptyAddr data).

Definition ioOnTcpConnClosed (sk : socket_t) : M unit :=
  enqueueControl (mkWork TcpConnClosed sk emptyAddr []).

Definition ioOnTcpConnWritable (sk : socket_t) : M unit :=
  toShardOf sk (mkWork TcpConnWritable sk emptyAddr []).

(** The business thread. *)
Definition processItem (it : WorkItem) : M unit :=
  match wk_kind it with
  | UdpData => handleUdpPacket E (wk_data it) (wk_from it)
  | TcpAccepted => registerTcpConn (wk_sock it) (wk_from it)
  | TcpConnClosed =>
      o ← tcpConnRef (wk_sock it);
      match o with Some c => closeTcpConn c | None => skip end
  | _ => skip
  end.

(** A data shard. *)
Definition processShardItem (it : WorkItem) : M unit :=
  match wk_kind it with
  | TcpConnData => handleTcpConnData (wk_sock it) (wk_data it)
  | RelayData =>
      o ← findAllocByRelayRef (wk_sock it);
      match o with Some a => forwardToClient E a (wk_from it) (wk_data it) | None => skip end
  | TcpConnWritable =>
      o ← tcpConnRef (wk_sock it);
      match o with
      | None => skip
      | Some c => ok ← flushTcp E c; if ok : bool then skip else enqueueCloseConn (wk_sock it)
      end
  | _ => skip
  end.

Inductive Event :=
| EvUdp (data : bytes) (from : AddrRecord)
| EvAccepted (sk : socket_t) (peer : AddrRecord)
| EvRelay (sk : socket_t) (data : bytes) (from : AddrRecord)
| EvConnData (sk : socket_t) (data : bytes)
| EvConnClosed (sk : socket_t)
| EvConnWritable (sk : socket_t)
| EvControl                 (* the business thread takes the next control item *)
| EvShard (i : nat)         (* shard [i] takes its next item *)
| EvReap
| EvTick.

Definition step (e : Event) : M unit :=
  match e with
  | EvUdp data from => ioOnUdpData data from
  | EvAccepted sk peer => ioOnTcpAccepted sk peer
  | EvRelay sk data from => ioOnRelayData sk data from
  | EvConnData sk data => ioOnTcpConnData sk data
  | EvConnClosed sk => ioOnTcpConnClosed sk
  | EvConnWritable sk => ioOnTcpConnWritable sk
  | EvControl =>
      q ← gets controlQueue_;
      match q with
      | [] => skip
      | it :: q => modify (set_controlQueue q);; processItem it
      end
  | EvShard i =>
      qs ← gets shardQueues;
      match qs !! i with
      | Some (it :: q) => modify (set_shardQueues (<[i := q]> qs));; processShardItem it
      | _ => skip
      end
  | EvReap => reapPendingConns
  | EvTick => expireStale
  end.

(** A run: each event with the time it happens at. *)
Fixpoint run (evs : list (Z * Event)) : M unit :=
  match evs with
  | [] => skip
  | (t, e) :: evs => modify (set_clock t);; step e;; run evs
  end.

(** The server after [init] and [run]: the nonce is drawn, nothing is allocated, and there
    is one empty queue per shard. *)
Definition initSrv (now : Z) (portBegin portEnd : Z) (shardCount : nat) : Srv :=
  mkSrv
    (mkTables ∅ 0 ∅ ∅ [] [] ∅ ∅ ∅ 1 portBegin portEnd)
    (mkConns ∅ 0 [] ∅ ∅ ∅ [])
    (randomStr64 (fun j => csprng E j 32) 32) (now + nonceLifetimeMs_ E)
    now 1 0 0 [] [] (replicate shardCount []).

End Server.
