(* ===== verification/TurnInv.v ===== *)
(** * The invariant of the server's tables

    [tabs_ok] says that the maps of the server agree with the heap: every pointer in a map
    leads to a live allocation that has the key as its own, every live allocation is owned by
    exactly one table entry and owns exactly its relay port.  The lemmas show that the table
    updates of the source keep it. *)

From S2P Require Import Prelude.
From S2P Require Import StateMonad.
From S2P Require Import Bytes.
From S2P Require Import Crypto.
From S2P Require Import Addr.
From S2P Require Import StunMessage.
From S2P Require Import StunAttributes.
From S2P Require Import ChannelData.
From S2P Require Import StunConn.
From S2P Require Import TcpWriter.
From S2P Require Import TurnState.
From S2P Require Import TurnCore.
From S2P Require Import TurnHandlers.
From S2P Require Import TurnServer.
Open Scope Z_scope.

(** ** Hash maps keyed by an address *)

(** No two keys are equal. *)
Fixpoint akeys_ok (l : list (AddrRecord * nat)) : Prop :=
  match l with
  | [] => True
  | (k, _) :: l => Forall (fun kv => addrRecordEq k kv.1 = false) l /\ akeys_ok l
  end.

Lemma alookup_elem k l v : alookup k l = Some v -> exists k', (k', v) ∈ l /\ addrRecordEq k' k = true.
Proof.
  induction l as [|[k' v'] l IH]; simpl; [done|]. destruct (addrRecordEq k' k) eqn:E.
  - intros [= <-]. exists k'. split; [left|done].
  - intros H. destruct (IH H) as (k2 & Hin & E2). exists k2. split; [by right|done].
Qed.

Lemma ainsert_elem k v l kv : kv ∈ ainsert k v l ->
  kv ∈ l \/ (kv.2 = v /\ (kv.1 = k \/ addrRecordEq kv.1 k = true)).
Proof.
  induction l as [|[k' v'] l IH]; simpl.
  - rewrite list_elem_of_singleton. intros ->. right. split; [done|by left].
  - destruct (addrRecordEq k' k) eqn:Ek.
    + rewrite elem_of_cons. intros [->|H]; [right; split; [done|by right]|left; by right].
    + rewrite elem_of_cons. intros [->|H]; [left; left|].
      destruct (IH H); [left; by right|by right].
Qed.

Lemma ainsert_keys k v l : akeys_ok l -> akeys_ok (ainsert k v l).
Proof.
  induction l as [|[k' v'] l IH]; simpl; [done|]. intros [H1 H2].
  destruct (addrRecordEq k' k) eqn:Ek; [done|]. split; [|by apply IH].
  apply Forall_forall. intros kv Hin. destruct (ainsert_elem _ _ _ _ Hin) as [Hl|[_ Hk]].
  - by apply (Forall_forall _ l) with (x := kv) in H1.
  - destruct Hk as [->|Hk]; [done|]. destruct (addrRecordEq k' kv.1) eqn:E'; [|done].
    rewrite (addrRecordEq_trans _ _ _ E' Hk) in Ek. done.
Qed.

Lemma aerase_elem k l kv :
  akeys_ok l -> kv ∈ aerase k l -> kv ∈ l /\ addrRecordEq kv.1 k = false.
Proof.
  induction l as [|[k' v'] l IH]; simpl; [intros _ []%elem_of_nil|]. intros [H1 H2].
  destruct (addrRecordEq k' k) eqn:Ek.
  - intros Hin. split; [by right|]. destruct (addrRecordEq kv.1 k) eqn:E'; [|done].
    apply (Forall_forall _ l) with (x := kv) in H1; [|done].
    apply addrRecordEq_sym in E'. by rewrite (addrRecordEq_trans _ _ _ Ek E') in H1.
  - rewrite elem_of_cons. intros [->|Hin]; [split; [left|done]|].
    destruct (IH H2 Hin). split; [by right|done].
Qed.

Lemma aerase_keys k l : akeys_ok l -> akeys_ok (aerase k l).
Proof.
  induction l as [|[k' v'] l IH]; simpl; [done|]. intros [H1 H2].
  destruct (addrRecordEq k' k); [done|]. split; [|by apply IH].
  apply Forall_forall. intros kv Hin. destruct (aerase_elem _ _ _ H2 Hin) as [Hl _].
  by apply (Forall_forall _ l) with (x := kv) in H1.
Qed.

(** ** The invariant *)

Lemma samePeerIP_sym a b : samePeerIP a b = true -> samePeerIP b a = true.
Proof. apply addrEqual_sym. Qed.

Lemma samePeerIP_trans a b c : samePeerIP a b = true -> samePeerIP b c = true -> samePeerIP a c = true.
Proof. apply addrEqual_trans. Qed.

(** No two entries are for the same peer IP. *)
Fixpoint distinctIP {A} (peer : A -> AddrRecord) (l : list A) : Prop :=
  match l with
  | [] => True
  | p :: l => Forall (fun q => samePeerIP (peer p) (peer q) = false) l /\ distinctIP peer l
  end.

(** A channel number is bound to one peer, a peer to one channel number, and a peer IP has
    one permission. *)
Definition grants_ok (x : Allocation) : Prop :=
  distinctIP pm_peer (permissions x) /\ distinctIP ch_peer (channels x) /\
  NoDup (ch_number <$> channels x).

Definition alloc_ok (x : Allocation) : Prop :=
  sizedStr (username x) /\ Forall (fun c => channelValid (ch_number c) = true) (channels x) /\
  Forall (fun p => tid_ok (pc_connectTid p)) (pendingConnects x) /\ grants_ok x.

Definition pendingIds (x : Allocation) : list Z := pc_connId <$> pendingConnects x.

Section Inv.
Context (E : Env).

Definition keyOf (x : Allocation) : string := allocKey E (transport x) (clientAddr x).

Record tabs_ok (t : Tables) : Prop := {
  ok_own : forall key i, allocations_ t !! key = Some i ->
             exists x, heap t !! i = Some x /\ key = keyOf x;
  ok_live : forall i x, heap t !! i = Some x -> allocations_ t !! keyOf x = Some i;
  ok_relay : forall sk i, allocByRelaySock_ t !! sk = Some i ->
               exists x, heap t !! i = Some x /\ relaySock x = sk;
  ok_raddr : forall k i, (k, i) ∈ allocByRelayAddr_ t ->
               exists x, heap t !! i = Some x /\ addrRecordEq k (relayedAddr x) = true;
  ok_rkeys : akeys_ok (allocByRelayAddr_ t);
  ok_client : forall k i, (k, i) ∈ allocByClientAddr_ t ->
                exists x, heap t !! i = Some x /\ addrRecordEq k (clientAddr x) = true;
  ok_ckeys : akeys_ok (allocByClientAddr_ t);
  ok_control : forall sk i, sk <> STICE_INVALID_SOCKET -> allocByControlSock_ t !! sk = Some i ->
                 exists x, heap t !! i = Some x /\ controlSock x = sk;
  ok_pending : forall c i, pendingByConnId_ t !! c = Some i ->
                 exists x, heap t !! i = Some x /\ c ∈ pendingIds x;
  ok_ports : forall p i, usedRelayPorts_ t !! p = Some (Some i) ->
               exists x, heap t !! i = Some x /\ relayPort x = p;
  ok_owned : forall i x, heap t !! i = Some x -> usedRelayPorts_ t !! relayPort x = Some (Some i);
  ok_fresh : forall i x, heap t !! i = Some x -> (i < nextAlloc t)%nat;
  ok_contents : forall i x, heap t !! i = Some x -> alloc_ok x;
}.

(** Two live allocations never share a relay port. *)
Lemma ports_unique t i j x y :
  tabs_ok t -> heap t !! i = Some x -> heap t !! j = Some y -> relayPort x = relayPort y -> i = j.
Proof.
  intros H Ei Ej Ep. pose proof (ok_owned t H i x Ei) as H1. pose proof (ok_owned t H j y Ej) as H2.
  rewrite Ep in H1. congruence.
Qed.

(** Two live allocations never share a key. *)
Lemma keys_unique t i j x y :
  tabs_ok t -> heap t !! i = Some x -> heap t !! j = Some y -> keyOf x = keyOf y -> i = j.
Proof.
  intros H Ei Ej Ek. pose proof (ok_live t H i x Ei) as H1. pose proof (ok_live t H j y Ej) as H2.
  rewrite Ek in H1. congruence.
Qed.

(** ** Updating an allocation in place *)

(** The fields the maps are keyed by. *)
Definition same_id (x y : Allocation) : Prop :=
  transport y = transport x /\ clientAddr y = clientAddr x /\ controlSock y = controlSock x /\
  relaySock y = relaySock x /\ relayedAddr y = relayedAddr x /\ relayPort y = relayPort x.

Lemma same_id_key x y : same_id x y -> keyOf y = keyOf x.
Proof. intros (H1 & H2 & _). unfold keyOf. by rewrite H1, H2. Qed.

Lemma tabs_ok_put t a x y :
  tabs_ok t -> heap t !! a = Some x -> same_id x y -> alloc_ok y ->
  (forall c, pendingByConnId_ t !! c = Some a -> c ∈ pendingIds y) ->
  tabs_ok (set_heap (<[a := y]> (heap t)) t).
Proof.
  intros H Ea Hid Hy Hp. pose proof (same_id_key x y Hid) as Hk.
  destruct Hid as (I1 & I2 & I3 & I4 & I5 & I6).
  assert (Hlk : forall i z (P : Allocation -> Prop), heap t !! i = Some z -> P z ->
            (P x -> P y) -> exists z', <[a := y]> (heap t) !! i = Some z' /\ P z').
  { intros i z P Ei HP Hxy. destruct (decide (a = i)) as [->|Hne].
    - exists y. rewrite lookup_insert_eq. split; [done|]. apply Hxy. congruence.
    - exists z. by rewrite lookup_insert_ne. }
  assert (Hinv : forall i z, <[a := y]> (heap t) !! i = Some z ->
            (i = a /\ z = y) \/ (i <> a /\ heap t !! i = Some z)).
  { intros i z. rewrite lookup_insert_Some. naive_solver. }
  constructor; cbn [heap allocations_ allocByRelaySock_ allocByRelayAddr_ allocByClientAddr_
                    allocByControlSock_ pendingByConnId_ usedRelayPorts_ nextAlloc set_heap].
  - intros key i Hi. destruct (ok_own t H key i Hi) as (z & Ez & ->).
    apply (Hlk i z (fun w => keyOf z = keyOf w)); [done|done|]. by rewrite Hk.
  - intros i z Hi. destruct (Hinv i z Hi) as [[-> ->]|[_ Ez]]; [|by apply (ok_live t H)].
    rewrite Hk. by apply (ok_live t H).
  - intros sk i Hi. destruct (ok_relay t H sk i Hi) as (z & Ez & Hz).
    apply (Hlk i z (fun w => relaySock w = sk)); [done..|]. by rewrite I4.
  - intros k i Hi. destruct (ok_raddr t H k i Hi) as (z & Ez & Hz).
    apply (Hlk i z (fun w => addrRecordEq k (relayedAddr w) = true)); [done..|]. by rewrite I5.
  - apply (ok_rkeys t H).
  - intros k i Hi. destruct (ok_client t H k i Hi) as (z & Ez & Hz).
    apply (Hlk i z (fun w => addrRecordEq k (clientAddr w) = true)); [done..|]. by rewrite I2.
  - apply (ok_ckeys t H).
  - intros sk i Hsk Hi. destruct (ok_control t H sk i Hsk Hi) as (z & Ez & Hz).
    apply (Hlk i z (fun w => controlSock w = sk)); [done..|]. by rewrite I3.
  - intros c i Hi. destruct (ok_pending t H c i Hi) as (z & Ez & Hz).
    destruct (decide (a = i)) as [->|Hne].
    + exists y. rewrite lookup_insert_eq. split; [done|]. by apply Hp.
    + exists z. by rewrite lookup_insert_ne.
  - intros p i Hi. destruct (ok_ports t H p i Hi) as (z & Ez & Hz).
    apply (Hlk i z (fun w => relayPort w = p)); [done..|]. by rewrite I6.
  - intros i z Hi. destruct (Hinv i z Hi) as [[-> ->]|[_ Ez]]; [|by apply (ok_owned t H)].
    rewrite I6. by apply (ok_owned t H).
  - intros i z Hi. destruct (Hinv i z Hi) as [[-> ->]|[_ Ez]]; by eapply (ok_fresh t H).
  - intros i z Hi. destruct (Hinv i z Hi) as [[-> ->]|[_ Ez]]; [done|by eapply (ok_contents t H)].
Qed.

(** ** Freeing an allocation *)

Lemma erasePending_lookup l m c i :
  erasePending l m !! c = Some i -> m !! c = Some i /\ c ∉ (pc_connId <$> l).
Proof.
  unfold erasePending. revert m. induction l as [|pc l IH]; intros m; simpl.
  { intros H. split; [done|]. apply not_elem_of_nil. }
  intros H. destruct (IH _ H) as [H1 H2]. apply lookup_delete_Some in H1 as [Hne H1].
  split; [done|]. rewrite not_elem_of_cons. split; [congruence|done].
Qed.

(** What [destroyAllocation] does to the tables when every pointer is as it should be. *)
Definition destroyTabs (a : nat) (x : Allocation) (t : Tables) : Tables :=
  mkTables (delete a (heap t)) (nextAlloc t) (delete (keyOf x) (allocations_ t))
    (delete (relaySock x) (allocByRelaySock_ t)) (aerase (relayedAddr x) (allocByRelayAddr_ t))
    (aerase (clientAddr x) (allocByClientAddr_ t))
    (if controlSock x =? STICE_INVALID_SOCKET then allocByControlSock_ t
     else delete (controlSock x) (allocByControlSock_ t))
    (erasePending (pendingConnects x) (pendingByConnId_ t))
    (delete (relayPort x) (usedRelayPorts_ t))
    (nextConnId_ t) (relayPortBegin_ t) (relayPortEnd_ t).

Lemma tabs_ok_destroy t a x :
  tabs_ok t -> heap t !! a = Some x -> tabs_ok (destroyTabs a x t).
Proof.
  intros H Ea.
  assert (Hlk : forall i z (P : Prop), heap t !! i = Some z -> (i = a -> False) ->
            delete a (heap t) !! i = Some z).
  { intros i z _ Ez Hne. by rewrite lookup_delete_ne by congruence. }
  constructor; cbn [heap allocations_ allocByRelaySock_ allocByRelayAddr_ allocByClientAddr_
                    allocByControlSock_ pendingByConnId_ usedRelayPorts_ nextAlloc destroyTabs].
  - intros key i [Hne Hi]%lookup_delete_Some. destruct (ok_own t H key i Hi) as (z & Ez & ->).
    exists z. split; [|done]. apply (Hlk i z True); [done|]. intros ->. by simplify_eq.
  - intros i z [Hne Hi]%lookup_delete_Some. rewrite lookup_delete_ne; [by apply (ok_live t H)|].
    intros Ek. apply Hne. by eapply (keys_unique t).
  - intros sk i [Hne Hi]%lookup_delete_Some. destruct (ok_relay t H sk i Hi) as (z & Ez & Hz).
    exists z. split; [|done]. apply (Hlk i z True); [done|]. intros ->. by simplify_eq.
  - intros k i Hi. apply aerase_elem in Hi as [Hi Hne]; [|apply (ok_rkeys t H)].
    destruct (ok_raddr t H k i Hi) as (z & Ez & Hz). exists z. split; [|done].
    apply (Hlk i z True); [done|]. intros ->. simplify_eq. cbn in Hne. congruence.
  - apply aerase_keys, (ok_rkeys t H).
  - intros k i Hi. apply aerase_elem in Hi as [Hi Hne]; [|apply (ok_ckeys t H)].
    destruct (ok_client t H k i Hi) as (z & Ez & Hz). exists z. split; [|done].
    apply (Hlk i z True); [done|]. intros ->. simplify_eq. cbn in Hne. congruence.
  - apply aerase_keys, (ok_ckeys t H).
  - intros sk i Hsk Hi.
    assert (Hi' : allocByControlSock_ t !! sk = Some i /\ (controlSock x = sk -> False)).
    { destruct (Z.eqb_spec (controlSock x) STICE_INVALID_SOCKET); [split; [done|congruence]|].
      apply lookup_delete_Some in Hi as [? ?]. split; [done|congruence]. }
    destruct Hi' as [Hi' Hne]. destruct (ok_control t H sk i Hsk Hi') as (z & Ez & Hz).
    exists z. split; [|done]. apply (Hlk i z True); [done|]. intros ->. by simplify_eq.
  - intros c i Hi. apply erasePending_lookup in Hi as [Hi Hne].
    destruct (ok_pending t H c i Hi) as (z & Ez & Hz). exists z. split; [|done].
    apply (Hlk i z True); [done|]. intros ->. by simplify_eq.
  - intros p i [Hne Hi]%lookup_delete_Some. destruct (ok_ports t H p i Hi) as (z & Ez & Hz).
    exists z. split; [|done]. apply (Hlk i z True); [done|]. intros ->. by simplify_eq.
  - intros i z [Hne Hi]%lookup_delete_Some. rewrite lookup_delete_ne; [by apply (ok_owned t H)|].
    intros Ep. apply Hne. by eapply (ports_unique t).
  - intros i z [Hne Hi]%lookup_delete_Some. by eapply (ok_fresh t H).
  - intros i z [Hne Hi]%lookup_delete_Some. by eapply (ok_contents t H).
Qed.

End Inv.
