(* ===== verification/TurnGrants.v ===== *)
(** * Permissions and channels

    The permission and channel lists of an allocation as the maps they stand for: a peer IP
    has at most one permission and one channel, a channel number one peer.  The updates of
    CreatePermission, ChannelBind and the expiry tick are map updates. *)

From S2P Require Import Prelude.
From S2P Require Import StateMonad.
From S2P Require Import Bytes.
From S2P Require Import Crypto.
From S2P Require Import Addr.
From S2P Require Import StunMessage.
From S2P Require Import StunAttributes.
From S2P Require Import ChannelData.
From S2P Require Import StunConn.
From S2P Require Import TcpWriter.
From S2P Require Import TurnState.
From S2P Require Import TurnCore.
From S2P Require Import TurnHandlers.
From S2P Require Import TurnServer.
From S2P Require Import TurnInv.
Open Scope Z_scope.

(** ** Lists without two entries for one IP *)

Lemma distinctIP_sub {A} (peer : A -> AddrRecord) l (P : A -> Prop) `{!forall x, Decision (P x)} :
  distinctIP peer l -> distinctIP peer (filter P l).
Proof.
  induction l as [|p l IH]; [done|]. cbn [distinctIP]. intros [H1 H2]. rewrite filter_cons.
  case_decide; [|by apply IH]. split; [|by apply IH]. apply Forall_forall.
  intros q [_ Hq]%list_elem_of_filter. by apply (Forall_forall _ l) with (x := q) in H1.
Qed.

Lemma samePeerIP_false a b : samePeerIP a b = false -> samePeerIP b a = false.
Proof. intros H. destruct (samePeerIP b a) eqn:E; [|done]. apply samePeerIP_sym in E. congruence. Qed.

Lemma samePeerIP_left a b c : samePeerIP a b = true -> samePeerIP a c = samePeerIP b c.
Proof.
  intros H. destruct (samePeerIP b c) eqn:E; [by eapply samePeerIP_trans|].
  destruct (samePeerIP a c) eqn:E'; [|done].
  by rewrite (samePeerIP_trans _ _ _ (samePeerIP_sym _ _ H) E') in E.
Qed.

Lemma samePeerIP_right a b c : samePeerIP a b = true -> samePeerIP c a = samePeerIP c b.
Proof.
  intros H. destruct (samePeerIP c b) eqn:E.
  - by eapply samePeerIP_trans; [|apply samePeerIP_sym].
  - destruct (samePeerIP c a) eqn:E'; [|done]. by rewrite (samePeerIP_trans _ _ _ E' H) in E.
Qed.

(** ** Permissions *)

(** The permission map: when the permission for a peer's IP expires. *)
Fixpoint permission (l : list Permission) (q : AddrRecord) : option Z :=
  match l with
  | [] => None
  | p :: l => if samePeerIP (pm_peer p) q then Some (pm_expiryMs p) else permission l q
  end.

(** Whether a peer may be reached at a time. *)
Definition allowed (o : option Z) (now : Z) : bool :=
  match o with Some e => now <? e | None => false end.

Lemma permission_none l q :
  Forall (fun p => samePeerIP (pm_peer p) q = false) l -> permission l q = None.
Proof. induction 1 as [|p l Hp _ IH]; [done|]. cbn. by rewrite Hp. Qed.

(** The scan of the handlers is the lookup in the map. *)
Lemma permits_allowed l now q :
  distinctIP pm_peer l -> existsb (permits now q) l = allowed (permission l q) now.
Proof.
  induction l as [|p l IH]; [done|]. cbn [distinctIP existsb permission]. intros [H1 H2].
  unfold permits at 1. destruct (samePeerIP (pm_peer p) q) eqn:E; cbn [andb]; [|by apply IH].
  destruct (now <? pm_expiryMs p) eqn:Ex; cbn [orb allowed]; [by rewrite Ex|].
  rewrite IH by done. rewrite permission_none; [done|].
  eapply Forall_impl; [exact H1|]. intros p' Hp'. cbn in Hp'.
  destruct (samePeerIP (pm_peer p') q) eqn:E'; [|done].
  by rewrite (samePeerIP_trans _ _ _ E (samePeerIP_sym _ _ E')) in Hp'.
Qed.

Lemma putPermission_spec peer e l q :
  permission (putPermission peer e l) q = if samePeerIP peer q then Some e else permission l q.
Proof.
  induction l as [|p l IH]; [done|]. cbn [putPermission permission].
  destruct (samePeerIP (pm_peer p) peer) eqn:E; cbn [permission pm_peer pm_expiryMs].
  - rewrite (samePeerIP_left _ _ q E). by destruct (samePeerIP peer q).
  - rewrite IH. destruct (samePeerIP (pm_peer p) q) eqn:E'; [|done].
    destruct (samePeerIP peer q) eqn:E2; [|done].
    by rewrite (samePeerIP_trans _ _ _ E' (samePeerIP_sym _ _ E2)) in E.
Qed.

Lemma touchPermission_spec peer e l q :
  permission (touchPermission peer e l) q = if samePeerIP peer q then Some e else permission l q.
Proof.
  induction l as [|p l IH]; [done|]. cbn [touchPermission permission].
  destruct (samePeerIP (pm_peer p) peer) eqn:E; cbn [permission pm_peer pm_expiryMs].
  - rewrite (samePeerIP_left _ _ q E). by destruct (samePeerIP peer q).
  - rewrite IH. destruct (samePeerIP (pm_peer p) q) eqn:E'; [|done].
    destruct (samePeerIP peer q) eqn:E2; [|done].
    by rewrite (samePeerIP_trans _ _ _ E' (samePeerIP_sym _ _ E2)) in E.
Qed.

(** An entry of the updated list is old or stands for the peer. *)
Lemma putPermission_elem peer e l p :
  p ∈ putPermission peer e l -> p ∈ l \/ pm_peer p = peer.
Proof.
  induction l as [|p' l IH]; cbn [putPermission].
  - rewrite list_elem_of_singleton. intros ->. by right.
  - destruct (samePeerIP _ _); rewrite !elem_of_cons; [|naive_solver].
    intros [->|H]; [by right|left; by right].
Qed.

Lemma touchPermission_elem peer e l p :
  p ∈ touchPermission peer e l ->
  (exists p', p' ∈ l /\ pm_peer p = pm_peer p') \/ pm_peer p = peer.
Proof.
  induction l as [|p' l IH]; cbn [touchPermission].
  - rewrite list_elem_of_singleton. intros ->. by right.
  - destruct (samePeerIP _ _); rewrite !elem_of_cons.
    + intros [->|H]; left; [exists p'|exists p]; (split; [set_solver|done]).
    + intros [->|H]; [left; exists p'; set_solver|]. destruct (IH H) as [(p2 & H1 & H2)|?]; [|by right].
      left. exists p2. set_solver.
Qed.

Lemma putPermission_distinct peer e l : distinctIP pm_peer l -> distinctIP pm_peer (putPermission peer e l).
Proof.
  induction l as [|p l IH]; [done|]. cbn [distinctIP putPermission]. intros [H1 H2].
  destruct (samePeerIP (pm_peer p) peer) eqn:E; cbn [distinctIP pm_peer].
  - split; [|done]. eapply Forall_impl; [exact H1|]. intros q Hq. by rewrite <- (samePeerIP_left _ _ _ E).
  - split; [|by apply IH]. apply Forall_forall. intros q [Hq| ->]%putPermission_elem; [|done].
    by apply (Forall_forall _ l) with (x := q) in H1.
Qed.

Lemma touchPermission_distinct peer e l :
  distinctIP pm_peer l -> distinctIP pm_peer (touchPermission peer e l).
Proof.
  induction l as [|p l IH]; [done|]. cbn [distinctIP touchPermission]. intros [H1 H2].
  destruct (samePeerIP (pm_peer p) peer) eqn:E; cbn [distinctIP pm_peer]; [done|].
  split; [|by apply IH]. apply Forall_forall.
  intros q [(q' & Hq & ->)| ->]%touchPermission_elem; [|done].
  by apply (Forall_forall _ l) with (x := q') in H1.
Qed.

(** ** Permissions of a request *)

(** The peers a CreatePermission names, in order. *)
Fixpoint requestedPeers (tid : bytes) (attrs : list Attribute) : list AddrRecord :=
  match attrs with
  | [] => []
  | a :: attrs =>
      if negb (atype a =? AttrType.XorPeerAddress) then requestedPeers tid attrs else
      match decodeXorAddr (value a) tid with
      | Some (Some peer) => peer :: requestedPeers tid attrs
      | _ => requestedPeers tid attrs
      end
  end.

Lemma installPermissions_spec tid e attrs l l' :
  installPermissions tid e attrs l = Some l' ->
  (distinctIP pm_peer l -> distinctIP pm_peer l') /\
  forall q, permission l' q =
    if existsb (fun p => samePeerIP p q) (requestedPeers tid attrs) then Some e else permission l q.
Proof.
  revert l. induction attrs as [|a attrs IH]; intros l; cbn [installPermissions requestedPeers].
  { by intros [= ->]. }
  destruct (negb _); [apply IH|].
  change (readXorAddress _ _ tid) with (decodeXorAddr (value a) tid).
  destruct (decodeXorAddr (value a) tid) as [[peer|]|]; cbn [mbind option_bind]; [|apply IH|done].
  intros [H1 H2]%IH. split; [auto using putPermission_distinct|]. intros q. rewrite H2. cbn [existsb].
  rewrite putPermission_spec. destruct (existsb _ (requestedPeers tid attrs)), (samePeerIP peer q); done.
Qed.

(** ** Channels *)

(** The channel map in both directions. *)
Definition channelPeer (l : list Channel) (n : Z) : option AddrRecord :=
  ch_peer <$> List.find (fun c => ch_number c =? n) l.

Lemma putChannel_elem n peer e l c :
  c ∈ putChannel n peer e l -> c = mkChannel n peer e \/ c ∈ l.
Proof.
  induction l as [|c' l IH]; cbn [putChannel].
  - rewrite list_elem_of_singleton. by left.
  - destruct (_ =? _); rewrite !elem_of_cons; naive_solver.
Qed.

Lemma putChannel_spec n peer e l m :
  channelPeer (putChannel n peer e l) m = if m =? n then Some peer else channelPeer l m.
Proof.
  unfold channelPeer. induction l as [|c l IH]; cbn [putChannel List.find].
  - cbn [ch_number]. rewrite Z.eqb_sym. by destruct (m =? n).
  - destruct (Z.eqb_spec (ch_number c) n) as [E|E]; cbn [List.find ch_number].
    + rewrite E, (Z.eqb_sym n m). by destruct (m =? n).
    + destruct (Z.eqb_spec (ch_number c) m) as [E'|E']; [|exact IH].
      destruct (Z.eqb_spec m n); [congruence|done].
Qed.

Lemma putChannel_grants n peer e l :
  existsb (badBinding n peer) l = false -> distinctIP ch_peer l -> NoDup (ch_number <$> l) ->
  distinctIP ch_peer (putChannel n peer e l) /\ NoDup (ch_number <$> putChannel n peer e l).
Proof.
  induction l as [|c l IH]; cbn [existsb distinctIP putChannel fmap list_fmap].
  { intros _ _ _. split; [done|]. apply NoDup_singleton. }
  intros [Hb Hbl]%orb_false_iff [H1 H2] [N1 N2]%NoDup_cons.
  unfold badBinding in Hb. apply orb_false_iff in Hb as [Hb1 Hb2].
  destruct (Z.eqb_spec (ch_number c) n) as [E|E]; cbn [andb negb] in Hb1, Hb2;
    cbn [distinctIP fmap list_fmap ch_peer ch_number].
  - apply negb_false_iff in Hb1. split; [split; [|done]|].
    + eapply Forall_impl; [exact H1|]. intros q Hq. by rewrite <- (samePeerIP_left _ _ _ Hb1).
    + apply NoDup_cons. by rewrite <- E.
  - rewrite andb_true_r in Hb2. destruct (IH Hbl H2 N2) as [D N]. split; [split; [|done]|].
    + apply Forall_forall. intros q [->|Hq]%putChannel_elem; [done|].
      by apply (Forall_forall _ l) with (x := q) in H1.
    + apply NoDup_cons. split; [|done]. intros (q & Hn & Hq)%list_elem_of_fmap.
      apply putChannel_elem in Hq as [->|Hq]; [done|]. apply N1. apply list_elem_of_fmap. by exists q.
Qed.

Lemma grants_expire now x : grants_ok x -> grants_ok (expireContents now x).
Proof.
  intros (H1 & H2 & H3). split; [by apply distinctIP_sub|]. split; [by apply distinctIP_sub|].
  cbn. eapply sublist_NoDup; [exact H3|]. apply fmap_sublist, sublist_filter.
Qed.
