(* ===== verification/TurnSafe.v ===== *)
(** * Safety of the server's operations

    [srv_ok] is the invariant of the whole state; the lemmas of this file run each operation
    of [TurnCore] and [TurnHandlers] from a good state and show that it returns, that is, it
    never follows a dangling pointer, never leaves a buffer and never loops, and that it
    ends in a good state.  [calm] describes the operations that leave the allocation tables
    as they were. *)

From S2P Require Import Prelude.
From S2P Require Import StateMonad.
From S2P Require Import Bytes.
From S2P Require Import Crypto.
From S2P Require Import Addr.
From S2P Require Import StunMessage.
From S2P Require Import StunAttributes.
From S2P Require Import ChannelData.
From S2P Require Import StunConn.
From S2P Require Import TcpWriter.
From S2P Require Import TurnState.
From S2P Require Import TurnCore.
From S2P Require Import TurnHandlers.
From S2P Require Import TurnServer.
From S2P Require Import TurnInv.
Open Scope Z_scope.

(** ** The invariant *)

(** What the program relies on of its environment: [send] reports at most what it was
    offered, the random source delivers bytes and as many as asked for, a relay socket is
    bound to the port that was asked for, and the configured texts and addresses are
    proper. *)
Record env_ok (E : Env) : Prop := {
  eo_send : forall sk k len, (tcpSend E k sk len).1 <= Z.of_nat len;
  eo_rnd : forall k n b, csprng E k n = Some b -> length b = n /\ bytes_ok b;
  eo_bind : forall k p h b, udpBind E k p = Some (h, b) ->
              h <> STICE_INVALID_SOCKET /\ (b = None \/ b = Some p);
  eo_realm : sizedStr (realm_ E);
  eo_relay : is_Some (normalize (relayIpAddr_ E));
}.

(** The connection maps agree with the connection heap. *)
Record conns_ok (c : Conns) : Prop := {
  co_sock : forall sk i, tcpBySock_ c !! sk = Some i ->
              exists x, conns c !! i = Some x /\ tc_sock x = sk;
  co_peer : forall sk i, dataPipePeer_ c !! sk = Some i -> is_Some (conns c !! i);
  co_free : forall i, i ∈ pendingFreeConns_ c ->
              (i < nextConn c)%nat /\ (forall sk, tcpBySock_ c !! sk <> Some i) /\
              (forall sk, dataPipePeer_ c !! sk <> Some i);
  co_fresh : forall i x, conns c !! i = Some x -> (i < nextConn c)%nat;
  co_state : forall i x, conns c !! i = Some x -> writer_ok (writer x) /\ conn_ok (stunConn x);
}.

(** The relay port range: 16-bit ports other than 0, in either order. *)
Definition range_ok (t : Tables) : Prop :=
  0 < relayPortBegin_ t < 65536 /\ 0 < relayPortEnd_ t < 65536.

Record srv_ok (E : Env) (s : Srv) : Prop := {
  so_tabs : tabs_ok E (tabs s);
  so_conns : conns_ok (cns s);
  so_nonce : sizedStr (nonce_ s);
  so_range : range_ok (tabs s);
}.

(** What only connection management and the receive loop change of a connection. *)
Definition same_conn (x y : TcpConn) : Prop :=
  tc_sock y = tc_sock x /\ peerAddr y = peerAddr x /\ stunConn y = stunConn x /\ dying y = dying x.

(** Connections stay where they are. *)
Record live_le (c c' : Conns) : Prop := {
  ll_conn : forall i x, conns c !! i = Some x -> exists y, conns c' !! i = Some y /\ same_conn x y;
  ll_sock : tcpBySock_ c' = tcpBySock_ c;
  ll_free : pendingFreeConns_ c' = pendingFreeConns_ c;
}.

Lemma ll_live c c' i : live_le c c' -> is_Some (conns c !! i) -> is_Some (conns c' !! i).
Proof. intros H [x Ex]. destruct (ll_conn _ _ H i x Ex) as (y & Ey & _). by exists y. Qed.

Lemma live_le_refl c : live_le c c.
Proof. constructor; [|done|done]. intros i x Ex. by exists x. Qed.

Lemma live_le_eq c c' : c' = c -> live_le c c'.
Proof. intros ->. apply live_le_refl. Qed.

Lemma live_le_trans c1 c2 c3 : live_le c1 c2 -> live_le c2 c3 -> live_le c1 c3.
Proof.
  intros [H1 ? ?] [K1 ? ?]. constructor; [|congruence|congruence]. intros i x Ex.
  destruct (H1 i x Ex) as (y & Ey & ? & ? & ? & ?). destruct (K1 i y Ey) as (z & Ez & ? & ? & ? & ?).
  exists z. split; [done|]. repeat split; congruence.
Qed.

#[export] Hint Resolve live_le_refl : core.

(** A datagram leaves a relay socket. *)
Definition relays (o : Output) : bool := match o with ORelay _ _ _ => true | _ => false end.

(** The work queues, and everything a step leaves for others to see. *)
Definition queues (s : Srv) : list WorkItem * list (list WorkItem) := (controlQueue_ s, shardQueues s).
Definition io (s : Srv) : list Output * (list WorkItem * list (list WorkItem)) := (outs s, queues s).

(** Nothing was sent to a peer, nothing was queued. *)
Definition quiet (s s' : Srv) : Prop :=
  exists l, io s' = (outs s ++ l, queues s) /\ Forall (fun o => relays o = false) l.

Lemma quiet_eq s s' : io s' = io s -> quiet s s'.
Proof. intros H. exists []. by rewrite app_nil_r. Qed.

Lemma quiet_refl s : quiet s s.
Proof. by apply quiet_eq. Qed.

Lemma quiet_queues s s' : quiet s s' -> queues s' = queues s.
Proof. intros (l & H & _). exact (f_equal snd H). Qed.

Lemma quiet_trans s1 s2 s3 : quiet s1 s2 -> quiet s2 s3 -> quiet s1 s3.
Proof.
  intros (l1 & E1 & H1) (l2 & E2 & H2). exists (l1 ++ l2).
  pose proof (f_equal fst E1) as O1. pose proof (f_equal snd E1) as Q1. cbn [fst snd io] in O1, Q1.
  rewrite E2, O1, app_assoc. rewrite <- Q1. split; [done|]. by apply Forall_app.
Qed.

Lemma quiet_emit s o : relays o = false -> quiet s (add_outs [o] s).
Proof. intros H. exists [o]. split; [done|]. by constructor. Qed.

Lemma quiet_one s s' o : io s' = (outs s ++ [o], queues s) -> relays o = false -> quiet s s'.
Proof. intros H Ho. exists [o]. split; [done|]. by constructor. Qed.

#[export] Hint Resolve quiet_refl : core.

(** The allocation tables and the clock are untouched, and the rest is in
    order. *)
Record calm (s s' : Srv) : Prop := {
  calm_tabs : tabs s' = tabs s;
  calm_clock : clock s' = clock s;
  calm_live : live_le (cns s) (cns s');
  calm_conns : conns_ok (cns s');
  calm_nonce : sizedStr (nonce_ s');
  calm_outs : quiet s s';
}.

Lemma calm_refl E s : srv_ok E s -> calm s s.
Proof. intros [_ ? ? _]. by constructor. Qed.

Lemma calm_trans s1 s2 s3 : calm s1 s2 -> calm s2 s3 -> calm s1 s3.
Proof.
  intros [H1 H2 H3 H4 H5 H6] [K1 K2 K3 K4 K5 K6].
  constructor; [congruence|congruence|by eapply live_le_trans|done|done|by eapply quiet_trans].
Qed.

Lemma calm_srv E s s' : srv_ok E s -> calm s s' -> srv_ok E s'.
Proof. intros [H1 H2 H3 H4] [K1 K2 K3 K4 K5 K6]. constructor; [by rewrite K1|done|done|by rewrite K1]. Qed.

(** ** Texts *)

Lemma sizedStr_bytes b : Z.of_nat (length b) < 2 ^ 16 -> sizedStr (string_of_bytes b).
Proof.
  intros H. unfold sizedStr, sized, bytes_of_string, string_of_bytes.
  rewrite String.list_ascii_of_string_of_list_ascii, !length_fmap. width.
Qed.

Lemma getStr_sized m ty : Forall attr_ok (attributes m) -> sizedStr (getStr m ty).
Proof.
  intros Ha. unfold getStr. apply sizedStr_bytes. unfold getString, find.
  destruct (find_attr ty (attributes m)) as [a|] eqn:Ef; [|cbn; lia].
  destruct (find_attr_ok _ _ _ Ha Ef) as (_ & H & _). lia.
Qed.

Lemma nonce_sized f : sizedStr (randomStr64 f 32).
Proof.
  unfold sizedStr, sized, bytes_of_string, randomStr64.
  rewrite length_fmap, String.list_ascii_of_string_of_list_ascii, length_fmap, length_seq. done.
Qed.

Lemma errorReason_short code : (length (bytes_of_string (errorReason code)) <= 40)%nat.
Proof.
  unfold errorReason. repeat match goal with |- context [if ?b then _ else _] => destruct b end;
    cbn; lia.
Qed.

(** ** Messages the server encodes *)

Lemma body_xor m ty a tid : body_ok m -> body_ok (withXor m ty a tid).
Proof. apply body_writeXor. Qed.

Lemma body_error req code : tid_ok (transactionID req) -> body_ok (errorBody req code).
Proof.
  intros [Ht _]. unfold errorBody, addErrorCode. cbn [length Nat.eqb]. apply body_add.
  - split; [done|constructor].
  - pose proof (errorReason_short code) as H. apply sized_small. rewrite length_app. cbn [length]. lia.
Qed.

Lemma software_sized : match software with Some s => sized s | None => True end.
Proof. done. Qed.

Lemma encode_plain m : body_ok m -> is_Some (encode m None None software).
Proof. intros [H1 H2]. rewrite encode_frame; [done|done|]. split; [done|]. split; done. Qed.

Lemma encode_creds m pw c :
  body_ok m -> sized (cr_username c) -> sized (cr_realm c) -> sized (cr_nonce c) ->
  is_Some (encode m pw (Some c) software).
Proof. intros [H1 H2] Hu Hr Hn. rewrite encode_frame; [done|done|]. split; [done|]. split; done. Qed.

Section Safe.
Context (E : Env) (HE : env_ok E).

(** ** Sending *)

Lemma conns_ok_update c i x y :
  conns_ok c -> conns c !! i = Some x -> tc_sock y = tc_sock x -> writer_ok (writer y) ->
  conn_ok (stunConn y) -> conns_ok (set_conns (<[i := y]> (conns c)) c).
Proof.
  intros H Ei Hs Hw Hst.
  constructor; cbn [conns nextConn tcpConns_ tcpBySock_ dataPipe_ dataPipePeer_ pendingFreeConns_ set_conns].
  - intros sk j Hj. destruct (co_sock c H sk j Hj) as (z & Ez & Hz).
    destruct (decide (i = j)) as [->|Hne].
    + exists y. rewrite lookup_insert_eq. split; [done|]. congruence.
    + exists z. by rewrite lookup_insert_ne.
  - intros sk j Hj. destruct (decide (i = j)) as [->|Hne]; [by rewrite lookup_insert_eq|].
    rewrite lookup_insert_ne by done. by apply (co_peer c H sk).
  - apply (co_free c H).
  - intros j z [[<- <-]|[_ Ej]]%lookup_insert_Some; by eapply (co_fresh c H).
  - intros j z [[<- <-]|[_ Ej]]%lookup_insert_Some; [done|by eapply (co_state c H)].
Qed.

Lemma conns_ok_put c i x y :
  conns_ok c -> conns c !! i = Some x -> same_conn x y -> writer_ok (writer y) ->
  conns_ok (set_conns (<[i := y]> (conns c)) c) /\ live_le c (set_conns (<[i := y]> (conns c)) c).
Proof.
  intros H Ei Hsame Hw. pose proof Hsame as (Hs & _ & Hst & _). split.
  - eapply conns_ok_update; [done..|]. rewrite Hst. by eapply (co_state c H).
  - constructor; [|done|done]. intros j z Hj. cbn [conns set_conns].
    destruct (decide (i = j)) as [->|Hne].
    + rewrite lookup_insert_eq. simplify_eq. by exists y.
    + rewrite lookup_insert_ne by done. by exists z.
Qed.

Lemma calm_conn_put s i x y :
  srv_ok E s -> conns (cns s) !! i = Some x -> same_conn x y -> writer_ok (writer y) ->
  calm s (set_cns (fun t => set_conns (<[i := y]> (conns t)) t) s).
Proof.
  intros [H1 H2 H3 H4] Ei Hs Hw. destruct (conns_ok_put (cns s) i x y H2 Ei Hs Hw).
  constructor; try done. by apply quiet_eq.
Qed.

(** What happens to the rest of the state in [applyWrite]. *)
Lemma wp_applyWrite s c x r :
  srv_ok E s -> conns (cns s) !! c = Some x -> writer_ok (wr_state r) ->
  wp (applyWrite c x r) (fun _ s' => calm s s') s.
Proof.
  intros Hs Ec Hw.
  pose proof (calm_conn_put s c x (conn_writer x (wr_state r)) Hs Ec ltac:(done) Hw) as [C1 C2 C3 C4 C5 C6].
  unfold applyWrite. wp_step. wp_step. wp_step. wp_step. wp_step.
  eapply (wp_mono _ (fun _ s' => calm s s')).
  { destruct (_ =? _)%nat; wp_step; (constructor; try done).
    by eapply quiet_one. }
  intros [] s1 [K1 K2 K3 K4 K5 K6]. destruct (wr_armed r); wp_step; (constructor; try done).
  eapply quiet_trans; [done|]. by apply quiet_emit.
Qed.

Lemma wp_sendTcpRaw s c d :
  srv_ok E s -> is_Some (conns (cns s) !! c) -> wp (sendTcpRaw E c d) (fun _ s' => calm s s') s.
Proof.
  intros Hs [x Ec]. unfold sendTcpRaw. wp_step. eapply wp_conn_get; [done|]. wp_step. wp_step.
  destruct (co_state _ (so_conns _ _ Hs) c x Ec) as [Hw _].
  destruct (sendTcpRawLocked_spec (fun j n => tcpSend E j (tc_sock x) n)
              (fun k n => eo_send E HE (tc_sock x) k n) (sends s) (writer x) d Hw)
    as (r & Er & Hok & _).
  wp_step. eapply wp_lift; [done|]. by apply wp_applyWrite.
Qed.

Lemma wp_flushTcp s c :
  srv_ok E s -> is_Some (conns (cns s) !! c) -> wp (flushTcp E c) (fun _ s' => calm s s') s.
Proof.
  intros Hs [x Ec]. unfold flushTcp. wp_step. eapply wp_conn_get; [done|]. wp_step. wp_step.
  destruct (co_state _ (so_conns _ _ Hs) c x Ec) as [Hw _].
  destruct (flushTcpLocked_spec (fun j n => tcpSend E j (tc_sock x) n)
              (fun k n => eo_send E HE (tc_sock x) k n) (sends s) (writer x) Hw)
    as (r & Er & Hok & _).
  wp_step. eapply wp_lift; [done|]. wp_step. eapply wp_mono; [by apply wp_applyWrite|].
  intros [] s' H. by wp_step.
Qed.

Lemma wp_sendTcp s c m :
  srv_ok E s -> is_Some (conns (cns s) !! c) -> wp (sendTcp E c m) (fun _ s' => calm s s') s.
Proof.
  intros Hs Hc. unfold sendTcp. destruct (negb _); [by apply wp_sendTcpRaw|].
  wp_step. by eapply calm_refl.
Qed.

Lemma calm_emit s o : srv_ok E s -> relays o = false -> calm s (add_outs [o] s).
Proof. intros [H1 H2 H3 H4] Ho. constructor; try done. by apply quiet_emit. Qed.

Lemma wp_sendUdp s dst m : srv_ok E s -> wp (sendUdp dst m) (fun _ s' => calm s s') s.
Proof.
  intros Hs. unfold sendUdp. destruct (negb _); wp_step; [by apply calm_emit|by eapply calm_refl].
Qed.

(** The connection a reply goes to is there. *)
Definition conn_live (s : Srv) (tc : option nat) : Prop :=
  match tc with Some c => is_Some (conns (cns s) !! c) | None => True end.

Lemma conn_live_calm s s' tc : calm s s' -> conn_live s tc -> conn_live s' tc.
Proof. intros H. destruct tc; [|done]. apply (ll_live _ _ _ (calm_live _ _ H)). Qed.

Lemma wp_reply s tc dst m :
  srv_ok E s -> conn_live s tc -> wp (reply E tc dst m) (fun _ s' => calm s s') s.
Proof. intros Hs Hc. destruct tc; [by apply wp_sendTcp|by apply wp_sendUdp]. Qed.

Lemma wp_encode s m :
  body_ok m -> forall (Q : Message -> Srv -> Prop), (forall r, Q r s) ->
  wp (lift (encode m None None software)) Q s.
Proof. intros Hm Q HQ. destruct (encode_plain m Hm) as [r Hr]. by eapply wp_lift. Qed.

Lemma wp_sendErrorResponse s tc dst req code :
  srv_ok E s -> conn_live s tc -> tid_ok (transactionID req) ->
  wp (sendErrorResponse E tc dst req code) (fun _ s' => calm s s') s.
Proof.
  intros Hs Hc Ht. unfold sendErrorResponse. wp_step.
  apply wp_encode; [by apply body_error|]. intros r. by apply wp_reply.
Qed.

Lemma wp_sendAuthErrorResponse s tc dst req code :
  srv_ok E s -> conn_live s tc -> tid_ok (transactionID req) ->
  wp (sendAuthErrorResponse E tc dst req code) (fun _ s' => calm s s') s.
Proof.
  intros Hs Hc Ht. unfold sendAuthErrorResponse. wp_step. wp_step. cbv zeta. wp_step.
  apply wp_encode; [|intros r; by apply wp_reply].
  apply body_add; [|apply (so_nonce _ _ Hs)]. apply body_add; [|apply HE]. by apply body_error.
Qed.

Lemma wp_sendSuccessResponse s req user resp (Q : Message -> Srv -> Prop) :
  srv_ok E s -> tid_ok (transactionID req) -> sizedStr user ->
  Forall (fun a => sized (value a)) (attributes resp) -> (forall r, Q r s) ->
  wp (sendSuccessResponse E req user resp) Q s.
Proof.
  intros Hs [Ht _] Hu Ha HQ. unfold sendSuccessResponse. cbv zeta.
  destruct (users_ E !! user) as [pw|]; [|by apply wp_encode].
  wp_step. wp_step.
  destruct (encode_creds
    (mkMessage (method req) SuccessResponse (transactionID req) (attributes resp) (raw resp)) (Some [])
    (mkCreds (bytes_of_string user) (bytes_of_string (realm_ E)) (bytes_of_string (nonce_ s))
       (longTermKey user (realm_ E) pw))) as [r Hr];
    [done|exact Hu|exact (eo_realm E HE)|exact (so_nonce _ _ Hs)|].
  by eapply wp_lift.
Qed.

(** ** Authentication *)

(** The request carries valid long-term credentials for user [user]. *)
Definition authentic (s : Srv) (msg : Message) (user : string) : Prop :=
  is_Some (find msg AttrType.MessageIntegrity) /\ clock s < nonceExpiryMs_ s /\
  getStr msg AttrType.Nonce = nonce_ s /\ user = getStr msg AttrType.Username /\
  exists pw, users_ E !! user = Some pw /\
    checkIntegrity msg (longTermKey user (getStr msg AttrType.Realm) pw) false = Some true.

Lemma wp_refreshNonce s : srv_ok E s -> wp (refreshNonce E) (fun _ s' => calm s s' /\ cns s' = cns s) s.
Proof.
  intros [H1 H2 H3 H4]. unfold refreshNonce. wp_step. wp_step. wp_step. wp_step. wp_step. wp_step. wp_step.
  split; [|done]. constructor; [done..|apply nonce_sized|by apply quiet_eq].
Qed.

(** The outcome of [authenticate]: success exactly on valid credentials, with the state
    unchanged; otherwise 401 or 438, and at most the nonce has changed. *)
Lemma wp_authenticate s msg :
  srv_ok E s -> req_ok msg ->
  wp (authenticate E msg) (fun r s' =>
    calm s s' /\ cns s' = cns s /\
    ((r.1 = 0 /\ s' = s /\ authentic s msg r.2) \/
     ((r.1 = 401 \/ r.1 = 438) /\ ~ exists u, authentic s msg u))) s.
Proof.
  intros Hs (Ht & Ha & Hci). pose proof (calm_refl E s Hs) as Hrefl. unfold authenticate.
  destruct (find msg AttrType.MessageIntegrity) as [mi|] eqn:Emi.
  2:{ wp_step. split; [done|]. split; [done|]. right. split; [by left|].
      intros (u & [? ?] & _). congruence. }
  wp_step. wp_step. wp_step. wp_step. destruct (Z.leb_spec (nonceExpiryMs_ s) (clock s)) as [Hx|Hx].
  { wp_step. eapply wp_mono; [by apply wp_refreshNonce|]. intros [] s' [Hc Hcn]. wp_step.
    split; [done|]. split; [done|]. right. split; [by right|]. intros (u & _ & Hlt & _). lia. }
  wp_step. wp_step. case_bool_decide as Hn; cbn [negb].
  2:{ wp_step. split; [done|]. split; [done|]. right. split; [by right|].
      intros (u & _ & _ & Hn' & _). done. }
  destruct (users_ E !! getStr msg AttrType.Username) as [pw|] eqn:Eu.
  2:{ wp_step. split; [done|]. split; [done|]. right. split; [by left|].
      intros (u & _ & _ & _ & -> & pw & Hpw & _). congruence. }
  destruct (Hci (longTermKey (getStr msg AttrType.Username) (getStr msg AttrType.Realm) pw) false)
    as [ok Hok].
  wp_step. eapply wp_lift; [done|]. destruct ok; cbn [negb]; wp_step;
    (split; [done|]; split; [done|]).
  - left. split; [done|]. split; [done|]. split; [by eexists|]. split; [done|]. split; [done|].
    split; [done|]. by exists pw.
  - right. split; [by left|]. intros (u & _ & _ & _ & -> & pw' & Hpw & Hci'). congruence.
Qed.

(** A handler behind the authentication: run from the same state on success, not at all
    otherwise. *)
Lemma wp_withAuth s msg src tc h (Q : unit -> Srv -> Prop) :
  srv_ok E s -> conn_live s tc -> req_ok msg ->
  (forall u, authentic s msg u -> wp h Q s) ->
  (forall s', (~ exists u, authentic s msg u) -> calm s s' -> Q tt s') ->
  wp (withAuth E msg src tc h) Q s.
Proof.
  intros Hs Hc Hm Hh Hq. unfold withAuth. wp_step.
  eapply wp_mono; [by apply wp_authenticate|].
  intros [code u] s1 (Hcalm & Hcn & [(H0 & -> & Hau)|(H0 & Hnau)]); cbn [fst snd] in *.
  - subst code. by apply (Hh u).
  - replace (negb (code =? 0)) with true by (symmetry; apply negb_true_iff, Z.eqb_neq; lia).
    eapply wp_mono; [apply wp_sendAuthErrorResponse|].
    + by eapply calm_srv.
    + by eapply conn_live_calm.
    + apply Hm.
    + intros [] s2 H2. apply Hq; [done|]. by eapply calm_trans.
Qed.

(** ** Relay ports *)

Definition portRange (t : Tables) (p : Z) : Prop :=
  Z.min (relayPortBegin_ t) (relayPortEnd_ t) <= p <= Z.max (relayPortBegin_ t) (relayPortEnd_ t).

(** The configured range, whichever end comes first. *)
Definition rangeOf (t : Tables) : Z * Z :=
  (Z.min (relayPortBegin_ t) (relayPortEnd_ t), Z.max (relayPortBegin_ t) (relayPortEnd_ t)).

Lemma rangeOf_range t p : portRange t p <-> (rangeOf t).1 <= p <= (rangeOf t).2.
Proof. done. Qed.

Definition portTaken (t : Tables) (avoid : gset Z) (p : Z) : Prop :=
  is_Some (usedRelayPorts_ t !! p) \/ p ∈ avoid.

Lemma portFree_spec avoid t p :
  if portFree avoid t p then usedRelayPorts_ t !! p = None /\ p ∉ avoid else portTaken t avoid p.
Proof.
  unfold portFree, portTaken. do 2 case_bool_decide; cbn [andb]; [done|right; set_solver| |].
  - left. by apply not_eq_None_Some.
  - left. by apply not_eq_None_Some.
Qed.

(** A successful pick reserves a free port; a failed one leaves the tables alone. *)
Definition picked (s : Srv) (avoid : gset Z) (p : Z) (s' : Srv) : Prop :=
  usedRelayPorts_ (tabs s) !! p = None /\ p ∉ avoid /\
  tabs s' = set_ports (<[p := None]> (usedRelayPorts_ (tabs s))) (tabs s) /\
  cns s' = cns s /\ clock s' = clock s /\ nonce_ s' = nonce_ s /\ io s' = io s.

Definition unmoved (s s' : Srv) : Prop :=
  tabs s' = tabs s /\ cns s' = cns s /\ clock s' = clock s /\ nonce_ s' = nonce_ s /\ io s' = io s.

Lemma wp_randomPort s s0 tries b n avoid :
  0 < b -> 0 < n -> b + n <= 65536 -> unmoved s s0 ->
  wp (randomPort E tries b n avoid) (fun o s' =>
    match o with
    | Some p => b <= p < b + n /\ picked s avoid p s'
    | None => unmoved s s'
    end) s0.
Proof.
  intros Hb Hn Hbn. revert s0. induction tries as [|tries IH]; intros s0 H; cbn [randomPort].
  { by wp_step. }
  wp_step. unfold drawU32. wp_step. wp_step. wp_step. wp_step. wp_step. wp_step. wp_step.
  cbn [tabs set_draws]. set (r := randomU32 _).
  assert (Hp : u16 (b + u16 (r mod n)) = b + r mod n) by width. rewrite Hp.
  pose proof (portFree_spec avoid (tabs s0) (b + r mod n)) as Hf.
  destruct H as (T & C & K & N & O). destruct (portFree avoid (tabs s0) (b + r mod n)).
  - wp_step. unfold reservePort. wp_step. wp_step. split; [lia|]. rewrite T in *. destruct Hf.
    split; [done|]. split; [done|]. cbn. rewrite T. done.
  - apply IH. done.
Qed.

Lemma wp_scanPorts s n p avoid :
  0 < p -> p + Z.of_nat n <= 65536 ->
  wp (scanPorts n p avoid) (fun q s' =>
    (q <> 0 /\ p <= q < p + Z.of_nat n /\ picked s avoid q s') \/
    (q = 0 /\ s' = s /\ forall x, p <= x < p + Z.of_nat n -> portTaken (tabs s) avoid x)) s.
Proof.
  revert p. induction n as [|n IH]; intros p Hp Hn; cbn [scanPorts].
  { wp_step. right. split; [done|]. split; [done|]. lia. }
  wp_step. wp_step. assert (Hu : u16 p = p) by width. rewrite Hu.
  pose proof (portFree_spec avoid (tabs s) p) as Hf. destruct (portFree avoid (tabs s) p).
  - wp_step. unfold reservePort. wp_step. wp_step. left. split; [lia|]. split; [lia|]. by destruct Hf.
  - eapply wp_mono; [apply IH; lia|]. intros q s' [(H1 & H2 & H3)|(H1 & H2 & H3)].
    + left. split; [done|]. split; [lia|done].
    + right. split; [done|]. split; [done|]. intros x Hx.
      destruct (decide (x = p)) as [->|]; [done|]. apply H3. lia.
Qed.

(** The tables with the range in order. *)
Definition orderRange (t : Tables) : Tables :=
  if relayPortEnd_ t <? relayPortBegin_ t
  then set_portRange (relayPortEnd_ t) (relayPortBegin_ t) t else t.

Lemma wp_allocRelayPort s avoid :
  range_ok (tabs s) ->
  wp (allocRelayPort E avoid) (fun p s' =>
    cns s' = cns s /\ clock s' = clock s /\ nonce_ s' = nonce_ s /\ io s' = io s /\
    ((p <> 0 /\ portRange (tabs s) p /\ usedRelayPorts_ (tabs s) !! p = None /\ p ∉ avoid /\
      tabs s' = set_ports (<[p := None]> (usedRelayPorts_ (tabs s))) (orderRange (tabs s))) \/
     (p = 0 /\ (forall x, portRange (tabs s) x -> portTaken (tabs s) avoid x) /\
      tabs s' = orderRange (tabs s)))) s.
Proof.
  intros [Hb He]. unfold allocRelayPort. wp_step. wp_step.
  eapply wp_bind. eapply (wp_mono _ (fun _ s1 =>
    s1 = set_tabs orderRange s)).
  { unfold orderRange. destruct (Z.ltb_spec (relayPortEnd_ (tabs s)) (relayPortBegin_ (tabs s))) as [Hl|Hl].
    - wp_step. unfold set_tabs. apply Z.ltb_lt in Hl. by rewrite Hl.
    - wp_step. unfold set_tabs. apply Z.ltb_ge in Hl. rewrite Hl. by destruct s. }
  intros [] s1 ->. wp_step. wp_step. set (t := orderRange (tabs s)). cbn [tabs set_tabs]. fold t.
  set (s1 := set_tabs orderRange s).
  assert (Ht : relayPortBegin_ t = Z.min (relayPortBegin_ (tabs s)) (relayPortEnd_ (tabs s)) /\
               relayPortEnd_ t = Z.max (relayPortBegin_ (tabs s)) (relayPortEnd_ (tabs s)) /\
               usedRelayPorts_ t = usedRelayPorts_ (tabs s)).
  { unfold t, orderRange. destruct (Z.ltb_spec (relayPortEnd_ (tabs s)) (relayPortBegin_ (tabs s)));
      cbn; split; [lia|split; [lia|done]|lia|split; [lia|done]]. }
  destruct Ht as (Hb' & He' & Hu'). unfold portRange, portTaken. rewrite <- Hb', <- He'.
  set (n := relayPortEnd_ t - relayPortBegin_ t + 1).
  assert (Hn : u32 n = n) by (subst n; width). rewrite Hn.
  wp_step. eapply wp_mono; [apply (wp_randomPort s1); [subst n; lia..|done]|].
  intros [p|] s2 H2.
  - destruct H2 as (Hp & H1 & Hav & Hts & C & K & N & O). wp_step.
    split; [done|]. split; [done|]. split; [done|]. split; [done|]. left.
    change (tabs s1) with t in *. rewrite Hu' in *. split; [lia|]. split; [subst n; lia|]. done.
  - destruct H2 as (T & C & K & N & O). change (tabs s1) with t in *.
    change (cns s1) with (cns s) in C. change (clock s1) with (clock s) in K.
    change (nonce_ s1) with (nonce_ s) in N. change (io s1) with (io s) in O.
    eapply wp_mono; [apply (wp_scanPorts s2); subst n; lia|]. rewrite T in *.
    intros q s3 [(Hq & Hr & H1 & Hav & Hts & C3 & K3 & N3 & O3)|(-> & -> & Hall)].
    + rewrite T, Hu' in *. split; [congruence|]. split; [congruence|]. split; [congruence|].
      split; [congruence|]. left. split; [done|]. split; [subst n; lia|done].
    + split; [done|]. split; [done|]. split; [done|]. split; [done|]. right. split; [done|].
      split; [|done]. intros x Hx. unfold portTaken in Hall. rewrite Hu' in Hall.
      apply Hall. subst n; lia.
Qed.

End Safe.
