(* ===== verification/TurnRequests.v ===== *)
(** * Safety and effect of the request handlers

    Each handler of [TurnHandlers] run from a good state: it returns, and the state it leaves
    is good.  The allocation handler needs that the key it is about to register is free; the
    theorems at the end say when that is guaranteed and what happens when it is not. *)

From S2P Require Import Prelude.
From S2P Require Import StateMonad.
From S2P Require Import Bytes.
From S2P Require Import Crypto.
From S2P Require Import Addr.
From S2P Require Import StunMessage.
From S2P Require Import StunAttributes.
From S2P Require Import ChannelData.
From S2P Require Import StunConn.
From S2P Require Import TcpWriter.
From S2P Require Import TurnState.
From S2P Require Import TurnCore.
From S2P Require Import TurnHandlers.
From S2P Require Import TurnServer.
From S2P Require Import TurnInv.
From S2P Require Import TurnSafe.
Open Scope Z_scope.

Section Requests.
Context (E : Env) (HE : env_ok E).

(** ** Destroying *)

Definition tabs_only (s s' : Srv) : Prop :=
  cns s' = cns s /\ clock s' = clock s /\ nonce_ s' = nonce_ s /\ nonceExpiryMs_ s' = nonceExpiryMs_ s /\
  quiet s s'.

Lemma srv_ok_eq s s' :
  srv_ok E s -> cns s' = cns s -> nonce_ s' = nonce_ s -> tabs_ok E (tabs s') ->
  range_ok (tabs s') -> srv_ok E s'.
Proof.
  intros [H1 H2 H3 H4] K1 K2 Ht Hr. constructor; [done|by rewrite K1|by rewrite K2|done].
Qed.

Lemma srv_ok_tabs s s' :
  srv_ok E s -> tabs_only s s' -> tabs_ok E (tabs s') -> range_ok (tabs s') -> srv_ok E s'.
Proof. intros Hs (K1 & K2 & K3 & _). by apply (srv_ok_eq s). Qed.

Lemma wp_destroyAllocation s a x :
  srv_ok E s -> heap (tabs s) !! a = Some x ->
  wp (destroyAllocation E a)
    (fun _ s' => tabs s' = destroyTabs E a x (tabs s) /\ tabs_only s s') s.
Proof.
  intros Hs Ea. pose proof (ok_live _ _ (so_tabs _ _ Hs) a x Ea) as Hkey.
  pose proof (ok_owned _ _ (so_tabs _ _ Hs) a x Ea) as Hport.
  unfold destroyAllocation. wp_step. eapply wp_alloc_get; [done|]. wp_step.
  eapply (wp_mono _ (fun _ s1 => tabs s1 = tabs s /\ tabs_only s s1)).
  { destruct (_ && _); wp_step; (split; [done|]); [|done].
    repeat (split; [done|]). by eapply quiet_one. }
  intros [] s1 [T1 F1]. wp_step. wp_step. wp_step. wp_step. wp_step.
  eapply (wp_mono _ (fun _ s2 => tabs s2 =
     set_controlMap (if controlSock x =? STICE_INVALID_SOCKET then allocByControlSock_ (tabs s)
                     else delete (controlSock x) (allocByControlSock_ (tabs s)))
       (set_clientMap (aerase (clientAddr x) (allocByClientAddr_ (tabs s)))
         (set_relayMaps (delete (relaySock x) (allocByRelaySock_ (tabs s)))
           (aerase (relayedAddr x) (allocByRelayAddr_ (tabs s))) (tabs s))) /\ tabs_only s s2)).
  { destruct (controlSock x =? STICE_INVALID_SOCKET); cbn [negb]; wp_step; cbn; rewrite T1; done. }
  intros [] s2 [T2 F2]. wp_step. wp_step. wp_step. unfold releaseRelayPort. wp_step.
  unfold eraseAllocation. wp_step. unfold findAlloc. wp_step.
  assert (Hr : forall t, usedRelayPorts_ t = usedRelayPorts_ (tabs s) ->
    releasePort (relayPort x) (Some a) t = set_ports (delete (relayPort x) (usedRelayPorts_ t)) t).
  { intros t Ht. unfold releasePort. rewrite Ht, Hport. by rewrite bool_decide_eq_true_2. }
  cbn [tabs set_tabs]. rewrite Hr, T2 by (cbn; by rewrite T2). cbn.
  change (allocKey E (transport x) (clientAddr x)) with (keyOf E x). rewrite Hkey.
  wp_step. eapply wp_alloc_get.
  { cbn [tabs set_tabs]. rewrite Hr, T2 by (cbn; by rewrite T2). cbn. exact Ea. }
  wp_step. wp_step.
  eapply (wp_mono _ (fun _ s3 => tabs s3 = destroyTabs E a x (tabs s) /\ tabs_only s s3)).
  { destruct (relaySock x =? STICE_INVALID_SOCKET); cbn [negb]; wp_step;
      (split; [cbn; rewrite Hr, T2 by (cbn; by rewrite T2); done|];
       destruct F2 as (F21 & F22 & F23 & F24 & F25); repeat (split; [done|])); [done|].
    eapply quiet_trans; [exact F25|]. by eapply quiet_one. }
  done.
Qed.

Lemma wp_destroy_ok s a x :
  srv_ok E s -> heap (tabs s) !! a = Some x ->
  wp (destroyAllocation E a)
    (fun _ s' => srv_ok E s' /\ tabs s' = destroyTabs E a x (tabs s) /\ tabs_only s s') s.
Proof.
  intros Hs Ea. eapply wp_mono; [by apply wp_destroyAllocation|]. intros [] s' [T F].
  split; [|done]. eapply srv_ok_tabs; [done|done| |].
  - rewrite T. apply tabs_ok_destroy; [apply Hs|done].
  - rewrite T. apply (so_range _ _ Hs).
Qed.

(** ** Reserving ports *)

Lemma tabs_ok_reserve t p :
  tabs_ok E t -> usedRelayPorts_ t !! p = None ->
  tabs_ok E (set_ports (<[p := None]> (usedRelayPorts_ t)) t).
Proof.
  intros H Hp. destruct H as [H1 H2 H3 H4 H5 H6 H7 H8 H9 H10 H11 H12 H13].
  constructor; cbn; try assumption.
  - intros q i [[_ ?]|[_ Hq]]%lookup_insert_Some; [done|by apply H10].
  - intros i x Hi. pose proof (H11 i x Hi) as Ho. rewrite lookup_insert_ne; [done|congruence].
Qed.

Lemma tabs_ok_release t p : tabs_ok E t -> tabs_ok E (releasePort p None t).
Proof.
  intros H. unfold releasePort. destruct (usedRelayPorts_ t !! p) as [[o|]|] eqn:Ep; [| |done].
  { by rewrite bool_decide_eq_false_2 by done. }
  destruct H as [H1 H2 H3 H4 H5 H6 H7 H8 H9 H10 H11 H12 H13].
  constructor; cbn; try assumption.
  - intros q i [_ Hq]%lookup_delete_Some. by apply H10.
  - intros i x Hi. pose proof (H11 i x Hi) as Ho. rewrite lookup_delete_ne; [done|congruence].
Qed.

Lemma tabs_ok_range t b e : tabs_ok E t -> tabs_ok E (set_portRange b e t).
Proof. by intros [H1 H2 H3 H4 H5 H6 H7 H8 H9 H10 H11 H12 H13]. Qed.

Lemma tabs_ok_order t : tabs_ok E t -> tabs_ok E (orderRange t).
Proof. intros H. unfold orderRange. destruct (_ <? _); [by apply tabs_ok_range|done]. Qed.

Lemma orderRange_range t : range_ok t -> range_ok (orderRange t).
Proof. unfold range_ok, orderRange. intros [? ?]. destruct (_ <? _); cbn; lia. Qed.

(** What allocating and releasing ports leaves alone: the heap and every map but the port
    table. *)
Record same_maps (t t' : Tables) : Prop := {
  sm_heap : heap t' = heap t; sm_next : nextAlloc t' = nextAlloc t;
  sm_allocs : allocations_ t' = allocations_ t;
  sm_control : allocByControlSock_ t' = allocByControlSock_ t;
  sm_range : rangeOf t' = rangeOf t }.

(** A state in which port [p] is reserved and has no owner yet. *)
Definition reserved (s0 s : Srv) (p : Z) : Prop :=
  srv_ok E s /\ cns s = cns s0 /\ clock s = clock s0 /\ nonce_ s = nonce_ s0 /\ io s = io s0 /\
  same_maps (tabs s0) (tabs s) /\ usedRelayPorts_ (tabs s) !! p = Some None /\ portRange (tabs s0) p.

Definition unreserved (s0 s : Srv) : Prop :=
  srv_ok E s /\ cns s = cns s0 /\ clock s = clock s0 /\ nonce_ s = nonce_ s0 /\ io s = io s0 /\
  same_maps (tabs s0) (tabs s).

Lemma same_maps_refl t : same_maps t t.
Proof. by constructor. Qed.

Lemma unreserved_refl s : srv_ok E s -> unreserved s s.
Proof. intros H. split; [done|]. repeat (split; [done|]). apply same_maps_refl. Qed.

Lemma same_maps_order t : same_maps t (orderRange t).
Proof.
  unfold orderRange. destruct (Z.ltb_spec (relayPortEnd_ t) (relayPortBegin_ t)); [|done].
  constructor; [done..|]. unfold rangeOf. cbn. f_equal; lia.
Qed.

Lemma same_maps_trans t1 t2 t3 : same_maps t1 t2 -> same_maps t2 t3 -> same_maps t1 t3.
Proof.
  intros [? ? ? ? ?] [? ? ? ? ?]. constructor; congruence.
Qed.

Lemma same_maps_release p t : same_maps t (releasePort p None t).
Proof.
  unfold releasePort. by destruct (usedRelayPorts_ t !! p) as [[o|]|].
Qed.

Lemma wp_allocRelayPort_ok s0 s avoid :
  unreserved s0 s ->
  wp (allocRelayPort E avoid) (fun p s' =>
    (p <> 0 /\ reserved s0 s' p) \/ (p = 0 /\ unreserved s0 s')) s.
Proof.
  intros (Hs & C & K & N & O & Hm).
  eapply wp_mono; [apply wp_allocRelayPort, Hs|].
  intros p s' (C' & K' & N' & O' & H).
  assert (Hgood : tabs_ok E (tabs s') -> range_ok (tabs s') -> srv_ok E s').
  { intros Ht Hr. destruct Hs as [_ H2 H3 _]. constructor; [done|by rewrite C'|by rewrite N'|done]. }
  destruct H as [(Hp & Hr & Hf & Hav & T)|(-> & Hall & T)].
  - left. split; [done|]. split; [|split; [congruence|split; [congruence|split; [congruence|split; [congruence|split]]]]].
    + assert (Hu : usedRelayPorts_ (orderRange (tabs s)) = usedRelayPorts_ (tabs s))
        by (unfold orderRange; by destruct (_ <? _)).
      apply Hgood; rewrite T.
      * rewrite <- Hu. apply tabs_ok_reserve; [apply tabs_ok_order, Hs|by rewrite Hu].
      * apply (orderRange_range (tabs s)), Hs.
    + eapply same_maps_trans; [done|]. rewrite T. pose proof (same_maps_order (tabs s)) as [? ? ? ? ?].
      by constructor.
    + rewrite T. cbn. split; [apply lookup_insert_eq|]. by rewrite rangeOf_range, <- (sm_range _ _ Hm).
  - right. split; [done|]. split; [|split; [congruence|split; [congruence|split; [congruence|split; [congruence|]]]]].
    + apply Hgood; rewrite T; [apply tabs_ok_order, Hs|apply orderRange_range, Hs].
    + eapply same_maps_trans; [done|]. rewrite T. apply same_maps_order.
Qed.

Lemma wp_release_ok s0 s p :
  unreserved s0 s -> wp (releaseRelayPort p None) (fun _ s' => unreserved s0 s') s.
Proof.
  intros (Hs & C & K & N & O & Hm). unfold releaseRelayPort. wp_step.
  split; [|split; [done|split; [done|split; [done|split; [done|]]]]].
  - eapply srv_ok_eq; [done|done|done| |].
    + apply tabs_ok_release, Hs.
    + destruct Hs as [_ _ _ Hr]. unfold range_ok in *. cbn.
      unfold releasePort. by destruct (usedRelayPorts_ (tabs s) !! p) as [[o|]|].
  - eapply same_maps_trans; [done|]. apply same_maps_release.
Qed.

Lemma reserved_un s0 s p : reserved s0 s p -> unreserved s0 s.
Proof. intros (H1 & H2 & H3 & H4 & H5 & H6 & _). done. Qed.

Lemma wp_createUdp s0 s p port :
  reserved s0 s p ->
  wp (createUdp E port) (fun rs s' => reserved s0 s' p /\ exists k, rs = udpBind E k port) s.
Proof.
  intros (Hs & C & K & N & O & Hm & Hp). unfold createUdp. wp_step. wp_step. wp_step. wp_step. wp_step.
  split; [|by eexists]. destruct Hs as [H1 H2 H3 H4]. split; [by constructor|done].
Qed.

Lemma wp_bindRetry s0 s tries failed port rs :
  reserved s0 s port -> (exists k, rs = udpBind E k port) ->
  wp (bindRetry E tries failed port rs) (fun r s' =>
    match r with
    | (p, Some (h, b)) => reserved s0 s' p /\ exists k, udpBind E k p = Some (h, b)
    | (p, None) => unreserved s0 s'
    end) s.
Proof.
  revert s failed port rs. induction tries as [|tries IH]; intros s failed port rs Hr Hb; cbn [bindRetry].
  - destruct Hb as [k Hk]. destruct rs as [[h b]|]; wp_step; [|by eapply reserved_un].
    split; [done|]. by exists k.
  - destruct rs as [[h b]|].
    { wp_step. destruct Hb as [k Hk]. split; [done|]. by exists k. }
    wp_step. eapply wp_mono; [apply (wp_release_ok s0), (reserved_un s0 s port Hr)|].
    intros [] s1 H1. wp_step. eapply wp_mono; [by apply (wp_allocRelayPort_ok s0)|].
    intros q s2 [[Hq H2]|[-> H2]].
    + destruct (Z.eqb_spec q 0); [done|]. wp_step.
      eapply wp_mono; [by apply (wp_createUdp s0)|]. intros rs' s3 [H3 H3']. by apply IH.
    + cbn. by wp_step.
Qed.

Lemma wp_allocateRelay s proto :
  srv_ok E s ->
  wp (allocateRelay E proto) (fun r s' =>
    match r with inl _ => unreserved s s' | inr (p, h) => reserved s s' p end) s.
Proof.
  intros Hs. pose proof (unreserved_refl s Hs) as H0.
  unfold allocateRelay. destruct (proto =? 6).
  - wp_step. eapply wp_mono; [by apply (wp_allocRelayPort_ok s)|].
    intros p s1 [[Hp H1]|[-> H1]]; [|cbn; by wp_step].
    destruct (Z.eqb_spec p 0); [done|]. by wp_step.
  - wp_step. eapply wp_mono; [by apply (wp_allocRelayPort_ok s)|].
    intros p s1 [[Hp H1]|[-> H1]]; [|cbn; by wp_step].
    destruct (Z.eqb_spec p 0); [done|]. wp_step.
    eapply wp_mono; [by apply (wp_createUdp s)|]. intros rs s2 [H2 H2']. wp_step.
    eapply wp_mono; [by apply (wp_bindRetry s)|]. intros [q [[h b]|]] s3 H3.
    + destruct H3 as [H3 [k Hk]]. destruct (eo_bind E HE k q h b Hk) as [_ Hb].
      assert (Hq : default q b = q) by (by destruct Hb as [->| ->]). rewrite Hq, Z.eqb_refl.
      cbn [negb]. wp_step. wp_step. by wp_step.
    + wp_step. eapply (wp_mono _ (fun _ s4 => unreserved s s4)).
      { destruct (negb _); [by apply wp_release_ok|by wp_step]. }
      intros [] s4 H4. by wp_step.
Qed.

(** ** Registering *)

Definition registerTabs (key : string) (src : AddrRecord) (viaTcp : bool) (x : Allocation)
    (t : Tables) : Tables :=
  let a := nextAlloc t in
  let dgram := transport x =? SOCK_DGRAM in
  mkTables (<[a := x]> (heap t)) (S a) (<[key := a]> (allocations_ t))
    (if dgram then <[relaySock x := a]> (allocByRelaySock_ t) else allocByRelaySock_ t)
    (if dgram then ainsert (relayedAddr x) a (allocByRelayAddr_ t) else allocByRelayAddr_ t)
    (if dgram then ainsert src a (allocByClientAddr_ t) else allocByClientAddr_ t)
    (if negb dgram || (viaTcp && negb (controlSock x =? STICE_INVALID_SOCKET))
     then <[controlSock x := a]> (allocByControlSock_ t) else allocByControlSock_ t)
    (pendingByConnId_ t) (<[relayPort x := Some a]> (usedRelayPorts_ t))
    (nextConnId_ t) (relayPortBegin_ t) (relayPortEnd_ t).

Lemma tabs_ok_register t viaTcp x :
  tabs_ok E t -> allocations_ t !! keyOf E x = None ->
  usedRelayPorts_ t !! relayPort x = Some None -> alloc_ok x ->
  is_Some (normalize (addr (clientAddr x))) -> is_Some (normalize (addr (relayedAddr x))) ->
  tabs_ok E (registerTabs (keyOf E x) (clientAddr x) viaTcp x t).
Proof.
  intros H Hk Hp Hx Hc Hr. set (a := nextAlloc t).
  assert (Hfresh : heap t !! a = None).
  { destruct (heap t !! a) as [z|] eqn:Ez; [|done]. pose proof (ok_fresh _ t H a z Ez). lia. }
  assert (Hlk : forall i z, heap t !! i = Some z -> <[a := x]> (heap t) !! i = Some z).
  { intros i z Ez. rewrite lookup_insert_ne; [done|]. intros ->. congruence. }
  assert (Hnew : <[a := x]> (heap t) !! a = Some x) by apply lookup_insert_eq.
  assert (Hinv : forall i z, <[a := x]> (heap t) !! i = Some z ->
            (i = a /\ z = x) \/ heap t !! i = Some z).
  { intros i z. rewrite lookup_insert_Some. naive_solver. }
  pose proof (ok_relay _ t H) as H3. pose proof (ok_control _ t H) as H8.
  constructor; cbn [heap allocations_ allocByRelaySock_ allocByRelayAddr_ allocByClientAddr_
                    allocByControlSock_ pendingByConnId_ usedRelayPorts_ nextAlloc registerTabs]; fold a.
  - intros key i [[<- <-]|[Hne Hi]]%lookup_insert_Some; [by exists x|].
    destruct (ok_own _ t H key i Hi) as (z & Ez & ->). eauto.
  - intros i z Hi. destruct (Hinv i z Hi) as [[-> ->]|Ez]; [apply lookup_insert_eq|].
    pose proof (ok_live _ t H i z Ez). rewrite lookup_insert_ne; [done|congruence].
  - intros sk i. destruct (_ =? _); [intros [[<- <-]|[_ Hi]]%lookup_insert_Some|intros Hi];
      try (destruct (H3 sk i Hi) as (z & Ez & ?)); eauto.
  - intros k i. destruct (_ =? _); [intros [Hi|[Hi1 Hi2]]%ainsert_elem|intros Hi];
      try (destruct (ok_raddr _ t H k i Hi) as (z & Ez & ?); eauto). cbn in *. subst i. exists x.
    split; [done|]. destruct Hi2 as [->|?]; [by apply addrRecordEq_refl|done].
  - destruct (_ =? _); [apply ainsert_keys|]; apply (ok_rkeys _ t H).
  - intros k i. destruct (_ =? _); [intros [Hi|[Hi1 Hi2]]%ainsert_elem|intros Hi];
      try (destruct (ok_client _ t H k i Hi) as (z & Ez & ?); eauto). cbn in *. subst i. exists x.
    split; [done|]. destruct Hi2 as [->|?]; [by apply addrRecordEq_refl|done].
  - destruct (_ =? _); [apply ainsert_keys|]; apply (ok_ckeys _ t H).
  - intros sk i Hsk. destruct (_ || _); [intros [[<- <-]|[_ Hi]]%lookup_insert_Some|intros Hi];
      try (destruct (H8 sk i Hsk Hi) as (z & Ez & ?)); eauto.
  - intros c i Hi. destruct (ok_pending _ t H c i Hi) as (z & Ez & ?). eauto.
  - intros p i [[<- [= <-]]|[Hne Hi]]%lookup_insert_Some; [by exists x|].
    destruct (ok_ports _ t H p i Hi) as (z & Ez & ?). eauto.
  - intros i z Hi. destruct (Hinv i z Hi) as [[-> ->]|Ez]; [apply lookup_insert_eq|].
    pose proof (ok_owned _ t H i z Ez). rewrite lookup_insert_ne; [done|congruence].
  - intros i z Hi. destruct (Hinv i z Hi) as [[-> ->]|Ez]; [lia|].
    pose proof (ok_fresh _ t H i z Ez). lia.
  - intros i z Hi. destruct (Hinv i z Hi) as [[-> ->]|Ez]; [done|by eapply (ok_contents _ t H)].
Qed.

Lemma wp_registerAllocation s key src viaTcp x :
  allocations_ (tabs s) !! key = None ->
  wp (registerAllocation key src viaTcp x) (fun a s' =>
    a = nextAlloc (tabs s) /\ tabs s' = registerTabs key src viaTcp x (tabs s) /\ tabs_only s s') s.
Proof.
  intros Hk. unfold registerAllocation. wp_step. wp_step. wp_step. wp_step. wp_step. wp_step. wp_step.
  set (a := nextAlloc (tabs s)).
  eapply (wp_mono _ (fun _ s1 => tabs s1 =
    set_controlMap (if transport x =? SOCK_DGRAM then allocByControlSock_ (tabs s)
                    else <[controlSock x := a]> (allocByControlSock_ (tabs s)))
     (set_clientMap (if transport x =? SOCK_DGRAM then ainsert src a (allocByClientAddr_ (tabs s))
                     else allocByClientAddr_ (tabs s))
      (set_relayMaps (if transport x =? SOCK_DGRAM then <[relaySock x := a]> (allocByRelaySock_ (tabs s))
                      else allocByRelaySock_ (tabs s))
        (if transport x =? SOCK_DGRAM then ainsert (relayedAddr x) a (allocByRelayAddr_ (tabs s))
         else allocByRelayAddr_ (tabs s))
        (set_ports (<[relayPort x := Some a]> (usedRelayPorts_ (tabs s)))
          (set_nextAlloc (S a) (set_heap (<[a := x]> (heap (tabs s))) (tabs s)))))) /\ tabs_only s s1)).
  { destruct (transport x =? SOCK_DGRAM); repeat wp_step; repeat (split; [done|]);
      [by eapply quiet_one|by apply quiet_eq]. }
  intros [] s1 [T1 F1]. wp_step.
  eapply (wp_mono _ (fun _ s2 => tabs s2 =
    set_allocations (allocations_ (tabs s)) (set_heap (<[a := x]> (heap (tabs s)))
      (set_controlMap (if negb (transport x =? SOCK_DGRAM) || (viaTcp && negb (controlSock x =? STICE_INVALID_SOCKET))
                       then <[controlSock x := a]> (allocByControlSock_ (tabs s))
                       else allocByControlSock_ (tabs s)) (tabs s1))) /\ tabs_only s s2)).
  { destruct (viaTcp && negb (controlSock x =? STICE_INVALID_SOCKET)); wp_step; cbn; rewrite T1.
    - rewrite orb_true_r. cbn. destruct (transport x =? SOCK_DGRAM); [done|].
      by rewrite insert_insert_eq.
    - rewrite orb_false_r. by destruct (transport x =? SOCK_DGRAM). }
  intros [] s2 [T2 F2]. wp_step. unfold eraseAllocation. wp_step. unfold findAlloc. wp_step.
  rewrite T2. cbn. rewrite Hk. wp_step. wp_step. wp_step. wp_step.
  split; [done|]. split; [|done]. cbn. rewrite T2, T1. done.
Qed.

End Requests.
