(* ===== verification/TurnLinks.v ===== *)
(** * Allocations and the clients that own them

    [link_ok] ties the allocation tables to the connections: an allocation with a control
    connection is found through that connection's socket and has the connection's peer as
    its client, every other allocation belongs to a datagram client.  [is_udp] tells the
    printed addresses of datagram clients from those of TCP clients.  It is what makes the
    table key of a new allocation free, which [TurnRequests] asks for. *)

From S2P Require Import Prelude.
From S2P Require Import StateMonad.
From S2P Require Import Bytes.
From S2P Require Import Crypto.
From S2P Require Import Addr.
From S2P Require Import StunMessage.
From S2P Require Import StunAttributes.
From S2P Require Import ChannelData.
From S2P Require Import StunConn.
From S2P Require Import TcpWriter.
From S2P Require Import TurnState.
From S2P Require Import TurnCore.
From S2P Require Import TurnHandlers.
From S2P Require Import TurnServer.
From S2P Require Import TurnInv.
From S2P Require Import TurnSafe.
From S2P Require Import TurnRequests.
Open Scope Z_scope.

(** What is fixed for a run: which printed addresses are datagram clients, and the relay
    ports. *)
Record World := mkWorld { is_udp : string -> Prop; portLo : Z; portHi : Z }.

Section Links.
Context (E : Env) (W : World).

Definition printed (a : AddrRecord) : string := toString (env_getnameinfo E) (env_inet_ntop E) a.

Lemma allocKey_inj tr tr' a a' : allocKey E tr a = allocKey E tr' a' -> printed a = printed a'.
Proof.
  unfold allocKey, printed. destruct (tr =? SOCK_STREAM), (tr' =? SOCK_STREAM); cbn; by intros [=].
Qed.

(** The peers of the open connections. *)
Record peers_ok (c : Conns) : Prop := {
  pe_tcp : forall sk j, tcpBySock_ c !! sk = Some j ->
    exists y, conns c !! j = Some y /\ sk <> STICE_INVALID_SOCKET /\ ~ is_udp W (printed (peerAddr y)) /\
      is_Some (normalize (addr (peerAddr y)));
  pe_peers : forall sk1 sk2 j1 j2 y1 y2,
    tcpBySock_ c !! sk1 = Some j1 -> tcpBySock_ c !! sk2 = Some j2 ->
    conns c !! j1 = Some y1 -> conns c !! j2 = Some y2 ->
    printed (peerAddr y1) = printed (peerAddr y2) -> sk1 = sk2;
}.

(** An allocation and the connection that controls it. *)
Definition controlled (t : Tables) (c : Conns) (i : nat) (x : Allocation) : Prop :=
  if controlSock x =? STICE_INVALID_SOCKET then is_udp W (printed (clientAddr x)) else
  allocByControlSock_ t !! controlSock x = Some i /\
  exists j y, tcpBySock_ c !! controlSock x = Some j /\ conns c !! j = Some y /\
    clientAddr x = peerAddr y.

Record link_ok (t : Tables) (c : Conns) : Prop := {
  lk_peers : peers_ok c;
  lk_heap : forall i x, heap t !! i = Some x -> controlled t c i x;
  lk_invalid : allocByControlSock_ t !! STICE_INVALID_SOCKET = None;
  lk_quota : Z.of_nat (size (allocations_ t)) <= Z.max 0 (maxAllocations_ E);
  lk_range : rangeOf t = (portLo W, portHi W);
  lk_ports : forall i x, heap t !! i = Some x -> portLo W <= relayPort x <= portHi W;
}.

Definition linked (s : Srv) : Prop := link_ok (tabs s) (cns s).

Lemma peers_live c c' : peers_ok c -> live_le c c' -> peers_ok c'.
Proof.
  intros [H1 H2] [L1 L2 _].
  assert (Hb : forall sk j y', tcpBySock_ c' !! sk = Some j -> conns c' !! j = Some y' ->
            exists y, conns c !! j = Some y /\ peerAddr y' = peerAddr y).
  { intros sk j y' Hsk Hy'. rewrite L2 in Hsk. destruct (H1 sk j Hsk) as (y & Ey & _).
    destruct (L1 j y Ey) as (z & Ez & _ & Hp & _). simplify_eq. by exists y. }
  constructor.
  - intros sk j Hsk. rewrite L2 in Hsk. destruct (H1 sk j Hsk) as (y & Ey & Hne & Hu & Hn).
    destruct (L1 j y Ey) as (z & Ez & _ & Hp & _). exists z. by rewrite Hp.
  - intros sk1 sk2 j1 j2 y1 y2 S1 S2 E1 E2 He.
    destruct (Hb sk1 j1 y1 S1 E1) as (z1 & Z1 & P1). destruct (Hb sk2 j2 y2 S2 E2) as (z2 & Z2 & P2).
    rewrite P1, P2 in He. rewrite L2 in *. by eapply H2.
Qed.

(** Changes that keep every allocation's identity and every connection's. *)
Lemma link_mono t t' c c' :
  link_ok t c -> live_le c c' -> allocations_ t' = allocations_ t ->
  allocByControlSock_ t' = allocByControlSock_ t -> rangeOf t' = rangeOf t ->
  (forall i y, heap t' !! i = Some y -> exists x, heap t !! i = Some x /\ same_id x y) ->
  link_ok t' c'.
Proof.
  intros [H1 H2 H3 H4 H5 H6] Hl Ha Hc Hr Hh.
  constructor; [by eapply peers_live| |by rewrite Hc|by rewrite Ha|by rewrite Hr|].
  2:{ intros i y Ey. destruct (Hh i y Ey) as (x & Ex & _ & _ & _ & _ & _ & I6). rewrite I6.
      by eapply H6. }
  intros i y Ey. destruct (Hh i y Ey) as (x & Ex & _ & I2 & I3 & _). specialize (H2 i x Ex).
  unfold controlled in *. rewrite I2, I3, Hc. destruct (_ =? _); [done|].
  destruct H2 as (Hk & j & z & Hj & Ez & Hz). split; [done|].
  destruct (ll_conn _ _ Hl j z Ez) as (z' & Ez' & _ & Hp & _). exists j, z'.
  by rewrite (ll_sock _ _ Hl), Hp.
Qed.

Lemma link_live t c c' : link_ok t c -> live_le c c' -> link_ok t c'.
Proof. intros H Hl. eapply link_mono; [done..|]. intros i y Ey. by exists y. Qed.

Lemma link_put t c a x y :
  link_ok t c -> heap t !! a = Some x -> same_id x y -> link_ok (set_heap (<[a := y]> (heap t)) t) c.
Proof.
  intros H Ea Hid. eapply link_mono; [done..|]. cbn.
  intros i z [[<- <-]|[_ Ez]]%lookup_insert_Some; [by exists x|by exists z].
Qed.

(** Only the owner's entry leaves with an allocation. *)
Lemma link_destroy t c a x :
  link_ok t c -> heap t !! a = Some x -> link_ok (destroyTabs E a x t) c.
Proof.
  intros [H1 H2 H3 H4 H5 H6] Ea. constructor; [done| | | |done|].
  - cbn [heap destroyTabs]. intros i y [Hne Ey]%lookup_delete_Some. pose proof (H2 a x Ea) as Hx. specialize (H2 i y Ey).
    unfold controlled in *. cbn [allocByControlSock_ destroyTabs].
    destruct (Z.eqb_spec (controlSock y) STICE_INVALID_SOCKET); [done|].
    destruct H2 as [Hk Hrest]. split; [|done].
    destruct (Z.eqb_spec (controlSock x) STICE_INVALID_SOCKET); [done|].
    destruct Hx as [Hkx _]. rewrite lookup_delete_ne; [done|]. intros He.
    apply Hne. rewrite He in Hkx. congruence.
  - cbn. destruct (_ =? _); [done|]. apply lookup_delete_None. by right.
  - cbn [allocations_ destroyTabs]. rewrite map_size_delete.
    destruct (allocations_ t !! keyOf E x); unfold id; lia.
  - cbn [heap destroyTabs]. intros i y [_ Ey]%lookup_delete_Some. by eapply H6.
Qed.

(** Where a request came from: a datagram client, which asks for a UDP relay, or the peer of
    an open connection. *)
Definition origin (s : Srv) (tr : Z) (src : AddrRecord) (tc : option nat) : Prop :=
  match tc with
  | None => is_udp W (printed src) /\ tr = SOCK_DGRAM
  | Some c => exists sk y, tcpBySock_ (cns s) !! sk = Some c /\ conns (cns s) !! c = Some y /\
      tc_sock y = sk /\ peerAddr y = src
  end.

Lemma origin_live s s' tr src tc :
  live_le (cns s) (cns s') -> origin s tr src tc -> origin s' tr src tc.
Proof.
  intros Hl. destruct tc as [c|]; [|done]. intros (sk & y & Hsk & Ey & Hs & Hp).
  destruct (ll_conn _ _ Hl c y Ey) as (z & Ez & H1 & H2 & _). exists sk, z.
  rewrite (ll_sock _ _ Hl). split; [done|]. split; [done|]. split; congruence.
Qed.

(** The allocation a request is dispatched on. *)
Definition looked_up (s : Srv) (src : AddrRecord) (tc : option nat) : option nat :=
  match tc with
  | None => allocations_ (tabs s) !! allocKey E SOCK_DGRAM src
  | Some c => match conns (cns s) !! c with
              | Some y => allocByControlSock_ (tabs s) !! tc_sock y
              | None => None
              end
  end.

(** The key of a new allocation is free, or it belongs to the allocation the request was
    looked up to. *)
Lemma origin_key s tr src tc i :
  srv_ok E s -> linked s -> origin s tr src tc ->
  allocations_ (tabs s) !! allocKey E tr src = Some i -> looked_up s src tc = Some i.
Proof.
  intros Hs [H1 H2 H3 _ _ _] Ho Hi. destruct tc as [c|]; cbn [origin looked_up] in *.
  2:{ destruct Ho as [_ ->]. done. }
  destruct Ho as (sk & y & Hsk & Ey & Hsock & <-). rewrite Ey.
  destruct (ok_own _ _ (so_tabs _ _ Hs) _ i Hi) as (x & Ex & Hk).
  apply allocKey_inj in Hk. specialize (H2 i x Ex). unfold controlled in H2.
  destruct (pe_tcp _ H1 sk c Hsk) as (y' & Ey' & _ & Hnu & _). simplify_eq.
  destruct (Z.eqb_spec (controlSock x) STICE_INVALID_SOCKET) as [_|_].
  { rewrite <- Hk in H2. done. }
  destruct H2 as (Hc & j & z & Hj & Ez & Hcl). rewrite Hcl in Hk.
  by rewrite (pe_peers _ H1 _ _ c j y z Hsk Hj Ey Ez Hk).
Qed.

(** Registering a new allocation for the client it was requested by. *)
Lemma link_register s x viaTcp tr src tc t' :
  linked s -> origin s tr src tc -> clientAddr x = src ->
  Z.of_nat (size (allocations_ (tabs s))) < maxAllocations_ E -> portRange (tabs s) (relayPort x) ->
  match tc with
  | None => controlSock x = STICE_INVALID_SOCKET /\ viaTcp = false /\ transport x = SOCK_DGRAM
  | Some c => viaTcp = true /\ exists y, conns (cns s) !! c = Some y /\ controlSock x = tc_sock y
  end ->
  (forall i, allocByControlSock_ (tabs s) !! controlSock x = Some i -> is_Some tc -> False) ->
  t' = registerTabs (keyOf E x) src viaTcp x (tabs s) ->
  link_ok t' (cns s).
Proof.
  intros [H1 H2 H3 H4 H5 H6] Ho Hcl Hq Hr Htc Hfree ->. set (t := tabs s) in *.
  assert (Hq' : forall k ad v, Z.of_nat (size (allocations_ (registerTabs k ad v x t))) <=
                               Z.max 0 (maxAllocations_ E)).
  { intros k ad v. cbn [allocations_ registerTabs].
    rewrite map_size_insert. destruct (allocations_ t !! k); unfold id; lia. }
  assert (Hr' : forall k ad v i y, heap (registerTabs k ad v x t) !! i = Some y ->
                  portLo W <= relayPort y <= portHi W).
  { intros k ad v i y. cbn [heap registerTabs].
    intros [[<- <-]|[_ Ey]]%lookup_insert_Some; [|by eapply H6].
    rewrite rangeOf_range in Hr. fold t in Hr. by rewrite H5 in Hr. }
  destruct tc as [c|]; cbn [origin] in *.
  - destruct Htc as (-> & y' & Ey' & Hcs). destruct Ho as (sk & y & Hsk & Ey & Hsock & Hp).
    assert (y' = y) as -> by congruence. rewrite Hsock in Hcs.
    destruct (pe_tcp _ H1 _ c Hsk) as (z & Ez & Hne & _).
    assert (Hneb : (controlSock x =? STICE_INVALID_SOCKET) = false)
      by (rewrite Hcs; by apply Z.eqb_neq).
    assert (Hc' : forall k ad, allocByControlSock_ (registerTabs k ad true x t) =
                  <[controlSock x := nextAlloc t]> (allocByControlSock_ t)).
    { intros k ad. cbn. rewrite Hneb. cbn. by rewrite orb_true_r. }
    constructor; [done| | |apply Hq'|exact H5|apply Hr'].
    + cbn [heap registerTabs]. intros i w [[<- <-]|[Hi Ew]]%lookup_insert_Some; unfold controlled; rewrite Hc'.
      * rewrite Hneb, lookup_insert_eq. split; [done|]. exists c, y. rewrite Hcs, Hcl. done.
      * specialize (H2 i w Ew). unfold controlled in H2. destruct (_ =? _); [done|].
        destruct H2 as [Hk Hrest]. split; [|done]. rewrite lookup_insert_ne; [done|].
        intros He. rewrite <- He in Hk. by destruct (Hfree i Hk).
    + rewrite Hc', lookup_insert_ne; [done|]. by rewrite Hcs.
  - destruct Htc as (Hcs & -> & Htr). destruct Ho as [Hu _].
    assert (Hc' : allocByControlSock_ (registerTabs (keyOf E x) src false x t) = allocByControlSock_ t)
      by (cbn; by rewrite Htr).
    constructor; [done| |by rewrite Hc'|apply Hq'|exact H5|apply Hr'].
    cbn [heap registerTabs]. intros i w [[<- <-]|[Hi Ew]]%lookup_insert_Some; unfold controlled; rewrite Hc'.
    + rewrite Hcs. cbn. by rewrite Hcl.
    + exact (H2 i w Ew).
Qed.

End Links.
