(* ===== verification/TurnSteps.v ===== *)
(** * The request handlers keep the invariant

    Every handler of [TurnHandlers], the dispatcher and the packet entry points, run from a
    good state.  [good] is what a handler guarantees; a handler that leaves the allocation
    tables alone is [calm]. *)

From S2P Require Import Prelude.
From S2P Require Import StateMonad.
From S2P Require Import Bytes.
From S2P Require Import Crypto.
From S2P Require Import Addr.
From S2P Require Import StunMessage.
From S2P Require Import StunAttributes.
From S2P Require Import ChannelData.
From S2P Require Import StunConn.
From S2P Require Import TcpWriter.
From S2P Require Import TurnState.
From S2P Require Import TurnCore.
From S2P Require Import TurnHandlers.
From S2P Require Import TurnServer.
From S2P Require Import TurnInv.
From S2P Require Import TurnGrants.
From S2P Require Import TurnSafe.
From S2P Require Import TurnRequests.
From S2P Require Import TurnLinks.
Open Scope Z_scope.

Section Steps.
Context (E : Env) (HE : env_ok E) (W : World).

Record good (s s' : Srv) : Prop := {
  gd_ok : srv_ok E s';
  gd_clock : clock s' = clock s;
  gd_live : live_le (cns s) (cns s');
  gd_outs : quiet s s';
  gd_link : linked E W s -> linked E W s';
}.

Lemma good_calm s s' : srv_ok E s -> calm s s' -> good s s'.
Proof.
  intros Hs Hc. constructor; [by eapply calm_srv|apply Hc..|]. intros Hl. unfold linked.
  rewrite (calm_tabs _ _ Hc). eapply link_live; [exact Hl|apply Hc].
Qed.

Lemma good_trans s1 s2 s3 : good s1 s2 -> good s2 s3 -> good s1 s3.
Proof.
  intros [? ? ? ? ?] [? ? ? ? ?].
  constructor; [done|congruence|by eapply live_le_trans|by eapply quiet_trans|auto].
Qed.

Lemma good_refl s : srv_ok E s -> good s s.
Proof. intros H. by constructor. Qed.

Lemma conn_live_le s s' tc : live_le (cns s) (cns s') -> conn_live s tc -> conn_live s' tc.
Proof. intros H. destruct tc; [apply (ll_live _ _ _ H)|done]. Qed.

Lemma conn_live_eq s s' tc : cns s' = cns s -> conn_live s tc -> conn_live s' tc.
Proof. intros H. unfold conn_live. by rewrite H. Qed.

(** ** Binding *)

Lemma wp_handleBinding s req src tc :
  srv_ok E s -> conn_live s tc -> tid_ok (transactionID req) ->
  wp (handleBinding E req src tc) (fun _ s' => calm s s') s.
Proof.
  intros Hs Hc [Ht _]. unfold handleBinding. wp_step.
  apply wp_encode; [apply body_xor; by split; [|constructor]|]. intros r. by apply wp_reply.
Qed.

(** ** Allocate *)

Definition allocTransport (req : Message) : Z :=
  match find req AttrType.RequestedTransport with
  | Some rt => match value rt with
               | proto :: _ => if proto =? 6 then SOCK_STREAM else SOCK_DGRAM
               | [] => SOCK_DGRAM
               end
  | None => SOCK_DGRAM
  end.

Lemma allocTransport_spec req rt proto v :
  find req AttrType.RequestedTransport = Some rt -> value rt = proto :: v ->
  (if proto =? 6 then SOCK_STREAM else SOCK_DGRAM) = allocTransport req.
Proof. unfold allocTransport. by intros -> ->. Qed.

(** An allocation as [handleAllocate] creates it. *)
Definition fresh_alloc (s : Srv) (req : Message) (src : AddrRecord) (x : Allocation) : Prop :=
  transport x = allocTransport req /\ clientAddr x = src /\
  username x = getStr req AttrType.Username /\ permissions x = [] /\ channels x = [] /\
  pendingConnects x = [] /\ expiryMs x = clock s + allocationLifetime_ E * 1000 /\
  relayedAddr x = buildRelayedAddr E (relayPort x).

(** The tables after a successful Allocate. *)
Definition allocated (s : Srv) (req : Message) (src : AddrRecord) (s' : Srv) : Prop :=
  exists x, fresh_alloc s req src x /\ Z.of_nat (size (allocations_ (tabs s))) < maxAllocations_ E /\
    heap (tabs s') = <[nextAlloc (tabs s) := x]> (heap (tabs s)) /\
    allocations_ (tabs s') = <[keyOf E x := nextAlloc (tabs s)]> (allocations_ (tabs s)).

(** Why an Allocate request is turned down: no usable REQUESTED-TRANSPORT, the quota, or no
    relay port or socket. *)
Definition refused (s : Srv) (req : Message) : Prop :=
  match find req AttrType.RequestedTransport with
  | Some rt =>
      match value rt with
      | proto :: _ => maxAllocations_ E <= Z.of_nat (size (allocations_ (tabs s))) \/
                      exists code s1, allocateRelay E proto s = Some (inl code, s1)
      | [] => True
      end
  | None => True
  end.

Definition sized_attrs (m : Message) : Prop := Forall (fun a => sized (value a)) (attributes m).

Lemma relayed_normal port : is_Some (normalize (addr (buildRelayedAddr E port))).
Proof.
  pose proof (eo_relay E HE) as H. unfold buildRelayedAddr. cbn.
  destruct (relayIpAddr_ E) as [p a|p a|f]; cbn in *; [done| |done].
  by destruct (IN6_IS_ADDR_V4MAPPED a).
Qed.

(** The control socket of an allocation requested over [tc]. *)
Definition controlOf (s : Srv) (tc : option nat) (csock : socket_t) : Prop :=
  match tc with
  | None => csock = STICE_INVALID_SOCKET
  | Some c => exists y, conns (cns s) !! c = Some y /\ csock = tc_sock y
  end.

(** Reserving a port changes nothing the links are about. *)
Lemma linked_reserved s s1 :
  linked E W s -> cns s1 = cns s -> same_maps (tabs s) (tabs s1) -> linked E W s1.
Proof.
  intros H C M. eapply link_mono; [exact H|by apply live_le_eq|apply M..|].
  rewrite (sm_heap _ _ M). intros i y Ey. by exists y.
Qed.

(** Registering for the client the request came from. *)
Lemma linked_register s s1 s2 x src tc :
  linked E W s -> cns s1 = cns s -> same_maps (tabs s) (tabs s1) ->
  origin E W s (transport x) src tc -> looked_up E s src tc = None -> clientAddr x = src ->
  controlOf s1 tc (controlSock x) -> cns s2 = cns s1 ->
  Z.of_nat (size (allocations_ (tabs s))) < maxAllocations_ E -> portRange (tabs s) (relayPort x) ->
  tabs s2 = registerTabs (keyOf E x) src (bool_decide (is_Some tc)) x (tabs s1) -> linked E W s2.
Proof.
  intros H C M Ho Hlook Hcl Hcs C2 Hq Hr T2. unfold linked. rewrite C2.
  eapply (link_register E W s1 x (bool_decide (is_Some tc)) (transport x) src tc);
    [by eapply linked_reserved|by eapply origin_live, Ho; apply live_le_eq|done
    |by rewrite (sm_allocs _ _ M)|by rewrite rangeOf_range, (sm_range _ _ M)| | |done].
  - destruct tc as [c|]; cbn in *; [split; [done|exact Hcs]|]. split; [done|]. split; [done|apply Ho].
  - destruct tc as [c|]; [|by intros i _ []]. destruct Hcs as (y & Ey & Hy). intros i Hi _.
    cbn in Hlook. rewrite <- C, Ey, <- (sm_control _ _ M), <- Hy in Hlook. congruence.
Qed.

Lemma wp_handleAllocate s req src tc :
  srv_ok E s -> linked E W s -> conn_live s tc -> req_ok req -> is_Some (normalize (addr src)) ->
  origin E W s (allocTransport req) src tc -> looked_up E s src tc = None ->
  wp (handleAllocate E req src tc) (fun _ s' =>
    good s s' /\ (refused s req /\ same_maps (tabs s) (tabs s') \/ allocated s req src s')) s.
Proof.
  intros Hs Hlk Hc (Ht & Ha & Hci) Hsrc Hor Hlook.
  assert (Hkey : allocations_ (tabs s) !! allocKey E (allocTransport req) src = None).
  { apply eq_None_not_Some. intros [i Hi]. pose proof (origin_key E W _ _ _ _ i Hs Hlk Hor Hi). congruence. }
  assert (Herr : forall s1 code, refused s req -> unreserved E s s1 ->
    wp (sendErrorResponse E tc src req code) (fun _ s' =>
      good s s' /\ (refused s req /\ same_maps (tabs s) (tabs s') \/ allocated s req src s')) s1).
  { intros s1 code Href (Hs1 & C1 & K1 & N1 & O1 & M1).
    eapply wp_mono; [apply wp_sendErrorResponse; [done|done|by eapply conn_live_eq|done]|].
    intros [] s2 Hcalm. split.
    - eapply (good_trans _ s1); [|by apply good_calm].
      constructor; [done|done|by apply live_le_eq|by apply quiet_eq|].
      intros _. by eapply linked_reserved.
    - left. split; [done|]. by rewrite (calm_tabs _ _ Hcalm). }
  pose proof (unreserved_refl E s Hs) as H0.
  unfold handleAllocate, refused in *.
  destruct (find req AttrType.RequestedTransport) as [rt|] eqn:Ert; [|by apply Herr].
  destruct (value rt) as [|proto v] eqn:Ev; [by apply Herr|].
  wp_step. wp_step. destruct (Z.leb_spec (maxAllocations_ E) (Z.of_nat (size (allocations_ (tabs s)))));
    [by apply Herr; [left|]|].
  rewrite (allocTransport_spec req rt proto v Ert Ev).
  wp_step. eapply wp_mono; [by apply wp_eq, wp_allocateRelay|].
  intros [code|[port rsock]] s1 [Erel H1]; [by apply Herr; [right; eexists _, _|]|]. clear Erel.
  destruct H1 as (Hs1 & C1 & K1 & N1 & O1 & M1 & Hport & Hrng). wp_step.
  eapply (wp_mono _ (fun csock s2 => s2 = s1 /\ controlOf s1 tc csock)).
  { destruct tc as [c|]; [|by wp_step]. destruct Hc as [y Hy].
    assert (Hy1 : conns (cns s1) !! c = Some y) by (by rewrite C1).
    wp_step. eapply wp_conn_get; [exact Hy1|]. wp_step. split; [done|]. by exists y. }
  intros csock s2 [-> Hcsock]. wp_step. wp_step. wp_step.
  apply wp_sendSuccessResponse; [done|done|done|by apply getStr_sized| |].
  { pose proof (body_xor (withXor resp0 AttrType.XorRelayedAddress (buildRelayedAddr E port) (transactionID req))
                  AttrType.XorMappedAddress src (transactionID req)
                  (body_xor resp0 _ _ _ (conj eq_refl (Forall_nil_2 _)))) as [_ Hb].
    cbn. apply Forall_app. split; [exact Hb|]. constructor; [done|constructor]. }
  intros resp. wp_step.
  set (x := mkAllocation _ src csock rsock _ port _ [] [] _ []).
  eapply wp_mono; [apply wp_registerAllocation|].
  { by rewrite (sm_allocs _ _ M1). }
  intros a s3 (Hai & T3 & F3). pose proof F3 as (C3 & K3 & N3 & _ & Q3).
  assert (Hs3 : srv_ok E s3).
  { eapply (srv_ok_tabs E s1); [done|done| |].
    - rewrite T3. apply (tabs_ok_register E (tabs s1) (bool_decide (is_Some tc)) x);
        [apply Hs1|by rewrite (sm_allocs _ _ M1)|done| |done|apply relayed_normal].
      split; [by apply getStr_sized|]. repeat (split; [constructor|]). constructor.
    - rewrite T3. apply (so_range _ _ Hs1). }
  eapply wp_mono; [apply wp_reply; [done|done|eapply conn_live_eq; [|done]; congruence]|].
  intros [] s4 Hcalm. split.
  - eapply (good_trans _ s3); [|by apply good_calm]. constructor; [done|congruence| | |].
    + apply live_le_eq. congruence.
    + eapply quiet_trans; [by apply quiet_eq|exact Q3].
    + intros _. by eapply (linked_register s s1 s3 x src tc).
  - right. exists x. rewrite (calm_tabs _ _ Hcalm), T3.
    split; [unfold fresh_alloc; cbn; by rewrite K1|]. split; [done|].
    cbn. by rewrite (sm_heap _ _ M1), (sm_next _ _ M1), (sm_allocs _ _ M1).
Qed.

(** ** Changing an allocation *)

Lemma srv_ok_put s a x y :
  srv_ok E s -> heap (tabs s) !! a = Some x -> same_id x y -> alloc_ok y ->
  (forall c, pendingByConnId_ (tabs s) !! c = Some a -> c ∈ pendingIds y) ->
  good s (set_tabs (fun t => set_heap (<[a := y]> (heap t)) t) s).
Proof.
  intros Hs Ea Hid Hy Hp.
  constructor; [|done|done|by apply quiet_eq|intros Hl; by eapply link_put].
  eapply srv_ok_eq; [done|done|done| |apply (so_range _ _ Hs)].
  cbn. eapply tabs_ok_put; [apply Hs|done..].
Qed.

Lemma good_destroy s s' a x :
  srv_ok E s -> heap (tabs s) !! a = Some x -> srv_ok E s' ->
  tabs s' = destroyTabs E a x (tabs s) -> tabs_only s s' -> good s s'.
Proof.
  intros Hs Ea Hs' T (C & K & _ & _ & Q). constructor; [done|done|by apply live_le_eq|done|].
  intros Hl. unfold linked. rewrite T, C. by apply link_destroy.
Qed.

(** Changes that keep the pending connects. *)
Lemma srv_ok_put' s a x y :
  srv_ok E s -> heap (tabs s) !! a = Some x -> same_id x y -> alloc_ok y ->
  pendingConnects y = pendingConnects x ->
  good s (set_tabs (fun t => set_heap (<[a := y]> (heap t)) t) s).
Proof.
  intros Hs Ea Hid Hy Hp. eapply srv_ok_put; [done..|]. intros c Hc.
  destruct (ok_pending _ _ (so_tabs _ _ Hs) c a Hc) as (z & Ez & Hz).
  simplify_eq. unfold pendingIds in *. by rewrite Hp.
Qed.

Lemma good_reply s s1 tc src resp :
  good s s1 -> conn_live s tc ->
  wp (reply E tc src resp) (fun _ s' => good s s' /\ tabs s' = tabs s1) s1.
Proof.
  intros Hg Hc. eapply wp_mono; [apply wp_reply; [done|apply Hg|eapply conn_live_le; [apply Hg|done]]|].
  intros [] s2 Hcalm. split; [|apply Hcalm].
  eapply good_trans; [done|]. apply good_calm; [apply Hg|done].
Qed.

(** ** Refresh *)

(** The lifetime a Refresh is granted. *)
Definition grantedLifetime (req : Message) : Z :=
  match readLifetime req with
  | Some (Some l) => Z.min l (allocationLifetime_ E)
  | _ => allocationLifetime_ E
  end.

Lemma readLifetime_total req : Forall attr_ok (attributes req) -> exists o, readLifetime req = Some o.
Proof.
  intros Ha. destruct (readSized_safe req AttrType.Lifetime (fun n => n =? 4)%nat
    (fun v => readU32Be v 0) (fits 32) Ha) as (o & Ho & _); [|by exists o].
  intros b _ Hn. apply readU32Be_inb. apply Nat.eqb_eq in Hn. lia.
Qed.

Lemma wp_handleRefresh s req src tc a x :
  srv_ok E s -> conn_live s tc -> req_ok req -> heap (tabs s) !! a = Some x ->
  wp (handleRefresh E req src tc a) (fun _ s' =>
    good s s' /\
    tabs s' = if grantedLifetime req =? 0 then destroyTabs E a x (tabs s)
              else set_heap (<[a := al_expiry (clock s + grantedLifetime req * 1000) x]> (heap (tabs s)))
                     (tabs s)) s.
Proof.
  intros Hs Hc (Ht & Ha & _) Ea. unfold handleRefresh.
  destruct (readLifetime_total req Ha) as [o Ho]. wp_step. eapply wp_lift; [done|].
  assert (Hl : match o with
    | Some l => if allocationLifetime_ E <? l then allocationLifetime_ E else l
    | None => allocationLifetime_ E end = grantedLifetime req).
  { unfold grantedLifetime. rewrite Ho. destruct o as [l|]; [|done].
    destruct (Z.ltb_spec (allocationLifetime_ E) l); lia. }
  rewrite Hl. set (l := grantedLifetime req). wp_step. wp_step.
  destruct (Z.eqb_spec l 0) as [El|El].
  - wp_step. wp_step. wp_step. eapply wp_alloc_get; [done|]. wp_step.
    destruct (ok_contents _ _ (so_tabs _ _ Hs) a x Ea) as [Hu _].
    apply wp_sendSuccessResponse; [done|done|done|done|by constructor|].
    intros resp. wp_step. eapply wp_mono; [apply (good_reply s s); [by apply good_refl|done]|].
    intros [] s1 [Hg T]. eapply wp_mono; [apply wp_destroy_ok; [apply Hg|by rewrite T]|].
    intros [] s2 (Hs2 & T2 & HF). split; [|by rewrite T2, T].
    eapply good_trans; [done|]. eapply (good_destroy s1 s2 a x); [apply Hg|by rewrite T|done..].
  - wp_step. wp_step. eapply wp_alloc_get; [done|]. wp_step. wp_step.
    destruct (ok_contents _ _ (so_tabs _ _ Hs) a x Ea) as [Hu Hrest].
    set (y := al_expiry (clock s + l * 1000) x).
    pose proof (srv_ok_put' s a x y Hs Ea ltac:(done) (conj Hu Hrest) eq_refl) as Hg.
    eapply wp_alloc_get; [apply lookup_insert_eq|]. wp_step.
    apply wp_sendSuccessResponse; [done|apply Hg|done|done|by constructor|].
    intros resp. wp_step. eapply wp_mono; [by apply (good_reply s)|].
    intros [] s1 [Hg1 T]. wp_step. split; [done|]. by rewrite T.
Qed.

(** ** CreatePermission *)

Lemma installPermissions_total tid expiry attrs perms :
  tid_ok tid -> Forall attr_ok attrs -> is_Some (installPermissions tid expiry attrs perms).
Proof.
  intros Ht Ha. revert perms. induction Ha as [|a attrs Hok Ha IH]; intros perms; [done|].
  cbn [installPermissions]. destruct (negb _); [apply IH|].
  set (tmp := addAttribute _ _ _).
  destruct (readXorAddress_safe tmp AttrType.XorPeerAddress tid) as (o & Ho & _); [|done|].
  { cbn. constructor; [|constructor]. destruct Hok as (_ & H1 & H2). by split; [|split]. }
  rewrite Ho. cbn [mbind option_bind]. destruct o; apply IH.
Qed.

Lemma wp_handleCreatePermission s req src tc a x :
  srv_ok E s -> conn_live s tc -> req_ok req -> heap (tabs s) !! a = Some x ->
  wp (handleCreatePermission E req src tc a) (fun _ s' =>
    good s s' /\ exists perms,
      installPermissions (transactionID req) (clock s + PermissionLifetimeMs) (attributes req)
        (permissions x) = Some perms /\
      tabs s' = set_heap (<[a := al_permissions perms x]> (heap (tabs s))) (tabs s)) s.
Proof.
  intros Hs Hc (Ht & Ha & _) Ea. unfold handleCreatePermission. wp_step. wp_step. wp_step.
  eapply wp_alloc_get; [done|].
  destruct (installPermissions_total (transactionID req) (clock s + PermissionLifetimeMs)
    (attributes req) (permissions x) Ht Ha) as [perms Hp].
  wp_step. eapply wp_lift; [done|]. wp_step. wp_step.
  destruct (ok_contents _ _ (so_tabs _ _ Hs) a x Ea) as (Hu & Hch & Hpc & Hgp & Hgc).
  destruct (installPermissions_spec _ _ _ _ _ Hp) as [Hd _].
  pose proof (srv_ok_put' s a x (al_permissions perms x) Hs Ea ltac:(done)
    (conj Hu (conj Hch (conj Hpc (conj (Hd Hgp) Hgc)))) eq_refl) as Hg.
  wp_step. apply wp_sendSuccessResponse; [done|apply Hg|done|done|by constructor|].
  intros resp. eapply wp_mono; [by apply (good_reply s)|].
  intros [] s1 [Hg1 T]. split; [done|]. exists perms. split; [done|]. by rewrite T.
Qed.

(** ** ChannelBind *)

Lemma putChannel_valid ch peer e l :
  channelValid ch = true -> Forall (fun c => channelValid (ch_number c) = true) l ->
  Forall (fun c => channelValid (ch_number c) = true) (putChannel ch peer e l).
Proof.
  intros Hch. induction 1 as [|c l Hc Hl IH]; cbn; [by constructor|].
  destruct (_ =? _); by constructor.
Qed.

Lemma readChannelNumber_total req :
  Forall attr_ok (attributes req) -> exists o, readChannelNumber req = Some o.
Proof.
  intros Ha. destruct (readSized_safe req AttrType.ChannelNumber (fun n => n =? 4)%nat
    (fun v => readU16Be v 0) (fits 16) Ha) as (o & Ho & _); [|by exists o].
  intros b Hb Hn. apply readU16Be_inb; [done|]. apply Nat.eqb_eq in Hn. lia.
Qed.

(** The allocation after a successful ChannelBind. *)
Definition boundChannel (now : Z) (channel : Z) (peer : AddrRecord) (x : Allocation) : Allocation :=
  al_permissions (touchPermission peer (now + PermissionLifetimeMs) (permissions x))
    (al_channels (putChannel channel peer (now + ChannelBindLifetimeMs) (channels x)) x).

(** The allocation a ChannelBind leaves behind; [None] when it is refused. *)
Definition channelBound (now : Z) (req : Message) (x : Allocation) : option Allocation :=
  match readChannelNumber req, readXorAddress req AttrType.XorPeerAddress (transactionID req) with
  | Some (Some channel), Some (Some peer) =>
      if channelValid channel && negb (existsb (badBinding channel peer) (channels x))
      then Some (boundChannel now channel peer x) else None
  | _, _ => None
  end.

Lemma wp_handleChannelBind s req src tc a x :
  srv_ok E s -> conn_live s tc -> req_ok req -> heap (tabs s) !! a = Some x ->
  wp (handleChannelBind E req src tc a) (fun _ s' =>
    good s s' /\
    tabs s' = match channelBound (clock s) req x with
              | Some y => set_heap (<[a := y]> (heap (tabs s))) (tabs s)
              | None => tabs s
              end) s.
Proof.
  intros Hs Hc (Ht & Ha & _) Ea. unfold handleChannelBind, channelBound.
  assert (Herr : forall code,
    wp (sendErrorResponse E tc src req code) (fun _ s' => good s s' /\ tabs s' = tabs s) s).
  { intros code. eapply wp_mono; [by apply wp_sendErrorResponse|]. intros [] s' Hcalm.
    split; [by apply good_calm|]. apply Hcalm. }
  destruct (readXorAddress_safe req AttrType.XorPeerAddress (transactionID req) Ha Ht) as (op & Hpeer & _).
  destruct (readChannelNumber_total req Ha) as [o Ho]. rewrite Ho, Hpeer.
  wp_step. eapply wp_lift; [done|]. destruct o as [channel|]; [|by destruct op; apply Herr].
  destruct (channelValid channel) eqn:Hch; cbn [negb andb]; [|by destruct op; apply Herr].
  wp_step. eapply wp_lift; [done|]. destruct op as [peer|]; [|apply Herr].
  wp_step. eapply wp_alloc_get; [done|].
  destruct (existsb (badBinding channel peer) (channels x)) eqn:Hbad; cbn [negb]; [apply Herr|].
  wp_step. wp_step. cbv zeta. wp_step. wp_step.
  destruct (ok_contents _ _ (so_tabs _ _ Hs) a x Ea) as (Hu & Hchs & Hpc & Hgp & Hgc & Hgn).
  pose proof (putChannel_grants channel peer (clock s + ChannelBindLifetimeMs) _ Hbad Hgc Hgn) as Hgc'.
  pose proof (touchPermission_distinct peer (clock s + PermissionLifetimeMs) _ Hgp) as Hgp'.
  fold (boundChannel (clock s) channel peer x).
  pose proof (srv_ok_put' s a x (boundChannel (clock s) channel peer x) Hs Ea ltac:(done)
    (conj Hu (conj (putChannel_valid _ _ _ _ Hch Hchs) (conj Hpc (conj Hgp' Hgc')))) eq_refl) as Hg.
  wp_step. apply wp_sendSuccessResponse; [done|apply Hg|done|done|by constructor|].
  intros resp. eapply wp_mono; [by apply (good_reply s)|].
  intros [] s1 [Hg1 T]. split; [done|]. by rewrite T.
Qed.

End Steps.
