(* ===== verification/TurnRelay.v ===== *)
(** * The relay data path and the dispatcher

    Data between client and peer, the RFC 6062 handlers, and the entry points for datagrams
    and TCP frames, run from a good state. *)

From S2P Require Import Prelude.
From S2P Require Import StateMonad.
From S2P Require Import Bytes.
From S2P Require Import Crypto.
From S2P Require Import Addr.
From S2P Require Import StunMessage.
From S2P Require Import StunAttributes.
From S2P Require Import ChannelData.
From S2P Require Import StunConn.
From S2P Require Import TcpWriter.
From S2P Require Import TurnState.
From S2P Require Import TurnCore.
From S2P Require Import TurnHandlers.
From S2P Require Import TurnServer.
From S2P Require Import TurnInv.
From S2P Require Import TurnGrants.
From S2P Require Import TurnSafe.
From S2P Require Import TurnRequests.
From S2P Require Import TurnSteps.
Open Scope Z_scope.

Section Relay.
Context (E : Env) (HE : env_ok E).

(** ** Lookups *)

Lemma wp_tcpConnRef s sk :
  srv_ok E s ->
  wp (tcpConnRef sk) (fun o s' => s' = s /\ conn_live s o) s.
Proof.
  intros Hs. unfold tcpConnRef. wp_step. wp_step.
  destruct (tcpBySock_ (cns s) !! sk) as [c|] eqn:Ec; [|by wp_step].
  destruct (co_sock _ (so_conns _ _ Hs) sk c Ec) as (x & Ex & _).
  wp_step. eapply wp_conn_get; [done|]. wp_step. split; [done|]. destruct (dying x); [done|].
  by exists x.
Qed.

Lemma wp_dataPipePeerRef s sk :
  srv_ok E s -> wp (dataPipePeerRef sk) (fun o s' => s' = s /\ conn_live s o) s.
Proof.
  intros Hs. unfold dataPipePeerRef. wp_step. wp_step.
  destruct (dataPipePeer_ (cns s) !! sk) as [c|] eqn:Ec; [|by wp_step].
  destruct (co_peer _ (so_conns _ _ Hs) sk c Ec) as [x Ex].
  wp_step. eapply wp_conn_get; [done|]. wp_step. split; [done|]. destruct (dying x); [done|].
  by exists x.
Qed.

(** A pointer from a map leads to an allocation. *)
Definition alloc_live (s : Srv) (o : option nat) : Prop :=
  match o with Some a => is_Some (heap (tabs s) !! a) | None => True end.

Lemma wp_refAlloc s o : alloc_live s o -> wp (refAlloc o) (fun r s' => s' = s /\ r = o) s.
Proof.
  intros Ho. destruct o as [a|]; cbn [refAlloc]; [|by wp_step].
  destruct Ho as [x Ex]. wp_step. eapply wp_alloc_get; [done|]. by wp_step.
Qed.

Lemma findAlloc_live s key : srv_ok E s -> alloc_live s (allocations_ (tabs s) !! key).
Proof.
  intros Hs. destruct (allocations_ (tabs s) !! key) as [a|] eqn:Ea; [|done].
  destruct (ok_own _ _ (so_tabs _ _ Hs) key a Ea) as (x & Ex & _). by exists x.
Qed.

Lemma relaySock_live s sk : srv_ok E s -> alloc_live s (allocByRelaySock_ (tabs s) !! sk).
Proof.
  intros Hs. destruct (allocByRelaySock_ (tabs s) !! sk) as [a|] eqn:Ea; [|done].
  destruct (ok_relay _ _ (so_tabs _ _ Hs) sk a Ea) as (x & Ex & _). by exists x.
Qed.

Lemma controlSock_live s sk :
  srv_ok E s -> sk <> STICE_INVALID_SOCKET -> alloc_live s (allocByControlSock_ (tabs s) !! sk).
Proof.
  intros Hs Hsk. destruct (allocByControlSock_ (tabs s) !! sk) as [a|] eqn:Ea; [|done].
  destruct (ok_control _ _ (so_tabs _ _ Hs) sk a Hsk Ea) as (x & Ex & _). by exists x.
Qed.

Lemma relayAddr_live s ad : srv_ok E s -> alloc_live s (alookup ad (allocByRelayAddr_ (tabs s))).
Proof.
  intros Hs. destruct (alookup ad _) as [a|] eqn:Ea; [|done]. apply alookup_elem in Ea as (k & Hin & _).
  destruct (ok_raddr _ _ (so_tabs _ _ Hs) k a Hin) as (x & Ex & _). by exists x.
Qed.

Lemma clientAddr_live s ad : srv_ok E s -> alloc_live s (alookup ad (allocByClientAddr_ (tabs s))).
Proof.
  intros Hs. destruct (alookup ad _) as [a|] eqn:Ea; [|done]. apply alookup_elem in Ea as (k & Hin & _).
  destruct (ok_client _ _ (so_tabs _ _ Hs) k a Hin) as (x & Ex & _). by exists x.
Qed.

(** ** Peer to client *)

Lemma wp_drawTid s m :
  srv_ok E s ->
  wp (drawTid E m) (fun m' s' => calm s s' /\ outs s' = outs s /\
    exists tid, tid_ok tid /\ m' = mkMessage (method m) (cls m) tid (attributes m) (raw m)) s.
Proof.
  intros [H1 H2 H3 H4]. unfold drawTid. wp_step. wp_step. wp_step. wp_step. wp_step.
  split; [constructor; try done; by apply quiet_eq|]. split; [done|].
  unfold newTransactionID. eexists. split; [|done].
  destruct (csprng E (draws s) 12) as [b|] eqn:Eb; cbn.
  - by apply (eo_rnd E HE (draws s)).
  - split; [done|]. by apply (bool_decide_unpack _), I.
Qed.

(** The Data indication for [data] from [peer]. *)
Definition indicationBody (tid : bytes) (peer : AddrRecord) (data : bytes) : Message :=
  addData (withXor (mkMessage Method.Data Indication tid [] []) AttrType.XorPeerAddress peer tid) data.

Lemma wp_dataIndication s peer data :
  srv_ok E s -> sized data ->
  wp (dataIndication E peer data) (fun ind s' => calm s s' /\ outs s' = outs s /\
    exists tid, tid_ok tid /\ encode (indicationBody tid peer data) None None software = Some ind) s.
Proof.
  intros Hs Hd. unfold dataIndication. wp_step. eapply wp_mono; [by apply wp_drawTid|].
  intros m s1 (Hc & Ho & tid & Ht & ->). cbn [method cls attributes raw transactionID].
  destruct (encode_plain (indicationBody tid peer data)) as [ind Hi].
  { apply body_add; [|done]. apply body_xor. split; [apply Ht|constructor]. }
  eapply wp_lift; [exact Hi|]. split; [done|]. split; [done|]. by exists tid.
Qed.

(** What reaches the client when a datagram from [peer] arrives for allocation [x]. *)
Inductive delivered (now : Z) (x : Allocation) (peer : AddrRecord) (data : bytes)
    : list Output -> Prop :=
| del_channel c :
    List.find (channelFor now peer) (channels x) = Some c -> payload_ok data ->
    delivered now x peer data [OUdp (clientAddr x) (channelFrame (ch_number c) data)]
| del_indication p tid ind :
    (List.find (channelFor now peer) (channels x) = None \/ ~ payload_ok data) ->
    List.find (permits now peer) (permissions x) = Some p -> tid_ok tid ->
    encode (indicationBody tid peer data) None None software = Some ind ->
    delivered now x peer data [OUdp (clientAddr x) (raw ind)]
| del_none :
    (List.find (channelFor now peer) (channels x) = None \/ ~ payload_ok data) ->
    List.find (permits now peer) (permissions x) = None ->
    delivered now x peer data [].

Lemma wp_forwardToClient s a x peer data :
  srv_ok E s -> heap (tabs s) !! a = Some x -> sized data ->
  wp (forwardToClient E a peer data) (fun _ s' => calm s s' /\
    (controlSock x = STICE_INVALID_SOCKET ->
       exists l, outs s' = outs s ++ l /\ delivered (clock s) x peer data l) /\
    (existsb (channelFor (clock s) peer) (channels x) = false ->
     existsb (permits (clock s) peer) (permissions x) = false -> outs s' = outs s)) s.
Proof.
  intros Hs Ea Hd.
  destruct (ok_contents _ _ (so_tabs _ _ Hs) a x Ea) as (_ & Hchs & _).
  assert (Hex : forall {A} (f : A -> bool) l, existsb f l = false -> List.find f l = None).
  { intros A f l. induction l as [|z l IH]; [done|]. cbn. destruct (f z); [done|]. apply IH. }
  unfold forwardToClient. wp_step. eapply wp_alloc_get; [done|].
  set (tcp := negb (controlSock x =? STICE_INVALID_SOCKET)).
  wp_step. eapply (wp_mono _ (fun o s' => s' = s /\ conn_live s o /\ (tcp = false -> o = None))).
  { destruct tcp; [|by wp_step]. eapply wp_mono; [by apply wp_tcpConnRef|].
    intros o s' [-> Ho]. done. }
  intros dst s1 (-> & Hdst & Hnone). wp_step. wp_step.
  set (reach := negb tcp || bool_decide (is_Some dst)).
  assert (Hreach : controlSock x = STICE_INVALID_SOCKET -> tcp = false /\ reach = true /\ dst = None).
  { intros Ei. assert (Ht : tcp = false) by (unfold tcp; by rewrite Ei).
    unfold reach. rewrite Ht. split; [done|]. split; [done|by apply Hnone]. }
  (* the channel *)
  wp_step. eapply (wp_mono _ (fun act s' => s' = s /\
    ((exists c, List.find (channelFor (clock s) peer) (channels x) = Some c /\ payload_ok data /\
        reach = true /\ act = ActFrame (channelFrame (ch_number c) data)) \/
     (act = ActNone /\ (List.find (channelFor (clock s) peer) (channels x) = None \/ ~ payload_ok data \/
                        reach = false))))).
  { destruct (List.find (channelFor (clock s) peer) (channels x)) as [c|] eqn:Ec;
      [|wp_step; split; [done|]; right; split; [done|by left]].
    destruct (wrapChannelData_total (ch_number c) data []) as (n & f & Hw & Hn).
    assert (Hcv : channelValid (ch_number c) = true).
    { apply find_some in Ec as [Hin _]. rewrite <- list_elem_of_In in Hin.
      by apply (Forall_forall _ (channels x)) with (x := c) in Hchs. }
    wp_step. eapply wp_lift; [done|]. wp_step. split; [done|]. cbn [fst snd].
    destruct (Nat.ltb_spec 0 n) as [Hpos|Hz]; cbn [andb].
    - destruct Hn as (_ & Hp & ->); [lia|]. destruct reach eqn:Er; [left; by exists c|].
      right. split; [done|]. by right; right.
    - right. split; [done|]. right. left. intros Hp.
      rewrite wrapChannelData_frame in Hw by done.
      assert (Hl : n = length (channelFrame (ch_number c) data)) by congruence.
      rewrite channelFrame_length in Hl by done. lia. }
  intros act s1 [-> Hact].
  (* the permission *)
  wp_step. eapply (wp_mono _ (fun act s' => calm s s' /\ outs s' = outs s /\
    ((exists c, List.find (channelFor (clock s) peer) (channels x) = Some c /\ payload_ok data /\
        reach = true /\ act = ActFrame (channelFrame (ch_number c) data)) \/
     (act = ActNone /\ (reach = true ->
        (List.find (channelFor (clock s) peer) (channels x) = None \/ ~ payload_ok data) /\
        List.find (permits (clock s) peer) (permissions x) = None)) \/
     (exists p tid ind, (List.find (channelFor (clock s) peer) (channels x) = None \/ ~ payload_ok data) /\
        List.find (permits (clock s) peer) (permissions x) = Some p /\ reach = true /\ tid_ok tid /\
        encode (indicationBody tid peer data) None None software = Some ind /\ act = ActInd ind)))).
  { destruct Hact as [(c & Ec & Hp & Hr & ->)|(-> & Hno)].
    { wp_step. split; [by eapply calm_refl|]. split; [done|]. left. by exists c. }
    destruct (List.find (permits (clock s) peer) (permissions x)) as [p|] eqn:Ep.
    - wp_step. eapply wp_mono; [by apply wp_dataIndication|].
      intros ind s2 (Hc & Ho & tid & Ht & Hi). wp_step. split; [done|]. split; [done|].
      destruct reach eqn:Er.
      + right; right. exists p, tid, ind. split; [|done]. destruct Hno as [?|[?|?]]; [by left|by right|done].
      + right; left. done.
    - wp_step. split; [by eapply calm_refl|]. split; [done|]. right; left. split; [done|].
      intros Hr. split; [|done]. destruct Hno as [?|[?|?]]; [by left|by right|congruence]. }
  clear act Hact. intros act s1 (Hc & Ho & Hact). pose proof (calm_srv E s s1 Hs Hc) as Hs1.
  pose proof (conn_live_calm s s1 dst Hc Hdst) as Hdst1.
  destruct Hact as [(c & Ec & Hp & Hr & ->)|[(-> & Hno)|(p & tid & ind & Hnc & Ep & Hr & Ht & Hi & ->)]].
  - destruct dst as [d|].
    + eapply wp_mono; [by apply wp_sendTcpRaw|]. intros [] s2 H2.
      split; [by eapply calm_trans|]. split.
      * intros Ei. by destruct (Hreach Ei) as (_ & _ & ?).
      * intros Hch. apply Hex in Hch. congruence.
    + wp_step. split; [eapply calm_trans; [done|by apply (calm_emit E)]|]. split.
      * intros Ei. eexists. split; [by rewrite <- Ho|]. by eapply del_channel.
      * intros Hch. apply Hex in Hch. congruence.
  - wp_step. split; [done|]. split; [|done]. intros Ei. exists []. rewrite app_nil_r. split; [done|].
    destruct (Hreach Ei) as (_ & Hr & _). destruct (Hno Hr). by apply del_none.
  - destruct dst as [d|].
    + eapply wp_mono; [by apply wp_sendTcp|]. intros [] s2 H2.
      split; [by eapply calm_trans|]. split.
      * intros Ei. by destruct (Hreach Ei) as (_ & _ & ?).
      * intros _ Hpm. apply Hex in Hpm. congruence.
    + wp_step. split; [eapply calm_trans; [done|by apply (calm_emit E)]|]. split.
      * intros Ei. eexists. split; [by rewrite <- Ho|]. by eapply del_indication.
      * intros _ Hpm. apply Hex in Hpm. congruence.
Qed.

(** ** Client to peer *)

(** A Send indication in full: the one datagram it may cause. *)
Definition sendIndicationOutput (now : Z) (x : Allocation) (req : Message) : list Output :=
  match readXorAddress req AttrType.XorPeerAddress (transactionID req), find req AttrType.Data with
  | Some (Some peer), Some d =>
      if existsb (permits now peer) (permissions x) && (transport x =? SOCK_DGRAM) &&
         negb (relaySock x =? STICE_INVALID_SOCKET)
      then [ORelay (relaySock x) peer (value d)] else []
  | _, _ => []
  end.

Lemma add_outs_nil s : add_outs [] s = s.
Proof. destruct s. unfold add_outs. cbn. by rewrite app_nil_r. Qed.

Lemma wp_handleSendIndication s req a x :
  req_ok req -> heap (tabs s) !! a = Some x ->
  wp (handleSendIndication req a) (fun _ s' =>
    s' = add_outs (sendIndicationOutput (clock s) x req) s) s.
Proof.
  intros (Ht & Ha & _) Ea. unfold handleSendIndication, sendIndicationOutput.
  destruct (readXorAddress_safe req AttrType.XorPeerAddress (transactionID req) Ha Ht) as (o & Ho & _).
  rewrite Ho. wp_step. eapply wp_lift; [done|].
  destruct o as [peer|]; [|wp_step; by rewrite add_outs_nil].
  destruct (find req AttrType.Data) as [d|]; [|wp_step; by rewrite add_outs_nil].
  wp_step. eapply wp_alloc_get; [done|]. wp_step. wp_step.
  destruct (existsb _ _); cbn [andb]; [|wp_step; by rewrite add_outs_nil].
  unfold relayOut. destruct (_ && _); wp_step; [done|by rewrite add_outs_nil].
Qed.

(** What a ChannelData frame from the client of allocation [x] may cause. *)
Inductive channelEffect (s : Srv) (x : Allocation) (data : bytes) (s' : Srv) : Prop :=
| ce_nothing : s' = s -> channelEffect s x data s'
| ce_relay u c payload :
    unwrapChannelData data 0 0 = Some u -> c ∈ channels x -> ch_number c = un_channel u ->
    peek data 4 (un_ret u) = Some payload ->
    s' = add_outs [ORelay (relaySock x) (ch_peer c) payload] s -> channelEffect s x data s'
| ce_local u c payload d y :
    unwrapChannelData data 0 0 = Some u -> c ∈ channels x -> ch_number c = un_channel u ->
    peek data 4 (un_ret u) = Some payload ->
    heap (tabs s) !! d = Some y -> addrRecordEq (ch_peer c) (relayedAddr y) = true ->
    controlSock y = STICE_INVALID_SOCKET ->
    (exists l, outs s' = outs s ++ l /\ delivered (clock s) y (relayedAddr x) payload l) ->
    channelEffect s x data s'.

Lemma wp_handleChannelDataFrame s data a x :
  srv_ok E s -> heap (tabs s) !! a = Some x -> bytes_ok data -> sized data ->
  wp (handleChannelDataFrame E data a) (fun _ s' =>
    srv_ok E s' /\ tabs s' = tabs s /\ clock s' = clock s /\ live_le (cns s) (cns s') /\
    queues s' = queues s /\ channelEffect s x data s') s.
Proof.
  intros Hs Ea Hb Hd. unfold handleChannelDataFrame.
  assert (Hskip : wp skip (fun _ s' =>
    srv_ok E s' /\ tabs s' = tabs s /\ clock s' = clock s /\ live_le (cns s) (cns s') /\
    queues s' = queues s /\ channelEffect s x data s') s).
  { wp_step. repeat (split; [done|]). by apply ce_nothing. }
  destruct (unwrapChannelData_total data 0 0 Hb) as (u & Hu & Hu').
  wp_step. eapply wp_lift; [done|]. destruct (Nat.eqb_spec (un_ret u) 0) as [|Hn]; [done|].
  destruct (Hu' Hn) as (Hdata & Hlen & _). wp_step. eapply wp_alloc_get; [done|].
  destruct (List.find (fun c => ch_number c =? un_channel u) (channels x)) as [c|] eqn:Ec; [|done].
  apply find_some in Ec as [Hin Hnum]. apply Z.eqb_eq in Hnum. apply list_elem_of_In in Hin.
  destruct (_ && _); cbn [negb]; [|done].
  wp_step. eapply wp_lift; [done|]. wp_step. eapply wp_lift; [apply peek_inb; lia|].
  set (payload := take (un_ret u) (drop 4 data)).
  assert (Hpay : peek data 4 (un_ret u) = Some payload) by (apply peek_inb; lia).
  wp_step. eapply (wp_mono _ (fun o s' => s' = s /\
    match o with Some d => alookup (ch_peer c) (allocByRelayAddr_ (tabs s)) = Some d | None => True end)).
  { destruct (localRelayShortcut E); [|by wp_step]. unfold findAllocByRelayAddrRef. wp_step. wp_step.
    eapply wp_mono; [by apply wp_refAlloc, relayAddr_live|]. intros o s' [-> ->].
    split; [done|]. by destruct (alookup _ _). }
  intros dst s1 [-> Hdst]. wp_step.
  eapply (wp_mono _ (fun o s' => s' = s /\
    match o with
    | Some d => exists y, heap (tabs s) !! d = Some y /\ addrRecordEq (ch_peer c) (relayedAddr y) = true /\
                  controlSock y = STICE_INVALID_SOCKET
    | None => True end)).
  { destruct dst as [d|]; [|by wp_step].
    apply alookup_elem in Hdst as (k & Hk & Hkeq).
    destruct (ok_raddr _ _ (so_tabs _ _ Hs) k d Hk) as (y & Ey & Hy).
    wp_step. eapply wp_alloc_get; [done|]. wp_step. split; [done|].
    destruct (negb (d =? a)%nat), (transport y =? SOCK_DGRAM); cbn [andb]; try done.
    destruct (Z.eqb_spec (controlSock y) STICE_INVALID_SOCKET); cbn [andb]; [|done].
    destruct (negb _); [|done]. exists y. split; [done|]. split; [|done].
    eapply addrRecordEq_trans; [by apply addrRecordEq_sym|done]. }
  intros loc s1 [-> Hloc]. destruct loc as [d|].
  - destruct Hloc as (y & Ey & Heq & Hcs).
    assert (Hsp : sized payload).
    { unfold sized, payload in *. rewrite length_take, length_drop. lia. }
    eapply wp_mono; [by apply (wp_forwardToClient s d y)|].
    intros [] s2 (Hc & Hdel & _). split; [by eapply calm_srv|]. split; [apply Hc|]. split; [apply Hc|].
    split; [apply Hc|]. split; [apply quiet_queues, Hc|]. by eapply (ce_local s x data s2 u c payload d y); auto.
  - wp_step. destruct Hs as [H1 H2 H3 H4]. split; [by constructor|]. split; [done|]. split; [done|].
    split; [done|]. split; [done|]. by eapply (ce_relay s x data _ u c payload).
Qed.

End Relay.
