(* ===== verification/TurnDispatch.v ===== *)
(** * RFC 6062, dispatch and the events of the server

    The remaining handlers, the dispatcher, and the events of [TurnServer], each shown to
    return from a good state and to leave a good state. *)

From stdpp Require Import sorting.
From S2P Require Import Prelude.
From S2P Require Import StateMonad.
From S2P Require Import Bytes.
From S2P Require Import Crypto.
From S2P Require Import Addr.
From S2P Require Import StunMessage.
From S2P Require Import StunAttributes.
From S2P Require Import ChannelData.
From S2P Require Import StunConn.
From S2P Require Import TcpWriter.
From S2P Require Import TurnState.
From S2P Require Import TurnCore.
From S2P Require Import TurnHandlers.
From S2P Require Import TurnServer.
From S2P Require Import TurnInv.
From S2P Require Import TurnGrants.
From S2P Require Import TurnSafe.
From S2P Require Import TurnRequests.
From S2P Require Import TurnLinks.
From S2P Require Import TurnSteps.
From S2P Require Import TurnRelay.
Open Scope Z_scope.

Section Dispatch.
Context (E : Env) (HE : env_ok E) (W : World).

Ltac link_same :=
  let H := fresh in let i := fresh "i" in let y := fresh "y" in let Ey := fresh in
  intros H; eapply link_mono; [exact H|done|done|done|done|];
  intros i y Ey; exists y; split; [exact Ey|done].

(** ** Pending connects *)

Lemma alloc_ok_pending x l :
  alloc_ok x ->
  (Forall (fun p => tid_ok (pc_connectTid p)) (pendingConnects x) ->
   Forall (fun p => tid_ok (pc_connectTid p)) l) -> alloc_ok (al_pending l x).
Proof. intros (H1 & H2 & H3 & H4) Hl. split; [done|]. split; [done|]. split; [auto|done]. Qed.

Lemma tabs_ok_pendingMap t m :
  tabs_ok E t ->
  (forall c i, m !! c = Some i -> exists x, heap t !! i = Some x /\ c ∈ pendingIds x) ->
  tabs_ok E (set_pendingMap m t).
Proof.
  intros [H1 H2 H3 H4 H5 H6 H7 H8 H9 H10 H11 H12 H13] Hm. by constructor.
Qed.

Lemma good_pendingMap s m :
  srv_ok E s ->
  (forall c i, m !! c = Some i -> exists x, heap (tabs s) !! i = Some x /\ c ∈ pendingIds x) ->
  good E W s (set_tabs (set_pendingMap m) s).
Proof.
  intros Hs Hm. constructor; [|done|done|by apply quiet_eq|link_same].
  eapply srv_ok_eq; [done|done|done| |apply (so_range _ _ Hs)]. apply tabs_ok_pendingMap; [apply Hs|done].
Qed.

Lemma entries_elem m k i : (k, i) ∈ entries m -> m !! k = Some i.
Proof. unfold entries. rewrite merge_sort_Permutation. apply elem_of_map_to_list. Qed.

Lemma wp_findTcpLoop s peer ex l :
  Forall (fun kv => is_Some (heap (tabs s) !! kv.2)) l ->
  wp (findTcpLoop peer ex l) (fun o s' => s' = s /\ alloc_live s o) s.
Proof.
  induction 1 as [|[k a] l [x Ex] _ IH]; cbn [findTcpLoop]; [by wp_step|].
  destruct (_ =? _)%nat; [done|]. wp_step. eapply wp_alloc_get; [done|].
  destruct (negb _); [done|]. destruct (addrRecordEq _ _); [|done]. wp_step. split; [done|by exists x].
Qed.

Lemma wp_findTcpAllocByPeer s peer ex :
  srv_ok E s -> wp (findTcpAllocByPeer peer ex) (fun o s' => s' = s /\ alloc_live s o) s.
Proof.
  intros Hs. unfold findTcpAllocByPeer. wp_step. wp_step. apply wp_findTcpLoop.
  apply Forall_forall. intros [k i] Hin%entries_elem.
  destruct (ok_own _ _ (so_tabs _ _ Hs) k i Hin) as (x & Ex & _). by exists x.
Qed.

(** ** CONNECT *)

Lemma wp_sendConnectionAttempt s target id peer :
  srv_ok E s -> is_Some (heap (tabs s) !! target) ->
  wp (sendConnectionAttempt E target id peer) (fun _ s' => calm s s') s.
Proof.
  intros Hs [y Ey]. unfold sendConnectionAttempt. wp_step. eapply wp_mono; [by apply wp_drawTid|].
  intros m s1 (Hc & _ & tid & Ht & ->). pose proof (calm_srv E s s1 Hs Hc) as Hs1. wp_step.
  apply wp_encode.
  { apply body_add; [|done]. apply body_xor. split; [apply Ht|constructor]. }
  intros ind. wp_step. eapply wp_alloc_get; [by rewrite (calm_tabs _ _ Hc)|].
  wp_step. eapply wp_mono; [by eapply wp_tcpConnRef|]. intros o s2 [-> Ho].
  destruct o as [d|]; [|by wp_step]. eapply wp_mono; [by apply wp_sendTcp|].
  intros [] s3 H3. by eapply calm_trans.
Qed.

Lemma wp_handleConnect s req c a x :
  srv_ok E s -> conn_live s (Some c) -> req_ok req -> heap (tabs s) !! a = Some x ->
  wp (handleConnect E req c a) (fun _ s' => good E W s s') s.
Proof.
  intros Hs Hc (Ht & Ha & _) Ea.
  assert (Herr : forall dst code,
    wp (sendErrorResponse E (Some c) dst req code) (fun _ s' => good E W s s') s).
  { intros dst code. eapply wp_mono; [by apply wp_sendErrorResponse|]. intros [] s'. by apply good_calm. }
  unfold handleConnect. destruct Hc as [y Ey]. wp_step. eapply wp_conn_get; [done|].
  destruct (readXorAddress_safe req AttrType.XorPeerAddress (transactionID req) Ha Ht) as (o & Ho & _).
  wp_step. eapply wp_lift; [done|]. destruct o as [peer|]; [|apply Herr].
  wp_step. eapply wp_mono; [by apply wp_findTcpAllocByPeer|]. intros o s1 [-> Hlive].
  destruct o as [target|]; [|apply Herr].
  set (id := nextConnId_ (tabs s)).
  set (pc := mkPending id peer STICE_INVALID_SOCKET (transactionID req) false
               (clock s + PendingConnectLifetimeMs)).
  set (z := al_pending (pendingConnects x ++ [pc]) x).
  set (s1 := set_tabs (set_nextConnId (u32 (id + 1))) s).
  assert (H1 : good E W s s1).
  { constructor; [|done|done|by apply quiet_eq|link_same].
    eapply srv_ok_eq; [done|done|done| |apply (so_range _ _ Hs)].
    by destruct (so_tabs _ _ Hs) as [K1 K2 K3 K4 K5 K6 K7 K8 K9 K10 K11 K12 K13]. }
  set (s2 := set_tabs (fun t => set_heap (<[a := z]> (heap t)) t) s1).
  assert (H2 : good E W s1 s2).
  { apply (srv_ok_put E W s1 a x z); [apply H1|done|done| |].
    - apply alloc_ok_pending; [by apply (ok_contents _ _ (so_tabs _ _ Hs) a)|]. intros Hpc.
      apply Forall_app. split; [done|]. by constructor.
    - intros k Hk. destruct (ok_pending _ _ (so_tabs _ _ Hs) k a Hk) as (w & Ew & Hw).
      simplify_eq. unfold pendingIds, z in *. cbn. rewrite fmap_app, elem_of_app. by left. }
  set (s3 := set_tabs (fun t => set_pendingMap (<[id := a]> (pendingByConnId_ t)) t) s2).
  assert (H3 : good E W s2 s3).
  { apply (good_pendingMap s2); [apply H2|]. intros k i [[<- <-]|[_ Hk]]%lookup_insert_Some.
    - exists z. cbn. rewrite lookup_insert_eq. split; [done|]. unfold pendingIds, z. cbn.
      rewrite fmap_app, elem_of_app. right. cbn. by apply list_elem_of_singleton.
    - by apply (ok_pending _ _ (so_tabs _ _ (gd_ok _ _ _ _ H2))). }
  wp_step. wp_step. wp_step. wp_step. wp_step. wp_step.
  wp_step. eapply wp_alloc_get; [done|]. wp_step. wp_step. wp_step. wp_step.
  change (wp (sendConnectionAttempt E target id (relayedAddr x)) (fun _ s' => good E W s s') s3).
  eapply wp_mono; [apply wp_sendConnectionAttempt; [apply H3|]|].
  - cbn. destruct (decide (a = target)) as [->|Hne]; [by rewrite lookup_insert_eq|].
    by rewrite lookup_insert_ne.
  - intros [] s4 Hcalm. eapply good_trans; [done|]. eapply good_trans; [done|].
    eapply good_trans; [done|]. apply good_calm; [apply H3|done].
Qed.

(** ** CONNECTION-BIND *)

(** A connection reachable through its socket: it is in the heap and not about to be
    freed. *)
Definition conn_linked (s : Srv) (tc : option nat) : Prop :=
  match tc with Some c => exists sk, tcpBySock_ (cns s) !! sk = Some c | None => True end.

Lemma linked_live s tc : srv_ok E s -> conn_linked s tc -> conn_live s tc.
Proof.
  intros Hs. destruct tc as [c|]; [|done]. intros [sk Hsk].
  destruct (co_sock _ (so_conns _ _ Hs) sk c Hsk) as (x & Ex & _). by exists x.
Qed.

Lemma linked_le s s' tc : live_le (cns s) (cns s') -> conn_linked s tc -> conn_linked s' tc.
Proof. intros H. destruct tc as [c|]; [|done]. intros [sk Hsk]. exists sk. by rewrite (ll_sock _ _ H). Qed.

Lemma wp_tcpConnRef_linked s sk :
  srv_ok E s -> wp (tcpConnRef sk) (fun o s' => s' = s /\ conn_linked s o /\
    forall c, o = Some c -> tcpBySock_ (cns s) !! sk = Some c) s.
Proof.
  intros Hs. unfold tcpConnRef. wp_step. wp_step.
  destruct (tcpBySock_ (cns s) !! sk) as [c|] eqn:Ec; [|by wp_step].
  destruct (co_sock _ (so_conns _ _ Hs) sk c Ec) as (x & Ex & _).
  wp_step. eapply wp_conn_get; [done|]. wp_step. split; [done|]. destruct (dying x); [done|].
  split; [by exists sk|congruence].
Qed.

Lemma wp_flushPrePair s c :
  srv_ok E s -> conn_live s (Some c) -> wp (flushPrePair E c) (fun _ s' => calm s s') s.
Proof.
  intros Hs [x Ex]. unfold flushPrePair. wp_step. eapply wp_conn_get; [done|].
  destruct (_ =? _)%nat; [wp_step; by eapply calm_refl|].
  wp_step. eapply wp_mono; [by eapply wp_dataPipePeerRef|]. intros o s1 [-> Ho].
  destruct o as [p|]; [|wp_step; by eapply calm_refl].
  wp_step. eapply wp_mono; [by apply wp_sendTcpRaw|]. intros [] s1 H1.
  pose proof (calm_srv E s s1 Hs H1) as Hs1.
  destruct (ll_live _ _ _ (calm_live _ _ H1) (ex_intro _ x Ex)) as [x1 Ex1].
  wp_step. eapply wp_conn_get; [done|]. wp_step. eapply calm_trans; [done|].
  destruct (co_state _ (so_conns _ _ Hs1) c x1 Ex1).
  by apply (calm_conn_put E s1 c x1).
Qed.

(** The pair is published between connections that are both linked. *)
Lemma calm_publish s s1 s2 c1 c2 :
  srv_ok E s -> conn_linked s (Some c1) -> conn_linked s (Some c2) ->
  calm s (set_cns (publishPipe s1 s2 c1 c2) s).
Proof.
  intros Hs H1 H2. pose proof (linked_live s (Some c1) Hs H1) as L1.
  pose proof (linked_live s (Some c2) Hs H2) as L2. destruct Hs as [Ht Hc Hn Hr].
  constructor; [done|done| | |done|by apply quiet_eq].
  { constructor; [|done|done]. intros i x Ex. by exists x. }
  constructor; cbn [conns nextConn tcpConns_ tcpBySock_ dataPipe_ dataPipePeer_ pendingFreeConns_
                    publishPipe set_cns cns].
  - apply (co_sock _ Hc).
  - intros sk i [[<- <-]|[_ [[<- <-]|[_ Hi]]%lookup_insert_Some]]%lookup_insert_Some; [done|done|].
    by apply (co_peer _ Hc sk).
  - intros i Hi. destruct (co_free _ Hc i Hi) as (F1 & F2 & F3). split; [done|]. split; [done|].
    destruct H1 as [k1 K1], H2 as [k2 K2].
    intros sk [[_ ->]|[_ [[_ ->]|[_ Hp]]%lookup_insert_Some]]%lookup_insert_Some.
    + by apply (F2 k1).
    + by apply (F2 k2).
    + by apply (F3 sk).
  - apply (co_fresh _ Hc).
  - apply (co_state _ Hc).
Qed.

Lemma wp_findPendingByConnId s id :
  srv_ok E s ->
  wp (findPendingByConnId id) (fun o s' => s' = s /\
    match o with
    | Some (a, i) => exists y pc, heap (tabs s) !! a = Some y /\ pendingConnects y !! i = Some pc
    | None => True end) s.
Proof.
  intros Hs. unfold findPendingByConnId. wp_step. wp_step.
  destruct (pendingByConnId_ (tabs s) !! id) as [a|] eqn:Ea; [|by wp_step].
  destruct (ok_pending _ _ (so_tabs _ _ Hs) id a Ea) as (y & Ey & _).
  wp_step. eapply wp_alloc_get; [done|]. wp_step. split; [done|].
  destruct (list_find _ _) as [[i pc]|] eqn:Ef; [|done].
  apply list_find_Some in Ef as (Hi & _). by exists y, pc.
Qed.

Lemma pendingIds_alter f i (l : list PendingConnect) :
  (forall p, pc_connId (f p) = pc_connId p) -> pc_connId <$> alter f i l = pc_connId <$> l.
Proof.
  intros Hf. apply list_eq. intros j. rewrite !list_lookup_fmap.
  destruct (decide (i = j)) as [->|Hne].
  - rewrite list_lookup_alter_eq. destruct (l !! j); [|done]. cbn. by rewrite Hf.
  - by rewrite list_lookup_alter_ne.
Qed.

Lemma pendingTids_alter f i (l : list PendingConnect) :
  (forall p, pc_connectTid (f p) = pc_connectTid p) ->
  Forall (fun p => tid_ok (pc_connectTid p)) l -> Forall (fun p => tid_ok (pc_connectTid p)) (alter f i l).
Proof.
  intros Hf Hl. apply Forall_lookup. intros j q Hq. destruct (decide (i = j)) as [->|Hne].
  - rewrite list_lookup_alter_eq in Hq. destruct (l !! j) as [p|] eqn:Ep; [|done].
    cbn in Hq. injection Hq as <-. rewrite Hf. exact (Forall_lookup_1 _ _ _ _ Hl Ep).
  - rewrite list_lookup_alter_ne in Hq by done. exact (Forall_lookup_1 _ _ _ _ Hl Hq).
Qed.

(** Rewriting one pending connect in place. *)
Lemma good_pc s a y f i :
  srv_ok E s -> heap (tabs s) !! a = Some y ->
  (forall p, pc_connId (f p) = pc_connId p) -> (forall p, pc_connectTid (f p) = pc_connectTid p) ->
  good E W s (set_tabs (fun t => set_heap (<[a := al_pending (alter f i (pendingConnects y)) y]> (heap t)) t) s).
Proof.
  intros Hs Ey F1 F2. apply (srv_ok_put E W s a y); [done|done|done| |].
  - apply alloc_ok_pending; [by apply (ok_contents _ _ (so_tabs _ _ Hs) a)|].
    by apply pendingTids_alter.
  - intros k Hk. destruct (ok_pending _ _ (so_tabs _ _ Hs) k a Hk) as (w & Ew & Hw).
    simplify_eq. unfold pendingIds in *. cbn. by rewrite pendingIds_alter.
Qed.

Lemma good_calm_trans s s1 s2 : good E W s s1 -> calm s1 s2 -> good E W s s2.
Proof. intros H1 H2. eapply good_trans; [done|]. apply good_calm; [apply H1|done]. Qed.

Lemma readConnectionId_total req :
  Forall attr_ok (attributes req) -> exists o, readConnectionId req = Some o.
Proof.
  intros Ha. destruct (readSized_safe req AttrType.ConnectionId (fun n => 4 <=? n)%nat
    (fun v => readU32Be v 0) (fits 32) Ha) as (o & Ho & _); [|by exists o].
  intros b _ Hn. apply readU32Be_inb. apply Nat.leb_le in Hn. lia.
Qed.

Lemma wp_connResponse s c id user tid (Q : unit -> Srv -> Prop) :
  srv_ok E s -> conn_live s (Some c) -> tid_ok tid -> sizedStr user ->
  (forall s', calm s s' -> Q tt s') ->
  wp (resp ← sendSuccessResponse E (stubRequest id tid) user resp0; sendTcp E c resp) Q s.
Proof.
  intros Hs Hc Ht Hu HQ. wp_step. apply wp_sendSuccessResponse; [done|done|done|done|constructor|].
  intros r. eapply wp_mono; [by apply wp_sendTcp|]. intros []. apply HQ.
Qed.

(** The first CONNECTION-BIND releases the CONNECT response that was held back. *)
Lemma wp_releaseConnect s a y pc i id :
  srv_ok E s -> heap (tabs s) !! a = Some y -> tid_ok (pc_connectTid pc) ->
  wp (if pc_connectResponded pc then skip else
        connectResp ← sendSuccessResponse E (stubRequest Method.Connect (pc_connectTid pc))
                        (username y) (addConnectionId resp0 id);
        dst ← tcpConnRef (controlSock y);
        (match dst with Some d => sendTcp E d connectResp | None => skip end);;
        alloc_modify a (fun y => al_pending (alter pc_responded i (pendingConnects y)) y))
    (fun _ s' => good E W s s') s.
Proof.
  intros Hs Ey Ht. destruct (pc_connectResponded pc); [wp_step; by apply good_refl|].
  destruct (ok_contents _ _ (so_tabs _ _ Hs) a y Ey) as (Hu & _).
  wp_step. apply wp_sendSuccessResponse; [done|done|done|done|by constructor|].
  intros resp. wp_step. eapply wp_mono; [by eapply wp_tcpConnRef|]. intros o s1 [-> Ho].
  wp_step. eapply (wp_mono _ (fun _ s' => calm s s')).
  { destruct o as [d|]; [by apply wp_sendTcp|]. wp_step. by eapply calm_refl. }
  intros [] s1 H1. unfold alloc_modify. wp_step.
  assert (Ey1 : heap (tabs s1) !! a = Some y) by (by rewrite (calm_tabs _ _ H1)).
  eapply wp_alloc_get; [exact Ey1|]. wp_step.
  eapply good_trans; [by apply good_calm|]. apply good_pc; [by eapply calm_srv|done|done|done].
Qed.

Lemma wp_handleConnectionBind s req tc :
  srv_ok E s -> conn_linked s tc -> req_ok req ->
  wp (handleConnectionBind E req tc) (fun _ s' => good E W s s' /\
    ((exists u, authentic E s req u) \/ calm s s')) s.
Proof.
  intros Hs Hl Hm. unfold handleConnectionBind.
  destruct tc as [c|]; [|wp_step; split; [by apply good_refl|right; by eapply calm_refl]].
  pose proof (linked_live s (Some c) Hs Hl) as Hlive. destruct (Hlive) as [x0 Ex0].
  pose proof Hm as (Ht & Ha & _).
  wp_step. eapply wp_conn_get; [done|].
  wp_step. eapply wp_mono; [by apply wp_authenticate|].
  intros [code u] s1 (Hcalm & Hcn & [(H0 & -> & Hau)|(H0 & Hnau)]); cbn [fst snd] in *.
  2:{ replace (negb (code =? 0)) with true by (symmetry; apply negb_true_iff, Z.eqb_neq; lia).
      pose proof (calm_srv E s s1 Hs Hcalm) as Hs1.
      eapply wp_mono; [apply wp_sendAuthErrorResponse; [done|done|by eapply conn_live_calm|done]|].
      intros [] s2 H2. pose proof (calm_trans _ _ _ Hcalm H2) as H3.
      split; [by apply good_calm|by right]. }
  subst code. cbn [Z.eqb negb].
  apply (wp_mono _ (fun _ s' => good E W s s')); [|intros [] s' H; split; [done|left; by exists u]].
  assert (Hu : sizedStr u) by (destruct Hau as (_ & _ & _ & -> & _); by apply getStr_sized).
  assert (Herr : forall dst code,
    wp (sendErrorResponse E (Some c) dst req code) (fun _ s' => good E W s s') s).
  { intros dst code. eapply wp_mono; [by apply wp_sendErrorResponse|]. intros [] s'. by apply good_calm. }
  destruct (readConnectionId_total req Ha) as [o Ho]. wp_step. eapply wp_lift; [done|].
  destruct o as [id|]; [|apply Herr].
  wp_step. eapply wp_mono; [by apply wp_findPendingByConnId|]. intros o s1 [-> Hfound].
  destruct o as [[a i]|]; [|apply Herr]. destruct Hfound as (y & pc & Ey & Hpc).
  destruct (ok_contents _ _ (so_tabs _ _ Hs) a y Ey) as (_ & _ & Htids & _).
  pose proof (Forall_lookup_1 _ _ _ _ Htids Hpc) as Htid. cbn beta in Htid.
  destruct (co_state _ (so_conns _ _ Hs) c x0 Ex0) as [Hw Hst].
  wp_step. eapply wp_alloc_get; [done|]. wp_step. eapply wp_lift; [done|].
  destruct (pc_firstDataSock pc =? STICE_INVALID_SOCKET).
  - wp_step. wp_step. wp_step. wp_step.
    pose proof (good_pc s a y (pc_first (tc_sock x0)) i Hs Ey ltac:(done) ltac:(done)) as G1.
    set (s1 := set_tabs _ s) in *.
    pose proof (calm_conn_put E s1 c x0 (conn_bind x0 id) (gd_ok _ _ _ _ G1) Ex0 ltac:(done) Hw) as G2.
    set (s2 := set_cns _ s1) in *. pose proof (good_calm_trans s s1 s2 G1 G2) as G.
    wp_step. eapply wp_mono.
    { set (y1 := al_pending (alter (pc_first (tc_sock x0)) i (pendingConnects y)) y).
      apply (wp_releaseConnect s2 a y1 pc i id); [apply G| |done]. cbn. apply lookup_insert_eq. }
    intros [] s3 G3. pose proof (good_trans E W _ _ _ G G3) as G'.
    apply wp_connResponse; [apply G'|eapply conn_live_le; [apply G'|done]|done|done|].
    intros s4 Hc4. by eapply good_calm_trans.
  - wp_step. wp_step.
    pose proof (calm_conn_put E s c x0 (conn_bind x0 id) Hs Ex0 ltac:(done) Hw) as G1.
    set (s1 := set_cns _ s) in *. pose proof (calm_srv E s s1 Hs G1) as Hs1.
    wp_step. apply wp_sendSuccessResponse; [done|done|done|done|constructor|]. intros resp.
    wp_step. eapply wp_mono; [apply wp_sendTcp; [done|done|by eapply (conn_live_calm s s1 (Some c))]|].
    intros [] s2 H2. pose proof (calm_trans _ _ _ G1 H2) as G2. pose proof (calm_srv E s s2 Hs G2) as Hs2.
    wp_step. eapply wp_mono; [by apply wp_tcpConnRef_linked|]. intros o s3 (-> & Hlo & _).
    wp_step. eapply (wp_mono _ (fun _ s' => calm s2 s')).
    { destruct o as [p|]; [|wp_step; by eapply calm_refl].
      wp_step. wp_step.
      assert (Hlc : conn_linked s2 (Some c)) by (eapply linked_le; [apply G2|done]).
      pose proof (calm_publish s2 (tc_sock x0) (pc_firstDataSock pc) c p Hs2 Hlc Hlo) as P1.
      set (s3 := set_cns _ s2) in *. pose proof (calm_srv E s2 s3 Hs2 P1) as Hs3.
      wp_step. eapply wp_mono; [apply wp_flushPrePair; [done|]|].
      { apply (conn_live_calm s2 s3 (Some c) P1). by apply (linked_live s2). }
      intros [] s4 P2. pose proof (calm_trans _ _ _ P1 P2) as P.
      eapply wp_mono; [apply wp_flushPrePair; [by eapply calm_srv|]|].
      { apply (conn_live_calm s2 s4 (Some p) P). by apply (linked_live s2). }
      intros [] s5 P3. by eapply calm_trans. }
    intros [] s3 H3. pose proof (calm_trans _ _ _ G2 H3) as G3. pose proof (calm_srv E s s3 Hs G3) as Hs3.
    wp_step. wp_step.
    assert (G4 : good E W s3 (set_tabs (fun t => set_pendingMap (delete id (pendingByConnId_ t)) t) s3)).
    { apply (good_pendingMap s3); [done|]. intros k j [_ Hk]%lookup_delete_Some.
      by apply (ok_pending _ _ (so_tabs _ _ Hs3)). }
    set (s4 := set_tabs _ s3) in *. unfold alloc_modify. wp_step.
    assert (Ey4 : heap (tabs s4) !! a = Some y) by (cbn; by rewrite (calm_tabs _ _ G3)).
    eapply wp_alloc_get; [exact Ey4|]. wp_step.
    eapply good_trans; [by apply good_calm|]. eapply good_trans; [exact G4|].
    apply (srv_ok_put E W s4 a y); [apply G4|done|done| |].
    + apply alloc_ok_pending; [by apply (ok_contents _ _ (so_tabs _ _ Hs) a)|]. intros Hpc'.
      apply Forall_forall. intros q [_ Hq]%list_elem_of_filter.
      by eapply (Forall_forall _ (pendingConnects y)) in Hpc'.
    + intros k Hk. cbn in Hk. apply lookup_delete_Some in Hk as [Hne Hk].
      destruct (ok_pending _ _ (so_tabs _ _ Hs3) k a Hk) as (w & Ew & Hw').
      rewrite (calm_tabs _ _ G3) in Ew. simplify_eq. unfold pendingIds in *. cbn.
      apply list_elem_of_fmap in Hw' as (q & -> & Hq). apply list_elem_of_fmap. exists q.
      split; [done|]. apply list_elem_of_filter. split; [congruence|done].
Qed.

(** ** Dispatch *)

(** What every step guarantees. *)
Record fine (s s' : Srv) : Prop := {
  fi_ok : srv_ok E s';
  fi_clock : clock s' = clock s;
  fi_live : live_le (cns s) (cns s');
  fi_link : linked E W s -> linked E W s' }.

Lemma good_fine s s' : good E W s s' -> fine s s'.
Proof. intros [? ? ? ? ?]. by constructor. Qed.

Lemma fine_refl s : srv_ok E s -> fine s s.
Proof. intros H. by constructor. Qed.

Lemma fine_trans s1 s2 s3 : fine s1 s2 -> fine s2 s3 -> fine s1 s3.
Proof. intros [? ? ? ?] [? ? ? ?]. constructor; [done|congruence|by eapply live_le_trans|auto]. Qed.

(** An Allocate found an expired allocation and reaped it. *)
Definition reaped (s : Srv) (msg : Message) (alloc : option nat) (s' : Srv) : Prop :=
  cls msg = Request /\ method msg = Method.Allocate /\ exists a x, alloc = Some a /\ heap (tabs s) !! a = Some x /\ expiryMs x <= clock s /\
    tabs s' = destroyTabs E a x (tabs s).

(** The outcome of a dispatched message: a message without valid credentials changes no
    table, but for the removal of an expired allocation by an Allocate; only a Send indication sends to a
    peer. *)
Record dispatched (s : Srv) (msg : Message) (alloc : option nat) (s' : Srv) : Prop := {
  di_fine : fine s s';
  di_auth : (exists u, authentic E s msg u) \/ tabs s' = tabs s \/ reaped s msg alloc s';
  di_out : quiet s s' \/ exists a x, alloc = Some a /\ heap (tabs s) !! a = Some x /\
             s' = add_outs (sendIndicationOutput (clock s) x msg) s }.

Lemma dispatched_calm s msg alloc s' : srv_ok E s -> calm s s' -> dispatched s msg alloc s'.
Proof.
  intros Hs Hc. constructor; [by apply good_fine, good_calm|right; left; apply Hc|left; apply Hc].
Qed.

Lemma dispatched_refl s msg alloc : srv_ok E s -> dispatched s msg alloc s.
Proof. intros Hs. apply dispatched_calm; [done|by eapply calm_refl]. Qed.

Lemma dispatched_good s msg alloc s' u :
  authentic E s msg u -> good E W s s' -> dispatched s msg alloc s'.
Proof. intros Ha Hg. constructor; [by apply good_fine|left; by exists u|left; apply Hg]. Qed.

Section Message.
Context (s : Srv) (msg : Message) (src : AddrRecord) (tc : option nat) (alloc : option nat).
Context (Hs : srv_ok E s) (Hl : conn_linked s tc) (Hm : req_ok msg) (Ha : alloc_live s alloc).

Lemma wp_error code :
  wp (sendErrorResponse E tc src msg code) (fun _ s' => dispatched s msg alloc s') s.
Proof.
  pose proof (linked_live s tc Hs Hl) as Hlive.
  eapply wp_mono; [apply wp_sendErrorResponse; [done|done|done|apply Hm]|].
  intros [] s'. by apply dispatched_calm.
Qed.

Lemma wp_ignore : wp skip (fun _ s' => dispatched s msg alloc s') s.
Proof. wp_step. by apply dispatched_refl. Qed.

Lemma wp_authorised h :
  (forall u, authentic E s msg u -> wp h (fun _ s' => good E W s s') s) ->
  wp (withAuth E msg src tc h) (fun _ s' => dispatched s msg alloc s') s.
Proof.
  pose proof (linked_live s tc Hs Hl) as Hlive.
  intros Hh. apply wp_withAuth; [done|done|done|done| |].
  - intros u Hu. eapply wp_mono; [by apply (Hh u)|]. intros [] s'. by eapply dispatched_good.
  - intros s' _ Hc. by apply dispatched_calm.
Qed.

Lemma wp_onAlloc h :
  (forall a x, heap (tabs s) !! a = Some x -> wp (h a) (fun _ s' => good E W s s') s) ->
  wp (onAlloc E msg src tc alloc h) (fun _ s' => dispatched s msg alloc s') s.
Proof.
  intros Hh. unfold onAlloc. revert Ha.
  pose proof wp_error as He. pose proof wp_authorised as Hw. revert He Hw.
  destruct alloc as [a|]; intros He Hw Ha; [|apply He].
  destruct Ha as [x Ex]. apply Hw. intros _ _. by apply (Hh a x).
Qed.

Lemma wp_dispatchConnect :
  wp (dispatchConnect E msg src tc alloc) (fun _ s' => dispatched s msg alloc s') s.
Proof.
  unfold dispatchConnect. pose proof wp_error as He. pose proof wp_authorised as Hw.
  pose proof wp_ignore as Hi. pose proof (linked_live s tc Hs Hl) as Hlv. revert Ha Hl. revert He Hw Hi Hlv.
  destruct alloc as [a|], tc as [c|]; intros He Hw Hi Hlv Ha' Hl'; [|apply Hi|apply He|apply Hi].
  destruct Ha' as [x Ex]. wp_step. eapply wp_alloc_get; [done|]. destruct (negb _); [apply He|].
  apply Hw. intros _ _. by eapply wp_handleConnect.
Qed.

Lemma wp_send a :
  alloc = Some a ->
  wp (handleSendIndication msg a) (fun _ s' => dispatched s msg alloc s') s.
Proof.
  intros Ea. rewrite Ea in *. destruct Ha as [x Ex]. eapply wp_mono; [by apply wp_handleSendIndication|].
  intros [] s' ->. constructor.
  - constructor; [|done|done|done]. by destruct Hs.
  - by right; left.
  - right. by exists a, x.
Qed.

End Message.

Lemma authentic_tabs s s' msg u : tabs_only s s' -> authentic E s' msg u -> authentic E s msg u.
Proof.
  intros (_ & K & N & X & _) (H1 & H2 & H3 & H4). split; [done|]. split; [congruence|].
  split; [congruence|done].
Qed.

Lemma looked_up_destroyed s s' a x src tc :
  srv_ok E s -> linked E W s -> heap (tabs s) !! a = Some x -> looked_up E s src tc = Some a ->
  tabs s' = destroyTabs E a x (tabs s) -> cns s' = cns s -> conn_linked s tc ->
  looked_up E s' src tc = None.
Proof.
  intros Hs Hlk Ex Hlook T C Hc. destruct tc as [c|]; cbn [looked_up] in *; rewrite ?T, ?C.
  - destruct (conns (cns s) !! c) as [y|] eqn:Ey; [|done]. destruct Hc as [sk Hsk].
    destruct (co_sock _ (so_conns _ _ Hs) sk c Hsk) as (y' & Ey' & Hsock). simplify_eq.
    destruct (pe_tcp _ _ _ (lk_peers _ _ _ _ Hlk) _ c Hsk) as (y' & _ & Hne & _).
    destruct (ok_control _ _ (so_tabs _ _ Hs) _ a Hne Hlook) as (x' & Ex' & Hcs). simplify_eq.
    cbn. rewrite Hcs. rewrite (proj2 (Z.eqb_neq _ _) Hne). apply lookup_delete_eq.
  - destruct (ok_own _ _ (so_tabs _ _ Hs) _ a Hlook) as (x' & Ex' & Hk). simplify_eq.
    cbn. rewrite Hk. apply lookup_delete_eq.
Qed.

Lemma wp_dispatchAllocate s msg src tc :
  srv_ok E s -> linked E W s -> conn_linked s tc -> req_ok msg -> is_Some (normalize (addr src)) ->
  alloc_live s (looked_up E s src tc) ->
  (forall u, authentic E s msg u -> origin E W s (allocTransport msg) src tc) ->
  cls msg = Request -> method msg = Method.Allocate ->
  wp (dispatchAllocate E msg src tc (looked_up E s src tc))
    (fun _ s' => dispatched s msg (looked_up E s src tc) s') s.
Proof.
  intros Hs Hlk Hc Hm Hsrc Ha Ho Hcls Hmeth. pose proof (linked_live s tc Hs Hc) as Hlive.
  unfold dispatchAllocate. destruct (looked_up E s src tc) as [a|] eqn:El.
  2:{ apply wp_authorised; [done|done|done|]. intros u Hu.
      eapply wp_mono; [apply (wp_handleAllocate E HE W); eauto|]. by intros [] s' [Hg _]. }
  destruct Ha as [x Ex]. wp_step. eapply wp_alloc_get; [done|]. wp_step. wp_step.
  destruct (Z.leb_spec (expiryMs x) (clock s)) as [Hx|Hx]; [|by apply wp_error].
  wp_step. eapply wp_mono; [by apply wp_destroy_ok|]. intros [] s1 (Hs1 & T1 & F1).
  pose proof (good_destroy E W s s1 a x Hs Ex Hs1 T1 F1) as G1. pose proof F1 as (C1 & _).
  pose proof (looked_up_destroyed s s1 a x src tc Hs Hlk Ex El T1 C1 Hc) as El1.
  apply wp_withAuth; [done|done|by eapply conn_live_eq|done| |].
  - intros u Hu. eapply wp_mono; [apply (wp_handleAllocate E HE W s1)|].
    + done.
    + by apply G1.
    + by eapply conn_live_eq.
    + done.
    + done.
    + eapply origin_live; [by apply live_le_eq|]. apply (Ho u). by eapply authentic_tabs.
    + done.
    + intros [] s' [Hg _]. eapply dispatched_good; [by eapply authentic_tabs|]. by eapply good_trans.
  - intros s' _ Hcalm. pose proof (good_calm_trans s s1 s' G1 Hcalm) as G. constructor.
    + by apply good_fine.
    + right; right. split; [done|]. split; [done|]. exists a, x. by rewrite (calm_tabs _ _ Hcalm).
    + left. apply G.
Qed.

(** Every message the dispatcher is given. *)
Lemma wp_dispatchStun s msg src tc :
  srv_ok E s -> linked E W s -> conn_linked s tc -> req_ok msg -> is_Some (normalize (addr src)) ->
  alloc_live s (looked_up E s src tc) ->
  (cls msg = Request -> method msg = Method.Allocate ->
     forall u, authentic E s msg u -> origin E W s (allocTransport msg) src tc) ->
  wp (dispatchStun E msg src tc (looked_up E s src tc))
    (fun _ s' => dispatched s msg (looked_up E s src tc) s') s.
Proof.
  intros Hs Hlk Hc Hm Hsrc Ha Ho. pose proof (linked_live s tc Hs Hc) as Hlive.
  pose proof (wp_ignore s msg (looked_up E s src tc) Hs) as Hskip.
  unfold dispatchStun. cbv zeta. case_bool_decide as Hr; cbn [negb andb].
  2:{ case_bool_decide; [|done]. repeat (destruct (_ =? _); [try done|]); [|done].
      destruct (looked_up E s src tc) as [a|] eqn:El; [|done]. by apply wp_send. }
  destruct (_ =? _).
  { eapply wp_mono; [apply wp_handleBinding; [done|done|done|apply Hm]|].
    intros [] s'. by apply dispatched_calm. }
  destruct (Z.eqb_spec (method msg) Method.Allocate); [by apply wp_dispatchAllocate; auto; apply Ho|].
  destruct (_ =? _).
  { apply wp_onAlloc; [done..|]. intros a x Ex.
    eapply wp_mono; [by eapply wp_handleRefresh|]. by intros [] s' [Hg _]. }
  destruct (_ =? _).
  { apply wp_onAlloc; [done..|]. intros a x Ex.
    eapply wp_mono; [by eapply wp_handleCreatePermission|]. by intros [] s' [Hg _]. }
  destruct (_ =? _).
  { apply wp_onAlloc; [done..|]. intros a x Ex.
    eapply wp_mono; [by eapply wp_handleChannelBind|]. by intros [] s' [Hg _]. }
  destruct (_ =? _).
  { destruct (looked_up E s src tc); [|done]. by case_bool_decide; [congruence|]. }
  destruct (_ =? _); [by apply wp_dispatchConnect|].
  destruct (_ =? _); [|by apply wp_error].
  eapply wp_mono; [by apply wp_handleConnectionBind|]. intros [] s' [Hg [[u Hu]|Hcalm]].
  - by eapply dispatched_good.
  - by apply dispatched_calm.
Qed.

End Dispatch.
