(* ===== verification/TurnEvents.v ===== *)
(** * Packets, connections and timers

    The entry points of the server: a datagram, a frame of a control connection, bytes of a
    TCP connection, opening and closing a connection, and the expiry tick.  Each is run from
    a state that satisfies the invariant. *)

From stdpp Require Import sorting.
From S2P Require Import Prelude.
From S2P Require Import StateMonad.
From S2P Require Import Bytes.
From S2P Require Import Crypto.
From S2P Require Import Addr.
From S2P Require Import StunMessage.
From S2P Require Import StunAttributes.
From S2P Require Import ChannelData.
From S2P Require Import StunConn.
From S2P Require Import TcpWriter.
From S2P Require Import TurnState.
From S2P Require Import TurnCore.
From S2P Require Import TurnHandlers.
From S2P Require Import TurnServer.
From S2P Require Import TurnInv.
From S2P Require Import TurnGrants.
From S2P Require Import TurnSafe.
From S2P Require Import TurnRequests.
From S2P Require Import TurnLinks.
From S2P Require Import TurnSteps.
From S2P Require Import TurnRelay.
From S2P Require Import TurnDispatch.
Open Scope Z_scope.

Definition packet_ok (data : bytes) : Prop := bytes_ok data /\ sized data.

(** A datagram to a peer is covered by a permission or a channel of the allocation whose
    relay socket it leaves from. *)
Definition justified (s : Srv) (o : Output) : Prop :=
  match o with
  | ORelay sk dst _ => exists a x, heap (tabs s) !! a = Some x /\ relaySock x = sk /\
      (existsb (permits (clock s) dst) (permissions x) = true \/
       exists c, c ∈ channels x /\ ch_peer c = dst)
  | _ => True
  end.

Definition all_justified (s s' : Srv) : Prop :=
  exists l, io s' = (outs s ++ l, queues s) /\ Forall (justified s) l.

Lemma justified_quiet s s' : quiet s s' -> all_justified s s'.
Proof.
  intros (l & H & Hl). exists l. split; [done|]. eapply Forall_impl; [exact Hl|].
  intros o Ho. by destruct o.
Qed.

Section Packets.
Context (E : Env) (HE : env_ok E) (W : World).

(** The outcome of one packet or frame from a client. *)
Record handled (s : Srv) (data : bytes) (alloc : option nat) (s' : Srv) : Prop := {
  ha_fine : fine E W s s';
  ha_auth : (exists m u, decode emptyMessage data = Some (true, m) /\ authentic E s m u) \/
            tabs s' = tabs s \/ (exists m, decode emptyMessage data = Some (true, m) /\ reaped E s m alloc s');
  ha_outs : all_justified s s' }.

Lemma handled_refl s data alloc : srv_ok E s -> handled s data alloc s.
Proof.
  intros H. constructor; [by apply fine_refl|by right; left|by apply justified_quiet].
Qed.

Lemma handled_calm s data alloc s' : srv_ok E s -> calm s s' -> handled s data alloc s'.
Proof.
  intros H Hc. constructor; [by apply good_fine, good_calm|right; left; apply Hc|].
  apply justified_quiet, Hc.
Qed.

Lemma sendIndication_justified s a x m :
  heap (tabs s) !! a = Some x ->
  all_justified s (add_outs (sendIndicationOutput (clock s) x m) s).
Proof.
  intros Ex. eexists. split; [done|]. unfold sendIndicationOutput.
  destruct (readXorAddress _ _ _) as [[peer|]|]; [|constructor..].
  destruct (find m _) as [d|]; [|constructor].
  destruct (existsb _ _) eqn:Ep; cbn [andb]; [|constructor]. destruct (_ && _); [|constructor].
  constructor; [|constructor]. exists a, x. split; [done|]. split; [done|]. by left.
Qed.

Lemma channel_handled s a x data alloc s' :
  heap (tabs s) !! a = Some x -> srv_ok E s' -> tabs s' = tabs s -> clock s' = clock s ->
  live_le (cns s) (cns s') -> queues s' = queues s -> channelEffect s x data s' -> handled s data alloc s'.
Proof.
  intros Ex Hs' T K L Q Hce. constructor; [constructor; [done|done|done|]|by right; left|].
  { intros Hlk. unfold linked. rewrite T. by eapply link_live. }
  destruct Hce as [->|u c p _ Hin _ _ ->|u c p d y _ Hin _ _ Ey _ _ (l & Hl & Hdel)].
  - by apply justified_quiet.
  - exists [ORelay (relaySock x) (ch_peer c) p]. split; [done|]. constructor; [|constructor].
    exists a, x. split; [done|]. split; [done|]. right. by exists c.
  - apply justified_quiet. exists l. unfold io. rewrite Hl, Q. split; [done|]. by destruct Hdel; repeat constructor.
Qed.

Lemma wp_channel_handled s a x data alloc :
  srv_ok E s -> heap (tabs s) !! a = Some x -> packet_ok data ->
  wp (handleChannelDataFrame E data a) (fun _ s' => handled s data alloc s') s.
Proof.
  intros Hs Ex [Hb Hd]. eapply wp_mono; [by apply wp_handleChannelDataFrame|].
  intros [] s' (H1 & H2 & H3 & H4 & H5 & H6). by eapply channel_handled.
Qed.

Lemma dispatched_handled s data m alloc s' :
  decode emptyMessage data = Some (true, m) -> dispatched E W s m alloc s' ->
  handled s data alloc s'.
Proof.
  intros Hd [H1 H2 H3]. constructor; [done| |].
  - destruct H2 as [[u Hu]|[H2|H2]]; [left; by exists m, u|by right; left|right; right; by exists m].
  - destruct H3 as [H3|(a & x & _ & Ex & ->)]; [by apply justified_quiet|].
    by eapply sendIndication_justified.
Qed.

(** The message is no Allocate request, or it asks for a UDP relay. *)
Definition udp_relay_only (data : bytes) : Prop :=
  forall m, decode emptyMessage data = Some (true, m) -> cls m = Request ->
    method m = Method.Allocate -> allocTransport m = SOCK_DGRAM.

(** The STUN part of both entry points. *)
Lemma wp_stun s data src tc (alloc : M (option nat)) :
  srv_ok E s -> linked E W s -> conn_linked s tc -> packet_ok data ->
  is_Some (normalize (addr src)) -> alloc_live s (looked_up E s src tc) ->
  (forall m u, decode emptyMessage data = Some (true, m) -> cls m = Request ->
     method m = Method.Allocate -> authentic E s m u -> origin E W s (allocTransport m) src tc) ->
  wp alloc (fun o s' => s' = s /\ o = looked_up E s src tc) s ->
  wp (im ← lift (isMessage data);
      if negb im then skip else
      r ← lift (decode emptyMessage data);
      if negb r.1 then skip else
      o ← alloc; dispatchStun E r.2 src tc o)
    (fun _ s' => handled s data (looked_up E s src tc) s') s.
Proof.
  intros Hs Hlk Hc [Hb Hd] Hsrc Ha Ho Halloc.
  destruct (isMessage_total data Hb) as (im & Him & _). wp_step. eapply wp_lift; [done|].
  destruct im; cbn [negb]; [|wp_step; by apply handled_refl].
  destruct (decode_total emptyMessage data Hb) as (b & m & Hdec & _). wp_step. eapply wp_lift; [done|].
  cbn [fst snd]. destruct b; cbn [negb]; [|wp_step; by apply handled_refl].
  wp_step. eapply wp_mono; [exact Halloc|]. intros o s' [-> ->].
  eapply wp_mono; [apply (wp_dispatchStun E HE W); auto|].
  - by eapply decode_req.
  - intros Hr Hal u Hu. by apply (Ho m u).
  - intros [] s'. by apply dispatched_handled.
Qed.

Lemma wp_handleUdpPacket s data src :
  srv_ok E s -> linked E W s -> packet_ok data -> is_Some (normalize (addr src)) ->
  is_udp W (printed E src) ->
  (forall m u, decode emptyMessage data = Some (true, m) -> cls m = Request ->
     method m = Method.Allocate -> authentic E s m u -> allocTransport m = SOCK_DGRAM) ->
  wp (handleUdpPacket E data src)
    (fun _ s' => handled s data (allocations_ (tabs s) !! allocKey E SOCK_DGRAM src) s') s.
Proof.
  intros Hs Hlk Hd Hsrc Hu Hro. pose proof (findAlloc_live E s (allocKey E SOCK_DGRAM src) Hs) as Ha.
  unfold handleUdpPacket, findAlloc. destruct (isChannelData_total data) as (cd & Hcd & _).
  wp_step. eapply wp_lift; [done|]. destruct cd.
  - wp_step. wp_step. destruct (allocations_ (tabs s) !! allocKey E SOCK_DGRAM src) as [a|];
      [|wp_step; by apply handled_refl].
    destruct Ha as [x Ex]. by eapply wp_channel_handled.
  - apply (wp_stun s data src None); [done..| |].
    + intros m u Hm Hr Hal Hau. split; [done|]. by apply (Hro m u).
    + by wp_step.
Qed.

(** ** An Allocate for a TCP relay over UDP

    Such a request may free an allocation that the tables still name, so that the state it
    leaves need not be consistent; but it sends nothing to a peer. *)

Lemma wp_register_quiet s key src viaTcp x :
  alloc_live s (allocations_ (tabs s) !! key) ->
  wp (registerAllocation key src viaTcp x) (fun _ s' => quiet s s') s.
Proof.
  intros Ha. unfold registerAllocation. wp_step. wp_step. wp_step. wp_step. wp_step. wp_step. wp_step.
  set (a := nextAlloc (tabs s)).
  eapply (wp_mono _ (fun _ s1 => quiet s s1 /\ allocations_ (tabs s1) = allocations_ (tabs s) /\
    heap (tabs s1) = <[a := x]> (heap (tabs s)))).
  { destruct (transport x =? SOCK_DGRAM); repeat wp_step; repeat (split; [|done]);
      [by eapply quiet_one|by apply quiet_eq]. }
  intros [] s1 (F1 & A1 & H1). wp_step.
  eapply (wp_mono _ (fun _ s2 => quiet s s2 /\ allocations_ (tabs s2) = allocations_ (tabs s) /\
    heap (tabs s2) = <[a := x]> (heap (tabs s)))).
  { by destruct (viaTcp && negb (controlSock x =? STICE_INVALID_SOCKET)); wp_step. }
  intros [] s2 (F2 & A2 & H2). wp_step. unfold eraseAllocation. wp_step. unfold findAlloc. wp_step.
  rewrite A2. eapply (wp_mono _ (fun _ s3 => quiet s s3)).
  2:{ intros [] s3 F3. wp_step. wp_step. by wp_step. }
  destruct (allocations_ (tabs s) !! key) as [i|]; [|by wp_step].
  assert (Hi : is_Some (heap (tabs s2) !! i)).
  { rewrite H2. destruct (decide (a = i)) as [<-|]; [rewrite lookup_insert_eq; by eexists|].
    by rewrite lookup_insert_ne. }
  destruct Hi as [y Ey]. wp_step. eapply wp_alloc_get; [done|]. wp_step. wp_step.
  destruct (negb _); wp_step; [|done]. eapply quiet_trans; [exact F2|]. by eapply quiet_one.
Qed.

Lemma wp_handleAllocate_quiet s req src :
  srv_ok E s -> req_ok req -> wp (handleAllocate E req src None) (fun _ s' => quiet s s') s.
Proof.
  intros Hs (Ht & Ha & _).
  assert (Herr : forall s1 code, unreserved E s s1 ->
    wp (sendErrorResponse E None src req code) (fun _ s' => quiet s s') s1).
  { intros s1 code (Hs1 & _ & _ & _ & O1 & _).
    eapply wp_mono; [by apply wp_sendErrorResponse|]. intros [] s2 Hcalm.
    eapply quiet_trans; [by apply quiet_eq|apply Hcalm]. }
  pose proof (unreserved_refl E s Hs) as H0. unfold handleAllocate.
  destruct (find req AttrType.RequestedTransport) as [rt|]; [|by apply Herr].
  destruct (value rt) as [|proto v]; [by apply Herr|].
  wp_step. wp_step. destruct (_ <=? _); [by apply Herr|].
  wp_step. eapply wp_mono; [by apply wp_allocateRelay|].
  intros [code|[port rsock]] s1 H1; [by apply Herr|].
  destruct H1 as (Hs1 & C1 & K1 & N1 & O1 & M1 & _). wp_step. wp_step. wp_step. wp_step. wp_step.
  apply wp_sendSuccessResponse; [done|done|done|by apply getStr_sized| |].
  { pose proof (body_xor (withXor resp0 AttrType.XorRelayedAddress (buildRelayedAddr E port) (transactionID req))
                  AttrType.XorMappedAddress src (transactionID req)
                  (body_xor resp0 _ _ _ (conj eq_refl (Forall_nil_2 _)))) as [_ Hb].
    cbn. apply Forall_app. split; [exact Hb|]. constructor; [done|constructor]. }
  intros resp. wp_step. eapply wp_mono; [apply wp_register_quiet; by apply (findAlloc_live E)|].
  intros a s2 F2. assert (F : quiet s s2) by (eapply quiet_trans; [by apply quiet_eq|exact F2]).
  unfold reply, sendUdp. destruct (negb _); wp_step; [|done].
  eapply quiet_trans; [exact F|]. by eapply quiet_one.
Qed.

Lemma wp_dispatchAllocate_quiet s msg src o :
  srv_ok E s -> req_ok msg -> alloc_live s o ->
  wp (dispatchAllocate E msg src None o) (fun _ s' => quiet s s') s.
Proof.
  intros Hs Hm Ha.
  assert (Hauth : forall s1, srv_ok E s1 -> quiet s s1 ->
    wp (withAuth E msg src None (handleAllocate E msg src None)) (fun _ s' => quiet s s') s1).
  { intros s1 Hs1 Hq. apply wp_withAuth; [done|done|done|done| |].
    - intros u _. eapply wp_mono; [by apply wp_handleAllocate_quiet|]. intros [] s2. by apply quiet_trans.
    - intros s2 _ Hc. eapply quiet_trans; [exact Hq|apply Hc]. }
  unfold dispatchAllocate. destruct o as [a|]; [|by apply Hauth; [|apply quiet_refl]].
  destruct Ha as [x Ex]. wp_step. eapply wp_alloc_get; [done|]. wp_step. wp_step.
  destruct (_ <=? _).
  - wp_step. eapply wp_mono; [by apply wp_destroy_ok|]. intros [] s1 (Hs1 & _ & F1). by apply Hauth; [|apply F1].
  - eapply wp_mono; [apply wp_sendErrorResponse; [done|done|done|apply Hm]|]. intros [] s1 Hc. apply Hc.
Qed.

(** Any datagram: whatever leaves a relay socket on account of it is justified. *)
Lemma wp_datagram_justified s data src :
  srv_ok E s -> linked E W s -> packet_ok data -> is_Some (normalize (addr src)) ->
  is_udp W (printed E src) ->
  wp (handleUdpPacket E data src) (fun _ s' => all_justified s s') s.
Proof.
  intros Hs Hlk Hd Hsrc Hu.
  assert (Hcase : udp_relay_only data \/ exists m, decode emptyMessage data = Some (true, m) /\
    cls m = Request /\ method m = Method.Allocate).
  { destruct (decode emptyMessage data) as [[[] m]|] eqn:Ed; [|left; intros m' Hm'; congruence..].
    destruct (decide (cls m = Request)) as [Hc|Hc]; [|left; intros m' Hm'; simplify_eq; congruence].
    destruct (decide (method m = Method.Allocate)) as [Ha|Ha]; [right; by exists m|].
    left. intros m' Hm' _ Ham. rewrite Ed in Hm'. by simplify_eq. }
  destruct Hcase as [Hro|(m & Hdec & Hcls & Hmeth)].
  { eapply wp_mono; [apply wp_handleUdpPacket; [done|done|done|done|done|]|].
    - intros m u Hm Hr Hal _. by apply Hro.
    - intros [] s' Hh. apply Hh. }
  unfold handleUdpPacket, findAlloc. destruct (isChannelData_total data) as (cd & Hcd & _).
  pose proof (findAlloc_live E s (allocKey E SOCK_DGRAM src) Hs) as Ha.
  wp_step. eapply wp_lift; [done|]. destruct cd.
  { wp_step. wp_step. destruct (allocations_ (tabs s) !! allocKey E SOCK_DGRAM src) as [a|];
      [|wp_step; by apply justified_quiet, quiet_refl].
    destruct Ha as [x Ex]. eapply wp_mono; [by eapply (wp_channel_handled s a x data None)|].
    intros [] s' Hh. apply Hh. }
  destruct Hd as [Hb Hsz]. destruct (isMessage_total data Hb) as (im & Him & _).
  wp_step. eapply wp_lift; [done|].
  destruct im; cbn [negb]; [|wp_step; by apply justified_quiet, quiet_refl].
  wp_step. eapply wp_lift; [done|]. cbn [fst snd negb]. wp_step. wp_step.
  assert (Hm : req_ok m) by (by eapply decode_req).
  unfold dispatchStun. rewrite Hcls, Hmeth. cbn.
  eapply wp_mono; [by apply wp_dispatchAllocate_quiet|]. intros [] s'. apply justified_quiet.
Qed.

Lemma wp_handleTcpFrame s c sk data y :
  srv_ok E s -> linked E W s -> tcpBySock_ (cns s) !! sk = Some c -> conns (cns s) !! c = Some y ->
  packet_ok data ->
  wp (handleTcpFrame E c sk data)
    (fun _ s' => handled s data (allocByControlSock_ (tabs s) !! sk) s') s.
Proof.
  intros Hs Hlk Hsk Ey Hd.
  destruct (co_sock _ (so_conns _ _ Hs) sk c Hsk) as (y' & Ey' & Hsock).
  assert (y' = y) as -> by congruence. subst sk.
  destruct (pe_tcp _ _ _ (lk_peers _ _ _ _ Hlk) _ c Hsk) as (y' & Ey'' & Hne & Hnu & Hn).
  assert (y' = y) as -> by congruence.
  assert (Hcl : conn_linked s (Some c)) by (by eexists).
  assert (Ha : alloc_live s (allocByControlSock_ (tabs s) !! tc_sock y))
    by (by apply (controlSock_live E)).
  assert (Hlu : looked_up E s (peerAddr y) (Some c) = allocByControlSock_ (tabs s) !! tc_sock y)
    by (cbn; by rewrite Ey).
  unfold handleTcpFrame. wp_step. eapply wp_conn_get; [done|].
  destruct (isData y).
  { wp_step. eapply wp_mono; [by eapply wp_dataPipePeerRef|]. intros o s' [-> Hlive].
    destruct o as [p|]; [|wp_step; by apply handled_refl].
    eapply wp_mono; [by apply wp_sendTcpRaw|]. intros [] s'. by apply handled_calm. }
  destruct (isChannelData_total data) as (cd & Hcd & _). wp_step. eapply wp_lift; [done|]. destruct cd.
  { unfold findAllocByControlSockRef. wp_step. wp_step. wp_step.
    eapply wp_mono; [by apply wp_refAlloc|]. intros o s' [-> ->].
    destruct (allocByControlSock_ (tabs s) !! tc_sock y) as [a|]; [|wp_step; by apply handled_refl].
    destruct Ha as [x Ex]. by eapply wp_channel_handled. }
  rewrite <- Hlu in *. apply (wp_stun s data (peerAddr y) (Some c)); [done..| |].
  - intros m u _ _ _ _. by exists (tc_sock y), y.
  - rewrite (proj2 (Z.eqb_neq _ _) Hne). wp_step. by rewrite Hlu.
Qed.

End Packets.
