(* ===== verification/TurnConns.v ===== *)
(** * Connections and expiry

    Opening, closing and freeing TCP connections, the receive loop of a connection, and the
    expiry tick, run from a state that satisfies the invariant. *)

From stdpp Require Import sorting.
From S2P Require Import Prelude.
From S2P Require Import StateMonad.
From S2P Require Import Bytes.
From S2P Require Import Crypto.
From S2P Require Import Addr.
From S2P Require Import StunMessage.
From S2P Require Import StunAttributes.
From S2P Require Import ChannelData.
From S2P Require Import StunConn.
From S2P Require Import TcpWriter.
From S2P Require Import TurnState.
From S2P Require Import TurnCore.
From S2P Require Import TurnHandlers.
From S2P Require Import TurnServer.
From S2P Require Import TurnInv.
From S2P Require Import TurnGrants.
From S2P Require Import TurnSafe.
From S2P Require Import TurnRequests.
From S2P Require Import TurnLinks.
From S2P Require Import TurnSteps.
From S2P Require Import TurnRelay.
From S2P Require Import TurnDispatch.
From S2P Require Import TurnEvents.
Open Scope Z_scope.

Section Conns.
Context (E : Env) (HE : env_ok E) (W : World).

(** ** Opening *)

(** A connection just accepted: the kernel hands out a socket that is not open and a peer
    that no open connection has, and the peer is not one of the datagram clients. *)
Definition acceptable (c : Conns) (sk : socket_t) (peer : AddrRecord) : Prop :=
  sk <> STICE_INVALID_SOCKET /\ ~ is_udp W (printed E peer) /\ is_Some (normalize (addr peer)) /\
  tcpBySock_ c !! sk = None /\
  (forall sk' j y, tcpBySock_ c !! sk' = Some j -> conns c !! j = Some y ->
     printed E (peerAddr y) <> printed E peer).

Definition registerConns (sk : socket_t) (peer : AddrRecord) (c : Conns) : Conns :=
  let i := nextConn c in
  mkConns (<[i := mkTcpConn sk peer newStunConn false 0 newWriter [] false]> (conns c)) (S i)
    (tcpConns_ c ++ [i]) (<[sk := i]> (tcpBySock_ c)) (dataPipe_ c) (dataPipePeer_ c)
    (pendingFreeConns_ c).

Lemma fresh_conn c : conns_ok c -> conns c !! nextConn c = None.
Proof.
  intros H. destruct (conns c !! nextConn c) as [x|] eqn:Ex; [|done].
  pose proof (co_fresh c H _ x Ex). lia.
Qed.

Lemma conns_ok_register c sk peer : conns_ok c -> conns_ok (registerConns sk peer c).
Proof.
  intros H. pose proof (fresh_conn c H) as Hf.
  assert (Hlk : forall j x, conns c !! j = Some x -> nextConn c <> j) by congruence.
  constructor; cbn [conns nextConn tcpConns_ tcpBySock_ dataPipe_ dataPipePeer_ pendingFreeConns_ registerConns].
  - intros sk' j [[<- <-]|[_ Hj]]%lookup_insert_Some.
    + eexists. by rewrite lookup_insert_eq.
    + destruct (co_sock c H sk' j Hj) as (x & Ex & Hx). exists x.
      rewrite lookup_insert_ne by eauto. done.
  - intros sk' j Hj. destruct (co_peer c H sk' j Hj) as [x Ex]. exists x.
    rewrite lookup_insert_ne by eauto. done.
  - intros j Hj. destruct (co_free c H j Hj) as (H1 & H2 & H3). split; [lia|]. split; [|done].
    intros sk' [[_ ?]|[_ Hj']]%lookup_insert_Some; [lia|by apply (H2 sk')].
  - intros j x [[<- <-]|[_ Ex]]%lookup_insert_Some; [lia|].
    pose proof (co_fresh c H j x Ex). lia.
  - intros j x [[<- <-]|[_ Ex]]%lookup_insert_Some; [|by eapply (co_state c H)].
    split; [exact (Nat.le_0_l _)|apply newStunConn_ok].
Qed.

Lemma peers_register c sk peer :
  conns_ok c -> peers_ok E W c -> acceptable c sk peer -> peers_ok E W (registerConns sk peer c).
Proof.
  intros H [P1 P2] (A1 & A2 & A3 & A4 & A5). pose proof (fresh_conn c H) as Hf.
  assert (Hlk : forall j x, conns c !! j = Some x -> nextConn c <> j) by congruence.
  assert (Hb : forall sk' j y, tcpBySock_ c !! sk' = Some j ->
            <[nextConn c := mkTcpConn sk peer newStunConn false 0 newWriter [] false]> (conns c) !! j
            = Some y -> conns c !! j = Some y).
  { intros sk' j y Hj. destruct (co_sock c H sk' j Hj) as (x & Ex & _).
    rewrite lookup_insert_ne by eauto. done. }
  constructor; cbn [conns tcpBySock_ registerConns].
  - intros sk' j [[<- <-]|[_ Hj]]%lookup_insert_Some.
    + eexists. by rewrite lookup_insert_eq.
    + destruct (P1 sk' j Hj) as (y & Ey & Hy). exists y. by rewrite lookup_insert_ne by eauto.
  - intros sk1 sk2 j1 j2 y1 y2 S1 S2 E1 E2 He.
    apply lookup_insert_Some in S1 as [[<- <-]|[_ S1]], S2 as [[<- <-]|[_ S2]]; [done| | |].
    + rewrite lookup_insert_eq in E1. injection E1 as <-. by destruct (A5 sk2 j2 y2 S2 (Hb _ _ _ S2 E2)).
    + rewrite lookup_insert_eq in E2. injection E2 as <-. by destruct (A5 sk1 j1 y1 S1 (Hb _ _ _ S1 E1)).
    + by eapply (P2 sk1 sk2 j1 j2 y1 y2); eauto.
Qed.

Lemma linked_conns t c c' :
  link_ok E W t c -> peers_ok E W c' ->
  (forall sk j y, tcpBySock_ c !! sk = Some j -> conns c !! j = Some y ->
     (exists i x, heap t !! i = Some x /\ controlSock x = sk) ->
     tcpBySock_ c' !! sk = Some j /\ exists z, conns c' !! j = Some z /\ peerAddr z = peerAddr y) ->
  link_ok E W t c'.
Proof.
  intros [H1 H2 H3 H4 H5 H6] Hp Hc. constructor; [done| |done..]. intros i x Ex. specialize (H2 i x Ex).
  unfold controlled in *. destruct (_ =? _); [done|].
  destruct H2 as (Hk & j & y & Hj & Ey & Hy). split; [done|].
  destruct (Hc _ j y Hj Ey) as (Hj' & z & Ez & Hz); [by exists i, x|]. exists j, z.
  split; [done|]. split; [done|]. congruence.
Qed.

Lemma wp_registerTcpConn s sk peer :
  srv_ok E s -> linked E W s -> acceptable (cns s) sk peer ->
  wp (registerTcpConn sk peer) (fun _ s' => srv_ok E s' /\ linked E W s' /\ queues s' = queues s /\
    cns s' = registerConns sk peer (cns s) /\ tabs s' = tabs s /\ clock s' = clock s) s.
Proof.
  intros Hs Hlk Ha. pose proof (conns_ok_register (cns s) sk peer (so_conns _ _ Hs)) as Hc.
  pose proof (peers_register (cns s) sk peer (so_conns _ _ Hs) (lk_peers _ _ _ _ Hlk) Ha) as Hp.
  pose proof (fresh_conn _ (so_conns _ _ Hs)) as Hf. destruct Ha as (A1 & A2 & A3 & A4 & A5).
  unfold registerTcpConn. wp_step. wp_step. wp_step. split; [|split; [|done]].
  - destruct Hs as [H1 H2 H3 H4]. by constructor.
  - eapply linked_conns; [exact Hlk|exact Hp|]. intros sk' j y Hj Ey _.
    cbn. rewrite lookup_insert_ne by congruence. split; [done|]. exists y.
    rewrite lookup_insert_ne by congruence. done.
Qed.

(** ** Closing *)

(** The sockets that stay belong to other connections. *)
Lemma unlink_sock c i x sk j :
  conns_ok c -> conns c !! i = Some x -> delete (tc_sock x) (tcpBySock_ c) !! sk = Some j ->
  tcpBySock_ c !! sk = Some j /\ i <> j.
Proof.
  intros H Ei [Hne Hj]%lookup_delete_Some. split; [done|]. intros ->.
  destruct (co_sock c H sk j Hj) as (y & Ey & Hy). congruence.
Qed.

Lemma conns_ok_unlink c i x dp :
  conns_ok c -> conns c !! i = Some x -> tcpBySock_ c !! tc_sock x = Some i ->
  conns_ok (unlinkConn i x dp c).
Proof.
  intros H Ei Hi. pose proof (fun sk j => unlink_sock c i x sk j H Ei) as Hsub.
  constructor; cbn [conns nextConn tcpConns_ tcpBySock_ dataPipe_ dataPipePeer_ pendingFreeConns_ unlinkConn].
  - intros sk j Hj. destruct (Hsub sk j Hj) as [Hj' Hne].
    destruct (co_sock c H sk j Hj') as (y & Ey & Hy). exists y. by rewrite lookup_insert_ne.
  - intros sk j Hj. apply map_lookup_filter_Some in Hj as (Hj & _ & Hne).
    cbn in Hne. rewrite lookup_insert_ne by congruence. by apply (co_peer c H sk).
  - intros j Hj.
    assert (Hcase : j ∈ pendingFreeConns_ c \/ j = i).
    { case_decide; [|by left]. apply elem_of_app in Hj as [Hj|Hj]; [by left|].
      apply list_elem_of_singleton in Hj. by right. }
    destruct Hcase as [Hf| ->].
    + destruct (co_free c H j Hf) as (H1 & H2 & H3). split; [done|]. split.
      * intros sk Hj'. destruct (Hsub sk j Hj'). by apply (H2 sk).
      * intros sk Hj'. apply map_lookup_filter_Some in Hj' as [Hj' _]. by apply (H3 sk).
    + split; [by eapply (co_fresh c H)|]. split.
      * intros sk Hj'. by destruct (Hsub sk i Hj').
      * intros sk Hj'. apply map_lookup_filter_Some in Hj' as (_ & _ & Hne). by apply Hne.
  - intros j y [[<- <-]|[_ Ey]]%lookup_insert_Some; by eapply (co_fresh c H).
  - intros j y [[<- <-]|[_ Ey]]%lookup_insert_Some; [exact (co_state c H i x Ei)|by eapply (co_state c H)].
Qed.

Lemma peers_unlink c i x dp :
  conns_ok c -> conns c !! i = Some x -> peers_ok E W c -> peers_ok E W (unlinkConn i x dp c).
Proof.
  intros H Ei [P1 P2]. pose proof (fun sk j => unlink_sock c i x sk j H Ei) as Hsub.
  constructor; cbn [conns tcpBySock_ unlinkConn].
  - intros sk j Hj. destruct (Hsub sk j Hj) as [Hj' Hne]. rewrite lookup_insert_ne by done.
    by apply P1.
  - intros sk1 sk2 j1 j2 y1 y2 S1 S2. destruct (Hsub sk1 j1 S1) as [S1' N1].
    destruct (Hsub sk2 j2 S2) as [S2' N2]. rewrite !lookup_insert_ne by done. by apply P2.
Qed.

(** The pipe of a socket that is not its own peer can be erased. *)
Lemma erasePipe_run sk m : m !! sk <> Some sk -> exists dp, erasePipe sk m = Some dp /\ dp !! sk = None.
Proof.
  intros H. unfold erasePipe. destruct (m !! sk) as [o|] eqn:E1; [|by exists m].
  destruct (Z.eqb_spec o sk) as [->|]; [done|]. eexists. split; [done|]. apply lookup_delete_eq.
Qed.

(** The tables after the connection on [sk] closed: without the allocation it controls. *)
Definition closedTabs (s : Srv) (sk : socket_t) : Tables :=
  match allocByControlSock_ (tabs s) !! sk with
  | Some a => match heap (tabs s) !! a with
              | Some x => destroyTabs E a x (tabs s)
              | None => tabs s
              end
  | None => tabs s
  end.

Lemma wp_closeTcpConn s i sk :
  srv_ok E s -> linked E W s -> tcpBySock_ (cns s) !! sk = Some i ->
  dataPipe_ (cns s) !! sk <> Some sk ->
  wp (closeTcpConn E i) (fun _ s' => srv_ok E s' /\ linked E W s' /\ queues s' = queues s /\
    clock s' = clock s /\
    tabs s' = closedTabs s sk /\
    exists x dp, conns (cns s) !! i = Some x /\ dp !! sk = None /\ cns s' = unlinkConn i x dp (cns s)) s.
Proof.
  intros Hs Hlk Hi Hself. destruct (erasePipe_run sk _ Hself) as (dp & Hdp & Hnone). destruct (co_sock _ (so_conns _ _ Hs) sk i Hi) as (x & Ex & Hx).
  destruct (pe_tcp _ _ _ (lk_peers _ _ _ _ Hlk) sk i Hi) as (_ & _ & Hne & _).
  unfold closeTcpConn. wp_step. eapply wp_conn_get; [done|].
  rewrite Hx, (proj2 (Z.eqb_neq _ _) Hne). wp_step. wp_step. wp_step.
  eapply (wp_mono _ (fun _ s1 => good E W s s1 /\ cns s1 = cns s /\
    allocByControlSock_ (tabs s1) !! sk = None /\ tabs s1 = closedTabs s sk)).
  { unfold closedTabs. destruct (allocByControlSock_ (tabs s) !! sk) as [a|] eqn:Ea.
    2:{ wp_step. split; [by apply good_refl|done]. }
    destruct (ok_control _ _ (so_tabs _ _ Hs) sk a Hne Ea) as (y & Ey & Hy).
    eapply wp_mono; [by apply wp_destroy_ok|]. intros [] s1 (Hs1 & T1 & F1).
    split; [by eapply good_destroy|]. split; [apply F1|]. rewrite T1, Ey. split; [|done]. cbn.
    rewrite Hy, (proj2 (Z.eqb_neq _ _) Hne). apply lookup_delete_eq. }
  intros [] s1 (G1 & C1 & Hctl & T1). pose proof (gd_ok _ _ _ _ G1) as Hs1.
  pose proof (gd_link _ _ _ _ G1 Hlk) as Hlk1. wp_step. wp_step.
  wp_step. eapply wp_lift; [by rewrite C1|]. wp_step. wp_step. wp_step. wp_step. wp_step.
  assert (Ex1 : conns (cns s1) !! i = Some x) by (by rewrite C1).
  assert (Hi1 : tcpBySock_ (cns s1) !! tc_sock x = Some i) by (by rewrite C1, Hx).
  pose proof (conns_ok_unlink (cns s1) i x dp (so_conns _ _ Hs1) Ex1 Hi1) as Hc.
  split; [|split; [|split; [|split; [|split]]]].
  - destruct Hs1 as [K1 K2 K3 K4]. by constructor.
  - eapply linked_conns; [exact Hlk1| |].
    { apply peers_unlink; [apply Hs1|done|apply Hlk1]. }
    intros sk' j y Hj Ey (k & z & Ez & Hz). cbn.
    assert (Hsk : sk <> sk').
    { intros <-. pose proof (lk_heap _ _ _ _ Hlk1 k z Ez) as Hk. unfold controlled in Hk.
      rewrite Hz, (proj2 (Z.eqb_neq _ _) Hne) in Hk. destruct Hk as [Hk _]. congruence. }
    rewrite lookup_delete_ne by congruence. split; [done|]. exists y.
    rewrite lookup_insert_ne; [done|]. intros ->.
    destruct (co_sock _ (so_conns _ _ Hs1) sk' j Hj) as (y' & Ey' & Hy'). congruence.
  - apply (quiet_queues _ _ (gd_outs _ _ _ _ G1)).
  - apply G1.
  - exact T1.
  - exists x, dp. split; [done|]. split; [done|]. cbn. by rewrite C1.
Qed.

(** ** Freeing *)

Lemma foldl_delete_lookup {A} (l : list nat) (m : gmap nat A) j :
  foldl (fun m i => delete i m) m l !! j = if decide (j ∈ l) then None else m !! j.
Proof.
  revert m. induction l as [|i l IH]; intros m; cbn [foldl].
  { rewrite decide_False; [done|]. apply not_elem_of_nil. }
  rewrite IH. destruct (decide (j ∈ l)) as [Hj|Hj]; [by rewrite decide_True by by right|].
  destruct (decide (j = i)) as [->|Hne].
  - rewrite decide_True by left. apply lookup_delete_eq.
  - rewrite decide_False; [by apply lookup_delete_ne|]. by rewrite not_elem_of_cons.
Qed.

Lemma wp_reapPendingConns s :
  srv_ok E s -> linked E W s ->
  wp reapPendingConns (fun _ s' => srv_ok E s' /\ linked E W s' /\ queues s' = queues s /\
    tabs s' = tabs s /\ tcpBySock_ (cns s') = tcpBySock_ (cns s) /\
    forall j, conns (cns s') !! j =
      if decide (j ∈ pendingFreeConns_ (cns s)) then None else conns (cns s) !! j) s.
Proof.
  intros Hs Hlk. unfold reapPendingConns. wp_step. set (c := cns s). set (s' := set_cns _ s).
  assert (Hl : forall j, conns (cns s') !! j =
    if decide (j ∈ pendingFreeConns_ c) then None else conns c !! j) by apply foldl_delete_lookup.
  assert (Hold : forall j x, conns (cns s') !! j = Some x -> conns c !! j = Some x).
  { intros j x. rewrite Hl. by case_decide. }
  assert (Hk : forall sk j, tcpBySock_ c !! sk = Some j -> conns (cns s') !! j = conns c !! j).
  { intros sk j Hj. rewrite Hl. case_decide as Hin; [|done].
    destruct (co_free _ (so_conns _ _ Hs) j Hin) as (_ & F & _). by destruct (F sk). }
  assert (Hok : conns_ok (cns s')).
  { constructor.
    - intros sk j Hj. destruct (co_sock _ (so_conns _ _ Hs) sk j Hj) as (x & Ex & Hx).
      exists x. by rewrite (Hk sk j Hj).
    - intros sk j Hj. rewrite Hl. case_decide as Hin; [|by apply (co_peer _ (so_conns _ _ Hs) sk)].
      destruct (co_free _ (so_conns _ _ Hs) j Hin) as (_ & _ & F). by destruct (F sk).
    - intros j Hj. by apply elem_of_nil in Hj.
    - intros j x Hj%Hold. by eapply (co_fresh _ (so_conns _ _ Hs)).
    - intros j x Hj%Hold. by eapply (co_state _ (so_conns _ _ Hs)). }
  split; [|split; [|done]].
  - destruct Hs as [H1 H2 H3 H4]. by constructor.
  - assert (Hp : peers_ok E W (cns s')).
    { destruct (lk_peers _ _ _ _ Hlk) as [P1 P2]. constructor.
      - intros sk j Hj. rewrite (Hk sk j Hj). by apply P1.
      - intros sk1 sk2 j1 j2 y1 y2 S1 S2 E1 E2. by eapply (P2 sk1 sk2 j1 j2 y1 y2); eauto. }
    eapply linked_conns; [exact Hlk|exact Hp|]. intros sk j y Hj Ey _. split; [done|].
    exists y. by rewrite (Hk sk j Hj).
Qed.

End Conns.
