(* ===== verification/TurnExpiry.v ===== *)
(** * The expiry tick and the receive loop

    [expireStale] removes exactly the expired allocations and, of the others, exactly the
    expired permissions, channels and pending connects.  [handleTcpConnData] handles the
    frames of a connection one after the other and ends. *)

From stdpp Require Import sorting.
From S2P Require Import Prelude.
From S2P Require Import StateMonad.
From S2P Require Import Bytes.
From S2P Require Import Crypto.
From S2P Require Import Addr.
From S2P Require Import StunMessage.
From S2P Require Import StunAttributes.
From S2P Require Import ChannelData.
From S2P Require Import StunConn.
From S2P Require Import TcpWriter.
From S2P Require Import TurnState.
From S2P Require Import TurnCore.
From S2P Require Import TurnHandlers.
From S2P Require Import TurnServer.
From S2P Require Import TurnInv.
From S2P Require Import TurnGrants.
From S2P Require Import TurnSafe.
From S2P Require Import TurnRequests.
From S2P Require Import TurnLinks.
From S2P Require Import TurnSteps.
From S2P Require Import TurnRelay.
From S2P Require Import TurnDispatch.
From S2P Require Import TurnEvents.
From S2P Require Import TurnConns.
Open Scope Z_scope.

Section Expiry.
Context (E : Env) (HE : env_ok E) (W : World).

(** ** Pending connects *)

Lemma expirePending_lookup now l m c i :
  expirePending now l m !! c = Some i ->
  m !! c = Some i /\ forall pc, pc ∈ l -> pc_connId pc = c -> now < pc_expiryMs pc.
Proof.
  unfold expirePending. revert m. induction l as [|p l IH]; intros m; cbn [foldl].
  { intros H. split; [done|]. intros pc Hp. by apply elem_of_nil in Hp. }
  intros [H1 H2]%IH. destruct (Z.leb_spec (pc_expiryMs p) now) as [Hx|Hx].
  - apply lookup_delete_Some in H1 as [Hne H1]. split; [done|].
    intros pc [->|Hp]%elem_of_cons Hc; [done|by apply H2].
  - split; [done|]. intros pc [->|Hp]%elem_of_cons Hc; [done|by apply H2].
Qed.

(** One round of the loop before the allocation itself is looked at. *)
Definition expireOne (now : Z) (a : nat) (x : Allocation) (s : Srv) : Srv :=
  set_tabs (fun t => set_heap (<[a := expireContents now x]> (heap t)) t)
    (set_tabs (fun t => set_pendingMap (expirePending now (pendingConnects x) (pendingByConnId_ t)) t) s).

Lemma good_expireOne s now a x :
  srv_ok E s -> heap (tabs s) !! a = Some x -> good E W s (expireOne now a x s).
Proof.
  intros Hs Ex. set (s1 := set_tabs (fun t => set_pendingMap (expirePending now (pendingConnects x)
                             (pendingByConnId_ t)) t) s).
  assert (G1 : good E W s s1).
  { apply good_pendingMap; [done|]. intros c i [Hc _]%expirePending_lookup.
    by apply (ok_pending _ _ (so_tabs _ _ Hs)). }
  eapply good_trans; [exact G1|]. apply (srv_ok_put E W s1 a x); [apply G1|done|done| |].
  - destruct (ok_contents _ _ (so_tabs _ _ Hs) a x Ex) as (Hu & Hc & Hp & Hg).
    split; [done|]. split; [|split; [|by apply grants_expire]]; apply Forall_forall.
    + intros c [_ Hin]%list_elem_of_filter. by eapply (Forall_forall _ (channels x)) in Hc.
    + intros p [_ Hin]%list_elem_of_filter. by eapply (Forall_forall _ (pendingConnects x)) in Hp.
  - intros c Hc. cbn in Hc. apply expirePending_lookup in Hc as [Hc Hnow].
    destruct (ok_pending _ _ (so_tabs _ _ Hs) c a Hc) as (y & Ey & Hy). simplify_eq.
    unfold pendingIds in *. cbn. apply list_elem_of_fmap in Hy as (pc & -> & Hpc).
    apply list_elem_of_fmap. exists pc. split; [done|]. apply list_elem_of_filter. auto.
Qed.

(** ** Allocations *)

(** What is left of an allocation. *)
Definition survivor (now : Z) (x : Allocation) : option Allocation :=
  if expiryMs x <=? now then None else Some (expireContents now x).

Lemma wp_expireLoop s now l :
  srv_ok E s -> now = clock s -> NoDup l.*2 -> Forall (fun kv => is_Some (heap (tabs s) !! kv.2)) l ->
  wp (expireLoop E now l) (fun _ s' => good E W s s' /\ cns s' = cns s /\ forall i,
    heap (tabs s') !! i = if decide (i ∈ l.*2) then heap (tabs s) !! i ≫= survivor now
                          else heap (tabs s) !! i) s.
Proof.
  revert s. induction l as [|[k a] l IH]; intros s Hs Hnow Hnd Hl; cbn [expireLoop].
  { wp_step. split; [by apply good_refl|]. split; [done|]. intros i. rewrite decide_False; [done|].
    apply not_elem_of_nil. }
  apply Forall_cons in Hl as [[x Ex] Hl]. cbn [snd] in Ex. apply NoDup_cons in Hnd as [Hna Hnd].
  change ((k, a).2) with a in Hna. change (fst <$> l) with (l.*1) in *.
  wp_step. eapply wp_alloc_get; [done|]. wp_step. wp_step. wp_step. wp_step.
  pose proof (good_expireOne s now a x Hs Ex) as G1. fold (expireOne now a x s). set (s1 := expireOne now a x s) in *.
  assert (E1 : heap (tabs s1) !! a = Some (expireContents now x)) by apply lookup_insert_eq.
  assert (N1 : forall i, i <> a -> heap (tabs s1) !! i = heap (tabs s) !! i)
    by (intros i Hi; by apply lookup_insert_ne).
  wp_step. eapply (wp_mono _ (fun _ s2 => good E W s1 s2 /\ cns s2 = cns s1 /\
    heap (tabs s2) !! a = survivor now x /\
    forall i, i <> a -> heap (tabs s2) !! i = heap (tabs s1) !! i)).
  { unfold survivor. destruct (expiryMs x <=? now).
    - eapply wp_mono; [apply wp_destroy_ok; [apply G1|exact E1]|]. intros [] s2 (Hs2 & T2 & F2).
      split; [eapply good_destroy; [apply G1|exact E1|done..]|]. split; [apply F2|]. rewrite T2.
      split; [apply lookup_delete_eq|]. intros i Hi. by apply lookup_delete_ne.
    - wp_step. split; [by apply good_refl, G1|]. done. }
  intros [] s2 (G2 & C2 & A2 & N2). pose proof (good_trans E W _ _ _ G1 G2) as G.
  eapply wp_mono; [apply (IH s2)|].
  - apply G.
  - rewrite (gd_clock _ _ _ _ G). done.
  - done.
  - apply Forall_forall. intros [k' i] Hin. cbn.
    assert (Hi : i <> a). { intros ->. apply Hna. apply list_elem_of_fmap. by exists (k', a). }
    rewrite N2, N1 by done. by apply (Forall_forall _ l) with (x := (k', i)) in Hl.
  - intros [] s3 (G3 & C3 & H3). split; [by eapply good_trans|]. split; [by rewrite C3, C2|]. intros i.
    rewrite H3. cbn [fmap list_fmap snd]. destruct (decide (i = a)) as [->|Hi].
    + destruct (decide (a ∈ l.*2)); [done|]. rewrite decide_True by left. by rewrite A2, Ex.
    + rewrite N2, N1 by done. destruct (decide (i ∈ l.*2)) as [Hin|Hin].
      * by rewrite decide_True by by right.
      * rewrite decide_False; [done|]. rewrite not_elem_of_cons. done.
Qed.

(** Every owner of a port has an entry, so the sweep finds nothing. *)
Lemma wp_sweepPorts s l :
  srv_ok E s -> (forall p o, (p, Some o) ∈ l -> is_Some (heap (tabs s) !! o)) ->
  wp (sweepPorts E l) (fun _ s' => s' = s) s.
Proof.
  intros Hs. induction l as [|[p [o|]] l IH]; intros Hl; cbn [sweepPorts]; [by wp_step| |].
  - destruct (Hl p o) as [x Ex]; [by left|]. wp_step. eapply wp_alloc_get; [done|].
    unfold findAlloc. wp_step. wp_step.
    change (allocKey E (transport x) (clientAddr x)) with (keyOf E x).
    rewrite (ok_live _ _ (so_tabs _ _ Hs) o x Ex). wp_step. wp_step.
    apply IH. intros q o' Hq. apply (Hl q). by right.
  - apply IH. intros q o' Hq. apply (Hl q). by right.
Qed.

Lemma entries_nodup s : srv_ok E s -> NoDup (entries (allocations_ (tabs s))).*2.
Proof.
  intros Hs. unfold entries.
  rewrite (merge_sort_Permutation key_le (map_to_list (allocations_ (tabs s)))).
  apply NoDup_fmap_2_strong; [|apply NoDup_map_to_list].
  intros [k1 i1] [k2 i2] H1%elem_of_map_to_list H2%elem_of_map_to_list He. cbn in He. subst i2.
  destruct (ok_own _ _ (so_tabs _ _ Hs) k1 i1 H1) as (x1 & E1 & ->).
  destruct (ok_own _ _ (so_tabs _ _ Hs) k2 i1 H2) as (x2 & E2 & ->). by simplify_eq.
Qed.

Lemma entries_live s : srv_ok E s ->
  Forall (fun kv => is_Some (heap (tabs s) !! kv.2)) (entries (allocations_ (tabs s))).
Proof.
  intros Hs. apply Forall_forall. intros [k i] Hin%entries_elem.
  destruct (ok_own _ _ (so_tabs _ _ Hs) k i Hin) as (x & Ex & _). by exists x.
Qed.

Lemma entries_all s i x :
  srv_ok E s -> heap (tabs s) !! i = Some x -> i ∈ (entries (allocations_ (tabs s))).*2.
Proof.
  intros Hs Ex. apply list_elem_of_fmap. exists (keyOf E x, i). split; [done|]. unfold entries.
  rewrite merge_sort_Permutation. apply elem_of_map_to_list. by apply (ok_live _ _ (so_tabs _ _ Hs)).
Qed.

(** The tick: afterwards the tables hold exactly the survivors. *)
Lemma wp_expireStale s :
  srv_ok E s ->
  wp (expireStale E) (fun _ s' => good E W s s' /\ cns s' = cns s /\
    forall i, heap (tabs s') !! i = heap (tabs s) !! i ≫= survivor (clock s)) s.
Proof.
  intros Hs. unfold expireStale. wp_step. wp_step. wp_step. wp_step. wp_step.
  eapply (wp_mono _ (fun _ s1 => calm s s1 /\ cns s1 = cns s)).
  { destruct (_ <=? _); [by apply wp_refreshNonce|]. wp_step. split; [by eapply calm_refl|done]. }
  intros [] s1 [Hc C1]. pose proof (calm_srv E s s1 Hs Hc) as Hs1. wp_step. wp_step. wp_step.
  eapply wp_mono.
  { apply (wp_expireLoop s1 (clock s)); [done|symmetry; apply Hc|by apply entries_nodup|by apply entries_live]. }
  intros [] s2 (G2 & C2 & H2). wp_step. wp_step.
  eapply wp_mono; [apply wp_sweepPorts; [apply G2|]|].
  { intros p o Hin%elem_of_map_to_list.
    destruct (ok_ports _ _ (so_tabs _ _ (gd_ok _ _ _ _ G2)) p o Hin) as (x & Ex & _). by exists x. }
  intros [] s3 ->. split; [eapply good_trans; [by apply good_calm|done]|]. split; [congruence|].
  intros i. rewrite H2, (calm_tabs _ _ Hc). case_decide as Hin; [done|].
  destruct (heap (tabs s) !! i) as [x|] eqn:Ex; [|done]. destruct Hin.
  rewrite <- (calm_tabs _ _ Hc) in *. by eapply entries_all.
Qed.

End Expiry.

Section Receive.
Context (E : Env) (HE : env_ok E) (W : World).

(** What a step on a connection guarantees: the invariant, the open sockets and their peers;
    it queues nothing but requests to close. *)
Record settled (s s' : Srv) : Prop := {
  se_ok : srv_ok E s';
  se_link : linked E W s';
  se_clock : clock s' = clock s;
  se_sock : tcpBySock_ (cns s') = tcpBySock_ (cns s);
  se_conn : forall j x, conns (cns s) !! j = Some x ->
              exists y, conns (cns s') !! j = Some y /\ peerAddr y = peerAddr x;
  se_control : exists l, controlQueue_ s' = controlQueue_ s ++ l /\
                 Forall (fun it => wk_kind it = TcpConnClosed) l;
  se_shard : shardQueues s' = shardQueues s }.

Lemma settled_fine s s' : linked E W s -> fine E W s s' -> queues s' = queues s -> settled s s'.
Proof.
  intros Hlk [H1 H2 H3 H4] Hq. constructor; [done|auto|done|apply H3| |exists []|].
  - intros j x Ex. destruct (ll_conn _ _ H3 j x Ex) as (y & Ey & _ & Hp & _). by exists y.
  - rewrite app_nil_r. split; [exact (f_equal fst Hq)|done].
  - exact (f_equal snd Hq).
Qed.

Lemma settled_calm s s' : srv_ok E s -> linked E W s -> calm s s' -> settled s s'.
Proof.
  intros Hs Hlk Hc. apply settled_fine; [done|by apply good_fine, good_calm|].
  apply quiet_queues, Hc.
Qed.

Lemma settled_refl s : srv_ok E s -> linked E W s -> settled s s.
Proof. intros Hs Hlk. apply settled_fine; [done|by apply fine_refl|done]. Qed.

Lemma settled_trans s1 s2 s3 : settled s1 s2 -> settled s2 s3 -> settled s1 s3.
Proof.
  intros [? ? ? ? H1 (l1 & Q1 & F1) ?] [? ? ? ? H2 (l2 & Q2 & F2) ?].
  constructor; [done|done|congruence|congruence| | |congruence].
  - intros j x Ex. destruct (H1 j x Ex) as (y & Ey & Hy). destruct (H2 j y Ey) as (z & Ez & Hz).
    exists z. split; [done|congruence].
  - exists (l1 ++ l2). rewrite Q2, Q1, app_assoc. split; [done|by apply Forall_app].
Qed.

Lemma settled_handled s data alloc s' : linked E W s -> handled E W s data alloc s' -> settled s s'.
Proof.
  intros Hlk [H1 _ (l & Hio & _)]. apply settled_fine; [done|done|]. exact (f_equal snd Hio).
Qed.

(** The receive buffer of a connection is replaced. *)
Lemma settled_stun s c x sc :
  srv_ok E s -> linked E W s -> conns (cns s) !! c = Some x -> conn_ok sc ->
  settled s (set_cns (fun t => set_conns (<[c := conn_stun x sc]> (conns t)) t) s).
Proof.
  intros Hs Hlk Ex Hsc. set (s' := set_cns _ s).
  assert (Hc : forall j z, conns (cns s) !! j = Some z ->
            exists y, conns (cns s') !! j = Some y /\ peerAddr y = peerAddr z).
  { intros j z Ez. cbn. destruct (decide (c = j)) as [->|Hne].
    - rewrite lookup_insert_eq. eexists. split; [done|]. cbn. congruence.
    - rewrite lookup_insert_ne by done. by exists z. }
  assert (Hb : forall j y, conns (cns s') !! j = Some y ->
            exists z, conns (cns s) !! j = Some z /\ peerAddr y = peerAddr z).
  { intros j y Ey. cbn in Ey. apply lookup_insert_Some in Ey as [[<- <-]|[_ Ey]]; [by exists x|by exists y]. }
  constructor; [|  |done|done|exact Hc| |done].
  - destruct (co_state _ (so_conns _ _ Hs) c x Ex) as [Hw _]. destruct Hs as [H1 H2 H3 H4].
    constructor; [done| |done|done]. by eapply conns_ok_update.
  - eapply linked_conns; [exact Hlk| |].
    + destruct (lk_peers _ _ _ _ Hlk) as [P1 P2]. constructor.
      * intros sk j Hj. destruct (P1 sk j Hj) as (z & Ez & Hz).
        destruct (Hc j z Ez) as (y & Ey & Hy). exists y. by rewrite Hy.
      * intros sk1 sk2 j1 j2 y1 y2 S1 S2 E1 E2 He.
        destruct (Hb j1 y1 E1) as (z1 & Z1 & R1). destruct (Hb j2 y2 E2) as (z2 & Z2 & R2).
        rewrite R1, R2 in He. by eapply P2.
    + intros sk j y Hj Ey _. split; [done|]. by apply Hc.
  - exists []. by rewrite app_nil_r.
Qed.

Lemma settled_enqueue s sk :
  srv_ok E s -> linked E W s ->
  wp (enqueueCloseConn sk) (fun _ s' => settled s s') s.
Proof.
  intros Hs Hlk. unfold enqueueCloseConn, enqueueControl. wp_step.
  destruct Hs as [H1 H2 H3 H4]. constructor; [by constructor|done|done|done| |by eexists; split; [|repeat constructor]|done].
  intros j x Ex. by exists x.
Qed.

(** The fuel of the receive loop is enough: every frame takes at least one byte. *)
Lemma wp_connLoop fuel s c sk x :
  srv_ok E s -> linked E W s -> tcpBySock_ (cns s) !! sk = Some c ->
  conns (cns s) !! c = Some x -> (length (pending (stunConn x)) < fuel)%nat ->
  wp (connLoop E fuel c sk) (fun _ s' => settled s s') s.
Proof.
  revert s x. induction fuel as [|fuel IH]; intros s x Hs Hlk Hsk Ex Hf; [lia|]. cbn [connLoop].
  wp_step. eapply wp_conn_get; [done|].
  destruct (co_state _ (so_conns _ _ Hs) c x Ex) as [_ Hok].
  pose proof (readFrame_spec (stunConn x) Hok) as Hrf. pose proof (pending_ok _ Hok) as Hpb.
  destruct (cutFrame (pending (stunConn x))) as [| |n] eqn:Ecut.
  - wp_step. eapply wp_lift; [exact Hrf|]. cbv beta iota zeta. wp_step. wp_step. cbn [Z.eqb]. wp_step.
    by apply settled_stun.
  - destruct Hrf as [Hrf Hlen]. wp_step. eapply wp_lift; [exact Hrf|]. cbv beta iota zeta. wp_step. wp_step.
    change (SIZE_MAX =? 0) with false. rewrite Z.eqb_refl.
    pose proof (settled_stun s c x (mkStunConn (buf_ (stunConn x)) (consumed_ (stunConn x) + 1)) Hs Hlk Ex
      (conj Hlen (proj2 Hok))) as G1. set (s1 := set_cns _ s) in *.
    eapply wp_mono; [apply settled_enqueue; apply G1|]. intros [] s2. by apply settled_trans.
  - destruct Hrf as [Hrf Hlen]. wp_step. eapply wp_lift; [exact Hrf|]. cbv beta iota zeta. wp_step. wp_step.
    pose proof (cutFrame_bounds _ _ Ecut) as Hn. pose proof (cutFrame_small _ _ Hpb Ecut) as Hsm.
    replace (Z.of_nat n =? 0) with false by (symmetry; apply Z.eqb_neq; lia).
    replace (Z.of_nat n =? SIZE_MAX) with false by (symmetry; apply Z.eqb_neq; unfold SIZE_MAX; lia).
    set (sc := mkStunConn (buf_ (stunConn x)) (consumed_ (stunConn x) + n)).
    pose proof (settled_stun s c x sc Hs Hlk Ex (conj Hlen (proj2 Hok))) as G1.
    set (s1 := set_cns _ s) in *. wp_step. eapply wp_lift; [done|]. wp_step.
    rewrite Nat2Z.id. eapply wp_lift; [apply peek_inb; exact Hlen|]. set (frame := take n _).
    assert (Hp : packet_ok frame).
    { unfold frame. split; [apply Forall_take, Forall_drop, Hok|].
      unfold sized. rewrite length_take. lia. }
    assert (Ex1 : conns (cns s1) !! c = Some (conn_stun x sc)) by apply lookup_insert_eq.
    wp_step. eapply wp_mono; [by eapply (wp_handleTcpFrame E HE W s1 c sk frame); [apply G1..| | |]|].
    intros [] s2 Hh. pose proof (settled_handled s1 _ _ s2 (se_link _ _ G1) Hh) as G2.
    destruct Hh as [[Hs2 _ Hl2 _] _ _].
    destruct (ll_conn _ _ Hl2 c _ Ex1) as (x2 & Ex2 & _ & _ & Hst & _).
    eapply wp_mono; [apply (IH s2 x2); [done|apply G2|by rewrite (se_sock _ _ G2)|done|]|].
    + rewrite Hst. cbn. unfold pending. cbn. rewrite length_drop.
      unfold pending in Hf. rewrite length_drop in Hf. lia.
    + intros [] s3 G3. eapply settled_trans; [exact G1|]. by eapply settled_trans.
Qed.

(** Data on a paired connection goes to its peer, before that it is kept up to the cap. *)
Lemma wp_appendPrePair s c sk data x :
  srv_ok E s -> linked E W s -> conns (cns s) !! c = Some x ->
  wp (appendPrePair E c sk data) (fun _ s' => settled s s') s.
Proof.
  intros Hs Hlk Ex. unfold appendPrePair. wp_step.
  eapply wp_mono; [by eapply wp_dataPipePeerRef|]. intros o s1 [-> Ho].
  destruct (co_state _ (so_conns _ _ Hs) c x Ex) as [Hw _].
  assert (Hput : forall b, calm s (set_cns (fun t => set_conns (<[c := conn_prePair x b]> (conns t)) t) s)).
  { intros b. by apply (calm_conn_put E s c x). }
  destruct o as [p|].
  - wp_step. eapply wp_conn_get; [done|]. wp_step.
    eapply (wp_mono _ (fun _ s1 => calm s s1)).
    { destruct (_ =? _)%nat; [wp_step; by eapply calm_refl|]. wp_step.
      eapply wp_mono; [by apply wp_sendTcpRaw|]. intros [] s1 H1.
      destruct (ll_conn _ _ (calm_live _ _ H1) c x Ex) as (x1 & Ex1 & _).
      pose proof (calm_srv E s s1 Hs H1) as Hs1.
      destruct (co_state _ (so_conns _ _ Hs1) c x1 Ex1) as [Hw1 _].
      wp_step. eapply wp_conn_get; [done|]. wp_step. eapply calm_trans; [done|].
      by apply (calm_conn_put E s1 c x1). }
    intros [] s1 H1.
    eapply wp_mono; [apply wp_sendTcpRaw; [done|by eapply calm_srv|by eapply (conn_live_calm s s1 (Some p))]|].
    intros [] s2 H2. apply settled_calm; [done|done|]. by eapply calm_trans.
  - wp_step. eapply wp_conn_get; [done|]. destruct (_ <? _).
    + wp_step. wp_step. pose proof (settled_calm s _ Hs Hlk (Hput [])) as G1.
      eapply wp_mono; [apply settled_enqueue; apply G1|]. intros [] s2. by apply settled_trans.
    + wp_step. by apply settled_calm.
Qed.

Lemma wp_handleTcpConnData s sk data :
  srv_ok E s -> linked E W s -> bytes_ok data ->
  wp (handleTcpConnData E sk data) (fun _ s' => settled s s') s.
Proof.
  intros Hs Hlk Hd. unfold handleTcpConnData. wp_step.
  eapply wp_mono; [by eapply wp_tcpConnRef_linked|]. intros o s1 (-> & Hl & Hsk).
  destruct o as [c|]; [|wp_step; by apply settled_refl]. specialize (Hsk c eq_refl).
  destruct (co_sock _ (so_conns _ _ Hs) sk c Hsk) as (x & Ex & Hx).
  wp_step. eapply wp_conn_get; [done|]. destruct (isData x); [by eapply wp_appendPrePair|].
  destruct (co_state _ (so_conns _ _ Hs) c x Ex) as [_ Hok].
  destruct (feed_spec (stunConn x) data Hok Hd) as [Hfok Hfp].
  pose proof (settled_stun s c x (feed (stunConn x) data) Hs Hlk Ex Hfok) as G1.
  wp_step. wp_step. set (s1 := set_cns _ s) in *.
  eapply wp_mono; [eapply (wp_connLoop _ s1 c sk (conn_stun x (feed (stunConn x) data))); [apply G1..|done| |]|].
  - apply lookup_insert_eq.
  - cbn. unfold pending. rewrite length_drop. lia.
  - intros [] s2. by apply settled_trans.
Qed.

End Receive.
