(* ===== verification/TurnRun.v ===== *)
(** * Runs of the server

    The invariant [inv] of a running server, what the outside world does ([event_ok]), and
    the proof that every event of [TurnServer.step] is carried out and keeps the invariant. *)

From S2P Require Import Prelude.
From S2P Require Import StateMonad.
From S2P Require Import Bytes.
From S2P Require Import Crypto.
From S2P Require Import Addr.
From S2P Require Import StunMessage.
From S2P Require Import StunAttributes.
From S2P Require Import ChannelData.
From S2P Require Import StunConn.
From S2P Require Import TcpWriter.
From S2P Require Import TurnState.
From S2P Require Import TurnCore.
From S2P Require Import TurnHandlers.
From S2P Require Import TurnServer.
From S2P Require Import TurnInv.
From S2P Require Import TurnGrants.
From S2P Require Import TurnSafe.
From S2P Require Import TurnRequests.
From S2P Require Import TurnLinks.
From S2P Require Import TurnSteps.
From S2P Require Import TurnRelay.
From S2P Require Import TurnDispatch.
From S2P Require Import TurnEvents.
From S2P Require Import TurnConns.
From S2P Require Import TurnExpiry.
Open Scope Z_scope.

(** The connections that wait in the control queue to be registered. *)
Definition accepts (q : list WorkItem) : list (socket_t * AddrRecord) :=
  omap (fun it => match wk_kind it with
                  | TcpAccepted => Some (wk_sock it, wk_from it)
                  | _ => None
                  end) q.

Lemma accepts_app q q' : accepts (q ++ q') = accepts q ++ accepts q'.
Proof. apply omap_app. Qed.

Lemma accepts_closed l : Forall (fun it => wk_kind it = TcpConnClosed) l -> accepts l = [].
Proof. induction 1 as [|it l H _ IH]; [done|]. cbn. by rewrite H. Qed.

Definition shard_item_ok (it : WorkItem) : Prop := packet_ok (wk_data it).

Section Run.
Context (E : Env) (HE : env_ok E) (W : World).

(** ** The outside world *)

(** A datagram from a client: bytes of a real packet, from an address of the datagram side,
    and no Allocate request for a TCP relay. *)
Definition datagram_ok (data : bytes) (from : AddrRecord) : Prop :=
  packet_ok data /\ is_Some (normalize (addr from)) /\ is_udp W (printed E from) /\ udp_relay_only data.

(** Sockets and peers of the waiting connections are new and pairwise different. *)
Definition accepts_ok (c : Conns) (l : list (socket_t * AddrRecord)) : Prop :=
  NoDup l.*1 /\ NoDup (printed E <$> l.*2) /\ Forall (fun p => acceptable E W c p.1 p.2) l.

Definition event_ok (s : Srv) (e : Event) : Prop :=
  match e with
  | EvUdp data from => datagram_ok data from
  | EvAccepted sk peer => accepts_ok (cns s) (accepts (controlQueue_ s) ++ [(sk, peer)])
  | EvRelay _ data _ | EvConnData _ data => packet_ok data
  | _ => True
  end.

(** ** The invariant *)

Definition control_item_ok (it : WorkItem) : Prop :=
  match wk_kind it with UdpData => datagram_ok (wk_data it) (wk_from it) | _ => True end.

Record inv (s : Srv) : Prop := {
  iv_ok : srv_ok E s;
  iv_link : linked E W s;
  iv_control : Forall control_item_ok (controlQueue_ s);
  iv_accept : accepts_ok (cns s) (accepts (controlQueue_ s));
  iv_shard : Forall (Forall shard_item_ok) (shardQueues s) }.

(** Fewer open sockets, same peers: what was acceptable stays so. *)
Lemma acceptable_mono c c' sk peer :
  acceptable E W c sk peer ->
  (tcpBySock_ c' !! sk = None) ->
  (forall sk' j y, tcpBySock_ c' !! sk' = Some j -> conns c' !! j = Some y ->
     (exists x, tcpBySock_ c !! sk' = Some j /\ conns c !! j = Some x /\ peerAddr y = peerAddr x) \/
     printed E (peerAddr y) <> printed E peer) ->
  acceptable E W c' sk peer.
Proof.
  intros (A1 & A2 & A3 & A4 & A5) Hn Hsub. repeat (split; [done|]). intros sk' j y Hj Ey.
  destruct (Hsub sk' j y Hj Ey) as [(x & Hj' & Ex & Hp)|?]; [|done]. rewrite Hp. by eapply A5.
Qed.

Lemma accepts_ok_mono c c' l :
  accepts_ok c l ->
  (forall sk peer, acceptable E W c sk peer -> acceptable E W c' sk peer) -> accepts_ok c' l.
Proof.
  intros (H1 & H2 & H3) H. split; [done|]. split; [done|]. eapply Forall_impl; [exact H3|]. eauto.
Qed.

Lemma acceptable_settled s s' sk peer :
  srv_ok E s -> settled E W s s' -> acceptable E W (cns s) sk peer ->
  acceptable E W (cns s') sk peer.
Proof.
  intros Hs Hst Ha. eapply acceptable_mono; [exact Ha|rewrite (se_sock _ _ _ _ Hst); apply Ha|].
  intros sk' j y Hj Ey. left. rewrite (se_sock _ _ _ _ Hst) in Hj.
  destruct (co_sock _ (so_conns _ _ Hs) sk' j Hj) as (x & Ex & _).
  destruct (se_conn _ _ _ _ Hst j x Ex) as (y' & Ey' & Hp). simplify_eq. by exists x.
Qed.

Lemma inv_settled s s' : inv s -> settled E W s s' -> inv s'.
Proof.
  intros [H1 H2 H3 H4 H5] Hst. pose proof (se_control _ _ _ _ Hst) as (l & Q & Hl).
  constructor; [apply Hst|apply Hst| | |by rewrite (se_shard _ _ _ _ Hst)]; rewrite Q.
  - apply Forall_app. split; [done|]. eapply Forall_impl; [exact Hl|]. intros it Hit.
    unfold control_item_ok. by rewrite Hit.
  - rewrite accepts_app, (accepts_closed l Hl), app_nil_r.
    eapply accepts_ok_mono; [exact H4|]. intros sk peer. by apply acceptable_settled.
Qed.

Lemma inv_calm s s' : inv s -> calm s s' -> inv s'.
Proof. intros H Hc. eapply inv_settled; [exact H|]. apply settled_calm; [apply H|apply H|done]. Qed.

Lemma inv_handled s data alloc s' : inv s -> handled E W s data alloc s' -> inv s'.
Proof. intros H Hh. eapply inv_settled; [exact H|]. eapply settled_handled; [apply H|exact Hh]. Qed.

Lemma inv_good s s' : inv s -> good E W s s' -> inv s'.
Proof.
  intros H Hg. eapply inv_settled; [exact H|].
  apply settled_fine; [apply H|by apply good_fine|apply quiet_queues, Hg].
Qed.

(** ** Queues *)

Lemma wp_enqueueControl s it :
  inv s -> control_item_ok it -> accepts_ok (cns s) (accepts (controlQueue_ s ++ [it])) ->
  wp (enqueueControl it) (fun _ s' => inv s') s.
Proof.
  intros [[H1 H2 H3 H4] K2 K3 K4 K5] Hit Hacc. unfold enqueueControl. wp_step.
  constructor; [by constructor|done|apply Forall_app; split; [done|by constructor]|done|done].
Qed.

Lemma wp_enqueueOther s it :
  inv s -> wk_kind it <> TcpAccepted -> control_item_ok it -> wp (enqueueControl it) (fun _ s' => inv s') s.
Proof.
  intros Hi Hk Hit. apply wp_enqueueControl; [done|done|]. rewrite accepts_app. cbn.
  destruct (wk_kind it); try done; rewrite app_nil_r; apply Hi.
Qed.

Lemma wp_toShardOf s sk it : inv s -> shard_item_ok it -> wp (toShardOf sk it) (fun _ s' => inv s') s.
Proof.
  intros [[H1 H2 H3 H4] K2 K3 K4 K5] Hit. unfold toShardOf, enqueueToShard. wp_step. wp_step. wp_step.
  constructor; [by constructor|done|done|done|]. cbn. set (idx := Z.to_nat _).
  apply Forall_lookup. intros i q Hq. destruct (decide (idx = i)) as [->|Hne].
  - rewrite list_lookup_alter_eq in Hq. destruct (shardQueues s !! i) as [q0|] eqn:E0; [|done].
    cbn in Hq. injection Hq as <-. apply Forall_app. split; [|by constructor].
    exact (Forall_lookup_1 _ _ _ _ K5 E0).
  - rewrite list_lookup_alter_ne in Hq by done. exact (Forall_lookup_1 _ _ _ _ K5 Hq).
Qed.

(** ** IO callbacks *)

Lemma wp_ioOnUdpData s data from :
  inv s -> datagram_ok data from -> wp (ioOnUdpData E data from) (fun _ s' => inv s') s.
Proof.
  intros Hi Hd. pose proof (iv_ok _ Hi) as Hs. unfold ioOnUdpData.
  destruct (isChannelData_total data) as (cd & Hcd & _). wp_step. eapply wp_lift; [done|]. wp_step.
  eapply (wp_mono _ (fun o s' => s' = s /\ alloc_live s o)).
  { destruct cd; [|by wp_step]. unfold findAllocByClientRef. wp_step. wp_step.
    pose proof (clientAddr_live E s from Hs) as Hl.
    eapply wp_mono; [by apply wp_refAlloc|]. by intros o s' [-> ->]. }
  intros o s' [-> Ho]. destruct o as [a|].
  - destruct Ho as [x Ex]. eapply wp_mono; [by eapply (wp_channel_handled E HE W s a x data None); [..|apply Hd]|].
    intros [] s'. by apply inv_handled.
  - by apply wp_enqueueOther.
Qed.

Lemma wp_forward s a x from data :
  inv s -> heap (tabs s) !! a = Some x -> packet_ok data ->
  wp (forwardToClient E a from data) (fun _ s' => inv s') s.
Proof.
  intros Hi Ex [_ Hd]. eapply wp_mono; [apply wp_forwardToClient; [done|apply Hi|done|done]|].
  intros [] s' (Hc & _). by eapply inv_calm.
Qed.

Lemma wp_findRelay s sk :
  inv s -> wp (findAllocByRelayRef sk) (fun o s' => s' = s /\ alloc_live s o) s.
Proof.
  intros Hi. unfold findAllocByRelayRef. wp_step. wp_step.
  pose proof (relaySock_live E s sk (iv_ok _ Hi)) as Hl.
  eapply wp_mono; [by apply wp_refAlloc|]. by intros o s' [-> ->].
Qed.

Lemma wp_ioOnRelayData s sk data from :
  inv s -> packet_ok data -> wp (ioOnRelayData E sk data from) (fun _ s' => inv s') s.
Proof.
  intros Hi Hd. unfold ioOnRelayData. wp_step. eapply wp_mono; [by apply wp_findRelay|].
  intros o s' [-> Ho]. destruct o as [a|]; [|by wp_step]. destruct Ho as [x Ex].
  wp_step. eapply wp_alloc_get; [done|]. destruct (_ =? _); [by eapply wp_forward|by apply wp_toShardOf].
Qed.

(** ** The business thread *)

Lemma accepts_cons_inv c it q :
  accepts_ok c (accepts (it :: q)) -> accepts_ok c (accepts q).
Proof.
  intros (H1 & H2 & H3). cbn in *. destruct (wk_kind it); [done| |done..].
  cbn in *. apply NoDup_cons in H1 as [_ H1]. apply NoDup_cons in H2 as [_ H2].
  apply Forall_cons in H3 as [_ H3]. done.
Qed.

Lemma inv_pop s it q : inv s -> controlQueue_ s = it :: q -> inv (set_controlQueue q s).
Proof.
  intros [[H1 H2 H3 H4] K2 K3 K4 K5] Hq. rewrite Hq in *. apply Forall_cons in K3 as [_ K3].
  constructor; [by constructor|done|done|by eapply accepts_cons_inv|done].
Qed.

(** The next waiting connection is registered. *)
Lemma wp_register s sk peer :
  inv s -> accepts_ok (cns s) ((sk, peer) :: accepts (controlQueue_ s)) ->
  wp (registerTcpConn sk peer) (fun _ s' => inv s') s.
Proof.
  intros [H1 H2 H3 H4 H5] (A1 & A2 & A3). cbn [fmap list_fmap fst snd] in A1, A2.
  apply NoDup_cons in A1 as [N1 _]. apply NoDup_cons in A2 as [N2 _].
  apply Forall_cons in A3 as [A3 Afr]. cbn in A3.
  eapply wp_mono; [by apply wp_registerTcpConn|]. intros [] s' (Hs' & Hl' & Hq & Hc & Ht & _).
  pose proof (f_equal fst Hq) as Q1. pose proof (f_equal snd Hq) as Q2. cbn in Q1, Q2.
  constructor; [done|done|by rewrite Q1| |by rewrite Q2]. rewrite Q1.
  destruct H4 as (B1 & B2 & B3). split; [done|]. split; [done|].
  apply Forall_forall. intros [sk2 peer2] Hin.
  assert (Hsk : sk <> sk2).
  { intros <-. apply N1. apply list_elem_of_fmap. by exists (sk, peer2). }
  assert (Hpe : printed E peer <> printed E peer2).
  { intros He. apply N2. rewrite He. apply list_elem_of_fmap. exists peer2. split; [done|].
    apply list_elem_of_fmap. by exists (sk2, peer2). }
  apply (Forall_forall _ (accepts (controlQueue_ s))) with (x := (sk2, peer2)) in B3; [|done].
  cbn in *. eapply acceptable_mono; [exact B3|rewrite Hc; cbn; rewrite lookup_insert_ne by done; apply B3|].
  intros sk' j y Hj Ey. rewrite Hc in Hj, Ey. cbn in Hj, Ey.
  pose proof (fresh_conn _ (so_conns _ _ H1)) as Hf.
  apply lookup_insert_Some in Hj as [[_ <-]|[_ Hj]].
  - right. rewrite lookup_insert_eq in Ey. injection Ey as <-. done.
  - left. destruct (co_sock _ (so_conns _ _ H1) sk' j Hj) as (x & Ex & _).
    rewrite lookup_insert_ne in Ey by congruence. by exists y.
Qed.

Lemma wp_close s i sk :
  inv s -> tcpBySock_ (cns s) !! sk = Some i -> dataPipe_ (cns s) !! sk <> Some sk ->
  wp (closeTcpConn E i) (fun _ s' => inv s') s.
Proof.
  intros [H1 H2 H3 H4 H5] Hi Hself. eapply wp_mono; [by eapply wp_closeTcpConn|].
  intros [] s' (Hs' & Hl' & Hq & _ & _ & x & dp & Ex & _ & Hc).
  pose proof (f_equal fst Hq) as Q1. pose proof (f_equal snd Hq) as Q2. cbn in Q1, Q2.
  constructor; [done|done|by rewrite Q1| |by rewrite Q2]. rewrite Q1.
  eapply accepts_ok_mono; [exact H4|]. intros sk2 peer2 Ha.
  eapply acceptable_mono; [exact Ha| |].
  - rewrite Hc. cbn. apply lookup_delete_None. right. apply Ha.
  - intros sk' j y Hj Ey. rewrite Hc in Hj, Ey. cbn in Hj, Ey. left.
    destruct (unlink_sock _ i x sk' j (so_conns _ _ H1) Ex Hj) as [Hj' Hne].
    rewrite lookup_insert_ne in Ey by done. by exists y.
Qed.

Lemma conn_get_run s c x : conns (cns s) !! c = Some x -> conn_get c s = Some (x, s).
Proof. unfold conn_get. by intros ->. Qed.

(** The next item closes a connection whose socket is its own peer in the data pipe. *)
Definition closes_self_paired (s : Srv) (e : Event) : Prop :=
  exists it q c x, e = EvControl /\ controlQueue_ s = it :: q /\ wk_kind it = TcpConnClosed /\
    tcpBySock_ (cns s) !! wk_sock it = Some c /\ conns (cns s) !! c = Some x /\ dying x = false /\
    dataPipe_ (cns s) !! wk_sock it = Some (wk_sock it).

Lemma closes_self_paired_dec s e : closes_self_paired s e \/ ~ closes_self_paired s e.
Proof.
  unfold closes_self_paired.
  destruct (controlQueue_ s) as [|it q]; [right; by intros (? & ? & ? & ? & _ & ? & _)|].
  destruct (tcpBySock_ (cns s) !! wk_sock it) as [c|] eqn:Ec.
  2:{ right. intros (? & ? & ? & ? & _ & Hq & _ & Hc & _). injection Hq as <- <-. congruence. }
  destruct (conns (cns s) !! c) as [x|] eqn:Ex.
  2:{ right. intros (? & ? & ? & ? & _ & Hq & _ & Hc & Hx & _). injection Hq as <- <-. congruence. }
  destruct (decide (dying x = false /\ dataPipe_ (cns s) !! wk_sock it = Some (wk_sock it))) as [[Hd Hp]|Hn].
  2:{ right. intros (? & ? & ? & ? & _ & Hq & _ & Hc & Hx & Hd & Hp). injection Hq as <- <-.
      apply Hn. split; congruence. }
  destruct e; try (right; by intros (? & ? & ? & ? & ? & _)).
  destruct (wk_kind it) eqn:Ek;
    try (right; intros (? & ? & ? & ? & _ & Hq & Hk & _); injection Hq as <- <-; congruence).
  left. by exists it, q, c, x.
Qed.

Lemma tcpConnRef_some s s' sk c :
  tcpConnRef sk s = Some (Some c, s') ->
  exists x, tcpBySock_ (cns s) !! sk = Some c /\ conns (cns s) !! c = Some x /\ dying x = false.
Proof.
  unfold tcpConnRef. rewrite run_gets. destruct (tcpBySock_ (cns s) !! sk) as [c'|]; [|done].
  destruct (conns (cns s) !! c') as [x|] eqn:Ex.
  2:{ unfold mbind, SM_bind, conn_get. by rewrite Ex. }
  rewrite (run_bind _ _ _ _ _ (conn_get_run s c' x Ex)). destruct (dying x) eqn:Ed; [done|]. intros [= <- <-]. by exists x.
Qed.

(** Closing such a connection erases through an invalid iterator. *)
Lemma self_paired_fails s e : inv s -> closes_self_paired s e -> step E e s = None.
Proof.
  intros Hi (it & q & c & x & -> & Hq & Hk & Hc & Ex & Hd & Hp).
  assert (Hs1 : srv_ok E (set_controlQueue q s)) by (destruct (iv_ok _ Hi); by constructor).
  destruct (co_sock _ (so_conns _ _ (iv_ok _ Hi)) _ c Hc) as (x' & Ex' & Hsk). simplify_eq.
  destruct (pe_tcp _ _ _ (lk_peers _ _ _ _ (iv_link _ Hi)) _ c Hc) as (_ & _ & Hne & _).
  cbn [step]. rewrite run_gets, Hq, run_modify. unfold processItem. rewrite Hk.
  set (s1 := set_controlQueue q s) in *.
  assert (Href : tcpConnRef (wk_sock it) s1 = Some (Some c, s1)).
  { unfold tcpConnRef. rewrite run_gets. cbn [cns set_controlQueue s1]. rewrite Hc.
    by rewrite (run_bind _ _ _ _ _ (conn_get_run s1 c x Ex)), Hd. }
  rewrite (run_bind _ _ _ _ _ Href). unfold closeTcpConn.
  rewrite (run_bind _ _ _ _ _ (conn_get_run s1 c x Ex)), Hsk, (proj2 (Z.eqb_neq _ _) Hne), run_gets.
  assert (Hrun : exists s2, (match allocByControlSock_ (tabs s1) !! wk_sock it with
    | Some a => destroyAllocation E a | None => skip end) s1 = Some (tt, s2) /\ cns s2 = cns s1).
  { destruct (allocByControlSock_ (tabs s1) !! wk_sock it) as [a|] eqn:Ea; [|by exists s1].
    destruct (ok_control _ _ (so_tabs _ _ Hs1) _ a Hne Ea) as (y & Ey & _).
    destruct (wp_destroy_ok E s1 a y Hs1 Ey) as ([] & s2 & E2 & _ & _ & F2). exists s2. split; [done|apply F2]. }
  destruct Hrun as (s2 & E2 & C2). rewrite (run_bind _ _ _ _ _ E2), run_gets, C2.
  assert (Hnone : erasePipe (wk_sock it) (dataPipe_ (cns s1)) = None)
    by (unfold erasePipe; cbn; by rewrite Hp, Z.eqb_refl).
  by rewrite Hnone.
Qed.

Lemma wp_processItem s it q :
  inv s -> controlQueue_ s = it :: q -> ~ closes_self_paired s EvControl ->
  wp (processItem E it) (fun _ s' => inv s') (set_controlQueue q s).
Proof.
  intros Hi Hq Hself. pose proof (inv_pop s it q Hi Hq) as Hi1. set (s1 := set_controlQueue q s) in *.
  pose proof (iv_control _ Hi) as Hc. pose proof (iv_accept _ Hi) as Hacc.
  rewrite Hq in Hc, Hacc. apply Forall_cons in Hc as [Hit _].
  unfold processItem. unfold control_item_ok in Hit. cbn in Hacc.
  destruct (wk_kind it) eqn:Ek; try by wp_step.
  - destruct Hit as (Hd & Hn & Hu & Hro).
    eapply wp_mono; [apply (wp_handleUdpPacket E HE W s1); [apply Hi1|apply Hi1|done|done|done|]|].
    { intros m u Hm Hr Hal _. by apply Hro. }
    intros [] s'. by apply inv_handled.
  - by apply wp_register.
  - wp_step. eapply wp_mono; [apply wp_eq, (wp_tcpConnRef_linked E s1), Hi1|].
    intros o s' (Href & -> & _ & Hsk). destruct o as [c|]; [|by wp_step].
    apply (wp_close s1 c (wk_sock it)); [done|by apply Hsk|]. intros Hp. apply Hself.
    destruct (tcpConnRef_some _ _ _ _ Href) as (x & Hc' & Ex & Hdy). by exists it, q, c, x.
Qed.

(** ** The data shards *)

Lemma wp_processShardItem s it :
  inv s -> shard_item_ok it -> wp (processShardItem E it) (fun _ s' => inv s') s.
Proof.
  intros Hi Hit. unfold processShardItem. destruct (wk_kind it); try by wp_step.
  - wp_step. eapply wp_mono; [by apply wp_findRelay|]. intros o s' [-> Ho].
    destruct o as [a|]; [|by wp_step]. destruct Ho as [x Ex]. by eapply wp_forward.
  - eapply wp_mono; [apply (wp_handleTcpConnData E HE W); [apply Hi..|apply Hit]|].
    intros [] s'. by apply inv_settled.
  - wp_step. eapply wp_mono; [apply (wp_tcpConnRef_linked E s), Hi|].
    intros o s' (-> & Hl & _). destruct o as [c|]; [|by wp_step].
    wp_step. eapply wp_mono; [apply wp_flushTcp; [done|apply Hi|]|].
    { apply (linked_live E s (Some c)); [apply Hi|done]. }
    intros ok s' Hc. pose proof (inv_calm s s' Hi Hc) as Hi'. destruct ok; [by wp_step|].
    by apply wp_enqueueOther.
Qed.

Lemma inv_shard s i it q :
  inv s -> shardQueues s !! i = Some (it :: q) ->
  shard_item_ok it /\ inv (set_shardQueues (<[i := q]> (shardQueues s)) s).
Proof.
  intros [[H1 H2 H3 H4] K2 K3 K4 K5] Hq. pose proof (Forall_lookup_1 _ _ _ _ K5 Hq) as Hcons.
  apply Forall_cons in Hcons as [Hit Hrest]. split; [done|].
  constructor; [by constructor|done|done|done|]. cbn. by apply Forall_insert.
Qed.

(** ** Every event *)

Lemma inv_clock s t : inv s -> inv (set_clock t s).
Proof. intros [[H1 H2 H3 H4] K2 K3 K4 K5]. by constructor. Qed.

Lemma inv_reap s s' :
  inv s -> srv_ok E s' -> linked E W s' -> queues s' = queues s ->
  tcpBySock_ (cns s') = tcpBySock_ (cns s) ->
  (forall j x, conns (cns s') !! j = Some x -> conns (cns s) !! j = Some x) -> inv s'.
Proof.
  intros [H1 H2 H3 H4 H5] Hs Hl Hq Hsk Hc.
  pose proof (f_equal fst Hq) as Q1. pose proof (f_equal snd Hq) as Q2. cbn in Q1, Q2.
  constructor; [done|done|by rewrite Q1| |by rewrite Q2]. rewrite Q1.
  eapply accepts_ok_mono; [exact H4|]. intros sk peer Ha. eapply acceptable_mono; [exact Ha| |].
  - rewrite Hsk. apply Ha.
  - intros sk' j y Hj Ey. left. exists y. rewrite Hsk in Hj. auto.
Qed.

Lemma wp_step_inv s e :
  inv s -> event_ok s e -> ~ closes_self_paired s e -> wp (step E e) (fun _ s' => inv s') s.
Proof.
  intros Hi He Hself. destruct e as [data from|sk peer|sk data from|sk data|sk|sk| |i| |]; cbn [step event_ok] in *.
  - by apply wp_ioOnUdpData.
  - unfold ioOnTcpAccepted. apply wp_enqueueControl; [done|done|]. by rewrite accepts_app.
  - by apply wp_ioOnRelayData.
  - by apply wp_toShardOf.
  - by apply wp_enqueueOther.
  - apply wp_toShardOf; [done|]. by split; [constructor|].
  - wp_step. wp_step. destruct (controlQueue_ s) as [|it q] eqn:Eq; [by wp_step|].
    wp_step. wp_step. by apply wp_processItem.
  - wp_step. wp_step. destruct (shardQueues s !! i) as [[|it q]|] eqn:Eq; [by wp_step| |by wp_step].
    destruct (inv_shard s i it q Hi Eq) as [Hit Hi1]. wp_step. wp_step. by apply wp_processShardItem.
  - eapply wp_mono; [apply (wp_reapPendingConns E W); apply Hi|].
    intros [] s' (Hs' & Hl' & Hq & _ & Hsk & Hc). eapply inv_reap; [done..|].
    intros j x. rewrite Hc. by case_decide.
  - eapply wp_mono; [apply (wp_expireStale E W), Hi|]. intros [] s' [Hg _]. by eapply inv_good.
Qed.

(** ** Reachable states *)

(** The states of a server with [n] shards, whose configured port range is that of [W], in a
    world that behaves. *)
Inductive reach (n : nat) : Srv -> Prop :=
| reach_init now b e :
    0 < b < 65536 -> 0 < e < 65536 -> portLo W = Z.min b e -> portHi W = Z.max b e ->
    reach n (initSrv E now b e n)
| reach_step s t ev s' :
    reach n s -> event_ok (set_clock t s) ev -> step E ev (set_clock t s) = Some (tt, s') ->
    reach n s'.

Lemma inv_init now b e n :
  0 < b < 65536 -> 0 < e < 65536 -> portLo W = Z.min b e -> portHi W = Z.max b e ->
  inv (initSrv E now b e n).
Proof.
  intros Hb He Hlo Hhi. constructor.
  - constructor.
    + constructor; cbn; try done; intros *; rewrite ?lookup_empty; try done; intros []%elem_of_nil.
    + constructor; cbn; try done; intros *; rewrite ?lookup_empty; try done; intros []%elem_of_nil.
    + apply nonce_sized.
    + done.
  - constructor; [|done|done|cbn [tabs allocations_ initSrv]; rewrite map_size_empty; lia| |done].
    + constructor; cbn; intros *; by rewrite lookup_empty.
    + unfold rangeOf. cbn. by rewrite Hlo, Hhi.
  - constructor.
  - split; [constructor|]. split; constructor.
  - cbn. apply Forall_replicate. constructor.
Qed.

Lemma inv_reach n s : reach n s -> inv s.
Proof.
  induction 1 as [now b e Hb He Hlo Hhi|s t ev s' _ IH Hev Hst]; [by apply inv_init|].
  assert (Hn : ~ closes_self_paired (set_clock t s) ev).
  { intros Hc. apply self_paired_fails in Hc; [congruence|by apply inv_clock]. }
  destruct (wp_step_inv (set_clock t s) ev (inv_clock s t IH) Hev Hn) as ([] & s2 & Hs2 & H2). congruence.
Qed.

End Run.

(** ** A sample server

    A concrete environment and a concrete state with one allocation, at which the theorems
    about the server are instantiated. *)

(** The address of a sample host prints as its last byte. *)
Definition demoPrint (sa : sockaddr) : option (string * string) :=
  match sa with
  | SockIn _ [_; _; _; 7] => Some ("client"%string, "7"%string)
  | SockIn _ [_; _; _; 21] => Some ("alice"%string, "21"%string)
  | SockIn _ [_; _; _; 22] => Some ("bob"%string, "22"%string)
  | SockIn _ [_; _; _; 23] => Some ("first"%string, "23"%string)
  | SockIn _ [_; _; _; 24] => Some ("second"%string, "24"%string)
  | _ => Some ("host"%string, "0"%string)
  end.

Definition demoEnv : Env :=
  mkEnv "stice" {[ "alice"%string := "secret"%string ]} 10 600 3600000
    (SockIn 0 [192; 0; 2; 1]) 16 true
    (fun _ n => Some (replicate n 7))
    (fun k p => Some (100 + Z.of_nat k, Some p))
    (fun _ _ n => (Z.of_nat n, false))
    demoPrint (fun _ => None).

Definition demoClient : AddrRecord := mkAddrRecord (SockIn 5000 [198; 51; 100; 7]) 16 SOCK_DGRAM.
Definition demoPeer : AddrRecord := mkAddrRecord (SockIn 6000 [203; 0; 113; 9]) 16 SOCK_DGRAM.
Definition demoStranger : AddrRecord := mkAddrRecord (SockIn 6001 [203; 0; 113; 10]) 16 SOCK_DGRAM.

Definition demoWorld : World :=
  mkWorld (fun p => p = printed demoEnv demoClient) 49152 65535.

Lemma demoEnv_ok : env_ok demoEnv.
Proof.
  constructor; cbn.
  - intros. lia.
  - intros k n b [= <-]. split; [apply length_replicate|]. by apply Forall_replicate.
  - intros k p h b [= <- <-]. split; [unfold STICE_INVALID_SOCKET; lia|by right].
  - done.
  - by eexists.
Qed.

Definition demoStart : Srv := initSrv demoEnv 0 49152 65535 2.

(** One allocation, with a permission and a channel for [demoPeer]. *)
Definition demoAlloc : Allocation :=
  mkAllocation SOCK_DGRAM demoClient STICE_INVALID_SOCKET 100 (buildRelayedAddr demoEnv 50000) 50000
    "alice" [mkPermission demoPeer 300000] [mkChannel 0x4001 demoPeer 600000] 600000 [].

Definition demoKey : string := keyOf demoEnv demoAlloc.

Definition demoSrv : Srv :=
  set_tabs (fun t => registerTabs demoKey demoClient false demoAlloc
                       (set_ports {[ 50000 := None ]} t)) demoStart.

Lemma demoStart_ok : inv demoEnv demoWorld demoStart.
Proof. by apply inv_init. Qed.

Lemma demoStart_reach : reach demoEnv demoWorld 2 demoStart.
Proof. by apply reach_init. Qed.

Lemma demoSrv_ok : srv_ok demoEnv demoSrv.
Proof.
  pose proof (iv_ok _ _ _ demoStart_ok) as H0. eapply (srv_ok_eq _ demoStart); [done|done|done| |done].
  cbn [tabs set_tabs demoSrv]. apply (tabs_ok_register demoEnv); [|done|done| |by eexists|by eexists].
  - apply tabs_ok_reserve; [apply H0|done].
  - split; [done|]. split; [by repeat constructor|]. split; [constructor|].
    split; [split; [constructor|done]|]. split; [split; [constructor|done]|]. apply NoDup_singleton.
Qed.

Lemma demoSrv_linked : linked demoEnv demoWorld demoSrv.
Proof.
  constructor.
  - constructor; cbn; intros *; by rewrite lookup_empty.
  - intros i x. cbn. rewrite lookup_insert_Some. intros [[_ <-]|[_ H]]; [done|by rewrite lookup_empty in H].
  - done.
  - vm_compute. congruence.
  - done.
  - intros i x. cbn. rewrite lookup_insert_Some. intros [[_ <-]|[_ H]]; [done|by rewrite lookup_empty in H].
Qed.

Lemma demoSrv_alloc : heap (tabs demoSrv) !! 0%nat = Some demoAlloc.
Proof. done. Qed.
