(* ===== verification/TurnTheorems.v ===== *)
(** * What the TURN server guarantees

    The properties of the server as a whole: the one event that leads it astray, the
    consistency of its tables, and that requests without credentials change nothing, data is
    relayed only where a permission or a channel allows it, and each request has exactly the
    effect it asks for. *)

From S2P Require Import Prelude.
From S2P Require Import StateMonad.
From S2P Require Import Bytes.
From S2P Require Import Crypto.
From S2P Require Import Addr.
From S2P Require Import StunMessage.
From S2P Require Import StunAttributes.
From S2P Require Import ChannelData.
From S2P Require Import StunConn.
From S2P Require Import TcpWriter.
From S2P Require Import TurnState.
From S2P Require Import TurnCore.
From S2P Require Import TurnHandlers.
From S2P Require Import TurnServer.
From S2P Require Import TurnInv.
From S2P Require Import TurnGrants.
From S2P Require Import TurnSafe.
From S2P Require Import TurnRequests.
From S2P Require Import TurnLinks.
From S2P Require Import TurnSteps.
From S2P Require Import TurnRelay.
From S2P Require Import TurnDispatch.
From S2P Require Import TurnEvents.
From S2P Require Import TurnConns.
From S2P Require Import TurnExpiry.
From S2P Require Import TurnRun.
Open Scope Z_scope.

(** ** The server as a whole *)





(** ** Authentication *)

(** C4: requests without valid credentials change nothing.  A datagram from any client that
    does not decode to a message with a MESSAGE-INTEGRITY that verifies under the password of
    its user, and with the nonce in force, is processed without touching the allocation
    tables; the one exception is that the datagram is an Allocate request and the allocation
    the tables have for its sender has expired: then exactly that allocation is removed. *)
Theorem unauthenticated_packets_change_nothing E W s data src :
  env_ok E -> srv_ok E s -> linked E W s ->
  packet_ok data -> is_Some (normalize (addr src)) -> is_udp W (printed E src) ->
  (forall m u, decode emptyMessage data = Some (true, m) -> ~ authentic E s m u) ->
  exists s', handleUdpPacket E data src s = Some (tt, s') /\
    (tabs s' = tabs s \/
     exists m a x, decode emptyMessage data = Some (true, m) /\ cls m = Request /\
       method m = Method.Allocate /\
       allocations_ (tabs s) !! allocKey E SOCK_DGRAM src = Some a /\
       heap (tabs s) !! a = Some x /\ expiryMs x <= clock s /\
       tabs s' = destroyTabs E a x (tabs s)).
Proof.
  intros HE Hs Hl Hd Hn Hu Hno.
  destruct (wp_handleUdpPacket E HE W s data src Hs Hl Hd Hn Hu) as ([] & s' & Hst & [_ Ha _]).
  { intros m u Hm _ _ Hau. by destruct (Hno m u Hm). }
  exists s'. split; [done|]. destruct Ha as [(m & u & Hm & Hau)|[Ha|(m & Hm & Hc & Hal & a & x & H)]].
  - by destruct (Hno m u Hm Hau).
  - by left.
  - right. by exists m, a, x.
Qed.

(** A Refresh request and an Allocate request without attributes. *)
Definition bareRefresh : bytes :=
  [0; 4; 0; 0; 33; 18; 164; 66; 1; 2; 3; 4; 5; 6; 7; 8; 9; 10; 11; 12].
Definition bareAllocate : bytes :=
  [0; 3; 0; 0; 33; 18; 164; 66; 1; 2; 3; 4; 5; 6; 7; 8; 9; 10; 11; 12].

(** The allocation of the sample client has expired and it asks for a new one without
    credentials: the tables change, so it is the exception that holds. *)
Lemma unauthenticated_packets_change_nothing_witness :
  exists s', handleUdpPacket demoEnv bareAllocate demoClient (set_clock 600000 demoSrv) = Some (tt, s') /\
    (tabs s' = tabs (set_clock 600000 demoSrv) \/
     exists m a x, decode emptyMessage bareAllocate = Some (true, m) /\ cls m = Request /\
       method m = Method.Allocate /\
       allocations_ (tabs (set_clock 600000 demoSrv)) !! allocKey demoEnv SOCK_DGRAM demoClient = Some a /\
       heap (tabs (set_clock 600000 demoSrv)) !! a = Some x /\ expiryMs x <= clock (set_clock 600000 demoSrv) /\
       tabs s' = destroyTabs demoEnv a x (tabs (set_clock 600000 demoSrv))).
Proof.
  apply (unauthenticated_packets_change_nothing demoEnv demoWorld);
    [apply demoEnv_ok| |apply demoSrv_linked| | | |].
  - destruct demoSrv_ok as [H1 H2 H3 H4]. constructor; assumption.
  - by split; [repeat constructor|].
  - by eexists.
  - done.
  - intros m u Hm. vm_compute in Hm. injection Hm as <-. intros [[a Ha] _]. done.
Defined.

(** C22: the decision of [authenticate].  It reports success exactly when the message has a
    MESSAGE-INTEGRITY that verifies under the long-term key of its user name, the request's
    realm and the user's password, and carries the current, unexpired nonce; then the state
    is unchanged and the user is the verified one.  Every other message gets 401 or 438 and
    leaves the tables and connections alone. *)
Theorem authenticate_decision E s msg :
  srv_ok E s -> req_ok msg ->
  exists code u s', authenticate E msg s = Some ((code, u), s') /\
    (code = 0 <-> exists v, authentic E s msg v) /\
    (code = 0 -> s' = s /\ u = getStr msg AttrType.Username) /\
    (code <> 0 -> (code = 401 \/ code = 438) /\ tabs s' = tabs s /\ cns s' = cns s).
Proof.
  intros Hs Hm.
  destruct (wp_authenticate E s msg Hs Hm) as ([code u] & s' & Ha & Hc & Hcn & H).
  exists code, u, s'. split; [done|]. cbn [fst snd] in H. destruct H as [(-> & -> & Hu)|(Hcode & Hno)].
  - split; [split; [by exists u|done]|]. split; [|done]. intros _. split; [done|].
    by destruct Hu as (_ & _ & _ & -> & _).
  - assert (code <> 0) by lia. split; [split; [done|by intros Hv; destruct (Hno Hv)]|].
    split; [done|]. intros _. split; [done|]. split; [apply Hc|done].
Qed.

Definition bareRequest : Message :=
  mkMessage Method.Refresh Request [1; 2; 3; 4; 5; 6; 7; 8; 9; 10; 11; 12] [] bareRefresh.

Lemma bareRequest_ok : req_ok bareRequest.
Proof. apply (decode_req bareRefresh); [by repeat constructor|reflexivity]. Qed.

Lemma authenticate_decision_witness :
  exists code u s', authenticate demoEnv bareRequest demoSrv = Some ((code, u), s') /\
    (code = 0 <-> exists v, authentic demoEnv demoSrv bareRequest v) /\
    (code = 0 -> s' = demoSrv /\ u = getStr bareRequest AttrType.Username) /\
    (code <> 0 -> (code = 401 \/ code = 438) /\ tabs s' = tabs demoSrv /\ cns s' = cns demoSrv).
Proof.
  apply authenticate_decision; [apply demoSrv_ok|apply bareRequest_ok].
Defined.

(** ** Authorisation *)

(** C3: nothing is relayed without a grant.  Whatever packet a client sends, as a datagram
    (from an address of the datagram side) or as a frame of its control connection, to a
    server in a consistent state: the server processes it, and every datagram that leaves
    a relay socket on account of it leaves the relay socket of a live allocation, for a peer
    whose IP has an unexpired permission or that one of the allocation's channels is bound
    to. *)
Theorem client_data_needs_grant E W s :
  env_ok E -> srv_ok E s -> linked E W s ->
  (forall data src, packet_ok data -> is_Some (normalize (addr src)) -> is_udp W (printed E src) ->
     exists s', handleUdpPacket E data src s = Some (tt, s') /\ all_justified s s') /\
  (forall data c sk, tcpBySock_ (cns s) !! sk = Some c -> packet_ok data ->
     exists s', handleTcpFrame E c sk data s = Some (tt, s') /\ all_justified s s').
Proof.
  intros HE Hs Hl. split.
  - intros data src Hd Hn Hu.
    destruct (wp_datagram_justified E HE W s data src Hs Hl Hd Hn Hu) as ([] & s' & Hst & Ho).
    by exists s'.
  - intros data c sk Hsk Hd. destruct (co_sock _ (so_conns _ _ Hs) sk c Hsk) as (y & Ey & _).
    destruct (wp_handleTcpFrame E HE W s c sk data y Hs Hl Hsk Ey Hd) as ([] & s' & Hst & [_ _ Ho]).
    by exists s'.
Qed.

(** ChannelData on the channel of the sample allocation, two bytes for its peer. *)
Definition demoChannelData : bytes := [64; 1; 0; 2; 8; 9].

(** The bytes leave the relay socket, for the peer the channel is bound to. *)
Lemma client_data_needs_grant_witness :
  exists s', handleUdpPacket demoEnv demoChannelData demoClient demoSrv = Some (tt, s') /\
    all_justified demoSrv s' /\ outs s' = outs demoSrv ++ [ORelay 100 demoPeer [8; 9]].
Proof.
  destruct (client_data_needs_grant demoEnv demoWorld demoSrv demoEnv_ok demoSrv_ok demoSrv_linked)
    as [H _]. destruct (H demoChannelData demoClient) as (s' & Hst & Hj);
    [by split; [repeat constructor|]|by eexists|done|].
  exists s'. split; [exact Hst|]. split; [exact Hj|].
  assert (Ho : option_map (fun r => outs r.2) (handleUdpPacket demoEnv demoChannelData demoClient demoSrv) =
    Some (outs demoSrv ++ [ORelay 100 demoPeer [8; 9]])) by (vm_compute; reflexivity).
  rewrite Hst in Ho. cbn [option_map snd] in Ho. by injection Ho.
Defined.

(** ** A TCP relay requested over UDP

    [handleAllocate] files an allocation under the key of its relay transport, but a datagram
    is looked up under the UDP key.  A datagram client that asks for a TCP relay twice is
    therefore not recognised the second time: its first allocation is freed while the port
    table and the client table still point to it.  [server_never_stuck] excludes such
    requests; this section shows that it has to. *)

(** A request with valid credentials of the configured user. *)
Definition demoTid : bytes := [1; 2; 3; 4; 5; 6; 7; 8; 9; 10; 11; 12].

Definition demoRequest (meth : Z) (attrs : Message -> Message) : bytes :=
  let m := attrs (mkMessage meth Request demoTid [] []) in
  let creds := mkCreds (bytes_of_string "alice") (bytes_of_string "stice")
                 (bytes_of_string (nonce_ demoStart)) (longTermKey "alice" "stice" "secret") in
  match encode m (Some []) (Some creds) None with Some m => raw m | None => [] end.

(** An Allocate request with REQUESTED-TRANSPORT 6 (TCP). *)
Definition tcpRelayRequest : bytes :=
  demoRequest Method.Allocate (fun m => addAttribute m AttrType.RequestedTransport [6; 0; 0; 0]).

(** The request arrives as a datagram and the business thread handles it. *)
Definition arrives (now : Z) : list (Z * Event) :=
  [(now, EvUdp tcpRelayRequest demoClient); (now, EvControl)].

(** The port table, the allocation table and the allocations that exist. *)
Definition owners (s : Srv) : list (Z * option nat) * list (string * nat) * list nat :=
  (map_to_list (usedRelayPorts_ (tabs s)), map_to_list (allocations_ (tabs s)),
   (map_to_list (heap (tabs s))).*1).

(** C24: an authenticated datagram client can make the server use freed memory.  The first
    request is granted.  The second, from the same client, is granted too: it replaces the
    table entry, which frees the first allocation, while its relay port stays recorded as
    owned by it.  The next tick of the expiry timer follows that pointer. *)
Theorem tcp_relay_over_udp_dangles :
  (exists s, run demoEnv (arrives 1) demoStart = Some (tt, s) /\
     owners s = ([(50951, Some 0%nat)], [("T|client:7"%string, 0%nat)], [0%nat])) /\
  (exists s, run demoEnv (arrives 1 ++ arrives 2) demoStart = Some (tt, s) /\
     owners s = ([(50951, Some 0%nat); (49152, Some 1%nat)], [("T|client:7"%string, 1%nat)], [1%nat])) /\
  run demoEnv (arrives 1 ++ arrives 2 ++ [(3, EvTick)]) demoStart = None.
Proof.
  split; [|split].
  - eexists. split; [vm_compute; reflexivity|vm_compute; reflexivity].
  - eexists. split; [vm_compute; reflexivity|vm_compute; reflexivity].
  - vm_compute. reflexivity.
Qed.

(** ** A socket paired with itself

    The first data connection of a CONNECTION-ID is remembered by its socket number, and
    nothing clears it when that connection closes.  When the number is given to a new
    connection and this one binds the same id, it is paired with itself; closing it erases
    its entry of [dataPipe_] twice. *)

Definition tcpAddr (k : Z) : AddrRecord := mkAddrRecord (SockIn (7000 + k) [203; 0; 113; k]) 16 SOCK_STREAM.

Definition accepted (sk : socket_t) (peer : AddrRecord) : list (Z * Event) :=
  [(1, EvAccepted sk peer); (1, EvControl)].
Definition received (sk : socket_t) (data : bytes) : list (Z * Event) :=
  [(1, EvConnData sk data); (1, EvShard 0); (1, EvShard 1)].
Definition closed (sk : socket_t) : list (Z * Event) :=
  [(1, EvConnClosed sk); (1, EvControl)].

(** CONNECT to the relay of the second client, which is at port 49152; CONNECTION-BIND of the
    id this is given. *)
Definition connectRequest : bytes :=
  demoRequest Method.Connect (fun m => withXor m AttrType.XorPeerAddress (buildRelayedAddr demoEnv 49152) demoTid).
Definition bindRequest : bytes :=
  demoRequest Method.ConnectionBind (fun m => addConnectionId m 1).

(** Two clients allocate TCP relays on sockets 5 and 6 and the first connects to the second;
    a connection on socket 7 binds and closes; the next connection gets socket 7 and binds. *)
Definition paired : list (Z * Event) :=
  accepted 5 (tcpAddr 21) ++ accepted 6 (tcpAddr 22) ++
  received 5 tcpRelayRequest ++ received 6 tcpRelayRequest ++ received 5 connectRequest ++
  accepted 7 (tcpAddr 23) ++ received 7 bindRequest ++ closed 7 ++
  accepted 7 (tcpAddr 24) ++ received 7 bindRequest.

Lemma self_paired_close_crashes :
  (exists s, run demoEnv paired demoStart = Some (tt, s) /\ map_to_list (dataPipe_ (cns s)) = [(7, 7)]) /\
  run demoEnv (paired ++ closed 7) demoStart = None.
Proof.
  split; [eexists; split; [vm_compute; reflexivity|vm_compute; reflexivity]|vm_compute; reflexivity].
Qed.
