(* ===== verification/TurnData.v ===== *)
(** * What the TURN server relays

    The effect of each request of a client on its allocation, and the path of data between
    client and peer. *)

From S2P Require Import Prelude.
From S2P Require Import StateMonad.
From S2P Require Import Bytes.
From S2P Require Import Crypto.
From S2P Require Import Addr.
From S2P Require Import StunMessage.
From S2P Require Import StunAttributes.
From S2P Require Import ChannelData.
From S2P Require Import StunConn.
From S2P Require Import TcpWriter.
From S2P Require Import TurnState.
From S2P Require Import TurnCore.
From S2P Require Import TurnHandlers.
From S2P Require Import TurnServer.
From S2P Require Import TurnInv.
From S2P Require Import TurnGrants.
From S2P Require Import TurnSafe.
From S2P Require Import TurnRequests.
From S2P Require Import TurnLinks.
From S2P Require Import TurnSteps.
From S2P Require Import TurnRelay.
From S2P Require Import TurnDispatch.
From S2P Require Import TurnEvents.
From S2P Require Import TurnConns.
From S2P Require Import TurnExpiry.
From S2P Require Import TurnRun.
Open Scope Z_scope.

(** ** What a client reads *)

(** A Data indication as the client decodes it. *)
Definition reads_indication (frame : bytes) (peer : AddrRecord) (data : bytes) : Prop :=
  exists m, decode emptyMessage frame = Some (true, m) /\ method m = Method.Data /\
    cls m = Indication /\
    readXorAddress m AttrType.XorPeerAddress (transactionID m) = Some (Some peer) /\
    getString m AttrType.Data = data.

Lemma indication_eq tid peer data :
  dgram_addr peer ->
  indicationBody tid peer data =
  mkMessage Method.Data Indication tid
    [mkAttr AttrType.XorPeerAddress (encodeXorAddr peer tid); mkAttr AttrType.Data data] [].
Proof.
  intros Hp. unfold indicationBody, withXor.
  pose proof (addXor_spec AttrType.XorPeerAddress tid (mkMessage Method.Data Indication tid [] []) peer Hp) as H.
  unfold addXor in H. by rewrite H.
Qed.

Lemma indication_ok tid peer data :
  tid_ok tid -> dgram_addr peer -> bytes_ok data -> Z.of_nat (length data) <= 65000 ->
  enc_ok (indicationBody tid peer data) None None software.
Proof.
  intros Ht Hp Hb Hl. rewrite indication_eq by done.
  destruct (encodeXorAddr_ok peer tid) as [Hxl Hxb]; [apply Hp|done|].
  assert (A1 : attr_ok (mkAttr AttrType.XorPeerAddress (encodeXorAddr peer tid)))
    by (split; [done|]; split; [cbn [value]; width|done]).
  assert (A2 : attr_ok (mkAttr AttrType.Data data))
    by (split; [done|]; split; [cbn [value]; width|done]).
  constructor; [done|done|by apply Forall_cons; split; [|apply Forall_singleton]|done|split; [done|by repeat constructor]|].
  unfold wireAttrs, encAttrsMi, encAttrs. rewrite !tlvs_app. cbn [credAttrs app attributes].
  rewrite !tlvs_cons, !length_app, !tlv_length_ok by (done || apply fpAttr_ok).
  cbn [value fpAttr]. destruct (paddedLen_bounds (length (encodeXorAddr peer tid))) as [H1 _]; [width|].
  destruct (paddedLen_bounds (length data)) as [H2 _]; [width|].
  change (length (tlvs (softAttrs software))) with 12%nat.
  change (length (tlvs [])) with 0%nat.
  assert (H3 : forall z, paddedLen (length (writeU32Be z)) = 4%nat) by done. rewrite H3.
  change (length (tlvs (credAttrs _ None None))) with 0%nat. width.
Qed.

Lemma indication_read tid peer data ind :
  tid_ok tid -> dgram_addr peer -> bytes_ok data -> Z.of_nat (length data) <= 65000 ->
  encode (indicationBody tid peer data) None None software = Some ind ->
  reads_indication (raw ind) peer data.
Proof.
  intros Ht Hp Hb Hl He. pose proof (indication_ok tid peer data Ht Hp Hb Hl) as Hok.
  rewrite (encode_ok _ _ _ _ Hok) in He. injection He as <-. cbn [raw].
  pose proof (encode_frame_ok _ _ _ _ Hok) as Hf.
  pose proof (decode_frame _ _ _ Hf [] emptyMessage) as Hd. rewrite app_nil_r in Hd.
  eexists. split; [exact Hd|]. rewrite indication_eq by done. cbn [method cls transactionID attributes].
  split; [done|]. split; [done|]. split.
  - apply readXor_spec; [done|done|]. unfold find. cbn [attributes]. by apply find_on_wire.
  - unfold getString, find. cbn [attributes].
    erewrite find_on_wire; [|done|]; [|unfold find; reflexivity]. done.
Qed.

(** ** Peer to client *)

Lemma find_existsb {A} (f : A -> bool) l :
  existsb f l = match List.find f l with Some _ => true | None => false end.
Proof. induction l as [|x l IH]; [done|]. cbn. by destruct (f x). Qed.

(** C17: data from a peer reaches the client, once and intact, if and only if it may.  When a
    datagram from [peer] arrives for an allocation of a datagram client, and a channel bound
    to exactly that peer has not expired, the client gets one ChannelData frame that unwraps
    to the channel's number and the data; without such a channel, and with an unexpired
    permission for the peer's IP, it gets one Data indication that decodes to the peer's
    address and the data; otherwise nothing is sent.  The tables are unchanged. *)
Theorem peer_data_reaches_client E s a x peer data :
  env_ok E -> srv_ok E s -> heap (tabs s) !! a = Some x ->
  controlSock x = STICE_INVALID_SOCKET -> dgram_addr peer -> bytes_ok data ->
  Z.of_nat (length data) <= 65000 ->
  exists s' l, forwardToClient E a peer data s = Some (tt, s') /\ tabs s' = tabs s /\
    outs s' = outs s ++ l /\
    match List.find (channelFor (clock s) peer) (channels x) with
    | Some c => exists f, l = [OUdp (clientAddr x) f] /\
        unwrapChannelData f 0 0 = Some (mkUnwrapped (length data) (ch_number c) (Some 4%nat) (length f)) /\
        peek f 4 (length data) = Some data
    | None =>
        if allowed (permission (permissions x) peer) (clock s)
        then exists f, l = [OUdp (clientAddr x) f] /\ reads_indication f peer data
        else l = []
    end.
Proof.
  intros HE Hs Ex Hcs Hp Hb Hl.
  assert (Hpo : payload_ok data) by (unfold payload_ok; lia).
  destruct (wp_forwardToClient E HE s a x peer data Hs Ex) as ([] & s' & Hst & Hc & Hd & _);
    [unfold sized; lia|]. destruct (Hd Hcs) as (l & Ho & Hdel).
  exists s', l. split; [done|]. split; [apply Hc|]. split; [done|].
  destruct (ok_contents _ _ (so_tabs _ _ Hs) a x Ex) as (_ & Hchs & _ & Hgp & _).
  rewrite <- permits_allowed, find_existsb by done.
  destruct Hdel as [c Hf _|p tid ind Hf Hper Ht He|Hf Hper].
  - rewrite Hf. exists (channelFrame (ch_number c) data). split; [done|].
    assert (Hv : channelValid (ch_number c) = true).
    { apply find_some in Hf as [Hin _]. rewrite <- list_elem_of_In in Hin.
      by apply (Forall_forall _ (channels x)) with (x := c) in Hchs. }
    pose proof (unwrapChannelData_frame (ch_number c) data [] 0 0 Hv Hpo) as Hu.
    pose proof (channelFrame_payload (ch_number c) data []) as Hpk. rewrite app_nil_r in Hu, Hpk. done.
  - destruct Hf as [->|Hf]; [|done]. rewrite Hper. exists (raw ind). split; [done|].
    by eapply indication_read.
  - destruct Hf as [->|Hf]; [|done]. by rewrite Hper.
Qed.

Lemma peer_data_reaches_client_witness :
  exists s' l, forwardToClient demoEnv 0 demoPeer [1; 2; 3] demoSrv = Some (tt, s') /\
    tabs s' = tabs demoSrv /\ outs s' = outs demoSrv ++ l /\
    match List.find (channelFor (clock demoSrv) demoPeer) (channels demoAlloc) with
    | Some c => exists f, l = [OUdp (clientAddr demoAlloc) f] /\
        unwrapChannelData f 0 0 = Some (mkUnwrapped 3 (ch_number c) (Some 4%nat) (length f)) /\
        peek f 4 3 = Some [1; 2; 3]
    | None =>
        if allowed (permission (permissions demoAlloc) demoPeer) (clock demoSrv)
        then exists f, l = [OUdp (clientAddr demoAlloc) f] /\ reads_indication f demoPeer [1; 2; 3]
        else l = []
    end.
Proof.
  apply (peer_data_reaches_client demoEnv demoSrv 0 demoAlloc demoPeer [1; 2; 3]);
    [apply demoEnv_ok|apply demoSrv_ok|reflexivity|reflexivity| |by repeat constructor|done].
  split; [split; [done|split; [done|by repeat constructor]]|done].
Defined.

(** ** Client to peer *)

(** A Send indication is relayed exactly when a permission allows it.  With a readable
    peer address and a DATA attribute, the server's only reaction is one datagram with that
    data from the allocation's relay socket to that peer, sent if and only if the peer's IP
    has an unexpired permission and the allocation is a UDP relay; nothing else of the state
    changes. *)
Theorem send_indication_relayed E s req a x peer d :
  srv_ok E s -> req_ok req -> heap (tabs s) !! a = Some x ->
  readXorAddress req AttrType.XorPeerAddress (transactionID req) = Some (Some peer) ->
  find req AttrType.Data = Some d ->
  handleSendIndication req a s =
  Some (tt, if allowed (permission (permissions x) peer) (clock s) && (transport x =? SOCK_DGRAM) &&
               negb (relaySock x =? STICE_INVALID_SOCKET)
            then add_outs [ORelay (relaySock x) peer (value d)] s else s).
Proof.
  intros Hs Hm Ex Hp Hd.
  destruct (wp_handleSendIndication s req a x Hm Ex) as ([] & s' & -> & ->). do 2 f_equal.
  destruct (ok_contents _ _ (so_tabs _ _ Hs) a x Ex) as (_ & _ & _ & Hgp & _).
  unfold sendIndicationOutput. rewrite Hp, Hd, permits_allowed by done.
  destruct (_ && _ && _); [done|apply add_outs_nil].
Qed.

(** A Send indication to [demoPeer] and the packet it comes in. *)
Definition demoSend : bytes :=
  [0; 22; 0; 20; 33; 18; 164; 66; 1; 2; 3; 4; 5; 6; 7; 8; 9; 10; 11; 12;
   0; 18; 0; 8; 0; 1; 54; 98; 234; 18; 213; 75; 0; 19; 0; 2; 104; 105; 0; 0].
Definition demoSendMsg : Message :=
  match decode emptyMessage demoSend with Some (_, m) => m | None => emptyMessage end.

Lemma demoSendMsg_ok : req_ok demoSendMsg.
Proof. apply (decode_req demoSend); [by apply (bool_decide_unpack _), I|reflexivity]. Qed.

Lemma send_indication_relayed_witness :
  handleSendIndication demoSendMsg 0 demoSrv =
  Some (tt, if allowed (permission (permissions demoAlloc) demoPeer) (clock demoSrv) &&
               (transport demoAlloc =? SOCK_DGRAM) && negb (relaySock demoAlloc =? STICE_INVALID_SOCKET)
            then add_outs [ORelay (relaySock demoAlloc) demoPeer [104; 105]] demoSrv else demoSrv).
Proof.
  apply (send_indication_relayed demoEnv demoSrv demoSendMsg 0 demoAlloc demoPeer
           (mkAttr AttrType.Data [104; 105]));
    [apply demoSrv_ok|apply demoSendMsg_ok|reflexivity|reflexivity|reflexivity].
Defined.

Lemma find_channel l n :
  channelPeer l n = ch_peer <$> List.find (fun c => ch_number c =? n) l.
Proof. done. Qed.

(** ChannelData from a client goes to the peer its channel is bound to.  Without the
    local shortcut, a non-empty ChannelData frame on channel [n], also with trailing bytes
    behind it, makes the server send exactly its data from the relay socket to the peer [n]
    is bound to, and nothing when [n] is not bound; nothing else of the state changes. *)
Theorem channel_data_relayed E s a x n data rest :
  heap (tabs s) !! a = Some x -> channelValid n = true -> payload_ok data -> data <> [] ->
  localRelayShortcut E = false -> transport x = SOCK_DGRAM -> relaySock x <> STICE_INVALID_SOCKET ->
  handleChannelDataFrame E (channelFrame n data ++ rest) a s =
  Some (tt, match channelPeer (channels x) n with
            | Some peer => add_outs [ORelay (relaySock x) peer data] s
            | None => s
            end).
Proof.
  intros Ex Hn Hd Hne Hsc Htr Hrs. rewrite find_channel. unfold handleChannelDataFrame.
  unfold mbind, SM_bind. cbn [lift]. rewrite unwrapChannelData_frame by done.
  cbn [lift un_ret un_channel un_data]. destruct (Nat.eqb_spec (length data) 0) as [H0|_].
  { by destruct data. }
  unfold alloc_get. rewrite Ex.
  destruct (List.find (fun c => ch_number c =? n) (channels x)) as [c|]; cbn [fmap option_fmap option_map]; [|done].
  rewrite Htr, (proj2 (Z.eqb_neq _ _) Hrs). cbn [Z.eqb SOCK_DGRAM Pos.eqb andb negb].
  rewrite channelFrame_payload, Hsc. done.
Qed.

Lemma channel_data_relayed_witness :
  handleChannelDataFrame
    (mkEnv "r" ∅ 1 600 1 (SockIn 0 [192; 0; 2; 1]) 16 false (fun _ _ => None) (fun _ _ => None)
       (fun _ _ _ => (0, false)) demoPrint (fun _ => None))
    (channelFrame 0x4001 [1; 2; 3] ++ [9]) 0 demoSrv =
  Some (tt, match channelPeer (channels demoAlloc) 0x4001 with
            | Some peer => add_outs [ORelay (relaySock demoAlloc) peer [1; 2; 3]] demoSrv
            | None => demoSrv
            end).
Proof.
  apply (channel_data_relayed _ demoSrv 0 demoAlloc 0x4001 [1; 2; 3] [9]);
    [reflexivity|reflexivity|vm_compute; discriminate|discriminate|reflexivity|reflexivity|discriminate].
Defined.

(** C21: the local shortcut is what the network would do.  When the peer of the channel is the
    relayed address of another UDP allocation of this server whose client uses datagrams, the
    shortcut leaves the server in the very state in which it would be if the datagram had
    left the relay socket and come in at the other allocation's relay socket, from the
    sender's relayed address. *)
Theorem local_shortcut_equivalent E s a x n data rest peer d y :
  heap (tabs s) !! a = Some x -> channelValid n = true -> payload_ok data -> data <> [] ->
  localRelayShortcut E = true -> transport x = SOCK_DGRAM -> relaySock x <> STICE_INVALID_SOCKET ->
  channelPeer (channels x) n = Some peer -> alookup peer (allocByRelayAddr_ (tabs s)) = Some d ->
  heap (tabs s) !! d = Some y -> d <> a -> transport y = SOCK_DGRAM ->
  controlSock y = STICE_INVALID_SOCKET -> relaySock y <> STICE_INVALID_SOCKET ->
  allocByRelaySock_ (tabs s) !! relaySock y = Some d ->
  handleChannelDataFrame E (channelFrame n data ++ rest) a s =
  ioOnRelayData E (relaySock y) data (relayedAddr x) s.
Proof.
  intros Ex Hn Hd Hne Hsc Htr Hrs Hch Hal Ey Hda Hty Hcy Hry Hreg.
  rewrite find_channel in Hch. unfold handleChannelDataFrame, ioOnRelayData, findAllocByRelayRef.
  unfold mbind, SM_bind, gets, refAlloc. cbn [lift]. rewrite unwrapChannelData_frame by done.
  cbn [lift un_ret un_channel un_data]. destruct (Nat.eqb_spec (length data) 0) as [H0|_].
  { by destruct data. }
  rewrite Hreg. unfold alloc_get, mbind, SM_bind, mret, SM_ret. rewrite Ex, Ey.
  destruct (List.find (fun c => ch_number c =? n) (channels x)) as [c|]; cbn [fmap option_fmap option_map] in Hch; [|done].
  injection Hch as Hc. rewrite Htr, (proj2 (Z.eqb_neq _ _) Hrs). cbn [Z.eqb SOCK_DGRAM Pos.eqb andb negb].
  rewrite channelFrame_payload, Hsc, Hc. cbn [lift].
  unfold findAllocByRelayAddrRef, gets, refAlloc, mbind, SM_bind, alloc_get, mret, SM_ret.
  rewrite Hal, Ey. cbv beta iota.
  rewrite Ey, (proj2 (Nat.eqb_neq _ _) Hda), Hty, Hcy, (proj2 (Z.eqb_neq _ _) Hry). done.
Qed.

(** A second allocation, reached through the first one's channel. *)
Definition demoFar : Allocation :=
  mkAllocation SOCK_DGRAM demoStranger STICE_INVALID_SOCKET 101 demoPeer 50001
    "alice" [] [] 600000 [].
Definition demoTwo : Srv :=
  set_tabs (registerTabs (keyOf demoEnv demoFar) demoStranger false demoFar) demoSrv.

Lemma local_shortcut_equivalent_witness :
  handleChannelDataFrame demoEnv (channelFrame 0x4001 [1; 2; 3] ++ []) 0 demoTwo =
  ioOnRelayData demoEnv 101 [1; 2; 3] (relayedAddr demoAlloc) demoTwo.
Proof.
  apply (local_shortcut_equivalent demoEnv demoTwo 0 demoAlloc 0x4001 [1; 2; 3] [] demoPeer 1 demoFar);
    reflexivity || discriminate || (vm_compute; discriminate).
Defined.

(** ** Permissions *)

(** What CreatePermission does.  The request is answered and the allocation's permission
    table becomes the old one with every peer IP the request names set to expire five minutes
    from now; the rest of the allocation, every other allocation and every other table are
    untouched. *)
Theorem create_permission_effect E s req src tc a x :
  env_ok E -> srv_ok E s -> conn_live s tc -> req_ok req -> heap (tabs s) !! a = Some x ->
  exists s' perms, handleCreatePermission E req src tc a s = Some (tt, s') /\
    tabs s' = set_heap (<[a := al_permissions perms x]> (heap (tabs s))) (tabs s) /\
    forall q, permission perms q =
      if existsb (fun p => samePeerIP p q) (requestedPeers (transactionID req) (attributes req))
      then Some (clock s + PermissionLifetimeMs) else permission (permissions x) q.
Proof.
  intros HE Hs Hc Hm Ex.
  destruct (wp_handleCreatePermission E HE (mkWorld (fun _ => True) 0 0) s req src tc a x Hs Hc Hm Ex)
    as ([] & s' & Hst & _ & perms & Hp & Ht).
  exists s', perms. split; [done|]. split; [done|].
  by destruct (installPermissions_spec _ _ _ _ _ Hp).
Qed.

Lemma create_permission_effect_witness :
  exists s' perms, handleCreatePermission demoEnv demoSendMsg demoClient None 0 demoSrv = Some (tt, s') /\
    tabs s' = set_heap (<[0%nat := al_permissions perms demoAlloc]> (heap (tabs demoSrv))) (tabs demoSrv) /\
    forall q, permission perms q =
      if existsb (fun p => samePeerIP p q)
           (requestedPeers (transactionID demoSendMsg) (attributes demoSendMsg))
      then Some (clock demoSrv + PermissionLifetimeMs) else permission (permissions demoAlloc) q.
Proof.
  apply create_permission_effect;
    [apply demoEnv_ok|apply demoSrv_ok|exact I|apply demoSendMsg_ok|reflexivity].
Defined.

(** A permission lasts five minutes.  After a CreatePermission that names a peer, a Send
    indication to any port of that peer's IP at time [t] is relayed if [t] is less than five
    minutes after the request, and dropped from then on. *)
Theorem permission_lasts_five_minutes E s req src tc a x peer t msg dst d :
  env_ok E -> srv_ok E s -> conn_live s tc -> req_ok req -> heap (tabs s) !! a = Some x ->
  transport x = SOCK_DGRAM -> relaySock x <> STICE_INVALID_SOCKET ->
  peer ∈ requestedPeers (transactionID req) (attributes req) -> samePeerIP peer dst = true ->
  req_ok msg -> readXorAddress msg AttrType.XorPeerAddress (transactionID msg) = Some (Some dst) ->
  find msg AttrType.Data = Some d ->
  exists s1, handleCreatePermission E req src tc a s = Some (tt, s1) /\
    handleSendIndication msg a (set_clock t s1) =
    Some (tt, if t <? clock s + 5 * 60 * 1000
              then add_outs [ORelay (relaySock x) dst (value d)] (set_clock t s1)
              else set_clock t s1).
Proof.
  intros HE Hs Hc Hm Ex Htr Hrs Hin Hsame Hmsg Hdst Hd.
  destruct (wp_handleCreatePermission E HE (mkWorld (fun _ => True) 0 0) s req src tc a x Hs Hc Hm Ex)
    as ([] & s1 & Hst & Hg & perms & Hp & Ht).
  exists s1. split; [done|]. destruct (installPermissions_spec _ _ _ _ _ Hp) as [Hdis Hspec].
  assert (Ex1 : heap (tabs (set_clock t s1)) !! a = Some (al_permissions perms x)).
  { cbn [tabs set_clock]. rewrite Ht. apply lookup_insert_eq. }
  destruct (ok_contents _ _ (so_tabs _ _ Hs) a x Ex) as (_ & _ & _ & Hgp & _).
  destruct (wp_handleSendIndication (set_clock t s1) msg a _ Hmsg Ex1) as ([] & s2 & -> & ->).
  do 2 f_equal. unfold sendIndicationOutput. rewrite Hdst, Hd.
  cbn [permissions transport relaySock al_permissions clock set_clock].
  rewrite permits_allowed by auto. rewrite Hspec, Htr, (proj2 (Z.eqb_neq _ _) Hrs).
  replace (existsb _ _) with true.
  - cbn [allowed]. rewrite !andb_true_r. unfold PermissionLifetimeMs.
    destruct (_ <? _); [done|apply add_outs_nil].
  - symmetry. apply existsb_exists. exists peer. split; [by apply list_elem_of_In|done].
Qed.

Lemma permission_lasts_five_minutes_witness :
  exists s1, handleCreatePermission demoEnv demoSendMsg demoClient None 0 demoSrv = Some (tt, s1) /\
    handleSendIndication demoSendMsg 0 (set_clock 299999 s1) =
    Some (tt, if 299999 <? clock demoSrv + 5 * 60 * 1000
              then add_outs [ORelay (relaySock demoAlloc) demoPeer [104; 105]] (set_clock 299999 s1)
              else set_clock 299999 s1).
Proof.
  apply (permission_lasts_five_minutes demoEnv demoSrv demoSendMsg demoClient None 0 demoAlloc demoPeer
           299999 demoSendMsg demoPeer (mkAttr AttrType.Data [104; 105]));
    [apply demoEnv_ok|apply demoSrv_ok|exact I|apply demoSendMsg_ok|reflexivity|reflexivity
    |discriminate|apply list_elem_of_singleton; reflexivity|reflexivity|apply demoSendMsg_ok
    |reflexivity|reflexivity].
Defined.
