(* ===== verification/TurnManage.v ===== *)
(** * How the TURN server manages allocations

    The effect of Allocate, Refresh and ChannelBind, the choice of relay ports, the expiry
    tick, and the end of a control connection. *)

From S2P Require Import Prelude.
From S2P Require Import StateMonad.
From S2P Require Import Bytes.
From S2P Require Import Crypto.
From S2P Require Import Addr.
From S2P Require Import StunMessage.
From S2P Require Import StunAttributes.
From S2P Require Import ChannelData.
From S2P Require Import StunConn.
From S2P Require Import TcpWriter.
From S2P Require Import TurnState.
From S2P Require Import TurnCore.
From S2P Require Import TurnHandlers.
From S2P Require Import TurnServer.
From S2P Require Import TurnInv.
From S2P Require Import TurnGrants.
From S2P Require Import TurnSafe.
From S2P Require Import TurnRequests.
From S2P Require Import TurnLinks.
From S2P Require Import TurnSteps.
From S2P Require Import TurnRelay.
From S2P Require Import TurnDispatch.
From S2P Require Import TurnEvents.
From S2P Require Import TurnConns.
From S2P Require Import TurnExpiry.
From S2P Require Import TurnRun.
Open Scope Z_scope.

(** ** Relay ports *)

(** The port allocator is total, complete and exclusive.  Given a range of non-zero
    16-bit ports, in either order, [allocRelayPort] returns; a non-zero result is a port of
    the range that was neither in use nor to be avoided, and it is now reserved, with no
    other entry changed; 0 comes back exactly when every port of the range is in use or to be
    avoided, whatever the random source delivers. *)
Theorem relay_port_allocation E s avoid :
  range_ok (tabs s) ->
  exists p s', allocRelayPort E avoid s = Some (p, s') /\
    (p = 0 <-> forall q, portRange (tabs s) q -> portTaken (tabs s) avoid q) /\
    (p = 0 -> usedRelayPorts_ (tabs s') = usedRelayPorts_ (tabs s)) /\
    (p <> 0 -> portRange (tabs s) p /\ usedRelayPorts_ (tabs s) !! p = None /\ p ∉ avoid /\
       usedRelayPorts_ (tabs s') = <[p := None]> (usedRelayPorts_ (tabs s))) /\
    heap (tabs s') = heap (tabs s) /\ allocations_ (tabs s') = allocations_ (tabs s).
Proof.
  intros Hr. destruct (wp_allocRelayPort E s avoid Hr) as (p & s' & Hst & _ & _ & _ & _ & H).
  exists p, s'. split; [done|].
  assert (Hord : heap (orderRange (tabs s)) = heap (tabs s) /\
                 allocations_ (orderRange (tabs s)) = allocations_ (tabs s) /\
                 usedRelayPorts_ (orderRange (tabs s)) = usedRelayPorts_ (tabs s))
    by (unfold orderRange; by destruct (_ <? _)).
  destruct Hord as (O1 & O2 & O3).
  destruct H as [(Hp & Hrg & Hf & Hav & T)|(-> & Hall & T)]; rewrite T.
  - split; [split; [done|]|].
    { intros Hall. destruct (Hall p Hrg) as [[? Hx]|Hx]; [congruence|by destruct Hav]. }
    split; [done|]. split; [done|]. cbn. done.
  - split; [done|]. split; [done|]. done.
Qed.

Lemma relay_port_allocation_witness :
  exists p s', allocRelayPort demoEnv {[ 50001 ]} demoSrv = Some (p, s') /\
    (p = 0 <-> forall q, portRange (tabs demoSrv) q -> portTaken (tabs demoSrv) {[ 50001 ]} q) /\
    (p = 0 -> usedRelayPorts_ (tabs s') = usedRelayPorts_ (tabs demoSrv)) /\
    (p <> 0 -> portRange (tabs demoSrv) p /\ usedRelayPorts_ (tabs demoSrv) !! p = None /\
       p ∉ ({[ 50001 ]} : gset Z) /\
       usedRelayPorts_ (tabs s') = <[p := None]> (usedRelayPorts_ (tabs demoSrv))) /\
    heap (tabs s') = heap (tabs demoSrv) /\ allocations_ (tabs s') = allocations_ (tabs demoSrv).
Proof. apply (relay_port_allocation demoEnv demoSrv {[ 50001 ]}). done. Defined.

(** ** Allocate *)

(** With a free port, and sockets to be had, the relay is there. *)
Lemma allocateRelay_free E s proto p0 :
  env_ok E -> srv_ok E s -> portRange (tabs s) p0 -> usedRelayPorts_ (tabs s) !! p0 = None ->
  (forall k p, is_Some (udpBind E k p)) ->
  forall code s1, allocateRelay E proto s <> Some (inl code, s1).
Proof.
  intros HE Hs Hr Hf Hb code s1.
  destruct (wp_allocRelayPort E s ∅ (so_range _ _ Hs)) as (p & s2 & Hst & _ & _ & _ & _ & H).
  assert (Hp : p <> 0).
  { destruct H as [(Hp & _)|(_ & Hall & _)]; [done|].
    destruct (Hall p0 Hr) as [[? Hx]|Hx]; [congruence|set_solver]. }
  unfold allocateRelay. destruct (proto =? 6); unfold mbind, SM_bind; rewrite Hst, (proj2 (Z.eqb_neq _ _) Hp);
    [done|]. unfold createUdp, gets, modify, mbind, SM_bind, mret, SM_ret.
  destruct (Hb (binds s2) p) as [[h b] ->]. cbn [bindRetry]. unfold mret, SM_ret. cbn.
  destruct (negb _); done.
Qed.

(** A legitimate Allocate is granted.  For a client that holds no allocation, a request
    with a REQUESTED-TRANSPORT while the quota is not used up, a relay port is free and
    sockets can be bound, creates exactly one new allocation: for the client's address and
    user, with the requested transport, no permissions and no channels, expiring after the
    configured lifetime, its relayed address on its own relay port; all other allocations are
    as before, and the state is consistent. *)
Theorem allocate_granted E W s req src tc rt proto v p0 :
  env_ok E -> srv_ok E s -> linked E W s -> conn_live s tc -> req_ok req ->
  is_Some (normalize (addr src)) -> origin E W s (allocTransport req) src tc ->
  looked_up E s src tc = None ->
  find req AttrType.RequestedTransport = Some rt -> value rt = proto :: v ->
  Z.of_nat (size (allocations_ (tabs s))) < maxAllocations_ E ->
  portRange (tabs s) p0 -> usedRelayPorts_ (tabs s) !! p0 = None ->
  (forall k p, is_Some (udpBind E k p)) ->
  exists s' x, handleAllocate E req src tc s = Some (tt, s') /\ srv_ok E s' /\ linked E W s' /\
    fresh_alloc E s req src x /\
    heap (tabs s') = <[nextAlloc (tabs s) := x]> (heap (tabs s)) /\
    heap (tabs s) !! nextAlloc (tabs s) = None /\
    allocations_ (tabs s') = <[keyOf E x := nextAlloc (tabs s)]> (allocations_ (tabs s)).
Proof.
  intros HE Hs Hl Hc Hm Hn Ho Hk Hrt Hv Hq Hr Hf Hb.
  destruct (wp_handleAllocate E HE W s req src tc Hs Hl Hc Hm Hn Ho Hk) as ([] & s' & Hst & Hg & H).
  exists s'. destruct H as [[Href _]|(x & Hx & _ & Hh & Ha)].
  - unfold refused in Href. rewrite Hrt, Hv in Href.
    destruct Href as [Href|(code & s1 & Href)]; [lia|].
    by destruct (allocateRelay_free E s proto p0 HE Hs Hr Hf Hb code s1).
  - exists x. split; [done|]. split; [apply Hg|]. split; [by apply Hg|].
    split; [done|]. split; [done|]. split; [|done].
    destruct (heap (tabs s) !! nextAlloc (tabs s)) as [y|] eqn:Ey; [|done].
    pose proof (ok_fresh _ _ (so_tabs _ _ Hs) _ y Ey). lia.
Qed.

(** An Allocate request for a UDP relay. *)
Definition demoAllocate : bytes :=
  [0; 3; 0; 8; 33; 18; 164; 66; 1; 2; 3; 4; 5; 6; 7; 8; 9; 10; 11; 12; 0; 25; 0; 4; 17; 0; 0; 0].
Definition demoAllocateMsg : Message :=
  match decode emptyMessage demoAllocate with Some (_, m) => m | None => emptyMessage end.

Lemma demoAllocateMsg_ok : req_ok demoAllocateMsg.
Proof. apply (decode_req demoAllocate); [by apply (bool_decide_unpack _), I|reflexivity]. Qed.

Lemma allocate_granted_witness :
  exists s' x, handleAllocate demoEnv demoAllocateMsg demoClient None demoStart = Some (tt, s') /\
    srv_ok demoEnv s' /\ linked demoEnv demoWorld s' /\
    fresh_alloc demoEnv demoStart demoAllocateMsg demoClient x /\
    heap (tabs s') = <[nextAlloc (tabs demoStart) := x]> (heap (tabs demoStart)) /\
    heap (tabs demoStart) !! nextAlloc (tabs demoStart) = None /\
    allocations_ (tabs s') = <[keyOf demoEnv x := nextAlloc (tabs demoStart)]> (allocations_ (tabs demoStart)).
Proof.
  apply (allocate_granted demoEnv demoWorld demoStart demoAllocateMsg demoClient None
           (mkAttr AttrType.RequestedTransport [17; 0; 0; 0]) 17 [0; 0; 0] 50000);
    [apply demoEnv_ok|apply demoStart_ok|apply demoStart_ok|exact I|apply demoAllocateMsg_ok
    |eexists; reflexivity|split; reflexivity|reflexivity|reflexivity|reflexivity|reflexivity
    |split; vm_compute; discriminate|reflexivity|intros k p; eexists; reflexivity].
Defined.

(** ** Refresh *)

(** What Refresh does.  The granted lifetime is the requested one, at most the configured
    one, and the configured one when none is given.  A zero lifetime destroys the allocation
    and frees its port; any other sets the expiry that far from now and changes nothing
    else. *)
Theorem refresh_effect E s req src tc a x :
  env_ok E -> srv_ok E s -> conn_live s tc -> req_ok req -> heap (tabs s) !! a = Some x ->
  exists s', handleRefresh E req src tc a s = Some (tt, s') /\ srv_ok E s' /\
    grantedLifetime E req <= allocationLifetime_ E /\
    if grantedLifetime E req =? 0
    then heap (tabs s') = delete a (heap (tabs s)) /\
         allocations_ (tabs s') = delete (keyOf E x) (allocations_ (tabs s)) /\
         usedRelayPorts_ (tabs s') = delete (relayPort x) (usedRelayPorts_ (tabs s))
    else tabs s' = set_heap
           (<[a := al_expiry (clock s + grantedLifetime E req * 1000) x]> (heap (tabs s))) (tabs s).
Proof.
  intros HE Hs Hc Hm Ex.
  destruct (wp_handleRefresh E HE (mkWorld (fun _ => True) 0 0) s req src tc a x Hs Hc Hm Ex)
    as ([] & s' & Hst & Hg & Ht).
  exists s'. split; [done|]. split; [apply Hg|]. split.
  { unfold grantedLifetime. destruct (readLifetime req) as [[l|]|]; lia. }
  rewrite Ht. by destruct (_ =? 0).
Qed.

Lemma refresh_effect_witness :
  exists s', handleRefresh demoEnv demoAllocateMsg demoClient None 0 demoSrv = Some (tt, s') /\
    srv_ok demoEnv s' /\ grantedLifetime demoEnv demoAllocateMsg <= allocationLifetime_ demoEnv /\
    if grantedLifetime demoEnv demoAllocateMsg =? 0
    then heap (tabs s') = delete 0%nat (heap (tabs demoSrv)) /\
         allocations_ (tabs s') = delete (keyOf demoEnv demoAlloc) (allocations_ (tabs demoSrv)) /\
         usedRelayPorts_ (tabs s') = delete (relayPort demoAlloc) (usedRelayPorts_ (tabs demoSrv))
    else tabs s' = set_heap
           (<[0%nat := al_expiry (clock demoSrv + grantedLifetime demoEnv demoAllocateMsg * 1000) demoAlloc]>
              (heap (tabs demoSrv))) (tabs demoSrv).
Proof.
  apply refresh_effect; [apply demoEnv_ok|apply demoSrv_ok|exact I|apply demoAllocateMsg_ok|reflexivity].
Defined.

(** ** ChannelBind *)

(** What ChannelBind does.  A request with a valid channel number and a readable peer is
    granted unless the number is bound to another peer IP or the peer IP to another number;
    then the channel map maps the number to that peer, all other numbers as before, and the
    peer's IP has a permission for five minutes, all other permissions as before.  Every
    other request changes no table. *)
Theorem channel_bind_effect E s req src tc a x :
  env_ok E -> srv_ok E s -> conn_live s tc -> req_ok req -> heap (tabs s) !! a = Some x ->
  exists s', handleChannelBind E req src tc a s = Some (tt, s') /\ srv_ok E s' /\
    match readChannelNumber req, readXorAddress req AttrType.XorPeerAddress (transactionID req) with
    | Some (Some n), Some (Some peer) =>
        if channelValid n && negb (existsb (badBinding n peer) (channels x)) then
          exists y, tabs s' = set_heap (<[a := y]> (heap (tabs s))) (tabs s) /\ same_id x y /\
            (forall m, channelPeer (channels y) m = if m =? n then Some peer else channelPeer (channels x) m) /\
            (forall q, permission (permissions y) q =
               if samePeerIP peer q then Some (clock s + PermissionLifetimeMs)
               else permission (permissions x) q)
        else tabs s' = tabs s
    | _, _ => tabs s' = tabs s
    end.
Proof.
  intros HE Hs Hc Hm Ex.
  destruct (wp_handleChannelBind E HE (mkWorld (fun _ => True) 0 0) s req src tc a x Hs Hc Hm Ex)
    as ([] & s' & Hst & Hg & Ht).
  exists s'. split; [done|]. split; [apply Hg|]. unfold channelBound in Ht.
  destruct (readChannelNumber req) as [[n|]|]; [|done..].
  destruct (readXorAddress _ _ _) as [[peer|]|]; [|done..].
  destruct (_ && _); [|done]. eexists. split; [exact Ht|]. split; [done|].
  split; intros q; cbn; [apply putChannel_spec|apply touchPermission_spec].
Qed.

(** A ChannelBind of channel 0x4002 to a second peer. *)
Definition demoBind : bytes :=
  [0; 9; 0; 20; 33; 18; 164; 66; 1; 2; 3; 4; 5; 6; 7; 8; 9; 10; 11; 12;
   0; 12; 0; 4; 64; 2; 0; 0; 0; 18; 0; 8; 0; 1; 54; 99; 234; 18; 213; 72].
Definition demoBindMsg : Message :=
  match decode emptyMessage demoBind with Some (_, m) => m | None => emptyMessage end.

Lemma channel_bind_effect_witness :
  exists s', handleChannelBind demoEnv demoBindMsg demoClient None 0 demoSrv = Some (tt, s') /\
    srv_ok demoEnv s' /\
    exists y, tabs s' = set_heap (<[0%nat := y]> (heap (tabs demoSrv))) (tabs demoSrv) /\
      same_id demoAlloc y /\
      (forall m, channelPeer (channels y) m =
         if m =? 0x4002 then Some demoStranger else channelPeer (channels demoAlloc) m) /\
      (forall q, permission (permissions y) q =
         if samePeerIP demoStranger q then Some (clock demoSrv + PermissionLifetimeMs)
         else permission (permissions demoAlloc) q).
Proof.
  apply (channel_bind_effect demoEnv demoSrv demoBindMsg demoClient None 0 demoAlloc);
    [apply demoEnv_ok|apply demoSrv_ok|exact I| |reflexivity].
  apply (decode_req demoBind); [by apply (bool_decide_unpack _), I|reflexivity].
Defined.

(** ** Expiry *)

(** C23: the tick removes exactly what has expired.  After [expireStale] an allocation is live
    if and only if it was live and its expiry time is later than now, and then it is what it
    was but for its permissions, channels and pending connects, of which it has exactly those
    that expire later than now, in their order.  The tables are consistent, and no relay port
    and no entry of the allocation, relay-socket and pending-connect tables belongs to a
    removed allocation. *)
Theorem expiry_is_exact E s :
  srv_ok E s ->
  exists s', expireStale E s = Some (tt, s') /\ srv_ok E s' /\
    (forall i, heap (tabs s') !! i =
      match heap (tabs s) !! i with
      | Some x =>
          if expiryMs x <=? clock s then None else
          Some (mkAllocation (transport x) (clientAddr x) (controlSock x) (relaySock x)
                  (relayedAddr x) (relayPort x) (username x)
                  (filter (fun p => clock s < pm_expiryMs p) (permissions x))
                  (filter (fun c => clock s < ch_expiryMs c) (channels x))
                  (expiryMs x)
                  (filter (fun c => clock s < pc_expiryMs c) (pendingConnects x)))
      | None => None
      end) /\
    (forall i, heap (tabs s') !! i = None ->
      (forall p, usedRelayPorts_ (tabs s') !! p <> Some (Some i)) /\
      (forall key, allocations_ (tabs s') !! key <> Some i) /\
      (forall sk, allocByRelaySock_ (tabs s') !! sk <> Some i) /\
      (forall c, pendingByConnId_ (tabs s') !! c <> Some i)).
Proof.
  intros Hs. destruct (wp_expireStale E (mkWorld (fun _ => True) 0 0) s Hs) as ([] & s' & Hst & Hg & _ & Hh).
  exists s'. split; [done|]. split; [apply Hg|]. split.
  - intros i. rewrite Hh. by destruct (heap (tabs s) !! i).
  - intros i Hi. destruct (so_tabs _ _ (gd_ok _ _ _ _ Hg)). split_and!; intros k Hk; naive_solver.
Qed.

(** At 400 s the permission of the sample allocation has expired and its channel has not. *)
Lemma expiry_is_exact_witness :
  exists s', expireStale demoEnv (set_clock 400000 demoSrv) = Some (tt, s') /\
    heap (tabs s') !! 0%nat =
      Some (mkAllocation SOCK_DGRAM demoClient STICE_INVALID_SOCKET 100 (buildRelayedAddr demoEnv 50000) 50000
        "alice" [] [mkChannel 0x4001 demoPeer 600000] 600000 []).
Proof.
  destruct (expiry_is_exact demoEnv (set_clock 400000 demoSrv)) as (s' & Hst & _ & Hh & _).
  { destruct demoSrv_ok as [H1 H2 H3 H4]. constructor; assumption. }
  exists s'. split; [exact Hst|]. rewrite Hh. reflexivity.
Defined.

(** ** The end of a control connection *)

(** Closing a connection releases what hung on it.  Closing the connection on socket [sk],
    unless it is its own peer in the data pipe,
    destroys the allocation it controls, if any, and no other; afterwards no live allocation
    has [sk] as control socket, [sk] leads to no connection, nothing is piped to or from the
    closed connection, it is parked to be freed, and the state is consistent. *)
Theorem close_releases_connection E W s sk i :
  env_ok E -> srv_ok E s -> linked E W s -> tcpBySock_ (cns s) !! sk = Some i ->
  dataPipe_ (cns s) !! sk <> Some sk ->
  exists s', closeTcpConn E i s = Some (tt, s') /\ srv_ok E s' /\ linked E W s' /\
    tcpBySock_ (cns s') !! sk = None /\ dataPipe_ (cns s') !! sk = None /\
    dataPipePeer_ (cns s') !! sk = None /\ (forall k, dataPipePeer_ (cns s') !! k <> Some i) /\
    (forall j x, heap (tabs s') !! j = Some x -> controlSock x <> sk) /\
    (forall j, heap (tabs s') !! j =
       if decide (allocByControlSock_ (tabs s) !! sk = Some j) then None else heap (tabs s) !! j).
Proof.
  intros HE Hs Hl Hi Hself.
  destruct (co_sock _ (so_conns _ _ Hs) sk i Hi) as (x & Ex & Hx).
  destruct (pe_tcp _ _ _ (lk_peers _ _ _ _ Hl) sk i Hi) as (_ & _ & Hne & _).
  destruct (wp_closeTcpConn E W s i sk Hs Hl Hi Hself)
    as ([] & s' & Hst & Hs' & Hl' & _ & _ & Ht & y & dp & Ey & Hdp & Hc).
  assert (y = x) as -> by congruence.
  assert (Hgone : tcpBySock_ (cns s') !! sk = None) by (rewrite Hc; cbn; rewrite Hx; apply lookup_delete_eq).
  exists s'. split; [done|]. split; [done|]. split; [done|]. split; [done|].
  split; [|split; [|split; [|split]]].
  - by rewrite Hc.
  - rewrite Hc. cbn. apply map_lookup_filter_None. right. intros j _ [H _]. cbn in H. by rewrite Hx in H.
  - intros k Hk. rewrite Hc in Hk. cbn in Hk. apply map_lookup_filter_Some in Hk as (_ & _ & H). by apply H.
  - intros j z Ez Hz. pose proof (lk_heap _ _ _ _ Hl' j z Ez) as Hct. unfold controlled in Hct.
    rewrite Hz, (proj2 (Z.eqb_neq _ _) Hne) in Hct. destruct Hct as (_ & k & w & Hk & _). congruence.
  - intros j. rewrite Ht. unfold closedTabs.
    destruct (allocByControlSock_ (tabs s) !! sk) as [a|] eqn:Ea; [|by rewrite decide_False].
    destruct (ok_control _ _ (so_tabs _ _ Hs) sk a Hne Ea) as (z & Ez & _). rewrite Ez. cbn.
    destruct (decide (Some a = Some j)) as [[= ->]|Hnj]; [apply lookup_delete_eq|].
    apply lookup_delete_ne. congruence.
Qed.

(** A server with one control connection and no allocation. *)
Definition demoPeerTcp : AddrRecord := mkAddrRecord (SockIn 7000 [203; 0; 113; 44]) 16 SOCK_STREAM.
Definition demoConn : Srv := set_cns (registerConns 8 demoPeerTcp) demoSrv.

Lemma demoConn_ok : srv_ok demoEnv demoConn /\ linked demoEnv demoWorld demoConn.
Proof.
  destruct (wp_registerTcpConn demoEnv demoWorld demoSrv 8 demoPeerTcp demoSrv_ok demoSrv_linked)
    as ([] & s' & Hst & [H1 H2 H3 H4] & Hl & _ & Hc & Ht & _).
  - split; [done|]. split; [done|]. split; [by eexists|]. split; [done|].
    intros sk j y Hj. cbn in Hj. by rewrite lookup_empty in Hj.
  - rewrite Ht in *. rewrite Hc in *. split; [|unfold linked in Hl; by rewrite Ht, Hc in Hl].
    constructor; [done|done|done|done].
Qed.

Lemma close_releases_connection_witness :
  exists s', closeTcpConn demoEnv 0 demoConn = Some (tt, s') /\ srv_ok demoEnv s' /\
    linked demoEnv demoWorld s' /\
    tcpBySock_ (cns s') !! 8 = None /\ dataPipe_ (cns s') !! 8 = None /\
    dataPipePeer_ (cns s') !! 8 = None /\ (forall k, dataPipePeer_ (cns s') !! k <> Some 0%nat) /\
    (forall j x, heap (tabs s') !! j = Some x -> controlSock x <> 8) /\
    (forall j, heap (tabs s') !! j =
       if decide (allocByControlSock_ (tabs demoConn) !! 8 = Some j) then None
       else heap (tabs demoConn) !! j).
Proof.
  apply (close_releases_connection demoEnv demoWorld demoConn 8 0);
    [apply demoEnv_ok|apply demoConn_ok|apply demoConn_ok|reflexivity|done].
Defined.
