(* ===== verification/TurnTypes.v ===== *)
(** * Types of the TURN client (include/stice/turn/turn.hpp)

    The state of an allocation as the ICE agent sees it, the configuration of a client, and
    the timer constants. *)

From S2P Require Import Prelude.
Open Scope Z_scope.

Definition TurnRtoMs : Z := 200.
Definition TurnMaxRtxIntervalMs : Z := 1600.
Definition TurnMaxRtxCount : Z := 7.
Definition MaxNonceRetries : Z := 3.

Inductive TurnTransport := TurnUDP | TurnTCP | TurnTLS.

Inductive AllocState := AllocIdle | Allocating | Allocated | Deallocated | AllocFailed.

#[export] Instance TurnTransport_eq_dec : EqDecision TurnTransport.
Proof. solve_decision. Defined.
#[export] Instance AllocState_eq_dec : EqDecision AllocState.
Proof. solve_decision. Defined.

Record TurnConfig := mkTurnConfig {
  serverHost : string; serverPort : Z; tc_username : string; tc_password : string;
  tc_transport : TurnTransport; sni : string; requestedLifetime : Z; tcpAllocation : bool }.
