(* ===== verification/TurnClient.v ===== *)
(** * The TURN client (include/stice/turn/turn.hpp, src/turn/turn.cpp)

    The class [turn::Client]: the allocation's state machine, its credentials, the
    transactions that wait for a response, and one [PeerBinding] for each peer.

    A time point is a number of milliseconds and the clock stands still within a call.
    [pending_] is a map from the transaction id; [entries] lists it in the order the code
    iterates, by key.  A [PeerBinding &] is a [Ref]: an index together with the generation of
    [bindings_], which every [push_back] and every erasure raises, since both may move the
    elements; a reference of a former generation dangles, and using it is [None].

    The members of [TurnSink] the client calls are in [sink_]: [sendRaw k data] is the result
    of the [k]-th raw send, the others only tell whether the callback is set.  A call is an
    [Output].  Each callback but [sendRaw] is the last thing the client does in its step, so
    what the agent calls from there is a step of its own.  Logging is left out.

    [csprng k n] is the [k]-th request for [n] random bytes. *)

From stdpp Require Import sorting.
From S2P Require Import Prelude.
From S2P Require Import StateMonad.
From S2P Require Import Bytes.
From S2P Require Import Crypto.
From S2P Require Import Addr.
From S2P Require Import StunMessage.
From S2P Require Import StunAttributes.
From S2P Require Import ChannelData.
From S2P Require Import TurnTypes.
Open Scope Z_scope.
Open Scope c_scope.

(** ** State *)

Inductive Kind := KAllocate | KRefresh | KCreatePermission | KChannelBind | KConnect.
#[export] Instance Kind_eq_dec : EqDecision Kind.
Proof. solve_decision. Defined.

Record PendingTx := mkPendingTx {
  kind : Kind; tx_peer : AddrRecord; sentAt : Z; nextRetransmitAt : Z; retries : Z; rawBytes : bytes }.
#[export] Instance PendingTx_fields : RecordFields PendingTx := fun t =>
  mkPendingTx (kind t) (tx_peer t) (sentAt t) (nextRetransmitAt t) (retries t) (rawBytes t).

Record PeerBinding := mkPeerBinding {
  b_peer : AddrRecord; channel : Z; permissionPermitted : bool; channelReady : bool;
  permissionRefreshAt : Z; channelRefreshAt : Z; permissionTid : bytes; channelTid : bytes;
  permissionTidFresh : bool; channelTidFresh : bool; pendingData : list bytes }.
#[export] Instance PeerBinding_fields : RecordFields PeerBinding := fun b =>
  mkPeerBinding (b_peer b) (channel b) (permissionPermitted b) (channelReady b)
    (permissionRefreshAt b) (channelRefreshAt b) (permissionTid b) (channelTid b)
    (permissionTidFresh b) (channelTidFresh b) (pendingData b).

(** The default member initialisers. *)
Definition newBinding (peer : AddrRecord) : PeerBinding :=
  mkPeerBinding peer 0 false false 0 0 (replicate 12 0) (replicate 12 0) false false [].

(** Which callbacks are set. *)
Record TurnSink := mkTurnSink {
  sendRaw : option (nat -> bytes -> Z); onAllocated : bool; onFailed : bool; onData : bool;
  onConnectSuccess : bool; onConnectionAttempt : bool; onConnectFailed : bool }.

Inductive Output :=
| OSendRaw (data : bytes)
| OAllocated (relayed : AddrRecord) (lifetime : Z)
| OFailed (code : Z) (reason : bytes)
| OData (peer : AddrRecord) (data : bytes)
| OConnectSuccess (connId : Z) (peer : AddrRecord)
| OConnectionAttempt (connId : Z) (peer : AddrRecord)
| OConnectFailed (code : Z) (reason : bytes) (peer : AddrRecord).

Record Client := mkClient {
  cfg_ : TurnConfig; sink_ : TurnSink; state_ : AllocState; creds_ : option Credentials;
  nonceRetries_ : Z; failedEmitted_ : bool; relayedAddr_ : AddrRecord; lifetime_ : Z;
  refreshAt_ : Z; refreshTidFresh_ : bool; nextTick_ : Z; allocateTid_ : bytes;
  pending_ : gmap bytes PendingTx; bindings_ : list PeerBinding; bindingsGen : nat;
  isTcpAllocation_ : bool; clock : Z; draws : nat; sends : nat; outs : list Output }.
#[export] Instance Client_fields : RecordFields Client := fun s =>
  mkClient (cfg_ s) (sink_ s) (state_ s) (creds_ s) (nonceRetries_ s) (failedEmitted_ s)
    (relayedAddr_ s) (lifetime_ s) (refreshAt_ s) (refreshTidFresh_ s) (nextTick_ s)
    (allocateTid_ s) (pending_ s) (bindings_ s) (bindingsGen s) (isTcpAllocation_ s)
    (clock s) (draws s) (sends s) (outs s).

(** The iteration order of [std::map<std::string, PendingTx>]. *)
Fixpoint bytes_leb (a b : bytes) : bool :=
  match a, b with
  | [], _ => true
  | _ :: _, [] => false
  | x :: a, y :: b => if x =? y then bytes_leb a b else x <? y
  end.
Definition tid_le (a b : bytes) : Prop := bytes_leb a b = true.
#[export] Instance tid_le_dec a b : Decision (tid_le a b).
Proof. unfold tid_le. apply _. Defined.
Definition entries (m : gmap bytes PendingTx) : list bytes := merge_sort tid_le (elements (dom m)).

(** [time_point::max()] and the default time point. *)
Definition TimeMax : Z := 2 ^ 63 - 1.
Definition TimeNone : Z := 0.

(** The bytes of a C string. *)
Fixpoint untilNul (l : bytes) : bytes :=
  match l with [] => [] | b :: l => if b =? 0 then [] else b :: untilNul l end.
Definition c_str (s : string) : bytes := untilNul (bytes_of_string s).

Definition addrEqualNoPort (a b : AddrRecord) : bool := isEqual a b false.

(** ** Primitive steps *)

Abbreviation CM := (SM Client).

Definition emit (o : Output) : CM unit := modify (fun s => s <| outs ::= (fun l => l ++ [o]) |>).
Definition now : CM Z := gets clock.
Definition setState (st : AllocState) : CM unit := modify (fun s => s <| state_ := st |>).
Definition inState (st : AllocState) : CM bool := gets (fun s => bool_decide (state_ s = st)).

(** [if (sink_.f) sink_.f(...)]. *)
Definition callback (f : TurnSink -> bool) (o : Output) : CM unit :=
  b ← gets (fun s => f (sink_ s)); when b (emit o).

(** [sink_.sendRaw(data)], [None] when it is not set. *)
Definition rawSend (data : bytes) : CM (option Z) :=
  o ← gets (fun s => sendRaw (sink_ s));
  match o with
  | None => mret None
  | Some f =>
      k ← gets sends;
      modify (fun s => s <| sends := S k |>);;
      emit (OSendRaw data);;
      mret (Some (f k data))
  end.

Record Ref := mkRef { r_gen : nat; r_idx : nat }.

Definition deref (r : Ref) : CM PeerBinding :=
  g ← gets bindingsGen;
  l ← gets bindings_;
  lift (if decide (r_gen r = g) then l !! r_idx r else None).
Definition assign (r : Ref) (f : PeerBinding -> PeerBinding) : CM unit :=
  b ← deref r;
  modify (fun s => s <| bindings_ ::= <[r_idx r := f b]> |>).
Definition refAt (i : nat) : CM Ref := g ← gets bindingsGen; mret (mkRef g i).

(** The index of the first binding with this address. *)
Fixpoint bindingAt (peer : AddrRecord) (l : list PeerBinding) : option nat :=
  match l with
  | [] => None
  | b :: l => if addrRecordEq (b_peer b) peer then Some O else S <$> bindingAt peer l
  end.

(** [for (auto &b : bindings_) if (b.peer == peer) { ...; break; }]. *)
Definition updateBinding (peer : AddrRecord) (f : PeerBinding -> PeerBinding) : CM unit :=
  l ← gets bindings_;
  match bindingAt peer l with
  | Some i => r ← refAt i; assign r f
  | None => skip
  end.

Section Client.
Context (csprng : nat -> nat -> option bytes).

Definition draw (n : nat) : CM (option bytes) :=
  k ← gets draws; modify (fun s => s <| draws := S k |>);; mret (csprng k n).

(** A new message with a new transaction id. *)
Definition newMessage (meth : Z) (c : Class_) : CM Message :=
  rnd ← draw 12; mret (newTransactionID rnd (mkMessage meth c (replicate 12 0) [] [])).

(** ** Requests *)

Definition init (cfg : TurnConfig) (sink : TurnSink) : CM unit :=
  modify (fun s => s <| cfg_ := cfg |> <| sink_ := sink |> <| state_ := AllocIdle |>
                     <| failedEmitted_ := false |> <| nonceRetries_ := 0 |>).

Definition hasUsername (o : option Credentials) : bool :=
  match o with Some c => negb (length (cr_username c) =? 0)%nat | None => false end.

(** [applyCredentials]: the long-term key is derived anew. *)
Definition applyCredentials : CM unit :=
  o ← gets creds_;
  pw ← gets (fun s => tc_password (cfg_ s));
  match o with
  | Some c =>
      when (hasUsername o)
        (modify (fun s => s <| creds_ := Some (mkCreds (cr_username c) (cr_realm c) (cr_nonce c)
           (longTermKey (string_of_bytes (cr_username c)) (string_of_bytes (cr_realm c)) pw)) |>))
  | None => skip
  end.

Definition software : option bytes := Some (bytes_of_string "stice").

Definition encodeRequest (m : Message) : CM Message :=
  applyCredentials;;
  o ← gets creds_;
  pw ← gets (fun s => tc_password (cfg_ s));
  if hasUsername o then lift (encode m (Some (c_str pw)) o software)
  else lift (encode m None None software).

Definition prepareRequest (m : Message) : CM Message := encodeRequest m.

Definition sendPrepared (m : Message) : CM unit := rawSend (raw m);; skip.

Definition sendRequest (m : Message) : CM unit := m ← prepareRequest m; sendPrepared m.

(** [pending_[tidKey(tid)] = tx] for a request sent now. *)
Definition registerTx (k : Kind) (peer : AddrRecord) (m : Message) : CM unit :=
  t ← now;
  modify (fun s => s <| pending_ ::=
    <[transactionID m := mkPendingTx k peer t (t + TurnRtoMs) 0 (raw m)]> |>).

(** Captures realm and nonce (401) or the nonce (438); true when the request is to be sent
    again. *)
Definition handleAuthError (msg : Message) (code : Z) (retryAuthed : bool) : CM bool :=
  o ← gets creds_;
  n ← gets nonceRetries_;
  cfg ← gets cfg_;
  if code =? StunErrorUnauthenticated then
    if bool_decide (is_Some o) && negb retryAuthed then mret false else
    modify (fun s => s <| nonceRetries_ := n + 1 |>);;
    if MaxNonceRetries <? n + 1 then mret false else
    modify (fun s => s <| creds_ := Some (mkCreds (bytes_of_string (tc_username cfg))
      (getString msg AttrType.Realm) (getString msg AttrType.Nonce) (default [] (cr_key <$> o))) |>);;
    mret true
  else if code =? StunErrorStaleNonce then
    modify (fun s => s <| nonceRetries_ := n + 1 |>);;
    if MaxNonceRetries <? n + 1 then mret false else
    modify (fun s => s <| creds_ := (fun c : Credentials =>
      mkCreds (cr_username c) (cr_realm c) (getString msg AttrType.Nonce) (cr_key c)) <$> o |>);;
    mret true
  else mret false.

(** Emits [onFailed] at most once. *)
Definition failAllocation (code : Z) (reason : bytes) : CM unit :=
  b ← gets failedEmitted_;
  if (b : bool) then skip else
  modify (fun s => s <| failedEmitted_ := true |> <| state_ := AllocFailed |> <| pending_ := ∅ |>);;
  callback onFailed (OFailed code reason).

Definition allocate : CM unit :=
  idle ← inState AllocIdle;
  if negb idle then skip else
  setState Allocating;;
  modify (fun s => s <| isTcpAllocation_ := tcpAllocation (cfg_ s) |>);;
  tcp ← gets isTcpAllocation_;
  m ← newMessage Method.Allocate Request;
  modify (fun s => s <| allocateTid_ := transactionID m |>);;
  m ← prepareRequest (addRequestedTransport m (if (tcp : bool) then 6 else 17));
  t ← now;
  registerTx KAllocate emptyAddr m;;
  modify (fun s => s <| nextTick_ := t + TurnRtoMs |>);;
  sendPrepared m.

Definition sendRefresh (lifetime : Z) : CM unit :=
  fresh ← gets refreshTidFresh_;
  if (fresh : bool) then skip else
  m ← newMessage Method.Refresh Request;
  m ← prepareRequest (addLifetime m lifetime);
  t ← now;
  registerTx KRefresh emptyAddr m;;
  modify (fun s => s <| refreshTidFresh_ := true |> <| refreshAt_ := t + TurnRtoMs |>);;
  sendPrepared m.

Definition deallocate : CM unit :=
  b ← inState Allocated;
  if negb b then skip else
  modify (fun s => s <| refreshTidFresh_ := false |>);;
  sendRefresh 0;;
  setState Deallocated.

(** ** Bindings *)

Definition getBinding (peer : AddrRecord) : CM Ref :=
  l ← gets bindings_;
  match bindingAt peer l with
  | Some i => refAt i
  | None =>
      modify (fun s => s <| bindings_ ::= (fun l => l ++ [newBinding peer]) |>
                         <| bindingsGen ::= S |>);;
      refAt (length l)
  end.

Definition permitsPeer (peer : AddrRecord) (b : PeerBinding) : bool :=
  addrEqualNoPort (b_peer b) peer && permissionPermitted b.
Definition hasPermission (peer : AddrRecord) : CM bool :=
  gets (fun s => existsb (permitsPeer peer) (bindings_ s)).

(** The request that names [peer]. *)
Definition peerRequest (meth : Z) (peer : AddrRecord) : CM Message :=
  m ← newMessage meth Request;
  mret (writeXorAddress m AttrType.XorPeerAddress peer (transactionID m)).2.

Definition sendCreatePermission (peer : AddrRecord) : CM unit :=
  r ← getBinding peer;
  b ← deref r;
  if permissionTidFresh b then skip else
  m ← peerRequest Method.CreatePermission peer;
  m ← prepareRequest m;
  assign r (fun b => b <| permissionTid := transactionID m |> <| permissionTidFresh := true |>);;
  registerTx KCreatePermission peer m;;
  sendPrepared m.

Definition drawChannel : CM Z := rnd ← draw 4; mret (randomChannelNumber (randomU32 rnd)).

(** Another binding than the one at [i] has channel [c]. *)
Definition channelTaken (c : Z) (i : nat) (l : list PeerBinding) : bool :=
  existsb (fun p => negb (p.1 =? i)%nat && (channel p.2 =? c)) (zip (seq 0 (length l)) l).

(** The attempts to draw a free channel number; 0 when all failed. *)
Fixpoint pickChannel (attempts : nat) (i : nat) : CM Z :=
  match attempts with
  | O => mret 0
  | S attempts =>
      c ← drawChannel;
      l ← gets bindings_;
      if channelTaken c i l then pickChannel attempts i else mret c
  end.

Definition chooseChannel (r : Ref) : CM unit :=
  b ← deref r;
  if negb (channel b =? 0) then skip else
  c ← pickChannel 8 (r_idx r);
  assign r (fun b => b <| channel := c |>);;
  if c =? 0 then c ← drawChannel; assign r (fun b => b <| channel := c |>) else skip.

Definition sendChannelBind (peer : AddrRecord) : CM unit :=
  r ← getBinding peer;
  b ← deref r;
  if channelTidFresh b then skip else
  chooseChannel r;;
  b ← deref r;
  m ← peerRequest Method.ChannelBind peer;
  m ← prepareRequest (addChannelNumber m (channel b));
  assign r (fun b => b <| channelTid := transactionID m |> <| channelTidFresh := true |>);;
  registerTx KChannelBind peer m;;
  sendPrepared m.

Definition ensurePermission (peer : AddrRecord) : CM unit := sendCreatePermission peer.

(** ** Sending data *)

(** The result and the vector [out]. *)
Definition prepareChannelData (peer : AddrRecord) (data out : bytes) : CM (Z * bytes) :=
  ok ← inState Allocated;
  if negb ok then mret (-1, out) else
  l ← gets bindings_;
  match bindingAt peer l with
  | None => mret (0, out)
  | Some i =>
      b ← lift (l !! i);
      if negb (channelReady b) then mret (0, out) else
      r ← lift (wrapChannelData (channel b) data out);
      if (r.1 =? 0)%nat then mret (-1, r.2) else mret (1, r.2)
  end.

Definition kMaxPendingDataPkts : nat := 512.

(** Buffering while the permission is pending: the oldest packet goes when the buffer is
    full. *)
Definition pushPending (data : bytes) (l : list bytes) : list bytes :=
  (if (kMaxPendingDataPkts <=? length l)%nat then drop 1 l else l) ++ [data].

Definition sendIndication (peer : AddrRecord) (data : bytes) : CM Message :=
  m ← newMessage Method.Send Indication;
  lift (encode (addData (writeXorAddress m AttrType.XorPeerAddress peer (transactionID m)).2 data)
          None None software).

Definition sendData (peer : AddrRecord) (data : bytes) : CM Z :=
  ok ← inState Allocated;
  if negb ok then mret (-1) else
  r ← getBinding peer;
  permitted ← hasPermission peer;
  if negb permitted then
    b ← deref r;
    (if permissionTidFresh b then skip else sendCreatePermission peer);;
    assign r (fun b => b <| pendingData ::= pushPending data |>);;
    mret (Z.of_nat (length data))
  else
  b ← deref r;
  if channelReady b then
    f ← lift (wrapChannelData (channel b) data []);
    if (f.1 =? 0)%nat then mret (-1) else
    n ← rawSend f.2;
    mret (default (-1) n)
  else if 0xFFFF - 40 <? Z.of_nat (length data) then mret (-1) else
  m ← sendIndication peer data;
  n ← rawSend (raw m);
  b ← deref r;
  (if channel b =? 0 then sendChannelBind peer else skip);;
  mret (default (-1) n).

(** One buffered packet; whether the transport took it. *)
Definition flushOne (r : Ref) (pkt : bytes) : CM bool :=
  b ← deref r;
  if channelReady b then
    f ← lift (wrapChannelData (channel b) pkt []);
    if (f.1 =? 0)%nat then mret false else
    n ← rawSend f.2;
    mret (negb (default (-1) n <? 0))
  else
    m ← sendIndication (b_peer b) pkt;
    n ← rawSend (raw m);
    mret (negb (default (-1) n <? 0)).

(** The number of packets sent, up to the first that is refused. *)
Fixpoint flushLoop (r : Ref) (l : list bytes) : CM nat :=
  match l with
  | [] => mret 0%nat
  | pkt :: l =>
      ok ← flushOne r pkt;
      if (ok : bool) then n ← flushLoop r l; mret (S n) else mret 0%nat
  end.

Definition flushPendingData (r : Ref) : CM nat :=
  b ← deref r;
  match pendingData b with
  | [] => mret 0%nat
  | l =>
      f ← gets (fun s => sendRaw (sink_ s));
      match f with
      | None => mret (length l)
      | Some _ =>
          sent ← flushLoop r l;
          assign r (fun b => b <| pendingData ::= drop sent |>);;
          mret (length l - sent)%nat
      end
  end.

(** ** Responses *)

(** [int code = 0; std::string reason; readErrorCode(msg, code, reason)]. *)
Definition errorOf (msg : Message) : CM (Z * bytes) :=
  o ← lift (readErrorCode msg); mret (default (0, []) o).

Definition str (s : string) : bytes := bytes_of_string s.

(** [lifetime/2] with up to a tenth of jitter, from now. *)
Definition scheduleRefresh (lt : Z) : CM unit :=
  j ← (if 10 <? lt then rnd ← draw 4; mret (randomU32 rnd mod (lt / 10 + 1)) else mret 0);
  t ← now;
  modify (fun s => s <| refreshAt_ := t + 1000 * u32 (Z.max 1 (lt / 2) + j) |>).

Definition lifetimeOf (msg : Message) : CM Z :=
  dflt ← gets (fun s => requestedLifetime (cfg_ s));
  o ← lift (readLifetime msg);
  mret (default dflt o).

Definition handleAllocateResponse (msg : Message) (isError : bool) : CM unit :=
  if isError then
    e ← errorOf msg;
    let '(code, reason) := e in
    if (code =? StunErrorUnauthenticated) || (code =? StunErrorStaleNonce) then
      retry ← handleAuthError msg code false;
      if (retry : bool) then setState AllocIdle;; allocate else
      o ← gets creds_;
      failAllocation code
        (if (code =? StunErrorUnauthenticated) && bool_decide (is_Some o)
         then str "authentication failed: " ++ reason else str "allocate failed: " ++ reason)
    else failAllocation code reason
  else
    modify (fun s => s <| nonceRetries_ := 0 |>);;
    o ← lift (readXorAddress msg AttrType.XorRelayedAddress (transactionID msg));
    match o with
    | None => failAllocation 0 (str "missing relayed address")
    | Some relayed =>
        modify (fun s => s <| relayedAddr_ := relayed |>);;
        lt ← lifetimeOf msg;
        modify (fun s => s <| lifetime_ := lt |> <| state_ := Allocated |>);;
        scheduleRefresh lt;;
        callback onAllocated (OAllocated relayed lt)
    end.

Definition handleRefreshResponse (msg : Message) (isError : bool) : CM unit :=
  if isError then
    e ← errorOf msg;
    let '(code, reason) := e in
    retry ← handleAuthError msg code true;
    if (retry : bool) then lt ← gets lifetime_; sendRefresh lt
    else failAllocation code (str "refresh failed: " ++ reason)
  else
    modify (fun s => s <| nonceRetries_ := 0 |>);;
    d ← inState Deallocated;
    if (d : bool) then skip else
    lt ← lifetimeOf msg;
    modify (fun s => s <| lifetime_ := lt |>);;
    scheduleRefresh lt.

Definition handleCreatePermissionResponse (msg : Message) (isError : bool) (peer : AddrRecord)
    : CM unit :=
  r ← getBinding peer;
  if negb isError then
    modify (fun s => s <| nonceRetries_ := 0 |>);;
    t ← now;
    assign r (fun b => b <| permissionPermitted := true |> <| permissionRefreshAt := t + 120 * 1000 |>);;
    b ← deref r;
    match pendingData b with
    | [] => skip
    | _ =>
        flushPendingData r;;
        b ← deref r;
        if channel b =? 0 then sendChannelBind peer else skip
    end
  else
    e ← errorOf msg;
    retry ← handleAuthError msg e.1 true;
    if (retry : bool) then
      assign r (fun b => b <| permissionTidFresh := false |>);;
      sendCreatePermission peer
    else assign r (fun b => b <| pendingData := [] |>).

Definition handleChannelBindResponse (msg : Message) (isError : bool) (peer : AddrRecord) : CM unit :=
  r ← getBinding peer;
  t ← now;
  if negb isError then
    modify (fun s => s <| nonceRetries_ := 0 |>);;
    assign r (fun b => b <| channelReady := true |> <| channelRefreshAt := t + 300 * 1000 |>)
  else
    e ← errorOf msg;
    let '(code, reason) := e in
    retry ← handleAuthError msg code true;
    if (retry : bool) then
      assign r (fun b => b <| channelTidFresh := false |>);;
      sendChannelBind peer
    else if code =? 400 then
      b ← deref r;
      if channelReady b then assign r (fun b => b <| channelRefreshAt := t + 300 * 1000 |>)
      else
        setState AllocFailed;;
        callback onFailed (OFailed code (str "ChannelBind bad request: " ++ reason))
    else skip.

(** ** RFC 6062 *)

Definition sendConnect (peer : AddrRecord) : CM unit :=
  ok ← inState Allocated;
  if negb ok then skip else
  m ← peerRequest Method.Connect peer;
  m ← prepareRequest m;
  registerTx KConnect peer m;;
  sendPrepared m.

Definition buildConnectionBindRequest (connectionId : Z) : CM bytes :=
  m ← newMessage Method.ConnectionBind Request;
  m ← encodeRequest (addConnectionId m connectionId);
  mret (raw m).

Definition handleConnectResponse (msg : Message) (isError : bool) (peer : AddrRecord) : CM unit :=
  if isError then
    e ← errorOf msg;
    callback onConnectFailed (OConnectFailed e.1 e.2 peer)
  else
    o ← lift (readConnectionId msg);
    match o with
    | None => skip
    | Some connId => callback onConnectSuccess (OConnectSuccess connId peer)
    end.

Definition handleConnectionAttempt (msg : Message) : CM unit :=
  o ← lift (readXorAddress msg AttrType.XorPeerAddress (transactionID msg));
  match o with
  | None => skip
  | Some peer =>
      o ← lift (readConnectionId msg);
      match o with
      | None => skip
      | Some connId => callback onConnectionAttempt (OConnectionAttempt connId peer)
      end
  end.

(** ** Inbound packets *)

Definition handleStunResponse (m : Message) : CM unit :=
  p ← gets pending_;
  match p !! transactionID m with
  | None => skip
  | Some tx =>
      let isError := bool_decide (cls m = ErrorResponse) in
      (if isError then errorOf m;; skip else skip);;
      let erase := modify (fun s => s <| pending_ ::= delete (transactionID m) |>) in
      match kind tx with
      | KAllocate => erase;; handleAllocateResponse m isError
      | KRefresh =>
          modify (fun s => s <| refreshTidFresh_ := false |>);;
          erase;; handleRefreshResponse m isError
      | KCreatePermission =>
          updateBinding (tx_peer tx) (fun b => b <| permissionTidFresh := false |>);;
          erase;; handleCreatePermissionResponse m isError (tx_peer tx)
      | KChannelBind =>
          updateBinding (tx_peer tx) (fun b => b <| channelTidFresh := false |>);;
          erase;; handleChannelBindResponse m isError (tx_peer tx)
      | KConnect => erase;; handleConnectResponse m isError (tx_peer tx)
      end
  end.

Definition handleDataIndication (msg : Message) : CM unit :=
  o ← lift (readXorAddress msg AttrType.XorPeerAddress (transactionID msg));
  match o, find msg AttrType.Data with
  | Some peer, Some a => callback onData (OData peer (value a))
  | _, _ => skip
  end.

Definition handleChannelData (data : bytes) : CM unit :=
  u ← lift (unwrapChannelData data 0 0);
  if (un_ret u =? 0)%nat then skip else
  off ← lift (un_data u);
  payload ← lift (peek data off (un_ret u));
  l ← gets bindings_;
  match List.find (fun b => channel b =? un_channel u) l with
  | Some b => callback onData (OData (b_peer b) payload)
  | None =>
      match l with
      | [b] => callback onData (OData (b_peer b) payload)
      | _ => skip
      end
  end.

(** [None] is the null pointer with size 0: the transport failed. *)
Definition handleInbound (packet : option bytes) : CM unit :=
  match packet with
  | None =>
      f ← inState AllocFailed;
      if (f : bool) then skip else failAllocation 0 (str "transport failure")
  | Some data =>
      c ← lift (isChannelData data);
      if (c : bool) then handleChannelData data else
      ok ← lift (isMessage data);
      if negb ok then skip else
      r ← lift (decode emptyMessage data);
      let '(ok, m) := r in
      if negb ok then skip else
      if isResponseType (cls m) then handleStunResponse m
      else if bool_decide (cls m = Indication) && (method m =? Method.Data) then handleDataIndication m
      else if bool_decide (cls m = Indication) && (method m =? Method.ConnectionAttempt)
      then handleConnectionAttempt m
      else skip
  end.

(** ** The timer *)

Definition noteDeadline (t : Z) : CM unit :=
  modify (fun s => s <| nextTick_ ::= (fun n => if t <? n then t else n) |>).

(** A transaction whose retransmissions are exhausted; false when [tick] returns at once. *)
Definition onTimeout (tx : PendingTx) : CM bool :=
  match kind tx with
  | KAllocate => failAllocation 0 (str "allocate timeout");; mret false
  | KRefresh =>
      modify (fun s => s <| refreshTidFresh_ := false |>);;
      failAllocation 0 (str "refresh timeout");; mret false
  | KCreatePermission =>
      updateBinding (tx_peer tx) (fun b => b <| permissionTidFresh := false |> <| pendingData := [] |>);;
      mret true
  | KChannelBind =>
      l ← gets bindings_;
      updateBinding (tx_peer tx) (fun b =>
        let b := b <| channelTidFresh := false |> in
        if existsb (permitsPeer (b_peer b)) l then b else b <| pendingData := [] |>);;
      mret true
  | KConnect => mret true
  end.

Definition rtxInterval (retries : Z) : Z := Z.min (TurnRtoMs <<. retries) TurnMaxRtxIntervalMs.

(** One turn of the loop over [pending_]. *)
Definition serveTx (t : Z) (k : bytes) : CM bool :=
  p ← gets pending_;
  tx ← lift (p !! k);
  if negb (nextRetransmitAt tx <=? t) then noteDeadline (nextRetransmitAt tx);; mret true else
  if TurnMaxRtxCount <=? retries tx then
    modify (fun s => s <| pending_ ::= delete k |>);;
    onTimeout tx
  else
    reliable ← gets (fun s => negb (bool_decide (tc_transport (cfg_ s) = TurnUDP)));
    (if negb reliable && negb (length (rawBytes tx) =? 0)%nat then rawSend (rawBytes tx);; skip else skip);;
    let tx := tx <| retries ::= Z.add 1 |> in
    let tx := tx <| nextRetransmitAt := t + rtxInterval (retries tx) |> in
    modify (fun s => s <| pending_ ::= <[k := tx]> |>);;
    noteDeadline (nextRetransmitAt tx);;
    mret true.

Fixpoint serveAll (t : Z) (l : list bytes) : CM bool :=
  match l with
  | [] => mret true
  | k :: l => go ← serveTx t k; if (go : bool) then serveAll t l else mret false
  end.

(** Refresh of the permission and the channel of one binding. *)
Definition refreshBinding (t : Z) (r : Ref) : CM unit :=
  b ← deref r;
  (if permissionPermitted b && (permissionRefreshAt b <=? t)
   then sendCreatePermission (b_peer b) else skip);;
  b ← deref r;
  if channelReady b && (channelRefreshAt b <=? t) then sendChannelBind (b_peer b) else skip.

Definition retryPending (r : Ref) : CM unit :=
  b ← deref r;
  if negb (length (pendingData b) =? 0)%nat && permissionPermitted b
  then flushPendingData r;; skip else skip.

(** [for (auto &b : bindings_)]: the iterators of the loop are of the generation at its
    start. *)
Definition forBindings (f : Ref -> CM unit) : CM unit :=
  g ← gets bindingsGen;
  n ← gets (fun s => length (bindings_ s));
  forM (seq 0 n) (fun i => f (mkRef g i)).

Definition staleBinding (t : Z) (b : PeerBinding) : bool :=
  if permissionPermitted b || channelReady b then false else
  if permissionTidFresh b || channelTidFresh b then false else
  permissionRefreshAt b + 5 * 60 * 1000 <? t.

Definition collectStale (t : Z) : CM unit :=
  modify (fun s => s <| bindings_ ::= List.filter (fun b => negb (staleBinding t b)) |>
                     <| bindingsGen ::= S |>).

Definition bindingDeadlines (b : PeerBinding) : CM unit :=
  (if permissionPermitted b then noteDeadline (permissionRefreshAt b) else skip);;
  if channelReady b then noteDeadline (channelRefreshAt b) else skip.

(** What falls due beside the transactions: the allocation's Refresh, the permissions and
    channels, the data that waits, and the bindings nobody uses. *)
Definition refreshDue (t : Z) : CM unit :=
  alive ← inState Allocated;
  at_ ← gets refreshAt_;
  (if alive && (at_ <=? t) then lt ← gets lifetime_; sendRefresh lt else skip);;
  forBindings (refreshBinding t);;
  forBindings retryPending;;
  collectStale t.

(** The final pass: the earliest deadline. *)
Definition nextDeadline : CM Z :=
  p ← gets pending_;
  forM (entries p) (fun k => tx ← lift (p !! k); noteDeadline (nextRetransmitAt tx));;
  l ← gets bindings_;
  forM l bindingDeadlines;;
  alive ← inState Allocated;
  at_ ← gets refreshAt_;
  (if (alive : bool) then noteDeadline at_ else skip);;
  n ← gets nextTick_;
  mret (if n =? TimeMax then TimeNone else n).

Definition tick : CM Z :=
  t ← now;
  modify (fun s => s <| nextTick_ := TimeMax |>);;
  p ← gets pending_;
  go ← serveAll t (entries p);
  if negb go then mret TimeNone else
  refreshDue t;;
  nextDeadline.

End Client.

(** A default-constructed client after [init]. *)
Definition newClient (cfg : TurnConfig) (sink : TurnSink) : Client :=
  mkClient cfg sink AllocIdle None 0 false emptyAddr 0 0 false 0 (replicate 12 0) ∅ [] 0 false
    0 0 0 [].
