(* ===== verification/TurnClientInv.v ===== *)
(** * The invariant of the TURN client

    [cinv] says what holds between any two calls of a [turn::Client]: the bindings are of
    pairwise different peers and hold bounded queues and valid channel numbers, and every
    transaction in [pending_] is the one in flight for its slot, the one its flag stands for.
    The invariant speaks of a few members only; [moved] records what a step did to them, and
    [core_ok] is the part of the invariant that depends on them. *)

From S2P Require Import Prelude.
From S2P Require Import StateMonad.
From S2P Require Import Bytes.
From S2P Require Import Crypto.
From S2P Require Import Addr.
From S2P Require Import StunMessage.
From S2P Require Import StunAttributes.
From S2P Require Import ChannelData.
From S2P Require Import TurnTypes.
From S2P Require Import TurnClient.
Open Scope Z_scope.

(** ** Definitions *)

(** An address the program can compare. *)
Definition good (p : AddrRecord) : Prop := is_Some (normalize (addr p)).

Definition creds_sized (o : option Credentials) : Prop :=
  match o with
  | Some c => sized (cr_username c) /\ sized (cr_realm c) /\ sized (cr_nonce c)
  | None => True
  end.

Definition cfg_ok (c : TurnConfig) : Prop := sizedStr (tc_username c).

Record binding_ok (b : PeerBinding) : Prop := {
  bo_peer : good (b_peer b);
  bo_channel : channel b = 0 \/ channelValid (channel b) = true;
  bo_ready : channelReady b = true \/ channelTidFresh b = true -> channel b <> 0;
  bo_data : (length (pendingData b) <= kMaxPendingDataPkts)%nat;
  bo_sized : Forall sized (pendingData b);
}.

(** No two bindings of one peer. *)
Definition distinct (l : list PeerBinding) : Prop :=
  forall i j b c, l !! i = Some b -> l !! j = Some c ->
    addrRecordEq (b_peer b) (b_peer c) = true -> i = j.

(** The allocation has not been made yet. *)
Definition early (st : AllocState) : Prop := st = AllocIdle \/ st = Allocating.

(** A binding of this peer has the flag set. *)
Definition waits (f : PeerBinding -> bool) (l : list PeerBinding) (p : AddrRecord) : Prop :=
  exists i b, l !! i = Some b /\ addrRecordEq (b_peer b) p = true /\ f b = true.

(** The member that says that this transaction is in flight. *)
Definition flagged (st : AllocState) (fr : bool) (l : list PeerBinding) (tx : PendingTx) : Prop :=
  match kind tx with
  | KAllocate => st = Allocating
  | KRefresh => ~ early st /\ (st = Allocated -> fr = true)
  | KCreatePermission => waits permissionTidFresh l (tx_peer tx)
  | KChannelBind => ~ early st /\ waits channelTidFresh l (tx_peer tx)
  | KConnect => True
  end.

(** Two transactions of which only one may be in flight.  Deallocation does not wait for a
    Refresh that is under way. *)
Definition same_slot (st : AllocState) (a b : PendingTx) : Prop :=
  kind a = kind b /\
  match kind a with
  | KAllocate => True
  | KRefresh => st = Allocated
  | KCreatePermission | KChannelBind => addrRecordEq (tx_peer a) (tx_peer b) = true
  | KConnect => False
  end.

Definition tx_ok (tx : PendingTx) : Prop := 0 <= retries tx <= TurnMaxRtxCount.

Record pend_ok (st : AllocState) (fr : bool) (l : list PeerBinding) (P : gmap bytes PendingTx) : Prop := {
  po_tx : forall k tx, P !! k = Some tx -> tx_ok tx;
  po_flag : forall k tx, P !! k = Some tx -> flagged st fr l tx;
  po_slot : forall k1 k2 a b, P !! k1 = Some a -> P !! k2 = Some b -> same_slot st a b -> k1 = k2;
}.

Record core_ok (st : AllocState) (fe fr : bool) (l : list PeerBinding) (P : gmap bytes PendingTx) : Prop := {
  co_bindings : Forall binding_ok l;
  co_distinct : distinct l;
  co_early : early st -> Forall (fun b => pendingData b = [] /\ channelReady b = false) l;
  co_pend : pend_ok st fr l P;
  co_failed : fe = true -> st = AllocFailed;
}.

Record cinv (s : Client) : Prop := {
  ci_cfg : cfg_ok (cfg_ s);
  ci_creds : creds_sized (creds_ s);
  ci_core : core_ok (state_ s) (failedEmitted_ s) (refreshTidFresh_ s) (bindings_ s) (pending_ s);
}.

(** What a step did: the members it may change have these values now. *)
Record moved (s s' : Client) (st : AllocState) (fr : bool) (l : list PeerBinding) (g : nat)
    (P : gmap bytes PendingTx) : Prop := {
  mv_cfg : cfg_ s' = cfg_ s; mv_sink : sink_ s' = sink_ s; mv_clock : clock s' = clock s;
  mv_failed : failedEmitted_ s' = failedEmitted_ s;
  mv_creds : cfg_ok (cfg_ s) -> creds_sized (creds_ s) -> creds_sized (creds_ s');
  mv_state : state_ s' = st; mv_fresh : refreshTidFresh_ s' = fr;
  mv_bindings : bindings_ s' = l; mv_gen : bindingsGen s' = g; mv_pending : pending_ s' = P;
}.

Definition still (s s' : Client) : Prop :=
  moved s s' (state_ s) (refreshTidFresh_ s) (bindings_ s) (bindingsGen s) (pending_ s).

(** References stay valid. *)
Record stable (s s' : Client) : Prop := {
  sb_cfg : cfg_ s' = cfg_ s; sb_sink : sink_ s' = sink_ s; sb_clock : clock s' = clock s;
  sb_state : state_ s' = state_ s; sb_gen : bindingsGen s' = bindingsGen s;
  sb_peers : b_peer <$> bindings_ s' = b_peer <$> bindings_ s;
}.

Lemma moved_trans s1 s2 s3 st fr l g P :
  still s1 s2 -> moved s2 s3 st fr l g P -> moved s1 s3 st fr l g P.
Proof.
  intros [] []. constructor; try congruence. intros Hc Hs.
  apply mv_creds1; [congruence|]. by apply mv_creds0.
Qed.

Lemma moved_still s1 s2 s3 st fr l g P :
  moved s1 s2 st fr l g P -> still s2 s3 -> moved s1 s3 st fr l g P.
Proof.
  intros [] []. constructor; try congruence. intros Hc Hs.
  apply mv_creds1; [congruence|]. by apply mv_creds0.
Qed.

Lemma still_refl s : still s s.
Proof. by constructor. Qed.

Lemma still_trans s1 s2 s3 : still s1 s2 -> still s2 s3 -> still s1 s3.
Proof. intros H1 H2. by eapply moved_still. Qed.

Lemma cinv_moved s s' st fr l g P :
  cinv s -> moved s s' st fr l g P -> core_ok st (failedEmitted_ s) fr l P -> cinv s'.
Proof.
  intros [H1 H2 H3] []  Hc. constructor; [congruence|by apply mv_creds0|]. congruence.
Qed.

Lemma cinv_still s s' : cinv s -> still s s' -> cinv s'.
Proof. intros H Hc. eapply cinv_moved; [done..|]. apply H. Qed.

Lemma stable_refl s : stable s s.
Proof. by constructor. Qed.

Lemma stable_trans s1 s2 s3 : stable s1 s2 -> stable s2 s3 -> stable s1 s3.
Proof. intros [] []. constructor; congruence. Qed.

Lemma stable_moved s s' fr l P :
  moved s s' (state_ s) fr l (bindingsGen s) P -> b_peer <$> l = b_peer <$> bindings_ s -> stable s s'.
Proof. intros [] Hl. constructor; congruence. Qed.

Lemma stable_still s s' : still s s' -> stable s s'.
Proof. intros H. by eapply stable_moved. Qed.

#[export] Hint Resolve still_refl stable_refl stable_still : core.

(** ** Bindings *)

Lemma peers_lookup (l l' : list PeerBinding) i b :
  b_peer <$> l' = b_peer <$> l -> l !! i = Some b -> exists b', l' !! i = Some b' /\ b_peer b' = b_peer b.
Proof.
  intros Hp Hi. assert (H : (b_peer <$> l') !! i = Some (b_peer b))
    by (rewrite Hp, list_lookup_fmap, Hi; done).
  rewrite list_lookup_fmap in H. destruct (l' !! i) as [b'|]; [|done]. exists b'. split; [done|].
  by injection H.
Qed.

Lemma peers_update (l : list PeerBinding) i b b' :
  l !! i = Some b -> b_peer b' = b_peer b -> b_peer <$> <[i := b']> l = b_peer <$> l.
Proof.
  intros Hi Hp. rewrite list_fmap_insert, Hp. apply list_insert_id. by rewrite list_lookup_fmap, Hi.
Qed.

Lemma distinct_peers l l' : b_peer <$> l' = b_peer <$> l -> distinct l -> distinct l'.
Proof.
  intros Hp Hd i j b c Hi Hj E. symmetry in Hp.
  destruct (peers_lookup _ _ _ _ Hp Hi) as (b0 & Hb & Eb).
  destruct (peers_lookup _ _ _ _ Hp Hj) as (c0 & Hc & Ec).
  apply (Hd i j b0 c0); congruence.
Qed.

Lemma bindingAt_Some peer l i :
  bindingAt peer l = Some i -> exists b, l !! i = Some b /\ addrRecordEq (b_peer b) peer = true.
Proof.
  revert i. induction l as [|b l IH]; intros i; simpl; [done|].
  destruct (addrRecordEq (b_peer b) peer) eqn:E; [intros [= <-]; by exists b|].
  destruct (bindingAt peer l) as [j|]; [|done]. intros [= <-]. by apply IH.
Qed.

Lemma bindingAt_None peer l i b :
  bindingAt peer l = None -> l !! i = Some b -> addrRecordEq (b_peer b) peer = false.
Proof.
  revert i. induction l as [|c l IH]; intros i; simpl; [done|].
  destruct (addrRecordEq (b_peer c) peer) eqn:E; [done|].
  destruct (bindingAt peer l) as [j|]; [done|]. intros _. destruct i; simpl; [by intros [= <-]|by apply IH].
Qed.

(** With distinct peers the binding of a peer is found wherever it is. *)
Lemma bindingAt_lookup peer l i b :
  distinct l -> l !! i = Some b -> addrRecordEq (b_peer b) peer = true -> bindingAt peer l = Some i.
Proof.
  intros Hd Hi E. destruct (bindingAt peer l) as [j|] eqn:Hj.
  - destruct (bindingAt_Some _ _ _ Hj) as (c & Hc & Ec). f_equal.
    apply (Hd j i c b Hc Hi). eapply addrRecordEq_trans; [done|]. by apply addrRecordEq_sym.
  - by rewrite (bindingAt_None _ _ _ _ Hj Hi) in E.
Qed.

Lemma bindingAt_peers peer l l' : b_peer <$> l' = b_peer <$> l -> bindingAt peer l' = bindingAt peer l.
Proof.
  revert l'. induction l as [|b l IH]; intros [|c l'] H; simpl in *; [done..|].
  injection H as Hb Hl. rewrite Hb, (IH _ Hl). done.
Qed.

Lemma distinct_snoc l p :
  distinct l -> good p -> bindingAt p l = None -> distinct (l ++ [newBinding p]).
Proof.
  intros Hd Hg Hn.
  assert (H : forall i j b c, l !! i = Some b -> [newBinding p] !! (j - length l)%nat = Some c ->
            addrRecordEq (b_peer b) (b_peer c) = true -> False).
  { intros i j b c Hi Hc E. rewrite list_lookup_singleton in Hc. destruct (j - length l)%nat; [|done].
    injection Hc as <-. cbn [b_peer newBinding] in E. by rewrite (bindingAt_None _ _ _ _ Hn Hi) in E. }
  intros i j b c Hi Hj E. rewrite lookup_app_Some in Hi, Hj.
  destruct Hi as [Hi|[Hi Hb]], Hj as [Hj|[Hj Hc]].
  - by apply (Hd i j b c).
  - by destruct (H i j b c).
  - destruct (H j i c b); [done..|]. by apply addrRecordEq_sym.
  - rewrite list_lookup_singleton in Hb, Hc.
    destruct (i - length l)%nat eqn:?, (j - length l)%nat eqn:?; try done. lia.
Qed.

Lemma binding_ok_new p : good p -> binding_ok (newBinding p).
Proof. intros Hg. constructor; cbn; [done|by left|by intros [|]|lia|constructor]. Qed.

(** ** The transactions *)

Lemma waits_mono f g l l' p :
  b_peer <$> l' = b_peer <$> l ->
  (forall i b b', l !! i = Some b -> l' !! i = Some b' -> f b = true -> g b' = true) ->
  waits f l p -> waits g l' p.
Proof.
  intros Hp Hf (i & b & Hi & E & Hb). destruct (peers_lookup _ _ _ _ Hp Hi) as (b' & Hi' & Eb).
  exists i, b'. split; [done|]. split; [congruence|]. by eapply Hf.
Qed.

Lemma waits_snoc f l x p : waits f l p -> waits f (l ++ [x]) p.
Proof. intros (i & b & Hi & H). exists i, b. split; [by apply lookup_app_l_Some|done]. Qed.

Lemma pend_empty st fr l : pend_ok st fr l ∅.
Proof. by constructor; intros *; rewrite lookup_empty. Qed.

(** The bindings changed, but no flag was cleared. *)
Lemma pend_bindings st fr l l' P :
  pend_ok st fr l P ->
  (forall p, waits permissionTidFresh l p -> waits permissionTidFresh l' p) ->
  (forall p, waits channelTidFresh l p -> waits channelTidFresh l' p) -> pend_ok st fr l' P.
Proof.
  intros [H1 H2 H3] Hp Hc. constructor; [done| |done]. intros k tx Hk.
  specialize (H2 k tx Hk). unfold flagged in *. destruct (kind tx); try done; [by apply Hp|].
  destruct H2. split; [done|by apply Hc].
Qed.

(** A transaction for a free slot. *)
Lemma pend_insert st fr l P k tx :
  pend_ok st fr l P -> tx_ok tx -> flagged st fr l tx ->
  (forall k' tx', P !! k' = Some tx' -> ~ same_slot st tx tx') ->
  pend_ok st fr l (<[k := tx]> P).
Proof.
  intros [H1 H2 H3] Ht Hf Hs. constructor.
  - intros k' tx'. rewrite lookup_insert_Some. intros [[_ <-]|[_ H]]; [done|by eapply H1].
  - intros k' tx'. rewrite lookup_insert_Some. intros [[_ <-]|[_ H]]; [done|by eapply H2].
  - intros k1 k2 a b. rewrite !lookup_insert_Some.
    intros [[<- <-]|[N1 A]] [[<- <-]|[N2 B]] Hab; [done| | |by eapply H3].
    + by destruct (Hs _ _ B).
    + destruct (Hs _ _ A). destruct Hab as [Ek Hab]. split; [done|]. rewrite <- Ek.
      destruct (kind a); try done; by apply addrRecordEq_sym.
Qed.

Lemma pend_delete st fr l P k : pend_ok st fr l P -> pend_ok st fr l (delete k P).
Proof.
  intros [H1 H2 H3]. constructor.
  - intros k' tx'. rewrite lookup_delete_Some. intros [_ H]. by eapply H1.
  - intros k' tx'. rewrite lookup_delete_Some. intros [_ H]. by eapply H2.
  - intros k1 k2 a b. rewrite !lookup_delete_Some. intros [_ A] [_ B]. by eapply H3.
Qed.

(** The transaction that had the slot is the only one: after it has gone the slot is free. *)
Lemma slot_freed st fr l P k tx :
  pend_ok st fr l P -> P !! k = Some tx ->
  forall k' tx', delete k P !! k' = Some tx' -> ~ same_slot st tx tx'.
Proof.
  intros H Hk k' tx'. rewrite lookup_delete_Some. intros [Hn Hk'] Hs.
  by apply Hn, (po_slot _ _ _ _ H k k' tx tx').
Qed.
