(* ===== verification/TurnClientSafe.v ===== *)
(** * The operations of the TURN client keep its invariant

    Each lemma runs an operation of [TurnClient] from a state with [cinv] and shows that it
    returns, so it uses no dangling reference and leaves no buffer, and what it leaves
    behind. *)

From S2P Require Import Prelude.
From S2P Require Import StateMonad.
From S2P Require Import Bytes.
From S2P Require Import Crypto.
From S2P Require Import Addr.
From S2P Require Import StunMessage.
From S2P Require Import StunAttributes.
From S2P Require Import ChannelData.
From S2P Require Import TurnTypes.
From S2P Require Import TurnClient.
From S2P Require Import TurnClientInv.
Open Scope Z_scope.

(** ** The core of the invariant under the elementary changes *)

Lemma core_update st fe fr l P i b b' :
  core_ok st fe fr l P -> l !! i = Some b -> binding_ok b' -> b_peer b' = b_peer b ->
  (early st -> pendingData b' = [] /\ channelReady b' = false) ->
  (permissionTidFresh b = true -> permissionTidFresh b' = true) ->
  (channelTidFresh b = true -> channelTidFresh b' = true) ->
  core_ok st fe fr (<[i := b']> l) P.
Proof.
  intros [H1 H2 H3 H4 H5] Hi Hb Hp He Hf Hc. pose proof (peers_update _ _ _ b' Hi Hp) as Hps.
  assert (Hl : forall f, (f b = true -> f b' = true) ->
            forall j c c', l !! j = Some c -> <[i := b']> l !! j = Some c' -> f c = true -> f c' = true).
  { intros f Hff j c c' Hj Hj'. apply list_lookup_insert_Some in Hj' as [(-> & <- & _)|[_ Hj']];
      [|congruence]. assert (c = b) as -> by congruence. done. }
  constructor; [by apply Forall_insert| by eapply distinct_peers | |
                |done].
  - intros E. apply Forall_insert; [by apply H3|by apply He].
  - eapply pend_bindings; [done| |]; intros p; (apply waits_mono; [done|by apply Hl]).
Qed.

Lemma core_snoc st fe fr l P p :
  core_ok st fe fr l P -> good p -> bindingAt p l = None -> core_ok st fe fr (l ++ [newBinding p]) P.
Proof.
  intros [H1 H2 H3 H4 H5] Hg Hn. constructor; [| by apply distinct_snoc | | |done].
  - apply Forall_app. split; [done|]. constructor; [by apply binding_ok_new|done].
  - intros E. apply Forall_app. split; [by apply H3|by repeat constructor].
  - eapply pend_bindings; [done| |]; intros q; apply waits_snoc.
Qed.

(** No transaction of this kind waits for a binding whose flag is clear. *)
Lemma free_slot st fr l P i b p K f :
  pend_ok st fr l P -> distinct l -> l !! i = Some b -> addrRecordEq (b_peer b) p = true ->
  f b = false -> (K = KCreatePermission /\ f = permissionTidFresh \/ K = KChannelBind /\ f = channelTidFresh) ->
  forall k tx, P !! k = Some tx -> kind tx = K -> addrRecordEq p (tx_peer tx) = true -> False.
Proof.
  intros H Hd Hi E Hf HK k tx Hk Hkind Ep.
  assert (W : waits f l (tx_peer tx)).
  { pose proof (po_flag _ _ _ _ H k tx Hk) as F. unfold flagged in F. rewrite Hkind in F.
    destruct HK as [[-> ->]|[-> ->]]; [done|apply F]. }
  destruct W as (j & c & Hj & Ec & Hc).
  assert (i = j) as <-; [|congruence]. apply (Hd i j b c Hi Hj).
  eapply addrRecordEq_trans; [done|]. eapply addrRecordEq_trans; [done|]. by apply addrRecordEq_sym.
Qed.

(** A request for a peer whose flag is clear goes out. *)
Lemma core_request st fe fr l P i b b' k tx :
  core_ok st fe fr l P -> l !! i = Some b -> addrRecordEq (b_peer b) (tx_peer tx) = true ->
  tx_ok tx -> binding_ok b' -> b_peer b' = b_peer b ->
  pendingData b' = pendingData b -> channelReady b' = channelReady b ->
  (kind tx = KCreatePermission /\ permissionTidFresh b = false /\ permissionTidFresh b' = true /\
     channelTidFresh b' = channelTidFresh b \/
   kind tx = KChannelBind /\ ~ early st /\ channelTidFresh b = false /\ channelTidFresh b' = true /\
     permissionTidFresh b' = permissionTidFresh b) ->
  core_ok st fe fr (<[i := b']> l) (<[k := tx]> P).
Proof.
  intros H Hi E Ht Hb Hp Hd Hr HK.
  assert (Hu : core_ok st fe fr (<[i := b']> l) P).
  { eapply core_update; [done..| | |].
    - intros He. rewrite Hd, Hr. by apply (Forall_lookup_1 _ _ _ _ (co_early _ _ _ _ _ H He) Hi).
    - destruct HK as [(_ & _ & -> & _)|(_ & _ & _ & _ & ->)]; done.
    - destruct HK as [(_ & _ & _ & ->)|(_ & _ & _ & -> & _)]; done. }
  destruct Hu as [U1 U2 U3 U4 U5]. constructor; try done.
  assert (Hlt : (i < length l)%nat) by (apply lookup_lt_is_Some; by eexists).
  apply pend_insert; [done|done| |].
  - unfold flagged. destruct HK as [(-> & _ & HF & _)|(-> & He & _ & HF & _)]; [|split; [done|]];
      exists i, b'; (split; [by apply list_lookup_insert_eq|]; split; [congruence|done]).
  - intros k' tx' Hk' [Ek Es].
    destruct HK as [(EK & HF & _)|(EK & _ & HF & _)]; rewrite EK in Es.
    + eapply (free_slot _ _ _ _ i b (tx_peer tx) KCreatePermission permissionTidFresh);
        [apply H|apply H|done|done|done|by left|done|congruence|done].
    + eapply (free_slot _ _ _ _ i b (tx_peer tx) KChannelBind channelTidFresh);
        [apply H|apply H|done|done|done|by right|done|congruence|done].
Qed.

(** A transaction ends and its flag is cleared. *)
Lemma core_finish st fe fr l P i b b' k tx :
  core_ok st fe fr l P -> P !! k = Some tx -> l !! i = Some b ->
  addrRecordEq (b_peer b) (tx_peer tx) = true ->
  binding_ok b' -> b_peer b' = b_peer b ->
  (early st -> pendingData b' = [] /\ channelReady b' = channelReady b) ->
  (kind tx = KCreatePermission /\ channelTidFresh b' = channelTidFresh b \/
   kind tx = KChannelBind /\ permissionTidFresh b' = permissionTidFresh b) ->
  core_ok st fe fr (<[i := b']> l) (delete k P).
Proof.
  intros H Hk Hi E Hb Hp Hd HK. pose proof (peers_update _ _ _ b' Hi Hp) as Hps.
  pose proof (slot_freed _ _ _ _ _ _ (co_pend _ _ _ _ _ H) Hk) as Hfree.
  destruct H as [H1 H2 H3 H4 H5]. constructor; [by apply Forall_insert|by eapply distinct_peers| | |done].
  { intros He. apply Forall_insert; [by apply H3|]. destruct (Hd He) as [-> ->]. split; [done|].
    by apply (Forall_lookup_1 _ _ _ _ (H3 He) Hi). }
  pose proof (pend_delete _ _ _ _ k H4) as [D1 D2 D3]. constructor; [done| |done].
  assert (Hw : forall f p, (addrRecordEq (b_peer b) p = true -> f b = true -> f b' = true) ->
                 waits f l p -> waits f (<[i := b']> l) p).
  { intros f p Hf (j & c & Hj & Ec & Hc). destruct (decide (i = j)) as [<-|Hne].
    - assert (c = b) as -> by congruence. exists i, b'.
      split; [apply list_lookup_insert_eq; by eapply lookup_lt_Some|]. split; [congruence|by apply Hf].
    - exists j, c. by rewrite list_lookup_insert_ne. }
  intros k' tx' Hk'. specialize (D2 k' tx' Hk'). specialize (Hfree k' tx' Hk'). unfold flagged in *.
  destruct (kind tx') eqn:EK'; try done.
  - apply Hw; [|done]. intros Eb Hfb. destruct HK as [[EK Hf]|[_ ->]]; [|done].
    destruct Hfree. unfold same_slot. rewrite EK, EK'. split; [done|].
    eapply addrRecordEq_trans; [by apply addrRecordEq_sym|done].
  - destruct D2 as [D2 D2']. split; [done|]. apply Hw; [|done]. intros Eb Hfb.
    destruct HK as [[_ ->]|[EK Hf]]; [done|].
    destruct Hfree. unfold same_slot. rewrite EK, EK'. split; [done|].
    eapply addrRecordEq_trans; [by apply addrRecordEq_sym|done].
Qed.

(** A Refresh goes out. *)
Lemma core_refresh st fe fr l P k tx :
  core_ok st fe fr l P -> kind tx = KRefresh -> tx_ok tx -> ~ early st ->
  (st = Allocated -> fr = false) -> core_ok st fe true l (<[k := tx]> P).
Proof.
  intros [H1 H2 H3 [P1 P2 P3] H5] HK Ht He Hf. constructor; try done. apply pend_insert; [|done| |].
  - constructor; [done| |done]. intros k' tx' Hk'. specialize (P2 k' tx' Hk'). unfold flagged in *.
    destruct (kind tx'); done.
  - unfold flagged. by rewrite HK.
  - intros k' tx' Hk' [Ek Es]. rewrite HK in Es. specialize (P2 k' tx' Hk'). unfold flagged in P2.
    rewrite <- Ek, HK in P2. destruct P2 as [_ P2]. specialize (P2 Es). rewrite (Hf Es) in P2. done.
Qed.

(** The allocation is given up. *)
Lemma core_failed l fr fe : Forall binding_ok l -> distinct l -> core_ok AllocFailed fe fr l ∅.
Proof. intros H1 H2. constructor; [done|done|by intros [|]|apply pend_empty|done]. Qed.

(** A change of the state that leaves everything in flight. *)
Lemma core_state st st' fe fr l P :
  core_ok st fe fr l P -> ~ early st -> ~ early st' -> st' <> Allocated -> (fe = true -> st' = AllocFailed) ->
  core_ok st' fe fr l P.
Proof.
  intros [H1 H2 H3 [P1 P2 P3] H5] He He' Ha Hf. constructor; [done|done|by intros ?|constructor|done].
  - done.
  - intros k tx Hk. specialize (P2 k tx Hk). unfold flagged in *.
    destruct (kind tx); try done; [destruct He; by right|destruct P2; by split].
  - intros k1 k2 a b A B [Ek Es]. apply (P3 k1 k2 a b A B). split; [done|].
    destruct (kind a); try done.
Qed.

(** ** Primitive steps *)

Section Steps.
Context (csprng : nat -> nat -> option bytes).
Context (Hrnd : forall k n b, csprng k n = Some b -> length b = n /\ bytes_ok b).

Definition valid (s : Client) (r : Ref) (b : PeerBinding) : Prop :=
  r_gen r = bindingsGen s /\ bindings_ s !! r_idx r = Some b.

Lemma valid_still s s' r b : still s s' -> valid s r b -> valid s' r b.
Proof. intros [] [H1 H2]. split; congruence. Qed.

Lemma valid_stable s s' r b : stable s s' -> valid s r b -> exists b', valid s' r b' /\ b_peer b' = b_peer b.
Proof.
  intros Hk [H1 H2]. destruct (peers_lookup _ _ _ _ (sb_peers _ _ Hk) H2) as (b' & Hb & E).
  exists b'. split; [|done]. split; [|done]. by rewrite (sb_gen _ _ Hk).
Qed.

Lemma wp_deref s r b (Q : PeerBinding -> Client -> Prop) : valid s r b -> Q b s -> wp (deref r) Q s.
Proof.
  intros [Hg Hi] HQ. exists b, s. split; [|done]. unfold deref, gets, lift, mbind, SM_bind.
  rewrite (decide_True _ _ Hg). by rewrite Hi.
Qed.

Lemma wp_assign s r b f (Q : unit -> Client -> Prop) :
  valid s r b -> Q tt (s <| bindings_ ::= <[r_idx r := f b]> |>) -> wp (assign r f) Q s.
Proof. intros Hv HQ. apply wp_bind, (wp_deref s r b); [done|]. by apply wp_modify. Qed.

Lemma wp_refAt s i (Q : Ref -> Client -> Prop) : Q (mkRef (bindingsGen s) i) s -> wp (refAt i) Q s.
Proof. intros H. apply wp_bind, wp_gets, wp_ret. done. Qed.

Lemma wp_emit s o (Q : unit -> Client -> Prop) :
  (forall s', still s s' -> Q tt s') -> wp (emit o) Q s.
Proof. intros H. apply wp_modify, H. by constructor. Qed.

Lemma wp_callback s f o (Q : unit -> Client -> Prop) :
  (forall s', still s s' -> Q tt s') -> wp (callback f o) Q s.
Proof.
  intros H. apply wp_bind, wp_gets, wp_when; intros _; [|by apply H]. by apply wp_emit.
Qed.

Lemma wp_rawSend s data (Q : option Z -> Client -> Prop) :
  (forall n s', still s s' -> Q n s') -> wp (rawSend data) Q s.
Proof.
  intros H. apply wp_bind, wp_gets. destruct (sendRaw (sink_ s)); [|by apply wp_ret, H].
  apply wp_bind, wp_gets, wp_bind, wp_modify, wp_bind, wp_emit. intros s' Hc. apply wp_ret, H.
  eapply still_trans; [|done]. by constructor.
Qed.

Lemma wp_draw s n (Q : option bytes -> Client -> Prop) :
  (forall o s', (forall b, o = Some b -> length b = n /\ bytes_ok b) -> still s s' -> Q o s') ->
  wp (draw csprng n) Q s.
Proof.
  intros H. apply wp_bind, wp_gets, wp_bind, wp_modify, wp_ret, H; [|by constructor].
  intros b. apply Hrnd.
Qed.

Lemma wp_newMessage s meth c (Q : Message -> Client -> Prop) :
  (forall m s', body_ok m -> still s s' -> Q m s') -> wp (newMessage csprng meth c) Q s.
Proof.
  intros H. apply wp_bind, wp_draw. intros o s' Ho Hc. apply wp_ret, H; [|done].
  split; [|constructor]. cbn. destruct o as [b|]; [by apply Ho|done].
Qed.

Lemma wp_peerRequest s meth p (Q : Message -> Client -> Prop) :
  (forall m s', body_ok m -> still s s' -> Q m s') -> wp (peerRequest csprng meth p) Q s.
Proof.
  intros H. apply wp_bind, wp_newMessage. intros m s' Hm Hc. apply wp_ret, H; [|done].
  by apply body_writeXor.
Qed.

Lemma encode_client m pw o :
  body_ok m -> creds_sized o -> exists m', encode m pw o software = Some m' /\ transactionID m' = transactionID m.
Proof.
  intros [H1 H2] Hc. eexists. split; [apply encode_frame; [done|]|done].
  split; [done|]. split; [|done]. done.
Qed.

Lemma wp_applyCredentials s (Q : unit -> Client -> Prop) :
  (forall s', still s s' -> Q tt s') -> wp applyCredentials Q s.
Proof.
  intros H. apply wp_bind, wp_gets, wp_bind, wp_gets. destruct (creds_ s) as [c|] eqn:Ec; [|by apply wp_ret, H].
  apply wp_when; intros _; [|by apply H]. apply wp_modify, H. constructor; try done.
  by rewrite Ec.
Qed.

(** What encoding a request relies on. *)
Definition authed (s : Client) : Prop := cfg_ok (cfg_ s) /\ creds_sized (creds_ s).

Lemma authed_inv s : cinv s -> authed s.
Proof. by intros []. Qed.

Lemma authed_still s s' : still s s' -> authed s -> authed s'.
Proof.
  intros Hc [H1 H2]. split; [by rewrite (mv_cfg _ _ _ _ _ _ _ Hc)|by apply (mv_creds _ _ _ _ _ _ _ Hc)].
Qed.

Lemma wp_request s m (Q : Message -> Client -> Prop) :
  authed s -> body_ok m -> (forall m' s', transactionID m' = transactionID m -> still s s' -> Q m' s') ->
  wp (prepareRequest m) Q s.
Proof.
  intros Hi Hm H. apply wp_bind, wp_applyCredentials. intros s1 H1.
  pose proof (proj2 (authed_still _ _ H1 Hi)) as Hc.
  apply wp_bind, wp_gets, wp_bind, wp_gets. destruct (hasUsername (creds_ s1)).
  - destruct (encode_client m (Some (c_str (tc_password (cfg_ s1)))) (creds_ s1) Hm Hc) as (m' & E & Et).
    apply (wp_lift _ _ _ m' E). by apply H.
  - destruct (encode_client m None None Hm I) as (m' & E & Et). apply (wp_lift _ _ _ m' E). by apply H.
Qed.

Lemma wp_sendPrepared s m (Q : unit -> Client -> Prop) :
  (forall s', still s s' -> Q tt s') -> wp (sendPrepared m) Q s.
Proof. intros H. apply wp_bind, wp_rawSend. intros n s' Hc. by apply wp_ret, H. Qed.

(** Registering and sending a prepared request. *)
Lemma wp_transmit s K p m (Q : unit -> Client -> Prop) :
  (forall s' tx, kind tx = K -> tx_peer tx = p -> tx_ok tx ->
     moved s s' (state_ s) (refreshTidFresh_ s) (bindings_ s) (bindingsGen s)
       (<[transactionID m := tx]> (pending_ s)) -> Q tt s') ->
  wp (registerTx K p m;; sendPrepared m) Q s.
Proof.
  intros H. apply wp_bind. apply wp_bind, wp_gets, wp_modify. apply wp_sendPrepared. intros s' Hc.
  eapply (H s' (mkPendingTx K p (clock s) (clock s + TurnRtoMs) 0 (raw m))); [done|done| |].
  - unfold tx_ok, TurnMaxRtxCount. cbn. lia.
  - eapply moved_still; [|done]. by constructor.
Qed.

Lemma wp_handleAuthError s m code ra (Q : bool -> Client -> Prop) :
  Forall attr_ok (attributes m) -> (forall b s', still s s' -> Q b s') ->
  wp (handleAuthError m code ra) Q s.
Proof.
  intros Ha H. apply wp_bind, wp_gets, wp_bind, wp_gets, wp_bind, wp_gets.
  destruct (code =? _); [destruct (_ && _); [by apply wp_ret, H|]|destruct (code =? _); [|by apply wp_ret, H]];
    apply wp_bind, wp_modify;
    (destruct (_ <? _); [apply wp_ret, H; by constructor|]);
    apply wp_bind, wp_modify, wp_ret, H; constructor; try done; upd.
  - intros Hc _. split; [done|]. split; by apply getString_sized.
  - intros _. destruct (creds_ s) as [c|]; cbn; [|done]. intros (? & ? & ?).
    split; [done|]. split; [done|]. by apply getString_sized.
Qed.

Lemma wp_errorOf s m (Q : Z * bytes -> Client -> Prop) :
  Forall attr_ok (attributes m) -> (forall e, Q e s) -> wp (errorOf m) Q s.
Proof.
  intros Ha H. destruct (readErrorCode_safe m Ha) as (o & E & _).
  apply wp_bind. apply (wp_lift _ _ _ o E). by apply wp_ret.
Qed.

Lemma wp_lifetimeOf s m (Q : Z -> Client -> Prop) :
  req_ok m -> (forall lt, Q lt s) -> wp (lifetimeOf m) Q s.
Proof.
  intros (Ht & Ha & _) H. pose proof (attribute_readers_safe m 0 _ Ha Ht) as (_ & _ & (o & E & _) & _).
  apply wp_bind, wp_gets, wp_bind. apply (wp_lift _ _ _ o E). by apply wp_ret.
Qed.

Lemma wp_scheduleRefresh s lt (Q : unit -> Client -> Prop) :
  (forall s', still s s' -> Q tt s') -> wp (scheduleRefresh csprng lt) Q s.
Proof.
  intros H. apply wp_bind. destruct (10 <? lt).
  - apply wp_bind, wp_draw. intros o s1 _ H1. apply wp_ret, wp_bind, wp_gets, wp_modify, H.
    eapply still_trans; [done|]. by constructor.
  - apply wp_ret, wp_bind, wp_gets, wp_modify, H. by constructor.
Qed.

Lemma wp_sendIndication s p data (Q : Message -> Client -> Prop) :
  sized data -> (forall m s', still s s' -> Q m s') -> wp (sendIndication csprng p data) Q s.
Proof.
  intros Hd H. apply wp_bind, wp_newMessage. intros m s1 Hm H1.
  destruct (encode_client (addData (writeXorAddress m AttrType.XorPeerAddress p (transactionID m)).2 data)
              None None) as (m' & E & _); [|done|].
  - apply body_add; [|done]. by apply body_writeXor.
  - apply (wp_lift _ _ _ m' E). by apply H.
Qed.

(** ** Bindings *)

Lemma wp_getBinding s peer (Q : Ref -> Client -> Prop) :
  cinv s -> good peer ->
  (forall r s' b, cinv s' -> valid s' r b -> addrRecordEq (b_peer b) peer = true ->
     (is_Some (bindingAt peer (bindings_ s)) -> s' = s) -> b = newBinding peer \/ s' = s ->
     moved s s' (state_ s) (refreshTidFresh_ s) (bindings_ s') (bindingsGen s') (pending_ s) ->
     Q r s') ->
  wp (getBinding peer) Q s.
Proof.
  intros Hi Hg H. apply wp_bind, wp_gets. destruct (bindingAt peer (bindings_ s)) as [i|] eqn:E.
  - destruct (bindingAt_Some _ _ _ E) as (b & Hb & Eb). apply wp_refAt. apply (H _ s b); try done. by right.
  - apply wp_bind, wp_modify, wp_refAt. set (s' := s <| bindings_ ::= _ |> <| bindingsGen ::= S |>).
    assert (Hm : moved s s' (state_ s) (refreshTidFresh_ s) (bindings_ s ++ [newBinding peer])
                   (bindingsGen s') (pending_ s)) by by constructor.
    apply (H _ s' (newBinding peer)); [| | |by intros []|by left|by constructor].
    + eapply cinv_moved; [done..|]. apply core_snoc; [apply Hi|done|done].
    + split; [done|]. unfold s'. upd. by rewrite lookup_app_r, Nat.sub_diag by done.
    + by apply addrRecordEq_refl.
Qed.

(** The binding behind a valid reference is a good one. *)
Lemma valid_ok s r b : cinv s -> valid s r b -> binding_ok b.
Proof. intros Hi [_ H]. by apply (Forall_lookup_1 _ _ _ _ (co_bindings _ _ _ _ _ (ci_core _ Hi)) H). Qed.

Lemma valid_bindingAt s r b peer :
  cinv s -> valid s r b -> addrRecordEq (b_peer b) peer = true -> bindingAt peer (bindings_ s) = Some (r_idx r).
Proof. intros Hi [_ H] E. eapply bindingAt_lookup; [apply Hi|done|done]. Qed.

Lemma valid_late s r b :
  cinv s -> valid s r b -> pendingData b <> [] \/ channelReady b = true -> ~ early (state_ s).
Proof.
  intros Hi [_ H] Hb He.
  destruct (Forall_lookup_1 _ _ _ _ (co_early _ _ _ _ _ (ci_core _ Hi) He) H) as [H1 H2].
  destruct Hb; congruence.
Qed.

(** An update of a binding that raises no question about what is in flight. *)
Lemma wp_updateRef s r b f (Q : unit -> Client -> Prop) :
  cinv s -> valid s r b -> binding_ok (f b) -> b_peer (f b) = b_peer b ->
  (early (state_ s) -> pendingData (f b) = [] /\ channelReady (f b) = false) ->
  (permissionTidFresh b = true -> permissionTidFresh (f b) = true) ->
  (channelTidFresh b = true -> channelTidFresh (f b) = true) ->
  (forall s', cinv s' -> stable s s' -> valid s' r (f b) ->
     moved s s' (state_ s) (refreshTidFresh_ s) (<[r_idx r := f b]> (bindings_ s)) (bindingsGen s) (pending_ s) ->
     Q tt s') ->
  wp (assign r f) Q s.
Proof.
  intros Hi Hv Hb Hp He Hf Hc H. apply (wp_assign s r b); [done|].
  set (s' := s <| bindings_ ::= _ |>).
  assert (Hm : moved s s' (state_ s) (refreshTidFresh_ s) (<[r_idx r := f b]> (bindings_ s))
                 (bindingsGen s) (pending_ s)) by by constructor.
  destruct Hv as [Hg Hl]. apply (H s'); [| | |done].
  - eapply cinv_moved; [done..|]. eapply core_update; [apply Hi|done..].
  - eapply stable_moved; [done|]. by eapply peers_update.
  - split; [done|]. unfold s'. upd. apply list_lookup_insert_eq. by eapply lookup_lt_Some.
Qed.

(** A request for the peer of the binding goes out: the flag is set, the transaction is
    registered and the message sent. *)
Lemma wp_launch s r b f K peer m (Q : unit -> Client -> Prop) :
  cinv s -> valid s r b -> addrRecordEq (b_peer b) peer = true ->
  binding_ok (f b) -> b_peer (f b) = b_peer b -> pendingData (f b) = pendingData b ->
  channelReady (f b) = channelReady b ->
  (K = KCreatePermission /\ permissionTidFresh b = false /\ permissionTidFresh (f b) = true /\
     channelTidFresh (f b) = channelTidFresh b \/
   K = KChannelBind /\ ~ early (state_ s) /\ channelTidFresh b = false /\ channelTidFresh (f b) = true /\
     permissionTidFresh (f b) = permissionTidFresh b) ->
  (forall s', cinv s' -> stable s s' -> Q tt s') ->
  wp (assign r f;; registerTx K peer m;; sendPrepared m) Q s.
Proof.
  intros Hi Hv E Hb Hp Hd Hr HK H. apply wp_bind, (wp_assign s r b); [done|].
  set (s1 := s <| bindings_ ::= _ |>). apply wp_transmit. intros s' tx EK Ep Ht Hm.
  assert (Hm1 : moved s s' (state_ s) (refreshTidFresh_ s) (<[r_idx r := f b]> (bindings_ s))
                  (bindingsGen s) (<[transactionID m := tx]> (pending_ s))) by (destruct Hm; constructor; assumption).
  destruct Hv as [Hg Hl]. apply H.
  - eapply cinv_moved; [done..|]. eapply core_request; [apply Hi|done|congruence|done..|]. by rewrite EK.
  - eapply stable_moved; [done|]. by eapply peers_update.
Qed.

Lemma binding_permission b tid :
  binding_ok b -> binding_ok (b <| permissionTid := tid |> <| permissionTidFresh := true |>).
Proof. by intros []. Qed.

Lemma wp_sendCreatePermission s peer (Q : unit -> Client -> Prop) :
  cinv s -> good peer ->
  (forall s', cinv s' -> state_ s' = state_ s ->
     (is_Some (bindingAt peer (bindings_ s)) -> stable s s') -> Q tt s') ->
  wp (sendCreatePermission csprng peer) Q s.
Proof.
  intros Hi Hg H. apply wp_bind, wp_getBinding; [done..|]. intros r s1 b Hi1 Hv1 Eb Hsame _ Hm1.
  pose proof (mv_state _ _ _ _ _ _ _ Hm1) as Hst.
  apply wp_bind, (wp_deref s1 r b); [done|]. destruct (permissionTidFresh b) eqn:Ef.
  - apply wp_ret. apply H; [done|done|]. intros Hs. by rewrite (Hsame Hs).
  - apply wp_bind, wp_peerRequest. intros m s2 Hm2 Hc2.
    pose proof (cinv_still _ _ Hi1 Hc2) as Hi2. apply wp_bind, wp_request; [by apply authed_inv|done|].
    intros m' s3 _ Hc3. pose proof (cinv_still _ _ Hi2 Hc3) as Hi3.
    pose proof (still_trans _ _ _ Hc2 Hc3) as Hc13.
    eapply wp_launch; [done|by eapply valid_still|done|by apply binding_permission, (valid_ok s1 r)
                      |done|done|done|by left|].
    intros s4 Hi4 Hk4. apply H; [done| |].
    + by rewrite (sb_state _ _ Hk4), (mv_state _ _ _ _ _ _ _ Hc13).
    + intros Hs. rewrite <- (Hsame Hs). eapply stable_trans; [by apply stable_still|done].
Qed.

Lemma randomChannel_valid r : channelValid (randomChannelNumber r) = true.
Proof.
  unfold randomChannelNumber, channelValid, ChannelMin, ChannelMax.
  change 0x3FFF with (2 ^ 14 - 1). rewrite land_mask by lia. change 0x4000 with (Z.shiftl 1 14).
  rewrite lor_disjoint_add by (try apply Z.mod_pos_bound; lia).
  pose proof (Z.mod_pos_bound r (2 ^ 14)). unfold wrap. change (Z.shiftl 1 14) with (2 ^ 14). pow2_norm.
  rewrite Z.mod_small by lia. apply andb_true_intro. split; apply Z.leb_le; lia.
Qed.

Lemma wp_drawChannel s (Q : Z -> Client -> Prop) :
  (forall c s', channelValid c = true -> still s s' -> Q c s') -> wp (drawChannel csprng) Q s.
Proof.
  intros H. apply wp_bind, wp_draw. intros o s' _ Hc. apply wp_ret, H; [apply randomChannel_valid|done].
Qed.

Lemma wp_pickChannel n i s (Q : Z -> Client -> Prop) :
  (forall c s', c = 0 \/ channelValid c = true -> still s s' -> Q c s') -> wp (pickChannel csprng n i) Q s.
Proof.
  revert s. induction n as [|n IH]; intros s H; simpl; [apply wp_ret, H; [by left|done]|].
  apply wp_bind, wp_drawChannel. intros c s1 Hc H1. apply wp_bind, wp_gets.
  destruct (channelTaken _ _ _); [|apply wp_ret, H; [by right|done]].
  apply IH. intros c' s2 Hc' H2. apply H; [done|]. by eapply still_trans.
Qed.

Lemma channelValid_nonzero c : channelValid c = true -> c <> 0.
Proof. intros H ->. done. Qed.

(** The binding gets a channel number, if it has none. *)
Lemma binding_channel b c :
  binding_ok b -> channelValid c = true -> binding_ok (b <| channel := c |>).
Proof.
  intros [] Hc. constructor; upd; [done|by right| |done|done]. intros _. by apply channelValid_nonzero.
Qed.

Lemma binding_zero_channel b : binding_ok b -> channel b = 0 -> b <| channel := 0 |> = b.
Proof. destruct b. cbn. intros _ ->. done. Qed.

Lemma wp_setChannel s r b c (Q : unit -> Client -> Prop) :
  cinv s -> valid s r b -> channelValid c = true ->
  (forall s', cinv s' -> stable s s' -> valid s' r (b <| channel := c |>) -> Q tt s') ->
  wp (assign r (fun b => b <| channel := c |>)) Q s.
Proof.
  intros Hi Hv Hc H.
  apply (wp_updateRef s r b); [done|done|apply binding_channel; [by eapply valid_ok|done]|done| |done|done|].
  - intros He. apply (Forall_lookup_1 _ _ _ _ (co_early _ _ _ _ _ (ci_core _ Hi) He) (proj2 Hv)).
  - intros s' H1 H2 H3 _. by apply H.
Qed.

Lemma wp_chooseChannel s r b (Q : unit -> Client -> Prop) :
  cinv s -> valid s r b ->
  (forall s' c, cinv s' -> stable s s' -> c <> 0 -> valid s' r (b <| channel := c |>) -> Q tt s') ->
  wp (chooseChannel csprng r) Q s.
Proof.
  intros Hi Hv H. apply wp_bind, (wp_deref s r b); [done|].
  destruct (Z.eqb_spec (channel b) 0) as [E0|E0]; cbn [negb].
  - apply wp_bind, wp_pickChannel. intros c s1 Hc Hc1. pose proof (cinv_still _ _ Hi Hc1) as Hi1.
    pose proof (valid_still _ _ _ _ Hc1 Hv) as Hv1. pose proof (stable_still _ _ Hc1) as Hk1.
    destruct Hc as [->|Hc].
    + apply wp_bind, (wp_assign s1 r b); [done|]. rewrite Z.eqb_refl.
      assert (Es : s1 <| bindings_ ::= <[r_idx r := b <| channel := 0 |>]> |> = s1).
      { rewrite binding_zero_channel by (done || by eapply valid_ok).
        destruct s1. unfold field_update. f_equal. apply list_insert_id, Hv1. }
      rewrite Es. apply wp_bind, wp_drawChannel. intros c' s2 Hc' Hc2.
      apply (wp_setChannel s2 r b); [by eapply cinv_still|by eapply valid_still|done|].
      intros s3 Hi3 Hk3 Hv3. apply (H s3 c'); [done| |by apply channelValid_nonzero|done].
      eapply stable_trans; [done|]. eapply stable_trans; [by apply stable_still|done].
    + apply wp_bind, (wp_setChannel s1 r b); [done..|]. intros s3 Hi3 Hk3 Hv3.
      rewrite (proj2 (Z.eqb_neq c 0)) by by apply channelValid_nonzero.
      apply wp_ret, (H s3 c); [done|by eapply stable_trans|by apply channelValid_nonzero|done].
  - apply wp_ret, (H s (channel b)); [done..|]. by destruct b.
Qed.

Lemma binding_bind b tid :
  binding_ok b -> channel b <> 0 -> binding_ok (b <| channelTid := tid |> <| channelTidFresh := true |>).
Proof. intros [] Hc. constructor; try done. Qed.

Lemma wp_sendChannelBind s peer (Q : unit -> Client -> Prop) :
  cinv s -> good peer -> ~ early (state_ s) ->
  (forall s', cinv s' -> state_ s' = state_ s ->
     (is_Some (bindingAt peer (bindings_ s)) -> stable s s') -> Q tt s') ->
  wp (sendChannelBind csprng peer) Q s.
Proof.
  intros Hi Hg He H. apply wp_bind, wp_getBinding; [done..|]. intros r s1 b Hi1 Hv1 Eb Hsame _ Hm1.
  pose proof (mv_state _ _ _ _ _ _ _ Hm1) as Hst.
  apply wp_bind, (wp_deref s1 r b); [done|]. destruct (channelTidFresh b) eqn:Ef.
  { apply wp_ret. apply H; [done|done|]. intros Hs. by rewrite (Hsame Hs). }
  apply wp_bind, (wp_chooseChannel s1 r b); [done..|]. intros s2 c Hi2 Hk2 Hc Hv2.
  apply wp_bind, (wp_deref s2 r (b <| channel := c |>)); [done|].
  apply wp_bind, wp_peerRequest. intros m s3 Hm3 Hc3. pose proof (cinv_still _ _ Hi2 Hc3) as Hi3.
  apply wp_bind, wp_request; [by apply authed_inv|apply body_add; [done|apply sized_small; cbn; lia]|].
  intros m' s4 _ Hc4. pose proof (cinv_still _ _ Hi3 Hc4) as Hi4.
  pose proof (still_trans _ _ _ Hc3 Hc4) as Hc24.
  assert (Hk14 : stable s1 s4) by (eapply stable_trans; [done|by apply stable_still]).
  eapply wp_launch; [done|by eapply valid_still|done|apply binding_bind; [by apply (valid_ok s2 r)|done]
                    |done|done|done| |].
  - right. rewrite (sb_state _ _ Hk14), Hst. done.
  - intros s5 Hi5 Hk5. pose proof (stable_trans _ _ _ Hk14 Hk5) as Hk. apply H; [done| |].
    + by rewrite (sb_state _ _ Hk).
    + intros Hs. by rewrite <- (Hsame Hs).
Qed.

(** ** Allocation *)

(** A Refresh goes out, unless one is in flight. *)
Lemma wp_sendRefresh s lt (Q : unit -> Client -> Prop) :
  authed s ->
  (refreshTidFresh_ s = true -> Q tt s) ->
  (forall s' k tx, refreshTidFresh_ s = false -> kind tx = KRefresh -> tx_ok tx ->
     moved s s' (state_ s) true (bindings_ s) (bindingsGen s) (<[k := tx]> (pending_ s)) -> Q tt s') ->
  wp (sendRefresh csprng lt) Q s.
Proof.
  intros Hi H1 H2. apply wp_bind, wp_gets. destruct (refreshTidFresh_ s) eqn:Ef; [by apply wp_ret, H1|].
  apply wp_bind, wp_newMessage. intros m s1 Hm Hc1.
  apply wp_bind, wp_request; [by eapply authed_still|apply body_add; [done|apply sized_small; cbn; lia]|].
  intros m' s2 _ Hc2. apply wp_bind, wp_gets, wp_bind, wp_bind, wp_gets, wp_modify, wp_bind, wp_modify.
  apply wp_sendPrepared. intros s3 Hc3.
  apply (H2 s3 (transactionID m') (mkPendingTx KRefresh emptyAddr (clock s2) (clock s2 + TurnRtoMs) 0 (raw m')));
    [done|done|unfold tx_ok, TurnMaxRtxCount; cbn; lia|].
  eapply moved_still; [|done]. destruct (still_trans _ _ _ Hc1 Hc2). constructor; upd; try done. congruence.
Qed.

Lemma wp_refreshAllocation s lt (Q : unit -> Client -> Prop) :
  cinv s -> ~ early (state_ s) -> (forall s', cinv s' -> stable s s' -> Q tt s') ->
  wp (sendRefresh csprng lt) Q s.
Proof.
  intros Hi He H. apply wp_sendRefresh; [by apply authed_inv|by intros; apply H|]. intros s' k tx Hf HK Ht Hm. apply H.
  - eapply cinv_moved; [done..|]. eapply core_refresh; [apply Hi|done..].
  - by eapply stable_moved.
Qed.

Lemma wp_failAllocation s code reason (Q : unit -> Client -> Prop) :
  cinv s -> (forall s', cinv s' -> failedEmitted_ s' = true -> state_ s' = AllocFailed -> Q tt s') ->
  wp (failAllocation code reason) Q s.
Proof.
  intros Hi H. apply wp_bind, wp_gets. destruct (failedEmitted_ s) eqn:E.
  - apply wp_ret, H; [done|done|]. by apply (co_failed _ _ _ _ _ (ci_core _ Hi)).
  - apply wp_bind, wp_modify, wp_callback. intros s' Hc.
    assert (Hi1 : cinv (s <| failedEmitted_ := true |> <| state_ := AllocFailed |> <| pending_ := ∅ |>)).
    { destruct Hi as [H1 H2 [C1 C2 _ _ _]]. constructor; [done..|]. by apply core_failed. }
    apply H; [by eapply cinv_still|by rewrite (mv_failed _ _ _ _ _ _ _ Hc)|by rewrite (mv_state _ _ _ _ _ _ _ Hc)].
Qed.

(** An Allocate goes out: nothing else of the kind is in flight. *)
Lemma wp_allocate s (Q : unit -> Client -> Prop) :
  cinv s -> (forall s', cinv s' -> stable s s' \/ state_ s' = Allocating -> Q tt s') ->
  wp (allocate csprng) Q s.
Proof.
  intros Hi H. apply wp_bind, wp_gets. destruct (bool_decide_reflect (state_ s = AllocIdle)) as [Es|Es];
    cbn [negb]; [|apply wp_ret, H; auto].
  apply wp_bind, wp_modify, wp_bind, wp_modify, wp_bind, wp_gets.
  set (s1 := s <| state_ := Allocating |> <| isTcpAllocation_ := _ |>).
  assert (Hno : forall k tx, pending_ s !! k = Some tx -> kind tx <> KAllocate).
  { intros k tx Hk E. pose proof (po_flag _ _ _ _ (co_pend _ _ _ _ _ (ci_core _ Hi)) k tx Hk) as F.
    unfold flagged in F. rewrite E in F. congruence. }
  assert (Hi1 : cinv s1).
  { destruct Hi as [I1 I2 [C1 C2 C3 [P1 P2 P3] C5]]. constructor; [done..|]. unfold s1; upd.
    constructor; [done|done| | |].
    - intros _. apply C3. by left.
    - constructor; [done| |].
      + intros k tx Hk. specialize (P2 k tx Hk). unfold flagged in *.
        destruct (kind tx) eqn:EK; try done.
        * destruct P2 as [P2 _]. destruct P2. by left.
        * destruct P2 as [P2 _]. destruct P2. by left.
      + intros k1 k2 a b A B [Ek Es']. apply (P3 k1 k2 a b A B). split; [done|]. destruct (kind a); done.
    - intros Hf. specialize (C5 Hf). congruence. }
  apply wp_bind, wp_newMessage. intros m s2 Hm Hc2. pose proof (cinv_still _ _ Hi1 Hc2) as Hi2.
  apply wp_bind, wp_modify. set (s3 := s2 <| allocateTid_ := transactionID m |>).
  assert (Hc3 : still s1 s3) by (destruct Hc2; by constructor).
  apply wp_bind, wp_request; [eapply authed_inv, cinv_still; done|apply body_add; [done|apply sized_small; cbn; lia]|].
  intros m' s4 _ Hc4. pose proof (still_trans _ _ _ Hc3 Hc4) as Hc14.
  apply wp_bind, wp_gets, wp_bind, wp_bind, wp_gets, wp_modify, wp_bind, wp_modify, wp_sendPrepared.
  intros s5 Hc5. set (tx := mkPendingTx KAllocate emptyAddr (clock s4) (clock s4 + TurnRtoMs) 0 (raw m')) in *.
  assert (Hm5 : moved s1 s5 Allocating (refreshTidFresh_ s1) (bindings_ s1) (bindingsGen s1)
                  (<[transactionID m' := tx]> (pending_ s1))).
  { eapply moved_still; [|done]. destruct Hc14. constructor; upd; try done. congruence. }
  apply H; [|right; apply Hm5].
  eapply (cinv_moved s1); [done..|]. pose proof (ci_core _ Hi1) as [C1 C2 C3 C4 C5]. constructor; try done.
  apply pend_insert; [done|unfold tx_ok, TurnMaxRtxCount; cbn; lia|done|].
  intros k' tx' Hk' [Ek _]. by apply (Hno k' tx' Hk').
Qed.

Lemma wp_deallocate s (Q : unit -> Client -> Prop) :
  cinv s -> (forall s', cinv s' -> Q tt s') -> wp (deallocate csprng) Q s.
Proof.
  intros Hi H. apply wp_bind, wp_gets. destruct (bool_decide_reflect (state_ s = Allocated)) as [Es|Es];
    cbn [negb]; [|by apply wp_ret, H].
  apply wp_bind, wp_modify, wp_bind. set (s1 := s <| refreshTidFresh_ := false |>).
  assert (Hl : ~ early Deallocated) by by intros [|].
  assert (Hne : failedEmitted_ s = true -> Deallocated = AllocFailed).
  { intros Hf. pose proof (co_failed _ _ _ _ _ (ci_core _ Hi) Hf). congruence. }
  assert (Hco : core_ok Deallocated (failedEmitted_ s) (refreshTidFresh_ s) (bindings_ s) (pending_ s)).
  { eapply core_state; [apply Hi| |done|done|done]. rewrite Es. by intros [|]. }
  apply wp_sendRefresh; [by apply (authed_inv s)|done|]. intros s2 k tx _ HK Ht Hm. apply wp_modify, H.
  eapply (cinv_moved s); [done| |].
  - destruct Hm. constructor; upd; done.
  - eapply core_refresh; done.
Qed.

End Steps.
