(* ===== verification/TurnClientSteps.v ===== *)
(** * The entry points of the TURN client keep its invariant

    Sending data, the handlers of the responses, inbound packets and the timer. *)

From stdpp Require Import sorting.
From S2P Require Import Prelude.
From S2P Require Import StateMonad.
From S2P Require Import Bytes.
From S2P Require Import Crypto.
From S2P Require Import Addr.
From S2P Require Import StunMessage.
From S2P Require Import StunAttributes.
From S2P Require Import ChannelData.
From S2P Require Import TurnTypes.
From S2P Require Import TurnClient.
From S2P Require Import TurnClientInv.
From S2P Require Import TurnClientSafe.
Open Scope Z_scope.

(** ** More about the core *)

(** In the state Allocating only permissions and connects are in flight beside the Allocate. *)
Lemma core_leave st fe fr l P :
  core_ok Allocating fe fr l P -> (forall k tx, P !! k = Some tx -> kind tx <> KAllocate) ->
  core_ok st fe fr l P.
Proof.
  intros [H1 H2 H3 [P1 P2 P3] H5] Hno. assert (E : early Allocating) by by right.
  constructor; [done|done|intros _; by apply H3| |].
  - constructor; [done| |].
    + intros k tx Hk. specialize (P2 k tx Hk). specialize (Hno k tx Hk). unfold flagged in *.
      destruct (kind tx); try done; by destruct P2.
    + intros k1 k2 a b A B [Ek Es]. apply (P3 k1 k2 a b A B). split; [done|].
      specialize (P2 k1 a A). unfold flagged in P2. destruct (kind a); try done. by destruct P2.
  - intros Hf. by specialize (H5 Hf).
Qed.

Lemma core_delete st fe fr l P k : core_ok st fe fr l P -> core_ok st fe fr l (delete k P).
Proof. intros [H1 H2 H3 H4 H5]. constructor; try done. by apply pend_delete. Qed.

(** The Refresh in flight has ended. *)
Lemma core_refreshed st fe fr l P k tx :
  core_ok st fe fr l P -> P !! k = Some tx -> kind tx = KRefresh -> core_ok st fe false l (delete k P).
Proof.
  intros H Hk HK. pose proof (slot_freed _ _ _ _ _ _ (co_pend _ _ _ _ _ H) Hk) as Hfree.
  destruct (core_delete _ _ _ _ _ k H) as [H1 H2 H3 [P1 P2 P3] H5]. constructor; try done.
  constructor; [done| |done]. intros k' tx' Hk'. specialize (P2 k' tx' Hk'). unfold flagged in *.
  destruct (kind tx') eqn:EK; try done. destruct P2 as [P2 _]. split; [done|]. intros Es.
  destruct (Hfree k' tx' Hk'). unfold same_slot. by rewrite HK, EK.
Qed.

(** A retransmission. *)
Lemma core_retry st fe fr l P k tx tx' :
  core_ok st fe fr l P -> P !! k = Some tx -> kind tx' = kind tx -> tx_peer tx' = tx_peer tx -> tx_ok tx' ->
  core_ok st fe fr l (<[k := tx']> P).
Proof.
  intros H Hk EK Ep Ht. pose proof (slot_freed _ _ _ _ _ _ (co_pend _ _ _ _ _ H) Hk) as Hfree.
  pose proof (po_flag _ _ _ _ (co_pend _ _ _ _ _ H) k tx Hk) as Hfl.
  destruct (core_delete _ _ _ _ _ k H) as [H1 H2 H3 H4 H5]. constructor; try done.
  rewrite <- insert_delete_eq. apply pend_insert; [done|done| |].
  - unfold flagged in *. by rewrite EK, Ep.
  - intros k' t' Hk'. specialize (Hfree k' t' Hk'). unfold same_slot in *. by rewrite EK, Ep.
Qed.

Lemma good_eq a p : addrRecordEq a p = true -> good p.
Proof.
  unfold addrRecordEq. rewrite isEqual_iff, addrEqual_iff. intros (_ & f & n & pa & pb & _ & E & _).
  by eexists.
Qed.

Lemma distinct_cons b l :
  distinct (b :: l) <-> distinct l /\ forall c, c ∈ l -> addrRecordEq (b_peer b) (b_peer c) = false.
Proof.
  split.
  - intros Hd. split.
    + intros i j c d Hi Hj E. by apply (inj S), (Hd (S i) (S j) c d).
    + intros c [j Hj]%list_elem_of_lookup. destruct (addrRecordEq (b_peer b) (b_peer c)) eqn:E; [|done].
      by specialize (Hd 0%nat (S j) b c eq_refl Hj E).
  - intros [Hd Hb] [|i] [|j] c d; simpl; [done| | |intros; f_equal; by eapply Hd].
    + intros [= <-] Hj E. by rewrite (Hb d) in E by by eapply list_elem_of_lookup_2.
    + intros Hi [= <-] E. apply addrRecordEq_sym in E.
      by rewrite (Hb c) in E by by eapply list_elem_of_lookup_2.
Qed.

Lemma elem_of_filter_bool {A} (f : A -> bool) l b : b ∈ List.filter f l <-> b ∈ l /\ f b = true.
Proof. rewrite !list_elem_of_In. apply filter_In. Qed.

Lemma distinct_filter f l : distinct l -> distinct (List.filter f l).
Proof.
  induction l as [|b l IH]; simpl; [done|]. rewrite distinct_cons. intros [Hd Hb].
  destruct (f b); [|by apply IH]. apply distinct_cons. split; [by apply IH|].
  intros c [Hc _]%elem_of_filter_bool. by apply Hb.
Qed.

(** Garbage collection only takes bindings nobody waits for. *)
Lemma core_filter st fe fr l P f :
  core_ok st fe fr l P ->
  (forall b, permissionTidFresh b = true \/ channelTidFresh b = true -> f b = true) ->
  core_ok st fe fr (List.filter f l) P.
Proof.
  intros [H1 H2 H3 H4 H5] Hf.
  constructor; [| | | |done].
  - apply Forall_forall. intros b [Hb _]%elem_of_filter_bool. by apply (Forall_forall _ l).
  - by apply distinct_filter.
  - intros He. apply Forall_forall. intros b [Hb _]%elem_of_filter_bool.
    specialize (H3 He). rewrite Forall_forall in H3. by apply H3.
  - eapply pend_bindings; [done| |]; intros p (i & b & Hi & E & Hb);
      (assert (Hb' : b ∈ List.filter f l)
         by (apply elem_of_filter_bool; split; [by eapply list_elem_of_lookup_2|auto]));
      apply list_elem_of_lookup in Hb' as [j Hj]; by exists j, b.
Qed.

Section Steps.
Context (csprng : nat -> nat -> option bytes).
Context (Hrnd : forall k n b, csprng k n = Some b -> length b = n /\ bytes_ok b).

(** ** Sending data *)

Lemma wp_flushOne s r b pkt (Q : bool -> Client -> Prop) :
  valid s r b -> sized pkt -> (forall ok s', still s s' -> Q ok s') -> wp (flushOne csprng r pkt) Q s.
Proof.
  intros Hv Hp H. apply wp_bind, (wp_deref s r b); [done|]. destruct (channelReady b).
  - destruct (wrapChannelData_total (channel b) pkt []) as (n & f & E & _).
    apply wp_bind, (wp_lift _ _ _ _ E). cbn [fst snd]. destruct (n =? 0)%nat; [by apply wp_ret, H|].
    apply wp_bind, wp_rawSend. intros o s1 H1. by apply wp_ret, H.
  - apply wp_bind, wp_sendIndication; [done|done|]. intros m s1 H1.
    apply wp_bind, wp_rawSend. intros o s2 H2. apply wp_ret, H. by eapply still_trans.
Qed.

Lemma wp_flushLoop l r b s (Q : nat -> Client -> Prop) :
  valid s r b -> Forall sized l -> (forall n s', (n <= length l)%nat -> still s s' -> Q n s') ->
  wp (flushLoop csprng r l) Q s.
Proof.
  intros Hv Hl. revert s Q Hv. induction Hl as [|pkt l Hp Hl IH]; intros s Q Hv H; simpl.
  { by apply wp_ret, H. }
  apply wp_bind, (wp_flushOne s r b); [done..|]. intros [|] s1 H1.
  - apply wp_bind, (IH s1); [by eapply valid_still|]. intros n s2 Hn H2. apply wp_ret, H; [simpl; lia|].
    by eapply still_trans.
  - apply wp_ret, H; [lia|done].
Qed.

Lemma binding_drop b n : binding_ok b -> binding_ok (b <| pendingData ::= drop n |>).
Proof.
  intros []. constructor; upd; [done..| |]; [|by apply Forall_drop].
  rewrite length_drop. lia.
Qed.

Lemma wp_flushPendingData s r b (Q : nat -> Client -> Prop) :
  cinv s -> valid s r b -> (forall n s', cinv s' -> stable s s' -> Q n s') ->
  wp (flushPendingData csprng r) Q s.
Proof.
  intros Hi Hv H. apply wp_bind, (wp_deref s r b); [done|].
  pose proof (valid_ok _ _ _ Hi Hv) as Hb. pose proof (bo_sized _ Hb) as Hs.
  destruct (pendingData b) as [|x l] eqn:Ep; [by apply wp_ret, H|].
  apply wp_bind, wp_gets. destruct (sendRaw (sink_ s)); [|by apply wp_ret, H].
  apply wp_bind, (wp_flushLoop (x :: l) r b); [done..|]. intros n s1 Hn H1.
  pose proof (cinv_still _ _ Hi H1) as Hi1. pose proof (valid_still _ _ _ _ H1 Hv) as Hv1.
  apply wp_bind, (wp_updateRef s1 r b); [done|done|by apply binding_drop|done| |done|done|].
  - intros He. destruct (valid_late s1 r b Hi1 Hv1); [left; congruence|done].
  - intros s2 Hi2 Hk2 _ _. apply wp_ret, H; [done|]. eapply stable_trans; [by apply stable_still|done].
Qed.

Lemma pushPending_bound data l :
  (length l <= kMaxPendingDataPkts)%nat -> (length (pushPending data l) <= kMaxPendingDataPkts)%nat.
Proof.
  unfold pushPending, kMaxPendingDataPkts. destruct (Nat.leb_spec 512 (length l));
    rewrite length_app; cbn [length]; [rewrite length_drop|]; lia.
Qed.

Lemma binding_push b data : binding_ok b -> sized data -> binding_ok (b <| pendingData ::= pushPending data |>).
Proof.
  intros [] Hd. constructor; upd; [done..| |]; [by apply pushPending_bound|].
  unfold pushPending. apply Forall_app. split; [destruct (_ <=? _)%nat; [by apply Forall_drop|done]|by constructor].
Qed.

Lemma wp_sendData s peer data (Q : Z -> Client -> Prop) :
  cinv s -> good peer -> sized data -> (forall n s', cinv s' -> Q n s') ->
  wp (sendData csprng peer data) Q s.
Proof.
  intros Hi Hg Hd H. apply wp_bind, wp_gets.
  destruct (bool_decide_reflect (state_ s = Allocated)) as [Es|Es]; cbn [negb]; [|by apply wp_ret, H].
  apply wp_bind, wp_getBinding; [done..|]. intros r s1 b Hi1 Hv1 Eb _ _ Hm1.
  pose proof (mv_state _ _ _ _ _ _ _ Hm1) as Hst. rewrite Es in Hst.
  assert (Hl : ~ early (state_ s1)) by (rewrite Hst; by intros [|]).
  pose proof (valid_bindingAt _ _ _ _ Hi1 Hv1 Eb) as Hat.
  apply wp_bind, wp_gets. destruct (existsb _ _); cbn [negb].
  - apply wp_bind, (wp_deref s1 r b); [done|]. destruct (channelReady b).
    { destruct (wrapChannelData_total (channel b) data []) as (n & f & E & _).
      apply wp_bind, (wp_lift _ _ _ _ E). cbn [fst snd]. destruct (n =? 0)%nat; [by apply wp_ret, H|].
      apply wp_bind, wp_rawSend. intros o s2 H2. apply wp_ret, H. by eapply cinv_still. }
    destruct (_ <? _); [by apply wp_ret, H|].
    apply wp_bind, wp_sendIndication; [done|done|]. intros m s2 H2.
    apply wp_bind, wp_rawSend. intros o s3 H3. pose proof (still_trans _ _ _ H2 H3) as H13.
    pose proof (cinv_still _ _ Hi1 H13) as Hi3. pose proof (valid_still _ _ _ _ H13 Hv1) as Hv3.
    apply wp_bind, (wp_deref s3 r b); [done|]. apply wp_bind. destruct (channel b =? 0).
    + apply wp_sendChannelBind; [done|done|done|by rewrite (mv_state _ _ _ _ _ _ _ H13)|].
      intros s4 Hi4 _ _. by apply wp_ret, H.
    + by apply wp_ret, wp_ret, H.
  - apply wp_bind, (wp_deref s1 r b); [done|]. apply wp_bind.
    assert (Hfin : forall s2 b2, cinv s2 -> stable s1 s2 -> valid s2 r b2 ->
              wp (assign r (fun b => b <| pendingData ::= pushPending data |>);; mret (Z.of_nat (length data))) Q s2).
    { intros s2 b2 Hi2 Hk2 Hv2.
      apply wp_bind, (wp_updateRef s2 r b2); [done|done| |done| |done|done|].
      - apply binding_push; [by eapply valid_ok|done].
      - rewrite (sb_state _ _ Hk2). done.
      - intros s3 Hi3 _ _ _. by apply wp_ret, H. }
    destruct (permissionTidFresh b).
    + apply wp_ret. by apply (Hfin s1 b).
    + apply wp_sendCreatePermission; [done|done|done|]. intros s2 Hi2 _ Hk2.
      specialize (Hk2 (ex_intro _ _ Hat)). destruct (valid_stable _ _ _ _ Hk2 Hv1) as (b2 & Hv2 & _).
      by apply (Hfin s2 b2).
Qed.

(** ** Responses *)

Lemma wp_handleAllocateResponse s m e (Q : unit -> Client -> Prop) :
  cinv s -> req_ok m -> state_ s = Allocating ->
  (forall k tx, pending_ s !! k = Some tx -> kind tx <> KAllocate) ->
  (forall s', cinv s' -> Q tt s') -> wp (handleAllocateResponse csprng m e) Q s.
Proof.
  intros Hi Hm Es Hno H. pose proof Hm as (Ht & Ha & _). unfold handleAllocateResponse.
  assert (Hleave : forall s' st, moved s s' st (refreshTidFresh_ s) (bindings_ s) (bindingsGen s) (pending_ s) -> cinv s').
  { intros s' st Hmv. eapply cinv_moved; [done..|]. apply core_leave; [|done]. rewrite <- Es. apply Hi. }
  destruct e.
  - apply wp_bind, wp_errorOf; [done|]. intros [code reason].
    destruct (_ || _).
    + apply wp_bind, wp_handleAuthError; [done|]. intros [|] s1 H1; pose proof (cinv_still _ _ Hi H1) as Hi1.
      * apply wp_bind, wp_modify. apply wp_allocate; [done| |by intros s' Hs' _; apply H].
        apply (Hleave _ AllocIdle). destruct H1. by constructor.
      * apply wp_bind, wp_gets. apply wp_failAllocation; [done|]. intros s' Hs' _ _. by apply H.
    + apply wp_failAllocation; [done|]. intros s' Hs' _ _. by apply H.
  - apply wp_bind, wp_modify. set (s1 := s <| nonceRetries_ := 0 |>).
    destruct (readXorAddress_safe m AttrType.XorRelayedAddress _ Ha Ht) as (o & Eo & _).
    apply wp_bind, (wp_lift _ _ _ _ Eo). destruct o as [relayed|].
    + apply wp_bind, wp_modify, wp_bind, wp_lifetimeOf; [done|]. intros lt.
      apply wp_bind, wp_modify, wp_bind, wp_scheduleRefresh; [done|]. intros s2 H2.
      apply wp_callback. intros s3 H3. apply H, (Hleave _ Allocated).
      destruct (still_trans _ _ _ H2 H3). constructor; done.
    + apply wp_failAllocation; [|by intros s' Hs' _ _; apply H]. apply (cinv_still s); [done|by constructor].
Qed.

Lemma wp_handleRefreshResponse s m e (Q : unit -> Client -> Prop) :
  cinv s -> req_ok m -> ~ early (state_ s) -> (forall s', cinv s' -> Q tt s') ->
  wp (handleRefreshResponse csprng m e) Q s.
Proof.
  intros Hi Hm He H. pose proof Hm as (Ht & Ha & _). unfold handleRefreshResponse. destruct e.
  - apply wp_bind, wp_errorOf; [done|]. intros [code reason].
    apply wp_bind, wp_handleAuthError; [done|]. intros [|] s1 H1; pose proof (cinv_still _ _ Hi H1) as Hi1.
    + apply wp_bind, wp_gets. apply wp_refreshAllocation; [done|done| |by intros; apply H].
      by rewrite (mv_state _ _ _ _ _ _ _ H1).
    + apply wp_failAllocation; [done|]. intros s' Hs' _ _. by apply H.
  - apply wp_bind, wp_modify, wp_bind, wp_gets.
    set (s1 := s <| nonceRetries_ := 0 |>). assert (H1 : still s s1) by by constructor.
    destruct (bool_decide _); [by apply wp_ret, H, (cinv_still s)|].
    apply wp_bind, wp_lifetimeOf; [done|]. intros lt. apply wp_bind, wp_modify.
    apply wp_scheduleRefresh; [done|]. intros s2 H2. apply H, (cinv_still s); [done|].
    eapply still_trans; [|done]. by constructor.
Qed.

Lemma binding_permit b t :
  binding_ok b -> binding_ok (b <| permissionPermitted := true |> <| permissionRefreshAt := t |>).
Proof. by intros []. Qed.

Lemma wp_handleCreatePermissionResponse s m e peer (Q : unit -> Client -> Prop) :
  cinv s -> req_ok m -> good peer ->
  (forall i b, bindings_ s !! i = Some b -> addrRecordEq (b_peer b) peer = true -> permissionTidFresh b = false) ->
  (forall s', cinv s' -> Q tt s') -> wp (handleCreatePermissionResponse csprng m e peer) Q s.
Proof.
  intros Hi (Ht & Ha & _) Hg Hfree H.
  apply wp_bind, wp_getBinding; [done..|]. intros r s1 b Hi1 Hv1 Eb _ Hb Hm1.
  assert (Hf : permissionTidFresh b = false).
  { destruct Hb as [-> | ->]; [done|]. apply (Hfree (r_idx r)); [apply Hv1|done]. }
  pose proof (valid_ok _ _ _ Hi1 Hv1) as Hb1.
  assert (He1 : early (state_ s1) -> pendingData b = [] /\ channelReady b = false).
  { intros He. apply (Forall_lookup_1 _ _ _ _ (co_early _ _ _ _ _ (ci_core _ Hi1) He) (proj2 Hv1)). }
  destruct e; cbn [negb].
  - apply wp_bind, wp_errorOf; [done|]. intros [code reason]. cbn [fst].
    apply wp_bind, wp_handleAuthError; [done|]. intros ok s2 H2.
    pose proof (cinv_still _ _ Hi1 H2) as Hi2. pose proof (valid_still _ _ _ _ H2 Hv1) as Hv2.
    rewrite <- (mv_state _ _ _ _ _ _ _ H2) in He1. destruct ok.
    + apply wp_bind, (wp_updateRef s2 r b); [done|done|by destruct Hb1|done|done|by rewrite Hf|done|].
      intros s3 Hi3 _ _ _. apply wp_sendCreatePermission; [done|done|done|]. intros s4 Hi4 _ _. by apply H.
    + apply (wp_updateRef s2 r b); [done|done| |done| |done|done|by intros; apply H].
      * destruct Hb1. constructor; upd; try done. cbn. lia.
      * intros He. split; [done|]. by apply He1.
  - apply wp_bind, wp_modify. set (s2 := s1 <| nonceRetries_ := 0 |>).
    assert (H2 : still s1 s2) by by constructor.
    pose proof (cinv_still _ _ Hi1 H2) as Hi2. pose proof (valid_still _ _ _ _ H2 Hv1) as Hv2.
    apply wp_bind, wp_gets.
    apply wp_bind, (wp_updateRef s2 r b); [done|done|by apply binding_permit|done|done|done|done|].
    set (b3 := b <| permissionPermitted := true |> <| permissionRefreshAt := _ |>).
    intros s3 Hi3 Hk3 Hv3 _. apply wp_bind, (wp_deref s3 r b3); [done|].
    destruct (pendingData b3) as [|x l] eqn:Ep; [by apply wp_ret, H|].
    assert (Hl3 : ~ early (state_ s3)) by (eapply valid_late; [done|done|left; congruence]).
    apply wp_bind, (wp_flushPendingData s3 r b3); [done|done|]. intros n s4 Hi4 Hk4.
    destruct (valid_stable _ _ _ _ Hk4 Hv3) as (b4 & Hv4 & _).
    apply wp_bind, (wp_deref s4 r b4); [done|]. destruct (channel b4 =? 0); [|by apply wp_ret, H].
    apply wp_sendChannelBind; [done|done|done|by rewrite (sb_state _ _ Hk4)|]. intros s5 Hi5 _ _. by apply H.
Qed.

Lemma wp_handleChannelBindResponse s m e peer i b (Q : unit -> Client -> Prop) :
  cinv s -> req_ok m -> good peer -> ~ early (state_ s) ->
  bindings_ s !! i = Some b -> addrRecordEq (b_peer b) peer = true -> channel b <> 0 -> channelTidFresh b = false ->
  (forall s', cinv s' -> Q tt s') -> wp (handleChannelBindResponse csprng m e peer) Q s.
Proof.
  intros Hi (Ht & Ha & _) Hg He Hb Eb Hc Hf H.
  assert (Hat : bindingAt peer (bindings_ s) = Some i) by (eapply bindingAt_lookup; [apply Hi|done|done]).
  apply wp_bind, wp_getBinding; [done..|]. intros r s1 b1 Hi1 Hv1 Eb1 Hsame _ _.
  rewrite (Hsame (ex_intro _ _ Hat)) in *. clear Hsame s1.
  assert (b1 = b) as ->.
  { pose proof (valid_bindingAt _ _ _ _ Hi1 Hv1 Eb1) as E. rewrite Hat in E. injection E as ->.
    destruct Hv1 as [_ E]. congruence. }
  pose proof (valid_ok _ _ _ Hi1 Hv1) as [B1 B2 B3 B4 B5].
  apply wp_bind, wp_gets. destruct e; cbn [negb].
  - apply wp_bind, wp_errorOf; [done|]. intros [code reason].
    apply wp_bind, wp_handleAuthError; [done|]. intros ok s2 H2.
    pose proof (cinv_still _ _ Hi1 H2) as Hi2. pose proof (valid_still _ _ _ _ H2 Hv1) as Hv2.
    assert (He2 : ~ early (state_ s2)) by by rewrite (mv_state _ _ _ _ _ _ _ H2).
    destruct ok.
    + apply wp_bind, (wp_updateRef s2 r b); [done|done|by constructor|done|done|done|by rewrite Hf|].
      intros s3 Hi3 Hk3 _ _. apply wp_sendChannelBind; [done|done|done|by rewrite (sb_state _ _ Hk3)|].
      intros s4 Hi4 _ _. by apply H.
    + destruct (code =? 400); [|by apply wp_ret, H]. apply wp_bind, (wp_deref s2 r b); [done|].
      destruct (channelReady b).
      * apply (wp_updateRef s2 r b); [done|done|by constructor|done|done|done|done|by intros; apply H].
      * apply wp_bind, wp_modify, wp_callback. intros s3 H3. apply H. eapply cinv_still; [|done].
        eapply (cinv_moved s2 _ AllocFailed); [done|by constructor|].
        eapply core_state; [apply Hi2|done|by intros [|] | done | done].
  - apply wp_bind, wp_modify. set (s2 := s <| nonceRetries_ := 0 |>).
    assert (H2 : still s s2) by by constructor.
    pose proof (cinv_still _ _ Hi1 H2) as Hi2. pose proof (valid_still _ _ _ _ H2 Hv1) as Hv2.
    apply (wp_updateRef s2 r b); [done|done|by constructor|done|done|done|done|by intros; apply H].
Qed.

Lemma wp_updateBinding s peer f i b (Q : unit -> Client -> Prop) :
  distinct (bindings_ s) -> bindings_ s !! i = Some b -> addrRecordEq (b_peer b) peer = true ->
  Q tt (s <| bindings_ ::= <[i := f b]> |>) -> wp (updateBinding peer f) Q s.
Proof.
  intros Hd Hi E HQ. apply wp_bind, wp_gets. rewrite (bindingAt_lookup _ _ _ _ Hd Hi E).
  apply wp_bind, wp_refAt, (wp_assign s _ b); [done|]. exact HQ.
Qed.

(** The transaction of a peer's request has ended: its flag is cleared. *)
Lemma wp_endRequest s k tx K (f : PeerBinding -> PeerBinding) (Q : unit -> Client -> Prop) :
  cinv s -> pending_ s !! k = Some tx -> kind tx = K ->
  (forall b, binding_ok b -> binding_ok (f b) /\ b_peer (f b) = b_peer b /\ channelReady (f b) = channelReady b /\
     (pendingData (f b) = pendingData b \/ pendingData (f b) = [])) ->
  (K = KCreatePermission /\ (forall b, channelTidFresh (f b) = channelTidFresh b) \/
   K = KChannelBind /\ (forall b, permissionTidFresh (f b) = permissionTidFresh b)) ->
  (forall i b, bindings_ s !! i = Some b -> addrRecordEq (b_peer b) (tx_peer tx) = true -> binding_ok b ->
     (if decide (K = KChannelBind) then ~ early (state_ s) /\ channel b <> 0 else True) ->
     cinv (s <| bindings_ ::= <[i := f b]> |> <| pending_ ::= delete k |>) ->
     Q tt (s <| bindings_ ::= <[i := f b]> |>)) ->
  wp (updateBinding (tx_peer tx) f) Q s.
Proof.
  intros Hi Hk HK Hf Hcase H.
  pose proof (po_flag _ _ _ _ (co_pend _ _ _ _ _ (ci_core _ Hi)) k tx Hk) as Hfl. unfold flagged in Hfl.
  assert (Hw : exists i b, bindings_ s !! i = Some b /\ addrRecordEq (b_peer b) (tx_peer tx) = true /\
            (if decide (K = KChannelBind) then ~ early (state_ s) /\ channelTidFresh b = true else True)).
  { rewrite HK in Hfl. destruct Hcase as [[-> _]|[-> _]].
    - destruct Hfl as (i & b & ? & ? & _). by exists i, b.
    - destruct Hfl as (He & i & b & ? & ? & ?). by exists i, b. }
  destruct Hw as (i & b & Hb & Eb & Hx).
  pose proof (Forall_lookup_1 _ _ _ _ (co_bindings _ _ _ _ _ (ci_core _ Hi)) Hb) as Hbo.
  destruct (Hf b Hbo) as (F1 & F2 & F3 & F4).
  apply (wp_updateBinding s _ f i b); [apply Hi|done|done|]. apply H; [done|done|done| |].
  { destruct (decide _); [|done]. destruct Hx. split; [done|]. apply (bo_ready _ Hbo). by right. }
  eapply (cinv_moved s); [done|by constructor|]. eapply core_finish; [apply Hi|done..| |].
  - intros He. split; [|done]. destruct F4 as [->|]; [|done].
    by apply (Forall_lookup_1 _ _ _ _ (co_early _ _ _ _ _ (ci_core _ Hi) He) Hb).
  - rewrite HK. destruct Hcase as [[-> Hx']|[-> Hx']]; [left|right]; by rewrite Hx'.
Qed.

Lemma wp_handleStunResponse s m (Q : unit -> Client -> Prop) :
  cinv s -> req_ok m -> (forall s', cinv s' -> Q tt s') -> wp (handleStunResponse csprng m) Q s.
Proof.
  intros Hi Hm H. pose proof Hm as (Ht & Ha & _). apply wp_bind, wp_gets.
  destruct (pending_ s !! transactionID m) as [tx|] eqn:Hk; [|by apply wp_ret, H].
  set (e := bool_decide _). apply wp_bind. eapply (wp_mono _ (fun _ s' => s' = s)).
  { destruct e; [|by apply wp_ret]. apply wp_bind, wp_errorOf; [done|]. intros _. by apply wp_ret. }
  intros [] s0 ->. pose proof (po_flag _ _ _ _ (co_pend _ _ _ _ _ (ci_core _ Hi)) _ tx Hk) as Hfl.
  unfold flagged in Hfl.
  assert (Hdel : cinv (s <| pending_ ::= delete (transactionID m) |>)).
  { eapply (cinv_moved s); [done|by constructor|]. apply core_delete, Hi. }
  destruct (kind tx) eqn:HK.
  - apply wp_bind, wp_modify. apply wp_handleAllocateResponse; [done|done|done| |done].
    intros k' tx' Hk' E. upd.
    destruct (slot_freed _ _ _ _ _ _ (co_pend _ _ _ _ _ (ci_core _ Hi)) Hk k' tx' Hk').
    unfold same_slot. by rewrite HK, E.
  - apply wp_bind, wp_modify, wp_bind, wp_modify. apply wp_handleRefreshResponse; [|done|by upd; apply Hfl|done].
    eapply (cinv_moved s); [done|by constructor|]. eapply core_refreshed; [apply Hi|done|done].
  - apply wp_bind. apply (wp_endRequest s (transactionID m) tx KCreatePermission);
      [done|done|done| |by left|].
    { intros b []. split; [by constructor|]. split; [done|]. split; [done|by left]. }
    intros i b Hb Eb Hbo _ Hi1. apply wp_bind, wp_modify.
    apply wp_handleCreatePermissionResponse; [done|done|by eapply good_eq| |done].
    upd. intros j c Hc Ec. assert (j = i) as ->.
    { assert (Hd : distinct (<[i := b <| permissionTidFresh := false |>]> (bindings_ s))).
      { eapply distinct_peers; [by eapply peers_update|apply Hi]. }
      apply (Hd j i c (b <| permissionTidFresh := false |>)); [done| |].
      - apply list_lookup_insert_eq. by eapply lookup_lt_Some.
      - eapply addrRecordEq_trans; [done|]. upd. by apply addrRecordEq_sym. }
    rewrite list_lookup_insert_eq in Hc by by eapply lookup_lt_Some. by injection Hc as <-.
  - apply wp_bind. apply (wp_endRequest s (transactionID m) tx KChannelBind);
      [done|done|done| |by right|].
    { intros b []. split; [constructor; upd; try done|]. 2: { split; [done|]. split; [done|by left]. }
      intros [|]; [|done]. by apply bo_ready; left. }
    intros i b Hb Eb Hbo [He Hch] Hi1. apply wp_bind, wp_modify.
    apply (wp_handleChannelBindResponse _ m e _ i (b <| channelTidFresh := false |>));
      [done|done|by eapply good_eq|done| |done|done|done|done].
    upd. apply list_lookup_insert_eq. by eapply lookup_lt_Some.
  - apply wp_bind, wp_modify. unfold handleConnectResponse. destruct e.
    + apply wp_bind, wp_errorOf; [done|]. intros [code reason]. apply wp_callback.
      intros s' Hc. apply H. by eapply cinv_still.
    + pose proof (attribute_readers_safe m 0 _ Ha Ht) as (_ & _ & _ & (o & E & _) & _).
      apply wp_bind, (wp_lift _ _ _ _ E). destruct o; [|by apply wp_ret, H].
      apply wp_callback. intros s' Hc. apply H. by eapply cinv_still.
Qed.

Lemma wp_handleConnectionAttempt s m (Q : unit -> Client -> Prop) :
  req_ok m -> (forall s', still s s' -> Q tt s') -> wp (handleConnectionAttempt m) Q s.
Proof.
  intros (Ht & Ha & _) H.
  destruct (readXorAddress_safe m AttrType.XorPeerAddress _ Ha Ht) as (o & Eo & _).
  apply wp_bind, (wp_lift _ _ _ _ Eo). destruct o as [peer|]; [|by apply wp_ret, H].
  pose proof (attribute_readers_safe m 0 _ Ha Ht) as (_ & _ & _ & (o & E & _) & _).
  apply wp_bind, (wp_lift _ _ _ _ E). destruct o; [|by apply wp_ret, H]. by apply wp_callback.
Qed.

Lemma wp_handleDataIndication s m (Q : unit -> Client -> Prop) :
  req_ok m -> (forall s', still s s' -> Q tt s') -> wp (handleDataIndication m) Q s.
Proof.
  intros (Ht & Ha & _) H.
  destruct (readXorAddress_safe m AttrType.XorPeerAddress _ Ha Ht) as (o & Eo & _).
  apply wp_bind, (wp_lift _ _ _ _ Eo). destruct o as [peer|]; [|by apply wp_ret, H].
  destruct (find m AttrType.Data); [|by apply wp_ret, H]. by apply wp_callback.
Qed.

Lemma wp_handleChannelData s data (Q : unit -> Client -> Prop) :
  bytes_ok data -> (forall s', still s s' -> Q tt s') -> wp (handleChannelData data) Q s.
Proof.
  intros Hb H. destruct (unwrapChannelData_total data 0 0 Hb) as (u & Eu & Hu).
  apply wp_bind, (wp_lift _ _ _ _ Eu). destruct (Nat.eqb_spec (un_ret u) 0) as [|Hn]; [by apply wp_ret, H|].
  destruct (Hu Hn) as (Ed & Hl & _). apply wp_bind, (wp_lift _ _ _ _ Ed).
  apply wp_bind, (wp_lift _ _ _ (take (un_ret u) (drop 4 data))); [by rewrite peek_inb by lia|].
  apply wp_bind, wp_gets. destruct (List.find _ _); [by apply wp_callback|].
  destruct (bindings_ s) as [|b [|]]; [by apply wp_ret, H|by apply wp_callback|by apply wp_ret, H].
Qed.

Definition packet_bytes (p : option bytes) : Prop := match p with Some d => bytes_ok d | None => True end.

Lemma wp_handleInbound s p (Q : unit -> Client -> Prop) :
  cinv s -> packet_bytes p -> (forall s', cinv s' -> Q tt s') -> wp (handleInbound csprng p) Q s.
Proof.
  intros Hi Hp H. assert (Hc : forall s', still s s' -> Q tt s') by (intros s' Hs; by eapply H, cinv_still).
  destruct p as [data|]; cbn in Hp.
  - destruct (isChannelData_total data) as (c & Ec & _). apply wp_bind, (wp_lift _ _ _ _ Ec).
    destruct c; [by apply wp_handleChannelData|].
    destruct (isMessage_total data Hp) as (ok & Eok & _). apply wp_bind, (wp_lift _ _ _ _ Eok).
    destruct ok; cbn [negb]; [|by apply wp_ret, H].
    destruct (decode_total emptyMessage data Hp) as (b & m & Ed & _). apply wp_bind, (wp_lift _ _ _ _ Ed).
    destruct b; cbn [negb]; [|by apply wp_ret, H]. pose proof (decode_req _ _ Hp Ed) as Hm.
    destruct (isResponseType _); [by apply wp_handleStunResponse|].
    destruct (_ && _); [by apply wp_handleDataIndication|].
    destruct (_ && _); [by apply wp_handleConnectionAttempt|by apply wp_ret, H].
  - apply wp_bind, wp_gets. destruct (bool_decide _); [by apply wp_ret, H|].
    apply wp_failAllocation; [done|]. intros s' Hs' _ _. by apply H.
Qed.

(** ** The timer *)

Lemma wp_noteDeadline s t (Q : unit -> Client -> Prop) :
  (forall s', still s s' -> Q tt s') -> wp (noteDeadline t) Q s.
Proof. intros H. apply wp_modify, H. by constructor. Qed.

(** The other transactions are as before. *)
Definition others (k : bytes) (s s' : Client) : Prop :=
  forall k', k' <> k -> pending_ s' !! k' = pending_ s !! k'.

Lemma wp_onTimeout s k tx (Q : bool -> Client -> Prop) :
  cinv s -> pending_ s !! k = Some tx ->
  (forall go s', cinv s' -> (go = true -> stable s s' /\ pending_ s' = delete k (pending_ s)) -> Q go s') ->
  wp (modify (fun s => s <| pending_ ::= delete k |>);; onTimeout tx) Q s.
Proof.
  intros Hi Hk H. apply wp_bind, wp_modify. set (s1 := s <| pending_ ::= delete k |>).
  assert (Hi1 : cinv s1).
  { eapply (cinv_moved s); [done|by constructor|]. apply core_delete, Hi. }
  assert (Hend : forall f, (kind tx = KCreatePermission \/ kind tx = KChannelBind) ->
    wp (updateBinding (tx_peer tx) f) (fun _ s' => exists i b, bindings_ s !! i = Some b /\
       addrRecordEq (b_peer b) (tx_peer tx) = true /\ binding_ok b /\
       s' = s1 <| bindings_ ::= <[i := f b]> |>) s1).
  { intros f HK. pose proof (po_flag _ _ _ _ (co_pend _ _ _ _ _ (ci_core _ Hi)) k tx Hk) as Hfl.
    unfold flagged in Hfl. assert (Hw : exists g, waits g (bindings_ s) (tx_peer tx)).
    { destruct HK as [HK|HK]; rewrite HK in Hfl; [by eexists|]. destruct Hfl. by eexists. }
    destruct Hw as (g & i & b & Hb & Eb & _). apply (wp_updateBinding s1 _ f i b); [apply Hi|done|done|].
    exists i, b. split; [done|]. split; [done|]. split; [|done].
    by apply (Forall_lookup_1 _ _ _ _ (co_bindings _ _ _ _ _ (ci_core _ Hi)) Hb). }
  assert (Hfin : forall i b b', bindings_ s !! i = Some b -> addrRecordEq (b_peer b) (tx_peer tx) = true ->
    binding_ok b' -> b_peer b' = b_peer b -> channelReady b' = channelReady b ->
    (pendingData b' = pendingData b \/ pendingData b' = []) ->
    (kind tx = KCreatePermission /\ channelTidFresh b' = channelTidFresh b \/
     kind tx = KChannelBind /\ permissionTidFresh b' = permissionTidFresh b) ->
    Q true (s1 <| bindings_ ::= <[i := b']> |>)).
  { intros i b b' Hb Eb Hb' Ep Er Ed Hcase. apply H.
    - eapply (cinv_moved s); [done|by constructor|]. eapply core_finish; [apply Hi|done..| |done].
      intros He. split; [|done]. destruct Ed as [->|]; [|done].
      by apply (Forall_lookup_1 _ _ _ _ (co_early _ _ _ _ _ (ci_core _ Hi) He) Hb).
    - intros _. split; [|done]. eapply stable_moved; [by constructor|]. by eapply peers_update. }
  unfold onTimeout. destruct (kind tx) eqn:HK.
  - apply wp_bind, wp_failAllocation; [done|]. intros s' Hs' _ _. by apply wp_ret, H.
  - apply wp_bind, wp_modify, wp_bind, wp_failAllocation; [|by intros s' Hs' _ _; apply wp_ret, H].
    eapply (cinv_moved s); [done|by constructor|]. eapply core_refreshed; [apply Hi|done|done].
  - apply wp_bind. eapply wp_mono; [by apply Hend; left|]. intros [] s2 (i & b & Hb & Eb & Hbo & ->).
    apply wp_ret. apply (Hfin i b); [done|done| |done|done|by right|by left].
    destruct Hbo. constructor; upd; try done. cbn. lia.
  - apply wp_bind, wp_gets, wp_bind. eapply wp_mono; [by apply Hend; right|].
    intros [] s2 (i & b & Hb & Eb & Hbo & ->). apply wp_ret. cbv zeta.
    assert (Hb1 : binding_ok (b <| channelTidFresh := false |>)).
    { destruct Hbo. constructor; upd; try done. intros [|]; [|done]. by apply bo_ready; left. }
    destruct (existsb _ _).
    + apply (Hfin i b); [done|done|done|done|done|by left|by right].
    + apply (Hfin i b); [done|done| |done|done|by right|by right].
      destruct Hb1. constructor; upd; try done. cbn. lia.
  - apply wp_ret, H; [done|]. intros _. split; [|done]. by constructor.
Qed.

Lemma wp_serveTx s t k (Q : bool -> Client -> Prop) :
  cinv s -> is_Some (pending_ s !! k) ->
  (forall go s', cinv s' -> (go = true -> stable s s' /\ others k s s') -> Q go s') ->
  wp (serveTx t k) Q s.
Proof.
  intros Hi [tx Hk] H. apply wp_bind, wp_gets, wp_bind, (wp_lift _ _ _ _ Hk).
  assert (Hstill : forall s', still s s' -> stable s s' /\ others k s s').
  { intros s' Hc. split; [by apply stable_still|]. intros k' _. by rewrite (mv_pending _ _ _ _ _ _ _ Hc). }
  destruct (_ <=? t); cbn [negb].
  2: { apply wp_bind, wp_noteDeadline. intros s' Hc. apply wp_ret, H; [by eapply cinv_still|auto]. }
  destruct (Z.leb_spec TurnMaxRtxCount (retries tx)) as [|Hr].
  - apply (wp_onTimeout s); [done|done|]. intros go s' Hi' Hgo. apply H; [done|]. intros E.
    destruct (Hgo E) as [Hk' Hp]. split; [done|]. intros k' Hne. by rewrite Hp, lookup_delete_ne.
  - apply wp_bind, wp_gets, wp_bind. set (tx' := tx <| retries ::= Z.add 1 |> <| nextRetransmitAt := _ |>).
    assert (Hgo : forall s1, still s s1 ->
      wp (modify (fun s => s <| pending_ ::= <[k := tx']> |>);; noteDeadline (nextRetransmitAt tx');; mret true) Q s1).
    { intros s1 Hc1. apply wp_bind, wp_modify, wp_bind, wp_noteDeadline. intros s2 Hc2.
      assert (Hm : moved s s2 (state_ s) (refreshTidFresh_ s) (bindings_ s) (bindingsGen s) (<[k := tx']> (pending_ s))).
      { eapply moved_still; [|done]. destruct Hc1. constructor; upd; try done. congruence. }
      apply wp_ret, H.
      - eapply (cinv_moved s); [done..|]. eapply core_retry; [apply Hi|done|done|done|].
        pose proof (po_tx _ _ _ _ (co_pend _ _ _ _ _ (ci_core _ Hi)) k tx Hk) as Ht.
        unfold tx_ok, tx' in *. upd. unfold TurnMaxRtxCount in *. lia.
      - intros _. split; [by eapply stable_moved|]. intros k' Hne.
        rewrite (mv_pending _ _ _ _ _ _ _ Hm). by apply lookup_insert_ne. }
    destruct (_ && _); [|by apply wp_ret, Hgo].
    apply wp_bind, wp_rawSend. intros n s1 Hc1. by apply wp_ret, Hgo.
Qed.

Lemma wp_serveAll l t s (Q : bool -> Client -> Prop) :
  cinv s -> NoDup l -> (forall k, k ∈ l -> is_Some (pending_ s !! k)) ->
  (forall go s', cinv s' -> (go = true -> stable s s') -> Q go s') -> wp (serveAll t l) Q s.
Proof.
  revert s Q. induction l as [|k l IH]; intros s Q Hi Hn Hl H; simpl; [by apply wp_ret, H|].
  apply NoDup_cons in Hn as [Hk Hn].
  apply wp_bind, wp_serveTx; [done|apply Hl; by left|]. intros [|] s1 Hi1 Hgo; [|by apply wp_ret, H].
  destruct (Hgo eq_refl) as [Hk1 Ho]. apply IH; [done|done| |].
  - intros k' Hk'. rewrite Ho; [apply Hl; by right|]. by intros ->.
  - intros go s2 Hi2 Hk2. apply H; [done|]. intros E. eapply stable_trans; [done|auto].
Qed.

Lemma entries_spec P : NoDup (entries P) /\ forall k, k ∈ entries P -> is_Some (P !! k).
Proof.
  unfold entries. pose proof (merge_sort_Permutation tid_le (elements (dom P))) as Hp. split.
  - rewrite Hp. apply NoDup_elements.
  - intros k. rewrite Hp, elem_of_elements, elem_of_dom. done.
Qed.

Lemma wp_refreshBinding s t r b (Q : unit -> Client -> Prop) :
  cinv s -> valid s r b -> (forall s', cinv s' -> stable s s' -> Q tt s') ->
  wp (refreshBinding csprng t r) Q s.
Proof.
  intros Hi Hv H. apply wp_bind, (wp_deref s r b); [done|]. apply wp_bind.
  pose proof (bo_peer _ (valid_ok _ _ _ Hi Hv)) as Hg.
  assert (Hat : forall s1 b1, cinv s1 -> valid s1 r b1 -> is_Some (bindingAt (b_peer b1) (bindings_ s1))).
  { intros s1 b1 Hi1 Hv1. rewrite (valid_bindingAt s1 r b1); [done..|].
    by apply addrRecordEq_refl, (bo_peer _ (valid_ok _ _ _ Hi1 Hv1)). }
  assert (Hch : forall s1 b1, cinv s1 -> stable s s1 -> valid s1 r b1 -> wp (b ← deref r;
    if channelReady b && (channelRefreshAt b <=? t) then sendChannelBind csprng (b_peer b) else skip) Q s1).
  { intros s1 b1 Hi1 Hk1 Hv1. apply wp_bind, (wp_deref s1 r b1); [done|].
    destruct (channelReady b1) eqn:Er; cbn [andb]; [|by apply wp_ret, H].
    destruct (_ <=? t); [|by apply wp_ret, H].
    apply wp_sendChannelBind; [done|done|apply (bo_peer _ (valid_ok _ _ _ Hi1 Hv1))
                              |eapply valid_late; [done|done|by right]|].
    intros s2 Hi2 _ Hk2. apply H; [done|]. eapply stable_trans; [done|]. by eapply Hk2, Hat. }
  destruct (_ && _); [|by apply wp_ret, (Hch s b)].
  apply wp_sendCreatePermission; [done|done|done|]. intros s1 Hi1 _ Hk1.
  specialize (Hk1 (Hat s b Hi Hv)). destruct (valid_stable _ _ _ _ Hk1 Hv) as (b1 & Hv1 & _).
  by apply (Hch s1 b1).
Qed.

Lemma wp_retryPending s r b (Q : unit -> Client -> Prop) :
  cinv s -> valid s r b -> (forall s', cinv s' -> stable s s' -> Q tt s') -> wp (retryPending csprng r) Q s.
Proof.
  intros Hi Hv H. apply wp_bind, (wp_deref s r b); [done|]. destruct (_ && _); [|by apply wp_ret, H].
  apply wp_bind, (wp_flushPendingData s r b); [done|done|]. intros n s1 Hi1 Hk1. by apply wp_ret, H.
Qed.

Lemma wp_forBindings s (f : Ref -> CM unit) (Q : unit -> Client -> Prop) :
  cinv s ->
  (forall s1 r b Q1, cinv s1 -> valid s1 r b -> (forall s', cinv s' -> stable s1 s' -> Q1 tt s') -> wp (f r) Q1 s1) ->
  (forall s', cinv s' -> stable s s' -> Q tt s') -> wp (forBindings f) Q s.
Proof.
  intros Hi Hf H. apply wp_bind, wp_gets, wp_bind, wp_gets.
  eapply wp_mono; [apply (wp_forM _ _ (fun s' => cinv s' /\ stable s s'))|].
  - intros i s1 Hin [Hi1 Hk1]. apply elem_of_seq in Hin as [_ Hlt].
    destruct (lookup_lt_is_Some_2 (bindings_ s) i) as [b Hb]; [lia|].
    destruct (valid_stable s s1 (mkRef (bindingsGen s) i) b Hk1) as (b1 & Hv1 & _); [done|].
    apply (Hf s1 _ b1); [done|done|]. intros s2 Hi2 Hk2. split; [done|]. by eapply stable_trans.
  - done.
  - intros [] s' [H1 H2]. by apply H.
Qed.

Lemma wp_collectStale s t (Q : unit -> Client -> Prop) :
  cinv s -> (forall s', cinv s' -> state_ s' = state_ s -> Q tt s') -> wp (collectStale t) Q s.
Proof.
  intros Hi H. apply wp_modify, H; [|done]. eapply (cinv_moved s); [done|by constructor|].
  apply core_filter; [apply Hi|]. intros b Hb. unfold staleBinding.
  destruct (_ || _); [done|]. by destruct Hb as [-> | ->]; rewrite ?orb_true_r.
Qed.

Lemma wp_refreshDue s t (Q : unit -> Client -> Prop) :
  cinv s -> (forall s', cinv s' -> Q tt s') -> wp (refreshDue csprng t) Q s.
Proof.
  intros Hi H. apply wp_bind, wp_gets, wp_bind, wp_gets, wp_bind.
  eapply (wp_mono _ (fun _ s' => cinv s')).
  { destruct (bool_decide_reflect (state_ s = Allocated)) as [Ea|]; cbn [andb]; [|by apply wp_ret].
    destruct (_ <=? _); [|by apply wp_ret].
    apply wp_bind, wp_gets, wp_refreshAllocation; [done|done|rewrite Ea; by intros [|]|done]. }
  intros [] s2 Hi2. apply wp_bind, wp_forBindings; [done|by intros; eapply wp_refreshBinding|]. intros s3 Hi3 _.
  apply wp_bind, wp_forBindings; [done|by intros; eapply wp_retryPending|]. intros s4 Hi4 _.
  apply wp_collectStale; [done|]. intros s5 Hi5 _. by apply H.
Qed.

Lemma wp_nextDeadline s (Q : Z -> Client -> Prop) :
  cinv s -> (forall n s', cinv s' -> Q n s') -> wp nextDeadline Q s.
Proof.
  intros Hi H. apply wp_bind, wp_gets, wp_bind.
  assert (Hnote : forall t s6, cinv s6 -> wp (noteDeadline t) (fun _ s' => cinv s') s6).
  { intros t s6 Hi6. apply wp_noteDeadline. intros s' Hc. by eapply cinv_still. }
  eapply wp_mono; [apply (wp_forM _ _ cinv); [|done]|].
  { intros k s6 Hk Hi6. destruct (entries_spec (pending_ s)) as [_ Hs]. destruct (Hs k Hk) as [tx Ex].
    apply wp_bind, (wp_lift _ _ _ _ Ex). by apply Hnote. }
  intros [] s6 Hi6. apply wp_bind, wp_gets, wp_bind. eapply wp_mono; [apply (wp_forM _ _ cinv); [|done]|].
  { intros b s7 _ Hi7. apply wp_bind. eapply (wp_mono _ (fun _ s' => cinv s')).
    - destruct (permissionPermitted b); [by apply Hnote|by apply wp_ret].
    - intros [] s8 Hi8. destruct (channelReady b); [by apply Hnote|by apply wp_ret]. }
  intros [] s7 Hi7. apply wp_bind, wp_gets, wp_bind, wp_gets, wp_bind.
  eapply (wp_mono _ (fun _ s' => cinv s')); [destruct (bool_decide _); [by apply Hnote|by apply wp_ret]|].
  intros [] s8 Hi8. by apply wp_bind, wp_gets, wp_ret, H.
Qed.

Lemma wp_tick s (Q : Z -> Client -> Prop) :
  cinv s -> (forall n s', cinv s' -> Q n s') -> wp (tick csprng) Q s.
Proof.
  intros Hi H. apply wp_bind, wp_gets, wp_bind, wp_modify, wp_bind, wp_gets.
  set (s0 := s <| nextTick_ := TimeMax |>). assert (Hi0 : cinv s0) by (apply (cinv_still s); [done|by constructor]).
  destruct (entries_spec (pending_ s0)) as [Hn He].
  apply wp_bind, wp_serveAll; [done|done|done|]. intros [|] s1 Hi1 _; cbn [negb]; [|by apply wp_ret, H].
  apply wp_bind, wp_refreshDue; [done|]. intros s2 Hi2. by apply wp_nextDeadline.
Qed.

End Steps.

(** ** Runs of the TURN client

    The public member functions of [turn::Client] as events, the states a client reaches
    through them, and what holds there. *)

Inductive Event :=
| EAllocate
| EDeallocate
| ESendData (peer : AddrRecord) (data : bytes)
| EPrepare (peer : AddrRecord) (data out : bytes)
| EPermission (peer : AddrRecord)
| EConnect (peer : AddrRecord)
| EConnectionBind (connectionId : Z)
| EInbound (packet : option bytes)
| ETick.

(** What a caller has to keep to: peers of a known address family, and buffers of bytes. *)
Definition allowed (e : Event) : Prop :=
  match e with
  | ESendData peer data => good peer /\ sized data
  | EPermission peer | EConnect peer => good peer
  | EInbound p => packet_bytes p
  | _ => True
  end.

Definition setClock (t : Z) (s : Client) : Client := s <| clock := t |>.

Section Run.
Context (csprng : nat -> nat -> option bytes) (cfg : TurnConfig) (sink : TurnSink).

Definition step (e : Event) : CM unit :=
  match e with
  | EAllocate => allocate csprng
  | EDeallocate => deallocate csprng
  | ESendData peer data => sendData csprng peer data;; skip
  | EPrepare peer data out => prepareChannelData peer data out;; skip
  | EPermission peer => ensurePermission csprng peer
  | EConnect peer => sendConnect csprng peer
  | EConnectionBind i => buildConnectionBindRequest csprng i;; skip
  | EInbound p => handleInbound csprng p
  | ETick => tick csprng;; skip
  end.

(** The clients that can be: each event happens at some time. *)
Inductive reach : Client -> Prop :=
| reach_init : reach (newClient cfg sink)
| reach_step s t e s' :
    reach s -> allowed e -> step e (setClock t s) = Some (tt, s') -> reach s'.

Context (Hrnd : forall k n b, csprng k n = Some b -> length b = n /\ bytes_ok b).

Lemma wp_sendConnect s peer (Q : unit -> Client -> Prop) :
  cinv s -> good peer -> (forall s', cinv s' -> Q tt s') -> wp (sendConnect csprng peer) Q s.
Proof.
  intros Hi Hg H. apply wp_bind, wp_gets. destruct (bool_decide _); cbn [negb]; [|by apply wp_ret, H].
  apply wp_bind, wp_peerRequest; [done|]. intros m s1 Hm H1.
  apply wp_bind, wp_request; [eapply authed_inv, cinv_still; done|done|]. intros m' s2 _ H2.
  pose proof (still_trans _ _ _ H1 H2) as Hc. apply wp_transmit. intros s3 tx HK _ Ht Hmv. apply H.
  eapply (cinv_moved s2); [by eapply cinv_still|done|].
  destruct (ci_core _ (cinv_still _ _ Hi Hc)) as [C1 C2 C3 C4 C5]. constructor; try done.
  apply pend_insert; [done|done|by unfold flagged; rewrite HK|].
  intros k' tx' _ [_ Es]. by rewrite HK in Es.
Qed.

Lemma wp_buildConnectionBindRequest s i (Q : bytes -> Client -> Prop) :
  cinv s -> (forall b s', cinv s' -> Q b s') -> wp (buildConnectionBindRequest csprng i) Q s.
Proof.
  intros Hi H. apply wp_bind, wp_newMessage; [done|]. intros m s1 Hm H1.
  apply wp_bind, wp_request; [eapply authed_inv, cinv_still; done|apply body_add; [done|by apply sized_small; cbn; lia]|].
  intros m' s2 _ H2. apply wp_ret, H. eapply cinv_still; [done|]. by eapply still_trans.
Qed.

Lemma wp_prepareChannelData s peer data out (Q : Z * bytes -> Client -> Prop) :
  (forall r, Q r s) -> wp (prepareChannelData peer data out) Q s.
Proof.
  intros H. apply wp_bind, wp_gets. destruct (bool_decide _); cbn [negb]; [|by apply wp_ret].
  apply wp_bind, wp_gets. destruct (bindingAt _ _) as [i|] eqn:E; [|by apply wp_ret].
  destruct (bindingAt_Some _ _ _ E) as (b & Hb & _). apply wp_bind, (wp_lift _ _ _ _ Hb).
  destruct (channelReady b); cbn [negb]; [|by apply wp_ret].
  destruct (wrapChannelData_total (channel b) data out) as (n & f & Ew & _).
  apply wp_bind, (wp_lift _ _ _ _ Ew). destruct (_ =? _)%nat; by apply wp_ret.
Qed.

Lemma wp_client_step e s : cinv s -> allowed e -> wp (step e) (fun _ s' => cinv s') s.
Proof.
  intros Hi Ha. destruct e; cbn [step allowed] in *.
  - apply wp_allocate; [done|done|]. by intros s' Hs' _.
  - by apply wp_deallocate.
  - destruct Ha. apply wp_bind, wp_sendData; [done..|]. intros n s' Hs'. by apply wp_ret.
  - apply wp_bind, wp_prepareChannelData. intros r. by apply wp_ret.
  - apply wp_sendCreatePermission; [done|done|done|]. by intros s' Hs' _ _.
  - by apply wp_sendConnect.
  - apply wp_bind, wp_buildConnectionBindRequest; [done|]. intros b s' Hs'. by apply wp_ret.
  - by apply wp_handleInbound.
  - apply wp_bind, wp_tick; [done|done|]. intros n s' Hs'. by apply wp_ret.
Qed.

Lemma cinv_new : cfg_ok cfg -> cinv (newClient cfg sink).
Proof.
  intros Hc. constructor; [done|done|]. constructor; [constructor|done|constructor|apply pend_empty|done].
Qed.

Lemma cinv_clock s t : cinv s -> cinv (setClock t s).
Proof. by intros []. Qed.

Lemma client_reach_inv s : cfg_ok cfg -> reach s -> cinv s.
Proof.
  intros Hc. induction 1 as [|s t e s' Hr IH Ha Hst]; [by apply cinv_new|].
  exact (wp_run (step e) _ _ _ _ (wp_client_step e _ (cinv_clock s t IH) Ha) Hst).
Qed.

End Run.
