(* ===== verification/TurnClientTheorems.v ===== *)
(** * What the TURN client guarantees

    No call gets stuck, what is in flight is accounted for, data that waits for a permission
    is sent in order and nothing of it is lost, and an Allocate that nobody answers ends. *)

From stdpp Require Import sorting.
From S2P Require Import Prelude.
From S2P Require Import StateMonad.
From S2P Require Import Bytes.
From S2P Require Import Crypto.
From S2P Require Import Addr.
From S2P Require Import StunMessage.
From S2P Require Import StunAttributes.
From S2P Require Import ChannelData.
From S2P Require Import TurnTypes.
From S2P Require Import TurnClient.
From S2P Require Import TurnClientInv.
From S2P Require Import TurnClientSafe.
From S2P Require Import TurnClientSteps.
Open Scope Z_scope.

Definition rng_ok (csprng : nat -> nat -> option bytes) : Prop :=
  forall k n b, csprng k n = Some b -> length b = n /\ bytes_ok b.

(** ** A sample client *)

Definition sampleBytes (k n : nat) : bytes :=
  take n (replicate 11 7 ++ [Z.of_nat k mod 256] ++ replicate n 7).
Definition sampleRng (k n : nat) : option bytes := Some (sampleBytes k n).
Definition sampleCfg : TurnConfig :=
  mkTurnConfig "turn.example" 3478 "alice" "secret" TurnUDP "" 600 false.
Definition sampleSink : TurnSink :=
  mkTurnSink (Some (fun _ d => Z.of_nat (length d))) true true true true true true.
Definition sampleClient : Client := newClient sampleCfg sampleSink.
Definition samplePeer : AddrRecord := mkAddrRecord (SockIn 6000 [203; 0; 113; 9]) 16 SOCK_DGRAM.

Lemma sampleRng_ok : rng_ok sampleRng.
Proof.
  intros k n b [= <-]. unfold sampleBytes. split.
  - rewrite length_take, !length_app, !length_replicate. cbn [length]. lia.
  - apply Forall_take. repeat apply Forall_app_2; [by apply Forall_replicate| |by apply Forall_replicate].
    apply Forall_singleton. unfold fits. pose proof (Z.mod_pos_bound (Z.of_nat k) 256). lia.
Qed.

(** The state a run of events, each at its time, ends in. *)
Fixpoint runEvents (l : list (Z * Event)) (s : Client) : option Client :=
  match l with
  | [] => Some s
  | (t, e) :: l => r ← step sampleRng e (setClock t s); runEvents l r.2
  end.

Lemma runEvents_reach l s s' :
  reach sampleRng sampleCfg sampleSink s -> Forall (fun p => allowed p.2) l -> runEvents l s = Some s' ->
  reach sampleRng sampleCfg sampleSink s'.
Proof.
  intros Hs Hl. revert s Hs. induction Hl as [|[t e] l He Hl IH]; intros s Hs; simpl; [by intros [= <-]|].
  destruct (step sampleRng e (setClock t s)) as [[[] s1]|] eqn:E; [|done]. cbn. apply IH.
  by eapply reach_step.
Qed.

(** An Allocate and a permission in flight. *)
Definition sampleBusy : Client :=
  Eval vm_compute in default sampleClient (runEvents [(0, EAllocate); (10, EPermission samplePeer)] sampleClient).

Lemma sampleBusy_reach : reach sampleRng sampleCfg sampleSink sampleBusy.
Proof.
  apply (runEvents_reach [(0, EAllocate); (10, EPermission samplePeer)] sampleClient);
    [constructor|repeat constructor; by eexists|by vm_compute].
Qed.

(** ** Every reachable state *)

(** C14: the TURN client never gets stuck.  Whatever the server or an attacker sends, whatever the
    transport answers and in whatever order the agent calls, every call of a client in a
    state it can reach runs to its end: it reads inside the packets it was given, and the
    references to bindings it holds across other calls still refer to a binding when they are
    used.  The caller has to name peers of a known address family. *)
Theorem client_never_stuck csprng cfg sink s t e :
  rng_ok csprng -> cfg_ok cfg -> reach csprng cfg sink s -> allowed e ->
  exists s', step csprng e (setClock t s) = Some (tt, s') /\ reach csprng cfg sink s'.
Proof.
  intros Hrng Hc Hr Ha.
  destruct (wp_client_step csprng Hrng e (setClock t s)) as ([] & s' & E & _); [|done|].
  - by eapply cinv_clock, client_reach_inv.
  - exists s'. split; [done|]. by eapply reach_step.
Qed.

Lemma client_never_stuck_witness :
  exists s', step sampleRng (ESendData samplePeer [1; 2]) (setClock 50 sampleBusy) = Some (tt, s') /\
    reach sampleRng sampleCfg sampleSink s'.
Proof.
  apply (client_never_stuck sampleRng sampleCfg sampleSink sampleBusy 50 (ESendData samplePeer [1; 2]));
    [exact sampleRng_ok | reflexivity | exact sampleBusy_reach | split; [by eexists | reflexivity]].
Defined.

(** C15: the books of the client.  No two bindings are for the same peer; no binding buffers more
    than 512 packets; a channel that is ready has a number of the channel range.  A
    transaction is sent at most eight times.  At most one Allocate is in flight, and then the
    client is allocating; at most one CreatePermission and one ChannelBind for a peer, and
    the binding of the peer says so; while the allocation stands, at most one Refresh.  Once
    the failure has been reported the client stays failed. *)
Theorem client_books_consistent csprng cfg sink s :
  rng_ok csprng -> cfg_ok cfg -> reach csprng cfg sink s ->
  (forall i j b c, bindings_ s !! i = Some b -> bindings_ s !! j = Some c ->
     addrRecordEq (b_peer b) (b_peer c) = true -> i = j) /\
  (forall i b, bindings_ s !! i = Some b -> (length (pendingData b) <= 512)%nat /\
     (channelReady b = true -> channelValid (channel b) = true)) /\
  (forall k tx, pending_ s !! k = Some tx -> 0 <= retries tx <= 7 /\
     match kind tx with
     | KAllocate => state_ s = Allocating
     | KCreatePermission => waits permissionTidFresh (bindings_ s) (tx_peer tx)
     | KChannelBind => waits channelTidFresh (bindings_ s) (tx_peer tx)
     | _ => True
     end) /\
  (forall k1 k2 a b, pending_ s !! k1 = Some a -> pending_ s !! k2 = Some b -> kind a = kind b ->
     kind a = KAllocate \/ kind a = KRefresh /\ state_ s = Allocated \/
     (kind a = KCreatePermission \/ kind a = KChannelBind) /\ addrRecordEq (tx_peer a) (tx_peer b) = true ->
     k1 = k2) /\
  (failedEmitted_ s = true -> state_ s = AllocFailed).
Proof.
  intros Hrng Hc Hr. destruct (client_reach_inv _ _ _ Hrng s Hc Hr) as [_ _ [C1 C2 C3 [P1 P2 P3] C5]].
  split; [done|]. split.
  { intros i b Hb. destruct (Forall_lookup_1 _ _ _ _ C1 Hb) as [_ B2 B3 B4 _]. split; [done|]. intros Hready.
    destruct B2 as [B2|]; [|done]. destruct (B3 (or_introl Hready) B2). }
  split; [|split; [|done]].
  - intros k tx Hk. split; [exact (P1 k tx Hk)|]. specialize (P2 k tx Hk). unfold flagged in P2.
    destruct (kind tx); try done. apply P2.
  - intros k1 k2 a b A B EK Hs. apply (P3 k1 k2 a b A B). split; [done|].
    destruct Hs as [->|[[-> Hs]|[[->| ->] Hs]]]; done.
Qed.

Lemma client_books_consistent_witness :
  (forall k1 k2 a b, pending_ sampleBusy !! k1 = Some a -> pending_ sampleBusy !! k2 = Some b ->
     kind a = KAllocate -> kind b = KAllocate -> k1 = k2) /\ size (pending_ sampleBusy) = 2%nat.
Proof.
  split; [|reflexivity]. intros k1 k2 a b A B Ka Kb.
  destruct (client_books_consistent sampleRng sampleCfg sampleSink sampleBusy) as (_ & _ & _ & H & _);
    [exact sampleRng_ok | reflexivity | exact sampleBusy_reach|].
  apply (H k1 k2 a b A B); [congruence | by left].
Defined.

(** ** An Allocate that nobody answers *)

(** The next tick happens when the client asked for it. *)
Definition tickOnTime (csprng : nat -> nat -> option bytes) : CM Z :=
  modify (fun s => s <| clock := nextTick_ s |>);; tick csprng.

Fixpoint ticksOnTime (csprng : nat -> nat -> option bytes) (n : nat) : CM unit :=
  match n with O => skip | S n => tickOnTime csprng;; ticksOnTime csprng n end.

(** Only an Allocate is in flight, sent [n] times again and due at [t]. *)
Record awaiting (s : Client) (k raw : bytes) (n t : Z) : Prop := {
  aw_state : state_ s = Allocating; aw_bindings : bindings_ s = []; aw_failed : failedEmitted_ s = false;
  aw_pending : exists at_, pending_ s = {[ k := mkPendingTx KAllocate emptyAddr at_ t n raw ]};
  aw_tick : nextTick_ s = t; aw_raw : raw <> [];
}.

(** What a client sends, besides the [k] sends before. *)
Definition resend (s : Client) (raw : bytes) : list Output :=
  if bool_decide (tc_transport (cfg_ s) = TurnUDP) && bool_decide (is_Some (sendRaw (sink_ s)))
  then [OSendRaw raw] else [].

Lemma entries_single k tx : entries {[ k := tx ]} = [k].
Proof.
  unfold entries. rewrite dom_singleton_L, elements_singleton. apply Permutation_singleton_r.
  apply merge_sort_Permutation.
Qed.

Lemma rawSend_run data s :
  exists r n, rawSend data s = Some (r, s <| sends := n |> <| outs := outs s ++
    (if bool_decide (is_Some (sendRaw (sink_ s))) then [OSendRaw data] else []) |>).
Proof.
  unfold rawSend, emit. run. destruct (sendRaw (sink_ s)) as [f|].
  - run. by do 2 eexists.
  - exists None, (sends s). cbn. rewrite app_nil_r. by destruct s.
Qed.

(** The transaction is sent again and waits longer. *)
Lemma serve_awaiting s k raw n t at_ :
  pending_ s = {[ k := mkPendingTx KAllocate emptyAddr at_ t n raw ]} -> 0 <= n < TurnMaxRtxCount -> raw <> [] ->
  t + rtxInterval (1 + n) < nextTick_ s ->
  exists m, serveAll t [k] s = Some (true, s <| sends := m |> <| outs := outs s ++ resend s raw |>
    <| pending_ := {[ k := mkPendingTx KAllocate emptyAddr at_ (t + rtxInterval (1 + n)) (1 + n) raw ]} |>
    <| nextTick_ := t + rtxInterval (1 + n) |>).
Proof.
  intros Hp Hn Hr Hmax. cbn [serveAll]. unfold serveTx. run. rewrite Hp.
  erewrite run_lift by apply lookup_singleton_eq. cbn [nextRetransmitAt retries rawBytes].
  rewrite Z.leb_refl. cbn [negb]. rewrite (proj2 (Z.leb_gt _ _)) by lia. run.
  rewrite negb_involutive. destruct raw as [|x raw]; [done|]. cbn [length Nat.eqb negb]. rewrite andb_true_r.
  unfold noteDeadline, resend.
  destruct (bool_decide (tc_transport (cfg_ s) = TurnUDP)); cbn [andb].
  - destruct (rawSend_run (x :: raw) s) as (r & m & E1). run.
    rewrite (run_bind _ _ _ _ _ E1). run. exists m. unfold field_update. cbn.
    rewrite Hp, insert_singleton_eq. by rewrite (proj2 (Z.ltb_lt _ _)).
  - run. exists (sends s). rewrite app_nil_r. unfold field_update. cbn.
    rewrite Hp, insert_singleton_eq. by rewrite (proj2 (Z.ltb_lt _ _)).
Qed.

(** With no binding and no allocation the rest of the tick only looks at the transaction. *)
Lemma tick_rest csprng s k tx t :
  bindings_ s = [] -> state_ s = Allocating -> pending_ s = {[ k := tx ]} -> nextTick_ s = nextRetransmitAt tx ->
  nextRetransmitAt tx < TimeMax ->
  exists g, (refreshDue csprng t;; nextDeadline) s = Some (nextRetransmitAt tx, s <| bindingsGen := g |>).
Proof.
  intros Hb Hst Hp Hn Hmax. unfold refreshDue, inState, forBindings, collectStale. run. rewrite Hst.
  rewrite bool_decide_false by done. cbn [andb]. run. rewrite Hb. cbn [length seq forM].
  run. rewrite Hb. cbn [length seq forM]. run. unfold nextDeadline, inState. run. upd.
  rewrite Hp, entries_single. cbn [forM]. run. erewrite run_lift by apply lookup_singleton_eq.
  unfold noteDeadline. run. upd. rewrite Hb. cbn [List.filter forM]. run. upd. rewrite Hst, bool_decide_false by done.
  run. upd. rewrite Hn, Z.ltb_irrefl. rewrite (proj2 (Z.eqb_neq _ _)) by lia.
  eexists. unfold field_update, mret, SM_ret. cbn. rewrite Hb. cbn.
  rewrite Hn, Z.ltb_irrefl, <- Hn. by do 2 f_equal.
Qed.

Lemma tick_awaiting csprng s k raw n t :
  awaiting s k raw n t -> 0 <= n < TurnMaxRtxCount -> t + rtxInterval (1 + n) < TimeMax ->
  exists s', tickOnTime csprng s = Some (t + rtxInterval (1 + n), s') /\
    awaiting s' k raw (1 + n) (t + rtxInterval (1 + n)) /\
    cfg_ s' = cfg_ s /\ sink_ s' = sink_ s /\ clock s' = t /\ outs s' = outs s ++ resend s raw.
Proof.
  intros [Hst Hb Hf [a0 Hp] Ht Hr] Hn Hmax. unfold tickOnTime, tick, now. run. upd.
  rewrite Hp, entries_single, Ht.
  destruct (serve_awaiting (s <| clock := t |> <| nextTick_ := TimeMax |>) k raw n t a0)
    as (m & E1); [done..|].
  rewrite (run_bind _ _ _ _ _ E1). cbn [negb].
  edestruct (tick_rest csprng) as (g & E2); [..|rewrite E2]; [done..|].
  eexists. split; [done|]. split; [|done]. constructor; try done. by eexists.
Qed.

(** After the last retransmission the client gives up. *)
Lemma tick_gives_up csprng s k raw t :
  awaiting s k raw TurnMaxRtxCount t ->
  exists s', tickOnTime csprng s = Some (TimeNone, s') /\ state_ s' = AllocFailed /\ pending_ s' = ∅ /\
    clock s' = t /\
    outs s' = outs s ++ (if onFailed (sink_ s) then [OFailed 0 (str "allocate timeout")] else []).
Proof.
  intros [Hst Hb Hf [a0 Hp] Ht Hr]. unfold tickOnTime, tick, now. run. upd. rewrite Hp, entries_single, Ht.
  cbn [serveAll]. unfold serveTx. run. upd. rewrite Hp. erewrite run_lift by apply lookup_singleton_eq.
  cbn [nextRetransmitAt retries]. rewrite Z.leb_refl. cbn [negb]. rewrite Z.leb_refl.
  unfold onTimeout. cbn [kind]. unfold failAllocation, callback, emit. run. upd. rewrite Hf. run. upd.
  destruct (onFailed (sink_ s)); cbn [when]; run; cbn [negb]; eexists; (split; [reflexivity|]);
    (split; [reflexivity|]); (split; [reflexivity|]); (split; [reflexivity|]); [reflexivity|].
  by rewrite app_nil_r.
Qed.

(** Without credentials a request is encoded as it is. *)
Lemma prepare_plain s m :
  creds_ s = None -> body_ok m ->
  prepareRequest m s = Some (mkMessage (method m) (cls m) (transactionID m) (attributes m)
    (frame (encodeType (method m) (cls m)) (transactionID m) (wireAttrs m None None software)), s).
Proof.
  intros Hc [Ht Ha]. unfold prepareRequest, encodeRequest, applyCredentials. run. rewrite Hc. run. rewrite Hc.
  cbn [hasUsername]. by rewrite encode_frame.
Qed.

(** The first Allocate of a client, without credentials. *)
Lemma allocate_first csprng cfg sink t :
  rng_ok csprng ->
  exists raw k s', allocate csprng (setClock t (newClient cfg sink)) = Some (tt, s') /\
    awaiting s' k raw 0 (t + TurnRtoMs) /\ cfg_ s' = cfg /\ sink_ s' = sink /\
    outs s' = if bool_decide (is_Some (sendRaw sink)) then [OSendRaw raw] else [].
Proof.
  intros Hrng. unfold allocate, inState, setState, newMessage, draw. run. upd. cbn [newClient state_ cfg_].
  rewrite bool_decide_true by done. cbn [negb]. run.
  set (m := addRequestedTransport _ _).
  assert (Hm : body_ok m).
  { apply body_add; [|apply sized_small; cbn; lia]. split; [|constructor]. cbn.
    destruct (csprng _ 12%nat) as [b|] eqn:E; [apply (Hrng _ _ _ E)|done]. }
  erewrite run_bind by by apply prepare_plain.
  set (raw := frame _ _ _). unfold registerTx, now. run. unfold sendPrepared. upd.
  match goal with |- context [(rawSend ?d ≫= _) ?s0] => destruct (rawSend_run d s0) as (r & n & E) end.
  rewrite (run_bind _ _ _ _ _ E). eexists raw, _, _. split; [reflexivity|].
  split; [|done]. constructor; try done. by eexists. 
Qed.

(** The time from the [n]-th retransmission to the [j]-th one after it. *)
Fixpoint waitSum (n : Z) (j : nat) : Z :=
  match j with O => 0 | S j => rtxInterval (1 + n) + waitSum (1 + n) j end.

Lemma waitSum_nonneg n j : 0 <= n -> 0 <= waitSum n j.
Proof.
  revert n. induction j as [|j IH]; intros n Hn; simpl; [done|]. specialize (IH (1 + n)).
  unfold rtxInterval, TurnRtoMs, TurnMaxRtxIntervalMs. assert (0 <= Z.shiftl 200 (1 + n)) by by apply Z.shiftl_nonneg.
  lia.
Qed.

Lemma ticks_awaiting csprng j s k raw n t :
  awaiting s k raw n t -> 0 <= n -> n + Z.of_nat j <= TurnMaxRtxCount -> t + waitSum n j < TimeMax ->
  exists s', ticksOnTime csprng j s = Some (tt, s') /\ awaiting s' k raw (n + Z.of_nat j) (t + waitSum n j) /\
    sink_ s' = sink_ s /\ outs s' = outs s ++ mjoin (replicate j (resend s raw)).
Proof.
  revert s n t. induction j as [|j IH]; intros s n t A Hn Hj Hm; cbn [waitSum ticksOnTime] in *.
  { exists s. rewrite !Z.add_0_r, app_nil_r. done. }
  pose proof (waitSum_nonneg (1 + n) j).
  destruct (tick_awaiting csprng s k raw n t A) as (s1 & E1 & A1 & Hc1 & Hk1 & _ & Ho1); [lia..|].
  destruct (IH s1 (1 + n) (t + rtxInterval (1 + n)) A1) as (s2 & E2 & A2 & Hk2 & Ho2); [lia..|].
  rewrite (run_bind _ _ _ _ _ E1). exists s2. split; [done|].
  split; [replace (n + Z.of_nat (S j)) with (1 + n + Z.of_nat j) by lia; by rewrite Z.add_assoc|].
  split; [congruence|]. rewrite Ho2, Ho1, <- app_assoc. unfold resend. by rewrite Hc1, Hk1.
Qed.

Lemma ticks_snoc csprng n s s1 :
  ticksOnTime csprng n s = Some (tt, s1) -> ticksOnTime csprng (S n) s = (tickOnTime csprng;; skip) s1.
Proof.
  revert s. induction n as [|n IH]; intros s; [by intros [= <-]|].
  change (ticksOnTime csprng (S n)) with (tickOnTime csprng;; ticksOnTime csprng n).
  change (ticksOnTime csprng (S (S n))) with (tickOnTime csprng;; ticksOnTime csprng (S n)).
  unfold mbind at 1 2, SM_bind at 1 2. destruct (tickOnTime csprng s) as [[z s0]|]; [|done]. apply IH.
Qed.

(** C16: an Allocate that nobody answers ends.  When a new client allocates and is woken at the
    times it asks for, it sends the same request at once and, over UDP, seven times more, over
    a stream never again; the waits double from 200 ms to at most 1600 ms.  After 9.4 seconds
    on both transports, not earlier and not later, it reports the failure once, has nothing in
    flight, and is in the failed state.  (The comment in the source puts the stream's clock at
    about TurnRtoMs * 2^7, 25.6 seconds; the cap of the waits makes it 9.4.) *)
Theorem unanswered_allocate_fails csprng cfg sink t :
  rng_ok csprng -> is_Some (sendRaw sink) -> onFailed sink = true -> t + 9400 < TimeMax ->
  exists raw s', (allocate csprng;; ticksOnTime csprng 8) (setClock t (newClient cfg sink)) = Some (tt, s') /\
    clock s' = t + 9400 /\ state_ s' = AllocFailed /\ pending_ s' = ∅ /\
    outs s' = OSendRaw raw ::
      (if bool_decide (tc_transport cfg = TurnUDP) then replicate 7 (OSendRaw raw) else []) ++
      [OFailed 0 (str "allocate timeout")].
Proof.
  intros Hrng Hs Hf Ht. destruct (allocate_first csprng cfg sink t Hrng) as (raw & k & s0 & E & A & Hc & Hk & Ho).
  destruct (ticks_awaiting csprng 7 s0 k raw 0 (t + TurnRtoMs) A) as (s1 & E1 & A1 & Hk1 & Ho1); [done|done| |].
  { change (waitSum 0 7) with 9200. unfold TurnRtoMs. lia. }
  destruct (tick_gives_up csprng s1 k raw _ A1) as (s2 & E2 & H1 & H2 & H3 & H4).
  exists raw, s2. rewrite (run_bind _ _ _ _ _ E), (ticks_snoc _ _ _ _ E1), (run_bind _ _ _ _ _ E2).
  split; [done|]. split; [rewrite H3; change (waitSum 0 7) with 9200; unfold TurnRtoMs; lia|].
  split; [done|]. split; [done|]. rewrite H4, Hk1, Hk, Hf, Ho1, Ho. unfold resend. rewrite Hc, Hk.
  rewrite (bool_decide_true (is_Some _)) by done. destruct (bool_decide (tc_transport cfg = TurnUDP)); reflexivity.
Qed.

Lemma unanswered_allocate_fails_witness :
  exists raw s', (allocate sampleRng;; ticksOnTime sampleRng 8) (setClock 1000 sampleClient) = Some (tt, s') /\
    clock s' = 1000 + 9400 /\ state_ s' = AllocFailed /\ pending_ s' = ∅ /\
    outs s' = OSendRaw raw :: replicate 7 (OSendRaw raw) ++ [OFailed 0 (str "allocate timeout")].
Proof.
  apply (unanswered_allocate_fails sampleRng sampleCfg sampleSink 1000);
    [exact sampleRng_ok | by eexists | reflexivity | reflexivity].
Defined.

(** ** Data that waits for a permission *)

Lemma rawSend_set data s f :
  sendRaw (sink_ s) = Some f ->
  rawSend data s = Some (Some (f (sends s) data),
    s <| sends := S (sends s) |> <| outs ::= (fun l => l ++ [OSendRaw data]) |>).
Proof. intros E. unfold rawSend, emit. run. rewrite E. by run. Qed.

Lemma deref_run s r b {B} (k : PeerBinding -> CM B) : valid s r b -> (deref r ≫= k) s = k b s.
Proof.
  intros [Hg Hb]. unfold deref. run. apply run_lift. by rewrite decide_True.
Qed.

(** The loop sends frames as long as the transport takes them. *)
Lemma flushLoop_frames csprng l s r b f :
  valid s r b -> channelReady b = true -> channelValid (channel b) = true -> Forall payload_ok l ->
  sendRaw (sink_ s) = Some f ->
  exists n m, flushLoop csprng r l s = Some (n, s <| sends := m |>
      <| outs ::= (fun o => o ++ ((fun p => OSendRaw (channelFrame (channel b) p)) <$> take (S n) l)) |>) /\
    (n <= length l)%nat /\
    (forall j pkt, (j < n)%nat -> l !! j = Some pkt -> 0 <= f (sends s + j)%nat (channelFrame (channel b) pkt)) /\
    (forall pkt, l !! n = Some pkt -> f (sends s + n)%nat (channelFrame (channel b) pkt) < 0).
Proof.
  intros Hv Hr Hc Hl Hf. revert s Hv Hf. induction Hl as [|pkt l Hp Hl IH]; intros s Hv Hf.
  { exists 0%nat, (sends s). cbn [flushLoop]. split; [|split; [done|split; [lia|done]]].
    unfold field_update, mret, SM_ret. cbn. rewrite app_nil_r. by destruct s. }
  cbn [flushLoop]. unfold flushOne. run. rewrite (deref_run _ _ _ _ Hv), Hr. run.
  rewrite (run_lift _ _ _ _ (wrapChannelData_frame _ _ [] Hc Hp)). cbn [fst snd].
  assert (Hlen : (length (channelFrame (channel b) pkt) =? 0)%nat = false)
    by (rewrite channelFrame_length by done; done).
  rewrite Hlen. run. rewrite (run_bind _ _ _ _ _ (rawSend_set _ _ _ Hf)). run. cbn [from_option id].
  set (s1 := s <| sends := S (sends s) |> <| outs ::= _ |>).
  destruct (Z.ltb_spec (f (sends s) (channelFrame (channel b) pkt)) 0) as [Hneg|Hpos]; cbn [negb].
  - exists 0%nat, (S (sends s)). split; [done|]. split; [simpl; lia|]. split; [lia|].
    intros q [= <-]. by rewrite Nat.add_0_r.
  - destruct (IH s1) as (n & m & E & Hn & Hacc & Href); [done|done|].
    rewrite (run_bind _ _ _ _ _ E). exists (S n), m. split; [|split; [simpl; lia|split]].
    + unfold s1, field_update, mret, SM_ret. cbn. by rewrite <- app_assoc.
    + intros [|j] q Hj; simpl; [intros [= <-]; by rewrite Nat.add_0_r|].
      rewrite Nat.add_succ_r. intros Hq. apply Hacc; [lia|done].
    + intros q Hq. rewrite Nat.add_succ_r. by apply Href.
Qed.

(** Data that waits is sent in order and nothing of it is lost.  When a binding with a
    channel flushes its queue, the packets go out as ChannelData frames of that channel, first
    in, first out, each once, up to the first the transport refuses.  Exactly the packets
    before it leave the queue; it and the ones behind it stay, in their order, and the result
    is their number. *)
Theorem buffered_data_in_order csprng s r b f :
  valid s r b -> channelReady b = true -> channelValid (channel b) = true ->
  Forall payload_ok (pendingData b) -> sendRaw (sink_ s) = Some f ->
  exists n s', flushPendingData csprng r s = Some ((length (pendingData b) - n)%nat, s') /\
    valid s' r (b <| pendingData := drop n (pendingData b) |>) /\
    outs s' = outs s ++ ((fun p => OSendRaw (channelFrame (channel b) p)) <$> take (S n) (pendingData b)) /\
    (forall j pkt, (j < n)%nat -> pendingData b !! j = Some pkt ->
       0 <= f (sends s + j)%nat (channelFrame (channel b) pkt)) /\
    (forall pkt, pendingData b !! n = Some pkt -> f (sends s + n)%nat (channelFrame (channel b) pkt) < 0).
Proof.
  intros Hv Hr Hc Hl Hf. unfold flushPendingData. rewrite (deref_run _ _ _ _ Hv).
  destruct (pendingData b) as [|x l] eqn:Ed.
  - exists 0%nat, s. split; [done|]. split; [|split; [by rewrite app_nil_r|split; [lia|done]]].
    cbn [drop]. rewrite <- Ed. by destruct b.
  - destruct (flushLoop_frames csprng (x :: l) s r b f) as (n & m & E & Hn & Hacc & Href); [done..|].
    run. rewrite Hf, (run_bind _ _ _ _ _ E). set (s1 := s <| sends := m |> <| outs ::= _ |>).
    exists n, (s1 <| bindings_ ::= <[r_idx r := b <| pendingData ::= drop n |>]> |>).
    unfold assign. run. rewrite (deref_run s1 r b) by done. split; [done|]. split; [|done].
    destruct Hv as [Hg Hb]. split; [done|]. cbn. unfold field_update. cbn. rewrite Ed.
    rewrite list_lookup_insert_eq; [done|]. by eapply lookup_lt_Some.
Qed.

Definition sampleQueue : Client :=
  sampleClient <| bindings_ := [newBinding samplePeer <| channel := 0x4001 |> <| channelReady := true |>
                                  <| pendingData := [[1; 2]; [3]; [4]] |>] |>
    <| sink_ := mkTurnSink (Some (fun k _ => if (k =? 1)%nat then -1 else 1)) true true true true true true |>.

Lemma buffered_data_in_order_witness :
  exists n s', flushPendingData sampleRng (mkRef 0 0) sampleQueue = Some ((3 - n)%nat, s') /\
    outs s' = (fun p => OSendRaw (channelFrame 0x4001 p)) <$> take (S n) [[1; 2]; [3]; [4]].
Proof.
  destruct (buffered_data_in_order sampleRng sampleQueue (mkRef 0 0)
    (newBinding samplePeer <| channel := 0x4001 |> <| channelReady := true |> <| pendingData := [[1; 2]; [3]; [4]] |>)
    (fun k _ => if (k =? 1)%nat then -1 else 1)) as (n & s' & H1 & _ & H2 & _);
    [split; reflexivity | reflexivity | reflexivity | by apply (bool_decide_unpack _), I | reflexivity|].
  exists n, s'. exact (conj H1 H2).
Defined.
