(* ===== verification/TurnPair.v ===== *)
(** * A TURN client and a TURN server

    The two programs together: the client's first Allocate is challenged by the server, the
    client answers the challenge, the server accepts the credentials and allocates a relay,
    and the client ends up with the relayed address the server reserved for it.  Datagrams
    are handed from one model to the other byte for byte. *)

From S2P Require Import Prelude.
From S2P Require Import StateMonad.
From S2P Require Import Bytes.
From S2P Require Import Crypto.
From S2P Require Import Addr.
From S2P Require Import StunMessage.
From S2P Require Import StunAttributes.
From S2P Require Import ChannelData.
From S2P Require Import StunConn.
From S2P Require Import TcpWriter.
From S2P Require Import TurnState.
From S2P Require Import TurnCore.
From S2P Require Import TurnHandlers.
From S2P Require Import TurnServer.
From S2P Require Import TurnInv.
From S2P Require Import TurnGrants.
From S2P Require Import TurnSafe.
From S2P Require Import TurnRequests.
From S2P Require Import TurnLinks.
From S2P Require Import TurnSteps.
From S2P Require Import TurnRun.
From S2P Require Import TurnManage.
From S2P Require Import TurnTypes.
From S2P Require Import TurnClient.
From S2P Require Import TurnClientInv.
From S2P Require Import TurnClientSafe.
From S2P Require Import TurnClientSteps.
From S2P Require Import TurnClientTheorems.
From S2P Require Import TurnWire.
Open Scope Z_scope.
Open Scope c_scope.

(** ** The messages *)

Definition shortStr (s : string) : Prop := short (bytes_of_string s).

(** The client's Allocate, before credentials are added. *)
Definition allocReq (k : bytes) (proto : Z) : Message :=
  addRequestedTransport (mkMessage Method.Allocate Request k [] []) proto.

(** The bytes of a message. *)
Definition wire (m : Message) (pw : option bytes) (creds : option Credentials) (software : option bytes) : bytes :=
  frame (encodeType (method m) (cls m)) (transactionID m) (wireAttrs m pw creds software).

(** The server's answer to a request without credentials. *)
Definition challenge (E : Env) (nonce : string) (req : Message) : Message :=
  addString (addString (errorBody req StunErrorUnauthenticated) AttrType.Realm (bytes_of_string (realm_ E)))
    AttrType.Nonce (bytes_of_string nonce).

Lemma clientSoftware_short : match TurnClient.software with Some s => short s | None => True end.
Proof. split; [vm_compute; lia|apply bytes_of_string_ok]. Qed.

Lemma serverSoftware_short : match TurnCore.software with Some s => short s | None => True end.
Proof. split; [vm_compute; lia|apply bytes_of_string_ok]. Qed.

Lemma allocReq_short k proto creds :
  tid_ok k -> is_byte proto ->
  match creds with
  | Some c => short (cr_username c) /\ short (cr_realm c) /\ short (cr_nonce c)
  | None => True
  end -> short_msg (allocReq k proto) creds TurnClient.software.
Proof.
  intros Hk Hp Hc. constructor; [done|done| |cbn; lia|done|apply clientSoftware_short].
  apply Forall_singleton. split; [done|]. split; [cbn; lia|].
  repeat constructor; cbn; try done; apply Hp || (unfold fits; lia).
Qed.

Lemma challenge_short E nonce req :
  fits 12 (method req) -> tid_ok (transactionID req) -> shortStr (realm_ E) -> shortStr nonce ->
  short_msg (challenge E nonce req) None TurnCore.software.
Proof.
  intros Hm Ht Hr Hn. constructor; [done|done| |cbn; lia|done|apply serverSoftware_short].
  unfold challenge, errorBody, addErrorCode, addString. cbn [addAttribute attributes app length Nat.eqb].
  repeat (apply Forall_cons; split); [| | |constructor].
  - split; [done|]. split; [vm_compute; lia|]. by apply (bool_decide_unpack _); vm_compute.
  - by split.
  - by split.
Qed.

Section Server.
Context (E : Env).

Lemma withAuth_denied msg src tc h s s' code u :
  authenticate E msg s = Some ((code, u), s') -> code <> 0 ->
  withAuth E msg src tc h s = sendAuthErrorResponse E tc src msg code s'.
Proof.
  intros Ha Hc. unfold withAuth. rewrite (run_bind _ _ _ _ _ Ha). cbv beta iota.
  by rewrite (proj2 (Z.eqb_neq _ _) Hc).
Qed.

Lemma withAuth_passed msg src tc h s s' u :
  authenticate E msg s = Some ((0, u), s') -> withAuth E msg src tc h s = h s'.
Proof. intros Ha. unfold withAuth. by rewrite (run_bind _ _ _ _ _ Ha). Qed.

Lemma authenticate_plain msg s :
  find msg AttrType.MessageIntegrity = None ->
  authenticate E msg s = Some ((StunErrorUnauthenticated, EmptyString), s).
Proof. intros Hf. unfold authenticate. by rewrite Hf. Qed.

(** A datagram that holds a message sent by the client. *)
Lemma udp_received m pw creds sw src s :
  short_msg m creds sw ->
  handleUdpPacket E (wire m pw creds sw) src s
  = dispatchStun E (received m pw creds sw) src None (allocations_ (tabs s) !! allocKey E SOCK_DGRAM src) s.
Proof.
  intros Hm. destruct (received_decoded m pw creds sw Hm) as (D1 & D2 & D3 & _).
  unfold handleUdpPacket, wire. rewrite (run_lift _ _ _ _ D1), (run_lift _ _ _ _ D2). cbn [negb].
  by rewrite (run_lift _ _ _ _ D3).
Qed.

(** An Allocate from a client without an allocation. *)
Lemma dispatch_allocate msg src s :
  cls msg = Request -> method msg = Method.Allocate ->
  dispatchStun E msg src None None s = withAuth E msg src None (handleAllocate E msg src None) s.
Proof. intros Hc Hm. unfold dispatchStun. by rewrite Hc, Hm. Qed.

(** A reply over UDP is sent at once. *)
Lemma reply_raw m src s :
  raw m <> [] -> reply E None src m s = Some (tt, add_outs [OUdp src (raw m)] s).
Proof. intros Hm. unfold reply, sendUdp. by destruct (raw m). Qed.

Lemma reply_short m pw creds src s :
  short_msg m creds TurnCore.software ->
  (resp ← lift (encode m pw creds TurnCore.software); reply E None src resp) s
  = Some (tt, add_outs [OUdp src (wire m pw creds TurnCore.software)] s).
Proof.
  intros Hm. rewrite (run_lift _ _ _ _ (encode_short m pw creds _ Hm)).
  by rewrite reply_raw by apply (received_decoded m pw creds TurnCore.software Hm).
Qed.

(** An Allocate without credentials, from a client with no allocation, is challenged. *)
Lemma server_challenges sv src k proto :
  allocations_ (tabs sv) !! allocKey E SOCK_DGRAM src = None ->
  tid_ok k -> is_byte proto -> shortStr (realm_ E) -> shortStr (nonce_ sv) ->
  handleUdpPacket E (wire (allocReq k proto) None None TurnClient.software) src sv
  = Some (tt, add_outs [OUdp src (wire (challenge E (nonce_ sv) (allocReq k proto)) None None TurnCore.software)] sv).
Proof.
  intros Hno Hk Hp Hr Hn. rewrite udp_received, Hno, dispatch_allocate by (try done; by apply allocReq_short).
  rewrite (withAuth_denied _ _ _ _ _ sv StunErrorUnauthenticated EmptyString) by (try done; by apply authenticate_plain).
  unfold sendAuthErrorResponse. run.
  apply (reply_short (challenge E (nonce_ sv) (allocReq k proto)) None None). by apply challenge_short.
Qed.
(** The integrity attribute is there. *)
Lemma received_integrity m p creds sw :
  cls m <> Indication -> is_Some (find (received m (Some p) creds sw) AttrType.MessageIntegrity).
Proof.
  intros Hc. unfold find, received, wireAttrs, encAttrsMi. cbn [attributes].
  rewrite (decide_False (P := cls m = Indication)) by done. rewrite <- app_assoc.
  generalize (encAttrs m (Some p) creds sw) at 1. intros l. induction l as [|a l IH]; [by eexists|].
  cbn [app find_attr]. destruct (_ =? _); [by eexists|done].
Qed.

(** A request signed for the server's current nonce by a user it knows is accepted. *)
Lemma authenticate_accepts m p cr sw user pw s :
  short_msg m (Some cr) sw -> cls m <> Indication ->
  Forall (fun a => cred_type (atype a) = false /\ atype a <> AttrType.MessageIntegrity) (attributes m) ->
  cr_username cr = bytes_of_string user -> users_ E !! user = Some pw ->
  cr_nonce cr = bytes_of_string (nonce_ s) -> TurnState.clock s < nonceExpiryMs_ s ->
  cr_key cr = longTermKey user (string_of_bytes (cr_realm cr)) pw ->
  authenticate E (received m (Some p) (Some cr) sw) s = Some ((0, user), s).
Proof.
  intros Hm Hc Ha Hu Hpw Hn Hx Hk. unfold authenticate.
  destruct (received_integrity m p (Some cr) sw Hc) as [a ->]. unfold nowMs. run.
  rewrite (proj2 (Z.leb_gt _ _) Hx). run.
  destruct (getString_creds m p cr sw Hc) as (G1 & G2 & G3); [by eapply Forall_impl; [exact Ha|intros ? []]|].
  unfold getStr. rewrite G1, G2, G3, Hu, Hn, !string_bytes, bool_decide_true by done. cbn [negb]. rewrite Hpw.
  assert (Hi : integrityKey p (Some cr) = longTermKey user (string_of_bytes (cr_realm cr)) pw).
  { unfold integrityKey. rewrite Hk, (proj1 (longTermKey_ok _ _ _)). done. }
  assert (Hne : Forall (fun a => atype a <> AttrType.MessageIntegrity) (attributes m))
    by (eapply Forall_impl; [exact Ha|by intros ? []]).
  pose proof (checkIntegrity_encoded m p (Some cr) sw (received m (Some p) (Some cr) sw)
    (longTermKey user (string_of_bytes (cr_realm cr)) pw) false (short_enc_ok _ _ _ _ Hm) Hc Hne eq_refl) as Hchk.
  cbv zeta in Hchk. rewrite Hi, bool_decide_true in Hchk by reflexivity. by rewrite (run_lift _ _ _ _ Hchk).
Qed.

(** Registering an allocation whose key is free. *)
Lemma registerAllocation_run key src viaTcp x s :
  allocations_ (tabs s) !! key = None ->
  registerAllocation key src viaTcp x s
  = Some (nextAlloc (tabs s), add_outs (if transport x =? SOCK_DGRAM then [OAddRelay (relaySock x)] else [])
                                (set_tabs (registerTabs key src viaTcp x) s)).
Proof.
  intros Hk. unfold registerAllocation, eraseAllocation, findAlloc, TurnState.emit, registerTabs. run.
  destruct (transport x =? SOCK_DGRAM), (viaTcp && negb (controlSock x =? STICE_INVALID_SOCKET));
    run; cbn; rewrite Hk; run; cbn; rewrite ?insert_insert_eq; do 2 f_equal; unfold add_outs, set_tabs; cbn;
    rewrite ?app_nil_r; try done.
  unfold mret, SM_ret, set_controlMap, set_allocations. cbn. by rewrite insert_insert_eq.
Qed.

(** The answer to a successful Allocate, and the credentials that sign it. *)
Definition grant (req : Message) (src relayed : AddrRecord) : Message :=
  mkMessage Method.Allocate SuccessResponse (transactionID req)
    [mkAttr AttrType.XorRelayedAddress (encodeXorAddr relayed (transactionID req));
     mkAttr AttrType.XorMappedAddress (encodeXorAddr src (transactionID req));
     mkAttr AttrType.Lifetime (writeU32Be (allocationLifetime_ E))] [].

Definition serverCreds (nonce user pw : string) : Credentials :=
  mkCreds (bytes_of_string user) (bytes_of_string (realm_ E)) (bytes_of_string nonce)
    (longTermKey user (realm_ E) pw).

Lemma grant_short req src relayed nonce user pw :
  tid_ok (transactionID req) -> sockaddr_ok (addr src) -> sockaddr_ok (addr relayed) ->
  shortStr user -> shortStr (realm_ E) -> shortStr nonce ->
  short_msg (grant req src relayed) (Some (serverCreds nonce user pw)) TurnCore.software.
Proof.
  intros Ht Hs Hr Hu Hrl Hn. constructor; [done|done| |cbn; lia|done|apply serverSoftware_short].
  destruct (encodeXorAddr_ok src _ Hs Ht) as [S1 S2]. destruct (encodeXorAddr_ok relayed _ Hr Ht) as [R1 R2].
  repeat (apply Forall_cons; split); [| | |constructor]; (split; [done|]); split; cbn [value]; try done; try lia;
    [cbn; lia|apply writeU32Be_ok].
Qed.

Lemma relayed_dgram port :
  dgram_addr (mkAddrRecord (relayIpAddr_ E) (relayIpLen_ E) SOCK_DGRAM) -> fits 16 port ->
  dgram_addr (buildRelayedAddr E port).
Proof.
  intros (H1 & H2 & H3 & _) Hp. unfold buildRelayedAddr, dgram_addr. cbn in *.
  destruct (relayIpAddr_ E); cbn in *; [| |done]; (split; [|done]); by destruct H1.
Qed.

Lemma withXor_spec m ty r tid : dgram_addr r -> withXor m ty r tid = addAttribute m ty (encodeXorAddr r tid).
Proof. apply (addXor_spec ty tid m r). Qed.

(** An authenticated Allocate for a UDP relay is granted. *)
Lemma server_grants req src s user pw p0 rt v :
  env_ok E -> srv_ok E s -> allocations_ (tabs s) !! allocKey E SOCK_DGRAM src = None ->
  find req AttrType.RequestedTransport = Some rt -> value rt = 17 :: v ->
  method req = Method.Allocate -> tid_ok (transactionID req) -> dgram_addr src ->
  getStr req AttrType.Username = user -> users_ E !! user = Some pw ->
  shortStr user -> shortStr (realm_ E) -> shortStr (nonce_ s) ->
  dgram_addr (mkAddrRecord (relayIpAddr_ E) (relayIpLen_ E) SOCK_DGRAM) ->
  Z.of_nat (size (allocations_ (tabs s))) < maxAllocations_ E ->
  portRange (tabs s) p0 -> usedRelayPorts_ (tabs s) !! p0 = None -> (forall k p, is_Some (udpBind E k p)) ->
  exists s' x, handleAllocate E req src None s = Some (tt, s') /\
    allocations_ (tabs s') !! allocKey E SOCK_DGRAM src = Some (nextAlloc (tabs s)) /\
    heap (tabs s') !! nextAlloc (tabs s) = Some x /\
    clientAddr x = src /\ username x = user /\ relayedAddr x = buildRelayedAddr E (relayPort x) /\
    dgram_addr (relayedAddr x) /\ usedRelayPorts_ (tabs s') !! relayPort x = Some (Some (nextAlloc (tabs s))) /\
    expiryMs x = TurnState.clock s + allocationLifetime_ E * 1000 /\
    TurnState.outs s' = TurnState.outs s ++ [OAddRelay (relaySock x);
      OUdp src (wire (grant req src (relayedAddr x)) (Some []) (Some (serverCreds (nonce_ s) user pw)) TurnCore.software)].
Proof.
  intros HE Hs Hno Hrt Hv Hmeth Ht Hsrc Hu Hpw S1 S2 S3 Hrel Hq Hr Hf Hb.
  unfold handleAllocate. rewrite Hrt, Hv. run. rewrite (proj2 (Z.leb_gt _ _) Hq).
  destruct (wp_allocateRelay E HE s 17 Hs) as (r & s1 & E1 & H1).
  destruct r as [code|[port rsock]]; [by destruct (allocateRelay_free E s 17 p0 HE Hs Hr Hf Hb code s1)|].
  rewrite (run_bind _ _ _ _ _ E1). cbv beta iota.
  destruct H1 as (Hs1 & C1 & K1 & N1 & O1 & M1 & Hport & Hrng). unfold nowMs. run.
  change (17 =? 6) with false. cbv iota. rewrite Hu. unfold sendSuccessResponse. rewrite Hpw. run.
  assert (Hp16 : fits 16 port).
  { destruct (so_range _ _ Hs) as [R1 R2]. unfold portRange in Hrng. unfold fits. pow2_norm. lia. }
  pose proof (relayed_dgram port Hrel Hp16) as Hrd.
  set (resp := mkMessage (method req) SuccessResponse _ _ _).
  assert (Hresp : resp = grant req src (buildRelayedAddr E port)).
  { unfold resp. rewrite !withXor_spec by done. by rewrite Hmeth. }
  clearbody resp. subst resp.
  assert (Hshort : short_msg (grant req src (buildRelayedAddr E port))
    (Some (serverCreds (nonce_ s1) user pw)) TurnCore.software)
    by (apply grant_short; [done|apply Hsrc|apply Hrd|done|done|by rewrite N1]).
  rewrite (run_lift _ _ _ _ (encode_short _ (Some []) _ _ Hshort)).
  rewrite (run_bind _ _ _ _ _ (registerAllocation_run (allocKey E SOCK_DGRAM src) src false _ s1
    ltac:(by rewrite (sm_allocs _ _ M1)))).
  rewrite reply_raw by apply (received_decoded _ (Some []) _ _ Hshort).
  eexists _, _. split; [reflexivity|]. cbn [tabs set_tabs add_outs registerTabs allocations_ heap usedRelayPorts_].
  rewrite (sm_next _ _ M1). split; [apply lookup_insert_eq|]. split; [apply lookup_insert_eq|].
  cbn [clientAddr username relayedAddr relayPort expiryMs relaySock]. rewrite K1, N1.
  repeat (split; [done|]). split; [apply lookup_insert_eq|]. split; [done|].
  injection O1 as O1 _ _. rewrite <- O1. exact (eq_sym (app_assoc _ [_] [_])).
Qed.
End Server.

(** ** The client *)

Section Client.
Context (csprng : nat -> nat -> option bytes).
Context (Hrng : rng_ok csprng).

(** The client has sent its Allocate, with transaction id [k], and waits. *)
Record asked (s s' : Client) (k : bytes) (data : bytes) (cr : option Credentials) : Prop := {
  as_state : state_ s' = Allocating; as_creds : creds_ s' = cr; as_cfg : cfg_ s' = cfg_ s;
  as_sink : sink_ s' = sink_ s; as_clock : clock s' = clock s; as_retries : nonceRetries_ s' = nonceRetries_ s;
  as_failed : failedEmitted_ s' = failedEmitted_ s;
  as_pending : exists tx, kind tx = KAllocate /\ pending_ s' = <[k := tx]> (pending_ s);
  as_outs : outs s' = outs s ++ [OSendRaw data];
}.

(** The credentials the client answers a challenge with. *)
Definition clientCreds (cfg : TurnConfig) (realm nonce : string) : Credentials :=
  mkCreds (bytes_of_string (tc_username cfg)) (bytes_of_string realm) (bytes_of_string nonce)
    (longTermKey (tc_username cfg) realm (tc_password cfg)).

Definition signing (cfg : TurnConfig) (o : option (string * string)) : option Credentials :=
  (fun p => clientCreds cfg p.1 p.2) <$> o.
Definition signingPw (cfg : TurnConfig) (o : option (string * string)) : option bytes :=
  (fun _ => c_str (tc_password cfg)) <$> o.

Lemma prepare_short s m o :
  match creds_ s with
  | Some c => exists realm nonce key, o = Some (realm, nonce) /\
      c = mkCreds (bytes_of_string (tc_username (cfg_ s))) (bytes_of_string realm) (bytes_of_string nonce) key
  | None => o = None
  end ->
  tc_username (cfg_ s) <> EmptyString -> short_msg m (signing (cfg_ s) o) TurnClient.software ->
  prepareRequest m s = Some (mkMessage (method m) (cls m) (transactionID m) (attributes m)
    (wire m (signingPw (cfg_ s) o) (signing (cfg_ s) o) TurnClient.software), s <| creds_ := signing (cfg_ s) o |>).
Proof.
  intros Hc Hu Hm. unfold prepareRequest, encodeRequest, applyCredentials. run.
  destruct (creds_ s) as [c|] eqn:Ec.
  - destruct Hc as (realm & nonce & key & -> & ->). cbn [hasUsername cr_username].
    assert (Hl : (length (bytes_of_string (tc_username (cfg_ s))) =? 0)%nat = false).
    { destruct (tc_username (cfg_ s)); [done|]. by cbn. }
    rewrite Hl. cbn [negb when cr_realm cr_nonce]. rewrite !string_bytes. run. cbn [hasUsername].
    unfold field_update. cbn [creds_ hasUsername cr_username cfg_]. rewrite Hl. cbn [negb].
    pose proof (encode_short _ (Some (c_str (tc_password (cfg_ s)))) _ _ Hm) as He.
    match goal with |- context [encode m ?a ?b ?c] => change (encode m a b c)
      with (encode m (Some (c_str (tc_password (cfg_ s)))) (signing (cfg_ s) (Some (realm, nonce))) c) end.
    unfold lift. by rewrite He.
  - subst o. run. rewrite Ec. cbn [hasUsername]. unfold lift.
    rewrite (encode_short _ None None _ Hm). do 2 f_equal. destruct s; cbn in *. by subst.
Qed.

Lemma allocate_run s o :
  state_ s = AllocIdle -> is_Some (sendRaw (sink_ s)) -> tcpAllocation (cfg_ s) = false ->
  match creds_ s with
  | Some c => exists realm nonce key, o = Some (realm, nonce) /\
      c = mkCreds (bytes_of_string (tc_username (cfg_ s))) (bytes_of_string realm) (bytes_of_string nonce) key
  | None => o = None
  end ->
  tc_username (cfg_ s) <> EmptyString -> shortStr (tc_username (cfg_ s)) ->
  match o with Some (realm, nonce) => shortStr realm /\ shortStr nonce | None => True end ->
  exists k s', allocate csprng s = Some (tt, s') /\ tid_ok k /\
    asked s s' k (wire (allocReq k 17) (signingPw (cfg_ s) o) (signing (cfg_ s) o) TurnClient.software)
      (signing (cfg_ s) o).
Proof.
  intros Hst Hsend Htcp Hc Hu Hus Hsh. unfold allocate, inState, setState, newMessage, draw, now. run.
  rewrite bool_decide_true by done. cbn [negb]. run.
  set (k := default (replicate 12 0) (csprng (draws s) 12%nat)).
  assert (Hk : tid_ok k).
  { unfold k. destruct (csprng _ 12%nat) as [b|] eqn:Eb; [apply (Hrng _ _ _ Eb)|]. by split; [|apply Forall_replicate]. }
  match goal with |- context [prepareRequest ?m] =>
    change m with (allocReq k (if tcpAllocation (cfg_ s) then 6 else 17)) end.
  match goal with |- context [(prepareRequest _ ≫= _) ?s0] => set (s1 := s0);
    assert (H1 : state_ s1 = Allocating /\ creds_ s1 = creds_ s /\ cfg_ s1 = cfg_ s /\ sink_ s1 = sink_ s /\
      clock s1 = clock s /\ nonceRetries_ s1 = nonceRetries_ s /\ failedEmitted_ s1 = failedEmitted_ s /\
      pending_ s1 = pending_ s /\ outs s1 = outs s) by done; clearbody s1 end.
  destruct H1 as (H1 & H2 & H3 & H4 & H5 & H6 & H7 & H8 & H9). rewrite Htcp. clearbody k. exists k.
  rewrite <- H2, <- H3 in *.
  erewrite run_bind; [|apply (prepare_short _ _ o Hc Hu)];
    [|apply allocReq_short; [done|done|]; destruct o as [[realm nonce]|]; [split; [done|exact Hsh]|done]].
  unfold registerTx, now, sendPrepared. cbn [transactionID raw]. set (data := wire _ _ _ _). clearbody data. run.
  match goal with |- context [(rawSend ?d ≫= _) ?s0] => set (s2 := s0);
    assert (A : state_ s2 = Allocating /\ creds_ s2 = signing (cfg_ s1) o /\ cfg_ s2 = cfg_ s1 /\ sink_ s2 = sink_ s1 /\
      clock s2 = clock s1 /\ nonceRetries_ s2 = nonceRetries_ s1 /\ failedEmitted_ s2 = failedEmitted_ s1 /\
      (exists tx, kind tx = KAllocate /\ pending_ s2 = <[k := tx]> (pending_ s1)) /\ outs s2 = outs s1)
      by (do 7 (split; [done|]); split; [by eexists; split; [|reflexivity]|done]); clearbody s2;
    destruct (rawSend_run d s2) as (r & n & E) end.
  destruct A as (A1 & A2 & A3 & A4 & A5 & A6 & A7 & A8 & A9).
  rewrite (run_bind _ _ _ _ _ E). clear E. eexists. split; [reflexivity|]. split; [done|].
  rewrite A4, H4, bool_decide_true by done.
  constructor; [done|done|exact (eq_trans A3 H3)|exact (eq_trans A4 H4)|exact (eq_trans A5 H5)|exact (eq_trans A6 H6)
    |exact (eq_trans A7 H7)|rewrite <- H8; exact A8|rewrite <- H9, <- A9; reflexivity].
Qed.

(** A response to the Allocate in flight. *)
Lemma client_received m pw creds sw s tx :
  short_msg m creds sw -> isResponseType (cls m) = true -> pending_ s !! transactionID m = Some tx ->
  kind tx = KAllocate -> (cls m = ErrorResponse -> is_Some (readErrorCode (received m pw creds sw))) ->
  handleInbound csprng (Some (wire m pw creds sw)) s
  = handleAllocateResponse csprng (received m pw creds sw) (bool_decide (cls m = ErrorResponse))
      (s <| pending_ ::= delete (transactionID m) |>).
Proof.
  intros Hm Hc Hp Hk He. destruct (received_decoded m pw creds sw Hm) as (D1 & D2 & D3 & _).
  unfold handleInbound, wire. rewrite (run_lift _ _ _ _ D1), (run_lift _ _ _ _ D2). cbn [negb].
  rewrite (run_lift _ _ _ _ D3). cbv beta iota. cbn [negb]. set (d := received m pw creds sw) in *.
  change (cls d) with (cls m). rewrite Hc. unfold handleStunResponse. run.
  change (transactionID d) with (transactionID m). rewrite Hp, Hk. cbv zeta. change (cls d) with (cls m).
  case_bool_decide as Ec; [|done]. destruct (He Ec) as [e Hee]. unfold errorOf.
  rewrite !run_assoc, (run_lift _ _ _ _ Hee). done.
Qed.

(** The first challenge is noted. *)
Lemma challenge_noted msg s :
  creds_ s = None -> nonceRetries_ s = 0 ->
  handleAuthError msg 401 false s = Some (true, s <| nonceRetries_ := 1 |>
    <| creds_ := Some (mkCreds (bytes_of_string (tc_username (cfg_ s))) (getString msg AttrType.Realm)
         (getString msg AttrType.Nonce) []) |>).
Proof. intros Hc Hn. unfold handleAuthError. run. rewrite Hc, Hn. done. Qed.

(** The challenge makes the client allocate again, with the realm and the nonce it was sent. *)
Lemma client_challenged E nonce req s tx :
  fits 12 (method req) -> tid_ok (transactionID req) -> shortStr (realm_ E) -> shortStr nonce ->
  pending_ s !! transactionID req = Some tx -> kind tx = KAllocate ->
  creds_ s = None -> nonceRetries_ s = 0 ->
  handleInbound csprng (Some (wire (challenge E nonce req) None None TurnCore.software)) s
  = allocate csprng (s <| pending_ ::= delete (transactionID req) |> <| nonceRetries_ := 1 |>
      <| creds_ := Some (mkCreds (bytes_of_string (tc_username (cfg_ s))) (bytes_of_string (realm_ E))
           (bytes_of_string nonce) []) |> <| state_ := AllocIdle |>).
Proof.
  intros Hme Ht Hr Hn Hp Hk Hc Hz.
  assert (Herr : exists reason, readErrorCode (received (challenge E nonce req) None None TurnCore.software)
                   = Some (Some (401, reason))).
  { unfold readErrorCode.
    rewrite (find_received (challenge E nonce req) TurnCore.software AttrType.ErrorCode
      (mkAttr AttrType.ErrorCode (error_val (401, [])))) by done. by eexists. }
  destruct Herr as [reason Herr].
  rewrite (client_received _ None None TurnCore.software s tx (challenge_short E nonce req Hme Ht Hr Hn)) by (done || by eexists).
  change (bool_decide (cls (challenge E nonce req) = ErrorResponse)) with true.
  unfold handleAllocateResponse, errorOf, setState. run. rewrite (run_lift _ _ _ _ Herr). run.
  change (default (0, []) (Some (401, reason))) with (401, reason). cbv beta iota.
  change ((401 =? StunErrorUnauthenticated) || (401 =? StunErrorStaleNonce)) with true. cbv iota.
  erewrite run_bind by by apply challenge_noted. cbv iota. run. unfold getString.
  rewrite (find_received (challenge E nonce req) _ AttrType.Realm (mkAttr AttrType.Realm (bytes_of_string (realm_ E)))) by done.
  rewrite (find_received (challenge E nonce req) _ AttrType.Nonce (mkAttr AttrType.Nonce (bytes_of_string nonce))) by done.
  done.
Qed.

Lemma scheduleRefresh_run lt s :
  exists n t, scheduleRefresh csprng lt s = Some (tt, s <| draws := n |> <| refreshAt_ := t |>).
Proof.
  unfold scheduleRefresh, draw, now. destruct (10 <? lt); run; [by do 2 eexists|].
  exists (draws s). eexists. by destruct s.
Qed.

(** The grant ends the wait: the client knows its relayed address and its lifetime. *)
Lemma client_granted E req src relayed pw cr s tx :
  short_msg (grant E req src relayed) (Some cr) TurnCore.software -> dgram_addr relayed ->
  fits 32 (allocationLifetime_ E) -> onAllocated (sink_ s) = true ->
  pending_ s !! transactionID req = Some tx -> kind tx = KAllocate ->
  exists s', handleInbound csprng (Some (wire (grant E req src relayed) pw (Some cr) TurnCore.software)) s = Some (tt, s') /\
    state_ s' = Allocated /\ relayedAddr_ s' = relayed /\ lifetime_ s' = allocationLifetime_ E /\
    nonceRetries_ s' = 0 /\ pending_ s' = delete (transactionID req) (pending_ s) /\
    outs s' = outs s ++ [OAllocated relayed (allocationLifetime_ E)].
Proof.
  intros Hm Hr Hl Hon Hp Hk. pose proof (sm_tid _ _ _ Hm : tid_ok (transactionID req)) as Ht.
  rewrite (client_received _ pw (Some cr) TurnCore.software s tx Hm) by done.
  change (bool_decide (cls (grant E req src relayed) = ErrorResponse)) with false.
  set (d := received _ _ _ _).
  assert (Hx : readXorAddress d AttrType.XorRelayedAddress (transactionID d) = Some (Some relayed)).
  { apply readXor_spec; [done|done|]. by apply find_on_wire. }
  assert (Hlt : readLifetime d = Some (Some (allocationLifetime_ E))).
  { apply (wa_rd (add := addLifetime)); [done|]. by apply find_on_wire. }
  clearbody d. unfold handleAllocateResponse. run. rewrite (run_lift _ _ _ _ Hx). run. unfold lifetimeOf. run.
  rewrite (run_lift _ _ _ _ Hlt). run. change (default _ (Some ?x)) with x.
  match goal with |- context [(scheduleRefresh _ _ ≫= _) ?s0] => set (s2 := s0);
    assert (A : state_ s2 = Allocated /\ relayedAddr_ s2 = relayed /\ lifetime_ s2 = allocationLifetime_ E /\
      sink_ s2 = sink_ s /\ nonceRetries_ s2 = 0 /\ pending_ s2 = delete (transactionID req) (pending_ s) /\
      outs s2 = outs s) by done; clearbody s2 end.
  destruct A as (A1 & A2 & A3 & A4 & A5 & A6 & A7).
  destruct (scheduleRefresh_run (allocationLifetime_ E) s2) as (n & t & E2). rewrite (run_bind _ _ _ _ _ E2).
  unfold callback. run. change (sink_ (s2 <| draws := n |> <| refreshAt_ := t |>)) with (sink_ s2). rewrite A4, Hon.
  eexists. split; [reflexivity|]. rewrite <- A7. do 5 (split; [done|]). done.
Qed.
End Client.

(** ** The two together *)

(** What the client hands to its transport, and what the server sends to [src]. *)
Definition sent (l : list TurnClient.Output) : list bytes :=
  omap (fun o => match o with OSendRaw d => Some d | _ => None end) l.
Definition answers (src : AddrRecord) (l : list TurnState.Output) : list bytes :=
  omap (fun o => match o with OUdp dst d => if decide (dst = src) then Some d else None | _ => None end) l.

(** Every datagram the client has sent reaches the server, in order, and every answer the
    client. *)
Definition roundTrip (rng : nat -> nat -> option bytes) (E : Env) (src : AddrRecord) (p : Client * Srv)
    : option (Client * Srv) :=
  let '(c, sv) := p in
  r ← forM (sent (outs c)) (fun d => handleUdpPacket E d src) sv;
  let sv' : Srv := r.2 in
  q ← forM (answers src (drop (length (TurnState.outs sv)) (TurnState.outs sv')))
        (fun d => handleInbound rng (Some d)) (c <| outs := [] |>);
  Some (q.2, sv').

(** A new client at [src] allocates, and two round trips take place. *)
Definition handshake (rng : nat -> nat -> option bytes) (cfg : TurnConfig) (sink : TurnSink) (t : Z)
    (E : Env) (src : AddrRecord) (sv : Srv) : option (Client * Srv) :=
  r ← allocate rng (setClock t (newClient cfg sink));
  p ← roundTrip rng E src (r.2, sv);
  roundTrip rng E src p.

(** The server can serve one more client with these credentials. *)
Record can_serve (E : Env) (cfg : TurnConfig) (src : AddrRecord) (sv : Srv) : Prop := {
  cs_env : env_ok E; cs_srv : srv_ok E sv;
  cs_src : dgram_addr src; cs_relay : dgram_addr (mkAddrRecord (relayIpAddr_ E) (relayIpLen_ E) SOCK_DGRAM);
  cs_new : allocations_ (tabs sv) !! allocKey E SOCK_DGRAM src = None;
  cs_user : users_ E !! tc_username cfg = Some (tc_password cfg); cs_named : tc_username cfg <> EmptyString;
  cs_short : shortStr (tc_username cfg) /\ shortStr (realm_ E) /\ shortStr (nonce_ sv);
  cs_nonce : TurnState.clock sv < nonceExpiryMs_ sv; cs_lifetime : fits 32 (allocationLifetime_ E);
  cs_quota : Z.of_nat (size (allocations_ (tabs sv))) < maxAllocations_ E;
  cs_port : exists p, portRange (tabs sv) p /\ usedRelayPorts_ (tabs sv) !! p = None;
  cs_sockets : forall k p, is_Some (udpBind E k p);
}.

Lemma forM_one {S A} (f : A -> SM S unit) x s s' : f x s = Some (tt, s') -> forM [x] f s = Some (tt, s').
Proof. intros E. cbn [forM]. unfold mbind, SM_bind. by rewrite E. Qed.

Lemma roundTrip_one rng E src c sv q a l sv' c' :
  outs c = [OSendRaw q] -> handleUdpPacket E q src sv = Some (tt, sv') ->
  TurnState.outs sv' = TurnState.outs sv ++ l -> answers src l = [a] ->
  handleInbound rng (Some a) (c <| outs := [] |>) = Some (tt, c') ->
  roundTrip rng E src (c, sv) = Some (c', sv').
Proof.
  intros Hc Hs Ho Ha Hi. unfold roundTrip. rewrite Hc. cbn [sent omap list_omap].
  rewrite (forM_one (fun d => handleUdpPacket E d src) q _ _ Hs). cbn [mbind option_bind snd].
  by rewrite Ho, drop_app_length, Ha, (forM_one (fun d => handleInbound rng (Some d)) a _ _ Hi).
Qed.

(** The client has answered the challenge and waits. *)
Record answering (cfg : TurnConfig) (sink : TurnSink) (realm nonce : string) (c : Client) (k : bytes) : Prop := {
  an_tid : tid_ok k; an_sink : sink_ c = sink;
  an_pending : exists tx, kind tx = KAllocate /\ pending_ c = {[ k := tx ]};
  an_outs : outs c = [OSendRaw (wire (allocReq k 17) (Some (c_str (tc_password cfg)))
                        (Some (clientCreds cfg realm nonce)) TurnClient.software)];
}.

Lemma first_round rng cfg sink t E src sv :
  rng_ok rng -> is_Some (sendRaw sink) -> tcpAllocation cfg = false -> can_serve E cfg src sv ->
  exists c1 c2 o k, allocate rng (setClock t (newClient cfg sink)) = Some (tt, c1) /\
    roundTrip rng E src (c1, sv) = Some (c2, add_outs o sv) /\ answering cfg sink (realm_ E) (nonce_ sv) c2 k.
Proof.
  intros Hrng Hsend Htcp Hcs. destruct (cs_short _ _ _ _ Hcs) as (S1 & S2 & S3).
  destruct (allocate_run rng Hrng (setClock t (newClient cfg sink)) None) as (k & c1 & E1 & Hk & H);
    [done|done|done|done|apply Hcs|done|done|].
  change (cfg_ (setClock t (newClient cfg sink))) with cfg in H. destruct H as [A1 A2 A3 A4 _ A6 _ (tx & Htx & A8) A9].
  assert (H17 : is_byte 17) by (unfold fits; lia).
  pose proof (server_challenges E sv src k 17 (cs_new _ _ _ _ Hcs) Hk H17 S2 S3) as Hch.
  set (req := allocReq k 17) in *. set (c0 := c1 <| outs := [] |>).
  assert (Hp : pending_ c0 !! transactionID req = Some tx).
  { change (pending_ c0) with (pending_ c1). rewrite A8. apply lookup_insert_eq. }
  pose proof (client_challenged rng E (nonce_ sv) req c0 tx ltac:(done) Hk S2 S3 Hp Htx A2 A6) as Hcl.
  assert (Hcfg : cfg_ c0 = cfg) by exact A3.
  match type of Hcl with _ = allocate _ ?s0 => set (s1 := s0) in Hcl;
    assert (B : state_ s1 = AllocIdle /\ sink_ s1 = sink /\ cfg_ s1 = cfg /\ outs s1 = [] /\
      pending_ s1 = delete k (pending_ c1) /\
      creds_ s1 = Some (mkCreds (bytes_of_string (tc_username (cfg_ c0))) (bytes_of_string (realm_ E))
                          (bytes_of_string (nonce_ sv)) []))
      by (do 4 (split; [done|]); done); clearbody s1 end.
  destruct B as (B1 & B2 & B3 & B4 & B5 & B6). rewrite Hcfg in B6.
  destruct (allocate_run rng Hrng s1 (Some (realm_ E, nonce_ sv))) as (k2 & c2 & E2 & Hk2 & H);
    [done|by rewrite B2|by rewrite B3|rewrite B6, B3; by do 3 eexists|rewrite B3; apply Hcs|by rewrite B3|done|].
  exists c1, c2. do 2 eexists. split; [exact E1|]. split.
  - eapply roundTrip_one; [exact A9|exact Hch|reflexivity| |exact (eq_trans Hcl E2)].
    cbn [answers omap list_omap]. by rewrite decide_True.
  - rewrite B3 in H. destruct H as [_ _ _ H4 _ _ _ (tx2 & Htx2 & H8) H9]. constructor; [exact Hk2|by rewrite H4| |by rewrite H9, B4].
    exists tx2. split; [done|]. rewrite H8, B5, A8. change (pending_ (setClock t (newClient cfg sink))) with (∅ : gmap bytes PendingTx).
    by rewrite delete_insert_eq, delete_empty.
Qed.

(** What the server holds after granting an Allocate to a client at [src]. *)
Record granted (E : Env) (cfg : TurnConfig) (src : AddrRecord) (sv sv' : Srv) (a : nat) (x : Allocation) : Prop := {
  gr_key : allocations_ (tabs sv') !! allocKey E SOCK_DGRAM src = Some a;
  gr_heap : heap (tabs sv') !! a = Some x;
  gr_client : clientAddr x = src; gr_user : username x = tc_username cfg;
  gr_relayed : relayedAddr x = buildRelayedAddr E (relayPort x);
  gr_port : usedRelayPorts_ (tabs sv') !! relayPort x = Some (Some a);
  gr_expiry : expiryMs x = TurnState.clock sv + allocationLifetime_ E * 1000;
}.

Lemma can_serve_outs E cfg src sv o : can_serve E cfg src sv -> can_serve E cfg src (add_outs o sv).
Proof. intros [H1 [] H3 H4 H5 H6 H7 H8 H9 H10 H11 H12 H13]. by constructor. Qed.

(** A signed Allocate is granted. *)
Lemma signed_granted E cfg src sv k :
  can_serve E cfg src sv -> tid_ok k ->
  exists sv' a x, handleUdpPacket E (wire (allocReq k 17) (Some (c_str (tc_password cfg)))
      (Some (clientCreds cfg (realm_ E) (nonce_ sv))) TurnClient.software) src sv = Some (tt, sv') /\
    granted E cfg src sv sv' a x /\ dgram_addr (relayedAddr x) /\
    TurnState.outs sv' = TurnState.outs sv ++ [OAddRelay (relaySock x);
      OUdp src (wire (grant E (allocReq k 17) src (relayedAddr x)) (Some [])
        (Some (serverCreds E (nonce_ sv) (tc_username cfg) (tc_password cfg))) TurnCore.software)].
Proof.
  intros [HE Hs Hsrc Hrel Hno Hus Hun (S1 & S2 & S3) Hnonce Hlt Hq (p0 & Hp1 & Hp2) Hb] Hk.
  assert (H17 : is_byte 17) by (unfold fits; lia).
  set (cr := clientCreds cfg (realm_ E) (nonce_ sv)).
  assert (Hm : short_msg (allocReq k 17) (Some cr) TurnClient.software) by by apply allocReq_short.
  rewrite udp_received, Hno, dispatch_allocate by done.
  set (req := received _ _ _ _).
  assert (Hau : authenticate E req sv = Some ((0, tc_username cfg), sv)).
  { apply (authenticate_accepts E _ _ _ _ _ (tc_password cfg)); try done.
    - by apply Forall_singleton.
    - cbn [cr clientCreds cr_key cr_realm]. by rewrite string_bytes. }
  rewrite (withAuth_passed _ _ _ _ _ _ _ _ Hau).
  destruct (server_grants E req src sv (tc_username cfg) (tc_password cfg) p0
    (mkAttr AttrType.RequestedTransport [17; 0; 0; 0]) [0; 0; 0])
    as (sv' & x & H1 & H2 & H3 & H4 & H5 & H6 & H7 & H8 & H9 & H10); try done.
  - by apply find_on_wire.
  - unfold getStr, req. destruct (getString_creds (allocReq k 17) (c_str (tc_password cfg)) cr TurnClient.software) as (-> & _);
      [done|by apply Forall_singleton|]. apply string_bytes.
  - by exists sv', (nextAlloc (tabs sv)), x.
Qed.

Lemma second_round rng cfg sink E src sv c k :
  onAllocated sink = true -> can_serve E cfg src sv -> answering cfg sink (realm_ E) (nonce_ sv) c k ->
  exists c' sv' a x, roundTrip rng E src (c, sv) = Some (c', sv') /\ granted E cfg src sv sv' a x /\
    state_ c' = Allocated /\ pending_ c' = ∅ /\
    outs c' = [OAllocated (relayedAddr x) (allocationLifetime_ E)] /\
    relayedAddr_ c' = relayedAddr x /\ lifetime_ c' = allocationLifetime_ E.
Proof.
  intros Hon Hcs [Hk Hsink (tx & Htx & Hp) Ho].
  destruct (signed_granted E cfg src sv k Hcs Hk) as (sv' & a & x & H1 & Hg & Hd & Hout).
  destruct (cs_short _ _ _ _ Hcs) as (S1 & S2 & S3).
  destruct (client_granted rng E (allocReq k 17) src (relayedAddr x) (Some [])
    (serverCreds E (nonce_ sv) (tc_username cfg) (tc_password cfg)) (c <| outs := [] |>) tx)
    as (c' & C1 & C2 & C3 & C4 & _ & C5 & C6).
  - apply grant_short; [done|apply Hcs|apply Hd|done..].
  - done.
  - apply Hcs.
  - change (onAllocated (sink_ c) = true). by rewrite Hsink.
  - change (pending_ c !! k = Some tx). rewrite Hp. apply lookup_singleton_eq.
  - done.
  - exists c', sv', a, x. split.
    { eapply roundTrip_one; [exact Ho|exact H1|exact Hout| |exact C1]. cbn [answers omap list_omap]. by rewrite decide_True. }
    split; [done|]. split; [done|]. split; [|done]. rewrite C5. change (pending_ (c <| outs := [] |>)) with (pending_ c).
    rewrite Hp. apply delete_singleton_eq.
Qed.

(** C13: a client gets its relay.  When a new client allocates at a server that knows its user, has a
    port and a socket left and has not used up its quota, two round trips are enough: the
    first request is challenged, the client answers the challenge, the server accepts the
    signature, and in the end the client is told the relayed address of an allocation that
    the server holds for its address and its user, with the lifetime the server gave it and
    the port reserved for it.  Nothing is left in flight. *)
Theorem allocation_handshake rng cfg sink t E src sv :
  rng_ok rng -> is_Some (sendRaw sink) -> onAllocated sink = true -> tcpAllocation cfg = false ->
  can_serve E cfg src sv ->
  exists c' sv' a x, handshake rng cfg sink t E src sv = Some (c', sv') /\
    state_ c' = Allocated /\ pending_ c' = ∅ /\
    outs c' = [OAllocated (relayedAddr x) (allocationLifetime_ E)] /\
    relayedAddr_ c' = relayedAddr x /\ lifetime_ c' = allocationLifetime_ E /\
    allocations_ (tabs sv') !! allocKey E SOCK_DGRAM src = Some a /\ heap (tabs sv') !! a = Some x /\
    clientAddr x = src /\ username x = tc_username cfg /\
    relayedAddr x = buildRelayedAddr E (relayPort x) /\ usedRelayPorts_ (tabs sv') !! relayPort x = Some (Some a) /\
    expiryMs x = TurnState.clock sv + allocationLifetime_ E * 1000.
Proof.
  intros Hrng Hsend Hon Htcp Hcs.
  destruct (first_round rng cfg sink t E src sv Hrng Hsend Htcp Hcs) as (c1 & c2 & o & k & E1 & E2 & Ha).
  destruct (second_round rng cfg sink E src (add_outs o sv) c2 k Hon) as (c' & sv' & a & x & E3 & [] & C1);
    [by apply can_serve_outs|done|].
  exists c', sv', a, x. unfold handshake. rewrite E1. cbn [mbind option_bind snd]. rewrite E2. cbn [mbind option_bind].
  rewrite E3. destruct C1 as (? & ? & ? & ? & ?). done.
Qed.

Lemma demo_can_serve : can_serve demoEnv sampleCfg demoClient demoStart.
Proof.
  constructor; [apply demoEnv_ok|apply demoStart_ok| | | | |done| | | | | |].
  - by apply (bool_decide_unpack _); vm_compute.
  - by apply (bool_decide_unpack _); vm_compute.
  - reflexivity.
  - reflexivity.
  - split; [|split]; (split; [vm_compute; lia|apply bytes_of_string_ok]).
  - vm_compute. done.
  - vm_compute. done.
  - vm_compute. done.
  - exists 50000. split; [split; vm_compute; discriminate|reflexivity].
  - intros k p. by eexists.
Qed.

Lemma allocation_handshake_witness :
  exists c' sv' a x, handshake sampleRng sampleCfg sampleSink 0 demoEnv demoClient demoStart = Some (c', sv') /\
    state_ c' = Allocated /\ pending_ c' = ∅ /\
    outs c' = [OAllocated (relayedAddr x) 600] /\ relayedAddr_ c' = relayedAddr x /\ lifetime_ c' = 600 /\
    allocations_ (tabs sv') !! allocKey demoEnv SOCK_DGRAM demoClient = Some a /\ heap (tabs sv') !! a = Some x /\
    clientAddr x = demoClient /\ username x = "alice"%string /\
    relayedAddr x = buildRelayedAddr demoEnv (relayPort x) /\ usedRelayPorts_ (tabs sv') !! relayPort x = Some (Some a) /\
    expiryMs x = 600000.
Proof.
  apply (allocation_handshake sampleRng sampleCfg sampleSink 0 demoEnv demoClient demoStart);
    [exact sampleRng_ok | by eexists | reflexivity | reflexivity | exact demo_can_serve].
Defined.

(** ** Where the TURN client and the TURN server disagree

    Two runs of the composed system in which every datagram arrives and both programs do what
    their code says, and the outcome is not what the client's caller asked for. *)

(** Random bytes that differ from draw to draw. *)
Definition countRng (k n : nat) : option bytes := Some (replicate n (Z.of_nat k mod 256)).

(** A call of the client, with the server as it is. *)
Definition call {A} (m : SM Client A) (p : Client * Srv) : option (Client * Srv) :=
  r ← m p.1; Some (r.2, p.2).
Definition trip : Client * Srv -> option (Client * Srv) := roundTrip countRng demoEnv demoClient.

(** The client after the handshake, when the server's nonce is good until 1000. *)
Definition afterHandshake : option (Client * Srv) :=
  handshake countRng sampleCfg sampleSink 0 demoEnv demoClient (set_nonce (nonce_ demoStart) 1000 demoStart).

(** Three ports of one host. *)
Definition hostPort (port : Z) : AddrRecord := mkAddrRecord (SockIn port [203; 0; 113; 9]) 16 SOCK_DGRAM.

(** Data to one port, until its channel is bound; then to two more. *)
Definition secondPeerRun : option (Client * Srv) :=
  p ← afterHandshake;
  p ← call (sendData countRng (hostPort 6000) [1]) p; p ← trip p; p ← trip p;
  p ← call (sendData countRng (hostPort 6001) [2]) p;
  p ← call (sendData countRng (hostPort 6002) [3]) p; trip p.

Definition isFailed (o : TurnClient.Output) : bool := match o with OFailed _ _ => true | _ => false end.

(** Data to a second port of a host ends the allocation.  The client binds one channel for
    each address and port, the server allows one channel for each address: the second
    ChannelBind is answered with 400, and the client then reports that the whole allocation
    has failed and is in the failed state, although the server still holds the allocation and
    the channel of the first port.  With two such requests in flight it reports the failure
    twice. *)
Theorem second_peer_fails_client :
  exists c sv, secondPeerRun = Some (c, sv) /\ state_ c = AllocFailed /\
    length (List.filter isFailed (outs c)) = 2%nat /\ failedEmitted_ c = false /\
    map channelReady (bindings_ c) = [true; false; false] /\
    map (fun x => (length (channels x), transport x =? SOCK_DGRAM)) (map snd (map_to_list (heap (tabs sv)))) = [(1%nat, true)].
Proof. do 2 eexists. split; [vm_compute; reflexivity|]. vm_compute. auto 6. Qed.

(** The client gives its relay back when the server's nonce has just expired. *)
Definition deallocateRun : option (Client * Srv) :=
  p ← afterHandshake;
  p ← call (deallocate countRng) p;
  p ← trip (p.1, set_clock 5000 p.2); trip p.

(** Giving the relay back can renew it.  When the Refresh with lifetime 0 meets a stale nonce,
    the client repeats it with the old lifetime instead of 0: the server, which had granted
    the allocation until 600 s, now holds it until 605 s, and the client regards it as gone. *)
Theorem deallocation_renews :
  exists c sv, deallocateRun = Some (c, sv) /\ state_ c = Deallocated /\ pending_ c = ∅ /\
    map expiryMs (map snd (map_to_list (heap (tabs sv)))) = [605000].
Proof. do 2 eexists. split; [vm_compute; reflexivity|]. vm_compute. auto 6. Qed.
