(* ===== verification/StunClient.v ===== *)
(** * The STUN client

    stun/client.cpp: a Binding request is sent and retransmitted with a doubling time-out
    until a matching response arrives, the retransmissions are used up or the time is over.
    The network is a record of what each turn of the loop meets: whether the send succeeds,
    the milliseconds since the start, and what the poll reports.  The composition with the
    server's Binding handler shows that a client learns its own address. *)

From S2P Require Import Prelude.
From S2P Require Import StateMonad.
From S2P Require Import Bytes.
From S2P Require Import Crypto.
From S2P Require Import Addr.
From S2P Require Import UdpSocket.
From S2P Require Import StunMessage.
From S2P Require Import StunAttributes.
From S2P Require Import ChannelData.
From S2P Require Import TurnState.
From S2P Require Import TurnCore.
From S2P Require Import TurnHandlers.
From S2P Require Import TurnRun.
From S2P Require Import TurnClient.
From S2P Require Import TurnWire.
From S2P Require Import TurnPair.
Open Scope Z_scope.
Open Scope c_scope.

Record BindingResult := mkBinding { reflexiveAddr : AddrRecord; bindingTid : bytes }.

(** [rnd] is what the CSPRNG delivers. *)
Definition buildBindingRequest (rnd : option bytes) : Message :=
  newTransactionID rnd (mkMessage Method.Binding StunMessage.Request (replicate 12 0) [] []).

(** What [poll] reports: EINTR, another error, no POLLIN, or the socket's receive queue. *)
Inductive Poll := PollInterrupted | PollFailed | PollQuiet | PollReady (queue : list RecvEvent).

Record Network := mkNetwork { sendtoOk : nat -> bool; elapsed : nat -> Z; poll : nat -> Z -> Poll }.

(** How the body of the loop ends: [continue], falling through to the retransmission, or a
    [return]. *)
Inductive Turn := Again | Expired | Return (r : option BindingResult).

(** The branch of a readable socket. *)
Definition readResponse (req : Message) (queue : list RecvEvent) : option Turn :=
  match (recvfrom 1500 queue).1 with
  | None => Some Expired
  | Some (data, _) =>
      if (length data =? 0)%nat then Some Expired else
      ok ← isMessage data;
      if negb ok then Some Expired else
      '(ok, resp) ← decode emptyMessage data;
      if negb ok then Some Again else
      if negb (method resp =? Method.Binding) then Some Again else
      if negb (bool_decide (cls resp = SuccessResponse)) then Some Again else
      if negb (bool_decide (transactionID resp = transactionID req)) then Some Again else
      x ← readXorAddress resp AttrType.XorMappedAddress (transactionID resp);
      match x with
      | Some a => Some (Return (Some (mkBinding a (transactionID resp))))
      | None =>
          y ← readMappedAddress resp;
          match y with
          | Some a => Some (Return (Some (mkBinding a (transactionID resp))))
          | None => Some (Return None)
          end
      end
  end.

(** [static_cast<int>] of a 64-bit count. *)
Definition toInt (x : Z) : Z := wrap 32 (x + 2 ^ 31) - 2 ^ 31.

Section Client.
Context (net : Network) (timeout maxRetransmissions : Z).

(** Turn [k] of the loop up to its end, with the waits polled so far. *)
Definition oneTurn (req : Message) (k : nat) (rto : Z) : option (Turn * list Z) :=
  if negb (sendtoOk net k) then Some (Return None, []) else
  let remaining := timeout - elapsed net k in
  if remaining <=? 0 then Some (Return None, []) else
  let wait := toInt (Z.min rto remaining) in
  match poll net k wait with
  | PollInterrupted => Some (Again, [wait])
  | PollFailed => Some (Return None, [wait])
  | PollQuiet => Some (Expired, [wait])
  | PollReady queue => t ← readResponse req queue; Some (t, [wait])
  end.

(** The loop from turn [k]: the result, the requests sent and the waits. *)
Fixpoint bindingLoop (fuel : nat) (req : Message) (k : nat) (retransmit rto : Z)
    : option (option BindingResult * nat * list Z) :=
  match fuel with
  | O => None
  | S fuel =>
      '(t, w) ← oneTurn req k rto;
      match t with
      | Return r => Some (r, S k, w)
      | Again => '(r, n, ws) ← bindingLoop fuel req (S k) retransmit rto; Some (r, n, w ++ ws)
      | Expired =>
          if retransmit >=? maxRetransmissions then Some (None, S k, w) else
          '(r, n, ws) ← bindingLoop fuel req (S k) (retransmit + 1) (rto * 2); Some (r, n, w ++ ws)
      end
  end.

Definition sendBindingRequest (fuel : nat) (rnd : option bytes) : option (option BindingResult * nat * list Z) :=
  req ← encode (buildBindingRequest rnd) None None (Some (bytes_of_string "stice"));
  bindingLoop fuel req 0 0 500.
End Client.

(** ** Every call returns *)

(** The datagrams a network delivers are made of bytes. *)
Definition bytesNet (net : Network) : Prop :=
  forall k w q d a, poll net k w = PollReady q -> Datagram d a ∈ q -> bytes_ok d.

Lemma recvfrom_from n q d a rest :
  recvfrom n q = (Some (d, a), rest) -> exists d' a', Datagram d' a' ∈ q /\ d = take n d'.
Proof.
  induction q as [|[d' a'| |] q IH]; cbn [recvfrom]; [done| | |done].
  - intros [= <- _ _]. exists d', a'. split; [left|done].
  - intros (d1 & a1 & H & ->)%IH. exists d1, a1. split; [by right|done].
Qed.

(** What the client accepts is a Binding success response to its own request. *)
Definition answers_to (req : Message) (q : list RecvEvent) (b : BindingResult) : Prop :=
  exists d a m, Datagram d a ∈ q /\ decode emptyMessage (take 1500 d) = Some (true, m) /\
    method m = Method.Binding /\ cls m = SuccessResponse /\ transactionID m = transactionID req /\
    bindingTid b = transactionID req /\
    (readXorAddress m AttrType.XorMappedAddress (transactionID m) = Some (Some (reflexiveAddr b)) \/
     readXorAddress m AttrType.XorMappedAddress (transactionID m) = Some None /\
     readMappedAddress m = Some (Some (reflexiveAddr b))).

Lemma readResponse_total req q :
  (forall d a, Datagram d a ∈ q -> bytes_ok d) ->
  exists t, readResponse req q = Some t /\ (forall b, t = Return (Some b) -> answers_to req q b).
Proof.
  intros Hq. unfold readResponse. destruct (recvfrom 1500 q) as [[[d a]|] rest] eqn:E; cbn [fst]; [|by eexists].
  destruct (recvfrom_from _ _ _ _ _ E) as (d' & a' & Hin & ->).
  assert (Hd : bytes_ok (take 1500 d')) by (apply Forall_take; by eapply Hq).
  destruct (_ =? 0)%nat; [by eexists|]. destruct (isMessage_total _ Hd) as (b & -> & _). cbn [mbind option_bind].
  destruct b; cbn [negb]; [|by eexists].
  destruct (decode_total emptyMessage _ Hd) as (b & m & Hdec & Hm). rewrite Hdec. cbn [mbind option_bind].
  destruct b; cbn [negb]; [|by eexists]. destruct (Hm eq_refl) as (_ & Ht & Ha & _).
  destruct (Z.eqb_spec (method m) Method.Binding) as [E1|]; cbn [negb]; [|by eexists].
  case_bool_decide as E2; cbn [negb]; [|by eexists]. case_bool_decide as E3; cbn [negb]; [|by eexists].
  destruct (readXorAddress_safe m AttrType.XorMappedAddress (transactionID m) Ha Ht) as (x & Hx & _).
  rewrite Hx. cbn [mbind option_bind]. destruct x as [x|].
  { eexists. split; [done|]. intros b [= <-]. exists d', a', m. cbn. repeat split; try done. by left. }
  destruct (readMappedAddress_safe m Ha) as (y & Hy & _). rewrite Hy. cbn [mbind option_bind].
  destruct y as [y|]; [|by eexists].
  eexists. split; [done|]. intros b [= <-]. exists d', a', m. cbn. repeat split; try done. by right.
Qed.

(** The request as it is encoded. *)
Definition requestOf (tid : bytes) : Message :=
  mkMessage Method.Binding StunMessage.Request tid [] (wire (mkMessage Method.Binding StunMessage.Request tid [] []) None None
    (Some (bytes_of_string "stice"))).

Lemma request_short tid :
  tid_ok tid ->
  short_msg (mkMessage Method.Binding StunMessage.Request tid [] []) None (Some (bytes_of_string "stice")).
Proof. intros Ht. constructor; [done|done|by constructor|cbn; lia|done|apply clientSoftware_short]. Qed.

Lemma sendBinding_loop net timeout mx fuel tid :
  tid_ok tid -> sendBindingRequest net timeout mx fuel (Some tid) = bindingLoop net timeout mx fuel (requestOf tid) 0 0 500.
Proof. intros Ht. unfold sendBindingRequest.
  change (buildBindingRequest (Some tid)) with (mkMessage Method.Binding StunMessage.Request tid [] []).
  by rewrite (encode_short _ None None _ (request_short tid Ht)). Qed.

Section Returns.
Context (net : Network) (timeout mx : Z) (req : Message).
Hypothesis Hnet : bytesNet net.

(** The waits of a turn are positive and end before the time-out. *)
Definition wait_ok (w : Z) : Prop := 0 < w <= timeout.

Lemma toInt_small x : 0 <= x < 2 ^ 31 -> toInt x = x.
Proof. intros Hx. unfold toInt. rewrite wrap_id by (unfold fits; lia). lia. Qed.

Lemma oneTurn_total k rto :
  0 < rto -> 0 <= elapsed net k -> timeout < 2 ^ 31 ->
  exists t w, oneTurn net timeout req k rto = Some (t, w) /\ Forall wait_ok w /\
    (timeout <= elapsed net k -> t = Return None) /\
    (forall b, t = Return (Some b) -> exists v q, poll net k v = PollReady q /\ answers_to req q b).
Proof.
  intros Hr He Ht. unfold oneTurn. destruct (sendtoOk net k); cbn [negb]; [|by eexists _, _].
  destruct (Z.leb_spec (timeout - elapsed net k) 0); [by eexists _, _|].
  set (w := toInt _). assert (Hw : Forall wait_ok [w]).
  { apply Forall_singleton. unfold w, wait_ok. rewrite toInt_small by lia. lia. }
  destruct (poll net k w) as [| | |q] eqn:E; try (eexists _, _; split; [done|]; split; [done|]; split; [lia|done]).
  destruct (readResponse_total req q) as (t & -> & Hb); [intros d a; by apply (Hnet k w)|]. cbn [mbind option_bind].
  eexists t, [w]. split; [done|]. split; [done|]. split; [lia|]. intros b Hq. exists w, q. auto.
Qed.

(** What the loop delivers from turn [k] on when the clock has run out by turn [n]. *)
Lemma bindingLoop_returns fuel n k retransmit rto :
  0 < rto -> (forall j, 0 <= elapsed net j) -> timeout < 2 ^ 31 -> timeout <= elapsed net n ->
  (k <= n)%nat -> (n - k < fuel)%nat ->
  exists r sends waits, bindingLoop net timeout mx fuel req k retransmit rto = Some (r, sends, waits) /\
    (sends <= S n)%nat /\ Forall wait_ok waits /\
    (forall b, r = Some b -> exists j v q, poll net j v = PollReady q /\ answers_to req q b).
Proof.
  intros Hr He Ht Hn. revert k retransmit rto Hr. induction fuel as [|fuel IH]; intros k retransmit rto Hr Hk Hf; [lia|].
  cbn [bindingLoop]. destruct (oneTurn_total k rto Hr (He k) Ht) as (t & w & -> & Hw & Hend & Hb).
  cbn [mbind option_bind].
  assert (Hgo : t <> Return None -> forall rt rto', 0 < rto' -> exists r sends waits,
    ('(r, n0, ws) ← bindingLoop net timeout mx fuel req (S k) rt rto'; Some (r, n0, w ++ ws)) = Some (r, sends, waits) /\
    (sends <= S n)%nat /\ Forall wait_ok waits /\
    (forall b, r = Some b -> exists j v q, poll net j v = PollReady q /\ answers_to req q b)).
  { intros Hne rt rto' Hr'. assert (k <> n) by (intros ->; by apply Hne, Hend).
    destruct (IH (S k) rt rto' Hr') as (r & sends & waits & -> & H1 & H2 & H3); [lia|lia|].
    cbn [mbind option_bind]. exists r, sends, (w ++ waits). by rewrite Forall_app. }
  destruct t as [| |r]; [by apply Hgo| |].
  - destruct (_ >=? _); [|apply Hgo; [done|lia]]. exists None, (S k), w. split; [done|]. split; [lia|done].
  - exists r, (S k), w. split; [done|]. split; [lia|]. split; [done|]. intros b ->. exists k. by apply Hb.
Qed.

(** On a network without interrupts or stray messages the clock is not needed: every turn
    is counted. *)
Lemma bindingLoop_counted fuel k retransmit rto :
  (forall j v, poll net j v <> PollInterrupted) ->
  (forall j v q, poll net j v = PollReady q -> readResponse req q <> Some Again) ->
  0 <= mx - retransmit < Z.of_nat fuel ->
  exists r sends waits, bindingLoop net timeout mx fuel req k retransmit rto = Some (r, sends, waits) /\
    Z.of_nat sends <= Z.of_nat k + 1 + (mx - retransmit).
Proof.
  intros Hi Hs. revert k retransmit rto. induction fuel as [|fuel IH]; intros k retransmit rto Hf; [lia|].
  cbn [bindingLoop]. assert (exists t w, oneTurn net timeout req k rto = Some (t, w) /\ t <> Again) as (t & w & -> & Hta).
  { unfold oneTurn. destruct (negb _); [by eexists _, _|]. destruct (_ <=? 0); [by eexists _, _|].
    set (v := toInt _). destruct (poll net k v) as [| | |q] eqn:E; [by destruct (Hi k v)|by eexists _, _..|].
    destruct (readResponse_total req q) as (t & Et & _); [intros d a; by apply (Hnet k v)|].
    pose proof (Hs k v q E) as Hn. rewrite Et in *. eexists _, _. split; [done|]. congruence. }
  cbn [mbind option_bind]. destruct t as [| |r]; [done| |eexists _, _, _; split; [done|]; lia].
  destruct (Z.geb_spec retransmit mx) as [|Hlt]; [eexists _, _, _; split; [done|]; lia|].
  destruct (IH (S k) (retransmit + 1) (rto * 2)) as (r & sends & waits & -> & H); [lia|]. cbn [mbind option_bind].
  eexists _, _, _. split; [done|]. lia.
Qed.
End Returns.

(** A Binding call always returns: when the clock has passed the time-out by turn [n] of
    the loop, whatever the network does (failures, interrupts, stray or malformed datagrams)
    the call returns within [n + 1] turns, having sent at most [n + 1] requests, every poll
    waited a positive time no longer than the time-out, and an address is returned only from
    a Binding success response that carries the transaction id of this request. *)
Theorem binding_call_returns net timeout mx n tid :
  bytesNet net -> tid_ok tid -> (forall j, 0 <= elapsed net j) -> timeout < 2 ^ 31 -> timeout <= elapsed net n ->
  exists r sends waits, sendBindingRequest net timeout mx (S n) (Some tid) = Some (r, sends, waits) /\
    (sends <= S n)%nat /\ Forall (wait_ok timeout) waits /\
    (forall b, r = Some b -> exists j v q, poll net j v = PollReady q /\ answers_to (requestOf tid) q b).
Proof.
  intros Hb Ht He Htm Hn. rewrite sendBinding_loop by done.
  apply (bindingLoop_returns net timeout mx (requestOf tid) Hb (S n) n 0 0 500); (done || lia).
Qed.

(** A silent network: no datagram arrives, and the clock moves by what was waited, capped at
    the default time-out of five seconds. *)
Definition silent : Network :=
  mkNetwork (fun _ => true) (fun k => Z.min 5000 (500 * (2 ^ Z.of_nat k - 1))) (fun _ _ => PollQuiet).

Lemma silent_bytes : bytesNet silent.
Proof. done. Qed.

Lemma silent_clock j : 0 <= elapsed silent j.
Proof. cbn. pose proof (Z.pow_pos_nonneg 2 (Z.of_nat j)). lia. Qed.

Lemma binding_call_returns_witness :
  exists r sends waits, sendBindingRequest silent 5000 5 5 (Some (replicate 12 1)) = Some (r, sends, waits) /\
    (sends <= 5)%nat /\ Forall (wait_ok 5000) waits /\
    (forall b, r = Some b -> exists j v q, poll silent j v = PollReady q /\ answers_to (requestOf (replicate 12 1)) q b).
Proof.
  apply (binding_call_returns silent 5000 5 4 (replicate 12 1)); [apply silent_bytes| |apply silent_clock|lia|done].
  by apply (bool_decide_unpack _); vm_compute.
Defined.

(** With the default arguments four waits fill the five seconds; a fifth request is sent when
    the time is already over and its answer is not waited for. *)
Lemma silent_schedule :
  sendBindingRequest silent 5000 5 5 (Some (replicate 12 1)) = Some (None, 5%nat, [500; 1000; 2000; 1500]).
Proof. vm_compute. reflexivity. Qed.

(** Every stray message triggers a request at once, and none of them is counted: fifty stray
    responses at the start make fifty-one requests although no retransmission is allowed. *)
Definition strayFor (n : nat) (data : bytes) : Network :=
  mkNetwork (fun _ => true) (fun _ => 0)
    (fun k _ => if (k <? n)%nat then PollReady [Datagram data emptyAddr] else PollQuiet).

Definition strayBytes : bytes :=
  wire (mkMessage Method.Binding SuccessResponse (replicate 12 9) [] []) None None None.

Lemma stray_resends :
  sendBindingRequest (strayFor 50 strayBytes) 5000 0 60 (Some (replicate 12 1)) = Some (None, 51%nat, replicate 51 500).
Proof. vm_compute. reflexivity. Qed.

(** ** With the server *)

(** The answer of the server's Binding handler. *)
Definition bindingAnswer (tid : bytes) (src : AddrRecord) : Message :=
  mkMessage Method.Binding SuccessResponse tid [mkAttr AttrType.XorMappedAddress (encodeXorAddr src tid)] [].

Definition answerBytes (tid : bytes) (src : AddrRecord) : bytes :=
  wire (bindingAnswer tid src) None None TurnCore.software.

Lemma answer_short tid src :
  tid_ok tid -> dgram_addr src -> short_msg (bindingAnswer tid src) None TurnCore.software.
Proof.
  intros Ht (Hs & _). constructor; [done|done| |cbn; lia|done|apply serverSoftware_short].
  apply Forall_singleton. split; [done|]. destruct (encodeXorAddr_ok src tid Hs Ht). split; [cbn; lia|done].
Qed.

(** The server answers a Binding request, authenticated or not, whatever its state. *)
Lemma server_answers E sv src tid :
  tid_ok tid -> dgram_addr src ->
  handleUdpPacket E (raw (requestOf tid)) src sv = Some (tt, add_outs [OUdp src (answerBytes tid src)] sv).
Proof.
  intros Ht Hs. change (raw (requestOf tid)) with
    (wire (mkMessage Method.Binding StunMessage.Request tid [] []) None None (Some (bytes_of_string "stice"))).
  rewrite udp_received by by apply request_short. unfold dispatchStun. cbn [received cls method].
  rewrite bool_decide_true by done. cbn [negb andb]. unfold handleBinding. cbn [transactionID].
  rewrite withXor_spec by done. apply (reply_short E (bindingAnswer tid src) None None). by apply answer_short.
Qed.

Lemma answer_size tid src :
  tid_ok tid -> dgram_addr src -> (length (answerBytes tid src) <= 1500)%nat.
Proof.
  intros Ht Hs. pose proof (answer_short tid src Ht Hs) as Hm.
  pose proof (short_enc_ok _ None None _ Hm) as Hok. pose proof (encode_frame_ok _ _ _ _ Hok) as Hf.
  unfold answerBytes, wire. rewrite (frame_length _ _ _ Hf).
  unfold wireAttrs, encAttrsMi, encAttrs, credAttrs. cbn [bindingAnswer cls attributes app].
  set (fp := fpAttr _ _ _). rewrite <- (app_nil_l [fp]), app_comm_cons, !tlvs_app, !length_app, tlvs_cons, length_app.
  assert (Hfp : length (tlvs [fp]) = 8%nat) by (by rewrite tlvs_one, tlv_length_ok by apply fpAttr_ok).
  destruct (encodeXorAddr_ok src tid) as [H1 H2]; [apply Hs|done|].
  assert (Ha : attr_ok (mkAttr AttrType.XorMappedAddress (encodeXorAddr src tid)))
    by (split; [done|]; split; [cbn; lia|done]).
  rewrite Hfp, (tlv_length_ok _ Ha). cbn [value].
  destruct (paddedLen_bounds (length (encodeXorAddr src tid))) as [Hp _]; [lia|].
  change (length (tlvs (softAttrs TurnCore.software))) with 12%nat. change (length (tlvs [])) with 0%nat. lia.
Qed.

Lemma answer_read tid src peer rest :
  tid_ok tid -> dgram_addr src ->
  readResponse (requestOf tid) (Datagram (answerBytes tid src) peer :: rest) = Some (Return (Some (mkBinding src tid))).
Proof.
  intros Ht Hs. pose proof (answer_short tid src Ht Hs) as Hm. unfold readResponse. cbn [recvfrom fst].
  rewrite take_ge by by apply answer_size.
  destruct (received_decoded (bindingAnswer tid src) None None TurnCore.software Hm) as (_ & D2 & D3 & D4).
  unfold answerBytes, wire. set (d := frame _ _ _) in *.
  destruct (Nat.eqb_spec (length d) 0) as [El%nil_length_inv|_]; [done|].
  rewrite D2. cbn [mbind option_bind negb]. rewrite D3. cbn [mbind option_bind negb].
  cbn [received method cls transactionID bindingAnswer requestOf]. rewrite Z.eqb_refl, !bool_decide_true by done. cbn [negb].
  rewrite (readXor_spec _ tid _ src Ht Hs); [done|]. by apply find_on_wire.
Qed.

(** A turn that ends neither the call nor the client's patience. *)
Definition passes (net : Network) (timeout : Z) (tid : bytes) (j : nat) : Prop :=
  sendtoOk net j = true /\ elapsed net j < timeout /\
  forall w, match poll net j w with
            | PollFailed => False
            | PollReady q => readResponse (requestOf tid) q = Some Again \/ readResponse (requestOf tid) q = Some Expired
            | _ => True
            end.

Lemma oneTurn_passes net timeout tid j rto :
  passes net timeout tid j ->
  exists t w, oneTurn net timeout (requestOf tid) j rto = Some (t, w) /\ (t = Again \/ t = Expired).
Proof.
  intros (H1 & H2 & H3). unfold oneTurn. rewrite H1, (proj2 (Z.leb_gt _ _)) by lia. cbn [negb]. set (w := toInt _).
  specialize (H3 w). destruct (poll net j w) as [| | |q]; [by eexists _, _; split; [|left]|done|by eexists _, _; split; [|right]|].
  destruct H3 as [-> | ->]; cbn [mbind option_bind]; eexists _, _; (split; [done|]); auto.
Qed.

Lemma bindingLoop_learns net timeout mx tid src peer rest k n fuel retransmit rto :
  tid_ok tid -> dgram_addr src -> (forall j, (k <= j < k + n)%nat -> passes net timeout tid j) ->
  retransmit + Z.of_nat n <= mx -> (n < fuel)%nat ->
  sendtoOk net (k + n) = true -> elapsed net (k + n) < timeout ->
  (forall w, poll net (k + n) w = PollReady (Datagram (answerBytes tid src) peer :: rest)) ->
  exists waits, bindingLoop net timeout mx fuel (requestOf tid) k retransmit rto
    = Some (Some (mkBinding src tid), S (k + n), waits).
Proof.
  intros Ht Hs. revert k fuel retransmit rto. induction n as [|n IH]; intros k [|fuel] retransmit rto Hp Hmx Hf Hsend Hel Hpoll;
    try lia; cbn [bindingLoop].
  - rewrite Nat.add_0_r in *. unfold oneTurn. rewrite Hsend, (proj2 (Z.leb_gt _ _)), Hpoll, answer_read by (done || lia).
    by eexists.
  - destruct (oneTurn_passes net timeout tid k rto) as (t & w & -> & Ht'); [apply Hp; lia|]. cbn [mbind option_bind].
    assert (Hgo : forall rt rto', rt + Z.of_nat n <= mx -> exists waits,
      ('(r, n0, ws) ← bindingLoop net timeout mx fuel (requestOf tid) (S k) rt rto'; Some (r, n0, w ++ ws))
      = Some (Some (mkBinding src tid), S (k + S n), waits)).
    { intros rt rto' Hrt. rewrite Nat.add_succ_r in *.
      destruct (IH (S k) fuel rt rto') as (ws & ->); [intros j Hj; apply Hp; lia|done|lia|done..|]. by eexists. }
    destruct Ht' as [-> | ->]; [apply Hgo; lia|]. destruct (Z.geb_spec retransmit mx); [lia|]. apply Hgo. lia.
Qed.

(** A client learns its own address.  The server answers the client's Binding request,
    from whatever address it arrives and in whatever state the server is, with one datagram
    to that address; and a client that meets only failures it can survive before (lost
    requests, interrupts, stray messages, no more than its retransmissions) and then gets
    that datagram returns exactly the address the server saw, whoever delivers it. *)
Theorem binding_learns_address E sv src tid :
  tid_ok tid -> dgram_addr src ->
  exists answer, handleUdpPacket E (raw (requestOf tid)) src sv = Some (tt, add_outs [OUdp src answer] sv) /\
    forall net timeout mx k peer rest,
      (forall j, (j < k)%nat -> passes net timeout tid j) -> Z.of_nat k <= mx ->
      sendtoOk net k = true -> elapsed net k < timeout ->
      (forall w, poll net k w = PollReady (Datagram answer peer :: rest)) ->
      exists waits, sendBindingRequest net timeout mx (S k) (Some tid) = Some (Some (mkBinding src tid), S k, waits).
Proof.
  intros Ht Hs. exists (answerBytes tid src). split; [by apply server_answers|].
  intros net timeout mx k peer rest Hp Hmx Hsend Hel Hpoll. rewrite sendBinding_loop by done.
  apply (bindingLoop_learns net timeout mx tid src peer rest 0 k); try done; try lia. intros j Hj. apply Hp. lia.
Qed.

(** The first request is lost, the answer to the second one arrives. *)
Definition lossyNet (answer : bytes) : Network :=
  mkNetwork (fun _ => true) (fun k => 500 * Z.of_nat k)
    (fun k _ => if (k =? 0)%nat then PollQuiet else PollReady [Datagram answer emptyAddr]).

Lemma binding_learns_address_witness :
  exists answer waits, handleUdpPacket demoEnv (raw (requestOf (replicate 12 1))) demoClient demoStart
      = Some (tt, add_outs [OUdp demoClient answer] demoStart) /\
    sendBindingRequest (lossyNet answer) 5000 5 2 (Some (replicate 12 1))
      = Some (Some (mkBinding demoClient (replicate 12 1)), 2%nat, waits).
Proof.
  destruct (binding_learns_address demoEnv demoStart demoClient (replicate 12 1)) as (answer & Hs & Hc);
    [by apply (bool_decide_unpack _); vm_compute..|].
  destruct (Hc (lossyNet answer) 5000 5 1%nat emptyAddr []) as (waits & Hw); [|cbn; lia|done|cbn; lia|done|].
  { intros j Hj. replace j with 0%nat by lia. split; [done|]. split; [cbn; lia|done]. }
  exists answer, waits. split; [exact Hs | exact Hw].
Defined.
