(* ===== verification/TcpTransport.v ===== *)
(** * The TCP transport (include/stice/net/tcp.hpp, src/net/tcp.cpp)

    [TcpTransport]: the non-blocking connection of ICE-TCP (with the 2-byte length prefix of
    RFC 4571) and of TURN over TCP and TLS (no prefix).  Two queues of bytes wait for the
    socket, control frames before data; a buffer collects what was read.

    The operating system and the TLS library are the record [TcpSys]; call number [k] is the
    [k]-th call of any of its functions.  [tcp_send k len] is the result of [::send] with
    [len] bytes on offer and, when it is not positive, whether [wouldBlock()] holds;
    [tls_write k data] the status and the number of bytes taken.  A session that was set up is
    [active()] until it is closed.  What the reads of one readable event return is an
    argument of [onReadable]: the chunks, and how the loop ends.  [written] records what the
    socket or the TLS session accepted and from which queue.  The byte counters and the
    socket options are left out. *)

From S2P Require Import Prelude.
From S2P Require Import StateMonad.
From S2P Require Import Bytes.
From S2P Require Import Addr.
Open Scope Z_scope.
Open Scope c_scope.

Inductive TcpState := Disconnected | Connecting | TlsHandshaking | Connected | Failed.
#[export] Instance TcpState_eq_dec : EqDecision TcpState.
Proof. solve_decision. Defined.

Inductive FramingMode := RFC4571 | Raw.
#[export] Instance FramingMode_eq_dec : EqDecision FramingMode.
Proof. solve_decision. Defined.

Inductive TlsStatus := TlsOk | TlsWantRead | TlsWantWrite | TlsClosed | TlsFailed.
#[export] Instance TlsStatus_eq_dec : EqDecision TlsStatus.
Proof. solve_decision. Defined.

Definition POLLIN : Z := 1.
Definition POLLOUT : Z := 4.
Definition INVALID_SOCKET : Z := -1.

(** One of the two queues: [sendQueue_], [sendOff_], [sendTlsPendingLen_] or their control
    counterparts. *)
Record SendQueue := mkSendQueue { queue : bytes; off : nat; tlsPendingLen : nat }.
#[export] Instance SendQueue_fields : RecordFields SendQueue := fun q =>
  mkSendQueue (queue q) (off q) (tlsPendingLen q).

Inductive Chan := Control | Data.
#[export] Instance Chan_eq_dec : EqDecision Chan.
Proof. solve_decision. Defined.

Record TlsParams := mkTlsParams { p_sni : string; p_skipVerify : bool; p_caFile : string }.

Record TcpTransport := mkTcpTransport {
  sock_ : Z; state_ : TcpState; useTls_ : bool; skipVerify_ : bool; sni_ : string; caFile_ : string;
  framing_ : FramingMode; peerAddr_ : AddrRecord; tls_ : bool; tlsWantRead_ : bool; tlsWantWrite_ : bool;
  ctrlQueue_ : SendQueue; sendQueue_ : SendQueue; recvBuf_ : bytes; recvOff_ : nat;
  connectDeadlineMs_ : Z; clock : Z; calls : nat; written : list (Chan * bytes); closedSocks : list Z }.
#[export] Instance TcpTransport_fields : RecordFields TcpTransport := fun t =>
  mkTcpTransport (sock_ t) (state_ t) (useTls_ t) (skipVerify_ t) (sni_ t) (caFile_ t) (framing_ t)
    (peerAddr_ t) (tls_ t) (tlsWantRead_ t) (tlsWantWrite_ t) (ctrlQueue_ t) (sendQueue_ t)
    (recvBuf_ t) (recvOff_ t) (connectDeadlineMs_ t) (clock t) (calls t) (written t) (closedSocks t).

Definition emptyQueue : SendQueue := mkSendQueue [] 0 0.

(** A default-constructed transport. *)
Definition newTransport : TcpTransport :=
  mkTcpTransport INVALID_SOCKET Disconnected false false "" "" RFC4571 emptyAddr false false false
    emptyQueue emptyQueue [] 0 (-1) 0 0 [] [].

Inductive ConnectResult := ConnectDone | ConnectPending | ConnectError.
Inductive SockError := SoOk | SoPending | SoError.

Record TcpSys := mkTcpSys {
  sys_socket : nat -> AddrRecord -> option Z; sys_connect : nat -> AddrRecord -> ConnectResult;
  sys_soerror : nat -> SockError; tcp_send : nat -> nat -> Z * bool;
  tls_available : bool; tls_init : nat -> TlsParams -> bool; tls_handshake : nat -> TlsStatus;
  tls_write : nat -> bytes -> TlsStatus * nat }.

(** How the reads of one event end; would-block is [StopNothing]. *)
Inductive ReadStop := StopNothing | StopWantRead | StopWantWrite | StopClosed | StopFailed.

Abbreviation TM := (SM TcpTransport).

Definition queueOf (c : Chan) (t : TcpTransport) : SendQueue :=
  match c with Control => ctrlQueue_ t | Data => sendQueue_ t end.
Definition setQueue (c : Chan) (q : SendQueue) (t : TcpTransport) : TcpTransport :=
  match c with Control => t <| ctrlQueue_ := q |> | Data => t <| sendQueue_ := q |> end.

Definition setState (st : TcpState) : TM unit := modify (fun t => t <| state_ := st |>).
Definition clearTlsWantHints : TM unit :=
  modify (fun t => t <| tlsWantRead_ := false |> <| tlsWantWrite_ := false |>).

(** The number of this call of the system. *)
Definition syscall : TM nat := k ← gets calls; modify (fun t => t <| calls := S k |>);; mret k.

(** ** Connecting and closing *)

Definition close : TM unit :=
  modify (fun t => t <| tls_ := false |> <| tlsWantRead_ := false |> <| tlsWantWrite_ := false |>);;
  s ← gets sock_;
  (if s =? INVALID_SOCKET then skip else
     modify (fun t => t <| closedSocks ::= (fun l => l ++ [s]) |> <| sock_ := INVALID_SOCKET |>));;
  modify (fun t => t <| state_ := Disconnected |> <| sendQueue_ := emptyQueue |>
                     <| ctrlQueue_ := emptyQueue |> <| recvBuf_ := [] |> <| recvOff_ := 0%nat |>
                     <| connectDeadlineMs_ := -1 |>).

Definition connectTimedOut (t : TcpTransport) : bool :=
  if connectDeadlineMs_ t <=? 0 then false else
  if negb (bool_decide (state_ t = Connecting)) && negb (bool_decide (state_ t = TlsHandshaking)) then false else
  connectDeadlineMs_ t <=? clock t.

Definition setConnectTimeoutMs (timeoutMs : Z) : TM unit :=
  modify (fun t => t <| connectDeadlineMs_ := if timeoutMs <=? 0 then -1 else clock t + timeoutMs |>).

Definition setFramingMode (mode : FramingMode) : TM unit := modify (fun t => t <| framing_ := mode |>).

Definition attach (fd : Z) (peer : AddrRecord) : TM bool :=
  close;;
  modify (fun t => t <| sock_ := fd |> <| peerAddr_ := peer |> <| state_ := Connected |> <| useTls_ := false |>);;
  mret true.

Section Sys.
Context (S : TcpSys).

Definition beginConnect (dst : AddrRecord) (sni : string) (useTls skipVerify : bool) (caFile : string) : TM bool :=
  close;;
  modify (fun t => t <| useTls_ := useTls |> <| skipVerify_ := skipVerify |> <| sni_ := sni |>
                     <| caFile_ := caFile |> <| peerAddr_ := dst |>);;
  k ← syscall;
  match sys_socket S k dst with
  | None => setState Failed;; mret false
  | Some fd =>
      modify (fun t => t <| sock_ := fd |>);;
      k ← syscall;
      match sys_connect S k dst with
      | ConnectDone => setState (if useTls then Connecting else Connected);; mret true
      | ConnectPending => setState Connecting;; mret true
      | ConnectError =>
          modify (fun t => t <| state_ := Failed |> <| closedSocks ::= (fun l => l ++ [fd]) |>
                             <| sock_ := INVALID_SOCKET |>);;
          mret false
      end
  end.

(** ** Writing *)

(** [n] bytes of the queue were accepted. *)
Definition advance (c : Chan) (n : nat) : TM unit :=
  q ← gets (queueOf c);
  chunk ← lift (peek (queue q) (off q) n);
  modify (fun t => setQueue c (q <| off := (off q + n)%nat |> <| tlsPendingLen := 0%nat |>) t
                     <| written ::= (fun l => l ++ [(c, chunk)]) |>).

(** What [drain] does after its loop: -1 when the queue is empty. *)
Definition settle (c : Chan) : TM Z :=
  q ← gets (queueOf c);
  if (length (queue q) <=? off q)%nat then modify (setQueue c emptyQueue);; mret (-1)
  else
    (if 1048576 <=? Z.of_nat (off q)
     then modify (setQueue c (mkSendQueue (drop (off q) (queue q)) 0 (tlsPendingLen q))) else skip);;
    mret (POLLIN |. POLLOUT).

Fixpoint drainLoop (fuel : nat) (c : Chan) : TM Z :=
  match fuel with
  | O => lift None
  | Datatypes.S fuel =>
      q ← gets (queueOf c);
      if negb (off q <? length (queue q))%nat then settle c else
      let avail := (length (queue q) - off q)%nat in
      tls ← gets tls_;
      k ← syscall;
      if (tls : bool) then
        let len := if (tlsPendingLen q =? 0)%nat then Nat.min avail 16384 else Nat.min (tlsPendingLen q) avail in
        buf ← lift (peek (queue q) (off q) len);
        match tls_write S k buf with
        | (TlsWantRead, _) =>
            modify (fun t => setQueue c (q <| tlsPendingLen := len |>) t <| tlsWantRead_ := true |>);; mret POLLIN
        | (TlsWantWrite, _) =>
            modify (fun t => setQueue c (q <| tlsPendingLen := len |>) t <| tlsWantWrite_ := true |>);;
            mret (POLLIN |. POLLOUT)
        | (TlsOk, n) =>
            if (n =? 0)%nat then settle c else clearTlsWantHints;; advance c n;; drainLoop fuel c
        | _ => setState Failed;; mret 0
        end
      else
        let '(r, wb) := tcp_send S k (Nat.min avail 65536) in
        if 0 <? r then advance c (Z.to_nat r);; drainLoop fuel c
        else if wb then settle c
        else setState Failed;; mret 0
  end.

Definition drain (c : Chan) : TM Z :=
  q ← gets (queueOf c); drainLoop (Datatypes.S (length (queue q) - off q)) c.

Definition flushSends : TM Z :=
  r ← drain Control;
  if 0 <=? r then mret r else
  r ← drain Data;
  if 0 <=? r then mret r else mret POLLIN.

Definition kSendQueueHighWater : Z := 16 * 1024 * 1024.

(** The bytes queued for a message. *)
Definition framed (mode : FramingMode) (data : bytes) : bytes :=
  match mode with RFC4571 => writeU16Be (Z.of_nat (length data)) ++ data | Raw => data end.

Definition enqueue (c : Chan) (data : bytes) : TM unit :=
  m ← gets framing_;
  modify (fun t => setQueue c (queueOf c t <| queue ::= (fun b => b ++ framed m data) |>) t).

Definition down (t : TcpTransport) : bool :=
  bool_decide (state_ t = Failed) || bool_decide (state_ t = Disconnected).

Definition flushIfConnected : TM unit :=
  st ← gets state_; if bool_decide (st = Connected) then flushSends;; skip else skip.

Definition send (data : bytes) : TM bool :=
  d ← gets down;
  if (d : bool) then mret false else
  q ← gets sendQueue_;
  if kSendQueueHighWater <? Z.of_nat (length (queue q)) then mret false else
  enqueue Data data;; flushIfConnected;; mret true.

Definition sendControl (data : bytes) : TM bool :=
  d ← gets down;
  if (d : bool) then mret false else
  enqueue Control data;; flushIfConnected;; mret true.

(** ** Events *)

Definition driveTlsHandshake : TM Z :=
  tls ← gets tls_;
  if negb tls then setState Failed;; mret 0 else
  k ← syscall;
  match tls_handshake S k with
  | TlsOk => setState Connected;; clearTlsWantHints;; flushSends
  | TlsWantRead => modify (fun t => t <| tlsWantRead_ := true |> <| tlsWantWrite_ := false |>);; mret POLLIN
  | TlsWantWrite =>
      modify (fun t => t <| tlsWantWrite_ := true |> <| tlsWantRead_ := false |>);; mret (POLLIN |. POLLOUT)
  | _ => setState Failed;; mret 0
  end.

(** What follows the connection attempt in [onWritable]. *)
Definition afterConnect : TM Z :=
  st ← gets state_;
  if bool_decide (st = TlsHandshaking) then driveTlsHandshake else flushSends.

Definition onWritable : TM Z :=
  st ← gets state_;
  if negb (bool_decide (st = Connecting)) then afterConnect else
  k ← syscall;
  match sys_soerror S k with
  | SoPending => mret POLLOUT
  | SoError => setState Failed;; mret 0
  | SoOk =>
      useTls ← gets useTls_;
      if negb useTls || negb (tls_available S) then setState Connected;; afterConnect else
      params ← gets (fun t => mkTlsParams (sni_ t) (skipVerify_ t) (caFile_ t));
      k ← syscall;
      if negb (tls_init S k params) then modify (fun t => t <| tls_ := false |> <| state_ := Failed |>);; mret 0
      else modify (fun t => t <| tls_ := true |> <| state_ := TlsHandshaking |>);; driveTlsHandshake
  end.

(** Appending to [recvBuf_], compacting the consumed prefix first. *)
Definition storeRead (chunk : bytes) : TM unit :=
  modify (fun t =>
    let t := if (0 <? recvOff_ t)%nat &&
                ((1048576 <=? Z.of_nat (recvOff_ t)) || (length (recvBuf_ t) <=? recvOff_ t)%nat)
             then t <| recvBuf_ := drop (recvOff_ t) (recvBuf_ t) |> <| recvOff_ := 0%nat |> else t in
    t <| recvBuf_ ::= (fun b => b ++ chunk) |>).

Definition endReads (tls : bool) (stop : ReadStop) : TM Z :=
  match stop with
  | StopClosed => setState Disconnected;; mret 0
  | StopFailed => setState Failed;; mret 0
  | StopWantRead => (if tls then modify (fun t => t <| tlsWantRead_ := true |>) else skip);; mret POLLIN
  | StopWantWrite =>
      if tls then modify (fun t => t <| tlsWantWrite_ := true |>);; mret (POLLIN |. POLLOUT) else mret POLLIN
  | StopNothing => mret POLLIN
  end.

Definition onReadable (chunks : list bytes) (stop : ReadStop) : TM Z :=
  st ← gets state_;
  if bool_decide (st = TlsHandshaking) then driveTlsHandshake else
  if negb (bool_decide (st = Connected)) then mret POLLIN else
  tls ← gets tls_;
  forM chunks (fun c => (if (tls : bool) then clearTlsWantHints else skip);; storeRead c);;
  endReads tls stop.

End Sys.

(** ** Reading *)

Definition consume (n : nat) (t : TcpTransport) : TcpTransport :=
  let o := (recvOff_ t + n)%nat in
  if (length (recvBuf_ t) <=? o)%nat then t <| recvBuf_ := [] |> <| recvOff_ := 0%nat |>
  else if 1048576 <=? Z.of_nat o then t <| recvBuf_ := drop o (recvBuf_ t) |> <| recvOff_ := 0%nat |>
  else t <| recvOff_ := o |>.

(** The bytes written to the caller's buffer; their number is the result. *)
Definition recv (outSize : nat) : TM bytes :=
  t ← gets id;
  let avail := (length (recvBuf_ t) - recvOff_ t)%nat in
  match framing_ t with
  | Raw =>
      if (avail =? 0)%nat then mret [] else
      let n := Nat.min avail outSize in
      out ← lift (peek (recvBuf_ t) (recvOff_ t) n);
      modify (consume n);; mret out
  | RFC4571 =>
      if (avail <? 2)%nat then mret [] else
      len ← lift (readU16Be (recvBuf_ t) (recvOff_ t));
      if len =? 0 then modify (consume 2);; mret [] else
      if (avail <? 2 + Z.to_nat len)%nat then mret [] else
      out ← lift (peek (recvBuf_ t) (recvOff_ t + 2) (Nat.min (Z.to_nat len) outSize));
      modify (consume (2 + Z.to_nat len));; mret out
  end.

(** [char buf[65536]]. *)
Definition bufSize : nat := Z.to_nat 65536.

(** The loop of a reader ([TcpMuxConn::driveData]): messages until none is complete.  Every turn
    but the last takes at least one byte from the buffer. *)
Fixpoint drive (fuel : nat) : TM (list bytes) :=
  match fuel with
  | O => mret []
  | Datatypes.S fuel =>
      m ← recv bufSize;
      if (length m =? 0)%nat then mret [] else ms ← drive fuel; mret (m :: ms)
  end.

Definition driveAll : TM (list bytes) := n ← gets (fun t => length (recvBuf_ t)); drive (Datatypes.S n).

Definition wantsWrite (t : TcpTransport) : bool :=
  (off (ctrlQueue_ t) <? length (queue (ctrlQueue_ t)))%nat || (off (sendQueue_ t) <? length (queue (sendQueue_ t)))%nat ||
  bool_decide (state_ t = Connecting) || (bool_decide (state_ t = TlsHandshaking) && tlsWantWrite_ t).

(** The limit [sendQueueFull] looks at is half of the one of [send]. *)
Definition kSendQueueFull : Z := 8 * 1024 * 1024.
Definition sendQueueFull (t : TcpTransport) : bool :=
  kSendQueueFull <=? Z.of_nat (length (queue (sendQueue_ t)) - off (sendQueue_ t)).
