(* ===== verification/TcpStream.v ===== *)
(** * Streams of messages over the TCP transport

    Each of the two queues is a FIFO: whatever the socket accepts of the bytes it is offered,
    nothing is lost, repeated or reordered.  A receiver cuts the stream into the messages
    that were sent, however it arrives, as long as no control frame is sent; a control frame
    can be written into the middle of a data frame, and then the receiver reads a message
    nobody sent. *)

From S2P Require Import Prelude.
From S2P Require Import StateMonad.
From S2P Require Import Bytes.
From S2P Require Import Addr.
From S2P Require Import TcpTransport.
Open Scope Z_scope.
Open Scope c_scope.

(** ** The abstract queues *)

Definition pendingOf (q : SendQueue) : bytes := drop (off q) (queue q).
Definition queue_ok (q : SendQueue) : Prop := (off q <= length (queue q))%nat.

(** The bytes of one queue among what was written. *)
Definition accepted (c : Chan) (l : list (Chan * bytes)) : bytes :=
  mjoin (omap (fun p => if decide (p.1 = c) then Some p.2 else None) l).

Lemma accepted_app c l l' : accepted c (l ++ l') = accepted c l ++ accepted c l'.
Proof. unfold accepted. by rewrite omap_app, join_app. Qed.

Lemma accepted_one c c' b : accepted c [(c', b)] = if decide (c' = c) then b else [].
Proof. unfold accepted. cbn. by destruct (decide (c' = c)); cbn; rewrite ?app_nil_r. Qed.

(** [all c] are the bytes ever queued in [c]. *)
Record books (all : Chan -> bytes) (t : TcpTransport) : Prop := {
  bk_ok : forall c, queue_ok (queueOf c t);
  bk_all : forall c, accepted c (written t) ++ pendingOf (queueOf c t) = all c;
}.

(** What writing leaves alone. *)
Record kept (t t' : TcpTransport) : Prop := {
  kp_framing : framing_ t' = framing_ t; kp_recv : recvBuf_ t' = recvBuf_ t; kp_off : recvOff_ t' = recvOff_ t;
  kp_state : state_ t' = state_ t \/ state_ t' = Failed;
}.

Lemma kept_refl t : kept t t.
Proof. constructor; auto. Qed.

Lemma kept_trans t1 t2 t3 : kept t1 t2 -> kept t2 t3 -> kept t1 t3.
Proof. intros [] []. constructor; try congruence. destruct kp_state1 as [-> |]; auto. Qed.

(** The system's part of the contract: no more is accepted than was offered. *)
Record sys_ok (S : TcpSys) : Prop := {
  so_send : forall k len, (tcp_send S k len).1 <= Z.of_nat len;
  so_tls : forall k b, ((tls_write S k b).2 <= length b)%nat;
}.

Section Queues.
Context (S : TcpSys) (HS : sys_ok S) (all : Chan -> bytes).

Lemma queueOf_set c q t : queueOf c (setQueue c q t) = q.
Proof. by destruct c. Qed.

Lemma queueOf_other c c' q t : c <> c' -> queueOf c' (setQueue c q t) = queueOf c' t.
Proof. by destruct c, c'. Qed.

(** Replacing a queue by one that holds the same bytes. *)
Lemma books_set c q t :
  books all t -> queue_ok q -> pendingOf q = pendingOf (queueOf c t) -> books all (setQueue c q t).
Proof.
  intros [H1 H2] Hq Hp. assert (Hw : written (setQueue c q t) = written t) by by destruct c.
  constructor; intros c'; (destruct (decide (c = c')) as [<-|Hne];
    [rewrite queueOf_set|rewrite queueOf_other by done]); rewrite ?Hw, ?Hp; auto.
Qed.

Lemma kept_set c q t : kept t (setQueue c q t).
Proof. destruct c; constructor; auto. Qed.

Lemma wp_advance c n t :
  books all t -> (n <= length (pendingOf (queueOf c t)))%nat ->
  wp (advance c n) (fun _ t' => books all t' /\ kept t t' /\
    (exists b, written t' = written t ++ [(c, b)]) /\
    length (pendingOf (queueOf c t')) = (length (pendingOf (queueOf c t)) - n)%nat) t.
Proof.
  intros [H1 H2] Hn. unfold advance. apply wp_bind, wp_gets. set (q := queueOf c t) in *.
  pose proof (H1 c) as Hq. fold q in Hq. unfold queue_ok in Hq. unfold pendingOf in Hn. rewrite length_drop in Hn.
  apply wp_bind. eapply wp_lift; [apply peek_inb; lia|]. apply wp_modify.
  set (q' := q <| off := (off q + n)%nat |> <| tlsPendingLen := 0%nat |>). set (b := take n (drop (off q) (queue q))).
  assert (Hp : pendingOf q = b ++ pendingOf q').
  { unfold pendingOf, b, q', field_update. cbn [off queue]. rewrite <- drop_drop. by rewrite take_drop. }
  assert (Hq' : queueOf c (setQueue c q' t <| written ::= (fun l => l ++ [(c, b)]) |>) = q') by by destruct c.
  split; [|split; [|split]].
  - constructor; intros c'.
    + destruct (decide (c' = c)) as [->|Hne].
      * rewrite Hq'. unfold queue_ok, q', field_update. cbn [off queue]. lia.
      * replace (queueOf c' _) with (queueOf c' t) by (by destruct c, c'). apply H1.
    + replace (written _) with (written t ++ [(c, b)]) by (by destruct c).
      rewrite accepted_app, accepted_one, <- app_assoc. specialize (H2 c').
      destruct (decide (c = c')) as [<-|Hne].
      * rewrite Hq', <- Hp. exact H2.
      * replace (queueOf c' _) with (queueOf c' t) by (by destruct c, c'). exact H2.
  - destruct c; constructor; auto.
  - exists b. by destruct c.
  - rewrite Hq'. unfold pendingOf, q', field_update. cbn [off queue]. rewrite !length_drop. lia.
Qed.

(** The result of draining [c]: only [c] was written, and a negative result means that
    nothing of it is left. *)
Definition drained (c : Chan) (t : TcpTransport) (r : Z) (t' : TcpTransport) : Prop :=
  books all t' /\ kept t t' /\ (exists l, written t' = written t ++ ((c,.) <$> l)) /\
  (r < 0 -> pendingOf (queueOf c t') = []).

Lemma drained_trans c t t1 r t2 :
  kept t t1 -> (exists b, written t1 = written t ++ [(c, b)]) -> drained c t1 r t2 -> drained c t r t2.
Proof.
  intros Hk [b Hb] (H1 & H2 & [l Hl] & H4). split; [done|]. split; [by eapply kept_trans|]. split; [|done].
  exists (b :: l). by rewrite Hl, Hb, <- app_assoc.
Qed.

Lemma drained_here c t r t' :
  books all t' -> kept t t' -> written t' = written t -> 0 <= r -> drained c t r t'.
Proof. intros H1 H2 H3 H4. split; [done|]. split; [done|]. split; [exists []; by rewrite app_nil_r|lia]. Qed.

Lemma wp_settle c t : books all t -> wp (settle c) (drained c t) t.
Proof.
  intros Hb. pose proof (bk_ok _ _ Hb c) as Hq. unfold queue_ok in Hq. unfold settle. apply wp_bind, wp_gets.
  destruct (Nat.leb_spec (length (queue (queueOf c t))) (off (queueOf c t))) as [Hle|Hlt].
  - apply wp_bind, wp_modify, wp_ret.
    assert (Hp : pendingOf (queueOf c t) = []) by (unfold pendingOf; by apply drop_ge).
    split; [apply books_set; [done|unfold queue_ok; cbn; lia|by rewrite Hp]|].
    split; [apply kept_set|]. split; [exists []; rewrite app_nil_r; by destruct c|]. by rewrite queueOf_set.
  - apply wp_bind. eapply (wp_mono _ (fun _ t' => books all t' /\ kept t t' /\ written t' = written t)).
    { destruct (_ <=? _); [apply wp_modify|by apply wp_ret; split; [|split; [apply kept_refl|]]].
      split; [apply books_set; [done|unfold queue_ok; cbn; lia|by unfold pendingOf]|].
      split; [apply kept_set|by destruct c]. }
    intros _ t' (H1 & H2 & H3). apply wp_ret. by apply drained_here.
Qed.

Lemma books_same t t' :
  books all t -> written t' = written t -> (forall c, queueOf c t' = queueOf c t) -> books all t'.
Proof. intros [H1 H2] Hw Hq. constructor; intros c; rewrite ?Hw, Hq; auto. Qed.

Lemma wp_drainLoop fuel c t :
  books all t -> (length (pendingOf (queueOf c t)) < fuel)%nat -> wp (drainLoop S fuel c) (drained c t) t.
Proof.
  revert t. induction fuel as [|fuel IH]; intros t Hb Hf; [lia|]. cbn [drainLoop]. apply wp_bind, wp_gets.
  pose proof (bk_ok _ _ Hb c) as Hq. unfold queue_ok in Hq. set (q := queueOf c t) in *.
  assert (Hlen : length (pendingOf q) = (length (queue q) - off q)%nat) by apply length_drop.
  destruct (Nat.ltb_spec (off q) (length (queue q))) as [Hlt|]; cbn [negb]; [|by apply wp_settle].
  apply wp_bind, wp_gets, wp_bind. unfold syscall. apply wp_bind, wp_gets, wp_bind, wp_modify, wp_ret.
  set (t1 := t <| calls := Datatypes.S (calls t) |>).
  assert (B1 : books all t1) by (eapply books_same; [exact Hb|done|by intros []]).
  assert (K1 : kept t t1) by (constructor; auto).
  assert (Hq1 : queueOf c t1 = q) by by destruct c.
  assert (Hgo : forall n, (0 < n <= length (pendingOf q))%nat -> forall t2, books all t2 -> kept t t2 ->
            written t2 = written t -> queueOf c t2 = q ->
            wp (advance c n ≫= (fun _ => drainLoop S fuel c)) (drained c t) t2).
  { intros n Hn t2 B2 K2 W2 Q2. apply wp_bind. eapply wp_mono; [apply wp_advance; [done|rewrite Q2; lia]|].
    intros [] t3 (B3 & K3 & [b W3] & L3). rewrite Q2 in L3. eapply wp_mono; [apply IH; [done|lia]|].
    intros r t4 H4. eapply drained_trans; [by eapply kept_trans| |exact H4]. exists b. by rewrite W3, W2. }
  assert (Hset : forall t2, books all t2 -> kept t t2 -> written t2 = written t -> wp (settle c) (drained c t) t2).
  { intros t2 B2 K2 W2. eapply wp_mono; [by apply wp_settle|]. intros r t3 (B3 & K3 & [l W3] & P3).
    split; [done|]. split; [by eapply kept_trans|]. split; [exists l; by rewrite W3, W2|done]. }
  destruct (tls_ t).
  - set (len := if (tlsPendingLen q =? 0)%nat then _ else _).
    assert (Hl : (len <= length (pendingOf q))%nat).
    { unfold len. destruct (_ =? _)%nat; lia. }
    apply wp_bind. eapply wp_lift; [apply peek_inb; lia|].
    pose proof (so_tls _ HS (calls t) (take len (drop (off q) (queue q)))) as Hn.
    rewrite length_take, length_drop in Hn. destruct (tls_write S _ _) as [[] n]; cbn [snd] in Hn.
    + destruct (Nat.eqb_spec n 0); [by apply Hset|]. apply wp_bind. unfold clearTlsWantHints. apply wp_modify.
      apply Hgo; [lia| | |done|by destruct c]; [|constructor; auto].
      eapply books_same; [exact Hb|done|by intros []].
    + apply wp_bind, wp_modify, wp_ret. apply drained_here; [| |by destruct c|done].
      * eapply books_same; [apply (books_set c (q <| tlsPendingLen := len |>) t1 B1); [done|by rewrite Hq1]|by destruct c|by destruct c; intros []].
      * destruct c; constructor; auto.
    + apply wp_bind, wp_modify, wp_ret. apply drained_here; [| |by destruct c|done].
      * eapply books_same; [apply (books_set c (q <| tlsPendingLen := len |>) t1 B1); [done|by rewrite Hq1]|by destruct c|by destruct c; intros []].
      * destruct c; constructor; auto.
    + apply wp_bind. unfold setState. apply wp_modify, wp_ret. apply drained_here; [|constructor; auto|done|done].
      eapply books_same; [exact Hb|done|by intros []].
    + apply wp_bind. unfold setState. apply wp_modify, wp_ret. apply drained_here; [|constructor; auto|done|done].
      eapply books_same; [exact Hb|done|by intros []].
  - set (n := Nat.min _ 65536). pose proof (so_send _ HS (calls t) n) as Hn.
    destruct (tcp_send S _ _) as [r wb]. cbn [fst] in Hn. destruct (Z.ltb_spec 0 r).
    + apply Hgo; [unfold n in Hn; lia|done|done|done|done].
    + destruct wb; [by apply Hset|]. apply wp_bind. unfold setState. apply wp_modify, wp_ret.
      apply drained_here; [|constructor; auto|done|done]. eapply books_same; [exact Hb|done|by intros []].
Qed.

Lemma wp_drain c t : books all t -> wp (drain S c) (drained c t) t.
Proof.
  intros Hb. unfold drain. apply wp_bind, wp_gets. apply wp_drainLoop; [done|].
  unfold pendingOf. rewrite length_drop. lia.
Qed.

(** An operation that writes, or changes nothing the books are about. *)
Definition writes (t : TcpTransport) {A} (r : A) (t' : TcpTransport) : Prop := books all t' /\ kept t t'.

Lemma wp_flushSends t : books all t -> wp (flushSends S) (writes t) t.
Proof.
  intros Hb. unfold flushSends. apply wp_bind. eapply wp_mono; [by apply wp_drain|].
  intros r t1 (B1 & K1 & _). destruct (0 <=? r); [by apply wp_ret|]. apply wp_bind.
  eapply wp_mono; [by apply wp_drain|]. intros r2 t2 (B2 & K2 & _).
  pose proof (kept_trans _ _ _ K1 K2). destruct (0 <=? r2); by apply wp_ret.
Qed.

Lemma wp_flushIfConnected t : books all t -> wp (flushIfConnected S) (writes t) t.
Proof.
  intros Hb. unfold flushIfConnected. apply wp_bind, wp_gets. case_bool_decide.
  - apply wp_bind. eapply wp_mono; [by apply wp_flushSends|]. intros r t' H'. by apply wp_ret.
  - apply wp_ret. split; [done|apply kept_refl].
Qed.

End Queues.

(** Queueing a message adds its frame. *)
Definition also (all : Chan -> bytes) (c : Chan) (b : bytes) (c' : Chan) : bytes :=
  if decide (c = c') then all c' ++ b else all c'.

Lemma wp_enqueue all c data t :
  books all t -> wp (enqueue c data) (fun _ t' => books (also all c (framed (framing_ t) data)) t' /\ kept t t') t.
Proof.
  intros [H1 H2]. unfold enqueue. apply wp_bind, wp_gets, wp_modify. set (b := framed (framing_ t) data).
  set (q := queueOf c t <| queue ::= (fun x => x ++ b) |>).
  assert (Hp : pendingOf q = pendingOf (queueOf c t) ++ b).
  { unfold pendingOf, q, field_update. cbn [off queue]. apply drop_app_le, H1. }
  split; [|apply kept_set]. assert (Hw : written (setQueue c q t) = written t) by by destruct c.
  constructor; intros c'; unfold also; (destruct (decide (c = c')) as [<-|Hne];
    [rewrite queueOf_set|rewrite queueOf_other by done]).
  - unfold queue_ok, q, field_update. cbn [off queue]. rewrite length_app. pose proof (H1 c). unfold queue_ok in *. lia.
  - apply H1.
  - by rewrite Hw, Hp, app_assoc, H2.
  - by rewrite Hw, H2.
Qed.

(** ** Runs *)

Inductive Call :=
| CSend (data : bytes) | CSendControl (data : bytes) | CWritable
| CReadable (chunks : list bytes) (stop : ReadStop) | CRecv (outSize : nat) | CTimeout (ms : Z).

(** The messages a call accepted. *)
Definition call (S : TcpSys) (c : Call) : TM (list (Chan * bytes)) :=
  match c with
  | CSend d => ok ← send S d; mret (if (ok : bool) then [(Data, d)] else [])
  | CSendControl d => ok ← sendControl S d; mret (if (ok : bool) then [(Control, d)] else [])
  | CWritable => onWritable S;; mret []
  | CReadable chunks stop => onReadable S chunks stop;; mret []
  | CRecv n => recv n;; mret []
  | CTimeout ms => setConnectTimeoutMs ms;; mret []
  end.

Fixpoint run (S : TcpSys) (l : list Call) : TM (list (Chan * bytes)) :=
  match l with
  | [] => mret []
  | c :: l => m ← call S c; r ← run S l; mret (m ++ r)
  end.

Definition framesOf (mode : FramingMode) (c : Chan) (l : list (Chan * bytes)) : bytes :=
  mjoin (omap (fun p => if decide (p.1 = c) then Some (framed mode p.2) else None) l).

Lemma framesOf_app mode c l l' : framesOf mode c (l ++ l') = framesOf mode c l ++ framesOf mode c l'.
Proof. unfold framesOf. by rewrite omap_app, join_app. Qed.

Lemma framesOf_one mode c c' d : framesOf mode c [(c', d)] = if decide (c' = c) then framed mode d else [].
Proof. unfold framesOf. cbn. by destruct (decide (c' = c)); cbn; rewrite ?app_nil_r. Qed.

Definition recv_ok (t : TcpTransport) : Prop := (recvOff_ t <= length (recvBuf_ t))%nat.

(** The invariant of a run: the books, the receive buffer and the framing mode. *)
Record tinv (mode : FramingMode) (all : Chan -> bytes) (t : TcpTransport) : Prop := {
  ti_books : books all t; ti_recv : recv_ok t; ti_mode : framing_ t = mode;
}.

Lemma tinv_kept mode all all' t t' : tinv mode all t -> books all' t' -> kept t t' -> tinv mode all' t'.
Proof. intros [H1 H2 H3] Hb []. constructor; [done| |congruence]. unfold recv_ok in *. by rewrite kp_recv0, kp_off0. Qed.

Lemma books_ext all all' t : books all t -> (forall c, all c = all' c) -> books all' t.
Proof. intros [H1 H2] He. constructor; [done|]. intros c. by rewrite H2. Qed.

Lemma tinv_ext mode all all' t : tinv mode all t -> (forall c, all c = all' c) -> tinv mode all' t.
Proof. intros [H1 H2 H3] He. constructor; [by eapply books_ext|done|done]. Qed.

(** A change that the invariant does not see. *)
Lemma tinv_same mode all t t' :
  tinv mode all t -> written t' = written t -> (forall c, queueOf c t' = queueOf c t) ->
  recvBuf_ t' = recvBuf_ t -> recvOff_ t' = recvOff_ t -> framing_ t' = framing_ t -> tinv mode all t'.
Proof.
  intros [H1 H2 H3] Hw Hq Hb Ho Hf. constructor; [by eapply books_same| |congruence].
  unfold recv_ok in *. by rewrite Hb, Ho.
Qed.

Section Runs.
Context (S : TcpSys) (HS : sys_ok S) (mode : FramingMode) (all : Chan -> bytes).

Abbreviation keeps m t := (wp m (fun _ t' => tinv mode all t') t).

Lemma keeps_flushSends t : tinv mode all t -> keeps (flushSends S) t.
Proof.
  intros H. eapply wp_mono; [apply (wp_flushSends S HS all), H|]. intros r t' [B K]. by eapply tinv_kept.
Qed.

Lemma keeps_modify f t :
  tinv mode all t -> (forall t, written (f t) = written t) -> (forall c t, queueOf c (f t) = queueOf c t) ->
  (forall t, recvBuf_ (f t) = recvBuf_ t) -> (forall t, recvOff_ (f t) = recvOff_ t) ->
  (forall t, framing_ (f t) = framing_ t) -> keeps (modify f) t.
Proof. intros H H1 H2 H3 H4 H5. apply wp_modify. eapply tinv_same; eauto. Qed.

Lemma keeps_setState st t : tinv mode all t -> keeps (setState st) t.
Proof. intros H. by apply keeps_modify. Qed.

Lemma keeps_hints t : tinv mode all t -> keeps clearTlsWantHints t.
Proof. intros H. by apply keeps_modify. Qed.

Lemma keeps_syscall t : tinv mode all t -> keeps syscall t.
Proof.
  intros H. unfold syscall. apply wp_bind, wp_gets, wp_bind, wp_modify, wp_ret.
  eapply tinv_same; [done..|by intros []|done|done|done].
Qed.

Lemma keeps_bind {A B} (m : TM A) (k : A -> TM B) t :
  keeps m t -> (forall a t', tinv mode all t' -> keeps (k a) t') -> keeps (m ≫= k) t.
Proof. intros H1 H2. apply wp_bind. eapply wp_mono; [exact H1|]. intros a t'. apply H2. Qed.

Lemma keeps_then {A} st (x : A) t : tinv mode all t -> keeps (setState st ≫= (fun _ => mret x)) t.
Proof. intros H. apply keeps_bind; [by apply keeps_setState|]. intros _ t' H'. by apply wp_ret. Qed.

Lemma keeps_handshake t : tinv mode all t -> keeps (driveTlsHandshake S) t.
Proof.
  intros H. unfold driveTlsHandshake. apply wp_bind, wp_gets. destruct (tls_ t); [|by apply keeps_then].
  apply keeps_bind; [by apply keeps_syscall|]. intros k t1 H1. destruct (tls_handshake S k); try by apply keeps_then.
  - apply keeps_bind; [by apply keeps_setState|]. intros _ t2 H2. apply keeps_bind; [by apply keeps_hints|].
    intros _ t3 H3. by apply keeps_flushSends.
  - apply keeps_bind; [by apply keeps_modify|]. intros _ t2 H2. by apply wp_ret.
  - apply keeps_bind; [by apply keeps_modify|]. intros _ t2 H2. by apply wp_ret.
Qed.

Lemma keeps_afterConnect t : tinv mode all t -> keeps (afterConnect S) t.
Proof.
  intros H. unfold afterConnect. apply wp_bind, wp_gets. case_bool_decide; [by apply keeps_handshake|by apply keeps_flushSends].
Qed.

Lemma keeps_onWritable t : tinv mode all t -> keeps (onWritable S) t.
Proof.
  intros H. unfold onWritable. apply wp_bind, wp_gets. case_bool_decide; cbn [negb]; [|by apply keeps_afterConnect].
  apply keeps_bind; [by apply keeps_syscall|]. intros k t1 H1. destruct (sys_soerror S k); [|by apply wp_ret|by apply keeps_then].
  apply wp_bind, wp_gets. destruct (negb _ || negb _).
  - apply keeps_bind; [by apply keeps_setState|]. intros _ t2 H2. by apply keeps_afterConnect.
  - apply wp_bind, wp_gets. apply keeps_bind; [by apply keeps_syscall|]. intros k2 t2 H2. destruct (tls_init S k2 _); cbn [negb].
    + apply keeps_bind; [by apply keeps_modify|]. intros _ t3 H3. by apply keeps_handshake.
    + apply keeps_bind; [by apply keeps_modify|]. intros _ t3 H3. by apply wp_ret.
Qed.

Lemma keeps_storeRead b t : tinv mode all t -> keeps (storeRead b) t.
Proof.
  intros [H1 H2 H3]. unfold storeRead. apply wp_modify. unfold recv_ok in *.
  destruct (_ && _); constructor; try done.
  - eapply books_same; [exact H1|done|by intros []].
  - unfold recv_ok. unfold field_update. cbn. lia.
  - eapply books_same; [exact H1|done|by intros []].
  - unfold recv_ok. unfold field_update. cbn. rewrite length_app. lia.
Qed.

Lemma keeps_onReadable chunks stop t : tinv mode all t -> keeps (onReadable S chunks stop) t.
Proof.
  intros H. unfold onReadable. apply wp_bind, wp_gets. case_bool_decide; [by apply keeps_handshake|].
  case_bool_decide; cbn [negb]; [|by apply wp_ret]. apply wp_bind, wp_gets. apply keeps_bind.
  - apply wp_forM; [|done]. intros b t1 _ Ht1. apply keeps_bind; [destruct (tls_ t); [by apply keeps_hints|by apply wp_ret]|].
    intros _ t2 H2. by apply keeps_storeRead.
  - intros _ t1 Ht1. destruct stop; cbn [endReads]; try (by apply keeps_then); [by apply wp_ret| |].
    + apply keeps_bind; [destruct (tls_ t); [by apply keeps_modify|by apply wp_ret]|].
      intros _ t2 H2. by apply wp_ret.
    + destruct (tls_ t); [|by apply wp_ret]. apply keeps_bind; [by apply keeps_modify|].
      intros _ t2 H2. by apply wp_ret.
Qed.

(** ** Receiving *)

End Runs.

Definition rest (t : TcpTransport) : bytes := drop (recvOff_ t) (recvBuf_ t).

(** The receive buffer changes, nothing else. *)
Record same_else (t t' : TcpTransport) : Prop := {
  se_written : written t' = written t; se_queue : forall c, queueOf c t' = queueOf c t;
  se_framing : framing_ t' = framing_ t; se_state : state_ t' = state_ t; se_tls : tls_ t' = tls_ t;
}.

Lemma same_else_refl t : same_else t t.
Proof. by constructor. Qed.

Lemma same_else_trans t1 t2 t3 : same_else t1 t2 -> same_else t2 t3 -> same_else t1 t3.
Proof. intros [] []. constructor; congruence. Qed.

Lemma consume_spec n t :
  recv_ok t -> (n <= length (rest t))%nat ->
  recv_ok (consume n t) /\ rest (consume n t) = drop n (rest t) /\ same_else t (consume n t).
Proof.
  unfold recv_ok, rest, consume. rewrite length_drop. intros Hr Hn. rewrite drop_drop.
  destruct (Nat.leb_spec (length (recvBuf_ t)) (recvOff_ t + n)) as [Hle|Hlt].
  - split; [unfold field_update; cbn; lia|]. split; [|by constructor]. rewrite (drop_ge (recvBuf_ t)) by done. done.
  - destruct (_ <=? _).
    + split; [unfold field_update; cbn; lia|]. split; [done|by constructor].
    + split; [unfold field_update; cbn; lia|]. split; [done|by constructor].
Qed.

Lemma wp_recv n t :
  recv_ok t -> wp (recv n) (fun _ t' => recv_ok t' /\ same_else t t') t.
Proof.
  intros Hr. unfold recv. apply wp_bind, wp_gets. unfold id.
  assert (Hl : length (rest t) = (length (recvBuf_ t) - recvOff_ t)%nat) by apply length_drop.
  unfold recv_ok in Hr. destruct (framing_ t).
  - destruct (Nat.ltb_spec (length (recvBuf_ t) - recvOff_ t) 2) as [|H2]; [by apply wp_ret|].
    destruct (lookup_lt_is_Some_2 (recvBuf_ t) (recvOff_ t)) as [b0 E0]; [lia|].
    destruct (lookup_lt_is_Some_2 (recvBuf_ t) (recvOff_ t + 1)) as [b1 E1]; [lia|].
    apply wp_bind. eapply wp_lift; [unfold readU16Be; rewrite E0; cbn; by rewrite E1|].
    set (len := u16 _). destruct (len =? 0).
    { apply wp_bind, wp_modify, wp_ret. destruct (consume_spec 2 t) as (H3 & _ & H4); [done|lia|done]. }
    destruct (Nat.ltb_spec (length (recvBuf_ t) - recvOff_ t) (2 + Z.to_nat len)) as [|H3]; [by apply wp_ret|].
    apply wp_bind. eapply wp_lift; [apply peek_inb; lia|]. apply wp_bind, wp_modify, wp_ret.
    destruct (consume_spec (2 + Z.to_nat len) t) as (H4 & _ & H5); [done|lia|done].
  - destruct (_ =? _)%nat; [by apply wp_ret|]. apply wp_bind. eapply wp_lift; [apply peek_inb; lia|].
    apply wp_bind, wp_modify, wp_ret. destruct (consume_spec (Nat.min (length (recvBuf_ t) - recvOff_ t) n) t) as (H4 & _ & H5); [done|lia|done].
Qed.

(** ** The queues are FIFOs *)

Definition plus (all : Chan -> bytes) (mode : FramingMode) (l : list (Chan * bytes)) (c : Chan) : bytes :=
  all c ++ framesOf mode c l.

Lemma wp_queueing S (HS : sys_ok S) mode all c d t :
  tinv mode all t ->
  wp (enqueue c d ≫= (fun _ => flushIfConnected S ≫= (fun _ => mret true)))
    (fun ok t' => tinv mode (plus all mode [(c, d)]) t' /\ ok = true) t.
Proof.
  intros H. apply wp_bind. eapply wp_mono; [apply wp_enqueue, H|]. intros [] t1 [B1 K1]. apply wp_bind.
  eapply wp_mono; [apply (wp_flushIfConnected S HS _ t1 B1)|]. intros [] t2 [B2 K2]. apply wp_ret. split; [|done].
  eapply tinv_ext; [eapply tinv_kept; [exact H|exact B2|by eapply kept_trans]|].
  intros c'. unfold also, plus. rewrite framesOf_one, (ti_mode _ _ _ H). destruct (decide (c = c')); [done|by rewrite app_nil_r].
Qed.

Lemma plus_nil mode all t : tinv mode all t -> tinv mode (plus all mode []) t.
Proof. intros H. eapply tinv_ext; [exact H|]. intros c. unfold plus, framesOf. cbn. by rewrite app_nil_r. Qed.

Lemma wp_call S (HS : sys_ok S) mode all c t :
  tinv mode all t -> wp (call S c) (fun m t' => tinv mode (plus all mode m) t') t.
Proof.
  intros H. assert (Hnil : forall A (m : TM A), wp m (fun _ t' => tinv mode all t') t ->
    wp (m ≫= (fun _ => mret [])) (fun m t' => tinv mode (plus all mode m) t') t).
  { intros A m Hm. apply wp_bind. eapply wp_mono; [exact Hm|]. intros a t' H'. by apply wp_ret, plus_nil. }
  destruct c as [d|d| |chunks stop|n|ms]; cbn [call].
  - apply wp_bind. unfold send. apply wp_bind, wp_gets. destruct (down t); [by do 2 apply wp_ret; apply plus_nil|].
    apply wp_bind, wp_gets. destruct (_ <? _); [by do 2 apply wp_ret; apply plus_nil|].
    eapply wp_mono; [by apply wp_queueing|]. intros ok t' [H' ->]. by apply wp_ret.
  - apply wp_bind. unfold sendControl. apply wp_bind, wp_gets. destruct (down t); [by do 2 apply wp_ret; apply plus_nil|].
    eapply wp_mono; [by apply wp_queueing|]. intros ok t' [H' ->]. by apply wp_ret.
  - apply Hnil. by apply keeps_onWritable.
  - apply Hnil. by apply keeps_onReadable.
  - apply Hnil. eapply wp_mono; [apply wp_recv, H|]. intros out t' [Hr []]. destruct H as [H1 H2 H3].
    constructor; [by eapply books_same|done|congruence].
  - apply Hnil. by apply keeps_modify.
Qed.

Lemma wp_calls S (HS : sys_ok S) mode l all t :
  tinv mode all t -> wp (run S l) (fun m t' => tinv mode (plus all mode m) t') t.
Proof.
  revert all t. induction l as [|c l IH]; intros all t H; cbn [run]; [by apply wp_ret, plus_nil|].
  apply wp_bind. eapply wp_mono; [by apply wp_call|]. intros m t1 H1. apply wp_bind.
  eapply wp_mono; [apply (IH (plus all mode m) t1 H1)|]. intros m2 t2 H2. apply wp_ret. eapply tinv_ext; [exact H2|].
  intros c'. unfold plus. by rewrite framesOf_app, app_assoc.
Qed.

(** A connection in [mode] with nothing queued. *)
Record fresh (mode : FramingMode) (t : TcpTransport) : Prop := {
  fr_mode : framing_ t = mode; fr_ctrl : ctrlQueue_ t = emptyQueue; fr_data : sendQueue_ t = emptyQueue;
  fr_buf : recvBuf_ t = []; fr_off : recvOff_ t = 0%nat; fr_written : written t = [];
}.

Lemma fresh_tinv mode t : fresh mode t -> tinv mode (fun _ => []) t.
Proof.
  intros []. constructor; [|unfold recv_ok; rewrite fr_buf0, fr_off0; done|done].
  constructor; intros []; cbn [queueOf]; rewrite ?fr_ctrl0, ?fr_data0, ?fr_written0; done || (unfold queue_ok; cbn; lia).
Qed.

(** The queues of the TCP transport lose, repeat and reorder nothing.  Whatever calls are made of
    a transport and whatever part of the bytes offered to it the socket or the TLS session
    accepts, every call returns, and of each queue the bytes that were written, followed by
    those that still wait, are exactly the frames of the messages accepted for it, in order. *)
Theorem transport_queues_fifo S mode t0 l :
  sys_ok S -> fresh mode t0 ->
  exists msgs t, run S l t0 = Some (msgs, t) /\
    forall c, accepted c (written t) ++ pendingOf (queueOf c t) = framesOf mode c msgs.
Proof.
  intros HS H0. destruct (wp_calls S HS mode l (fun _ => []) t0 (fresh_tinv _ _ H0)) as (msgs & t & E & [B _ _]).
  exists msgs, t. split; [done|]. intros c. apply (bk_all _ _ B).
Qed.

(** ** The messages at the other end *)

(** A readable event for each chunk, and all messages that are complete then. *)
Fixpoint receive (S : TcpSys) (chunks : list bytes) : TM (list bytes) :=
  match chunks with
  | [] => mret []
  | b :: chunks =>
      onReadable S [b] StopNothing;;
      ms ← driveAll; rest ← receive S chunks; mret (ms ++ rest)
  end.

Definition msg_ok (m : bytes) : Prop := 0 < Z.of_nat (length m) < 65536.
Definition stream (msgs : list bytes) : bytes := mjoin (framed RFC4571 <$> msgs).

Lemma stream_app l l' : stream (l ++ l') = stream l ++ stream l'.
Proof. unfold stream. by rewrite fmap_app, join_app. Qed.

Lemma framed_length m : length (framed RFC4571 m) = (2 + length m)%nat.
Proof. unfold framed. by rewrite length_app. Qed.

Lemma read_rest t : recv_ok t -> readU16Be (recvBuf_ t) (recvOff_ t) = readU16Be (rest t) 0.
Proof.
  intros Hr. unfold recv_ok in Hr. assert (Hto : length (take (recvOff_ t) (recvBuf_ t)) = recvOff_ t) by (rewrite length_take; lia).
  rewrite <- (take_drop (recvOff_ t) (recvBuf_ t)) at 1. rewrite readU16Be_app_r by lia.
  by rewrite Hto, Nat.sub_diag.
Qed.

Lemma peek_rest t k n : recv_ok t -> peek (recvBuf_ t) (recvOff_ t + k) n = peek (rest t) k n.
Proof.
  intros Hr. unfold recv_ok in Hr. unfold peek, rest. rewrite length_drop, drop_drop.
  destruct (Nat.leb_spec (recvOff_ t + k + n) (length (recvBuf_ t))), (Nat.leb_spec (k + n) (length (recvBuf_ t) - recvOff_ t));
    done || lia.
Qed.

Lemma avail_rest t : (length (recvBuf_ t) - recvOff_ t)%nat = length (rest t).
Proof. unfold rest. by rewrite length_drop. Qed.

Lemma read_framed m tl : msg_ok m -> readU16Be (framed RFC4571 m ++ tl) 0 = Some (Z.of_nat (length m)).
Proof.
  intros Hm. unfold framed. rewrite <- app_assoc. apply (readU16Be_app_write []). unfold msg_ok, fits in *. pow2_norm. lia.
Qed.

(** A complete frame at the head is the next message. *)
Lemma recv_frame m tl t :
  framing_ t = RFC4571 -> recv_ok t -> msg_ok m -> rest t = framed RFC4571 m ++ tl ->
  exists t', recv bufSize t = Some (m, t') /\ recv_ok t' /\ rest t' = tl /\ same_else t t'.
Proof.
  intros Hf Hr Hm Hrest. unfold recv. rewrite run_gets. unfold id. rewrite Hf, avail_rest.
  assert (Hav : length (rest t) = (2 + length m + length tl)%nat) by (rewrite Hrest, length_app, framed_length; lia).
  rewrite Hav. rewrite (proj2 (Nat.ltb_ge _ _)) by lia.
  pose proof (read_rest t Hr) as Hread. rewrite Hrest, read_framed in Hread by done.
  rewrite (run_lift _ _ _ _ Hread). unfold msg_ok in Hm. rewrite (proj2 (Z.eqb_neq _ _)) by lia. rewrite Nat2Z.id.
  rewrite (proj2 (Nat.ltb_ge _ _)) by lia. rewrite Nat.min_l by (unfold bufSize; lia).
  pose proof (peek_rest t 2 (length m) Hr) as Hpeek. rewrite Hrest in Hpeek. unfold framed in Hpeek. rewrite <- app_assoc in Hpeek.
  pose proof (peek_app (writeU16Be (Z.of_nat (length m))) m tl) as Hp2. change (length (writeU16Be _)) with 2%nat in Hp2.
  rewrite Hp2 in Hpeek.
  rewrite (run_lift _ _ _ _ Hpeek). run. eexists. split; [reflexivity|].
  destruct (consume_spec (2 + length m) t Hr) as (H1 & H2 & H3); [lia|].
  split; [done|]. split; [|done]. rewrite H2, Hrest. by rewrite drop_app_length' by by rewrite framed_length.
Qed.

(** Part of a frame is left where it is. *)
Lemma recv_partial m tl t :
  framing_ t = RFC4571 -> recv_ok t -> msg_ok m -> tl <> [] -> rest t ++ tl = framed RFC4571 m ->
  recv bufSize t = Some ([], t).
Proof.
  intros Hf Hr Hm Htl Hrest. unfold recv. rewrite run_gets. unfold id. rewrite Hf, avail_rest.
  assert (Hlen : (length (rest t) + length tl)%nat = (2 + length m)%nat) by (by rewrite <- length_app, Hrest, framed_length).
  assert (Htl' : length tl <> 0%nat) by (by destruct tl).
  destruct (Nat.ltb_spec (length (rest t)) 2) as [|H2]; [done|].
  pose proof (read_rest t Hr) as Hread. rewrite <- (readU16Be_app_l (rest t) tl), Hrest in Hread by lia.
  pose proof (read_framed m [] Hm) as Hf'. rewrite app_nil_r in Hf'. rewrite Hf' in Hread.
  rewrite (run_lift _ _ _ _ Hread). unfold msg_ok in Hm. rewrite (proj2 (Z.eqb_neq _ _)) by lia. rewrite Nat2Z.id.
  by rewrite (proj2 (Nat.ltb_lt _ _)) by lia.
Qed.

(** What reading returned, [ms] of the messages [msgs], and what it left. *)
Record cut (msgs ms : list bytes) (t t' : TcpTransport) : Prop := {
  cut_ok : recv_ok t'; cut_else : same_else t t'; cut_rest : stream ms ++ rest t' = rest t;
  cut_split : exists msgs', msgs = ms ++ msgs' /\ rest t' `prefix_of` stream msgs' /\ (rest t' = stream msgs' -> msgs' = []);
}.

Lemma drive_none fuel t : recv bufSize t = Some ([], t) -> drive (S fuel) t = Some ([], t).
Proof. intros E. cbn [drive]. by rewrite (run_bind _ _ _ _ _ E). Qed.

Lemma drive_some fuel m t t1 ms t' :
  recv bufSize t = Some (m, t1) -> (0 < length m)%nat -> drive fuel t1 = Some (ms, t') ->
  drive (S fuel) t = Some (m :: ms, t').
Proof.
  intros E Hm E1. cbn [drive]. rewrite (run_bind _ _ _ _ _ E). rewrite (proj2 (Nat.eqb_neq _ _)) by lia.
  by rewrite (run_bind _ _ _ _ _ E1).
Qed.

(** Of the frames of [msgs] the buffer holds a beginning: the complete ones are returned. *)
Lemma drive_spec fuel msgs t :
  framing_ t = RFC4571 -> recv_ok t -> Forall msg_ok msgs -> rest t `prefix_of` stream msgs ->
  (length (rest t) < fuel)%nat -> exists ms t', drive fuel t = Some (ms, t') /\ cut msgs ms t t'.
Proof.
  revert msgs t. induction fuel as [|fuel IH]; intros msgs t Hf Hr Hok [tl Hp] Hfuel; [lia|].
  destruct msgs as [|m msgs].
  - assert (He : rest t = []) by (destruct (rest t); done).
    exists [], t. split.
    + apply drive_none. unfold recv. run. unfold id. by rewrite Hf, avail_rest, He.
    + constructor; [done|apply same_else_refl|done|]. exists []. by rewrite He.
  - change (stream (m :: msgs)) with (framed RFC4571 m ++ stream msgs) in Hp. apply Forall_cons in Hok as [Hm Hok].
    assert (Hcase : (exists k, rest t = framed RFC4571 m ++ k /\ k `prefix_of` stream msgs) \/
                    (exists k, k <> [] /\ rest t ++ k = framed RFC4571 m)).
    { destruct (app_eq_inv _ _ _ _ Hp) as [(k & H1 & H2)|(k & H1 & H2)].
      - destruct k as [|x k]; [|right; by exists (x :: k)]. left. exists []. rewrite app_nil_r in H1 |- *.
        split; [done|apply prefix_nil].
      - left. exists k. split; [done|by exists tl]. }
    destruct Hcase as [(k & H1 & H2)|(k & Hk & H1)].
    + destruct (recv_frame m k t Hf Hr Hm H1) as (t1 & E1 & R1 & Q1 & S1).
      destruct (IH msgs t1) as (ms & t' & E2 & [C1 C2 C3 (msgs' & -> & C4)]);
        [by rewrite (se_framing _ _ S1)|done|done|by rewrite Q1|rewrite H1, length_app, framed_length in Hfuel; rewrite Q1; lia|].
      exists (m :: ms), t'. split; [eapply drive_some; [done|unfold msg_ok in Hm; lia|done]|].
      constructor; [done|by eapply same_else_trans| |by exists msgs'].
      change (stream (m :: ms)) with (framed RFC4571 m ++ stream ms). rewrite <- app_assoc, C3, Q1. done.
    + exists [], t. split; [by eapply drive_none, recv_partial|].
      constructor; [done|apply same_else_refl|done|]. exists (m :: msgs). split; [done|].
      split; [by exists tl|]. intros Heq. exfalso.
      apply (f_equal length) in H1, Heq. change (stream (m :: msgs)) with (framed RFC4571 m ++ stream msgs) in Heq.
      rewrite length_app in H1, Heq. destruct k; [done|]. rewrite length_cons in H1. lia.
Qed.

(** One chunk arrives. *)
Lemma storeRead_spec b t :
  recv_ok t -> exists t', storeRead b t = Some (tt, t') /\ recv_ok t' /\ rest t' = rest t ++ b /\ same_else t t'.
Proof.
  intros Hr. unfold recv_ok in Hr. unfold storeRead, modify. eexists. split; [reflexivity|]. unfold rest, recv_ok.
  destruct (_ && _).
  - split; [unfold field_update; cbn; lia|]. split; [|by constructor]. done.
  - split; [unfold field_update; cbn; rewrite length_app; lia|]. split; [|by constructor].
    unfold field_update. cbn. by rewrite drop_app_le.
Qed.

Lemma onReadable_one S b t :
  state_ t = Connected -> tls_ t = false -> recv_ok t ->
  exists t', onReadable S [b] StopNothing t = Some (POLLIN, t') /\ recv_ok t' /\ rest t' = rest t ++ b /\ same_else t t'.
Proof.
  intros Hst Htls Hr. destruct (storeRead_spec b t Hr) as (t' & E & H). exists t'. split; [|done].
  unfold onReadable. run. rewrite Hst, bool_decide_false, bool_decide_true by done. cbn [negb]. run. rewrite Htls.
  cbn [forM]. run. by rewrite (run_bind _ _ _ _ _ E).
Qed.

(** The receiver, whatever the chunks. *)
Lemma receive_spec S chunks msgs t :
  state_ t = Connected -> tls_ t = false -> framing_ t = RFC4571 -> recv_ok t -> Forall msg_ok msgs ->
  rest t ++ mjoin chunks `prefix_of` stream msgs -> (rest t = stream msgs -> msgs = []) ->
  exists ms t' msgs', receive S chunks t = Some (ms, t') /\ msgs = ms ++ msgs' /\
    (rest t ++ mjoin chunks = stream msgs -> msgs' = []).
Proof.
  revert msgs t. induction chunks as [|b chunks IH]; intros msgs t Hst Htls Hf Hr Hok Hp Hnone; cbn [receive].
  { exists [], t, msgs. split; [done|]. split; [done|]. by rewrite app_nil_r. }
  destruct (onReadable_one S b t Hst Htls Hr) as (t1 & E1 & R1 & Q1 & S1). rewrite (run_bind _ _ _ _ _ E1).
  change (mjoin (b :: chunks)) with (b ++ mjoin chunks) in *. rewrite app_assoc, <- Q1 in *.
  destruct (drive_spec (Datatypes.S (length (recvBuf_ t1))) msgs t1) as (ms & t2 & E2 & [C1 C2 C3 (msgs' & -> & C4 & C5)]).
  - by rewrite (se_framing _ _ S1).
  - done.
  - done.
  - etrans; [|exact Hp]. by apply prefix_app_r.
  - unfold rest. rewrite length_drop. lia.
  - assert (Ed : driveAll t1 = Some (ms, t2)) by (unfold driveAll; by run). rewrite (run_bind _ _ _ _ _ Ed).
    apply Forall_app in Hok as [_ Hok]. rewrite <- C3, stream_app, <- app_assoc in Hp |- *.
    apply prefix_app_inv in Hp.
    destruct (IH msgs' t2) as (ms2 & t3 & msgs2 & E3 & -> & H3); [| | |done|done|done|done|].
    + by rewrite (se_state _ _ C2), (se_state _ _ S1).
    + by rewrite (se_tls _ _ C2), (se_tls _ _ S1).
    + by rewrite (se_framing _ _ C2), (se_framing _ _ S1).
    + exists (ms ++ ms2), t3, msgs2. rewrite (run_bind _ _ _ _ _ E3). split; [done|]. split; [by rewrite app_assoc|].
      intros Heq. apply H3. by apply (app_inv_head (stream ms)).
Qed.

(** Without control frames the stream is the data queue's. *)
Lemma data_only l : accepted Control l = [] -> mjoin (snd <$> l) = accepted Data l.
Proof.
  induction l as [|[c b] l IH]; [done|]. change ((c, b) :: l) with ([(c, b)] ++ l).
  rewrite !accepted_app, !accepted_one. intros [H1 H2]%app_eq_nil.
  change (mjoin (snd <$> [(c, b)] ++ l)) with (b ++ mjoin (snd <$> l)). rewrite IH by done.
  destruct c; [|done]. change (b = []) in H1. by subst b.
Qed.

Lemma framesOf_data msgs :
  Forall (fun p => p.1 = Data) msgs -> framesOf RFC4571 Control msgs = [] /\ framesOf RFC4571 Data msgs = stream (snd <$> msgs).
Proof.
  induction 1 as [|[c d] l Hc _ [IH1 IH2]]; [done|]. cbn in Hc. subst c.
  change ((Data, d) :: l) with ([(Data, d)] ++ l). rewrite !framesOf_app, !framesOf_one, IH1, IH2. done.
Qed.

Definition isControl (c : Call) : bool := match c with CSendControl _ => true | _ => false end.

(** Without [sendControl] only data messages are accepted. *)
Lemma run_data S l : Forall (fun c => isControl c = false) l ->
  forall t msgs t', run S l t = Some (msgs, t') -> Forall (fun p => p.1 = Data) msgs.
Proof.
  induction 1 as [|c l Hc _ IH]; intros t msgs t'; cbn [run]; [by intros [= <- <-]|].
  unfold mbind at 1, SM_bind at 1. destruct (call S c t) as [[m t1]|] eqn:E; [|done].
  unfold mbind, SM_bind. destruct (run S l t1) as [[m2 t2]|] eqn:E2; [|done]. intros [= <- <-].
  apply Forall_app. split; [|by eapply IH]. clear -E Hc.
  destruct c; cbn [call] in E; try done; unfold mbind, SM_bind in E;
    match type of E with (match ?x with _ => _ end) = _ => destruct x as [[[] ?]|] end; try done;
    injection E as <- <-; repeat constructor.
Qed.

(** A connected plain TCP transport with RFC 4571 framing and empty buffers. *)
Definition connected (t : TcpTransport) : Prop :=
  fresh RFC4571 t /\ state_ t = Connected /\ tls_ t = false.

(** C26: messages cross a TCP connection.  When a transport is given data messages of 1 to 65535
    bytes and no control frames, and the bytes that it has written arrive at another transport
    in chunks of any sizes, the receiver returns a beginning of the sequence of messages that
    were accepted, each as it was sent, and all of them once nothing waits at the sender. *)
Theorem tcp_messages_delivered S S' t0 r0 l msgs t chunks :
  sys_ok S -> fresh RFC4571 t0 -> connected r0 -> Forall (fun c => isControl c = false) l ->
  run S l t0 = Some (msgs, t) -> Forall (fun p => msg_ok p.2) msgs ->
  mjoin chunks = mjoin (snd <$> written t) ->
  exists got r, receive S' chunks r0 = Some (got, r) /\ got `prefix_of` (snd <$> msgs) /\
    (pendingOf (sendQueue_ t) = [] -> got = snd <$> msgs).
Proof.
  intros HS H0 (Hr & Hst & Htls) Hl Hrun Hok Hch.
  destruct (wp_calls S HS RFC4571 l (fun _ => []) t0 (fresh_tinv _ _ H0)) as (msgs' & t' & E & [B _ _]).
  rewrite Hrun in E. injection E as <- <-. pose proof (run_data S l Hl t0 msgs t Hrun) as Hd.
  destruct (framesOf_data msgs Hd) as [F1 F2].
  pose proof (bk_all _ _ B Control) as HC. pose proof (bk_all _ _ B Data) as HD. unfold plus in HC, HD. cbn [app] in HC, HD.
  rewrite F1 in HC. rewrite F2 in HD. apply app_eq_nil in HC as [HC _]. rewrite (data_only _ HC) in Hch.
  assert (Hrest : rest r0 = []) by (unfold rest; by rewrite (fr_buf _ _ Hr), drop_nil).
  destruct (receive_spec S' chunks (snd <$> msgs) r0 Hst Htls (fr_mode _ _ Hr)) as (got & r & more & E1 & Hsp & Hall).
  - unfold recv_ok. by rewrite (fr_buf _ _ Hr), (fr_off _ _ Hr).
  - by apply Forall_fmap.
  - rewrite Hrest, Hch, <- HD. by apply prefix_app_r.
  - rewrite Hrest. intros Hnil. symmetry in Hnil. destruct msgs as [|[c m] msgs]; [done|]. discriminate Hnil.
  - exists got, r. split; [done|]. split; [by exists more|]. intros Hp. cbn [queueOf] in HD. rewrite Hp, app_nil_r in HD.
    rewrite Hall in Hsp; [by rewrite app_nil_r in Hsp|]. by rewrite Hrest, Hch.
Qed.

(** ** A sample connection *)

(** The first write takes three bytes and the second none. *)
Definition slowSys : TcpSys :=
  mkTcpSys (fun _ _ => Some 5) (fun _ _ => ConnectDone) (fun _ => SoOk)
    (fun k len => if (k =? 0)%nat then (Z.min 3 (Z.of_nat len), false)
                  else if (k =? 1)%nat then (-1, true) else (Z.of_nat len, false))
    false (fun _ _ => false) (fun _ => TlsFailed) (fun _ b => (TlsOk, length b)).
Definition samplePeer : AddrRecord := mkAddrRecord (SockIn 6000 [203; 0; 113; 9]) 16 SOCK_STREAM.
Definition accepting : TcpTransport := default newTransport (snd <$> attach 7 samplePeer newTransport).

Lemma slowSys_ok : sys_ok slowSys.
Proof.
  constructor; cbn; [|done]. intros k len. destruct (k =? 0)%nat; [cbn; lia|]. destruct (k =? 1)%nat; cbn; lia.
Qed.

Lemma accepting_connected : connected accepting.
Proof. split; [by constructor|done]. Qed.

Lemma transport_queues_fifo_witness :
  exists msgs t, run slowSys [CSend [1; 2; 3; 4; 5]; CSendControl [9; 9]; CWritable] accepting = Some (msgs, t) /\
    forall c, accepted c (written t) ++ pendingOf (queueOf c t) = framesOf RFC4571 c msgs.
Proof.
  apply (transport_queues_fifo slowSys RFC4571 accepting [CSend [1; 2; 3; 4; 5]; CSendControl [9; 9]; CWritable]);
    [exact slowSys_ok|exact (proj1 accepting_connected)].
Defined.

Lemma tcp_messages_delivered_witness :
  exists got r, receive slowSys [[0]; [5; 1; 2]; [3; 4; 5; 0; 1]; [8]] accepting = Some (got, r) /\
    got `prefix_of` [[1; 2; 3; 4; 5]; [8]] /\ ([] = ([] : bytes) -> got = [[1; 2; 3; 4; 5]; [8]]).
Proof.
  destruct (run slowSys [CSend [1; 2; 3; 4; 5]; CSend [8]; CWritable] accepting) as [[msgs t]|] eqn:E;
    [|vm_compute in E; discriminate].
  pose proof E as E0. vm_compute in E0. injection E0 as Em Et.
  destruct (tcp_messages_delivered slowSys slowSys accepting accepting [CSend [1; 2; 3; 4; 5]; CSend [8]; CWritable]
    msgs t [[0]; [5; 1; 2]; [3; 4; 5; 0; 1]; [8]]) as (got & r & H1 & H2 & H3).
  - exact slowSys_ok.
  - exact (proj1 accepting_connected).
  - exact accepting_connected.
  - repeat constructor.
  - exact E.
  - rewrite <- Em. repeat constructor; vm_compute; discriminate.
  - rewrite <- Et. reflexivity.
  - exists got, r. rewrite <- Em in H2, H3. rewrite <- Et in H3. exact (conj H1 (conj H2 H3)).
Defined.

(** A control frame can be written into a data frame.  [flushSends] empties the control queue
    first, also when part of a data frame has been written already: the rest of that frame
    then follows the control frame.  The receiver of this stream reads a message that neither
    call sent, and cannot find the frames behind it. *)
Theorem control_splits_frame :
  exists t, run slowSys [CSend [1; 2; 3; 4; 5]; CSendControl [9; 9]] accepting
      = Some ([(Data, [1; 2; 3; 4; 5]); (Control, [9; 9])], t) /\
    mjoin (snd <$> written t) = [0; 5; 1; 0; 2; 9; 9; 2; 3; 4; 5] /\
    prod_map id rest <$> receive slowSys [mjoin (snd <$> written t)] accepting
      = Some ([[1; 0; 2; 9; 9]], [2; 3; 4; 5]).
Proof.
  exists (default accepting (snd <$> run slowSys [CSend [1; 2; 3; 4; 5]; CSendControl [9; 9]] accepting)).
  split; [|split]; vm_compute; reflexivity.
Qed.
