(* ===== verification/TurnTcpConn.v ===== *)
(** * The agent's TURN connections over TCP

    The part of ice/agent.cpp that carries TURN over TCP and TLS: the control connection of a
    relay entry ([onTurnTcpEventsSock], [handleInboundTurnTcp]) and the RFC 6062 data
    connection ([TurnDataConn]), from opening it and CONNECTION-BIND to the tunnel of
    RFC 4571 frames behind it.  Both drive a [TcpTransport] and cut what it reads with a
    [StunConn].  The TURN client and the check list are seen through the calls made to them,
    which are outputs; the request the client builds is a parameter.  A null [unique_ptr] or
    [shared_ptr] is [None], and following it is undefined. *)

From S2P Require Import Prelude.
From S2P Require Import StateMonad.
From S2P Require Import Bytes.
From S2P Require Import Crypto.
From S2P Require Import Addr.
From S2P Require Import StunMessage.
From S2P Require Import ChannelData.
From S2P Require Import StunConn.
From S2P Require Import TcpTransport.
From S2P Require Import TcpStream.
From S2P Require Import TurnWire.
Open Scope Z_scope.
Open Scope c_scope.

(** [while (true) { n = recv(buf, sizeof(buf), peer); if (n <= 0) break; ... }] with a buffer
    of 4096 bytes. *)
Definition chunkSize : nat := Z.to_nat 4096.

Fixpoint drainRaw (fuel : nat) : TM (list bytes) :=
  match fuel with
  | O => lift None
  | S fuel =>
      m ← recv chunkSize;
      if (length m =? 0)%nat then mret [] else ms ← drainRaw fuel; mret (m :: ms)
  end.

Definition drainAll : TM (list bytes) := n ← gets (fun t => length (recvBuf_ t)); drainRaw (S n).

Definition broken (t : TcpTransport) : bool :=
  bool_decide (state_ t = Failed) || bool_decide (state_ t = Disconnected).

(** ** The control connection *)

(** [handleInbound] of the TURN client, [None] for the null pointer that signals a lost
    connection, and [allocate]. *)
Inductive ControlOut := ToClient (frame : option bytes) | Allocate.

(** The fields of a relay entry: [turnTcp], [turnTcpConn], whether there is a client, and
    the calls made to it. *)
Record Control := mkControl {
  turnTcp : option TcpTransport; turnTcpConn : StunConn; hasTurn : bool; couts : list ControlOut }.

#[export] Instance Control_fields : RecordFields Control := fun s =>
  mkControl (turnTcp s) (turnTcpConn s) (hasTurn s) (couts s).

Abbreviation CM := (SM Control).

(** A call of the transport through [entry.turnTcp]. *)
Definition onControl {A} (m : TM A) : CM A :=
  t ← gets turnTcp;
  t ← lift t;
  '(x, t) ← lift (m t);
  modify (fun s => s <| turnTcp := Some t |>);;
  mret x.

Definition toClient (frame : option bytes) : CM unit :=
  b ← gets hasTurn;
  if (b : bool) then modify (fun s => s <| couts ::= fun l => l ++ [ToClient frame] |>) else skip.

(** The loop over frames.  [frame] is declared outside it: a call that sets no frame leaves
    the pointer of the one before. *)
Fixpoint controlFrames (fuel : nat) (frame : option nat) : CM unit :=
  match fuel with
  | O => lift None
  | S fuel =>
      c ← gets turnTcpConn;
      r ← lift (readFrame c);
      let '(frameSize, out, c) := r in
      modify (fun s => s <| turnTcpConn := c |>);;
      let frame := match out with Some _ => out | None => frame end in
      if (frameSize =? 0) || bool_decide (frame = None) then skip else
      if frameSize =? SIZE_MAX then
        toClient None;; onControl close;; modify (fun s => s <| turnTcp := None |>)
      else
        off ← lift frame;
        data ← lift (peek (buf_ c) off (Z.to_nat frameSize));
        toClient (Some data);; controlFrames fuel frame
  end.

Definition handleInboundTurnTcp : CM unit :=
  t ← gets turnTcp;
  if bool_decide (is_Some t) then
    chunks ← onControl drainAll;
    modify (fun s => s <| turnTcpConn ::= fun c => foldl feed c chunks |>);;
    c ← gets turnTcpConn;
    controlFrames (S (length (buf_ c))) None
  else skip.

(** The client's [allocate], when the connection is up. *)
Definition onTurnTcpConnected : CM unit :=
  b ← gets hasTurn;
  if (b : bool) then modify (fun s => s <| couts ::= fun l => l ++ [Allocate] |>) else skip.

(** The body of the dispatch loop for the entry that owns the socket: the events, and what
    the reads of a readable event return. *)
Definition onTurnTcpEventsSock (Sy : TcpSys) (pollin pollout : bool) (chunks : list bytes) (stop : ReadStop) : CM unit :=
  late ← onControl (gets connectTimedOut);
  (if (late : bool) then onControl close else skip);;
  before ← onControl (gets state_);
  (if pollout then onControl (onWritable Sy);; skip else skip);;
  (if pollin then onControl (onReadable Sy chunks stop);; handleInboundTurnTcp else skip);;
  (if bool_decide (before <> Connected) then
     st ← onControl (gets state_);
     if bool_decide (st = Connected) then onTurnTcpConnected else skip
   else skip);;
  t ← gets turnTcp;
  match t with
  | Some t =>
      if broken t then toClient None;; onControl close;; modify (fun s => s <| turnTcp := None |>) else skip
  | None => skip
  end.

(** ** The data connection *)

Record TurnDataConn := mkDataConn {
  connectionId : Z; peer : AddrRecord; transport : TcpTransport; stunConn : StunConn;
  bound : bool; connecting : bool; connectionBindSent : bool; rfc4571Buf : bytes }.

#[export] Instance TurnDataConn_fields : RecordFields TurnDataConn := fun d =>
  mkDataConn (connectionId d) (peer d) (transport d) (stunConn d) (bound d) (connecting d)
    (connectionBindSent d) (rfc4571Buf d).

(** The entry [findTcpTurnEntry] returns: the server and the TLS parameters. *)
Record ControlEntry := mkControlEntry {
  server : AddrRecord; turnTcpUseTls : bool; turnTcpSni : string; turnTcpSkipVerify : bool; turnTcpCaFile : string }.

(** [handleInboundUdp] with the transport TCPPassive, the check entry armed, [wakePoll]. *)
Inductive DataOut := Inbound (payload : bytes) (src : AddrRecord) | ArmCheck | Wake.

Record DataState := mkDataState {
  turnDataConn_ : option TurnDataConn; turnDataRetryCount_ : Z; turnDataRetryConnId_ : Z;
  turnDataRetryPeer_ : AddrRecord; pendingTurnDataRetry_ : bool; nextTurnDataRetry_ : Z;
  now : Z; control : option ControlEntry; douts : list DataOut }.

#[export] Instance DataState_fields : RecordFields DataState := fun s =>
  mkDataState (turnDataConn_ s) (turnDataRetryCount_ s) (turnDataRetryConnId_ s) (turnDataRetryPeer_ s)
    (pendingTurnDataRetry_ s) (nextTurnDataRetry_ s) (now s) (control s) (douts s).

Abbreviation DM := (SM DataState).

Definition MaxTurnDataConnectRetries : Z := 4.
Definition TurnDataRetryDelayMs : Z := 300.
Definition TcpConnectTimeoutMs : Z := 8000.

Definition output (o : DataOut) : DM unit := modify (fun s => s <| douts ::= fun l => l ++ [o] |>).

(** Through [turnDataConn_]. *)
Definition getConn : DM TurnDataConn := d ← gets turnDataConn_; lift d.
Definition updConn (f : TurnDataConn -> TurnDataConn) : DM unit :=
  d ← getConn; modify (fun s => s <| turnDataConn_ := Some (f d) |>).
Definition resetConn : DM unit := modify (fun s => s <| turnDataConn_ := None |>).
Definition onData {A} (m : TM A) : DM A :=
  d ← getConn; '(x, t) ← lift (m (transport d)); updConn (fun d => d <| transport := t |>);; mret x.

Section Data.
Context (Sy : TcpSys) (buildConnectionBindRequest : Z -> bytes).

Definition sendTurnDataConnectionBind : DM unit :=
  d ← gets turnDataConn_; c ← gets control;
  match d, c with
  | Some d, Some _ =>
      onData (sendControl Sy (buildConnectionBindRequest (connectionId d)));;
      updConn (fun d => d <| connectionBindSent := true |>)
  | _, _ => skip
  end.

Definition beginTurnDataConnect (connId : Z) (p : AddrRecord) : DM unit :=
  modify (fun s => s <| turnDataConn_ := Some (mkDataConn connId (mkAddrRecord (addr p) (len p) SOCK_STREAM)
    (newTransport <| framing_ := Raw |>) newStunConn false true false []) |>);;
  c ← gets control;
  match c with
  | None => resetConn
  | Some c =>
      n ← gets now;
      onData (modify (fun t => t <| clock := n |>));;
      ok ← onData (beginConnect Sy (server c) (if turnTcpUseTls c then turnTcpSni c else EmptyString) (turnTcpUseTls c)
        (turnTcpSkipVerify c) (if turnTcpUseTls c then turnTcpCaFile c else EmptyString));
      if negb ok then resetConn else
      onData (setConnectTimeoutMs TcpConnectTimeoutMs);;
      st ← onData (gets state_);
      if bool_decide (st = Connected) then sendTurnDataConnectionBind else skip
  end.

(** The prefix is the length's low 16 bits. *)
Definition prefixed (data : bytes) : bytes :=
  [u8 (Z.of_nat (length data) >>. 8); u8 (Z.of_nat (length data))] ++ data.

(** [STICE_ERR_SUCCESS] or [STICE_ERR_FAILED]. *)
Definition sendTurnDataConn (data : bytes) : DM Z :=
  d ← gets turnDataConn_;
  match d with
  | Some d =>
      if bound d then ok ← onData (send Sy (prefixed data)); mret (if (ok : bool) then 0 else -2)
      else mret (-2)
  | None => mret (-2)
  end.

(** *** Receiving *)

(** A CONNECTION-BIND response that is not an error. *)
Definition bindAccepted (m : Message) : bool :=
  isResponseType (cls m) && negb (bool_decide (cls m = ErrorResponse)) && (method m =? Method.ConnectionBind).

(** Phase 1; [frame] is declared inside the loop. *)
Fixpoint bindFrames (fuel : nat) : DM unit :=
  match fuel with
  | O => lift None
  | S fuel =>
      d ← getConn;
      r ← lift (readFrame (stunConn d));
      let '(frameSize, frame, c) := r in
      updConn (fun d => d <| stunConn := c |>);;
      if (frameSize =? 0) || bool_decide (frame = None) then skip else
      if frameSize =? SIZE_MAX then onData close else
      off ← lift frame;
      data ← lift (peek (buf_ c) off (Z.to_nat frameSize));
      ok ← lift (isMessage data);
      if negb ok then bindFrames fuel else
      '(ok, m) ← lift (decode emptyMessage data);
      if negb ok then bindFrames fuel else
      if bindAccepted m then
        updConn (fun d => d <| bound := true |> <| connecting := false |>);;
        modify (fun s => s <| turnDataRetryCount_ := 0 |> <| pendingTurnDataRetry_ := false |>);;
        d ← getConn;
        let '(rest, c) := takeBuffered (stunConn d) in
        updConn (fun d => d <| stunConn := c |> <| rfc4571Buf ::= fun b => b ++ rest |>);;
        output ArmCheck;; output Wake
      else bindFrames fuel
  end.

(** The complete frames of the buffer from offset [consumed] on. *)
Fixpoint tunnelFrames (fuel : nat) (buf : bytes) (consumed : nat) : option (list bytes * nat) :=
  match fuel with
  | O => None
  | S fuel =>
      if (length buf - consumed <? 2)%nat then Some ([], consumed) else
      len ← readU16Be buf consumed;
      if (length buf - consumed - 2 <? Z.to_nat len)%nat then Some ([], consumed) else
      payload ← peek buf (consumed + 2) (Z.to_nat len);
      '(ps, consumed) ← tunnelFrames fuel buf (consumed + (2 + Z.to_nat len));
      Some (payload :: ps, consumed)
  end.

(** Phase 2: every complete frame is an inbound packet of the peer. *)
Definition phase2 : DM unit :=
  d ← getConn;
  if bound d then
    '(ps, consumed) ← lift (tunnelFrames (S (length (rfc4571Buf d))) (rfc4571Buf d) 0);
    forM ps (fun p => output (Inbound p (peer d)));;
    if (0 <? consumed)%nat then updConn (fun d => d <| rfc4571Buf ::= drop consumed |>) else skip
  else skip.

Definition handleInboundTurnDataTcp : DM unit :=
  d ← gets turnDataConn_;
  if bool_decide (d = None) then skip else
  chunks ← onData drainAll;
  d ← getConn;
  (if bound d then updConn (fun d => d <| rfc4571Buf ::= fun b => b ++ mjoin chunks |>)
   else updConn (fun d => d <| stunConn ::= fun c => foldl feed c chunks |>));;
  d ← getConn;
  (if bound d then skip else bindFrames (S (length (buf_ (stunConn d)))));;
  phase2.

(** The retry of an unbound connection, a little later every time. *)
Definition scheduleRetry (d : TurnDataConn) : DM unit :=
  modify (fun s => s <| turnDataRetryCount_ ::= Z.succ |>
    <| turnDataRetryConnId_ := connectionId d |> <| turnDataRetryPeer_ := peer d |> <| pendingTurnDataRetry_ := true |>
    <| nextTurnDataRetry_ := now s + TurnDataRetryDelayMs * Z.succ (turnDataRetryCount_ s) |>);;
  resetConn;; output Wake.

Definition onTurnDataTcpEvents (pollin pollout : bool) (chunks : list bytes) (stop : ReadStop) : DM unit :=
  d ← gets turnDataConn_;
  if bool_decide (d = None) then skip else
  late ← onData (gets connectTimedOut);
  (if (late : bool) then onData close else skip);;
  (if pollout then
     onData (onWritable Sy);;
     d ← getConn;
     if bool_decide (state_ (transport d) = Connected) && negb (connectionBindSent d) then sendTurnDataConnectionBind else skip
   else skip);;
  (if pollin then onData (onReadable Sy chunks stop);; handleInboundTurnDataTcp else skip);;
  d ← getConn;
  n ← gets turnDataRetryCount_;
  if broken (transport d) then
    if negb (bound d) && (n <? MaxTurnDataConnectRetries) then scheduleRetry d else resetConn
  else skip.

(** [turnDataDesiredEvents]. *)
Definition turnDataDesiredEvents (s : DataState) : Z :=
  match turnDataConn_ s with
  | None => 0
  | Some d => if wantsWrite (transport d) then POLLIN |. POLLOUT else POLLIN
  end.
End Data.
