(* ===== verification/TurnTcpTheorems.v ===== *)
(** * Theorems on the agent's TURN connections over TCP

    What the transport reads reaches the frame parsers whatever the chunks; the tunnel of the
    RFC 6062 data connection delivers what was sent into it at the other end; the control
    connection hands its frames to the TURN client; and what happens to streams that are not
    TURN. *)

From S2P Require Import Prelude.
From S2P Require Import StateMonad.
From S2P Require Import Bytes.
From S2P Require Import Crypto.
From S2P Require Import Addr.
From S2P Require Import StunMessage.
From S2P Require Import ChannelData.
From S2P Require Import StunConn.
From S2P Require Import TcpTransport.
From S2P Require Import TcpStream.
From S2P Require Import TurnWire.
From S2P Require Import TurnTcpConn.
Open Scope Z_scope.
Open Scope c_scope.

(** ** Reading everything *)

Lemma recv_raw n t :
  framing_ t = Raw -> recv_ok t -> (0 < n)%nat ->
  exists t', recv n t = Some (take n (rest t), t') /\ rest t' = drop n (rest t) /\ recv_ok t' /\ same_else t t'.
Proof.
  intros Hf Hr Hn. unfold recv. rewrite run_gets. unfold id. rewrite Hf, avail_rest.
  destruct (Nat.eqb_spec (length (rest t)) 0) as [E|E].
  - exists t. apply nil_length_inv in E. rewrite E. rewrite take_nil, drop_nil. split; [done|]. by split.
  - pose proof (peek_rest t 0 (Nat.min (length (rest t)) n) Hr) as Hp. rewrite Nat.add_0_r in Hp.
    rewrite (peek_inb (rest t)) in Hp by lia. cbn [drop] in Hp. rewrite (run_lift _ _ _ _ Hp).
    destruct (consume_spec (Nat.min (length (rest t)) n) t Hr) as (C1 & C2 & C3); [lia|].
    exists (consume (Nat.min (length (rest t)) n) t). split; [|split; [|done]].
    + rewrite run_modify, drop_0. unfold mret, SM_ret. f_equal. f_equal.
      destruct (Nat.le_gt_cases (length (rest t)) n) as [Hle|Hgt];
        [by rewrite Nat.min_l, !take_ge by (done || lia)|by rewrite Nat.min_r by lia].
    + rewrite C2. destruct (Nat.le_gt_cases (length (rest t)) n); 
        [by rewrite Nat.min_l, !drop_ge by (done || lia)|by rewrite Nat.min_r by lia].
Qed.

Lemma drainRaw_spec fuel t :
  framing_ t = Raw -> recv_ok t -> (length (rest t) < fuel)%nat ->
  exists ms t', drainRaw fuel t = Some (ms, t') /\ mjoin ms = rest t /\ rest t' = [] /\ recv_ok t' /\ same_else t t'.
Proof.
  revert t. induction fuel as [|fuel IH]; intros t Hf Hr Hl; [lia|]. cbn [drainRaw].
  destruct (recv_raw chunkSize t Hf Hr) as (t1 & E1 & R1 & O1 & S1); [unfold chunkSize; lia|].
  rewrite (run_bind _ _ _ _ _ E1). destruct (Nat.eqb_spec (length (take chunkSize (rest t))) 0) as [E|E].
  - exists [], t1. rewrite length_take in E. assert (rest t = []) as Hnil by (apply nil_length_inv; unfold chunkSize in E; lia).
    rewrite Hnil, drop_nil in R1. by rewrite Hnil.
  - destruct (IH t1) as (ms & t2 & E2 & J2 & R2 & O2 & S2); [by rewrite (se_framing _ _ S1)|done| |].
    { rewrite R1, length_drop. rewrite length_take in E. lia. }
    exists (take chunkSize (rest t) :: ms), t2. rewrite (run_bind _ _ _ _ _ E2). split; [done|].
    split; [|split; [done|]; split; [done|]; by eapply same_else_trans].
    change (mjoin (take chunkSize (rest t) :: ms)) with (take chunkSize (rest t) ++ mjoin ms).
    rewrite J2, R1. apply take_drop.
Qed.

Lemma drainAll_spec t :
  framing_ t = Raw -> recv_ok t ->
  exists ms t', drainAll t = Some (ms, t') /\ mjoin ms = rest t /\ rest t' = [] /\ recv_ok t' /\ same_else t t'.
Proof.
  intros Hf Hr. unfold drainAll. rewrite run_gets. apply drainRaw_spec; [done|done|]. unfold rest. rewrite length_drop. lia.
Qed.

Lemma feeds_spec ms c :
  conn_ok c -> bytes_ok (mjoin ms) -> conn_ok (foldl feed c ms) /\ pending (foldl feed c ms) = pending c ++ mjoin ms.
Proof.
  revert c. induction ms as [|m ms IH]; intros c Hc Hm; cbn [foldl]; [by rewrite app_nil_r|].
  change (mjoin (m :: ms)) with (m ++ mjoin ms) in *. apply Forall_app in Hm as [H1 H2].
  destruct (feed_spec c m Hc H1) as [F1 F2]. destruct (IH _ F1 H2) as [G1 G2]. by rewrite G2, F2, app_assoc.
Qed.

(** A readable event, whatever the chunks. *)
Lemma storeReads_spec (tls : bool) chunks t :
  tls = false -> recv_ok t ->
  exists t', forM chunks (fun c => (if tls then clearTlsWantHints else skip);; storeRead c) t = Some (tt, t') /\
    recv_ok t' /\ rest t' = rest t ++ mjoin chunks /\ same_else t t'.
Proof.
  intros ->. revert t. induction chunks as [|b chunks IH]; intros t Hr; cbn [forM].
  { exists t. by rewrite app_nil_r. }
  rewrite run_assoc, run_skip. destruct (storeRead_spec b t Hr) as (t1 & E1 & R1 & Q1 & S1).
  rewrite (run_bind _ _ _ _ _ E1). destruct (IH t1 R1) as (t2 & E2 & R2 & Q2 & S2). exists t2. split; [done|].
  split; [done|]. split; [|by eapply same_else_trans]. rewrite Q2, Q1, <- app_assoc. done.
Qed.

Lemma onReadable_open Sy chunks t :
  state_ t = Connected -> tls_ t = false -> recv_ok t ->
  exists t', onReadable Sy chunks StopNothing t = Some (POLLIN, t') /\ recv_ok t' /\
    rest t' = rest t ++ mjoin chunks /\ same_else t t'.
Proof.
  intros Hst Htls Hr. destruct (storeReads_spec (tls_ t) chunks t Htls Hr) as (t' & E & H). exists t'. split; [|done].
  unfold onReadable. rewrite run_gets, Hst, bool_decide_false, bool_decide_true by done. cbn [negb]. rewrite run_gets.
  by rewrite (run_bind _ _ _ _ _ E).
Qed.

(** ** The frames of the tunnel *)

(** No complete frame at the head. *)
Definition partial (s : bytes) : Prop :=
  match s with b0 :: b1 :: tl => (length tl < Z.to_nat (b0 * 256 + b1))%nat | _ => True end.

(** [Tunnel s ps r]: the stream [s] is the frames of the payloads [ps], then [r]. *)
Inductive Tunnel : bytes -> list bytes -> bytes -> Prop :=
| tn_stop s : partial s -> Tunnel s [] s
| tn_frame b0 b1 p s ps r :
    length p = Z.to_nat (b0 * 256 + b1) -> Tunnel s ps r -> Tunnel (b0 :: b1 :: p ++ s) (p :: ps) r.

(** Cutting what has arrived and going on with the rest is cutting everything. *)
Lemma tunnel_app a ps r b qs r' : Tunnel a ps r -> Tunnel (r ++ b) qs r' -> Tunnel (a ++ b) (ps ++ qs) r'.
Proof.
  induction 1 as [s Hs|b0 b1 p s ps r Hl _ IH]; intros Hq; [done|]. cbn [app]. rewrite <- app_assoc.
  constructor; [done|]. by apply IH.
Qed.

Lemma tunnel_total s : exists ps r, Tunnel s ps r.
Proof.
  induction s as [s IH] using (well_founded_induction (well_founded_ltof _ length)).
  destruct s as [|b0 [|b1 tl]]; [by exists [], []; constructor|by exists [], [b0]; constructor|].
  destruct (Nat.lt_ge_cases (length tl) (Z.to_nat (b0 * 256 + b1))) as [|Hge]; [by exists [], (b0 :: b1 :: tl); constructor|].
  destruct (IH (drop (Z.to_nat (b0 * 256 + b1)) tl)) as (ps & r & H); [unfold ltof; cbn [length]; rewrite length_drop; lia|].
  exists (take (Z.to_nat (b0 * 256 + b1)) tl :: ps), r. rewrite <- (take_drop (Z.to_nat (b0 * 256 + b1)) tl) at 1.
  constructor; [rewrite length_take; lia|done].
Qed.

Lemma drop_lookup0 (buf : bytes) k b0 b1 tl :
  drop k buf = b0 :: b1 :: tl -> buf !! k = Some b0 /\ buf !! (k + 1)%nat = Some b1 /\ (k + 2 + length tl = length buf)%nat.
Proof.
  intros E. assert (Hl : length (drop k buf) = S (S (length tl))) by (by rewrite E). rewrite length_drop in Hl.
  split; [|split; [|lia]].
  - rewrite <- (Nat.add_0_r k), <- lookup_drop, E. done.
  - by rewrite <- lookup_drop, E.
Qed.

(** The loop computes it. *)
Lemma tunnelFrames_spec s ps r :
  Tunnel s ps r -> forall fuel buf k, drop k buf = s -> (k <= length buf)%nat -> bytes_ok buf -> (length s < fuel)%nat ->
  tunnelFrames fuel buf k = Some (ps, (length buf - length r)%nat) /\ drop (length buf - length r) buf = r /\
  (length r <= length buf)%nat.
Proof.
  induction 1 as [s Hs|b0 b1 p s ps r Hl HT IH]; intros [|fuel] buf k E Hk Hb Hf; try lia; cbn [tunnelFrames].
  - assert (Hlen : length s = (length buf - k)%nat) by (by rewrite <- E, length_drop).
    assert (Hres : (length buf - length s)%nat = k) by lia. rewrite Hres. split; [|split; [done|lia]].
    destruct s as [|b0 [|b1 tl]]; [| |].
    1, 2: by rewrite (proj2 (Nat.ltb_lt _ _)) by (cbn in Hlen; lia).
    destruct (drop_lookup0 _ _ _ _ _ E) as (L0 & L1 & Hl). rewrite (proj2 (Nat.ltb_ge _ _)) by lia.
    rewrite (readU16Be_at buf k b0 b1) by (done || by eapply Forall_lookup_1). cbn [mbind option_bind].
    rewrite (proj2 (Nat.ltb_lt _ _)); [done|]. cbn in Hs. lia.
  - destruct (drop_lookup0 _ _ _ _ _ E) as (L0 & L1 & Hlen). rewrite length_app in Hlen.
    rewrite (proj2 (Nat.ltb_ge _ _)) by lia.
    rewrite (readU16Be_at buf k b0 b1) by (done || by eapply Forall_lookup_1). cbn [mbind option_bind].
    rewrite <- Hl. rewrite (proj2 (Nat.ltb_ge _ _)) by lia.
    assert (Hd : drop (k + 2) buf = p ++ s) by (by rewrite <- drop_drop, E).
    rewrite peek_inb by lia. rewrite Hd, take_app_length. cbn [mbind option_bind].
    destruct (IH fuel buf (k + (2 + length p))%nat) as (I1 & I2); [|lia|done|cbn [length] in Hf; rewrite length_app in Hf; lia|].
    { rewrite Nat.add_assoc, <- drop_drop, Hd. apply drop_app_length. }
    rewrite I1. done.
Qed.

Lemma tunnel_functional s ps r ps' r' : bytes_ok s -> Tunnel s ps r -> Tunnel s ps' r' -> ps = ps' /\ r = r'.
Proof.
  intros Hb H1 H2. destruct (tunnelFrames_spec s ps r H1 (S (length s)) s 0) as (E1 & D1 & _); [done|lia|done|lia|].
  destruct (tunnelFrames_spec s ps' r' H2 (S (length s)) s 0) as (E2 & D2 & _); [done|lia|done|lia|].
  rewrite E1 in E2. injection E2 as -> E2. by rewrite <- D1, <- D2, E2.
Qed.

(** Messages [sendTurnDataConn] can frame. *)
Definition fits_frame (m : bytes) : Prop := Z.of_nat (length m) < 65536.

Lemma tunnel_prefixed msgs : Forall fits_frame msgs -> Tunnel (mjoin (prefixed <$> msgs)) msgs [].
Proof.
  induction 1 as [|m msgs Hm _ IH]; [by constructor|].
  change (mjoin (prefixed <$> m :: msgs)) with (prefixed m ++ mjoin (prefixed <$> msgs)).
  unfold prefixed. rewrite <- app_assoc. cbn [app]. constructor; [|done].
  unfold fits_frame in Hm. rewrite shiftr_div by lia. unfold wrap. pow2_norm. lia.
Qed.

Lemma prefixed_ok m : bytes_ok m -> bytes_ok (prefixed m).
Proof. intros H. apply bytes_ok_app; [|done]. repeat constructor; apply wrap_fits; lia. Qed.

(** ** Running the data connection *)

Lemma getConn_run s d : turnDataConn_ s = Some d -> getConn s = Some (d, s).
Proof. intros H. unfold getConn. by rewrite run_gets, H. Qed.

Lemma updConn_run f s d : turnDataConn_ s = Some d -> updConn f s = Some (tt, s <| turnDataConn_ := Some (f d) |>).
Proof. intros H. unfold updConn. by rewrite (run_bind _ _ _ _ _ (getConn_run _ _ H)). Qed.

Lemma onData_run {A} (m : TM A) s d x t :
  turnDataConn_ s = Some d -> m (transport d) = Some (x, t) ->
  onData m s = Some (x, s <| turnDataConn_ := Some (d <| transport := t |>) |>).
Proof.
  intros H Hm. unfold onData. rewrite (run_bind _ _ _ _ _ (getConn_run _ _ H)), (run_lift _ _ _ _ Hm).
  by rewrite (run_bind _ _ _ _ _ (updConn_run _ _ _ H)).
Qed.

Lemma outputs_run ps p s :
  exists s', forM ps (fun x => output (Inbound x p)) s = Some (tt, s') /\
    turnDataConn_ s' = turnDataConn_ s /\ douts s' = douts s ++ ((fun x => Inbound x p) <$> ps).
Proof.
  revert s. induction ps as [|x ps IH]; intros s; cbn [forM]; [exists s; by rewrite app_nil_r|].
  rewrite (run_bind (output (Inbound x p)) _ s tt (s <| douts ::= fun l => l ++ [Inbound x p] |>) eq_refl).
  destruct (IH (s <| douts ::= fun l => l ++ [Inbound x p] |>)) as (s' & E & H1 & H2). exists s'.
  split; [done|]. split; [done|]. rewrite H2. upd. by rewrite <- app_assoc.
Qed.

(** The payloads handed to the agent, and that they come from the peer. *)
Definition payloads (s : DataState) : list bytes :=
  omap (fun o => match o with Inbound p _ => Some p | _ => None end) (douts s).

Lemma payloads_inbound (ps : list bytes) p :
  omap (fun o => match o with Inbound x _ => Some x | _ => None end) ((fun x => Inbound x p) <$> ps) = ps.
Proof. induction ps as [|x ps IH]; [done|]. cbn. by rewrite IH. Qed.

(** Phase 2 delivers the complete frames and keeps the rest. *)
Lemma phase2_run s d ps r :
  turnDataConn_ s = Some d -> bound d = true -> bytes_ok (rfc4571Buf d) -> Tunnel (rfc4571Buf d) ps r ->
  exists s', phase2 s = Some (tt, s') /\ turnDataConn_ s' = Some (d <| rfc4571Buf := r |>) /\
    payloads s' = payloads s ++ ps.
Proof.
  intros Hc Hbd Hok HT. unfold phase2. rewrite (run_bind _ _ _ _ _ (getConn_run _ _ Hc)), Hbd.
  destruct (tunnelFrames_spec _ ps r HT (S (length (rfc4571Buf d))) (rfc4571Buf d) 0) as (E & D & Hle); [done|lia|done|lia|].
  rewrite (run_lift _ _ _ _ E). destruct (outputs_run ps (peer d) s) as (s1 & E1 & C1 & O1).
  rewrite (run_bind _ _ _ _ _ E1). rewrite <- C1 in Hc. clear C1.
  assert (Hp : payloads s1 = payloads s ++ ps).
  { unfold payloads. by rewrite O1, omap_app, payloads_inbound. }
  destruct (Nat.ltb_spec 0 (length (rfc4571Buf d) - length r)) as [Hlt|Hz].
  - rewrite (updConn_run _ _ _ Hc). eexists. split; [done|]. split; [|done]. upd.
    set (k := (length (rfc4571Buf d) - length r)%nat) in *. clearbody k. rewrite <- D. done.
  - exists s1. split; [done|]. split; [|done]. assert ((length (rfc4571Buf d) - length r = 0)%nat) as Hz' by lia.
    rewrite Hz', drop_0 in D. rewrite Hc. rewrite <- D. by destruct d.
Qed.

Section Bind.
Context (f : bytes) (m : Message).
Hypothesis Hself : self_delimited f.
Hypothesis Hmsg : isMessage f = Some true.
Hypothesis Hdec : decode emptyMessage f = Some (true, m).
Hypothesis Hacc : bindAccepted m = true.

(** Part of the response: nothing to read yet. *)
Lemma response_part s q : s ++ q = f -> q <> [] -> cutFrame s = Incomplete.
Proof.
  intros E Hq. destruct (cutFrame s) as [| |n] eqn:Ec; [done| |].
  - pose proof (cutFrame_app s q) as H. rewrite E, Ec in H. unfold self_delimited in Hself. rewrite Hself in H. by specialize (H ltac:(done)).
  - pose proof (cutFrame_app s q) as H. rewrite E, Ec in H. unfold self_delimited in Hself. rewrite Hself in H.
    specialize (H ltac:(done)). injection H as H. pose proof (cutFrame_bounds _ _ Ec). rewrite <- E, length_app in H.
    destruct q; [done|cbn in H; lia].
Qed.

Lemma bindFrames_wait fuel s d :
  turnDataConn_ s = Some d -> conn_ok (stunConn d) -> cutFrame (pending (stunConn d)) = Incomplete ->
  exists s', bindFrames (S fuel) s = Some (tt, s') /\ turnDataConn_ s' = Some d /\ douts s' = douts s.
Proof.
  intros Hc Hok Hcut. cbn [bindFrames]. rewrite (run_bind _ _ _ _ _ (getConn_run _ _ Hc)).
  pose proof (readFrame_spec _ Hok) as Hr. rewrite Hcut in Hr. rewrite (run_lift _ _ _ _ Hr).
  rewrite (run_bind _ _ _ _ _ (updConn_run _ _ _ Hc)). cbn [Z.eqb orb]. eexists. split; [done|]. split; [|done].
  upd. by destruct d.
Qed.

(** The whole response: the connection is bound, and what follows goes to the tunnel. *)
Lemma bindFrames_bind fuel s d after :
  turnDataConn_ s = Some d -> conn_ok (stunConn d) -> pending (stunConn d) = f ++ after ->
  exists s', bindFrames (S fuel) s = Some (tt, s') /\ payloads s' = payloads s /\
    turnDataConn_ s' = Some (d <| stunConn := newStunConn |> <| bound := true |> <| connecting := false |>
                               <| rfc4571Buf ::= fun b => b ++ after |>).
Proof.
  intros Hc Hok Hpend. cbn [bindFrames]. rewrite (run_bind _ _ _ _ _ (getConn_run _ _ Hc)).
  pose proof (readFrame_spec _ Hok) as Hr. unfold self_delimited in Hself.
  rewrite Hpend, cutFrame_app, Hself in Hr by (rewrite Hself; done). destruct Hr as [Hr Hlen].
  rewrite (run_lift _ _ _ _ Hr). set (c := mkStunConn _ _). rewrite (run_bind _ _ _ _ _ (updConn_run _ _ _ Hc)).
  pose proof (cutFrame_bounds _ _ Hself) as Hb.
  rewrite (proj2 (Z.eqb_neq (Z.of_nat (length f)) 0)) by lia. cbn [orb]. rewrite bool_decide_false by done.
  pose proof (pending_ok _ Hok) as Hpok. rewrite Hpend in Hpok. apply Forall_app in Hpok as [Hfok _].
  pose proof (cutFrame_small _ _ Hfok Hself) as Hsmall.
  rewrite (proj2 (Z.eqb_neq (Z.of_nat (length f)) SIZE_MAX)) by (unfold SIZE_MAX; lia).
  rewrite (run_lift _ _ _ (consumed_ (stunConn d))) by done.
  assert (Hpk : peek (buf_ c) (consumed_ (stunConn d)) (Z.to_nat (Z.of_nat (length f))) = Some f).
  { rewrite Nat2Z.id, peek_inb by (cbn; lia). cbn [c buf_]. fold (pending (stunConn d)). by rewrite Hpend, take_app_length. }
  rewrite (run_lift _ _ _ _ Hpk), (run_lift _ _ _ _ Hmsg). cbn [negb]. rewrite (run_lift _ _ _ _ Hdec). cbn [negb]. rewrite Hacc.
  set (s1 := s <| turnDataConn_ := _ |>). assert (Hc1 : turnDataConn_ s1 = Some (d <| stunConn := c |>)) by done.
  assert (Hp1 : payloads s1 = payloads s) by done. clearbody s1.
  rewrite (run_bind _ _ _ _ _ (updConn_run _ _ _ Hc1)), run_modify.
  set (s2 := _ <| pendingTurnDataRetry_ := false |>).
  assert (Hc2 : turnDataConn_ s2 = Some (d <| stunConn := c |> <| bound := true |> <| connecting := false |>)) by done.
  assert (Hp2 : payloads s2 = payloads s1) by done. clearbody s2.
  rewrite (run_bind _ _ _ _ _ (getConn_run _ _ Hc2)). change (stunConn (_ <| connecting := false |>)) with c.
  assert (Hokc : conn_ok c) by (split; [cbn; lia|apply Hok]).
  assert (Hpc : pending c = after).
  { unfold pending, c. cbn [buf_ consumed_]. rewrite <- drop_drop. fold (pending (stunConn d)). rewrite Hpend. apply drop_app_length. }
  rewrite (takeBuffered_spec c Hokc), Hpc. cbv iota. rewrite (run_bind _ _ _ _ _ (updConn_run _ _ _ Hc2)).
  eexists. split; [reflexivity|]. split; [|done]. rewrite <- Hp1, <- Hp2. unfold payloads, modify, output. upd.
  rewrite !omap_app. cbn. by rewrite !app_nil_r.
Qed.
End Bind.

(** ** The tunnel *)

Lemma onData_gets {A} (g : TcpTransport -> A) s d :
  turnDataConn_ s = Some d -> onData (gets g) s = Some (g (transport d), s).
Proof.
  intros H. rewrite (onData_run (gets g) s d (g (transport d)) (transport d) H eq_refl). do 2 f_equal.
  destruct s, d. cbn in H. unfold field_update. cbn. by rewrite H.
Qed.

(** An established plain connection whose bytes have all been taken. *)
Record idle (t : TcpTransport) : Prop := {
  id_state : state_ t = Connected; id_tls : tls_ t = false; id_framing : framing_ t = Raw;
  id_recv : recv_ok t; id_rest : rest t = [] }.

Section Tunnel.
Context (Sy : TcpSys) (bindReq : Z -> bytes) (f : bytes) (m : Message).
Hypothesis Hself : self_delimited f.
Hypothesis Hmsg : isMessage f = Some true.
Hypothesis Hdec : decode emptyMessage f = Some (true, m).
Hypothesis Hacc : bindAccepted m = true.

(** What the connection is after [total] bytes: still waiting for the rest of the response,
    or bound, with the frames behind it delivered. *)
Inductive tunnelAt (total : bytes) (s : DataState) : Prop :=
| at_wait d q :
    turnDataConn_ s = Some d -> idle (transport d) -> bound d = false -> conn_ok (stunConn d) ->
    pending (stunConn d) = total -> total ++ q = f -> q <> [] -> rfc4571Buf d = [] -> payloads s = [] ->
    tunnelAt total s
| at_flow d after :
    turnDataConn_ s = Some d -> idle (transport d) -> bound d = true -> total = f ++ after ->
    bytes_ok after -> Tunnel after (payloads s) (rfc4571Buf d) ->
    tunnelAt total s.

Lemma tunnel_rest_ok s ps r : bytes_ok s -> Tunnel s ps r -> bytes_ok r.
Proof.
  intros Hs. induction 1 as [|b0 b1 p s ps r _ _ IH]; [done|]. apply IH.
  do 2 apply Forall_cons in Hs as [_ Hs]. by apply Forall_app in Hs as [_ ?].
Qed.

Lemma idle_drained t t1 t2 :
  idle t -> same_else t t1 -> same_else t1 t2 -> recv_ok t2 -> rest t2 = [] -> idle t2.
Proof. intros [] [] [] H1 H2. constructor; (done || congruence). Qed.

(** The bytes of one event are taken from the transport. *)
Lemma event_reads chunks s d :
  turnDataConn_ s = Some d -> idle (transport d) ->
  exists t1 t2 ms, onReadable Sy chunks StopNothing (transport d) = Some (POLLIN, t1) /\
    drainAll t1 = Some (ms, t2) /\ mjoin ms = mjoin chunks /\ idle t2.
Proof.
  intros Hc [I1 I2 I3 I4 I5].
  destruct (onReadable_open Sy chunks (transport d) I1 I2 I4) as (t1 & E1 & R1 & Q1 & S1).
  destruct (drainAll_spec t1) as (ms & t2 & E2 & J2 & Q2 & R2 & S2); [by rewrite (se_framing _ _ S1)|done|].
  exists t1, t2, ms. split; [done|]. split; [done|]. split; [by rewrite J2, Q1, I5|].
  by apply (idle_drained (transport d) t1).
Qed.

(** A readable event of an established connection is its reads, then the handler. *)
Lemma event_handled chunks s d t1 s' d' :
  turnDataConn_ s = Some d -> idle (transport d) ->
  onReadable Sy chunks StopNothing (transport d) = Some (POLLIN, t1) ->
  handleInboundTurnDataTcp (s <| turnDataConn_ := Some (d <| transport := t1 |>) |>) = Some (tt, s') ->
  turnDataConn_ s' = Some d' -> idle (transport d') ->
  onTurnDataTcpEvents Sy bindReq true false chunks StopNothing s = Some (tt, s').
Proof.
  intros Hc Hi E1 E2 Hc' Hi'. unfold onTurnDataTcpEvents. rewrite run_gets, Hc, bool_decide_false by done.
  rewrite (run_bind _ _ _ _ _ (onData_gets connectTimedOut s d Hc)).
  assert (Hlate : connectTimedOut (transport d) = false).
  { unfold connectTimedOut. rewrite (id_state _ Hi), !bool_decide_false by done. by destruct (_ <=? _). }
  rewrite Hlate, run_skip, run_skip, run_assoc, (run_bind _ _ _ _ _ (onData_run _ _ _ _ _ Hc E1)).
  rewrite (run_bind _ _ _ _ _ E2), (run_bind _ _ _ _ _ (getConn_run _ _ Hc')), run_gets.
  unfold broken. by rewrite (id_state _ Hi'), !bool_decide_false by done.
Qed.

(** The reads of the handler. *)
Lemma handle_reads s d t2 ms :
  turnDataConn_ s = Some d -> drainAll (transport d) = Some (ms, t2) ->
  handleInboundTurnDataTcp s
  = (d ← getConn;
     (if bound d then updConn (fun d => d <| rfc4571Buf ::= fun b => b ++ mjoin ms |>)
      else updConn (fun d => d <| stunConn ::= fun c => foldl feed c ms |>));;
     d ← getConn;
     (if bound d then skip else bindFrames (S (length (buf_ (stunConn d)))));;
     phase2) (s <| turnDataConn_ := Some (d <| transport := t2 |>) |>).
Proof.
  intros Hc E. unfold handleInboundTurnDataTcp. rewrite run_gets, Hc, bool_decide_false by done.
  by rewrite (run_bind _ _ _ _ _ (onData_run _ _ _ _ _ Hc E)).
Qed.

Lemma handle_bound s d t2 ms ps r :
  turnDataConn_ s = Some d -> drainAll (transport d) = Some (ms, t2) -> bound d = true ->
  bytes_ok (rfc4571Buf d ++ mjoin ms) -> Tunnel (rfc4571Buf d ++ mjoin ms) ps r ->
  exists s', handleInboundTurnDataTcp s = Some (tt, s') /\ payloads s' = payloads s ++ ps /\
    turnDataConn_ s' = Some (d <| transport := t2 |> <| rfc4571Buf := r |>).
Proof.
  intros Hc E Hbd Hok HT. rewrite (handle_reads _ _ _ _ Hc E). set (s1 := s <| turnDataConn_ := _ |>).
  assert (Hc1 : turnDataConn_ s1 = Some (d <| transport := t2 |>)) by done.
  assert (Hp1 : payloads s1 = payloads s) by done. clearbody s1.
  rewrite (run_bind _ _ _ _ _ (getConn_run _ _ Hc1)). change (bound (d <| transport := t2 |>)) with (bound d). rewrite Hbd.
  rewrite (run_bind _ _ _ _ _ (updConn_run _ _ _ Hc1)). set (s2 := s1 <| turnDataConn_ := _ |>).
  assert (Hc2 : turnDataConn_ s2 = Some (d <| transport := t2 |> <| rfc4571Buf ::= fun b => b ++ mjoin ms |>)) by done.
  assert (Hp2 : payloads s2 = payloads s1) by done. clearbody s2.
  rewrite (run_bind _ _ _ _ _ (getConn_run _ _ Hc2)). change (bound (_ <| rfc4571Buf ::= _ |>)) with (bound d). rewrite Hbd, run_skip.
  destruct (phase2_run s2 _ ps r Hc2 Hbd Hok HT) as (s' & E' & C' & P'). exists s'. split; [done|].
  split; [by rewrite P', Hp2, Hp1|done].
Qed.

Lemma handle_waiting s d t2 ms :
  turnDataConn_ s = Some d -> drainAll (transport d) = Some (ms, t2) -> bound d = false ->
  conn_ok (stunConn d) -> bytes_ok (mjoin ms) ->
  exists s2 c2, turnDataConn_ s2 = Some (d <| transport := t2 |> <| stunConn := c2 |>) /\ payloads s2 = payloads s /\
    conn_ok c2 /\ pending c2 = pending (stunConn d) ++ mjoin ms /\
    handleInboundTurnDataTcp s = (bindFrames (S (length (buf_ c2))) ≫= fun _ => phase2) s2.
Proof.
  intros Hc E Hbd Hok Hms. rewrite (handle_reads _ _ _ _ Hc E). set (s1 := s <| turnDataConn_ := _ |>).
  assert (Hc1 : turnDataConn_ s1 = Some (d <| transport := t2 |>)) by done.
  assert (Hp1 : payloads s1 = payloads s) by done. clearbody s1.
  rewrite (run_bind _ _ _ _ _ (getConn_run _ _ Hc1)). change (bound (d <| transport := t2 |>)) with (bound d). rewrite Hbd.
  rewrite (run_bind _ _ _ _ _ (updConn_run _ _ _ Hc1)). set (s2 := s1 <| turnDataConn_ := _ |>).
  destruct (feeds_spec ms (stunConn d) Hok Hms) as [F1 F2]. set (c2 := foldl feed (stunConn d) ms) in *.
  assert (Hc2 : turnDataConn_ s2 = Some (d <| transport := t2 |> <| stunConn := c2 |>)) by done.
  assert (Hp2 : payloads s2 = payloads s1) by done. clearbody s2. exists s2, c2. rewrite Hp2, Hp1.
  do 4 (split; [done|]). rewrite (run_bind _ _ _ _ _ (getConn_run _ _ Hc2)).
  change (bound (_ <| stunConn := c2 |>)) with (bound d). by rewrite Hbd.
Qed.
(** Bytes of a stream that begins with the response, from [total] on. *)
Definition continues (total c : bytes) : Prop :=
  (exists q, total ++ c ++ q = f) \/ (exists after, total ++ c = f ++ after).

Lemma handle_event total chunks s :
  tunnelAt total s -> bytes_ok (mjoin chunks) -> continues total (mjoin chunks) ->
  exists s', onTurnDataTcpEvents Sy bindReq true false chunks StopNothing s = Some (tt, s') /\
    tunnelAt (total ++ mjoin chunks) s'.
Proof.
  intros Hat Hok Hcont. destruct Hat as [d q Hc Hi Hbd Hcok Hpend Hq Hne Hrfc Hpay|d after Hc Hi Hbd -> Haok HT].
  all: destruct (event_reads chunks s d Hc Hi) as (t1 & t2 & ms & E1 & E2 & Hms & Hi2).
  all: set (s1 := s <| turnDataConn_ := Some (d <| transport := t1 |>) |>);
       assert (Hc1 : turnDataConn_ s1 = Some (d <| transport := t1 |>)) by done.
  - destruct (handle_waiting s1 _ t2 ms Hc1 E2 Hbd Hcok) as (s2 & c2 & Hc2 & Hp2 & Ok2 & Pd2 & Hrun); [by rewrite Hms|].
    change (payloads s1) with (payloads s) in Hp2. change (pending (stunConn (d <| transport := t1 |>))) with (pending (stunConn d)) in Pd2.
    rewrite Hpend, Hms in Pd2.
    assert (Hwhole : forall after, total ++ mjoin chunks = f ++ after -> exists s',
      onTurnDataTcpEvents Sy bindReq true false chunks StopNothing s = Some (tt, s') /\ tunnelAt (total ++ mjoin chunks) s').
    { intros after E. rewrite E in *. assert (Haok : bytes_ok after).
      { pose proof (pending_ok _ Ok2) as H. rewrite Pd2 in H. by apply Forall_app in H as [_ ?]. }
      destruct (bindFrames_bind f m Hself Hmsg Hdec Hacc (length (buf_ c2)) s2 _ after Hc2 Ok2 Pd2) as (s3 & E3 & P3 & C3).
      destruct (tunnel_total after) as (ps & r & HT).
      assert (Hbuf : rfc4571Buf (d <| transport := t1 |> <| transport := t2 |> <| stunConn := c2 |> <| stunConn := newStunConn |>
        <| bound := true |> <| connecting := false |> <| rfc4571Buf ::= fun b => b ++ after |>) = after).
      { upd. by rewrite Hrfc. }
      destruct (phase2_run s3 _ ps r C3 eq_refl) as (s' & E' & C' & P'); [by rewrite Hbuf|by rewrite Hbuf|].
      exists s'. split.
      + eapply (event_handled chunks s d t1); [done|done|done| |exact C'|exact Hi2]. fold s1. rewrite Hrun.
        by rewrite (run_bind _ _ _ _ _ E3).
      + eapply (at_flow _ _ _ after); [exact C'|exact Hi2|done|done|done|]. by rewrite P', P3, Hp2, Hpay. }
    destruct Hcont as [[q' E] | [after E]]; [|by apply (Hwhole after)].
    destruct q' as [|b q']; [apply (Hwhole []); rewrite app_nil_r in E; by rewrite app_nil_r|]. clear Hwhole.
    rewrite app_assoc in E. assert (Hinc : cutFrame (pending c2) = Incomplete) by (rewrite Pd2; by apply (response_part f Hself _ (b :: q'))).
    destruct (bindFrames_wait (length (buf_ c2)) s2 _ Hc2 Ok2 Hinc) as (s3 & E3 & C3 & O3).
    assert (Hph : phase2 s3 = Some (tt, s3)) by (unfold phase2; rewrite (run_bind _ _ _ _ _ (getConn_run _ _ C3)); upd; by rewrite Hbd).
    exists s3. split.
    + eapply (event_handled chunks s d t1); [done|done|done| |exact C3|exact Hi2]. fold s1. rewrite Hrun.
      by rewrite (run_bind _ _ _ _ _ E3).
    + eapply (at_wait _ _ _ (b :: q')); [exact C3|exact Hi2|exact Hbd|exact Ok2|exact Pd2|done|done|exact Hrfc|].
      rewrite <- Hpay, <- Hp2. unfold payloads. by rewrite O3.
  - destruct (tunnel_total (rfc4571Buf d ++ mjoin chunks)) as (ps & r & HT2).
    destruct (handle_bound s1 _ t2 ms ps r Hc1 E2 Hbd) as (s' & E' & P' & C').
    + rewrite Hms. apply Forall_app. split; [|done]. by apply (tunnel_rest_ok after (payloads s)).
    + rewrite Hms. exact HT2.
    + exists s'. split; [by eapply (event_handled chunks s d t1); [..|exact C'|exact Hi2]|].
      eapply (at_flow _ _ _ (after ++ mjoin chunks)); [exact C'|exact Hi2|exact Hbd|by rewrite app_assoc|by apply Forall_app|].
      rewrite P'. change (payloads s1) with (payloads s). by eapply tunnel_app.
Qed.

(** The events of a connection, each with the chunks its reads return. *)
Definition events (l : list (list bytes)) : DM unit :=
  forM l (fun chunks => onTurnDataTcpEvents Sy bindReq true false chunks StopNothing).

Lemma run_events l total s body :
  tunnelAt total s -> bytes_ok (mjoin (mjoin l)) -> total ++ mjoin (mjoin l) = f ++ body ->
  exists s', events l s = Some (tt, s') /\ tunnelAt (f ++ body) s'.
Proof.
  revert total s. induction l as [|chunks l IH]; intros total s Hat Hok E.
  { exists s. rewrite app_nil_r in E. by rewrite <- E. }
  change (mjoin (chunks :: l)) with (chunks ++ mjoin l) in *. rewrite join_app in *. apply Forall_app in Hok as [H1 H2].
  assert (Hcont : continues total (mjoin chunks)).
  { rewrite app_assoc in E. destruct (Nat.le_gt_cases (length f) (length (total ++ mjoin chunks))) as [Hle|Hgt].
    - right. exists (drop (length f) (total ++ mjoin chunks)).
      assert (Hf : take (length f) (total ++ mjoin chunks) = f)
        by (rewrite <- (take_app_le _ (mjoin (mjoin l))), E by done; apply take_app_length).
      rewrite <- (take_drop (length f) (total ++ mjoin chunks)) at 1. by rewrite Hf.
    - left. exists (drop (length (total ++ mjoin chunks)) f).
      assert (Hf : take (length (total ++ mjoin chunks)) f = total ++ mjoin chunks)
        by (rewrite <- (take_app_le f body), <- E by lia; apply take_app_length).
      rewrite app_assoc. transitivity (take (length (total ++ mjoin chunks)) f ++ drop (length (total ++ mjoin chunks)) f);
        [by rewrite Hf|apply take_drop]. }
  destruct (handle_event total chunks s Hat H1 Hcont) as (s1 & E1 & Hat1).
  destruct (IH _ s1 Hat1 H2) as (s2 & E2 & Hat2); [by rewrite <- app_assoc|].
  exists s2. split; [|done]. unfold events. cbn [forM]. by rewrite (run_bind _ _ _ _ _ E1).
Qed.
End Tunnel.

(** *** Sending *)

(** Messages one after the other, with their results. *)
Fixpoint sendMsgs (Sy : TcpSys) (msgs : list bytes) : DM (list Z) :=
  match msgs with
  | [] => mret []
  | m :: msgs => r ← sendTurnDataConn Sy m; rs ← sendMsgs Sy msgs; mret (r :: rs)
  end.

Definition takenMsgs (msgs : list bytes) (rs : list Z) : list bytes :=
  omap (fun '(m, r) => if r =? 0 then Some m else None) (zip msgs rs).

(** A bound connection to whose data queue [sofar] was given. *)
Definition sending (sofar : bytes) (s : DataState) (d : TurnDataConn) : Prop :=
  turnDataConn_ s = Some d /\ bound d = true /\
  exists all, tinv Raw all (transport d) /\ all Data = sofar.

Lemma send_one Sy m sofar s d :
  sys_ok Sy -> sending sofar s d ->
  exists r s' d', sendTurnDataConn Sy m s = Some (r, s') /\
    sending (sofar ++ if r =? 0 then prefixed m else []) s' d'.
Proof.
  intros HS (Hc & Hb & all & Hi & Hall). unfold sendTurnDataConn. rewrite run_gets, Hc, Hb.
  assert (Hsend : wp (send Sy (prefixed m)) (fun ok t' => exists all', tinv Raw all' t' /\
    all' Data = sofar ++ if (ok : bool) then prefixed m else []) (transport d)).
  { unfold send. apply wp_bind, wp_gets. destruct (down _).
    { apply wp_ret. exists all. by rewrite app_nil_r. }
    apply wp_bind, wp_gets. destruct (_ <? _).
    { apply wp_ret. exists all. by rewrite app_nil_r. }
    eapply wp_mono; [by apply wp_queueing|]. intros ok t' [H' ->]. eexists. split; [exact H'|].
    unfold plus. rewrite framesOf_one, Hall. done. }
  destruct Hsend as (ok & t' & E & all' & Hi' & Hall'). rewrite (run_bind _ _ _ _ _ (onData_run _ _ _ _ _ Hc E)).
  eexists _, _, _. split; [done|]. split; [done|]. split; [done|]. exists all'. split; [done|]. rewrite Hall'. by destruct ok.
Qed.

Lemma sends_taken Sy msgs sofar s d :
  sys_ok Sy -> sending sofar s d ->
  exists rs s' d', sendMsgs Sy msgs s = Some (rs, s') /\ length rs = length msgs /\
    sending (sofar ++ mjoin (prefixed <$> takenMsgs msgs rs)) s' d'.
Proof.
  intros HS. revert sofar s d. induction msgs as [|m msgs IH]; intros sofar s d H; cbn [sendMsgs].
  { exists [], s, d. split; [done|]. split; [done|]. by rewrite app_nil_r. }
  destruct (send_one Sy m sofar s d HS H) as (r & s1 & d1 & E1 & H1).
  destruct (IH _ _ _ H1) as (rs & s2 & d2 & E2 & L2 & H2).
  exists (r :: rs), s2, d2. rewrite (run_bind _ _ _ _ _ E1), (run_bind _ _ _ _ _ E2). split; [done|].
  split; [by cbn; rewrite L2|]. unfold takenMsgs in *. cbn [zip zip_with omap list_omap].
  destruct (r =? 0); [|by rewrite app_nil_r in H2].
  by rewrite <- app_assoc in H2.
Qed.

(** ** Both ends *)

(** A data connection that has just been established. *)
Definition established (s : DataState) : Prop :=
  exists d, turnDataConn_ s = Some d /\ idle (transport d) /\ bound d = false /\ stunConn d = newStunConn /\
    rfc4571Buf d = [] /\ payloads s = [].

Lemma takenMsgs_forall (P : bytes -> Prop) msgs rs : Forall P msgs -> Forall P (takenMsgs msgs rs).
Proof.
  intros H. revert rs. induction H as [|m msgs Hm _ IH]; intros [|r rs]; try constructor.
  unfold takenMsgs. cbn [zip zip_with omap list_omap]. destruct (r =? 0); [constructor; [done|]|]; apply IH.
Qed.

Lemma bytes_ok_prefixed msgs : Forall bytes_ok msgs -> bytes_ok (mjoin (prefixed <$> msgs)).
Proof.
  induction 1 as [|m msgs Hm _ IH]; [constructor|].
  change (mjoin (prefixed <$> m :: msgs)) with (prefixed m ++ mjoin (prefixed <$> msgs)).
  apply Forall_app. split; [by apply prefixed_ok|done].
Qed.

(** C27: Messages cross the tunnel of an RFC 6062 data connection.  One agent sends messages of
    up to 65535 bytes over a bound connection, whatever part of them its socket accepts; the
    other one reads the answer to its CONNECTION-BIND and then the bytes written so far, in
    chunks and events of any sizes, the end of the answer and the first frames in one read
    included.  It becomes bound and hands on a beginning of the sequence of messages that
    were accepted for sending, each as it was sent, and all of them once nothing waits. *)
Theorem tunnel_delivers Sy Sy' bindReq m pw creds sw s0 d0 r0 msgs :
  sys_ok Sy -> short_msg m creds sw -> method m = Method.ConnectionBind -> cls m = SuccessResponse ->
  sending [] s0 d0 -> established r0 -> Forall fits_frame msgs -> Forall bytes_ok msgs ->
  exists rs s1 d1, sendMsgs Sy msgs s0 = Some (rs, s1) /\ turnDataConn_ s1 = Some d1 /\
    forall evs, mjoin (mjoin evs) = raw (received m pw creds sw) ++ accepted Data (written (transport d1)) ->
      exists r1 e1, events Sy' bindReq evs r0 = Some (tt, r1) /\ turnDataConn_ r1 = Some e1 /\ bound e1 = true /\
        payloads r1 `prefix_of` takenMsgs msgs rs /\
        (pendingOf (sendQueue_ (transport d1)) = [] -> payloads r1 = takenMsgs msgs rs).
Proof.
  intros HS Hm Hme Hcl Hsend (e0 & Hc0 & Hi0 & Hb0 & Hst0 & Hrfc0 & Hp0) Hfit Hok.
  destruct (sends_taken Sy msgs [] s0 d0 HS Hsend) as (rs & s1 & d1 & E1 & _ & (Hc1 & _ & all & [B _ _] & Hall)).
  exists rs, s1, d1. split; [done|]. split; [done|]. intros evs Hev. cbn [app] in Hall.
  pose proof (bk_all _ _ B Data) as HD. rewrite Hall in HD. cbn [queueOf] in HD.
  destruct (received_decoded m pw creds sw Hm) as (_ & D2 & D3 & D4).
  pose proof (encode_frame_ok _ _ _ _ (short_enc_ok m pw creds sw Hm)) as Hf.
  change (frame (encodeType (method m) (cls m)) (transactionID m) (wireAttrs m pw creds sw)) with (raw (received m pw creds sw)) in *.
  assert (Hself : self_delimited (raw (received m pw creds sw))) by (by apply stun_self_delimited).
  pose proof (received_bytes m pw creds sw Hm : bytes_ok (raw (received m pw creds sw))) as Hbf.
  set (f := raw (received m pw creds sw)) in *. set (body := accepted Data _) in *.
  assert (Hwok : bytes_ok (mjoin (prefixed <$> takenMsgs msgs rs))) by (by apply bytes_ok_prefixed, takenMsgs_forall).
  assert (Hbok : bytes_ok body) by (rewrite <- HD in Hwok; by apply Forall_app in Hwok as [? _]).
  assert (Hacc : bindAccepted (received m pw creds sw) = true) by (unfold bindAccepted; cbn [received cls method]; by rewrite Hcl, Hme).
  assert (Hat : tunnelAt f [] r0).
  { eapply (at_wait f [] r0 e0 f); try done; [by rewrite Hst0; apply newStunConn_ok|by rewrite Hst0]. }
  destruct (run_events Sy' bindReq f (received m pw creds sw) Hself D2 D3 Hacc evs [] r0 body Hat) as (r1 & Er & Hat1); [|done|].
  { rewrite Hev. by apply Forall_app. }
  destruct Hat1 as [d q _ _ _ _ _ Hq Hne _ _|d after Hc Hi Hb Heq Hao HT].
  { exfalso. apply (f_equal length) in Hq. rewrite !length_app in Hq. destruct q; [done|cbn in Hq; lia]. }
  apply app_inv_head in Heq. subst after. exists r1, d. split; [done|]. split; [done|]. split; [done|].
  destruct (tunnel_total (rfc4571Buf d ++ pendingOf (sendQueue_ (transport d1)))) as (qs & r & HT2).
  pose proof (tunnel_app _ _ _ _ _ _ HT HT2) as HT3. rewrite HD in HT3.
  pose proof (tunnel_prefixed _ (takenMsgs_forall _ _ rs Hfit)) as HT4.
  destruct (tunnel_functional _ _ _ _ _ Hwok HT3 HT4) as [Hpq _]. split; [by exists qs|].
  intros Hpend. rewrite Hpend, app_nil_r in HD. rewrite HD in HT.
  by destruct (tunnel_functional _ _ _ _ _ Hwok HT HT4).
Qed.

(** An established connection over plain TCP, bound or not. *)
Definition sampleConn (b : bool) : TurnDataConn :=
  mkDataConn 7 samplePeer (accepting <| framing_ := Raw |>) newStunConn b false true [].
Definition sampleState (b : bool) : DataState :=
  mkDataState (Some (sampleConn b)) 0 0 emptyAddr false 0 0 None [].
Definition bindAnswer : Message := mkMessage Method.ConnectionBind SuccessResponse (replicate 12 5) [] [].

Lemma sampleConn_idle b : idle (transport (sampleConn b)).
Proof. constructor; try done. unfold recv_ok. vm_compute. lia. Qed.

Lemma sampleState_sending : sending [] (sampleState true) (sampleConn true).
Proof.
  split; [done|]. split; [done|]. exists (fun _ => []). split; [|done]. apply fresh_tinv. by constructor.
Qed.

Lemma tunnel_delivers_witness :
  exists rs s1 d1, sendMsgs slowSys [[1; 2; 3]; [4]] (sampleState true) = Some (rs, s1) /\ turnDataConn_ s1 = Some d1 /\
    exists r1 e1, events slowSys (fun _ => []) [[raw (received bindAnswer None None None) ++ take 2 (accepted Data (written (transport d1)))];
        [drop 2 (accepted Data (written (transport d1)))]] (sampleState false) = Some (tt, r1) /\
      turnDataConn_ r1 = Some e1 /\ bound e1 = true /\ payloads r1 `prefix_of` takenMsgs [[1; 2; 3]; [4]] rs.
Proof.
  destruct (tunnel_delivers slowSys slowSys (fun _ => []) bindAnswer None None None (sampleState true) (sampleConn true)
    (sampleState false) [[1; 2; 3]; [4]]) as (rs & s1 & d1 & E1 & C1 & H).
  - apply slowSys_ok.
  - constructor; [done|by apply (bool_decide_unpack _); vm_compute|constructor|cbn; lia|done|done].
  - done.
  - done.
  - apply sampleState_sending.
  - exists (sampleConn false). split; [done|]. split; [apply sampleConn_idle|done].
  - by repeat constructor.
  - by apply (bool_decide_unpack _); vm_compute.
  - exists rs, s1, d1. split; [exact E1|]. split; [exact C1|].
    edestruct H as (r1 & e1 & E2 & C2 & B2 & P2 & _); [|exists r1, e1; split; [exact E2|]; split; [exact C2|]; split; [exact B2|exact P2]].
    cbn [mjoin list_join app]. by rewrite app_nil_r, <- app_assoc, take_drop.
Defined.

(** ** The control connection's frames *)

Lemma onControl_run {A} (m : TM A) s t x t' :
  turnTcp s = Some t -> m t = Some (x, t') -> onControl m s = Some (x, s <| turnTcp := Some t' |>).
Proof. intros H Hm. unfold onControl. rewrite run_gets, H, (run_lift _ _ _ t) by done. by rewrite (run_lift _ _ _ _ Hm). Qed.

Lemma onControl_gets {A} (g : TcpTransport -> A) s t : turnTcp s = Some t -> onControl (gets g) s = Some (g t, s).
Proof.
  intros H. rewrite (onControl_run (gets g) s t (g t) t H eq_refl). do 2 f_equal. destruct s. cbn in H. by rewrite H.
Qed.

(** As long as the stream is not broken its frames go to the client one by one. *)
Lemma controlFrames_spec fuel frame s fs r :
  conn_ok (turnTcpConn s) -> hasTurn s = true -> (length (pending (turnTcpConn s)) < fuel)%nat ->
  cutStream (pending (turnTcpConn s)) = (fs, Some r) ->
  exists s', controlFrames fuel frame s = Some (tt, s') /\ couts s' = couts s ++ ((fun f => ToClient (Some f)) <$> fs) /\
    conn_ok (turnTcpConn s') /\ pending (turnTcpConn s') = r /\ turnTcp s' = turnTcp s /\ hasTurn s' = true.
Proof.
  revert frame s fs. induction fuel as [|fuel IH]; intros frame s fs Hok Ht Hf Hcut; [lia|].
  cbn [controlFrames]. rewrite run_gets. pose proof (readFrame_spec _ Hok) as Hr. rewrite cutStream_unfold in Hcut.
  destruct (cutFrame (pending (turnTcpConn s))) as [| |n] eqn:E; [|done|].
  - injection Hcut as <- <-. rewrite (run_lift _ _ _ _ Hr), run_modify. cbn [Z.eqb orb].
    eexists. split; [done|]. upd. rewrite app_nil_r. done.
  - destruct Hr as [Hr Hlen]. rewrite (run_lift _ _ _ _ Hr). set (c := mkStunConn _ _). rewrite run_modify.
    pose proof (cutFrame_bounds _ _ E) as Hb. pose proof (cutFrame_small _ _ (pending_ok _ Hok) E) as Hsm.
    rewrite (proj2 (Z.eqb_neq (Z.of_nat n) 0)) by lia. cbn [orb]. rewrite bool_decide_false by done.
    rewrite (proj2 (Z.eqb_neq (Z.of_nat n) SIZE_MAX)) by (unfold SIZE_MAX; lia).
    rewrite (run_lift _ _ _ (consumed_ (turnTcpConn s))) by done.
    assert (Hpk : peek (buf_ c) (consumed_ (turnTcpConn s)) (Z.to_nat (Z.of_nat n)) = Some (take n (pending (turnTcpConn s)))).
    { rewrite Nat2Z.id. by rewrite peek_inb by (cbn; lia). }
    rewrite (run_lift _ _ _ _ Hpk).
    destruct (cutStream (drop n (pending (turnTcpConn s)))) as [fs' r'] eqn:E'. cbn [fst snd] in Hcut. injection Hcut as <- ->.
    set (s1 := s <| turnTcpConn := c |>).
    assert (Hcl : toClient (Some (take n (pending (turnTcpConn s)))) s1
      = Some (tt, s1 <| couts ::= fun l => l ++ [ToClient (Some (take n (pending (turnTcpConn s))))] |>)).
    { unfold toClient. rewrite run_gets. change (hasTurn s1) with (hasTurn s). by rewrite Ht. }
    rewrite (run_bind _ _ _ _ _ Hcl).
    assert (Hpc : pending c = drop n (pending (turnTcpConn s))) by (unfold pending; cbn; by rewrite drop_drop).
    destruct (IH (Some (consumed_ (turnTcpConn s))) (s1 <| couts ::= fun l => l ++ [ToClient (Some (take n (pending (turnTcpConn s))))] |>) fs')
      as (s' & E2 & O2 & K2 & P2 & T2 & H2).
    + change (conn_ok c); split; [unfold c; cbn [buf_ consumed_]; lia|apply Hok].
    + done.
    + change (length (pending c) < fuel)%nat. rewrite Hpc, length_drop. lia.
    + change (cutStream (pending c) = (fs', Some r)). by rewrite Hpc.
    + exists s'. split; [done|]. split; [|done]. rewrite O2. upd. by rewrite <- app_assoc.
Qed.

Section ControlStream.
Context (Sy : TcpSys).

(** The control connection after [total] bytes of an unbroken stream. *)
Record controlAt (total : bytes) (s : Control) : Prop := {
  ca_turn : hasTurn s = true;
  ca_tcp : exists t, turnTcp s = Some t /\ idle t;
  ca_ok : conn_ok (turnTcpConn s);
  ca_cut : exists fs, cutStream total = (fs, Some (pending (turnTcpConn s))) /\
    couts s = (fun f => ToClient (Some f)) <$> fs }.

Lemma control_event total chunks s :
  controlAt total s -> bytes_ok (mjoin chunks) -> is_Some (cutStream (total ++ mjoin chunks)).2 ->
  exists s', onTurnTcpEventsSock Sy true false chunks StopNothing s = Some (tt, s') /\ controlAt (total ++ mjoin chunks) s'.
Proof.
  intros [H1 (t & Ht & [I1 I2 I3 I4 I5]) H3 (fs & H4 & H5)] Hok [r Hr].
  destruct (onReadable_open Sy chunks t I1 I2 I4) as (t1 & E1 & R1 & Q1 & S1).
  destruct (drainAll_spec t1) as (ms & t2 & E2 & J2 & Q2 & R2 & S2); [by rewrite (se_framing _ _ S1)|done|].
  rewrite Q1, I5 in J2. cbn [app] in J2.
  assert (Hi2 : idle t2) by (apply (idle_drained t t1); try done; by constructor).
  destruct (feeds_spec ms (turnTcpConn s) H3) as [F1 F2]; [by rewrite J2|]. rewrite J2 in F2.
  rewrite cutStream_app, H4 in Hr. cbn [snd] in Hr.
  destruct (cutStream (pending (turnTcpConn s) ++ mjoin chunks)) as [fs2 r2] eqn:Ec. cbn [snd] in Hr. subst r2.
  set (s2 := s <| turnTcp := Some t2 |> <| turnTcpConn := foldl feed (turnTcpConn s) ms |>).
  destruct (controlFrames_spec (S (length (buf_ (turnTcpConn s2)))) None s2 fs2 r) as (s' & E3 & O3 & K3 & P3 & T3 & U3).
  - exact F1.
  - exact H1.
  - unfold pending. rewrite length_drop. lia.
  - change (turnTcpConn s2) with (foldl feed (turnTcpConn s) ms). by rewrite F2.
  - exists s'. split; [|constructor; [done|exists t2; by rewrite T3|done|]].
    + unfold onTurnTcpEventsSock. rewrite (run_bind _ _ _ _ _ (onControl_gets connectTimedOut s t Ht)).
      assert (Hlate : connectTimedOut t = false).
      { unfold connectTimedOut. rewrite I1, !bool_decide_false by done. by destruct (_ <=? _). }
      rewrite Hlate, run_skip, (run_bind _ _ _ _ _ (onControl_gets state_ s t Ht)), run_skip, run_assoc.
      rewrite (run_bind _ _ _ _ _ (onControl_run _ _ _ _ _ Ht E1)).
      set (s1 := s <| turnTcp := Some t1 |>). assert (Ht1 : turnTcp s1 = Some t1) by done.
      assert (Eh : handleInboundTurnTcp s1 = Some (tt, s')).
      { unfold handleInboundTurnTcp. rewrite run_gets, Ht1, bool_decide_true by done.
        by rewrite (run_bind _ _ _ _ _ (onControl_run _ _ _ _ _ Ht1 E2)), run_modify, run_gets. }
      rewrite (run_bind _ _ _ _ _ Eh). rewrite I1, bool_decide_false by tauto. rewrite run_skip, run_gets, T3.
      change (turnTcp s2) with (Some t2). unfold broken. by rewrite (id_state _ Hi2), !bool_decide_false by done.
    + exists (fs ++ fs2). rewrite cutStream_app, H4, Ec, P3. split; [done|]. rewrite O3, fmap_app, <- H5. done.
Qed.

Definition controlEvents (l : list (list bytes)) : CM unit :=
  forM l (fun chunks => onTurnTcpEventsSock Sy true false chunks StopNothing).

Lemma cut_prefix_open a b : is_Some (cutStream (a ++ b)).2 -> is_Some (cutStream a).2.
Proof. rewrite cutStream_app. destruct (cutStream a) as [fs [r|]]; [done|by intros [? [=]]]. Qed.

Lemma run_controlEvents l total s :
  controlAt total s -> bytes_ok (mjoin (mjoin l)) -> is_Some (cutStream (total ++ mjoin (mjoin l))).2 ->
  exists s', controlEvents l s = Some (tt, s') /\ controlAt (total ++ mjoin (mjoin l)) s'.
Proof.
  revert total s. induction l as [|chunks l IH]; intros total s Hat Hok Hs.
  { exists s. split; [done|]. by rewrite app_nil_r. }
  change (mjoin (chunks :: l)) with (chunks ++ mjoin l) in *. rewrite join_app, app_assoc in *.
  apply Forall_app in Hok as [H1 H2].
  destruct (control_event total chunks s Hat H1 (cut_prefix_open _ _ Hs)) as (s1 & E1 & A1).
  destruct (IH _ s1 A1 H2 Hs) as (s2 & E2 & A2). exists s2. split; [|done].
  unfold controlEvents. cbn [forM]. by rewrite (run_bind _ _ _ _ _ E1).
Qed.
End ControlStream.

(** The control connection hands the TURN client the frames of its stream: on an
    established connection every STUN message and ChannelData frame the server sends reaches
    the client, in order and exactly once, whatever the reads and the readable events the
    bytes arrive in, as long as the stream is made of such frames. *)
Theorem control_frames_delivered Sy t fs evs :
  idle t -> Forall self_delimited fs -> Forall bytes_ok fs -> mjoin (mjoin evs) = mjoin fs ->
  exists s', controlEvents Sy evs (mkControl (Some t) newStunConn true []) = Some (tt, s') /\
    couts s' = (fun f => ToClient (Some f)) <$> fs /\ is_Some (turnTcp s').
Proof.
  intros Hi Hfs Hok E. pose proof (cutStream_frames fs Hfs) as Hc.
  destruct (run_controlEvents Sy evs [] (mkControl (Some t) newStunConn true [])) as (s' & E' & [A1 (t' & A2 & _) A3 (fs' & A4 & A5)]).
  - constructor; [done|by exists t|apply newStunConn_ok|by exists []].
  - rewrite E. by apply Forall_mjoin_split.
  - cbn [app]. by rewrite E, Hc.
  - exists s'. split; [done|]. cbn [app] in A4. rewrite E, Hc in A4. injection A4 as <- _. split; [done|]. by rewrite A2.
Qed.

Definition sampleFrame : bytes := raw (received bindAnswer None None None).

Lemma sampleFrame_ok : self_delimited sampleFrame /\ bytes_ok sampleFrame.
Proof. split; [by vm_compute|by apply (bool_decide_unpack _); vm_compute]. Qed.

Lemma control_frames_delivered_witness :
  exists s', controlEvents slowSys [[take 5 sampleFrame]; [drop 5 sampleFrame; sampleFrame]]
      (mkControl (Some (transport (sampleConn false))) newStunConn true []) = Some (tt, s') /\
    couts s' = [ToClient (Some sampleFrame); ToClient (Some sampleFrame)] /\ is_Some (turnTcp s').
Proof.
  destruct sampleFrame_ok as [H1 H2].
  apply (control_frames_delivered slowSys (transport (sampleConn false)) [sampleFrame; sampleFrame]
    [[take 5 sampleFrame]; [drop 5 sampleFrame; sampleFrame]]).
  - apply sampleConn_idle.
  - constructor; [exact H1|]. constructor; [exact H1|constructor].
  - constructor; [exact H2|]. constructor; [exact H2|constructor].
  - cbn [mjoin list_join app]. by rewrite !app_nil_r, app_assoc, take_drop.
Defined.

(** ** Streams that are not TURN *)

(** Four bytes no frame can begin with. *)
Definition garbage : bytes := [255; 255; 255; 255].

(** The handlers test the pointer before the size, and the parser sets no pointer for
    invalid data: on the data connection the branch that closes it is never taken.  After
    garbage the connection is still open and has dropped one byte. *)
Lemma data_garbage_ignored :
  exists s d, onTurnDataTcpEvents slowSys (fun _ => []) true false [garbage] StopNothing (sampleState false) = Some (tt, s) /\
    turnDataConn_ s = Some d /\ state_ (transport d) = Connected /\ bound d = false /\
    pending (stunConn d) = [255; 255; 255] /\ pendingTurnDataRetry_ s = false.
Proof. eexists _, _. split; [vm_compute; reflexivity|]. split; [reflexivity|]. by repeat split. Qed.

(** The same on the control connection, unless a frame came before in the same event. *)
Definition openControl (st : TcpState) : Control :=
  mkControl (Some (accepting <| framing_ := Raw |> <| state_ := st |>)) newStunConn true [].

Lemma control_garbage_first :
  exists s, onTurnTcpEventsSock slowSys true false [garbage] StopNothing (openControl Connected) = Some (tt, s) /\
    couts s = [] /\ is_Some (turnTcp s).
Proof. eexists. split; [vm_compute; reflexivity|]. split; [done|by eexists]. Qed.

Lemma control_garbage_after_frame :
  exists s, onTurnTcpEventsSock slowSys true false [sampleFrame ++ garbage] StopNothing (openControl Connected) = Some (tt, s) /\
    couts s = [ToClient (Some sampleFrame); ToClient None] /\ turnTcp s = None.
Proof. eexists. split; [vm_compute; reflexivity|]. by split. Qed.

(** C30: A server can crash the agent while the control connection comes up: when the
    connection completes and a frame followed by bytes that are no frame is read in the same
    event, [handleInboundTurnTcp] resets the transport and [onTurnTcpEventsSock] then follows
    the null pointer to ask for its state.  The frame alone is handed on and the allocation
    is started. *)
Theorem control_reset_dereferenced :
  onTurnTcpEventsSock slowSys true true [sampleFrame ++ garbage] StopNothing (openControl Connecting) = None /\
  couts ∘ snd <$> onTurnTcpEventsSock slowSys true true [sampleFrame] StopNothing (openControl Connecting)
  = Some [ToClient (Some sampleFrame); Allocate].
Proof. split; vm_compute; reflexivity. Qed.

(** A message of 65536 bytes is framed with the length 0. *)
Lemma oversize_prefix data : length data = Z.to_nat 65536 -> take 2 (prefixed data) = [0; 0].
Proof. intros H. unfold prefixed. by rewrite H. Qed.

(** An unbound connection that is lost is retried four times, each time later. *)
Lemma retry_delays s d :
  turnDataConn_ s = Some d ->
  exists s', scheduleRetry d s = Some (tt, s') /\ turnDataConn_ s' = None /\
    turnDataRetryCount_ s' = turnDataRetryCount_ s + 1 /\
    nextTurnDataRetry_ s' = now s + 300 * (turnDataRetryCount_ s + 1) /\ turnDataRetryPeer_ s' = peer d.
Proof. intros H. eexists. split; [reflexivity|]. upd. unfold TurnDataRetryDelayMs. repeat split; lia. Qed.
