(* ===== verification/UdpMux.v ===== *)
(** * The UDP multiplexer (include/stice/net/udp_mux.hpp, src/net/udp_mux.cpp)

    [UDPMux]: one socket shared by many agents.  A [MuxAgentEntry] is an object two maps share,
    so it is named by its number in [entries]; objects are kept after the last map forgot
    them, as a snapshot of a packet being delivered may still hold them.  The callbacks of an
    agent run after the lock is released: [routePacket] and [onBookkeeping] return the entries
    to call, in order, and what a callback does on the multiplexer is a later step, as is the
    next datagram of the loop in [onUdpReadable].  The maps
    are unordered; where the code iterates over them the order here is the one of
    [map_to_list].  A ufrag is the list of its bytes.  The address the socket is bound to, the
    printing of addresses and the answers of the timestamp callbacks are parameters; opening
    the socket, its options and the poll thread are left out. *)

From S2P Require Import Prelude.
From S2P Require Import StateMonad.
From S2P Require Import Bytes.
From S2P Require Import Addr.
From S2P Require Import StunMessage.
From S2P Require Import StunAttributes.
Open Scope Z_scope.

Record MuxAgentEntry := mkMuxAgentEntry {
  ufrag : bytes; hasOnPacket : bool; hasOnBookkeeping : bool; hasNextTimestamp : bool;
  remoteAddressKeys : list string }.
#[export] Instance MuxAgentEntry_fields : RecordFields MuxAgentEntry := fun e =>
  mkMuxAgentEntry (ufrag e) (hasOnPacket e) (hasOnBookkeeping e) (hasNextTimestamp e) (remoteAddressKeys e).

Record UDPMux := mkUDPMux {
  entries : list MuxAgentEntry; agentsByUfrag_ : gmap bytes nat; agentsByAddr_ : gmap string nat;
  sent : list (bytes * AddrRecord) }.
#[export] Instance UDPMux_fields : RecordFields UDPMux := fun m =>
  mkUDPMux (entries m) (agentsByUfrag_ m) (agentsByAddr_ m) (sent m).

Definition newMux : UDPMux := mkUDPMux [] ∅ ∅ [].

Abbreviation XM := (SM UDPMux).

Definition getAgent (k : nat) : XM MuxAgentEntry := m ← gets id; lift (entries m !! k).

(** ** Registration *)

Definition registerAgent (u : bytes) (onPacket onBookkeeping nextTimestamp : bool) : XM nat :=
  k ← gets (fun m => length (entries m));
  modify (fun m => m <| entries ::= (fun l => l ++ [mkMuxAgentEntry u onPacket onBookkeeping nextTimestamp []]) |>
                     <| agentsByUfrag_ ::= <[u := k]> |>);;
  mret k.

(** An address key is erased when it still refers to the agent. *)
Definition dropKey (k : nat) (m : gmap string nat) (key : string) : gmap string nat :=
  if bool_decide (m !! key = Some k) then delete key m else m.

Definition removeAgent (u : bytes) : XM unit :=
  it ← gets (fun m => agentsByUfrag_ m !! u);
  match it with
  | None => skip
  | Some k =>
      e ← getAgent k;
      modify (fun m => m <| agentsByAddr_ ::= (fun a => foldl (dropKey k) a (remoteAddressKeys e)) |>
                         <| agentsByUfrag_ ::= delete u |>)
  end.

Section Mux.
Context (getnameinfo : sockaddr -> option (string * string)) (inet_ntop : sockaddr -> option string).
(** [boundAddr]: the address of the shared socket, when it is known. *)
Context (bound : option AddrRecord).

Definition addrKey (a : AddrRecord) : string := toString getnameinfo inet_ntop a.

Definition isLoopback (a : AddrRecord) : bool :=
  match bound with
  | Some b => addrPort (Some (addr b)) =? addrPort (Some (addr a))
  | None => false
  end.

(** [keys.push_back(key)] on the entry, with the address map set to it. *)
Definition recordAddr (key : string) (k : nat) (always : bool) : XM unit :=
  e ← getAgent k;
  let known := bool_decide (key ∈ remoteAddressKeys e) in
  modify (fun m => m <| agentsByAddr_ ::= <[key := k]> |>
    <| entries ::= (if always && known then id
                    else <[k := e <| remoteAddressKeys ::= (fun l => l ++ [key]) |>]>) |>).

(** The entry is set when the address has none yet. *)
Definition recordIfNew (key : string) (k : nat) : XM unit :=
  it ← gets (fun m => agentsByAddr_ m !! key);
  match it with Some _ => skip | None => recordAddr key k false end.

(** The system call of the socket is an output. *)
Definition sendto (data : bytes) (dst : AddrRecord) (u : bytes) : XM unit :=
  it ← gets (fun m => agentsByUfrag_ m !! u);
  match it with
  | None => skip
  | Some k => if isLoopback dst then recordAddr (addrKey dst) k true else recordIfNew (addrKey dst) k
  end;;
  modify (fun m => m <| sent ::= (fun l => l ++ [(data, dst)]) |>).

(** ** Routing *)

Definition agents (m : UDPMux) : list nat := (map_to_list (agentsByUfrag_ m)).*2.

(** The entries of the list whose callback is set. *)
Definition withCallback (has : MuxAgentEntry -> bool) (l : list nat) (m : UDPMux) : list nat :=
  filter (fun k => from_option has false (entries m !! k) = true) l.

(** The part of a USERNAME before the colon. *)
Definition localUfrag (username : bytes) : bytes :=
  match list_find (fun b => b = 58) username with
  | Some (i, _) => take i username
  | None => username
  end.

Definition routeByUfrag (key : string) (u : bytes) : XM (list nat) :=
  it ← gets (fun m => agentsByUfrag_ m !! u);
  match it with
  | None => mret []
  | Some k => recordIfNew key k;; gets (withCallback hasOnPacket [k])
  end.

Definition broadcast : XM (list nat) := gets (fun m => withCallback hasOnPacket (agents m) m).

Definition routeByAddr (src : AddrRecord) : XM (list nat) :=
  gets (fun m =>
    let it := agentsByAddr_ m !! addrKey src in
    withCallback hasOnPacket
      (if isLoopback src then filter (fun k => it <> Some k) (agents m) else option_list it) m).

Definition routePacket (buf : bytes) (src : AddrRecord) : XM (list nat) :=
  isStun ← lift (isMessage buf);
  if negb isStun then routeByAddr src else
  d ← lift (decode emptyMessage buf);
  let username := getString d.2 AttrType.Username in
  if (d.1 : bool) && negb (bool_decide (username = [])) then routeByUfrag (addrKey src) (localUfrag username)
  else broadcast.

(** ** Timers *)

Definition onBookkeeping : XM (list nat) := gets (fun m => withCallback hasOnBookkeeping (agents m) m).

(** [answer k] is what the timestamp callback of entry [k] returns. *)
Definition nextTimestampMs (answer : nat -> Z) (m : UDPMux) : Z :=
  foldl (fun earliest k => let t := answer k in
           if (0 <? t) && ((earliest =? 0) || (t <? earliest)) then t else earliest)
        0 (withCallback hasNextTimestamp (agents m) m).

End Mux.

(** ** The multiplexer sends every packet to the right agent

    The two maps of [UdpMux] stay consistent along all sequences of calls in which a ufrag is
    registered once at a time; packets go to registered agents only, and the data of an
    address stays with the agent that first talked to it. *)

(** ** The invariant *)

Definition registeredAs (m : UDPMux) (u : bytes) (k : nat) : Prop := agentsByUfrag_ m !! u = Some k.

Record consistent (m : UDPMux) : Prop := {
  co_ufrag : forall u k, registeredAs m u k -> exists e, entries m !! k = Some e /\ ufrag e = u;
  co_addr : forall key k, agentsByAddr_ m !! key = Some k ->
    exists e, entries m !! k = Some e /\ key ∈ remoteAddressKeys e /\ registeredAs m (ufrag e) k }.

Lemma newMux_consistent : consistent newMux.
Proof. split; intros ? k; unfold registeredAs; cbn; by rewrite lookup_empty. Qed.

(** Entries are kept, and only their list of addresses grows. *)
Definition older (e e' : MuxAgentEntry) : Prop :=
  ufrag e' = ufrag e /\ hasOnPacket e' = hasOnPacket e /\ remoteAddressKeys e `prefix_of` remoteAddressKeys e'.

Record extends (m m' : UDPMux) : Prop := {
  ex_entries : forall k e, entries m !! k = Some e -> exists e', entries m' !! k = Some e' /\ older e e' }.

Lemma older_refl e : older e e.
Proof. done. Qed.

Lemma older_trans e1 e2 e3 : older e1 e2 -> older e2 e3 -> older e1 e3.
Proof. intros (? & ? & ?) (? & ? & ?). split_and!; [congruence|congruence|by etrans]. Qed.

Lemma extends_refl m : extends m m.
Proof. split. eauto using older_refl. Qed.

Lemma extends_trans m1 m2 m3 : extends m1 m2 -> extends m2 m3 -> extends m1 m3.
Proof.
  intros [H1] [H2]. split. intros k e E. destruct (H1 k e E) as (e' & E' & O1).
  destruct (H2 k e' E') as (e2 & E2 & O2). eauto using older_trans.
Qed.

(** What a call may do to the address map: an address keeps its agent, except those of
    [lost]. *)
Definition keeps (lost : string -> nat -> Prop) (m m' : UDPMux) : Prop :=
  forall key k, agentsByAddr_ m !! key = Some k -> lost key k \/ agentsByAddr_ m' !! key = Some k.

Definition step_ok (lost : string -> nat -> Prop) (m m' : UDPMux) : Prop :=
  consistent m' /\ extends m m' /\ keeps lost m m'.

(** ** Recording an address *)

Lemma recordAddr_ok key k always u m :
  consistent m -> registeredAs m u k ->
  wp (recordAddr key k always)
    (fun _ m' => step_ok (fun key' _ => key' = key) m m' /\ agentsByUfrag_ m' = agentsByUfrag_ m /\
                 agentsByAddr_ m' !! key = Some k) m.
Proof.
  intros Hc Hu. destruct (co_ufrag m Hc u k Hu) as (e & Ee & Eu). subst u.
  unfold recordAddr, getAgent. eexists tt, _. split.
  { run. rewrite (run_lift _ _ _ e) by done. unfold modify. reflexivity. }
  set (f := if always && bool_decide (key ∈ remoteAddressKeys e) then id
            else <[k := e <| remoteAddressKeys ::= (fun l => l ++ [key]) |>]>).
  assert (Hf : forall k1 e1, entries m !! k1 = Some e1 -> exists e', f (entries m) !! k1 = Some e' /\ older e1 e').
  { intros k1 e1 E1. unfold f. destruct (always && bool_decide (key ∈ remoteAddressKeys e)); [eauto using older_refl|].
    destruct (decide (k1 = k)) as [->|Hk].
    - simplify_eq. rewrite list_lookup_insert_eq by by eapply lookup_lt_Some. eexists. split; [done|].
      split_and!; [done|done|by eexists].
    - rewrite list_lookup_insert_ne by done. eauto using older_refl. }
  assert (Hk : exists e', f (entries m) !! k = Some e' /\ key ∈ remoteAddressKeys e' /\ ufrag e' = ufrag e).
  { unfold f. case_bool_decide as Hin.
    - destruct always; cbn; [by exists e|]. rewrite list_lookup_insert_eq by by eapply lookup_lt_Some.
      eexists. split; [done|]. split; [apply elem_of_app; right; by left|done].
    - rewrite andb_false_r, list_lookup_insert_eq by by eapply lookup_lt_Some.
      eexists. split; [done|]. split; [apply elem_of_app; right; by left|done]. }
  split; [split_and!|split].
  - split; unfold registeredAs; upd.
    + intros u k1 H1. destruct (co_ufrag m Hc u k1 H1) as (e1 & E1 & <-).
      destruct (Hf k1 e1 E1) as (e' & E' & O & _). eauto.
    + intros key1 k1. rewrite lookup_insert_Some. intros [[<- <-]|[Hne H1]].
      * destruct Hk as (e' & E' & Hin & Eu). exists e'. by rewrite Eu.
      * destruct (co_addr m Hc key1 k1 H1) as (e1 & E1 & Hin & Hr). destruct (Hf k1 e1 E1) as (e' & E' & Ou & _ & Op).
        exists e'. rewrite Ou. split; [done|]. split; [|done]. destruct Op as [tl ->]. apply elem_of_app. by left.
  - by split.
  - intros key1 k1 H1. upd. destruct (decide (key1 = key)) as [->|Hne]; [by left|right]. by rewrite lookup_insert_ne.
  - done.
  - upd. by rewrite lookup_insert_eq.
Qed.

Lemma step_ok_same lost m : consistent m -> step_ok lost m m.
Proof. intros Hc. split_and!; [done|apply extends_refl|]. intros ???. by right. Qed.

Lemma recordIfNew_ok key k u m :
  consistent m -> registeredAs m u k ->
  wp (recordIfNew key k)
    (fun _ m' => step_ok (fun _ _ => False) m m' /\ agentsByUfrag_ m' = agentsByUfrag_ m /\
       agentsByAddr_ m' !! key = Some (default k (agentsByAddr_ m !! key))) m.
Proof.
  intros Hc Hu. unfold recordIfNew. apply wp_bind, wp_gets.
  destruct (agentsByAddr_ m !! key) as [k'|] eqn:Ea.
  - apply wp_ret. split; [by apply step_ok_same|]. by rewrite Ea.
  - eapply wp_mono; [by eapply recordAddr_ok|]. intros _ m' ((Hc' & Hx & Hk) & Eu & Ek). split; [|by rewrite Ek].
    split_and!; [done|done|]. intros key1 k1 H1. right. destruct (Hk key1 k1 H1) as [->|]; [congruence|done].
Qed.

(** ** Registering and removing *)

Lemma registerAgent_ok u p b t m :
  consistent m -> agentsByUfrag_ m !! u = None ->
  wp (registerAgent u p b t) (fun k m' => step_ok (fun _ _ => False) m m' /\ registeredAs m' u k) m.
Proof.
  intros Hc Hu. unfold registerAgent. apply wp_bind, wp_gets, wp_bind, wp_modify, wp_ret.
  assert (Hl : forall k e, entries m !! k = Some e ->
    (entries m ++ [mkMuxAgentEntry u p b t []]) !! k = Some e) by (intros; by apply lookup_app_l_Some).
  split; [split_and!|].
  - split; unfold registeredAs; upd.
    + intros u1 k1. rewrite lookup_insert_Some. intros [[<- <-]|[Hne H1]].
      * eexists. split; [by apply list_lookup_middle|done].
      * destruct (co_ufrag m Hc u1 k1 H1) as (e & E & <-). eauto.
    + intros key k1 H1. destruct (co_addr m Hc key k1 H1) as (e & E & Hin & Hr). exists e.
      split; [by apply Hl|]. split; [done|]. rewrite lookup_insert_ne; [done|]. unfold registeredAs in Hr. congruence.
  - split. upd. eauto using older_refl.
  - intros key k1 H1. by right.
  - unfold registeredAs. upd. by rewrite lookup_insert_eq.
Qed.

Lemma dropKeys_Some k l a key k' :
  foldl (dropKey k) a l !! key = Some k' <-> a !! key = Some k' /\ ~ (key ∈ l /\ k' = k).
Proof.
  revert a. induction l as [|x l IH]; intros a; cbn [foldl].
  - split; [|by intros [? _]]. intros H. split; [done|]. intros [Hin _]. by apply not_elem_of_nil in Hin.
  - rewrite IH. unfold dropKey. rewrite elem_of_cons. case_bool_decide as Hx.
    + rewrite lookup_delete_Some. destruct (decide (key = x)) as [->|Hne]; [|naive_solver].
      rewrite Hx. split; [naive_solver|]. intros [[= <-] Hn]. exfalso. apply Hn. by split; [left|].
    + split; [|naive_solver]. intros [Ha Hn]. split; [done|]. intros [[->|Hin] ->]; [done|]. by apply Hn.
Qed.

Lemma removeAgent_ok u m :
  consistent m ->
  wp (removeAgent u) (fun _ m' => step_ok (fun _ k => registeredAs m u k) m m' /\ agentsByUfrag_ m' = delete u (agentsByUfrag_ m)) m.
Proof.
  intros Hc. unfold removeAgent, getAgent. apply wp_bind, wp_gets.
  destruct (agentsByUfrag_ m !! u) as [k|] eqn:Eu.
  2: { apply wp_ret. split; [by apply step_ok_same|]. by rewrite delete_id. }
  destruct (co_ufrag m Hc u k Eu) as (e & E & Ef).
  apply wp_bind, wp_bind, wp_gets. apply (wp_lift _ _ _ e); [done|]. apply wp_modify.
  split; [split_and!|done].
  - split; unfold registeredAs; upd.
    + intros u1 k1. rewrite lookup_delete_Some. intros [Hne H1]. destruct (co_ufrag m Hc u1 k1 H1) as (e1 & E1 & <-). eauto.
    + intros key k1. rewrite dropKeys_Some. intros [H1 Hn]. destruct (co_addr m Hc key k1 H1) as (e1 & E1 & Hin & Hr).
      exists e1. split; [done|]. split; [done|]. rewrite lookup_delete_ne; [done|]. intros Hu1. apply Hn.
      unfold registeredAs in Hr. rewrite <- Hu1, Eu in Hr. simplify_eq. done.
  - split. upd. eauto using older_refl.
  - intros key k1 H1. destruct (decide (k1 = k)) as [->|Hne]; [by left|right]. upd. rewrite dropKeys_Some. naive_solver.
Qed.

(** ** All calls *)

Inductive MuxCall :=
  | Register (u : bytes) (onPacket onBookkeeping nextTimestamp : bool)
  | Remove (u : bytes)
  | Sendto (data : bytes) (dst : AddrRecord) (u : bytes)
  | Packet (buf : bytes) (src : AddrRecord)
  | Bookkeeping.

Section Calls.
Context (getnameinfo : sockaddr -> option (string * string)) (inet_ntop : sockaddr -> option string).
Context (bound : option AddrRecord).
Local Abbreviation keyOf := (addrKey getnameinfo inet_ntop).
Local Abbreviation routePacket := (routePacket getnameinfo inet_ntop bound).
Local Abbreviation sendto := (sendto getnameinfo inet_ntop bound).

(** The entries whose callback the call makes. *)
Definition step (c : MuxCall) : XM (list nat) :=
  match c with
  | Register u p b t => registerAgent u p b t;; mret []
  | Remove u => removeAgent u;; mret []
  | Sendto data dst u => sendto data dst u;; mret []
  | Packet buf src => routePacket buf src
  | Bookkeeping => onBookkeeping
  end.

(** A ufrag is registered once at a time, and a packet consists of bytes. *)
Definition admissible (c : MuxCall) (m : UDPMux) : Prop :=
  match c with
  | Register u _ _ _ => agentsByUfrag_ m !! u = None
  | Packet buf _ => bytes_ok buf
  | _ => True
  end.

Inductive steps : list MuxCall -> UDPMux -> UDPMux -> Prop :=
  | steps_nil m : steps [] m m
  | steps_cons c l out m m1 m2 : admissible c m -> step c m = Some (out, m1) -> steps l m1 m2 -> steps (c :: l) m m2.

(** Addresses that a call may take from their agent: those of a removed agent, and a loopback
    destination. *)
Definition lostBy (c : MuxCall) (m : UDPMux) (key : string) (k : nat) : Prop :=
  match c with
  | Remove u => registeredAs m u k
  | Sendto _ dst _ => isLoopback bound dst = true /\ key = keyOf dst
  | _ => False
  end.

Lemma sendto_ok data dst u m :
  consistent m ->
  wp (sendto data dst u)
    (fun _ m' => step_ok (lostBy (Sendto data dst u) m) m m' /\ agentsByUfrag_ m' = agentsByUfrag_ m /\
       (isLoopback bound dst = false -> forall k, registeredAs m u k ->
          agentsByAddr_ m' !! keyOf dst = Some (default k (agentsByAddr_ m !! keyOf dst)))) m.
Proof.
  intros Hc. unfold UdpMux.sendto. apply wp_bind, wp_gets, wp_bind.
  destruct (agentsByUfrag_ m !! u) as [k|] eqn:Eu.
  - destruct (isLoopback bound dst) eqn:El.
    + eapply wp_mono; [by eapply recordAddr_ok|]. intros _ m' ((Hc' & Hx & Hk) & Ef & Ek). apply wp_modify.
      split; [|done]. split_and!; [by destruct Hc'|by destruct Hx|]. intros key1 k1 H1. cbn.
      destruct (Hk key1 k1 H1) as [->|]; [by left|by right].
    + eapply wp_mono; [by eapply recordIfNew_ok|]. intros _ m' ((Hc' & Hx & Hk) & Ef & Ek). apply wp_modify.
      split; [split_and!; [by destruct Hc'|by destruct Hx|]|split; [done|]].
      * intros key1 k1 H1. destruct (Hk key1 k1 H1) as [[]|]. by right.
      * intros _ k1 Hk1. unfold registeredAs in Hk1. rewrite Eu in Hk1. by simplify_eq.
  - apply wp_ret, wp_modify. split; [|split; [done|]].
    + split_and!; [by destruct Hc|split; eauto using older_refl|]. intros ???. by right.
    + intros _ k1 Hk1. unfold registeredAs in Hk1. congruence.
Qed.

(** ** Who is called *)

Definition targets (m : UDPMux) (ks : list nat) : Prop :=
  NoDup ks /\ Forall (fun k => exists u, registeredAs m u k) ks.

Lemma agents_elem m k : k ∈ agents m <-> exists u, registeredAs m u k.
Proof.
  unfold agents, registeredAs. rewrite list_elem_of_fmap. split.
  - intros ([u k'] & -> & H). exists u. by apply elem_of_map_to_list in H.
  - intros [u H]. exists (u, k). split; [done|]. by apply elem_of_map_to_list.
Qed.

Lemma agents_NoDup m : consistent m -> NoDup (agents m).
Proof.
  intros Hc. unfold agents. apply NoDup_fmap_2_strong; [|apply NoDup_map_to_list].
  intros [u1 k1] [u2 k2] H1%elem_of_map_to_list H2%elem_of_map_to_list. cbn. intros <-.
  destruct (co_ufrag m Hc u1 k1 H1) as (e1 & E1 & <-), (co_ufrag m Hc u2 k1 H2) as (e2 & E2 & <-). by simplify_eq.
Qed.

Lemma agents_targets m : consistent m -> targets m (agents m).
Proof. intros Hc. split; [by apply agents_NoDup|]. apply Forall_forall. by intros k ?%agents_elem. Qed.

Lemma one_target m u k : registeredAs m u k -> targets m [k].
Proof. intros H. split; [apply NoDup_singleton|]. constructor; [by exists u|done]. Qed.

Lemma targets_filter (P : nat -> Prop) `{!forall k, Decision (P k)} m ks : targets m ks -> targets m (filter P ks).
Proof. intros [H1 H2]. split; [by apply NoDup_filter|].
  apply Forall_forall. intros k [_ Hk]%list_elem_of_filter. by eapply Forall_forall in H2. Qed.

Lemma targets_same m m' ks : agentsByUfrag_ m' = agentsByUfrag_ m -> targets m ks -> targets m' ks.
Proof. unfold targets, registeredAs. by intros ->. Qed.

Lemma routePacket_ok buf src m :
  consistent m -> bytes_ok buf ->
  wp (routePacket buf src)
    (fun ks m' => step_ok (fun _ _ => False) m m' /\ agentsByUfrag_ m' = agentsByUfrag_ m /\ targets m ks) m.
Proof.
  intros Hc Hb. unfold UdpMux.routePacket. apply wp_bind.
  destruct (isMessage_total buf Hb) as (b & Eb & _). eapply wp_lift; [exact Eb|]. destruct b; cbn [negb].
  2: { unfold routeByAddr. apply wp_gets. split; [by apply step_ok_same|]. split; [done|].
       apply targets_filter. destruct (isLoopback bound src); [by apply targets_filter, agents_targets|].
       destruct (agentsByAddr_ m !! _) as [k|] eqn:Ea; [|split; [apply NoDup_nil_2|done]].
       destruct (co_addr m Hc _ k Ea) as (e & _ & _ & Hr). by eapply one_target. }
  apply wp_bind. destruct (decode_total emptyMessage buf Hb) as (ok & d & Ed & _). eapply wp_lift; [exact Ed|]. cbn [fst snd].
  destruct (ok && _).
  2: { unfold broadcast. apply wp_gets. split; [by apply step_ok_same|]. split; [done|].
       by apply targets_filter, agents_targets. }
  unfold routeByUfrag. apply wp_bind, wp_gets. destruct (agentsByUfrag_ m !! _) as [k|] eqn:Eu.
  2: { apply wp_ret. split; [by apply step_ok_same|]. split; [done|]. split; [apply NoDup_nil_2|done]. }
  apply wp_bind. eapply wp_mono; [by eapply recordIfNew_ok|]. intros _ m' (Hs & Ef & _). apply wp_gets.
  split; [done|]. split; [done|]. apply targets_filter. by eapply one_target.
Qed.

Lemma step_sound c m :
  consistent m -> admissible c m -> wp (step c) (fun ks m' => step_ok (lostBy c m) m m' /\ targets m ks) m.
Proof.
  intros Hc Ha. assert (Hnil : targets m []) by (split; [apply NoDup_nil_2|done]). destruct c; cbn [step lostBy].
  - apply wp_bind. eapply wp_mono; [by apply registerAgent_ok|]. intros k m' [Hs _]. by apply wp_ret.
  - apply wp_bind. eapply wp_mono; [by apply removeAgent_ok|]. intros k m' [Hs _]. by apply wp_ret.
  - apply wp_bind. eapply wp_mono; [by apply sendto_ok|]. intros k m' [Hs _]. by apply wp_ret.
  - eapply wp_mono; [by apply routePacket_ok|]. by intros k m' (Hs & _ & Ht).
  - apply wp_gets. split; [by apply step_ok_same|]. by apply targets_filter, agents_targets.
Qed.

Lemma steps_consistent l m m' : consistent m -> steps l m m' -> consistent m'.
Proof.
  intros Hc Hs. induction Hs as [|c l out m m1 m2 Ha E _ IH]; [done|]. apply IH.
  by destruct (wp_run _ _ _ _ _ (step_sound c m Hc Ha) E) as [[? _] _].
Qed.

(** The multiplexer calls registered agents only.  After any sequence of registrations,
    removals, sends, packets and timer passes in which a ufrag is not registered twice at
    once, every further call returns; the agents whose callback it makes are all registered,
    none is called twice, and every address that has an agent has a registered one. *)
Theorem mux_calls_registered (l : list MuxCall) (c : MuxCall) (m : UDPMux) :
  steps l newMux m -> admissible c m ->
  exists ks m', step c m = Some (ks, m') /\
    NoDup ks /\ Forall (fun k => exists u, registeredAs m u k) ks /\
    forall key k, agentsByAddr_ m' !! key = Some k -> exists u, registeredAs m' u k.
Proof.
  intros Hs Ha. pose proof (steps_consistent _ _ _ newMux_consistent Hs) as Hc.
  destruct (step_sound c m Hc Ha) as (ks & m' & E & (Hc' & _) & Hnd & Hall). exists ks, m'. split_and!; [done..|].
  intros key k Hk. destruct (co_addr m' Hc' key k Hk) as (e & _ & _ & Hr). eauto.
Qed.

(** ** The data of an address *)

(** The calls leave [key] with its agent, which is registered under [u]. *)
Definition leaves (key : string) (u : bytes) (c : MuxCall) : Prop :=
  match c with
  | Remove u' => u' <> u
  | Sendto _ dst _ => isLoopback bound dst = false \/ keyOf dst <> key
  | _ => True
  end.

Lemma steps_keep key u k e l m m' :
  consistent m -> agentsByAddr_ m !! key = Some k -> entries m !! k = Some e -> ufrag e = u ->
  Forall (leaves key u) l -> steps l m m' ->
  agentsByAddr_ m' !! key = Some k /\ exists e', entries m' !! k = Some e' /\ older e e'.
Proof.
  intros Hc Hk Ee Eu Hl Hs. revert e Hc Hk Ee Eu. induction Hs as [|c l out m m1 m2 Ha E _ IH]; intros e Hc Hk Ee Eu.
  { split; [done|]. eauto using older_refl. }
  apply Forall_cons in Hl as [Hlc Hl].
  destruct (wp_run _ _ _ _ _ (step_sound c m Hc Ha) E) as [(Hc1 & [Hx] & Hkeep) _].
  assert (Hk1 : agentsByAddr_ m1 !! key = Some k).
  { destruct (Hkeep key k Hk) as [Hlost|]; [|done]. destruct c; cbn in Hlost, Hlc; try done.
    - destruct (co_ufrag m Hc _ k Hlost) as (e1 & E1 & E2). congruence.
    - destruct Hlost as [H1 ->]. destruct Hlc; congruence. }
  destruct (Hx k e Ee) as (e1 & E1 & O1). destruct (IH Hl e1 Hc1 Hk1 E1) as (H2 & e2 & E2 & O2).
  { destruct O1 as [-> _]. done. }
  split; [done|]. eauto using older_trans.
Qed.

(** Data stays with the agent that talked to its source first.  When the agent registered
    under [u] sends to an address that no agent has yet, every later packet from that address
    that is not a STUN message goes to it, and to it alone, whatever the other agents do, until
    it is removed; a send of another agent to the same address changes nothing.  The address
    is not one of the socket itself. *)
Theorem mux_data_affinity (l l' : list MuxCall) (m m' : UDPMux) (a : AddrRecord) (u : bytes) (k : nat)
    (e : MuxAgentEntry) (data buf : bytes) :
  steps l newMux m -> registeredAs m u k -> entries m !! k = Some e -> hasOnPacket e = true ->
  agentsByAddr_ m !! keyOf a = None -> isLoopback bound a = false ->
  Forall (leaves (keyOf a) u) l' -> steps (Sendto data a u :: l') m m' ->
  isMessage buf = Some false ->
  routePacket buf a m' = Some ([k], m').
Proof.
  intros Hs0 Hu Ee Hp Ha Hlb Hl Hs Hm. pose proof (steps_consistent _ _ _ newMux_consistent Hs0) as Hc.
  inversion_clear Hs as [|c l0 out m0 m1 m2 _ E Hs']. cbn [step] in E.
  destruct (sendto_ok data a u m Hc) as ([] & m1' & E1 & (Hc1 & [Hx] & _) & Ef & Hk).
  rewrite (run_bind _ _ _ _ _ E1) in E. injection E as _ <-. specialize (Hk Hlb k Hu). rewrite Ha in Hk.
  destruct (Hx k e Ee) as (e1 & Ee1 & Ou & Op & _).
  assert (Eu : ufrag e1 = u).
  { destruct (co_ufrag m Hc u k Hu) as (e0 & E0 & <-). congruence. }
  destruct (steps_keep (keyOf a) u k e1 l' m1' m' Hc1 Hk Ee1 Eu Hl Hs') as (Hk' & e2 & Ee2 & _ & Op2 & _).
  unfold UdpMux.routePacket. rewrite (run_lift _ _ _ false) by done. cbn [negb]. unfold routeByAddr, gets.
  rewrite Hlb, Hk'. unfold withCallback. change (option_list (Some k)) with [k].
  rewrite filter_cons_True; [done|].
  rewrite Ee2. cbn. congruence.
Qed.

End Calls.
