(* ===== verification/MdnsCodec.v ===== *)
(** * DNS messages of the mDNS client (src/net/mdns.cpp)

    Names, queries and responses on the wire.  A name is the list of its bytes.  The loop of
    [parseName] follows compression pointers, at most ten of them, and is given fuel
    for ten passes over the message; [parseName_total] shows that this is enough and that no
    read leaves the buffer.  [inet_pton] is a parameter. *)

From S2P Require Import Prelude.
From S2P Require Import Bytes.
Open Scope Z_scope.
Open Scope c_scope.

Definition kMDnsPort : Z := 5353.
Definition kDnsTypeA : Z := 1.
Definition kDnsTypeAAAA : Z := 28.
Definition kDnsClassIN : Z := 1.
Definition kDnsClassINUnicast : Z := 0x8001.
Definition kQueryIntervalMs : Z := 1000.
Definition kQueryTimeoutMs : Z := 5000.
Definition kResponseTTL : Z := 120.

Record DnsHeader := mkDnsHeader { id : Z; flags : Z; qdcount : Z; ancount : Z; nscount : Z; arcount : Z }.
Record DnsQuestion := mkDnsQuestion { q_name : bytes; q_type : Z; qclass : Z }.
Record DnsAnswer := mkDnsAnswer { a_name : bytes; a_type : Z; rclass : Z; ttl : Z; rdata : bytes }.

Definition DOT : Z := 46.
Definition dotLocal : bytes := [46; 108; 111; 99; 97; 108].

(** ** Host names *)

(** [s.rfind(p)]: the last position at which [p] stands in [s]. *)
Definition rfind (p s : bytes) : option nat :=
  last (filter (fun i => take (length p) (drop i s) = p) (seq 0 (S (length s)))).

Definition isMDnsName (hostname : bytes) : bool :=
  if (length hostname <? 6)%nat then false else
  match rfind dotLocal hostname with
  | None => false
  | Some pos =>
      (pos + 6 =? length hostname)%nat ||
      ((pos + 7 =? length hostname)%nat && bool_decide (hostname !! (pos + 6)%nat = Some DOT))
  end.

Definition hexDigit (n : Z) : Z := if n <? 10 then 48 + n else 87 + n.
Definition hex2 (b : Z) : bytes := [hexDigit (b / 16); hexDigit (b mod 16)].

(** [rnd]: the sixteen bytes the random source gave. *)
Definition generateHostname (rnd : bytes) : bytes :=
  let b := alter (fun x => (x &. 0x3F) |. 0x80) 8%nat (alter (fun x => (x &. 0x0F) |. 0x40) 6%nat rnd) in
  let hex i n := mjoin (hex2 <$> take n (drop i b)) in
  hex 0%nat 4%nat ++ [45] ++ hex 4%nat 2%nat ++ [45] ++ hex 6%nat 2%nat ++ [45] ++ hex 8%nat 2%nat ++ [45] ++
  hex 10%nat 6%nat ++ dotLocal.

(** ** Encoding *)

(** The labels of what is left of the name; the loop ends at the last dot. *)
Fixpoint encodeLabels (fuel : nat) (name : bytes) : bytes :=
  match fuel with
  | O => []
  | S fuel =>
      if bool_decide (name = []) then [] else
      let dot := fst <$> list_find (fun b => b = DOT) name in
      let label := match dot with Some i => take i name | None => name end in
      (if bool_decide (label = []) then [] else u8 (Z.of_nat (length label)) :: label) ++
      match dot with None => [] | Some i => encodeLabels fuel (drop (S i) name) end
  end.

Definition encodeName (name : bytes) : bytes := encodeLabels (S (length name)) name ++ [0].

Definition encodeQuery (name : bytes) (type : Z) : bytes :=
  writeU16Be 0 ++ writeU16Be 0 ++ writeU16Be 1 ++ writeU16Be 0 ++ writeU16Be 0 ++ writeU16Be 0 ++
  encodeName name ++ writeU16Be type ++ writeU16Be kDnsClassINUnicast.

Section Pton.
Context (inet_pton4 inet_pton6 : bytes -> option bytes).

(** Length and bytes of the address; nothing when it is not one of the family. *)
Definition encodeRdata (type : Z) (addr : bytes) : bytes :=
  if type =? kDnsTypeA then from_option (fun a => writeU16Be 4 ++ a) [] (inet_pton4 addr)
  else if type =? kDnsTypeAAAA then from_option (fun a => writeU16Be 16 ++ a) [] (inet_pton6 addr)
  else [].

Definition encodeResponse (id_ : Z) (name : bytes) (type : Z) (addr : bytes) : bytes :=
  writeU16Be id_ ++ writeU16Be 0x8400 ++ writeU16Be 0 ++ writeU16Be 1 ++ writeU16Be 0 ++ writeU16Be 0 ++
  encodeName name ++ writeU16Be type ++ writeU16Be kDnsClassIN ++ writeU32Be kResponseTTL ++ encodeRdata type addr.
End Pton.

(** ** Decoding *)

Definition addLabel (name label : bytes) : bytes := (if bool_decide (name = []) then [] else name ++ [DOT]) ++ label.

(** [jump] is [jumpPos] once a pointer was followed; the result is the name and the new
    offset, which stays what it was when the name breaks off after a pointer. *)
Fixpoint parseLoop (fuel : nat) (data : bytes) (offset pos : nat) (jump : option nat) (jumps : nat) (name : bytes)
    : option (bytes * nat) :=
  match fuel with
  | O => None
  | S fuel =>
      let broken := Some (name, if jump then offset else pos) in
      if negb (pos <? length data)%nat then broken else
      b ← data !! pos;
      if b =? 0 then Some (name, default (pos + 1)%nat jump) else
      if (b &. 0xC0) =? 0xC0 then
        if (length data <=? pos + 1)%nat then broken else
        b1 ← data !! (pos + 1)%nat;
        let jump := Some (default (pos + 2)%nat jump) in
        if (10 <? S jumps)%nat then Some (name, offset) else
        parseLoop fuel data offset (Z.to_nat (((b &. 0x3F) <<. 8) |. b1)) jump (S jumps) name
      else
        let labelLen := Z.to_nat b in
        if (length data <? pos + 1 + labelLen)%nat then broken else
        label ← peek data (pos + 1) labelLen;
        parseLoop fuel data offset (pos + 1 + labelLen) jump jumps (addLabel name label)
  end.

Definition nameFuel (data : bytes) : nat := (12 * S (length data))%nat.
Definition parseName (data : bytes) (offset : nat) : option (bytes * nat) :=
  parseLoop (nameFuel data) data offset offset None 0 [].

(** The inner [None] is a message that is cut off. *)
Fixpoint parseQuestions (n : nat) (data : bytes) (off : nat) : option (option (list DnsQuestion * nat)) :=
  match n with
  | O => Some (Some ([], off))
  | S n =>
      if negb (off <? length data)%nat then Some (Some ([], off)) else
      '(name, off) ← parseName data off;
      if (length data <? off + 4)%nat then Some None else
      type ← readU16Be data off;
      cls ← readU16Be data (off + 2);
      r ← parseQuestions n data (off + 4);
      Some ('(qs, off) ← r; Some (mkDnsQuestion name type cls :: qs, off))
  end.

Fixpoint parseAnswers (n : nat) (data : bytes) (off : nat) : option (option (list DnsAnswer)) :=
  match n with
  | O => Some (Some [])
  | S n =>
      if negb (off <? length data)%nat then Some (Some []) else
      '(name, off) ← parseName data off;
      if (length data <? off + 10)%nat then Some None else
      type ← readU16Be data off;
      cls ← readU16Be data (off + 2);
      t ← readU32Be data (off + 4);
      rdlength ← readU16Be data (off + 8);
      if (length data <? off + 10 + Z.to_nat rdlength)%nat then Some None else
      rd ← peek data (off + 10) (Z.to_nat rdlength);
      r ← parseAnswers n data (off + 10 + Z.to_nat rdlength);
      Some (ans ← r; Some (mkDnsAnswer name type cls t rd :: ans))
  end.

Definition parseMessage (data : bytes) : option (option (DnsHeader * list DnsQuestion * list DnsAnswer)) :=
  if (length data <? 12)%nat then Some None else
  i ← readU16Be data 0;
  f ← readU16Be data 2;
  qd ← readU16Be data 4;
  an ← readU16Be data 6;
  ns ← readU16Be data 8;
  ar ← readU16Be data 10;
  qs ← parseQuestions (Z.to_nat qd) data 12;
  match qs with
  | None => Some None
  | Some (questions, off) =>
      ans ← parseAnswers (Z.to_nat an) data off;
      Some (answers ← ans; Some (mkDnsHeader i f qd an ns ar, questions, answers))
  end.

(** ** Every message is parsed to its end *)

Lemma addLabel_ok name label : bytes_ok name -> bytes_ok label -> bytes_ok (addLabel name label).
Proof.
  intros Hn Hl. unfold addLabel. apply bytes_ok_app; [|done]. case_bool_decide; [done|]. apply bytes_ok_app; [done|].
  constructor; [|done]. unfold DOT. width.
Qed.

Section Total.
Context (data : bytes) (Hdata : bytes_ok data).

Lemma byte_at pos : (pos < length data)%nat -> exists b, data !! pos = Some b /\ is_byte b.
Proof. intros [b Hb]%lookup_lt_is_Some_2. exists b. split; [done|]. by eapply Forall_lookup_1. Qed.

Lemma peek_ok off n : (off + n <= length data)%nat -> exists v, peek data off n = Some v /\ bytes_ok v /\ length v = n.
Proof.
  intros H. eexists. split; [by apply peek_inb|]. split; [by apply Forall_take, Forall_drop|].
  rewrite length_take, length_drop. lia.
Qed.

Lemma parseLoop_total fuel offset pos jump jumps name :
  ((11 - jumps) * S (length data) + (length data - pos) < fuel)%nat -> (jumps <= 10)%nat ->
  (offset <= length data)%nat -> (jump = None -> pos <= length data)%nat ->
  (forall j, jump = Some j -> j <= length data)%nat -> bytes_ok name ->
  exists n o, parseLoop fuel data offset pos jump jumps name = Some (n, o) /\ (o <= length data)%nat /\ bytes_ok n.
Proof.
  revert offset pos jump jumps name. induction fuel as [|fuel IH]; intros offset pos jump jumps name Hf Hj Ho Hp Hjp Hn; [lia|].
  cbn [parseLoop]. assert (Hbroken : ((if jump then offset else pos) <= length data)%nat) by (destruct jump; auto).
  destruct (Nat.ltb_spec pos (length data)) as [Hlt|Hge]; cbn [negb]; [|eauto].
  destruct (byte_at pos Hlt) as (b & -> & Hb). cbn [mbind option_bind].
  destruct (b =? 0) eqn:E0.
  { do 2 eexists. split; [done|]. split; [|done]. destruct jump as [j|]; cbn; [by apply Hjp|lia]. }
  destruct (Z.eqb_spec (b &. 0xC0) 0xC0) as [Hptr|Hptr].
  - destruct (Nat.leb_spec (length data) (pos + 1)) as [Hl|Hl]; [eauto|].
    destruct (byte_at (pos + 1) Hl) as (b1 & -> & Hb1). cbn [mbind option_bind].
    destruct (Nat.ltb_spec 10 (S jumps)) as [Hs|Hs]; [eauto|]. apply IH; [nia|lia|done|done| |done].
    intros j [= <-]. destruct jump as [j|]; cbn; [by apply Hjp|lia].
  - destruct (Nat.ltb_spec (length data) (pos + 1 + Z.to_nat b)) as [Hl|Hl]; [eauto|].
    destruct (peek_ok (pos + 1) (Z.to_nat b)) as (v & -> & Hv & _); [lia|]. cbn [mbind option_bind].
    apply IH; [nia|lia|done|lia|done|by apply addLabel_ok].
Qed.

Lemma parseName_total offset :
  (offset <= length data)%nat ->
  exists n o, parseName data offset = Some (n, o) /\ (o <= length data)%nat /\ bytes_ok n.
Proof. intros Ho. unfold parseName. apply parseLoop_total; [unfold nameFuel; lia|lia|done|done|done|done]. Qed.

Lemma parseQuestions_total n off :
  (off <= length data)%nat ->
  exists r, parseQuestions n data off = Some r /\ (forall qs o, r = Some (qs, o) -> o <= length data)%nat.
Proof.
  revert off. induction n as [|n IH]; intros off Ho; cbn [parseQuestions].
  { eexists. split; [done|]. by intros ?? [= _ <-]. }
  destruct (Nat.ltb_spec off (length data)); cbn [negb]; [|eexists; split; [done|]; by intros ?? [= _ <-]].
  destruct (parseName_total off Ho) as (nm & o & -> & Ho' & _). cbn [mbind option_bind].
  destruct (Nat.ltb_spec (length data) (o + 4)); [by eexists|].
  destruct (readU16Be_inb data o Hdata) as (ty & -> & _); [lia|].
  destruct (readU16Be_inb data (o + 2) Hdata) as (cl & -> & _); [lia|]. cbn [mbind option_bind].
  destruct (IH (o + 4)%nat) as (r & -> & Hr); [lia|]. cbn [mbind option_bind]. eexists. split; [done|].
  destruct r as [[qs o2]|]; [|done]. intros ?? [= _ <-]. by eapply Hr.
Qed.

Lemma parseAnswers_total n off : (off <= length data)%nat -> exists r, parseAnswers n data off = Some r.
Proof.
  revert off. induction n as [|n IH]; intros off Ho; cbn [parseAnswers]; [by eexists|].
  destruct (Nat.ltb_spec off (length data)); cbn [negb]; [|by eexists].
  destruct (parseName_total off Ho) as (nm & o & -> & Ho' & _). cbn [mbind option_bind].
  destruct (Nat.ltb_spec (length data) (o + 10)); [by eexists|].
  destruct (readU16Be_inb data o Hdata) as (ty & -> & _); [lia|].
  destruct (readU16Be_inb data (o + 2) Hdata) as (cl & -> & _); [lia|].
  destruct (readU32Be_inb data (o + 4)) as (tt & -> & _); [lia|].
  destruct (readU16Be_inb data (o + 8) Hdata) as (rl & -> & Hrl); [lia|]. cbn [mbind option_bind].
  destruct (Nat.ltb_spec (length data) (o + 10 + Z.to_nat rl)); [by eexists|].
  destruct (peek_ok (o + 10) (Z.to_nat rl)) as (v & -> & _); [lia|]. cbn [mbind option_bind].
  destruct (IH (o + 10 + Z.to_nat rl)%nat) as (r & ->); [lia|]. by eexists.
Qed.

Lemma parseMessage_total : exists r, parseMessage data = Some r.
Proof.
  unfold parseMessage. destruct (Nat.ltb_spec (length data) 12); [by eexists|].
  destruct (readU16Be_inb data 0 Hdata) as (? & -> & _); [lia|].
  destruct (readU16Be_inb data 2 Hdata) as (? & -> & _); [lia|].
  destruct (readU16Be_inb data 4 Hdata) as (qd & -> & _); [lia|].
  destruct (readU16Be_inb data 6 Hdata) as (an & -> & _); [lia|].
  destruct (readU16Be_inb data 8 Hdata) as (? & -> & _); [lia|].
  destruct (readU16Be_inb data 10 Hdata) as (? & -> & _); [lia|]. cbn [mbind option_bind].
  destruct (parseQuestions_total (Z.to_nat qd) 12) as (r & -> & Hr); [lia|]. cbn [mbind option_bind].
  destruct r as [[qs o]|]; [|by eexists].
  destruct (parseAnswers_total (Z.to_nat an) o) as (r & ->); [by eapply Hr|]. by eexists.
Qed.
End Total.

(** ** Names survive the wire *)

(** A label: one to 63 bytes without a dot. *)
Record label_ok (l : bytes) : Prop := {
  lo_size : (0 < length l <= 63)%nat; lo_dot : DOT ∉ l; lo_bytes : bytes_ok l }.

Definition dots (ls : list bytes) : bytes := mjoin ((fun l => l ++ [DOT]) <$> ls).

(** The name with these labels. *)
Definition dotted (ls : list bytes) (l : bytes) : bytes := dots ls ++ l.
Definition wireLabel (l : bytes) : bytes := Z.of_nat (length l) :: l.
Definition wireName (ls : list bytes) : bytes := mjoin (wireLabel <$> ls) ++ [0].

Lemma no_dot l : DOT ∉ l -> list_find (fun b => b = DOT) l = None.
Proof. intros H. apply list_find_None, Forall_forall. by intros x Hx ->. Qed.

Lemma dot_after l rest : DOT ∉ l -> list_find (fun b => b = DOT) (l ++ DOT :: rest) = Some (length l, DOT).
Proof.
  intros H. apply list_find_Some. rewrite list_lookup_middle by done. split; [done|]. split; [done|].
  intros j y Hj Hlt ->. rewrite lookup_app_l in Hj by done. by apply H, list_elem_of_lookup_2 with j.
Qed.

Lemma label_byte l : label_ok l -> u8 (Z.of_nat (length l)) = Z.of_nat (length l).
Proof. intros [H _ _]. apply wrap_id. width. Qed.

Lemma label_cons l : label_ok l -> bool_decide (l = []) = false.
Proof. intros [H _ _]. apply bool_decide_false. intros ->. cbn in H. lia. Qed.

Lemma encodeLabels_cons fuel l rest :
  label_ok l -> encodeLabels (S fuel) (l ++ DOT :: rest) = wireLabel l ++ encodeLabels fuel rest.
Proof.
  intros Hl. cbn [encodeLabels]. rewrite bool_decide_false by by destruct l. rewrite dot_after by apply Hl. cbn [fmap option_fmap option_map fst].
  rewrite take_app_length, label_cons, label_byte by done. rewrite (cons_middle DOT l rest), app_assoc.
  by rewrite drop_app_length' by (rewrite length_app; cbn; lia).
Qed.

Lemma encodeLabels_last fuel l : label_ok l -> encodeLabels (S fuel) l = wireLabel l.
Proof.
  intros Hl. cbn [encodeLabels]. rewrite no_dot by apply Hl. cbn [fmap option_fmap option_map]. rewrite !label_cons by done.
  rewrite label_byte by done. by rewrite app_nil_r.
Qed.

Lemma encodeLabels_dots fuel ls rest :
  Forall label_ok ls -> (length ls <= fuel)%nat ->
  encodeLabels fuel (dots ls ++ rest) = mjoin (wireLabel <$> ls) ++ encodeLabels (fuel - length ls) rest.
Proof.
  intros Hls. revert fuel. induction Hls as [|l ls Hl Hls IH]; intros fuel Hf; cbn in *; [by rewrite Nat.sub_0_r|].
  destruct fuel as [|fuel]; [lia|]. rewrite <- !app_assoc. cbn [app]. rewrite encodeLabels_cons by done.
  unfold dots in IH. rewrite IH by lia. by rewrite app_comm_cons.
Qed.

Lemma dots_length ls : (length ls <= length (dots ls))%nat.
Proof.
  induction ls as [|l ls IH]; [cbn; lia|]. change (dots (l :: ls)) with ((l ++ [DOT]) ++ dots ls).
  rewrite !length_app. cbn. lia.
Qed.

Lemma encodeName_dotted ls l : Forall label_ok ls -> label_ok l -> encodeName (dotted ls l) = wireName (ls ++ [l]).
Proof.
  intros Hls Hl. unfold encodeName, wireName, dotted. pose proof (dots_length ls) as Hd.
  rewrite length_app, encodeLabels_dots by (done || lia).
  replace (S (length (dots ls) + length l) - length ls)%nat with (S (length (dots ls) + length l - length ls)) by lia.
  rewrite encodeLabels_last by done. rewrite fmap_app, join_app. cbn. by rewrite app_nil_r.
Qed.

(** A dot at the end changes nothing. *)
Lemma encodeName_dot ls l : Forall label_ok ls -> label_ok l -> encodeName (dotted ls l ++ [DOT]) = wireName (ls ++ [l]).
Proof.
  intros Hls Hl. unfold encodeName, wireName. assert (E : dotted ls l ++ [DOT] = dots (ls ++ [l]) ++ []).
  { unfold dotted, dots. rewrite fmap_app, join_app. cbn. by rewrite !app_nil_r, app_assoc. }
  rewrite E. pose proof (dots_length (ls ++ [l])). rewrite encodeLabels_dots by ((apply Forall_app_2; by auto) || (rewrite app_nil_r; lia)).
  rewrite app_nil_r. destruct (S _ - _)%nat; cbn; by rewrite app_nil_r.
Qed.

Lemma not_pointer z : 0 <= z < 64 -> (z &. 0xC0 =? 0xC0) = false.
Proof.
  intros Hz. assert (H : Forall (fun z => (z &. 0xC0 =? 0xC0) = false) (seqZ 0 64)) by by repeat constructor.
  rewrite Forall_forall in H. apply H, elem_of_seqZ. lia.
Qed.

Lemma parseLoop_labels fuel ls pre suf offset name :
  Forall label_ok ls -> (length ls < fuel)%nat ->
  parseLoop fuel (pre ++ wireName ls ++ suf) offset (length pre) None 0 name =
  Some (foldl addLabel name ls, (length pre + length (wireName ls))%nat).
Proof.
  intros Hls. revert fuel pre name. induction Hls as [|l ls Hl Hls IH]; intros fuel pre name Hf; (destruct fuel as [|fuel]; [cbn in Hf; lia|]).
  - change (wireName []) with [0]. cbn [parseLoop app]. rewrite length_app. cbn [length].
    destruct (Nat.ltb_spec (length pre) (length pre + S (length suf))); [|lia]. cbn [negb].
    by rewrite (list_lookup_middle pre suf 0 (length pre) eq_refl).
  - assert (Ew : wireName (l :: ls) = wireLabel l ++ wireName ls) by (unfold wireName; cbn; by rewrite app_assoc).
    rewrite Ew. cbn [parseLoop]. destruct (lo_size l Hl) as [H1 H2].
    set (d := pre ++ (wireLabel l ++ wireName ls) ++ suf).
    assert (Hd : length d = (length pre + (S (length l) + length (wireName ls)) + length suf)%nat).
    { unfold d, wireLabel. rewrite !length_app. cbn. lia. }
    rewrite Hd. destruct (Nat.ltb_spec (length pre) (length pre + (S (length l) + length (wireName ls)) + length suf)); [|lia].
    assert (E0 : d !! length pre = Some (Z.of_nat (length l))) by (unfold d, wireLabel; cbn; by rewrite list_lookup_middle).
    rewrite E0. cbn [negb mbind option_bind]. destruct (Z.eqb_spec (Z.of_nat (length l)) 0); [lia|].
    rewrite not_pointer by lia. rewrite Nat2Z.id.
    destruct (Nat.ltb_spec (length pre + (S (length l) + length (wireName ls)) + length suf) (length pre + 1 + length l)); [lia|].
    assert (Ed : d = (pre ++ [Z.of_nat (length l)]) ++ l ++ (wireName ls ++ suf)) by (unfold d, wireLabel; by rewrite <- !app_assoc).
    assert (Ep : peek d (length pre + 1) (length l) = Some l).
    { rewrite Ed. replace (length pre + 1)%nat with (length (pre ++ [Z.of_nat (length l)])) by (rewrite length_app; cbn; lia). apply peek_app. }
    rewrite Ep. cbn [mbind option_bind].
    replace d with ((pre ++ wireLabel l) ++ wireName ls ++ suf) by (unfold d; by rewrite <- !app_assoc).
    replace (length pre + 1 + length l)%nat with (length (pre ++ wireLabel l)) by (unfold wireLabel; rewrite length_app; cbn; lia).
    rewrite IH by (cbn in Hf; lia). rewrite !length_app. cbn [foldl]. f_equal. f_equal. lia.
Qed.

Lemma addLabel_cons name l : name <> [] -> addLabel name l = name ++ DOT :: l.
Proof. intros H. unfold addLabel. rewrite bool_decide_false by done. by rewrite <- app_assoc. Qed.

Lemma addLabels_name ls l name :
  Forall label_ok (ls ++ [l]) -> foldl addLabel name (ls ++ [l]) = if bool_decide (name = []) then dotted ls l else name ++ DOT :: dotted ls l.
Proof.
  revert name. induction ls as [|x ls IH]; intros name; cbn [app foldl].
  - intros _. unfold dotted. cbn. unfold addLabel. case_bool_decide; [done|]. by rewrite <- app_assoc.
  - intros [Hx Hls]%Forall_cons. rewrite IH by done.
    assert (Hne : x <> []) by (destruct Hx as [Hs _ _]; intros ->; cbn in Hs; lia).
    rewrite bool_decide_false.
    2: { unfold addLabel. intros [_ H]%app_eq_nil. done. }
    unfold addLabel, dotted, dots. cbn. case_bool_decide; cbn; by rewrite <- !app_assoc.
Qed.

Lemma wireName_length ls : (length ls < length (wireName ls))%nat.
Proof.
  induction ls as [|l ls IH]; [cbn; lia|]. change (wireName (l :: ls)) with ((wireLabel l ++ mjoin (wireLabel <$> ls)) ++ [0]).
  unfold wireName in IH. rewrite !length_app in *. cbn [length wireLabel] in *. lia.
Qed.

Lemma parseName_wire pre suf ls l :
  Forall label_ok ls -> label_ok l ->
  parseName (pre ++ wireName (ls ++ [l]) ++ suf) (length pre) =
  Some (dotted ls l, (length pre + length (wireName (ls ++ [l])))%nat).
Proof.
  intros Hls Hl. unfold parseName. assert (Hall : Forall label_ok (ls ++ [l])) by (apply Forall_app_2; auto).
  rewrite parseLoop_labels by (done || (unfold nameFuel; rewrite !length_app; pose proof (wireName_length (ls ++ [l])); rewrite length_app in *; lia)).
  by rewrite addLabels_name.
Qed.

(** ** Messages survive the wire *)

(** The fields behind a name, read where the name ends. *)
Lemma read16_after pre mid v suf off :
  fits 16 v -> off = (length pre + length mid)%nat -> readU16Be (pre ++ mid ++ writeU16Be v ++ suf) off = Some v.
Proof. intros Hv ->. rewrite app_assoc, <- length_app. by apply readU16Be_app_write. Qed.

Lemma read32_after pre mid v suf off :
  fits 32 v -> off = (length pre + length mid)%nat -> readU32Be (pre ++ mid ++ writeU32Be v ++ suf) off = Some v.
Proof. intros Hv ->. rewrite app_assoc, <- length_app. by apply readU32Be_app_write. Qed.

Definition queryHeader : bytes := [0; 0; 0; 0; 0; 1; 0; 0; 0; 0; 0; 0].
Definition responseHeader (id_ : Z) : bytes := writeU16Be id_ ++ [132; 0; 0; 0; 0; 1; 0; 0; 0; 0].

Lemma parse_query ls l type :
  Forall label_ok ls -> label_ok l -> fits 16 type ->
  parseMessage (encodeQuery (dotted ls l) type) =
  Some (Some (mkDnsHeader 0 0 1 0 0 0, [mkDnsQuestion (dotted ls l) type kDnsClassINUnicast], [])).
Proof.
  intros Hls Hl Ht. unfold encodeQuery. rewrite encodeName_dotted by done. set (w := wireName (ls ++ [l])).
  match goal with |- parseMessage ?d = _ => set (data := d) end.
  assert (Ed : data = queryHeader ++ w ++ writeU16Be type ++ writeU16Be kDnsClassINUnicast) by done.
  assert (Hlen : length data = (12 + length w + 4)%nat).
  { rewrite Ed, !length_app, !length_writeU16Be. cbn. lia. }
  unfold parseMessage. rewrite Hlen. destruct (Nat.ltb_spec (12 + length w + 4) 12); [lia|].
  change (readU16Be data 0) with (Some 0). change (readU16Be data 2) with (Some 0). change (readU16Be data 4) with (Some 1).
  change (readU16Be data 6) with (Some 0). change (readU16Be data 8) with (Some 0). change (readU16Be data 10) with (Some 0).
  cbn [mbind option_bind]. change (Z.to_nat 1) with 1%nat. cbn [parseQuestions]. rewrite Hlen.
  destruct (Nat.ltb_spec 12 (12 + length w + 4)); [|lia]. cbn [negb].
  assert (En : parseName data 12 = Some (dotted ls l, (12 + length w)%nat)).
  { rewrite Ed. by apply (parseName_wire queryHeader). }
  rewrite En. cbn [mbind option_bind]. destruct (Nat.ltb_spec (12 + length w + 4) (12 + length w + 4)); [lia|].
  assert (E1 : readU16Be data (12 + length w) = Some type) by (rewrite Ed; by apply read16_after).
  assert (E2 : readU16Be data (12 + length w + 2) = Some kDnsClassINUnicast).
  { rewrite Ed, <- (app_nil_r (writeU16Be kDnsClassINUnicast)), app_assoc.
    apply (read16_after (queryHeader ++ w) (writeU16Be type) kDnsClassINUnicast []); [done|].
    rewrite length_app, length_writeU16Be. cbn. lia. }
  rewrite E1, E2. cbn [mbind option_bind parseQuestions]. change (Z.to_nat 0) with 0%nat. done.
Qed.

Section Response.
Context (inet_pton4 inet_pton6 : bytes -> option bytes).

(** The type that asks for addresses of [n] bytes. *)
Definition typeOf (n : nat) : Z := if (n =? 4)%nat then kDnsTypeA else kDnsTypeAAAA.
Definition ptonOf (n : nat) : bytes -> option bytes := if (n =? 4)%nat then inet_pton4 else inet_pton6.

Lemma encodeRdata_of n addr a :
  n = 4%nat \/ n = 16%nat -> ptonOf n addr = Some a ->
  encodeRdata inet_pton4 inet_pton6 (typeOf n) addr = writeU16Be (Z.of_nat n) ++ a.
Proof. unfold ptonOf, encodeRdata. intros [-> | ->] E; cbn in E |- *; by rewrite E. Qed.

Lemma parse_response id_ name ls l n addr a :
  Forall label_ok ls -> label_ok l -> name = dotted ls l \/ name = dotted ls l ++ [DOT] ->
  fits 16 id_ -> n = 4%nat \/ n = 16%nat -> ptonOf n addr = Some a -> length a = n ->
  parseMessage (encodeResponse inet_pton4 inet_pton6 id_ name (typeOf n) addr) =
  Some (Some (mkDnsHeader id_ 0x8400 0 1 0 0, [], [mkDnsAnswer (dotted ls l) (typeOf n) kDnsClassIN kResponseTTL a])).
Proof.
  intros Hls Hl Hn Hid Hc Ea La. unfold encodeResponse. rewrite (encodeRdata_of n addr a) by done.
  assert (Ew : encodeName name = wireName (ls ++ [l])).
  { destruct Hn as [-> | ->]; [by apply encodeName_dotted | by apply encodeName_dot]. }
  rewrite Ew. set (w := wireName (ls ++ [l])).
  assert (Hty : fits 16 (typeOf n)) by (destruct Hc as [-> | ->]; by apply (bool_decide_unpack _)).
  assert (Hln : fits 16 (Z.of_nat n)) by (destruct Hc as [-> | ->]; by apply (bool_decide_unpack _)).
  match goal with |- parseMessage ?d = _ => set (data := d) end.
  set (h := responseHeader id_).
  assert (Hh : length h = 12%nat) by done.
  assert (Ed : data = h ++ w ++ writeU16Be (typeOf n) ++ writeU16Be kDnsClassIN ++ writeU32Be kResponseTTL ++
    writeU16Be (Z.of_nat n) ++ a) by done.
  assert (Hlen : length data = (12 + length w + 10 + n)%nat).
  { rewrite Ed, !length_app, !length_writeU16Be, length_writeU32Be, La, Hh. lia. }
  unfold parseMessage. rewrite Hlen. destruct (Nat.ltb_spec (12 + length w + 10 + n) 12); [lia|].
  assert (E0 : readU16Be data 0 = Some id_) by (rewrite Ed; by apply (readU16Be_app_write [])).
  rewrite E0. change (readU16Be data 2) with (Some 0x8400). change (readU16Be data 4) with (Some 0).
  change (readU16Be data 6) with (Some 1). change (readU16Be data 8) with (Some 0). change (readU16Be data 10) with (Some 0).
  cbn [mbind option_bind]. change (Z.to_nat 0) with 0%nat. change (Z.to_nat 1) with 1%nat.
  cbn [parseQuestions mbind option_bind parseAnswers]. rewrite Hlen.
  destruct (Nat.ltb_spec 12 (12 + length w + 10 + n)); [|lia]. cbn [negb].
  assert (En : parseName data 12 = Some (dotted ls l, (12 + length w)%nat)).
  { rewrite Ed, <- Hh. by apply (parseName_wire h). }
  rewrite En. cbn [mbind option_bind]. destruct (Nat.ltb_spec (12 + length w + 10 + n) (12 + length w + 10)); [lia|].
  assert (E1 : readU16Be data (12 + length w) = Some (typeOf n)).
  { rewrite Ed. apply read16_after; [done|]. by rewrite Hh. }
  assert (E2 : readU16Be data (12 + length w + 2) = Some kDnsClassIN).
  { rewrite Ed, app_assoc. apply read16_after; [done|]. rewrite length_app, length_writeU16Be, Hh. lia. }
  assert (E3 : readU32Be data (12 + length w + 4) = Some kResponseTTL).
  { rewrite Ed, app_assoc, (app_assoc (h ++ w)). apply read32_after; [by apply (bool_decide_unpack _)|].
    rewrite !length_app, !length_writeU16Be, Hh. lia. }
  assert (E4 : readU16Be data (12 + length w + 8) = Some (Z.of_nat n)).
  { rewrite Ed, app_assoc, (app_assoc (h ++ w)), (app_assoc ((h ++ w) ++ writeU16Be (typeOf n))). apply read16_after; [done|].
    rewrite !length_app, !length_writeU16Be, length_writeU32Be, Hh. lia. }
  rewrite E1, E2, E3, E4. cbn [mbind option_bind]. rewrite Nat2Z.id.
  destruct (Nat.ltb_spec (12 + length w + 10 + n) (12 + length w + 10 + n)); [lia|].
  assert (E5 : peek data (12 + length w + 10) n = Some a).
  { pose proof (peek_app (h ++ w ++ writeU16Be (typeOf n) ++ writeU16Be kDnsClassIN ++ writeU32Be kResponseTTL ++
      writeU16Be (Z.of_nat n)) a []) as Hp.
    rewrite app_nil_r, La, !length_app, !length_writeU16Be, length_writeU32Be, Hh, <- !app_assoc in Hp.
    rewrite Ed. rewrite <- Hp. f_equal. }
  rewrite E5. done.
Qed.
End Response.
