(* ===== verification/MdnsClient.v ===== *)
(** * The mDNS client (include/stice/net/mdns.hpp, src/net/mdns.cpp)

    [MDnsClient]: the queries that wait for an answer, and what its thread does with a packet.
    A callback is a number; calling it and sending a datagram are outputs.  [init] takes the
    results of the system calls; joining the multicast group and the thread itself are left
    out.  One pass of the loop of [run] is [onTimeout] or [onPacket].  [inet_pton] and
    [inet_ntop] are parameters; [tolower] is the one of the C locale.  The lock of the queries
    is not part of this state: a pass of the loop and a call of [query] are one step each. *)

From S2P Require Import Prelude.
From S2P Require Import StateMonad.
From S2P Require Import Bytes.
From S2P Require Import Addr.
From S2P Require Import MdnsCodec.
Open Scope Z_scope.
Open Scope c_scope.

Inductive MulticastDNSMode := Disabled | QueryOnly | QueryAndGather.
#[export] Instance MulticastDNSMode_eq_dec : EqDecision MulticastDNSMode.
Proof. solve_decision. Defined.

Record PendingQuery := mkPendingQuery { pq_hostname : bytes; callback : option nat; deadline : Z; lastSent : Z }.

Inductive Output := Sent (data : bytes) (dst : sockaddr) | Called (cb : nat) (address : bytes).

Record MDnsClient := mkMDnsClient {
  mode_ : MulticastDNSMode; hostname_ : bytes; hostnameDot_ : bytes; localAddr_ : bytes;
  sock_ : bool; running_ : bool; queries_ : list PendingQuery; now : Z; outs : list Output }.
#[export] Instance MDnsClient_fields : RecordFields MDnsClient := fun c =>
  mkMDnsClient (mode_ c) (hostname_ c) (hostnameDot_ c) (localAddr_ c) (sock_ c) (running_ c) (queries_ c)
    (now c) (outs c).

Definition newMdns : MDnsClient := mkMDnsClient Disabled [] [] [] false false [] 0 [].

Abbreviation DM := (SM MDnsClient).

Definition emit (l : list Output) : DM unit := modify (fun c => c <| outs ::= (fun o => o ++ l) |>).

(** 224.0.0.251:5353. *)
Definition mcastAddr4_ : sockaddr := SockIn kMDnsPort [224; 0; 0; 251].

Definition lower (s : bytes) : bytes := (fun c => if (65 <=? c) && (c <=? 90) then c + 32 else c) <$> s.

(** [if (!name.empty() && name.back() == '.') name.pop_back()]. *)
Definition stripDot (s : bytes) : bytes := if bool_decide (last s = Some DOT) then removelast s else s.

(** ** Starting and stopping *)

(** [rnd]: bytes for a generated name; [socketOk], [bindOk], [rebindOk]: what [socket] and the
    two calls of [bind] return. *)
Definition init (mode : MulticastDNSMode) (hostname localAddr rnd : bytes) (socketOk bindOk rebindOk : bool) : DM bool :=
  modify (fun c => c <| mode_ := mode |>);;
  if bool_decide (mode = Disabled) then mret true else
  let name := if bool_decide (hostname = []) then generateHostname rnd else hostname in
  modify (fun c => c <| hostname_ := name |> <| hostnameDot_ := name ++ [DOT] |> <| localAddr_ := localAddr |>);;
  if negb socketOk then modify (fun c => c <| sock_ := false |>);; mret false else
  modify (fun c => c <| sock_ := true |>);;
  (if bindOk then mret true else
     (if bool_decide (mode = QueryAndGather) then modify (fun c => c <| mode_ := QueryOnly |>) else skip);;
     if rebindOk then mret true else modify (fun c => c <| sock_ := false |>);; mret false) ≫=
  (fun ok => if (ok : bool) then modify (fun c => c <| running_ := true |>);; mret true else mret false).

Definition stop : DM unit :=
  r ← gets running_;
  if negb r then skip else modify (fun c => c <| running_ := false |> <| sock_ := false |>).

(** ** Queries *)

Definition expired (t : Z) (q : PendingQuery) : bool := deadline q <=? t.
Definition due (t : Z) (q : PendingQuery) : bool := negb (expired t q) && (lastSent q <=? t).

Definition queryPackets (q : PendingQuery) : list Output :=
  (fun type => Sent (encodeQuery (pq_hostname q) type) mcastAddr4_) <$> [kDnsTypeA; kDnsTypeAAAA].

Definition timeoutCall (q : PendingQuery) : list Output :=
  match callback q with Some cb => [Called cb []] | None => [] end.

Definition touch (t : Z) (q : PendingQuery) : PendingQuery :=
  if lastSent q <=? t then mkPendingQuery (pq_hostname q) (callback q) (deadline q) (t + kQueryIntervalMs) else q.

Definition sendPendingQueries : DM unit :=
  t ← gets now;
  qs ← gets queries_;
  modify (fun c => c <| queries_ := touch t <$> filter (fun q => expired t q = false) qs |>);;
  emit (mjoin (queryPackets <$> filter (fun q => due t q = true) qs));;
  emit (mjoin (timeoutCall <$> filter (fun q => expired t q = true) qs)).

Definition query (hostname : bytes) (cb : option nat) : DM bool :=
  m ← gets mode_;
  s ← gets sock_;
  if bool_decide (m = Disabled) || negb s then mret false else
  modify (fun c => c <| queries_ ::= (fun l => l ++
    [mkPendingQuery (stripDot hostname) cb (now c + kQueryTimeoutMs) 0]) |>);;
  sendPendingQueries;;
  mret true.

(** ** Packets *)

(** 224.0.0.0/3 and 0.0.0.0 are not the address of a host. *)
Definition hostV4 (b : bytes) : option bool :=
  s ← readU32Be b 0; Some (negb (s =? 0) && negb (s &. 0xE0000000 =? 0xE0000000)).

Definition mdnsSourceIsPlausible (ss : sockaddr) : option bool :=
  match ss with
  | SockIn _ ip => hostV4 ip
  | SockIn6 _ b =>
      b0 ← b !! 0%nat;
      b10 ← b !! 10%nat;
      b11 ← b !! 11%nat;
      if b0 =? 0xFF then Some false else
      if forallb (Z.eqb 0) (take 16 b) then Some false else
      if (((b10 =? 0) && (b11 =? 0)) || ((b10 =? 0xFF) && (b11 =? 0xFF))) && forallb (Z.eqb 0) (take 10 b)
      then hostV4 (drop 12 b) else Some true
  | SockOther _ => Some false
  end.

Section Names.
Context (inet_pton4 inet_pton6 : bytes -> option bytes) (inet_ntop4 inet_ntop6 : bytes -> bytes).

Definition addressType (t : Z) : bool := (t =? kDnsTypeA) || (t =? kDnsTypeAAAA).

(** The printed address of an answer; empty when the data has the wrong size. *)
Definition answerAddress (ans : DnsAnswer) : bytes :=
  if (a_type ans =? kDnsTypeA) && (length (rdata ans) =? 4)%nat then inet_ntop4 (rdata ans)
  else if (a_type ans =? kDnsTypeAAAA) && (length (rdata ans) =? 16)%nat then inet_ntop6 (rdata ans)
  else [].

Definition answers (ans : DnsAnswer) (q : PendingQuery) : bool :=
  bool_decide (lower (pq_hostname q) = lower (stripDot (a_name ans))).

Definition answerCall (ans : DnsAnswer) (q : PendingQuery) : list Output :=
  match callback q with
  | Some cb => if bool_decide (answerAddress ans = []) then [] else [Called cb (answerAddress ans)]
  | None => []
  end.

(** The queries an answer matches are called and erased. *)
Definition handleAnswer (ans : DnsAnswer) : DM unit :=
  if negb (addressType (a_type ans)) then skip else
  qs ← gets queries_;
  emit (mjoin (answerCall ans <$> filter (fun q => answers ans q = true) qs));;
  modify (fun c => c <| queries_ := filter (fun q => answers ans q = false) qs |>).

Definition ownAddress (type : Z) (local : bytes) : bool :=
  if type =? kDnsTypeA then bool_decide (is_Some (inet_pton4 local)) else bool_decide (is_Some (inet_pton6 local)).

Definition handleQuestion (hdr : DnsHeader) (src : sockaddr) (q : DnsQuestion) : DM unit :=
  if negb (addressType (q_type q)) then skip else
  c ← gets (fun c => c);
  if negb (bool_decide (lower (stripDot (q_name q)) = lower (hostname_ c))) then skip else
  if negb (ownAddress (q_type q) (localAddr_ c)) then skip else
  let resp := encodeResponse inet_pton4 inet_pton6 (id hdr) (hostnameDot_ c) (q_type q) (localAddr_ c) in
  match src with
  | SockIn port _ => emit [Sent resp (if port =? kMDnsPort then mcastAddr4_ else src)]
  | _ => skip
  end.

Definition onTimeout : DM unit := sendPendingQueries.

(** One packet; a message that is cut off or from an impossible source is dropped. *)
Definition onPacket (data : bytes) (src : sockaddr) : DM unit :=
  ok ← lift (mdnsSourceIsPlausible src);
  if negb ok then skip else
  msg ← lift (parseMessage data);
  match msg with
  | None => skip
  | Some (hdr, questions, ans) =>
      forM ans handleAnswer;;
      m ← gets mode_;
      (if bool_decide (m = QueryAndGather) then forM questions (handleQuestion hdr src) else skip);;
      sendPendingQueries
  end.
End Names.

(** ** What the mDNS client promises

    Every packet is handled to its end; a query is reported at most once, and exactly once when
    answers carry addresses; a name that another client advertises is resolved to its address. *)

(** ** Names *)

(** A name of a host on the local link: it ends in .local, with or without a last dot. *)
Lemma rfind_Some p s i :
  rfind p s = Some i <->
  (i <= length s)%nat /\ take (length p) (drop i s) = p /\
  forall j, (i < j <= length s)%nat -> take (length p) (drop j s) <> p.
Proof.
  unfold rfind. set (P := fun i => take (length p) (drop i s) = p).
  assert (H : forall n k, last (filter P (seq k n)) = Some i <->
    (k <= i < k + n)%nat /\ P i /\ forall j, (i < j < k + n)%nat -> ~ P j).
  { intros n. induction n as [|n IH]; intros k.
    - cbn. split; [done|]. intros [? _]. lia.
    - rewrite seq_S, filter_app, last_app. rewrite filter_cons, filter_nil.
      destruct (decide (P (k + n)%nat)) as [Hp|Hp]; cbn [last].
      + split.
        * intros [= <-]. split; [lia|]. split; [done|]. intros; lia.
        * intros (Hr & Hi & Hj). f_equal. destruct (decide (i = k + n)%nat); [done|]. exfalso. apply (Hj (k + n)%nat); [lia|done].
      + rewrite IH. split; intros (Hr & Hi & Hj); (split; [|split; [done|]]).
        * lia.
        * intros j Hlt. destruct (decide (j = k + n)%nat) as [->|]; [done|]. apply Hj. lia.
        * destruct (decide (i = k + n)%nat) as [->|]; [done|lia].
        * intros j Hlt. apply Hj. lia. }
  rewrite H. unfold P. split; intros (H1 & H2 & H3); (split; [lia|]; split; [done|]); intros j Hj; apply H3; lia.
Qed.

Lemma suffix_at (p s : bytes) i : take (length p) (drop i s) = p -> (i + length p = length s)%nat -> s = take i s ++ p.
Proof.
  intros Ht Hl. rewrite <- (take_drop i s) at 1. f_equal. rewrite <- Ht, take_ge; [done|]. rewrite length_drop. lia.
Qed.

Lemma isMDnsName_spec s :
  isMDnsName s = true <-> exists u, s = u ++ dotLocal \/ s = u ++ dotLocal ++ [DOT].
Proof.
  unfold isMDnsName. assert (H6 : length dotLocal = 6%nat) by done. split.
  - destruct (Nat.ltb_spec (length s) 6); [done|]. destruct (rfind dotLocal s) as [pos|] eqn:E; [|done].
    apply rfind_Some in E as (Hp & Ht & _). rewrite H6 in Ht. intros [H7|[H7 H8]%andb_true_iff]%orb_true_iff.
    + apply Nat.eqb_eq in H7. exists (take pos s). left. by apply suffix_at.
    + apply Nat.eqb_eq in H7. apply bool_decide_eq_true in H8. exists (take pos s). right.
      apply suffix_at; [|rewrite length_app; cbn; lia].
      replace (length (dotLocal ++ [DOT])) with (S 6) by done.
      rewrite (take_S_r _ 6 DOT); [by rewrite Ht|]. by rewrite lookup_drop.
  - intros [u [-> | ->]].
    + destruct (Nat.ltb_spec (length (u ++ dotLocal)) 6) as [Hl|_]; [rewrite length_app, H6 in Hl; lia|].
      assert (rfind dotLocal (u ++ dotLocal) = Some (length u)) as ->.
      { apply rfind_Some. rewrite length_app, H6. split; [lia|]. rewrite drop_app_length. split; [done|].
        intros j Hj Ht. apply (f_equal length) in Ht. rewrite length_take, length_drop, length_app, H6 in Ht. lia. }
      rewrite length_app, H6, Nat.eqb_refl. done.
    + destruct (Nat.ltb_spec (length (u ++ dotLocal ++ [DOT])) 6) as [Hl|_]; [rewrite !length_app, H6 in Hl; cbn in Hl; lia|].
      assert (rfind dotLocal (u ++ dotLocal ++ [DOT]) = Some (length u)) as ->.
      { apply rfind_Some. rewrite !length_app, H6. cbn [length]. split; [lia|]. rewrite drop_app_length. split; [done|].
        intros j Hj Ht. destruct (decide (j = S (length u))) as [->|].
        - replace (S (length u)) with (length u + 1)%nat in Ht by lia. rewrite drop_app_add in Ht. discriminate Ht.
        - apply (f_equal length) in Ht. rewrite length_take, length_drop, !length_app, H6 in Ht. cbn [length] in Ht. lia. }
      rewrite !length_app, H6. cbn [length]. rewrite (proj2 (Nat.eqb_eq (length u + 7) _)) by lia.
      rewrite bool_decide_true; [by rewrite orb_true_r|]. rewrite lookup_app_r by lia.
      by replace (length u + 6 - length u)%nat with 6%nat by lia.
Qed.

Definition localLabel : bytes := [108; 111; 99; 97; 108].

Lemma hex2_ok b : is_byte b -> Forall (fun c => is_byte c /\ c <> DOT) (hex2 b).
Proof.
  intros Hb. assert (Hd : forall n, 0 <= n < 16 -> is_byte (hexDigit n) /\ hexDigit n <> DOT).
  { intros n Hn. unfold hexDigit, DOT. destruct (Z.ltb_spec n 10); split; width. }
  unfold hex2. constructor; [|constructor; [|done]]; apply Hd; width.
Qed.

(** A generated name is one label and .local, so it is recognised and survives the wire. *)
Lemma generated_name rnd :
  length rnd = 16%nat -> bytes_ok rnd ->
  exists u, generateHostname rnd = dotted [u] localLabel /\ label_ok u /\ label_ok localLabel /\
    isMDnsName (generateHostname rnd) = true.
Proof.
  intros Hl Hb. unfold generateHostname.
  set (b := alter (fun x => (x &. 0x3F) |. 0x80) 8%nat (alter (fun x => (x &. 0x0F) |. 0x40) 6%nat rnd)).
  assert (Hmask : forall m o x, 0 <= m -> is_byte o -> is_byte x -> is_byte ((x &. m) |. o)).
  { intros m o x Hm Ho Hx. apply fits_lor; [lia| |done]. by apply fits_land. }
  assert (Hbb : bytes_ok b).
  { unfold b. apply Forall_alter; [apply Forall_alter; [done|]|]; intros x _ Hx; apply Hmask; (lia || done || width). }
  assert (Hbl : length b = 16%nat) by (unfold b; by rewrite !length_alter).
  set (hex := fun i n => mjoin (hex2 <$> take n (drop i b))).
  assert (Hh : forall i n, Forall (fun c => is_byte c /\ c <> DOT) (hex i n)).
  { intros i n. unfold hex. apply Forall_join, Forall_fmap. eapply Forall_impl; [by apply Forall_take, Forall_drop, Hbb|].
    intros x Hx. by apply hex2_ok. }
  assert (Hhl : forall i n, (i + n <= 16)%nat -> length (hex i n) = (2 * n)%nat).
  { intros i n Hin. unfold hex. assert (Ht : length (take n (drop i b)) = n) by (rewrite length_take, length_drop; lia).
    revert Ht. generalize (take n (drop i b)). clear. intros l <-.
    induction l as [|x l IH]; [done|]. change (mjoin (hex2 <$> x :: l)) with (hex2 x ++ mjoin (hex2 <$> l)).
    rewrite length_app, IH. cbn. lia. }
  set (u := hex 0%nat 4%nat ++ [45] ++ hex 4%nat 2%nat ++ [45] ++ hex 6%nat 2%nat ++ [45] ++ hex 8%nat 2%nat ++ [45] ++ hex 10%nat 6%nat).
  assert (Hu : label_ok u).
  { assert (Hc : Forall (fun c => is_byte c /\ c <> DOT) u).
    { unfold u. repeat (apply Forall_app_2; [first [apply Hh | constructor; [split; [width|done]|done]]|]). apply Hh. }
    split.
    - unfold u. rewrite !length_app, !Hhl by lia. cbn. lia.
    - intros Hin. rewrite Forall_forall in Hc. by destruct (Hc DOT Hin).
    - eapply Forall_impl; [exact Hc|]. by intros x [? _]. }
  exists u. assert (E : hex 0%nat 4%nat ++ [45] ++ hex 4%nat 2%nat ++ [45] ++ hex 6%nat 2%nat ++ [45] ++ hex 8%nat 2%nat ++ [45] ++
    hex 10%nat 6%nat ++ dotLocal = dotted [u] localLabel).
  { change (dotted [u] localLabel) with (((u ++ [DOT]) ++ []) ++ localLabel). rewrite app_nil_r. unfold u.
    rewrite <- !app_assoc. reflexivity. }
  split; [exact E|]. split; [done|]. split.
  - split; [cbn; lia| |by apply (bool_decide_unpack _)]. by apply (bool_decide_unpack (DOT ∉ localLabel)).
  - apply isMDnsName_spec. exists u. left. unfold hex in E. rewrite E.
    change (dotted [u] localLabel) with (((u ++ [DOT]) ++ []) ++ localLabel). by rewrite app_nil_r, <- app_assoc.
Qed.

(** ** Every query is accounted for *)

Definition calledIds (l : list Output) : list nat := omap (fun o => match o with Called cb _ => Some cb | _ => None end) l.

(** The callbacks that are still waiting and those that were called. *)
Definition ids (c : MDnsClient) : list nat := omap callback (queries_ c) ++ calledIds (outs c).

(** [new] was added to the books; nothing was lost if [good]. *)
Record accounts (good : Prop) (new : list nat) (c c' : MDnsClient) : Prop := {
  ac_sub : ids c' ⊆+ new ++ ids c;
  ac_all : good -> ids c' ≡ₚ new ++ ids c;
  ac_open : mode_ c' = mode_ c /\ sock_ c' = sock_ c /\ now c' = now c }.

Lemma accounts_refl good c : accounts good [] c c.
Proof. done. Qed.

Lemma accounts_trans good1 good2 n1 n2 c1 c2 c3 :
  accounts good1 n1 c1 c2 -> accounts good2 n2 c2 c3 -> accounts (good1 /\ good2) (n2 ++ n1) c1 c3.
Proof.
  intros [S1 A1 (? & ? & ?)] [S2 A2 (? & ? & ?)]. split; [| |split_and!; congruence].
  - etrans; [exact S2|]. rewrite <- app_assoc. by apply submseteq_skips_l.
  - intros [G1 G2]. rewrite (A2 G2), <- app_assoc. by rewrite (A1 G1).
Qed.

Lemma accounts_same (good : Prop) c1 c2 c3 :
  accounts good [] c1 c2 -> accounts good [] c2 c3 -> accounts good [] c1 c3.
Proof. intros H1 H2. destruct (accounts_trans _ _ _ _ _ _ _ H1 H2) as [S A O]. split; [done| |done]. auto. Qed.

Lemma accounts_weaken (g1 g2 : Prop) n c c' : (g2 -> g1) -> accounts g1 n c c' -> accounts g2 n c c'.
Proof. intros Hg [S A O]. split; auto. Qed.

Lemma calledIds_app l1 l2 : calledIds (l1 ++ l2) = calledIds l1 ++ calledIds l2.
Proof. apply omap_app. Qed.

Lemma called_cons {A} (f : A -> list Output) q qs :
  calledIds (mjoin (f <$> q :: qs)) = calledIds (f q) ++ calledIds (mjoin (f <$> qs)).
Proof. apply calledIds_app. Qed.

Lemma called_queries qs : calledIds (mjoin (queryPackets <$> qs)) = [].
Proof. induction qs as [|q qs IH]; [done|]. by rewrite called_cons, IH. Qed.

Lemma called_timeouts qs : calledIds (mjoin (timeoutCall <$> qs)) = omap callback qs.
Proof.
  induction qs as [|q qs IH]; [done|]. rewrite called_cons, IH. unfold timeoutCall. cbn. by destruct (callback q).
Qed.

Lemma omap_touch t (qs : list PendingQuery) : omap callback (touch t <$> qs) = omap callback qs.
Proof. induction qs as [|q qs IH]; [done|]. cbn. rewrite IH. unfold touch. by destruct (lastSent q <=? t). Qed.

Lemma omap_split {A B} (g : A -> option B) (f : A -> bool) (l : list A) :
  omap g (filter (fun x => f x = false) l) ++ omap g (filter (fun x => f x = true) l) ≡ₚ omap g l.
Proof.
  induction l as [|x l IH]; [done|]. rewrite !filter_cons. destruct (f x) eqn:E.
  - rewrite decide_False, decide_True by done. cbn. destruct (g x); [|done]. by rewrite <- IH, Permutation_middle.
  - rewrite decide_True, decide_False by done. cbn. destruct (g x); [|done]. cbn. by rewrite IH.
Qed.

Lemma sendPendingQueries_ok c :
  wp sendPendingQueries (fun _ c' => accounts True [] c c' /\ Forall (fun q => now c' < deadline q) (queries_ c')) c.
Proof.
  unfold sendPendingQueries, emit. apply wp_bind, wp_gets, wp_bind, wp_gets, wp_bind, wp_modify, wp_bind, wp_modify, wp_modify.
  match goal with |- accounts True [] c ?c' /\ _ => assert (E : ids c' ≡ₚ ids c) end.
  { unfold ids. upd. rewrite omap_touch, !calledIds_app, called_queries, called_timeouts, app_nil_r.
    rewrite (Permutation_app_comm (calledIds (outs c))), app_assoc.
    rewrite (omap_split callback (expired (now c)) (queries_ c)). done. }
  split; [split; [by rewrite E|done|done]|]. upd. apply Forall_fmap, Forall_forall.
  intros q [He _]%list_elem_of_filter. unfold expired in He. cbn. unfold touch.
  destruct (lastSent q <=? now c); cbn; lia.
Qed.

Lemma query_ok host cb c :
  mode_ c <> Disabled -> sock_ c = true -> wp (query host (Some cb)) (fun r c' => r = true /\ accounts True [cb] c c') c.
Proof.
  intros Hm Hs. unfold query. apply wp_bind, wp_gets, wp_bind, wp_gets. rewrite Hs, bool_decide_false by done. cbn [orb negb].
  apply wp_bind, wp_modify, wp_bind. set (c1 := c <| queries_ ::= _ |>).
  assert (H1 : accounts True [cb] c c1).
  { assert (E : ids c1 ≡ₚ cb :: ids c); [|split; [by rewrite E|done|done]].
    unfold ids, c1. upd. rewrite omap_app, <- app_assoc. change (omap callback [mkPendingQuery (stripDot host) (Some cb) (now c + kQueryTimeoutMs) 0]) with [cb].
    cbn [app].
    by rewrite <- Permutation_middle. }
  eapply wp_mono; [apply sendPendingQueries_ok|]. intros _ c2 [H2 _]. apply wp_ret. split; [done|].
  eapply accounts_weaken; [|exact (accounts_trans _ _ _ _ _ _ _ H1 H2)]. done.
Qed.

(** ** Packets *)

Section Client.
Context (inet_pton4 inet_pton6 : bytes -> option bytes) (inet_ntop4 inet_ntop6 : bytes -> bytes).
Local Abbreviation onPacket := (onPacket inet_pton4 inet_pton6 inet_ntop4 inet_ntop6).
Local Abbreviation handleAnswer := (handleAnswer inet_ntop4 inet_ntop6).
Local Abbreviation handleQuestion := (handleQuestion inet_pton4 inet_pton6).
Local Abbreviation answerAddress := (answerAddress inet_ntop4 inet_ntop6).

(** The answer has an address of the size its type says. *)
Definition carries (ans : DnsAnswer) : Prop := addressType (a_type ans) = true -> answerAddress ans <> [].

Lemma called_answers ans qs :
  calledIds (mjoin (answerCall inet_ntop4 inet_ntop6 ans <$> qs)) =
  if bool_decide (answerAddress ans = []) then [] else omap callback qs.
Proof.
  induction qs as [|q qs IH]; [by case_bool_decide|]. rewrite called_cons, IH. unfold answerCall. cbn.
  destruct (callback q); by case_bool_decide.
Qed.

Lemma handleAnswer_ok ans c : wp (handleAnswer ans) (fun _ c' => accounts (carries ans) [] c c') c.
Proof.
  unfold MdnsClient.handleAnswer. destruct (addressType (a_type ans)) eqn:Et; cbn [negb]; [|by apply wp_ret].
  unfold emit. apply wp_bind, wp_gets, wp_bind, wp_modify, wp_modify.
  pose proof (omap_split callback (answers ans) (queries_ c)) as Hs.
  split; [| |done]; unfold ids; upd; rewrite calledIds_app, called_answers.
  - rewrite <- Hs. case_bool_decide.
    + rewrite app_nil_r. cbn [app]. apply submseteq_skips_r. by apply submseteq_inserts_r.
    + rewrite (Permutation_app_comm (calledIds (outs c))), app_assoc. done.
  - intros Hc. rewrite bool_decide_false by by apply Hc. rewrite <- Hs.
    by rewrite (Permutation_app_comm (calledIds (outs c))), app_assoc.
Qed.

Lemma handleQuestion_ok hdr src q c : wp (handleQuestion hdr src q) (fun _ c' => accounts True [] c c') c.
Proof.
  unfold MdnsClient.handleQuestion. destruct (negb (addressType (q_type q))); [by apply wp_ret|]. apply wp_bind, wp_gets.
  destruct (negb (bool_decide _)); [by apply wp_ret|]. destruct (negb _); [by apply wp_ret|].
  destruct src as [port ip|port ip|f]; [|by apply wp_ret..]. apply wp_modify.
  assert (Hi : forall r, ids (c <| outs ::= fun o => o ++ [Sent r (if port =? kMDnsPort then mcastAddr4_ else SockIn port ip)] |>) = ids c).
  { intros r. unfold ids. upd. rewrite calledIds_app. cbn. by rewrite app_nil_r. }
  split; [by rewrite Hi|by rewrite Hi|done].
Qed.

Lemma forM_accounts {A} (l : list A) (f : A -> DM unit) (good : A -> Prop) c :
  (forall x c, x ∈ l -> wp (f x) (fun _ c' => accounts (good x) [] c c') c) ->
  wp (forM l f) (fun _ c' => accounts (Forall good l) [] c c') c.
Proof.
  intros Hf. assert (H : forall good', (forall x c, x ∈ l -> wp (f x) (fun _ c' => accounts good' [] c c') c) ->
    wp (forM l f) (fun _ c' => accounts good' [] c c') c).
  { intros good' Hf'. apply (wp_forM l f (fun c' => accounts good' [] c c')); [|done].
    intros x s Hx Hs. eapply wp_mono; [by apply Hf'|]. intros a s' Hs'. by eapply accounts_same. }
  apply H. intros x s Hx. eapply wp_mono; [by apply Hf|]. intros a s' Hs. eapply accounts_weaken; [|exact Hs].
  intros Hall. by eapply Forall_forall in Hall.
Qed.

(** An address as the kernel stores it. *)
Definition source_ok (ss : sockaddr) : Prop :=
  match ss with SockIn _ ip => length ip = 4%nat | SockIn6 _ b => length b = 16%nat | SockOther _ => True end.

Lemma plausible_total ss : source_ok ss -> exists b, mdnsSourceIsPlausible ss = Some b.
Proof.
  assert (H4 : forall b, (4 <= length b)%nat -> exists r, hostV4 b = Some r).
  { intros b Hb. unfold hostV4. destruct (readU32Be_inb b 0) as (v & -> & _); [lia|]. by eexists. }
  destruct ss as [port ip|port b|f]; cbn [source_ok mdnsSourceIsPlausible]; [|intros Hl|by eexists].
  - intros Hl. apply H4. lia.
  - destruct (lookup_lt_is_Some_2 b 0) as [b0 ->]; [lia|]. destruct (lookup_lt_is_Some_2 b 10) as [b10 ->]; [lia|].
    destruct (lookup_lt_is_Some_2 b 11) as [b11 ->]; [lia|]. cbn [mbind option_bind].
    destruct (b0 =? 0xFF); [by eexists|]. destruct (forallb _ (take 16 b)); [by eexists|].
    destruct (_ && _); [|by eexists]. apply H4. rewrite length_drop. lia.
Qed.

(** All answers of the packet carry addresses. *)
Definition well_sized (data : bytes) : Prop :=
  forall hdr qs ans, parseMessage data = Some (Some (hdr, qs, ans)) -> Forall carries ans.

Lemma onPacket_ok data src c :
  bytes_ok data -> source_ok src -> wp (onPacket data src) (fun _ c' => accounts (well_sized data) [] c c') c.
Proof.
  intros Hb Hs. unfold MdnsClient.onPacket. apply wp_bind. destruct (plausible_total src Hs) as (ok & Eok).
  eapply wp_lift; [exact Eok|]. destruct ok; cbn [negb]; [|by apply wp_ret]. apply wp_bind.
  destruct (parseMessage_total data Hb) as (r & Er). eapply wp_lift; [exact Er|].
  destruct r as [[[hdr qs] ans]|]; [|by apply wp_ret].
  apply wp_bind. eapply wp_mono; [by apply (forM_accounts ans handleAnswer carries); intros; apply handleAnswer_ok|].
  intros ? c1 H1. apply wp_bind, wp_gets, wp_bind.
  apply (wp_mono _ (fun _ c2 => accounts True [] c1 c2)).
  { case_bool_decide; [|by apply wp_ret].
    eapply wp_mono; [by apply (forM_accounts qs (handleQuestion hdr src) (fun _ => True)); intros; apply handleQuestion_ok|].
    intros ? c2 H2. eapply accounts_weaken; [|exact H2]. intros _. by apply Forall_true. }
  intros ? c2 H2. eapply wp_mono; [apply sendPendingQueries_ok|]. intros _ c3 [H3 _].
  pose proof (accounts_trans _ _ _ _ _ _ _ (accounts_trans _ _ _ _ _ _ _ H1 H2) H3) as H. cbn [app] in H.
  eapply accounts_weaken; [|exact H]. intros Hw. split; [split; [|done]|done]. by eapply Hw.
Qed.

Inductive MdnsEvent := EvQuery (host : bytes) (cb : nat) | EvTimeout | EvPacket (data : bytes) (src : sockaddr) | EvClock (t : Z).

Definition mdnsStep (e : MdnsEvent) : DM unit :=
  match e with
  | EvQuery host cb => query host (Some cb);; skip
  | EvTimeout => onTimeout
  | EvPacket data src => onPacket data src
  | EvClock t => modify (fun c => c <| now := t |>)
  end.

Fixpoint mdnsRun (l : list MdnsEvent) : DM unit :=
  match l with [] => skip | e :: l => mdnsStep e;; mdnsRun l end.

Definition asked (l : list MdnsEvent) : list nat := omap (fun e => match e with EvQuery _ cb => Some cb | _ => None end) l.
Definition event_ok (e : MdnsEvent) : Prop :=
  match e with EvPacket data src => bytes_ok data /\ source_ok src | _ => True end.
Definition event_sized (e : MdnsEvent) : Prop := match e with EvPacket data _ => well_sized data | _ => True end.

(** The part of [accounts] that a change of the clock keeps. *)
Definition booked (good : Prop) (new : list nat) (c c' : MDnsClient) : Prop :=
  (ids c' ⊆+ new ++ ids c) /\ (good -> ids c' ≡ₚ new ++ ids c) /\ mode_ c' = mode_ c /\ sock_ c' = sock_ c.

Lemma accounts_booked good new c c' : accounts good new c c' -> booked good new c c'.
Proof. intros [S A (? & ? & _)]. by split_and!. Qed.

Lemma mdnsStep_ok e c :
  mode_ c <> Disabled -> sock_ c = true -> event_ok e -> wp (mdnsStep e) (fun _ c' => booked (event_sized e) (asked [e]) c c') c.
Proof.
  intros Hm Hs He. destruct e as [host cb| |data src|t]; cbn [mdnsStep event_ok event_sized] in *.
  - apply wp_bind. eapply wp_mono; [by apply query_ok|]. intros r c' [_ Hq]. apply wp_ret.
    by eapply accounts_booked, accounts_weaken; [|exact Hq].
  - eapply wp_mono; [apply sendPendingQueries_ok|]. intros ? c' [Hq _]. by eapply accounts_booked, accounts_weaken; [|exact Hq].
  - destruct He. eapply wp_mono; [by apply onPacket_ok|]. intros ? c' Hq. by apply accounts_booked.
  - apply wp_modify. by split_and!.
Qed.

(** Queries are accounted for.  Whatever packets arrive, every event is handled to its end,
    no callback is called that was not asked for, and none is called twice or called and kept
    waiting; when the answers in the packets carry addresses, every query is either still
    waiting or was reported.  After a timer pass nothing waits beyond its deadline. *)
Theorem mdns_queries_accounted (evs : list MdnsEvent) (c0 : MDnsClient) :
  mode_ c0 <> Disabled -> sock_ c0 = true -> Forall event_ok evs ->
  exists c, mdnsRun evs c0 = Some (tt, c) /\
    ids c ⊆+ asked evs ++ ids c0 /\
    (Forall event_sized evs -> ids c ≡ₚ asked evs ++ ids c0) /\
    exists c', onTimeout c = Some (tt, c') /\ Forall (fun q => now c' < deadline q) (queries_ c').
Proof.
  intros Hm Hs Hok.
  assert (H : exists c, mdnsRun evs c0 = Some (tt, c) /\ booked (Forall event_sized evs) (asked evs) c0 c).
  { revert c0 Hm Hs. induction Hok as [|e evs He Hok IH]; intros c Hm Hs; [by exists c|]. cbn [mdnsRun].
    destruct (mdnsStep_ok e c Hm Hs He) as ([] & c1 & E1 & S1 & A1 & M1 & K1).
    destruct (IH c1) as (c2 & E2 & S2 & A2 & M2 & K2); [congruence|congruence|].
    exists c2. split; [by rewrite (run_bind _ _ _ _ _ E1)|].
    assert (Ea : asked (e :: evs) = asked [e] ++ asked evs) by by destruct e. rewrite Ea.
    split; [|split; [|split; congruence]].
    - etrans; [exact S2|]. etrans; [by apply submseteq_skips_l|]. rewrite app_assoc, (Permutation_app_comm (asked evs)). done.
    - intros [Ge Gs]%Forall_cons. rewrite (A2 Gs), (A1 Ge), app_assoc, (Permutation_app_comm (asked evs)). done. }
  destruct H as (c & E & Sub & All & _). exists c. split; [done|]. split; [done|]. split; [done|].
  destruct (sendPendingQueries_ok c) as ([] & c' & E' & _ & Hd). by exists c'.
Qed.

(** ** A name is resolved *)

Lemma stripDot_dotted ls l : label_ok l -> stripDot (dotted ls l) = dotted ls l.
Proof.
  intros [Hs Hd _]. unfold stripDot. rewrite bool_decide_false; [done|]. unfold dotted. rewrite last_app.
  destruct (last l) as [x|] eqn:E; [|apply last_None in E; subst; cbn in Hs; lia].
  intros [= ->]. apply Hd. by apply last_Some_elem_of.
Qed.

(** The two ends: a client that advertises [name] for the address [ip], and an address a packet
    can come from. *)
Record advertises (R : MDnsClient) (name ip : bytes) : Prop := {
  ad_mode : mode_ R = QueryAndGather; ad_name : hostname_ R = name; ad_dot : hostnameDot_ R = name ++ [DOT];
  ad_addr : inet_pton4 (localAddr_ R) = Some ip; ad_size : length ip = 4%nat }.

Definition waits (c : MDnsClient) (name : bytes) (cb : nat) : Prop :=
  exists q, q ∈ queries_ c /\ pq_hostname q = name /\ callback q = Some cb.

Lemma touch_same t q : pq_hostname (touch t q) = pq_hostname q /\ callback (touch t q) = callback q.
Proof. unfold touch. by destruct (lastSent q <=? t). Qed.

(** What a timer pass does with the queries: none is added, one that is not expired waits on,
    and one that is due is sent. *)
Record passed (c c' : MDnsClient) : Prop := {
  pa_outs : exists l, outs c' = outs c ++ l;
  pa_none : forall q, q ∈ queries_ c' -> exists q', q' ∈ queries_ c /\ pq_hostname q = pq_hostname q';
  pa_waits : forall q cb, q ∈ queries_ c -> now c < deadline q -> callback q = Some cb -> waits c' (pq_hostname q) cb;
  pa_sent : forall q, q ∈ queries_ c -> now c < deadline q -> lastSent q <= now c ->
    Sent (encodeQuery (pq_hostname q) kDnsTypeA) mcastAddr4_ ∈ outs c' }.

Lemma sendPendingQueries_passed c : wp sendPendingQueries (fun _ c' => passed c c') c.
Proof.
  unfold sendPendingQueries, emit. apply wp_bind, wp_gets, wp_bind, wp_gets, wp_bind, wp_modify, wp_bind, wp_modify, wp_modify.
  split; upd.
  - eexists. by rewrite <- app_assoc.
  - intros q (q' & -> & [_ Hq]%list_elem_of_filter)%list_elem_of_fmap. exists q'. split; [done|]. apply touch_same.
  - intros q cb Hq Hd Hc. exists (touch (now c) q). upd. destruct (touch_same (now c) q) as [-> ->]. split; [|done].
    apply list_elem_of_fmap_2, list_elem_of_filter. split; [|done]. unfold expired. lia.
  - intros q Hq Hd Hl. apply elem_of_app. left. apply elem_of_app. right. apply list_elem_of_join.
    exists (queryPackets q). split; [by left|]. apply list_elem_of_fmap_2, list_elem_of_filter. split; [|done].
    unfold due, expired. lia.
Qed.

Lemma query_waits host cb ls l c :
  host = dotted ls l -> label_ok l -> mode_ c <> Disabled -> sock_ c = true -> 0 <= now c ->
  wp (query host (Some cb)) (fun r c' => r = true /\ waits c' host cb /\
    Sent (encodeQuery host kDnsTypeA) mcastAddr4_ ∈ outs c') c.
Proof.
  intros -> Hl Hm Hs Hn. unfold query. apply wp_bind, wp_gets, wp_bind, wp_gets. rewrite Hs, bool_decide_false by done. cbn [orb negb].
  rewrite stripDot_dotted by done. apply wp_bind, wp_modify, wp_bind. set (c1 := c <| queries_ ::= _ |>).
  set (q := mkPendingQuery (dotted ls l) (Some cb) (now c + kQueryTimeoutMs) 0).
  assert (Hq : q ∈ queries_ c1) by (unfold c1; upd; apply elem_of_app; right; by left).
  assert (Hnow : now c1 = now c) by done.
  eapply wp_mono; [apply sendPendingQueries_passed|]. intros ? c2 [_ _ Hw Hsent]. apply wp_ret. split; [done|]. split.
  - apply (Hw q cb Hq); [|done]. cbn. unfold kQueryTimeoutMs. lia.
  - apply (Hsent q Hq); cbn; unfold kQueryTimeoutMs; lia.
Qed.

Lemma question_answered R name ip ls l ls' l' port a :
  advertises R name ip -> name = dotted ls l -> lower (dotted ls' l') = lower name ->
  Forall label_ok ls' -> label_ok l' -> mdnsSourceIsPlausible (SockIn port a) = Some true ->
  wp (onPacket (encodeQuery (dotted ls' l') kDnsTypeA) (SockIn port a))
    (fun _ R' => Sent (encodeResponse inet_pton4 inet_pton6 0 (name ++ [DOT]) kDnsTypeA (localAddr_ R))
                   (if port =? kMDnsPort then mcastAddr4_ else SockIn port a) ∈ outs R') R.
Proof.
  intros [Em En Ed Ea Es] Hname Hlow Hls Hl Hp. unfold MdnsClient.onPacket. apply wp_bind. eapply wp_lift; [exact Hp|]. cbn [negb].
  apply wp_bind. eapply wp_lift; [by apply parse_query; [..|by apply (bool_decide_unpack _)]|].
  cbn [forM]. apply wp_bind, wp_ret, wp_bind, wp_gets. rewrite Em, bool_decide_true by done. apply wp_bind.
  unfold MdnsClient.handleQuestion. cbn [q_type q_name]. change (addressType kDnsTypeA) with true. cbn [negb].
  apply wp_bind, wp_bind, wp_gets. rewrite En, stripDot_dotted, Hlow, bool_decide_true by done. cbn [negb].
  unfold ownAddress. rewrite Z.eqb_refl, Ea, bool_decide_true by done. cbn [negb]. apply wp_modify, wp_ret.
  eapply wp_mono; [apply sendPendingQueries_passed|]. intros ? R' [[lo Ho] _ _ _]. rewrite Ho. upd.
  apply elem_of_app. left. apply elem_of_app. right. rewrite Ed. by left.
Qed.

Lemma answer_delivered c name ip ls l nm cb addr src :
  name = dotted ls l -> Forall label_ok ls -> label_ok l -> lower nm = lower name ->
  inet_pton4 addr = Some ip -> length ip = 4%nat -> inet_ntop4 ip <> [] ->
  mdnsSourceIsPlausible src = Some true -> waits c nm cb ->
  wp (onPacket (encodeResponse inet_pton4 inet_pton6 0 (name ++ [DOT]) kDnsTypeA addr) src)
    (fun _ c' => Called cb (inet_ntop4 ip) ∈ outs c' /\
       Forall (fun q => lower (pq_hostname q) <> lower nm) (queries_ c')) c.
Proof.
  intros -> Hls Hl Hlow Ea Es Hn Hp (q & Hq & Eh & Ec). unfold MdnsClient.onPacket. apply wp_bind. eapply wp_lift; [exact Hp|].
  cbn [negb]. apply wp_bind. eapply wp_lift.
  { apply (parse_response inet_pton4 inet_pton6 0 _ ls l 4 addr ip);
      [done|done|by right|by apply (bool_decide_unpack _)|by left|done|done]. }
  set (ans := mkDnsAnswer _ _ _ _ _). cbn [forM]. apply wp_bind, wp_bind. unfold MdnsClient.handleAnswer.
  change (addressType (a_type ans)) with true. cbn [negb]. unfold emit. apply wp_bind, wp_gets, wp_bind, wp_modify, wp_modify, wp_ret.
  assert (Eaddr : answerAddress ans = inet_ntop4 ip).
  { unfold MdnsClient.answerAddress, ans. cbn [a_type rdata]. rewrite Es. done. }
  assert (Hans : forall q, answers ans q = bool_decide (lower (pq_hostname q) = lower nm)).
  { intros q'. unfold answers, ans. cbn [a_name]. rewrite stripDot_dotted by done. by rewrite Hlow. }
  set (c1 := c <| outs ::= _ |> <| queries_ := _ |>).
  assert (Hc1 : Called cb (inet_ntop4 ip) ∈ outs c1).
  { unfold c1. upd. apply elem_of_app. right. apply list_elem_of_join.
    exists [Called cb (inet_ntop4 ip)]. split; [by left|]. apply list_elem_of_fmap. exists q. split.
    - unfold answerCall. rewrite Ec, Eaddr, bool_decide_false by done. done.
    - apply list_elem_of_filter. split; [|done]. rewrite Hans, Eh. by rewrite bool_decide_true. }
  assert (Hq1 : Forall (fun q => lower (pq_hostname q) <> lower nm) (queries_ c1)).
  { unfold c1. upd. apply Forall_forall. intros q' [Hf _]%list_elem_of_filter. rewrite Hans in Hf.
    by apply bool_decide_eq_false in Hf. }
  clearbody c1. apply wp_bind, wp_gets, wp_bind. apply (wp_mono _ (fun _ c2 => c2 = c1)).
  { case_bool_decide; by apply wp_ret. }
  intros ? c2 ->. eapply wp_mono; [apply sendPendingQueries_passed|]. intros ? c3 [[lo Ho] Hnone _ _].
  split; [rewrite Ho; apply elem_of_app; by left|]. apply Forall_forall. intros q' (q2 & H2 & ->)%Hnone. by eapply Forall_forall in Hq1.
Qed.

(** C32: a name is resolved.  When a client advertises a name for its address, and another asks
    for it in any case of letters, then the query goes to the multicast group, the first
    answers it (to the group, or to a source on another port), and whenever the answer reaches
    the second while it waits, its callback gets the address and no query for the name
    is left. *)
Theorem mdns_resolves (Q R : MDnsClient) (ls ls' : list bytes) (l l' ip : bytes) (cb : nat) (port : Z) (a : bytes) (src : sockaddr) :
  Forall label_ok ls -> label_ok l -> Forall label_ok ls' -> label_ok l' ->
  lower (dotted ls' l') = lower (dotted ls l) ->
  mode_ Q <> Disabled -> sock_ Q = true -> 0 <= now Q ->
  advertises R (dotted ls l) ip -> inet_ntop4 ip <> [] ->
  mdnsSourceIsPlausible (SockIn port a) = Some true -> mdnsSourceIsPlausible src = Some true ->
  exists Q1 R1 asks resp,
    query (dotted ls' l') (Some cb) Q = Some (true, Q1) /\ waits Q1 (dotted ls' l') cb /\
    Sent asks mcastAddr4_ ∈ outs Q1 /\
    onPacket asks (SockIn port a) R = Some (tt, R1) /\
    Sent resp (if port =? kMDnsPort then mcastAddr4_ else SockIn port a) ∈ outs R1 /\
    forall Q2, waits Q2 (dotted ls' l') cb ->
      exists Q3, onPacket resp src Q2 = Some (tt, Q3) /\ Called cb (inet_ntop4 ip) ∈ outs Q3 /\
        Forall (fun q => lower (pq_hostname q) <> lower (dotted ls' l')) (queries_ Q3).
Proof.
  intros Hls Hl Hls' Hl' Hlow Hm Hs Hn Hadv Hntop Hp Hsrc.
  destruct (query_waits (dotted ls' l') cb ls' l' Q eq_refl Hl' Hm Hs Hn) as (r & Q1 & EQ & -> & HW & HS).
  destruct (question_answered R _ ip ls l ls' l' port a Hadv eq_refl Hlow Hls' Hl' Hp) as ([] & R1 & ER & HR).
  exists Q1, R1, (encodeQuery (dotted ls' l') kDnsTypeA), (encodeResponse inet_pton4 inet_pton6 0 (dotted ls l ++ [DOT]) kDnsTypeA (localAddr_ R)).
  do 5 (split; [done|]). intros Q2 HQ2.
  destruct (answer_delivered Q2 _ ip ls l (dotted ls' l') cb (localAddr_ R) src eq_refl Hls Hl Hlow (ad_addr _ _ _ Hadv) (ad_size _ _ _ Hadv) Hntop Hsrc HQ2)
    as ([] & Q3 & EQ3 & HC & HF). by exists Q3.
Qed.
End Client.

(** ** A sample network *)

Definition mdnsHost : bytes := [104; 111; 115; 116].
Definition mdnsAddr : bytes := [49; 48; 46; 48; 46; 48; 46; 55].
Definition mdnsPton4 (s : bytes) : option bytes := if bool_decide (s = mdnsAddr) then Some [10; 0; 0; 7] else None.
Definition mdnsNtop4 (ip : bytes) : bytes := if bool_decide (ip = [10; 0; 0; 7]) then mdnsAddr else [63].
Definition mdnsResponder : MDnsClient :=
  default newMdns (snd <$> init QueryAndGather (dotted [mdnsHost] localLabel) mdnsAddr [] true true true newMdns).
Definition mdnsAsker : MDnsClient :=
  default newMdns (snd <$> init QueryOnly [] [] (replicate 16 7) true true true newMdns).

Lemma localLabel_ok : label_ok localLabel.
Proof. split; [cbn; lia|by apply (bool_decide_unpack (DOT ∉ localLabel))|by apply (bool_decide_unpack _)]. Qed.

Lemma mdnsHost_ok : label_ok mdnsHost.
Proof. split; [cbn; lia|by apply (bool_decide_unpack (DOT ∉ mdnsHost))|by apply (bool_decide_unpack _)]. Qed.

Lemma mdns_resolves_witness :
  exists Q1 R1 asks resp,
    query (dotted [[72; 79; 83; 84]] localLabel) (Some 3%nat) mdnsAsker = Some (true, Q1) /\
    waits Q1 (dotted [[72; 79; 83; 84]] localLabel) 3 /\
    Sent asks mcastAddr4_ ∈ outs Q1 /\
    onPacket mdnsPton4 (fun _ => None) mdnsNtop4 (fun _ => []) asks (SockIn 5353 [10; 0; 0; 9]) mdnsResponder = Some (tt, R1) /\
    Sent resp (if 5353 =? kMDnsPort then mcastAddr4_ else SockIn 5353 [10; 0; 0; 9]) ∈ outs R1 /\
    forall Q2, waits Q2 (dotted [[72; 79; 83; 84]] localLabel) 3 ->
      exists Q3, onPacket mdnsPton4 (fun _ => None) mdnsNtop4 (fun _ => []) resp (SockIn 5353 [10; 0; 0; 7]) Q2 = Some (tt, Q3) /\
        Called 3 (mdnsNtop4 [10; 0; 0; 7]) ∈ outs Q3 /\
        Forall (fun q => lower (pq_hostname q) <> lower (dotted [[72; 79; 83; 84]] localLabel)) (queries_ Q3).
Proof.
  apply (mdns_resolves mdnsPton4 (fun _ => None) mdnsNtop4 (fun _ => []) mdnsAsker mdnsResponder [mdnsHost] [[72; 79; 83; 84]]
    localLabel localLabel [10; 0; 0; 7] 3 5353 [10; 0; 0; 9] (SockIn 5353 [10; 0; 0; 7])).
  - constructor; [exact mdnsHost_ok|constructor].
  - exact localLabel_ok.
  - constructor; [|constructor]. split; [cbn; lia|by apply (bool_decide_unpack (DOT ∉ [72; 79; 83; 84]))|by apply (bool_decide_unpack _)].
  - exact localLabel_ok.
  - reflexivity.
  - discriminate.
  - reflexivity.
  - vm_compute. discriminate.
  - split; by vm_compute.
  - vm_compute. discriminate.
  - reflexivity.
  - reflexivity.
Defined.

Lemma mdns_queries_accounted_witness :
  exists c, mdnsRun mdnsPton4 (fun _ => None) mdnsNtop4 (fun _ => [])
      [EvQuery [97] 1; EvPacket [1; 2; 3] (SockIn 5353 [10; 0; 0; 7]); EvClock 6000; EvTimeout] mdnsAsker = Some (tt, c) /\
    ids c ⊆+ [1%nat] ++ ids mdnsAsker /\
    (Forall (event_sized mdnsNtop4 (fun _ => [])) [EvQuery [97] 1; EvPacket [1; 2; 3] (SockIn 5353 [10; 0; 0; 7]); EvClock 6000; EvTimeout] ->
       ids c ≡ₚ [1%nat] ++ ids mdnsAsker) /\
    exists c', onTimeout c = Some (tt, c') /\ Forall (fun q => now c' < deadline q) (queries_ c').
Proof.
  apply (mdns_queries_accounted mdnsPton4 (fun _ => None) mdnsNtop4 (fun _ => [])
    [EvQuery [97] 1; EvPacket [1; 2; 3] (SockIn 5353 [10; 0; 0; 7]); EvClock 6000; EvTimeout] mdnsAsker).
  - discriminate.
  - reflexivity.
  - repeat constructor; by apply (bool_decide_unpack _).
Defined.

(** An answer of the right name whose data has the wrong size erases the query without a call:
    the callback is never called, not even at the deadline. *)
Lemma mdns_answer_swallowed :
  exists c, mdnsRun mdnsPton4 (fun _ => None) mdnsNtop4 (fun _ => [])
      [EvQuery (dotted [mdnsHost] localLabel) 1;
       EvPacket (responseHeader 0 ++ wireName [mdnsHost; localLabel] ++ writeU16Be 1 ++ writeU16Be 1 ++ writeU32Be 120 ++ writeU16Be 0)
         (SockIn 5353 [10; 0; 0; 7]); EvClock 6000; EvTimeout] mdnsAsker = Some (tt, c) /\
    ids c = [].
Proof. eexists. split; [vm_compute; reflexivity|reflexivity]. Qed.
