(* ===== verification/TcpMux.v ===== *)
(** * The TCP multiplexer (include/stice/net/tcp_mux.hpp, src/net/tcp_mux.cpp)

    [TCPMux]: one listening socket shared by many agents.  An accepted connection waits until
    its first STUN message names an agent, and then belongs to it.  Connections are objects
    held by [shared_ptr]s in three containers and by raw pointers in the poll registry: an
    object is named by its number in [conns] and leaves [conns] when the last container forgets
    it, so that a use after that is [None].  The callbacks of agents are outputs ([delivered]);
    what a callback does on the multiplexer is a later step.

    [sysOf k] is the system as connection [k] sees it.  What [accept] returns, and what the
    reads of one event return, are arguments.  Of the poll registry (src/net/poll.cpp) this file
    has the participants, [sync] and the loop over the slots that became ready
    ([pollIteration]); opening the socket and the listing of interfaces are left out. *)

From S2P Require Import Prelude.
From S2P Require Import StateMonad.
From S2P Require Import Bytes.
From S2P Require Import Addr.
From S2P Require Import StunMessage.
From S2P Require Import StunAttributes.
From S2P Require Import TcpTransport.
From S2P Require Import UdpMux.
Open Scope Z_scope.
Open Scope c_scope.

Definition MaxPendingTcpMuxConns : nat := 64.
Definition FirstStunBindTimeoutMs : Z := 30000.
Definition POLLERR : Z := 8.
Definition POLLHUP : Z := 16.

Record TcpMuxAgentEntry := mkTcpMuxAgentEntry {
  t_ufrag : bytes; t_onPacket : bool; t_onBookkeeping : bool; t_nextTimestamp : bool }.

Record TcpMuxConn := mkTcpMuxConn {
  transport_ : TcpTransport; peer_ : AddrRecord; established_ : bool; closed_ : bool; ufrag_ : bytes;
  agent_ : option nat; acceptedAt_ : Z }.
#[export] Instance TcpMuxConn_fields : RecordFields TcpMuxConn := fun c =>
  mkTcpMuxConn (transport_ c) (peer_ c) (established_ c) (closed_ c) (ufrag_ c) (agent_ c) (acceptedAt_ c).

(** [stalledMs] adds up the time the poll thread spends in [sync]. *)
Record TCPMux := mkTCPMux {
  agentEntries : list TcpMuxAgentEntry; agentsByUfrag_ : gmap bytes nat; conns : gmap nat TcpMuxConn; nextConn : nat;
  connsByAddr_ : gmap string nat; pendingConns_ : list nat; toDestroy_ : list nat;
  participants_ : list nat; generation_ : Z; nowMs : Z; stalledMs : Z; delivered : list (nat * bytes * AddrRecord) }.
#[export] Instance TCPMux_fields : RecordFields TCPMux := fun m =>
  mkTCPMux (agentEntries m) (agentsByUfrag_ m) (conns m) (nextConn m) (connsByAddr_ m) (pendingConns_ m) (toDestroy_ m)
    (participants_ m) (generation_ m) (nowMs m) (stalledMs m) (delivered m).

Definition newTcpMux : TCPMux := mkTCPMux [] ∅ ∅ 0 ∅ [] [] [] 0 0 0 [].

Abbreviation CM := (SM TCPMux).

Definition getConn (k : nat) : CM TcpMuxConn := m ← gets id; lift (conns m !! k).
Definition setConn (k : nat) (c : TcpMuxConn) : CM unit := modify (fun m => m <| conns ::= <[k := c]> |>).
Definition updConn (k : nat) (f : TcpMuxConn -> TcpMuxConn) : CM unit := c ← getConn k; setConn k (f c).

(** A call of the transport of a connection. *)
Definition onTransport {A} (k : nat) (op : TM A) : CM A :=
  c ← getConn k;
  r ← lift (op (transport_ c));
  setConn k (c <| transport_ := r.2 |>);;
  mret r.1.

(** [agent_->onPacket(data, n, peerAddr_)], when both are set. *)
Definition deliver (k : nat) (data : bytes) : CM unit :=
  c ← getConn k;
  match agent_ c with
  | None => skip
  | Some a =>
      m ← gets id;
      e ← lift (agentEntries m !! a);
      if t_onPacket e then modify (fun m => m <| delivered ::= (fun l => l ++ [(a, data, peer_ c)]) |>) else skip
  end.

(** ** The poll registry *)

Definition pollRemove (k : nat) : CM unit := modify (fun m => m <| participants_ ::= filter (fun p => p <> k) |>).
Definition pollAdd (k : nat) : CM unit :=
  modify (fun m => m <| participants_ ::= (fun l => if bool_decide (k ∈ l) then l else l ++ [k]) |>).

(** [sync] waits, a tenth of a second at a time and at most twenty times, until the generation has
    grown; only the poll thread makes it grow, when all its callbacks have returned.  Called from
    such a callback it finds the same generation each time. *)
Fixpoint syncLoop (retries : nat) (generation target waited : Z) : Z :=
  match retries with
  | O => waited
  | S retries => if generation <? target then syncLoop retries generation target (waited + 100) else waited
  end.

Definition sync : CM unit :=
  g ← gets generation_;
  modify (fun m => m <| stalledMs ::= Z.add (syncLoop 20 g (g + 1) 0) |>).

(** ** Reference counts *)

Definition referenced (m : TCPMux) (k : nat) : bool :=
  bool_decide (k ∈ pendingConns_ m) || bool_decide (k ∈ toDestroy_ m) || bool_decide (k ∈ (map_to_list (connsByAddr_ m)).*2).

(** A container forgot [k]: the object is destroyed when no other container holds it. *)
Definition dropRef (k : nat) : CM unit :=
  m ← gets id;
  if referenced m k then skip else pollRemove k;; modify (fun m => m <| conns ::= delete k |>).

Section Mux.
Context (getnameinfo : sockaddr -> option (string * string)) (inet_ntop : sockaddr -> option string).
Context (sysOf : nat -> TcpSys).
Local Abbreviation keyOf := (addrKey getnameinfo inet_ntop).

(** ** Connections *)

Definition closeConn (k : nat) : CM unit := onTransport k close;; updConn k (fun c => c <| closed_ := true |>).

(** The map takes the connection; the one it held for the address is forgotten. *)
Definition putConn (key : string) (k : nat) : CM unit :=
  old ← gets (fun m => connsByAddr_ m !! key);
  modify (fun m => m <| connsByAddr_ ::= <[key := k]> |>);;
  match old with Some o => dropRef o | None => skip end.

Definition onConnEstablished (k : nat) (u : bytes) : CM unit :=
  agent ← gets (fun m => agentsByUfrag_ m !! u);
  pending ← gets (fun m => bool_decide (k ∈ pendingConns_ m));
  modify (fun m => m <| pendingConns_ ::= filter (fun p => p <> k) |>);;
  match agent with
  | None =>
      pollRemove k;;
      sync;;
      if (pending : bool) then modify (fun m => m <| toDestroy_ ::= (fun l => l ++ [k]) |>) else skip
  | Some a =>
      updConn k (fun c => c <| agent_ := Some a |> <| established_ := true |>);;
      c ← getConn k;
      if (pending : bool) then putConn (keyOf (peer_ c)) k else skip
  end.

Definition driveData (k : nat) : CM unit :=
  c ← getConn k;
  m ← gets id;
  if established_ c && from_option t_onPacket false (agent_ c ≫= (fun a => agentEntries m !! a))
  then msgs ← onTransport k driveAll; forM msgs (deliver k) else skip.

(** The USERNAME of the first message; [None] when the connection is to be closed. *)
Definition firstUsername (data : bytes) : option (option bytes) :=
  isStun ← isMessage data;
  if negb isStun then Some None else
  d ← decode emptyMessage data;
  let username := getString d.2 AttrType.Username in
  Some (if negb d.1 || bool_decide (username = []) then None else Some username).

Definition tryReadFirstPacket (k : nat) : CM unit :=
  data ← onTransport k (recv bufSize);
  if (length data =? 0)%nat then skip else
  u ← lift (firstUsername data);
  match u with
  | None => closeConn k
  | Some username =>
      updConn k (fun c => c <| ufrag_ := localUfrag username |>);;
      onConnEstablished k (localUfrag username);;
      c ← getConn k;
      if established_ c then deliver k data;; driveData k else skip
  end.

Definition hasBits (events mask : Z) : bool := negb (events &. mask =? 0).

(** [chunks], [stop]: what the reads of this event return. *)
Definition onTcpEvents (k : nat) (events : Z) (chunks : list bytes) (stop : ReadStop) : CM unit :=
  c ← getConn k;
  if closed_ c then skip else
  let err := hasBits events (POLLERR |. POLLHUP) in
  when (err && negb (hasBits events POLLIN)) (onTransport k (onReadable (sysOf k) chunks stop);; skip);;
  when (err && negb (hasBits events POLLOUT)) (onTransport k (onWritable (sysOf k));; skip);;
  when (hasBits events POLLOUT) (onTransport k (onWritable (sysOf k));; skip);;
  when (hasBits events POLLIN)
    (onTransport k (onReadable (sysOf k) chunks stop);;
     c ← getConn k;
     if established_ c then driveData k else tryReadFirstPacket k);;
  c ← getConn k;
  if down (transport_ c) then updConn k (fun c => c <| closed_ := true |>);; onTransport k close else skip.

Definition tcpDesiredEvents (c : TcpMuxConn) : Z :=
  if down (transport_ c) then 0 else POLLIN |. (if wantsWrite (transport_ c) then POLLOUT else 0).

(** ** Agents *)

Definition registerAgent (u : bytes) (onPacket onBookkeeping nextTimestamp : bool) : CM nat :=
  a ← gets (fun m => length (agentEntries m));
  modify (fun m => m <| agentEntries ::= (fun l => l ++ [mkTcpMuxAgentEntry u onPacket onBookkeeping nextTimestamp]) |>
                     <| agentsByUfrag_ ::= <[u := a]> |>);;
  mret a.

Definition mappedConns (m : TCPMux) : list nat := (map_to_list (connsByAddr_ m)).*2.

Definition removeAgent (u : bytes) : CM unit :=
  modify (fun m => m <| agentsByUfrag_ ::= delete u |>);;
  l ← gets mappedConns;
  forM l (fun k => c ← getConn k; if bool_decide (ufrag_ c = u) then closeConn k else skip).

(** The number of bytes sent, or -1. *)
Definition sendConn (k : nat) (data : bytes) (control : bool) : CM Z :=
  c ← getConn k;
  if negb (bool_decide (state_ (transport_ c) = Connected)) then mret (-1) else
  ok ← onTransport k (if control then sendControl (sysOf k) data else send (sysOf k) data);
  mret (if (ok : bool) then Z.of_nat (length data) else -1).

Definition sendto (data : bytes) (dst : AddrRecord) (control : bool) : CM Z :=
  it ← gets (fun m => connsByAddr_ m !! keyOf dst);
  match it with None => mret (-1) | Some k => sendConn k data control end.

(** ** Accepting *)

Definition newConn (fd : Z) (peer : AddrRecord) (t : Z) : TcpMuxConn :=
  mkTcpMuxConn (default newTransport (snd <$> attach fd peer newTransport)) peer false false [] None t.

(** [l]: the sockets [accept] returns until it returns none. *)
Fixpoint acceptOne (l : list (Z * AddrRecord)) : CM unit :=
  match l with
  | [] => skip
  | (fd, peer) :: l =>
      n ← gets (fun m => length (pendingConns_ m));
      if (MaxPendingTcpMuxConns <=? n)%nat then skip else
      k ← gets nextConn;
      modify (fun m => m <| conns ::= <[k := newConn fd peer (nowMs m)]> |> <| nextConn := S k |>
                         <| pendingConns_ ::= (fun l => l ++ [k]) |>);;
      pollAdd k;;
      acceptOne l
  end.

(** ** Timers *)

(** A container gives [k] up for destruction. *)
Definition retire (k : nat) : CM unit := pollRemove k;; modify (fun m => m <| toDestroy_ ::= (fun l => l ++ [k]) |>).

(** Whether [remove_if] takes a pending connection out. *)
Definition cleanupPending (k : nat) : CM bool :=
  c ← getConn k;
  t ← gets nowMs;
  if closed_ c then retire k;; mret true else
  if FirstStunBindTimeoutMs <? t - acceptedAt_ c then closeConn k;; retire k;; mret true else mret false.

Fixpoint removeIf (l : list nat) : CM (list nat) :=
  match l with
  | [] => mret []
  | k :: l => out ← cleanupPending k; l ← removeIf l; mret (if (out : bool) then l else k :: l)
  end.

Definition cleanupMapped (kv : string * nat) : CM unit :=
  c ← getConn kv.2;
  if closed_ c then retire kv.2;; modify (fun m => m <| connsByAddr_ ::= delete kv.1 |>) else skip.

Definition cleanupConns : CM unit :=
  l ← gets pendingConns_;
  l ← removeIf l;
  modify (fun m => m <| pendingConns_ := l |>);;
  kvs ← gets (fun m => map_to_list (connsByAddr_ m));
  forM kvs cleanupMapped.

Definition clearDestroyed : CM unit :=
  l ← gets toDestroy_;
  modify (fun m => m <| toDestroy_ := [] |>);;
  forM l dropRef.

(** The agents whose timer callback runs. *)
Definition onBookkeeping : CM (list nat) :=
  clearDestroyed;;
  cleanupConns;;
  gets (fun m => filter (fun a => from_option t_onBookkeeping false (agentEntries m !! a) = true) (map_to_list (agentsByUfrag_ m)).*2).

Definition nextTimestampMs (answer : nat -> Z) (m : TCPMux) : Z :=
  foldl (fun earliest a => let t := answer a in
           if (0 <? t) && ((earliest =? 0) || (t <? earliest)) then t else earliest)
        0 (filter (fun a => from_option t_nextTimestamp false (agentEntries m !! a) = true) (map_to_list (agentsByUfrag_ m)).*2).

(** ** One pass of the poll loop *)

Inductive Slot := SlotListener (accepted : list (Z * AddrRecord)) | SlotConn (k : nat) (events : Z) (chunks : list bytes) (stop : ReadStop).

Definition stillRegistered (m : TCPMux) (s : Slot) : bool :=
  match s with SlotListener _ => true | SlotConn k _ _ _ => bool_decide (k ∈ participants_ m) end.

Definition dispatch (s : Slot) : CM unit :=
  match s with
  | SlotListener l => acceptOne l
  | SlotConn k events chunks stop => onTcpEvents k events chunks stop
  end.

(** The slots that became ready, checked once against the participants and then served in
    order. *)
Definition pollIteration (slots : list Slot) : CM (list nat) :=
  valid ← gets (fun m => filter (fun s => stillRegistered m s = true) slots);
  forM valid dispatch;;
  bk ← onBookkeeping;
  modify (fun m => m <| generation_ ::= Z.add 1 |>);;
  mret bk.

End Mux.
