(* ===== verification/TcpMuxInv.v ===== *)
(** * The tables of the TCP multiplexer stay consistent

    [tables]: whatever a container or the poll registry refers to is alive, the transports are
    well formed, and at most [MaxPendingTcpMuxConns] connections wait.  Every entry point keeps
    it and runs to its end, except the service of a connection that is freed ([servesFreed]). *)

From S2P Require Import Prelude.
From S2P Require Import StateMonad.
From S2P Require Import Bytes.
From S2P Require Import Addr.
From S2P Require Import StunMessage.
From S2P Require Import StunAttributes.
From S2P Require Import TcpTransport.
From S2P Require Import TcpStream.
From S2P Require Import UdpMux.
From S2P Require Import TcpMux.
Open Scope Z_scope.

(** ** Transports *)

Definition t_ok (t : TcpTransport) : Prop := bytes_ok (recvBuf_ t) /\ exists all, tinv RFC4571 all t.

Section Buffer.
Context (S : TcpSys).

Lemma pres_syscall : preserves recvBuf_ syscall.
Proof. unfold syscall. preserve; try done. Qed.
Hint Resolve pres_syscall : pres.

Lemma pres_setQueue c q : preserves recvBuf_ (modify (setQueue c q)).
Proof. apply pres_modify. by destruct c. Qed.

Lemma pres_advance c n : preserves recvBuf_ (advance c n).
Proof. unfold advance. preserve; by destruct c. Qed.

Lemma pres_settle c : preserves recvBuf_ (settle c).
Proof. unfold settle. preserve; by destruct c. Qed.
Hint Resolve pres_advance pres_settle : pres.

Lemma pres_drainLoop fuel c : preserves recvBuf_ (drainLoop S fuel c).
Proof.
  induction fuel as [|fuel IH]; cbn [drainLoop]; [apply pres_lift|]. unfold clearTlsWantHints, setState.
  preserve; try done; by destruct c.
Qed.
Hint Resolve pres_drainLoop : pres.

Lemma pres_flushSends : preserves recvBuf_ (flushSends S).
Proof. unfold flushSends, drain. preserve. Qed.
Hint Resolve pres_flushSends : pres.

Lemma pres_handshake : preserves recvBuf_ (driveTlsHandshake S).
Proof. unfold driveTlsHandshake, clearTlsWantHints, setState. preserve; try done. Qed.
Hint Resolve pres_handshake : pres.

Lemma pres_onWritable : preserves recvBuf_ (onWritable S).
Proof. unfold onWritable, afterConnect, setState. preserve; try done. Qed.

Lemma pres_send data : preserves recvBuf_ (send S data).
Proof. unfold send, enqueue, flushIfConnected. preserve; try done. Qed.

Lemma pres_sendControl data : preserves recvBuf_ (sendControl S data).
Proof. unfold sendControl, enqueue, flushIfConnected. preserve; try done. Qed.
End Buffer.

Lemma t_ok_of {A} (m : TM A) t :
  t_ok t -> preserves recvBuf_ m -> (forall all, tinv RFC4571 all t -> wp m (fun _ t' => exists all', tinv RFC4571 all' t') t) ->
  wp m (fun _ t' => t_ok t') t.
Proof.
  intros [Hb [all H]] Hp Hm. eapply wp_mono; [apply (wp_pres recvBuf_); [exact Hp|by eapply Hm]|].
  intros a t' [H' E]. split; [by rewrite E|done].
Qed.

Section Transport.
Context (S : TcpSys) (HS : sys_ok S).

Lemma onWritable_ok t : t_ok t -> wp (onWritable S) (fun _ t' => t_ok t') t.
Proof.
  intros H. apply t_ok_of; [done|apply pres_onWritable|]. intros all Ht. eapply wp_mono; [by apply keeps_onWritable|].
  intros r t' Hr. by exists all.
Qed.

Lemma sending_ok (c : Chan) data t :
  t_ok t -> wp (match c with Control => sendControl S data | Data => send S data end) (fun _ t' => t_ok t') t.
Proof.
  intros H. apply t_ok_of; [done|destruct c; [apply pres_sendControl|apply pres_send]|]. intros all Ht.
  destruct (wp_call S HS _ _ (match c with Control => CSendControl data | Data => CSend data end) t Ht) as (r & t' & E & H').
  destruct c; cbn [call] in E; unfold mbind, SM_bind in E.
  - destruct (sendControl S data t) as [[b t1]|] eqn:E1; [|done]. exists b, t1. split; [done|]. injection E as _ <-. eauto.
  - destruct (send S data t) as [[b t1]|] eqn:E1; [|done]. exists b, t1. split; [done|]. injection E as _ <-. eauto.
Qed.

Lemma storeRead_bytes b t : bytes_ok b -> bytes_ok (recvBuf_ t) -> wp (storeRead b) (fun _ t' => bytes_ok (recvBuf_ t')) t.
Proof.
  intros Hb Ht. unfold storeRead. apply wp_modify. destruct (_ && _); upd; apply bytes_ok_app; try done. by apply Forall_drop.
Qed.

Lemma onReadable_bytes chunks stop t :
  Forall (fun b : bytes => bytes_ok b) chunks -> bytes_ok (recvBuf_ t) ->
  forall r t', onReadable S chunks stop t = Some (r, t') -> bytes_ok (recvBuf_ t').
Proof.
  intros Hc Ht r t' E. unfold onReadable in E. rewrite run_gets in E. case_bool_decide.
  { by rewrite (pres_handshake S t r t' E). }
  case_bool_decide; cbn [negb] in E; [|by injection E as _ <-]. rewrite run_gets in E.
  assert (Hloop : wp (forM chunks (fun c => (if tls_ t then clearTlsWantHints else skip) ≫= (fun _ => storeRead c)))
    (fun _ t1 => bytes_ok (recvBuf_ t1)) t).
  { apply wp_forM; [|done]. intros b t1 Hb H1. apply wp_bind. apply (wp_mono _ (fun _ t2 => bytes_ok (recvBuf_ t2))).
    - destruct (tls_ t); [by apply wp_modify|by apply wp_ret].
    - intros _ t2 H2. apply storeRead_bytes; [by eapply Forall_forall in Hb|done]. }
  destruct Hloop as ([] & t1 & E1 & H1). rewrite (run_bind _ _ _ _ _ E1) in E.
  assert (Hp : preserves recvBuf_ (endReads (tls_ t) stop)).
  { destruct stop; cbn [endReads]; unfold setState; preserve; try done. }
  by rewrite (Hp t1 r t' E).
Qed.

Lemma onReadable_ok chunks stop t :
  Forall (fun b : bytes => bytes_ok b) chunks -> t_ok t -> wp (onReadable S chunks stop) (fun _ t' => t_ok t') t.
Proof.
  intros Hc [Hb [all Ht]]. destruct (keeps_onReadable S HS RFC4571 all chunks stop t Ht) as (r & t' & E & H').
  exists r, t'. split; [done|]. split; [by eapply onReadable_bytes|eauto].
Qed.

Lemma recv_keeps_ok n t : t_ok t -> wp (recv n) (fun out t' => t_ok t' /\ bytes_ok out) t.
Proof.
  intros [Hb [all Ht]]. destruct (wp_recv n t (ti_recv _ _ _ Ht)) as (out & t' & E & Hr & He). exists out, t'. split; [done|].
  assert (Hi : tinv RFC4571 all t').
  { destruct Ht as [H1 H2 H3]. destruct He. constructor; [by eapply books_same|done|congruence]. }
  assert (Hcons : forall k, bytes_ok (recvBuf_ (consume k t))).
  { intros k. unfold consume. destruct (_ <=? _)%nat; [done|]. destruct (_ <=? _); [|done]. upd. by apply Forall_drop. }
  unfold recv in E. rewrite run_gets in E. unfold id in E. rewrite (ti_mode _ _ _ Ht) in E.
  destruct (_ <? 2)%nat; [injection E as <- <-; split; [split; [done|by exists all]|done]|].
  unfold mbind at 1, SM_bind at 1, lift at 1 in E. destruct (readU16Be _ _) as [len|]; [|done].
  destruct (len =? 0); [injection E as <- <-; split; [split; [apply Hcons|by exists all]|done]|].
  destruct (_ <? 2 + _)%nat; [injection E as <- <-; split; [split; [done|by exists all]|done]|].
  unfold mbind at 1, SM_bind at 1, lift at 1 in E. unfold peek in E. destruct (_ <=? _)%nat; [|done].
  injection E as <- <-. split; [split; [apply Hcons|by exists all]|]. by apply Forall_take, Forall_drop.
Qed.

Lemma drive_ok fuel t : t_ok t -> wp (drive fuel) (fun ms t' => t_ok t' /\ Forall (fun b : bytes => bytes_ok b) ms) t.
Proof.
  revert t. induction fuel as [|fuel IH]; intros t Ht; cbn [drive]; [by apply wp_ret|].
  apply wp_bind. eapply wp_mono; [by apply recv_keeps_ok|]. intros m t1 [H1 Hm].
  destruct (_ =? 0)%nat; [by apply wp_ret|]. apply wp_bind. eapply wp_mono; [by apply IH|]. intros ms t2 [H2 Hms].
  apply wp_ret. split; [done|by constructor].
Qed.

Lemma driveAll_ok t : t_ok t -> wp driveAll (fun ms t' => t_ok t') t.
Proof. intros Ht. unfold driveAll. apply wp_bind, wp_gets. eapply wp_mono; [by apply drive_ok|]. by intros ms t' [? _]. Qed.

Lemma close_ok t : t_ok t -> wp close (fun _ t' => t_ok t' /\ down t' = true) t.
Proof.
  intros [Hb [all Ht]]. unfold close. apply wp_bind, wp_modify, wp_bind, wp_gets, wp_bind.
  assert (Hf : framing_ t = RFC4571) by apply Ht.
  apply (wp_mono _ (fun _ t1 => framing_ t1 = RFC4571 /\ written t1 = written t)).
  { destruct (_ =? _); [by apply wp_ret|by apply wp_modify]. }
  intros _ t1 [Hf1 Hw1]. apply wp_modify. match goal with |- t_ok ?x /\ _ => set (t2 := x) end.
  assert (Hq : forall c, queueOf c t2 = emptyQueue) by by intros [].
  assert (Hw : written t2 = written t1) by done. assert (Hf2 : framing_ t2 = framing_ t1) by done.
  assert (Hb2 : recvBuf_ t2 = []) by done. assert (Ho2 : recvOff_ t2 = 0%nat) by done. assert (Hd : down t2 = true) by done.
  clearbody t2. split; [|done]. split; [by rewrite Hb2|]. exists (fun c => accepted c (written t)). constructor.
  - constructor; intros c; rewrite Hq; [unfold queue_ok; cbn; lia|]. rewrite Hw, Hw1. by rewrite app_nil_r.
  - unfold recv_ok. rewrite Hb2, Ho2. done.
  - congruence.
Qed.
End Transport.

Lemma attached_ok fd peer t : t_ok (transport_ (newConn fd peer t)).
Proof.
  set (t0 := transport_ (newConn fd peer t)). assert (Hq : forall c, queueOf c t0 = emptyQueue) by by intros [].
  assert (Hw : written t0 = []) by done. assert (Hf : framing_ t0 = RFC4571) by done.
  assert (Hb : recvBuf_ t0 = []) by done. assert (Ho : recvOff_ t0 = 0%nat) by done. clearbody t0.
  split; [by rewrite Hb|]. exists (fun _ => []). constructor; [|unfold recv_ok; by rewrite Hb, Ho|done].
  constructor; intros c; rewrite Hq; [unfold queue_ok; cbn; lia|]. by rewrite Hw.
Qed.

(** ** The tables *)

Definition live (m : TCPMux) (k : nat) : Prop := is_Some (conns m !! k).
Definition mapped (m : TCPMux) (k : nat) : Prop := exists key, connsByAddr_ m !! key = Some k.
Definition known (m : TCPMux) (a : nat) : Prop := is_Some (agentEntries m !! a).

Record conn_ok (m : TCPMux) (c : TcpMuxConn) : Prop := {
  cn_transport : t_ok (transport_ c); cn_agent : forall a, agent_ c = Some a -> known m a }.

Record tables (m : TCPMux) : Prop := {
  tb_conns : forall k c, conns m !! k = Some c -> conn_ok m c /\ (k < nextConn m)%nat;
  tb_refs : forall k, k ∈ pendingConns_ m \/ k ∈ toDestroy_ m \/ mapped m k \/ k ∈ participants_ m -> live m k;
  tb_bound : (length (pendingConns_ m) <= MaxPendingTcpMuxConns)%nat;
  tb_nodup : NoDup (pendingConns_ m);
  tb_agents : forall u a, agentsByUfrag_ m !! u = Some a -> known m a }.

Lemma newTcpMux_tables : tables newTcpMux.
Proof.
  split; cbn; try done.
  - intros k [H|[H|[[key H]|H]]]; try by apply not_elem_of_nil in H. done.
  - unfold MaxPendingTcpMuxConns. lia.
  - apply NoDup_nil_2.
Qed.

(** Only connection [k] changes. *)
Record local (k : nat) (m m' : TCPMux) : Prop := {
  lc_conns : forall j, j <> k -> conns m' !! j = conns m !! j;
  lc_entries : agentEntries m' = agentEntries m; lc_ufrag : agentsByUfrag_ m' = agentsByUfrag_ m;
  lc_next : nextConn m' = nextConn m; lc_addr : connsByAddr_ m' = connsByAddr_ m;
  lc_pending : pendingConns_ m' = pendingConns_ m; lc_destroy : toDestroy_ m' = toDestroy_ m;
  lc_part : participants_ m' = participants_ m; lc_now : nowMs m' = nowMs m }.

Lemma local_refl k m : local k m m.
Proof. done. Qed.

Lemma local_trans k m1 m2 m3 : local k m1 m2 -> local k m2 m3 -> local k m1 m3.
Proof. intros [] []. split; try congruence. intros j Hj. rewrite lc_conns1 by done. by apply lc_conns0. Qed.

Lemma local_set k c m : local k m (m <| conns ::= <[k := c]> |>).
Proof. split; try done. intros j Hj. upd. by rewrite lookup_insert_ne. Qed.

Lemma conn_ok_entries m m' c : agentEntries m' = agentEntries m -> conn_ok m c -> conn_ok m' c.
Proof. intros E [H1 H2]. split; [done|]. intros a Ha. unfold known. rewrite E. by apply H2. Qed.

Lemma tables_local k m m' c' :
  tables m -> local k m m' -> live m k -> conns m' !! k = Some c' -> conn_ok m c' -> tables m'.
Proof.
  intros [T1 T2 T3 T4 T5] [L1 L2 L3 L4 L5 L6 L7 L8 L9] [c Hk] Ec Hc.
  split; unfold mapped, known in *; rewrite ?L3, ?L4, ?L5, ?L6, ?L7, ?L8, ?L2; try done.
  - intros j cj Hj. destruct (decide (j = k)) as [->|Hne].
    + assert (cj = c') as -> by congruence. split; [by eapply conn_ok_entries|]. by eapply T1.
    + rewrite L1 in Hj by done. destruct (T1 j cj Hj). split; [by eapply conn_ok_entries|done].
  - intros j Hj. unfold live. destruct (decide (j = k)) as [->|Hne]; [by eexists|]. rewrite L1 by done. by apply T2.
Qed.

(** A change that no table sees. *)
Lemma tables_same m m' : tables m -> (forall k, local k m m') -> tables m'.
Proof.
  intros [T1 T2 T3 T4 T5] H. pose proof (H 0%nat) as [_ L2 L3 L4 L5 L6 L7 L8 _].
  assert (L1 : forall j, conns m' !! j = conns m !! j) by (intros j; apply (lc_conns _ _ _ (H (S j))); lia).
  split; unfold mapped, known, live in *; rewrite ?L3, ?L4, ?L5, ?L6, ?L7, ?L8, ?L2; try done.
  - intros k c Hk. rewrite L1 in Hk. destruct (T1 k c Hk). split; [by eapply conn_ok_entries|done].
  - intros k Hk. rewrite L1. by apply T2.
Qed.

(** ** Operations of one connection *)

Definition good (k : nat) (m0 m : TCPMux) : Prop := tables m /\ local k m0 m /\ live m k.

Lemma conn_good_refl k m : tables m -> live m k -> good k m m.
Proof. intros H1 H2. split_and!; [done|apply local_refl|done]. Qed.

Lemma wp_getConn k (Q : TcpMuxConn -> TCPMux -> Prop) m c : conns m !! k = Some c -> Q c m -> wp (getConn k) Q m.
Proof. intros E H. unfold getConn. apply wp_bind, wp_gets. by eapply wp_lift. Qed.

Lemma onTransport_ok {A} k (op : TM A) (P : A -> TcpTransport -> Prop) m0 m :
  good k m0 m -> (forall t, t_ok t -> wp op (fun a t' => t_ok t' /\ P a t') t) ->
  wp (onTransport k op) (fun a m' => good k m0 m' /\ exists c, conns m' !! k = Some c /\ P a (transport_ c)) m.
Proof.
  intros (Ht & Hl & [c Hc]) Hop. unfold onTransport. apply wp_bind. eapply wp_getConn; [exact Hc|].
  destruct (tb_conns m Ht k c Hc) as [[C1 C2] C3]. destruct (Hop _ C1) as (a & t' & E & H1 & H2).
  apply wp_bind. eapply wp_lift; [exact E|]. apply wp_bind. unfold setConn. apply wp_modify, wp_ret. cbn [fst snd].
  set (c' := c <| transport_ := t' |>). set (m' := m <| conns ::= <[k := c']> |>).
  assert (Hk : conns m' !! k = Some c') by (unfold m'; upd; by rewrite lookup_insert_eq).
  split; [|by exists c']. split_and!.
  - eapply (tables_local k m m' c'); [done|apply local_set|by eexists|done|by split].
  - eapply local_trans; [exact Hl|apply local_set].
  - by eexists.
Qed.

Lemma onTransport_good {A} k (op : TM A) m0 m :
  good k m0 m -> (forall t, t_ok t -> wp op (fun _ t' => t_ok t') t) -> wp (onTransport k op) (fun _ m' => good k m0 m') m.
Proof.
  intros H Hop. eapply wp_mono; [apply (onTransport_ok k op (fun _ _ => True) m0 m H)|].
  - intros t Ht. eapply wp_mono; [by apply Hop|]. done.
  - by intros a m' [? _].
Qed.

(** A change of a connection that leaves its transport alone. *)
Lemma updConn_good k f m0 m :
  good k m0 m -> (forall c, transport_ (f c) = transport_ c) -> (forall c a, conn_ok m c -> agent_ (f c) = Some a -> known m a) ->
  wp (updConn k f) (fun _ m' => good k m0 m') m.
Proof.
  intros (Ht & Hl & [c Hc]) Hf Ha. unfold updConn. apply wp_bind. eapply wp_getConn; [exact Hc|]. unfold setConn. apply wp_modify.
  destruct (tb_conns m Ht k c Hc) as [C _].
  assert (Hk : conns (m <| conns ::= <[k := f c]> |>) !! k = Some (f c)) by (upd; by rewrite lookup_insert_eq).
  split_and!; [|eapply local_trans; [exact Hl|apply local_set]|by eexists].
  eapply (tables_local k m _ (f c)); [done|apply local_set|by eexists|done|]. split; [rewrite Hf; apply C|]. intros a. by apply Ha.
Qed.

Lemma closeConn_good k m0 m : good k m0 m -> wp (closeConn k) (fun _ m' => good k m0 m') m.
Proof.
  intros H. unfold closeConn. apply wp_bind.
  eapply wp_mono; [apply onTransport_good; [exact H|]; intros t Ht; eapply wp_mono; [by apply close_ok|]; by intros ? ? [? _]|].
  intros [] m1 H1. apply updConn_good; [done|done|]. intros c a [_ Hc]. apply Hc.
Qed.

Lemma deliver_good k data m0 m : good k m0 m -> wp (deliver k data) (fun _ m' => good k m0 m') m.
Proof.
  intros (Ht & Hl & [c Hc]). unfold deliver. apply wp_bind. eapply wp_getConn; [exact Hc|].
  assert (Hm : good k m0 m) by (split_and!; [done|done|by eexists]).
  destruct (tb_conns m Ht k c Hc) as [[_ C2] _]. destruct (agent_ c) as [a|]; [|by apply wp_ret].
  destruct (C2 a eq_refl) as [e He]. apply wp_bind, wp_gets, wp_bind. eapply wp_lift; [exact He|].
  destruct (t_onPacket e); [|by apply wp_ret]. apply wp_modify.
  split_and!; [by eapply tables_same|by destruct Hl|by eexists].
Qed.

Lemma driveData_good k m0 m : good k m0 m -> wp (driveData k) (fun _ m' => good k m0 m') m.
Proof.
  intros H. pose proof H as (_ & _ & [c Hc]). unfold driveData. apply wp_bind. eapply wp_getConn; [exact Hc|].
  apply wp_bind, wp_gets. destruct (_ && _); [|by apply wp_ret]. apply wp_bind.
  eapply wp_mono; [apply onTransport_good; [exact H|apply driveAll_ok]|]. intros ms m1 H1.
  apply (wp_forM ms (deliver k) (fun m' => good k m0 m')); [|done]. intros x s _ Hs. by apply deliver_good.
Qed.

(** ** Dropping and taking connections *)

Lemma referenced_true m k : referenced m k = true <-> k ∈ pendingConns_ m \/ k ∈ toDestroy_ m \/ mapped m k.
Proof.
  unfold referenced, mapped. rewrite !orb_true_iff, !bool_decide_eq_true, list_elem_of_fmap. split.
  - intros [[H|H]|([key k'] & -> & H)]; [by left|by right; left|right; right]. exists key. by apply elem_of_map_to_list in H.
  - intros [H|[H|[key H]]]; [by left; left|by left; right|right]. exists (key, k). split; [done|]. by apply elem_of_map_to_list.
Qed.

Lemma tables_pollRemove k m : tables m -> tables (m <| participants_ ::= filter (fun p => p <> k) |>).
Proof.
  intros [T1 T2 T3 T4 T5]. split; upd; try done.
  - intros j c Hj. destruct (T1 j c Hj) as [[C1 C2] C3]. split; [by split|done].
  - intros j [H|[H|[H|[_ H]%list_elem_of_filter]]]; apply T2; auto.
Qed.

Lemma dropRef_ok k m :
  tables m ->
  wp (dropRef k) (fun _ m' => tables m' /\ (forall j, live m j -> referenced m j = true \/ j <> k -> live m' j)) m.
Proof.
  intros Ht. unfold dropRef. apply wp_bind, wp_gets. unfold id. destruct (referenced m k) eqn:E; [by apply wp_ret|].
  unfold pollRemove. apply wp_bind, wp_modify, wp_modify. apply tables_pollRemove with (k := k) in Ht as Ht'.
  set (m1 := m <| participants_ ::= filter (fun p => p <> k) |>) in *. split.
  - destruct Ht' as [T1 T2 T3 T4 T5]. split; upd; try done.
    + intros j c [_ Hj]%lookup_delete_Some. destruct (T1 j c Hj) as [[C1 C2] C3]. split; [by split|done].
    + intros j Hj. unfold live. upd. rewrite lookup_delete_ne; [by apply T2|]. intros <-.
      destruct Hj as [H|[H|[H|H]]].
      * assert (referenced m k = true) by (apply referenced_true; by left). congruence.
      * assert (referenced m k = true) by (apply referenced_true; right; by left). congruence.
      * assert (referenced m k = true) by (apply referenced_true; right; by right). congruence.
      * unfold m1 in H. by apply list_elem_of_filter in H as [? _].
  - intros j Hl Hj. unfold live. upd. rewrite lookup_delete_ne; [done|]. intros <-. destruct Hj; congruence.
Qed.

Definition ok (k : nat) (m : TCPMux) : Prop := tables m /\ live m k.

Lemma good_ok k m0 m : good k m0 m -> ok k m.
Proof. by intros (? & _ & ?). Qed.

Section Events.
Context (getnameinfo : sockaddr -> option (string * string)) (inet_ntop : sockaddr -> option string).
Context (sysOf : nat -> TcpSys) (Hsys : forall k, sys_ok (sysOf k)).

Lemma putConn_ok key k m : ok k m -> wp (putConn key k) (fun _ m' => ok k m') m.
Proof.
  intros [Ht Hk]. unfold putConn. apply wp_bind, wp_gets, wp_bind, wp_modify. set (m1 := m <| connsByAddr_ ::= <[key := k]> |>).
  assert (H1 : tables m1).
  { destruct Ht as [T1 T2 T3 T4 T5]. split; unfold m1; upd; try done.
    - intros j c Hj. destruct (T1 j c Hj) as [[C1 C2] C3]. split; [by split|done].
    - intros j [H|[H|[[key' H]|H]]]; unfold live; upd; try (apply T2; by auto).
      upd. apply lookup_insert_Some in H as [[_ <-]|[_ H]]; [done|]. apply T2. right. right. left. by exists key'. }
  assert (Hr : referenced m1 k = true).
  { apply referenced_true. right. right. exists key. unfold m1. upd. by rewrite lookup_insert_eq. }
  destruct (connsByAddr_ m !! key) as [o|]; [|by apply wp_ret].
  eapply wp_mono; [by apply dropRef_ok|]. intros ? m2 [H2 Hl]. split; [done|]. apply Hl; [done|by left].
Qed.

Lemma tables_unpend k m : tables m -> tables (m <| pendingConns_ ::= filter (fun p => p <> k) |>).
Proof.
  intros [T1 T2 T3 T4 T5]. split; upd; try done.
  - intros j c Hj. destruct (T1 j c Hj) as [[C1 C2] C3]. split; [by split|done].
  - intros j [[_ H]%list_elem_of_filter|[H|[H|H]]]; apply T2; auto.
  - etrans; [apply length_filter|done].
  - by apply NoDup_filter.
Qed.

Lemma tables_condemn k m : tables m -> live m k -> tables (m <| toDestroy_ ::= (fun l => l ++ [k]) |>).
Proof.
  intros [T1 T2 T3 T4 T5] Hk. split; upd; try done.
  - intros j c Hj. destruct (T1 j c Hj) as [[C1 C2] C3]. split; [by split|done].
  - intros j [H|[[H|H]%elem_of_app|[H|H]]]; try (apply T2; by auto). by apply list_elem_of_singleton in H as ->.
Qed.

Lemma onConnEstablished_ok k u m :
  ok k m -> wp (onConnEstablished getnameinfo inet_ntop k u) (fun _ m' => ok k m') m.
Proof.
  intros [Ht Hk]. unfold onConnEstablished. apply wp_bind, wp_gets, wp_bind, wp_gets, wp_bind, wp_modify.
  pose proof (tables_unpend k m Ht) as H1. set (m1 := m <| pendingConns_ ::= filter (fun p => p <> k) |>) in *.
  destruct (agentsByUfrag_ m !! u) as [a|] eqn:Ea.
  - apply wp_bind. eapply wp_mono; [apply (updConn_good k _ m1 m1); [by apply conn_good_refl|done|]|].
    + intros c b _ [= <-]. by eapply (tb_agents m Ht).
    + intros [] m2 H2%good_ok. pose proof H2 as [_ [c Hc]]. apply wp_bind. eapply wp_getConn; [exact Hc|].
      destruct (bool_decide _); [by apply putConn_ok|by apply wp_ret].
  - unfold pollRemove, sync. apply wp_bind, wp_modify, wp_bind, wp_bind, wp_gets, wp_modify.
    pose proof (tables_pollRemove k m1 H1) as H2. set (m2 := m1 <| participants_ ::= filter (fun p => p <> k) |>) in *.
    assert (H3 : tables (m2 <| stalledMs ::= Z.add (syncLoop 20 (generation_ m2) (generation_ m2 + 1) 0) |>)) by by eapply tables_same.
    destruct (bool_decide _); [|by apply wp_ret]. apply wp_modify. split; [by apply tables_condemn|done].
Qed.

Lemma firstUsername_total data : bytes_ok data -> exists r, firstUsername data = Some r.
Proof.
  intros Hb. unfold firstUsername. destruct (isMessage_total data Hb) as (b & -> & _). cbn [mbind option_bind].
  destruct b; cbn [negb]; [|by eexists]. destruct (decode_total emptyMessage data Hb) as (ok' & d & -> & _). by eexists.
Qed.

Lemma tryReadFirstPacket_ok k m : ok k m -> wp (tryReadFirstPacket getnameinfo inet_ntop k) (fun _ m' => ok k m') m.
Proof.
  intros [Ht Hk]. unfold tryReadFirstPacket. apply wp_bind.
  eapply wp_mono; [apply (onTransport_ok k (recv bufSize) (fun out _ => bytes_ok out) m m); [by apply conn_good_refl|]|].
  { intros t Hok. by apply recv_keeps_ok. }
  intros data m1 [H1 (c1 & _ & Hd)]. destruct (_ =? 0)%nat; [apply wp_ret; by eapply good_ok|].
  apply wp_bind. destruct (firstUsername_total data Hd) as (r & Er). eapply wp_lift; [exact Er|].
  destruct r as [username|]; [|eapply wp_mono; [by apply closeConn_good|]; intros [] m2; apply good_ok].
  apply wp_bind. eapply wp_mono; [apply (updConn_good k _ m m1); [done|done|by intros c a [_ Hc]; apply Hc]|].
  intros [] m2 H2%good_ok. apply wp_bind. eapply wp_mono; [by apply onConnEstablished_ok|]. intros [] m3 H3.
  pose proof H3 as [T3 [c Hc]]. apply wp_bind. eapply wp_getConn; [exact Hc|]. destruct (established_ c); [|by apply wp_ret].
  apply wp_bind. eapply wp_mono; [apply (deliver_good k data m3 m3); apply conn_good_refl; [done|by eexists]|]. intros [] m4 H4.
  eapply wp_mono; [apply (driveData_good k m3 m4 H4)|]. intros [] m5. apply good_ok.
Qed.

Lemma ok_transport {A} k (op : TM A) m :
  ok k m -> (forall t, t_ok t -> wp op (fun _ t' => t_ok t') t) -> wp (onTransport k op) (fun _ m' => ok k m') m.
Proof.
  intros [Ht Hk] Hop. eapply wp_mono; [apply (onTransport_good k op m m); [by apply conn_good_refl|done]|]. intros a m'. apply good_ok.
Qed.

Lemma ok_when k b (op : CM unit) m : ok k m -> (ok k m -> wp op (fun _ m' => ok k m') m) -> wp (when b op) (fun _ m' => ok k m') m.
Proof. intros H Ho. apply wp_when; intros _; [by apply Ho|done]. Qed.

Lemma ok_transport_unit {A} k (op : TM A) m :
  ok k m -> (forall t, t_ok t -> wp op (fun _ t' => t_ok t') t) -> wp (onTransport k op ≫= (fun _ => skip)) (fun _ m' => ok k m') m.
Proof. intros H Ho. apply wp_bind. eapply wp_mono; [by apply ok_transport|]. intros a m' H'. by apply wp_ret. Qed.

Lemma onTcpEvents_ok k events chunks stop m :
  ok k m -> Forall (fun b : bytes => bytes_ok b) chunks ->
  wp (onTcpEvents getnameinfo inet_ntop sysOf k events chunks stop) (fun _ m' => ok k m') m.
Proof.
  intros H Hc. pose proof H as [_ [c Ec]]. unfold onTcpEvents. apply wp_bind. eapply wp_getConn; [exact Ec|].
  destruct (closed_ c); [by apply wp_ret|].
  assert (Hr : forall t, t_ok t -> wp (onReadable (sysOf k) chunks stop) (fun _ t' => t_ok t') t) by (intros; by apply onReadable_ok).
  assert (Hw : forall t, t_ok t -> wp (onWritable (sysOf k)) (fun _ t' => t_ok t') t) by (intros; by apply onWritable_ok).
  apply wp_bind. eapply wp_mono; [apply ok_when; [exact H|]; intros; by apply ok_transport_unit|]. intros [] m1 H1.
  apply wp_bind. eapply wp_mono; [apply ok_when; [exact H1|]; intros; by apply ok_transport_unit|]. intros [] m2 H2.
  apply wp_bind. eapply wp_mono; [apply ok_when; [exact H2|]; intros; by apply ok_transport_unit|]. intros [] m3 H3.
  apply wp_bind. eapply wp_mono; [apply ok_when; [exact H3|]|].
  { intros _. apply wp_bind. eapply wp_mono; [by apply ok_transport|]. intros r m4 H4. pose proof H4 as [T4 [c4 E4]].
    apply wp_bind. eapply wp_getConn; [exact E4|]. destruct (established_ c4); [|by apply tryReadFirstPacket_ok].
    eapply wp_mono; [apply (driveData_good k m4 m4); apply conn_good_refl; [done|by eexists]|]. intros [] m5. apply good_ok. }
  intros [] m4 H4. pose proof H4 as [T4 [c4 E4]]. apply wp_bind. eapply wp_getConn; [exact E4|].
  destruct (down _); [|by apply wp_ret]. apply wp_bind.
  eapply wp_mono; [apply (updConn_good k _ m4 m4); [apply conn_good_refl; [done|by eexists]|done|by intros c' a [_ Hc']; apply Hc']|].
  intros [] m5 H5%good_ok. apply ok_transport; [done|]. intros t Ht. eapply wp_mono; [by apply close_ok|]. by intros ? ? [? _].
Qed.

(** ** The other entry points *)

Lemma tcpRegisterAgent_ok u p b t m : tables m -> wp (registerAgent u p b t) (fun _ m' => tables m') m.
Proof.
  intros [T1 T2 T3 T4 T5]. unfold registerAgent. apply wp_bind, wp_gets, wp_bind, wp_modify, wp_ret.
  assert (Hk : forall a, is_Some (agentEntries m !! a) -> is_Some ((agentEntries m ++ [mkTcpMuxAgentEntry u p b t]) !! a)).
  { intros a [e He]. exists e. by apply lookup_app_l_Some. }
  split; upd; try done.
  - intros k c Hc. destruct (T1 k c Hc) as [[C1 C2] C3]. split; [|done]. split; [done|]. intros a Ha. apply Hk. by apply C2.
  - intros u' a [[_ <-]|[_ H]]%lookup_insert_Some; unfold known; upd.
    + exists (mkTcpMuxAgentEntry u p b t). by apply list_lookup_middle.
    + apply Hk. by eapply T5.
Qed.

(** A loop over live connections that changes one at a time. *)
Lemma wp_conns_loop (l : list nat) (f : nat -> CM unit) m :
  tables m -> Forall (live m) l ->
  (forall k m, ok k m -> wp (f k) (fun _ m' => tables m' /\ local k m m' /\ live m' k) m) ->
  wp (forM l f) (fun _ m' => tables m') m.
Proof.
  intros Ht Hl Hf. eapply wp_mono; [apply (wp_forM l f (fun m' => tables m' /\ Forall (live m') l)); [|done]|by intros ? ? [? _]].
  intros k s Hk [Hs Hsl]. assert (Hlive : live s k) by by eapply Forall_forall in Hsl.
  eapply wp_mono; [by apply Hf|]. intros ? s' (H1 & H2 & H3). split; [done|]. eapply Forall_impl; [exact Hsl|].
  intros j Hj. destruct (decide (j = k)) as [->|Hne]; [done|]. unfold live. by rewrite (lc_conns _ _ _ H2).
Qed.

Lemma mappedConns_live m : tables m -> Forall (live m) (mappedConns m).
Proof.
  intros Ht. apply Forall_forall. intros k ([key k'] & -> & H%elem_of_map_to_list)%list_elem_of_fmap.
  apply (tb_refs m Ht). right. right. left. by exists key.
Qed.

Lemma tcpRemoveAgent_ok u m : tables m -> wp (removeAgent u) (fun _ m' => tables m') m.
Proof.
  intros Ht. unfold removeAgent. apply wp_bind, wp_modify. set (m1 := m <| agentsByUfrag_ ::= delete u |>).
  assert (H1 : tables m1).
  { destruct Ht as [T1 T2 T3 T4 T5]. split; unfold m1; upd; try done.
    - intros k c Hc. destruct (T1 k c Hc) as [[C1 C2] C3]. split; [by split|done].
    - intros u' a [_ H]%lookup_delete_Some. by eapply T5. }
  apply wp_bind, wp_gets. apply wp_conns_loop; [done|by apply mappedConns_live|]. intros k s [Hs [c Hc]].
  apply wp_bind. eapply wp_getConn; [exact Hc|]. assert (Hg : good k s s) by (apply conn_good_refl; [done|by eexists]).
  case_bool_decide; [|by apply wp_ret]. eapply wp_mono; [by apply (closeConn_good k s s)|]. by intros ? ? (? & ? & ?).
Qed.

Lemma tcpSendto_ok data dst control m :
  tables m -> wp (sendto getnameinfo inet_ntop sysOf data dst control) (fun _ m' => tables m') m.
Proof.
  intros Ht. unfold sendto. apply wp_bind, wp_gets. destruct (connsByAddr_ m !! _) as [k|] eqn:Ek; [|by apply wp_ret].
  assert (Hk : live m k) by (apply (tb_refs m Ht); right; right; left; by eexists). pose proof Hk as [c Hc].
  unfold sendConn. apply wp_bind. eapply wp_getConn; [exact Hc|]. destruct (negb _); [by apply wp_ret|]. apply wp_bind.
  eapply wp_mono; [apply (ok_transport k); [by split|]|].
  - intros t Hok. destruct control; [by apply (sending_ok _ (Hsys k) Control)|by apply (sending_ok _ (Hsys k) Data)].
  - intros r m' [H _]. by apply wp_ret.
Qed.

Lemma pollAdd_tables k m : tables m -> live m k -> tables (m <| participants_ ::= (fun l => if bool_decide (k ∈ l) then l else l ++ [k]) |>).
Proof.
  intros [T1 T2 T3 T4 T5] Hk. split; upd; try done.
  - intros j c Hj. destruct (T1 j c Hj) as [[C1 C2] C3]. split; [by split|done].
  - intros j [H|[H|[H|H]]]; try (apply T2; by auto). case_bool_decide; [apply T2; by auto|].
    apply elem_of_app in H as [H|H]; [apply T2; by auto|]. by apply list_elem_of_singleton in H as ->.
Qed.

Lemma acceptOne_ok l m : tables m -> wp (acceptOne l) (fun _ m' => tables m') m.
Proof.
  revert m. induction l as [|[fd peer] l IH]; intros m Ht; cbn [acceptOne]; [by apply wp_ret|]. apply wp_bind, wp_gets.
  destruct (Nat.leb_spec MaxPendingTcpMuxConns (length (pendingConns_ m))) as [|Hlt]; [by apply wp_ret|].
  apply wp_bind, wp_gets, wp_bind, wp_modify. unfold pollAdd. apply wp_bind, wp_modify. apply IH.
  destruct Ht as [T1 T2 T3 T4 T5].
  assert (Hfresh : conns m !! nextConn m = None).
  { destruct (conns m !! nextConn m) as [c|] eqn:E; [|done]. destruct (T1 _ _ E). lia. }
  assert (Hlive : forall j, live m j -> live (m <| conns ::= <[nextConn m := newConn fd peer (nowMs m)]> |>) j).
  { intros j [c Hj]. unfold live. upd. rewrite lookup_insert_ne; [by eexists|]. congruence. }
  apply pollAdd_tables.
  - split; upd; try done.
    + intros j c [[<- <-]|[_ Hj]]%lookup_insert_Some.
      * split; [|lia]. split; [apply attached_ok|done].
      * destruct (T1 j c Hj) as [[C1 C2] C3]. split; [by split|lia].
    + intros j [[H|H]%elem_of_app|H]; [apply Hlive, T2; by auto| |apply Hlive, T2; by auto].
      apply list_elem_of_singleton in H as ->. unfold live. upd. by rewrite lookup_insert_eq.
    + rewrite length_app. cbn. lia.
    + apply NoDup_app. split; [done|]. split; [|apply NoDup_singleton]. intros j Hj Hin%list_elem_of_singleton. subst j.
      destruct (T2 (nextConn m)) as [c Hc]; [by left|]. congruence.
  - unfold live. upd. by rewrite lookup_insert_eq.
Qed.

Lemma clearDestroyed_ok m : tables m -> wp clearDestroyed (fun _ m' => tables m') m.
Proof.
  intros Ht. unfold clearDestroyed. apply wp_bind, wp_gets, wp_bind, wp_modify.
  apply (wp_forM _ dropRef tables).
  - intros k s _ Hs. eapply wp_mono; [by apply dropRef_ok|]. by intros ? ? [? _].
  - destruct Ht as [T1 T2 T3 T4 T5]. split; upd; try done.
    + intros k c Hc. destruct (T1 k c Hc) as [[C1 C2] C3]. split; [by split|done].
    + intros k [H|[H|[H|H]]]; try (apply T2; by auto). by apply not_elem_of_nil in H.
Qed.

(** A connection that may go on waiting. *)
Definition young (m : TCPMux) (k : nat) : Prop :=
  exists c, conns m !! k = Some c /\ closed_ c = false /\ nowMs m - acceptedAt_ c <= FirstStunBindTimeoutMs.

(** What cleaning up leaves alone: connections outside [l] and the pending list. *)
Record cleans (l : list nat) (m m' : TCPMux) : Prop := {
  cl_tables : tables m'; cl_else : forall j, j ∉ l -> conns m' !! j = conns m !! j;
  cl_live : forall j, live m j -> live m' j; cl_pending : pendingConns_ m' = pendingConns_ m;
  cl_addr : connsByAddr_ m' = connsByAddr_ m; cl_now : nowMs m' = nowMs m }.

Lemma cleans_refl l m : tables m -> cleans l m m.
Proof. by split. Qed.

Lemma retire_ok k m : ok k m -> wp (retire k) (fun _ m' => cleans [] m m') m.
Proof.
  intros [Ht Hk]. unfold retire, pollRemove. apply wp_bind, wp_modify, wp_modify. split; try done.
  apply tables_condemn; [by apply tables_pollRemove|done].
Qed.

Lemma cleans_local k m m1 m2 : good k m m1 -> cleans [] m1 m2 -> cleans [k] m m2.
Proof.
  intros (H1 & [] & H3) []. split; try congruence.
  - intros j Hj. rewrite cl_else0 by apply not_elem_of_nil. apply lc_conns0. intros ->. apply Hj. by left.
  - intros j [c Hj]. apply cl_live0. destruct (decide (j = k)) as [->|]; [done|]. unfold live. rewrite lc_conns0 by done. by eexists.
Qed.

Lemma cleanupPending_ok k m :
  ok k m -> wp (cleanupPending k) (fun out m' => cleans [k] m m' /\ (out = false -> m' = m /\ young m k)) m.
Proof.
  intros H. pose proof H as [Ht [c Hc]]. unfold cleanupPending. apply wp_bind. eapply wp_getConn; [exact Hc|].
  apply wp_bind, wp_gets. assert (Hg : good k m m) by (apply conn_good_refl; [done|by eexists]).
  destruct (closed_ c) eqn:Ec.
  - apply wp_bind. eapply wp_mono; [by apply retire_ok|]. intros [] m1 H1. apply wp_ret. split; [|done]. by eapply cleans_local.
  - destruct (Z.ltb_spec FirstStunBindTimeoutMs (nowMs m - acceptedAt_ c)).
    + apply wp_bind. eapply wp_mono; [by apply (closeConn_good k m m)|]. intros [] m1 H1. apply wp_bind.
      eapply wp_mono; [apply retire_ok; by eapply good_ok|]. intros [] m2 H2. apply wp_ret. split; [|done]. by eapply cleans_local.
    + apply wp_ret. split; [by apply cleans_refl|]. intros _. split; [done|]. by exists c.
Qed.

Lemma removeIf_ok l m :
  tables m -> NoDup l -> Forall (live m) l ->
  wp (removeIf l) (fun l' m' => cleans l m m' /\ l' `sublist_of` l /\ Forall (young m') l') m.
Proof.
  revert m. induction l as [|k l IH]; intros m Ht Hnd Hl; cbn [removeIf].
  { apply wp_ret. split; [by apply cleans_refl|]. done. }
  apply NoDup_cons in Hnd as [Hk Hnd]. apply Forall_cons in Hl as [Hlk Hl]. apply wp_bind.
  eapply wp_mono; [by apply cleanupPending_ok|]. intros out m1 [[C1 C2 C3 C4 C5 C6] Hout]. apply wp_bind.
  eapply wp_mono; [apply IH; [done|done|by eapply Forall_impl]|]. intros l' m2 [[D1 D2 D3 D4 D5 D6] [Hsub Hy]]. apply wp_ret.
  split; [|split].
  - split; try congruence; [|auto]. intros j [H1 H2]%not_elem_of_cons. rewrite D2 by done. apply C2.
    intros ->%list_elem_of_singleton. done.
  - destruct out; [by apply sublist_cons|by apply sublist_skip].
  - destruct out; [done|]. constructor; [|done]. destruct (Hout eq_refl) as [-> (c & E & Hc & Ha)]. exists c.
    rewrite D2, D6 by done. done.
Qed.

Lemma cleanupMapped_ok kv m :
  tables m -> live m kv.2 ->
  wp (cleanupMapped kv) (fun _ m' => tables m' /\ conns m' = conns m /\ pendingConns_ m' = pendingConns_ m /\ nowMs m' = nowMs m) m.
Proof.
  intros Ht [c Hc]. unfold cleanupMapped. apply wp_bind. eapply wp_getConn; [exact Hc|]. destruct (closed_ c); [|by apply wp_ret].
  unfold retire, pollRemove. apply wp_bind, wp_bind, wp_modify, wp_modify, wp_modify. split; [|done].
  assert (H1 : tables (m <| participants_ ::= filter (fun p => p <> kv.2) |> <| toDestroy_ ::= (fun l => l ++ [kv.2]) |>)).
  { apply tables_condemn; [by apply tables_pollRemove|by eexists]. }
  destruct H1 as [T1 T2 T3 T4 T5]. split; upd; try done.
  - intros j cj Hj. destruct (T1 j cj Hj) as [[C1 C2] C3]. split; [by split|done].
  - intros j [H|[H|[[key H]|H]]]; [apply T2; by auto|apply T2; by auto| |apply T2; by auto].
    upd. apply lookup_delete_Some in H as [_ H]. apply T2. right. right. left. by exists key.
Qed.

Lemma onBookkeeping_ok m :
  tables m -> wp onBookkeeping (fun _ m' => tables m' /\ Forall (young m') (pendingConns_ m')) m.
Proof.
  intros Ht. unfold onBookkeeping. apply wp_bind. eapply wp_mono; [by apply clearDestroyed_ok|]. intros [] m1 H1.
  apply wp_bind. apply (wp_mono _ (fun _ m2 => tables m2 /\ Forall (young m2) (pendingConns_ m2))); [|intros [] m2 H2; by apply wp_gets].
  unfold cleanupConns. apply wp_bind, wp_gets, wp_bind.
  eapply wp_mono; [apply removeIf_ok; [done|apply H1|]|].
  { apply Forall_forall. intros k Hk. apply (tb_refs m1 H1). by left. }
  intros l' m2 [[C1 C2 C3 C4 C5 C6] [Hsub Hy]]. apply wp_bind, wp_modify. set (m3 := m2 <| pendingConns_ := l' |>).
  assert (H3 : tables m3).
  { destruct C1 as [T1 T2 T3 T4 T5]. rewrite <- C4 in Hsub. split; unfold m3; upd; try done.
    - intros k c Hc. destruct (T1 k c Hc) as [[D1 D2] D3]. split; [by split|done].
    - intros k [H|H]; [|apply T2; by auto]. apply T2. left. by eapply sublist_subseteq.
    - etrans; [by apply sublist_length|done].
    - by eapply sublist_NoDup. }
  apply wp_bind, wp_gets.
  eapply wp_mono; [apply (wp_forM _ cleanupMapped (fun s => tables s /\ conns s = conns m3 /\ pendingConns_ s = l' /\ nowMs s = nowMs m3)); [|done]|].
  - intros [key k] s Hkv (S1 & S2 & S3 & S4). eapply wp_mono; [apply cleanupMapped_ok; [done|]|].
    + unfold live. rewrite S2. apply (tb_refs m3 H3). right. right. left. exists key. by apply elem_of_map_to_list in Hkv.
    + intros ? s' (E1 & E2 & E3 & E4). split_and!; congruence || done.
  - intros [] m4 (S1 & S2 & S3 & S4). split; [done|]. rewrite S3. eapply Forall_impl; [exact Hy|].
    intros k (c & E & Hc & Ha). exists c. rewrite S2, S4. done.
Qed.

(** ** All events *)

Inductive TcpMuxEvent :=
  | EvAccept (l : list (Z * AddrRecord))
  | EvTcp (k : nat) (events : Z) (chunks : list bytes) (stop : ReadStop)
  | EvRegister (u : bytes) (onPacket onBookkeeping nextTimestamp : bool)
  | EvRemove (u : bytes)
  | EvSend (data : bytes) (dst : AddrRecord) (control : bool)
  | EvBookkeeping
  | EvClock (t : Z).

Definition muxEvent (e : TcpMuxEvent) : CM unit :=
  match e with
  | EvAccept l => acceptOne l
  | EvTcp k events chunks stop => onTcpEvents getnameinfo inet_ntop sysOf k events chunks stop
  | EvRegister u p b t => registerAgent u p b t;; skip
  | EvRemove u => removeAgent u
  | EvSend data dst control => sendto getnameinfo inet_ntop sysOf data dst control;; skip
  | EvBookkeeping => onBookkeeping;; skip
  | EvClock t => modify (fun m => m <| nowMs := t |>)
  end.

(** What is read are bytes. *)
Definition readsBytes (e : TcpMuxEvent) : Prop :=
  match e with EvTcp _ _ chunks _ => Forall (fun b : bytes => bytes_ok b) chunks | _ => True end.

(** An event for a connection that has been freed. *)
Definition servesFreed (m : TCPMux) (e : TcpMuxEvent) : Prop :=
  match e with EvTcp k _ _ _ => ~ live m k | _ => False end.

Lemma servesFreed_dec m e : servesFreed m e \/ ~ servesFreed m e.
Proof.
  destruct e as [ |k ev ch st| | | | | ]; try (right; by intros []). cbn. unfold live.
  destruct (conns m !! k); [right; intros H; apply H; by eexists|left; by intros [? ?]].
Qed.

Inductive muxReach : TCPMux -> Prop :=
  | muxReach_new : muxReach newTcpMux
  | muxReach_step m e m' : muxReach m -> readsBytes e -> muxEvent e m = Some (tt, m') -> muxReach m'.

Lemma servesFreed_fails m e : servesFreed m e -> muxEvent e m = None.
Proof.
  destruct e as [ |k ev ch st| | | | | ]; [done| |done..]. cbn [servesFreed muxEvent]. unfold live. intros Hk.
  unfold onTcpEvents, getConn. rewrite run_assoc, run_gets. unfold id.
  destruct (conns m !! k); [by destruct Hk|done].
Qed.

Lemma muxEvent_ok e m : tables m -> readsBytes e -> ~ servesFreed m e -> wp (muxEvent e) (fun _ m' => tables m') m.
Proof.
  intros Ht He Hl. destruct e as [l|k events chunks stop|u p b t|u|data dst control| |t]; cbn [muxEvent readsBytes servesFreed] in *.
  - by apply acceptOne_ok.
  - eapply wp_mono; [apply onTcpEvents_ok; [|done]|by intros ? ? [? _]].
    split; [done|]. by destruct (decide (is_Some (conns m !! k))).
  - apply wp_bind. eapply wp_mono; [by apply tcpRegisterAgent_ok|]. intros ? ? H. by apply wp_ret.
  - by apply tcpRemoveAgent_ok.
  - apply wp_bind. eapply wp_mono; [by apply tcpSendto_ok|]. intros ? ? H. by apply wp_ret.
  - apply wp_bind. eapply wp_mono; [by apply onBookkeeping_ok|]. intros ? ? [H _]. by apply wp_ret.
  - apply wp_modify. destruct Ht as [T1 T2 T3 T4 T5]. split; try done.
    intros k c Hc. destruct (T1 k c Hc) as [[C1 C2] C3]. split; [by split|done].
Qed.

Lemma muxReach_tables m : muxReach m -> tables m.
Proof.
  induction 1 as [|m e m' _ IH He E]; [apply newTcpMux_tables|]. refine (wp_run _ _ _ _ _ (muxEvent_ok e m IH He _) E).
  intros Hf. apply servesFreed_fails in Hf. congruence.
Qed.
End Events.
