(* ===== verification/TcpMuxTheorems.v ===== *)
(** * What the TCP multiplexer promises

    It runs and keeps its limits whatever arrives, but for an event of a freed connection; a
    connection whose first message is a check for a registered agent is given to that agent
    with everything behind it.  Two runs show where it does not do what it means to: a
    connection for an unknown agent stops the poll thread for two seconds, and a second
    connection from an address frees the first one while the poll loop still has it. *)

From Stdlib Require Import Ascii.
From stdpp Require Import pretty.
From S2P Require Import Prelude.
From S2P Require Import StateMonad.
From S2P Require Import Bytes.
From S2P Require Import Addr.
From S2P Require Import StunMessage.
From S2P Require Import StunAttributes.
From S2P Require Import TcpTransport.
From S2P Require Import TcpStream.
From S2P Require Import UdpMux.
From S2P Require Import TcpMux.
From S2P Require Import TcpMuxInv.
Open Scope Z_scope.

Section Theorems.
Context (gni : sockaddr -> option (string * string)) (ntop : sockaddr -> option string).
Context (sysOf : nat -> TcpSys).

(** C31: when the multiplexer fails, and that it keeps its limits.  After any sequence of accepted
    connections, socket events in any order, registrations, removals, sends and timer passes,
    the next event either is a socket event for a connection object that has been freed, and
    then is undefined behaviour, or it runs to its end, and then at most 64 connections wait
    for their first message, everything the containers and the poll registry refer to is
    alive, and after a timer pass no waiting connection is closed or older than 30 seconds.
    So an event for a participant that is still registered when it is served never fails; but
    the poll loop looks at that once for a whole pass, and [second_connection_dangles] is a
    pass in which the first case happens. *)
Theorem tcp_mux_runs (m : TCPMux) (e : TcpMuxEvent) :
  (forall k, sys_ok (sysOf k)) -> muxReach gni ntop sysOf m -> readsBytes e ->
  ((exists k events chunks stop, e = EvTcp k events chunks stop /\ conns m !! k = None) /\
   muxEvent gni ntop sysOf e m = None) \/
  (~ (exists k events chunks stop, e = EvTcp k events chunks stop /\ conns m !! k = None) /\
   exists m', muxEvent gni ntop sysOf e m = Some (tt, m') /\
    (length (pendingConns_ m') <= MaxPendingTcpMuxConns)%nat /\
    (forall k, k ∈ pendingConns_ m' \/ k ∈ toDestroy_ m' \/ mapped m' k \/ k ∈ participants_ m' ->
       is_Some (conns m' !! k)) /\
    (e = EvBookkeeping -> Forall (young m') (pendingConns_ m'))).
Proof.
  intros Hs Hr He. pose proof (muxReach_tables gni ntop sysOf Hs m Hr) as Ht.
  assert (Hcase : (exists k events chunks stop, e = EvTcp k events chunks stop /\ conns m !! k = None) <-> servesFreed m e).
  { split; [intros (k & ev & ch & st & -> & Hk) [? Hk']; congruence|].
    destruct e as [ |k ev ch st| | | | | ]; try done. intros Hk. exists k, ev, ch, st. split; [done|].
    destruct (conns m !! k) eqn:E; [|done]. destruct Hk. by eexists. }
  rewrite !Hcase. destruct (servesFreed_dec m e) as [Hf|Hf]; [left; split; [done|by apply servesFreed_fails]|].
  right. split; [done|].
  destruct (muxEvent_ok gni ntop sysOf Hs e m Ht He Hf) as ([] & m' & E & Ht'). exists m'. split; [done|].
  split; [apply Ht'|]. split; [apply Ht'|]. intros ->.
  destruct (onBookkeeping_ok m Ht) as (bk & m1 & E1 & _ & Hy). cbn [muxEvent] in E.
  rewrite (run_bind _ _ _ _ _ E1) in E. injection E as <-. done.
Qed.

(** ** The first message decides *)

Lemma run_getConn {B} k (f : TcpMuxConn -> CM B) m c : conns m !! k = Some c -> (getConn k ≫= f) m = f c m.
Proof. intros E. unfold getConn. rewrite run_assoc, run_gets. unfold id. by rewrite (run_lift _ _ _ c). Qed.

Definition putTransport (k : nat) (c : TcpMuxConn) (t : TcpTransport) (m : TCPMux) : TCPMux :=
  m <| conns ::= <[k := c <| transport_ := t |>]> |>.

Lemma run_onTransport {A} k (op : TM A) m c a t' :
  conns m !! k = Some c -> op (transport_ c) = Some (a, t') -> onTransport k op m = Some (a, putTransport k c t' m).
Proof. intros Ec E. unfold onTransport. rewrite (run_getConn k _ m c Ec). by rewrite (run_lift _ _ _ _ E). Qed.

Lemma putTransport_conn k c t m : conns (putTransport k c t m) !! k = Some (c <| transport_ := t |>).
Proof. unfold putTransport. upd. by rewrite lookup_insert_eq. Qed.

Lemma run_updConn k f m c : conns m !! k = Some c -> updConn k f m = Some (tt, m <| conns ::= <[k := f c]> |>).
Proof. intros E. unfold updConn. by rewrite (run_getConn k _ m c E). Qed.

(** A transport between events: open, plain, with RFC 4571 framing. *)
Record idle (t : TcpTransport) : Prop := {
  id_state : state_ t = Connected; id_tls : tls_ t = false; id_framing : framing_ t = RFC4571; id_recv : recv_ok t }.

Lemma idle_else t t' : idle t -> same_else t t' -> recv_ok t' -> idle t'.
Proof. intros [] []. split; congruence || done. Qed.

Lemma idle_up t : idle t -> down t = false.
Proof. intros [H _ _ _]. unfold down. by rewrite H. Qed.

(** A readable event of an open connection, up to what is done with the bytes. *)
Lemma run_readable k c b m :
  conns m !! k = Some c -> closed_ c = false -> idle (transport_ c) ->
  exists t', idle t' /\ rest t' = rest (transport_ c) ++ b /\
    forall m', (if established_ c then driveData k else tryReadFirstPacket gni ntop k) (putTransport k c t' m) = Some (tt, m') ->
      forall c', conns m' !! k = Some c' -> idle (transport_ c') ->
      onTcpEvents gni ntop sysOf k POLLIN [b] StopNothing m = Some (tt, m').
Proof.
  intros Hc Hcl Hi. destruct (onReadable_one (sysOf k) b _ (id_state _ Hi) (id_tls _ Hi) (id_recv _ Hi)) as (t' & E & R & Hrest & Hs).
  exists t'. split; [by eapply idle_else|]. split; [done|]. intros m' Hm' c' Hc' Hi'. unfold onTcpEvents.
  rewrite (run_getConn k _ m c Hc), Hcl. change (hasBits POLLIN (Z.lor POLLERR POLLHUP)) with false.
  change (hasBits POLLIN POLLIN) with true. change (hasBits POLLIN POLLOUT) with false. cbn [andb negb when].
  rewrite !run_skip, run_assoc, (run_bind _ _ _ _ _ (run_onTransport k _ m c _ _ Hc E)), run_assoc.
  rewrite (run_getConn k _ _ _ (putTransport_conn k c t' m)).
  change (established_ (c <| transport_ := t' |>)) with (established_ c). rewrite (run_bind _ _ _ _ _ Hm').
  rewrite (run_getConn k _ m' c' Hc'). by rewrite (idle_up _ Hi').
Qed.

(** ** A connection that belongs to an agent *)

Record serves (k a : nat) (peer : AddrRecord) (m : TCPMux) (t : TcpTransport) : Prop := {
  sv_conn : exists c, conns m !! k = Some c /\ closed_ c = false /\ established_ c = true /\ agent_ c = Some a /\
    peer_ c = peer /\ transport_ c = t;
  sv_entry : exists e, agentEntries m !! a = Some e /\ t_onPacket e = true;
  sv_addr : connsByAddr_ m !! addrKey gni ntop peer = Some k }.

Definition addressed (a : nat) (peer : AddrRecord) (ms : list bytes) : list (nat * bytes * AddrRecord) :=
  (fun d => (a, d, peer)) <$> ms.

Lemma run_deliver k a peer m t data :
  serves k a peer m t ->
  deliver k data m = Some (tt, m <| delivered ::= (fun l => l ++ [(a, data, peer)]) |>).
Proof.
  intros [(c & Hc & _ & _ & Ha & Hp & _) (e & He & Ho) _]. unfold deliver.
  rewrite (run_getConn k _ m c Hc), Ha, run_gets. unfold id. by rewrite (run_lift _ _ _ e), Ho, Hp.
Qed.

Lemma serves_delivered k a peer m t l : serves k a peer m t -> serves k a peer (m <| delivered := l |>) t.
Proof. by intros [H1 H2 H3]. Qed.

Lemma run_delivers k a peer t ms m :
  serves k a peer m t ->
  exists m', forM ms (deliver k) m = Some (tt, m') /\ serves k a peer m' t /\ delivered m' = delivered m ++ addressed a peer ms.
Proof.
  revert m. induction ms as [|d ms IH]; intros m Hs; cbn [forM].
  { exists m. by rewrite app_nil_r. }
  rewrite (run_bind _ _ _ _ _ (run_deliver k a peer m t d Hs)).
  destruct (IH (m <| delivered ::= (fun l => l ++ [(a, d, peer)]) |>)) as (m' & E & S' & D'); [by destruct Hs|].
  exists m'. split; [done|]. split; [done|]. rewrite D'. upd. by rewrite <- app_assoc.
Qed.

(** The complete frames in the buffer are delivered. *)
Lemma run_driveData k a peer m t msgs :
  serves k a peer m t -> idle t -> Forall msg_ok msgs -> rest t `prefix_of` stream msgs ->
  exists m' t' ms, driveData k m = Some (tt, m') /\ serves k a peer m' t' /\ idle t' /\ cut msgs ms t t' /\
    delivered m' = delivered m ++ addressed a peer ms.
Proof.
  intros Hs Hi Hok Hp. pose proof Hs as [(c & Hc & Hcl & He & Ha & Hpe & Ht) (e & Hen & Ho) Hk].
  destruct (drive_spec (Datatypes.S (length (recvBuf_ t))) msgs t (id_framing _ Hi) (id_recv _ Hi) Hok Hp) as (ms & t' & E & Hcut).
  { unfold rest. rewrite length_drop. lia. }
  assert (Ed : driveAll (transport_ c) = Some (ms, t')) by (rewrite Ht; unfold driveAll; by run).
  set (m1 := putTransport k c t' m).
  assert (Hs1 : serves k a peer m1 t').
  { split; [|by exists e|done]. exists (c <| transport_ := t' |>). split; [apply putTransport_conn|done]. }
  destruct (run_delivers k a peer t' ms m1 Hs1) as (m2 & E2 & S2 & D2). exists m2, t', ms. split; [|split_and!; try done].
  - unfold driveData. rewrite (run_getConn k _ m c Hc), run_gets. unfold id. rewrite He, Ha. cbn [mbind option_bind].
    rewrite Hen. cbn [from_option andb]. rewrite Ho. by rewrite (run_bind _ _ _ _ _ (run_onTransport k _ m c _ _ Hc Ed)).
  - by eapply idle_else; [|apply Hcut|apply Hcut].
Qed.

(** ** A connection that waits for its first message *)

Record waiting (k : nat) (peer : AddrRecord) (m : TCPMux) (t : TcpTransport) : Prop := {
  wt_conn : exists c, conns m !! k = Some c /\ closed_ c = false /\ established_ c = false /\ peer_ c = peer /\ transport_ c = t;
  wt_pending : k ∈ pendingConns_ m }.

(** The agent the first message names. *)
Record meant (first : bytes) (a : nat) (m : TCPMux) : Prop := {
  me_name : exists u, firstUsername first = Some (Some u) /\ agentsByUfrag_ m !! localUfrag u = Some a;
  me_entry : exists e, agentEntries m !! a = Some e /\ t_onPacket e = true }.

Lemma run_dropRef o k m :
  o <> k \/ referenced m o = true ->
  exists m', dropRef o m = Some (tt, m') /\ conns m' !! k = conns m !! k /\ connsByAddr_ m' = connsByAddr_ m /\
    agentEntries m' = agentEntries m /\ delivered m' = delivered m.
Proof.
  intros Ho. unfold dropRef. rewrite run_gets. unfold id. destruct (referenced m o) eqn:E; [by eexists|].
  destruct Ho as [Ho|]; [|done]. eexists. split; [reflexivity|]. split; [|done]. upd. by rewrite lookup_delete_ne.
Qed.

Lemma run_putConn key k m :
  exists m', putConn key k m = Some (tt, m') /\ conns m' !! k = conns m !! k /\ connsByAddr_ m' !! key = Some k /\
    agentEntries m' = agentEntries m /\ delivered m' = delivered m.
Proof.
  unfold putConn. rewrite run_gets, run_modify. set (m1 := m <| connsByAddr_ ::= <[key := k]> |>).
  assert (Hk : connsByAddr_ m1 !! key = Some k) by (unfold m1; upd; by rewrite lookup_insert_eq).
  destruct (connsByAddr_ m !! key) as [o|]; [|by exists m1].
  destruct (run_dropRef o k m1) as (m' & E & H1 & H2 & H3 & H4).
  - destruct (decide (o = k)) as [->|]; [right|by left]. apply referenced_true. right. right. by exists key.
  - exists m'. rewrite H1, H2, H3, H4. done.
Qed.

Lemma run_established k a peer m t u c :
  conns m !! k = Some c -> closed_ c = false -> peer_ c = peer -> transport_ c = t -> k ∈ pendingConns_ m ->
  agentsByUfrag_ m !! u = Some a -> (exists e, agentEntries m !! a = Some e /\ t_onPacket e = true) ->
  exists m', onConnEstablished gni ntop k u m = Some (tt, m') /\ serves k a peer m' t /\ delivered m' = delivered m.
Proof.
  intros Hc Hcl Hp Ht Hpe Ha He. unfold onConnEstablished. rewrite !run_gets, Ha, bool_decide_true by done. rewrite run_modify.
  set (m1 := m <| pendingConns_ ::= filter (fun p => p <> k) |>).
  assert (Hc1 : conns m1 !! k = Some c) by done.
  rewrite (run_bind _ _ _ _ _ (run_updConn k _ m1 c Hc1)).
  set (c2 := c <| agent_ := Some a |> <| established_ := true |>). set (m2 := m1 <| conns ::= <[k := c2]> |>).
  assert (Hc2 : conns m2 !! k = Some c2) by (unfold m2; upd; by rewrite lookup_insert_eq).
  rewrite (run_getConn k _ m2 c2 Hc2). change (peer_ c2) with (peer_ c). rewrite Hp.
  destruct (run_putConn (addrKey gni ntop peer) k m2) as (m3 & E & H1 & H2 & H3 & H4).
  exists m3. split; [done|]. split; [|done]. split; [|by rewrite H3|done]. exists c2. by rewrite H1.
Qed.

Lemma run_first k a peer m t first tl msgs :
  waiting k peer m t -> idle t -> msg_ok first -> meant first a m -> rest t = framed RFC4571 first ++ tl ->
  Forall msg_ok msgs -> tl `prefix_of` stream msgs ->
  exists m' t' ms msgs', tryReadFirstPacket gni ntop k m = Some (tt, m') /\ serves k a peer m' t' /\ idle t' /\
    msgs = ms ++ msgs' /\ stream ms ++ rest t' = tl /\ rest t' `prefix_of` stream msgs' /\ (rest t' = stream msgs' -> msgs' = []) /\
    delivered m' = delivered m ++ addressed a peer (first :: ms).
Proof.
  intros [(c & Hc & Hcl & He & Hp & Ht) Hpe] Hi Hm [(u & Hu & Ha) Hen] Hrest Hok Htl.
  destruct (recv_frame first tl t (id_framing _ Hi) (id_recv _ Hi) Hm Hrest) as (t1 & E1 & R1 & Q1 & S1).
  rewrite <- Ht in E1. unfold tryReadFirstPacket. rewrite (run_bind _ _ _ _ _ (run_onTransport k _ m c _ _ Hc E1)).
  rewrite (proj2 (Nat.eqb_neq _ _)) by (unfold msg_ok in Hm; lia). rewrite (run_lift _ _ _ _ Hu).
  set (m1 := putTransport k c t1 m). pose proof (putTransport_conn k c t1 m : conns m1 !! k = _) as Hc1.
  set (c1 := c <| transport_ := t1 |>) in *. rewrite (run_bind _ _ _ _ _ (run_updConn k _ m1 c1 Hc1)).
  set (c2 := c1 <| ufrag_ := localUfrag u |>). set (m2 := m1 <| conns ::= <[k := c2]> |>).
  assert (Hc2 : conns m2 !! k = Some c2) by (unfold m2; upd; by rewrite lookup_insert_eq).
  destruct (run_established k a peer m2 t1 (localUfrag u) c2) as (m3 & E3 & S3 & D3); [done|done|done|done|done|done|done|].
  rewrite (run_bind _ _ _ _ _ E3). pose proof S3 as [(c3 & Hc3 & _ & He3 & _) _ _]. rewrite (run_getConn k _ m3 c3 Hc3), He3.
  rewrite (run_bind _ _ _ _ _ (run_deliver k a peer m3 t1 first S3)). set (m4 := m3 <| delivered ::= _ |>).
  assert (S4 : serves k a peer m4 t1) by by destruct S3.
  assert (Hi1 : idle t1) by by eapply idle_else.
  destruct (run_driveData k a peer m4 t1 msgs S4 Hi1 Hok) as (m5 & t5 & ms & E5 & S5 & I5 & [C1 C2 C3 (msgs' & C4 & C5 & C6)] & D5); [by rewrite Q1|].
  exists m5, t5, ms, msgs'. rewrite Q1 in C3. split_and!; try done.
  rewrite D5. unfold m4. upd. rewrite D3, <- app_assoc. done.
Qed.

Lemma run_unfinished k peer m t first tl :
  waiting k peer m t -> idle t -> msg_ok first -> tl <> [] -> rest t ++ tl = framed RFC4571 first ->
  exists m', tryReadFirstPacket gni ntop k m = Some (tt, m') /\ waiting k peer m' t /\ delivered m' = delivered m /\
    agentsByUfrag_ m' = agentsByUfrag_ m /\ agentEntries m' = agentEntries m.
Proof.
  intros [(c & Hc & Hcl & He & Hp & Ht) Hpe] Hi Hm Htl Hrest.
  pose proof (recv_partial first tl t (id_framing _ Hi) (id_recv _ Hi) Hm Htl Hrest) as E. rewrite <- Ht in E.
  exists (putTransport k c (transport_ c) m). unfold tryReadFirstPacket.
  rewrite (run_bind _ _ _ _ _ (run_onTransport k _ m c _ _ Hc E)). split; [done|]. split; [|done].
  split; [|done]. eexists. split; [apply putTransport_conn|]. done.
Qed.

(** ** Readable events *)

Fixpoint feed (k : nat) (chunks : list bytes) : CM unit :=
  match chunks with [] => skip | b :: l => onTcpEvents gni ntop sysOf k POLLIN [b] StopNothing;; feed k l end.

Lemma feed_serves k a peer chunks msgs m t :
  serves k a peer m t -> idle t -> Forall msg_ok msgs -> rest t ++ mjoin chunks `prefix_of` stream msgs ->
  (rest t = stream msgs -> msgs = []) ->
  exists m' t' ms msgs', feed k chunks m = Some (tt, m') /\ serves k a peer m' t' /\ msgs = ms ++ msgs' /\
    delivered m' = delivered m ++ addressed a peer ms /\ (rest t ++ mjoin chunks = stream msgs -> msgs' = []).
Proof.
  revert msgs m t. induction chunks as [|b chunks IH]; intros msgs m t Hs Hi Hok Hp Hnone; cbn [feed].
  { exists m, t, [], msgs. split; [done|]. split; [done|]. split; [done|]. rewrite !app_nil_r. split; [done|exact Hnone]. }
  pose proof Hs as [(c & Hc & Hcl & He & Ha & Hpe & Ht) Hen Hk]. subst t.
  destruct (run_readable k c b m Hc Hcl Hi) as (t1 & I1 & Q1 & Hrun). rewrite He in Hrun.
  change (mjoin (b :: chunks)) with (b ++ mjoin chunks) in *. rewrite app_assoc, <- Q1 in *.
  assert (S1 : serves k a peer (putTransport k c t1 m) t1).
  { split; [|done|done]. exists (c <| transport_ := t1 |>). split; [apply putTransport_conn|done]. }
  destruct (run_driveData k a peer _ t1 msgs S1 I1 Hok) as (m2 & t2 & ms & E2 & S2 & I2 & [C1 C2 C3 (msgs' & -> & C5 & C6)] & D2).
  { etrans; [|exact Hp]. by apply prefix_app_r. }
  pose proof S2 as [(c2 & Hc2 & _ & _ & _ & _ & Ht2) _ _].
  rewrite (run_bind _ _ _ _ _ (Hrun m2 E2 c2 Hc2 ltac:(by rewrite Ht2))).
  apply Forall_app in Hok as [_ Hok]. rewrite <- C3, stream_app, <- app_assoc in Hp |- *. apply prefix_app_inv in Hp.
  destruct (IH msgs' m2 t2 S2 I2 Hok Hp C6) as (m3 & t3 & ms3 & msgs3 & E3 & S3 & -> & D3 & F3).
  exists m3, t3, (ms ++ ms3), msgs3. split; [done|]. split; [done|]. split; [by rewrite app_assoc|]. split.
  - rewrite D3, D2. unfold addressed. by rewrite fmap_app, app_assoc.
  - intros Heq. apply F3. by apply (app_inv_head (stream ms)).
Qed.

Lemma feed_waits k a peer chunks first msgs m t :
  waiting k peer m t -> idle t -> msg_ok first -> meant first a m -> Forall msg_ok msgs ->
  rest t ++ mjoin chunks `prefix_of` stream (first :: msgs) -> (length (rest t) < length (framed RFC4571 first))%nat ->
  exists m' ms msgs', feed k chunks m = Some (tt, m') /\ first :: msgs = ms ++ msgs' /\
    delivered m' = delivered m ++ addressed a peer ms /\ (rest t ++ mjoin chunks = stream (first :: msgs) -> msgs' = []) /\
    (ms <> [] -> connsByAddr_ m' !! addrKey gni ntop peer = Some k).
Proof.
  revert m t. induction chunks as [|b chunks IH]; intros m t Hw Hi Hm Hme Hok Hp Hshort; cbn [feed].
  { exists m, [], (first :: msgs). rewrite app_nil_r. split; [done|]. split; [done|]. rewrite !app_nil_r. split; [done|]. split; [|done].
    intros Heq. exfalso. apply (f_equal length) in Heq. change (stream (first :: msgs)) with (framed RFC4571 first ++ stream msgs) in Heq.
    rewrite length_app in Heq. lia. }
  pose proof Hw as [(c & Hc & Hcl & He & Hpe & Ht) Hpend]. subst t.
  destruct (run_readable k c b m Hc Hcl Hi) as (t1 & I1 & Q1 & Hrun). rewrite He in Hrun.
  change (mjoin (b :: chunks)) with (b ++ mjoin chunks) in *. rewrite app_assoc, <- Q1 in *.
  assert (W1 : waiting k peer (putTransport k c t1 m) t1).
  { split; [|done]. exists (c <| transport_ := t1 |>). split; [apply putTransport_conn|done]. }
  change (stream (first :: msgs)) with (framed RFC4571 first ++ stream msgs) in *.
  destruct (decide (length (rest t1) < length (framed RFC4571 first))%nat) as [Hlt|Hge].
  - assert (Hpart : exists tl, tl <> [] /\ rest t1 ++ tl = framed RFC4571 first).
    { destruct Hp as [x Hx]. rewrite <- app_assoc in Hx. destruct (app_eq_inv _ _ _ _ Hx) as [(tl & H1 & H2)|(tl & H1 & H2)].
      - exists tl. split; [|done]. intros ->. rewrite app_nil_r in H1. rewrite H1 in Hlt. lia.
      - exfalso. rewrite H1, length_app in Hlt. lia. }
    destruct Hpart as (tl & Htl & Htail).
    destruct (run_unfinished k peer _ t1 first tl W1 I1 Hm Htl Htail) as (m2 & E2 & W2 & D2 & U2 & N2).
    pose proof W2 as [(c2 & Hc2 & _ & _ & _ & Ht2) _].
    rewrite (run_bind _ _ _ _ _ (Hrun m2 E2 c2 Hc2 ltac:(by rewrite Ht2))).
    destruct (IH m2 t1 W2 I1 Hm) as (m3 & ms & msgs' & E3 & Hsp & D3 & F3 & K3); [|done|done|done|].
    { destruct Hme as [H1 H2]. split; [by rewrite U2|by rewrite N2]. }
    exists m3, ms, msgs'. rewrite D2 in D3. done.
  - assert (Hfull : exists tl, rest t1 = framed RFC4571 first ++ tl /\ tl ++ mjoin chunks `prefix_of` stream msgs).
    { destruct Hp as [x Hx]. rewrite <- app_assoc in Hx. symmetry in Hx.
      destruct (app_eq_inv _ _ _ _ Hx) as [(tl & H1 & H2)|(tl & H1 & H2)].
      - exists tl. split; [done|]. exists x. rewrite <- app_assoc. by rewrite H2.
      - assert (tl = []) as ->. { destruct tl; [done|]. rewrite H1, length_app in Hge. cbn in Hge. lia. }
        exists []. rewrite app_nil_r in H1. rewrite app_nil_r, H1. split; [done|]. by exists x. }
    destruct Hfull as (tl & Htl & Hpre).
    destruct (run_first k a peer _ t1 first tl msgs W1 I1 Hm) as (m2 & t2 & ms & msgs' & E2 & S2 & I2 & -> & C3 & C5 & C6 & D2); [by destruct Hme|done|done| |].
    { etrans; [|exact Hpre]. by apply prefix_app_r. }
    pose proof S2 as [(c2 & Hc2 & _ & _ & _ & _ & Ht2) _ _].
    rewrite (run_bind _ _ _ _ _ (Hrun m2 E2 c2 Hc2 ltac:(by rewrite Ht2))).
    apply Forall_app in Hok as [_ Hok]. rewrite <- C3, stream_app, <- app_assoc in Hpre. apply prefix_app_inv in Hpre.
    destruct (feed_serves k a peer chunks msgs' m2 t2 S2 I2 Hok Hpre C6) as (m3 & t3 & ms3 & msgs3 & E3 & S3 & -> & D3 & F3).
    exists m3, (first :: ms ++ ms3), msgs3. split; [done|]. split; [cbn; by rewrite app_assoc|]. split.
    + rewrite D3, D2. unfold addressed. cbn. by rewrite fmap_app, <- !app_assoc.
    + split; [|intros _; apply S3]. intros Heq. apply F3. rewrite Htl, <- app_assoc in Heq. apply app_inv_head in Heq.
      rewrite <- C3, stream_app, <- app_assoc in Heq. by apply app_inv_head in Heq.
Qed.

(** A connection that was just accepted. *)
Lemma accepted_waits k fd peer at_ m :
  conns m !! k = Some (newConn fd peer at_) -> k ∈ pendingConns_ m ->
  exists t, waiting k peer m t /\ idle t /\ rest t = [] /\ transport_ (newConn fd peer at_) = t.
Proof.
  intros Hc Hp. exists (transport_ (newConn fd peer at_)). split; [|split; [|done]].
  - split; [|done]. exists (newConn fd peer at_). done.
  - split; [done|done|done|]. exact (Nat.le_0_l _).
Qed.

(** A connection for an unknown agent stops the poll thread.  When the first message of an
    accepted connection is a STUN message with a USERNAME that names no registered agent, which
    any host can send, the event spends two seconds in [sync], waiting for the thread it runs
    on; nothing else is served in that time.  Nothing is delivered, and the connection is given
    up for destruction. *)
Theorem unknown_agent_stalls (k : nat) (fd at_ : Z) (peer : AddrRecord) (m : TCPMux) (first u : bytes) :
  conns m !! k = Some (newConn fd peer at_) -> k ∈ pendingConns_ m ->
  msg_ok first -> firstUsername first = Some (Some u) -> agentsByUfrag_ m !! localUfrag u = None ->
  exists m', onTcpEvents gni ntop sysOf k POLLIN [framed RFC4571 first] StopNothing m = Some (tt, m') /\
    stalledMs m' = 2000 + stalledMs m /\ delivered m' = delivered m /\
    toDestroy_ m' = toDestroy_ m ++ [k] /\ k ∉ participants_ m' /\ k ∉ pendingConns_ m'.
Proof.
  intros Hc Hp Hm Hu Ha. destruct (accepted_waits k fd peer at_ m Hc Hp) as (t & [_ Hpe] & Hi & Hrest & Ht).
  assert (Hi' : idle (transport_ (newConn fd peer at_))) by by rewrite Ht.
  set (c := newConn fd peer at_) in *.
  destruct (run_readable k c (framed RFC4571 first) m Hc eq_refl Hi') as (t1 & I1 & Q1 & Hrun).
  change (established_ c) with false in Hrun. rewrite Ht, Hrest in Q1. cbn [app] in Q1.
  destruct (recv_frame first [] t1 (id_framing _ I1) (id_recv _ I1) Hm) as (t2 & E2 & R2 & Q2 & S2); [by rewrite app_nil_r|].
  set (m1 := putTransport k c t1 m) in *. set (c1 := c <| transport_ := t1 |>).
  assert (Hc1 : conns m1 !! k = Some c1) by apply putTransport_conn.
  set (m2 := putTransport k c1 t2 m1). set (c2 := c1 <| transport_ := t2 |>).
  assert (Hc2 : conns m2 !! k = Some c2) by apply putTransport_conn.
  set (c3 := c2 <| ufrag_ := localUfrag u |>). set (m3 := m2 <| conns ::= <[k := c3]> |>).
  assert (Hc3 : conns m3 !! k = Some c3) by (unfold m3; upd; by rewrite lookup_insert_eq).
  set (m4 := m3 <| pendingConns_ ::= filter (fun p => p <> k) |> <| participants_ ::= filter (fun p => p <> k) |>
                <| stalledMs ::= Z.add (syncLoop 20 (generation_ m) (generation_ m + 1) 0) |>
                <| toDestroy_ ::= (fun l => l ++ [k]) |>).
  assert (Hstall : syncLoop 20 (generation_ m) (generation_ m + 1) 0 = 2000).
  { cbn [syncLoop]. destruct (Z.ltb_spec (generation_ m) (generation_ m + 1)); [done|lia]. }
  exists m4. split.
  - apply (Hrun m4) with (c' := c3).
    + unfold tryReadFirstPacket. rewrite (run_bind _ _ _ _ _ (run_onTransport k _ m1 c1 _ _ Hc1 E2)).
      rewrite (proj2 (Nat.eqb_neq _ _)) by (unfold msg_ok in Hm; lia). rewrite (run_lift _ _ _ _ Hu).
      rewrite (run_bind _ _ _ _ _ (run_updConn k _ m2 c2 Hc2)).
      assert (Eest : onConnEstablished gni ntop k (localUfrag u) m3 = Some (tt, m4)).
      { unfold onConnEstablished. rewrite run_gets. change (agentsByUfrag_ m3) with (agentsByUfrag_ m). rewrite Ha.
        rewrite run_gets, bool_decide_true by done. reflexivity. }
      rewrite (run_bind _ _ _ _ _ Eest). rewrite (run_getConn k _ m4 c3) by done. reflexivity.
    + done.
    + by eapply idle_else.
  - split; [unfold m4; upd; by rewrite Hstall|]. split; [done|]. split; [done|]. unfold m4. upd.
    split; rewrite list_elem_of_filter; by intros [? _].
Qed.
End Theorems.

(** ** A sample multiplexer *)

Definition tcpNames (sa : sockaddr) : option (string * string) :=
  match sa with SockIn p ip => Some (String.concat "." (pretty <$> ip), pretty p) | _ => None end.
Definition tcpPeer : AddrRecord := mkAddrRecord (SockIn 4000 [192; 0; 2; 7]) 16 SOCK_STREAM.

(** A binding request for the agent "ab". *)
Definition tcpHello : bytes :=
  from_option raw [] (encode (addString (mkMessage Method.Binding Request (replicate 12 1) [] []) AttrType.Username [97; 98; 58; 99]) None None None).
Definition tcpReads : list bytes := [framed RFC4571 tcpHello].

Definition tcpStep : TcpMuxEvent -> CM unit := muxEvent tcpNames (fun _ => None) (fun _ => slowSys).
Fixpoint tcpRun (l : list TcpMuxEvent) : CM unit := match l with [] => skip | e :: l => tcpStep e;; tcpRun l end.

(** Two connections of one peer address are accepted; [known]: the agent is registered. *)
Definition tcpOpen (known : bool) : TCPMux :=
  default newTcpMux (snd <$> tcpRun ((if known then [EvRegister [97; 98] true true true] else []) ++
    [EvAccept [(7, tcpPeer); (8, tcpPeer)]]) newTcpMux).

Lemma tcp_mux_runs_witness :
  ((exists k events chunks stop, EvTcp 0 POLLIN tcpReads StopNothing = EvTcp k events chunks stop /\
      conns (tcpOpen true) !! k = None) /\
   tcpStep (EvTcp 0 POLLIN tcpReads StopNothing) (tcpOpen true) = None) \/
  (~ (exists k events chunks stop, EvTcp 0 POLLIN tcpReads StopNothing = EvTcp k events chunks stop /\
      conns (tcpOpen true) !! k = None) /\
   exists m', tcpStep (EvTcp 0 POLLIN tcpReads StopNothing) (tcpOpen true) = Some (tt, m') /\
    (length (pendingConns_ m') <= MaxPendingTcpMuxConns)%nat /\
    (forall k, k ∈ pendingConns_ m' \/ k ∈ toDestroy_ m' \/ mapped m' k \/ k ∈ participants_ m' ->
       is_Some (conns m' !! k)) /\
    (EvTcp 0 POLLIN tcpReads StopNothing = EvBookkeeping -> Forall (young m') (pendingConns_ m'))).
Proof.
  apply (tcp_mux_runs tcpNames (fun _ => None) (fun _ => slowSys) (tcpOpen true) (EvTcp 0 POLLIN tcpReads StopNothing)).
  - intros k. exact slowSys_ok.
  - destruct (tcpStep (EvRegister [97; 98] true true true) newTcpMux) as [[[] m1]|] eqn:E1; [|by vm_compute in E1].
    destruct (tcpStep (EvAccept [(7, tcpPeer); (8, tcpPeer)]) m1) as [[[] m2]|] eqn:E2;
      [|vm_compute in E1; injection E1 as <-; by vm_compute in E2].
    assert (tcpOpen true = m2) as ->.
    { unfold tcpOpen. cbn [app tcpRun]. rewrite (run_bind _ _ _ _ _ E1), (run_bind _ _ _ _ _ E2). reflexivity. }
    eapply (muxReach_step _ _ _ m1 (EvAccept _)); [|exact I|exact E2].
    eapply (muxReach_step _ _ _ _ (EvRegister _ _ _ _)); [apply muxReach_new|exact I|exact E1].
  - constructor; [|constructor]. apply (bool_decide_unpack _). by vm_compute.
Defined.

Lemma unknown_agent_stalls_witness :
  exists m', onTcpEvents tcpNames (fun _ => None) (fun _ => slowSys) 0 POLLIN [framed RFC4571 tcpHello] StopNothing (tcpOpen false) = Some (tt, m') /\
    stalledMs m' = 2000 + stalledMs (tcpOpen false) /\ delivered m' = delivered (tcpOpen false) /\
    toDestroy_ m' = toDestroy_ (tcpOpen false) ++ [0%nat] /\ 0%nat ∉ participants_ m' /\ 0%nat ∉ pendingConns_ m'.
Proof.
  apply (unknown_agent_stalls tcpNames (fun _ => None) (fun _ => slowSys) 0 7 0 tcpPeer (tcpOpen false) tcpHello [97; 98; 58; 99]).
  - by vm_compute.
  - apply (bool_decide_unpack _). by vm_compute.
  - by vm_compute.
  - by vm_compute.
  - by vm_compute.
Defined.

(** A second connection from the same address frees the first while the poll loop holds it.
    Two connections of one remote address and port (to two addresses of this host) are open.
    Each pass that serves one of them is fine; but when both are ready in one pass and the
    second is served before the first, establishing it replaces, and destroys, the first, whose
    slot comes next: the loop then calls a member of a freed object. *)
Theorem second_connection_dangles :
  exists m, tcpRun [EvTcp 0 POLLIN tcpReads StopNothing] (tcpOpen true) = Some (tt, m) /\
    is_Some (pollIteration tcpNames (fun _ => None) (fun _ => slowSys) [SlotConn 1 POLLIN tcpReads StopNothing] m) /\
    is_Some (pollIteration tcpNames (fun _ => None) (fun _ => slowSys) [SlotConn 0 POLLIN [] StopNothing] m) /\
    pollIteration tcpNames (fun _ => None) (fun _ => slowSys)
      [SlotConn 1 POLLIN tcpReads StopNothing; SlotConn 0 POLLIN [] StopNothing] m = None.
Proof.
  exists (default newTcpMux (snd <$> tcpRun [EvTcp 0 POLLIN tcpReads StopNothing] (tcpOpen true))).
  split; [vm_compute; reflexivity|]. split; [vm_compute; by eexists|]. split; [vm_compute; by eexists|]. by vm_compute.
Qed.
