(* ===== verification/CText.v ===== *)
(** * Text: the parts of the C and C++ string libraries the program uses

    A [std::string] or C string of the textual components (candidates, session
    descriptions, rewrite rules, the configuration file) is a list of characters.  The
    functions are those of the standard libraries in the "C" locale.  A conversion of a
    number that does not fit its type is left to the library: the parameter [outOfRange]
    of the conversions gives the value stored then, from the number that was written. *)

From Stdlib Require Import Ascii.
From S2P Require Import Prelude.
Open Scope Z_scope.

Abbreviation text := (list ascii).

(** A string literal. *)
Definition lit (s : string) : text := String.list_ascii_of_string s.
Definition str (t : text) : string := String.string_of_list_ascii t.

Definition code (c : ascii) : Z := Z.of_nat (nat_of_ascii c).
Definition char (n : Z) : ascii := ascii_of_nat (Z.to_nat n).

Definition NUL : ascii := "000".
Definition CR : ascii := "013".
Definition LF : ascii := "010".

(** [isspace]: space, and the five characters from tab to carriage return. *)
Definition isspace (c : ascii) : bool := (code c =? 32) || ((9 <=? code c) && (code c <=? 13)).
Definition isdigit (c : ascii) : bool := (48 <=? code c) && (code c <=? 57).
Definition tolower (c : ascii) : ascii :=
  if (65 <=? code c) && (code c <=? 90) then char (code c + 32) else c.

(** ** Searching and cutting *)

Fixpoint takeWhile (p : ascii -> bool) (s : text) : text :=
  match s with
  | [] => []
  | c :: s => if p c then c :: takeWhile p s else []
  end.

Fixpoint dropWhile (p : ascii -> bool) (s : text) : text :=
  match s with
  | [] => []
  | c :: s' => if p c then dropWhile p s' else s
  end.

(** The characters [c_str] shows to a C function. *)
Definition cstr (s : text) : text := takeWhile (fun c => negb (bool_decide (c = NUL))) s.

(** [s.rfind(p, 0) == 0]. *)
Fixpoint startsWith (p s : text) : bool :=
  match p, s with
  | [], _ => true
  | a :: p, b :: s => bool_decide (a = b) && startsWith p s
  | _ :: _, [] => false
  end.

(** [s.find(p)] for a string or a character. *)
Fixpoint findSub (p s : text) : option nat :=
  if startsWith p s then Some 0%nat
  else match s with
       | [] => None
       | _ :: s => S <$> findSub p s
       end.

Definition findChar (c : ascii) (s : text) : option nat := findSub [c] s.

(** The strings [std::getline] delivers: a final delimiter opens no further line. *)
Fixpoint getlines (delim : ascii) (acc s : text) : list text :=
  match s with
  | [] => match acc with [] => [] | _ => [acc] end
  | c :: s =>
      if bool_decide (c = delim) then acc :: getlines delim [] s
      else getlines delim (acc ++ [c]) s
  end.

Definition lines (delim : ascii) (s : text) : list text := getlines delim [] s.

(** ** Numbers *)

Definition digitChar (d : Z) : ascii := char (48 + d).
Definition digitVal (c : ascii) : Z := code c - 48.

(** Decimal digits of a number below [10 ^ fuel], without leading zeros. *)
Fixpoint decimal (fuel : nat) (n : Z) (acc : text) : text :=
  match fuel with
  | O => acc
  | S fuel =>
      if n <? 10 then digitChar n :: acc
      else decimal fuel (n / 10) (digitChar (n mod 10) :: acc)
  end.

(** [%u] and [%d]; twenty digits are enough for 64 bits. *)
Definition printU (n : Z) : text := decimal 20 n [].
Definition printD (n : Z) : text := if n <? 0 then "-"%char :: printU (- n) else printU n.

Definition readDigits (ds : text) : Z := foldl (fun v c => 10 * v + digitVal c) 0 ds.

(** A sign: is it a minus, and what follows. *)
Definition scanSign (s : text) : bool * text :=
  match s with
  | c :: r => if bool_decide (c = "-"%char) then (true, r)
              else if bool_decide (c = "+"%char) then (false, r) else (false, s)
  | [] => (false, s)
  end.

(** What [strtol] and its relatives recognise: white space, a sign and digits.  The result
    is the signed value and the rest, [None] without a digit. *)
Definition scanInt (s : text) : option (Z * text) :=
  let '(neg, s) := scanSign (dropWhile isspace s) in
  match takeWhile isdigit s with
  | [] => None
  | ds => Some (if neg : bool then - readDigits ds else readDigits ds, dropWhile isdigit s)
  end.

Section Conversions.
Context (outOfRange : Z -> Z).

(** [%d] into an [int]. *)
Definition scanD (s : text) : option (Z * text) :=
  '(v, r) ← scanInt s;
  Some (if (- 2 ^ 31 <=? v) && (v <? 2 ^ 31) then v else outOfRange v, r).

(** [%u] into an [unsigned int]: a sign is accepted, and negation wraps. *)
Definition scanU (s : text) : option (Z * text) :=
  '(v, r) ← scanInt s;
  Some (if Z.abs v <? 2 ^ 32 then u32 v else outOfRange v, r).

(** [atoi]: 0 without a number. *)
Definition atoi (s : text) : Z :=
  match scanD (cstr s) with Some (v, _) => v | None => 0 end.

End Conversions.

(** [%<w>s]: white space, then at most [w] other characters, at least one. *)
Definition scanS (w : nat) (s : text) : option (text * text) :=
  let s := dropWhile isspace s in
  match take w (takeWhile (fun c => negb (isspace c)) s) with
  | [] => None
  | tok => Some (tok, drop (length tok) s)
  end.

(** A literal of a format that has no white space in it. *)
Fixpoint scanLit (p s : text) : option text :=
  match p, s with
  | [], s => Some s
  | a :: p, b :: s => if bool_decide (a = b) then scanLit p s else None
  | _ :: _, [] => None
  end.

(** White space in a format. *)
Definition scanSp (s : text) : text := dropWhile isspace s.

(** ** Trimming *)

Definition trimBy (blank : ascii -> bool) (s : text) : text :=
  rev (dropWhile blank (rev (dropWhile blank s))).

(** ** Lemmas *)

(** A token: characters that are neither white space nor the terminator. *)
Definition tokenChar (c : ascii) : bool := negb (isspace c) && negb (bool_decide (c = NUL)).
Definition token (s : text) : Prop := s <> [] /\ Forall (fun c => tokenChar c = true) s.

Lemma takeWhile_all p s : Forall (fun c => p c = true) s -> takeWhile p s = s.
Proof. induction 1; simpl; [done|]. by rewrite H, IHForall. Qed.

Lemma takeWhile_app p s c r :
  Forall (fun c => p c = true) s -> p c = false -> takeWhile p (s ++ c :: r) = s.
Proof. intros Hs Hc. induction Hs; simpl; [by rewrite Hc|]. by rewrite H, IHHs. Qed.

Lemma dropWhile_app p s c r :
  Forall (fun c => p c = true) s -> p c = false -> dropWhile p (s ++ c :: r) = c :: r.
Proof. intros Hs Hc. induction Hs; simpl; [by rewrite Hc|]. by rewrite H, IHHs. Qed.

Lemma dropWhile_all p s : Forall (fun c => p c = true) s -> dropWhile p s = [].
Proof. induction 1; simpl; [done|]. by rewrite H, IHForall. Qed.

Lemma takeWhile_forall p s : Forall (fun c => p c = true) (takeWhile p s).
Proof. induction s as [|c s IH]; simpl; [done|]. destruct (p c) eqn:E; by constructor. Qed.

Lemma cstr_id s : Forall (fun c => c <> NUL) s -> cstr s = s.
Proof.
  intros H. apply takeWhile_all. eapply Forall_impl; [exact H|].
  intros c Hc. by rewrite bool_decide_eq_false_2.
Qed.

Lemma startsWith_app p s : startsWith p (p ++ s) = true.
Proof. induction p; simpl; [done|]. by rewrite bool_decide_eq_true_2. Qed.

Lemma startsWith_spec p s : startsWith p s = true <-> exists r, s = p ++ r.
Proof.
  split; [|intros [r ->]; apply startsWith_app].
  revert s. induction p as [|a p IH]; intros s H; [by exists s|].
  destruct s as [|b s]; [done|]. simpl in H. apply andb_true_iff in H as [H1 H2].
  apply bool_decide_eq_true in H1 as ->. destruct (IH _ H2) as [r ->]. by exists r.
Qed.

Lemma scanLit_app p s : scanLit p (p ++ s) = Some s.
Proof. induction p; simpl; [done|]. by rewrite bool_decide_eq_true_2. Qed.

(** *** Decimal numbers *)

Lemma code_char n : 0 <= n < 256 -> code (char n) = n.
Proof. intros H. unfold code, char. rewrite nat_ascii_embedding; lia. Qed.

Lemma digit_code d : 0 <= d < 10 -> code (digitChar d) = 48 + d.
Proof. intros H. apply code_char. lia. Qed.

Lemma digitChar_spec d : 0 <= d < 10 -> isdigit (digitChar d) = true /\ digitVal (digitChar d) = d.
Proof.
  intros H. unfold isdigit, digitVal. rewrite digit_code by done.
  split; [|lia]. apply andb_true_iff. split; apply Z.leb_le; lia.
Qed.

(** [readDigits] from any accumulator. *)
Lemma readDigits_app v ds :
  foldl (fun v c => 10 * v + digitVal c) v ds = v * 10 ^ Z.of_nat (length ds) + readDigits ds.
Proof.
  unfold readDigits. revert v. induction ds as [|d ds IH]; intros v; simpl foldl; [simpl; lia|].
  rewrite IH, (IH (10 * 0 + _)). cbn [length]. rewrite Nat2Z.inj_succ, Z.pow_succ_r by lia. lia.
Qed.

Lemma decimal_spec fuel n acc :
  0 <= n < 10 ^ Z.of_nat fuel -> (0 < fuel)%nat ->
  exists ds, decimal fuel n acc = ds ++ acc /\ ds <> [] /\
    Forall (fun c => isdigit c = true) ds /\ readDigits ds = n /\ (length ds <= fuel)%nat.
Proof.
  revert n acc. induction fuel as [|fuel IH]; intros n acc Hn Hf; [lia|]. simpl decimal.
  destruct (Z.ltb_spec n 10).
  - destruct (digitChar_spec n) as [H1 H2]; [lia|].
    exists [digitChar n]. repeat split; try done; try (by repeat constructor); simpl; try lia.
  - rewrite Nat2Z.inj_succ, Z.pow_succ_r in Hn by lia.
    destruct fuel as [|fuel']; [simpl in Hn; lia|].
    destruct (IH (n / 10) (digitChar (n mod 10) :: acc)) as (ds & E & Hne & Hd & Hr & Hl);
      [split; [lia|]; apply Z.div_lt_upper_bound; lia|lia|].
    destruct (digitChar_spec (n mod 10)) as [H1 H2]; [lia|].
    exists (ds ++ [digitChar (n mod 10)]).
    split; [by rewrite E, <- app_assoc|]. split; [by destruct ds|].
    split; [apply Forall_app; split; [done|by repeat constructor]|].
    split; [|rewrite length_app; simpl; lia].
    unfold readDigits. rewrite foldl_app. simpl. fold (readDigits ds). rewrite Hr, H2. lia.
Qed.

Lemma printU_spec n :
  0 <= n < 10 ^ 20 ->
  printU n <> [] /\ Forall (fun c => isdigit c = true) (printU n) /\ readDigits (printU n) = n /\
  (length (printU n) <= 20)%nat.
Proof.
  intros H. destruct (decimal_spec 20 n []) as (ds & E & ?); [lia|lia|].
  unfold printU. rewrite E, app_nil_r. tauto.
Qed.

Lemma digit_tokenChar c : isdigit c = true -> tokenChar c = true /\ isspace c = false.
Proof.
  unfold isdigit, tokenChar, isspace. intros H. apply andb_true_iff in H as [H1 H2].
  apply Z.leb_le in H1, H2.
  assert (E : (code c =? 32) || ((9 <=? code c) && (code c <=? 13)) = false).
  { apply orb_false_iff. split; [apply Z.eqb_neq; lia|].
    apply andb_false_iff. right. apply Z.leb_gt. lia. }
  rewrite E. split; [|done]. simpl. rewrite bool_decide_eq_false_2; [done|].
  intros ->. vm_compute in H1. by apply H1.
Qed.

(** *** Scanning printed values *)

(** What follows a token on a line: a blank or the end. *)
Definition blankEnd (s : text) : Prop :=
  match s with [] => True | c :: _ => isspace c = true end.

Lemma token_head s : token s -> exists c r, s = c :: r /\ isspace c = false.
Proof.
  intros [Hne H]. destruct s as [|c r]; [done|]. inversion_clear H.
  exists c, r. split; [done|]. unfold tokenChar in H0. by destruct (isspace c).
Qed.

Lemma scanS_token w tok r :
  token tok -> (length tok <= w)%nat -> blankEnd r -> scanS w (tok ++ r) = Some (tok, r).
Proof.
  intros Ht Hl Hr. destruct (token_head tok Ht) as (c & t & -> & Hc). unfold scanS.
  replace (dropWhile isspace ((c :: t) ++ r)) with ((c :: t) ++ r) by (simpl; by rewrite Hc).
  assert (E : takeWhile (fun c => negb (isspace c)) ((c :: t) ++ r) = c :: t).
  { assert (Hf : Forall (fun c => negb (isspace c) = true) (c :: t)).
    { eapply Forall_impl; [exact (proj2 Ht)|]. intros x. unfold tokenChar. by destruct (isspace x). }
    destruct r as [|b r]; [rewrite app_nil_r; by apply takeWhile_all|].
    apply takeWhile_app; [done|]. simpl in Hr. by rewrite Hr. }
  rewrite E, take_ge by done.
  by rewrite drop_app_length'.
Qed.

Lemma scanS_sp w s : scanS w (" "%char :: s) = scanS w s.
Proof. done. Qed.

Lemma digits_split ds r :
  Forall (fun c => isdigit c = true) ds -> blankEnd r ->
  takeWhile isdigit (ds ++ r) = ds /\ dropWhile isdigit (ds ++ r) = r.
Proof.
  intros Hd Hr. destruct r as [|b r].
  - by rewrite app_nil_r, takeWhile_all, dropWhile_all.
  - assert (isdigit b = false).
    { destruct (isdigit b) eqn:E; [|done]. destruct (digit_tokenChar b E). simpl in Hr. congruence. }
    by rewrite takeWhile_app, dropWhile_app.
Qed.

Lemma scanSign_digit c s : isdigit c = true -> scanSign (c :: s) = (false, c :: s).
Proof.
  intros H. unfold scanSign. rewrite !bool_decide_eq_false_2; [done| |]; by intros ->.
Qed.

Lemma scanInt_digits ds r :
  ds <> [] -> Forall (fun c => isdigit c = true) ds -> blankEnd r ->
  scanInt (ds ++ r) = Some (readDigits ds, r).
Proof.
  intros Hne Hd Hr. destruct (digits_split ds r Hd Hr) as [E1 E2].
  destruct ds as [|c ds]; [done|].
  pose proof (Forall_inv Hd) as Hc. destruct (digit_tokenChar c Hc) as [_ Hs].
  unfold scanInt. rewrite <- app_comm_cons in *. cbn [dropWhile]. rewrite Hs, scanSign_digit by done.
  by rewrite E1, E2.
Qed.

Lemma scanInt_neg ds r :
  ds <> [] -> Forall (fun c => isdigit c = true) ds -> blankEnd r ->
  scanInt ("-"%char :: ds ++ r) = Some (- readDigits ds, r).
Proof.
  intros Hne Hd Hr. destruct (digits_split ds r Hd Hr) as [E1 E2].
  destruct ds as [|c ds]; [done|]. unfold scanInt.
  change (dropWhile isspace ("-"%char :: (c :: ds) ++ r)) with ("-"%char :: (c :: ds) ++ r).
  change (scanSign ("-"%char :: (c :: ds) ++ r)) with (true, (c :: ds) ++ r). cbv beta iota.
  by rewrite E1, E2.
Qed.

Lemma scanU_print oor n r : fits 32 n -> blankEnd r -> scanU oor (printU n ++ r) = Some (n, r).
Proof.
  intros Hn Hr. destruct (printU_spec n) as (H1 & H2 & H3 & _); [width|].
  unfold scanU. rewrite scanInt_digits by done. simpl. rewrite H3.
  rewrite (proj2 (Z.ltb_lt _ _)) by width. by rewrite wrap_id.
Qed.

Lemma scanD_print oor n r :
  - 2 ^ 31 <= n < 2 ^ 31 -> blankEnd r -> scanD oor (printD n ++ r) = Some (n, r).
Proof.
  intros Hn Hr. unfold scanD, printD. destruct (Z.ltb_spec n 0).
  - destruct (printU_spec (- n)) as (H1 & H2 & H3 & _); [lia|].
    rewrite <- app_comm_cons, scanInt_neg by done. simpl. rewrite H3, Z.opp_involutive.
    by rewrite (proj2 (Z.leb_le _ _)), (proj2 (Z.ltb_lt _ _)) by lia.
  - destruct (printU_spec n) as (H1 & H2 & H3 & _); [lia|].
    rewrite scanInt_digits by done. simpl. rewrite H3.
    by rewrite (proj2 (Z.leb_le _ _)), (proj2 (Z.ltb_lt _ _)) by lia.
Qed.

Lemma scanD_sp oor s : scanD oor (" "%char :: s) = scanD oor s.
Proof. done. Qed.

Lemma scanU_sp oor s : scanU oor (" "%char :: s) = scanU oor s.
Proof. done. Qed.

Lemma dropWhile_idemp p s : dropWhile p (dropWhile p s) = dropWhile p s.
Proof. induction s as [|c s IH]; simpl; [done|]. destruct (p c) eqn:E; [done|]. simpl. by rewrite E. Qed.

Lemma scanS_scanSp w s : scanS w (scanSp s) = scanS w s.
Proof. unfold scanS, scanSp. by rewrite dropWhile_idemp. Qed.

Lemma scanD_scanSp oor s : scanD oor (scanSp s) = scanD oor s.
Proof. unfold scanD, scanInt, scanSp. by rewrite dropWhile_idemp. Qed.

Lemma scanU_scanSp oor s : scanU oor (scanSp s) = scanU oor s.
Proof. unfold scanU, scanInt, scanSp. by rewrite dropWhile_idemp. Qed.

(** *** Searching for a word that ends in a separator *)

Lemma split_at_first (x : ascii) a b r r' :
  x ∉ a -> x ∉ b -> a ++ x :: r = b ++ x :: r' -> a = b /\ r = r'.
Proof.
  revert b. induction a as [|c a IH]; intros [|d b] Ha Hb E; simpl in E; simplify_eq; try done.
  - exfalso. apply Hb. set_solver.
  - exfalso. apply Ha. set_solver.
  - destruct (IH b) as [-> ->]; [set_solver..|done|done].
Qed.

Lemma findSub_skip (x : ascii) w tok r :
  x ∉ w -> x ∉ tok -> ~ w `suffix_of` tok ->
  findSub (w ++ [x]) (tok ++ x :: r) = (fun n => S (length tok) + n)%nat <$> findSub (w ++ [x]) r.
Proof.
  intros Hw Ht Hs. assert (Hno : forall tok', tok' `suffix_of` tok ->
    startsWith (w ++ [x]) (tok' ++ x :: r) = false).
  { intros tok' Hsuf. destruct (startsWith (w ++ [x]) (tok' ++ x :: r)) eqn:E; [|done].
    apply startsWith_spec in E as [r' E]. rewrite <- app_assoc in E. simpl in E.
    apply split_at_first in E as [-> _]; [done| |done].
    destruct Hsuf as [k ->]. set_solver. }
  clear Hs. induction tok as [|c tok IH].
  - cbn [app findSub length]. pose proof (Hno [] (suffix_nil _)) as E. cbn [app] in E. rewrite E.
    by destruct (findSub (w ++ [x]) r).
  - cbn [app findSub length]. pose proof (Hno (c :: tok) (reflexivity _)) as E.
    cbn [app] in E. rewrite E, IH.
    + by destruct (findSub (w ++ [x]) r).
    + set_solver.
    + intros tok' Hsuf. apply Hno. by apply suffix_cons_r.
Qed.

Lemma digits_no_suffix w tok :
  Exists (fun c => isdigit c = false /\ c <> "-"%char) w ->
  Forall (fun c => isdigit c = true \/ c = "-"%char) tok -> ~ w `suffix_of` tok.
Proof.
  intros Hw Ht [k ->]. apply Forall_app in Ht as [_ Ht]. apply Exists_exists in Hw as (c & Hc & H1 & H2).
  rewrite Forall_forall in Ht. destruct (Ht c Hc); congruence.
Qed.

Lemma printD_chars n :
  - 2 ^ 31 <= n < 2 ^ 31 -> Forall (fun c => isdigit c = true \/ c = "-"%char) (printD n) /\
  (length (printD n) <= 21)%nat.
Proof.
  intros H. unfold printD. case_match.
  - destruct (printU_spec (- n)) as (_ & H1 & _ & H2); [lia|]. split; [|simpl; lia].
    constructor; [by right|]. eapply Forall_impl; [exact H1|]. auto.
  - destruct (printU_spec n) as (_ & H1 & _ & H2); [lia|]. split; [|lia].
    eapply Forall_impl; [exact H1|]. auto.
Qed.

Lemma token_no_space tok : Forall (fun c => tokenChar c = true) tok -> " "%char ∉ tok.
Proof. intros H Hin. rewrite Forall_forall in H. by specialize (H _ Hin). Qed.

Lemma token_no_NUL tok : Forall (fun c => tokenChar c = true) tok -> Forall (fun c => c <> NUL) tok.
Proof. intros H. eapply Forall_impl; [exact H|]. intros c Hc ->. done. Qed.

Lemma number_tokenChars tok :
  Forall (fun c => isdigit c = true \/ c = "-"%char) tok -> Forall (fun c => tokenChar c = true) tok.
Proof.
  intros H. eapply Forall_impl; [exact H|]. intros c [Hc| ->]; [|done]. by apply digit_tokenChar.
Qed.
