(* ===== verification/IceServers.v ===== *)
(** * The agent's server lists

    The part of ice/agent.cpp that keeps the STUN and TURN servers: loading them from the
    configuration, [addTurnServer], [addStunServer] and [addIceServer] with its URL parser,
    and the copy made of a server that is left for the TCP phase.  The strings of a server
    live in deques that the structures point into: a pointer is the position of its element,
    and reading a server goes through the deque, so the model would show a dangling or an
    overwritten string. *)

From Stdlib Require Import Ascii.
From S2P Require Import Prelude.
From S2P Require Import CText.
Open Scope Z_scope.
Open Scope c_scope.

Definition ERR_SUCCESS : Z := 0.
Definition ERR_INVALID : Z := -1.
Definition ERR_TOO_LARGE : Z := -6.

Inductive stice_turn_transport := TRANSPORT_UDP | TRANSPORT_TCP | TRANSPORT_TLS.

#[export] Instance stice_turn_transport_eq_dec : EqDecision stice_turn_transport.
Proof. solve_decision. Defined.

(** [stice_turn_server_t]; [P] is a [const char *], which may be null. *)
Record stice_turn_server (P : Type) := mkTurn {
  ts_host : option P; ts_username : option P; ts_password : option P; ts_port : Z;
  ts_transport : stice_turn_transport; ts_skip_tls_verify : Z; ts_ca_file : option P }.
Arguments mkTurn {_}. Arguments ts_host {_}. Arguments ts_username {_}. Arguments ts_password {_}.
Arguments ts_port {_}. Arguments ts_transport {_}. Arguments ts_skip_tls_verify {_}. Arguments ts_ca_file {_}.

(** The strings as a caller passes them, and as positions in the agent's storage. *)
Abbreviation CallerServer := (stice_turn_server text).
Abbreviation StoredServer := (stice_turn_server nat).

(** [StunServerEntry]. *)
Record StunServerEntry := mkStun { ss_host : text; ss_port : Z }.

#[export] Instance StunServerEntry_eq_dec : EqDecision StunServerEntry.
Proof. solve_decision. Defined.

(** The four deques, the two lists, and [config_.turn_servers_count]. *)
Record Servers := mkServers {
  hostStorage : list text; userStorage : list text; passStorage : list text; caStorage : list text;
  turnServersInternal_ : list StoredServer; turn_servers_count : Z;
  stunServersInternal_ : list StunServerEntry }.

#[export] Instance Servers_fields : RecordFields Servers := fun s =>
  mkServers (hostStorage s) (userStorage s) (passStorage s) (caStorage s) (turnServersInternal_ s)
    (turn_servers_count s) (stunServersInternal_ s).

Definition noServers (count : Z) : Servers := mkServers [] [] [] [] [] count [].

(** [if (p) { storage.emplace_back(p); q = storage.back().c_str(); }]. *)
Definition store (storage : list text) (p : option text) : list text * option nat :=
  match p with
  | Some t => (storage ++ [t], Some (length storage))
  | None => (storage, None)
  end.

(** The deep copy of one server; a pointer that is null stays null. *)
Definition storeServer (srv : CallerServer) (s : Servers) : Servers * StoredServer :=
  let '(hs, h) := store (hostStorage s) (ts_host srv) in
  let '(us, u) := store (userStorage s) (ts_username srv) in
  let '(ps, p) := store (passStorage s) (ts_password srv) in
  let '(cs, c) := store (caStorage s) (ts_ca_file srv) in
  (mkServers hs us ps cs (turnServersInternal_ s) (turn_servers_count s) (stunServersInternal_ s),
   mkTurn h u p (ts_port srv) (ts_transport srv) (ts_skip_tls_verify srv) c).

Definition pushTurn (srv : CallerServer) (s : Servers) : Servers :=
  let '(s, ts) := storeServer srv s in s <| turnServersInternal_ ::= fun l => l ++ [ts] |>.

(** [config_.turn_servers_count = static_cast<int>(turnServersInternal_.size())]. *)
Definition publishTurn (s : Servers) : Servers :=
  s <| turn_servers_count := Z.of_nat (length (turnServersInternal_ s)) |>.

Definition pushStun (host : text) (port : Z) (s : Servers) : Servers :=
  s <| stunServersInternal_ ::= fun l => l ++ [mkStun host port] |>.

Definition orDefault (port : Z) : Z := if port =? 0 then 3478 else port.

(** ** The configuration *)

(** The fields [init] reads.  [stun_servers] and [turn_servers] are [None] for a null array;
    the port array is as long as the server array. *)
Record ServerConfig := mkServerConfig {
  stun_servers : option (list (option text)); stun_server_ports : option (list Z);
  stun_server_host : option text; stun_server_port : Z;
  turn_servers : option (list CallerServer) }.

(** The port of entry [i]. *)
Definition stunPort (cfg : ServerConfig) (i : nat) : Z :=
  orDefault match stun_server_ports cfg with
            | Some ports => nth i ports 0
            | None => orDefault (stun_server_port cfg)
            end.

Definition loadStun (cfg : ServerConfig) (s : Servers) : Servers :=
  match stun_servers cfg, stun_server_host cfg with
  | Some (h :: l), _ =>
      foldl (fun s '(i, host) => match host with Some host => pushStun host (stunPort cfg i) s | None => s end)
        s (imap pair (h :: l))
  | _, Some host => pushStun host (orDefault (stun_server_port cfg)) s
  | _, None => s
  end.

Definition loadTurn (cfg : ServerConfig) (s : Servers) : Servers :=
  foldl (fun s srv => pushTurn srv s) s (default [] (turn_servers cfg)).

Definition initServers (cfg : ServerConfig) : Servers :=
  loadTurn cfg (loadStun cfg (noServers (Z.of_nat (length (default [] (turn_servers cfg)))))).

(** ** Adding servers *)

Definition addTurnServer (srv : CallerServer) (s : Servers) : Z * Servers :=
  if turn_servers_count s >=? 8 then (ERR_TOO_LARGE, s)
  else (ERR_SUCCESS, publishTurn (pushTurn srv s)).

Definition addStunServer (host : option text) (port : Z) (s : Servers) : Z * Servers :=
  match host with
  | None => (ERR_INVALID, s)
  | Some host =>
      if (8 <=? length (stunServersInternal_ s))%nat then (ERR_TOO_LARGE, s)
      else (ERR_SUCCESS, pushStun host (orDefault port) s)
  end.

(** ** URLs *)

(** [std::stoul], narrowed to 16 bits; an exception and 0 give the default. *)
Definition portNumber (ds : text) : Z :=
  let n := readDigits ds in
  orDefault (if n <? 2 ^ 64 then u16 n else 3478).

Definition isNumeric (s : text) : bool := negb (length s =? 0)%nat && forallb isdigit s.

(** Host and port of what is left of the URL; [None] is [STICE_ERR_INVALID]. *)
Definition splitHost (rest : text) : option (text * Z) :=
  match rest with
  | "["%char :: _ =>
      close ← findChar "]" rest;
      let host := take (close - 1) (drop 1 rest) in
      if (close + 1 <? length rest)%nat then
        c ← rest !! (close + 1)%nat;
        if negb (bool_decide (c = ":"%char)) then None else
        let maybePort := drop (close + 2) rest in
        Some (host, if isNumeric maybePort then portNumber maybePort else 3478)
      else Some (host, 3478)
  | _ =>
      if (length (filter (fun c => c = ":"%char) rest) =? 1)%nat then
        colon ← findChar ":" rest;
        let maybePort := drop (S colon) rest in
        if isNumeric maybePort then Some (take colon rest, portNumber maybePort) else Some (rest, 3478)
      else Some (rest, 3478)
  end.

(** A parsed URL. *)
Record IceUrl := mkUrl { u_scheme : text; u_host : text; u_port : Z; u_transport : stice_turn_transport }.

Definition parseUrl (s : text) : option IceUrl :=
  colonPos ← findChar ":" s;
  let scheme := take colonPos s in
  let rest := drop (S colonPos) s in
  let rest := if startsWith (lit "//") rest then drop 2 rest else rest in
  let '(query, rest) := match findChar "?" rest with
                        | Some q => (drop (S q) rest, take q rest)
                        | None => ([], rest)
                        end in
  let tcp := bool_decide (is_Some (findSub (lit "transport=tcp") query)) ||
             bool_decide (is_Some (findSub (lit "transport=TCP") query)) in
  '(host, port) ← splitHost rest;
  if (length host =? 0)%nat then None else
  if negb (bool_decide (scheme = lit "turn")) && negb (bool_decide (scheme = lit "turns")) &&
     negb (bool_decide (scheme = lit "stun")) then None else
  Some (mkUrl scheme host port (if tcp then TRANSPORT_TCP else TRANSPORT_UDP)).

Definition isTurn (u : IceUrl) : bool :=
  bool_decide (u_scheme u = lit "turn") || bool_decide (u_scheme u = lit "turns").

(** The server of a turn or turns URL. *)
Definition urlServer (u : IceUrl) (username password : option text) : CallerServer :=
  mkTurn (Some (u_host u)) username password (u_port u)
    (if bool_decide (u_scheme u = lit "turns") then TRANSPORT_TLS else u_transport u) 0 None.

(** The STUN entry, unless it is there already. *)
Definition addUrlStun (u : IceUrl) (s : Servers) : Z * Servers :=
  if existsb (fun e => (ss_port e =? u_port u) && bool_decide (ss_host e = u_host u)) (stunServersInternal_ s)
  then (ERR_SUCCESS, s)
  else if (8 <=? length (stunServersInternal_ s))%nat then (ERR_TOO_LARGE, s)
  else (ERR_SUCCESS, pushStun (u_host u) (u_port u) s).

Definition addIceServer (url : option text) (username password : option text) (s : Servers) : Z * Servers :=
  match url with
  | None => (ERR_INVALID, s)
  | Some url =>
      match parseUrl url with
      | None => (ERR_INVALID, s)
      | Some u =>
          if isTurn u then
            if (8 <=? length (turnServersInternal_ s))%nat then (ERR_TOO_LARGE, s)
            else addUrlStun u (publishTurn (pushTurn (urlServer u username password) s))
          else addUrlStun u s
      end
  end.

(** ** Reading a server *)

(** A string through its pointer; [None] inside is a pointer outside the storage. *)
Definition deref (storage : list text) (p : option nat) : option (option text) :=
  match p with None => Some None | Some i => Some <$> storage !! i end.

Definition readServer (s : Servers) (ts : StoredServer) : option CallerServer :=
  h ← deref (hostStorage s) (ts_host ts);
  u ← deref (userStorage s) (ts_username ts);
  p ← deref (passStorage s) (ts_password ts);
  c ← deref (caStorage s) (ts_ca_file ts);
  Some (mkTurn h u p (ts_port ts) (ts_transport ts) (ts_skip_tls_verify ts) c).

(** The copy of a TCP or TLS server that [gatherCandidates] keeps for later. *)
Definition deferServer (srv : CallerServer) : CallerServer :=
  mkTurn (ts_host srv) (ts_username srv) (ts_password srv) (ts_port srv) (ts_transport srv) 0 None.

(** ** The lists by value *)

(** What a user of the agent thinks of: servers and entries, with no storage behind them. *)
Record Lists := mkLists { aturn : list CallerServer; astun : list StunServerEntry }.

Definition ainit (cfg : ServerConfig) : Lists :=
  mkLists (default [] (turn_servers cfg))
    match stun_servers cfg, stun_server_host cfg with
    | Some (h :: l), _ => omap (fun '(i, host) => (fun host => mkStun host (stunPort cfg i)) <$> host) (imap pair (h :: l))
    | _, Some host => [mkStun host (orDefault (stun_server_port cfg))]
    | _, None => []
    end.

Definition aStun (e : StunServerEntry) (a : Lists) : Z * Lists :=
  if (8 <=? length (astun a))%nat then (ERR_TOO_LARGE, a) else (ERR_SUCCESS, mkLists (aturn a) (astun a ++ [e])).

Definition aTurn (srv : CallerServer) (a : Lists) : Z * Lists :=
  if (8 <=? length (aturn a))%nat then (ERR_TOO_LARGE, a) else (ERR_SUCCESS, mkLists (aturn a ++ [srv]) (astun a)).

(** The calls. *)
Inductive Call :=
| AddTurn (srv : CallerServer)
| AddStun (host : option text) (port : Z)
| AddIce (url username password : option text).

Definition run (c : Call) (s : Servers) : Z * Servers :=
  match c with
  | AddTurn srv => addTurnServer srv s
  | AddStun host port => addStunServer host port s
  | AddIce url u p => addIceServer url u p s
  end.

(** A URL: the relay first, then the STUN entry if it is new. *)
Definition aUrlStun (u : IceUrl) (a : Lists) : Z * Lists :=
  if bool_decide (mkStun (u_host u) (u_port u) ∈ astun a) then (ERR_SUCCESS, a)
  else aStun (mkStun (u_host u) (u_port u)) a.

Definition arun (c : Call) (a : Lists) : Z * Lists :=
  match c with
  | AddTurn srv => aTurn srv a
  | AddStun None _ => (ERR_INVALID, a)
  | AddStun (Some host) port => aStun (mkStun host (orDefault port)) a
  | AddIce url user pass =>
      match url ≫= parseUrl with
      | None => (ERR_INVALID, a)
      | Some u =>
          if isTurn u then
            let '(r, a) := aTurn (urlServer u user pass) a in
            if r =? ERR_SUCCESS then aUrlStun u a else (r, a)
          else aUrlStun u a
      end
  end.

Definition runAll (cs : list Call) (s : Servers) : list Z * Servers :=
  foldl (fun '(rs, s) c => let '(r, s) := run c s in (rs ++ [r], s)) ([], s) cs.
Definition arunAll (cs : list Call) (a : Lists) : list Z * Lists :=
  foldl (fun '(rs, a) c => let '(r, a) := arun c a in (rs ++ [r], a)) ([], a) cs.

(** Every pointer of [s] leads to the string [a] has in its place. *)
Record implements (s : Servers) (a : Lists) : Prop := {
  im_turn : mapM (readServer s) (turnServersInternal_ s) = Some (aturn a);
  im_stun : stunServersInternal_ s = astun a;
  im_count : turn_servers_count s = Z.of_nat (length (aturn a));
}.

Lemma store_grows l p : exists k, (store l p).1 = l ++ k.
Proof. destruct p as [t|]; [by exists [t] | exists []; by rewrite app_nil_r]. Qed.

Lemma deref_store l p : deref (store l p).1 (store l p).2 = Some p.
Proof. destruct p as [t|]; [|done]. cbn. by rewrite list_lookup_middle. Qed.

Lemma deref_grow l k p v : deref l p = Some v -> deref (l ++ k) p = Some v.
Proof.
  destruct p as [i|]; cbn; [|done]. destruct (l !! i) as [t|] eqn:E; [|done].
  by rewrite (lookup_app_l_Some _ _ _ _ E).
Qed.

(** Storage that only grows at its end keeps what is read through the old pointers. *)
Lemma readServer_grow s s' h u p c ts srv :
  hostStorage s' = hostStorage s ++ h -> userStorage s' = userStorage s ++ u ->
  passStorage s' = passStorage s ++ p -> caStorage s' = caStorage s ++ c ->
  readServer s ts = Some srv -> readServer s' ts = Some srv.
Proof.
  intros Hh Hu Hp Hc. unfold readServer. rewrite Hh, Hu, Hp, Hc.
  destruct (deref (hostStorage s) _) as [v1|] eqn:E1; [|done]. rewrite (deref_grow _ h _ _ E1). cbn [mbind option_bind].
  destruct (deref (userStorage s) _) as [v2|] eqn:E2; [|done]. rewrite (deref_grow _ u _ _ E2). cbn [mbind option_bind].
  destruct (deref (passStorage s) _) as [v3|] eqn:E3; [|done]. rewrite (deref_grow _ p _ _ E3). cbn [mbind option_bind].
  destruct (deref (caStorage s) _) as [v4|] eqn:E4; [|done]. by rewrite (deref_grow _ c _ _ E4).
Qed.

Lemma storeServer_read srv s :
  readServer (storeServer srv s).1 (storeServer srv s).2 = Some srv /\
  (forall ts v, readServer s ts = Some v -> readServer (storeServer srv s).1 ts = Some v) /\
  turnServersInternal_ (storeServer srv s).1 = turnServersInternal_ s /\
  stunServersInternal_ (storeServer srv s).1 = stunServersInternal_ s.
Proof.
  unfold storeServer.
  pose proof (deref_store (hostStorage s) (ts_host srv)) as D1. destruct (store_grows (hostStorage s) (ts_host srv)) as [k1 G1].
  pose proof (deref_store (userStorage s) (ts_username srv)) as D2. destruct (store_grows (userStorage s) (ts_username srv)) as [k2 G2].
  pose proof (deref_store (passStorage s) (ts_password srv)) as D3. destruct (store_grows (passStorage s) (ts_password srv)) as [k3 G3].
  pose proof (deref_store (caStorage s) (ts_ca_file srv)) as D4. destruct (store_grows (caStorage s) (ts_ca_file srv)) as [k4 G4].
  destruct (store (hostStorage s) _), (store (userStorage s) _), (store (passStorage s) _), (store (caStorage s) _).
  cbn [fst snd] in *. split; [|split; [|done]].
  - unfold readServer. cbn [hostStorage userStorage passStorage caStorage ts_host ts_username ts_password ts_ca_file].
    rewrite D1, D2, D3, D4. by destruct srv.
  - intros ts v. by apply (readServer_grow s _ k1 k2 k3 k4).
Qed.

(** A server is pushed on both sides; the count is the new length or still the old one. *)
Lemma pushTurn_reads srv s l :
  mapM (readServer s) (turnServersInternal_ s) = Some l ->
  mapM (readServer (pushTurn srv s)) (turnServersInternal_ (pushTurn srv s)) = Some (l ++ [srv]) /\
  stunServersInternal_ (pushTurn srv s) = stunServersInternal_ s /\
  turn_servers_count (pushTurn srv s) = turn_servers_count s.
Proof.
  intros Hl. destruct (storeServer_read srv s) as (R1 & R2 & R3 & R4).
  assert (Hc : turn_servers_count (storeServer srv s).1 = turn_servers_count s)
    by (unfold storeServer; by repeat destruct (store _ _)).
  unfold pushTurn. destruct (storeServer srv s) as [s1 ts]. cbn [fst snd] in *. upd. split; [|done].
  rewrite R3. apply mapM_Some, Forall2_app.
  - apply mapM_Some in Hl. eapply Forall2_impl; [exact Hl|]. intros x y Hx. cbn in Hx. apply (R2 _ _ Hx).
  - by repeat constructor.
Qed.

Lemma turn_length s a : implements s a -> length (turnServersInternal_ s) = length (aturn a).
Proof. intros [H _ _]. apply mapM_Some in H. by apply Forall2_length in H. Qed.

Lemma implements_turn srv s a :
  implements s a -> implements (publishTurn (pushTurn srv s)) (mkLists (aturn a ++ [srv]) (astun a)).
Proof.
  intros [H1 H2 H3]. destruct (pushTurn_reads srv s _ H1) as (P1 & P2 & _). constructor.
  - exact P1.
  - by rewrite <- H2, <- P2.
  - unfold publishTurn. upd. apply mapM_Some, Forall2_length in P1. by rewrite P1.
Qed.

Lemma implements_stun h p s a :
  implements s a -> implements (pushStun h p s) (mkLists (aturn a) (astun a ++ [mkStun h p])).
Proof. intros [H1 H2 H3]. constructor; [exact H1| |exact H3]. unfold pushStun. upd. by rewrite H2. Qed.

(** A concrete and an abstract step agree. *)
Definition agree (x : Z * Servers) (y : Z * Lists) : Prop := x.1 = y.1 /\ implements x.2 y.2.

Lemma agree_stun h p s a :
  implements s a ->
  agree (if (8 <=? length (stunServersInternal_ s))%nat then (ERR_TOO_LARGE, s) else (ERR_SUCCESS, pushStun h p s))
        (aStun (mkStun h p) a).
Proof.
  intros H. unfold aStun. rewrite (im_stun _ _ H). destruct (8 <=? _)%nat; [done|].
  split; [done|]. by apply implements_stun.
Qed.

Lemma agree_urlStun u s a : implements s a -> agree (addUrlStun u s) (aUrlStun u a).
Proof.
  intros H. unfold addUrlStun, aUrlStun. rewrite (bool_decide_ext _ (existsb (fun e => (ss_port e =? u_port u) &&
    bool_decide (ss_host e = u_host u)) (stunServersInternal_ s) = true)).
  - rewrite bool_decide_decide. destruct (decide _) as [-> | Hn]; [done|].
    apply not_true_is_false in Hn. rewrite Hn. by apply agree_stun.
  - rewrite existsb_exists, (im_stun _ _ H). split.
    + intros Hin. exists (mkStun (u_host u) (u_port u)). split; [by apply list_elem_of_In|].
      cbn. by rewrite Z.eqb_refl, bool_decide_true.
    + intros ([h p] & Hin & E). apply andb_true_iff in E as [E1%Z.eqb_eq E2%bool_decide_eq_true]. cbn in *. subst.
      by apply list_elem_of_In.
Qed.

Lemma agree_run c s a : implements s a -> agree (run c s) (arun c a).
Proof.
  intros H. destruct c as [srv|[host|] port|[url|] user pass]; cbn [run arun].
  - unfold addTurnServer, aTurn. rewrite (im_count _ _ H).
    destruct (Z.geb_spec (Z.of_nat (length (aturn a))) 8), (Nat.leb_spec 8 (length (aturn a))); try lia; [done|].
    split; [done|]. by apply implements_turn.
  - by apply agree_stun.
  - done.
  - unfold addIceServer. cbn [mbind option_bind]. destruct (parseUrl url) as [u|]; [|done].
    destruct (isTurn u); [|by apply agree_urlStun]. rewrite (turn_length _ _ H). unfold aTurn.
    destruct (8 <=? _)%nat; [done|]. cbn [Z.eqb ERR_SUCCESS]. by apply agree_urlStun, implements_turn.
  - done.
Qed.

(** *** The lists [init] builds *)

Lemma loadTurn_reads l s a :
  mapM (readServer s) (turnServersInternal_ s) = Some (aturn a) -> stunServersInternal_ s = astun a ->
  let s' := foldl (fun s srv => pushTurn srv s) s l in
  mapM (readServer s') (turnServersInternal_ s') = Some (aturn a ++ l) /\ stunServersInternal_ s' = astun a /\
  turn_servers_count s' = turn_servers_count s.
Proof.
  cbv zeta. revert s a. induction l as [|srv l IH]; intros s a H1 H2; cbn [foldl]; [by rewrite app_nil_r|].
  destruct (pushTurn_reads srv s _ H1) as (P1 & P2 & P3).
  destruct (IH (pushTurn srv s) (mkLists (aturn a ++ [srv]) (astun a)) P1) as (I1 & I2 & I3); [by rewrite P2|].
  cbn [aturn astun] in *. rewrite <- app_assoc in I1. split; [done|]. split; [done|]. by rewrite I3.
Qed.

(** STUN entries touch nothing else. *)
Definition withStun (s : Servers) (l : list StunServerEntry) : Servers := s <| stunServersInternal_ := l |>.

Lemma loadStun_list cfg s :
  loadStun cfg s = withStun s (stunServersInternal_ s ++ astun (ainit cfg)).
Proof.
  unfold loadStun, ainit. cbn [astun].
  assert (Hf : forall l s, foldl (fun s '(i, host) => match host with Some host => pushStun host (stunPort cfg i) s | None => s end) s l
    = withStun s (stunServersInternal_ s ++ omap (fun '(i, host) => (fun host => mkStun host (stunPort cfg i)) <$> host) l)).
  { induction l as [|[i [host|]] l IH]; intros s0; cbn [foldl omap list_omap fmap option_fmap option_map].
    - rewrite app_nil_r. by destruct s0.
    - rewrite IH. unfold withStun, pushStun. upd. rewrite <- app_assoc. by destruct s0.
    - apply IH. }
  destruct (stun_servers cfg) as [[|h l]|]; [|apply Hf|]; (destruct (stun_server_host cfg) as [host|];
    [done|rewrite app_nil_r; by destruct s]).
Qed.

Lemma init_implements cfg : implements (initServers cfg) (ainit cfg).
Proof.
  unfold initServers, loadTurn. rewrite loadStun_list.
  destruct (loadTurn_reads (default [] (turn_servers cfg))
    (withStun (noServers (Z.of_nat (length (default [] (turn_servers cfg))))) (astun (ainit cfg)))
    (mkLists [] (astun (ainit cfg))) eq_refl eq_refl) as (H1 & H2 & H3).
  by constructor.
Qed.

Lemma runAll_agree cs rs s a :
  implements s a ->
  let x := foldl (fun '(rs, s) c => let '(r, s) := run c s in (rs ++ [r], s)) (rs, s) cs in
  let y := foldl (fun '(rs, a) c => let '(r, a) := arun c a in (rs ++ [r], a)) (rs, a) cs in
  x.1 = y.1 /\ implements x.2 y.2.
Proof.
  cbv zeta. revert rs s a. induction cs as [|c cs IH]; intros rs s a H; cbn [foldl]; [done|].
  pose proof (agree_run c s a H) as Hc. destruct (run c s) as [r s'], (arun c a) as [r' a'].
  destruct Hc as [Hr Hi]. cbn [fst snd] in Hr, Hi. subst r'. by apply IH.
Qed.

(** C29: The server lists behave as lists of values.  After loading any configuration and any
    sequence of addTurnServer, addStunServer and addIceServer calls, every call has returned
    what it returns on plain lists (an eighth server is accepted, a ninth is not, a URL adds
    its relay and its STUN entry once), and every pointer of every stored server still leads
    to the host, user name, password and trust bundle that server was registered with. *)
Theorem server_lists_refine cfg cs :
  let x := runAll cs (initServers cfg) in
  let y := arunAll cs (ainit cfg) in
  x.1 = y.1 /\ implements x.2 y.2.
Proof. apply runAll_agree, init_implements. Qed.

(** ** Writing and reading URLs *)

Lemma findChar_app c a b : c ∉ a -> findChar c (a ++ c :: b) = Some (length a).
Proof.
  unfold findChar. induction a as [|d a IH]; intros H; cbn [app findSub startsWith].
  - by rewrite bool_decide_true.
  - apply not_elem_of_cons in H as [H1 H2]. rewrite bool_decide_false by done. cbn [andb]. by rewrite IH.
Qed.

Lemma findChar_none c a : c ∉ a -> findChar c a = None.
Proof.
  unfold findChar. induction a as [|d a IH]; intros H; cbn [findSub startsWith]; [done|].
  apply not_elem_of_cons in H as [H1 H2]. rewrite bool_decide_false by done. cbn [andb]. by rewrite IH.
Qed.

(** A host name, or an address in brackets. *)
Inductive UrlHost := HName (name : text) | HBracket (literal : text).

Definition hostText (h : UrlHost) : text := match h with HName n => n | HBracket l => l end.

Definition host_ok (h : UrlHost) : Prop :=
  match h with
  | HName n => n <> [] /\ Forall (fun c => c <> ":"%char /\ c <> "?"%char /\ c <> "/"%char /\ c <> "["%char) n
  | HBracket l => l <> [] /\ Forall (fun c => c <> "]"%char /\ c <> "?"%char) l
  end.

Definition printHost (h : UrlHost) : text :=
  match h with HName n => n | HBracket l => "["%char :: l ++ ["]"%char] end.

Definition printPort (port : option Z) : text :=
  match port with Some p => ":"%char :: printU p | None => [] end.

Definition printUrl (scheme : text) (slashes : bool) (h : UrlHost) (port : option Z) (tcp : bool) : text :=
  scheme ++ ":"%char :: (if slashes then lit "//" else []) ++ (printHost h ++ printPort port) ++
  (if tcp then "?"%char :: lit "transport=tcp" else []).

Definition port_ok (port : option Z) : Prop := match port with Some p => 0 < p < 65536 | None => True end.

Lemma forallb_digits ds : Forall (fun c => isdigit c = true) ds -> forallb isdigit ds = true.
Proof. rewrite forallb_forall, Forall_forall. intros H x Hx. by apply H, list_elem_of_In. Qed.

Lemma printed_port p :
  0 < p < 65536 -> isNumeric (printU p) = true /\ portNumber (printU p) = p /\
  Forall (fun c => isdigit c = true) (printU p).
Proof.
  intros Hp. destruct (printU_spec p) as (H1 & H2 & H3 & _); [lia|]. split; [|split; [|done]].
  - unfold isNumeric. rewrite forallb_digits by done. destruct (Nat.eqb_spec (length (printU p)) 0) as [E%nil_length_inv|]; done.
  - unfold portNumber. rewrite H3. destruct (Z.ltb_spec p (2 ^ 64)); [|lia].
    rewrite wrap_id by (unfold fits; lia). unfold orDefault. by rewrite (proj2 (Z.eqb_neq p 0)) by lia.
Qed.

Lemma digit_not c ds : isdigit c = false -> Forall (fun c => isdigit c = true) ds -> c ∉ ds.
Proof. intros Hc H Hin. rewrite Forall_forall in H. specialize (H c Hin). congruence. Qed.

Lemma filter_none (c : ascii) l : c ∉ l -> filter (fun d => d = c) l = [].
Proof.
  intros H. induction l as [|d l IH]; [done|]. apply not_elem_of_cons in H as [H1 H2].
  rewrite filter_cons_False by congruence. by apply IH.
Qed.

Lemma drop_past {A} (l : list A) c r : drop (S (length l)) (l ++ c :: r) = r.
Proof. induction l as [|d l IH]; [done|exact IH]. Qed.

Lemma split_bracket l r :
  "]"%char ∉ l ->
  splitHost ("["%char :: l ++ "]"%char :: r) =
  match r with
  | [] => Some (l, 3478)
  | c :: r => if bool_decide (c = ":"%char) then Some (l, if isNumeric r then portNumber r else 3478) else None
  end.
Proof.
  intros Hl. unfold splitHost.
  assert (Hf : findChar "]" ("["%char :: l ++ "]"%char :: r) = Some (S (length l)))
    by (apply (findChar_app "]" ("["%char :: l)); by apply not_elem_of_cons).
  rewrite Hf.
  cbn [mbind option_bind].
  assert (Ht : take (S (length l) - 1) (drop 1 ("["%char :: l ++ "]"%char :: r)) = l)
    by (cbn [drop]; rewrite Nat.sub_succ, Nat.sub_0_r; apply take_app_length).
  rewrite Ht. destruct r as [|c r].
  - rewrite (proj2 (Nat.ltb_ge _ _)) by (cbn [length]; rewrite length_app; cbn [length]; lia). done.
  - rewrite (proj2 (Nat.ltb_lt _ _)) by (cbn [length]; rewrite length_app; cbn [length]; lia).
    assert (Hc : ("["%char :: l ++ "]"%char :: c :: r) !! (S (length l) + 1)%nat = Some c).
    { change ("["%char :: l ++ "]"%char :: c :: r) with (("["%char :: l) ++ "]"%char :: c :: r).
      by rewrite lookup_app_r, Nat.add_comm, Nat.add_sub by (cbn [length]; lia). }
    assert (Hd : drop (S (length l) + 2) ("["%char :: l ++ "]"%char :: c :: r) = r).
    { change ("["%char :: l ++ "]"%char :: c :: r) with (("["%char :: l) ++ "]"%char :: c :: r).
      change (S (length l)) with (length ("["%char :: l)). by rewrite drop_app_add. }
    rewrite Hc, Hd. cbn [mbind option_bind]. by case_bool_decide.
Qed.

(** Host and port come back from their printed form. *)
Lemma split_printed h port :
  host_ok h -> port_ok port ->
  splitHost (printHost h ++ printPort port) = Some (hostText h, default 3478 port).
Proof.
  intros Hh Hp. destruct h as [n|l]; destruct Hh as [Hne Hall]; cbn [printHost hostText].
  - assert (Hc : ":"%char ∉ n) by (intros Hin; rewrite Forall_forall in Hall; by destruct (Hall _ Hin)).
    assert (Hb : forall r, splitHost (n ++ r) =
      if (length (filter (fun c => c = ":"%char) (n ++ r)) =? 1)%nat then
        colon ← findChar ":" (n ++ r);
        let maybePort := drop (S colon) (n ++ r) in
        if isNumeric maybePort then Some (take colon (n ++ r), portNumber maybePort) else Some (n ++ r, 3478)
      else Some (n ++ r, 3478)).
    { intros r. destruct n as [|c n]; [done|]. apply Forall_cons in Hall as [(_ & _ & _ & Hc') _].
      unfold splitHost. cbn [app]. destruct c as [[] [] [] [] [] [] [] []]; try reflexivity. by destruct Hc'. }
    rewrite Hb, filter_app, (filter_none _ n Hc). destruct port as [p|]; cbn [printPort app default].
    + destruct (printed_port p Hp) as (P1 & P2 & P3).
      rewrite filter_cons_True, filter_none by (done || by apply digit_not). cbn [length Nat.eqb].
      rewrite findChar_app by done. cbn [mbind option_bind]. cbv zeta.
      rewrite drop_past, take_app_length, P1, P2. done.
    + by rewrite app_nil_r.
  - assert (Hc : "]"%char ∉ l) by (intros Hin; rewrite Forall_forall in Hall; by destruct (Hall _ Hin)).
    cbn [app]. rewrite <- app_assoc. cbn [app]. rewrite split_bracket by done.
    destruct port as [p|]; cbn [printPort default]; [|done].
    destruct (printed_port p Hp) as (P1 & P2 & _). by rewrite bool_decide_true, P1, P2.
Qed.

(** Nothing of the host and the port is taken for the query or for slashes. *)
Lemma printed_no_query h port : host_ok h -> port_ok port -> "?"%char ∉ printHost h ++ printPort port.
Proof.
  intros Hh Hp. rewrite not_elem_of_app. split.
  - destruct h as [n|l]; destruct Hh as [_ Hall]; rewrite Forall_forall in Hall; cbn [printHost].
    + intros Hin. by destruct (Hall _ Hin) as (_ & ? & _).
    + rewrite not_elem_of_cons, not_elem_of_app, list_elem_of_singleton.
      split; [done|]. split; [|done]. intros Hin. by destruct (Hall _ Hin).
  - destruct port as [p|]; cbn [printPort]; [|apply not_elem_of_nil]. rewrite not_elem_of_cons. split; [done|].
    apply digit_not; [done|]. apply printed_port, Hp.
Qed.

Lemma printed_no_slashes h r : host_ok h -> startsWith (lit "//") (printHost h ++ r) = false.
Proof.
  destruct h as [[|c n]|l]; intros [Hne Hall]; [done| |done]. apply Forall_cons in Hall as [(_ & _ & H & _) _].
  cbn. by rewrite bool_decide_false.
Qed.

Definition schemes : list text := [lit "stun"; lit "turn"; lit "turns"].

(** A server URL is read as it is written: for each of the three schemes, with or without
    slashes, a host name or a bracketed IPv6 address, with or without a port, and with or
    without the TCP query, the parser returns exactly these parts, and 3478 for a port that
    is left out. *)
Theorem url_roundtrip scheme slashes h port tcp :
  scheme ∈ schemes -> host_ok h -> port_ok port ->
  parseUrl (printUrl scheme slashes h port tcp)
  = Some (mkUrl scheme (hostText h) (default 3478 port) (if tcp then TRANSPORT_TCP else TRANSPORT_UDP)).
Proof.
  intros Hs Hh Hp. apply list_elem_of_In in Hs.
  assert (Hcolon : ":"%char ∉ scheme) by (apply (bool_decide_unpack _); by destruct Hs as [<-|[<-|[<-|[]]]]).
  unfold parseUrl, printUrl. rewrite findChar_app by done. cbn [mbind option_bind]. rewrite take_app_length, drop_past.
  set (hp := printHost h ++ printPort port). set (q := if tcp then _ else []).
  assert (Hsl : (if startsWith (lit "//") ((if slashes then lit "//" else []) ++ hp ++ q)
    then drop 2 ((if slashes then lit "//" else []) ++ hp ++ q) else (if slashes then lit "//" else []) ++ hp ++ q) = hp ++ q).
  { destruct slashes; [by rewrite startsWith_app|]. unfold hp. rewrite <- app_assoc. cbn [app].
    by rewrite printed_no_slashes. }
  rewrite Hsl. pose proof (printed_no_query h port Hh Hp) as Hq. fold hp in Hq.
  assert (Hspl : match findChar "?" (hp ++ q) with
    | Some k => (drop (S k) (hp ++ q), take k (hp ++ q)) | None => ([], hp ++ q) end
    = (if tcp then lit "transport=tcp" else [], hp)).
  { unfold q. destruct tcp.
    - by rewrite findChar_app, drop_past, take_app_length.
    - by rewrite app_nil_r, findChar_none. }
  rewrite Hspl. unfold hp. rewrite split_printed by done. cbn [mbind option_bind].
  rewrite (proj2 (Nat.eqb_neq (length (hostText h)) 0))
    by (destruct h; destruct Hh as [Hne _]; cbn; by intros ?%nil_length_inv).
  assert (Hsch : negb (bool_decide (scheme = lit "turn")) && negb (bool_decide (scheme = lit "turns")) &&
    negb (bool_decide (scheme = lit "stun")) = false).
  { by destruct Hs as [<-|[<-|[<-|[]]]]. }
  rewrite Hsch. by destruct tcp.
Qed.

Lemma url_roundtrip_witness :
  parseUrl (printUrl (lit "turn") false (HBracket (lit "2001:db8::1")) (Some 5349) true)
  = Some (mkUrl (lit "turn") (lit "2001:db8::1") 5349 TRANSPORT_TCP) /\
  printUrl (lit "turn") false (HBracket (lit "2001:db8::1")) (Some 5349) true = lit "turn:[2001:db8::1]:5349?transport=tcp".
Proof.
  split; [|reflexivity].
  apply (url_roundtrip (lit "turn") false (HBracket (lit "2001:db8::1")) (Some 5349) true).
  - by apply (bool_decide_unpack _); vm_compute.
  - split; [done|]. by apply (bool_decide_unpack _); vm_compute.
  - cbn. lia.
Defined.

(** ** What the parser lets through *)

(** A port beyond 16 bits is reduced, not refused. *)
Lemma large_port_wraps : u_port <$> parseUrl (lit "stun:host:70000") = Some 4464.
Proof. reflexivity. Qed.

(** A turns URL without a port gets 3478, and the STUN entry gets the port of the URL. *)
Lemma turns_default_port : u_port <$> parseUrl (lit "turns:host") = Some 3478.
Proof. reflexivity. Qed.

Lemma turns_stun_port :
  stunServersInternal_ (addIceServer (Some (lit "turns:host:5349")) None None (noServers 0)).2 = [mkStun (lit "host") 5349].
Proof. reflexivity. Qed.

(** An unbracketed IPv6 literal keeps its colons; a port that is no number stays in the host. *)
Lemma bare_literal :
  u_host <$> parseUrl (lit "turn:2001:db8::1") = Some (lit "2001:db8::1") /\
  u_host <$> parseUrl (lit "stun:host:abc") = Some (lit "host:abc").
Proof. done. Qed.

(** With a full STUN list a new relay is kept although the call reports an error. *)
Definition fullStun : Servers :=
  mkServers [] [] [] [] [] 0 (map (fun n => mkStun (printU n) 3478) [1; 2; 3; 4; 5; 6; 7; 8]).

Lemma error_keeps_relay :
  let '(r, s) := addIceServer (Some (lit "turn:relay.example")) (Some (lit "u")) (Some (lit "p")) fullStun in
  r = ERR_TOO_LARGE /\ mapM (readServer s) (turnServersInternal_ s)
    = Some [mkTurn (Some (lit "relay.example")) (Some (lit "u")) (Some (lit "p")) 3478 TRANSPORT_UDP 0 None].
Proof. done. Qed.

(** A server left for the TCP phase loses its trust bundle and its verification setting. *)
Lemma deferral_drops_tls srv :
  ts_skip_tls_verify (deferServer srv) = 0 /\ ts_ca_file (deferServer srv) = None /\
  (deferServer srv = srv <-> ts_skip_tls_verify srv = 0 /\ ts_ca_file srv = None).
Proof.
  split; [done|]. split; [done|]. destruct srv as [h u p pt tr sk ca]. cbn. split; [by intros [= <- <-]|by intros [-> ->]].
Qed.
