(* ===== verification/Candidate.v ===== *)
(** * ICE candidates (include/stice/ice/candidate.hpp, src/ice/candidate.cpp)

    The candidate record, its priority (RFC 8445 section 5.1.2, RFC 6544 section 4.2), its
    foundation, and its line in a session description: [toSdp] and [parse].  [snprintf] into
    a buffer of 512 bytes keeps at most 511 characters; [sscanf] reads the line through
    [c_str].  The environment variable of [sdpRaddrHackEnabled] and the runtime setting
    [g_tcpPriorityOffset] are arguments; numeric conversion out of range and name resolution
    are parameters. *)

From Stdlib Require Import Ascii.
From S2P Require Import Prelude.
From S2P Require Import Crypto.
From S2P Require Import Addr.
From S2P Require Import CText.
Open Scope Z_scope.
Open Scope c_scope.

Inductive CandidateType := Unknown | Host | ServerReflexive | PeerReflexive | Relayed.
Inductive CandidateTransport := UDP | TCPActive | TCPPassive | TCPSimultaneousOpen.

#[export] Instance CandidateType_eq_dec : EqDecision CandidateType.
Proof. solve_decision. Defined.
#[export] Instance CandidateTransport_eq_dec : EqDecision CandidateTransport.
Proof. solve_decision. Defined.

Definition PrefHost : Z := 126.
Definition PrefPeerReflexive : Z := 110.
Definition PrefServerReflexive : Z := 100.
Definition PrefRelayed : Z := 0.
Definition TcpPenalty : Z := 27.

Definition typeString (t : CandidateType) : text :=
  match t with
  | Host => lit "host" | ServerReflexive => lit "srflx" | PeerReflexive => lit "prflx"
  | Relayed => lit "relay" | Unknown => lit "unknown"
  end.

Definition transportString (t : CandidateTransport) : text :=
  match t with UDP => lit "UDP" | _ => lit "TCP" end.

Definition typeFromString (s : text) : CandidateType :=
  if bool_decide (s = lit "host") then Host
  else if bool_decide (s = lit "srflx") then ServerReflexive
  else if bool_decide (s = lit "prflx") then PeerReflexive
  else if bool_decide (s = lit "relay") then Relayed
  else Unknown.

Record Candidate := mkCandidate {
  type : CandidateType; transport : CandidateTransport; priority : Z; component : Z;
  foundation : text; hostname : text; service : text; resolved : AddrRecord;
  hasRelated : bool; related : AddrRecord }.

Definition newCandidate : Candidate :=
  mkCandidate Unknown UDP 0 1 [] [] [] emptyAddr false emptyAddr.

(** ** Priority *)

Definition typePreference (t : CandidateType) : Z :=
  match t with
  | Host => PrefHost | PeerReflexive => PrefPeerReflexive
  | ServerReflexive => PrefServerReflexive | Relayed => PrefRelayed | Unknown => 0
  end.

Definition directionPreference (t : CandidateType) (tr : CandidateTransport) : Z :=
  match t with
  | Host | Relayed =>
      match tr with TCPActive => 6 | TCPPassive => 4 | TCPSimultaneousOpen => 2 | UDP => 0 end
  | ServerReflexive | PeerReflexive =>
      match tr with TCPSimultaneousOpen => 6 | TCPActive => 4 | TCPPassive => 2 | UDP => 0 end
  | Unknown => 0
  end.

Definition clampIndex (index : Z) : Z :=
  if 4095 <? index then 4095 else if index <? 0 then 0 else index.

(** [offset] is [g_tcpPriorityOffset]. *)
Definition computePriority (offset : Z) (t : CandidateType) (family component index : Z)
    (tr : CandidateTransport) : Z :=
  let typePref := typePreference t in
  let typePref :=
    if bool_decide (tr = UDP) then typePref
    else if offset <=? typePref then typePref - offset else 0 in
  let localPref :=
    if bool_decide (tr = UDP) then 65535
    else let l := u32 (directionPreference t tr <<. 13) in
         if (family =? AF_INET6) || (family =? AF_INET) then u32 (l + 8191) else l in
  let idx := clampIndex index in
  let localPref := if idx <=? localPref then localPref - idx else localPref in
  let p := u32 (typePref <<. 24) |. u32 (localPref <<. 8) in
  let comp := if component <? 1 then 1 else if 256 <? component then 256 else component in
  u32 (p + (256 - comp)).

(** The member function of the same name. *)
Definition computePriorityOf (offset : Z) (c : Candidate) (index : Z) : Z :=
  computePriority offset (type c)
    (if sa_family (addr (resolved c)) =? AF_INET6 then AF_INET6 else AF_INET)
    (component c) index (transport c).

(** ** Foundation *)

Definition computeFoundation (t : CandidateType) (ad : text) (tr : CandidateTransport) : text :=
  printU (crc32 (code <$> (typeString t ++ ad ++ transportString tr))).

(** ** The SDP line *)

(** [env] is the value of STICE_SDP_RADDR_HACK. *)
Definition sdpRaddrHackEnabled (env : option text) : bool :=
  match env with
  | None | Some [] => true
  | Some (c :: _) =>
      negb (bool_decide (c ∈ ["0"%char; "n"%char; "N"%char; "f"%char; "F"%char]))
  end.

Definition sdpSuffix (env : option text) (c : Candidate) : text :=
  (match transport c with
   | TCPActive => lit " tcptype active" | TCPPassive => lit " tcptype passive"
   | TCPSimultaneousOpen => lit " tcptype so" | UDP => []
   end) ++
  (if (bool_decide (type c = ServerReflexive) || bool_decide (type c = Relayed)) &&
      sdpRaddrHackEnabled env
   then lit " raddr 0.0.0.0 rport 0" else []).

Definition toSdp (env : option text) (c : Candidate) : text :=
  take 511
    (lit "a=candidate:" ++ cstr (foundation c) ++ lit " " ++ printD (component c) ++ lit " " ++
     transportString (transport c) ++ lit " " ++ printU (priority c) ++ lit " " ++
     cstr (hostname c) ++ lit " " ++ cstr (service c) ++ lit " typ " ++ typeString (type c) ++
     sdpSuffix env c).

Section Parse.
Context (outOfRange : Z -> Z).
Context (inet_pton4 inet_pton6 : string -> option bytes).
Context (getaddrinfo : string -> string -> Z -> list AddrRecord).

Record Fields := mkFields {
  f_foundation : text; f_component : Z; f_transport : text; f_priority : Z;
  f_host : text; f_port : text; f_type : text }.

(** [sscanf(s, "%63s %d %15s %u %255s %15s typ %15s", ...) == 7]. *)
Definition scanCandidate (s : text) : option Fields :=
  '(fo, s) ← scanS 63 s;
  '(co, s) ← scanD outOfRange (scanSp s);
  '(tr, s) ← scanS 15 (scanSp s);
  '(pr, s) ← scanU outOfRange (scanSp s);
  '(ho, s) ← scanS 255 (scanSp s);
  '(po, s) ← scanS 15 (scanSp s);
  s ← scanLit (lit "typ") (scanSp s);
  '(ty, s) ← scanS 15 (scanSp s);
  Some (mkFields fo co tr pr ho po ty).

(** The first word of the text behind "tcptype ", in any case. *)
Definition tcpWord (t : text) : CandidateTransport :=
  let t := match findChar " "%char t with Some sp => take sp t | None => t end in
  let t := tolower <$> t in
  if bool_decide (t = lit "active") then TCPActive
  else if bool_decide (t = lit "passive") then TCPPassive
  else if bool_decide (t = lit "so") then TCPSimultaneousOpen
  else UDP.

(** The transport of a line with a TCP token; the default of a new candidate, UDP, when
    "tcptype" is missing or unknown. *)
Definition tcpTransport (s : text) : CandidateTransport :=
  match findSub (lit "tcptype ") s with
  | None => UDP
  | Some pos => tcpWord (drop (pos + 8) s)
  end.

Definition resolveCandidate (host port : text) (tr : CandidateTransport) : AddrRecord :=
  let portNum := u16 (atoi outOfRange port) in
  let st := if bool_decide (tr = UDP) then SOCK_DGRAM else SOCK_STREAM in
  match parseAddr inet_pton4 inet_pton6 (str host) portNum with
  | Some (sa, l) => mkAddrRecord sa l st
  | None =>
      match resolve getaddrinfo (str host) (str port) st with
      | r :: _ => r
      | [] => emptyAddr
      end
  end.

(** The result is the return value and the candidate [out] afterwards. *)
Definition parse (line : text) (out : Candidate) : bool * Candidate :=
  let s := if startsWith (lit "a=") line then drop 2 line else line in
  let s := if startsWith (lit "candidate:") s then drop 10 s else s in
  match scanCandidate (cstr s) with
  | None => (false, out)
  | Some f =>
      let ty := typeFromString (f_type f) in
      let c := mkCandidate ty UDP (f_priority f) (f_component f) (f_foundation f) (f_host f)
                 (f_port f) emptyAddr false emptyAddr in
      if bool_decide (ty = Unknown) then (false, c)
      else
        let tr := if bool_decide (tolower <$> f_transport f = lit "tcp") then tcpTransport s else UDP in
        (true, mkCandidate ty tr (f_priority f) (f_component f) (f_foundation f) (f_host f)
                 (f_port f) (resolveCandidate (f_host f) (f_port f) tr) false emptyAddr)
  end.

End Parse.

(** ** Priorities *)

Definition localPreference (t : CandidateType) (family index : Z) (tr : CandidateTransport) : Z :=
  let l := if bool_decide (tr = UDP) then 65535
           else if (family =? AF_INET6) || (family =? AF_INET)
                then directionPreference t tr * 8192 + 8191 else directionPreference t tr * 8192 in
  if clampIndex index <=? l then l - clampIndex index else l.

Definition transportPreference (offset : Z) (t : CandidateType) (tr : CandidateTransport) : Z :=
  if bool_decide (tr = UDP) then typePreference t
  else if offset <=? typePreference t then typePreference t - offset else 0.

Definition clampComponent (c : Z) : Z := if c <? 1 then 1 else if 256 <? c then 256 else c.

Lemma clampIndex_range i : 0 <= clampIndex i <= 4095.
Proof. unfold clampIndex. repeat case_match; lia. Qed.

Lemma clampComponent_range i : 1 <= clampComponent i <= 256.
Proof. unfold clampComponent. repeat case_match; lia. Qed.

Lemma directionPreference_range t tr : 0 <= directionPreference t tr <= 6.
Proof. destruct t, tr; simpl; lia. Qed.

Lemma typePreference_range t : 0 <= typePreference t <= 126.
Proof. destruct t; vm_compute; split; congruence. Qed.

Lemma transportPreference_range offset t tr :
  0 <= offset -> 0 <= transportPreference offset t tr <= 126.
Proof.
  intros H. unfold transportPreference. pose proof (typePreference_range t).
  repeat case_match; lia.
Qed.

Lemma localPreference_range t family index tr : 0 <= localPreference t family index tr <= 65535.
Proof.
  unfold localPreference. pose proof (clampIndex_range index).
  pose proof (directionPreference_range t tr). repeat case_match; lia.
Qed.

(** The bit operations of the priority are the formula of RFC 8445. *)
Lemma computePriority_val offset t family comp index tr :
  0 <= offset ->
  computePriority offset t family comp index tr
  = transportPreference offset t tr * 2 ^ 24 + localPreference t family index tr * 2 ^ 8
    + (256 - clampComponent comp).
Proof.
  intros Ho. unfold computePriority. fold (transportPreference offset t tr).
  fold (clampComponent comp).
  pose proof (transportPreference_range offset t tr Ho) as H1.
  pose proof (localPreference_range t family index tr) as H2.
  pose proof (clampComponent_range comp). pose proof (directionPreference_range t tr).
  assert (E : u32 (directionPreference t tr <<. 13) = directionPreference t tr * 8192).
  { rewrite shiftl_mul by lia. apply wrap_id. width. }
  rewrite E.
  replace (u32 (directionPreference t tr * 8192 + 8191))
    with (directionPreference t tr * 8192 + 8191) by (symmetry; apply wrap_id; width).
  fold (localPreference t family index tr).
  rewrite (wrap_id 32 (localPreference t family index tr <<. 8)) by (rewrite shiftl_mul by lia; width).
  rewrite (wrap_id 32 (transportPreference offset t tr <<. 24)) by (rewrite shiftl_mul by lia; width).
  rewrite lor_disjoint_add; [|lia|rewrite shiftl_mul by lia; width].
  rewrite shiftl_mul by lia. rewrite wrap_id by width. lia.
Qed.

(** Candidate priorities.  Every priority fits in 31 bits, as RFC 8445 requires.  Among
    UDP candidates the type decides, whatever the index and the component: host before
    peer-reflexive before server-reflexive before relayed.  A UDP candidate comes before
    every TCP candidate of its type, for every setting of the TCP offset.  Candidates of one
    type, transport and address family (IPv4 or IPv6) with different indices below 4096 or
    different components have different priorities. *)
Theorem candidate_priority (offset : Z) (t t' : CandidateType) (f f' c c' i i' : Z)
    (tr : CandidateTransport) :
  0 <= offset ->
  fits 31 (computePriority offset t f c i tr) /\
  (typePreference t' < typePreference t ->
     computePriority offset t' f' c' i' UDP < computePriority offset t f c i UDP) /\
  (tr <> UDP -> computePriority offset t f' c' i' tr < computePriority offset t f c i UDP) /\
  ((f = AF_INET \/ f = AF_INET6) -> 0 <= i < 4096 -> 0 <= i' < 4096 -> 1 <= c <= 256 ->
     1 <= c' <= 256 -> computePriority offset t f c i tr = computePriority offset t f c' i' tr ->
     i = i' /\ c = c').
Proof.
  intros Ho. rewrite !computePriority_val by done.
  pose proof (transportPreference_range offset t tr Ho).
  pose proof (clampComponent_range c). pose proof (clampComponent_range c').
  pose proof (clampIndex_range i). pose proof (clampIndex_range i').
  pose proof (directionPreference_range t tr).
  pose proof (localPreference_range t f i tr). pose proof (localPreference_range t f i UDP).
  pose proof (localPreference_range t' f' i' UDP).
  split; [width|]. split; [|split].
  - intros Ht. unfold transportPreference. simpl. lia.
  - intros Htr. assert (transportPreference offset t tr <= transportPreference offset t UDP).
    { unfold transportPreference. pose proof (typePreference_range t).
      rewrite (bool_decide_eq_false_2 _ Htr), (bool_decide_eq_true_2 (UDP = UDP)) by done.
      case_match; lia. }
    assert (localPreference t f' i' tr < localPreference t f i UDP).
    { unfold localPreference. rewrite (bool_decide_eq_false_2 _ Htr), (bool_decide_eq_true_2 (UDP = UDP)) by done.
      repeat case_match; lia. }
    lia.
  - intros Hf Hi Hi' Hc Hc' E.
    assert (Hfb : (f =? AF_INET6) || (f =? AF_INET) = true) by (destruct Hf as [-> | ->]; done).
    assert (El : localPreference t f i tr = localPreference t f i' tr /\
                 clampComponent c = clampComponent c') by lia.
    destruct El as [El Ec]. split.
    + unfold localPreference in El. rewrite Hfb in El. unfold clampIndex in *.
      repeat case_match; lia.
    + unfold clampComponent in Ec. repeat case_match; lia.
Qed.

Lemma candidate_priority_witness :
  computePriority 27 Host AF_INET 1 0 UDP = 2130706431 /\
  computePriority 27 Relayed AF_INET 1 3 UDP < computePriority 27 Host AF_INET 1 4000 UDP.
Proof.
  split; [done|].
  apply (candidate_priority 27 Host Relayed AF_INET AF_INET 1 1 4000 3 UDP); [lia|].
  vm_compute. reflexivity.
Defined.

(** ** The SDP line *)

(** What the fields of a candidate must satisfy for its line to be read back: the sizes are
    those of the buffers of [parse], and no field of a TCP candidate imitates "tcptype". *)
Record sdp_ok (c : Candidate) : Prop := {
  so_type : type c <> Unknown;
  so_component : - 2 ^ 31 <= component c < 2 ^ 31;
  so_priority : fits 32 (priority c);
  so_foundation : token (foundation c) /\ (length (foundation c) <= 63)%nat;
  so_hostname : token (hostname c) /\ (length (hostname c) <= 255)%nat;
  so_service : token (service c) /\ (length (service c) <= 15)%nat;
  so_tcptype : transport c <> UDP ->
    Forall (fun f => ~ lit "tcptype" `suffix_of` f) [foundation c; hostname c; service c] }.

(** The line without "a=candidate:" and without its suffix. *)
Definition sdpBody (c : Candidate) : text :=
  foundation c ++ " "%char :: printD (component c) ++ " "%char ::
  transportString (transport c) ++ " "%char :: printU (priority c) ++ " "%char ::
  hostname c ++ " "%char :: service c ++ " "%char :: lit "typ" ++ " "%char :: typeString (type c).

Lemma printU32_chars n :
  fits 32 n -> Forall (fun c => isdigit c = true \/ c = "-"%char) (printU n) /\ (length (printU n) <= 20)%nat.
Proof.
  intros H. destruct (printU_spec n) as (_ & H1 & _ & H2); [width|]. split; [|done].
  eapply Forall_impl; [exact H1|]. auto.
Qed.

Lemma typeString_length t : (length (typeString t) <= 7)%nat.
Proof. destruct t; simpl; lia. Qed.

Lemma transportString_length t : length (transportString t) = 3%nat.
Proof. by destruct t. Qed.

Lemma sdpSuffix_length env c : (length (sdpSuffix env c) <= 38)%nat.
Proof. unfold sdpSuffix. rewrite length_app. destruct (transport c); case_match; simpl; lia. Qed.

Lemma toSdp_eq env c :
  sdp_ok c -> toSdp env c = lit "a=candidate:" ++ sdpBody c ++ sdpSuffix env c.
Proof.
  intros [_ Hc Hp [[_ Hf] Hfl] [[_ Hh] Hhl] [[_ Hs] Hsl] _]. unfold toSdp, sdpBody.
  rewrite !cstr_id by by apply token_no_NUL.
  rewrite take_ge.
  - repeat (simpl; rewrite <- ?app_assoc). done.
  - destruct (printD_chars _ Hc) as [_ ?]. destruct (printU32_chars _ Hp) as [_ ?].
    pose proof (typeString_length (type c)). pose proof (sdpSuffix_length env c).
    rewrite !length_app, transportString_length. simpl. lia.
Qed.

Lemma tokenChars_typeString t : Forall (fun c => tokenChar c = true) (typeString t).
Proof. destruct t; repeat constructor. Qed.

Lemma tokenChars_transportString t : Forall (fun c => tokenChar c = true) (transportString t).
Proof. destruct t; repeat constructor. Qed.

Lemma suffix_no_NUL env c : Forall (fun c => c <> NUL) (sdpSuffix env c).
Proof. unfold sdpSuffix. destruct (transport c); case_match; simpl; repeat constructor; done. Qed.

Ltac no_NUL :=
  repeat match goal with
  | |- Forall _ (_ ++ _) => apply Forall_app; split
  | |- Forall _ (_ :: _) => constructor; [done|]
  end.

Lemma sdpLine_no_NUL env c : sdp_ok c -> Forall (fun c => c <> NUL) (sdpBody c ++ sdpSuffix env c).
Proof.
  intros [_ Hc Hp [[_ Hf] _] [[_ Hh] _] [[_ Hs] _] _].
  destruct (printD_chars _ Hc) as [Hd _]. destruct (printU32_chars _ Hp) as [Hu _].
  unfold sdpBody. no_NUL; try apply suffix_no_NUL; try (repeat constructor; done);
    apply token_no_NUL; auto using number_tokenChars, tokenChars_typeString, tokenChars_transportString.
Qed.

Lemma suffix_blank env c : blankEnd (sdpSuffix env c).
Proof. unfold sdpSuffix. destruct (transport c); simpl; try done. by case_match. Qed.

(** The scanner reads the seven fields that were printed. *)
Lemma scanCandidate_body oor env c :
  sdp_ok c ->
  scanCandidate oor (sdpBody c ++ sdpSuffix env c)
  = Some (mkFields (foundation c) (component c) (transportString (transport c)) (priority c)
            (hostname c) (service c) (typeString (type c))).
Proof.
  intros [_ Hc Hp [Hf Hfl] [Hh Hhl] [Hs Hsl] _]. unfold scanCandidate, sdpBody.
  assert (Ht : token (transportString (transport c))).
  { split; [by destruct (transport c)|apply tokenChars_transportString]. }
  assert (Hy : token (typeString (type c))) by (split; [by destruct (type c)|apply tokenChars_typeString]).
  pose proof (typeString_length (type c)). pose proof (transportString_length (transport c)).
  repeat (rewrite <- ?app_assoc, <- ?app_comm_cons).
  rewrite scanS_token by (done || lia). cbn [mbind option_bind].
  rewrite scanD_scanSp, scanD_sp, scanD_print by (done || lia). cbn [mbind option_bind].
  rewrite scanS_scanSp, scanS_sp, scanS_token by (done || lia). cbn [mbind option_bind].
  rewrite scanU_scanSp, scanU_sp, scanU_print by done. cbn [mbind option_bind].
  rewrite scanS_scanSp, scanS_sp, scanS_token by done. cbn [mbind option_bind].
  rewrite scanS_scanSp, scanS_sp, scanS_token by done. cbn [mbind option_bind].
  match goal with |- context [scanSp (" "%char :: lit "typ" ++ ?r)] =>
    change (scanSp (" "%char :: lit "typ" ++ r)) with (lit "typ" ++ r) end.
  rewrite scanLit_app. cbn [mbind option_bind].
  by rewrite scanS_scanSp, scanS_sp, scanS_token by (done || lia || apply suffix_blank).
Qed.

Lemma typeFromString_typeString t : typeFromString (typeString t) = t.
Proof. by destruct t. Qed.

(** The first "tcptype " of a TCP candidate's line is the one [toSdp] wrote. *)
Lemma find_tcptype c r :
  sdp_ok c -> transport c <> UDP ->
  findSub (lit "tcptype ") (sdpBody c ++ " "%char :: r)
  = (fun n => S (length (sdpBody c)) + n)%nat <$> findSub (lit "tcptype ") r.
Proof.
  intros [_ Hc Hp [[_ Hf] _] [[_ Hh] _] [[_ Hs] _] Hno] Hu. specialize (Hno Hu).
  pose proof (Forall_inv Hno) as Nf. pose proof (Forall_inv (Forall_inv_tail Hno)) as Nh.
  pose proof (Forall_inv (Forall_inv_tail (Forall_inv_tail Hno))) as Ns.
  destruct (printD_chars _ Hc) as [Hd _]. destruct (printU32_chars _ Hp) as [Hup _].
  change (lit "tcptype ") with (lit "tcptype" ++ [" "%char]).
  assert (Hw : " "%char ∉ lit "tcptype") by (apply token_no_space; repeat constructor).
  assert (Nn : forall tok, Forall (fun c => isdigit c = true \/ c = "-"%char) tok ->
             ~ lit "tcptype" `suffix_of` tok).
  { intros tok. apply digits_no_suffix. left. split; done. }
  assert (Nt : ~ lit "tcptype" `suffix_of` transportString (transport c)).
  { intros Hx. apply suffix_length in Hx. rewrite transportString_length in Hx. simpl in Hx. lia. }
  assert (Ny : ~ lit "tcptype" `suffix_of` typeString (type c)).
  { intros [k Hk]. destruct (type c); repeat (destruct k as [|? k]; simplify_eq/=; try done). }
  assert (Np : ~ lit "tcptype" `suffix_of` lit "typ").
  { intros Hx. apply suffix_length in Hx. simpl in Hx. lia. }
  unfold sdpBody. repeat (rewrite <- ?app_assoc, <- ?app_comm_cons).
  rewrite !findSub_skip; eauto using token_no_space, number_tokenChars, tokenChars_typeString,
    tokenChars_transportString.
  - destruct (findSub _ r); [|done]. cbn [fmap option_fmap option_map]. f_equal.
    repeat first [rewrite length_app | progress cbn [length]]. lia.
  - apply token_no_space. repeat constructor.
Qed.

Lemma tcpTransport_line env c :
  sdp_ok c -> transport c <> UDP -> tcpTransport (sdpBody c ++ sdpSuffix env c) = transport c.
Proof.
  intros Hok Hu. unfold tcpTransport.
  assert (exists r, sdpSuffix env c = " "%char :: r /\ findSub (lit "tcptype ") r = Some 0%nat /\
            tcpWord (drop 8 r) = transport c) as (r & Er & Fr & Hr).
  { unfold sdpSuffix. destruct (transport c); [done| | |]; eexists; (split; [reflexivity|]);
      (split; [reflexivity|]); case_match; reflexivity. }
  rewrite Er, find_tcptype, Fr by done. cbn [fmap option_fmap option_map].
  rewrite drop_app_ge by lia.
  by replace (S (length (sdpBody c)) + 0 + 8 - length (sdpBody c))%nat with 9%nat by lia.
Qed.

(** The candidate a peer reconstructs from the line of [c]. *)
Definition received oor p4 p6 gai (c : Candidate) : Candidate :=
  mkCandidate (type c) (transport c) (priority c) (component c) (foundation c) (hostname c)
    (service c) (resolveCandidate oor p4 p6 gai (hostname c) (service c) (transport c)) false emptyAddr.

Lemma parse_toSdp oor p4 p6 gai env c out :
  sdp_ok c -> parse oor p4 p6 gai (toSdp env c) out = (true, received oor p4 p6 gai c).
Proof.
  intros Hok. rewrite toSdp_eq by done. unfold parse.
  assert (E : forall r, (if startsWith (lit "a=") (lit "a=candidate:" ++ r) then drop 2 (lit "a=candidate:" ++ r)
                         else lit "a=candidate:" ++ r) = lit "candidate:" ++ r) by done.
  rewrite E.
  assert (E' : forall r, (if startsWith (lit "candidate:") (lit "candidate:" ++ r)
                          then drop 10 (lit "candidate:" ++ r) else lit "candidate:" ++ r) = r).
  { intros r. by rewrite startsWith_app. }
  rewrite E', cstr_id, scanCandidate_body by eauto using sdpLine_no_NUL.
  cbn [f_type f_transport f_priority f_component f_foundation f_host f_port].
  rewrite typeFromString_typeString, bool_decide_eq_false_2 by apply Hok.
  unfold received. destruct (decide (transport c = UDP)) as [Et|Et].
  - rewrite Et. done.
  - rewrite tcpTransport_line by done. rewrite bool_decide_eq_true_2; [done|]. by destruct (transport c).
Qed.
