(* ===== verification/CandidatePair.v ===== *)
(** * ICE candidate pairs (include/stice/ice/candidatepair.hpp)

    The state of a pair in the check list and its priority (RFC 8445 section 6.1.2.3).  A
    pair points into the candidate deques of the two descriptions: a [CandRef] names the
    element and the generation of the deque, which changes when the description is assigned
    and its old elements are destroyed.  Both pointers of a pair are set where the program
    creates it, so the null checks on them have no counterpart.  Time points and durations
    are in milliseconds. *)

From S2P Require Import Prelude.
From S2P Require Import Candidate.
Open Scope Z_scope.
Open Scope c_scope.

Inductive PairState := Frozen | Pending | Succeeded | Failed.

#[export] Instance PairState_eq_dec : EqDecision PairState.
Proof. solve_decision. Defined.

Record CandRef := mkRef { gen : nat; idx : nat }.

#[export] Instance CandRef_eq_dec : EqDecision CandRef.
Proof. solve_decision. Defined.

Record CandidatePair := mkPair {
  local : CandRef; remote : CandRef; pairPriority : Z; state : PairState;
  nominated : bool; nominationRequested : bool; nominationValue : Z;
  consentExpiry : Z; nextTransmission : Z; retransmissionTimeout : Z; retransmissions : Z;
  pairTransactionID : bytes; transactionIdExpired : bool }.

#[export] Instance CandidatePair_fields : RecordFields CandidatePair := fun p =>
  mkPair (local p) (remote p) (pairPriority p) (state p) (nominated p) (nominationRequested p)
    (nominationValue p) (consentExpiry p) (nextTransmission p) (retransmissionTimeout p)
    (retransmissions p) (pairTransactionID p) (transactionIdExpired p).

(** A pair with the default member initialisers and its two pointers set. *)
Definition newPair (l r : CandRef) : CandidatePair :=
  mkPair l r 0 Frozen false false 0 0 0 500 0 (replicate 12 0) true.

(** Arithmetic of [std::uint64_t]. *)
Definition computePairPriority (localPriority remotePriority : Z) (localIsControlling : bool) : Z :=
  let g := if localIsControlling then localPriority else remotePriority in
  let d := if localIsControlling then remotePriority else localPriority in
  let min := if g <? d then g else d in
  let max := if d <? g then g else d in
  u64 (u64 (u64 ((1 <<. 32) - 1) * min) + u64 (max <<. 1) + (if d <? g then 1 else 0)).

(** [lc] and [rc] are the candidates the pair points to. *)
Definition updatePriority (p : CandidatePair) (lc rc : Candidate) (localIsControlling : bool) : CandidatePair :=
  p <| pairPriority := computePairPriority (priority lc) (priority rc) localIsControlling |>.

(** ** Specification *)

(** The formula of RFC 8445: [g] the controlling, [d] the controlled agent's priority. *)
Definition rfcPairPriority (g d : Z) : Z :=
  2 ^ 32 * Z.min g d + 2 * Z.max g d + (if d <? g then 1 else 0).

Lemma computePairPriority_val g d :
  fits 32 g -> fits 32 d ->
  computePairPriority g d true = rfcPairPriority g d - Z.min g d /\ fits 64 (computePairPriority g d true).
Proof.
  intros Hg Hd. unfold computePairPriority, rfcPairPriority.
  change (u64 ((1 <<. 32) - 1)) with (2 ^ 32 - 1). rewrite shiftl_mul by lia.
  split; [|apply wrap_fits; lia].
  destruct (Z.ltb_spec g d), (Z.ltb_spec d g); try lia;
    rewrite (wrap_id 64 ((2 ^ 32 - 1) * _)) by width; rewrite (wrap_id 64 (_ * 2 ^ 1)) by width;
    rewrite wrap_id by width; lia.
Qed.

Lemma computePairPriority_role l r b : computePairPriority l r b = computePairPriority r l (negb b).
Proof. by destruct b. Qed.

(** Pair priorities.  The two agents, one controlling and one controlled, compute the
    same priority for a pair, and no priority overflows 64 bits.  Although the code
    multiplies by 2^32 - 1 where RFC 8445 has 2^32, candidate priorities below 2^31, which
    all of [computePriority]'s are, make it order pairs exactly as the RFC does, and pairs of
    equal priority have equal candidate priorities on both sides. *)
Theorem pair_priority (l r l' r' : Z) (b : bool) :
  fits 31 l -> fits 31 r -> fits 31 l' -> fits 31 r' ->
  computePairPriority l r b = computePairPriority r l (negb b) /\
  fits 64 (computePairPriority l r b) /\
  (computePairPriority l r true < computePairPriority l' r' true <->
   rfcPairPriority l r < rfcPairPriority l' r') /\
  (computePairPriority l r b = computePairPriority l' r' b -> l = l' /\ r = r').
Proof.
  intros Hl Hr Hl' Hr'.
  assert (Hf : forall x, fits 31 x -> fits 32 x) by (intros x; width).
  assert (Hinj : forall g d g' d', fits 31 g -> fits 31 d -> fits 31 g' -> fits 31 d' ->
            computePairPriority g d true = computePairPriority g' d' true -> g = g' /\ d = d').
  { intros g d g' d' Hg Hd Hg' Hd' E.
    rewrite !(fun a b H H' => proj1 (computePairPriority_val a b H H')) in E by auto.
    unfold rfcPairPriority in E. repeat case_match; width. }
  split; [apply computePairPriority_role|]. split; [|split].
  - destruct b; [|rewrite computePairPriority_role]; apply computePairPriority_val; auto.
  - rewrite !(fun a b H H' => proj1 (computePairPriority_val a b H H')) by auto.
    unfold rfcPairPriority. repeat case_match; width.
  - destruct b; [by apply Hinj|]. rewrite (computePairPriority_role l r), (computePairPriority_role l' r').
    simpl. intros E. destruct (Hinj r l r' l' Hr Hl Hr' Hl' E). done.
Qed.

Lemma pair_priority_witness :
  fits 31 2130706431 /\ fits 31 1694498815 /\
  computePairPriority 2130706431 1694498815 true = computePairPriority 1694498815 2130706431 false.
Proof.
  assert (H1 : fits 31 2130706431) by (unfold fits; lia).
  assert (H2 : fits 31 1694498815) by (unfold fits; lia).
  split; [exact H1|]. split; [exact H2|].
  exact (proj1 (pair_priority 2130706431 1694498815 0 0 true H1 H2 ltac:(unfold fits; lia) ltac:(unfold fits; lia))).
Defined.
