(* ===== verification/Sdp.v ===== *)
(** * Session descriptions (include/stice/ice/sdp.hpp, src/ice/sdp.cpp)

    A [Description] is what one agent tells the other: credentials, candidates and flags.
    [generateSdp] prints it, [parse] reads the peer's text line by line, and
    [sortCandidates] orders candidates by priority.  [std::stable_sort] is an insertion sort
    that keeps the order of equal elements, which determines its result. *)

From Stdlib Require Import Ascii Sorted.
From S2P Require Import Prelude.
From S2P Require Import Crypto.
From S2P Require Import Addr.
From S2P Require Import CText.
From S2P Require Import Candidate.
Open Scope Z_scope.

Definition MaxCandidates : nat := 30.

Record Description := mkDescription {
  iceUfrag : text; icePwd : text; iceLite : bool; candidates : list Candidate; finished : bool }.

Definition newDescription : Description := mkDescription [] [] false [] false.

(** [rnd] answers the requests for random bytes. *)
Definition generateUfrag (rnd : nat -> option bytes) : text := lit (randomStr64 rnd 8).
Definition generatePwd (rnd : nat -> option bytes) : text := lit (randomStr64 rnd 24).

(** ** Sorting *)

Fixpoint insertCandidate (c : Candidate) (l : list Candidate) : list Candidate :=
  match l with
  | [] => [c]
  | d :: l' => if priority c <? priority d then d :: insertCandidate c l' else c :: l
  end.

Definition stableSort (l : list Candidate) : list Candidate := foldr insertCandidate [] l.

Definition sortCandidates (d : Description) : Description :=
  mkDescription (iceUfrag d) (icePwd d) (iceLite d) (stableSort (candidates d)) (finished d).

(** ** Printing *)

Definition CRLF : text := [CR; LF].

Definition generateSdp (env : option text) (d : Description) : text :=
  lit "a=ice-ufrag:" ++ iceUfrag d ++ CRLF ++ lit "a=ice-pwd:" ++ icePwd d ++ CRLF ++
  (if iceLite d then lit "a=ice-lite" ++ CRLF else []) ++
  mjoin ((fun c => if bool_decide (type c = PeerReflexive) then [] else toSdp env c ++ CRLF)
         <$> candidates d) ++
  (if finished d then lit "a=end-of-candidates" ++ CRLF ++ lit "a=ice-options:ice2" ++ CRLF
   else lit "a=ice-options:ice2,trickle" ++ CRLF).

(** ** Parsing *)

Definition stripCR (line : text) : text :=
  match rev line with
  | c :: r => if bool_decide (c = CR) then rev r else line
  | [] => line
  end.

Section Parse.
Context (outOfRange : Z -> Z).
Context (inet_pton4 inet_pton6 : string -> option bytes).
Context (getaddrinfo : string -> string -> Z -> list AddrRecord).

Definition addCandidateFromSdp (d : Description) (line : text) : bool * Description :=
  if (MaxCandidates <=? length (candidates d))%nat then (false, d)
  else
    let '(ok, c) := Candidate.parse outOfRange inet_pton4 inet_pton6 getaddrinfo line newCandidate in
    if ok then (true, mkDescription (iceUfrag d) (icePwd d) (iceLite d) (candidates d ++ [c]) (finished d))
    else (false, d).

Definition parseLine (d : Description) (line : text) : Description :=
  let line := stripCR line in
  if bool_decide (line = []) then d
  else if startsWith (lit "a=ice-ufrag:") line then
    mkDescription (drop 12 line) (icePwd d) (iceLite d) (candidates d) (finished d)
  else if startsWith (lit "a=ice-pwd:") line then
    mkDescription (iceUfrag d) (drop 10 line) (iceLite d) (candidates d) (finished d)
  else if bool_decide (line = lit "a=ice-lite") then
    mkDescription (iceUfrag d) (icePwd d) true (candidates d) (finished d)
  else if bool_decide (line = lit "a=end-of-candidates") then
    mkDescription (iceUfrag d) (icePwd d) (iceLite d) (candidates d) true
  else if startsWith (lit "a=candidate:") line then (addCandidateFromSdp d line).2
  else d.

Definition parse (d : Description) (sdp : text) : bool * Description :=
  let d := sortCandidates (foldl parseLine d (lines LF sdp)) in
  (negb (bool_decide (iceUfrag d = [])) && negb (bool_decide (icePwd d = [])), d).

End Parse.

(** ** Sorting *)

Definition descending (l : list Candidate) : Prop := StronglySorted (fun a b => priority b <= priority a) l.

Lemma insertCandidate_perm c l : insertCandidate c l ≡ₚ c :: l.
Proof.
  induction l as [|d l IH]; simpl; [done|]. case_match; [|done].
  rewrite IH. constructor.
Qed.

Lemma stableSort_perm l : stableSort l ≡ₚ l.
Proof. induction l as [|c l IH]; simpl; [done|]. by rewrite insertCandidate_perm, IH. Qed.

Lemma insertCandidate_sorted c l : descending l -> descending (insertCandidate c l).
Proof.
  induction 1 as [|d l Hs IH Hd]; simpl; [by repeat constructor|].
  destruct (Z.ltb_spec (priority c) (priority d)).
  - constructor; [done|]. rewrite insertCandidate_perm. constructor; [lia|done].
  - constructor; [by constructor|]. constructor; [lia|].
    eapply Forall_impl; [exact Hd|]. simpl. intros; lia.
Qed.

Lemma stableSort_sorted l : descending (stableSort l).
Proof. induction l; simpl; [constructor|]. by apply insertCandidate_sorted. Qed.

Lemma insertCandidate_filter p c l :
  descending l ->
  filter (fun d => priority d = p) (insertCandidate c l) = filter (fun d => priority d = p) (c :: l).
Proof.
  induction 1 as [|d l Hs IH Hd]; [done|]. cbn [insertCandidate].
  destruct (Z.ltb_spec (priority c) (priority d)); [|done].
  rewrite !filter_cons, IH, filter_cons. repeat case_decide; try done. lia.
Qed.

(** Candidates of equal priority keep their order. *)
Lemma stableSort_stable p l :
  filter (fun d => priority d = p) (stableSort l) = filter (fun d => priority d = p) l.
Proof.
  induction l as [|c l IH]; [done|]. cbn [stableSort foldr].
  rewrite insertCandidate_filter by apply stableSort_sorted. rewrite !filter_cons.
  fold (stableSort l). by rewrite IH.
Qed.

(** ** Lines *)

Lemma join_cons' (x : text) l : mjoin (x :: l) = x ++ mjoin l.
Proof. done. Qed.

Lemma getlines_line acc l r :
  LF ∉ l -> getlines LF acc (l ++ LF :: r) = (acc ++ l) :: getlines LF [] r.
Proof.
  revert acc. induction l as [|c l IH]; intros acc Hl; simpl.
  - by rewrite app_nil_r.
  - rewrite bool_decide_eq_false_2 by set_solver. rewrite IH by set_solver. by rewrite <- app_assoc.
Qed.

Lemma lines_crlf ls :
  Forall (fun l => LF ∉ l) ls -> lines LF (mjoin ((fun l => l ++ CRLF) <$> ls)) = (fun l => l ++ [CR]) <$> ls.
Proof.
  unfold lines. induction 1 as [|l ls Hl Hls IH]; [done|]. cbn [fmap list_fmap mjoin list_join].
  replace ((l ++ CRLF) ++ mjoin ((fun l => l ++ CRLF) <$> ls))
    with ((l ++ [CR]) ++ LF :: mjoin ((fun l => l ++ CRLF) <$> ls)) by (by rewrite <- !app_assoc).
  rewrite getlines_line.
  - by rewrite IH.
  - intros H. apply elem_of_app in H as [?|H]; [done|]. set_solver.
Qed.

Lemma stripCR_line l : stripCR (l ++ [CR]) = l.
Proof.
  unfold stripCR. rewrite rev_app_distr. cbn [rev app].
  by rewrite bool_decide_eq_true_2, rev_involutive.
Qed.

(** The lines of a description. *)
Definition sdpLines (env : option text) (d : Description) : list text :=
  [lit "a=ice-ufrag:" ++ iceUfrag d; lit "a=ice-pwd:" ++ icePwd d] ++
  (if iceLite d then [lit "a=ice-lite"] else []) ++
  (toSdp env <$> filter (fun c => type c <> PeerReflexive) (candidates d)) ++
  (if finished d then [lit "a=end-of-candidates"; lit "a=ice-options:ice2"]
   else [lit "a=ice-options:ice2,trickle"]).

Lemma generateSdp_lines env d :
  generateSdp env d = mjoin ((fun l => l ++ CRLF) <$> sdpLines env d).
Proof.
  assert (E : mjoin ((fun c => if bool_decide (type c = PeerReflexive) then [] else toSdp env c ++ CRLF)
                     <$> candidates d)
              = mjoin ((fun l => l ++ CRLF) <$> (toSdp env <$> filter (fun c => type c <> PeerReflexive) (candidates d)))).
  { induction (candidates d) as [|c l IH]; [done|].
    rewrite filter_cons, fmap_cons, join_cons', IH.
    case_decide; case_bool_decide; try done; congruence. }
  unfold generateSdp, sdpLines. rewrite !fmap_app, !join_app, E. generalize (mjoin ((fun l => l ++ CRLF) <$>
    (toSdp env <$> filter (fun c => type c <> PeerReflexive) (candidates d)))).
  intros x. destruct (iceLite d), (finished d); rewrite !fmap_cons, !fmap_nil, !join_cons';
    repeat (rewrite <- ?app_assoc; cbn [app mjoin list_join]); done.
Qed.

(** ** The round trip *)

(** A description whose text the peer can read: the credentials are tokens, the lines of the
    candidates are readable, and there are not too many. *)
Record desc_ok (d : Description) : Prop := {
  do_ufrag : token (iceUfrag d); do_pwd : token (icePwd d);
  do_candidates : Forall sdp_ok (filter (fun c => type c <> PeerReflexive) (candidates d));
  do_count : (length (filter (fun c => type c <> PeerReflexive) (candidates d)) <= MaxCandidates)%nat }.

Lemma token_no_LF s : Forall (fun c => tokenChar c = true) s -> LF ∉ s.
Proof. intros H Hin. rewrite Forall_forall in H. by specialize (H _ Hin). Qed.

Lemma lit_no_LF (s : string) : forallb (fun c => negb (bool_decide (c = LF))) (lit s) = true -> LF ∉ lit s.
Proof.
  intros H Hin. rewrite forallb_forall in H. apply list_elem_of_In in Hin. specialize (H _ Hin).
  by rewrite bool_decide_eq_true_2 in H.
Qed.

Lemma toSdp_no_LF env c : sdp_ok c -> LF ∉ toSdp env c.
Proof.
  intros Hok. rewrite toSdp_eq by done. destruct Hok as [_ Hc Hp [[_ Hf] _] [[_ Hh] _] [[_ Hs] _] _].
  destruct (printD_chars _ Hc) as [Hd _]. destruct (printU32_chars _ Hp) as [Hu _].
  assert (Hx : LF ∉ sdpSuffix env c).
  { unfold sdpSuffix. destruct (transport c); case_match; by apply lit_no_LF || set_solver. }
  assert (LF ∉ lit "a=candidate:") by by apply lit_no_LF.
  assert (LF ∉ lit "typ") by by apply lit_no_LF.
  unfold sdpBody. repeat (rewrite elem_of_app || rewrite elem_of_cons).
  pose proof (token_no_LF _ Hf). pose proof (token_no_LF _ Hh). pose proof (token_no_LF _ Hs).
  pose proof (token_no_LF _ (number_tokenChars _ Hd)). pose proof (token_no_LF _ (number_tokenChars _ Hu)).
  pose proof (token_no_LF _ (tokenChars_typeString (type c))).
  pose proof (token_no_LF _ (tokenChars_transportString (transport c))).
  assert (LF <> " "%char) by done. tauto.
Qed.

Lemma sdpLines_no_LF env d : desc_ok d -> Forall (fun l => LF ∉ l) (sdpLines env d).
Proof.
  intros [[_ Hu] [_ Hp] Hc _]. unfold sdpLines.
  assert (H1 : LF ∉ lit "a=ice-ufrag:") by by apply lit_no_LF.
  assert (H2 : LF ∉ lit "a=ice-pwd:") by by apply lit_no_LF.
  apply Forall_app. split.
  { repeat constructor; rewrite elem_of_app; pose proof (token_no_LF _ Hu); pose proof (token_no_LF _ Hp); tauto. }
  apply Forall_app. split; [destruct (iceLite d); repeat constructor; by apply lit_no_LF|].
  apply Forall_app. split; [|destruct (finished d); repeat constructor; by apply lit_no_LF].
  apply Forall_fmap. eapply Forall_impl; [exact Hc|]. intros c. apply toSdp_no_LF.
Qed.

Section RoundTrip.
Context (oor : Z -> Z) (p4 p6 : string -> option bytes) (gai : string -> string -> Z -> list AddrRecord).

Abbreviation readLine := (parseLine oor p4 p6 gai).

Lemma parseLine_ufrag d u :
  readLine d ((lit "a=ice-ufrag:" ++ u) ++ [CR])
  = mkDescription u (icePwd d) (iceLite d) (candidates d) (finished d).
Proof. unfold parseLine. by rewrite stripCR_line, startsWith_app, bool_decide_eq_false_2. Qed.

Lemma parseLine_pwd d u :
  readLine d ((lit "a=ice-pwd:" ++ u) ++ [CR])
  = mkDescription (iceUfrag d) u (iceLite d) (candidates d) (finished d).
Proof.
  unfold parseLine. rewrite stripCR_line, startsWith_app, bool_decide_eq_false_2 by done.
  assert (E : startsWith (lit "a=ice-ufrag:") (lit "a=ice-pwd:" ++ u) = false) by done. by rewrite E.
Qed.

Lemma parseLine_candidate env d c :
  sdp_ok c -> (length (candidates d) < MaxCandidates)%nat ->
  readLine d (toSdp env c ++ [CR])
  = mkDescription (iceUfrag d) (icePwd d) (iceLite d) (candidates d ++ [received oor p4 p6 gai c]) (finished d).
Proof.
  intros Hok Hn. unfold parseLine. rewrite stripCR_line.
  pose proof (parse_toSdp oor p4 p6 gai env c newCandidate Hok) as Hp.
  rewrite toSdp_eq in * by done. generalize dependent (sdpBody c ++ sdpSuffix env c). intros r Hp.
  assert (E1 : startsWith (lit "a=ice-ufrag:") (lit "a=candidate:" ++ r) = false) by done.
  assert (E2 : startsWith (lit "a=ice-pwd:") (lit "a=candidate:" ++ r) = false) by done.
  rewrite E1, E2, startsWith_app, !bool_decide_eq_false_2 by discriminate.
  unfold addCandidateFromSdp. rewrite (proj2 (Nat.leb_gt _ _)) by done. by rewrite Hp.
Qed.

Lemma parse_candidates env d cs :
  Forall sdp_ok cs -> (length (candidates d) + length cs <= MaxCandidates)%nat ->
  foldl readLine d ((fun l => l ++ [CR]) <$> (toSdp env <$> cs))
  = mkDescription (iceUfrag d) (icePwd d) (iceLite d)
      (candidates d ++ (received oor p4 p6 gai <$> cs)) (finished d).
Proof.
  intros H. revert d. induction H as [|c cs Hc Hcs IH]; intros d Hn; cbn [fmap list_fmap foldl].
  - rewrite app_nil_r. by destruct d.
  - cbn [length] in Hn. rewrite parseLine_candidate by (done || lia). rewrite IH; cbn [candidates].
    + by rewrite <- app_assoc.
    + rewrite length_app. cbn [length]. lia.
Qed.

(** C40: session descriptions survive the exchange.  The text [generateSdp] prints for a
    description with token credentials and at most thirty readable candidates is accepted by
    the peer's [parse], which recovers the credentials, both flags and exactly the candidates
    that are not peer-reflexive, field by field, now sorted: the list is a permutation in
    order of decreasing priority in which candidates of equal priority keep their order. *)
Theorem description_roundtrip (env : option text) (d : Description) :
  desc_ok d ->
  let sent := received oor p4 p6 gai <$> filter (fun c => type c <> PeerReflexive) (candidates d) in
  exists l, parse oor p4 p6 gai newDescription (generateSdp env d)
            = (true, mkDescription (iceUfrag d) (icePwd d) (iceLite d) l (finished d)) /\
    l ≡ₚ sent /\ descending l /\
    forall p, filter (fun c => priority c = p) l = filter (fun c => priority c = p) sent.
Proof.
  intros Hok sent. exists (stableSort sent).
  split; [|split; [apply stableSort_perm|split; [apply stableSort_sorted|intros; apply stableSort_stable]]].
  unfold parse. rewrite generateSdp_lines, lines_crlf by by apply sdpLines_no_LF.
  destruct Hok as [[Hu _] [Hp _] Hc Hn]. unfold sdpLines.
  rewrite !fmap_app, !foldl_app. cbn [fmap list_fmap foldl].
  rewrite parseLine_ufrag, parseLine_pwd.
  assert (E : foldl readLine (mkDescription (iceUfrag d) (icePwd d) false [] false)
                ((fun l => l ++ [CR]) <$> (if iceLite d then [lit "a=ice-lite"] else []))
              = mkDescription (iceUfrag d) (icePwd d) (iceLite d) [] false) by by destruct (iceLite d).
  cbn [newDescription iceUfrag icePwd iceLite candidates finished].
  rewrite E, parse_candidates by done. fold sent. cbn [app iceUfrag icePwd iceLite candidates finished].
  assert (E' : forall x, foldl readLine (mkDescription (iceUfrag d) (icePwd d) (iceLite d) x false)
                ((fun l => l ++ [CR]) <$> (if finished d then [lit "a=end-of-candidates"; lit "a=ice-options:ice2"]
                  else [lit "a=ice-options:ice2,trickle"]))
              = mkDescription (iceUfrag d) (icePwd d) (iceLite d) x (finished d)) by by destruct (finished d).
  rewrite E'. cbn. by rewrite !bool_decide_eq_false_2.
Qed.

End RoundTrip.

Definition sampleHost : Candidate :=
  mkCandidate Host UDP 2130706431 1 (lit "1") (lit "10.0.0.2") (lit "5000") emptyAddr false emptyAddr.
Definition sampleRelay : Candidate :=
  mkCandidate Relayed TCPActive 14680063 1 (lit "2") (lit "192.0.2.9") (lit "49152") emptyAddr false emptyAddr.
Definition sampleDescription : Description :=
  mkDescription (lit "F7gI") (lit "x9cml/YzichV2+XlhiMu8g") false [sampleRelay; sampleHost] true.

Lemma sampleDescription_ok : desc_ok sampleDescription.
Proof.
  assert (H : forall t, forallb tokenChar t = true -> Forall (fun c => tokenChar c = true) t).
  { intros t Ht. apply Forall_forall. intros c Hc. rewrite forallb_forall in Ht.
    by apply Ht, list_elem_of_In. }
  assert (Hs : forall f, last f <> Some "e"%char -> ~ lit "tcptype" `suffix_of` f).
  { intros f Hf [k ->]. apply Hf. by rewrite last_app. }
  split; try (split; [done|by apply H]); [|vm_compute; lia].
  change (Forall sdp_ok [sampleRelay; sampleHost]).
  assert (Ht : forall t w, t <> [] -> forallb tokenChar t = true -> (length t <=? w)%nat = true ->
             token t /\ (length t <= w)%nat).
  { intros t w H1 H2 H3. split; [split; [done|by apply H]|by apply Nat.leb_le]. }
  repeat apply Forall_cons_2; [| |constructor]; split; try (by apply Ht); try done; try (cbn; lia).
  intros _. repeat apply Forall_cons_2; [| | |constructor]; by apply Hs.
Qed.

Lemma description_roundtrip_witness :
  desc_ok sampleDescription /\
  exists l, parse (fun _ => 0) (fun _ => None) (fun _ => None) (fun _ _ _ => []) newDescription
              (generateSdp None sampleDescription)
            = (true, mkDescription (lit "F7gI") (lit "x9cml/YzichV2+XlhiMu8g") false l true) /\
    l = [sampleHost; sampleRelay].
Proof.
  split; [exact sampleDescription_ok|].
  destruct (description_roundtrip (fun _ => 0) (fun _ => None) (fun _ => None) (fun _ _ _ => []) None
              sampleDescription sampleDescription_ok) as (l & E & _).
  exists l. split; [exact E|]. vm_compute in E. injection E as <-. reflexivity.
Defined.
