(* ===== verification/Config.v ===== *)
(** * The configuration file of stserver (include/stice/stserver/config.hpp,
      src/stserver/config.cpp)

    [load] is a function of the file's contents, [None] when it cannot be opened.  Its
    result is [None] where the source returns false, after which the program ends.  Log
    output is left out.  The theorems say which files are accepted and what every setting is
    afterwards, and that the server can start from every accepted configuration. *)

From Stdlib Require Import Ascii.
From S2P Require Import Prelude.
From S2P Require Import StateMonad.
From S2P Require Import Addr.
From S2P Require Import CText.
From S2P Require Import TurnState.
From S2P Require Import TurnServer.
From S2P Require Import TurnSafe.
Open Scope Z_scope.

Record Config := mkConfig {
  listenAddress : text; relayAddress : text; udpPort : Z; tcpPort : Z; realm : text;
  users : gmap string string; maxAllocations : Z; allocationLifetime : Z;
  nonceLifetimeSec : Z; relayPortBegin : Z; relayPortEnd : Z; logLevel : text; workerCount : Z }.

Definition newConfig : Config :=
  mkConfig (lit "0.0.0.0") [] 3478 3478 (lit "stserver") ∅ 2000 600 1800 40000 48999 (lit "info") 4.

(** Assignments to the members. *)
Definition set_listenAddress (v : text) (c : Config) : Config :=
  mkConfig v (relayAddress c) (udpPort c) (tcpPort c) (realm c) (users c) (maxAllocations c)
    (allocationLifetime c) (nonceLifetimeSec c) (relayPortBegin c) (relayPortEnd c)
    (logLevel c) (workerCount c).
Definition set_relayAddress (v : text) (c : Config) : Config :=
  mkConfig (listenAddress c) v (udpPort c) (tcpPort c) (realm c) (users c) (maxAllocations
    c) (allocationLifetime c) (nonceLifetimeSec c) (relayPortBegin c) (relayPortEnd c)
    (logLevel c) (workerCount c).
Definition set_udpPort (v : Z) (c : Config) : Config :=
  mkConfig (listenAddress c) (relayAddress c) v (tcpPort c) (realm c) (users c)
    (maxAllocations c) (allocationLifetime c) (nonceLifetimeSec c) (relayPortBegin c)
    (relayPortEnd c) (logLevel c) (workerCount c).
Definition set_tcpPort (v : Z) (c : Config) : Config :=
  mkConfig (listenAddress c) (relayAddress c) (udpPort c) v (realm c) (users c)
    (maxAllocations c) (allocationLifetime c) (nonceLifetimeSec c) (relayPortBegin c)
    (relayPortEnd c) (logLevel c) (workerCount c).
Definition set_realm (v : text) (c : Config) : Config :=
  mkConfig (listenAddress c) (relayAddress c) (udpPort c) (tcpPort c) v (users c)
    (maxAllocations c) (allocationLifetime c) (nonceLifetimeSec c) (relayPortBegin c)
    (relayPortEnd c) (logLevel c) (workerCount c).
Definition set_maxAllocations (v : Z) (c : Config) : Config :=
  mkConfig (listenAddress c) (relayAddress c) (udpPort c) (tcpPort c) (realm c) (users c) v
    (allocationLifetime c) (nonceLifetimeSec c) (relayPortBegin c) (relayPortEnd c)
    (logLevel c) (workerCount c).
Definition set_allocationLifetime (v : Z) (c : Config) : Config :=
  mkConfig (listenAddress c) (relayAddress c) (udpPort c) (tcpPort c) (realm c) (users c)
    (maxAllocations c) v (nonceLifetimeSec c) (relayPortBegin c) (relayPortEnd c) (logLevel
    c) (workerCount c).
Definition set_nonceLifetimeSec (v : Z) (c : Config) : Config :=
  mkConfig (listenAddress c) (relayAddress c) (udpPort c) (tcpPort c) (realm c) (users c)
    (maxAllocations c) (allocationLifetime c) v (relayPortBegin c) (relayPortEnd c)
    (logLevel c) (workerCount c).
Definition set_relayPortBegin (v : Z) (c : Config) : Config :=
  mkConfig (listenAddress c) (relayAddress c) (udpPort c) (tcpPort c) (realm c) (users c)
    (maxAllocations c) (allocationLifetime c) (nonceLifetimeSec c) v (relayPortEnd c)
    (logLevel c) (workerCount c).
Definition set_relayPortEnd (v : Z) (c : Config) : Config :=
  mkConfig (listenAddress c) (relayAddress c) (udpPort c) (tcpPort c) (realm c) (users c)
    (maxAllocations c) (allocationLifetime c) (nonceLifetimeSec c) (relayPortBegin c) v
    (logLevel c) (workerCount c).
Definition set_logLevel (v : text) (c : Config) : Config :=
  mkConfig (listenAddress c) (relayAddress c) (udpPort c) (tcpPort c) (realm c) (users c)
    (maxAllocations c) (allocationLifetime c) (nonceLifetimeSec c) (relayPortBegin c)
    (relayPortEnd c) v (workerCount c).
Definition set_workerCount (v : Z) (c : Config) : Config :=
  mkConfig (listenAddress c) (relayAddress c) (udpPort c) (tcpPort c) (realm c) (users c)
    (maxAllocations c) (allocationLifetime c) (nonceLifetimeSec c) (relayPortBegin c)
    (relayPortEnd c) (logLevel c) v.

(** ** Helpers *)

Definition trim (s : text) : text :=
  trimBy (fun c => bool_decide (c = " "%char) || bool_decide (c = "009"%char) || bool_decide (c = CR)) s.

Definition addUser (out : gmap string string) (item : text) : gmap string string :=
  let item := trim item in
  if bool_decide (item = []) then out
  else match findChar ":"%char item with
       | None => out
       | Some colon =>
           let u := trim (take colon item) in
           let p := trim (drop (colon + 1) item) in
           if bool_decide (u = []) then out else <[str u := str p]> out
       end.

Definition parseUsersList (val : text) (out : gmap string string) : gmap string string :=
  foldl addUser out (lines ","%char val).

Definition normalizeKey (s : text) : text :=
  tolower <$> filter (fun c => c <> "_"%char /\ c <> "-"%char) s.

(** [std::stoll] throws without a digit and outside [long long]; both are caught. *)
Definition parseRange (val : text) (lo hi : Z) : option Z :=
  '(v, rest) ← scanInt val;
  if (v <? - 2 ^ 63) || (2 ^ 63 <=? v) then None
  else if bool_decide (dropWhile isspace rest = []) && (lo <=? v) && (v <=? hi) then Some v
  else None.

(** ** Loading *)

(** The configuration and the three local strings of [load]. *)
Record Loading := mkLoading { cfg : Config; userVal : text; passVal : text; usersVal : text }.

Definition stripBOM (line : text) : text :=
  match line with
  | a :: b :: c :: r =>
      if (code a =? 0xEF) && (code b =? 0xBB) && (code c =? 0xBF) then r else line
  | _ => line
  end.

(** Key and value of a line; [None] for comments and lines that set nothing. *)
Definition splitLine (line : text) : option (text * text) :=
  match trim line with
  | [] => None
  | c :: r =>
      let t := c :: r in
      if bool_decide (c = "#"%char) then None
      else match findChar "="%char t with
           | None => None
           | Some eq =>
               let key := trim (take eq t) in
               let val := trim (drop (eq + 1) t) in
               if bool_decide (key = []) then None else Some (normalizeKey key, val)
           end
  end.

Definition setting (l : Loading) (nk val : text) : option Loading :=
  let put f := mkLoading (f (cfg l)) (userVal l) (passVal l) (usersVal l) in
  let num lo hi f := n ← parseRange val lo hi; Some (put (f n)) in
  if bool_decide (nk = lit "listenaddress") then Some (put (set_listenAddress val))
  else if bool_decide (nk = lit "relayaddress") then Some (put (set_relayAddress val))
  else if bool_decide (nk = lit "udpport") then num 1 65535 (fun n => set_udpPort (u16 n))
  else if bool_decide (nk = lit "tcpport") then num 1 65535 (fun n => set_tcpPort (u16 n))
  else if bool_decide (nk = lit "realm") then Some (put (set_realm val))
  else if bool_decide (nk = lit "user") then Some (mkLoading (cfg l) val (passVal l) (usersVal l))
  else if bool_decide (nk = lit "password") then Some (mkLoading (cfg l) (userVal l) val (usersVal l))
  else if bool_decide (nk = lit "users") then Some (mkLoading (cfg l) (userVal l) (passVal l) val)
  else if bool_decide (nk = lit "maxallocations") then num 1 1000000 set_maxAllocations
  else if bool_decide (nk = lit "allocationlifetime") then
    num 10 86400 (fun n => set_allocationLifetime (u32 n))
  else if bool_decide (nk = lit "noncelifetimesec") then
    num 1 86400 (fun n => set_nonceLifetimeSec (u32 n))
  else if bool_decide (nk = lit "relayportbegin") then
    num 1024 65535 (fun n => set_relayPortBegin (u16 n))
  else if bool_decide (nk = lit "relayportend") then num 1024 65535 (fun n => set_relayPortEnd (u16 n))
  else if bool_decide (nk = lit "loglevel") then Some (put (set_logLevel val))
  else if bool_decide (nk = lit "workercount") then num 1 256 set_workerCount
  else Some l.

Fixpoint loadLines (first : bool) (l : Loading) (ls : list text) : option Loading :=
  match ls with
  | [] => Some l
  | line :: ls =>
      let line := if first then stripBOM line else line in
      l ← match splitLine line with
          | None => Some l
          | Some (nk, val) => setting l nk val
          end;
      loadLines false l ls
  end.

(** After the last line: the port range is put in order and the credentials resolved. *)
Definition finishLoad (l : Loading) : Config :=
  let c := cfg l in
  let '(b, e) := if relayPortEnd c <? relayPortBegin c then (relayPortEnd c, relayPortBegin c)
                 else (relayPortBegin c, relayPortEnd c) in
  let us := if negb (bool_decide (usersVal l = [])) then parseUsersList (usersVal l) ∅
            else if negb (bool_decide (userVal l = [])) then {[ str (userVal l) := str (passVal l) ]}
            else users c in
  mkConfig (listenAddress c) (relayAddress c) (udpPort c) (tcpPort c) (realm c) us
    (maxAllocations c) (allocationLifetime c) (nonceLifetimeSec c) b e (logLevel c) (workerCount c).

Definition load (c : Config) (file : option text) : option Config :=
  contents ← file;
  l ← loadLines true (mkLoading c [] [] []) (lines LF contents);
  Some (finishLoad l).

(** ** Specification *)

(** The settings of a file in order: normalised keys with their values. *)
Definition settings (file : text) : list (text * text) :=
  match lines LF file with
  | [] => []
  | line :: ls => omap splitLine (stripBOM line :: ls)
  end.

(** The keys whose values are numbers, with their ranges. *)
Definition numericRange (nk : text) : option (Z * Z) :=
  if bool_decide (nk = lit "udpport") then Some (1, 65535)
  else if bool_decide (nk = lit "tcpport") then Some (1, 65535)
  else if bool_decide (nk = lit "maxallocations") then Some (1, 1000000)
  else if bool_decide (nk = lit "allocationlifetime") then Some (10, 86400)
  else if bool_decide (nk = lit "noncelifetimesec") then Some (1, 86400)
  else if bool_decide (nk = lit "relayportbegin") then Some (1024, 65535)
  else if bool_decide (nk = lit "relayportend") then Some (1024, 65535)
  else if bool_decide (nk = lit "workercount") then Some (1, 256)
  else None.

(** A setting is valid unless its key wants a number and its value is no number in range. *)
Definition valid_setting (kv : text * text) : Prop :=
  match numericRange kv.1 with
  | Some (lo, hi) => exists v rest, scanInt kv.2 = Some (v, rest) /\ dropWhile isspace rest = [] /\
                       lo <= v <= hi
  | None => True
  end.

(** The last value given to a key. *)
Definition textOf (k : text) (dflt : text) (kvs : list (text * text)) : text :=
  foldl (fun d kv => if bool_decide (kv.1 = k) then kv.2 else d) dflt kvs.

Definition numberOf (k : text) (dflt : Z) (kvs : list (text * text)) : Z :=
  foldl (fun d kv => if bool_decide (kv.1 = k)
                     then match scanInt kv.2 with Some (v, _) => v | None => d end else d) dflt kvs.

Lemma parseRange_spec val lo hi :
  - 2 ^ 63 <= lo -> hi < 2 ^ 63 ->
  match parseRange val lo hi with
  | Some v => lo <= v <= hi /\ exists rest, scanInt val = Some (v, rest) /\ dropWhile isspace rest = []
  | None => ~ exists v rest, scanInt val = Some (v, rest) /\ dropWhile isspace rest = [] /\ lo <= v <= hi
  end.
Proof.
  intros Hlo Hhi. unfold parseRange. destruct (scanInt val) as [[v rest]|] eqn:E; simpl.
  2: { intros (v & rest & ? & _). done. }
  destruct ((v <? - 2 ^ 63) || (2 ^ 63 <=? v)) eqn:E1.
  { intros (v' & rest' & ? & _ & ?). simplify_eq. apply orb_true_iff in E1. lia. }
  destruct (bool_decide (dropWhile isspace rest = []) && (lo <=? v) && (v <=? hi)) eqn:E2.
  - apply andb_true_iff in E2 as [E2 ?]. apply andb_true_iff in E2 as [E2%bool_decide_eq_true ?].
    split; [lia|]. by exists rest.
  - intros (v' & rest' & ? & Hr & ?). simplify_eq.
    rewrite bool_decide_eq_true_2 in E2 by done. lia.
Qed.

(** Comparison of two literals is decided by evaluation. *)
Ltac eval_keys :=
  repeat match goal with
  | |- context [bool_decide (lit ?a = lit ?b)] =>
      let v := eval vm_compute in (bool_decide (lit a = lit b)) in
      change (bool_decide (lit a = lit b)) with v
  | H : context [bool_decide (lit ?a = lit ?b)] |- _ =>
      let v := eval vm_compute in (bool_decide (lit a = lit b)) in
      change (bool_decide (lit a = lit b)) with v in H
  end.

(** What a list of settings makes of the members. *)
Record loaded (l : Loading) (kvs : list (text * text)) (l' : Loading) : Prop := {
  ld_listenAddress : listenAddress (cfg l') = textOf (lit "listenaddress") (listenAddress (cfg l)) kvs;
  ld_relayAddress : relayAddress (cfg l') = textOf (lit "relayaddress") (relayAddress (cfg l)) kvs;
  ld_realm : realm (cfg l') = textOf (lit "realm") (realm (cfg l)) kvs;
  ld_logLevel : logLevel (cfg l') = textOf (lit "loglevel") (logLevel (cfg l)) kvs;
  ld_user : userVal l' = textOf (lit "user") (userVal l) kvs;
  ld_password : passVal l' = textOf (lit "password") (passVal l) kvs;
  ld_users : usersVal l' = textOf (lit "users") (usersVal l) kvs;
  ld_udpPort : udpPort (cfg l') = numberOf (lit "udpport") (udpPort (cfg l)) kvs;
  ld_tcpPort : tcpPort (cfg l') = numberOf (lit "tcpport") (tcpPort (cfg l)) kvs;
  ld_maxAllocations : maxAllocations (cfg l') = numberOf (lit "maxallocations") (maxAllocations (cfg l)) kvs;
  ld_allocationLifetime :
    allocationLifetime (cfg l') = numberOf (lit "allocationlifetime") (allocationLifetime (cfg l)) kvs;
  ld_nonceLifetimeSec :
    nonceLifetimeSec (cfg l') = numberOf (lit "noncelifetimesec") (nonceLifetimeSec (cfg l)) kvs;
  ld_relayPortBegin : relayPortBegin (cfg l') = numberOf (lit "relayportbegin") (relayPortBegin (cfg l)) kvs;
  ld_relayPortEnd : relayPortEnd (cfg l') = numberOf (lit "relayportend") (relayPortEnd (cfg l)) kvs;
  ld_workerCount : workerCount (cfg l') = numberOf (lit "workercount") (workerCount (cfg l)) kvs;
  ld_table : users (cfg l') = users (cfg l) }.

Lemma loaded_nil l : loaded l [] l.
Proof. by split. Qed.

Lemma loaded_trans l kvs l' kvs' l'' :
  loaded l kvs l' -> loaded l' kvs' l'' -> loaded l (kvs ++ kvs') l''.
Proof.
  intros [] []. split; try (unfold textOf, numberOf in *; rewrite foldl_app; congruence). congruence.
Qed.

(** One setting: a number that is not in range is refused; otherwise exactly the member the
    key names changes. *)
Lemma setting_spec l nk val :
  match setting l nk val with
  | Some l' => valid_setting (nk, val) /\ loaded l [(nk, val)] l'
  | None => ~ valid_setting (nk, val)
  end.
Proof.
  unfold setting, valid_setting, numericRange. cbn [fst snd].
  repeat match goal with
  | |- context [if bool_decide (nk = lit ?k) then _ else _] =>
      destruct (decide (nk = lit k)) as [->|]; [eval_keys; cbv iota|
        rewrite !(bool_decide_eq_false_2 (nk = lit k)) by done]
  end.
  all: try (split; [done|]; split; unfold textOf, numberOf; cbn [foldl fst snd cfg userVal passVal usersVal];
    eval_keys; try done; by rewrite ?bool_decide_eq_false_2 by done).
  all: match goal with |- context [parseRange ?s ?lo ?hi] =>
         pose proof (parseRange_spec s lo hi ltac:(lia) ltac:(lia)) as Hr;
         destruct (parseRange s lo hi) as [v|]; cbn [mbind option_bind]; [|done] end.
  all: destruct Hr as (Hv & rest & E & Er); split; [by eauto|].
  all: rewrite ?wrap_id by width.
  all: split; unfold textOf, numberOf; cbn [foldl fst snd cfg userVal passVal usersVal]; eval_keys;
    cbv iota; rewrite ?E; done.
Qed.

(** The lines of a file one by one are its settings one by one. *)
Fixpoint applySettings (l : Loading) (kvs : list (text * text)) : option Loading :=
  match kvs with
  | [] => Some l
  | kv :: kvs => l ← setting l kv.1 kv.2; applySettings l kvs
  end.

Lemma loadLines_rest l ls : loadLines false l ls = applySettings l (omap splitLine ls).
Proof.
  revert l. induction ls as [|line ls IH]; intros l; [done|].
  cbn [loadLines omap list_omap]. destruct (splitLine line) as [[nk val]|]; cbn [mbind option_bind applySettings fst snd].
  - destruct (setting l nk val); [|done]. apply IH.
  - apply IH.
Qed.

Lemma loadLines_settings l file : loadLines true l (lines LF file) = applySettings l (settings file).
Proof.
  unfold settings. destruct (lines LF file) as [|line ls]; [done|].
  cbn [loadLines omap list_omap]. destruct (splitLine (stripBOM line)) as [[nk val]|];
    cbn [mbind option_bind applySettings fst snd].
  - destruct (setting l nk val); [|done]. apply loadLines_rest.
  - apply loadLines_rest.
Qed.

Lemma applySettings_spec l kvs :
  match applySettings l kvs with
  | Some l' => Forall valid_setting kvs /\ loaded l kvs l'
  | None => ~ Forall valid_setting kvs
  end.
Proof.
  revert l. induction kvs as [|[nk val] kvs IH]; intros l; cbn [applySettings fst snd].
  - split; [constructor|apply loaded_nil].
  - pose proof (setting_spec l nk val) as Hs. destruct (setting l nk val) as [l1|]; cbn [mbind option_bind].
    + destruct Hs as [Hv Hl]. specialize (IH l1). destruct (applySettings l1 kvs) as [l2|].
      * destruct IH as [Hf H2]. split; [by constructor|]. by apply (loaded_trans l [(nk, val)] l1 kvs l2).
      * intros H. by inversion_clear H.
    + intros H. by inversion_clear H.
Qed.

(** A number among valid settings stays in the range of its key. *)
Lemma numberOf_range k lo hi d kvs :
  numericRange k = Some (lo, hi) -> lo <= d <= hi -> Forall valid_setting kvs ->
  lo <= numberOf k d kvs <= hi.
Proof.
  intros Hk Hd H. unfold numberOf. revert d Hd. induction H as [|[nk val] kvs Hv _ IH]; intros d Hd; [done|].
  cbn [foldl fst snd]. apply IH. case_bool_decide as E; [|done]. subst nk. unfold valid_setting in Hv.
  cbn [fst snd] in Hv. rewrite Hk in Hv. destruct Hv as (v & rest & -> & _ & ?). done.
Qed.

(** The credentials of a list of settings. *)
Definition usersOf (kvs : list (text * text)) : gmap string string :=
  let us := textOf (lit "users") [] kvs in
  let u := textOf (lit "user") [] kvs in
  if bool_decide (us = []) then
    if bool_decide (u = []) then ∅ else {[ str u := str (textOf (lit "password") [] kvs) ]}
  else parseUsersList us ∅.

(** The configuration file.  A file is accepted exactly when every setting whose key
    wants a number has an integer in the key's range and nothing behind it: bad values fail
    loudly.  Afterwards every member has the last value the file gives it, or its default;
    keys are compared without case and separators; the relay ports are put in order; a
    users list wins over a user and password pair.  All numbers are in their ranges, so a
    server started from the configuration has a usable port range. *)
Theorem config_load (file : text) :
  let kvs := settings file in
  (is_Some (load newConfig (Some file)) <-> Forall valid_setting kvs) /\
  forall c, load newConfig (Some file) = Some c ->
    listenAddress c = textOf (lit "listenaddress") (lit "0.0.0.0") kvs /\
    relayAddress c = textOf (lit "relayaddress") [] kvs /\
    realm c = textOf (lit "realm") (lit "stserver") kvs /\
    udpPort c = numberOf (lit "udpport") 3478 kvs /\ tcpPort c = numberOf (lit "tcpport") 3478 kvs /\
    maxAllocations c = numberOf (lit "maxallocations") 2000 kvs /\
    allocationLifetime c = numberOf (lit "allocationlifetime") 600 kvs /\
    nonceLifetimeSec c = numberOf (lit "noncelifetimesec") 1800 kvs /\
    workerCount c = numberOf (lit "workercount") 4 kvs /\
    (let b := numberOf (lit "relayportbegin") 40000 kvs in
     let e := numberOf (lit "relayportend") 48999 kvs in
     relayPortBegin c = Z.min b e /\ relayPortEnd c = Z.max b e) /\
    users c = usersOf kvs /\
    1 <= udpPort c <= 65535 /\ 1 <= tcpPort c <= 65535 /\ 1 <= maxAllocations c <= 1000000 /\
    10 <= allocationLifetime c <= 86400 /\ 1 <= nonceLifetimeSec c <= 86400 /\
    1 <= workerCount c <= 256 /\ 1024 <= relayPortBegin c <= relayPortEnd c /\ relayPortEnd c <= 65535 /\
    forall E now n, range_ok (tabs (initSrv E now (relayPortBegin c) (relayPortEnd c) n)).
Proof.
  intros kvs. unfold load. cbn [mbind option_bind]. rewrite loadLines_settings. fold kvs.
  pose proof (applySettings_spec (mkLoading newConfig [] [] []) kvs) as Hs.
  destruct (applySettings _ kvs) as [l|]; cbn [mbind option_bind].
  2: { split; [|done]. split; [by intros [? ?]|done]. }
  destruct Hs as [Hv []]. split; [split; [done|by eexists]|]. intros c Hc. injection Hc as <-.
  pose proof (fun k lo hi d H1 H2 => numberOf_range k lo hi d kvs H1 H2 Hv) as Hr.
  pose proof (Hr (lit "udpport") 1 65535 3478 ltac:(done) ltac:(lia)).
  pose proof (Hr (lit "tcpport") 1 65535 3478 ltac:(done) ltac:(lia)).
  pose proof (Hr (lit "maxallocations") 1 1000000 2000 ltac:(done) ltac:(lia)).
  pose proof (Hr (lit "allocationlifetime") 10 86400 600 ltac:(done) ltac:(lia)).
  pose proof (Hr (lit "noncelifetimesec") 1 86400 1800 ltac:(done) ltac:(lia)).
  pose proof (Hr (lit "workercount") 1 256 4 ltac:(done) ltac:(lia)).
  pose proof (Hr (lit "relayportbegin") 1024 65535 40000 ltac:(done) ltac:(lia)).
  pose proof (Hr (lit "relayportend") 1024 65535 48999 ltac:(done) ltac:(lia)).
  unfold finishLoad. cbn [cfg newConfig listenAddress relayAddress udpPort tcpPort realm users maxAllocations
    allocationLifetime nonceLifetimeSec relayPortBegin relayPortEnd logLevel workerCount] in *.
  assert (Hu : users (finishLoad l) = usersOf kvs).
  { unfold finishLoad, usersOf. rewrite ld_users0, ld_user0, ld_password0, ld_table0.
    destruct (relayPortEnd (cfg l) <? relayPortBegin (cfg l)); cbn [users];
      repeat case_bool_decide; done. }
  unfold finishLoad in Hu. unfold range_ok, initSrv.
  destruct (Z.ltb_spec (relayPortEnd (cfg l)) (relayPortBegin (cfg l)));
    cbn [listenAddress relayAddress udpPort tcpPort realm users maxAllocations
      allocationLifetime nonceLifetimeSec relayPortBegin relayPortEnd logLevel workerCount
      tabs TurnState.relayPortBegin_ TurnState.relayPortEnd_] in *;
    repeat split; try congruence; lia.
Qed.

Definition sampleFile : text :=
  lit "# relay" ++ [LF] ++ lit "Relay-Port-Begin = 50000" ++ [CR; LF] ++ lit "relay_port_end=49152 " ++ [LF] ++
  lit "users = alice:pw1, bob : pw2" ++ [LF].

Example sampleFile_load :
  (fun c => (relayPortBegin c, relayPortEnd c, map_to_list (users c))) <$> load newConfig (Some sampleFile)
  = Some (49152, 50000, [("alice"%string, "pw1"%string); ("bob"%string, "pw2"%string)]).
Proof. vm_compute. reflexivity. Qed.

Lemma config_load_witness :
  exists c, load newConfig (Some sampleFile) = Some c /\ relayPortBegin c <= relayPortEnd c /\
    forall E now n, range_ok (tabs (initSrv E now (relayPortBegin c) (relayPortEnd c) n)).
Proof.
  destruct (config_load sampleFile) as [_ H]. pose proof sampleFile_load as E.
  destruct (load newConfig (Some sampleFile)) as [c|]; [|discriminate E].
  exists c. specialize (H c eq_refl). split; [reflexivity|]. split; [lia|]. apply H.
Defined.
