(* ===== verification/AddrRewrite.v ===== *)
(** * Address rewriting (include/stice/ice/addr_rewrite.hpp, src/ice/addr_rewrite.cpp)

    NAT 1:1 mapping of candidate addresses: [build] compiles the rules, [findExternalIPs]
    looks a local address up in them.  A [std::string] is a [text]; [inet_pton] and the
    value [atoi] gives for a number out of range are parameters.  A class member that is only
    assigned its default and never read ([allowIPv4], [allowIPv6]) is left out. *)

From Stdlib Require Import Ascii.
From S2P Require Import Prelude.
From S2P Require Import Bytes.
From S2P Require Import Crypto.
From S2P Require Import Addr.
From S2P Require Import CText.
From S2P Require Import Candidate.
Open Scope Z_scope.
Open Scope c_scope.

Inductive AddressRewriteMode := Unspecified | Replace | Append.

#[export] Instance AddressRewriteMode_eq_dec : EqDecision AddressRewriteMode.
Proof. solve_decision. Defined.

Record AddressRewriteRule := mkRule {
  external : list text; localAddr : text; iface : text; rule_cidr : text;
  asCandidateType : CandidateType; rule_mode : AddressRewriteMode }.

Record RewriteResult := mkRewriteResult {
  externalIPs : list text; matched : bool; res_mode : AddressRewriteMode }.

Definition noRewrite : RewriteResult := mkRewriteResult [] false Unspecified.

Definition defaultRewriteMode (t : CandidateType) : AddressRewriteMode :=
  match t with
  | Host => Replace
  | ServerReflexive | Relayed => Append
  | _ => Replace
  end.

Record CompiledRule := mkCompiled {
  rule : AddressRewriteRule; mode : AddressRewriteMode;
  externalIPv4 : list text; externalIPv6 : list text; catchAllSet : bool;
  localMap : list (text * list text); cidr : text }.

#[export] Instance CompiledRule_fields : RecordFields CompiledRule := fun r =>
  mkCompiled (rule r) (mode r) (externalIPv4 r) (externalIPv6 r) (catchAllSet r) (localMap r) (cidr r).

(** [std::string::empty]. *)
Definition empty (s : text) : bool := bool_decide (s = []).

(** [std::memcmp(a, b, n) == 0]. *)
Definition memcmpEq (n : nat) (a b : bytes) : bool := bool_decide (take n a = take n b).

Section Rewrite.
Context (outOfRange : Z -> Z).
Context (inet_pton4 inet_pton6 : string -> option bytes).

Definition pton4 (s : text) : option bytes := inet_pton4 (str (cstr s)).
Definition pton6 (s : text) : option bytes := inet_pton6 (str (cstr s)).

(** [Some isIPv4] for a numeric address. *)
Definition validateIPString (s : text) : option bool :=
  if empty s then None
  else match pton4 s, pton6 s with
       | Some _, _ => Some true
       | None, Some _ => Some false
       | None, None => None
       end.

(** The comparison of [cidrContains] for two IPv4 addresses. *)
Definition sameNet4 (prefix : Z) (net addr : bytes) : bool :=
  let prefix := if 32 <? prefix then 32 else prefix in
  let mask := if prefix =? 0 then 0 else u32 (Z.lnot (u32 (1 <<. (32 - prefix)) - 1)) in
  (s_addr net &. mask) =? (s_addr addr &. mask).

(** The comparison for two IPv6 addresses. *)
Definition sameNet6 (prefix : Z) (net addr : bytes) : bool :=
  let fullBytes := Z.to_nat (prefix `quot` 8) in
  let remainder := prefix `rem` 8 in
  if memcmpEq fullBytes net addr then
    if (0 <? remainder) && (fullBytes <? 16)%nat then
      let mask := u8 (Z.lnot ((1 <<. (8 - remainder)) - 1)) in
      (nth fullBytes net 0 &. mask) =? (nth fullBytes addr 0 &. mask)
    else true
  else false.

Definition cidrContains (cidr localIP : text) : bool :=
  if empty cidr then true
  else match findChar "/" cidr with
       | None => false
       | Some slash =>
           let cidrIP := take slash cidr in
           let prefix := atoi outOfRange (drop (S slash) cidr) in
           if (prefix <? 0) || (128 <? prefix) then false
           else match validateIPString cidrIP, validateIPString localIP with
                | Some cidrIsIPv4, Some localIsIPv4 =>
                    if Bool.eqb cidrIsIPv4 localIsIPv4 then
                      if cidrIsIPv4 then
                        match pton4 cidrIP, pton4 localIP with
                        | Some net, Some addr => sameNet4 prefix net addr
                        | _, _ => false
                        end
                      else
                        match pton6 cidrIP, pton6 localIP with
                        | Some net, Some addr => sameNet6 prefix net addr
                        | _, _ => false
                        end
                    else false
                | _, _ => false
                end
       end.

Definition trim (s : text) : text :=
  trimBy (fun c => bool_decide (c = " "%char) || bool_decide (c = "009"%char) ||
                   bool_decide (c = CR) || bool_decide (c = LF)) s.

Abbreviation RuleTable := (list (CandidateType * list CompiledRule)).

Fixpoint rulesFor (ct : CandidateType) (t : RuleTable) : option (list CompiledRule) :=
  match t with
  | [] => None
  | (ct', rs) :: t => if bool_decide (ct' = ct) then Some rs else rulesFor ct t
  end.

(** The entry of the type gets the rule at its end; a new entry is added at the end. *)
Fixpoint addRule (ct : CandidateType) (cr : CompiledRule) (t : RuleTable) : RuleTable :=
  match t with
  | [] => [(ct, [cr])]
  | (ct', rs) :: t =>
      if bool_decide (ct' = ct) then (ct', rs ++ [cr]) :: t else (ct', rs) :: addRule ct cr t
  end.

(** The same for the map from a local address to its external ones. *)
Fixpoint addMapping (l ext : text) (m : list (text * list text)) : list (text * list text) :=
  match m with
  | [] => [(l, [ext])]
  | (k, v) :: m => if bool_decide (k = l) then (k, v ++ [ext]) :: m else (k, v) :: addMapping l ext m
  end.

(** One turn of the loop over the external addresses of a rule.  [loc] is the trimmed local
    address with its family, [None] when the rule has none. *)
Definition addExternal (loc : option (text * bool)) (st : CompiledRule * bool) (raw : text) :
    CompiledRule * bool :=
  let '(cr, added) := st in
  let extIP := trim raw in
  if empty extIP then st
  else match validateIPString extIP with
       | None => st
       | Some isExtIPv4 =>
           let targetIPv4 :=
             match loc with
             | Some (_, localIsIPv4) => localIsIPv4
             | None =>
                 if empty (cidr cr) then isExtIPv4
                 else let ip := match findChar "/" (cidr cr) with
                                | Some slash => take slash (cidr cr) | None => cidr cr end in
                      default isExtIPv4 (validateIPString ip)
             end in
           if negb (Bool.eqb targetIPv4 isExtIPv4) then st
           else match loc with
                | Some (trimmedLocal, _) => (cr <| localMap ::= addMapping trimmedLocal extIP |>, true)
                | None =>
                    ((if targetIPv4 then cr <| externalIPv4 ::= (fun l => l ++ [extIP]) |>
                      else cr <| externalIPv6 ::= (fun l => l ++ [extIP]) |>)
                       <| catchAllSet := true |>, true)
                end
       end.

Definition compileExternals (loc : option (text * bool)) (cr : CompiledRule) (exts : list text) : CompiledRule :=
  let '(cr, added) := foldl (addExternal loc) (cr, false) exts in
  if added then cr
  else match loc with
       | Some (trimmedLocal, _) => cr <| localMap ::= (fun m => m ++ [(trimmedLocal, [])]) |>
       | None => cr <| catchAllSet := true |>
       end.

Definition addRuleTo (t : RuleTable) (r : AddressRewriteRule) : RuleTable :=
  let ct := if bool_decide (asCandidateType r = Unknown) then Host else asCandidateType r in
  if bool_decide (ct = PeerReflexive) then t
  else
    let m := if bool_decide (rule_mode r = Unspecified) then defaultRewriteMode ct else rule_mode r in
    let cr := mkCompiled r m [] [] false [] (rule_cidr r) in
    let trimmedLocal := trim (localAddr r) in
    if empty trimmedLocal then addRule ct (compileExternals None cr (external r)) t
    else match validateIPString trimmedLocal with
         | None => t
         | Some localIsIPv4 =>
             addRule ct (compileExternals (Some (trimmedLocal, localIsIPv4)) cr (external r)) t
         end.

Definition build (rules : list AddressRewriteRule) : bool * RuleTable :=
  let t := foldl addRuleTo [] rules in
  (negb (bool_decide (t = [])), t).

Definition hasCandidateType (t : RuleTable) (ct : CandidateType) : bool :=
  match rulesFor ct t with None => false | Some rs => negb (length rs =? 0)%nat end.

Definition shouldReplace (t : RuleTable) (ct : CandidateType) : bool :=
  match rulesFor ct t with
  | None => false
  | Some rs => existsb (fun r => bool_decide (mode r = Replace)) rs
  end.

(** The filters of a rule. *)
Definition applies (localIP ifc : text) (r : CompiledRule) : bool :=
  (empty (iface (rule r)) || bool_decide (iface (rule r) = ifc)) &&
  (empty (cidr r) || cidrContains (cidr r) localIP).

Definition explicitMatch (localIP : text) (r : CompiledRule) : option (list text) :=
  (list_find (fun kv => kv.1 = localIP) (localMap r)) ≫= (fun '(_, kv) => Some kv.2).

Definition specificity (r : CompiledRule) : Z :=
  if empty (iface (rule r)) then (if empty (cidr r) then 0 else 1)
  else 2 + (if empty (cidr r) then 0 else 1).

(** The loop over the rules; [best] is the catch-all found so far with its specificity. *)
Fixpoint scanRules (localIsIPv4 : bool) (localIP ifc : text) (best : option (list text * AddressRewriteMode * Z))
    (rs : list CompiledRule) : RewriteResult :=
  match rs with
  | [] => match best with Some (ips, m, _) => mkRewriteResult ips true m | None => noRewrite end
  | r :: rs =>
      if applies localIP ifc r then
        match explicitMatch localIP r with
        | Some ips => mkRewriteResult ips true (mode r)
        | None =>
            let better := match best with None => true | Some (_, _, bestSpec) => bestSpec <? specificity r end in
            scanRules localIsIPv4 localIP ifc
              (if catchAllSet r && better
               then Some (if localIsIPv4 then externalIPv4 r else externalIPv6 r, mode r, specificity r)
               else best) rs
        end
      else scanRules localIsIPv4 localIP ifc best rs
  end.

Definition findExternalIPs (t : RuleTable) (ct : CandidateType) (localIP ifc : text) : RewriteResult :=
  match rulesFor ct t with
  | None => noRewrite
  | Some rs =>
      match validateIPString localIP with
      | None => noRewrite
      | Some localIsIPv4 => scanRules localIsIPv4 localIP ifc None rs
      end
  end.

End Rewrite.

(** ** Networks *)

(** The number an address denotes, and its first [p] bits. *)
Definition addressNumber (a : bytes) : Z := foldl (fun v b => 256 * v + b) 0 a.
Definition netPrefix (p : Z) (a : bytes) : Z := addressNumber a / 2 ^ (8 * Z.of_nat (length a) - p).

Lemma addressNumber_acc v a :
  foldl (fun v b => 256 * v + b) v a = v * 2 ^ (8 * Z.of_nat (length a)) + addressNumber a.
Proof.
  revert v. induction a as [|b a IH]; intros v.
  - unfold addressNumber. simpl. lia.
  - unfold addressNumber. cbn [foldl length]. rewrite (IH (256 * v + b)), (IH (256 * 0 + b)).
    replace (8 * Z.of_nat (S (length a))) with (8 + 8 * Z.of_nat (length a)) by lia.
    rewrite Z.pow_add_r by lia. change (2 ^ 8) with 256. lia.
Qed.

Lemma addressNumber_app a b :
  addressNumber (a ++ b) = addressNumber a * 2 ^ (8 * Z.of_nat (length b)) + addressNumber b.
Proof. unfold addressNumber at 1. rewrite foldl_app. apply addressNumber_acc. Qed.

Lemma addressNumber_snoc a b : addressNumber (a ++ [b]) = 256 * addressNumber a + b.
Proof. unfold addressNumber. by rewrite foldl_app. Qed.

Lemma addressNumber_bound a :
  bytes_ok a -> 0 <= addressNumber a < 2 ^ (8 * Z.of_nat (length a)).
Proof.
  induction a as [|b a IH] using rev_ind; intros Ha; [done|].
  apply Forall_app in Ha as [Ha Hb]. rewrite Forall_singleton in Hb. specialize (IH Ha).
  rewrite addressNumber_snoc, length_app. simpl length.
  replace (8 * Z.of_nat (length a + 1)) with (8 * Z.of_nat (length a) + 8) by lia.
  rewrite Z.pow_add_r by lia. change (2 ^ 8) with 256. unfold fits in Hb.
  change (2 ^ 8) with 256 in Hb. lia.
Qed.

Lemma addressNumber_inj a b :
  bytes_ok a -> bytes_ok b -> length a = length b -> addressNumber a = addressNumber b -> a = b.
Proof.
  revert b. induction a as [|x a IH] using rev_ind; intros b Ha Hb Hl E.
  - by destruct b.
  - destruct b as [|y b _] using rev_ind; [rewrite length_app in Hl; simpl in Hl; lia|].
    rewrite !length_app in Hl. simpl in Hl.
    apply Forall_app in Ha as [Ha Hx], Hb as [Hb Hy].
    rewrite Forall_singleton in Hx, Hy. rewrite !addressNumber_snoc in E.
    unfold fits in Hx, Hy. change (2 ^ 8) with 256 in *.
    f_equal; [apply IH; try done; lia | f_equal; lia].
Qed.

(** Masking the low [k] of [w] bits away compares what is above them. *)
Lemma mask_eq w k x y :
  0 <= k <= w -> fits w x -> fits w y ->
  (x &. (2 ^ w - 2 ^ k) = y &. (2 ^ w - 2 ^ k) <-> x / 2 ^ k = y / 2 ^ k).
Proof.
  intros Hk Hx Hy.
  assert (HM : 2 ^ w - 2 ^ k = (2 ^ (w - k) - 1) * 2 ^ k).
  { rewrite Z.mul_sub_distr_r, <- Z.pow_add_r by lia. replace (w - k + k) with w by lia. lia. }
  rewrite !(land_field _ (w - k) k _ ltac:(lia) ltac:(lia) HM).
  assert (Hpk : 0 < 2 ^ k) by (apply Z.pow_pos_nonneg; lia).
  assert (Hd : forall z, fits w z -> z / 2 ^ k mod 2 ^ (w - k) = z / 2 ^ k).
  { intros z [Hz0 Hz1]. apply Z.mod_small. split; [by apply Z.div_pos|].
    apply Z.div_lt_upper_bound; [done|]. rewrite <- Z.pow_add_r by lia.
    by replace (k + (w - k)) with w by lia. }
  rewrite !Hd by done. split; [|by intros ->]. nia.
Qed.

Lemma lnot_mask w k : 0 <= k < w -> wrap w (Z.lnot (2 ^ k - 1)) = 2 ^ w - 2 ^ k.
Proof.
  intros Hk. assert (0 < 2 ^ k < 2 ^ w)
    by (split; [apply Z.pow_pos_nonneg | apply Z.pow_lt_mono_r]; lia).
  unfold wrap, Z.lnot. rewrite <- (Z_mod_plus_full _ 1). rewrite Z.mod_small; lia.
Qed.

Lemma s_addr_number a : length a = 4%nat -> bytes_ok a -> s_addr a = addressNumber a.
Proof.
  intros Hl Ha. destruct a as [|b0 [|b1 [|b2 [|b3 [|]]]]]; try done.
  repeat match goal with H : Forall _ (_ :: _) |- _ => apply Forall_cons in H as [? H] end.
  unfold s_addr, be32, at_. simpl. rewrite <- (wrap_id 32 (((_ |. _) |. _) |. _)).
  - rewrite be32_value by done. unfold addressNumber. simpl. lia.
  - repeat (apply fits_lor; [lia| |]); rewrite ?shiftl_mul by lia; width.
Qed.

Lemma sameNet4_spec p net addr :
  0 <= p <= 128 -> length net = 4%nat -> length addr = 4%nat -> bytes_ok net -> bytes_ok addr ->
  sameNet4 p net addr = bool_decide (netPrefix (Z.min p 32) net = netPrefix (Z.min p 32) addr).
Proof.
  intros Hp Hn Ha On Oa. unfold sameNet4, netPrefix. rewrite Hn, Ha.
  replace (if 32 <? p then 32 else p) with (Z.min p 32) by (case_match; lia).
  set (q := Z.min p 32). assert (Hq : 0 <= q <= 32) by lia.
  pose proof (addressNumber_bound _ On) as Bn. pose proof (addressNumber_bound _ Oa) as Ba.
  rewrite Hn in Bn. rewrite Ha in Ba. rewrite !s_addr_number by done.
  change (8 * Z.of_nat 4) with 32 in *.
  destruct (Z.eqb_spec q 0) as [->|Hq0].
  - rewrite !Z.land_0_r. rewrite Z.eqb_refl. symmetry. apply bool_decide_eq_true.
    by rewrite !Z.div_small by done.
  - rewrite shiftl_mul, Z.mul_1_l by lia.
    assert (H32 : 2 ^ (32 - q) <= 2 ^ 31) by (apply Z.pow_le_mono_r; lia).
    assert (0 < 2 ^ (32 - q)) by (apply Z.pow_pos_nonneg; lia).
    rewrite (wrap_id 32 (2 ^ (32 - q))) by (unfold fits; lia).
    rewrite lnot_mask by lia. apply eq_bool_prop_intro.
    rewrite !Is_true_true, Z.eqb_eq, bool_decide_eq_true.
    apply mask_eq; unfold fits; lia.
Qed.

Lemma netPrefix_split p a :
  0 <= p < 8 * Z.of_nat (length a) -> bytes_ok a ->
  netPrefix p a = addressNumber (take (Z.to_nat (p / 8)) a) * 2 ^ (p mod 8) +
                  nth (Z.to_nat (p / 8)) a 0 / 2 ^ (8 - p mod 8) /\
  is_byte (nth (Z.to_nat (p / 8)) a 0).
Proof.
  intros Hp Ha. remember (Z.to_nat (p / 8)) as q eqn:Hqz.
  assert (Hq : (q < length a)%nat) by lia.
  destruct (lookup_lt_is_Some_2 a q Hq) as [c Hc].
  assert (Hn : nth q a 0 = c) by (by rewrite (nth_lookup_Some a q 0 c Hc)). rewrite Hn.
  assert (Hcb : is_byte c) by (by eapply Forall_lookup_1). split; [|done].
  unfold netPrefix. rewrite <- (take_drop_middle a q c Hc) at 1 2.
  rewrite addressNumber_app, length_app, length_take_le by lia.
  change (c :: drop (S q) a) with ([c] ++ drop (S q) a).
  rewrite addressNumber_app, length_app, length_drop. simpl length.
  change (addressNumber [c]) with c.
  set (n := Z.of_nat (length a - S q)).
  assert (HB : 0 <= addressNumber (drop (S q) a) < 2 ^ (8 * n)).
  { pose proof (addressNumber_bound (drop (S q) a) (Forall_drop _ _ _ Ha)) as HB.
    by rewrite length_drop in HB. }
  replace (8 * Z.of_nat (1 + (length a - S q))) with (8 + 8 * n) by lia.
  replace (8 * Z.of_nat (q + (1 + (length a - S q))) - p) with (8 * n + (8 - p mod 8)) by lia.
  rewrite !Z.pow_add_r by lia. change (2 ^ 8) with 256.
  assert (0 < 2 ^ (8 * n)) by (apply Z.pow_pos_nonneg; lia).
  assert (0 < 2 ^ (8 - p mod 8)) by (apply Z.pow_pos_nonneg; lia).
  rewrite <- Z.div_div by lia.
  replace (addressNumber (take q a) * (256 * 2 ^ (8 * n)) + (c * 2 ^ (8 * n) + addressNumber (drop (S q) a)))
    with ((addressNumber (take q a) * 256 + c) * 2 ^ (8 * n) + addressNumber (drop (S q) a)) by lia.
  rewrite Z.div_add_l, (Z.div_small (addressNumber (drop _ _))), Z.add_0_r by lia.
  replace 256 with (2 ^ (p mod 8) * 2 ^ (8 - p mod 8)) 
    by (rewrite <- Z.pow_add_r by lia; by replace (p mod 8 + (8 - p mod 8)) with 8 by lia).
  rewrite Z.mul_assoc, Z.div_add_l by lia. done.
Qed.

Lemma sameNet6_spec p net addr :
  0 <= p <= 128 -> length net = 16%nat -> length addr = 16%nat -> bytes_ok net -> bytes_ok addr ->
  sameNet6 p net addr = bool_decide (netPrefix p net = netPrefix p addr).
Proof.
  intros Hp Hn Ha On Oa. unfold sameNet6, memcmpEq.
  rewrite Z.quot_div_nonneg, Z.rem_mod_nonneg by lia.
  set (q := Z.to_nat (p / 8)). apply eq_bool_prop_intro.
  rewrite !Is_true_true, bool_decide_eq_true.
  destruct (decide (p = 128)) as [->|Hp128].
  { change (128 mod 8) with 0. simpl. unfold netPrefix. rewrite Hn, Ha.
    change (2 ^ (8 * Z.of_nat 16 - 128)) with 1. rewrite !Z.div_1_r.
    rewrite !take_ge by (unfold q; lia). case_bool_decide as E.
    - by rewrite E.
    - split; [done|]. intros E'. by apply addressNumber_inj in E'; try congruence. }
  assert (Hq : (q < 16)%nat) by (unfold q; lia).
  destruct (netPrefix_split p net) as [-> Bn]; [rewrite Hn; lia | done |].
  destruct (netPrefix_split p addr) as [-> Ba]; [rewrite Ha; lia | done |].
  fold q in Bn, Ba |- *. set (r := p mod 8) in *. assert (Hr : 0 <= r < 8) by (unfold r; lia).
  assert (H8 : 2 ^ 8 = 2 ^ r * 2 ^ (8 - r)) by (rewrite <- Z.pow_add_r by lia; f_equal; lia).
  assert (Hpos : 0 < 2 ^ r /\ 0 < 2 ^ (8 - r)) by (split; apply Z.pow_pos_nonneg; lia).
  assert (Hlow : forall x, is_byte x -> 0 <= x / 2 ^ (8 - r) < 2 ^ r).
  { intros x [Hx0 Hx1]. split; [apply Z.div_pos; lia|]. apply Z.div_lt_upper_bound; lia. }
  assert (Htake : take q net = take q addr <-> addressNumber (take q net) = addressNumber (take q addr)).
  { split; [by intros ->|]. apply addressNumber_inj; [by apply Forall_take..|].
    rewrite !length_take. congruence. }
  pose proof (Hlow _ Bn) as Ln. pose proof (Hlow _ Ba) as La.
  assert (Hsplit : forall u v x y, 0 <= x < 2 ^ r -> 0 <= y < 2 ^ r ->
            u * 2 ^ r + x = v * 2 ^ r + y -> u = v /\ x = y).
  { intros u v x y Hx Hy E. assert (u = v) as -> by nia. lia. }
  case_bool_decide as E; [|split; [done|]; intros E'; apply Hsplit in E' as [E' _]; tauto].
  rewrite E. destruct (Z.ltb_spec 0 r) as [Hr0|Hr0]; simpl.
  - rewrite (proj2 (Nat.ltb_lt _ _) Hq), shiftl_mul, Z.mul_1_l, lnot_mask, Z.eqb_eq by lia.
    change (wrap 8) with u8. rewrite mask_eq by (done || lia). split; [by intros -> | lia].
  - split; [intros _|done]. assert (2 ^ r = 1) by (by replace r with 0 by lia). lia.
Qed.

(** ** Lookup *)

Section Lookup.
Context (oor : Z -> Z) (p4 p6 : string -> option bytes).

Let family := validateIPString p4 p6.

(** Compiled rules list addresses under their own family. *)
Record rule_ok (r : CompiledRule) : Prop := {
  ro_v4 : Forall (fun e => family e = Some true) (externalIPv4 r);
  ro_v6 : Forall (fun e => family e = Some false) (externalIPv6 r);
  ro_map : Forall (fun kv => exists b, family kv.1 = Some b /\ Forall (fun e => family e = Some b) kv.2)
             (localMap r) }.

Definition table_ok (t : list (CandidateType * list CompiledRule)) : Prop :=
  Forall (fun e => Forall rule_ok e.2) t.

Lemma addMapping_ok b l ext m :
  family l = Some b -> family ext = Some b ->
  Forall (fun kv => exists b, family kv.1 = Some b /\ Forall (fun e => family e = Some b) kv.2) m ->
  Forall (fun kv => exists b, family kv.1 = Some b /\ Forall (fun e => family e = Some b) kv.2)
    (addMapping l ext m).
Proof.
  intros Hl He. induction 1 as [|[k v] m (b' & Hk & Hv) Hm IH]; simpl.
  - apply Forall_singleton. exists b. split; [done|]. by apply Forall_singleton.
  - case_bool_decide as E.
    + apply Forall_cons. split; [|done]. exists b'. split; [done|]. simpl in Hk. subst k.
      apply Forall_app. split; [done|]. apply Forall_singleton. congruence.
    + apply Forall_cons. split; [by exists b'|done].
Qed.

Lemma addExternal_ok loc cr added raw :
  (forall l b, loc = Some (l, b) -> family l = Some b) ->
  rule_ok cr -> rule_ok (addExternal p4 p6 loc (cr, added) raw).1.
Proof.
  intros Hloc [H4 H6 Hm]. unfold addExternal.
  destruct (empty (trim raw)); [done|]. fold (family (trim raw)).
  destruct (family (trim raw)) as [isExt|] eqn:Ee; [|done].
  destruct loc as [[l b]|]; simpl.
  - destruct (Bool.eqb b isExt) eqn:Eb; [|done]. apply Bool.eqb_prop in Eb as ->.
    constructor; upd; [done..|]. by eapply addMapping_ok; [eapply Hloc| .. ].
  - match goal with |- context [Bool.eqb ?t isExt] => destruct (Bool.eqb t isExt) eqn:Eb end; [|done].
    apply Bool.eqb_prop in Eb. simpl. rewrite Eb.
    destruct isExt; constructor; upd; try done; apply Forall_app; by rewrite Forall_singleton.
Qed.

Lemma compileExternals_ok loc cr exts :
  (forall l b, loc = Some (l, b) -> family l = Some b) ->
  rule_ok cr -> rule_ok (compileExternals p4 p6 loc cr exts).
Proof.
  intros Hloc Hcr. unfold compileExternals.
  destruct (foldl (addExternal p4 p6 loc) (cr, false) exts) as [cr' added] eqn:E.
  assert (Hcr' : rule_ok cr').
  { change cr' with (cr', added).1. rewrite <- E. clear E.
    generalize false. revert cr Hcr. induction exts as [|x exts IH]; intros cr Hcr a; [done|].
    cbn [foldl]. pose proof (addExternal_ok loc cr a x Hloc Hcr) as H.
    destruct (addExternal p4 p6 loc (cr, a) x) as [cr2 a2]. by apply IH. }
  destruct added; [done|]. destruct Hcr' as [H4 H6 Hm].
  destruct loc as [[l b]|]; constructor; upd; try done.
  apply Forall_app. split; [done|]. apply Forall_singleton. exists b. eauto.
Qed.

Lemma addRule_ok ct cr t : rule_ok cr -> table_ok t -> table_ok (addRule ct cr t).
Proof.
  intros Hcr. induction 1 as [|[ct' rs] t Hrs Ht IH]; simpl.
  - repeat constructor; simpl; try done; apply Hcr.
  - case_bool_decide; constructor; simpl; try done. apply Forall_app. by rewrite Forall_singleton.
Qed.

Lemma build_ok rules : table_ok (build p4 p6 rules).2.
Proof.
  simpl. assert (Hgen : forall t, table_ok t -> table_ok (foldl (addRuleTo p4 p6) t rules)).
  { induction rules as [|r rules IH]; intros t Ht; [done|]. simpl. apply IH. unfold addRuleTo.
    destruct (bool_decide (_ = PeerReflexive)); [done|]. destruct (empty (trim (localAddr r))).
    - apply addRule_ok; [|done]. apply compileExternals_ok; [done|]. by constructor.
    - destruct (validateIPString _ _ _) eqn:Ev; [|done]. apply addRule_ok; [|done].
      apply compileExternals_ok; [by intros ?? [= <- <-]|]. by constructor. }
  apply Hgen. constructor.
Qed.

Lemma rulesFor_ok ct t rs : table_ok t -> rulesFor ct t = Some rs -> Forall rule_ok rs.
Proof.
  induction 1 as [|[ct' rs'] t Hrs Ht IH]; simpl; [done|].
  case_bool_decide; [by intros [= <-] | done].
Qed.

Lemma explicitMatch_Some ip r ips : explicitMatch ip r = Some ips -> (ip, ips) ∈ localMap r.
Proof.
  unfold explicitMatch. destruct (list_find _ _) as [[i [k v]]|] eqn:E; [|done].
  intros [= <-]. apply list_find_Some in E as (E & <- & _). by eapply list_elem_of_lookup_2.
Qed.

(** The result of the scan: the family of the addresses. *)
Lemma scanRules_family ip ifc b best rs :
  family ip = Some b -> Forall rule_ok rs ->
  (forall ips m s, best = Some (ips, m, s) -> Forall (fun e => family e = Some b) ips) ->
  Forall (fun e => family e = Some b) (externalIPs (scanRules oor p4 p6 b ip ifc best rs)).
Proof.
  intros Hip Hrs. revert best. induction Hrs as [|r rs [H4 H6 Hm] Hrs IH]; intros best Hb; simpl.
  - destruct best as [[[ips m] s]|]; [by eapply Hb | constructor].
  - destruct (applies _ _ _ _ _ _); [|by apply IH].
    destruct (explicitMatch ip r) as [ips|] eqn:Ex.
    + apply explicitMatch_Some in Ex. simpl.
      destruct (proj1 (Forall_forall _ _) Hm _ Ex) as (b' & Hk & Hv). simpl in *.
      by assert (b' = b) as -> by congruence.
    + apply IH. intros ips m s.
      match goal with |- context [if ?c then _ else best] => destruct c end; [|by eauto].
      intros [= <- <- <-]. by destruct b.
Qed.

(** The first rule that applies and names the address decides. *)
Lemma scanRules_explicit ip ifc b best rs pre r post ips :
  filter (fun r => applies oor p4 p6 ip ifc r = true) rs = pre ++ r :: post ->
  Forall (fun r => explicitMatch ip r = None) pre -> explicitMatch ip r = Some ips ->
  scanRules oor p4 p6 b ip ifc best rs = mkRewriteResult ips true (mode r).
Proof.
  intros E Hpre Hr. revert best pre E Hpre. induction rs as [|r' rs IH]; intros best pre E Hpre.
  - by destruct pre.
  - rewrite filter_cons in E. simpl. case_decide as Ha.
    + rewrite Ha. destruct pre as [|r0 pre]; simplify_eq/=; [by rewrite Hr|].
      apply Forall_cons in Hpre as [-> Hpre]. by eapply IH.
    + destruct (applies _ _ _ _ _ _); [done|]. by eapply IH.
Qed.

(** Without one, the best catch-all found before the scan or during it. *)
Definition catchAll (b : bool) (r : CompiledRule) : list text * AddressRewriteMode * Z :=
  (if b then externalIPv4 r else externalIPv6 r, mode r, specificity r).

Lemma scanRules_catch_none ip ifc b best rs :
  Forall (fun r => explicitMatch ip r = None) (filter (fun r => applies oor p4 p6 ip ifc r = true) rs) ->
  Forall (fun r => catchAllSet r = true -> exists p, best = Some p /\ specificity r <= p.2)
    (filter (fun r => applies oor p4 p6 ip ifc r = true) rs) ->
  scanRules oor p4 p6 b ip ifc best rs =
    match best with Some (ips, m, _) => mkRewriteResult ips true m | None => noRewrite end.
Proof.
  induction rs as [|r rs IH]; intros Hx Hc; [done|]. rewrite filter_cons in Hx, Hc. simpl.
  case_decide as Ha.
  - rewrite Ha. apply Forall_cons in Hx as [-> Hx], Hc as [Hr Hc].
    destruct (catchAllSet r); simpl; [|by apply IH].
    destruct (Hr eq_refl) as ([[ips m] s] & -> & Hs). simpl in Hs.
    rewrite (proj2 (Z.ltb_ge _ _) Hs). by apply IH.
  - destruct (applies _ _ _ _ _ _); [done|]. by apply IH.
Qed.

Lemma scanRules_catch ip ifc b best rs pre r post :
  filter (fun r => applies oor p4 p6 ip ifc r = true) rs = pre ++ r :: post ->
  Forall (fun r => explicitMatch ip r = None) (pre ++ r :: post) -> catchAllSet r = true ->
  (forall p, best = Some p -> p.2 < specificity r) ->
  Forall (fun r' => catchAllSet r' = true -> specificity r' < specificity r) pre ->
  Forall (fun r' => catchAllSet r' = true -> specificity r' <= specificity r) post ->
  scanRules oor p4 p6 b ip ifc best rs =
    mkRewriteResult (if b then externalIPv4 r else externalIPv6 r) true (mode r).
Proof.
  intros E Hx Hr Hb Hpre Hpost. revert best pre E Hx Hb Hpre.
  induction rs as [|r' rs IH]; intros best pre E Hx Hb Hpre; [by destruct pre|].
  rewrite filter_cons in E. simpl. case_decide as Ha.
  - rewrite Ha. destruct pre as [|r0 pre]; simplify_eq/=.
    + apply Forall_cons in Hx as [-> Hx]. rewrite Hr. simpl.
      replace (match best with Some (_, _, bs) => bs <? specificity r | None => true end) with true.
      2:{ destruct best as [[[? ?] s]|]; [|done]. symmetry. apply Z.ltb_lt, (Hb _ eq_refl). }
      rewrite scanRules_catch_none; [done|done|]. eapply Forall_impl; [exact Hpost|].
      intros r' Hr' Hc. eexists. split; [done|]. by apply Hr'.
    + apply Forall_cons in Hx as [-> Hx], Hpre as [Hr0 Hpre]. eapply IH; [done..| |done].
      intros p. destruct (catchAllSet r0); simpl; [|by apply Hb].
      match goal with |- context [if ?c then _ else best] => destruct c end; [|by apply Hb].
      intros [= <-]. by apply Hr0.
  - destruct (applies _ _ _ _ _ _); [done|]. by eapply IH.
Qed.

End Lookup.

(** address rewriting.  In a table built from any rules, a lookup gives only addresses of
    the family of the local address.  Of the rules whose interface and network filters let
    the local address pass, the first that names the address decides; when none names it,
    the catch-all rule with the most specific filters, the first of them among equals; when
    there is none, the address is left alone.  A network filter compares the first bits of
    the two addresses, the number being the prefix length. *)
Theorem rewrite_lookup (oor : Z -> Z) (p4 p6 : string -> option bytes)
    (rules : list AddressRewriteRule) (ct : CandidateType) (rs : list CompiledRule)
    (ip ifc : text) (b : bool) (p : Z) (net6 addr6 net4 addr4 : bytes) :
  rulesFor ct (build p4 p6 rules).2 = Some rs -> validateIPString p4 p6 ip = Some b ->
  0 <= p <= 128 -> length net6 = 16%nat -> length addr6 = 16%nat -> bytes_ok net6 -> bytes_ok addr6 ->
  length net4 = 4%nat -> length addr4 = 4%nat -> bytes_ok net4 -> bytes_ok addr4 ->
  let passing := filter (fun r => applies oor p4 p6 ip ifc r = true) rs in
  let res := findExternalIPs oor p4 p6 (build p4 p6 rules).2 ct ip ifc in
  Forall (fun e => validateIPString p4 p6 e = Some b) (externalIPs res) /\
  (forall pre r post ips, passing = pre ++ r :: post ->
     Forall (fun r => explicitMatch ip r = None) pre -> explicitMatch ip r = Some ips ->
     res = mkRewriteResult ips true (mode r)) /\
  (forall pre r post, passing = pre ++ r :: post ->
     Forall (fun r => explicitMatch ip r = None) passing -> catchAllSet r = true ->
     Forall (fun r' => catchAllSet r' = true -> specificity r' < specificity r) pre ->
     Forall (fun r' => catchAllSet r' = true -> specificity r' <= specificity r) post ->
     res = mkRewriteResult (if b then externalIPv4 r else externalIPv6 r) true (mode r)) /\
  (Forall (fun r => explicitMatch ip r = None /\ catchAllSet r = false) passing -> res = noRewrite) /\
  sameNet6 p net6 addr6 = bool_decide (netPrefix p net6 = netPrefix p addr6) /\
  sameNet4 p net4 addr4 = bool_decide (netPrefix (Z.min p 32) net4 = netPrefix (Z.min p 32) addr4).
Proof.
  intros Hrs Hip Hp L6 L6' O6 O6' L4 L4' O4 O4' passing res.
  assert (Hres : res = scanRules oor p4 p6 b ip ifc None rs).
  { unfold res, findExternalIPs. by rewrite Hrs, Hip. }
  rewrite Hres. split; [|split; [|split; [|split; [|split]]]].
  - apply scanRules_family; [done| |done]. eapply rulesFor_ok; [apply build_ok | done].
  - intros pre r post ips E Hpre Hr. by eapply scanRules_explicit.
  - intros pre r post E Hx Hr Hpre Hpost. rewrite E in Hx. by eapply scanRules_catch.
  - intros H. rewrite scanRules_catch_none; [done| .. ]; eapply Forall_impl; [exact H| |exact H|]; simpl;
      intros r [Hx Hc]; [done | by rewrite Hc].
  - by apply sameNet6_spec.
  - by apply sameNet4_spec.
Qed.

(** A resolver that knows a few addresses, and two rules: everything on 10.0.0.0/8 is
    published as 203.0.113.1, and 10.0.0.7 as 203.0.113.7. *)
Definition samplePton4 (s : string) : option bytes :=
  if bool_decide (s = "10.0.0.0"%string) then Some [10; 0; 0; 0]
  else if bool_decide (s = "10.0.0.7"%string) then Some [10; 0; 0; 7]
  else if bool_decide (s = "10.0.0.8"%string) then Some [10; 0; 0; 8]
  else if bool_decide (s = "203.0.113.1"%string) then Some [203; 0; 113; 1]
  else if bool_decide (s = "203.0.113.7"%string) then Some [203; 0; 113; 7] else None.
Definition samplePton6 (s : string) : option bytes := None.

Definition sampleRules : list AddressRewriteRule := [
  mkRule [lit "203.0.113.1 "] [] [] (lit "10.0.0.0/8") Unknown Unspecified;
  mkRule [lit "203.0.113.7"] (lit "10.0.0.7") [] [] Host Append ].

Example sample_explicit :
  findExternalIPs id samplePton4 samplePton6 (build samplePton4 samplePton6 sampleRules).2 Host
    (lit "10.0.0.7") [] = mkRewriteResult [lit "203.0.113.7"] true Append.
Proof. vm_compute. reflexivity. Qed.

Lemma rewrite_lookup_witness :
  exists rs, rulesFor Host (build samplePton4 samplePton6 sampleRules).2 = Some rs /\
  validateIPString samplePton4 samplePton6 (lit "10.0.0.8") = Some true /\
  Forall (fun e => validateIPString samplePton4 samplePton6 e = Some true)
    (externalIPs (findExternalIPs id samplePton4 samplePton6
       (build samplePton4 samplePton6 sampleRules).2 Host (lit "10.0.0.8") [])).
Proof.
  eexists. split; [reflexivity|]. split; [reflexivity|].
  refine (proj1 (rewrite_lookup id samplePton4 samplePton6 sampleRules Host _ (lit "10.0.0.8") []
    true 8 (replicate 16 0) (replicate 16 0) (replicate 4 0) (replicate 4 0) eq_refl eq_refl _ _ _ _ _ _ _ _ _));
    [lia | reflexivity | reflexivity | | | reflexivity | reflexivity | |];
    repeat constructor; unfold fits; lia.
Defined.
