(* ===== verification/PairingStrategy.v ===== *)
(** * Pairing strategy (include/stice/ice/pairing_strategy.hpp, src/ice/pairing_strategy.cpp)

    The switches of the check list: which pairs are checked at once, when the controlling
    agent nominates, when TCP relays are allocated and which pair replaces a failed one,
    with the four preset profiles.  Durations and time points are in milliseconds; the
    default time point is zero. *)

From S2P Require Import Prelude.
Open Scope Z_scope.
Open Scope c_scope.

Inductive IceCheckScheduleMode := RFC8445_STRICT | SERIAL | LIMITED_CONCURRENT | PHASED_UDP_FIRST.
Inductive IceNominationMode := AGGRESSIVE | REGULAR | REGULAR_STABLE_CHECK.
Inductive TcpRelayFallbackMode := DISABLE | ON_ALL_UDP_FAIL | ALWAYS_ENABLE.
Inductive LinkReselectPolicy := RFC8445 | STICKY_SELECTED.

#[export] Instance IceCheckScheduleMode_eq_dec : EqDecision IceCheckScheduleMode.
Proof. solve_decision. Defined.
#[export] Instance IceNominationMode_eq_dec : EqDecision IceNominationMode.
Proof. solve_decision. Defined.
#[export] Instance TcpRelayFallbackMode_eq_dec : EqDecision TcpRelayFallbackMode.
Proof. solve_decision. Defined.
#[export] Instance LinkReselectPolicy_eq_dec : EqDecision LinkReselectPolicy.
Proof. solve_decision. Defined.

Record IcePairingConfig := mkPairingConfig {
  schedule_mode : IceCheckScheduleMode; max_concurrent_check : nat; udp_phase_timeout : Z;
  nomination_mode : IceNominationMode; tcp_nomination_precheck : Z;
  tcp_relay_fallback : TcpRelayFallbackMode;
  reselect_policy : LinkReselectPolicy;
  rto_initial : Z; max_check_retransmit : Z; keepalive_udp : Z; keepalive_tcp_relay : Z;
  enable_trickle : bool; pre_allocate_tcp_relay : bool;
  early_phase_max_concurrent : nat; early_phase_duration : Z;
  udp_phase_start : Z; tcp_phase_entered : bool; tcp_relay_allocation_created : bool;
  checking_start : Z; early_phase_active : bool }.

#[export] Instance IcePairingConfig_fields : RecordFields IcePairingConfig := fun c =>
  mkPairingConfig (schedule_mode c) (max_concurrent_check c) (udp_phase_timeout c)
    (nomination_mode c) (tcp_nomination_precheck c) (tcp_relay_fallback c) (reselect_policy c)
    (rto_initial c) (max_check_retransmit c) (keepalive_udp c) (keepalive_tcp_relay c)
    (enable_trickle c) (pre_allocate_tcp_relay c) (early_phase_max_concurrent c)
    (early_phase_duration c) (udp_phase_start c) (tcp_phase_entered c)
    (tcp_relay_allocation_created c) (checking_start c) (early_phase_active c).

(** The default member initialisers. *)
Definition defaultPairingConfig : IcePairingConfig :=
  mkPairingConfig PHASED_UDP_FIRST 2 3000 REGULAR_STABLE_CHECK 500 ON_ALL_UDP_FAIL STICKY_SELECTED
    600 4 10000 5000 true false 3 1200 0 false false 0 false.

Inductive IcePairingProfile := RFC8445_COMPAT | EMBEDDED_STABLE | DEBUG_FAST | MINIMAL_RESOURCE.

Definition makeIcePairingConfig (profile : IcePairingProfile) : IcePairingConfig :=
  let c := defaultPairingConfig in
  match profile with
  | RFC8445_COMPAT =>
      c <| schedule_mode := RFC8445_STRICT |> <| max_concurrent_check := 0%nat |>
        <| udp_phase_timeout := 0 |> <| nomination_mode := AGGRESSIVE |>
        <| tcp_nomination_precheck := 0 |> <| tcp_relay_fallback := ALWAYS_ENABLE |>
        <| reselect_policy := RFC8445 |> <| rto_initial := 500 |> <| max_check_retransmit := 6 |>
        <| keepalive_udp := 10000 |> <| keepalive_tcp_relay := 10000 |>
        <| enable_trickle := true |> <| pre_allocate_tcp_relay := true |>
        <| early_phase_max_concurrent := 0%nat |> <| early_phase_duration := 0 |>
  | EMBEDDED_STABLE =>
      c <| schedule_mode := PHASED_UDP_FIRST |> <| max_concurrent_check := 2%nat |>
        <| udp_phase_timeout := 3000 |> <| nomination_mode := REGULAR_STABLE_CHECK |>
        <| tcp_nomination_precheck := 500 |> <| tcp_relay_fallback := ON_ALL_UDP_FAIL |>
        <| reselect_policy := STICKY_SELECTED |> <| rto_initial := 500 |>
        <| max_check_retransmit := 3 |> <| keepalive_udp := 10000 |>
        <| keepalive_tcp_relay := 5000 |> <| enable_trickle := true |>
        <| pre_allocate_tcp_relay := false |> <| early_phase_max_concurrent := 3%nat |>
        <| early_phase_duration := 1200 |>
  | DEBUG_FAST =>
      c <| schedule_mode := LIMITED_CONCURRENT |> <| max_concurrent_check := 4%nat |>
        <| udp_phase_timeout := 0 |> <| nomination_mode := AGGRESSIVE |>
        <| tcp_nomination_precheck := 0 |> <| tcp_relay_fallback := ALWAYS_ENABLE |>
        <| reselect_policy := RFC8445 |> <| rto_initial := 500 |> <| max_check_retransmit := 3 |>
        <| keepalive_udp := 8000 |> <| keepalive_tcp_relay := 4000 |> <| enable_trickle := true |>
        <| pre_allocate_tcp_relay := true |> <| early_phase_max_concurrent := 4%nat |>
        <| early_phase_duration := 1500 |>
  | MINIMAL_RESOURCE =>
      c <| schedule_mode := SERIAL |> <| max_concurrent_check := 1%nat |>
        <| udp_phase_timeout := 5000 |> <| nomination_mode := REGULAR |>
        <| tcp_nomination_precheck := 0 |> <| tcp_relay_fallback := ON_ALL_UDP_FAIL |>
        <| reselect_policy := STICKY_SELECTED |> <| rto_initial := 1000 |>
        <| max_check_retransmit := 5 |> <| keepalive_udp := 15000 |>
        <| keepalive_tcp_relay := 8000 |> <| enable_trickle := false |>
        <| pre_allocate_tcp_relay := false |> <| early_phase_max_concurrent := 0%nat |>
        <| early_phase_duration := 0 |>
  end.

Definition scheduleArmsTcp (c : IcePairingConfig) : bool :=
  negb (bool_decide (schedule_mode c = PHASED_UDP_FIRST)) || tcp_phase_entered c.

Definition nominationIsAggressive (c : IcePairingConfig) : bool :=
  bool_decide (nomination_mode c = AGGRESSIVE).

(** The header says that the defaults are those of the EMBEDDED_STABLE profile; the initial
    retransmission timeout and the number of retransmissions differ. *)
Lemma defaults_differ_from_embedded :
  defaultPairingConfig =
  makeIcePairingConfig EMBEDDED_STABLE <| rto_initial := 600 |> <| max_check_retransmit := 4 |> /\
  defaultPairingConfig <> makeIcePairingConfig EMBEDDED_STABLE.
Proof. split; [reflexivity | discriminate]. Qed.
