(* ===== verification/Lifetime.v ===== *)
(** * The lifetime guard of the agent (include/stice/ice/agent.hpp, LifetimeGuard and
    LifetimeScope)

    Every asynchronous callback of an agent opens a [LifetimeScope] and gives up when it does
    not get it; the destructor calls [shutdown], which waits for the scopes in use.  The
    model is the interleaving of any number of callback threads with one destructor, one
    atomic access of one thread at a step, under the memory orders of the source: [alive] is
    stored with release and loaded with acquire, [inFlight] is modified with acq_rel and
    loaded with acquire.  An atomic is the list of its modifications, each with the view its
    writer released; a thread has a view, the newest modification of each atomic it knows of.
    A load takes any modification that is not older than the thread's view and joins the view
    released with it; a read-modify-write takes the newest one.  Other synchronisation (the
    mutex of the condition variable, the locks of the agent and of the poll registry) is the
    step [step_sync]: a thread may learn at any time what another one knows. *)

From S2P Require Import Prelude.
Open Scope Z_scope.
Open Scope c_scope.

(** The newest modification of each atomic that a thread knows of. *)
Record View := mkView { seenAlive : nat; seenFlight : nat }.

Definition noView : View := mkView 0 0.
Definition join (v w : View) : View :=
  mkView (seenAlive v `max` seenAlive w) (seenFlight v `max` seenFlight w).
Definition below (v w : View) : Prop :=
  (seenAlive v <= seenAlive w)%nat /\ (seenFlight v <= seenFlight w)%nat.

(** The two atomics: their modifications in order. *)
Record LifetimeGuard := mkGuard { alive : list (bool * View); inFlight : list (Z * View) }.

Definition newGuard : LifetimeGuard := mkGuard [(true, noView)] [(0, noView)].

(** [alive.load(acquire)] taking modification [t]. *)
Definition loadAlive (g : LifetimeGuard) (v : View) (t : nat) : option (bool * View) :=
  if (seenAlive v <=? t)%nat then
    match alive g !! t with
    | Some (b, w) => Some (b, join (join v w) (mkView t 0))
    | None => None
    end
  else None.

(** [inFlight.load(acquire)] taking modification [t]. *)
Definition loadFlight (g : LifetimeGuard) (v : View) (t : nat) : option (Z * View) :=
  if (seenFlight v <=? t)%nat then
    match inFlight g !! t with
    | Some (n, w) => Some (n, join (join v w) (mkView 0 t))
    | None => None
    end
  else None.

(** [inFlight.fetch_add(d, acq_rel)]: it reads the newest modification. *)
Definition fetchAdd (g : LifetimeGuard) (v : View) (d : Z) : LifetimeGuard * View :=
  let t := length (inFlight g) in
  let '(n, w) := default (0, noView) (last (inFlight g)) in
  let v' := join (join v w) (mkView 0 t) in
  (mkGuard (alive g) (inFlight g ++ [(n + d, v')]), v').

(** Where a callback thread is: before [acquire], after its first load of [alive], after the
    increment, inside the scope, before the decrement of [release] (after leaving the scope
    or because [acquire] saw the shutdown), and done. *)
Inductive Pc := Enter | Checked | Counted | Inside | Leaving | Done.

#[export] Instance Pc_eq_dec : EqDecision Pc.
Proof. solve_decision. Defined.

(** A callback thread; [incAt] and [decAt] say which modifications of [inFlight] are its
    increment and its decrement. *)
Record Thread := mkThread {
  pc : Pc;
  view : View;
  incAt : option nat;
  decAt : option nat }.

Definition newThread : Thread := mkThread Enter noView None None.

(** The accesses of [acquire] and [release]. *)
Definition acquireLoad (g : LifetimeGuard) (th : Thread) (t : nat) : option Thread :=
  match loadAlive g (view th) t with
  | Some (b, v) => Some (mkThread (if b then Checked else Done) v (incAt th) (decAt th))
  | None => None
  end.

Definition acquireAdd (g : LifetimeGuard) (th : Thread) : LifetimeGuard * Thread :=
  let '(g', v) := fetchAdd g (view th) 1 in
  (g', mkThread Counted v (Some (length (inFlight g))) (decAt th)).

Definition acquireRecheck (g : LifetimeGuard) (th : Thread) (t : nat) : option Thread :=
  match loadAlive g (view th) t with
  | Some (b, v) => Some (mkThread (if b then Inside else Leaving) v (incAt th) (decAt th))
  | None => None
  end.

Definition release (g : LifetimeGuard) (th : Thread) : LifetimeGuard * Thread :=
  let '(g', v) := fetchAdd g (view th) (-1) in
  (g', mkThread Done v (incAt th) (Some (length (inFlight g)))).

(** The next access of a callback thread; a load takes modification [t]. *)
Definition scopeStep (g : LifetimeGuard) (th : Thread) (t : nat) : option (LifetimeGuard * Thread) :=
  match pc th with
  | Enter => pair g <$> acquireLoad g th t
  | Checked => Some (acquireAdd g th)
  | Counted => pair g <$> acquireRecheck g th t
  | Inside => Some (g, mkThread Leaving (view th) (incAt th) (decAt th))
  | Leaving => Some (release g th)
  | Done => None
  end.

(** The destructor: [shutdown] stores [false], then waits until the predicate holds or the
    budget is used up; [Drained t]: the predicate read the value 0 of modification [t]. *)
Inductive ShutdownPc := NotCalled | Waiting | Drained (t : nat) | GaveUp.

#[export] Instance ShutdownPc_eq_dec : EqDecision ShutdownPc.
Proof. solve_decision. Defined.

Definition shutdownStore (g : LifetimeGuard) (v : View) : LifetimeGuard * View :=
  let v' := join v (mkView (length (alive g)) 0) in
  (mkGuard (alive g ++ [(false, v')]) (inFlight g), v').

(** One evaluation of [wait_for]'s predicate, taking modification [t]; [expired] when the 5
    seconds are over. *)
Definition shutdownWait (g : LifetimeGuard) (v : View) (t : nat) (expired : bool)
  : option (ShutdownPc * View) :=
  match loadFlight g v t with
  | Some (n, v') => Some (if n =? 0 then Drained t else if expired then GaveUp else Waiting, v')
  | None => None
  end.

Record System := mkSystem {
  guard : LifetimeGuard;
  threads : list Thread;
  destructor : ShutdownPc;
  dview : View }.

Definition initSystem : System := mkSystem newGuard [] NotCalled noView.

(** What a synchronisation can hand over: a view some thread or the destructor has had. *)
Definition known (s : System) (v : View) : Prop :=
  below v (dview s) \/ exists th, th ∈ threads s /\ below v (view th).

Inductive step : System -> System -> Prop :=
| step_spawn s : step s (mkSystem (guard s) (threads s ++ [newThread]) (destructor s) (dview s))
| step_scope s i th t g' th' : threads s !! i = Some th -> scopeStep (guard s) th t = Some (g', th') ->
    step s (mkSystem g' (<[i := th']> (threads s)) (destructor s) (dview s))
| step_shutdown s g' v' : destructor s = NotCalled -> shutdownStore (guard s) (dview s) = (g', v') ->
    step s (mkSystem g' (threads s) Waiting v')
| step_wait s t expired d' v' : destructor s = Waiting ->
    shutdownWait (guard s) (dview s) t expired = Some (d', v') ->
    step s (mkSystem (guard s) (threads s) d' v')
| step_sync s i th v : threads s !! i = Some th -> pc th <> Done -> known s v ->
    step s (mkSystem (guard s) (<[i := mkThread (pc th) (join (view th) v) (incAt th) (decAt th)]> (threads s))
              (destructor s) (dview s))
| step_dsync s v : known s v ->
    step s (mkSystem (guard s) (threads s) (destructor s) (join (dview s) v)).

(** ** Views *)

#[export] Instance below_preorder : PreOrder below.
Proof. split; [intros v; split; lia | intros u v w [] []; split; lia]. Qed.

Lemma below_join_l v w : below v (join v w).
Proof. split; simpl; lia. Qed.

Lemma below_join_r v w : below w (join v w).
Proof. split; simpl; lia. Qed.

#[local] Hint Resolve below_join_l below_join_r : core.

(** ** Invariant *)

(** The thread's scope is open at modification [k]: its increment is there, its decrement is
    not. *)
Definition openAt (k : nat) (th : Thread) : nat :=
  match incAt th, decAt th with
  | Some i, None => if (i <=? k)%nat then 1 else 0
  | Some i, Some d => if (i <=? k)%nat && (k <? d)%nat then 1 else 0
  | _, _ => 0
  end.

Definition thread_ok (g : LifetimeGuard) (th : Thread) : Prop :=
  match pc th with
  | Enter | Checked => incAt th = None /\ decAt th = None
  | Counted | Inside | Leaving => exists k, incAt th = Some k /\ decAt th = None /\ (k < length (inFlight g))%nat
  | Done => incAt th = None /\ decAt th = None \/
      exists k d n w, incAt th = Some k /\ decAt th = Some d /\ (k < d)%nat /\
        inFlight g !! d = Some (n, w) /\ below (view th) w
  end.

Record inv (s : System) : Prop := {
  inv_some : inFlight (guard s) <> [];
  inv_first : (0 < length (alive (guard s)))%nat;
  inv_alive : forall t b w, alive (guard s) !! t = Some (b, w) -> (0 < t)%nat -> b = false;
  inv_value : forall k n w, inFlight (guard s) !! k = Some (n, w) ->
    n = Z.of_nat (sum_list_with (openAt k) (threads s));
  inv_views : forall j k n w n' w', inFlight (guard s) !! j = Some (n, w) ->
    inFlight (guard s) !! k = Some (n', w') -> (j <= k)%nat -> below w w';
  inv_threads : Forall (thread_ok (guard s)) (threads s);
  inv_drained : forall t, destructor s = Drained t ->
    exists w, inFlight (guard s) !! t = Some (0, w) /\ below w (dview s) }.

Lemma sum_insert (f : Thread -> nat) (l : list Thread) i th th' :
  l !! i = Some th ->
  (sum_list_with f (<[i := th']> l) + f th = sum_list_with f l + f th')%nat.
Proof.
  revert i. induction l as [|x l IH]; intros [|i] H; simplify_eq/=; [lia|].
  specialize (IH i H). lia.
Qed.

Lemma sum_same (f f' : Thread -> nat) (l : list Thread) :
  Forall (fun th => f th = f' th) l -> sum_list_with f l = sum_list_with f' l.
Proof. induction 1; simpl; lia. Qed.

Lemma sum_zero (f : Thread -> nat) (l : list Thread) i th :
  sum_list_with f l = 0%nat -> l !! i = Some th -> f th = 0%nat.
Proof.
  revert i. induction l as [|x l IH]; intros [|i] H Hi; simplify_eq/=; [lia|].
  apply (IH i); [lia | done].
Qed.

(** Nothing is opened or closed after the newest modification. *)
Lemma openAt_last g th :
  inFlight g <> [] -> thread_ok g th ->
  openAt (length (inFlight g)) th = openAt (length (inFlight g) - 1) th.
Proof.
  intros Hne. assert (0 < length (inFlight g))%nat by (destruct (inFlight g); [done | simpl; lia]).
  unfold thread_ok, openAt. destruct (pc th); intros Hok.
  1-2: by destruct Hok as [-> _].
  1-3: destruct Hok as (k & -> & -> & Hk); by rewrite !(proj2 (Nat.leb_le _ _)) by lia.
  destruct Hok as [[-> _]|(k & d & n & w & -> & -> & Hkd & Hd & _)]; [done|].
  apply lookup_lt_Some in Hd.
  by rewrite !(proj2 (Nat.ltb_ge _ _)), !andb_false_r by lia.
Qed.

Lemma last_length {A} (l : list A) x : last l = Some x -> l !! (length l - 1)%nat = Some x.
Proof. intros H. rewrite last_lookup in H. by replace (length l - 1)%nat with (pred (length l)) by lia. Qed.

(** A thread that is fine stays fine when [inFlight] gets a modification. *)
Lemma thread_ok_grow g g' m th :
  inFlight g' = inFlight g ++ m -> thread_ok g th -> thread_ok g' th.
Proof.
  intros E. unfold thread_ok. rewrite E, length_app.
  destruct (pc th); try done;
    [| | |]; try (intros (k & ? & ? & ?); exists k; repeat split; [done | done | lia]).
  intros [H|(k & d & n & w & ? & ? & ? & Hd & ?)]; [by left|].
  right. exists k, d, n, w. split_and!; try done. by apply lookup_app_l_Some.
Qed.

(** A modification added by thread [i]: the old values count what they counted, the new one
    counts the thread as well, or no longer. *)
Lemma inv_modify s i th th' d g' v' :
  inv s -> threads s !! i = Some th -> fetchAdd (guard s) (view th) d = (g', v') ->
  let n := length (inFlight (guard s)) in
  (forall k, (k < n)%nat -> openAt k th' = openAt k th) ->
  Z.of_nat (openAt n th') = Z.of_nat (openAt n th) + d ->
  (forall nw, inFlight g' !! n = Some (nw, v') -> thread_ok g' th') ->
  inv (mkSystem g' (<[i := th']> (threads s)) (destructor s) (dview s)).
Proof.
  intros [Hne Hf Ha Hv Hw Ht Hd] Hi E n Hold Hnew Hok. unfold fetchAdd in E.
  destruct (last (inFlight (guard s))) as [[m w]|] eqn:El;
    [|apply last_None in El; contradiction].
  pose proof (last_length _ _ El) as Hl. fold n in Hl, E. simpl in E. injection E as <- <-.
  pose proof (Forall_lookup_1 _ _ _ _ Ht Hi) as Hthi.
  set (v' := join (join (view th) w) (mkView 0 n)) in *.
  assert (Hn : (inFlight (guard s) ++ [(m + d, v')]) !! n = Some (m + d, v'))
    by (by rewrite lookup_app_r, Nat.sub_diag by done).
  constructor; simpl; [destruct (inFlight (guard s)); done | done | done | | | | ].
  - intros k nk wk Hk. apply lookup_app_Some in Hk as [Hk|[Hge Hk]].
    + rewrite (Hv k nk wk Hk). pose proof (lookup_lt_Some _ _ _ Hk) as Hlt.
      pose proof (sum_insert (openAt k) (threads s) i th th' Hi). rewrite (Hold k) in H by done. lia.
    + apply list_lookup_singleton_Some in Hk as [Hk E]. simplify_eq.
      assert (k = n) as -> by (unfold n; lia).
      pose proof (sum_insert (openAt n) (threads s) i th th' Hi) as Hs.
      rewrite (sum_same (openAt n) (openAt (n - 1)) (threads s)) in Hs
        by (eapply Forall_impl; [exact Ht | intros x Hx; by apply openAt_last]).
      rewrite (Hv _ _ _ Hl). lia.
  - intros j k nj wj nk wk Hj Hk Hjk.
    apply lookup_app_Some in Hk as [Hk|[Hge Hk]].
    + rewrite lookup_app_l in Hj by (apply lookup_lt_Some in Hk; lia). by apply (Hw j k nj wj nk wk).
    + apply list_lookup_singleton_Some in Hk as [Hk E]. simplify_eq.
      apply lookup_app_Some in Hj as [Hj|[_ Hj]].
      * transitivity w; [apply (Hw j (n - 1)%nat nj wj m w Hj Hl); apply lookup_lt_Some in Hj; unfold n; lia|].
        by transitivity (join (view th) w).
      * apply list_lookup_singleton_Some in Hj as [_ Hj]. by simplify_eq.
  - apply Forall_insert; [|by apply (Hok (m + d))].
    eapply Forall_impl; [exact Ht|]. intros x Hx. eapply thread_ok_grow; [done | exact Hx].
  - intros t Hdt. destruct (Hd t Hdt) as (wt & Ht' & Hb). exists wt.
    split; [by apply lookup_app_l_Some | done].
Qed.

(** A step that changes one thread and no modification. *)
Lemma inv_thread s i th th' :
  inv s -> threads s !! i = Some th -> incAt th' = incAt th -> decAt th' = decAt th ->
  thread_ok (guard s) th' ->
  inv (mkSystem (guard s) (<[i := th']> (threads s)) (destructor s) (dview s)).
Proof.
  intros [Hne Hf Ha Hv Hw Ht Hd] Hi Ei Ed Hok. constructor; simpl; try done.
  - intros k n w Hk. rewrite (Hv k n w Hk).
    pose proof (sum_insert (openAt k) (threads s) i th th' Hi) as Hs.
    assert (openAt k th' = openAt k th) by (unfold openAt; by rewrite Ei, Ed). lia.
  - by apply Forall_insert.
Qed.

(** Every access of a callback thread keeps the invariant. *)
Lemma inv_scope s i th t g' th' :
  inv s -> threads s !! i = Some th -> scopeStep (guard s) th t = Some (g', th') ->
  inv (mkSystem g' (<[i := th']> (threads s)) (destructor s) (dview s)).
Proof.
  intros Hinv Hi E. pose proof (Forall_lookup_1 _ _ _ _ (inv_threads s Hinv) Hi) as Hok.
  unfold scopeStep in E. unfold thread_ok in Hok. destruct (pc th) eqn:Epc.
  - unfold acquireLoad in E. destruct (loadAlive (guard s) (view th) t) as [[b v]|]; simplify_eq/=.
    apply inv_thread with (th := th); try done. unfold thread_ok. simpl. destruct b; naive_solver.
  - unfold acquireAdd in E. destruct (fetchAdd (guard s) (view th) 1) as [g v] eqn:Ef. simplify_eq.
    destruct Hok as [Hi0 Hd0].
    eapply inv_modify; [done | done | exact Ef | | | ]; unfold openAt; simpl; rewrite ?Hi0, ?Hd0.
    + intros k Hk. by rewrite (proj2 (Nat.leb_gt _ _)).
    + by rewrite (proj2 (Nat.leb_le _ _)).
    + intros m Hm. exists (length (inFlight (guard s))). split_and!; [done | done | by eapply lookup_lt_Some].
  - unfold acquireRecheck in E. destruct (loadAlive (guard s) (view th) t) as [[b v]|]; simplify_eq/=.
    apply inv_thread with (th := th); try done. unfold thread_ok. simpl. destruct b; naive_solver.
  - simplify_eq. apply inv_thread with (th := th); try done.
  - unfold release in E. destruct (fetchAdd (guard s) (view th) (-1)) as [g v] eqn:Ef. simplify_eq.
    destruct Hok as (k & Hk & Hd0 & Hlt).
    eapply inv_modify; [done | done | exact Ef | | | ]; unfold openAt; simpl; rewrite ?Hk, ?Hd0.
    + intros k' Hk'. rewrite (proj2 (Nat.ltb_lt _ _) Hk'). by rewrite andb_true_r.
    + rewrite Nat.ltb_irrefl, andb_false_r. by rewrite (proj2 (Nat.leb_le _ _)) by lia.
    + intros m Hm. right. by exists k, (length (inFlight (guard s))), m, v.
  - done.
Qed.

Lemma inv_step s s' : inv s -> step s s' -> inv s'.
Proof.
  intros Hinv Hs. destruct Hs as [s|s i th t g' th' Hi E|s g' v' Hn E|s t x d' v' Hwt E|s i th v Hi Hpc _|s v _].
  - destruct Hinv as [Hne Hf Ha Hv Hw Ht Hd]. constructor; simpl; try done.
    + intros k n w Hk. rewrite sum_list_with_app. simpl. rewrite (Hv k n w Hk). lia.
    + apply Forall_app. by split; [|repeat constructor].
  - by eapply inv_scope.
  - destruct Hinv as [Hne Hf Ha Hv Hw Ht Hd]. unfold shutdownStore in E. simplify_eq.
    constructor; simpl; try done; [rewrite length_app; lia|].
    intros t b w Hl Hpos. apply lookup_app_Some in Hl as [Hl|[_ Hl]]; [by eapply Ha|].
    apply list_lookup_singleton_Some in Hl as [_ Hl]. by simplify_eq.
  - destruct Hinv as [Hne Hf Ha Hv Hw Ht Hd]. unfold shutdownWait, loadFlight in E.
    destruct (seenFlight (dview s) <=? t)%nat; [|done].
    destruct (inFlight (guard s) !! t) as [[n w]|] eqn:El; simplify_eq.
    constructor; simpl; try done. intros t' Ed.
    destruct (n =? 0) eqn:En; [apply Z.eqb_eq in En | by destruct x]. simplify_eq.
    exists w. split; [done|]. by transitivity (join (dview s) w).
  - pose proof (Forall_lookup_1 _ _ _ _ (inv_threads s Hinv) Hi) as Hok.
    apply inv_thread with (th := th); try done. unfold thread_ok in *. simpl. by destruct (pc th).
  - destruct Hinv as [Hne Hf Ha Hv Hw Ht Hd]. constructor; simpl; try done.
    intros t Ed. destruct (Hd t Ed) as (w & Hw' & Hb). exists w.
    split; [done|]. by transitivity (dview s).
Qed.

Lemma inv_initSystem : inv initSystem.
Proof.
  constructor; simpl.
  - done.
  - lia.
  - intros [|t] b w H Hpos; [lia | by destruct t].
  - intros [|k] n w H; [by simplify_eq/= | by destruct k].
  - intros [|j] [|k] n w n' w' Hj Hk Hle; simplify_eq/=; done.
  - constructor.
  - done.
Qed.

Lemma inv_reachable s s' : inv s -> rtc step s s' -> inv s'.
Proof. intros H0 H. induction H; eauto using inv_step. Qed.

(** ** What a drain promises *)

(** A thread that [inFlight] counts. *)
Definition counted (th : Thread) : nat :=
  match pc th with Counted | Inside | Leaving => 1 | _ => 0 end.

(** At the newest modification exactly the counted threads are open. *)
Lemma counted_open g th :
  inFlight g <> [] -> thread_ok g th -> openAt (length (inFlight g) - 1) th = counted th.
Proof.
  intros Hne. assert (0 < length (inFlight g))%nat by (destruct (inFlight g); [done | simpl; lia]).
  unfold thread_ok, openAt, counted. destruct (pc th); intros Hok.
  1-2: by destruct Hok as [-> _].
  1-3: destruct Hok as (k & -> & -> & Hk); by rewrite (proj2 (Nat.leb_le _ _)) by lia.
  destruct Hok as [[-> _]|(k & d & n & w & -> & -> & Hkd & Hd & _)]; [done|].
  apply lookup_lt_Some in Hd. by rewrite (proj2 (Nat.ltb_ge _ _)), andb_false_r by lia.
Qed.

Lemma inv_last s n w :
  inv s -> last (inFlight (guard s)) = Some (n, w) -> n = Z.of_nat (sum_list_with counted (threads s)).
Proof.
  intros Hinv Hl. rewrite (inv_value s Hinv _ _ _ (last_length _ _ Hl)). f_equal. apply sum_same.
  eapply Forall_impl; [exact (inv_threads s Hinv)|]. intros th Hth.
  apply counted_open; [by apply inv_some | done].
Qed.

(** A scope that the value read by [shutdown] covers is closed, and the destructor knows what
    its thread knew when it left. *)
Lemma drained_covers s t i th k :
  inv s -> destructor s = Drained t -> threads s !! i = Some th ->
  incAt th = Some k -> (k <= t)%nat -> pc th = Done /\ below (view th) (dview s).
Proof.
  intros Hinv Hd Hi Hk Hle. destruct (inv_drained s Hinv t Hd) as (w & Hw & Hb).
  pose proof (inv_value s Hinv _ _ _ Hw) as Hz.
  assert (Ho : openAt t th = 0%nat) by (apply (sum_zero (openAt t) (threads s) i th); [lia | exact Hi]).
  pose proof (Forall_lookup_1 _ _ _ _ (inv_threads s Hinv) Hi) as Hok.
  unfold openAt in Ho. rewrite Hk in Ho. unfold thread_ok in Hok.
  apply Nat.leb_le in Hle. rewrite Hle in Ho.
  destruct (pc th); try (destruct Hok; congruence);
    try (destruct Hok as (? & ? & E & _); by rewrite E in Ho).
  split; [done|].
  destruct Hok as [[? _]|(k' & d & n & w' & ? & E & _ & Hd' & Hb')]; [congruence|].
  rewrite E in Ho. simpl in Ho. destruct (t <? d)%nat eqn:Ed; [done|]. apply Nat.ltb_ge in Ed.
  transitivity w'; [done|]. transitivity w; [|done]. by eapply (inv_views s Hinv).
Qed.

Lemma drained_stays s s' t : destructor s = Drained t -> rtc step s s' -> destructor s' = Drained t.
Proof. intros Hd H. induction H as [|s s1 s2 H1 _ IH]; [done|]. apply IH. destruct H1; simpl; congruence. Qed.

(** [shutdown] reads nothing older than what the destructor knew before. *)
Definition waits_for (m : nat) (s : System) : Prop :=
  match destructor s with Drained t => (m <= t)%nat | _ => (m <= seenFlight (dview s))%nat end.

Lemma waits_for_stays m s s' : rtc step s s' -> waits_for m s -> waits_for m s'.
Proof.
  induction 1 as [|s s1 s2 H1 _ IH]; [done|]. intros Hs. apply IH. clear IH. unfold waits_for in *.
  destruct H1 as [| |s g' v' Hn E|s t x d' v' Hw E| |s v _]; try exact Hs; simpl.
  - unfold shutdownStore in E. simplify_eq/=. rewrite Hn in Hs. lia.
  - unfold shutdownWait, loadFlight in E. rewrite Hw in Hs.
    destruct (seenFlight (dview s) <=? t)%nat eqn:Et; [|done]. apply Nat.leb_le in Et.
    destruct (inFlight (guard s) !! t) as [[n w]|]; simplify_eq/=.
    destruct (n =? 0); [lia|]. destruct x; simpl; lia.
  - destruct (destructor s); simpl; lia.
Qed.

(** The threads that know that the agent shuts down. *)
Definition turned_away (th : Thread) : Prop := (0 < seenAlive (view th))%nat /\ pc th <> Inside.

Lemma loadAlive_false s v t b v' :
  inv s -> (0 < seenAlive v)%nat -> loadAlive (guard s) v t = Some (b, v') ->
  b = false /\ (0 < seenAlive v')%nat.
Proof.
  intros Hinv Hp E. unfold loadAlive in E. destruct (seenAlive v <=? t)%nat eqn:Et; [|done].
  apply Nat.leb_le in Et. destruct (alive (guard s) !! t) as [[b0 w]|] eqn:El; simplify_eq/=.
  split; [|lia]. eapply (inv_alive s Hinv); [exact El | lia].
Qed.

Lemma fetchAdd_seen g v d g' v' : fetchAdd g v d = (g', v') -> (seenAlive v <= seenAlive v')%nat.
Proof. unfold fetchAdd. destruct (default (0, noView) (last (inFlight g))). intros. simplify_eq/=. lia. Qed.

Lemma turned_away_scope s th t g' th' :
  inv s -> turned_away th -> scopeStep (guard s) th t = Some (g', th') -> turned_away th'.
Proof.
  intros Hinv [Hp Hpc] E. unfold scopeStep in E. destruct (pc th) eqn:Ep; try done.
  - unfold acquireLoad in E. destruct (loadAlive (guard s) (view th) t) as [[b v]|] eqn:El; simplify_eq/=.
    apply (loadAlive_false s) in El as [-> H]; done.
  - unfold acquireAdd in E. destruct (fetchAdd (guard s) (view th) 1) as [g v] eqn:Ef. simplify_eq.
    apply fetchAdd_seen in Ef. split; simpl; [lia | done].
  - unfold acquireRecheck in E. destruct (loadAlive (guard s) (view th) t) as [[b v]|] eqn:El; simplify_eq/=.
    apply (loadAlive_false s) in El as [-> H]; done.
  - unfold release in E. destruct (fetchAdd (guard s) (view th) (-1)) as [g v] eqn:Ef. simplify_eq.
    apply fetchAdd_seen in Ef. split; simpl; [lia | done].
Qed.

Lemma turned_away_stays s s' i th :
  inv s -> rtc step s s' -> threads s !! i = Some th -> turned_away th ->
  exists th', threads s' !! i = Some th' /\ turned_away th'.
Proof.
  intros Hinv H. revert th. induction H as [|s s1 s2 H1 _ IH]; intros th Hi Ht; [eauto|].
  assert (Hinv1 : inv s1) by (by eapply inv_step).
  enough (exists th1, threads s1 !! i = Some th1 /\ turned_away th1) as (th1 & Hi1 & Ht1) by eauto.
  clear IH. destruct H1 as [s|s j tj t g' th' Hj E| | |s j tj v Hj Hpc _|]; simpl; eauto.
  - exists th. split; [by apply lookup_app_l_Some | done].
  - destruct (decide (i = j)) as [<-|Hne]; [|rewrite list_lookup_insert_ne by done; eauto].
    rewrite Hi in Hj. simplify_eq. exists th'.
    rewrite list_lookup_insert_eq by (by eapply lookup_lt_Some). split; [done|].
    exact (turned_away_scope s tj t g' th' Hinv Ht E).
  - destruct (decide (i = j)) as [<-|Hne]; [|rewrite list_lookup_insert_ne by done; eauto].
    rewrite Hi in Hj. simplify_eq. eexists.
    rewrite list_lookup_insert_eq by (by eapply lookup_lt_Some). split; [done|].
    destruct Ht. split; simpl; [lia | done].
Qed.

(** C39: what [shutdown] returning true promises to the destructor, under the memory orders
    of the source and for any number of callback threads.  [shutdown] has read the value 0 of
    modification [t] of [inFlight], which is not older than any modification the destructor
    knew when it called [shutdown] (in state [s0]).  Then, in that state and in every later
    one, every callback whose increment of [inFlight] is at or before [t] has left its scope,
    and everything its thread knew when it left is known to the destructor; a callback that
    is inside nevertheless made its increment after [t]; a thread that knows of the store to
    [alive] and is not inside never gets inside; and the newest value of [inFlight] is the
    number of threads between increment and decrement.  That no callback at all is inside
    does not hold: [scope_opens_after_drain]. *)
Theorem drained_scopes_have_left (s0 s s' : System) (t : nat) :
  rtc step initSystem s0 -> destructor s0 = NotCalled -> rtc step s0 s ->
  destructor s = Drained t -> rtc step s s' ->
  destructor s' = Drained t /\ (seenFlight (dview s0) <= t)%nat /\
  (forall i th k, threads s' !! i = Some th -> incAt th = Some k -> (k <= t)%nat ->
     pc th = Done /\ below (view th) (dview s')) /\
  (forall i th, threads s' !! i = Some th -> pc th = Inside ->
     exists k, incAt th = Some k /\ (t < k)%nat) /\
  (forall i th, threads s !! i = Some th -> (0 < seenAlive (view th))%nat -> pc th <> Inside ->
     exists th', threads s' !! i = Some th' /\ pc th' <> Inside) /\
  (forall n w, last (inFlight (guard s')) = Some (n, w) ->
     n = Z.of_nat (sum_list_with counted (threads s'))).
Proof.
  intros H0 Hn H Hd H'. pose proof (inv_reachable _ _ inv_initSystem H0) as Hi0.
  pose proof (inv_reachable _ _ Hi0 H) as Hi. pose proof (inv_reachable _ _ Hi H') as Hi'.
  pose proof (drained_stays _ _ _ Hd H') as Hd'.
  assert (Hnew : waits_for (seenFlight (dview s0)) s)
    by (apply (waits_for_stays _ s0); [done | unfold waits_for; by rewrite Hn]).
  unfold waits_for in Hnew. rewrite Hd in Hnew. split_and!; [done | done | | | |].
  - intros i th k Hth Hk Hle. by eapply drained_covers.
  - intros i th Hth Hpc. pose proof (Forall_lookup_1 _ _ _ _ (inv_threads _ Hi') Hth) as Hok.
    unfold thread_ok in Hok. rewrite Hpc in Hok. destruct Hok as (k & Hk & _). exists k. split; [done|].
    destruct (decide (k <= t)%nat) as [Hle|]; [|lia].
    destruct (drained_covers _ _ _ _ _ Hi' Hd' Hth Hk Hle) as [E _]. congruence.
  - intros i th Hth Hp Hpc. destruct (turned_away_stays s s' i th Hi H' Hth) as (th' & Hth' & _ & Hpc'); [done|].
    eauto.
  - intros n w. by apply inv_last.
Qed.

(** One access of thread 0 taking modification [t]. *)
Ltac access t := eapply rtc_l; [eapply (step_scope _ 0 _ t); reflexivity|]; cbn.

(** The state in which a callback has come and gone. *)
Definition visited : System :=
  mkSystem (mkGuard [(true, noView)] [(0, noView); (1, mkView 0 1); (0, mkView 0 2)])
    [mkThread Done (mkView 0 2) (Some 1%nat) (Some 2%nat)] NotCalled noView.

Lemma visited_reached : rtc step initSystem visited.
Proof.
  eapply rtc_l; [apply step_spawn|]. access 0%nat. access 0%nat. access 0%nat. access 0%nat. access 0%nat.
  apply rtc_refl.
Qed.

(** ... and the destructor has drained it. *)
Definition drainedVisit : System :=
  mkSystem (mkGuard [(true, noView); (false, mkView 1 0)] [(0, noView); (1, mkView 0 1); (0, mkView 0 2)])
    [mkThread Done (mkView 0 2) (Some 1%nat) (Some 2%nat)] (Drained 2) (mkView 1 2).

Lemma drained_scopes_have_left_witness :
  rtc step visited drainedVisit /\ below (mkView 0 2) (dview drainedVisit).
Proof.
  assert (H : rtc step visited drainedVisit).
  { eapply rtc_l; [eapply step_shutdown; reflexivity|].
    eapply rtc_l; [eapply (step_wait _ 2 false); reflexivity|]. apply rtc_refl. }
  split; [exact H|].
  destruct (drained_scopes_have_left visited drainedVisit drainedVisit 2 visited_reached eq_refl H eq_refl
    (rtc_refl _ _)) as (_ & _ & Hc & _).
  exact (proj2 (Hc 0%nat _ 1%nat eq_refl eq_refl (le_S _ _ (le_n _)))).
Defined.

(** A callback may be inside when [shutdown] has returned true: the destructor stores [false]
    and reads the old 0 of [inFlight] while the callback, which has incremented it, reads the
    old [true] of [alive].  Neither load has to see the other thread's modification: release
    stores and acquire loads do not order a thread's store before its own later load of
    another atomic. *)
Lemma scope_opens_after_drain :
  exists s th, rtc step initSystem s /\ destructor s = Drained 0 /\ threads s = [th] /\ pc th = Inside.
Proof.
  eexists _, _. split.
  - eapply rtc_l; [apply step_spawn|]. access 0%nat. access 0%nat.
    eapply rtc_l; [eapply step_shutdown; reflexivity|].
    eapply rtc_l; [eapply (step_wait _ 0 false); reflexivity|]. access 0%nat. apply rtc_refl.
  - done.
Qed.
