(* ===== verification/AgentState.v ===== *)
(** * The state of the ICE agent (include/stice/ice/agent.hpp)

    The members of [ice::Agent] that connectivity checking uses, and the operations on them
    that every other part needs.  [pairs_] is a vector of owned pairs from which none is
    removed, so a [CandidatePair *] is the index of the pair; a [Candidate *] is a [CandRef].
    [remoteGen] counts the assignments to [remote_], which destroy the candidates of the
    former value.  A time point is a number of milliseconds, zero is the default time point,
    and the clock stands still within a step: each entry point of the agent runs under
    [mutex_].

    The components the agent drives are seen through what it reads of them.  A relay entry
    has a [TurnView] of its TURN client; the calls that make the client act are outputs, and
    the client's answers are events of their own.  Of the ICE-TCP transport and of the
    RFC 6062 data connection the model keeps whether they are usable and for which peer.
    Log output and the wake-up of the poll thread are left out.

    The operating system is the record [Env]. *)

From S2P Require Import Prelude.
From S2P Require Import Addr.
From S2P Require Import CText.
From S2P Require Import Candidate.
From S2P Require Import CandidatePair.
From S2P Require Import Sdp.
From S2P Require Import PairingStrategy.
From S2P Require Export StateMonad.
From S2P Require Export TurnTypes.
Open Scope Z_scope.
Open Scope c_scope.

(** ** Constants *)

Definition MinStunRetransmissionTimeoutMs : Z := 500.
Definition LastStunRetransmissionTimeoutMs : Z := 8000.
Definition MaxStunCheckRetransmissions : Z := 6.
Definition StunTcpTimeoutMs : Z := 8000.
Definition GatherTimeoutMs : Z := 15000.
Definition StunPacingTimeMs : Z := 50.
Definition IcePacTimeoutMs : Z := 39500.
Definition ConsentTimeoutMs : Z := 30000.
Definition DefaultConsentCheckPeriodMs : Z := 5000.
Definition MinConsentCheckPeriodMs : Z := 4000.
Definition IdleConsentCheckMs : Z := 10000.
Definition IdleThresholdMs : Z := 30000.
Definition NominationTimeoutMs : Z := 2000.
Definition NominationDelayHostMs : Z := 0.
Definition NominationDelaySrflxMs : Z := 500.
Definition NominationDelayPrflxMs : Z := 1000.
Definition NominationDelayRelayMs : Z := 2000.
Definition MaxCandidatePairs : nat := 90.
Definition MaxStunEntries : nat := 92.

(** ** Data *)

Inductive stice_state_t := STATE_DISCONNECTED | STATE_GATHERING | STATE_CONNECTING
  | STATE_CONNECTED | STATE_COMPLETED | STATE_FAILED.
Inductive AgentMode := ModeUnknown | Controlling | Controlled.
Inductive StunEntryType := EmptyEntry | Server | Relay | Check.
Inductive StunEntryState := EPending | ECancelled | EFailed | ESucceeded | ESucceededKeepalive | EIdle.

#[export] Instance stice_state_t_eq_dec : EqDecision stice_state_t.
Proof. solve_decision. Defined.
#[export] Instance AgentMode_eq_dec : EqDecision AgentMode.
Proof. solve_decision. Defined.
#[export] Instance StunEntryType_eq_dec : EqDecision StunEntryType.
Proof. solve_decision. Defined.
#[export] Instance StunEntryState_eq_dec : EqDecision StunEntryState.
Proof. solve_decision. Defined.

(** What the agent reads of a [turn::Client]: [state()], [isTcpAllocation()] and
    [hasPermission()]. *)
Record TurnView := mkTurnView {
  tv_state : AllocState; tv_isTcpAllocation : bool; tv_hasPermission : AddrRecord -> bool }.

(** [e_turnTcp]: the entry owns a control transport. *)
Record StunEntry := mkEntry {
  e_type : StunEntryType; e_state : StunEntryState; e_mode : AgentMode; e_pair : option nat;
  e_record : AddrRecord; e_transactionID : bytes; e_nextTransmission : Z;
  e_retransmissionTimeout : Z; e_retransmissions : Z; e_transactionIdExpired : bool;
  e_turn : option TurnView; e_tcpTurn : bool; e_turnTcp : bool }.

#[export] Instance StunEntry_fields : RecordFields StunEntry := fun e =>
  mkEntry (e_type e) (e_state e) (e_mode e) (e_pair e) (e_record e) (e_transactionID e)
    (e_nextTransmission e) (e_retransmissionTimeout e) (e_retransmissions e)
    (e_transactionIdExpired e) (e_turn e) (e_tcpTurn e) (e_turnTcp e).

(** The default member initialisers. *)
Definition newEntry : StunEntry :=
  mkEntry EmptyEntry EIdle ModeUnknown None emptyAddr (replicate 12 0) 0
    MinStunRetransmissionTimeoutMs 0 true None false false.

(** What the agent does: datagrams, data on the TCP transports, calls of a TURN client (the
    number is the index of its entry), and the user's callbacks. *)
Inductive Output :=
| OUdp (dst : AddrRecord) (data : bytes)
| OTcp (data : bytes)
| OTcpMux (dst : AddrRecord) (data : bytes)
| OTurnData (data : bytes)
| OTurnSend (entry : nat) (dst : AddrRecord) (data : bytes)
| OTurnPermission (entry : nat) (peer : AddrRecord)
| OTurnConnect (entry : nat) (peer : AddrRecord)
| OTurnInbound (entry : nat) (data : bytes)
| OTurnAllocate (entry : nat)
| OTurnDeallocate (entry : nat)
| ODeferredAllocations
| OState (st : stice_state_t)
| OCandidate (c : Candidate)
| OGatheringDone
| ORecv (data : bytes).

Record Agent := mkAgent {
  pairingCfg_ : IcePairingConfig; state_ : stice_state_t; mode_ : AgentMode; tiebreaker_ : Z;
  local_ : Description; remote_ : Description; remoteGen : nat;
  gatheringDone_ : bool; gatherStartedAt_ : Z; remoteGatheringDone_ : bool;
  pendingRelayAllocations_ : Z; pendingServerReflexive_ : Z;
  entries_ : list StunEntry; pairs_ : list CandidatePair; orderedPairs_ : list nat;
  selectedPair_ : option nat; nominatedPair_ : option nat; nominationValue_ : Z;
  checkingStartTime_ : Z; relayOnlyMode_ : bool; lastAppDataAt_ : Z; pacDeadline_ : Z;
  tcpConnected_ : option AddrRecord; turnDataBound_ : option AddrRecord; hasTurnDataConn_ : bool;
  connectRetries_ : Z; pendingConnectPeer_ : AddrRecord; pendingConnectRetry_ : bool;
  nextConnectRetry_ : Z; tcpConnectSent_ : bool; pendingConnectWaitPerm_ : bool;
  pendingTurnDataRetry_ : bool; nextTurnDataRetry_ : Z; turnDataRetryPeer_ : AddrRecord;
  udpCtrlQueue_ : list (AddrRecord * bytes);
  clock : Z; draws : nat; sends : nat; outs : list Output }.

#[export] Instance Agent_fields : RecordFields Agent := fun s =>
  mkAgent (pairingCfg_ s) (state_ s) (mode_ s) (tiebreaker_ s) (local_ s) (remote_ s) (remoteGen s)
    (gatheringDone_ s) (gatherStartedAt_ s) (remoteGatheringDone_ s)
    (pendingRelayAllocations_ s) (pendingServerReflexive_ s)
    (entries_ s) (pairs_ s) (orderedPairs_ s) (selectedPair_ s) (nominatedPair_ s)
    (nominationValue_ s) (checkingStartTime_ s) (relayOnlyMode_ s) (lastAppDataAt_ s) (pacDeadline_ s)
    (tcpConnected_ s) (turnDataBound_ s) (hasTurnDataConn_ s)
    (connectRetries_ s) (pendingConnectPeer_ s) (pendingConnectRetry_ s) (nextConnectRetry_ s)
    (tcpConnectSent_ s) (pendingConnectWaitPerm_ s) (pendingTurnDataRetry_ s)
    (nextTurnDataRetry_ s) (turnDataRetryPeer_ s) (udpCtrlQueue_ s)
    (clock s) (draws s) (sends s) (outs s).

(** A new agent with its credentials and tie-breaker. *)
Definition newAgent (cfg : IcePairingConfig) (local : Description) (tiebreaker : Z) : Agent :=
  mkAgent cfg STATE_DISCONNECTED ModeUnknown tiebreaker local newDescription 0
    false 0 false 0 0 [] [] [] None None 0 0 false 0 0 None None false
    0 emptyAddr false 0 false false false 0 emptyAddr [] 0 0 0 [].

(** The operating system and the libraries: [csprng k n] is the [k]-th request for [n] random
    bytes, [udpSend k dst data] the result of the [k]-th datagram with whether a negative one
    means that the socket is backed up, [tcpMuxSend] the same for the shared TCP listener
    ([None] when there is none), [tcpAccepts] whether a TCP transport takes the data, [getnameinfo] the numeric host and service, [boundAddr] the
    address of the UDP socket, [tcpDial] the local candidate of an active TCP connection to a
    remote passive candidate, when ICE-TCP is enabled and the connection could be started,
    [turnTick] the next deadline of the TURN client of an entry (zero for none).  The others
    are the parameters of [Candidate] and [Sdp]. *)
Record Env := mkEnv {
  csprng : nat -> nat -> option bytes;
  udpSend : nat -> AddrRecord -> bytes -> Z * bool;
  tcpMuxSend : option (nat -> AddrRecord -> bytes -> Z);
  tcpAccepts : nat -> bytes -> bool;
  getnameinfo : sockaddr -> text * text;
  boundAddr : option AddrRecord;
  tcpDial : Candidate -> option Candidate;
  turnTick : nat -> Z -> Z;
  tcpPriorityOffset : Z;
  numberOutOfRange : Z -> Z;
  inetPton4 : string -> option bytes;
  inetPton6 : string -> option bytes;
  getaddrinfo : string -> string -> Z -> list AddrRecord }.

(** ** Primitive steps *)

Abbreviation M := (SM Agent).

Definition emit (o : Output) : M unit := modify (fun s => s <| outs ::= (fun l => l ++ [o]) |>).
Definition now : M Z := gets clock.

(** [&candidates[i]] dereferenced: a pointer into a destroyed deque is dangling. *)
Definition localCand (s : Agent) (r : CandRef) : option Candidate :=
  if decide (gen r = 0%nat) then candidates (local_ s) !! idx r else None.
Definition remoteCand (s : Agent) (r : CandRef) : option Candidate :=
  if decide (gen r = remoteGen s) then candidates (remote_ s) !! idx r else None.

Definition derefLocal (r : CandRef) : M Candidate := fun s =>
  match localCand s r with Some c => Some (c, s) | None => None end.
Definition derefRemote (r : CandRef) : M Candidate := fun s =>
  match remoteCand s r with Some c => Some (c, s) | None => None end.

Definition getPair (i : nat) : M CandidatePair := fun s =>
  match pairs_ s !! i with Some p => Some (p, s) | None => None end.
Definition setPair (i : nat) (f : CandidatePair -> CandidatePair) : M unit :=
  modify (fun s => s <| pairs_ ::= alter f i |>).
Definition getEntry (i : nat) : M StunEntry := fun s =>
  match entries_ s !! i with Some e => Some (e, s) | None => None end.
Definition setEntry (i : nat) (f : StunEntry -> StunEntry) : M unit :=
  modify (fun s => s <| entries_ ::= alter f i |>).

(** [crypto::randomBytes]. *)
Definition randomBytes (env : Env) (n : nat) : M (option bytes) := fun s =>
  Some (csprng env (draws s) n, s <| draws ::= S |>).

(** One step of symbolic execution. *)
Ltac wp_step :=
  lazymatch goal with
  | |- wp (mret _) _ _ => apply wp_ret
  | |- wp skip _ _ => apply wp_ret
  | |- wp (_ ≫= _) _ _ => apply wp_bind
  | |- wp now _ _ => apply wp_gets
  | |- wp (gets _) _ _ => apply wp_gets
  | |- wp (modify _) _ _ => apply wp_modify
  end.

Section Reads.
Context {T : Type} (f : Agent -> T).

Lemma pres_now : preserves f now.
Proof. apply pres_gets. Qed.
Lemma pres_getPair i : preserves f (getPair i).
Proof. intros s a s'. unfold getPair. destruct (pairs_ s !! i); [by intros [= <- <-] | done]. Qed.
Lemma pres_getEntry k : preserves f (getEntry k).
Proof. intros s a s'. unfold getEntry. destruct (entries_ s !! k); [by intros [= <- <-] | done]. Qed.
Lemma pres_derefLocal r : preserves f (derefLocal r).
Proof. intros s a s'. unfold derefLocal. destruct (localCand s r); [by intros [= <- <-] | done]. Qed.
Lemma pres_derefRemote r : preserves f (derefRemote r).
Proof. intros s a s'. unfold derefRemote. destruct (remoteCand s r); [by intros [= <- <-] | done]. Qed.
Lemma pres_emit o : (forall s, f (s <| outs ::= (fun l => l ++ [o]) |>) = f s) -> preserves f (emit o).
Proof. apply pres_modify. Qed.
Lemma pres_setPair i g : (forall s, f (s <| pairs_ ::= alter g i |>) = f s) -> preserves f (setPair i g).
Proof. apply pres_modify. Qed.
Lemma pres_setEntry k g : (forall s, f (s <| entries_ ::= alter g k |>) = f s) -> preserves f (setEntry k g).
Proof. apply pres_modify. Qed.
Lemma pres_randomBytes env n : (forall s, f (s <| draws ::= S |>) = f s) -> preserves f (randomBytes env n).
Proof. intros H s a s' [= <- <-]. apply H. Qed.
End Reads.
#[export] Hint Resolve pres_now pres_getPair pres_getEntry pres_derefLocal pres_derefRemote : pres.
#[export] Hint Extern 2 (preserves _ (emit _)) => apply pres_emit; intros; reflexivity : pres.
#[export] Hint Extern 2 (preserves _ (setPair _ _)) => apply pres_setPair; intros; reflexivity : pres.
#[export] Hint Extern 2 (preserves _ (setEntry _ _)) => apply pres_setEntry; intros; reflexivity : pres.
#[export] Hint Extern 2 (preserves _ (randomBytes _ _)) => apply pres_randomBytes; intros; reflexivity : pres.
#[export] Hint Extern 2 (preserves _ (modify _)) => apply pres_modify; intros; reflexivity : pres.
