(* ===== verification/AgentPairs.v ===== *)
(** * The check list (src/ice/agent.cpp)

    Forming candidate pairs, ordering them, arming their connectivity checks under the
    schedule modes, and the state of the agent that follows from the pairs' states. *)

From Stdlib Require Import Ascii.
From S2P Require Import Prelude.
From S2P Require Import Crypto.
From S2P Require Import Addr.
From S2P Require Import CText.
From S2P Require Import Candidate.
From S2P Require Import CandidatePair.
From S2P Require Import Sdp.
From S2P Require Import PairingStrategy.
From S2P Require Import AgentState.
Open Scope Z_scope.
Open Scope c_scope.

Definition isHostOrSrflx (c : Candidate) : bool :=
  bool_decide (type c = Host) || bool_decide (type c = ServerReflexive).

Definition changeState (newState : stice_state_t) : M unit :=
  cur ← gets state_;
  if bool_decide (cur = newState) then skip
  else
    modify (fun s => s <| state_ := newState |>);;
    when (bool_decide (newState = STATE_CONNECTING))
      (modify (fun s =>
         s <| checkingStartTime_ := clock s |>
           <| pairingCfg_ ::= (fun c =>
                c <| checking_start := clock s |>
                  <| early_phase_active :=
                       (0 <? early_phase_max_concurrent c)%nat && (0 <? early_phase_duration c) |>) |>
           <| relayOnlyMode_ := negb (existsb isHostOrSrflx (candidates (local_ s))) |>));;
    emit (OState newState).

(** ** Kinds of pairs *)

Definition candIsTcpRelay (c : Candidate) : bool :=
  bool_decide (transport c = TCPPassive) && bool_decide (type c = Relayed).

Definition pairIsTcpRelay (i : nat) : M bool :=
  p ← getPair i; c ← derefLocal (local p); mret (candIsTcpRelay c).

Definition pairIsTurnTcpRelay (o : option nat) : M bool :=
  match o with None => mret false | Some i => pairIsTcpRelay i end.

Definition pairIsTcp (o : option nat) : M bool :=
  match o with
  | None => mret false
  | Some i =>
      p ← getPair i; lc ← derefLocal (local p);
      if bool_decide (transport lc = UDP) then mret false
      else rc ← derefRemote (remote p); mret (negb (bool_decide (transport rc = UDP)))
  end.

(** ** Nomination delays *)

Definition acceptanceMinWaitMs (s : Agent) (t : CandidateType) : Z :=
  match t with
  | Host => NominationDelayHostMs
  | ServerReflexive => NominationDelaySrflxMs
  | PeerReflexive => NominationDelayPrflxMs
  | Relayed => if relayOnlyMode_ s then 0 else NominationDelayRelayMs
  | Unknown => NominationTimeoutMs
  end.

Definition isNominatable (i : nat) : M bool :=
  p ← getPair i; lc ← derefLocal (local p); rc ← derefRemote (remote p);
  gets (fun s =>
    let elapsed := clock s - checkingStartTime_ s in
    (acceptanceMinWaitMs s (type lc) <=? elapsed) && (acceptanceMinWaitMs s (type rc) <=? elapsed)).

(** ** The ordered list *)

Definition priorityAt (ps : list CandidatePair) (i : nat) : Z :=
  match ps !! i with Some p => pairPriority p | None => 0 end.

(** [std::stable_sort] with [a->priority > b->priority]. *)
Fixpoint insertPair (ps : list CandidatePair) (i : nat) (l : list nat) : list nat :=
  match l with
  | [] => [i]
  | j :: l => if priorityAt ps j <=? priorityAt ps i then i :: j :: l else j :: insertPair ps i l
  end.

Definition orderPairs (ps : list CandidatePair) : list nat :=
  foldr (insertPair ps) [] (seq 0 (length ps)).

Definition updateOrderedPairs : M unit :=
  modify (fun s => s <| orderedPairs_ := orderPairs (pairs_ s) |>).

(** ** Entries *)

Definition ofPair (i : nat) (e : StunEntry) : bool := bool_decide (e_pair e = Some i).

Definition findEntry (i : nat) : M (option nat) :=
  gets (fun s => fst <$> list_find (fun e => e_pair e = Some i) (entries_ s)).

(** [armTransmission] on an entry that may not be in the list yet. *)
Definition armTransmission (e : StunEntry) (delayMs : Z) : M StunEntry :=
  t ← now; tcp ← pairIsTcp (e_pair e); cfg ← gets pairingCfg_;
  mret (e <| e_nextTransmission := t + delayMs |>
          <| e_retransmissions := 0 |>
          <| e_retransmissionTimeout :=
               if (tcp : bool) then StunTcpTimeoutMs
               else if 0 <? rto_initial cfg then rto_initial cfg else MinStunRetransmissionTimeoutMs |>
          <| e_transactionIdExpired := true |>
          <| e_state := EPending |>).

Definition rearm (i : nat) (delayMs : Z) : M unit :=
  e ← getEntry i; e' ← armTransmission e delayMs; setEntry i (fun _ => e').

(** The consent check period of RFC 7675; the configured periods fit an [int]. *)
Definition consentPeriod (cfgPeriod rnd : Z) : Z :=
  let base := if 0 <? cfgPeriod then cfgPeriod else DefaultConsentCheckPeriodMs in
  let span := Z.max 1 (base `quot` 5) in
  let jitter := rnd mod (2 * span + 1) - span in
  Z.max MinConsentCheckPeriodMs (base + jitter).

Definition armKeepalive (env : Env) (i : nat) : M unit :=
  e ← getEntry i; t ← now; last ← gets lastAppDataAt_;
  setEntry i (fun e => e <| e_state := ESucceededKeepalive |> <| e_transactionIdExpired := true |>);;
  let idle := negb (last =? 0) && (IdleThresholdMs <? t - last) in
  if idle : bool then setEntry i (fun e => e <| e_nextTransmission := t + IdleConsentCheckMs |>)
  else
    isRelay ← pairIsTurnTcpRelay (e_pair e);
    cfg ← gets pairingCfg_;
    rnd ← randomBytes env 4;
    let period := consentPeriod (if (isRelay : bool) then keepalive_tcp_relay cfg else keepalive_udp cfg)
                    (randomU32 rnd) in
    setEntry i (fun e => e <| e_nextTransmission := t + period |>).

Definition inProgress (e : StunEntry) : bool :=
  bool_decide (e_type e = Check) && bool_decide (e_state e = EPending).

Definition countInProgressChecks (s : Agent) : nat := length (filter (fun e => inProgress e = true) (entries_ s)).

(** ** Scheduling *)

(** The loop of [maybeEnterTcpPhase]: whether there is a pair that is not a TCP relay, and
    whether those are all failed; it stops at the first that is not. *)
Fixpoint udpPairs (l : list nat) (anyUdp : bool) : M (bool * bool) :=
  match l with
  | [] => mret (anyUdp, true)
  | i :: l =>
      relay ← pairIsTcpRelay i; p ← getPair i;
      if (relay : bool) then udpPairs l anyUdp
      else if bool_decide (state p = Failed) then udpPairs l true else mret (true, false)
  end.

Definition maybeEnterTcpPhase : M unit :=
  cfg ← gets pairingCfg_;
  if negb (bool_decide (schedule_mode cfg = PHASED_UDP_FIRST)) || tcp_phase_entered cfg then skip
  else
    t ← now;
    let timeoutExpired :=
      (0 <? udp_phase_timeout cfg) && negb (udp_phase_start cfg =? 0) &&
      (udp_phase_timeout cfg <=? t - udp_phase_start cfg) in
    n ← gets (fun s => length (pairs_ s));
    '(anyUdp, allUdpFailed) ← udpPairs (seq 0 n) false;
    if negb anyUdp || timeoutExpired || (allUdpFailed && anyUdp) then
      modify (fun s => s <| pairingCfg_ ::= (fun c => c <| tcp_phase_entered := true |>) |>);;
      when (bool_decide (tcp_relay_fallback cfg = ON_ALL_UDP_FAIL) &&
            negb (tcp_relay_allocation_created cfg))
        (modify (fun s => s <| pairingCfg_ ::= (fun c => c <| tcp_relay_allocation_created := true |>) |>);;
         emit ODeferredAllocations)
    else skip.

(** The window of the early phase closes. *)
Definition refreshEarlyPhase : M unit :=
  modify (fun s =>
    let cfg := pairingCfg_ s in
    if early_phase_active cfg &&
       ((checking_start cfg =? 0) || (early_phase_duration cfg <=? clock s - checking_start cfg))
    then s <| pairingCfg_ ::= (fun c => c <| early_phase_active := false |>) |> else s).

(** The number of checks that may be in progress at once. *)
Definition concurrencyCap (cfg : IcePairingConfig) : nat :=
  let cap := if (0 <? max_concurrent_check cfg)%nat then max_concurrent_check cfg else MaxStunEntries in
  if early_phase_active cfg && (0 <? early_phase_max_concurrent cfg)%nat
  then Nat.max cap (early_phase_max_concurrent cfg) else cap.

Definition armBudget (cfg : IcePairingConfig) (inProg : nat) : nat :=
  match schedule_mode cfg with
  | RFC8445_STRICT => MaxStunEntries
  | SERIAL => 1
  | LIMITED_CONCURRENT | PHASED_UDP_FIRST =>
      if (inProg <? concurrencyCap cfg)%nat then concurrencyCap cfg - inProg else 0
  end.

(** A new check of pair [i], put at the end of the list. *)
Definition addCheck (i : nat) (delayMs : Z) : M unit :=
  p ← getPair i; rc ← derefRemote (remote p); m ← gets mode_;
  ne ← armTransmission (newEntry <| e_type := Check |> <| e_state := EPending |> <| e_pair := Some i |>
                          <| e_record := resolved rc |> <| e_mode := m |>) delayMs;
  modify (fun s => s <| entries_ ::= (fun l => l ++ [ne]) |>).

Fixpoint armLoop (budget armed : nat) (l : list nat) : M unit :=
  match l with
  | [] => skip
  | i :: l =>
      p ← getPair i;
      if negb (bool_decide (state p = Frozen)) then armLoop budget armed l
      else
        cfg ← gets pairingCfg_; relay ← pairIsTcpRelay i;
        if (bool_decide (schedule_mode cfg = PHASED_UDP_FIRST) && relay && negb (tcp_phase_entered cfg)) ||
           (bool_decide (tcp_relay_fallback cfg = DISABLE) && relay)
        then armLoop budget armed l
        else
          es ← gets entries_;
          if negb (existsb (ofPair i) es) && (length es <? MaxStunEntries)%nat then
            addCheck i StunPacingTimeMs;;
            if (budget <=? S armed)%nat then skip
            else if bool_decide (schedule_mode cfg = SERIAL) then skip
            else armLoop budget (S armed) l
          else if bool_decide (schedule_mode cfg = SERIAL) then skip
          else armLoop budget armed l
  end.

Definition armNextFrozenPair : M unit :=
  maybeEnterTcpPhase;;
  refreshEarlyPhase;;
  cfg ← gets pairingCfg_;
  inProg ← gets countInProgressChecks;
  let budget := armBudget cfg inProg in
  if (budget =? 0)%nat then skip
  else l ← gets orderedPairs_; armLoop budget 0 l.

(** ** Forming pairs *)

(** The conditions of [formPairs] on a local and a remote candidate. *)
Definition pairable (l r : Candidate) : bool :=
  (component l =? component r) &&
  (sa_family (addr (resolved l)) =? sa_family (addr (resolved r))) &&
  negb (addrIsLinkLocal (Some (addr (resolved r)))) &&
  match transport l, transport r with
  | UDP, UDP => true
  | UDP, _ | _, UDP => false
  | TCPActive, TCPActive => false
  | TCPPassive, TCPPassive => bool_decide (type l = Relayed) && bool_decide (type r = Relayed)
  | _, _ => true
  end.

Definition hasPair (l r : CandRef) (ps : list CandidatePair) : bool :=
  existsb (fun p => bool_decide (local p = l) && bool_decide (remote p = r)) ps.

Fixpoint formInner (controlling : bool) (l : CandRef) (lc : Candidate) (g j : nat)
    (rs : list Candidate) (ps : list CandidatePair) : list CandidatePair :=
  match rs with
  | [] => ps
  | rc :: rs =>
      if pairable lc rc && negb (hasPair l (mkRef g j) ps) then
        if (MaxCandidatePairs <=? length ps)%nat then ps
        else formInner controlling l lc g (S j) rs
               (ps ++ [updatePriority (newPair l (mkRef g j)) lc rc controlling])
      else formInner controlling l lc g (S j) rs ps
  end.

Fixpoint formOuter (controlling : bool) (g i : nat) (ls rs : list Candidate)
    (ps : list CandidatePair) : list CandidatePair :=
  match ls with
  | [] => ps
  | lc :: ls => formOuter controlling g (S i) ls rs (formInner controlling (mkRef 0 i) lc g 0 rs ps)
  end.

(** [std::string] comparison. *)
Fixpoint textGe (a b : text) : bool :=
  match a, b with
  | _, [] => true
  | [], _ :: _ => false
  | x :: a, y :: b => if code y <? code x then true else if code x <? code y then false else textGe a b
  end.

Definition shouldInitiateTcpConnect (s : Agent) : bool :=
  if bool_decide (iceUfrag (remote_ s) = []) || bool_decide (iceUfrag (local_ s) = [])
  then bool_decide (mode_ s = Controlling)
  else textGe (iceUfrag (local_ s)) (iceUfrag (remote_ s)).

Definition allocatedRelay (e : StunEntry) : option TurnView :=
  match e_turn e with
  | Some tv => if bool_decide (e_type e = Relay) && bool_decide (tv_state tv = Allocated) then Some tv else None
  | None => None
  end.

(** The permission of one relay for the remote candidate of a pair, and the RFC 6062 CONNECT. *)
Definition requestPermission (rc : Candidate) (k : nat) : M unit :=
  e ← getEntry k;
  match allocatedRelay e with
  | None => skip
  | Some tv =>
      emit (OTurnPermission k (resolved rc));;
      initiate ← gets shouldInitiateTcpConnect;
      when (tv_isTcpAllocation tv && initiate && bool_decide (type rc = Relayed) &&
            bool_decide (transport rc = TCPPassive))
        (if tv_hasPermission tv (resolved rc) then
           emit (OTurnConnect k (resolved rc));;
           modify (fun s => s <| tcpConnectSent_ := true |> <| pendingConnectPeer_ := resolved rc |>)
         else modify (fun s => s <| pendingConnectPeer_ := resolved rc |> <| pendingConnectWaitPerm_ := true |>))
  end.

Definition requestPermissions (i : nat) : M unit :=
  p ← getPair i; lc ← derefLocal (local p);
  when (bool_decide (type lc = Relayed))
    (rc ← derefRemote (remote p); n ← gets (fun s => length (entries_ s));
     forM (seq 0 n) (requestPermission rc)).

Definition formPairs : M unit :=
  modify (fun s => s <| pairs_ :=
    formOuter (bool_decide (mode_ s = Controlling)) (remoteGen s) 0 (candidates (local_ s))
      (candidates (remote_ s)) (pairs_ s) |>);;
  updateOrderedPairs;;
  l ← gets orderedPairs_;
  forM l requestPermissions;;
  armNextFrozenPair.

Definition running (st : stice_state_t) : bool :=
  match st with STATE_CONNECTING | STATE_CONNECTED | STATE_COMPLETED => true | _ => false end.

Definition addLocalCandidate (c : Candidate) : M unit :=
  n ← gets (fun s => length (candidates (local_ s)));
  if (MaxCandidates <=? n)%nat then skip
  else
    modify (fun s => s <| local_ := mkDescription (iceUfrag (local_ s)) (icePwd (local_ s))
      (iceLite (local_ s)) (candidates (local_ s) ++ [c]) (finished (local_ s)) |>);;
    st ← gets state_;
    when (bool_decide (st = STATE_DISCONNECTED) || bool_decide (st = STATE_GATHERING))
      (modify (fun s => s <| local_ ::= sortCandidates |>));;
    when (running st) formPairs.

(** ** The state of the agent *)

(** The better of the best so far and pair [i]; the first of equal priority stays. *)
Definition better (best : option (nat * Z)) (i : nat) (prio : Z) : option (nat * Z) :=
  match best with
  | None => Some (i, prio)
  | Some (_, b) => if b <? prio then Some (i, prio) else best
  end.

Fixpoint bestSucceeded (l : list nat) (tcp udp : option (nat * Z)) : M (option (nat * Z) * option (nat * Z)) :=
  match l with
  | [] => mret (tcp, udp)
  | i :: l =>
      p ← getPair i;
      if negb (bool_decide (state p = Succeeded)) then bestSucceeded l tcp udp
      else
        relay ← pairIsTcpRelay i;
        if (relay : bool) then bestSucceeded l (better tcp i (pairPriority p)) udp
        else bestSucceeded l tcp (better udp i (pairPriority p))
  end.

Definition choosePair (sticky : bool) (tcp udp : option (nat * Z)) : option nat :=
  if sticky then match tcp with Some (i, _) => Some i | None => fst <$> udp end
  else match tcp, udp with
       | Some (i, pt), Some (j, pu) => if pu <? pt then Some i else Some j
       | Some (i, _), None => Some i
       | None, _ => fst <$> udp
       end.

Definition allFailed (ps : list CandidatePair) : bool := forallb (fun p => bool_decide (state p = Failed)) ps.

Definition selectBest (i : nat) : M unit :=
  modify (fun s => s <| selectedPair_ := Some i |>);;
  p ← getPair i; st ← gets state_;
  if nominated p then
    modify (fun s => s <| nominatedPair_ := Some i |>);;
    match st with
    | STATE_CONNECTING => changeState STATE_CONNECTED;; changeState STATE_COMPLETED
    | STATE_CONNECTED => changeState STATE_COMPLETED
    | _ => skip
    end
  else when (bool_decide (st = STATE_CONNECTING)) (changeState STATE_CONNECTED).

(** No pair has succeeded and all have failed: RFC 8863's patience while connecting, failure
    otherwise. *)
Definition failPatiently : M unit :=
  st ← gets state_; t ← now; dl ← gets pacDeadline_;
  if bool_decide (st = STATE_CONNECTING) then
    if dl =? 0 then modify (fun s => s <| pacDeadline_ := t + IcePacTimeoutMs |>)
    else if t <? dl then skip
    else modify (fun s => s <| pacDeadline_ := 0 |>);; changeState STATE_FAILED
  else when (running st) (changeState STATE_FAILED).

Definition updateState : M unit :=
  sel ← gets selectedPair_; cfg ← gets pairingCfg_;
  selRelay ← pairIsTurnTcpRelay sel;
  let sticky := bool_decide (reselect_policy cfg = STICKY_SELECTED) && selRelay in
  n ← gets (fun s => length (pairs_ s));
  '(tcp, udp) ← bestSucceeded (seq 0 n) None None;
  match choosePair sticky tcp udp with
  | Some i => selectBest i
  | None =>
      ps ← gets pairs_;
      if negb (allFailed ps) || bool_decide (ps = []) then modify (fun s => s <| pacDeadline_ := 0 |>)
      else failPatiently
  end.

Definition checkGatheringComplete : M unit :=
  s ← gets id;
  if (0 <? pendingRelayAllocations_ s) || (0 <? pendingServerReflexive_ s) || gatheringDone_ s then skip
  else
    modify (fun s => s <| gatheringDone_ := true |>
      <| local_ := mkDescription (iceUfrag (local_ s)) (icePwd (local_ s)) (iceLite (local_ s))
           (candidates (local_ s)) true |>);;
    emit OGatheringDone;;
    when (negb (bool_decide (iceUfrag (remote_ s) = [])) && negb (bool_decide (icePwd (remote_ s) = [])) &&
          bool_decide (state_ s = STATE_GATHERING))
      (formPairs;; changeState STATE_CONNECTING).
