(* ===== verification/AgentStun.v ===== *)
(** * Connectivity checks (src/ice/agent.cpp)

    Sending and answering Binding requests, learning peer-reflexive candidates, role
    conflicts, the outcome of a check, server-reflexive responses, and the demultiplexer of
    inbound packets.  [sendStunBinding] has no caller for any class but a request. *)

From Stdlib Require Import Ascii.
From S2P Require Import Prelude.
From S2P Require Import Bytes.
From S2P Require Import Crypto.
From S2P Require Import Addr.
From S2P Require Import StunMessage.
From S2P Require Import StunAttributes.
From S2P Require Import ChannelData.
From S2P Require Import CText.
From S2P Require Import Candidate.
From S2P Require Import CandidatePair.
From S2P Require Import Sdp.
From S2P Require Import PairingStrategy.
From S2P Require Import AgentState.
From S2P Require Import AgentPairs.
Open Scope Z_scope.
Open Scope c_scope.

Definition STICE_ERR_SUCCESS : Z := 0.
Definition STICE_ERR_INVALID : Z := -1.
Definition STICE_ERR_FAILED : Z := -2.

(** The characters of a string as the bytes of an attribute. *)
Definition textBytes (t : text) : bytes := code <$> t.
Definition software : bytes := bytes_of_string "stice".

(** ** Sending *)

Definition nextSend : M nat := fun s => Some (sends s, s <| sends ::= S |>).

Section Env.
Context (env : Env).

Definition sendUdp (data : bytes) (dst : AddrRecord) (control : bool) : M Z :=
  k ← nextSend;
  let '(r, backedUp) := udpSend env k dst data in
  if 0 <=? r then emit (OUdp dst data);; mret r
  else if control && backedUp then
    modify (fun s => s <| udpCtrlQueue_ ::= (fun q => q ++ [(dst, data)]) |>);;
    mret (Z.of_nat (length data))
  else mret r.

Fixpoint flushLoop (q : list (AddrRecord * bytes)) : M unit :=
  match q with
  | [] => modify (fun s => s <| udpCtrlQueue_ := [] |>)
  | (dst, data) :: q' =>
      k ← nextSend;
      let '(r, backedUp) := udpSend env k dst data in
      if (r <? 0) && backedUp then modify (fun s => s <| udpCtrlQueue_ := q |>)
      else when (0 <=? r) (emit (OUdp dst data));; flushLoop q'
  end.

Definition flushUdpControlQueue : M unit := q ← gets udpCtrlQueue_; flushLoop q.

(** [pair] is null for a response, which uses the selected pair. *)
Definition sendTcp (data : bytes) (pair : option nat) : M Z :=
  sel ← gets selectedPair_;
  let p := match pair with Some i => Some i | None => sel end in
  viaMux ← match tcpMuxSend env, p with
           | Some mux, Some i =>
               p ← getPair i; lc ← derefLocal (local p);
               if bool_decide (transport lc = TCPPassive) then
                 rc ← derefRemote (remote p); mret (Some (mux, resolved rc))
               else mret None
           | _, _ => mret None
           end;
  match viaMux with
  | Some (mux, dst) =>
      k ← nextSend;
      if 0 <? mux k dst data then emit (OTcpMux dst data);; mret (mux k dst data)
      else mret STICE_ERR_FAILED
  | None =>
      tcp ← gets tcpConnected_;
      match tcp with
      | None => mret STICE_ERR_FAILED
      | Some _ =>
          k ← nextSend;
          if tcpAccepts env k data then emit (OTcp data);; mret (Z.of_nat (length data))
          else mret STICE_ERR_FAILED
      end
  end.

Definition sendTurnDataConn (data : bytes) : M Z :=
  bound ← gets turnDataBound_;
  match bound with
  | None => mret STICE_ERR_FAILED
  | Some _ =>
      k ← nextSend;
      let framed := writeU16Be (u16 (Z.of_nat (length data))) ++ data in
      if tcpAccepts env k framed then emit (OTurnData framed);; mret STICE_ERR_SUCCESS
      else mret STICE_ERR_FAILED
  end.

(** The first relay entry with an allocation. *)
Definition firstRelay (es : list StunEntry) : option nat :=
  fst <$> list_find (fun e => is_Some (allocatedRelay e)) es.

(** ** The request of a check *)

Definition roleAttr (s : Agent) (m : Message) : Message :=
  if bool_decide (mode_ s = Controlling) then addIceControlling m (tiebreaker_ s)
  else addIceControlled m (tiebreaker_ s).

Definition nominationAttrs (s : Agent) (p : CandidatePair) (m : Message) : Message :=
  if bool_decide (mode_ s = Controlling) && nominationRequested p && negb (nominated p) then
    let m := addUseCandidate m in
    if 1 <? nominationValue_ s then addNomination m (nominationValue_ s) else m
  else m.

Definition tcpTypeAttr (lc : Candidate) (m : Message) : Message :=
  match transport lc with
  | UDP => m
  | TCPActive => addTcpType m TcpTypeActive
  | TCPPassive => addTcpType m TcpTypePassive
  | TCPSimultaneousOpen => addTcpType m TcpTypeSo
  end.

(** [pl] is the entry's pair with its local candidate. *)
Definition checkMessage (s : Agent) (tid : bytes) (pl : option (CandidatePair * Candidate)) : Message :=
  let m := mkMessage Method.Binding Request tid [] [] in
  let m := addString m AttrType.Username
             (textBytes (iceUfrag (remote_ s) ++ lit ":" ++ iceUfrag (local_ s))) in
  let m := match pl with
           | Some (_, lc) =>
               addPriority m (computePriority (tcpPriorityOffset env) PeerReflexive
                                (sa_family (addr (resolved lc))) 1 0 UDP)
           | None => m
           end in
  let m := roleAttr s m in
  match pl with Some (p, lc) => tcpTypeAttr lc (nominationAttrs s p m) | None => m end.

(** The transaction ID of the next transmission, fresh after the entry was armed; [None] when
    the random source fails. *)
Definition freshTransactionID (i : nat) : M (option bytes) :=
  e ← getEntry i;
  if e_transactionIdExpired e then
    rnd ← randomBytes env 12;
    match rnd with
    | None => mret None
    | Some tid =>
        setEntry i (fun e => e <| e_transactionID := tid |> <| e_transactionIdExpired := false |>);;
        mret (Some tid)
    end
  else mret (Some (e_transactionID e)).

Definition pairCandidates (o : option nat) : M (option (CandidatePair * Candidate)) :=
  match o with
  | None => mret None
  | Some i => p ← getPair i; lc ← derefLocal (local p); mret (Some (p, lc))
  end.

(** Whether a check goes through our own relay: the local candidate is relayed, or the remote
    one is, or the destination is the address of a relayed remote candidate. *)
Definition routeViaRelay (pl : option (CandidatePair * Candidate)) (dst : AddrRecord) : M bool :=
  s ← gets id;
  let haveRelay := bool_decide (is_Some (firstRelay (entries_ s))) in
  let relayedDst :=
    existsb (fun rc => bool_decide (type rc = Relayed) && isEqual (resolved rc) dst true)
      (candidates (remote_ s)) in
  match pl with
  | None => mret (haveRelay && relayedDst)
  | Some (p, lc) =>
      if bool_decide (type lc = Relayed) then mret true
      else rc ← derefRemote (remote p);
           mret (haveRelay && (bool_decide (type rc = Relayed) || relayedDst))
  end.

Definition isOwnRelay (s : Agent) (a : AddrRecord) : bool :=
  existsb (fun lc => bool_decide (type lc = Relayed) && isEqual (resolved lc) a true) (candidates (local_ s)).

Definition sendStunBinding (i : nat) : M unit :=
  tid ← freshTransactionID i;
  match tid with
  | None => skip
  | Some tid =>
      e ← getEntry i;
      pl ← pairCandidates (e_pair e);
      s ← gets id;
      setEntry i (fun e => e <| e_mode := mode_ s |>);;
      m ← lift (encode (checkMessage s tid pl) (Some (textBytes (cstr (icePwd (remote_ s))))) None
                  (Some software));
      turnTcp ← pairIsTurnTcpRelay (e_pair e);
      if (turnTcp : bool) then sendTurnDataConn (raw m);; skip
      else
        tcp ← pairIsTcp (e_pair e);
        if (tcp : bool) then
          let ready := match tcpConnected_ s with Some _ => true | None => false end ||
                       match tcpMuxSend env, pl with
                       | Some _, Some (_, lc) => bool_decide (transport lc = TCPPassive)
                       | _, _ => false
                       end in
          if ready then sendTcp (raw m) (e_pair e);; skip else skip
        else
          viaRelay ← routeViaRelay pl (e_record e);
          match (if (viaRelay : bool) then firstRelay (entries_ s) else None) with
          | Some k =>
              if isOwnRelay s (e_record e) then
                match e_pair e with Some j => setPair j (fun p => p <| state := Failed |>) | None => skip end
              else emit (OTurnSend k (e_record e) (raw m))
          | None => sendUdp (raw m) (e_record e) true;; skip
          end
  end.

Definition sendKeepalive (i : nat) : M unit := sendStunBinding i.

(** ** Responses *)

Definition responseMessage (req : Message) (dst : AddrRecord) (errorCode : Z) : Message :=
  let m := mkMessage Method.Binding (if errorCode =? 0 then SuccessResponse else ErrorResponse)
             (transactionID req) [] [] in
  if errorCode =? 0 then (writeXorAddress m AttrType.XorMappedAddress dst (transactionID req)).2
  else addErrorCode m errorCode [].

(** The last stage of [sendBindingResponse]: through our relay to a relayed candidate,
    directly to any other address. *)
Definition answerUdp (raw : bytes) (dst : AddrRecord) : M unit :=
  s ← gets id;
  let remoteIsRelayed :=
    existsb (fun rc => bool_decide (type rc = Relayed) && isEqual (resolved rc) dst true)
      (candidates (remote_ s)) in
  match (if remoteIsRelayed then firstRelay (entries_ s) else None) with
  | Some k => emit (OTurnSend k dst raw)
  | None => sendUdp raw dst true;; skip
  end.

Definition isPeer (o : option AddrRecord) (dst : AddrRecord) : bool :=
  match o with Some a => isEqual dst a true | None => false end.

Definition sendBindingResponse (req : Message) (dst : AddrRecord) (errorCode : Z) : M unit :=
  s ← gets id;
  m ← lift (encode (responseMessage req dst errorCode)
              (Some (textBytes (cstr (icePwd (local_ s))))) None (Some software));
  if isPeer (turnDataBound_ s) dst then sendTurnDataConn (raw m);; skip
  else
    viaMux ← match tcpMuxSend env with
             | None => mret false
             | Some mux =>
                 k ← nextSend;
                 if 0 <? mux k dst (raw m) then emit (OTcpMux dst (raw m));; mret true else mret false
             end;
    if (viaMux : bool) then skip
    else if isPeer (tcpConnected_ s) dst then sendTcp (raw m) None;; skip
    else answerUdp (raw m) dst.

(** ** Requests *)

Definition verifyBindingRequest (s : Agent) (msg : Message) : option bool :=
  let username := getString msg AttrType.Username in
  match list_find (fun b => b = 58) username with
  | None => Some false
  | Some (pos, _) =>
      let localUfrag := take pos username in
      let remoteUfrag := drop (S pos) username in
      if negb (bool_decide (localUfrag = textBytes (iceUfrag (local_ s)))) then Some false
      else if negb (bool_decide (iceUfrag (remote_ s) = [])) &&
              negb (bool_decide (remoteUfrag = textBytes (iceUfrag (remote_ s)))) then Some false
      else checkIntegrity msg (textBytes (icePwd (local_ s))) false
  end.

Definition isTcpTransport (t : CandidateTransport) : bool := negb (bool_decide (t = UDP)).

(** The remote candidate of a source address, added as peer-reflexive when it is new; [None]
    when there is no room. *)
Definition findOrAddRemote (src : AddrRecord) (prio : Z) (tr : CandidateTransport) : M (option nat) :=
  s ← gets id;
  match list_find (fun c => (isEqual (resolved c) src true &&
                             Bool.eqb (isTcpTransport (transport c)) (isTcpTransport tr)) = true)
          (candidates (remote_ s)) with
  | Some (j, _) => mret (Some j)
  | None =>
      if (MaxCandidates <=? length (candidates (remote_ s)))%nat then mret None
      else
        let '(host, serv) := getnameinfo env (addr src) in
        let c := mkCandidate PeerReflexive tr prio 1 (computeFoundation PeerReflexive host tr) host serv src
                   false emptyAddr in
        modify (fun s => s <| remote_ := mkDescription (iceUfrag (remote_ s)) (icePwd (remote_ s))
          (iceLite (remote_ s)) (candidates (remote_ s) ++ [c]) (finished (remote_ s)) |>);;
        mret (Some (length (candidates (remote_ s))))
  end.

(** The pair with these candidates, appended when there is none; [None] when there is no
    room. *)
Definition findOrAddPair (l r : CandRef) (lc rc : Candidate) : M (option nat) :=
  s ← gets id;
  match list_find (fun p => local p = l /\ remote p = r) (pairs_ s) with
  | Some (i, _) => mret (Some i)
  | None =>
      if (MaxCandidatePairs <=? length (pairs_ s))%nat then mret None
      else
        let p := updatePriority (newPair l r) lc rc (bool_decide (mode_ s = Controlling)) in
        modify (fun s => s <| pairs_ ::= (fun l => l ++ [p]) |>);;
        updateOrderedPairs;;
        mret (Some (length (pairs_ s)))
  end.

Definition findOrCreatePair (src : AddrRecord) (prio : Z) (tr : CandidateTransport) : M (option nat) :=
  if addrIsLinkLocal (Some (addr src)) then mret None
  else
    j ← findOrAddRemote src prio tr;
    match j with
    | None => mret None
    | Some j =>
        g ← gets remoteGen;
        rc ← derefRemote (mkRef g j);
        s ← gets id;
        match list_find (fun lc => sa_family (addr (resolved lc)) = sa_family (addr (resolved rc)) /\
                                   isTcpTransport (transport lc) = isTcpTransport tr)
                (candidates (local_ s)) with
        | None => mret None
        | Some (i, lc) => findOrAddPair (mkRef 0 i) (mkRef g j) lc rc
        end
    end.

(** Role conflicts (RFC 8445 section 7.3.1.1): true when we keep our role and answer 487. *)
Definition resolveRole (msg : Message) : M bool :=
  s ← gets id;
  match find msg AttrType.IceControlling with
  | Some _ =>
      tb ← lift (readIceControlling msg);
      if bool_decide (mode_ s = Controlling) then
        if default 0 tb <=? tiebreaker_ s then mret true
        else modify (fun s => s <| mode_ := Controlled |>);; updateOrderedPairs;; mret false
      else mret false
  | None =>
      match find msg AttrType.IceControlled with
      | Some _ =>
          tb ← lift (readIceControlled msg);
          if bool_decide (mode_ s = Controlled) then
            if default 0 tb <=? tiebreaker_ s then
              modify (fun s => s <| mode_ := Controlling |>);; updateOrderedPairs;; mret false
            else mret true
          else mret false
      | None => mret false
      end
  end.

(** USE-CANDIDATE on pair [i]; [nom] is the NOMINATION attribute. *)
Definition applyNomination (nom : option Z) (p : CandidatePair) : CandidatePair :=
  let nominate p := if bool_decide (state p = Succeeded) then p <| nominated := true |>
                    else p <| nominationRequested := true |> in
  match nom with
  | Some v => if nominationValue p <? v then nominate (p <| nominationValue := v |>) else p
  | None => nominate p
  end.

Definition triggerCheck (i : nat) : M unit :=
  setPair i (fun p => p <| state := Pending |>);;
  e ← findEntry i;
  match e with
  | Some k => rearm k StunPacingTimeMs
  | None =>
      n ← gets (fun s => length (entries_ s));
      when (n <? MaxStunEntries)%nat (addCheck i StunPacingTimeMs)
  end.

Definition handleBindingRequest (msg : Message) (src : AddrRecord) (tr : CandidateTransport) : M unit :=
  s ← gets id;
  if isOwnRelay s src then skip
  else
    ok ← lift (verifyBindingRequest s msg);
    if negb ok then
      sendBindingResponse msg src
        (match find msg AttrType.MessageIntegrity with None => 401 | Some _ => 400 end)
    else
      conflict ← resolveRole msg;
      if (conflict : bool) then sendBindingResponse msg src 487
      else
        prio ← lift (readPriority msg);
        nom ← lift (readNomination msg);
        pair ← findOrCreatePair src (default 0 prio) tr;
        match pair with
        | None => sendBindingResponse msg src 500
        | Some i =>
            when (hasUseCandidate msg) (setPair i (applyNomination nom));;
            sendBindingResponse msg src 0;;
            p ← getPair i;
            remoteUfrag ← gets (fun s => iceUfrag (remote_ s));
            when (negb (bool_decide (state p = Succeeded)) && negb (bool_decide (remoteUfrag = [])))
              (triggerCheck i)
        end.

(** ** Responses to our checks *)

Definition bestPair (ps : list CandidatePair) : option (nat * Z) :=
  foldl (fun best '(i, p) => if bool_decide (state p = Succeeded) then better best i (pairPriority p) else best)
    None (imap pair ps).

(** The controlling agent's choice after a success. *)
Definition controllingSelect (s : Agent) : Agent :=
  match bestPair (pairs_ s) with
  | None => s
  | Some (b, prio) =>
      match selectedPair_ s with
      | None => s <| nominationValue_ ::= (fun v => u32 (v + 1)) |> <| selectedPair_ := Some b |>
      | Some sel =>
          if negb (bool_decide (b = sel)) && (priorityAt (pairs_ s) sel <? prio)
          then s <| nominationValue_ ::= (fun v => u32 (v + 1)) |> <| selectedPair_ := Some b |>
          else s
      end
  end.

Definition checkSucceeded (i k : nat) : M unit :=
  t ← now;
  setPair i (fun p =>
    let p := p <| state := Succeeded |> <| consentExpiry := t + ConsentTimeoutMs |> in
    if nominationRequested p then p <| nominated := true |> else p);;
  m ← gets mode_;
  when (bool_decide (m = Controlling)) (modify controllingSelect);;
  p ← getPair i;
  when (nominated p) (modify (fun s => s <| nominatedPair_ := Some i |>));;
  armKeepalive env k.

Definition checkFailed (e : StunEntry) (k : nat) : M unit :=
  setEntry k (fun e => e <| e_state := EFailed |>);;
  match e_pair e with Some i => setPair i (fun p => p <| state := Failed |>) | None => skip end;;
  when (bool_decide (e_type e = Check)) armNextFrozenPair;;
  updateState.

Definition switchRole (s : Agent) : AgentMode :=
  if bool_decide (mode_ s = Controlling) then Controlled else Controlling.

Definition handleBindingResponse (msg : Message) (src : AddrRecord) (k : nat) : M unit :=
  e ← getEntry k;
  if negb (isEqual (e_record e) src true) then skip
  else if bool_decide (cls msg = ErrorResponse) then
    ec ← lift (readErrorCode msg);
    if default 0 (fst <$> ec) =? 487 then
      s ← gets id;
      when (bool_decide (e_mode e = mode_ s))
        (modify (fun s => s <| mode_ := switchRole s |>);;
         updateOrderedPairs;;
         when (negb (bool_decide (e_state e = EIdle))) (rearm k 0))
    else checkFailed e k
  else
    match e_pair e with
    | None => skip
    | Some i =>
        p ← getPair i;
        if bool_decide (e_type e = Check) && bool_decide (state p = Failed) then skip
        else checkSucceeded i k
    end.

Definition serverEntryDone (k : nat) (st : StunEntryState) : M unit :=
  setEntry k (fun e => e <| e_state := st |>);;
  modify (fun s => s <| pendingServerReflexive_ ::= Z.pred |>);;
  checkGatheringComplete.

Definition handleServerReflexiveResponse (msg : Message) (src : AddrRecord) (k : nat) : M unit :=
  e ← getEntry k;
  if negb (bool_decide (e_state e = EPending)) || negb (isEqual (e_record e) src false) then skip
  else if bool_decide (cls msg = ErrorResponse) then serverEntryDone k EFailed
  else
    xor ← lift (readXorAddress msg AttrType.XorMappedAddress (transactionID msg));
    refl ← match xor with Some a => mret (Some a) | None => lift (readMappedAddress msg) end;
    match refl with
    | None => serverEntryDone k EFailed
    | Some a =>
        let '(host, serv) := getnameinfo env (addr a) in
        let c := mkCandidate ServerReflexive UDP 0 1 (computeFoundation ServerReflexive host UDP) host serv a
                   (bool_decide (is_Some (boundAddr env))) (default emptyAddr (boundAddr env)) in
        let c := mkCandidate ServerReflexive UDP (computePriorityOf (tcpPriorityOffset env) c 0) 1
                   (foundation c) host serv a (hasRelated c) (related c) in
        addLocalCandidate c;;
        emit (OCandidate c);;
        serverEntryDone k ESucceeded
    end.

(** ** Demultiplexing *)

Definition handleStunMessage (msg : Message) (src : AddrRecord) (tr : CandidateTransport) : M unit :=
  if negb (method msg =? Method.Binding) then skip
  else if bool_decide (cls msg = Request) then handleBindingRequest msg src tr
  else if isResponseType (cls msg) then
    s ← gets id;
    match list_find (fun e => e_transactionID e = transactionID msg) (entries_ s) with
    | None => skip
    | Some (k, e) =>
        if bool_decide (e_type e = Server) then handleServerReflexiveResponse msg src k
        else handleBindingResponse msg src k
    end
  else skip.

Definition isTurnServer (src : AddrRecord) (e : StunEntry) : bool :=
  bool_decide (e_type e = Relay) && match e_turn e with Some _ => true | None => false end &&
  isEqual (e_record e) src true.

(** The first succeeded pair whose remote address sent the data becomes the selected one. *)
Fixpoint selectBySource (src : AddrRecord) (l : list nat) : M unit :=
  match l with
  | [] => skip
  | i :: l =>
      p ← getPair i;
      if bool_decide (state p = Succeeded) then
        rc ← derefRemote (remote p);
        if isEqual (resolved rc) src true then modify (fun s => s <| selectedPair_ := Some i |>)
        else selectBySource src l
      else selectBySource src l
  end.

Definition emitRecv (data : bytes) : M unit :=
  modify (fun s => s <| lastAppDataAt_ := clock s |>);; emit (ORecv data).

Definition deliverData (data : bytes) (src : AddrRecord) : M unit :=
  n ← gets (fun s => length (pairs_ s));
  selectBySource src (seq 0 n);;
  emitRecv data.

Definition turnServerEntry (src : AddrRecord) (es : list StunEntry) : option nat :=
  fst <$> list_find (fun e => isTurnServer src e = true) es.

Definition handleInboundUdp (data : bytes) (src : AddrRecord) (tr : CandidateTransport) : M unit :=
  if (length data =? 0)%nat then skip
  else
    isMsg ← lift (isMessage data);
    es ← gets entries_;
    if (isMsg : bool) then
      '(ok, m) ← lift (decode emptyMessage data);
      if negb ok then skip
      else if method m =? Method.Binding then handleStunMessage m src tr
      else match turnServerEntry src es with
           | Some k => emit (OTurnInbound k data)
           | None => skip
           end
    else
      isCD ← lift (isChannelData data);
      match (if (isCD : bool) then turnServerEntry src es else None) with
      | Some k => emit (OTurnInbound k data)
      | None => deliverData data src
      end.

Definition handleInboundTcpPacket (data : bytes) (src : AddrRecord) : M unit :=
  isMsg ← lift (isMessage data);
  if (isMsg : bool) then
    '(ok, m) ← lift (decode emptyMessage data);
    if negb ok then skip
    else if method m =? Method.Binding then handleStunMessage m src TCPActive else skip
  else emitRecv data.

End Env.
