(* ===== verification/AgentLoop.v ===== *)
(** * Timers and entry points of the agent (src/ice/agent.cpp)

    The periodic pass [onBookkeeping], the next deadline [nextTimestampMs], and the calls of
    the application that set the remote description and the credentials.

    The loop of [onBookkeeping] over [entries_] may append to the deque it iterates over
    (when a failed check arms the next pair, or when gathering completes).  That makes the
    iterators of the loop invalid, and going on with them is undefined behaviour: the model
    stops.  [growsWhileIterating] tells when that happens. *)

From Stdlib Require Import Ascii.
From S2P Require Import Prelude.
From S2P Require Import Crypto.
From S2P Require Import Addr.
From S2P Require Import StunMessage.
From S2P Require Import CText.
From S2P Require Import Candidate.
From S2P Require Import CandidatePair.
From S2P Require Import Sdp.
From S2P Require Import PairingStrategy.
From S2P Require Import AgentState.
From S2P Require Import AgentPairs.
From S2P Require Import AgentStun.
Open Scope Z_scope.
Open Scope c_scope.

(** [steady_clock::time_point::max()] in milliseconds. *)
Definition timeMax : Z := 2 ^ 63 / 1000000.

Section Env.
Context (env : Env).

(** ** Gathering deadline *)

Definition driveGather : M unit :=
  modify (fun s =>
    if negb (gatheringDone_ s) && bool_decide (state_ s = STATE_GATHERING) && (gatherStartedAt_ s =? 0)
    then s <| gatherStartedAt_ := clock s |> else s);;
  s ← gets id;
  when (negb (gatheringDone_ s) && negb (gatherStartedAt_ s =? 0) &&
        (GatherTimeoutMs <? clock s - gatherStartedAt_ s))
    (modify (fun s => s <| pendingRelayAllocations_ := 0 |> <| pendingServerReflexive_ := 0 |>);;
     checkGatheringComplete).

(** ** RFC 6062 CONNECT *)

Definition isTcpTurnEntry (e : StunEntry) : bool :=
  bool_decide (e_type e = Relay) && e_tcpTurn e && e_turnTcp e &&
  match e_turn e with Some _ => true | None => false end.

(** [findTcpTurnEntry] with the client's view when the allocation is there. *)
Definition tcpTurnAllocated (s : Agent) : option (nat * TurnView) :=
  match list_find (fun e => isTcpTurnEntry e = true) (entries_ s) with
  | Some (k, e) =>
      match e_turn e with
      | Some tv => if bool_decide (tv_state tv = Allocated) then Some (k, tv) else None
      | None => None
      end
  | None => None
  end.

Definition retryConnect : M unit :=
  s ← gets id;
  when (pendingConnectRetry_ s && (nextConnectRetry_ s <=? clock s))
    (modify (fun s => s <| pendingConnectRetry_ := false |>);;
     match tcpTurnAllocated s with
     | Some (k, _) => emit (OTurnConnect k (pendingConnectPeer_ s))
     | None => skip
     end).

Definition retryDataConnect : M unit :=
  s ← gets id;
  when (pendingTurnDataRetry_ s && (nextTurnDataRetry_ s <=? clock s))
    (modify (fun s => s <| pendingTurnDataRetry_ := false |>);;
     match tcpTurnAllocated s with
     | Some (k, _) =>
         when (negb (hasTurnDataConn_ s))
           (emit (OTurnConnect k (turnDataRetryPeer_ s));;
            modify (fun s => s <| tcpConnectSent_ := true |>))
     | None => skip
     end).

Definition connectAfterPermission : M unit :=
  s ← gets id;
  match tcpTurnAllocated s with
  | Some (k, tv) =>
      when (pendingConnectWaitPerm_ s && negb (tcpConnectSent_ s) && tv_hasPermission tv (pendingConnectPeer_ s))
        (emit (OTurnConnect k (pendingConnectPeer_ s));;
         modify (fun s => s <| tcpConnectSent_ := true |> <| pendingConnectWaitPerm_ := false |>
                            <| pendingConnectRetry_ := false |>))
  | None => skip
  end.

(** The first ordered pair whose remote candidate is a TCP relay. *)
Fixpoint connectLoop (k : nat) (tv : TurnView) (l : list nat) : M unit :=
  match l with
  | [] => skip
  | i :: l =>
      p ← getPair i; rc ← derefRemote (remote p);
      if candIsTcpRelay rc then
        if tv_hasPermission tv (resolved rc) then
          emit (OTurnPermission k (resolved rc));;
          emit (OTurnConnect k (resolved rc));;
          modify (fun s => s <| tcpConnectSent_ := true |> <| pendingConnectPeer_ := resolved rc |>)
        else modify (fun s => s <| pendingConnectPeer_ := resolved rc |> <| pendingConnectWaitPerm_ := true |>)
      else connectLoop k tv l
  end.

Definition deferredConnect : M unit :=
  s ← gets id;
  match tcpTurnAllocated s with
  | Some (k, tv) =>
      when (negb (tcpConnectSent_ s) && shouldInitiateTcpConnect s && tv_isTcpAllocation tv)
        (connectLoop k tv (orderedPairs_ s))
  | None => skip
  end.

Definition driveConnect : M unit :=
  retryConnect;; retryDataConnect;; connectAfterPermission;; deferredConnect.

(** ** Entries *)

Definition maxRetransmissions (cfg : IcePairingConfig) (isTurnTcpRelay isTcp : bool) : Z :=
  if isTurnTcpRelay then 3
  else if isTcp then 1
  else if 0 <? max_check_retransmit cfg then max_check_retransmit cfg
  else MaxStunCheckRetransmissions.

(** A transaction that has used its transmissions up. *)
Definition entryTimedOut (e : StunEntry) (k : nat) : M unit :=
  setEntry k (fun e => e <| e_state := EFailed |>);;
  when (bool_decide (e_type e = Server))
    (modify (fun s => s <| pendingServerReflexive_ ::= Z.pred |>);; checkGatheringComplete);;
  match e_pair e with Some i => setPair i (fun p => p <| state := Failed |>) | None => skip end;;
  when (bool_decide (e_type e = Check)) armNextFrozenPair.

(** A server-reflexive request again, with the same transaction ID. *)
Definition resendServerRequest (e : StunEntry) : M unit :=
  _ ← randomBytes env 12;
  m ← lift (encode (mkMessage Method.Binding Request (e_transactionID e) [] []) None None (Some software));
  sendUdp env (raw m) (e_record e) true;; skip.

Definition backoff (isTcp : bool) (rto : Z) : Z :=
  if isTcp then rto else Z.min (rto * 2) LastStunRetransmissionTimeoutMs.

(** One due transmission; true when the source continues with the next entry. *)
Definition drivePending (e : StunEntry) (k : nat) : M bool :=
  t ← now;
  isTcp ← pairIsTcp (e_pair e);
  isTurnTcpRelay ← pairIsTurnTcpRelay (e_pair e);
  bound ← gets turnDataBound_;
  cfg ← gets pairingCfg_;
  if (isTurnTcpRelay : bool) && match bound with None => true | Some _ => false end then
    setEntry k (fun e => e <| e_nextTransmission := t + StunTcpTimeoutMs |>);; mret true
  else if maxRetransmissions cfg isTurnTcpRelay isTcp <=? e_retransmissions e then
    entryTimedOut e k;; mret true
  else
    (if bool_decide (e_type e = Server) then resendServerRequest e else sendStunBinding env k);;
    setEntry k (fun e => e <| e_retransmissions ::= Z.succ |>
                          <| e_retransmissionTimeout ::= backoff isTcp |>);;
    setEntry k (fun e => e <| e_nextTransmission := t + e_retransmissionTimeout e |>);;
    mret false.

Definition driveKeepalive (e : StunEntry) (k : nat) : M bool :=
  t ← now;
  expired ← match e_pair e with
            | Some i => p ← getPair i; mret (consentExpiry p <=? t)
            | None => mret false
            end;
  if (expired : bool) then
    match e_pair e with Some i => setPair i (fun p => p <| state := Failed |>) | None => skip end;;
    setEntry k (fun e => e <| e_state := EFailed |>);; mret true
  else if e_nextTransmission e <=? t then
    sendKeepalive env k;; armKeepalive env k;; mret false
  else mret false.

(** The TURN client's timer; the control transport of a client that has failed is released. *)
Definition driveTurn (k : nat) : M unit :=
  e ← getEntry k; t ← now;
  match e_turn e with
  | Some tv =>
      when (bool_decide (e_type e = Relay) && negb (bool_decide (e_state e = ECancelled)))
        (let tick := turnTick env k t in
         setEntry k (fun e => e <| e_nextTransmission := if tick =? 0 then timeMax else tick |>
           <| e_turnTcp := e_turnTcp e && negb (bool_decide (tv_state tv = AllocFailed)) |>))
  | None => skip
  end.

Definition driveEntry (k : nat) : M unit :=
  e ← getEntry k; t ← now;
  done_ ← (if bool_decide (e_state e = EPending) && (e_nextTransmission e <=? t) then drivePending e k
           else if bool_decide (e_state e = ESucceededKeepalive) then driveKeepalive e k
           else mret false);
  when (negb done_) (driveTurn k).

(** The range-for over the deque [entries_].  An iteration that appended to it has made the
    iterators invalid, and the loop goes on by incrementing one. *)
Definition driveEntries : M unit :=
  n ← gets (fun s => length (entries_ s));
  forM (seq 0 n) (fun k =>
    driveEntry k;;
    n' ← gets (fun s => length (entries_ s));
    if (n' =? n)%nat then skip else lift None).

(** ** Nomination *)

(** REGULAR_STABLE_CHECK on a TCP relay: the link has been up for the precheck, or carried
    data. *)
Definition stableEnough (s : Agent) (p : CandidatePair) : bool :=
  let succTime := consentExpiry p - ConsentTimeoutMs in
  (tcp_nomination_precheck (pairingCfg_ s) <=? clock s - succTime) ||
  (negb (lastAppDataAt_ s =? 0) && (succTime <=? lastAppDataAt_ s)).

(** Another check is pending or was not started. *)
Definition unsettled (sel : option nat) (es : list StunEntry) : bool :=
  existsb (fun '(k, e) => bool_decide (e_type e = Check) && negb (bool_decide (Some k = sel)) &&
                          (bool_decide (e_state e = EPending) || bool_decide (e_state e = EIdle)))
    (imap pair es).

Definition shouldNominate (i : nat) : M bool :=
  s ← gets id; p ← getPair i;
  ready ← isNominatable i;
  relay ← pairIsTcpRelay i;
  if bool_decide (nomination_mode (pairingCfg_ s) = REGULAR_STABLE_CHECK) && relay
  then mret (ready && stableEnough s p)
  else sel ← findEntry i; mret (ready || negb (unsettled sel (entries_ s))).

Definition driveNomination : M unit :=
  s ← gets id;
  match selectedPair_ s with
  | Some i =>
      p ← getPair i;
      if bool_decide (mode_ s = Controlling) && negb (nominated p) && negb (nominationRequested p) then
        go ← shouldNominate i;
        when go
          (setPair i (fun p => p <| nominationRequested := true |>);;
           k ← findEntry i;
           match k with Some k => rearm k 0 | None => skip end)
      else skip
  | None => skip
  end.

Definition freezeOthers : M unit :=
  modify (fun s =>
    match nominatedPair_ s with
    | None => s
    | Some j =>
        s <| pairs_ ::= imap (fun i p =>
          if negb (bool_decide (i = j)) && bool_decide (state p = Pending)
          then p <| state := Frozen |> else p) |>
    end).

Definition onBookkeeping : M unit :=
  flushUdpControlQueue env;;
  driveGather;;
  driveConnect;;
  driveEntries;;
  driveNomination;;
  freezeOthers;;
  updateState.

(** ** The next deadline *)

Definition earliest (t : option Z) (c : bool) (d : Z) : option Z :=
  if c then Some (match t with Some x => Z.min x d | None => d end) else t.

Definition timed (e : StunEntry) : bool :=
  match e_state e with
  | EPending | ESucceededKeepalive => true
  | EIdle => bool_decide (e_type e = Relay)
  | _ => false
  end.

(** The nomination deadline of the controlling agent. *)
Definition nominationDeadline (s : Agent) : option Z :=
  match selectedPair_ s ≫= (fun i => pairs_ s !! i) with
  | Some p =>
      if bool_decide (mode_ s = Controlling) && negb (nominated p) && negb (nominationRequested p) then
        match localCand s (local p), remoteCand s (remote p) with
        | Some lc, Some rc =>
            Some (checkingStartTime_ s +
                  Z.max (acceptanceMinWaitMs s (type lc)) (acceptanceMinWaitMs s (type rc)))
        | _, _ => None
        end
      else None
  | None => None
  end.

(** Zero when there is none.  The connect deadlines of the TCP transports are not part of the
    model's state. *)
Definition nextTimestampMs (s : Agent) : Z :=
  let t := foldl (fun t e => earliest t (timed e) (e_nextTransmission e)) None (entries_ s) in
  let t := match nominationDeadline s with Some d => earliest t true d | None => t end in
  let t := earliest t (pendingConnectRetry_ s) (nextConnectRetry_ s) in
  let t := earliest t (pendingTurnDataRetry_ s) (nextTurnDataRetry_ s) in
  let t := earliest t (negb (gatheringDone_ s) && negb (gatherStartedAt_ s =? 0))
             (gatherStartedAt_ s + GatherTimeoutMs) in
  let t := earliest t (negb (pacDeadline_ s =? 0)) (pacDeadline_ s) in
  default 0 t.

(** ** Calls of the application *)

Definition addRemotePassiveTcpCandidate (rc : Candidate) : M unit :=
  match tcpDial env rc with
  | None => skip
  | Some c => addLocalCandidate c;; emit (OCandidate c)
  end.

Definition dialPassive (rc : Candidate) : M unit :=
  when (bool_decide (transport rc = TCPPassive)) (addRemotePassiveTcpCandidate rc).

Definition setRemoteDescription (sdp : text) : M Z :=
  let '(ok, d) := parse (numberOutOfRange env) (inetPton4 env) (inetPton6 env) (getaddrinfo env)
                    newDescription sdp in
  if negb ok then mret STICE_ERR_INVALID
  else
    modify (fun s => s <| remote_ := d |> <| remoteGen ::= S |>
      <| mode_ ::= (fun m => if bool_decide (m = ModeUnknown) then Controlled else m) |>);;
    forM (candidates d) dialPassive;;
    s ← gets id;
    when (bool_decide (state_ s = STATE_GATHERING))
      (formPairs;;
       n ← gets (fun s => length (pairs_ s));
       done_ ← gets gatheringDone_;
       when (done_ || (length (pairs_ s) <? n)%nat) (changeState STATE_CONNECTING));;
    mret STICE_ERR_SUCCESS.

Definition addRemoteCandidate (sdp : text) : M Z :=
  r ← gets remote_;
  let '(ok, d) := addCandidateFromSdp (numberOutOfRange env) (inetPton4 env) (inetPton6 env)
                    (getaddrinfo env) r sdp in
  if negb ok then mret STICE_ERR_INVALID
  else
    modify (fun s => s <| remote_ := d |>);;
    match last (candidates d) with
    | Some rc =>
        if bool_decide (transport rc = TCPActive) then
          modify (fun s => s <| remote_ := mkDescription (iceUfrag d) (icePwd d) (iceLite d)
            (take (length (candidates d) - 1) (candidates d)) (finished d) |>);;
          mret STICE_ERR_SUCCESS
        else
          dialPassive rc;;
          st ← gets state_; l ← gets local_;
          (if running st then formPairs
           else when (bool_decide (st = STATE_GATHERING) && negb (length (candidates l) =? 0)%nat)
                  (formPairs;; changeState STATE_CONNECTING));;
          mret STICE_ERR_SUCCESS
    | None => mret STICE_ERR_SUCCESS
    end.

Definition setRemoteGatheringDone : M Z :=
  modify (fun s => s <| remote_ := mkDescription (iceUfrag (remote_ s)) (icePwd (remote_ s))
    (iceLite (remote_ s)) (candidates (remote_ s)) true |> <| remoteGatheringDone_ := true |>);;
  mret STICE_ERR_SUCCESS.

(** The alphabet of RFC 8445 and the lengths of [setLocalIceAttributes]. *)
Definition isIceChar (c : ascii) : bool :=
  isdigit c || ((65 <=? code c) && (code c <=? 90)) || ((97 <=? code c) && (code c <=? 122)) ||
  bool_decide (c = "+"%char) || bool_decide (c = "/"%char).

Definition MaxUfragLen : nat := 256.

Definition isValidIceString (s : text) (minLen : nat) : bool :=
  (minLen <=? length s)%nat && (length s <=? MaxUfragLen)%nat && forallb isIceChar s.

Definition setLocalIceAttributes (ufrag pwd : option text) : M Z :=
  let bad o n := match o with Some s => negb (isValidIceString s n) | None => false end in
  if bad ufrag 4%nat || bad pwd 22%nat then mret STICE_ERR_INVALID
  else
    modify (fun s => s <| local_ := mkDescription (default (iceUfrag (local_ s)) ufrag)
      (default (icePwd (local_ s)) pwd) (iceLite (local_ s)) (candidates (local_ s))
      (finished (local_ s)) |>);;
    mret STICE_ERR_SUCCESS.

Definition setPairingConfig (cfg : IcePairingConfig) : M Z :=
  modify (fun s => s <| pairingCfg_ := cfg <| tcp_phase_entered := false |>
    <| tcp_relay_allocation_created := false |> <| udp_phase_start := 0 |> <| checking_start := 0 |>
    <| early_phase_active := false |> |>);;
  mret STICE_ERR_SUCCESS.

(** Called from the destructor: every entry is cancelled, every allocation given back. *)
Definition cancelAllEntries : M unit :=
  modify (fun s => s <| entries_ ::= fmap (fun e => e <| e_state := ECancelled |>) |>);;
  es ← gets entries_;
  forM (imap pair es) (fun '(k, e) =>
    match allocatedRelay e with Some _ => emit (OTurnDeallocate k) | None => skip end);;
  modify (fun s => s <| tcpConnected_ := None |>).

(** A result below zero stands for the negated error number of the socket call.  A TURN
    client takes the data; the traffic class is not set ([ds] is negative). *)
Definition sendViaSelectedPair (data : bytes) : M Z :=
  s ← gets id;
  match selectedPair_ s with
  | None => mret STICE_ERR_FAILED
  | Some i =>
      p ← getPair i; lc ← derefLocal (local p);
      relayTcp ← pairIsTurnTcpRelay (Some i);
      if (relayTcp : bool) then sendTurnDataConn env data
      else
        tcp ← pairIsTcp (Some i);
        if (tcp : bool) then sendTcp env data (Some i)
        else
          rc ← derefRemote (remote p);
          if bool_decide (type lc = Relayed) ||
             (bool_decide (type rc = Relayed) && bool_decide (is_Some (firstRelay (entries_ s))))
          then match firstRelay (entries_ s) with
               | Some k => emit (OTurnSend k (resolved rc) data);; mret (Z.of_nat (length data))
               | None => mret STICE_ERR_FAILED
               end
          else sendUdp env data (resolved rc) false
  end.

(** [send] without its shortcut, which [AgentSend] adds and shows to come to the same. *)
Definition send (data : bytes) : M Z :=
  modify (fun s => s <| lastAppDataAt_ := clock s |>);; sendViaSelectedPair data.

(** An entry is appended while the loop over [entries_] runs: the loop starts in [s0], its
    iterations before the one of entry [k] lead to [s1], and that one changes the size. *)
Definition growsWhileIterating (s : Agent) : Prop :=
  exists s0 pre k post s1 s2,
    (flushUdpControlQueue env;; driveGather;; driveConnect) s = Some (tt, s0) /\
    seq 0 (length (entries_ s0)) = pre ++ k :: post /\
    forM pre driveEntry s0 = Some (tt, s1) /\ driveEntry k s1 = Some (tt, s2) /\
    length (entries_ s2) <> length (entries_ s0).

End Env.
