(* ===== verification/AgentGather.v ===== *)
(** * Gathering candidates (src/ice/agent.cpp)

    Host candidates of the interfaces with their filters and rewrite rules, the entries that
    ask STUN and TURN servers, and what the agent does when a TURN client reports an
    allocation.  Name resolution runs in a worker thread of the source; its two halves are
    [gatherCandidates], which collects the servers, and [gatherResolved], which creates the
    entries for the addresses found. *)

From Stdlib Require Import Ascii.
From S2P Require Import Prelude.
From S2P Require Import Crypto.
From S2P Require Import Addr.
From S2P Require Import StunMessage.
From S2P Require Import CText.
From S2P Require Import Candidate.
From S2P Require Import CandidatePair.
From S2P Require Import Sdp.
From S2P Require Import AddrRewrite.
From S2P Require Import PairingStrategy.
From S2P Require Import AgentState.
From S2P Require Import AgentPairs.
From S2P Require Import AgentStun.
Open Scope Z_scope.
Open Scope c_scope.

(** The settings gathering reads, and what the interfaces and the resolver say.  [nameOf] is
    [getnameinfo] with numeric host and service.  [mdnsName] is the name that replaces host
    addresses in the query-and-gather mode.  [tcpMuxAddrs] are the addresses of the shared
    TCP listener when ICE-TCP is passive.  A TURN server is its transport. *)
Record GatherConfig := mkGatherConfig {
  disable_udp_gathering : bool; relay_only_local : bool;
  interface_whitelist : option (list text); interface_blacklist : option (list text);
  localAddrs : list AddrRecord; tcpMuxAddrs : list AddrRecord;
  nameOf : sockaddr -> option (text * text); printAddr : AddrRecord -> text;
  rewriteTable : list (CandidateType * list CompiledRule); mdnsName : option text;
  stunServers : list (text * Z); turnServers : list (text * Z * bool) }.

Inductive GatherItem :=
| StunItem (host : text) (port : Z)
| TurnItem (host : text) (port : Z) (tcp : bool) (index : nat).

Section Env.
Context (env : Env) (cfg : GatherConfig).

(** ** Interfaces *)

(** A numeric address without its zone, with its family. *)
Definition parseLiteral (s : text) : option (Z * bytes) :=
  let t := match findChar "%" s with Some pct => take pct s | None => s end in
  if empty t then None
  else match inetPton4 env (str (cstr t)), inetPton6 env (str (cstr t)) with
       | Some a, _ => Some (AF_INET, a)
       | None, Some a => Some (AF_INET6, a)
       | None, None => None
       end.

Definition ipLiteralEqual (a b : text) : bool :=
  match parseLiteral a, parseLiteral b with
  | Some (fa, ba), Some (fb, bb) => (fa =? fb) && bool_decide (ba = bb)
  | _, _ => bool_decide (a = b)
  end.

Definition interfaceAllowed (ip : text) : bool :=
  match interface_whitelist cfg with Some l => existsb (ipLiteralEqual ip) l | None => true end &&
  match interface_blacklist cfg with Some l => negb (existsb (ipLiteralEqual ip) l) | None => true end.

Definition filterInterfaces (addrs : list AddrRecord) : list AddrRecord :=
  match interface_whitelist cfg, interface_blacklist cfg with
  | None, None => addrs
  | _, _ => filter (fun a => match nameOf cfg (addr a) with
                             | Some (ip, _) => interfaceAllowed ip
                             | None => false
                             end = true) addrs
  end.

Definition applyAddressRewrite (c : Candidate) (localIP ifc : text) : list Candidate :=
  if bool_decide (rewriteTable cfg = []) then [c]
  else
    let result := findExternalIPs (numberOutOfRange env) (inetPton4 env) (inetPton6 env)
                    (rewriteTable cfg) (type c) localIP ifc in
    if negb (matched result) then [c]
    else
      (if bool_decide (res_mode result = Replace) then [] else [c]) ++
      map (fun extIP =>
        let port := u16 (atoi (numberOutOfRange env) (service c)) in
        let r := match parseAddr (inetPton4 env) (inetPton6 env) (str (cstr extIP)) port with
                 | Some (sa, l) => mkAddrRecord sa l SOCK_DGRAM
                 | None => resolved c
                 end in
        mkCandidate (type c) (transport c) (priority c) (component c)
          (computeFoundation (type c) extIP (transport c)) extIP (service c) r (hasRelated c) (related c))
        (externalIPs result).

(** A host candidate of an interface address; [index] lowers its priority. *)
Definition hostCandidate (tr : CandidateTransport) (index : Z) (a : AddrRecord) : Candidate :=
  let '(host, serv) := match nameOf cfg (addr a) with Some hs => hs | None => (printAddr cfg a, []) end in
  let c := mkCandidate Host tr 0 1 (computeFoundation Host host tr) host serv a false emptyAddr in
  mkCandidate Host tr (computePriorityOf (tcpPriorityOffset env) c index) 1 (foundation c) host serv a
    false emptyAddr.

Definition publishCandidate (c : Candidate) : M unit := addLocalCandidate c;; emit (OCandidate c).

Definition mdnsHide (c : Candidate) : Candidate :=
  match mdnsName cfg with
  | Some n => mkCandidate (type c) (transport c) (priority c) (component c) (foundation c) n (service c)
                (resolved c) (hasRelated c) (related c)
  | None => c
  end.

Definition gatherHostCandidates : M unit :=
  let addrs := if disable_udp_gathering cfg || relay_only_local cfg then [] else localAddrs cfg in
  forM (imap (fun i a => hostCandidate UDP (Z.of_nat i) a) (filterInterfaces addrs)) (fun c =>
    forM (applyAddressRewrite c (hostname c) []) (fun cc => publishCandidate (mdnsHide cc)));;
  forM (imap (fun i a => hostCandidate TCPPassive (Z.of_nat i) a) (tcpMuxAddrs cfg)) publishCandidate.

(** ** Servers *)

Definition createServerReflexiveEntry (server : AddrRecord) : M unit :=
  n ← gets (fun s => length (entries_ s));
  if (MaxStunEntries <=? n)%nat then skip
  else
    rnd ← randomBytes env 12;
    let tid := default (replicate 12 0) rnd in
    m ← lift (encode (mkMessage Method.Binding Request tid [] []) None None (Some software));
    sent ← sendUdp env (raw m) server true;
    if sent <? 0 then skip
    else
      modify (fun s => s
        <| entries_ ::= (fun l => l ++ [newEntry <| e_type := Server |> <| e_state := EPending |>
             <| e_record := server |> <| e_transactionID := tid |>
             <| e_nextTransmission := clock s + MinStunRetransmissionTimeoutMs |>]) |>
        <| pendingServerReflexive_ ::= Z.succ |>).

(** A relay entry; the client starts its allocation at once over UDP, and when the control
    connection is there otherwise. *)
Definition createRelayEntry (tcp : bool) (server : AddrRecord) : M unit :=
  n ← gets (fun s => length (entries_ s)); t ← now;
  if (MaxStunEntries <=? n)%nat then skip
  else
    modify (fun s => s
      <| entries_ ::= (fun l => l ++ [newEntry <| e_type := Relay |> <| e_state := EIdle |>
           <| e_record := server |>
           <| e_turn := Some (mkTurnView AllocIdle false (fun _ => false)) |>
           <| e_tcpTurn := tcp |> <| e_turnTcp := tcp |>
           <| e_nextTransmission := if tcp then t + 4000 else turnTick env n t |>]) |>
      <| pendingRelayAllocations_ ::= Z.succ |>);;
    when (negb tcp) (emit (OTurnAllocate n)).

(** The servers to ask, and whether some are left for the TCP phase. *)
Definition turnItems (pc : IcePairingConfig) : list GatherItem :=
  if disable_udp_gathering cfg then []
  else omap (fun '(i, (host, port, tcp)) =>
         let item := TurnItem host (if port =? 0 then 3478 else port) tcp i in
         if (tcp : bool) then
           match tcp_relay_fallback pc with
           | ALWAYS_ENABLE => Some item
           | ON_ALL_UDP_FAIL => if pre_allocate_tcp_relay pc then Some item else None
           | DISABLE => None
           end
         else Some item) (imap pair (turnServers cfg)).

Definition stunItems : list GatherItem :=
  if disable_udp_gathering cfg || relay_only_local cfg then []
  else map (fun '(host, port) => StunItem host (if port =? 0 then 3478 else port)) (stunServers cfg).

Definition preAllocates (pc : IcePairingConfig) : bool :=
  negb (disable_udp_gathering cfg) && bool_decide (tcp_relay_fallback pc = ON_ALL_UDP_FAIL) &&
  pre_allocate_tcp_relay pc && existsb (fun '(_, _, tcp) => tcp) (turnServers cfg).

(** The state changes of [gatherCandidates] and the items the worker resolves. *)
Definition gatherCandidates : M (Z * list GatherItem) :=
  st ← gets state_;
  if negb (bool_decide (st = STATE_DISCONNECTED)) && negb (bool_decide (st = STATE_FAILED))
  then mret (STICE_ERR_FAILED, [])
  else
    changeState STATE_GATHERING;;
    modify (fun s => s <| gatherStartedAt_ := clock s |>
      <| mode_ ::= (fun m => if bool_decide (m = ModeUnknown) then Controlling else m) |>);;
    gatherHostCandidates;;
    pc ← gets pairingCfg_;
    let items := stunItems ++ turnItems pc in
    when (preAllocates pc)
      (modify (fun s => s <| pairingCfg_ ::= (fun c => c <| tcp_relay_allocation_created := true |>) |>));;
    when (bool_decide (schedule_mode pc = PHASED_UDP_FIRST))
      (modify (fun s => s <| pairingCfg_ ::= (fun c => c <| udp_phase_start := clock s |>
         <| tcp_phase_entered := false |>
         <| tcp_relay_allocation_created := bool_decide (tcp_relay_fallback c = ALWAYS_ENABLE) |>) |>));;
    s ← gets id;
    when ((length items =? 0)%nat && (pendingRelayAllocations_ s =? 0) && (pendingServerReflexive_ s =? 0))
      checkGatheringComplete;;
    mret (STICE_ERR_SUCCESS, items).

(** The second half of [gatherCandidatesWorker]: [results] gives the first address of each
    item, [None] when it could not be resolved. *)
Definition gatherResolved (results : list (GatherItem * option AddrRecord)) : M unit :=
  forM results (fun '(item, r) =>
    match r with
    | None => skip
    | Some a => match item with
                | StunItem _ _ => createServerReflexiveEntry a
                | TurnItem _ _ tcp _ => createRelayEntry tcp a
                end
    end);;
  s ← gets id;
  when ((pendingRelayAllocations_ s =? 0) && (pendingServerReflexive_ s =? 0)) checkGatheringComplete.

(** ** Callbacks of a TURN client *)

(** [onAllocated]: [rttMs] is the time the allocation took, [tcpAlloc] an RFC 6062 relay, and
    [counted] whether the entry was counted before. *)
Definition relayCandidate (serverIndex rttMs : Z) (tcpAlloc : bool) (relayed : AddrRecord) : Candidate :=
  let penalty := Z.min (rttMs `quot` 50) 200 in
  let '(host, serv) := getnameinfo env (addr relayed) in
  let tr := if tcpAlloc then TCPPassive else UDP in
  let c := mkCandidate Relayed tr 0 1 (computeFoundation Relayed host tr) host serv relayed
             (bool_decide (is_Some (boundAddr env))) (default emptyAddr (boundAddr env)) in
  mkCandidate Relayed tr (computePriorityOf (tcpPriorityOffset env) c (serverIndex + penalty)) 1
    (foundation c) host serv relayed (hasRelated c) (related c).

Definition relayDone (counted : bool) : M unit :=
  when (negb counted)
    (modify (fun s => s <| pendingRelayAllocations_ ::= Z.pred |>);; checkGatheringComplete).

Definition onAllocated (serverIndex rttMs : Z) (tcpAlloc counted : bool) (relayed : AddrRecord) : M unit :=
  publishCandidate (relayCandidate serverIndex rttMs tcpAlloc relayed);; relayDone counted.

Definition onFailed (counted : bool) : M unit := relayDone counted.

Definition MaxConnectRetries : Z := 2.
Definition ConnectRetryDelayMs : Z := 10000.

(** The pairs to the relayed address [peer]. *)
Fixpoint failPairsTo (peer : AddrRecord) (l : list nat) : M unit :=
  match l with
  | [] => skip
  | i :: l =>
      p ← getPair i; rc ← derefRemote (remote p);
      when (bool_decide (type rc = Relayed) && addrRecordEq (resolved rc) peer)
        (setPair i (fun p => p <| state := Failed |>));;
      failPairsTo peer l
  end.

Definition keepsEntry (ps : list CandidatePair) (e : StunEntry) : bool :=
  negb (bool_decide (e_type e = Check) &&
        match e_pair e ≫= (fun i => ps !! i) with
        | Some p => bool_decide (state p = Failed) | None => false end).

Definition onConnectFailed (code : Z) (peer : AddrRecord) : M unit :=
  s ← gets id;
  if (code =? 447) && (connectRetries_ s <? MaxConnectRetries) then
    modify (fun s => s <| connectRetries_ ::= Z.succ |> <| pendingConnectPeer_ := peer |>
      <| pendingConnectRetry_ := true |> <| nextConnectRetry_ := clock s + ConnectRetryDelayMs |>)
  else
    failPairsTo peer (seq 0 (length (pairs_ s)));;
    modify (fun s => s <| entries_ ::= filter (fun e => keepsEntry (pairs_ s) e = true) |>);;
    armNextFrozenPair;;
    updateState.

End Env.
