(* ===== verification/AgentInv.v ===== *)
(** * The invariant of the agent

    [inv] ties the agent's lists together: every pair points to candidates that exist, no two
    pairs have the same candidates, no remote candidate of a pair is link-local, the bounds of
    the source hold, a check belongs to exactly one pair and a pair to at most one check, the
    ordered list is the sorted pair list, and the states reported to the application form a
    path of the state machine.  The lemmas show that the primitive updates keep it. *)

From stdpp Require Import sorting.
From S2P Require Import Prelude.
From S2P Require Import Addr.
From S2P Require Import CText.
From S2P Require Import Candidate.
From S2P Require Import CandidatePair.
From S2P Require Import Sdp.
From S2P Require Import PairingStrategy.
From S2P Require Import AgentState.
From S2P Require Import AgentPairs.
Open Scope Z_scope.
Open Scope c_scope.

(** ** The state machine *)

Inductive legal : stice_state_t -> stice_state_t -> Prop :=
| legal_gather st : st = STATE_DISCONNECTED \/ st = STATE_FAILED -> legal st STATE_GATHERING
| legal_check : legal STATE_GATHERING STATE_CONNECTING
| legal_connect : legal STATE_CONNECTING STATE_CONNECTED
| legal_complete : legal STATE_CONNECTED STATE_COMPLETED
| legal_fail st : running st = true -> legal st STATE_FAILED.

Fixpoint path (a : stice_state_t) (l : list stice_state_t) (b : stice_state_t) : Prop :=
  match l with [] => a = b | x :: l => legal a x /\ path x l b end.

Definition reported (o : Output) : option stice_state_t := match o with OState st => Some st | _ => None end.
Definition states (l : list Output) : list stice_state_t := omap reported l.

Lemma path_snoc a l b c : path a l b -> legal b c -> path a (l ++ [c]) c.
Proof.
  revert a. induction l as [|x l IH]; simpl; intros a H Hc; [by subst|].
  destruct H as [H1 H2]. eauto.
Qed.

Lemma states_app l o : states (l ++ [o]) = states l ++ states [o].
Proof. apply omap_app. Qed.

(** ** The ordered list *)

Lemma insertPair_perm ps i l : insertPair ps i l ≡ₚ i :: l.
Proof.
  induction l as [|j l IH]; simpl; [done|]. case_match; [done|]. rewrite IH. apply Permutation_swap.
Qed.

Lemma orderPairs_perm ps : orderPairs ps ≡ₚ seq 0 (length ps).
Proof.
  unfold orderPairs. induction (seq 0 (length ps)) as [|i l IH]; simpl; [done|].
  by rewrite insertPair_perm, IH.
Qed.

Lemma elem_of_orderPairs ps i : i ∈ orderPairs ps <-> (i < length ps)%nat.
Proof. rewrite (orderPairs_perm ps), elem_of_seq. lia. Qed.

Definition sortedBy (f : nat -> Z) (l : list nat) : Prop := StronglySorted (fun i j => f j <= f i) l.

Lemma insertPair_sorted ps i l : sortedBy (priorityAt ps) l -> sortedBy (priorityAt ps) (insertPair ps i l).
Proof.
  unfold sortedBy. induction 1 as [|j l Hs IH Hf]; simpl; [by repeat constructor|].
  destruct (Z.leb_spec (priorityAt ps j) (priorityAt ps i)) as [Hle|Hlt].
  - repeat constructor; [done|done|done|]. eapply Forall_impl; [done|]. simpl. lia.
  - constructor; [done|]. rewrite (insertPair_perm ps i l). constructor; [lia|done].
Qed.

Lemma orderPairs_sorted ps : sortedBy (priorityAt ps) (orderPairs ps).
Proof.
  unfold orderPairs. induction (seq 0 (length ps)) as [|i l IH]; simpl; [constructor|].
  by apply insertPair_sorted.
Qed.

(** The order depends on the priorities alone. *)
Lemma priorityAt_ext ps ps' i :
  pairPriority <$> ps = pairPriority <$> ps' -> priorityAt ps i = priorityAt ps' i.
Proof.
  intros H. unfold priorityAt.
  assert (E : pairPriority <$> (ps !! i) = pairPriority <$> (ps' !! i)) by (rewrite <- !list_lookup_fmap; by rewrite H).
  destruct (ps !! i), (ps' !! i); simplify_eq/=; done.
Qed.

Lemma orderPairs_ext ps ps' : pairPriority <$> ps = pairPriority <$> ps' -> orderPairs ps = orderPairs ps'.
Proof.
  intros H. unfold orderPairs.
  assert (Hl : length ps = length ps') by (apply (f_equal length) in H; by rewrite !length_fmap in H).
  rewrite Hl. induction (seq 0 (length ps')) as [|i l IH]; simpl; [done|]. rewrite IH.
  generalize (foldr (insertPair ps') [] l). intros m. induction m as [|j m IHm]; simpl; [done|].
  rewrite !(priorityAt_ext ps ps') by done. by rewrite IHm.
Qed.

(** ** The invariant *)

Definition pair_ok (s : Agent) (p : CandidatePair) : Prop :=
  gen (local p) = 0%nat /\ (idx (local p) < length (candidates (local_ s)))%nat /\
  gen (remote p) = remoteGen s /\
  exists c, candidates (remote_ s) !! idx (remote p) = Some c /\
            addrIsLinkLocal (Some (addr (resolved c))) = false.

Record entry_ok (n : nat) (e : StunEntry) : Prop := {
  eok_pair : forall i, e_pair e = Some i -> (i < n)%nat /\ e_type e = Check;
  eok_check : e_type e = Check -> is_Some (e_pair e);
  eok_tid : length (e_transactionID e) = 12%nat }.

Definition in_range (n : nat) (o : option nat) : Prop := forall i, o = Some i -> (i < n)%nat.

(** Everything but the order of the pairs. *)
Record inv0 (s : Agent) : Prop := {
  iv_pairs : Forall (pair_ok s) (pairs_ s);
  iv_nodup : NoDup ((fun p => (local p, remote p)) <$> pairs_ s);
  iv_max : (length (pairs_ s) <= MaxCandidatePairs)%nat;
  iv_entries : Forall (entry_ok (length (pairs_ s))) (entries_ s);
  iv_emax : (length (entries_ s) <= MaxStunEntries)%nat;
  iv_one : NoDup (omap e_pair (entries_ s));
  iv_sel : in_range (length (pairs_ s)) (selectedPair_ s);
  iv_nom : in_range (length (pairs_ s)) (nominatedPair_ s);
  iv_trace : path STATE_DISCONNECTED (states (outs s)) (state_ s);
  iv_ufrag : Z.of_nat (length (iceUfrag (local_ s))) < 2 ^ 32 /\
             Z.of_nat (length (iceUfrag (remote_ s))) < 2 ^ 32 }.

Record inv (s : Agent) : Prop := {
  iv_core : inv0 s;
  iv_order : orderedPairs_ s = orderPairs (pairs_ s) }.

(** What an operation leaves in place for its caller. *)
Record grows (s s' : Agent) : Prop := {
  gr_pairs : (length (pairs_ s) <= length (pairs_ s'))%nat;
  gr_entries : (length (entries_ s) <= length (entries_ s'))%nat }.

#[export] Instance grows_refl : Reflexive grows.
Proof. intros s. constructor; lia. Qed.
#[export] Instance grows_trans : Transitive grows.
Proof. intros a b c [H1 H2] [H3 H4]. constructor; lia. Qed.

Definition keeps (s s' : Agent) : Prop := inv s' /\ grows s s'.

Lemma keeps_refl s : inv s -> keeps s s.
Proof. intros H. split; [done|reflexivity]. Qed.

Lemma keeps_trans a b c : keeps a b -> keeps b c -> keeps a c.
Proof. intros [_ H1] [H2 H3]. split; [done|]. by etransitivity. Qed.

(** The operation [m] returns from a good state, in a good state. *)
Definition good {A} (m : M A) : Prop := forall s, inv s -> wp m (fun _ => keeps s) s.

(** Sequencing with a fact about the result of the first operation. *)
Lemma wp_seq {A B} (m : M A) (f : A -> M B) s (R : A -> Agent -> Prop) :
  wp m (fun a s' => keeps s s' /\ R a s') s ->
  (forall a s', keeps s s' -> R a s' -> wp (f a) (fun _ => keeps s') s') ->
  wp (m ≫= f) (fun _ => keeps s) s.
Proof.
  intros Hm Hf. apply wp_bind. eapply wp_mono; [done|]. intros a s' [Hk Hr].
  eapply wp_mono; [by apply Hf|]. intros b s2 Hk2. by eapply keeps_trans.
Qed.

Lemma wp_then {A B} (m : M A) (f : A -> M B) s :
  wp m (fun _ => keeps s) s ->
  (forall a s', keeps s s' -> wp (f a) (fun _ => keeps s') s') ->
  wp (m ≫= f) (fun _ => keeps s) s.
Proof.
  intros Hm Hf. apply (wp_seq m f s (fun _ _ => True)); [|by eauto].
  eapply wp_mono; [done|]. by intros.
Qed.

Lemma good_skip : good skip.
Proof. intros s H. apply wp_ret. by apply keeps_refl. Qed.

Lemma good_seq {A B} (m : M A) (f : A -> M B) : good m -> (forall a, good (f a)) -> good (m ≫= f).
Proof. intros Hm Hf s H. apply wp_then; [by apply Hm|]. intros a s' [Hi _]. by apply Hf. Qed.

Lemma good_when b m : (b = true -> good m) -> good (when b m).
Proof. intros H s Hs. apply wp_when; intros E; [by apply H | by apply keeps_refl]. Qed.

Lemma good_forM {A} (l : list A) f : (forall x, x ∈ l -> good (f x)) -> good (forM l f).
Proof.
  intros Hf s Hs. eapply wp_mono; [apply (wp_forM l f (keeps s)) | done].
  - intros x s1 Hx Hk. eapply wp_mono; [apply Hf; [done | apply Hk]|].
    intros a s2 Hk2. by eapply keeps_trans.
  - by apply keeps_refl.
Qed.

(** ** Updates *)

(** A change of fields the invariant does not look at. *)
Lemma inv_frame s s' :
  inv s -> local_ s' = local_ s -> remote_ s' = remote_ s -> remoteGen s' = remoteGen s ->
  pairs_ s' = pairs_ s -> entries_ s' = entries_ s -> orderedPairs_ s' = orderedPairs_ s ->
  selectedPair_ s' = selectedPair_ s -> nominatedPair_ s' = nominatedPair_ s ->
  state_ s' = state_ s -> states (outs s') = states (outs s) -> inv s'.
Proof.
  intros [[H1 H2 H3 H4 H5 H6 H7 H8 H9 H10] Ho] El Er Eg Ep Ee Eo Es En Est Et.
  constructor; [constructor|]; rewrite ?Ep, ?Ee, ?Es, ?En, ?Et, ?Est, ?El, ?Er, ?Eo; try done.
  eapply Forall_impl; [done|]. intros p. unfold pair_ok. by rewrite El, Er, Eg.
Qed.

Lemma keeps_frame s s' :
  inv s -> local_ s' = local_ s -> remote_ s' = remote_ s -> remoteGen s' = remoteGen s ->
  pairs_ s' = pairs_ s -> entries_ s' = entries_ s -> orderedPairs_ s' = orderedPairs_ s ->
  selectedPair_ s' = selectedPair_ s -> nominatedPair_ s' = nominatedPair_ s ->
  state_ s' = state_ s -> states (outs s') = states (outs s) -> keeps s s'.
Proof.
  intros Hi El Er Eg Ep Ee. intros. split; [by eapply (inv_frame s)|].
  constructor; [rewrite Ep | rewrite Ee]; lia.
Qed.

(** [frame] closes the goal when no field of the invariant is touched. *)
Ltac frame :=
  first [apply keeps_frame | eapply inv_frame]; try done; try reflexivity;
  upd; rewrite ?states_app; simpl; rewrite ?app_nil_r; done.

Definition quiet (o : Output) : Prop := reported o = None.

Lemma good_emit o : quiet o -> good (emit o).
Proof.
  intros Hq s Hs. apply wp_modify. apply keeps_frame; try done.
  upd. rewrite states_app. unfold quiet in Hq. unfold states at 2. simpl. by rewrite Hq, app_nil_r.
Qed.

Lemma wp_gets_keeps {A} (f : Agent -> A) s : inv s -> wp (gets f) (fun a s' => keeps s s' /\ (s' = s /\ a = f s)) s.
Proof. intros H. apply wp_gets. split; [by apply keeps_refl | done]. Qed.

(** Reading a pair and the candidates it points to. *)
Lemma wp_getPair i s (Q : CandidatePair -> Agent -> Prop) :
  inv s -> (i < length (pairs_ s))%nat -> (forall p, pairs_ s !! i = Some p -> pair_ok s p -> Q p s) ->
  wp (getPair i) Q s.
Proof.
  intros [[Hp _ _ _ _ _ _ _ _ _] _] Hi HQ. destruct (lookup_lt_is_Some_2 _ _ Hi) as [p E].
  exists p, s. unfold getPair. rewrite E. split; [done|]. apply HQ; [done|]. by eapply Forall_lookup_1.
Qed.

Lemma wp_getEntry k s (Q : StunEntry -> Agent -> Prop) :
  inv s -> (k < length (entries_ s))%nat ->
  (forall e, entries_ s !! k = Some e -> entry_ok (length (pairs_ s)) e -> Q e s) -> wp (getEntry k) Q s.
Proof.
  intros [[_ _ _ He _ _ _ _ _ _] _] Hk HQ. destruct (lookup_lt_is_Some_2 _ _ Hk) as [e E].
  exists e, s. unfold getEntry. rewrite E. split; [done|]. apply HQ; [done|]. by eapply Forall_lookup_1.
Qed.

Lemma wp_derefLocal p s (Q : Candidate -> Agent -> Prop) :
  pair_ok s p -> (forall c, localCand s (local p) = Some c -> Q c s) -> wp (derefLocal (local p)) Q s.
Proof.
  intros (Hg & Hi & _) HQ. destruct (lookup_lt_is_Some_2 _ _ Hi) as [c E].
  assert (E' : localCand s (local p) = Some c) by (unfold localCand; by rewrite decide_True).
  exists c, s. unfold derefLocal. rewrite E'. auto.
Qed.

Lemma wp_derefRemote p s (Q : Candidate -> Agent -> Prop) :
  pair_ok s p -> (forall c, remoteCand s (remote p) = Some c -> Q c s) -> wp (derefRemote (remote p)) Q s.
Proof.
  intros (_ & _ & Hg & c & E & _) HQ.
  assert (E' : remoteCand s (remote p) = Some c) by (unfold remoteCand; by rewrite decide_True).
  exists c, s. unfold derefRemote. rewrite E'. auto.
Qed.

(** Predicates on pairs only read. *)
Lemma wp_pairIsTcpRelay i s :
  inv s -> (i < length (pairs_ s))%nat -> wp (pairIsTcpRelay i) (fun _ s' => s' = s) s.
Proof.
  intros Hs Hi. unfold pairIsTcpRelay. apply wp_bind, wp_getPair; [done..|]. intros p _ Hp.
  apply wp_bind, wp_derefLocal; [done|]. intros c _. by apply wp_ret.
Qed.

Lemma wp_pairIsTurnTcpRelay o s :
  inv s -> in_range (length (pairs_ s)) o -> wp (pairIsTurnTcpRelay o) (fun _ s' => s' = s) s.
Proof. intros Hs Hi. destruct o as [i|]; [by apply wp_pairIsTcpRelay, Hi | by apply wp_ret]. Qed.

Lemma wp_pairIsTcp o s :
  inv s -> in_range (length (pairs_ s)) o -> wp (pairIsTcp o) (fun _ s' => s' = s) s.
Proof.
  intros Hs Hi. destruct o as [i|]; [|by apply wp_ret]. unfold pairIsTcp.
  apply wp_bind, wp_getPair; [done | by apply Hi |]. intros p _ Hp.
  apply wp_bind, wp_derefLocal; [done|]. intros c _. case_bool_decide; [by apply wp_ret|].
  apply wp_bind, wp_derefRemote; [done|]. intros c' _. by apply wp_ret.
Qed.

Lemma wp_isNominatable i s :
  inv s -> (i < length (pairs_ s))%nat -> wp (isNominatable i) (fun _ s' => s' = s) s.
Proof.
  intros Hs Hi. unfold isNominatable. apply wp_bind, wp_getPair; [done..|]. intros p _ Hp.
  apply wp_bind, wp_derefLocal; [done|]. intros c _.
  apply wp_bind, wp_derefRemote; [done|]. intros c' _. by apply wp_gets.
Qed.

(** Changing a pair without its candidates and priority. *)
Definition same_pair (f : CandidatePair -> CandidatePair) : Prop :=
  forall p, local (f p) = local p /\ remote (f p) = remote p /\ pairPriority (f p) = pairPriority p.

Lemma fmap_alter_same {A B} (g : A -> B) f (l : list A) i :
  (forall x, g (f x) = g x) -> g <$> alter f i l = g <$> l.
Proof.
  intros H. revert i. induction l as [|x l IH]; intros [|i]; simpl; try done; f_equal; try done.
  apply IH.
Qed.

Lemma inv_pairs_map s ps :
  inv s -> length ps = length (pairs_ s) ->
  ((fun p => (local p, remote p, pairPriority p)) <$> ps) =
  ((fun p => (local p, remote p, pairPriority p)) <$> pairs_ s) ->
  inv (s <| pairs_ := ps |>).
Proof.
  intros [[H1 H2 H3 H4 H5 H6 H7 H8 H9 H10] Ho] El E.
  assert (E1 : (fun p => (local p, remote p)) <$> ps = (fun p => (local p, remote p)) <$> pairs_ s).
  { apply (f_equal (fmap fst)) in E. by rewrite <- !list_fmap_compose in E. }
  assert (E2 : pairPriority <$> ps = pairPriority <$> pairs_ s).
  { apply (f_equal (fmap snd)) in E. by rewrite <- !list_fmap_compose in E. }
  constructor; [constructor|]; upd; rewrite ?E1, ?El; try done.
  - apply Forall_lookup. intros i p Hp.
    assert (Hq : exists q, pairs_ s !! i = Some q /\ local q = local p /\ remote q = remote p).
    { pose proof (f_equal (.!! i) E1) as Ei. simpl in Ei. rewrite !list_lookup_fmap, Hp in Ei.
      destruct (pairs_ s !! i) as [q|]; [|done]. exists q. simpl in Ei. by simplify_eq. }
    destruct Hq as (q & Hq & El' & Er'). pose proof (Forall_lookup_1 _ _ _ _ H1 Hq) as Hok.
    unfold pair_ok in *. by rewrite <- El', <- Er'.
  - by rewrite (orderPairs_ext ps (pairs_ s)).
Qed.

Lemma inv_setPair s i f : inv s -> same_pair f -> inv (s <| pairs_ ::= alter f i |>).
Proof.
  intros Hs Hf. apply inv_pairs_map; [done | apply length_alter |].
  apply fmap_alter_same. intros p. destruct (Hf p) as (-> & -> & ->). done.
Qed.

Lemma keeps_setPair s i f : inv s -> same_pair f -> keeps s (s <| pairs_ ::= alter f i |>).
Proof.
  intros Hs Hf. split; [by apply inv_setPair|]. constructor; upd; rewrite ?length_alter; lia.
Qed.

Lemma good_setPair i f : same_pair f -> good (setPair i f).
Proof. intros Hf s Hs. by apply wp_modify, keeps_setPair. Qed.

(** Changing an entry without its pair and type. *)
Definition same_entry (e e' : StunEntry) : Prop :=
  e_pair e' = e_pair e /\ e_type e' = e_type e /\
  (length (e_transactionID e) = 12%nat -> length (e_transactionID e') = 12%nat).

Lemma inv_setEntry s k f :
  inv s -> (forall e, entries_ s !! k = Some e -> same_entry e (f e)) -> inv (s <| entries_ ::= alter f k |>).
Proof.
  intros [[H1 H2 H3 H4 H5 H6 H7 H8 H9 H10] Ho] Hf.
  assert (Eo : omap e_pair (alter f k (entries_ s)) = omap e_pair (entries_ s)).
  { clear -Hf. revert k Hf. induction (entries_ s) as [|e es IH]; intros [|k] Hf; try done.
    - simpl. destruct (Hf e eq_refl) as (-> & _). done.
    - pose proof (IH k Hf) as E. simpl. by destruct (e_pair e); [f_equal|]. }
  constructor; [constructor|]; upd; rewrite ?length_alter, ?Eo; try done.
  apply Forall_alter; [done|]. intros e He [P1 P2 P3]. destruct (Hf e He) as (E1 & E2 & E3).
  constructor; rewrite ?E1, ?E2; auto.
Qed.

Lemma keeps_setEntry s k f :
  inv s -> (forall e, entries_ s !! k = Some e -> same_entry e (f e)) ->
  keeps s (s <| entries_ ::= alter f k |>).
Proof.
  intros Hs Hf. split; [by apply inv_setEntry|]. constructor; upd; rewrite ?length_alter; lia.
Qed.

Lemma wp_setEntry s k f :
  inv s -> (forall e, entries_ s !! k = Some e -> same_entry e (f e)) -> wp (setEntry k f) (fun _ => keeps s) s.
Proof. intros Hs Hf. by apply wp_modify, keeps_setEntry. Qed.

Lemma good_setEntry k f : (forall e, same_entry e (f e)) -> good (setEntry k f).
Proof. intros Hf s Hs. apply wp_setEntry; auto. Qed.

(** A new check for a pair that has none. *)
Lemma inv_addEntry s e :
  inv s -> (length (entries_ s) < MaxStunEntries)%nat -> entry_ok (length (pairs_ s)) e ->
  (forall i, e_pair e = Some i -> existsb (ofPair i) (entries_ s) = false) ->
  inv (s <| entries_ ::= (fun l => l ++ [e]) |>).
Proof.
  intros [[H1 H2 H3 H4 H5 H6 H7 H8 H9 H10] Ho] Hl He Hn.
  constructor; [constructor|]; upd; try done.
  - apply Forall_app. by rewrite Forall_singleton.
  - rewrite length_app. simpl. lia.
  - rewrite omap_app. simpl. destruct (e_pair e) as [i|] eqn:Ei; simpl; [|by rewrite app_nil_r].
    apply NoDup_app. split; [done|]. split; [|apply NoDup_singleton].
    intros j Hj Hji. apply list_elem_of_singleton in Hji as ->. specialize (Hn i eq_refl).
    apply not_true_iff_false in Hn. apply Hn, existsb_exists.
    apply list_elem_of_omap in Hj as (e' & He' & Ej). exists e'. split; [by apply list_elem_of_In|].
    unfold ofPair. by rewrite bool_decide_true.
Qed.
