(* ===== verification/AgentSafe.v ===== *)
(** * Safety of the check list

    Every operation of [AgentPairs], run from a state that satisfies the invariant, returns
    and keeps it: it never follows a dangling pointer and never leaves a list. *)

From S2P Require Import Prelude.
From S2P Require Import Crypto.
From S2P Require Import Addr.
From S2P Require Import CText.
From S2P Require Import Candidate.
From S2P Require Import CandidatePair.
From S2P Require Import Sdp.
From S2P Require Import PairingStrategy.
From S2P Require Import AgentState.
From S2P Require Import AgentPairs.
From S2P Require Import AgentInv.
Open Scope Z_scope.
Open Scope c_scope.

(** A read-only operation in front of the rest. *)
Lemma wp_read {A B} (m : M A) (f : A -> M B) s (Q : B -> Agent -> Prop) :
  wp m (fun _ s' => s' = s) s -> (forall a, wp (f a) Q s) -> wp (m ≫= f) Q s.
Proof. intros Hm Hf. apply wp_bind. eapply wp_mono; [done|]. intros a s' ->. apply Hf. Qed.

Lemma good_modify f :
  (forall s, inv s -> keeps s (f s)) -> good (modify f).
Proof. intros H s Hs. apply wp_modify. auto. Qed.

Lemma keeps_inv s s' : keeps s s' -> inv s'.
Proof. by intros [H _]. Qed.
#[export] Hint Resolve keeps_inv keeps_refl good_skip : stice.

Lemma inv_nom s : inv s -> in_range (length (pairs_ s)) (nominatedPair_ s).
Proof. intros H. apply H. Qed.
Lemma inv_sel s : inv s -> in_range (length (pairs_ s)) (selectedPair_ s).
Proof. intros H. apply H. Qed.

Lemma ordered_range s : inv s -> Forall (fun i => (i < length (pairs_ s))%nat) (orderedPairs_ s).
Proof. intros [_ ->]. apply Forall_forall. intros i. apply elem_of_orderPairs. Qed.

Lemma seq_range n m : (m <= n)%nat -> Forall (fun i => (i < n)%nat) (seq 0 m).
Proof. intros H. apply Forall_forall. intros i. rewrite elem_of_seq. lia. Qed.

(** ** States *)

Lemma wp_changeState s st :
  inv s -> state_ s = st \/ legal (state_ s) st ->
  wp (changeState st) (fun _ s' => keeps s s' /\ state_ s' = st) s.
Proof.
  intros Hs Hst. unfold changeState. do 2 wp_step. case_bool_decide as E.
  { wp_step. split; [by apply keeps_refl | done]. }
  destruct Hst as [?|Hl]; [done|].
  assert (Hfin : forall s2, local_ s2 = local_ s -> remote_ s2 = remote_ s -> remoteGen s2 = remoteGen s ->
            pairs_ s2 = pairs_ s -> entries_ s2 = entries_ s -> orderedPairs_ s2 = orderedPairs_ s ->
            selectedPair_ s2 = selectedPair_ s -> nominatedPair_ s2 = nominatedPair_ s ->
            state_ s2 = st -> outs s2 = outs s ->
            wp (emit (OState st)) (fun _ s' => keeps s s' /\ state_ s' = st) s2).
  { intros s2 El Er Eg Ep Ee Eo Es En Est Et. apply wp_modify. split; [|done].
    destruct Hs as [[H1 H2 H3 H4 H5 H6 H7 H8 H9 H10] Ho]. split.
    - constructor; [constructor|]; upd; rewrite ?Ep, ?Ee, ?Es, ?En, ?Est, ?Et, ?El, ?Er, ?Eo; try done.
      + eapply Forall_impl; [done|]. intros p. unfold pair_ok. upd. by rewrite El, Er, Eg.
      + rewrite states_app. by eapply path_snoc.
    - constructor; upd; [rewrite Ep | rewrite Ee]; lia. }
  do 2 wp_step. wp_step. apply wp_when; intros _; [apply wp_modify|]; by apply Hfin.
Qed.

Lemma good_updateOrderedPairs : good updateOrderedPairs.
Proof.
  apply good_modify. intros s [[H1 H2 H3 H4 H5 H6 H7 H8 H9 H10] Ho].
  split; [|by constructor]. by constructor; [constructor|].
Qed.

(** ** Entries *)

Lemma wp_findEntry i s (Q : option nat -> Agent -> Prop) :
  (forall k e, entries_ s !! k = Some e -> e_pair e = Some i -> Q (Some k) s) ->
  (existsb (ofPair i) (entries_ s) = false -> Q None s) -> wp (findEntry i) Q s.
Proof.
  intros H1 H2. apply wp_gets.
  destruct (list_find (fun e => e_pair e = Some i) (entries_ s)) as [[k e]|] eqn:E; simpl.
  - apply list_find_Some in E as (E & Ep & _). by eapply H1.
  - apply H2. apply list_find_None in E. apply not_true_iff_false. intros Hx.
    apply existsb_exists in Hx as (e & He & Hp). apply list_elem_of_In in He.
    rewrite Forall_forall in E. apply (E e He). unfold ofPair in Hp. by apply bool_decide_eq_true in Hp.
Qed.

Lemma wp_armTransmission e d s (Q : StunEntry -> Agent -> Prop) :
  inv s -> in_range (length (pairs_ s)) (e_pair e) ->
  (forall e', same_entry e e' -> e_mode e' = e_mode e -> e_record e' = e_record e ->
              e_state e' = EPending -> e_transactionIdExpired e' = true -> Q e' s) ->
  wp (armTransmission e d) Q s.
Proof.
  intros Hs Hr HQ. unfold armTransmission. do 2 wp_step. apply wp_read; [by apply wp_pairIsTcp|].
  intros tcp. do 3 wp_step. apply HQ; upd; done.
Qed.

Lemma wp_rearm k d s :
  inv s -> (k < length (entries_ s))%nat -> wp (rearm k d) (fun _ => keeps s) s.
Proof.
  intros Hs Hk. unfold rearm. apply wp_bind, wp_getEntry; [done..|]. intros e He [Hp _ _].
  apply wp_bind, wp_armTransmission; [done | by intros i Hi; apply Hp |]. intros e' Hsame _ _ _ _.
  apply wp_setEntry; [done|]. intros e2 He2. by simplify_eq.
Qed.

Lemma good_randomBytes env n : good (randomBytes env n).
Proof. intros s Hs. eexists _, _. split; [done|]. frame. Qed.

Lemma wp_armKeepalive env k s :
  inv s -> (k < length (entries_ s))%nat -> wp (armKeepalive env k) (fun _ => keeps s) s.
Proof.
  intros Hs Hk. unfold armKeepalive. apply wp_bind, wp_getEntry; [done..|]. intros e He [Hp _ _].
  do 4 wp_step. apply wp_then; [by apply good_setEntry|]. intros _ s1 [Hs1 [Hg _]].
  case_match; [by apply good_setEntry|].
  apply wp_read; [apply wp_pairIsTurnTcpRelay; [done|]; intros i Hi; destruct (Hp i Hi); lia|].
  intros relay. do 2 wp_step. apply wp_then; [by apply good_randomBytes|].
  intros rnd s2 [Hs2 _]. by apply good_setEntry.
Qed.

Lemma wp_addCheck i d s :
  inv s -> (i < length (pairs_ s))%nat -> (length (entries_ s) < MaxStunEntries)%nat ->
  existsb (ofPair i) (entries_ s) = false -> wp (addCheck i d) (fun _ => keeps s) s.
Proof.
  intros Hs Hi Hl Hn. unfold addCheck. apply wp_bind, wp_getPair; [done..|]. intros p _ Hp.
  apply wp_bind, wp_derefRemote; [done|]. intros rc _. do 2 wp_step.
  apply wp_bind, wp_armTransmission; [done | by upd; intros j [= <-] |].
  intros e (Ep & Et & Etid) _ _ _ _. upd. apply wp_modify. split.
  - apply inv_addEntry; [done..| |].
    + constructor; rewrite ?Ep, ?Et; [by intros j [= <-] | done | by apply Etid].
    + rewrite Ep. by intros j [= <-].
  - constructor; upd; rewrite ?length_app; lia.
Qed.

(** ** Scheduling *)

Lemma wp_udpPairs l any s :
  inv s -> Forall (fun i => (i < length (pairs_ s))%nat) l -> wp (udpPairs l any) (fun _ s' => s' = s) s.
Proof.
  intros Hs Hl. revert any. induction Hl as [|i l Hi Hl IH]; intros any; cbn [udpPairs]; [by wp_step|].
  apply wp_read; [by apply wp_pairIsTcpRelay|]. intros relay.
  apply wp_bind, wp_getPair; [done..|]. intros p _ _.
  destruct relay; [apply IH|]. case_bool_decide; [apply IH | by wp_step].
Qed.

Lemma good_maybeEnterTcpPhase : good maybeEnterTcpPhase.
Proof.
  intros s Hs. unfold maybeEnterTcpPhase. do 2 wp_step. case_match; [by apply good_skip|].
  do 4 wp_step. apply wp_read; [apply wp_udpPairs; [done | by apply seq_range]|]. intros [any all].
  case_match; [|by apply good_skip]. apply wp_then; [apply wp_modify; frame|].
  intros _ s1 [Hs1 _]. apply good_when; [|done]. intros _.
  apply good_seq; [apply good_modify; intros; frame|]. intros _. by apply good_emit.
Qed.

Lemma good_refreshEarlyPhase : good refreshEarlyPhase.
Proof. apply good_modify. intros s Hs. cbv zeta. destruct (_ && _); [frame | by apply keeps_refl]. Qed.

Lemma wp_armLoop budget armed l s :
  inv s -> Forall (fun i => (i < length (pairs_ s))%nat) l ->
  wp (armLoop budget armed l) (fun _ => keeps s) s.
Proof.
  revert armed s. induction l as [|i l IH]; intros armed s Hs Hl; cbn [armLoop]; [by apply good_skip|].
  apply Forall_cons in Hl as [Hi Hl].
  apply wp_bind, wp_getPair; [done..|]. intros p _ _. case_match; [by apply IH|].
  do 2 wp_step. apply wp_read; [by apply wp_pairIsTcpRelay|]. intros relay.
  case_match; [by apply IH|]. do 2 wp_step.
  destruct (existsb (ofPair i) (entries_ s)) eqn:Ee; simpl.
  { case_match; [by apply good_skip | by apply IH]. }
  destruct (Nat.ltb_spec (length (entries_ s)) MaxStunEntries).
  2:{ case_match; [by apply good_skip | by apply IH]. }
  apply wp_then; [by apply wp_addCheck|]. intros _ s1 [Hs1 [Hp1 _]].
  case_match; [by apply good_skip|]. case_match; [by apply good_skip|].
  apply IH; [done|]. eapply Forall_impl; [done|]. simpl. lia.
Qed.

Lemma good_armNextFrozenPair : good armNextFrozenPair.
Proof.
  unfold armNextFrozenPair. apply good_seq; [apply good_maybeEnterTcpPhase|]. intros _.
  apply good_seq; [apply good_refreshEarlyPhase|]. intros _ s Hs. do 4 wp_step.
  case_match; [by apply good_skip|]. do 2 wp_step. apply wp_armLoop; [done | by apply ordered_range].
Qed.

(** ** Forming pairs *)

Abbreviation pairKey := (fun p => (local p, remote p)).

Lemma hasPair_spec l r ps : hasPair l r ps = true <-> (l, r) ∈ (pairKey <$> ps).
Proof.
  unfold hasPair. rewrite existsb_exists, list_elem_of_fmap. split.
  - intros (p & Hp & E). exists p. apply andb_prop in E as [E1 E2]. apply bool_decide_eq_true in E1, E2.
    subst. split; [done|]. by apply list_elem_of_In.
  - intros (p & E & Hp). exists p. simplify_eq. rewrite !bool_decide_true by done.
    split; [by apply list_elem_of_In | done].
Qed.

Lemma hasPair_app l r ps qs : hasPair l r (ps ++ qs) = hasPair l r ps || hasPair l r qs.
Proof. apply existsb_app. Qed.

(** The loop over the remote candidates appends pairs of [l], each of a pairable candidate, and
    none twice; unless the list is full, every pairable candidate has its pair afterwards. *)
Record formed (ctl : bool) (l : CandRef) (lc : Candidate) (g j : nat) (rs : list Candidate)
    (ps ps' new : list CandidatePair) : Prop := {
  fm_app : ps' = ps ++ new;
  fm_new : Forall (fun p => exists k rc, rs !! k = Some rc /\ pairable lc rc = true /\
             p = updatePriority (newPair l (mkRef g (j + k))) lc rc ctl) new;
  fm_nodup : NoDup (pairKey <$> ps) -> NoDup (pairKey <$> ps');
  fm_max : (length ps <= MaxCandidatePairs)%nat -> (length ps' <= MaxCandidatePairs)%nat;
  fm_all : (length ps' < MaxCandidatePairs)%nat ->
           forall k rc, rs !! k = Some rc -> pairable lc rc = true -> hasPair l (mkRef g (j + k)) ps' = true }.

Lemma formInner_formed ctl l lc g j rs ps :
  exists new, formed ctl l lc g j rs ps (formInner ctl l lc g j rs ps) new.
Proof.
  revert j ps. induction rs as [|rc rs IH]; intros j ps; cbn [formInner].
  { exists []. constructor; rewrite ?app_nil_r; try done. }
  assert (Hskip : pairable lc rc && negb (hasPair l (mkRef g j) ps) = false ->
    exists new, formed ctl l lc g j (rc :: rs) ps (formInner ctl l lc g (S j) rs ps) new).
  { intros Hn. destruct (IH (S j) ps) as (new & [Ha Hw Hd Hm Hl]). exists new. constructor; [done| |done|done|].
    - eapply Forall_impl; [done|]. intros p (k & c & Hk & Hc & ->). exists (S k), c.
      by rewrite Nat.add_succ_r.
    - intros Hlen [|k] c Hk Hc; simplify_eq/=.
      + rewrite Nat.add_0_r. apply andb_false_iff in Hn as [Hn|Hn]; [congruence|].
        apply negb_false_iff in Hn. by rewrite Ha, hasPair_app, Hn.
      + rewrite Nat.add_succ_r. by eapply Hl. }
  destruct (pairable lc rc && negb (hasPair l (mkRef g j) ps)) eqn:Ep; [|by apply Hskip].
  apply andb_prop in Ep as [Ep1 Ep2]. apply negb_true_iff in Ep2.
  destruct (Nat.leb_spec MaxCandidatePairs (length ps)) as [Hfull|Hroom].
  { exists []. constructor; rewrite ?app_nil_r; try done. intros. lia. }
  set (p := updatePriority (newPair l (mkRef g j)) lc rc ctl).
  destruct (IH (S j) (ps ++ [p])) as (new & [Ha Hw Hd Hm Hl]). exists (p :: new). constructor.
  - by rewrite Ha, <- app_assoc.
  - constructor; [exists 0%nat, rc; by rewrite Nat.add_0_r|].
    eapply Forall_impl; [done|]. intros q (k & c & Hk & Hc & ->). exists (S k), c.
    by rewrite Nat.add_succ_r.
  - intros Hnd. apply Hd. rewrite fmap_app. apply NoDup_app. split; [done|]. split; [|apply NoDup_singleton].
    intros x Hx Hx'. apply list_elem_of_singleton in Hx' as ->.
    apply not_true_iff_false in Ep2. apply Ep2. by apply hasPair_spec.
  - intros _. apply Hm. rewrite length_app. simpl. lia.
  - intros Hlen [|k] c Hk Hc; simplify_eq/=.
    + rewrite Nat.add_0_r, Ha, !hasPair_app. unfold hasPair at 2. simpl.
      rewrite !bool_decide_true by done. by rewrite orb_true_r.
    + rewrite Nat.add_succ_r. by eapply Hl.
Qed.

(** The same for the loop over the local candidates. *)
Record formedAll (ctl : bool) (g i : nat) (ls rs : list Candidate) (ps ps' new : list CandidatePair) : Prop := {
  fa_app : ps' = ps ++ new;
  fa_new : Forall (fun p => exists m lc k rc, ls !! m = Some lc /\ rs !! k = Some rc /\
             pairable lc rc = true /\
             p = updatePriority (newPair (mkRef 0 (i + m)) (mkRef g k)) lc rc ctl) new;
  fa_nodup : NoDup (pairKey <$> ps) -> NoDup (pairKey <$> ps');
  fa_max : (length ps <= MaxCandidatePairs)%nat -> (length ps' <= MaxCandidatePairs)%nat;
  fa_all : (length ps' < MaxCandidatePairs)%nat ->
           forall m lc k rc, ls !! m = Some lc -> rs !! k = Some rc -> pairable lc rc = true ->
           hasPair (mkRef 0 (i + m)) (mkRef g k) ps' = true }.

Lemma formOuter_formed ctl g i ls rs ps :
  exists new, formedAll ctl g i ls rs ps (formOuter ctl g i ls rs ps) new.
Proof.
  revert i ps. induction ls as [|lc ls IH]; intros i ps; cbn [formOuter].
  { exists []. constructor; rewrite ?app_nil_r; try done. }
  destruct (formInner_formed ctl (mkRef 0 i) lc g 0 rs ps) as (n1 & [Ha Hw Hd Hm Hl]).
  set (ps1 := formInner ctl (mkRef 0 i) lc g 0 rs ps) in *.
  destruct (IH (S i) ps1) as (n2 & [Ha2 Hw2 Hd2 Hm2 Hl2]). exists (n1 ++ n2). constructor.
  - by rewrite Ha2, Ha, app_assoc.
  - apply Forall_app. split.
    + eapply Forall_impl; [exact Hw|]. intros p (k & rc & Hk & Hc & ->). exists 0%nat, lc, k, rc.
      by rewrite Nat.add_0_r.
    + eapply Forall_impl; [exact Hw2|]. intros p (m & c & k & rc & Hm' & Hk & Hc & ->).
      exists (S m), c, k, rc. by rewrite Nat.add_succ_r.
  - auto.
  - auto.
  - intros Hlen [|m] c k rc Hmc Hk Hc; simplify_eq/=.
    + rewrite Nat.add_0_r, Ha2, hasPair_app. rewrite (Hl ltac:(rewrite Ha2, length_app in Hlen; lia) k rc Hk Hc).
      done.
    + rewrite Nat.add_succ_r. by eapply Hl2.
Qed.

(** The pair list as [formPairs] leaves it. *)
Definition formedPairs (s : Agent) : list CandidatePair :=
  formOuter (bool_decide (mode_ s = Controlling)) (remoteGen s) 0 (candidates (local_ s))
    (candidates (remote_ s)) (pairs_ s).

Lemma pairable_not_linkLocal lc rc : pairable lc rc = true -> addrIsLinkLocal (Some (addr (resolved rc))) = false.
Proof. unfold pairable. rewrite !andb_true_iff, negb_true_iff. tauto. Qed.

Lemma formedPairs_inv0 s : inv0 s -> inv0 (s <| pairs_ := formedPairs s |>).
Proof.
  intros [H1 H2 H3 H4 H5 H6 H7 H8 H9 H10].
  destruct (formOuter_formed (bool_decide (mode_ s = Controlling)) (remoteGen s) 0 (candidates (local_ s))
              (candidates (remote_ s)) (pairs_ s)) as (new & [Ha Hw Hd Hm _]).
  fold (formedPairs s) in *.
  assert (Hlen : (length (pairs_ s) <= length (formedPairs s))%nat) by (rewrite Ha, length_app; lia).
  constructor; upd; auto.
  - rewrite Ha. apply Forall_app. split; [done|]. eapply Forall_impl; [exact Hw|].
    intros p (m & lc & k & rc & Hm' & Hk & Hc & ->). unfold pair_ok, updatePriority. upd. simpl.
    split; [done|]. split; [by eapply lookup_lt_Some|]. split; [done|]. exists rc.
    split; [done | by eapply pairable_not_linkLocal].
  - eapply Forall_impl; [done|]. intros e [E1 E2 E3]. constructor; [|done..].
    intros i Hi. destruct (E1 i Hi). split; [lia|done].
  - intros i Hi. specialize (H7 i Hi). lia.
  - intros i Hi. specialize (H8 i Hi). lia.
Qed.

Lemma good_requestPermission rc k s :
  inv s -> (k < length (entries_ s))%nat -> wp (requestPermission rc k) (fun _ => keeps s) s.
Proof.
  intros Hs Hk. unfold requestPermission. apply wp_bind, wp_getEntry; [done..|]. intros e _ _.
  destruct (allocatedRelay e) as [tv|]; [|by apply good_skip].
  apply wp_then; [by apply good_emit|]. intros _ s1 [Hs1 _]. do 2 wp_step.
  apply good_when; [|done]. intros _. case_match; [apply good_seq; [by apply good_emit|]; intros _|];
    apply good_modify; intros; frame.
Qed.

Lemma wp_requestPermissions i s :
  inv s -> (i < length (pairs_ s))%nat -> wp (requestPermissions i) (fun _ => keeps s) s.
Proof.
  intros Hs Hi. unfold requestPermissions. apply wp_bind, wp_getPair; [done..|]. intros p _ Hp.
  apply wp_bind, wp_derefLocal; [done|]. intros lc _. apply wp_when; intros _; [|by apply keeps_refl].
  apply wp_bind, wp_derefRemote; [done|]. intros rc _. do 2 wp_step.
  eapply (wp_forM _ _ (keeps s)); [|by apply keeps_refl].
  intros k s1 Hk Hks. apply elem_of_seq in Hk. pose proof Hks as [Hs1 [_ Hg]].
  eapply wp_mono; [apply good_requestPermission; [done | lia]|]. intros a s2 Hk2. by eapply keeps_trans.
Qed.

Lemma good_formPairs : good formPairs.
Proof.
  intros s Hs. unfold formPairs. apply wp_bind, wp_modify. fold (formedPairs s).
  apply wp_bind, wp_modify. upd.
  set (s1 := s <| pairs_ := formedPairs s |> <| orderedPairs_ := orderPairs (formedPairs s) |>).
  assert (Hs1 : keeps s s1).
  { pose proof (formedPairs_inv0 s (iv_core s Hs)) as H0. split.
    - constructor; [|done]. destruct H0 as [? ? ? ? ? ? ? ? ? ?]. by constructor.
    - destruct (formOuter_formed (bool_decide (mode_ s = Controlling)) (remoteGen s) 0 (candidates (local_ s))
        (candidates (remote_ s)) (pairs_ s)) as (new & [Ha _ _ _ _]).
      constructor; unfold s1; upd; [|lia]. unfold formedPairs. rewrite Ha, length_app. lia. }
  eapply wp_mono; [|intros a s2 H; eapply keeps_trans; [exact Hs1 | exact H]].
  destruct Hs1 as [Hs1 _]. do 2 wp_step. apply wp_then.
  - eapply (wp_forM _ _ (keeps s1)); [|by apply keeps_refl].
    intros i s2 Hi Hk2. pose proof (ordered_range s1 Hs1) as Hr. rewrite Forall_forall in Hr.
    specialize (Hr i Hi). destruct Hk2 as [Hs2 Hg2]. eapply wp_mono.
    + apply wp_requestPermissions; [done|]. destruct Hg2. lia.
    + intros a s3 Hk3. eapply keeps_trans; [by split | exact Hk3].
  - intros _ s2 [Hs2 _]. by apply good_armNextFrozenPair.
Qed.

(** ** Descriptions *)

Lemma keeps_local s l :
  inv s -> (length (candidates (local_ s)) <= length (candidates l))%nat ->
  Z.of_nat (length (iceUfrag l)) < 2 ^ 32 -> keeps s (s <| local_ := l |>).
Proof.
  intros [[H1 H2 H3 H4 H5 H6 H7 H8 H9 H10] Ho] Hl Hu. split; [|by constructor].
  constructor; [constructor|]; upd; try done.
  - eapply Forall_impl; [done|]. intros p (P1 & P2 & P3 & P4). unfold pair_ok. upd.
    split; [done|]. split; [lia|]. done.
  - by destruct H10.
Qed.

Lemma keeps_remote s r ext :
  inv s -> candidates r = candidates (remote_ s) ++ ext ->
  Z.of_nat (length (iceUfrag r)) < 2 ^ 32 -> keeps s (s <| remote_ := r |>).
Proof.
  intros [[H1 H2 H3 H4 H5 H6 H7 H8 H9 H10] Ho] Hr Hu. split; [|by constructor].
  constructor; [constructor|]; upd; try done.
  - eapply Forall_impl; [done|]. intros p (P1 & P2 & P3 & c & P4 & P5). unfold pair_ok. upd.
    split; [done|]. split; [done|]. split; [done|]. exists c. split; [|done].
    rewrite Hr. by apply lookup_app_l_Some.
  - by destruct H10.
Qed.

Lemma insertCandidate_length c l : length (insertCandidate c l) = S (length l).
Proof. induction l as [|x l IH]; simpl; [done|]. case_match; simpl; congruence. Qed.

Lemma sortCandidates_length d : length (candidates (sortCandidates d)) = length (candidates d).
Proof.
  unfold sortCandidates, stableSort. simpl. induction (candidates d) as [|c l IH]; simpl; [done|].
  rewrite insertCandidate_length. congruence.
Qed.

Lemma inv_ufragL s : inv s -> Z.of_nat (length (iceUfrag (local_ s))) < 2 ^ 32.
Proof. intros H. apply H. Qed.
Lemma inv_ufragR s : inv s -> Z.of_nat (length (iceUfrag (remote_ s))) < 2 ^ 32.
Proof. intros H. apply H. Qed.

Lemma good_addLocalCandidate c : good (addLocalCandidate c).
Proof.
  intros s Hs. unfold addLocalCandidate. do 2 wp_step. case_match; [by apply good_skip|].
  apply wp_then.
  { apply wp_modify. apply keeps_local; cbn [candidates iceUfrag]; [done | rewrite length_app; lia | by apply inv_ufragL]. }
  intros _ s1 [Hs1 _]. do 2 wp_step. apply wp_then.
  { apply good_when; [|done]. intros _. apply good_modify. intros s2 Hs2.
    apply (keeps_local s2 (sortCandidates (local_ s2))); [done| |by apply inv_ufragL].
    by rewrite sortCandidates_length. }
  intros _ s2 [Hs2 _]. apply good_when; [|done]. intros _. apply good_formPairs.
Qed.

(** ** The state of the agent *)

Definition best_range (n : nat) (o : option (nat * Z)) : Prop := forall i z, o = Some (i, z) -> (i < n)%nat.

Lemma better_range n o i z : best_range n o -> (i < n)%nat -> best_range n (better o i z).
Proof.
  intros Ho Hi j x. unfold better. destruct o as [[k b]|]; [case_match|]; intros; simplify_eq; eauto.
Qed.

Lemma wp_bestSucceeded l tcp udp s :
  inv s -> Forall (fun i => (i < length (pairs_ s))%nat) l ->
  best_range (length (pairs_ s)) tcp -> best_range (length (pairs_ s)) udp ->
  wp (bestSucceeded l tcp udp)
    (fun r s' => s' = s /\ best_range (length (pairs_ s)) r.1 /\ best_range (length (pairs_ s)) r.2) s.
Proof.
  intros Hs Hl. revert tcp udp. induction Hl as [|i l Hi Hl IH]; intros tcp udp Ht Hu; cbn [bestSucceeded];
    [by wp_step|].
  apply wp_bind, wp_getPair; [done..|]. intros p _ _. case_match; [by apply IH|].
  apply wp_read; [by apply wp_pairIsTcpRelay|]. intros [|]; apply IH; auto using better_range.
Qed.

Lemma choosePair_range n sticky tcp udp :
  best_range n tcp -> best_range n udp -> in_range n (choosePair sticky tcp udp).
Proof.
  intros Ht Hu i. unfold choosePair.
  destruct sticky, tcp as [[a x]|], udp as [[b y]|]; simpl; try case_match; intros; simplify_eq; eauto.
Qed.

Lemma keeps_selected s o :
  inv s -> in_range (length (pairs_ s)) o -> keeps s (s <| selectedPair_ := o |>).
Proof.
  intros [[H1 H2 H3 H4 H5 H6 H7 H8 H9 H10] Ho] Hr. split; [|by constructor].
  by constructor; [constructor|].
Qed.

Lemma keeps_nominated s o :
  inv s -> in_range (length (pairs_ s)) o -> keeps s (s <| nominatedPair_ := o |>).
Proof.
  intros [[H1 H2 H3 H4 H5 H6 H7 H8 H9 H10] Ho] Hr. split; [|by constructor].
  by constructor; [constructor|].
Qed.

(** A reported transition, after which the caller goes on in the new state. *)
Lemma wp_transition {B} (f : unit -> M B) st s :
  inv s -> legal (state_ s) st ->
  (forall s', keeps s s' -> state_ s' = st -> wp (f tt) (fun _ => keeps s') s') ->
  wp (changeState st ≫= f) (fun _ => keeps s) s.
Proof.
  intros Hs Hl Hf. apply (wp_seq _ _ _ (fun _ s' => state_ s' = st)).
  - apply wp_changeState; [done | by right].
  - intros [] s' Hk Hst. by apply Hf.
Qed.

Lemma wp_lastTransition st s :
  inv s -> legal (state_ s) st -> wp (changeState st) (fun _ => keeps s) s.
Proof.
  intros Hs Hl. eapply wp_mono; [apply wp_changeState; [done | by right]|]. by intros a s' [? _].
Qed.

(** The rest runs in an updated state whose [state_] is the same. *)
Lemma wp_update {B} (g : Agent -> Agent) (f : unit -> M B) s :
  keeps s (g s) -> (inv (g s) -> wp (f tt) (fun _ => keeps (g s)) (g s)) ->
  wp (modify g ≫= f) (fun _ => keeps s) s.
Proof.
  intros Hk Hf. apply wp_bind, wp_modify. eapply wp_mono; [by apply Hf, Hk|].
  intros a s' H. by eapply keeps_trans.
Qed.

Lemma wp_selectBest i s :
  inv s -> (i < length (pairs_ s))%nat -> wp (selectBest i) (fun _ => keeps s) s.
Proof.
  intros Hs Hi. unfold selectBest.
  apply wp_update; [apply keeps_selected; [done | by intros j [= <-]]|]. intros Hs1.
  apply wp_bind, wp_getPair; [done..|]. intros p _ _. do 2 wp_step. upd. case_match.
  - apply wp_update; [apply keeps_nominated; [done | by intros j [= <-]]|]. intros Hs2.
    case_match eqn:Est; try (by apply good_skip).
    + apply wp_transition; [done | upd; rewrite Est; constructor |]. intros s3 [Hs3 _] Est3.
      apply wp_lastTransition; [done|]. rewrite Est3. constructor.
    + apply wp_lastTransition; [done|]. upd. rewrite Est. constructor.
  - apply wp_when; [|by intros; apply keeps_refl]. intros Ec. apply bool_decide_eq_true in Ec.
    apply wp_lastTransition; [done|]. upd. rewrite Ec. constructor.
Qed.

Lemma good_failPatiently : good failPatiently.
Proof.
  intros s Hs. unfold failPatiently. do 6 wp_step. case_bool_decide as E.
  - case_match; [apply wp_modify; frame|]. case_match; [by apply good_skip|].
    apply wp_update; [frame|]. intros Hs1. apply wp_lastTransition; [done|]. upd. rewrite E. by constructor.
  - apply wp_when; [|by intros; apply keeps_refl]. intros Hr. apply wp_lastTransition; [done|]. by constructor.
Qed.

Lemma good_updateState : good updateState.
Proof.
  intros s Hs. unfold updateState. do 4 wp_step.
  apply wp_read; [apply wp_pairIsTurnTcpRelay; [done | by apply inv_sel]|]. intros relay. do 2 wp_step.
  apply wp_bind. eapply wp_mono; [apply wp_bestSucceeded; [done | by apply seq_range | done | done]|].
  intros [tcp udp] s' (-> & Ht & Hu). simpl in Ht, Hu.
  destruct (choosePair _ tcp udp) as [i|] eqn:Ec.
  - apply wp_selectBest; [done|]. by eapply choosePair_range in Ec.
  - do 2 wp_step. case_match; [apply wp_modify; frame | by apply good_failPatiently].
Qed.

(** ** Fields the check list does not touch *)

Lemma pres_pairIsTcpRelay {T} (f : Agent -> T) i : preserves f (pairIsTcpRelay i).
Proof. unfold pairIsTcpRelay. preserve. Qed.
Lemma pres_pairIsTurnTcpRelay {T} (f : Agent -> T) o : preserves f (pairIsTurnTcpRelay o).
Proof. destruct o; [apply pres_pairIsTcpRelay | apply pres_ret]. Qed.
Lemma pres_pairIsTcp {T} (f : Agent -> T) o : preserves f (pairIsTcp o).
Proof. unfold pairIsTcp. preserve. Qed.
#[export] Hint Resolve pres_pairIsTcpRelay pres_pairIsTurnTcpRelay pres_pairIsTcp : pres.

Lemma pres_armTransmission {T} (f : Agent -> T) e d : preserves f (armTransmission e d).
Proof. unfold armTransmission. preserve. Qed.
#[export] Hint Resolve pres_armTransmission : pres.

Lemma pres_udpPairs {T} (f : Agent -> T) l any : preserves f (udpPairs l any).
Proof. revert any. induction l as [|i l IH]; intros any; cbn [udpPairs]; preserve. Qed.
#[export] Hint Resolve pres_udpPairs : pres.

(** The fields neither [armNextFrozenPair] nor [formPairs] writes. *)
Definition aside (s : Agent) :=
  (state_ s, mode_ s, tiebreaker_ s, (local_ s, remote_ s, remoteGen s),
   (gatheringDone_ s, gatherStartedAt_ s, pendingRelayAllocations_ s, pendingServerReflexive_ s),
   (selectedPair_ s, nominatedPair_ s, nominationValue_ s),
   (checkingStartTime_ s, relayOnlyMode_ s, lastAppDataAt_ s, pacDeadline_ s, clock s)).

Lemma pres_armLoop budget armed l : preserves aside (armLoop budget armed l).
Proof.
  revert armed. induction l as [|i l IH]; intros armed; cbn [armLoop]; [apply pres_ret|].
  unfold addCheck. preserve.
Qed.
#[export] Hint Resolve pres_armLoop : pres.

Lemma pres_armNextFrozenPair : preserves aside armNextFrozenPair.
Proof.
  unfold armNextFrozenPair, maybeEnterTcpPhase, refreshEarlyPhase. preserve. cbv zeta. by case_match.
Qed.
#[export] Hint Resolve pres_armNextFrozenPair : pres.

Lemma pres_formPairs : preserves aside formPairs.
Proof. unfold formPairs, updateOrderedPairs, requestPermissions, requestPermission. preserve. Qed.
#[export] Hint Resolve pres_formPairs : pres.

Lemma pres_weaken {A T U} (g : T -> U) (f : Agent -> T) (m : M A) : preserves f m -> preserves (fun s => g (f s)) m.
Proof. intros H s a s' E. by rewrite (H s a s' E). Qed.

Lemma wp_formThenConnect s :
  inv s -> state_ s = STATE_GATHERING -> wp (formPairs;; changeState STATE_CONNECTING) (fun _ => keeps s) s.
Proof.
  intros Hs Hst. apply (wp_seq _ _ _ (fun _ s' => aside s' = aside s)).
  - apply wp_pres; [apply pres_formPairs | by apply good_formPairs].
  - intros _ s' [Hs' _] E. apply wp_lastTransition; [done|].
    assert (state_ s' = state_ s) as -> by (unfold aside in E; congruence). rewrite Hst. constructor.
Qed.

Lemma good_checkGatheringComplete : good checkGatheringComplete.
Proof.
  intros s Hs. unfold checkGatheringComplete. do 2 wp_step. case_match; [by apply good_skip|].
  apply wp_update.
  { eapply keeps_trans; [apply (keeps_local s (mkDescription (iceUfrag (local_ s)) (icePwd (local_ s))
      (iceLite (local_ s)) (candidates (local_ s)) true)); [done | done | by apply inv_ufragL]|].
    apply keeps_frame; try done. apply keeps_local; [done | done | by apply inv_ufragL]. }
  intros Hs1. apply wp_bind, wp_modify. set (s2 := _ <| outs ::= _ |>).
  assert (Hk : keeps (s <| gatheringDone_ := true |> <| local_ := mkDescription (iceUfrag (local_ s))
    (icePwd (local_ s)) (iceLite (local_ s)) (candidates (local_ s)) true |>) s2) by (unfold s2; frame).
  eapply wp_mono; [|intros a s3 H3; eapply keeps_trans; [exact Hk | exact H3]].
  apply wp_when; [|by intros _; apply keeps_refl, Hk]. intros Hc. apply andb_prop in Hc as [_ Hc].
  apply bool_decide_eq_true in Hc. apply wp_formThenConnect; [apply Hk | done].
Qed.
