(* ===== verification/AgentSteps.v ===== *)
(** * Safety of connectivity checks

    The operations of [AgentStun], run from a state that satisfies the invariant, return and
    keep it.  A message is good ([msg_ok]) when the decoder produced it. *)

From S2P Require Import Prelude.
From S2P Require Import Bytes.
From S2P Require Import Crypto.
From S2P Require Import Addr.
From S2P Require Import StunMessage.
From S2P Require Import StunAttributes.
From S2P Require Import ChannelData.
From S2P Require Import CText.
From S2P Require Import Candidate.
From S2P Require Import CandidatePair.
From S2P Require Import Sdp.
From S2P Require Import PairingStrategy.
From S2P Require Import AgentState.
From S2P Require Import AgentPairs.
From S2P Require Import AgentStun.
From S2P Require Import AgentInv.
From S2P Require Import AgentSafe.
Open Scope Z_scope.
Open Scope c_scope.

Record msg_ok (m : Message) : Prop := {
  mo_tid : tid_ok (transactionID m);
  mo_attrs : Forall attr_ok (attributes m);
  mo_integrity : forall key am, is_Some (checkIntegrity m key am) }.

(** The random source gives as many bytes as it was asked for, or fails. *)
Definition rng_ok (env : Env) : Prop := forall k n b, csprng env k n = Some b -> length b = n.

Lemma textBytes_length t : length (textBytes t) = length t.
Proof. apply length_fmap. Qed.

(** ** Encoding *)

Lemma encode_sized m pw :
  length (transactionID m) = 12%nat -> Forall (fun a => sized (value a)) (attributes m) ->
  exists m', encode m pw None (Some software) = Some m'.
Proof. intros Ht Ha. eexists. apply encode_frame; [done|]. split; [done|]. split; [done|]. by vm_compute. Qed.

Lemma sized_addAttribute m ty v :
  Forall (fun a => sized (value a)) (attributes m) -> sized v ->
  Forall (fun a => sized (value a)) (attributes (addAttribute m ty v)).
Proof. intros Hm Hv. apply Forall_app. split; [done|]. by apply Forall_singleton. Qed.

Lemma encodeXorAddr_sized a tid : sized (encodeXorAddr a tid).
Proof.
  unfold sized, encodeXorAddr. destruct (addr a); [| |done]; rewrite length_app, length_zip_with, length_take;
    cbn [length]; pow2_norm; lia.
Qed.

Lemma errorReason_sized c : sized (bytes_of_string (errorReason c)).
Proof. unfold errorReason. repeat case_match; by vm_compute. Qed.

Lemma responseMessage_sized req dst c : Forall (fun a => sized (value a)) (attributes (responseMessage req dst c)).
Proof.
  unfold responseMessage. destruct (c =? 0).
  - unfold writeXorAddress. case_match; [constructor|].
    apply sized_addAttribute; [constructor | apply encodeXorAddr_sized].
  - apply sized_addAttribute; [constructor|]. simpl length. unfold sized. rewrite length_app.
    pose proof (errorReason_sized c) as H. unfold sized in H. simpl.
    assert (H4 : Z.of_nat (length (bytes_of_string (errorReason c))) < 1000).
    { clear H. unfold errorReason. repeat case_match; by vm_compute. }
    lia.
Qed.

Lemma responseMessage_tid req dst c : transactionID (responseMessage req dst c) = transactionID req.
Proof. unfold responseMessage, writeXorAddress. by repeat case_match. Qed.

Lemma checkMessage_sized env s tid pl :
  inv s -> Forall (fun a => sized (value a)) (attributes (checkMessage env s tid pl)).
Proof.
  intros Hs. pose proof (inv_ufragL s Hs). pose proof (inv_ufragR s Hs).
  assert (Hu : sized (textBytes (iceUfrag (remote_ s) ++ lit ":" ++ iceUfrag (local_ s)))).
  { unfold sized. rewrite textBytes_length, !length_app. simpl. lia. }
  assert (Hsmall : forall v, sized (writeU32Be v)) by (by intros; vm_compute).
  assert (Hrole : forall m, Forall (fun a => sized (value a)) (attributes m) ->
            Forall (fun a => sized (value a)) (attributes (roleAttr s m))).
  { intros m Hm. unfold roleAttr. case_match; by apply sized_addAttribute. }
  assert (Hnom : forall p m, Forall (fun a => sized (value a)) (attributes m) ->
            Forall (fun a => sized (value a)) (attributes (nominationAttrs s p m))).
  { intros p m Hm. unfold nominationAttrs. case_match; [|done].
    case_match; repeat apply sized_addAttribute; done || apply Hsmall. }
  unfold checkMessage. destruct pl as [[p lc]|].
  - unfold tcpTypeAttr. destruct (transport lc); [|apply sized_addAttribute; [|apply Hsmall]..];
      apply Hnom, Hrole; (apply sized_addAttribute; [|apply Hsmall]); by apply sized_addAttribute; [constructor|].
  - apply Hrole, sized_addAttribute; [constructor | done].
Qed.

Lemma checkMessage_tid env s tid pl : transactionID (checkMessage env s tid pl) = tid.
Proof.
  unfold checkMessage, tcpTypeAttr, nominationAttrs, roleAttr. destruct pl as [[p lc]|]; [|by case_match].
  by repeat case_match.
Qed.

(** ** Sending *)

Section Env.
Context (env : Env).

Lemma good_nextSend : good nextSend.
Proof. intros s Hs. eexists _, _. split; [done|]. frame. Qed.

Lemma good_ret {A} (x : A) : good (mret x).
Proof. intros s Hs. apply wp_ret. by apply keeps_refl. Qed.
Hint Resolve good_ret good_nextSend : stice.

Lemma good_gets {A} (f : Agent -> A) : good (gets f).
Proof. intros s Hs. apply wp_gets. by apply keeps_refl. Qed.

Lemma good_lift {A B} (x : A) (f : A -> M B) : good (f x) -> good (lift (Some x) ≫= f).
Proof. intros Hf s Hs. apply wp_bind, (wp_lift _ _ _ x); [done|]. by apply Hf. Qed.

Lemma good_sendUdp data dst control : good (sendUdp env data dst control).
Proof.
  unfold sendUdp. apply good_seq; [apply good_nextSend|]. intros k. destruct (udpSend env k dst data) as [r b].
  case_match; [apply good_seq; [by apply good_emit | intros; apply good_ret]|].
  case_match; [|apply good_ret]. apply good_seq; [apply good_modify; intros; frame | intros; apply good_ret].
Qed.

Lemma good_flushUdpControlQueue : good (flushUdpControlQueue env).
Proof.
  unfold flushUdpControlQueue. apply good_seq; [apply good_gets|]. intros q.
  induction q as [|[dst data] q IH]; cbn [flushLoop]; [apply good_modify; intros; frame|].
  apply good_seq; [apply good_nextSend|]. intros k. destruct (udpSend env k dst data) as [r b].
  case_match; [apply good_modify; intros; frame|].
  apply good_seq; [apply good_when; intros _; by apply good_emit | done].
Qed.

Lemma wp_agentSendTcp data o s :
  inv s -> in_range (length (pairs_ s)) o -> wp (sendTcp env data o) (fun _ => keeps s) s.
Proof.
  intros Hs Ho. unfold sendTcp. do 2 wp_step. cbv zeta.
  set (p := match o with Some i => Some i | None => selectedPair_ s end).
  assert (Hp : in_range (length (pairs_ s)) p).
  { unfold p. destruct o; [done|]. by apply inv_sel. }
  apply wp_read.
  - destruct (tcpMuxSend env) as [mux|], p as [i|]; try by wp_step.
    apply wp_bind, wp_getPair; [done | by apply Hp |]. intros q _ Hq.
    apply wp_bind, wp_derefLocal; [done|]. intros lc _. case_bool_decide; [|by wp_step].
    apply wp_bind, wp_derefRemote; [done|]. intros rc _. by wp_step.
  - intros [[mux dst]|].
    + revert s Hs Ho p Hp. intros s Hs _ _ _. revert s Hs. apply good_seq; [apply good_nextSend|]. intros k.
      case_match; [apply good_seq; [by apply good_emit | intros; apply good_ret] | apply good_ret].
    + do 2 wp_step. destruct (tcpConnected_ s); [|by apply good_ret].
      revert Hs. clear. revert s. apply good_seq; [apply good_nextSend|]. intros k.
      case_match; [apply good_seq; [by apply good_emit | intros; apply good_ret] | apply good_ret].
Qed.

Lemma good_sendTurnDataConn data : good (sendTurnDataConn env data).
Proof.
  unfold sendTurnDataConn. apply good_seq; [apply good_gets|]. intros [a|]; [|apply good_ret].
  apply good_seq; [apply good_nextSend|]. intros k.
  case_match; [apply good_seq; [by apply good_emit | intros; apply good_ret] | apply good_ret].
Qed.

(** ** Responses *)

Lemma good_answerUdp raw dst : good (answerUdp env raw dst).
Proof.
  unfold answerUdp. apply good_seq; [apply good_gets|]. intros s. case_match; [by apply good_emit|].
  apply good_seq; [apply good_sendUdp | intros; apply good_skip].
Qed.

Lemma wp_sendBindingResponse req dst c s :
  inv s -> length (transactionID req) = 12%nat ->
  wp (sendBindingResponse env req dst c) (fun _ => keeps s) s.
Proof.
  intros Hs Ht. unfold sendBindingResponse. do 2 wp_step.
  destruct (encode_sized (responseMessage req dst c) (Some (textBytes (cstr (icePwd (local_ (id s)))))))
    as [m' E]; [by rewrite responseMessage_tid | apply responseMessage_sized |].
  apply wp_bind, (wp_lift _ _ _ m'); [done|]. case_match.
  { apply good_seq; [apply good_sendTurnDataConn | intros; apply good_skip | done]. }
  apply wp_then.
  { destruct (tcpMuxSend env) as [mux|]; [|by apply good_ret].
    apply good_seq; [apply good_nextSend | | done]. intros k.
    case_match; [apply good_seq; [by apply good_emit | intros; apply good_ret] | apply good_ret]. }
  intros viaMux s1 [Hs1 _]. destruct viaMux; [by apply good_skip|]. case_match.
  - apply wp_then; [by apply wp_agentSendTcp|]. intros a s2 [Hs2 _]. by apply good_skip.
  - by apply good_answerUdp.
Qed.

(** ** Sending a check *)

Lemma wp_freshTransactionID k s :
  rng_ok env -> inv s -> (k < length (entries_ s))%nat ->
  wp (freshTransactionID env k)
    (fun r s' => keeps s s' /\ forall tid, r = Some tid -> length tid = 12%nat) s.
Proof.
  intros Hrng Hs Hk. unfold freshTransactionID. apply wp_bind, wp_getEntry; [done..|]. intros e He [_ _ Ht].
  case_match.
  - apply wp_bind. eexists _, _. split; [done|].
    destruct (csprng env (draws s) 12) as [tid|] eqn:Er.
    + pose proof (Hrng _ _ _ Er) as Hl. apply wp_bind.
      set (s1 := s <| draws ::= S |>). assert (Hk1 : keeps s s1) by (unfold s1; frame).
      eapply wp_mono; [apply (wp_setEntry s1); [apply Hk1|] |].
      * intros e2 _. split; [done|]. split; [done|]. intros _. exact Hl.
      * intros a s2 Hk2. apply wp_ret. split; [by eapply keeps_trans | by intros ? [= <-]].
    + apply wp_ret. split; [frame | done].
  - apply wp_ret. split; [by apply keeps_refl|]. by intros tid [= <-].
Qed.

Lemma wp_pairCandidates o s :
  inv s -> in_range (length (pairs_ s)) o ->
  wp (pairCandidates o) (fun r s' => s' = s /\ match r with Some (p, _) => pair_ok s p | None => True end) s.
Proof.
  intros Hs Ho. destruct o as [i|]; [|by apply wp_ret]. unfold pairCandidates.
  apply wp_bind, wp_getPair; [done | by apply Ho |]. intros p _ Hp.
  apply wp_bind, wp_derefLocal; [done|]. intros c _. by apply wp_ret.
Qed.

Lemma wp_routeViaRelay pl dst s :
  match pl with Some (p, _) => pair_ok s p | None => True end ->
  wp (routeViaRelay pl dst) (fun _ s' => s' = s) s.
Proof.
  intros Hp. unfold routeViaRelay. do 2 wp_step. destruct pl as [[p lc]|]; [|by wp_step].
  case_bool_decide; [by wp_step|]. apply wp_bind, wp_derefRemote; [done|]. intros rc _. by wp_step.
Qed.

Lemma entry_range s k e : inv s -> entries_ s !! k = Some e -> in_range (length (pairs_ s)) (e_pair e).
Proof.
  intros [[_ _ _ He _ _ _ _ _ _] _] Hk i Hi. by destruct (Forall_lookup_1 _ _ _ _ He Hk) as [H _ _]; apply H.
Qed.

Lemma wp_sendStunBinding k s :
  rng_ok env -> inv s -> (k < length (entries_ s))%nat ->
  wp (sendStunBinding env k) (fun _ => keeps s) s.
Proof.
  intros Hrng Hs Hk. unfold sendStunBinding.
  eapply wp_seq; [by apply wp_freshTransactionID|]. intros [tid|] s1 [Hs1 [_ Hg1]] Ht; [|by apply good_skip].
  specialize (Ht tid eq_refl). apply wp_bind, wp_getEntry; [done | lia |]. intros e He _.
  pose proof (entry_range s1 k e Hs1 He) as Hr.
  apply wp_bind. eapply wp_mono; [by apply wp_pairCandidates|]. intros pl s' [-> Hpl].
  do 2 wp_step. cbv [id]. apply wp_update; [by apply keeps_setEntry|].
  intros Hs2. set (s2 := s1 <| entries_ ::= _ |>) in *.
  assert (Hpl2 : match pl with Some (p, _) => pair_ok s2 p | None => True end) by exact Hpl.
  assert (Hr2 : in_range (length (pairs_ s2)) (e_pair e)) by exact Hr.
  destruct (encode_sized (checkMessage env s1 tid pl) (Some (textBytes (cstr (icePwd (remote_ s1))))))
    as [m' E]; [by rewrite checkMessage_tid | by apply checkMessage_sized |].
  apply wp_bind, (wp_lift _ _ _ m'); [done|].
  apply wp_read; [by apply wp_pairIsTurnTcpRelay|]. intros [|].
  { apply good_seq; [apply good_sendTurnDataConn | intros; apply good_skip | done]. }
  apply wp_read; [by apply wp_pairIsTcp|]. intros [|].
  { match goal with |- wp (if ?c then _ else _) _ _ => destruct c end; [|by apply good_skip].
    apply wp_then; [by apply wp_agentSendTcp|]. intros a s3 [Hs3 _]. by apply good_skip. }
  apply wp_read; [by apply wp_routeViaRelay|]. intros viaRelay.
  destruct (if viaRelay then _ else _) as [r|].
  - destruct (isOwnRelay _ _); [|by apply good_emit]. destruct (e_pair e); [by apply good_setPair | by apply good_skip].
  - apply good_seq; [apply good_sendUdp | intros; apply good_skip | done].
Qed.

(** ** Requests *)

Lemma verify_total s m : msg_ok m -> is_Some (verifyBindingRequest s m).
Proof.
  intros [_ _ Hi]. unfold verifyBindingRequest. repeat case_match; try by eexists. apply Hi.
Qed.

Lemma good_resolveRole m : msg_ok m -> good (resolveRole m).
Proof.
  intros [Ht Ha _]. pose proof (attribute_readers_safe m 0 _ Ha Ht) as (_ & _ & _ & _ & _ & _ & Hc & Hd & _).
  destruct Hc as (tbc & Ec & _), Hd as (tbd & Ed & _).
  assert (Hsw : forall md, good (modify (fun s => s <| mode_ := md |>);; updateOrderedPairs;; mret false)).
  { intros md. apply good_seq; [apply good_modify; intros; frame|]. intros _.
    apply good_seq; [apply good_updateOrderedPairs | intros; apply good_ret]. }
  unfold resolveRole. apply good_seq; [apply good_gets|]. intros s. cbv [id]. rewrite Ec, Ed.
  repeat case_match; try apply good_ret; (apply good_lift || idtac); try apply Hsw; try apply good_ret.
  all: repeat case_match; try apply Hsw; apply good_ret.
Qed.

(** Equal addresses are link-local together. *)
Definition linkLocalNorm (n : option (Z * bytes * Z)) : bool :=
  match n with
  | Some (fam, a, _) => if fam =? AF_INET then isLinkLocal4 (s_addr a) else IN6_IS_ADDR_LINKLOCAL a
  | None => false
  end.

Lemma addrIsLinkLocal_norm sa : addrIsLinkLocal (Some sa) = linkLocalNorm (normalize sa).
Proof.
  destruct sa as [p a|p a|f]; simpl; [done| |done].
  destruct (IN6_IS_ADDR_V4MAPPED a) eqn:Em; simpl.
  - assert (IN6_IS_ADDR_LINKLOCAL a = false) as ->; [|done].
    unfold IN6_IS_ADDR_V4MAPPED in Em. apply bool_decide_eq_true in Em.
    unfold IN6_IS_ADDR_LINKLOCAL, at_. destruct a as [|b a]; [done|]. simpl in Em. injection Em as -> _. done.
  - by destruct (IN6_IS_ADDR_LINKLOCAL a).
Qed.

Lemma isEqual_linkLocal a b cp :
  isEqual a b cp = true -> addrIsLinkLocal (Some (addr a)) = addrIsLinkLocal (Some (addr b)).
Proof.
  unfold isEqual, addrEqual. rewrite !addrIsLinkLocal_norm. intros H.
  destruct (negb _); [done|]. destruct (normalize (addr a)) as [[[fa na] pa]|], (normalize (addr b)) as [[[fb nb] pb]|]; try done.
  simpl. destruct (Z.eqb_spec fa fb) as [->|]; [|done]. simpl in H. by case_bool_decide; subst.
Qed.

Lemma wp_findOrAddRemote src prio tr s :
  inv s -> addrIsLinkLocal (Some (addr src)) = false ->
  wp (findOrAddRemote env src prio tr)
    (fun r s' => keeps s s' /\ (remoteGen s' = remoteGen s /\ forall j, r = Some j ->
       exists c, candidates (remote_ s') !! j = Some c /\ addrIsLinkLocal (Some (addr (resolved c))) = false)) s.
Proof.
  intros Hs Hll. unfold findOrAddRemote. do 2 wp_step. cbv [id].
  destruct (list_find _ (candidates (remote_ s))) as [[j c]|] eqn:Ef.
  - apply wp_ret. split; [by apply keeps_refl|]. split; [done|]. intros j' [= <-].
    apply list_find_Some in Ef as (Ej & Ec & _). exists c. split; [done|].
    apply andb_prop in Ec as [Ec _]. by rewrite (isEqual_linkLocal _ _ _ Ec).
  - destruct (Nat.leb_spec MaxCandidates (length (candidates (remote_ s)))).
    { apply wp_ret. split; [by apply keeps_refl | done]. }
    destruct (getnameinfo env (addr src)) as [host serv].
    apply wp_bind, wp_modify, wp_ret. split.
    + eapply keeps_remote; [done | done | by apply inv_ufragR].
    + split; [done|]. intros j [= <-]. upd. cbn [candidates].
      eexists. split; [by rewrite lookup_app_r, Nat.sub_diag by lia | done].
Qed.

Lemma wp_findOrAddPair l r lc rc s :
  inv s -> gen l = 0%nat -> (idx l < length (candidates (local_ s)))%nat -> gen r = remoteGen s ->
  candidates (remote_ s) !! idx r = Some rc -> addrIsLinkLocal (Some (addr (resolved rc))) = false ->
  wp (findOrAddPair l r lc rc) (fun o s' => keeps s s' /\ in_range (length (pairs_ s')) o) s.
Proof.
  intros Hs Hl0 Hl Hr0 Hr Hll. unfold findOrAddPair. do 2 wp_step. cbv [id].
  destruct (list_find _ (pairs_ s)) as [[i p]|] eqn:Ef.
  { apply wp_ret. split; [by apply keeps_refl|]. intros j [= <-].
    apply list_find_Some in Ef as (Ei & _). by eapply lookup_lt_Some. }
  destruct (Nat.leb_spec MaxCandidatePairs (length (pairs_ s))) as [|Hroom].
  { apply wp_ret. split; [by apply keeps_refl | done]. }
  apply wp_bind, wp_modify, wp_bind, wp_modify, wp_ret. upd.
  set (p := updatePriority _ _ _ _).
  destruct Hs as [[H1 H2 H3 H4 H5 H6 H7 H8 H9 H10] Ho]. split; [split|].
  - constructor; [constructor|]; upd; rewrite ?length_app; try done.
    + apply Forall_app. rewrite Forall_singleton. split; [done|]. split; [done|]. split; [done|].
      split; [done|]. by exists rc.
    + rewrite fmap_app. apply NoDup_app. split; [done|]. split; [|apply NoDup_singleton].
      intros x Hx Hx'. apply list_elem_of_singleton in Hx' as ->.
      apply list_elem_of_fmap in Hx as (q & E & Hq). apply list_find_None in Ef.
      rewrite Forall_forall in Ef. apply (Ef q Hq). by injection E.
    + simpl. lia.
    + eapply Forall_impl; [done|]. intros e [E1 E2 E3]. constructor; [|done..].
      intros i Hi. destruct (E1 i Hi). split; [lia|done].
    + intros i Hi. specialize (H7 i Hi). lia.
    + intros i Hi. specialize (H8 i Hi). lia.
  - constructor; upd; rewrite ?length_app; lia.
  - intros i [= <-]. upd. rewrite length_app. simpl. lia.
Qed.

Lemma wp_findOrCreatePair src prio tr s :
  inv s -> wp (findOrCreatePair env src prio tr) (fun o s' => keeps s s' /\ in_range (length (pairs_ s')) o) s.
Proof.
  intros Hs. unfold findOrCreatePair.
  assert (Hnone : forall s', keeps s s' ->
    wp (mret None : M (option nat)) (fun o s2 => keeps s s2 /\ in_range (length (pairs_ s2)) o) s').
  { intros s' Hk. by apply wp_ret. }
  destruct (addrIsLinkLocal _) eqn:Ell; [by apply Hnone, keeps_refl|].
  apply wp_bind. eapply wp_mono; [by apply wp_findOrAddRemote|]. intros [j|] s1 (Hk & Hg & Hj); [|by apply Hnone].
  destruct (Hj j eq_refl) as (rc & Ej & Hll). destruct Hk as [Hs1 Hgr]. do 2 wp_step.
  apply wp_bind. exists rc, s1. split.
  { unfold derefRemote, remoteCand. simpl. by rewrite decide_True, Ej. }
  do 2 wp_step. cbv [id]. destruct (list_find _ (candidates (local_ s1))) as [[i lc]|] eqn:Ef; [|by apply Hnone].
  apply list_find_Some in Ef as (Ei & _). eapply wp_mono.
  - apply wp_findOrAddPair; try done. simpl. by eapply lookup_lt_Some.
  - intros o s2 [Hk2 Ho]. split; [|done]. eapply keeps_trans; [by split | done].
Qed.

Lemma same_nomination nom : same_pair (applyNomination nom).
Proof. intros p. unfold applyNomination. by repeat case_match. Qed.

Lemma wp_triggerCheck i s :
  inv s -> (i < length (pairs_ s))%nat -> wp (triggerCheck i) (fun _ => keeps s) s.
Proof.
  intros Hs Hi. unfold triggerCheck. apply wp_update; [by apply keeps_setPair|]. intros Hs1.
  set (s1 := s <| pairs_ ::= _ |>) in *.
  assert (Hi1 : (i < length (pairs_ s1))%nat) by (unfold s1; upd; by rewrite length_alter).
  apply wp_bind, wp_findEntry.
  - intros k e Hk _. apply wp_rearm; [done|]. by eapply lookup_lt_Some.
  - intros Hn. do 2 wp_step. apply wp_when; [|by intros _; apply keeps_refl]. intros Hl.
    apply Nat.ltb_lt in Hl. by apply wp_addCheck.
Qed.

Lemma wp_handleBindingRequest m src tr s :
  msg_ok m -> inv s -> wp (handleBindingRequest env m src tr) (fun _ => keeps s) s.
Proof.
  intros Hm Hs. unfold handleBindingRequest. do 2 wp_step. cbv [id].
  destruct (isOwnRelay _ _); [by apply good_skip|].
  pose proof (mo_tid m Hm) as [Ht _].
  destruct (verify_total s m Hm) as [ok Eok]. apply wp_bind, (wp_lift _ _ _ ok); [done|].
  destruct ok; simpl; [|by apply wp_sendBindingResponse].
  apply wp_then; [by apply good_resolveRole|]. intros [|] s1 [Hs1 _]; [by apply wp_sendBindingResponse|].
  pose proof (attribute_readers_safe m 0 _ (mo_attrs m Hm) (mo_tid m Hm)) as (Hp & Hn & _).
  destruct Hp as (prio & Ep & _), Hn as (nom & En & _). rewrite Ep, En.
  apply wp_bind, (wp_lift _ _ _ prio); [done|]. apply wp_bind, (wp_lift _ _ _ nom); [done|].
  eapply wp_seq; [by apply wp_findOrCreatePair|]. intros [i|] s2 [Hs2 _] Hi; [|by apply wp_sendBindingResponse].
  specialize (Hi i eq_refl).
  apply wp_then; [apply good_when; [intros _; apply good_setPair, same_nomination | done]|].
  intros _ s3 [Hs3 [Hg3 _]]. apply wp_then; [by apply wp_sendBindingResponse|].
  intros _ s4 [Hs4 [Hg4 _]]. apply wp_bind, wp_getPair; [done | lia |]. intros p _ _. do 2 wp_step.
  apply wp_when; [|by intros _; apply keeps_refl]. intros _. apply wp_triggerCheck; [done | lia].
Qed.

(** ** Responses to our checks *)

Lemma imap_pair_range {A} (l : list A) : Forall (fun ip => (ip.1 < length l)%nat) (imap pair l).
Proof.
  apply Forall_lookup. intros k [i p] H. rewrite list_lookup_imap in H.
  destruct (l !! k) eqn:E; [|done]. simplify_eq/=. by eapply lookup_lt_Some.
Qed.

Lemma bestPair_range ps : best_range (length ps) (bestPair ps).
Proof.
  unfold bestPair. pose proof (imap_pair_range ps) as H.
  assert (H0 : best_range (length ps) None) by done.
  revert H0. generalize (None : option (nat * Z)).
  induction H as [|[i p] l Hi Hl IH]; intros best Hb; simpl; [done|].
  apply IH. case_bool_decide; [by apply better_range | done].
Qed.

Lemma keeps_controllingSelect s : inv s -> keeps s (controllingSelect s).
Proof.
  intros Hs. unfold controllingSelect.
  destruct (bestPair (pairs_ s)) as [[b prio]|] eqn:Eb; [|by apply keeps_refl].
  apply bestPair_range in Eb.
  assert (H : keeps s (s <| nominationValue_ ::= (fun v => u32 (v + 1)) |> <| selectedPair_ := Some b |>)).
  { eapply keeps_trans; [|apply keeps_selected]; [frame | | by upd; intros j [= <-]].
    eapply inv_frame; try done. }
  destruct (selectedPair_ s) as [sel|]; [|done]. destruct (_ && _); [done | by apply keeps_refl].
Qed.

Lemma wp_checkSucceeded i k s :
  inv s -> (i < length (pairs_ s))%nat -> (k < length (entries_ s))%nat ->
  wp (checkSucceeded env i k) (fun _ => keeps s) s.
Proof.
  intros Hs Hi Hk. unfold checkSucceeded. do 2 wp_step.
  apply wp_then; [apply good_setPair; [|done]; intros p; by case_match|].
  intros _ s1 [Hs1 [Hp1 He1]]. do 2 wp_step.
  apply wp_then; [apply good_when; [intros _; apply good_modify; apply keeps_controllingSelect | done]|].
  intros _ s2 [Hs2 [Hp2 He2]]. apply wp_bind, wp_getPair; [done | lia |]. intros p _ _.
  apply wp_then.
  { apply wp_when; [intros _; apply wp_modify, keeps_nominated; [done|]; intros j [= <-]; lia |
      by intros _; apply keeps_refl]. }
  intros _ s3 [Hs3 [Hp3 He3]]. apply wp_armKeepalive; [done | lia].
Qed.

Lemma good_checkFailed e k : good (checkFailed e k).
Proof.
  unfold checkFailed. apply good_seq; [by apply good_setEntry|]. intros _.
  apply good_seq; [destruct (e_pair e); [by apply good_setPair | apply good_skip]|]. intros _.
  apply good_seq; [apply good_when; intros _; apply good_armNextFrozenPair|]. intros _.
  apply good_updateState.
Qed.

Lemma wp_handleBindingResponse m src k s :
  msg_ok m -> inv s -> (k < length (entries_ s))%nat ->
  wp (handleBindingResponse env m src k) (fun _ => keeps s) s.
Proof.
  intros Hm Hs Hk. unfold handleBindingResponse. apply wp_bind, wp_getEntry; [done..|]. intros e He [Hp _ _].
  destruct (negb _); [by apply good_skip|]. case_bool_decide.
  - pose proof (attribute_readers_safe m 0 _ (mo_attrs m Hm) (mo_tid m Hm))
      as (_ & _ & _ & _ & _ & _ & _ & _ & (ec & Eec & _) & _).
    apply wp_bind, (wp_lift _ _ _ ec); [done|]. destruct (_ =? 487); [|by apply good_checkFailed].
    do 2 wp_step. apply wp_when; [|by intros _; apply keeps_refl]. intros _.
    apply wp_then; [apply wp_modify; frame|]. intros _ s1 [Hs1 [_ He1]].
    apply wp_then; [by apply good_updateOrderedPairs|]. intros _ s2 [Hs2 [_ He2]].
    apply wp_when; [|by intros _; apply keeps_refl]. intros _. apply wp_rearm; [done | lia].
  - destruct (e_pair e) as [i|]; [|by apply good_skip]. destruct (Hp i eq_refl) as [Hi _].
    apply wp_bind, wp_getPair; [done..|]. intros p _ _. destruct (_ && _); [by apply good_skip|].
    by apply wp_checkSucceeded.
Qed.

Lemma good_serverEntryDone k st : good (serverEntryDone k st).
Proof.
  unfold serverEntryDone. apply good_seq; [by apply good_setEntry|]. intros _.
  apply good_seq; [apply good_modify; intros; frame|]. intros _. apply good_checkGatheringComplete.
Qed.

Lemma wp_handleServerReflexiveResponse m src k s :
  msg_ok m -> inv s -> (k < length (entries_ s))%nat ->
  wp (handleServerReflexiveResponse env m src k) (fun _ => keeps s) s.
Proof.
  intros Hm Hs Hk. unfold handleServerReflexiveResponse. apply wp_bind, wp_getEntry; [done..|]. intros e He _.
  destruct (_ || _); [by apply good_skip|]. case_bool_decide; [by apply good_serverEntryDone|].
  pose proof (attribute_readers_safe m AttrType.XorMappedAddress _ (mo_attrs m Hm) (mo_tid m Hm))
    as (_ & _ & _ & _ & _ & _ & _ & _ & _ & (mp & Emp & _) & (xr & Exr & _)).
  apply wp_bind, (wp_lift _ _ _ xr); [done|].
  apply wp_read; [destruct xr; [by apply wp_ret | by apply (wp_lift _ _ _ mp)]|].
  intros [a|]; [|by apply good_serverEntryDone].
  destruct (getnameinfo env (addr a)) as [host serv]. revert s Hs Hk He.
  intros s Hs _ _. revert s Hs. apply good_seq; [apply good_addLocalCandidate|]. intros _.
  apply good_seq; [by apply good_emit|]. intros _. apply good_serverEntryDone.
Qed.

(** ** Demultiplexing *)

Lemma wp_handleStunMessage m src tr s :
  msg_ok m -> inv s -> wp (handleStunMessage env m src tr) (fun _ => keeps s) s.
Proof.
  intros Hm Hs. unfold handleStunMessage. destruct (negb _); [by apply good_skip|].
  case_bool_decide; [by apply wp_handleBindingRequest|].
  destruct (isResponseType (cls m)); [|by apply good_skip]. do 2 wp_step. cbv [id].
  destruct (list_find _ (entries_ s)) as [[k e]|] eqn:Ef; [|by apply good_skip].
  apply list_find_Some in Ef as (Ek & _). apply lookup_lt_Some in Ek.
  case_bool_decide; [by apply wp_handleServerReflexiveResponse | by apply wp_handleBindingResponse].
Qed.

Lemma wp_selectBySource src l s :
  inv s -> Forall (fun i => (i < length (pairs_ s))%nat) l -> wp (selectBySource src l) (fun _ => keeps s) s.
Proof.
  intros Hs Hl. induction Hl as [|i l Hi Hl IH]; cbn [selectBySource]; [by apply good_skip|].
  apply wp_bind, wp_getPair; [done..|]. intros p _ Hp. case_bool_decide; [|done].
  apply wp_bind, wp_derefRemote; [done|]. intros rc _. destruct (isEqual _ _ _); [|done].
  apply wp_modify, keeps_selected; [done | by intros j [= <-]].
Qed.

Lemma good_emitRecv data : good (emitRecv data).
Proof.
  unfold emitRecv. apply good_seq; [apply good_modify; intros; frame|]. intros _. by apply good_emit.
Qed.

Lemma good_deliverData data src : good (deliverData data src).
Proof.
  intros s Hs. unfold deliverData. do 2 wp_step.
  apply wp_then; [apply wp_selectBySource; [done | by apply seq_range]|].
  intros _ s1 [Hs1 _]. by apply good_emitRecv.
Qed.

Lemma decoded_ok data :
  bytes_ok data -> exists ok m, decode emptyMessage data = Some (ok, m) /\ (ok = true -> msg_ok m).
Proof.
  intros Hb. destruct (decode_total emptyMessage data Hb) as (ok & m & E & H). exists ok, m.
  split; [done|]. intros Hok. destruct (H Hok) as (_ & Ht & Ha & Hi & _). by constructor.
Qed.

Lemma wp_handleInboundUdp data src tr s :
  bytes_ok data -> inv s -> wp (handleInboundUdp env data src tr) (fun _ => keeps s) s.
Proof.
  intros Hb Hs. unfold handleInboundUdp. destruct (_ =? 0)%nat; [by apply good_skip|].
  destruct (isMessage_total data Hb) as (isMsg & Em & _).
  apply wp_bind, (wp_lift _ _ _ isMsg); [done|]. do 2 wp_step. destruct isMsg.
  - destruct (decoded_ok data Hb) as (ok & m & Ed & Hok).
    apply wp_bind, (wp_lift _ _ _ (ok, m)); [done|]. destruct ok; simpl; [|by apply good_skip].
    case_match; [by apply wp_handleStunMessage; [apply Hok|]|].
    destruct (turnServerEntry _ _); [by apply good_emit | by apply good_skip].
  - destruct (isChannelData_total data) as (isCD & Ecd & _).
    apply wp_bind, (wp_lift _ _ _ isCD); [done|].
    destruct (if isCD then _ else _); [by apply good_emit | by apply good_deliverData].
Qed.

Lemma wp_handleInboundTcpPacket data src s :
  bytes_ok data -> inv s -> wp (handleInboundTcpPacket env data src) (fun _ => keeps s) s.
Proof.
  intros Hb Hs. unfold handleInboundTcpPacket.
  destruct (isMessage_total data Hb) as (isMsg & Em & _).
  apply wp_bind, (wp_lift _ _ _ isMsg); [done|]. destruct isMsg; [|by apply good_emitRecv].
  destruct (decoded_ok data Hb) as (ok & m & Ed & Hok).
  apply wp_bind, (wp_lift _ _ _ (ok, m)); [done|]. destruct ok; simpl; [|by apply good_skip].
  case_match; [by apply wp_handleStunMessage; [apply Hok|] | by apply good_skip].
Qed.

End Env.
