(* ===== verification/AgentRun.v ===== *)
(** * Every entry point of the agent runs to its end

    The timers, gathering and the calls of the application keep the invariant of [AgentInv];
    [Event] and [step] put all the entry points together, and [reach] is the set of states an
    agent can get into.  [allowed] says what each event asks of the caller: received data are
    bytes, texts have a size, and the remote description is set before any pair exists.  One
    event does not get to its end, the timer pass that [growsWhileIterating] describes. *)

From S2P Require Import Prelude.
From S2P Require Import Bytes.
From S2P Require Import Crypto.
From S2P Require Import Addr.
From S2P Require Import StunMessage.
From S2P Require Import CText.
From S2P Require Import Candidate.
From S2P Require Import CandidatePair.
From S2P Require Import Sdp.
From S2P Require Import PairingStrategy.
From S2P Require Import AgentState.
From S2P Require Import AgentPairs.
From S2P Require Import AgentStun.
From S2P Require Import AgentLoop.
From S2P Require Import AgentGather.
From S2P Require Import AgentInv.
From S2P Require Import AgentSafe.
From S2P Require Import AgentSteps.
Open Scope Z_scope.
Open Scope c_scope.

(** ** Timers *)

Lemma good_driveGather : good driveGather.
Proof.
  unfold driveGather. apply good_seq; [apply good_modify; intros s Hs; case_match; [frame | by apply keeps_refl]|].
  intros _ s Hs. do 2 wp_step. apply good_when; [|done]. intros _.
  apply good_seq; [apply good_modify; intros; frame|]. intros _. apply good_checkGatheringComplete.
Qed.

Lemma good_retryConnect : good retryConnect.
Proof.
  intros s Hs. unfold retryConnect. do 2 wp_step. cbv [id]. apply good_when; [|done]. intros _.
  apply good_seq; [apply good_modify; intros; frame|]. intros _.
  destruct (tcpTurnAllocated s) as [[k tv]|]; [by apply good_emit | apply good_skip].
Qed.

Lemma good_retryDataConnect : good retryDataConnect.
Proof.
  intros s Hs. unfold retryDataConnect. do 2 wp_step. cbv [id]. apply good_when; [|done]. intros _.
  apply good_seq; [apply good_modify; intros; frame|]. intros _.
  destruct (tcpTurnAllocated s) as [[k tv]|]; [|apply good_skip]. apply good_when. intros _.
  apply good_seq; [by apply good_emit|]. intros _. apply good_modify. intros; frame.
Qed.

Lemma good_connectAfterPermission : good connectAfterPermission.
Proof.
  intros s Hs. unfold connectAfterPermission. do 2 wp_step. cbv [id].
  destruct (tcpTurnAllocated s) as [[k tv]|]; [|by apply good_skip]. apply good_when; [|done]. intros _.
  apply good_seq; [by apply good_emit|]. intros _. apply good_modify. intros; frame.
Qed.

Lemma wp_connectLoop k tv l s :
  inv s -> Forall (fun i => (i < length (pairs_ s))%nat) l -> wp (connectLoop k tv l) (fun _ => keeps s) s.
Proof.
  intros Hs Hl. induction Hl as [|i l Hi Hl IH]; cbn [connectLoop]; [by apply good_skip|].
  apply wp_bind, wp_getPair; [done..|]. intros p _ Hp. apply wp_bind, wp_derefRemote; [done|]. intros rc _.
  destruct (candIsTcpRelay rc); [|done]. clear IH. destruct (tv_hasPermission _ _); revert s Hs Hi Hl Hp.
  - intros s Hs _ _ _. revert s Hs. apply good_seq; [by apply good_emit|]. intros _.
    apply good_seq; [by apply good_emit|]. intros _. apply good_modify. intros; frame.
  - intros s Hs _ _ _. apply good_modify; [|done]. intros; frame.
Qed.

Lemma good_deferredConnect : good deferredConnect.
Proof.
  intros s Hs. unfold deferredConnect. do 2 wp_step. cbv [id].
  destruct (tcpTurnAllocated s) as [[k tv]|]; [|by apply good_skip].
  apply wp_when; [|by intros _; apply keeps_refl]. intros _. apply wp_connectLoop; [done|].
  by apply ordered_range.
Qed.

Lemma good_driveConnect : good driveConnect.
Proof.
  unfold driveConnect. apply good_seq; [apply good_retryConnect|]. intros _.
  apply good_seq; [apply good_retryDataConnect|]. intros _.
  apply good_seq; [apply good_connectAfterPermission|]. intros _. apply good_deferredConnect.
Qed.

Section Env.
Context (env : Env) (Hrng : rng_ok env).

Lemma good_entryTimedOut e k : good (entryTimedOut e k).
Proof.
  unfold entryTimedOut. apply good_seq; [by apply good_setEntry|]. intros _.
  apply good_seq.
  { apply good_when. intros _. apply good_seq; [apply good_modify; intros; frame|]. intros _.
    apply good_checkGatheringComplete. }
  intros _. apply good_seq; [destruct (e_pair e); [by apply good_setPair | apply good_skip]|]. intros _.
  apply good_when. intros _. apply good_armNextFrozenPair.
Qed.

Lemma good_resendServerRequest e : length (e_transactionID e) = 12%nat -> good (resendServerRequest env e).
Proof.
  intros Ht. unfold resendServerRequest. apply good_seq; [apply good_randomBytes|]. intros _.
  destruct (encode_sized (mkMessage Method.Binding Request (e_transactionID e) [] []) None) as [m E];
    [done | constructor |]. rewrite E. apply good_lift.
  apply good_seq; [apply good_sendUdp|]. intros _. apply good_skip.
Qed.

Lemma wp_drivePending e k s :
  inv s -> (k < length (entries_ s))%nat -> entries_ s !! k = Some e ->
  wp (drivePending env e k) (fun _ => keeps s) s.
Proof.
  intros Hs Hk He. pose proof (entry_range s k e Hs He) as Hr.
  assert (Ht : length (e_transactionID e) = 12%nat).
  { eapply (Forall_lookup_1 _ _ _ _ (iv_entries s (iv_core s Hs))); done. }
  unfold drivePending. do 2 wp_step.
  apply wp_read; [by apply wp_pairIsTcp|]. intros isTcp.
  apply wp_read; [by apply wp_pairIsTurnTcpRelay|]. intros relay. do 4 wp_step.
  destruct (_ && _).
  { revert s Hs Hk He Hr. intros s Hs _ _ _.
    apply good_seq; [by apply good_setEntry | intros _; apply good_ret | done]. }
  case_match.
  { apply good_seq; [apply good_entryTimedOut | intros _; apply good_ret | done]. }
  apply wp_then; [case_bool_decide; [by apply good_resendServerRequest | by apply wp_sendStunBinding]|].
  intros _ s1 [Hs1 _]. revert s1 Hs1. apply good_seq; [by apply good_setEntry|]. intros _.
  apply good_seq; [by apply good_setEntry|]. intros _. apply good_ret.
Qed.

Lemma wp_driveKeepalive e k s :
  inv s -> (k < length (entries_ s))%nat -> entries_ s !! k = Some e ->
  wp (driveKeepalive env e k) (fun _ => keeps s) s.
Proof.
  intros Hs Hk He. pose proof (entry_range s k e Hs He) as Hr. unfold driveKeepalive. do 2 wp_step.
  apply wp_read.
  { destruct (e_pair e) as [i|]; [|by apply wp_ret]. apply wp_bind, wp_getPair; [done | by apply Hr|].
    intros p _ _. by apply wp_ret. }
  intros [|].
  { apply good_seq; [destruct (e_pair e); [by apply good_setPair | apply good_skip]| |done]. intros _.
    apply good_seq; [by apply good_setEntry | intros _; apply good_ret]. }
  case_match; [|by apply good_ret].
  apply wp_then; [by apply wp_sendStunBinding|]. intros _ s1 [Hs1 [_ Hg]].
  apply wp_then; [apply wp_armKeepalive; [done | lia]|]. intros _ s2 [Hs2 _]. by apply good_ret.
Qed.

Lemma wp_driveTurn k s : inv s -> (k < length (entries_ s))%nat -> wp (driveTurn env k) (fun _ => keeps s) s.
Proof.
  intros Hs Hk. unfold driveTurn. apply wp_bind, wp_getEntry; [done..|]. intros e _ _. do 2 wp_step.
  destruct (e_turn e); [|by apply good_skip]. apply good_when; [|done]. intros _. by apply good_setEntry.
Qed.

Lemma wp_driveEntry k s : inv s -> (k < length (entries_ s))%nat -> wp (driveEntry env k) (fun _ => keeps s) s.
Proof.
  intros Hs Hk. unfold driveEntry. apply wp_bind, wp_getEntry; [done..|]. intros e He _. do 2 wp_step.
  apply wp_then.
  { destruct (_ && _); [by apply wp_drivePending|].
    case_bool_decide; [by apply wp_driveKeepalive | by apply good_ret]. }
  intros b s1 [Hs1 [_ Hg]]. apply wp_when; [|by intros _; apply keeps_refl]. intros _.
  apply wp_driveTurn; [done | lia].
Qed.

(** The loop over the entries runs to its end, or an iteration of it appends an entry. *)
Lemma driveLoop_cases n l s :
  inv s -> length (entries_ s) = n -> Forall (fun k => (k < n)%nat) l ->
  let body k := driveEntry env k;; n' ← gets (fun s => length (entries_ s)); if (n' =? n)%nat then skip else lift None in
  ((exists pre k post s1 s2, l = pre ++ k :: post /\ forM pre (driveEntry env) s = Some (tt, s1) /\
      driveEntry env k s1 = Some (tt, s2) /\ length (entries_ s2) <> n) /\ forM l body s = None) \/
  ((forall pre k post s1 s2, l = pre ++ k :: post -> forM pre (driveEntry env) s = Some (tt, s1) ->
      driveEntry env k s1 = Some (tt, s2) -> length (entries_ s2) = n) /\
   wp (forM l body) (fun _ => keeps s) s).
Proof.
  intros Hs Hn Hl body. revert s Hs Hn. induction Hl as [|k l Hk Hl IH]; intros s Hs Hn.
  { right. split; [by intros [|]|]. apply wp_ret. by apply keeps_refl. }
  destruct (wp_driveEntry k s Hs) as ([] & s1 & E1 & K1); [by rewrite Hn|]. cbn [forM].
  assert (Eb : body k s = if (length (entries_ s1) =? n)%nat then Some (tt, s1) else None).
  { unfold body. rewrite (run_bind _ _ _ _ _ E1), run_gets. by destruct (_ =? _)%nat. }
  destruct (Nat.eqb_spec (length (entries_ s1)) n) as [Hn1|Hn1].
  2:{ left. split; [by exists [], k, l, s, s1|]. unfold mbind, SM_bind. by rewrite Eb. }
  destruct (IH s1 (proj1 K1) Hn1) as [[(pre & j & post & t1 & t2 & -> & Ep & Ej & Hne) Enone]|[Hno Hwp]].
  - left. split; [|by rewrite (run_bind _ _ _ _ _ Eb)].
    exists (k :: pre), j, post, t1, t2. split; [done|]. split; [cbn [forM]; by rewrite (run_bind _ _ _ _ _ E1)|done].
  - right. split.
    + intros [|k' pre] j post t1 t2 El Ep Ej; injection El as <- ->.
      * cbn in Ep. injection Ep as <-. congruence.
      * cbn [forM] in Ep. rewrite (run_bind _ _ _ _ _ E1) in Ep. by eapply Hno.
    + destruct Hwp as (u & s' & E' & K'). exists u, s'. rewrite (run_bind _ _ _ _ _ Eb).
      split; [done|]. by eapply keeps_trans.
Qed.

Lemma wp_shouldNominate i s :
  inv s -> (i < length (pairs_ s))%nat -> wp (shouldNominate i) (fun _ s' => s' = s) s.
Proof.
  intros Hs Hi. unfold shouldNominate. do 2 wp_step. apply wp_bind, wp_getPair; [done..|]. intros p _ _.
  apply wp_read; [by apply wp_isNominatable|]. intros ready.
  apply wp_read; [by apply wp_pairIsTcpRelay|]. intros relay. destruct (_ && _); [by apply wp_ret|].
  unfold findEntry. do 2 wp_step. by apply wp_ret.
Qed.

Lemma good_driveNomination : good driveNomination.
Proof.
  intros s Hs. unfold driveNomination. do 2 wp_step. cbv [id].
  destruct (selectedPair_ s) as [i|] eqn:Ei; [|by apply good_skip].
  pose proof (inv_sel s Hs i Ei) as Hi. apply wp_bind, wp_getPair; [done..|]. intros p _ _.
  destruct (_ && _); [|by apply good_skip].
  apply wp_read; [by apply wp_shouldNominate|]. intros go. apply wp_when; [|by intros _; apply keeps_refl].
  intros _. apply wp_then; [by apply good_setPair|]. intros _ s1 [Hs1 _].
  apply wp_bind, wp_findEntry; [|by intros _; apply good_skip].
  intros k e Hk _. apply wp_rearm; [done | by eapply lookup_lt_Some].
Qed.

Lemma good_freezeOthers : good freezeOthers.
Proof.
  apply good_modify. intros s Hs. destruct (nominatedPair_ s) as [j|]; [|by apply keeps_refl].
  set (f := fun i p => _). split; [|constructor; upd; rewrite ?length_imap; lia].
  apply inv_pairs_map; [done | apply length_imap |]. apply list_eq. intros i.
  rewrite !list_lookup_fmap, list_lookup_imap. destruct (pairs_ s !! i) as [p|]; simpl; [|done].
  unfold f. by destruct (_ && _).
Qed.

Lemma good_afterEntries : good (driveNomination;; freezeOthers;; updateState).
Proof.
  apply good_seq; [apply good_driveNomination|]. intros _.
  apply good_seq; [apply good_freezeOthers|]. intros _. apply good_updateState.
Qed.

Lemma good_beforeEntries : good (flushUdpControlQueue env;; driveGather;; driveConnect).
Proof.
  apply good_seq; [apply good_flushUdpControlQueue|]. intros _.
  apply good_seq; [apply good_driveGather|]. intros _. apply good_driveConnect.
Qed.

(** The timer pass runs to its end, or appends to the deque it iterates over. *)
Lemma onBookkeeping_cases s :
  inv s ->
  (growsWhileIterating env s /\ onBookkeeping env s = None) \/
  (~ growsWhileIterating env s /\ wp (onBookkeeping env) (fun _ => keeps s) s).
Proof.
  intros Hs. destruct (good_beforeEntries s Hs) as ([] & s0 & E0 & K0).
  assert (Er : onBookkeeping env s = (driveEntries env;; (driveNomination;; freezeOthers;; updateState)) s0).
  { unfold onBookkeeping. unfold mbind, SM_bind in E0 |- *.
    destruct (flushUdpControlQueue env s) as [[[] t]|]; [|done].
    destruct (driveGather t) as [[[] t']|]; [|done]. by rewrite E0. }
  destruct (driveLoop_cases (length (entries_ s0)) (seq 0 (length (entries_ s0))) s0 (proj1 K0) eq_refl)
    as [[(pre & k & post & s1 & s2 & El & Ep & Ek & Hne) Enone]|[Hno Hwp]];
    [apply Forall_forall; intros k [_ Hk]%elem_of_seq; exact Hk| |].
  - left. split; [by exists s0, pre, k, post, s1, s2|]. rewrite Er. unfold driveEntries.
    unfold mbind at 1, SM_bind at 1. rewrite run_gets. by rewrite Enone.
  - right. split.
    + intros (s0' & pre & k & post & s1 & s2 & E0' & El & Ep & Ek & Hne). rewrite E0 in E0'. injection E0' as <-.
      apply Hne. by eapply Hno.
    + destruct Hwp as ([] & s1 & E1 & K1).
      destruct (good_afterEntries s1 (proj1 K1)) as ([] & s2 & E2 & K2).
      exists tt, s2. split; [|exact (keeps_trans _ _ _ K0 (keeps_trans _ _ _ K1 K2))].
      rewrite Er. rewrite (run_bind _ _ s0 tt s1); [exact E2|]. unfold driveEntries. by rewrite run_gets.
Qed.

(** ** Calls of the application *)

Lemma good_publish c : good (publishCandidate c).
Proof. unfold publishCandidate. apply good_seq; [apply good_addLocalCandidate|]. intros _. by apply good_emit. Qed.

Lemma good_dialPassive rc : good (dialPassive env rc).
Proof.
  unfold dialPassive, addRemotePassiveTcpCandidate. apply good_when. intros _.
  destruct (tcpDial env rc) as [c|]; [apply good_publish | apply good_skip].
Qed.

Lemma getlines_length d acc s : Forall (fun l => (length l <= length acc + length s)%nat) (getlines d acc s).
Proof.
  revert acc. induction s as [|c s IH]; intros acc; simpl.
  - case_match; [constructor|]. constructor; [lia | constructor].
  - case_bool_decide.
    + constructor; [lia|]. eapply Forall_impl; [apply (IH [])|]. simpl. lia.
    + eapply Forall_impl; [apply (IH (acc ++ [c]))|]. simpl. intros l. rewrite length_app. simpl. lia.
Qed.

Lemma parse_ufrag d sdp ok d' :
  Sdp.parse (numberOutOfRange env) (inetPton4 env) (inetPton6 env) (getaddrinfo env) d sdp = (ok, d') ->
  (length (iceUfrag d') <= Nat.max (length (iceUfrag d)) (length sdp))%nat.
Proof.
  unfold Sdp.parse. intros [= _ <-]. cbn [sortCandidates iceUfrag].
  assert (H : Forall (fun l => (length l <= length sdp)%nat) (lines LF sdp)) by apply (getlines_length LF []).
  revert d. induction H as [|l ls Hl Hls IH]; intros d; simpl; [lia|].
  etransitivity; [apply IH|].
  assert ((length (iceUfrag (parseLine (numberOutOfRange env) (inetPton4 env) (inetPton6 env) (getaddrinfo env) d l))
           <= Nat.max (length (iceUfrag d)) (length l))%nat); [|lia].
  unfold parseLine. set (l' := stripCR l). assert (Hl' : (length l' <= length l)%nat).
  { subst l'. unfold stripCR. destruct (rev l) as [|c r] eqn:E; [done|]. case_bool_decide; [|done].
    apply (f_equal length) in E. rewrite length_rev in E. simpl in E. rewrite length_rev. lia. }
  repeat case_match; cbn [iceUfrag]; rewrite ?length_drop; try lia.
  unfold addCandidateFromSdp. repeat case_match; simpl; lia.
Qed.

Lemma wp_setRemoteDescription sdp s :
  inv s -> pairs_ s = [] -> Z.of_nat (length sdp) < 2 ^ 32 ->
  wp (setRemoteDescription env sdp) (fun _ => keeps s) s.
Proof.
  intros Hs Hp Hl. unfold setRemoteDescription.
  destruct (Sdp.parse _ _ _ _ _ _) as [ok d] eqn:Ed. destruct ok; simpl; [|by apply good_ret].
  apply parse_ufrag in Ed. cbn [iceUfrag newDescription length] in Ed.
  set (md := fun m => _). apply wp_update.
  { destruct Hs as [[H1 H2 H3 H4 H5 H6 H7 H8 H9 H10] Ho]. split; [|by constructor].
    constructor; [constructor|]; upd; rewrite ?Hp in *; try done. destruct H10. split; [done|lia]. }
  intros Hs1. apply wp_then; [by apply good_forM; [intros; apply good_dialPassive|]|].
  intros _ s2 [Hs2 _]. do 2 wp_step. cbv [id]. apply wp_then; [|intros _ s3 [Hs3 _]; by apply good_ret].
  apply wp_when; [|by intros _; apply keeps_refl]. intros Hg. apply bool_decide_eq_true in Hg.
  apply (wp_seq _ _ _ (fun _ s' => aside s' = aside s2)).
  { apply wp_pres; [apply pres_formPairs | by apply good_formPairs]. }
  intros _ s3 [Hs3 _] E. do 4 wp_step. apply wp_when; [|by intros _; apply keeps_refl]. intros _.
  apply wp_lastTransition; [done|]. assert (state_ s3 = state_ s2) as -> by (unfold aside in E; congruence).
  rewrite Hg. constructor.
Qed.

Lemma wp_addRemoteCandidate sdp s : inv s -> wp (addRemoteCandidate env sdp) (fun _ => keeps s) s.
Proof.
  intros Hs. unfold addRemoteCandidate. do 2 wp_step.
  destruct (addCandidateFromSdp _ _ _ _ _ _) as [ok d] eqn:Ed. destruct ok; simpl; [|by apply good_ret].
  assert (Hd : iceUfrag d = iceUfrag (remote_ s) /\ exists c, candidates d = candidates (remote_ s) ++ [c]).
  { unfold addCandidateFromSdp in Ed. case_match; [done|]. destruct (Candidate.parse _ _ _ _ _ _) as [b c].
    destruct b; [|done]. simplify_eq. split; [done|]. by exists c. }
  destruct Hd as (Eu & c & Ec). pose proof (inv_ufragR s Hs) as Hu. rewrite <- Eu in Hu.
  assert (Hk : keeps s (s <| remote_ := d |>)) by by eapply keeps_remote.
  apply wp_bind, wp_modify. rewrite Ec, last_snoc. case_bool_decide.
  { apply wp_bind, wp_modify. apply wp_ret. rewrite length_app, Nat.add_sub, take_app_length.
    apply (keeps_remote s _ []); [done | by rewrite app_nil_r | done]. }
  eapply wp_mono; [|intros a s' H'; eapply keeps_trans; [exact Hk | exact H']].
  apply wp_then; [apply good_dialPassive, Hk|]. intros _ s1 [Hs1 _]. do 4 wp_step.
  apply wp_then; [|intros _ s3 [Hs3 _]; by apply good_ret].
  destruct (running (state_ s1)); [by apply good_formPairs|].
  apply wp_when; [|by intros _; apply keeps_refl]. intros Hg. apply andb_prop in Hg as [Hg _].
  apply bool_decide_eq_true in Hg. by apply wp_formThenConnect.
Qed.

Lemma good_setRemoteGatheringDone : good setRemoteGatheringDone.
Proof.
  unfold setRemoteGatheringDone. apply good_seq; [|intros _; apply good_ret]. apply good_modify. intros s Hs.
  eapply keeps_trans; [apply (keeps_remote s (mkDescription (iceUfrag (remote_ s)) (icePwd (remote_ s))
    (iceLite (remote_ s)) (candidates (remote_ s)) true) []); [done | by rewrite app_nil_r | by apply inv_ufragR]|].
  apply keeps_frame; try done. apply (keeps_remote s _ []); [done | by rewrite app_nil_r | by apply inv_ufragR].
Qed.

Lemma good_setLocalIceAttributes ufrag pwd : good (setLocalIceAttributes ufrag pwd).
Proof.
  unfold setLocalIceAttributes. destruct (_ || _) eqn:E; [apply good_ret|].
  apply good_seq; [|intros _; apply good_ret]. apply good_modify. intros s Hs.
  apply keeps_local; [done | done |]. cbn [iceUfrag]. destruct ufrag as [u|]; [|by apply inv_ufragL].
  apply orb_false_iff in E as [E _]. apply negb_false_iff in E. unfold isValidIceString in E.
  apply andb_prop in E as [E _]. apply andb_prop in E as [_ E]. apply Nat.leb_le in E. simpl.
  unfold MaxUfragLen in E. pow2_norm. lia.
Qed.

(** Replacing the entries by some of them, changed or not. *)
Lemma inv_entries s es :
  inv s -> Forall (entry_ok (length (pairs_ s))) es -> (length es <= length (entries_ s))%nat ->
  NoDup (omap e_pair es) -> inv (s <| entries_ := es |>).
Proof.
  intros [[H1 H2 H3 H4 H5 H6 H7 H8 H9 H10] Ho] He Hl Hn.
  constructor; [constructor|]; upd; try done. lia.
Qed.

Lemma good_cancelAllEntries : good cancelAllEntries.
Proof.
  unfold cancelAllEntries. apply good_seq.
  { apply good_modify. intros s Hs. pose proof (iv_core s Hs) as H0.
    split; [|constructor; upd; rewrite ?length_fmap; lia].
    apply inv_entries; [done | | by rewrite length_fmap |].
    - apply Forall_fmap. eapply Forall_impl; [apply (iv_entries s H0)|]. by intros e [P1 P2 P3].
    - assert (omap e_pair ((fun e => e <| e_state := ECancelled |>) <$> entries_ s) = omap e_pair (entries_ s)) as ->;
        [|apply (iv_one s H0)]. induction (entries_ s) as [|e es IH]; [done|].
      simpl. upd. by destruct (e_pair e); [f_equal|]. }
  intros _ s Hs. do 2 wp_step. revert s Hs. intros s Hs. generalize (imap pair (entries_ s)). intros l.
  revert s Hs. apply good_seq; [|intros _; apply good_modify; intros; frame].
  apply good_forM. intros [k e] _. destruct (allocatedRelay e); [by apply good_emit | apply good_skip].
Qed.

Lemma wp_sendViaSelectedPair data s : inv s -> wp (sendViaSelectedPair env data) (fun _ => keeps s) s.
Proof.
  intros Hs. unfold sendViaSelectedPair. do 2 wp_step. cbv [id].
  destruct (selectedPair_ s) as [i|] eqn:Ei; [|by apply good_ret].
  pose proof (inv_sel s Hs) as Hi. rewrite Ei in Hi. apply wp_bind, wp_getPair; [done | by apply Hi|].
  intros p _ Hp. apply wp_bind, wp_derefLocal; [done|]. intros lc _.
  apply wp_read; [by apply wp_pairIsTurnTcpRelay|]. intros [|]; [by apply good_sendTurnDataConn|].
  apply wp_read; [by apply wp_pairIsTcp|]. intros [|]; [by apply wp_agentSendTcp|].
  apply wp_bind, wp_derefRemote; [done|]. intros rc _. destruct (_ || _); [|by apply good_sendUdp].
  destruct (firstRelay _) as [k|]; [|by apply good_ret].
  revert s Hs Ei Hi Hp. intros s Hs _ _ _. apply good_seq; [by apply good_emit | intros _; apply good_ret | done].
Qed.

Lemma good_send data : good (send env data).
Proof.
  unfold send. apply good_seq; [apply good_modify; intros; frame|]. intros _ s Hs. by apply wp_sendViaSelectedPair.
Qed.

(** ** Gathering *)

Context (cfg : GatherConfig).

Lemma good_gatherHostCandidates : good (gatherHostCandidates env cfg).
Proof.
  unfold gatherHostCandidates. apply good_seq; [|intros _; apply good_forM; intros; apply good_publish].
  apply good_forM. intros c _. apply good_forM. intros cc _. apply good_publish.
Qed.

Lemma good_gatherCandidates : good (gatherCandidates env cfg).
Proof.
  intros s Hs. unfold gatherCandidates. do 2 wp_step. destruct (_ && _) eqn:Est; [by apply good_ret|].
  apply wp_then.
  { apply wp_lastTransition; [done|]. constructor.
    apply andb_false_iff in Est as [H|H]; apply negb_false_iff, bool_decide_eq_true in H; auto. }
  intros _ s1 [Hs1 _]. revert s1 Hs1. apply good_seq; [apply good_modify; intros; frame|]. intros _.
  apply good_seq; [apply good_gatherHostCandidates|]. intros _ s2 Hs2. do 2 wp_step. revert s2 Hs2.
  intros s2 Hs2. generalize (pairingCfg_ s2). intros pc. revert s2 Hs2.
  apply good_seq; [apply good_when; intros _; apply good_modify; intros; frame|]. intros _.
  apply good_seq; [apply good_when; intros _; apply good_modify; intros; frame|]. intros _ s3 Hs3.
  do 2 wp_step. apply good_seq; [apply good_when; intros _; apply good_checkGatheringComplete| |done].
  intros _. apply good_ret.
Qed.

(** An entry that belongs to no pair, and a change of other fields. *)
Lemma keeps_addServerEntry s s' e :
  entries_ s' = entries_ s ++ [e] -> s <| entries_ := entries_ s ++ [e] |>
    <| pendingServerReflexive_ := pendingServerReflexive_ s' |>
    <| pendingRelayAllocations_ := pendingRelayAllocations_ s' |> = s' ->
  inv s -> (length (entries_ s) < MaxStunEntries)%nat -> e_pair e = None -> e_type e <> Check ->
  length (e_transactionID e) = 12%nat -> keeps s s'.
Proof.
  intros _ <- Hs Hl Hp Ht Hi. apply (keeps_trans _ (s <| entries_ ::= (fun l => l ++ [e]) |>)).
  - split; [|constructor; upd; rewrite ?length_app; lia].
    apply inv_addEntry; [done..| |]; [constructor; congruence || done | congruence].
  - apply keeps_frame; try done. apply inv_addEntry; [done..| |]; [constructor; congruence || done | congruence].
Qed.

Lemma good_createServerReflexiveEntry a : good (createServerReflexiveEntry env a).
Proof.
  intros s Hs. unfold createServerReflexiveEntry. do 2 wp_step.
  destruct (Nat.leb_spec MaxStunEntries (length (entries_ s))); [by apply good_skip|].
  apply (wp_seq _ _ _ (fun r s' => entries_ s' = entries_ s /\ forall b, r = Some b -> length b = 12%nat)).
  { exists (csprng env (draws s) 12), (s <| draws ::= S |>). split; [done|]. split; [frame|].
    split; [done|]. intros b. apply Hrng. }
  intros r s1 [Hs1 _] [He Hb]. set (tid := default _ r).
  assert (Ht : length tid = 12%nat) by (destruct r; [by apply Hb | done]).
  destruct (encode_sized (mkMessage Method.Binding Request tid [] []) None) as [m E]; [done | constructor |].
  apply wp_bind, (wp_lift _ _ _ m); [done|].
  apply (wp_seq _ _ _ (fun _ s' => entries_ s' = entries_ s1)).
  { apply wp_pres; [unfold sendUdp, nextSend; preserve | by apply good_sendUdp]. by intros ? ? ? [= <- <-]. }
  intros sent s2 [Hs2 _] He2. destruct (sent <? 0); [by apply good_skip|].
  apply wp_modify. eapply keeps_addServerEntry; [reflexivity | by destruct s2 | done | | done.. | done].
  rewrite He2, He. lia.
Qed.

Lemma good_createRelayEntry tcp a : good (createRelayEntry env tcp a).
Proof.
  intros s Hs. unfold createRelayEntry. do 4 wp_step.
  destruct (Nat.leb_spec MaxStunEntries (length (entries_ s))); [by apply good_skip|].
  apply wp_then; [|intros _ s1 [Hs1 _]; apply good_when; [intros _; by apply good_emit | done]].
  apply wp_modify. eapply keeps_addServerEntry; [reflexivity | by destruct s | done | lia | done..].
Qed.

Lemma good_gatherResolved results : good (gatherResolved env results).
Proof.
  unfold gatherResolved. apply good_seq.
  { apply good_forM. intros [item r] _. destruct r as [a|]; [|apply good_skip].
    destruct item; [apply good_createServerReflexiveEntry | apply good_createRelayEntry]. }
  intros _ s Hs. do 2 wp_step. apply good_when; [|done]. intros _. apply good_checkGatheringComplete.
Qed.

Lemma good_relayDone counted : good (relayDone counted).
Proof.
  unfold relayDone. apply good_when. intros _. apply good_seq; [apply good_modify; intros; frame|].
  intros _. apply good_checkGatheringComplete.
Qed.

Lemma wp_failPairsTo peer l s :
  inv s -> Forall (fun i => (i < length (pairs_ s))%nat) l -> wp (failPairsTo peer l) (fun _ => keeps s) s.
Proof.
  intros Hs Hl. revert s Hs Hl. induction l as [|i l IH]; intros s Hs Hl; cbn [failPairsTo]; [by apply good_skip|].
  inversion_clear Hl as [|? ? Hi Hl']. apply wp_bind, wp_getPair; [done..|]. intros p _ Hp.
  apply wp_bind, wp_derefRemote; [done|]. intros rc _.
  apply wp_then; [apply good_when; [intros _; by apply good_setPair | done]|]. intros _ s1 [Hs1 [Hg _]].
  apply IH; [done|]. eapply Forall_impl; [exact Hl'|]. simpl. lia.
Qed.

Lemma inv_filterEntries s (P : StunEntry -> Prop) `{!forall e, Decision (P e)} :
  inv s -> inv (s <| entries_ ::= filter P |>).
Proof.
  intros Hs. pose proof (iv_core s Hs) as H0. apply inv_entries; [done | | apply length_filter |].
  - apply Forall_forall. intros e He. apply list_elem_of_filter in He as [_ He]. revert e He.
    apply Forall_forall, (iv_entries s H0).
  - eapply sublist_NoDup; [apply (iv_one s H0)|].
    induction (entries_ s) as [|e es IH]; [done|]. rewrite filter_cons. simpl.
    case_decide; simpl; destruct (e_pair e); by constructor || done.
Qed.

(** The entries of failed checks are erased, so only the invariant is kept. *)
Lemma wp_onConnectFailed code peer s : inv s -> wp (onConnectFailed code peer) (fun _ => inv) s.
Proof.
  intros Hs. unfold onConnectFailed. do 2 wp_step. cbv [id]. destruct (_ && _); [apply wp_modify; frame|].
  apply wp_bind. eapply wp_mono; [apply wp_failPairsTo; [done | by apply seq_range]|]. intros _ s1 [Hs1 _].
  apply wp_bind, wp_modify. set (s2 := s1 <| entries_ ::= _ |>).
  assert (Hs2 : inv s2) by by apply inv_filterEntries.
  eapply wp_mono; [|intros a s' H'; exact (keeps_inv s2 s' H')].
  apply good_seq; [apply good_armNextFrozenPair | intros _; apply good_updateState | done].
Qed.

(** ** All entry points *)

(** [EvTurnView], [EvTcp] and [EvTurnData] are changes in the components the agent drives:
    what a TURN client says of itself, and the TCP connections that come up and go away. *)
Inductive Event :=
| EvClock (t : Z)
| EvUdp (data : bytes) (src : AddrRecord) (tr : CandidateTransport)
| EvTcpPacket (data : bytes) (src : AddrRecord)
| EvTimer
| EvGather
| EvResolved (results : list (GatherItem * option AddrRecord))
| EvAllocated (serverIndex rttMs : Z) (tcpAlloc counted : bool) (relayed : AddrRecord)
| EvTurnFailed (counted : bool)
| EvConnectFailed (code : Z) (peer : AddrRecord)
| EvTurnView (k : nat) (tv : TurnView)
| EvTcp (peer : option AddrRecord)
| EvTurnData (has : bool) (bound : option AddrRecord)
| EvSetRemoteDescription (sdp : text)
| EvAddRemoteCandidate (sdp : text)
| EvSetRemoteGatheringDone
| EvSetLocalIceAttributes (ufrag pwd : option text)
| EvSetPairingConfig (pc : IcePairingConfig)
| EvSend (data : bytes)
| EvCancel.

Definition ignore {A} (m : M A) : M unit := m ≫= (fun _ => skip).

Definition step (ev : Event) : M unit :=
  match ev with
  | EvClock t => modify (fun s => s <| clock := t |>)
  | EvUdp data src tr => handleInboundUdp env data src tr
  | EvTcpPacket data src => handleInboundTcpPacket env data src
  | EvTimer => onBookkeeping env
  | EvGather => ignore (gatherCandidates env cfg)
  | EvResolved results => gatherResolved env results
  | EvAllocated i rtt tcp counted a => onAllocated env i rtt tcp counted a
  | EvTurnFailed counted => onFailed counted
  | EvConnectFailed code peer => onConnectFailed code peer
  | EvTurnView k tv => setEntry k (fun e => e <| e_turn := Some tv |>)
  | EvTcp peer => modify (fun s => s <| tcpConnected_ := peer |>)
  | EvTurnData has bound => modify (fun s => s <| hasTurnDataConn_ := has |> <| turnDataBound_ := bound |>)
  | EvSetRemoteDescription sdp => ignore (setRemoteDescription env sdp)
  | EvAddRemoteCandidate sdp => ignore (addRemoteCandidate env sdp)
  | EvSetRemoteGatheringDone => ignore setRemoteGatheringDone
  | EvSetLocalIceAttributes u p => ignore (setLocalIceAttributes u p)
  | EvSetPairingConfig pc => ignore (setPairingConfig pc)
  | EvSend data => ignore (send env data)
  | EvCancel => cancelAllEntries
  end.

Definition allowed (ev : Event) (s : Agent) : Prop :=
  match ev with
  | EvClock t => clock s <= t
  | EvUdp data _ _ | EvTcpPacket data _ => bytes_ok data
  | EvSetRemoteDescription sdp => pairs_ s = [] /\ Z.of_nat (length sdp) < 2 ^ 32
  | _ => True
  end.

Inductive reach : Agent -> Prop :=
| reach_new pc d tb : Z.of_nat (length (iceUfrag d)) < 2 ^ 32 -> reach (newAgent pc d tb)
| reach_step ev s s' : reach s -> allowed ev s -> step ev s = Some (tt, s') -> reach s'.

Lemma good_ignore {A} (m : M A) s : wp m (fun _ => keeps s) s -> wp (ignore m) (fun _ => keeps s) s.
Proof. intros H. apply wp_then; [done|]. intros _ s' [Hs' _]. by apply good_skip. Qed.

Lemma inv_new pc d tb : Z.of_nat (length (iceUfrag d)) < 2 ^ 32 -> inv (newAgent pc d tb).
Proof. intros H. constructor; [|done]. constructor; simpl; try done; try constructor; unfold MaxCandidatePairs, MaxStunEntries; lia || done. Qed.

(** The invariant holds after every event that is not a timer pass over a growing deque. *)
Lemma wp_agent_step ev s :
  inv s -> allowed ev s -> (ev = EvTimer -> ~ growsWhileIterating env s) -> wp (step ev) (fun _ => inv) s.
Proof.
  intros Hs Ha Hgrow. destruct ev;
    first [by apply wp_onConnectFailed | eapply wp_mono; [|intros u s' H'; exact (keeps_inv s s' H')]];
    cbn [step allowed] in *; try (apply wp_modify; frame).
  - by apply wp_handleInboundUdp.
  - by apply wp_handleInboundTcpPacket.
  - destruct (onBookkeeping_cases s Hs) as [[Hg _]|[_ H]]; [by destruct Hgrow|exact H].
  - apply good_ignore. by apply good_gatherCandidates.
  - by apply good_gatherResolved.
  - apply good_seq; [apply good_publish | intros _; apply good_relayDone | done].
  - by apply good_relayDone.
  - by apply good_setEntry.
  - apply good_ignore. destruct Ha. by apply wp_setRemoteDescription.
  - apply good_ignore. by apply wp_addRemoteCandidate.
  - apply good_ignore. by apply good_setRemoteGatheringDone.
  - apply good_ignore. by apply good_setLocalIceAttributes.
  - apply good_ignore. by apply good_send.
  - by apply good_cancelAllEntries.
Qed.

Lemma reach_inv s : reach s -> inv s.
Proof.
  induction 1 as [pc d tb H|ev s s' Hr IH Ha E]; [by apply inv_new|].
  refine (wp_run (step ev) (fun _ => inv) s tt s' (wp_agent_step ev s IH Ha _) E).
  intros -> Hg. destruct (onBookkeeping_cases s IH) as [[_ En]|[Hn _]]; [|done].
  cbn [step] in E. congruence.
Qed.

End Env.
