(* ===== verification/AgentDemo.v ===== *)
(** * Two sample agents

    A concrete environment, two agents with their credentials and one host address each, and
    a run in which they exchange descriptions, check each other and nominate a pair.  The
    theorems about the agent are instantiated at these states. *)

From Stdlib Require Import Ascii.
From S2P Require Import Prelude.
From S2P Require Import Addr.
From S2P Require Import StunMessage.
From S2P Require Import CText.
From S2P Require Import Candidate.
From S2P Require Import CandidatePair.
From S2P Require Import Sdp.
From S2P Require Import PairingStrategy.
From S2P Require Import AgentState.
From S2P Require Import AgentPairs.
From S2P Require Import AgentStun.
From S2P Require Import AgentLoop.
From S2P Require Import AgentGather.
From S2P Require Import AgentInv.
From S2P Require Import AgentSteps.
From S2P Require Import AgentRun.
Open Scope Z_scope.
Open Scope c_scope.

Definition addrA : AddrRecord := mkAddrRecord (SockIn 5000 [10; 0; 0; 1]) 16 SOCK_DGRAM.
Definition addrB : AddrRecord := mkAddrRecord (SockIn 6000 [10; 0; 0; 2]) 16 SOCK_DGRAM.

Definition namesOf (sa : sockaddr) : text * text :=
  match sa with
  | SockIn 5000 _ => (lit "10.0.0.1", lit "5000")
  | SockIn 6000 _ => (lit "10.0.0.2", lit "6000")
  | _ => (lit "10.0.0.9", lit "9")
  end.

Definition pton4 (s : string) : option bytes :=
  if bool_decide (s = "10.0.0.1"%string) then Some [10; 0; 0; 1]
  else if bool_decide (s = "10.0.0.2"%string) then Some [10; 0; 0; 2] else None.

(** The random source repeats the number of the request. *)
Definition agentEnv (seed : Z) : Env :=
  mkEnv (fun k n => Some (replicate n (Z.of_nat k + seed)))
    (fun _ _ data => (Z.of_nat (length data), false)) None (fun _ _ => true)
    namesOf None (fun _ => None) (fun _ _ => 0) 0 id pton4 (fun _ => None) (fun _ _ _ => []).

Lemma agentEnv_rng seed : rng_ok (agentEnv seed).
Proof. intros k n b [= <-]. apply length_replicate. Qed.

Definition gatherCfg (a : AddrRecord) : GatherConfig :=
  mkGatherConfig false false None None [a] [] (fun sa => Some (namesOf sa)) (fun _ => [])
    [] None [] [].

Definition credA : Description := mkDescription (lit "aaaa") (lit "passwordpasswordpassAA") false [] false.
Definition credB : Description := mkDescription (lit "bbbb") (lit "passwordpasswordpassBB") false [] false.

Definition agentA : Agent := newAgent (makeIcePairingConfig RFC8445_COMPAT) credA 7.
Definition agentB : Agent := newAgent (makeIcePairingConfig RFC8445_COMPAT) credB 9.

Definition stepA (ev : Event) : M unit := step (agentEnv 50) (gatherCfg addrA) ev.
Definition stepB (ev : Event) : M unit := step (agentEnv 150) (gatherCfg addrB) ev.

Definition runs (f : Event -> M unit) (evs : list Event) : M unit := forM evs f.

(** The datagrams of the outputs, as the peer receives them. *)
Definition datagrams (src : AddrRecord) (l : list Output) : list Event :=
  omap (fun o => match o with OUdp _ data => Some (EvUdp data src UDP) | _ => None end) l.

(** Agent A after it has gathered its address. *)
Definition gatheredA : Agent :=
  match runs stepA [EvClock 1000; EvGather] agentA with Some (_, s) => s | None => agentA end.

Lemma gatheredA_reach : reach (agentEnv 50) (gatherCfg addrA) gatheredA.
Proof.
  apply (reach_step _ _ EvGather (agentA <| clock := 1000 |>)); [|done | by vm_compute].
  apply (reach_step _ _ (EvClock 1000) agentA); [apply reach_new; simpl; lia | by vm_compute | done].
Qed.

(** The description B would send, and agent A when it has been given it. *)
Definition sdpB : text :=
  match runs stepB [EvClock 1000; EvGather] agentB with
  | Some (_, s) => generateSdp None (local_ s)
  | None => []
  end.

Definition connectingA : Agent :=
  match stepA (EvSetRemoteDescription sdpB) gatheredA with Some (_, s) => s | None => agentA end.

Lemma connectingA_reach : reach (agentEnv 50) (gatherCfg addrA) connectingA.
Proof.
  apply (reach_step _ _ (EvSetRemoteDescription sdpB) gatheredA);
    [apply gatheredA_reach | by vm_compute | by vm_compute].
Qed.

Lemma connectingA_inv : inv connectingA.
Proof. apply (reach_inv (agentEnv 50) (agentEnv_rng 50) (gatherCfg addrA)), connectingA_reach. Qed.

