(* ===== verification/AgentChecks.v ===== *)
(** * Forming pairs and arming checks

    What [formPairs] and [armNextFrozenPair] do to the check list, from any state that
    satisfies the invariant. *)

From Stdlib Require Import Sorted.
From S2P Require Import Prelude.
From S2P Require Import Addr.
From S2P Require Import CText.
From S2P Require Import Candidate.
From S2P Require Import CandidatePair.
From S2P Require Import Sdp.
From S2P Require Import PairingStrategy.
From S2P Require Import AgentState.
From S2P Require Import AgentPairs.
From S2P Require Import AgentLoop.
From S2P Require Import AgentGather.
From S2P Require Import AgentInv.
From S2P Require Import AgentSafe.
From S2P Require Import AgentRun.
From S2P Require Import AgentDemo.
Open Scope Z_scope.
Open Scope c_scope.

(** ** What stays *)

(** The fields arming does not write. *)
Definition checkList (s : Agent) := (aside s, pairs_ s, orderedPairs_ s).

Lemma pres_armLoop_checkList budget armed l : preserves checkList (armLoop budget armed l).
Proof.
  revert armed. induction l as [|i l IH]; intros armed; cbn [armLoop]; [apply pres_ret|].
  unfold addCheck. preserve.
Qed.
#[export] Hint Resolve pres_armLoop_checkList : pres.

Lemma pres_maybeEnterTcpPhase : preserves checkList maybeEnterTcpPhase.
Proof. unfold maybeEnterTcpPhase. preserve. Qed.
#[export] Hint Resolve pres_maybeEnterTcpPhase : pres.

Lemma pres_refreshEarlyPhase : preserves checkList refreshEarlyPhase.
Proof. unfold refreshEarlyPhase. preserve. cbv zeta. by case_match. Qed.
#[export] Hint Resolve pres_refreshEarlyPhase : pres.

Lemma pres_arm_checkList : preserves checkList armNextFrozenPair.
Proof. unfold armNextFrozenPair. preserve. Qed.
#[export] Hint Resolve pres_arm_checkList : pres.

Lemma pres_requestPermissions i : preserves checkList (requestPermissions i).
Proof. unfold requestPermissions, requestPermission. preserve. Qed.
#[export] Hint Resolve pres_requestPermissions : pres.

(** ** Forming pairs *)

(** When two candidates may be paired: the rules the comments of formPairs state, written out.
    Same component, same address family, no link-local remote address, no pair of a datagram
    and a stream candidate; of stream candidates not two active ones, and not two passive
    ones unless both are relayed. *)
Definition mayPair (lc rc : Candidate) : Prop :=
  component lc = component rc /\
  sa_family (addr (resolved lc)) = sa_family (addr (resolved rc)) /\
  addrIsLinkLocal (Some (addr (resolved rc))) = false /\
  (transport lc = UDP <-> transport rc = UDP) /\
  ~ (transport lc = TCPActive /\ transport rc = TCPActive) /\
  ~ (transport lc = TCPPassive /\ transport rc = TCPPassive /\ ~ (type lc = Relayed /\ type rc = Relayed)).

Lemma pairable_mayPair lc rc : pairable lc rc = true <-> mayPair lc rc.
Proof.
  unfold pairable, mayPair. rewrite !andb_true_iff, !Z.eqb_eq, negb_true_iff.
  destruct (transport lc), (transport rc); cbn;
    rewrite ?andb_true_iff, ?bool_decide_eq_true; split; intros H; split_and?; try tauto;
    try (split; tauto); try (intros; intuition discriminate).
  all: destruct H as (_ & _ & _ & _ & _ & H), (decide (type lc = Relayed)), (decide (type rc = Relayed)); tauto.
Qed.

(** The priority of a pair, with [g] the priority the controlling agent gave its candidate and
    [d] that of the controlled one. *)
Lemma pairPriority_formula l r b :
  let g := if b : bool then l else r in let d := if b then r else l in
  computePairPriority l r b =
    u64 ((2 ^ 32 - 1) * Z.min g d + 2 * Z.max g d + (if d <? g then 1 else 0)).
Proof.
  intros g d. unfold computePairPriority. fold g d. change (u64 ((1 <<. 32) - 1)) with (2 ^ 32 - 1).
  rewrite shiftl_mul by lia. change (2 ^ 1) with 2. unfold u64.
  replace (if g <? d then g else d) with (Z.min g d) by (destruct (Z.ltb_spec g d); lia).
  replace (if d <? g then g else d) with (Z.max g d) by (destruct (Z.ltb_spec d g); lia).
  unfold wrap. rewrite <- Z.add_assoc, Zplus_mod_idemp_l, (Z.add_comm (Z.max g d * 2 mod _)), Z.add_assoc,
    Zplus_mod_idemp_r.
  f_equal. lia.
Qed.

Lemma sorted_weaken {A} (R R' : A -> A -> Prop) l :
  (forall x y, R x y -> R' x y) -> StronglySorted R l -> StronglySorted R' l.
Proof.
  intros HR. induction 1 as [|x l _ IH Hx]; constructor; [done|]. eapply Forall_impl; [exact Hx|]. apply HR.
Qed.

(** C8: the check list is exactly the pairs the pairing rules allow.  [formPairs] returns; it
    keeps the pairs there are, in their places, and appends new ones: frozen, not nominated,
    of a local and a remote candidate that may be paired ([mayPair]: the rules of RFC 8445 and
    of the code's comments, written out), with the priority the formula gives them in the
    agent's role (the code multiplies by 2^32 - 1 where the RFC has 2^32).  No two pairs have
    the same candidates, there are never more than 90, and while there are fewer every two
    candidates that may be paired are.  The ordered list holds each pair once, by descending
    priority. *)
Theorem form_pairs_exact (s : Agent) :
  inv s ->
  exists s' new, formPairs s = Some (tt, s') /\ pairs_ s' = pairs_ s ++ new /\
    Forall (fun p => exists m lc k rc,
      candidates (local_ s) !! m = Some lc /\ candidates (remote_ s) !! k = Some rc /\
      mayPair lc rc /\
      local p = mkRef 0 m /\ remote p = mkRef (remoteGen s) k /\
      state p = Frozen /\ nominated p = false /\ nominationRequested p = false /\
      let g := if bool_decide (mode_ s = Controlling) then priority lc else priority rc in
      let d := if bool_decide (mode_ s = Controlling) then priority rc else priority lc in
      pairPriority p = u64 ((2 ^ 32 - 1) * Z.min g d + 2 * Z.max g d + (if d <? g then 1 else 0))) new /\
    NoDup ((fun p => (local p, remote p)) <$> pairs_ s') /\ (length (pairs_ s') <= MaxCandidatePairs)%nat /\
    ((length (pairs_ s') < MaxCandidatePairs)%nat -> forall m lc k rc,
       candidates (local_ s) !! m = Some lc -> candidates (remote_ s) !! k = Some rc ->
       mayPair lc rc -> exists p, p ∈ pairs_ s' /\ local p = mkRef 0 m /\
                                  remote p = mkRef (remoteGen s) k) /\
    orderedPairs_ s' ≡ₚ seq 0 (length (pairs_ s')) /\
    StronglySorted (fun i j => forall p q, pairs_ s' !! i = Some p -> pairs_ s' !! j = Some q ->
      pairPriority q <= pairPriority p) (orderedPairs_ s').
Proof.
  intros Hs. destruct (good_formPairs s Hs) as ([] & s' & E & Hs' & _). exists s'.
  set (s1 := s <| pairs_ := formedPairs s |> <| orderedPairs_ := orderPairs (formedPairs s) |>).
  assert (Ep : pairs_ s' = formedPairs s).
  { assert (Hc : preserves checkList (l ← gets orderedPairs_; forM l requestPermissions;; armNextFrozenPair))
      by preserve.
    specialize (Hc s1 tt s'). unfold checkList in Hc. change (pairs_ s' = pairs_ s1).
    cut ((aside s', pairs_ s', orderedPairs_ s') = (aside s1, pairs_ s1, orderedPairs_ s1)); [congruence|].
    apply Hc. exact E. }
  destruct (formOuter_formed (bool_decide (mode_ s = Controlling)) (remoteGen s) 0 (candidates (local_ s))
              (candidates (remote_ s)) (pairs_ s)) as (new & [Ha Hw _ _ Hl]).
  fold (formedPairs s) in *. rewrite <- Ep in Ha, Hl. exists new.
  destruct Hs' as [[_ H2 H3 _ _ _ _ _ _ _] Ho]. rewrite Ho.
  split; [done|]. split; [done|]. split; [|split; [done|]; split; [done|]].
  { eapply Forall_impl; [exact Hw|]. intros p (m & lc & k & rc & Hm & Hk & Hc & ->).
    exists m, lc, k, rc. rewrite <- pairable_mayPair. do 8 (split; [done|]). cbv zeta.
    rewrite <- pairPriority_formula. done. }
  split; [|split; [apply orderPairs_perm|]].
  - intros Hlen m lc k rc Hm Hk Hc%pairable_mayPair. specialize (Hl Hlen m lc k rc Hm Hk Hc). simpl in Hl.
    apply hasPair_spec, list_elem_of_fmap in Hl as (p & Hp & Hin). exists p. by simplify_eq.
  - eapply sorted_weaken; [|apply orderPairs_sorted]. cbv beta. intros i j Hij p q Hp Hq.
    unfold priorityAt in Hij. by rewrite Hp, Hq in Hij.
Qed.

(** ** Arming *)

(** A TCP relay pair that the schedule or the fallback mode holds back. *)
Definition relayPair (s : Agent) (i : nat) : bool :=
  match pairs_ s !! i ≫= (fun p => localCand s (local p)) with Some c => candIsTcpRelay c | None => false end.

Definition heldBack (s : Agent) (i : nat) : bool :=
  (bool_decide (schedule_mode (pairingCfg_ s) = PHASED_UDP_FIRST) && relayPair s i &&
   negb (tcp_phase_entered (pairingCfg_ s))) ||
  (bool_decide (tcp_relay_fallback (pairingCfg_ s) = DISABLE) && relayPair s i).

(** A frozen pair that may be armed. *)
Definition eligible (s : Agent) (i : nat) : Prop :=
  exists p, pairs_ s !! i = Some p /\ state p = Frozen /\ heldBack s i = false.

(** A check armed in state [s]: pending, first due after the pacing time, for an eligible pair
    that had no entry. *)
Definition newCheck (s : Agent) (e : StunEntry) : Prop :=
  inProgress e = true /\ e_nextTransmission e = clock s + StunPacingTimeMs /\
  exists i, e_pair e = Some i /\ eligible s i /\ existsb (ofPair i) (entries_ s) = false.

Record armed (budget n : nat) (l : list nat) (s s' : Agent) (new : list StunEntry) : Prop := {
  ar_state : s' = s <| entries_ := entries_ s ++ new |>;
  ar_new : Forall (newCheck s) new;
  ar_count : (n < budget -> n + length new <= budget)%nat;
  ar_serial : schedule_mode (pairingCfg_ s) = SERIAL -> (length new <= 1)%nat;
  ar_all : schedule_mode (pairingCfg_ s) <> SERIAL -> forall i, i ∈ l -> eligible s i ->
    existsb (ofPair i) (entries_ s') = true \/ (MaxStunEntries <= length (entries_ s'))%nat \/
    (budget <= n + length new)%nat }.

Lemma wp_relayPair i s (Q : bool -> Agent -> Prop) :
  inv s -> (i < length (pairs_ s))%nat -> Q (relayPair s i) s -> wp (pairIsTcpRelay i) Q s.
Proof.
  intros Hs Hi HQ. unfold pairIsTcpRelay. apply wp_bind, wp_getPair; [done..|]. intros p Ep Hp.
  apply wp_bind, wp_derefLocal; [done|]. intros c Ec. apply wp_ret.
  unfold relayPair in HQ. rewrite Ep in HQ. simpl in HQ. by rewrite Ec in HQ.
Qed.

Lemma wp_addCheck_exact i d s :
  inv s -> (i < length (pairs_ s))%nat ->
  wp (addCheck i d) (fun _ s' => exists e, s' = s <| entries_ := entries_ s ++ [e] |> /\
    inProgress e = true /\ e_nextTransmission e = clock s + d /\ e_pair e = Some i) s.
Proof.
  intros Hs Hi. unfold addCheck. apply wp_bind, wp_getPair; [done..|]. intros p _ Hp.
  apply wp_bind, wp_derefRemote; [done|]. intros rc _. do 2 wp_step. unfold armTransmission.
  do 3 wp_step. apply wp_read; [apply wp_pairIsTcp; [done | by upd; intros j [= <-]]|]. intros tcp.
  do 4 wp_step. eexists. split; [reflexivity | done].
Qed.

Lemma existsb_snoc i (l : list StunEntry) e : e_pair e = Some i -> existsb (ofPair i) (l ++ [e]) = true.
Proof. intros H. rewrite existsb_app. simpl. unfold ofPair at 2. rewrite bool_decide_true by done. by destruct (existsb _ l). Qed.

Lemma armed_skip budget n i l s s' new :
  armed budget n l s s' new -> ~ eligible s i \/ existsb (ofPair i) (entries_ s) = true \/
    (MaxStunEntries <= length (entries_ s))%nat -> armed budget n (i :: l) s s' new.
Proof.
  intros [Hst Hn Hc Hser Hall] Hi. constructor; try done. intros Hm j Hj He.
  apply elem_of_cons in Hj as [->|Hj]; [|by apply Hall]. rewrite Hst. upd.
  rewrite existsb_app, length_app. destruct Hi as [Hi|[Hi|Hi]]; [done | rewrite Hi; auto | right; left; lia].
Qed.

Lemma armed_stop budget n l s : schedule_mode (pairingCfg_ s) = SERIAL \/ l = [] -> armed budget n l s s [].
Proof.
  intros H. constructor; try done; simpl; try lia.
  - rewrite app_nil_r. by destruct s.
  - intros Hm i Hi. destruct H as [H| ->]; [done|]. by apply elem_of_nil in Hi.
Qed.

Lemma armed_add budget n i l s e s' new :
  eligible s i -> existsb (ofPair i) (entries_ s) = false ->
  inProgress e = true -> e_nextTransmission e = clock s + StunPacingTimeMs -> e_pair e = Some i ->
  (n < budget)%nat -> (budget <= S n)%nat /\ s' = s <| entries_ := entries_ s ++ [e] |> /\ new = [] \/
    schedule_mode (pairingCfg_ s) = SERIAL /\ s' = s <| entries_ := entries_ s ++ [e] |> /\ new = [] \/
    (S n < budget)%nat /\ schedule_mode (pairingCfg_ s) <> SERIAL /\
    armed budget (S n) l (s <| entries_ := entries_ s ++ [e] |>) s' new ->
  armed budget n (i :: l) s s' (e :: new).
Proof.
  intros Hel Hno Hp Ht Hi Hb Hcase.
  assert (Hc : newCheck s e) by (split; [done|]; split; [done|]; by exists i).
  destruct Hcase as [(Hlim & -> & ->)|[(Hser & -> & ->)|(Hlim & Hm & [Hst Hn Hcnt Hser Hall])]].
  1,2: constructor; [done | by apply Forall_singleton | simpl; lia | simpl; lia |];
    intros Hm j Hj _; upd; simpl; first [done | right; right; lia].
  constructor.
  - rewrite Hst. upd. by rewrite <- app_assoc.
  - constructor; [done|]. eapply Forall_impl; [exact Hn|]. intros e' (P1 & P2 & j & P3 & P4 & P5).
    split; [done|]. split; [done|]. exists j. split; [done|]. split; [done|].
    revert P5. upd. rewrite existsb_app. by intros [? _]%orb_false_iff.
  - simpl. intros _. specialize (Hcnt Hlim). lia.
  - done.
  - intros _ j Hj He. apply elem_of_cons in Hj as [->|Hj].
    + left. rewrite Hst. upd. by rewrite existsb_app, existsb_snoc.
    + destruct (Hall Hm j Hj He) as [H|[H|H]]; [auto | auto | right; right; simpl; lia].
Qed.

Lemma wp_armLoop_armed budget n l s :
  inv s -> Forall (fun i => (i < length (pairs_ s))%nat) l -> (n < budget)%nat ->
  wp (armLoop budget n l) (fun _ s' => exists new, armed budget n l s s' new) s.
Proof.
  revert n s. induction l as [|i l IH]; intros n s Hs Hl Hb; cbn [armLoop].
  { apply wp_ret. exists []. apply armed_stop. auto. }
  apply Forall_cons in Hl as [Hi Hl].
  assert (Hnext : ~ eligible s i \/ existsb (ofPair i) (entries_ s) = true \/
      (MaxStunEntries <= length (entries_ s))%nat ->
    wp (armLoop budget n l) (fun _ s' => exists new, armed budget n (i :: l) s s' new) s).
  { intros H. eapply wp_mono; [by apply IH|]. intros _ s' [new Hn]. exists new. by apply armed_skip. }
  apply wp_bind, wp_getPair; [done..|]. intros p Ep _.
  destruct (decide (state p = Frozen)) as [Hf|Hf].
  2:{ rewrite bool_decide_false by done. simpl. apply Hnext. left. intros (q & Eq & Hq & _). by simplify_eq. }
  rewrite bool_decide_true by done. simpl. do 2 wp_step. apply wp_bind, wp_relayPair; [done..|].
  fold (heldBack s i). destruct (heldBack s i) eqn:Eh.
  { apply Hnext. left. intros (q & _ & _ & Hq). congruence. }
  assert (Hel : eligible s i) by by exists p.
  do 2 wp_step. case_bool_decide as Hser; destruct (existsb (ofPair i) (entries_ s)) eqn:Ee; simpl.
  - apply wp_ret. exists []. apply armed_stop. auto.
  - destruct (Nat.ltb_spec (length (entries_ s)) MaxStunEntries); [|apply wp_ret; exists []; apply armed_stop; auto].
    apply wp_bind. eapply wp_mono; [by apply wp_addCheck_exact|]. intros _ s1 (e & -> & P1 & P2 & P3).
    destruct (budget <=? S n)%nat; apply wp_ret; exists [e]; apply armed_add; auto.
  - apply Hnext. auto.
  - destruct (Nat.ltb_spec (length (entries_ s)) MaxStunEntries); [|apply Hnext; auto].
    assert (Hk : wp (addCheck i StunPacingTimeMs) (fun _ s' => inv s' /\ exists e,
      s' = s <| entries_ := entries_ s ++ [e] |> /\ inProgress e = true /\
      e_nextTransmission e = clock s + StunPacingTimeMs /\ e_pair e = Some i) s).
    { destruct (wp_addCheck i StunPacingTimeMs s Hs Hi H Ee) as (u & s1 & E1 & Hk1 & _).
      exists u, s1. split; [done|]. split; [done|].
      exact (wp_run _ _ _ _ _ (wp_addCheck_exact i StunPacingTimeMs s Hs Hi) E1). }
    apply wp_bind. eapply wp_mono; [exact Hk|]. intros _ s1 (Hs1 & e & -> & P1 & P2 & P3).
    destruct (Nat.leb_spec budget (S n)); [apply wp_ret; exists [e]; apply armed_add; auto|].
    eapply wp_mono; [apply IH; [done | exact Hl | done]|]. intros _ s2 [new Hn]. exists (e :: new).
    apply armed_add; auto.
Qed.

Lemma inProgress_app s new :
  Forall (newCheck s) new ->
  (countInProgressChecks (s <| entries_ := entries_ s ++ new |>) = countInProgressChecks s + length new)%nat.
Proof.
  intros Hn. unfold countInProgressChecks. upd. rewrite filter_app, length_app. f_equal.
  induction Hn as [|e new [He _] Hn IH]; [done|]. rewrite filter_cons_True by done. simpl. by rewrite IH.
Qed.

(** The schedule of one call: [armed] with the budget of the configuration. *)
Lemma wp_armNext_armed s :
  inv s ->
  wp armNextFrozenPair (fun _ s' => exists s1 new, checkList s1 = checkList s /\ entries_ s1 = entries_ s /\ inv s1 /\
    (armBudget (pairingCfg_ s1) (countInProgressChecks s1) = 0%nat /\ s' = s1 /\ new = [] \/
     armBudget (pairingCfg_ s1) (countInProgressChecks s1) <> 0%nat /\
     armed (armBudget (pairingCfg_ s1) (countInProgressChecks s1)) 0 (orderedPairs_ s1) s1 s' new)) s.
Proof.
  intros Hs. unfold armNextFrozenPair.
  assert (He1 : preserves entries_ maybeEnterTcpPhase) by (unfold maybeEnterTcpPhase; preserve).
  assert (He2 : preserves entries_ refreshEarlyPhase)
    by (unfold refreshEarlyPhase; preserve; cbv zeta; by case_match).
  apply wp_bind. eapply wp_mono.
  { apply (wp_pres entries_); [exact He1|]. apply (wp_pres checkList); [apply pres_maybeEnterTcpPhase | by apply good_maybeEnterTcpPhase]. }
  intros _ s0 [[[Hs0 _] Ec0] Ee0]. apply wp_bind. eapply wp_mono.
  { apply (wp_pres entries_); [exact He2|]. apply (wp_pres checkList); [apply pres_refreshEarlyPhase | by apply good_refreshEarlyPhase]. }
  intros _ s1 [[[Hs1 _] Ec1] Ee1]. do 4 wp_step. cbv zeta.
  destruct (Nat.eqb_spec (armBudget (pairingCfg_ s1) (countInProgressChecks s1)) 0) as [E|E].
  - apply wp_ret. exists s1, []. repeat split; [congruence | congruence | apply Hs1.. | ]. auto.
  - do 2 wp_step. eapply wp_mono; [apply wp_armLoop_armed; [done | by apply ordered_range | lia]|].
    intros _ s' [new Hn]. exists s1, new. split; [congruence|]. split; [congruence|]. split; [done|]. by right.
Qed.

(** Checks are started under the configured schedule.  [armNextFrozenPair] returns, leaves
    the pairs alone and appends pending checks, first due after the pacing time, for frozen
    pairs that had none and that the fallback mode and the phase do not hold back.  With
    limited concurrency, also in its two phases, the checks in progress stay within the cap
    (the larger one of the early phase while that lasts) unless they exceeded it before; the
    serial schedule starts at most one check; the strict schedule leaves no such pair without
    a check while there is room in the entry list. *)
Theorem checks_follow_schedule (s : Agent) :
  inv s ->
  exists s' new, armNextFrozenPair s = Some (tt, s') /\ entries_ s' = entries_ s ++ new /\
    pairs_ s' = pairs_ s /\ (length (entries_ s') <= MaxStunEntries)%nat /\
    Forall (fun e => inProgress e = true /\ e_nextTransmission e = clock s + StunPacingTimeMs /\
      exists i, e_pair e = Some i /\ eligible s' i /\ existsb (ofPair i) (entries_ s) = false) new /\
    match schedule_mode (pairingCfg_ s') with
    | LIMITED_CONCURRENT | PHASED_UDP_FIRST =>
        (countInProgressChecks s' <= Nat.max (countInProgressChecks s) (concurrencyCap (pairingCfg_ s')))%nat
    | SERIAL => (length new <= 1)%nat
    | RFC8445_STRICT =>
        forall i, eligible s' i -> existsb (ofPair i) (entries_ s') = true \/ length (entries_ s') = MaxStunEntries
    end.
Proof.
  intros Hs. destruct (wp_armNext_armed s Hs) as ([] & s' & E & s1 & new & Ec & Ee & Hs1 & Hcase).
  destruct (good_armNextFrozenPair s Hs) as (u & s2 & E2 & [[Hi Ho] _]). assert (s2 = s') as -> by congruence.
  pose proof (iv_emax s' Hi) as Hmax. exists s', new.
  assert (Hp1 : pairs_ s1 = pairs_ s) by (unfold checkList in Ec; congruence).
  assert (Hc1 : clock s1 = clock s) by (unfold checkList, aside in Ec; congruence).
  assert (Hn1 : countInProgressChecks s1 = countInProgressChecks s) by (unfold countInProgressChecks; by rewrite Ee).
  destruct Hcase as [(Hb & -> & ->)|[Hb [Hst Hn Hcnt Hser Hall]]].
  - split; [done|]. split; [by rewrite app_nil_r|]. split; [done|]. split; [done|]. split; [constructor|].
    unfold armBudget in Hb. rewrite Hn1. destruct (schedule_mode _); [discriminate Hb | simpl; lia | |];
      destruct (Nat.ltb_spec (countInProgressChecks s) (concurrencyCap (pairingCfg_ s1))); lia.
  - assert (Hcfg : pairingCfg_ s' = pairingCfg_ s1) by by rewrite Hst.
    assert (Hel : forall i, eligible s' i <-> eligible s1 i) by (intros i; by rewrite Hst).
    assert (Hen : entries_ s' = entries_ s ++ new) by (by rewrite Hst, <- Ee).
    split; [done|]. split; [done|]. split; [by rewrite Hst|]. split; [done|]. split.
    { eapply Forall_impl; [exact Hn|]. intros e (P1 & P2 & i & P3 & P4 & P5). rewrite <- Hc1, <- Ee.
      split; [done|]. split; [done|]. exists i. by rewrite Hel. }
    rewrite Hcfg. unfold armBudget in Hb, Hcnt, Hall.
    pose proof (inProgress_app s1 new Hn) as Hcount. rewrite <- Hst, Hn1 in Hcount. rewrite Hn1 in Hb, Hcnt, Hall.
    destruct (schedule_mode (pairingCfg_ s1)) eqn:Em; [|by apply Hser| |].
    2,3: destruct (Nat.ltb_spec (countInProgressChecks s) (concurrencyCap (pairingCfg_ s1))); lia.
    intros i Hi'. apply Hel in Hi'. pose proof Hi' as (p & Hp & _). apply lookup_lt_Some in Hp.
    destruct (Hall ltac:(done) i) as [H|[H|H]]; [|done|auto|right; lia|].
    + rewrite (iv_order s1 Hs1). by apply elem_of_orderPairs.
    + right. rewrite Hen, length_app in *. lia.
Qed.

(** Agent A has one check in progress; the other agent has one candidate, so there is nothing
    more to arm. *)
Lemma form_pairs_exact_witness :
  exists s', formPairs connectingA = Some (tt, s') /\
    exists p, p ∈ pairs_ s' /\ local p = mkRef 0 0 /\ remote p = mkRef (remoteGen connectingA) 0.
Proof.
  destruct (form_pairs_exact connectingA connectingA_inv) as (s' & new & E & _ & _ & _ & _ & Hall & _).
  exists s'. split; [exact E|].
  assert (Hn : option_map (fun r => length (pairs_ r.2)) (formPairs connectingA) = Some 1%nat)
    by (vm_compute; reflexivity).
  rewrite E in Hn. cbn [option_map snd] in Hn. injection Hn as Hn.
  assert (Hc : match candidates (local_ connectingA) !! 0%nat, candidates (remote_ connectingA) !! 0%nat with
    | Some lc, Some rc => pairable lc rc | _, _ => false end = true) by (vm_compute; reflexivity).
  destruct (candidates (local_ connectingA) !! 0%nat) as [lc|] eqn:El; [|discriminate Hc].
  destruct (candidates (remote_ connectingA) !! 0%nat) as [rc|] eqn:Er; [|discriminate Hc].
  apply (Hall ltac:(rewrite Hn; unfold MaxCandidatePairs; lia) 0%nat lc 0%nat rc El Er).
  apply pairable_mayPair, Hc.
Defined.

Lemma checks_follow_schedule_witness :
  exists s', armNextFrozenPair connectingA = Some (tt, s') /\ (length (entries_ s') <= MaxStunEntries)%nat.
Proof.
  destruct (checks_follow_schedule connectingA connectingA_inv) as (s' & new & E & _ & _ & Hl & _).
  exists s'. exact (conj E Hl).
Defined.

Example connectingA_shape :
  (length (pairs_ connectingA), length (entries_ connectingA), countInProgressChecks connectingA)
  = (1, 1, 1)%nat.
Proof. vm_compute. reflexivity. Qed.
