(* ===== verification/AgentAuth.v ===== *)
(** * Credentials and roles

    Which requests can change an agent, and that the checks of the peer are among them: a
    check built by one agent is signed, sent, decoded and verified by the other, which reads
    the role, the tie-breaker and the nomination back from it. *)

From Stdlib Require Import Ascii.
From S2P Require Import Prelude.
From S2P Require Import Bytes.
From S2P Require Import Crypto.
From S2P Require Import Addr.
From S2P Require Import StunMessage.
From S2P Require Import StunAttributes.
From S2P Require Import CText.
From S2P Require Import Candidate.
From S2P Require Import CandidatePair.
From S2P Require Import Sdp.
From S2P Require Import PairingStrategy.
From S2P Require Import AgentState.
From S2P Require Import AgentPairs.
From S2P Require Import AgentStun.
From S2P Require Import AgentLoop.
From S2P Require Import AgentGather.
From S2P Require Import AgentInv.
From S2P Require Import AgentSafe.
From S2P Require Import AgentSteps.
From S2P Require Import AgentRun.
From S2P Require Import AgentDemo.
Open Scope Z_scope.
Open Scope c_scope.

(** ** Requests without credentials *)

(** The agent without what has been sent. *)
Definition unsent (s : Agent) : Agent := s <| outs := [] |> <| sends := 0%nat |> <| udpCtrlQueue_ := [] |>.

Lemma pres_nextSend : preserves unsent nextSend.
Proof. by intros s a s' [= <- <-]. Qed.
#[export] Hint Resolve pres_nextSend : pres.

Section Env.
Context (env : Env).

Lemma pres_sendUdp data dst control : preserves unsent (sendUdp env data dst control).
Proof. unfold sendUdp. preserve. Qed.
Hint Resolve pres_sendUdp : pres.

Lemma pres_sendTcp data o : preserves unsent (sendTcp env data o).
Proof. unfold sendTcp. preserve. Qed.
Hint Resolve pres_sendTcp : pres.

Lemma pres_sendTurnDataConn data : preserves unsent (sendTurnDataConn env data).
Proof. unfold sendTurnDataConn. preserve. Qed.
Hint Resolve pres_sendTurnDataConn : pres.

Lemma pres_sendBindingResponse m dst c : preserves unsent (sendBindingResponse env m dst c).
Proof. unfold sendBindingResponse, answerUdp. preserve. Qed.

(** What [verifyBindingRequest] accepts. *)
Lemma verify_true s m :
  verifyBindingRequest s m = Some true ->
  exists u, getString m AttrType.Username = textBytes (iceUfrag (local_ s)) ++ 58 :: u /\
    (iceUfrag (remote_ s) <> [] -> u = textBytes (iceUfrag (remote_ s))) /\
    checkIntegrity m (textBytes (icePwd (local_ s))) false = Some true.
Proof.
  unfold verifyBindingRequest. set (un := getString m AttrType.Username).
  destruct (list_find (fun b => b = 58) un) as [[pos b]|] eqn:Ef; [|done].
  apply list_find_Some in Ef as (Ep & -> & _). destruct (decide (take pos un = textBytes (iceUfrag (local_ s)))) as [El|El].
  2:{ rewrite bool_decide_false by done. done. }
  rewrite bool_decide_true by done. simpl. destruct (_ && _) eqn:Er; [done|]. intros Hi.
  exists (drop (S pos) un). split; [|split; [|done]].
  - rewrite <- El. by rewrite (take_drop_middle _ _ _ Ep).
  - intros Hr. rewrite bool_decide_false in Er by done. simpl in Er.
    apply negb_false_iff, bool_decide_eq_true in Er. done.
Qed.
End Env.

(** C9: a Binding request changes nothing unless it carries the agent's credentials.  Every
    request is answered or ignored; if afterwards anything but the sent packets is different,
    its USERNAME was our ufrag, a colon, and the peer's ufrag when that is known, and its
    MESSAGE-INTEGRITY is the HMAC under our password. *)
Theorem request_needs_credentials (env : Env) (m : Message) (src : AddrRecord) (tr : CandidateTransport)
    (s : Agent) :
  msg_ok m -> inv s -> cls m = Request ->
  exists s', handleStunMessage env m src tr s = Some (tt, s') /\
    (unsent s' = unsent s \/
     exists u, getString m AttrType.Username = textBytes (iceUfrag (local_ s)) ++ 58 :: u /\
       (iceUfrag (remote_ s) <> [] -> u = textBytes (iceUfrag (remote_ s))) /\
       checkIntegrity m (textBytes (icePwd (local_ s))) false = Some true).
Proof.
  intros Hm Hs Hc. destruct (wp_handleStunMessage env m src tr s Hm Hs) as ([] & s' & E & _).
  exists s'. split; [done|]. destruct (verify_total s m Hm) as [[|] Ev]; [right; by apply verify_true|]. left.
  revert E. unfold handleStunMessage. rewrite Hc, bool_decide_true by done.
  destruct (negb _); [by intros [= <-]|]. unfold handleBindingRequest.
  unfold mbind at 1, SM_bind at 1. simpl. destruct (isOwnRelay s src); [by intros [= <-]|].
  unfold mbind at 1, SM_bind at 1, lift at 1. rewrite Ev. simpl. apply pres_sendBindingResponse.
Qed.

(** A request without attributes. *)
Definition bareRequest : bytes := [0; 1; 0; 0; 33; 18; 164; 66; 1; 2; 3; 4; 5; 6; 7; 8; 9; 10; 11; 12].
Definition bareMessage : Message :=
  mkMessage Method.Binding Request [1; 2; 3; 4; 5; 6; 7; 8; 9; 10; 11; 12] [] bareRequest.

Lemma bareMessage_ok : msg_ok bareMessage.
Proof.
  destruct (decoded_ok bareRequest) as (ok & m & E & H); [by apply (bool_decide_unpack _), I|].
  assert (E' : decode emptyMessage bareRequest = Some (true, bareMessage)) by by vm_compute.
  rewrite E' in E. simplify_eq. by apply H.
Qed.

Lemma request_needs_credentials_witness :
  exists s', handleStunMessage (agentEnv 50) bareMessage addrB UDP connectingA = Some (tt, s') /\
    (unsent s' = unsent connectingA \/
     exists u, [] = textBytes (iceUfrag (local_ connectingA)) ++ 58 :: u /\
       (iceUfrag (remote_ connectingA) <> [] -> u = textBytes (iceUfrag (remote_ connectingA))) /\
       checkIntegrity bareMessage (textBytes (icePwd (local_ connectingA))) false = Some true).
Proof.
  exact (request_needs_credentials (agentEnv 50) bareMessage addrB UDP connectingA bareMessage_ok
           connectingA_inv eq_refl).
Defined.

(** ** The peer's check *)

(** What the attributes after USERNAME have in common. *)
Definition small (a : Attribute) : Prop :=
  attr_ok a /\ (length (value a) <= 8)%nat /\ atype a <> AttrType.MessageIntegrity.

Lemma small_intro ty v :
  fits 16 ty -> ty <> AttrType.MessageIntegrity -> bytes_ok v -> (length v <= 8)%nat -> small (mkAttr ty v).
Proof. intros Ht Hn Hv Hl. split; [|done]. split; [done|]. split; [cbn [value]; pow2_norm; lia | done]. Qed.

Lemma small_u32 ty v : fits 16 ty -> ty <> AttrType.MessageIntegrity -> small (mkAttr ty (writeU32Be v)).
Proof. intros. apply small_intro; [done | done | apply writeU32Be_ok | simpl; lia]. Qed.

Lemma small_u64 ty v : fits 16 ty -> ty <> AttrType.MessageIntegrity -> small (mkAttr ty (writeU64Be v)).
Proof. intros. destruct (writeU64Be_ok v). apply small_intro; [done | done | done | lia]. Qed.

(** The attributes of a check after USERNAME. *)
Definition checkAttrs (env : Env) (s : Agent) (pl : option (CandidatePair * Candidate)) : list Attribute :=
  drop 1 (attributes (checkMessage env s [] pl)).

Definition checkUser (s : Agent) : bytes := textBytes (iceUfrag (remote_ s) ++ lit ":" ++ iceUfrag (local_ s)).

Lemma checkMessage_shape env s tid pl :
  checkMessage env s tid pl =
  mkMessage Method.Binding Request tid (mkAttr AttrType.Username (checkUser s) :: checkAttrs env s pl) [].
Proof.
  unfold checkAttrs, checkMessage, tcpTypeAttr, nominationAttrs, roleAttr.
  destruct pl as [[p lc]|]; [|by case_match]. by repeat case_match.
Qed.

(** At most [n] such attributes follow the first. *)
Definition smalls (n : nat) (m : Message) : Prop :=
  Forall small (drop 1 (attributes m)) /\ (1 <= length (attributes m) <= S n)%nat.

Lemma smalls_add n m ty v : smalls n m -> small (mkAttr ty v) -> smalls (S n) (addAttribute m ty v).
Proof.
  intros [H1 H2] Ha. unfold smalls, addAttribute. cbn [attributes]. rewrite length_app. simpl length.
  split; [|lia]. rewrite drop_app_le by lia. by apply Forall_app_2; [|apply Forall_singleton].
Qed.

Lemma smalls_weaken n k m : smalls n m -> (n <= k)%nat -> smalls k m.
Proof. intros [H1 H2] Hk. split; [done | lia]. Qed.

Lemma smalls_role n s m : smalls n m -> smalls (S n) (roleAttr s m).
Proof. intros H. unfold roleAttr. destruct (bool_decide _); (apply smalls_add; [done | by apply small_u64]). Qed.

Lemma small_useCandidate : small (mkAttr AttrType.UseCandidate []).
Proof. apply small_intro; [done | done | constructor | simpl; lia]. Qed.

Lemma smalls_nomination n s p m : smalls n m -> smalls (S (S n)) (nominationAttrs s p m).
Proof.
  intros H. unfold nominationAttrs. destruct (_ && _); [|by apply (smalls_weaken n); [|lia]].
  destruct (1 <? _); [apply smalls_add; [|by apply small_u32] | eapply smalls_weaken; [|apply Nat.le_succ_diag_r]];
    apply smalls_add; done || apply small_useCandidate.
Qed.

Lemma smalls_tcpType n lc m : smalls n m -> smalls (S n) (tcpTypeAttr lc m).
Proof.
  intros H. unfold tcpTypeAttr. destruct (transport lc); [by apply (smalls_weaken n); [|lia] | ..];
    (apply smalls_add; [done | by apply small_u32]).
Qed.

Lemma checkAttrs_small env s pl : Forall small (checkAttrs env s pl) /\ (length (checkAttrs env s pl) <= 5)%nat.
Proof.
  assert (H : smalls 5 (checkMessage env s [] pl)).
  { unfold checkMessage, addString. set (m0 := addAttribute _ _ _).
    assert (H0 : smalls 0 m0) by (split; [constructor | simpl; lia]). clearbody m0.
    destruct pl as [[p lc]|].
    - apply smalls_tcpType, smalls_nomination, smalls_role, smalls_add; [done | by apply small_u32].
    - apply (smalls_weaken 1); [by apply smalls_role | lia]. }
  unfold checkAttrs. destruct H as [H1 H2]. split; [done|]. rewrite length_drop. lia.
Qed.

(** ** The check on the wire *)

Lemma textBytes_ok t : bytes_ok (textBytes t).
Proof.
  apply Forall_fmap, Forall_forall. intros c _. unfold fits, code, compose.
  pose proof (nat_ascii_bounded c). pow2_norm. lia.
Qed.

Lemma tlv_short a : attr_ok a -> (length (tlv a) <= length (value a) + 7)%nat.
Proof.
  intros H. rewrite tlv_length_ok by done. destruct H as (_ & H & _).
  destruct (paddedLen_bounds (length (value a))) as [Hp _]; [width | lia].
Qed.

Lemma tlvs_small l : Forall small l -> (length (tlvs l) <= 15 * length l)%nat.
Proof.
  induction 1 as [|a l [Ha [Hv _]] Hl IH]; [simpl; lia|]. rewrite tlvs_cons, length_app.
  pose proof (tlv_short a Ha) as H1. rewrite length_cons. clear -Hv IH H1. lia.
Qed.

Definition ufrag_ok (t : text) : Prop := (length t <= MaxUfragLen)%nat.

Section Check.
Context (env : Env) (s : Agent) (tid : bytes) (pl : option (CandidatePair * Candidate)) (pw : bytes).
Context (Htid : length tid = 12%nat /\ bytes_ok tid).
Context (Hl : ufrag_ok (iceUfrag (local_ s))) (Hr : ufrag_ok (iceUfrag (remote_ s))).

Lemma checkUser_length : (length (checkUser s) <= 513)%nat.
Proof.
  unfold checkUser. rewrite textBytes_length, !length_app. unfold ufrag_ok, MaxUfragLen in *. simpl. lia.
Qed.

Lemma checkUser_ok : attr_ok (mkAttr AttrType.Username (checkUser s)).
Proof.
  pose proof checkUser_length. split; [done|]. split; [cbn [value]; pow2_norm; lia|]. apply textBytes_ok.
Qed.

Lemma check_wire_size : Z.of_nat (length (tlvs (wireAttrs (checkMessage env s tid pl) (Some pw) None (Some software)))) < 60000.
Proof.
  destruct (checkAttrs_small env s pl) as [Hs Hn]. rewrite checkMessage_shape.
  unfold wireAttrs, encAttrsMi, encAttrs, credAttrs, softAttrs. cbn [cls attributes].
  rewrite decide_False by done. rewrite !tlvs_app, !length_app. set (mi := miAttr _ _ _ _). set (fp := fpAttr _ _ _).
  assert (Hmi : length (tlvs [mi]) = 24%nat).
  { rewrite tlvs_one, tlv_length_ok by apply miAttr_ok. unfold mi, miAttr. cbn [value].
    by rewrite (proj1 (hmacSha1_ok _ _)). }
  assert (Hfp : length (tlvs [fp]) = 8%nat) by (by rewrite tlvs_one, tlv_length_ok by apply fpAttr_ok).
  rewrite Hmi, Hfp, tlvs_cons, length_app. pose proof (tlv_short _ checkUser_ok) as Hu. cbn [value] in Hu.
  pose proof checkUser_length. pose proof (tlvs_small _ Hs). change (length (tlvs (opt_attr AttrType.Software software))) with 12%nat.
  change (length (tlvs [])) with 0%nat. lia.
Qed.

Lemma checkMessage_enc_ok : enc_ok (checkMessage env s tid pl) (Some pw) None (Some software).
Proof.
  pose proof check_wire_size as Hsize. destruct (checkAttrs_small env s pl) as [Hs _].
  assert (Hok : Forall attr_ok (checkAttrs env s pl)) by (eapply Forall_impl; [exact Hs|]; by intros a [? _]).
  constructor; [..|pow2_norm; lia]; rewrite ?checkMessage_shape;
    [done | done | by constructor; [apply checkUser_ok|] | done | by apply (bool_decide_unpack _), I].
Qed.
End Check.

(** ** Reading the check back *)

Lemma find_attr_snoc ty l a : atype a <> ty -> find_attr ty (l ++ [a]) = find_attr ty l.
Proof.
  intros Ha. destruct (find_attr ty l) as [b|] eqn:E; [by apply find_attr_app_Some|].
  rewrite find_attr_app by done. simpl. by apply Z.eqb_neq in Ha as ->.
Qed.

(** No attribute of the request is one that [encode] adds. *)
Lemma find_check_wire env s tid pl pw ty :
  ty <> AttrType.MessageIntegrity -> ty <> AttrType.Fingerprint -> ty <> AttrType.Software ->
  find_attr ty (wireAttrs (checkMessage env s tid pl) (Some pw) None (Some software)) =
  find (checkMessage env s tid pl) ty.
Proof.
  intros H1 H2 H3. unfold wireAttrs. rewrite find_attr_snoc by done. unfold encAttrsMi.
  rewrite decide_False by by rewrite checkMessage_shape. rewrite find_attr_snoc by done.
  unfold encAttrs, credAttrs. change (softAttrs (Some software)) with [mkAttr AttrType.Software software].
  rewrite app_nil_l. by rewrite find_attr_snoc.
Qed.

Definition nominates (s : Agent) (pl : option (CandidatePair * Candidate)) : bool :=
  match pl with
  | Some (p, _) => bool_decide (mode_ s = Controlling) && nominationRequested p && negb (nominated p)
  | None => false
  end.

Lemma find_role env s tid pl :
  find (checkMessage env s tid pl) AttrType.IceControlling =
    (if bool_decide (mode_ s = Controlling)
     then Some (mkAttr AttrType.IceControlling (writeU64Be (tiebreaker_ s))) else None) /\
  find (checkMessage env s tid pl) AttrType.IceControlled =
    (if bool_decide (mode_ s = Controlling)
     then None else Some (mkAttr AttrType.IceControlled (writeU64Be (tiebreaker_ s)))).
Proof.
  unfold checkMessage, nominationAttrs, roleAttr. destruct pl as [[p lc]|]; [|by destruct (bool_decide _)].
  destruct (bool_decide (mode_ s = Controlling)); simpl; [destruct (nominationRequested p && _)|];
    [destruct (1 <? _) | .. ]; unfold tcpTypeAttr; by destruct (transport lc).
Qed.

Lemma find_useCandidate env s tid pl :
  find (checkMessage env s tid pl) AttrType.UseCandidate =
  if nominates s pl then Some (mkAttr AttrType.UseCandidate []) else None.
Proof.
  unfold checkMessage, nominationAttrs, roleAttr, nominates. destruct pl as [[p lc]|]; [|by destruct (bool_decide _)].
  destruct (bool_decide (mode_ s = Controlling)); simpl; [|unfold tcpTypeAttr; by destruct (transport lc)].
  destruct (nominationRequested p && _); simpl; [destruct (1 <? _)|]; unfold tcpTypeAttr; by destruct (transport lc).
Qed.

(** ** Two agents that have exchanged their credentials *)

(** [a] sends checks to [b]: it has the credentials of [b], and [b] knows its ufrag or none. *)
Record peers (a b : Agent) : Prop := {
  pe_ufrag : iceUfrag (remote_ a) = iceUfrag (local_ b);
  pe_pwd : icePwd (remote_ a) = icePwd (local_ b);
  pe_back : iceUfrag (remote_ b) = [] \/ iceUfrag (remote_ b) = iceUfrag (local_ a);
  pe_sizeA : ufrag_ok (iceUfrag (local_ a)); pe_sizeB : ufrag_ok (iceUfrag (local_ b));
  pe_colon : Forall (fun c => c <> ":"%char) (iceUfrag (local_ b));
  pe_nul : Forall (fun c => c <> NUL) (icePwd (local_ b)) }.

Lemma code_colon c : code c = 58 -> c = ":"%char.
Proof.
  unfold code. intros H. rewrite <- (ascii_nat_embedding c). assert (nat_of_ascii c = 58%nat) as -> by lia. done.
Qed.

Lemma find_colon (u v : text) :
  Forall (fun c => c <> ":"%char) u ->
  list_find (fun b => b = 58) (textBytes (u ++ lit ":" ++ v)) = Some (length u, 58).
Proof.
  intros Hu. apply list_find_Some. unfold textBytes. rewrite fmap_app. split; [|split; [done|]].
  - rewrite lookup_app_r by (rewrite length_fmap; lia). rewrite length_fmap, Nat.sub_diag. reflexivity.
  - intros j y Hj Hlt. rewrite lookup_app_l in Hj by (rewrite length_fmap; lia).
    rewrite list_lookup_fmap in Hj. destruct (u !! j) as [c|] eqn:Ec; simplify_eq/=.
    intros Hc. apply code_colon in Hc. exact (Forall_lookup_1 _ _ _ _ Hu Ec Hc).
Qed.

Lemma verify_check a b m raw :
  peers a b -> getString m AttrType.Username = checkUser a ->
  checkIntegrity m (textBytes (icePwd (local_ b))) false = Some raw -> verifyBindingRequest b m = Some raw.
Proof.
  intros [Eu Ep Eb _ _ Hc _] Hu Hi. unfold verifyBindingRequest. rewrite Hu. unfold checkUser.
  rewrite Eu, find_colon by done.
  assert (E1 : take (length (iceUfrag (local_ b))) (textBytes (iceUfrag (local_ b) ++ lit ":" ++ iceUfrag (local_ a)))
               = textBytes (iceUfrag (local_ b))).
  { unfold textBytes. rewrite fmap_app, take_app_le by (rewrite length_fmap; lia).
    by rewrite take_ge by (rewrite length_fmap; lia). }
  assert (E2 : drop (S (length (iceUfrag (local_ b)))) (textBytes (iceUfrag (local_ b) ++ lit ":" ++ iceUfrag (local_ a)))
               = textBytes (iceUfrag (local_ a))).
  { unfold textBytes. rewrite fmap_app, drop_app_ge by (rewrite length_fmap; lia). rewrite length_fmap.
    by replace (S (length (iceUfrag (local_ b))) - length (iceUfrag (local_ b)))%nat with 1%nat by lia. }
  rewrite E1, E2, bool_decide_true by done. simpl.
  destruct Eb as [-> | ->]; [by rewrite bool_decide_true|].
  rewrite (bool_decide_true (textBytes _ = textBytes _)) by done. simpl. by rewrite andb_false_r.
Qed.

(** A request that tells the role and the tie-breaker of [a]. *)
Definition carriesRole (a : Agent) (d : Message) : Prop :=
  if bool_decide (mode_ a = Controlling)
  then readIceControlling d = Some (Some (tiebreaker_ a)) /\ find d AttrType.IceControlled = None
  else readIceControlled d = Some (Some (tiebreaker_ a)) /\ find d AttrType.IceControlling = None.

(** C10: an agent accepts the checks of its peer.  When [a] has the credentials of [b], and [b]
    knows the ufrag of [a] or none, then the check [a] builds for any of its pairs is encoded,
    [b] decodes it to a Binding request with the same transaction ID, and the credentials
    pass; [b] reads the role of [a] with its tie-breaker, no attribute of the other role, and
    USE-CANDIDATE exactly when [a], in the controlling role, asks for the nomination of a pair
    that is not nominated yet. *)
Theorem peer_check_accepted (env : Env) (a b : Agent) (tid : bytes) (pl : option (CandidatePair * Candidate)) :
  peers a b -> length tid = 12%nat -> bytes_ok tid -> fits 64 (tiebreaker_ a) ->
  exists m d,
    encode (checkMessage env a tid pl) (Some (textBytes (cstr (icePwd (remote_ a))))) None (Some software) = Some m /\
    decode emptyMessage (raw m) = Some (true, d) /\
    method d = Method.Binding /\ cls d = Request /\ transactionID d = tid /\
    verifyBindingRequest b d = Some true /\
    carriesRole a d /\
    hasUseCandidate d = nominates a pl.
Proof.
  intros Hp Ht Hb Htb. pose proof Hp as [Eu Ep Eb Ha Hb' Hc Hn]. rewrite Ep, cstr_id by done.
  set (pw := textBytes (icePwd (local_ b))).
  assert (Hok : enc_ok (checkMessage env a tid pl) (Some pw) None (Some software)).
  { apply checkMessage_enc_ok; [done | done | by rewrite Eu]. }
  assert (Hms : method (checkMessage env a tid pl) = Method.Binding /\ cls (checkMessage env a tid pl) = Request /\
    transactionID (checkMessage env a tid pl) = tid) by by rewrite checkMessage_shape.
  destruct Hms as (Em & Ecl & Et).
  do 2 eexists. split; [by apply encode_ok|]. cbn [raw].
  split; [rewrite <- (app_nil_r (frame _ _ _)); by apply decode_frame, encode_frame_ok|].
  destruct (encodeType_decode _ (cls (checkMessage env a tid pl)) (eo_method _ _ _ _ Hok)) as [Ed1 Ed2].
  rewrite Ed1. cbn [method cls transactionID fst snd]. split; [done|]. split; [done|]. split; [done|].
  assert (Hfind : forall ty r, ty <> AttrType.MessageIntegrity -> ty <> AttrType.Fingerprint -> ty <> AttrType.Software ->
    find (mkMessage (method (checkMessage env a tid pl)) (cls (checkMessage env a tid pl))
      (transactionID (checkMessage env a tid pl))
      (wireAttrs (checkMessage env a tid pl) (Some pw) None (Some software)) r) ty = find (checkMessage env a tid pl) ty).
  { intros ty r H1 H2 H3. by apply find_check_wire. }
  destruct (find_role env a tid pl) as [Hr1 Hr2].
  split; [|split].
  - apply (verify_check a b); [done | |].
    + unfold getString. rewrite Hfind by done. by rewrite checkMessage_shape.
    + erewrite checkIntegrity_encoded; [|exact Hok | by rewrite Ecl | | by rewrite app_nil_r].
      * by rewrite bool_decide_true.
      * rewrite checkMessage_shape. cbn [attributes]. constructor; [done|].
        destruct (checkAttrs_small env a pl) as [Hs _]. eapply Forall_impl; [exact Hs|]. by intros x (_ & _ & ?).
  - unfold carriesRole. destruct (bool_decide (mode_ a = Controlling)); (split; [|by rewrite Hfind]);
      apply readSized_u64; try done; by rewrite Hfind.
  - unfold hasUseCandidate. rewrite Hfind, find_useCandidate by done. by destruct (nominates a pl).
Qed.

Lemma connectingA_peers : peers connectingA agentB.
Proof. constructor; try (by vm_compute); [by left | ..]; by apply (bool_decide_unpack _); vm_compute. Qed.

Lemma peer_check_accepted_witness :
  exists m d,
    encode (checkMessage (agentEnv 50) connectingA (replicate 12 1) None)
      (Some (textBytes (cstr (icePwd (remote_ connectingA))))) None (Some software) = Some m /\
    decode emptyMessage (raw m) = Some (true, d) /\
    method d = Method.Binding /\ cls d = Request /\ transactionID d = replicate 12 1 /\
    verifyBindingRequest agentB d = Some true /\ carriesRole connectingA d /\
    hasUseCandidate d = nominates connectingA None.
Proof.
  apply (peer_check_accepted (agentEnv 50) connectingA agentB (replicate 12 1) None);
    [exact connectingA_peers | reflexivity | by apply (bool_decide_unpack _), I | ].
  vm_compute. split; congruence.
Defined.

(** ** Role conflicts *)

Lemma readSized_find m ty f rd v : readSized m ty f rd = Some (Some v) -> is_Some (find m ty).
Proof. unfold readSized. by destruct (find m ty). Qed.

(** C11: a role conflict is resolved the same way by both agents.  When two agents in the same
    role, with different tie-breakers, receive each other's checks, the one with the larger
    tie-breaker has the controlling role afterwards and the other the controlled one: one of
    them keeps its role and answers 487, the other has switched.  An agent that gets the 487
    before the other's check switches to the same role. *)
Theorem role_conflict_converges (a b : Agent) (da db : Message) :
  mode_ a = mode_ b -> mode_ a <> ModeUnknown -> tiebreaker_ b < tiebreaker_ a ->
  carriesRole a da -> carriesRole b db ->
  exists keepA a' keepB b',
    resolveRole db a = Some (keepA, a') /\ resolveRole da b = Some (keepB, b') /\
    mode_ a' = Controlling /\ mode_ b' = Controlled /\
    keepA = bool_decide (mode_ a = Controlling) /\ keepB = negb keepA /\
    (keepA = true -> switchRole b = mode_ b') /\ (keepB = true -> switchRole a = mode_ a').
Proof.
  intros Hm Hk Htb Ha Hb. unfold carriesRole in Ha, Hb. unfold resolveRole.
  destruct (decide (mode_ a = Controlling)) as [Ec|Ec].
  - rewrite !bool_decide_true in * by congruence. destruct Ha as [Ra Na], Hb as [Rb Nb].
    destruct (readSized_find _ _ _ _ _ Ra) as [xa Fa], (readSized_find _ _ _ _ _ Rb) as [xb Fb].
    unfold mbind, SM_bind, gets, id. rewrite Fa, Fb, Ra, Rb. simpl.
    rewrite !bool_decide_true by congruence.
    destruct (Z.leb_spec (tiebreaker_ b) (tiebreaker_ a)); [|lia].
    destruct (Z.leb_spec (tiebreaker_ a) (tiebreaker_ b)); [lia|].
    do 4 eexists. split; [reflexivity|]. split; [reflexivity|]. upd. unfold switchRole.
    rewrite bool_decide_true by congruence. done.
  - assert (Ed : mode_ a = Controlled) by (destruct (mode_ a); congruence).
    rewrite !(bool_decide_false (_ = Controlling)) in * by congruence. destruct Ha as [Ra Na], Hb as [Rb Nb].
    destruct (readSized_find _ _ _ _ _ Ra) as [xa Fa], (readSized_find _ _ _ _ _ Rb) as [xb Fb].
    unfold mbind, SM_bind, gets, id. rewrite Fa, Fb, Na, Nb, Ra, Rb. simpl.
    rewrite !(bool_decide_true (_ = Controlled)) by congruence.
    destruct (Z.leb_spec (tiebreaker_ b) (tiebreaker_ a)); [|lia].
    destruct (Z.leb_spec (tiebreaker_ a) (tiebreaker_ b)); [lia|].
    do 4 eexists. split; [reflexivity|]. split; [reflexivity|]. upd. unfold switchRole.
    rewrite bool_decide_false by congruence. by rewrite Ed, <- Hm, Ed.
Qed.

(** A check without a pair, as the environment would carry it. *)
Definition roleMessage (s : Agent) : Message := checkMessage (agentEnv 0) s (replicate 12 1) None.

Lemma role_conflict_converges_witness :
  let a := agentA <| mode_ := Controlling |> <| tiebreaker_ := 20 |> in
  let b := agentB <| mode_ := Controlling |> in
  exists keepA a' keepB b',
    resolveRole (roleMessage b) a = Some (keepA, a') /\ resolveRole (roleMessage a) b = Some (keepB, b') /\
    mode_ a' = Controlling /\ mode_ b' = Controlled /\
    keepA = bool_decide (mode_ a = Controlling) /\ keepB = negb keepA /\
    (keepA = true -> switchRole b = mode_ b') /\ (keepB = true -> switchRole a = mode_ a').
Proof.
  intros a b. apply (role_conflict_converges a b (roleMessage a) (roleMessage b));
    [reflexivity | discriminate | reflexivity | split; reflexivity | split; reflexivity].
Defined.
