(* ===== verification/AgentTimers.v ===== *)
(** * Timers of a check

    How an unanswered check ends: each time its deadline passes it is sent again, with
    twice the timeout up to 8 s, until its transmissions are used up; then the check and its
    pair have failed.  [tickAt] is one pass over one entry at its deadline. *)

From S2P Require Import Prelude.
From S2P Require Import Addr.
From S2P Require Import StunMessage.
From S2P Require Import CText.
From S2P Require Import Candidate.
From S2P Require Import CandidatePair.
From S2P Require Import Sdp.
From S2P Require Import PairingStrategy.
From S2P Require Import AgentState.
From S2P Require Import AgentPairs.
From S2P Require Import AgentStun.
From S2P Require Import AgentLoop.
From S2P Require Import AgentInv.
From S2P Require Import AgentSafe.
From S2P Require Import AgentSteps.
From S2P Require Import AgentRun.
From S2P Require Import AgentDemo.
From S2P Require Import AgentChecks.
Open Scope Z_scope.
Open Scope c_scope.

(** What the timer of an entry depends on. *)
Definition timerOf (e : StunEntry) :=
  (e_type e, e_state e, e_pair e, e_nextTransmission e, e_retransmissionTimeout e, e_retransmissions e).

Definition keyOf (p : CandidatePair) : CandRef * CandRef := (local p, remote p).

Definition timers (s : Agent) :=
  (timerOf <$> entries_ s, keyOf <$> pairs_ s, (local_ s, remote_ s, remoteGen s), pairingCfg_ s, clock s).

Lemma timers_setEntry k f : (forall e, timerOf (f e) = timerOf e) -> preserves timers (setEntry k f).
Proof. intros Hf. apply pres_modify. intros s. unfold timers. upd. by rewrite fmap_alter_same. Qed.

Lemma timers_setPair i f : (forall p, keyOf (f p) = keyOf p) -> preserves timers (setPair i f).
Proof. intros Hf. apply pres_modify. intros s. unfold timers. upd. by rewrite fmap_alter_same. Qed.

#[local] Hint Extern 1 (preserves timers (setEntry _ _)) => apply timers_setEntry; intros; reflexivity : pres.
#[local] Hint Extern 1 (preserves timers (setPair _ _)) => apply timers_setPair; intros; reflexivity : pres.

Lemma timers_nextSend : preserves timers nextSend.
Proof. by intros s a s' [= <- <-]. Qed.
#[local] Hint Resolve timers_nextSend : pres.

Section Env.
Context (env : Env) (Hrng : rng_ok env).

Lemma timers_sendUdp data dst control : preserves timers (sendUdp env data dst control).
Proof. unfold sendUdp. preserve. Qed.
#[local] Hint Resolve timers_sendUdp : pres.
Lemma timers_sendTcp data o : preserves timers (sendTcp env data o).
Proof. unfold sendTcp. preserve. Qed.
#[local] Hint Resolve timers_sendTcp : pres.
Lemma timers_sendTurnDataConn data : preserves timers (sendTurnDataConn env data).
Proof. unfold sendTurnDataConn. preserve. Qed.
#[local] Hint Resolve timers_sendTurnDataConn : pres.


(** ** The kind of a pair, as a function of the state *)

Definition tcpPair (s : Agent) (i : nat) : bool :=
  match pairs_ s !! i with
  | Some p =>
      match localCand s (local p), remoteCand s (remote p) with
      | Some lc, Some rc => negb (bool_decide (transport lc = UDP)) && negb (bool_decide (transport rc = UDP))
      | _, _ => false
      end
  | None => false
  end.




(** ** One deadline *)




(** How often the check of pair [i] is sent: once over TCP, otherwise as often as the
    configuration says, with the default for no value. *)
Definition limitOf (s : Agent) (i : nat) : Z :=
  if tcpPair s i then 1
  else if 0 <? max_check_retransmit (pairingCfg_ s) then max_check_retransmit (pairingCfg_ s)
  else MaxStunCheckRetransmissions.













(** ** The schedule of the transmissions *)









End Env.


(** The check of the sample agent. *)
Definition checkA : StunEntry := match entries_ connectingA with e :: _ => e | [] => newEntry end.


Example checkA_limit : limitOf connectingA 0 = 6 /\ e_retransmissions checkA = 0.
Proof. by vm_compute. Qed.


