(* ===== verification/AgentTheorems.v ===== *)
(** * What the agent guarantees

    Theorems about every state an agent can reach: the only event that gets stuck is a
    timer pass that appends to the deque it walks over, the lists are well formed, and the
    states reported to the application follow the state machine. *)

From S2P Require Import Prelude.
From S2P Require Import Bytes.
From S2P Require Import Addr.
From S2P Require Import StunMessage.
From S2P Require Import StunAttributes.
From S2P Require Import CText.
From S2P Require Import Candidate.
From S2P Require Import CandidatePair.
From S2P Require Import Sdp.
From S2P Require Import PairingStrategy.
From S2P Require Import AgentState.
From S2P Require Import AgentPairs.
From S2P Require Import AgentStun.
From S2P Require Import AgentLoop.
From S2P Require Import AgentGather.
From S2P Require Import AgentInv.
From S2P Require Import AgentSafe.
From S2P Require Import AgentSteps.
From S2P Require Import AgentRun.
From S2P Require Import AgentDemo.
Open Scope Z_scope.
Open Scope c_scope.

(** ** Every reachable state *)




(** The candidates a pair points to exist, and the remote one is not link-local. *)
Definition points_to_candidates (s : Agent) (p : CandidatePair) : Prop :=
  exists lc rc, localCand s (local p) = Some lc /\ remoteCand s (remote p) = Some rc /\
                addrIsLinkLocal (Some (addr (resolved rc))) = false.

Lemma pair_ok_points s p : pair_ok s p -> points_to_candidates s p.
Proof.
  intros (Hg & Hi & Hr & rc & Hrc & Hl). destruct (lookup_lt_is_Some_2 _ _ Hi) as [lc Hlc].
  exists lc, rc. unfold localCand, remoteCand. by rewrite !decide_True.
Qed.

(** C6: the data of a reachable agent are well formed.  Reachable means that every event was
    [allowed]: received data were bytes, and the remote description was set only while the
    agent had no pair ([early_check_dangles] shows a description that is set later and
    destroys a candidate a pair points to).  Then every pair points to a local and a
    remote candidate that exist, no two pairs have the same candidates, and there are at most
    90; a check belongs to a pair that exists, no pair has two checks, there are at most 92
    entries, each with a transaction ID of twelve bytes; the ordered list holds every pair
    once, by descending priority; the selected and the nominated pair exist. *)
Theorem agent_well_formed (env : Env) (cfg : GatherConfig) (s : Agent) :
  rng_ok env -> reach env cfg s ->
  Forall (points_to_candidates s) (pairs_ s) /\
  NoDup ((fun p => (local p, remote p)) <$> pairs_ s) /\ (length (pairs_ s) <= MaxCandidatePairs)%nat /\
  Forall (fun e => length (e_transactionID e) = 12%nat /\ (e_type e = Check <-> is_Some (e_pair e)) /\
                   forall i, e_pair e = Some i -> is_Some (pairs_ s !! i)) (entries_ s) /\
  NoDup (omap e_pair (entries_ s)) /\ (length (entries_ s) <= MaxStunEntries)%nat /\
  orderedPairs_ s ≡ₚ seq 0 (length (pairs_ s)) /\ sortedBy (priorityAt (pairs_ s)) (orderedPairs_ s) /\
  (forall i, selectedPair_ s = Some i \/ nominatedPair_ s = Some i -> is_Some (pairs_ s !! i)).
Proof.
  intros Hrng Hr. destruct (reach_inv env Hrng cfg s Hr) as [[H1 H2 H3 H4 H5 H6 H7 H8 H9 H10] Ho].
  rewrite Ho. split; [by eapply Forall_impl; [exact H1 | apply pair_ok_points]|].
  split; [done|]. split; [done|]. split.
  { eapply Forall_impl; [exact H4|]. intros e [P1 P2 P3]. split; [done|]. split.
    - split; [done|]. intros [i Hi]. by apply (P1 i).
    - intros i Hi. apply lookup_lt_is_Some_2. by apply (P1 i). }
  split; [done|]. split; [done|]. split; [apply orderPairs_perm|]. split; [apply orderPairs_sorted|].
  intros i [Hi|Hi]; apply lookup_lt_is_Some_2; auto.
Qed.

(** C7: the states reported to the application follow the state machine.  The reports of any
    run, from the first on, are a path from DISCONNECTED to the present state in which
    GATHERING follows only DISCONNECTED or FAILED, CONNECTING only GATHERING, CONNECTED only
    CONNECTING, COMPLETED only CONNECTED, and FAILED only CONNECTING, CONNECTED or
    COMPLETED; in particular no state is reported twice in a row. *)
Theorem agent_reports_legal (env : Env) (cfg : GatherConfig) (s : Agent) :
  rng_ok env -> reach env cfg s -> path STATE_DISCONNECTED (states (outs s)) (state_ s).
Proof. intros Hrng Hr. apply (reach_inv env Hrng cfg s Hr). Qed.

Lemma agent_well_formed_witness : (length (entries_ connectingA) <= MaxStunEntries)%nat.
Proof.
  refine (proj1 (proj2 (proj2 (proj2 (proj2 (proj2
    (agent_well_formed (agentEnv 50) (gatherCfg addrA) connectingA (agentEnv_rng 50) connectingA_reach))))))).
Defined.

Lemma agent_reports_legal_witness : path STATE_DISCONNECTED [STATE_GATHERING; STATE_CONNECTING] STATE_CONNECTING.
Proof.
  exact (agent_reports_legal (agentEnv 50) (gatherCfg addrA) connectingA (agentEnv_rng 50) connectingA_reach).
Defined.

(** ** Where the agent falls short

    Three runs of the sample agents in which the code does not do what it means to: a forged
    response connects the agent, an early check makes a later remote description read freed
    memory, and the loss of consent goes unnoticed. *)

Lemma runs_reach env cfg evs s s' :
  reach env cfg s -> runs (step env cfg) evs s = Some (tt, s') ->
  Forall (fun ev => forall s, allowed ev s) evs -> reach env cfg s'.
Proof.
  revert s. induction evs as [|ev evs IH]; intros s Hr E Ha; [by injection E as <-|].
  apply Forall_cons in Ha as [Ha1 Ha]. unfold runs in *. simpl in E. unfold mbind, SM_bind in E.
  destruct (step env cfg ev s) as [[[] s1]|] eqn:E1; [|done]. eapply IH; [|exact E|done].
  by eapply reach_step.
Qed.

(** ** Responses *)

(** A Binding success response without attributes. *)
Definition bareResponse (tid : bytes) : bytes := [1; 1; 0; 0; 33; 18; 164; 66] ++ tid.

Definition isDatagram (o : Output) : bool := match o with OUdp _ _ => true | _ => false end.

(** C25: a response is believed although no request was sent and nothing signs it.  The sample
    agent has its remote description and has armed a check, but has not sent anything.  A
    twenty-byte success response with an all-zero transaction ID, from the address of the
    remote candidate, makes the pair succeed, and the next timer reports CONNECTED. *)
Theorem forged_response_connects :
  reach (agentEnv 50) (gatherCfg addrA) connectingA /\
  existsb isDatagram (outs connectingA) = false /\
  exists s', runs stepA [EvUdp (bareResponse (replicate 12 0)) addrB UDP; EvTimer] connectingA = Some (tt, s') /\
    states (outs s') = [STATE_GATHERING; STATE_CONNECTING; STATE_CONNECTED] /\ selectedPair_ s' = Some 0%nat.
Proof.
  split; [apply connectingA_reach|]. split; [by vm_compute|].
  eexists. split; [vm_compute; reflexivity|]. split; vm_compute; reflexivity.
Qed.

(** ** The remote description *)

(** The check B sends to A. *)
Definition earlyCheck : bytes :=
  match encode (checkMessage (agentEnv 150) (agentB <| remote_ := credA |>) (replicate 12 9) None)
          (Some (textBytes (icePwd credA))) None (Some software) with
  | Some m => raw m | None => [] end.

Definition earlyA : Agent :=
  match stepA (EvUdp earlyCheck addrB UDP) gatheredA with Some (_, s) => s | None => agentA end.

(** A check that overtakes the remote description makes the agent read freed memory.  An
    authenticated check that arrives before the description of the peer creates a pair that
    points to a peer-reflexive candidate inside the present description.  Setting the
    description destroys that candidate, and arming the pair then dereferences it. *)
Theorem early_check_dangles :
  reach (agentEnv 50) (gatherCfg addrA) earlyA /\ length (pairs_ earlyA) = 1%nat /\
  stepA (EvSetRemoteDescription sdpB) earlyA = None.
Proof.
  split; [|split; vm_compute; reflexivity].
  apply (reach_step _ _ (EvUdp earlyCheck addrB UDP) gatheredA);
    [apply gatheredA_reach | by apply (bool_decide_unpack _); vm_compute | vm_compute; reflexivity].
Qed.

(** ** Consent *)

Definition addrC : AddrRecord := mkAddrRecord (SockIn 7000 [10; 0; 0; 3]) 16 SOCK_DGRAM.

(** Agent A with two addresses and the profile that checks one pair at a time. *)
Definition twoAddrs : GatherConfig :=
  mkGatherConfig false false None None [addrA; addrC] [] (fun sa => Some (namesOf sa)) (fun _ => [])
    [] None [] [].
Definition serialA : Agent := newAgent (makeIcePairingConfig MINIMAL_RESOURCE) credA 7.
Definition stepS (ev : Event) : M unit := step (agentEnv 50) twoAddrs ev.

(** B answers the first check and the nominating one, and is not heard of again; an hour
    later the timers still run. *)
Definition consentRun : list Event :=
  [EvClock 1000; EvGather; EvSetRemoteDescription sdpB; EvClock 1100; EvTimer;
   EvUdp (bareResponse (replicate 12 50)) addrB UDP; EvClock 1200; EvTimer; EvClock 1300; EvTimer;
   EvUdp (bareResponse (replicate 12 52)) addrB UDP; EvTimer].
Definition silence : list Event := [EvClock 40000; EvTimer; EvClock 3600000; EvTimer].

(** The loss of consent goes unnoticed while a pair waits that was never checked.  The
    sample agent completes on its first pair; the second stays frozen, as the serial schedule
    leaves it.  The peer falls silent, consent expires and the pair fails, but an hour later
    the agent still reports COMPLETED and the failed pair is still the selected one: nothing
    arms the frozen pair, and FAILED is reported only when every pair has failed. *)
Theorem consent_loss_unnoticed :
  exists s, runs stepS (consentRun ++ silence) serialA = Some (tt, s) /\
    states (outs s) = [STATE_GATHERING; STATE_CONNECTING; STATE_CONNECTED; STATE_COMPLETED] /\
    state_ s = STATE_COMPLETED /\ clock s = 3600000 /\ selectedPair_ s = Some 0%nat /\
    (fun p => (state p, consentExpiry p)) <$> pairs_ s = [(Failed, 31300); (Frozen, 0)] /\
    (e_pair <$> entries_ s) = [Some 0%nat].
Proof. eexists. split; [vm_compute; reflexivity|]. repeat split; vm_compute; reflexivity. Qed.

(** ** The loop over the entries *)

(** Nobody answers the first check of the serial agent; its last deadline has come. *)
Definition unansweredRun : list Event :=
  [EvClock 1000; EvGather; EvSetRemoteDescription sdpB; EvClock 1100; EvTimer; EvClock 3100; EvTimer;
   EvClock 7100; EvTimer; EvClock 15100; EvTimer; EvClock 23100; EvTimer; EvClock 31100].

(** The timer pass then appends the next check to the deque it iterates over, which
    invalidates the iterators of the loop. *)
Lemma timer_appends_while_iterating :
  exists s, runs stepS unansweredRun serialA = Some (tt, s) /\ growsWhileIterating (agentEnv 50) s /\
    stepS EvTimer s = None.
Proof.
  eexists. split; [vm_compute; reflexivity|]. split; [|vm_compute; reflexivity].
  eexists. exists [], 0%nat, []. do 2 eexists. split; [vm_compute; reflexivity|].
  split; [vm_compute; reflexivity|]. split; [reflexivity|]. split; [vm_compute; reflexivity|]. vm_compute. lia.
Qed.
