(* ===== verification/AgentTcp.v ===== *)
(** * The agent's ICE-TCP transport

    The part of ice/agent.cpp that opens and drives the TCP connection to a remote passive
    candidate: [addRemotePassiveTcpCandidate], [onTcpEvents] and [handleInboundTcp], over the
    agent of [AgentState] and the transport of [TcpTransport].  [IceTcp] is the agent together
    with its transport.  In the agent alone the transport is [tcpConnected_] and what is sent on
    it an output [OTcp]; here [tcpConnected_] follows the transport, and the outputs of each
    packet are queued on it.  The frames the agent sends on its own are STUN messages, which
    take the control queue, and those of [send] the data queue; the result [sendTcp] gives the
    agent stays [tcpAccepts] of its environment.  The calls of the application from a callback
    are steps of their own.  [getsockname] and [getnameinfo] are parameters. *)

From S2P Require Import Prelude.
From S2P Require Import StateMonad.
From S2P Require Import Bytes.
From S2P Require Import Addr.
From S2P Require Import StunMessage.
From S2P Require Import StunAttributes.
From S2P Require Import TcpTransport.
From S2P Require Import TcpStream.
From S2P Require Import UdpMux.
From S2P Require Import TcpMux.
From S2P Require Import TcpMuxInv.
From S2P Require Import CText.
From S2P Require Import Candidate.
From S2P Require Import CandidatePair.
From S2P Require Import Sdp.
From S2P Require Import PairingStrategy.
From S2P Require Import AgentState.
From S2P Require Import AgentPairs.
From S2P Require Import AgentStun.
From S2P Require Import AgentLoop.
From S2P Require Import AgentGather.
From S2P Require Import AgentInv.
From S2P Require Import AgentSafe.
From S2P Require Import AgentSteps.
From S2P Require Import AgentRun.
From S2P Require Import AgentDemo.
Open Scope Z_scope.
Open Scope c_scope.

Record IceTcp := mkIceTcp {
  ag : Agent; tcpTransport_ : option TcpTransport; tcpPeerAddr_ : AddrRecord; tcpSni_ : text; closedFds : list Z }.
#[export] Instance IceTcp_fields : RecordFields IceTcp := fun s =>
  mkIceTcp (ag s) (tcpTransport_ s) (tcpPeerAddr_ s) (tcpSni_ s) (closedFds s).

Abbreviation IM := (SM IceTcp).

Definition TcpConnectTimeoutMs : Z := 8000.

(** What the agent reads of its transport: the address of the peer when it is connected. *)
Definition view (s : IceTcp) : option AddrRecord :=
  match tcpTransport_ s with
  | Some t => if bool_decide (TcpTransport.state_ t = Connected) then Some (tcpPeerAddr_ s) else None
  | None => None
  end.
Definition syncView : IM unit := modify (fun s => s <| ag ::= fun a => a <| tcpConnected_ := view s |> |>).

(** A call of the transport through [tcpTransport_]. *)
Definition onTransport {A} (m : TM A) : IM A :=
  t ← gets tcpTransport_;
  t ← lift t;
  '(x, t) ← lift (m t);
  modify (fun s => s <| tcpTransport_ := Some t |>);;
  mret x.

(** [tcpTransport_.reset()]: the destructor closes the socket. *)
Definition reset : IM unit :=
  t ← gets tcpTransport_;
  match t with
  | None => skip
  | Some t =>
      modify (fun s => s <| closedFds ::= (fun l => l ++ closedSocks t ++ (if sock_ t =? INVALID_SOCKET then [] else [sock_ t])) |>
                         <| tcpTransport_ := None |>)
  end.

Definition tcpSends (l : list Output) : list bytes := omap (fun o => match o with OTcp d => Some d | _ => None end) l.

(** ** Checks that wait for the connection, and checks it takes with it *)

(** The loop over [entries_] once the transport is connected. *)
Definition armTcpCheck (k : nat) : M unit :=
  e ← getEntry k;
  if bool_decide (e_type e = Check) && bool_decide (e_state e = EPending) then
    tcp ← pairIsTcp (e_pair e);
    if (tcp : bool) && (e_retransmissions e =? 0) then
      t ← now;
      setEntry k (fun e => e <| e_nextTransmission := t |> <| e_retransmissionTimeout := StunTcpTimeoutMs |>)
    else skip
  else skip.
Definition armTcpChecks : M unit := n ← gets (fun s => length (entries_ s)); forM (seq 0 n) armTcpCheck.

(** The two loops when it is lost. *)
Definition failTcpPair (i : nat) : M unit :=
  tcp ← pairIsTcp (Some i); when tcp (setPair i (fun p => p <| state := CandidatePair.Failed |>)).
Definition failTcpCheck (k : nat) : M unit :=
  e ← getEntry k;
  if bool_decide (e_type e = Check) && bool_decide (e_state e = EPending) then
    tcp ← pairIsTcp (e_pair e); when tcp (setEntry k (fun e => e <| e_state := EFailed |>))
  else skip.
Definition failTcpPairs : M unit := n ← gets (fun s => length (pairs_ s)); forM (seq 0 n) failTcpPair.
Definition failTcpChecks : M unit := n ← gets (fun s => length (entries_ s)); forM (seq 0 n) failTcpCheck.
Definition failTcp : M unit := failTcpPairs;; failTcpChecks.

Section Run.
Context (Sy : TcpSys) (env : Env).

(** A frame of the agent's: [sendTcp] looks at the state of the transport. *)
Definition feed (ch : Chan) (d : bytes) : IM unit :=
  t ← gets tcpTransport_;
  match t with
  | Some t =>
      if bool_decide (TcpTransport.state_ t = Connected)
      then onTransport (match ch with Control => sendControl Sy d | Data => TcpTransport.send Sy d end);; skip else skip
  | None => skip
  end.

(** A call of the agent, with what it sends on the transport. *)
Definition onAgent {A} (ch : Chan) (m : M A) : IM A :=
  a ← gets ag;
  '(x, a') ← lift (m a);
  modify (fun s => s <| ag := a' |>);;
  forM (tcpSends (drop (length (outs a)) (outs a'))) (feed ch);;
  syncView;;
  mret x.

(** The loop of [handleInboundTcp]; every turn but the last takes a frame from the buffer. *)
Fixpoint inboundLoop (fuel : nat) : IM unit :=
  match fuel with
  | O => lift None
  | S fuel =>
      m ← onTransport (recv bufSize);
      if (length m =? 0)%nat then skip
      else peer ← gets tcpPeerAddr_; onAgent Control (handleInboundTcpPacket env m peer);; inboundLoop fuel
  end.

Definition handleInboundTcp : IM unit :=
  t ← gets tcpTransport_;
  match t with None => skip | Some t => inboundLoop (S (length (recvBuf_ t))) end.

(** The deadline of the connect, by the agent's clock. *)
Definition checkConnect : IM unit :=
  modify (fun s => s <| tcpTransport_ ::= fmap (fun t => t <| TcpTransport.clock := clock (ag s) |>) |>);;
  t ← onTransport (gets id);
  if connectTimedOut t then onTransport close else skip.

(** The same in the timer pass. *)
Definition bookkeepingConnect : IM unit :=
  t ← gets tcpTransport_;
  match t with None => skip | Some _ => checkConnect;; syncView end.

(** What the poll registry asks for. *)
Definition tcpSocket (s : IceTcp) : Z := match tcpTransport_ s with Some t => sock_ t | None => INVALID_SOCKET end.
Definition tcpDesiredEvents (s : IceTcp) : Z :=
  match tcpTransport_ s with
  | None => 0
  | Some t => if wantsWrite t then Z.lor POLLIN POLLOUT else POLLIN
  end.

(** The events, and what the reads return. *)
Definition onTcpEvents (pollin pollout bad : bool) (chunks : list bytes) (stop : ReadStop) : IM unit :=
  t ← gets tcpTransport_;
  match t with
  | None => skip
  | Some _ =>
      checkConnect;;
      (if bad then
         (if pollin then skip else onTransport (onReadable Sy chunks stop);; skip);;
         (if pollout then skip else onTransport (onWritable Sy);; skip)
       else skip);;
      (if pollout then onTransport (onWritable Sy);; skip else skip);;
      syncView;;
      (if pollin then onTransport (onReadable Sy chunks stop);; syncView;; handleInboundTcp else skip);;
      syncView;;
      t ← gets tcpTransport_;
      t ← lift t;
      if bool_decide (TcpTransport.state_ t = Connected) then onAgent Control armTcpChecks
      else if bool_decide (TcpTransport.state_ t = TcpTransport.Failed) || bool_decide (TcpTransport.state_ t = Disconnected) then
        onAgent Control failTcp;; reset;; syncView;; onAgent Control updateState
      else skip
  end.

(** ** Opening the connection *)

Definition resolveServer (host : text) (port : Z) (st : Z) : list AddrRecord :=
  match parseAddr (inetPton4 env) (inetPton6 env) (str host) port with
  | Some (sa, l) => [mkAddrRecord sa l st]
  | None => resolve (getaddrinfo env) (str host) (str (printU port)) st
  end.

(** The address to dial. *)
Definition dialAddr (remote : Candidate) : option AddrRecord :=
  if len (resolved remote) =? 0
  then head (resolveServer (hostname remote) (u16 (atoi (numberOutOfRange env) (service remote))) SOCK_STREAM)
  else Some (resolved remote).

Context (getsockname : Z -> option AddrRecord) (nameinfo : sockaddr -> option (text * text)).

(** The local candidate of the connection. *)
Definition activeCandidate (t : TcpTransport) (remoteAddr : AddrRecord) : Candidate :=
  let '(a, names) :=
    if sock_ t =? INVALID_SOCKET then (remoteAddr, None) else
    match getsockname (sock_ t) with
    | None => (remoteAddr, None)
    | Some la => (mkAddrRecord (addr la) (len la) SOCK_STREAM, nameinfo (addr la))
    end in
  let '(h, s) := match names with Some (h, s) => (h, s) | None => ([], []) end in
  let '(h, s) := if (length h =? 0)%nat then (lit "0.0.0.0", lit "0") else (h, s) in
  let c := mkCandidate Host TCPActive 0 1 [] h s a false emptyAddr in
  mkCandidate Host TCPActive (computePriorityOf (tcpPriorityOffset env) c 0) 1 (computeFoundation Host h TCPActive) h s a false emptyAddr.

Definition addRemotePassiveTcp (remote : Candidate) : IM unit :=
  t ← gets tcpTransport_;
  if match t with Some t => bool_decide (TcpTransport.state_ t = Connected) | None => false end then skip else
  reset;;
  match dialAddr remote with
  | None => syncView
  | Some remoteAddr =>
      modify (fun s => s <| tcpTransport_ := Some (newTransport <| TcpTransport.clock := clock (ag s) |>) |>
                         <| tcpPeerAddr_ := remoteAddr |> <| tcpSni_ := hostname remote |>);;
      ok ← onTransport (beginConnect Sy remoteAddr "" false false "");
      if negb ok then reset;; syncView else
      onTransport (setConnectTimeoutMs TcpConnectTimeoutMs);;
      syncView;;
      t ← gets tcpTransport_;
      t ← lift t;
      let c := activeCandidate t remoteAddr in
      onAgent Control (addLocalCandidate c;; emit (OCandidate c))
  end.

End Run.

(** ** Every event runs to its end *)

Record iinv0 (s : IceTcp) : Prop := {
  ii_agent : inv (ag s); ii_tcp : forall t, tcpTransport_ s = Some t -> t_ok t }.
Definition iinv (s : IceTcp) : Prop := iinv0 s /\ tcpConnected_ (ag s) = view s.

Definition restOf (s : IceTcp) : nat := match tcpTransport_ s with Some t => length (rest t) | None => 0%nat end.

(** The transport stays, with its address and what it has to read. *)
Record stays (s s' : IceTcp) : Prop := {
  st_inv : iinv0 s'; st_some : is_Some (tcpTransport_ s) <-> is_Some (tcpTransport_ s');
  st_rest : restOf s' = restOf s; st_peer : tcpPeerAddr_ s' = tcpPeerAddr_ s }.

Lemma stays_refl s : iinv0 s -> stays s s.
Proof. by split. Qed.
Lemma stays_trans s1 s2 s3 : stays s1 s2 -> stays s2 s3 -> stays s1 s3.
Proof. intros [] []. split; [done|by etransitivity|congruence|congruence]. Qed.

Lemma wp_onTransport {A} (m : TM A) (R : A -> TcpTransport -> Prop) s t (Q : A -> IceTcp -> Prop) :
  tcpTransport_ s = Some t -> wp m R t -> (forall x t', R x t' -> Q x (s <| tcpTransport_ := Some t' |>)) -> wp (onTransport m) Q s.
Proof.
  intros Ht (x & t' & E & HR) HQ. unfold onTransport. apply wp_bind, wp_gets. rewrite Ht. apply wp_bind. eapply wp_lift; [done|].
  apply wp_bind. eapply wp_lift; [exact E|]. apply wp_bind, wp_modify, wp_ret. by apply HQ.
Qed.

(** Replacing a transport by a good one. *)
Lemma iinv0_set s t : iinv0 s -> t_ok t -> iinv0 (s <| tcpTransport_ := Some t |>).
Proof. intros [H1 H2] Ht. split; upd; [done|]. intros t' E. congruence. Qed.

Lemma inv_view s v : inv s -> inv (s <| tcpConnected_ := v |>).
Proof. intros H. by eapply (inv_frame s). Qed.

Lemma wp_syncView s : iinv0 s -> wp syncView (fun _ s' => stays s s' /\ tcpConnected_ (ag s') = view s') s.
Proof. intros [H1 H2]. apply wp_modify. split; [|done]. split; try done. split; upd; [by apply inv_view|done]. Qed.

(** A change that the transport's invariant does not see. *)
Lemma t_ok_same t t' :
  t_ok t -> written t' = written t -> (forall c, queueOf c t' = queueOf c t) ->
  recvBuf_ t' = recvBuf_ t -> recvOff_ t' = recvOff_ t -> framing_ t' = framing_ t -> t_ok t'.
Proof. intros [Hb [all Ht]] Hw Hq Hr Ho Hf. split; [by rewrite Hr|]. exists all. by eapply tinv_same. Qed.

(** A transport is there, and it is good. *)
Definition here (s : IceTcp) : Prop := iinv0 s /\ is_Some (tcpTransport_ s).

Lemma stays_here s s' : here s -> stays s s' -> here s'.
Proof. intros [_ H] []. split; [done|tauto]. Qed.

Lemma wp_io {A} (op : TM A) (P : A -> Prop) s :
  (forall t, t_ok t -> wp op (fun a t' => t_ok t' /\ P a) t) -> here s -> wp (onTransport op) (fun a s' => here s' /\ P a) s.
Proof.
  intros Hop [I [t Et]]. eapply wp_onTransport; [exact Et|apply Hop; by apply (ii_tcp _ I)|]. intros x t' [Ht HP].
  split; [|done]. split; [by apply iinv0_set|upd; by eexists].
Qed.


Lemma here_then {A B} (m : IM A) (k : A -> IM B) (Q : B -> IceTcp -> Prop) s :
  wp m (fun _ s' => here s') s -> (forall x s', here s' -> wp (k x) Q s') -> wp (m ≫= k) Q s.
Proof. intros Hm Hk. apply wp_bind. eapply wp_mono; [exact Hm|]. intros x s' H. by apply Hk. Qed.

Lemma wp_io1 {A} (op : TM A) s :
  (forall t, t_ok t -> wp op (fun _ t' => t_ok t') t) -> here s -> wp (onTransport op) (fun _ s' => here s') s.
Proof.
  intros Hop H. eapply wp_mono; [apply (wp_io op (fun _ => True)); [|done]|by intros ? ? [? _]].
  intros t Ht. eapply wp_mono; [by apply Hop|done].
Qed.

Lemma wp_io_ {A} (op : TM A) s :
  (forall t, t_ok t -> wp op (fun _ t' => t_ok t') t) -> here s -> wp (onTransport op ≫= (fun _ => skip)) (fun _ s' => here s') s.
Proof. intros Hop H. apply here_then; [by apply wp_io1|]. intros _ s' H'. by apply wp_ret. Qed.

Lemma here_if (b : bool) m s :
  (b = true -> wp m (fun _ s' => here s') s) -> here s -> wp (if b then m else skip) (fun _ s' => here s') s.
Proof. intros Hm H. destruct b; [by apply Hm|by apply wp_ret]. Qed.

Lemma here_sync s : here s -> wp syncView (fun _ s' => here s') s.
Proof. intros H. eapply wp_mono; [apply wp_syncView, H|]. intros ? s' [H' _]. by eapply stays_here. Qed.

Lemma wp_checkConnect s : here s -> wp checkConnect (fun _ s' => here s') s.
Proof.
  intros [I [t Et]]. unfold checkConnect. apply wp_bind, wp_modify. set (s1 := s <| _ ::= _ |>).
  assert (H1 : here s1).
  { unfold s1. split; [split; upd; [apply I|]|upd; rewrite Et; by eexists]. intros t'. rewrite Et. cbn. intros [= <-].
    eapply t_ok_same; [by apply (ii_tcp _ I)|done| |done..]. by intros []. }
  clearbody s1. apply wp_bind. eapply wp_mono; [apply (wp_io (gets id) (fun _ => True) s1); [|done]|].
  - intros t1 Ht. by apply wp_gets.
  - intros t1 s2 [H2 _]. destruct (connectTimedOut t1); [|by apply wp_ret].
    eapply wp_mono; [apply (wp_io close (fun _ => True) s2); [|done]|by intros ? ? [? _]]. intros t2 Ht.
    eapply wp_mono; [by apply close_ok|]. by intros ? ? [? _].
Qed.

Section Safe.
Context (Sy : TcpSys) (HS : sys_ok Sy) (env : Env) (Hrng : rng_ok env).

(** A send, on either queue, leaves what is to be read. *)
Lemma sending_kept ch d t :
  t_ok t ->
  wp (match ch with Control => sendControl Sy d | Data => TcpTransport.send Sy d end)
    (fun _ t' => t_ok t' /\ recvBuf_ t' = recvBuf_ t /\ recvOff_ t' = recvOff_ t) t.
Proof.
  intros H. destruct (sending_ok Sy HS ch d t H) as (ok & t' & E & H'). exists ok, t'. split; [done|]. split; [done|].
  destruct H as [_ [all [B _ _]]]. unfold sendControl, TcpTransport.send in E.
  assert (Hk : forall c, (enqueue c d ≫= (fun _ => flushIfConnected Sy ≫= (fun _ => mret true))) t = Some (ok, t') ->
                 recvBuf_ t' = recvBuf_ t /\ recvOff_ t' = recvOff_ t).
  { intros c E1. destruct (wp_enqueue all c d t B) as ([] & t1 & E2 & B1 & K1). rewrite (run_bind _ _ _ _ _ E2) in E1.
    destruct (wp_flushIfConnected Sy HS _ t1 B1) as ([] & t2 & E3 & B2 & K2). rewrite (run_bind _ _ _ _ _ E3) in E1. injection E1 as _ <-.
    by destruct (kept_trans _ _ _ K1 K2) as [_ R1 R2 _]. }
  destruct ch; rewrite run_gets in E; (destruct (down t); [by injection E as _ <-|]); [by eapply Hk|].
  rewrite run_gets in E. destruct (_ <? _); [by injection E as _ <-|]. by eapply Hk.
Qed.

Lemma wp_feed ch d s : iinv0 s -> wp (feed Sy ch d) (fun _ s' => stays s s') s.
Proof.
  intros I. unfold feed. apply wp_bind, wp_gets. destruct (tcpTransport_ s) as [t|] eqn:Et; [|by apply wp_ret, stays_refl].
  case_bool_decide; [|by apply wp_ret, stays_refl]. apply wp_bind.
  eapply (wp_onTransport _ _ s t); [done|apply sending_kept; by apply (ii_tcp _ I)|]. intros _ t' (Ht & R1 & R2). apply wp_ret.
  split; [by apply iinv0_set| |unfold restOf; upd; by rewrite Et; unfold rest; rewrite R1, R2|done]. upd. rewrite Et. by split.
Qed.

Lemma wp_onAgent {A} ch (m : M A) s :
  iinv0 s -> wp m (fun _ => inv) (ag s) -> wp (onAgent Sy ch m) (fun _ s' => stays s s' /\ tcpConnected_ (ag s') = view s') s.
Proof.
  intros I (x & a' & E & Hk). unfold onAgent. apply wp_bind, wp_gets, wp_bind. eapply wp_lift; [exact E|]. apply wp_bind, wp_modify.
  assert (I1 : stays s (s <| ag := a' |>)) by (destruct I; by split).
  apply wp_bind. eapply wp_mono; [apply (wp_forM _ _ (stays s)); [|exact I1]|].
  - intros d s1 _ H1. eapply wp_mono; [by apply wp_feed, H1|]. intros ? s2 H2. by eapply stays_trans.
  - intros ? s1 H1. apply wp_bind. eapply wp_mono; [apply wp_syncView, H1|]. intros ? s2 [H2 V]. apply wp_ret. split; [exact (stays_trans _ _ _ H1 H2)|done].
Qed.

Lemma wp_onAgent_good {A} ch (m : M A) s :
  iinv0 s -> AgentInv.good m -> wp (onAgent Sy ch m) (fun _ s' => stays s s' /\ tcpConnected_ (ag s') = view s') s.
Proof. intros I Hm. apply wp_onAgent; [done|]. eapply wp_mono; [apply Hm, I|]. by intros ? ? [? _]. Qed.

(** A message takes bytes from the buffer. *)
Lemma recv_shrinks n t out t' : t_ok t -> recv n t = Some (out, t') -> out <> [] -> (length (rest t') < length (rest t))%nat.
Proof.
  intros [_ [all [_ Hr Hf]]] E Ho. unfold recv in E. rewrite run_gets in E. unfold id in E. rewrite Hf, avail_rest in E.
  destruct (_ <? 2)%nat eqn:E2; [by injection E as <- <-|]. apply Nat.ltb_ge in E2.
  unfold mbind at 1, SM_bind at 1, lift at 1 in E. destruct (readU16Be _ _) as [len|]; [|done].
  destruct (len =? 0); [by injection E as <- <-|]. destruct (_ <? 2 + _)%nat eqn:E3; [by injection E as <- <-|]. apply Nat.ltb_ge in E3.
  unfold mbind at 1, SM_bind at 1, lift at 1 in E. destruct (peek _ _ _); [|done]. injection E as <- <-.
  destruct (consume_spec (2 + Z.to_nat len) t Hr) as (_ & Hd & _); [lia|]. unfold rest in *. cbn [Nat.add] in Hd. rewrite Hd, length_drop. lia.
Qed.

Lemma wp_inboundLoop fuel s :
  here s -> (restOf s < fuel)%nat -> wp (inboundLoop Sy env fuel) (fun _ s' => here s') s.
Proof.
  revert s. induction fuel as [|fuel IH]; intros s H Hf; [lia|]. cbn [inboundLoop]. apply wp_bind. destruct H as [I [t Et]].
  pose proof (ii_tcp _ I t Et) as Ht. destruct (recv_keeps_ok bufSize t Ht) as (m & t' & E & Ht' & Hm).
  eapply (wp_onTransport _ (fun x t1 => x = m /\ t1 = t') s t); [done|by exists m, t'|]. intros ? ? [-> ->].
  set (s1 := s <| tcpTransport_ := Some t' |>).
  assert (H1 : here s1) by (split; [by apply iinv0_set|unfold s1; upd; by eexists]).
  destruct (_ =? 0)%nat eqn:E0; [by apply wp_ret|]. apply Nat.eqb_neq in E0.
  assert (Hlt : (restOf s1 < restOf s)%nat).
  { unfold restOf, s1. upd. rewrite Et. eapply recv_shrinks; [done|exact E|]. by intros ->. }
  clearbody s1. apply wp_bind, wp_gets, wp_bind. eapply wp_mono.
  - apply wp_onAgent; [apply H1|]. eapply wp_mono; [apply wp_handleInboundTcpPacket; [done..|apply H1]|]. by intros ? ? [? _].
  - intros ? s2 [H2 _]. apply IH; [by eapply stays_here|]. rewrite (st_rest _ _ H2). lia.
Qed.

Lemma wp_handleInboundTcp s : here s -> wp (handleInboundTcp Sy env) (fun _ s' => here s') s.
Proof.
  intros H. unfold handleInboundTcp. apply wp_bind, wp_gets. destruct (tcpTransport_ s) as [t|] eqn:Et; [|by apply wp_ret].
  apply wp_inboundLoop; [done|]. unfold restOf. rewrite Et. unfold rest. rewrite length_drop. lia.
Qed.

(** The loops over the checks and pairs. *)
Lemma good_loop (len : Agent -> nat) (f : nat -> M unit) :
  (forall s s', grows s s' -> (len s <= len s')%nat) ->
  (forall k s, inv s -> (k < len s)%nat -> wp (f k) (fun _ => keeps s) s) ->
  AgentInv.good (n ← gets len; forM (seq 0 n) f).
Proof.
  intros Hl Hf s Hs. apply wp_bind, wp_gets. eapply wp_mono; [apply (wp_forM _ f (keeps s)); [|by apply keeps_refl]|done].
  intros k s1 Hk [H1 Hg]. apply elem_of_seq in Hk. eapply wp_mono; [apply Hf; [done|specialize (Hl _ _ Hg); lia]|].
  intros ? s2 H2. by eapply keeps_trans.
Qed.

Lemma good_armTcpChecks : AgentInv.good armTcpChecks.
Proof.
  apply good_loop; [by intros ? ? []|]. intros k s Hs Hk. unfold armTcpCheck. apply wp_bind, wp_getEntry; [done..|]. intros e He _. pose proof (entry_range s k e Hs He) as Hr.
  destruct (_ && _); [|by apply good_skip]. apply wp_read; [by apply wp_pairIsTcp|]. intros tcp. destruct (_ && _); [|by apply good_skip].
  apply wp_bind, wp_gets. by apply good_setEntry.
Qed.

Lemma good_failTcpPairs : AgentInv.good failTcpPairs.
Proof.
  apply good_loop; [by intros ? ? []|]. intros k s Hs Hk. unfold failTcpPair.
  apply wp_read; [apply wp_pairIsTcp; [done|by intros ? [= <-]]|]. intros tcp. apply good_when; [|done]. intros _. by apply good_setPair.
Qed.

Lemma good_failTcp : AgentInv.good failTcp.
Proof.
  unfold failTcp. apply good_seq; [apply good_failTcpPairs|]. intros _.
  { apply good_loop; [by intros ? ? []|]. intros k s Hs Hk. unfold failTcpCheck.
    apply wp_bind, wp_getEntry; [done..|]. intros e He _. pose proof (entry_range s k e Hs He) as Hr. destruct (_ && _); [|by apply good_skip].
    apply wp_read; [by apply wp_pairIsTcp|]. intros tcp. apply good_when; [|done]. intros _. by apply good_setEntry. }
Qed.

(** ** The events of the connection *)

Lemma wp_reset s : iinv0 s -> wp reset (fun _ s' => iinv0 s' /\ tcpTransport_ s' = None /\ ag s' = ag s) s.
Proof.
  intros I. unfold reset. apply wp_bind, wp_gets. destruct (tcpTransport_ s) as [t|] eqn:Et; [|by apply wp_ret].
  apply wp_modify. split_and!; [|by upd..]. split; upd; [apply I|done].
Qed.

Lemma wp_lost s :
  here s -> wp (onAgent Sy Control failTcp ≫= (fun _ => reset ≫= (fun _ => syncView ≫= (fun _ => onAgent Sy Control updateState)))) (fun _ s' => iinv s') s.
Proof.
  intros [I _]. apply wp_bind. eapply wp_mono; [apply wp_onAgent_good; [done|apply good_failTcp]|]. intros ? s1 [H1 _].
  apply wp_bind. eapply wp_mono; [apply wp_reset, H1|]. intros ? s2 [I2 _].
  apply wp_bind. eapply wp_mono; [by apply wp_syncView|]. intros ? s3 [H3 _].
  eapply wp_mono; [apply wp_onAgent_good; [apply H3|apply good_updateState]|]. intros ? s4 [H4 V]. by split; [apply H4|].
Qed.

Lemma wp_onTcpEvents pollin pollout bad chunks stop s :
  Forall (fun b : bytes => bytes_ok b) chunks -> iinv s ->
  wp (onTcpEvents Sy env pollin pollout bad chunks stop) (fun _ s' => iinv s') s.
Proof.
  intros Hc [I V]. unfold onTcpEvents. apply wp_bind, wp_gets. destruct (tcpTransport_ s) as [t|] eqn:Et; [|by apply wp_ret].
  assert (H : here s) by (split; [done|rewrite Et; by eexists]). clear t Et.
  assert (Hrd : forall t, t_ok t -> wp (onReadable Sy chunks stop) (fun _ t' => t_ok t') t) by (intros; by apply onReadable_ok).
  assert (Hwr : forall t, t_ok t -> wp (onWritable Sy) (fun _ t' => t_ok t') t) by (intros; by apply onWritable_ok).
  apply here_then; [by apply wp_checkConnect|]. clear s I V H. intros _ s H.
  apply here_then; [apply here_if; [intros _|done]|].
  { apply here_then; [|intros _ s1 H1]; [destruct pollin|destruct pollout]; first [by apply wp_ret|by apply wp_io_]. }
  clear s H. intros _ s H. apply here_then; [apply here_if; [intros _; by apply wp_io_|done]|].
  clear s H. intros _ s H. apply here_then; [by apply here_sync|]. clear s H. intros _ s H.
  apply here_then; [apply here_if; [intros _|done]|].
  { apply here_then; [by apply wp_io1|]. intros _ s1 H1. apply here_then; [by apply here_sync|]. intros _ s2 H2. by apply wp_handleInboundTcp. }
  clear s H. intros _ s H. apply wp_bind. eapply wp_mono; [apply wp_syncView, H|]. intros ? s1 [H1 V].
  pose proof (stays_here _ _ H H1) as [I [t Et]]. apply wp_bind, wp_gets, wp_bind. eapply wp_lift; [exact Et|].
  case_bool_decide; [|destruct (_ || _); [apply wp_lost; by split; [|eexists]|by apply wp_ret]].
  eapply wp_mono; [apply wp_onAgent_good; [done|apply good_armTcpChecks]|]. intros ? s2 [H2 V2]. by split; [apply H2|].
Qed.

Lemma wp_bookkeepingConnect s : iinv s -> wp bookkeepingConnect (fun _ s' => iinv s') s.
Proof.
  intros [I V]. unfold bookkeepingConnect. apply wp_bind, wp_gets. destruct (tcpTransport_ s) as [t|] eqn:Et; [|by apply wp_ret].
  apply here_then; [apply wp_checkConnect; split; [done|rewrite Et; by eexists]|]. intros _ s1 [I1 _].
  eapply wp_mono; [by apply wp_syncView|]. intros ? s2 [H2 V2]. by split; [apply H2|].
Qed.

(** ** Opening a connection *)

Lemma syscall_ok t : t_ok t -> wp syscall (fun _ t' => t_ok t') t.
Proof.
  intros H. unfold syscall. apply wp_bind, wp_gets, wp_bind, wp_modify, wp_ret. eapply t_ok_same; [exact H|done| |done..]. by intros [].
Qed.

Lemma t_modify_ok f t :
  (forall t, written (f t) = written t /\ (forall c, queueOf c (f t) = queueOf c t) /\
             recvBuf_ (f t) = recvBuf_ t /\ recvOff_ (f t) = recvOff_ t /\ framing_ (f t) = framing_ t) ->
  t_ok t -> wp (modify f) (fun _ t' => t_ok t') t.
Proof. intros Hf H. apply wp_modify. destruct (Hf t) as (H1 & H2 & H3 & H4 & H5). by eapply t_ok_same. Qed.

Lemma t_then {A B} (m : TM A) (k : A -> TM B) t :
  wp m (fun _ t' => t_ok t') t -> (forall x t', t_ok t' -> wp (k x) (fun _ t' => t_ok t') t') -> wp (m ≫= k) (fun _ t' => t_ok t') t.
Proof. intros Hm Hk. apply wp_bind. eapply wp_mono; [exact Hm|]. intros x t' H. by apply Hk. Qed.

Lemma beginConnect_ok dst sni tls skipVerify ca t : t_ok t -> wp (beginConnect Sy dst sni tls skipVerify ca) (fun _ t' => t_ok t') t.
Proof.
  intros H. unfold beginConnect, setState. apply t_then; [eapply wp_mono; [by apply close_ok|by intros ? ? [? _]]|]. intros _ t1 H1.
  apply t_then; [apply t_modify_ok; [|done]; intros t2; split_and!; try done; by intros []|]. intros _ t2 H2.
  apply t_then; [by apply syscall_ok|]. intros k t3 H3. destruct (sys_socket Sy k dst) as [fd|].
  2: { apply t_then; [apply t_modify_ok; [|done]; intros t4; split_and!; try done; by intros []|]. intros _ t4 H4. by apply wp_ret. }
  apply t_then; [apply t_modify_ok; [|done]; intros t4; split_and!; try done; by intros []|]. intros _ t4 H4.
  apply t_then; [by apply syscall_ok|]. intros k' t5 H5.
  destruct (sys_connect Sy k' dst);
    (apply t_then; [apply t_modify_ok; [|done]; intros t6; split_and!; try done; by intros []|]; intros _ t6 H6; by apply wp_ret).
Qed.

Lemma newTransport_ok clk : t_ok (newTransport <| TcpTransport.clock := clk |>).
Proof.
  split; [constructor|]. exists (fun _ => []). constructor; [|apply Nat.le_0_l|done].
  constructor; intros []; try done; unfold queue_ok, field_update; cbn; lia.
Qed.

Context (getsockname : Z -> option AddrRecord) (nameinfo : sockaddr -> option (text * text)).

Lemma wp_addRemotePassiveTcp c s : iinv s -> wp (addRemotePassiveTcp Sy env getsockname nameinfo c) (fun _ s' => iinv s') s.
Proof.
  intros [I V]. unfold addRemotePassiveTcp. apply wp_bind, wp_gets. match goal with |- wp (if ?b then _ else _) _ _ => destruct b end; [by apply wp_ret|].
  apply wp_bind. eapply wp_mono; [by apply wp_reset|]. intros ? s0 (I0 & _ & _). clear s I V. rename s0 into s, I0 into I.
  destruct (dialAddr env c) as [dst|].
  2: { eapply wp_mono; [by apply wp_syncView|]. intros ? s2 [H2 V2]. by split; [apply H2|]. }
  apply wp_bind, wp_modify. match goal with |- wp _ _ ?x => set (s1 := x) end.
  assert (H1 : here s1).
  { split; [split; [apply I|]|by eexists]. intros t [= <-]. apply newTransport_ok. }
  clearbody s1. clear s I. apply here_then; [apply wp_io1; [by apply beginConnect_ok|done]|]. clear s1 H1. intros ok s H. destruct ok; cbn [negb].
  2: { apply wp_bind. eapply wp_mono; [apply wp_reset, H|]. intros ? s1 (I1 & _ & _). eapply wp_mono; [by apply wp_syncView|].
       intros ? s2 [H2 V2]. by split; [apply H2|]. }
  apply here_then; [apply wp_io1; [|done]|].
  { intros t Ht. unfold setConnectTimeoutMs. apply t_modify_ok; [|done]. intros t1. split_and!; try done. }
  clear s H. intros _ s H. apply here_then; [by apply here_sync|]. clear s H. intros _ s [I [t Et]].
  apply wp_bind, wp_gets, wp_bind. eapply wp_lift; [exact Et|].
  eapply wp_mono; [apply wp_onAgent_good; [done|apply good_publish]|]. intros ? s2 [H2 V2]. by split; [apply H2|].
Qed.
End Safe.

(** ** What is failed with the connection *)

Definition isTcp (s : Agent) (p : CandidatePair) : bool :=
  match localCand s (local p), remoteCand s (remote p) with
  | Some l, Some r => negb (bool_decide (transport l = UDP)) && negb (bool_decide (transport r = UDP))
  | _, _ => false
  end.
Definition failedPair (s : Agent) (p : CandidatePair) : CandidatePair :=
  if isTcp s p then p <| state := CandidatePair.Failed |> else p.
Definition ofTcpPair (s : Agent) (e : StunEntry) : bool :=
  match e_pair e ≫= (fun i => pairs_ s !! i) with Some p => isTcp s p | None => false end.
Definition failedEntry (s : Agent) (e : StunEntry) : StunEntry :=
  if bool_decide (e_type e = Check) && bool_decide (e_state e = EPending) && ofTcpPair s e then e <| e_state := EFailed |> else e.

Lemma pairIsTcp_run s i p : pairs_ s !! i = Some p -> pair_ok s p -> pairIsTcp (Some i) s = Some (isTcp s p, s).
Proof.
  intros E (Hg & Hi & Hg' & c' & Er & _). destruct (lookup_lt_is_Some_2 _ _ Hi) as [c El].
  assert (H1 : localCand s (local p) = Some c) by (unfold localCand; by rewrite decide_True).
  assert (H2 : remoteCand s (remote p) = Some c') by (unfold remoteCand; by rewrite decide_True).
  unfold pairIsTcp, isTcp. rewrite (run_bind _ _ s p s) by (unfold getPair; by rewrite E).
  rewrite (run_bind _ _ s c s) by (unfold derefLocal; by rewrite H1). rewrite H1, H2. case_bool_decide; [done|].
  by rewrite (run_bind _ _ s c' s) by (unfold derefRemote; by rewrite H2).
Qed.

Lemma forM_seq_run (f : nat -> M unit) (st : nat -> Agent) n :
  (forall k, (k < n)%nat -> f k (st k) = Some (tt, st (S k))) -> forM (seq 0 n) f (st 0%nat) = Some (tt, st n).
Proof.
  intros H. assert (Hk : forall m k, (k + m = n)%nat -> forM (seq k m) f (st k) = Some (tt, st n)).
  { induction m as [|m IH]; intros k E; cbn [seq forM]; [by replace k with n by lia|].
    rewrite (run_bind _ _ _ _ _ (H k ltac:(lia))). apply IH. lia. }
  by apply Hk.
Qed.

(** The list with [g] done up to [k]. *)
Definition upTo {A} (g : A -> A) (k : nat) (l : list A) : list A := (g <$> take k l) ++ drop k l.

Lemma upTo_lookup {A} (g : A -> A) k l x : l !! k = Some x -> upTo g k l !! k = Some x.
Proof.
  intros E. pose proof (lookup_lt_Some _ _ _ E) as Hl. unfold upTo.
  rewrite lookup_app_r; rewrite length_fmap, length_take, Nat.min_l by lia; [|lia]. by rewrite lookup_drop, Nat.sub_diag, Nat.add_0_r.
Qed.

Lemma upTo_S {A} (g f : A -> A) k l x : l !! k = Some x -> f x = g x -> alter f k (upTo g k l) = upTo g (S k) l.
Proof.
  intros E Hf. pose proof (lookup_lt_Some _ _ _ E) as Hl. unfold upTo.
  rewrite (take_S_r l k x E), fmap_app, <- app_assoc, (drop_S l x k E). cbn.
  assert (Hk : length (g <$> take k l) = k) by (rewrite length_fmap, length_take; lia).
  rewrite alter_app_r_alt by lia. rewrite Hk, Nat.sub_diag. cbn. by rewrite Hf.
Qed.

Lemma upTo_skip {A} (g : A -> A) k l x : l !! k = Some x -> g x = x -> upTo g k l = upTo g (S k) l.
Proof.
  intros E Hg. unfold upTo. rewrite (take_S_r l k x E), fmap_app, <- app_assoc, (drop_S l x k E). cbn. by rewrite Hg.
Qed.

Lemma upTo_all {A} (g : A -> A) l : upTo g (length l) l = g <$> l.
Proof. unfold upTo. by rewrite take_ge, drop_ge, app_nil_r by lia. Qed.

Lemma failTcpPairs_run s : inv s -> failTcpPairs s = Some (tt, s <| pairs_ := failedPair s <$> pairs_ s |>).
Proof.
  intros Hs. unfold failTcpPairs. rewrite run_gets.
  set (st k := s <| pairs_ := upTo (failedPair s) k (pairs_ s) |>).
  assert (E0 : st 0%nat = s) by by destruct s.
  rewrite <- (upTo_all (failedPair s)). change (forM (seq 0 (length (pairs_ s))) failTcpPair s = Some (tt, st (length (pairs_ s)))).
  rewrite <- E0 at 2. apply forM_seq_run. intros k Hk. destruct (lookup_lt_is_Some_2 _ _ Hk) as [p Ep].
  assert (Hp : pair_ok s p) by (destruct Hs as [[Hp _ _ _ _ _ _ _ _ _] _]; by eapply Forall_lookup_1).
  unfold failTcpPair. rewrite (run_bind _ _ _ _ _ (pairIsTcp_run (st k) k p (upTo_lookup _ _ _ _ Ep) Hp)).
  change (isTcp (st k) p) with (isTcp s p). unfold when, setPair. destruct (isTcp s p) eqn:Et.
  - unfold modify. do 2 f_equal. change (st k <| pairs_ := alter (fun q => q <| state := CandidatePair.Failed |>) k (upTo (failedPair s) k (pairs_ s)) |> = st (S k)).
    rewrite (upTo_S _ _ _ _ p Ep); [done|]. unfold failedPair. by rewrite Et.
  - unfold skip, mret, SM_ret. unfold st. rewrite (upTo_skip _ k _ p Ep); [done|]. unfold failedPair. by rewrite Et.
Qed.

Lemma failTcpChecks_run s :
  inv s -> failTcpChecks s = Some (tt, s <| entries_ := failedEntry s <$> entries_ s |>).
Proof.
  intros Hs. unfold failTcpChecks. rewrite run_gets.
  set (st k := s <| entries_ := upTo (failedEntry s) k (entries_ s) |>).
  assert (E0 : st 0%nat = s) by by destruct s.
  rewrite <- (upTo_all (failedEntry s)). change (forM (seq 0 (length (entries_ s))) failTcpCheck s = Some (tt, st (length (entries_ s)))).
  rewrite <- E0 at 2. apply forM_seq_run. intros k Hk. destruct (lookup_lt_is_Some_2 _ _ Hk) as [e Ee].
  pose proof (entry_range s k e Hs Ee) as Hr. unfold failTcpCheck.
  rewrite (run_bind _ _ (st k) e (st k)) by (unfold getEntry; change (entries_ (st k)) with (upTo (failedEntry s) k (entries_ s)); by rewrite (upTo_lookup _ _ _ _ Ee)).
  assert (Hskip : failedEntry s e = e -> skip (st k) = Some (tt, st (S k))).
  { intros Hg. unfold skip, mret, SM_ret, st. by rewrite (upTo_skip _ k _ e Ee). }
  destruct (bool_decide (e_type e = Check) && bool_decide (e_state e = EPending)) eqn:Ec;
    [|apply Hskip; unfold failedEntry; by rewrite Ec].
  assert (Hp : pairIsTcp (e_pair e) (st k) = Some (ofTcpPair s e, st k)).
  { unfold ofTcpPair. destruct (e_pair e) as [i|]; [|done]. destruct (lookup_lt_is_Some_2 (pairs_ s) i) as [p Ep]; [by apply Hr|].
    cbn [mbind option_bind]. rewrite Ep. apply (pairIsTcp_run (st k) i p Ep).
    destruct Hs as [[Hps _ _ _ _ _ _ _ _ _] _]. by eapply (Forall_lookup_1 (pair_ok s)). }
  rewrite (run_bind _ _ _ _ _ Hp). unfold when. destruct (ofTcpPair s e) eqn:Et; [|apply Hskip; unfold failedEntry; by rewrite Ec, Et].
  unfold setEntry, modify. do 2 f_equal.
  change (st k <| entries_ := alter (fun q => q <| e_state := EFailed |>) k (upTo (failedEntry s) k (entries_ s)) |> = st (S k)).
  rewrite (upTo_S _ _ _ _ e Ee); [done|]. unfold failedEntry. by rewrite Ec, Et.
Qed.

Lemma ofTcpPair_failed s e : ofTcpPair (s <| pairs_ := failedPair s <$> pairs_ s |>) e = ofTcpPair s e.
Proof.
  unfold ofTcpPair. destruct (e_pair e) as [i|]; [|done]. cbn [mbind option_bind]. upd. rewrite list_lookup_fmap.
  destruct (pairs_ s !! i) as [p|]; [|done]. cbn [fmap option_fmap option_map]. unfold failedPair. by destruct (isTcp s p) eqn:E.
Qed.

(** The pairs over TCP fail with the connection, and with them the checks that wait on them;
    nothing else of the agent changes. *)
Lemma failTcp_run s :
  inv s ->
  failTcp s = Some (tt, s <| pairs_ := failedPair s <$> pairs_ s |> <| entries_ := failedEntry s <$> entries_ s |>).
Proof.
  intros Hs. unfold failTcp. rewrite (run_bind _ _ _ _ _ (failTcpPairs_run s Hs)).
  destruct (good_failTcpPairs s Hs) as ([] & s1 & E & [H1 _]). rewrite (failTcpPairs_run s Hs) in E. injection E as <-.
  rewrite (failTcpChecks_run _ H1). do 2 f_equal. upd.
  rewrite (map_ext _ (failedEntry s)); [done|]. intros e. unfold failedEntry. by rewrite ofTcpPair_failed.
Qed.

(** ** The agent with its transport as a whole *)

Inductive TcpEvent :=
| TeReady (pollin pollout bad : bool) (chunks : list bytes) (stop : ReadStop)
| TeTimer
| TeDial (remote : Candidate)
| TeCall (ev : Event).

Section Whole.
Context (Sy : TcpSys) (env : Env) (cfg : GatherConfig).
Context (getsockname : Z -> option AddrRecord) (nameinfo : sockaddr -> option (text * text)).

Definition tcpStep (e : TcpEvent) : IM unit :=
  match e with
  | TeReady i o b chunks stop => onTcpEvents Sy env i o b chunks stop
  | TeTimer => bookkeepingConnect
  | TeDial c => addRemotePassiveTcp Sy env getsockname nameinfo c
  | TeCall ev => onAgent Sy (match ev with EvSend _ => Data | _ => Control end) (step env cfg ev)
  end.

(** What the agent knows of the connection is what the transport says; the timer pass is not
    one that appends to the deque it iterates over. *)
Definition tcpAllowed (e : TcpEvent) (s : IceTcp) : Prop :=
  match e with
  | TeReady _ _ _ chunks _ => Forall (fun b : bytes => bytes_ok b) chunks
  | TeCall ev => allowed ev (ag s) /\ (forall peer, ev <> EvTcp peer) /\
      (ev = EvTimer -> ~ growsWhileIterating env (ag s))
  | _ => True
  end.

Definition newIceTcp (a : Agent) : IceTcp := mkIceTcp a None emptyAddr [] [].

Inductive tcpReach : IceTcp -> Prop :=
| tcp_new pc d tb : Z.of_nat (length (iceUfrag d)) < 2 ^ 32 -> tcpReach (newIceTcp (newAgent pc d tb))
| tcp_step e s s' : tcpReach s -> tcpAllowed e s -> tcpStep e s = Some (tt, s') -> tcpReach s'.

Context (HS : sys_ok Sy) (Hrng : rng_ok env).

Lemma wp_tcpStep e s : iinv s -> tcpAllowed e s -> wp (tcpStep e) (fun _ s' => iinv s') s.
Proof.
  intros H Ha. destruct e as [i o b chunks stop| |c|ev]; cbn [tcpStep].
  - by apply wp_onTcpEvents.
  - by apply wp_bookkeepingConnect.
  - by apply wp_addRemotePassiveTcp.
  - destruct H as [I V], Ha as (Ha & _ & Hg). eapply wp_mono; [apply wp_onAgent; [done..|]; by apply wp_agent_step; [|apply I| |]|].
    intros ? s2 [H2 V2]. by split; [apply H2|].
Qed.

Lemma tcpReach_inv s : tcpReach s -> iinv s.
Proof.
  induction 1 as [pc d tb H|e s s' _ IH Ha E]; [split; [split; [by apply inv_new|done]|done]|].
  exact (wp_run _ _ _ _ _ (wp_tcpStep e s IH Ha) E).
Qed.
End Whole.

(** ** A sample run *)

(** A connect that stays pending; the socket is 7 and its local address A's. *)
Definition pendingSys : TcpSys :=
  mkTcpSys (fun _ _ => Some 7) (fun _ _ => ConnectPending) (fun _ => SoOk)
    (fun k len => (Z.of_nat len, false)) false (fun _ _ => false) (fun _ => TlsFailed) (fun _ b => (TlsOk, length b)).
Definition passiveB : Candidate :=
  mkCandidate Host TCPPassive 1000 1 (lit "f") (lit "10.0.0.2") (lit "6000") (mkAddrRecord (SockIn 6000 [10; 0; 0; 2]) 16 SOCK_STREAM) false emptyAddr.
Definition sdpTcpB : text := generateSdp None (mkDescription (lit "bbbb") (lit "passwordpasswordpassBB") false [passiveB] false).
Definition tcpEnv : Env := agentEnv 50.
Definition demoStep : TcpEvent -> IM unit :=
  tcpStep pendingSys tcpEnv (gatherCfg addrA) (fun _ => Some addrA) (fun sa => Some (namesOf sa)).
Definition dialled : option IceTcp :=
  snd <$> forM [TeCall (EvClock 1000); TeCall EvGather; TeDial passiveB; TeCall (EvSetRemoteDescription sdpTcpB)] demoStep (newIceTcp agentA).

Lemma pendingSys_ok : sys_ok pendingSys.
Proof. constructor; cbn; [intros; lia|done]. Qed.

(** Every event of the connection, and every call of the agent with what it sends on the
    connection but a timer pass that appends to the deque it iterates over, runs to its end: the loop that reads messages stops, no pair, check or
    candidate that is gone is looked at, and afterwards the agent's view of the connection is
    the transport's. *)
Theorem ice_tcp_events_run Sy env cfg sockname nameinfo e s :
  sys_ok Sy -> rng_ok env -> tcpReach Sy env cfg sockname nameinfo s -> tcpAllowed env e s ->
  exists s', tcpStep Sy env cfg sockname nameinfo e s = Some (tt, s') /\ tcpConnected_ (ag s') = view s'.
Proof.
  intros HS Hrng Hr Ha. pose proof (tcpReach_inv Sy env cfg sockname nameinfo HS Hrng s Hr) as Hi.
  destruct (wp_tcpStep Sy env cfg sockname nameinfo HS Hrng e s Hi Ha) as ([] & s' & E & _ & V). by exists s'.
Qed.

(** The run of the sample up to the deadline of its connect. *)
Definition dialledA : IceTcp := default (newIceTcp agentA) dialled.
Definition atDeadline : IceTcp := default dialledA (snd <$> demoStep (TeCall (EvClock 9000)) dialledA).

Lemma dialledA_reach : tcpReach pendingSys tcpEnv (gatherCfg addrA) (fun _ => Some addrA) (fun sa => Some (namesOf sa)) dialledA.
Proof.
  set (s1 := default (newIceTcp agentA) (snd <$> demoStep (TeCall (EvClock 1000)) (newIceTcp agentA))).
  set (s2 := default s1 (snd <$> demoStep (TeCall EvGather) s1)). set (s3 := default s2 (snd <$> demoStep (TeDial passiveB) s2)).
  assert (R1 : tcpReach pendingSys tcpEnv (gatherCfg addrA) (fun _ => Some addrA) (fun sa => Some (namesOf sa)) s1).
  { apply (tcp_step _ _ _ _ _ (TeCall (EvClock 1000)) (newIceTcp agentA)); [by apply tcp_new|by split|by vm_compute]. }
  assert (R2 : tcpReach pendingSys tcpEnv (gatherCfg addrA) (fun _ => Some addrA) (fun sa => Some (namesOf sa)) s2).
  { apply (tcp_step _ _ _ _ _ (TeCall EvGather) s1); [done|by split|by vm_compute]. }
  apply (tcp_step _ _ _ _ _ (TeCall (EvSetRemoteDescription sdpTcpB)) s3); [|split; [split; by vm_compute|done]|by vm_compute].
  apply (tcp_step _ _ _ _ _ (TeDial passiveB) s2); [done|done|by vm_compute].
Qed.

Lemma ice_tcp_events_run_witness :
  exists s', demoStep (TeReady true true false [[0; 1; 7]] StopNothing) dialledA = Some (tt, s') /\ tcpConnected_ (ag s') = view s'.
Proof.
  apply (ice_tcp_events_run pendingSys tcpEnv (gatherCfg addrA) (fun _ => Some addrA) (fun sa => Some (namesOf sa))
           (TeReady true true false [[0; 1; 7]] StopNothing) dialledA pendingSys_ok (agentEnv_rng 50) dialledA_reach).
  by vm_compute; repeat constructor.
Defined.

(** The sample pair, the state of its transport and the socket the registry is given. *)
Definition sight (s : IceTcp) : list PairState * option TcpState * Z * list Z :=
  (CandidatePair.state <$> pairs_ (ag s), TcpTransport.state_ <$> tcpTransport_ s, tcpSocket s, closedFds s).

(** Its deadline seen by an event fails the pair and closes the socket. *)
Lemma deadline_in_event_fails_pair :
  (sight <$> (snd <$> demoStep (TeReady false false false [] StopNothing) atDeadline)) = Some ([CandidatePair.Failed], None, -1, [7]).
Proof. vm_compute. reflexivity. Qed.

(** The timer pass, meant for the case in which no event comes, closes the socket and leaves
    the pair; the registry has no socket of the agent any more, so that no event follows. *)
Lemma deadline_in_timer_leaves_pair :
  ((fun s => (sight s, connectTimedOut <$> tcpTransport_ s)) <$> (snd <$> demoStep TeTimer atDeadline)) =
  Some ([Frozen], Some Disconnected, INVALID_SOCKET, [], Some false).
Proof. vm_compute. reflexivity. Qed.

(** A second passive candidate ends the connect that is under way. *)
Lemma second_dial_aborts_first :
  (sight <$> (snd <$> demoStep (TeDial passiveB) dialledA)) = Some ([Frozen; Frozen], Some Connecting, 7, [7]).
Proof. vm_compute. reflexivity. Qed.

(** What the application is given. *)
Definition received (s : IceTcp) : list bytes := omap (fun o => match o with ORecv d => Some d | _ => None end) (outs (ag s)).
Definition connectedA : IceTcp := default dialledA (snd <$> demoStep (TeReady false true false [] StopNothing) dialledA).

(** A message the peer sent before it closed is given to the application when the event says
    readable, and is thrown away when it says only that the peer hung up. *)
Lemma hangup_without_readable_drops :
  (received <$> (snd <$> demoStep (TeReady true false true [[0; 1; 200]] StopClosed) connectedA)) = Some [[200]] /\
  (received <$> (snd <$> demoStep (TeReady false false true [[0; 1; 200]] StopClosed) connectedA)) = Some [].
Proof. split; vm_compute; reflexivity. Qed.
