(* ===== verification/MuxAgents.v ===== *)
(** * Agents behind one socket

    The multiplexer with the agents it serves: the checks two agents send each other find
    their way through it.  A sample multiplexer instantiates the theorems about routing, and a
    run shows what a second registration of a ufrag leaves behind. *)

From Stdlib Require Import Ascii.
From stdpp Require Import pretty.
From S2P Require Import Prelude.
From S2P Require Import StateMonad.
From S2P Require Import Bytes.
From S2P Require Import Addr.
From S2P Require Import StunMessage.
From S2P Require Import StunAttributes.
From S2P Require Import UdpMux.
From S2P Require Import CText.
From S2P Require Import Candidate.
From S2P Require Import CandidatePair.
From S2P Require Import Sdp.
From S2P Require Import AgentState.
From S2P Require Import AgentStun.
From S2P Require Import AgentDemo.
From S2P Require Import AgentAuth.
Open Scope Z_scope.

(** The check of an agent on the wire: a STUN message with the USERNAME it was built with. *)
Lemma check_on_wire env a tid pl pw :
  ufrag_ok (iceUfrag (local_ a)) -> ufrag_ok (iceUfrag (remote_ a)) -> length tid = 12%nat -> bytes_ok tid ->
  exists m d, encode (checkMessage env a tid pl) (Some pw) None (Some software) = Some m /\
    isMessage (raw m) = Some true /\ decode emptyMessage (raw m) = Some (true, d) /\
    getString d AttrType.Username = checkUser a.
Proof.
  intros Ha Hr Ht Hb.
  assert (Hok : enc_ok (checkMessage env a tid pl) (Some pw) None (Some software)) by by apply checkMessage_enc_ok.
  do 2 eexists. split; [by apply encode_ok|]. cbn [raw].
  split; [rewrite <- (app_nil_r (frame _ _ _)); by apply frame_isMessage, encode_frame_ok|].
  split; [rewrite <- (app_nil_r (frame _ _ _)); by apply decode_frame, encode_frame_ok|].
  unfold getString, find. cbn [attributes]. rewrite find_check_wire by done. by rewrite checkMessage_shape.
Qed.

Lemma localUfrag_check a b :
  peers a b -> localUfrag (checkUser a) = textBytes (iceUfrag (local_ b)).
Proof.
  intros [Eu _ _ _ _ Hc _]. unfold localUfrag, checkUser. rewrite Eu, find_colon by done.
  unfold textBytes. rewrite fmap_app, take_app_le by (rewrite length_fmap; lia).
  by rewrite take_ge by (rewrite length_fmap; lia).
Qed.

Lemma checkUser_nonempty a : checkUser a <> [].
Proof. unfold checkUser, textBytes. rewrite !fmap_app. destruct (code <$> iceUfrag (remote_ a)); done. Qed.

Section Routed.
Context (gni : sockaddr -> option (string * string)) (ntop : sockaddr -> option string).
Context (bound : option AddrRecord).

(** a check reaches the agent it is meant for.  When [a] has the credentials of [b], and [b]
    is registered with the multiplexer under its ufrag, then the check [a] builds for any pair
    is delivered to [b], and to [b] alone, from whatever address it comes and whichever agent
    that address belonged to; an address that belonged to nobody belongs to [b] afterwards. *)
Theorem mux_check_routed (l : list MuxCall) (m : UDPMux) (env : Env) (a b : Agent) (tid : bytes)
    (pl : option (CandidatePair * Candidate)) (src : AddrRecord) (k : nat) (e : MuxAgentEntry) :
  steps gni ntop bound l newMux m -> peers a b -> length tid = 12%nat -> bytes_ok tid ->
  registeredAs m (textBytes (iceUfrag (local_ b))) k -> entries m !! k = Some e -> hasOnPacket e = true ->
  exists msg m',
    encode (checkMessage env a tid pl) (Some (textBytes (cstr (icePwd (remote_ a))))) None (Some software) = Some msg /\
    routePacket gni ntop bound (raw msg) src m = Some ([k], m') /\
    agentsByAddr_ m' !! addrKey gni ntop src = Some (default k (agentsByAddr_ m !! addrKey gni ntop src)).
Proof.
  intros Hs Hp Ht Hb Hu Ee Hc. pose proof (steps_consistent _ _ _ _ _ _ newMux_consistent Hs) as Hcon.
  destruct (check_on_wire env a tid pl (textBytes (cstr (icePwd (remote_ a))))) as (msg & d & Em & Hm & Hd & Hn);
    [apply Hp | rewrite (pe_ufrag _ _ Hp); apply Hp | done | done |].
  destruct (recordIfNew_ok (addrKey gni ntop src) k _ m Hcon Hu) as ([] & m' & E & (_ & [Hx] & _) & _ & Ek).
  exists msg, m'. split; [done|]. split; [|done].
  unfold routePacket. rewrite (run_lift _ _ _ true) by done. cbn [negb].
  rewrite (run_lift _ _ _ (true, d)) by done. cbn [fst snd]. rewrite Hn, (localUfrag_check a b) by done.
  rewrite bool_decide_false by apply checkUser_nonempty. cbn [andb negb].
  unfold routeByUfrag. rewrite run_gets, Hu, (run_bind _ _ _ _ _ E). unfold gets, withCallback.
  destruct (Hx k e Ee) as (e' & Ee' & _ & Ho & _). rewrite filter_cons_True; [done|]. rewrite Ee'. cbn. congruence.
Qed.
End Routed.

(** ** A sample multiplexer *)

Definition muxNames (sa : sockaddr) : option (string * string) :=
  match sa with SockIn p ip => Some (String.concat "." (pretty <$> ip), pretty p) | _ => None end.
Definition muxAddr (host port : Z) : AddrRecord := mkAddrRecord (SockIn port [192; 0; 2; host]) 16 SOCK_DGRAM.
Definition muxBound : option AddrRecord := Some (muxAddr 1 3000).
Definition muxStep : MuxCall -> XM (list nat) := step muxNames (fun _ => None) muxBound.

Fixpoint muxRun (l : list MuxCall) (m : UDPMux) : option (list (list nat) * UDPMux) :=
  match l with
  | [] => Some ([], m)
  | c :: l => '(ks, m1) ← muxStep c m; '(out, m2) ← muxRun l m1; Some (ks :: out, m2)
  end.

Definition admissibleb (c : MuxCall) (m : UDPMux) : bool :=
  match c with
  | Register u _ _ _ => bool_decide (agentsByUfrag_ m !! u = None)
  | Packet buf _ => bool_decide (bytes_ok buf)
  | _ => true
  end.

Fixpoint admissibles (l : list MuxCall) (m : UDPMux) : bool :=
  match l with
  | [] => true
  | c :: l => admissibleb c m && match muxStep c m with Some (_, m1) => admissibles l m1 | None => false end
  end.

Lemma muxRun_steps l m out m' :
  muxRun l m = Some (out, m') -> admissibles l m = true -> steps muxNames (fun _ => None) muxBound l m m'.
Proof.
  revert m out. induction l as [|c l IH]; intros m out; cbn [muxRun admissibles].
  - intros [= _ <-] _. constructor.
  - destruct (muxStep c m) as [[ks m1]|] eqn:Ec; [|done]. cbn [mbind option_bind].
    destruct (muxRun l m1) as [[out1 m2]|] eqn:El; [|done]. intros [= _ <-] [Ha Hl]%andb_true_iff.
    econstructor; [|exact Ec|by eapply IH]. destruct c; cbn in *; try done; by eapply bool_decide_eq_true_1.
Qed.

Definition ufragOf (a : Agent) : bytes := textBytes (iceUfrag (local_ a)).
Definition openCalls : list MuxCall :=
  [Register (ufragOf agentB) true true true; Register [97; 98; 99; 100] true true true].
Definition openMux : UDPMux := default newMux (snd <$> muxRun openCalls newMux).

Lemma openMux_steps : steps muxNames (fun _ => None) muxBound openCalls newMux openMux.
Proof.
  destruct (muxRun openCalls newMux) as [[out m]|] eqn:E; [|by vm_compute in E].
  replace openMux with m by (unfold openMux; by rewrite E). eapply muxRun_steps; [exact E|by vm_compute].
Qed.

Lemma mux_check_routed_witness :
  exists msg m',
    encode (checkMessage (agentEnv 50) connectingA (replicate 12 1) None)
      (Some (textBytes (cstr (icePwd (remote_ connectingA))))) None (Some software) = Some msg /\
    routePacket muxNames (fun _ => None) muxBound (raw msg) (muxAddr 7 4000) openMux = Some ([0%nat], m') /\
    agentsByAddr_ m' !! addrKey muxNames (fun _ => None) (muxAddr 7 4000) =
      Some (default 0%nat (agentsByAddr_ openMux !! addrKey muxNames (fun _ => None) (muxAddr 7 4000))).
Proof.
  eapply (mux_check_routed muxNames (fun _ => None) muxBound openCalls openMux (agentEnv 50) connectingA agentB
    (replicate 12 1) None (muxAddr 7 4000) 0);
    [exact openMux_steps | exact connectingA_peers | reflexivity | by apply (bool_decide_unpack _), I
    | by vm_compute | by vm_compute | reflexivity].
Defined.

Lemma mux_calls_registered_witness :
  exists ks m', step muxNames (fun _ => None) muxBound (Packet [64; 0; 0; 0] (muxAddr 7 4000)) openMux = Some (ks, m') /\
    NoDup ks /\ Forall (fun k => exists u, registeredAs openMux u k) ks /\
    forall key k, agentsByAddr_ m' !! key = Some k -> exists u, registeredAs m' u k.
Proof.
  apply (mux_calls_registered muxNames (fun _ => None) muxBound openCalls (Packet [64; 0; 0; 0] (muxAddr 7 4000)) openMux);
    [exact openMux_steps | by apply (bool_decide_unpack _), I].
Defined.

(** Both agents send to one TURN server: what it answers on a channel is the first one's. *)
Definition sharedCalls : list MuxCall := [Sendto [1] (muxAddr 9 3478) [97; 98; 99; 100]].
Definition sharedMux : UDPMux :=
  default newMux (snd <$> muxRun (Sendto [1] (muxAddr 9 3478) (ufragOf agentB) :: sharedCalls) openMux).

Lemma mux_data_affinity_witness :
  routePacket muxNames (fun _ => None) muxBound [64; 0; 0; 1; 5] (muxAddr 9 3478) sharedMux = Some ([0%nat], sharedMux).
Proof.
  eapply (mux_data_affinity muxNames (fun _ => None) muxBound openCalls sharedCalls openMux sharedMux (muxAddr 9 3478)
    (ufragOf agentB) 0 _ [1] [64; 0; 0; 1; 5]).
  - exact openMux_steps.
  - by vm_compute.
  - by vm_compute.
  - reflexivity.
  - by vm_compute.
  - reflexivity.
  - constructor; [by left|constructor].
  - destruct (muxRun (Sendto [1] (muxAddr 9 3478) (ufragOf agentB) :: sharedCalls) openMux) as [[out m]|] eqn:E; [|by vm_compute in E].
    replace sharedMux with m by (unfold sharedMux; by rewrite E). eapply muxRun_steps; [exact E|by vm_compute].
  - reflexivity.
Defined.

(** A ufrag that is registered a second time leaves the addresses of the first entry behind:
    after the agent is removed, data still goes to the entry that was replaced, which no
    ufrag names. *)
Lemma reregistered_agent_called :
  exists out m, muxRun [Register [97] true true true; Sendto [1] (muxAddr 9 5000) [97]; Register [97] true true true;
                        Remove [97]; Packet [64; 0; 0; 0] (muxAddr 9 5000)] newMux = Some (out, m) /\
    last out = Some [0%nat] /\ agentsByUfrag_ m = ∅.
Proof. eexists _, _. split; [vm_compute; reflexivity|]. by split. Qed.
