(* ===== verification/TcpMuxAgents.v ===== *)
(** * Agents behind one listening socket

    The TCP multiplexer with the agents it serves: a peer that connects and sends its check is
    given to the agent the check is meant for, with everything it sends. *)

From Stdlib Require Import Ascii.
From S2P Require Import Prelude.
From S2P Require Import StateMonad.
From S2P Require Import Bytes.
From S2P Require Import Addr.
From S2P Require Import StunMessage.
From S2P Require Import StunAttributes.
From S2P Require Import CText.
From S2P Require Import Candidate.
From S2P Require Import CandidatePair.
From S2P Require Import Sdp.
From S2P Require Import AgentState.
From S2P Require Import AgentStun.
From S2P Require Import AgentDemo.
From S2P Require Import AgentAuth.
From S2P Require Import TcpTransport.
From S2P Require Import TcpStream.
From S2P Require Import UdpMux.
From S2P Require Import MuxAgents.
From S2P Require Import TcpMux.
From S2P Require Import TcpMuxInv.
From S2P Require Import TcpMuxTheorems.
Open Scope Z_scope.

Lemma check_first env a b tid pl pw :
  peers a b -> length tid = 12%nat -> bytes_ok tid ->
  exists m, encode (checkMessage env a tid pl) (Some pw) None (Some software) = Some m /\ msg_ok (raw m) /\
    firstUsername (raw m) = Some (Some (checkUser a)) /\ localUfrag (checkUser a) = textBytes (iceUfrag (local_ b)).
Proof.
  intros Hp Ht Hb. pose proof (pe_sizeA _ _ Hp) as Ha. pose proof (pe_sizeB _ _ Hp) as Hr. rewrite <- (pe_ufrag _ _ Hp) in Hr.
  destruct (check_on_wire env a tid pl pw Ha Hr Ht Hb) as (m & d & Em & Hm & Hd & Hn). exists m. split; [done|].
  assert (Hok : enc_ok (checkMessage env a tid pl) (Some pw) None (Some software)) by by apply checkMessage_enc_ok.
  assert (Hraw : length (raw m) = (20 + length (tlvs (wireAttrs (checkMessage env a tid pl) (Some pw) None (Some software))))%nat).
  { rewrite (encode_ok _ _ _ _ Hok) in Em. injection Em as <-. cbn [raw]. by apply frame_length, encode_frame_ok. }
  split; [|split; [|by apply localUfrag_check]].
  - pose proof (check_wire_size env a tid pl pw (conj Ht Hb) Ha Hr). unfold msg_ok. rewrite Hraw. lia.
  - unfold firstUsername. rewrite Hm, Hd. cbn [mbind option_bind negb fst snd orb]. rewrite Hn.
    by rewrite bool_decide_false by apply checkUser_nonempty.
Qed.

Section Established.
Context (gni : sockaddr -> option (string * string)) (ntop : sockaddr -> option string) (sysOf : nat -> TcpSys).

(** a peer that connects reaches the agent it is meant for.  When [a] has the credentials of
    [b], [b] is registered with the multiplexer under its ufrag, and an accepted connection
    carries the check of [a] followed by any messages, then in whatever chunks the bytes
    arrive, the messages that are complete have been delivered to [b], in order and each as it
    was sent, with the address of the connection; all of them once all bytes are there.  From
    the first delivery on the connection is the one sends to that address use. *)
Theorem tcp_check_establishes (m : TCPMux) (env : Env) (a b : Agent) (tid : bytes) (pl : option (CandidatePair * Candidate))
    (k ag : nat) (fd at_ : Z) (peer : AddrRecord) :
  peers a b -> length tid = 12%nat -> bytes_ok tid ->
  conns m !! k = Some (newConn fd peer at_) -> k ∈ pendingConns_ m ->
  agentsByUfrag_ m !! textBytes (iceUfrag (local_ b)) = Some ag ->
  (exists e, agentEntries m !! ag = Some e /\ t_onPacket e = true) ->
  exists msg,
    encode (checkMessage env a tid pl) (Some (textBytes (cstr (icePwd (remote_ a))))) None (Some software) = Some msg /\
    forall msgs chunks, Forall msg_ok msgs -> mjoin chunks `prefix_of` stream (raw msg :: msgs) ->
      exists m' got more, feed gni ntop sysOf k chunks m = Some (tt, m') /\ raw msg :: msgs = got ++ more /\
        delivered m' = delivered m ++ addressed ag peer got /\
        (mjoin chunks = stream (raw msg :: msgs) -> more = []) /\
        (got <> [] -> connsByAddr_ m' !! addrKey gni ntop peer = Some k).
Proof.
  intros Hp Ht Hb Hc Hpe Hu He.
  destruct (check_first env a b tid pl (textBytes (cstr (icePwd (remote_ a)))) Hp Ht Hb) as (msg & Em & Hm & Hf & Hl).
  exists msg. split; [done|]. intros msgs chunks Hok Hpre.
  destruct (accepted_waits k fd peer at_ m Hc Hpe) as (t & Hw & Hi & Hrest & _).
  destruct (feed_waits gni ntop sysOf k ag peer chunks (raw msg) msgs m t Hw Hi Hm) as (m' & got & more & H1 & H2 & H3 & H4 & H5).
  - split; [|done]. exists (checkUser a). by rewrite Hl.
  - done.
  - by rewrite Hrest.
  - rewrite Hrest, framed_length. cbn. lia.
  - rewrite Hrest in H4. by exists m', got, more.
Qed.
End Established.

Definition tcpServing : TCPMux :=
  default newTcpMux (snd <$> tcpRun [EvRegister (ufragOf agentB) true true true; EvAccept [(7, tcpPeer)]] newTcpMux).

Lemma tcp_check_establishes_witness :
  exists msg,
    encode (checkMessage (agentEnv 50) connectingA (replicate 12 1) None)
      (Some (textBytes (cstr (icePwd (remote_ connectingA))))) None (Some software) = Some msg /\
    forall msgs chunks, Forall msg_ok msgs -> mjoin chunks `prefix_of` stream (raw msg :: msgs) ->
      exists m' got more, feed tcpNames (fun _ => None) (fun _ => slowSys) 0 chunks tcpServing = Some (tt, m') /\
        raw msg :: msgs = got ++ more /\
        delivered m' = delivered tcpServing ++ addressed 0 tcpPeer got /\
        (mjoin chunks = stream (raw msg :: msgs) -> more = []) /\
        (got <> [] -> connsByAddr_ m' !! addrKey tcpNames (fun _ => None) tcpPeer = Some 0%nat).
Proof.
  apply (tcp_check_establishes tcpNames (fun _ => None) (fun _ => slowSys) tcpServing (agentEnv 50) connectingA agentB
    (replicate 12 1) None 0 0 7 0 tcpPeer).
  - exact connectingA_peers.
  - reflexivity.
  - by apply (bool_decide_unpack _), I.
  - by vm_compute.
  - apply (bool_decide_unpack _). by vm_compute.
  - by vm_compute.
  - eexists. split; [by vm_compute|reflexivity].
Defined.
