(* ===== verification/AgentSend.v ===== *)
(** * Sending application data

    [Agent::send] of ice/agent.cpp with the TURN clients of the relay entries behind it.  The
    call has a shortcut: under the agent's lock it only looks up where the data goes, and for a
    relay has the client wrap it for a channel; the write follows without the lock.  [send] is
    the call with its shortcut, [slowSend] the way through [sendViaSelectedPair] and
    [sendData] of the client, and [sendRaw] is the function the agent gives its clients for
    their frames.

    A [Sender] is the agent with its clients by number of their entry, and what was written on
    their control connections.  The agent's call of a client is the output [OTurnSend] of
    [AgentLoop]; here the client runs, and what it sends goes through [sendRaw], with the
    result the client is given computed beforehand ([answer]).  [relayTcp k n frame] is the
    [n]-th write on the control connection of entry [k]: [None] when it is not connected.  The
    traffic class is not set ([ds] is negative).

    At the end, the calls that give the application the selected pair as text. *)

From Stdlib Require Import Ascii.
From S2P Require Import Prelude.
From S2P Require Import StateMonad.
From S2P Require Import Bytes.
From S2P Require Import Addr.
From S2P Require Import StunMessage.
From S2P Require Import ChannelData.
From S2P Require Import TcpTransport.
From S2P Require Import TurnClient.
From S2P Require Import TurnClientInv.
From S2P Require Import TurnClientSafe.
From S2P Require Import TurnClientSteps.
From S2P Require Import CText.
From S2P Require Import Candidate.
From S2P Require Import CandidatePair.
From S2P Require Import Sdp.
From S2P Require Import AgentState.
From S2P Require Import AgentPairs.
From S2P Require Import AgentStun.
From S2P Require Import AgentLoop.
From S2P Require Import AgentInv.
From S2P Require Import AgentSafe.
From S2P Require Import AgentSteps.
From S2P Require Import AgentRun.
From S2P Require Import AgentDemo.
Open Scope Z_scope.
Open Scope c_scope.

Record Sender := mkSender { sa : Agent; clients : gmap nat Client; tcpWrites : nat; tcpOut : list (nat * Chan * bytes) }.
#[export] Instance Sender_fields : RecordFields Sender := fun s => mkSender (sa s) (clients s) (tcpWrites s) (tcpOut s).

Abbreviation SenderM := (SM Sender).

Definition onA {A} (m : M A) : SenderM A :=
  a ← gets sa; '(x, a) ← lift (m a); modify (fun s => s <| sa := a |>);; mret x.

(** The calls of clients among the agent's outputs, and the frames among a client's. *)
Definition turnSends (l : list AgentState.Output) : list (nat * AddrRecord * bytes) :=
  omap (fun o => match o with OTurnSend k dst d => Some (k, dst, d) | _ => None end) l.
Definition rawFrames (l : list TurnClient.Output) : list bytes :=
  omap (fun o => match o with OSendRaw d => Some d | _ => None end) l.

Inductive Shortcut := NoPair | Direct (dst : AddrRecord) | ViaRelay (k : nat) (frame : bytes) | NoShortcut.

Section Send.
Context (env : Env) (rng : nat -> nat -> option bytes) (hasMux : bool) (wouldBlock : Z).
Context (relayTcp : nat -> nat -> bytes -> option bool).

(** A write on a control connection. *)
Definition tcpWrite (k : nat) (ch : Chan) (frame : bytes) (closed : Z) : SenderM Z :=
  n ← gets tcpWrites;
  modify (fun s => s <| tcpWrites := S n |>);;
  match relayTcp k n frame with
  | None => mret closed
  | Some false => mret (- wouldBlock)
  | Some true => modify (fun s => s <| tcpOut ::= (fun l => l ++ [(k, ch, frame)]) |>);; mret (Z.of_nat (length frame))
  end.

(** [sink.sendRaw] of [createRelayEntry]. *)
Definition sendRaw (k : nat) (frame : bytes) : SenderM Z :=
  e ← onA (getEntry k);
  control ← lift (isMessage frame);
  if e_tcpTurn e then tcpWrite k (if (control : bool) then Control else Data) frame (-1)
  else onA (sendUdp env frame (e_record e) control).

(** Its result, [j] frames from now. *)
Definition answer (s : Sender) (k j : nat) (frame : bytes) : Z :=
  match entries_ (sa s) !! k with
  | None => -1
  | Some e =>
      if e_tcpTurn e then
        match relayTcp k (tcpWrites s + j) frame with
        | None => -1 | Some false => - wouldBlock | Some true => Z.of_nat (length frame)
        end
      else
        let '(r, backedUp) := udpSend env (sends (sa s) + j) (e_record e) frame in
        if 0 <=? r then r
        else if default false (isMessage frame) && backedUp then Z.of_nat (length frame) else r
  end.

Definition setRaw (f : option (nat -> bytes -> Z)) (c : Client) : Client :=
  c <| sink_ ::= (fun k => mkTurnSink f (onAllocated k) (onFailed k) (onData k) (onConnectSuccess k)
                             (onConnectionAttempt k) (onConnectFailed k)) |>.

(** A call of the client of entry [k]. *)
Definition callClient {A} (k : nat) (m : CM A) : SenderM A :=
  s ← gets id;
  c ← lift (clients s !! k);
  '(x, c') ← lift (m (setRaw (Some (fun j d => answer s k (j - TurnClient.sends c) d)) c));
  modify (fun s => s <| clients ::= <[k := setRaw (TurnClient.sendRaw (sink_ c)) c']> |>);;
  forM (drop (length (rawFrames (TurnClient.outs c))) (rawFrames (TurnClient.outs c'))) (fun d => sendRaw k d;; skip);;
  mret x.

(** Under the lock: [sendViaSelectedPair], and the client's part of it. *)
Definition slowSend (data : bytes) : SenderM Z :=
  n ← gets (fun s => length (turnSends (outs (sa s))));
  r ← onA (AgentLoop.send env data);
  l ← gets (fun s => turnSends (outs (sa s)));
  match drop n l with
  | (k, dst, d) :: _ => q ← callClient k (sendData rng dst d); mret (if q <? 0 then q else r)
  | [] => mret r
  end.

(** What the lock is held for. *)
Definition shortcut (data : bytes) : SenderM Shortcut :=
  onA (modify (fun a => a <| lastAppDataAt_ := clock a |>));;
  a ← gets sa;
  match selectedPair_ a with
  | None => mret NoPair
  | Some i =>
      p ← onA (getPair i); lc ← onA (derefLocal (local p)); rc ← onA (derefRemote (remote p));
      relayTcp ← onA (pairIsTurnTcpRelay (Some i)); tcp ← onA (pairIsTcp (Some i));
      if hasMux || (relayTcp : bool) || (tcp : bool) then mret NoShortcut
      else if bool_decide (type lc = Relayed) ||
              (bool_decide (type rc = Relayed) && bool_decide (is_Some (firstRelay (entries_ a))))
      then match firstRelay (entries_ a) with
           | None => mret NoShortcut
           | Some k =>
               r ← callClient k (prepareChannelData (resolved rc) data []);
               mret (if r.1 =? 1 then ViaRelay k r.2 else NoShortcut)
           end
      else mret (Direct (resolved rc))
  end.

Definition send (data : bytes) : SenderM Z :=
  f ← shortcut data;
  match f with
  | NoPair => mret STICE_ERR_FAILED
  | Direct dst => onA (sendUdp env data dst false)
  | ViaRelay k frame =>
      e ← onA (getEntry k);
      r ← (if e_tcpTurn e then tcpWrite k Data frame (- wouldBlock) else onA (sendUdp env frame (e_record e) false));
      mret (if r <? 0 then r else Z.of_nat (length data))
  | NoShortcut => slowSend data
  end.
End Send.

(** ** Running the parts *)

Lemma onA_run {A} (m : M A) s x a : m (sa s) = Some (x, a) -> onA m s = Some (x, s <| sa := a |>).
Proof. intros E. unfold onA. by rewrite run_gets, (run_lift _ _ _ _ E), run_modify. Qed.

Lemma onA_read {A} (m : M A) s x : m (sa s) = Some (x, sa s) -> onA m s = Some (x, s).
Proof. intros E. rewrite (onA_run m s x (sa s) E). by destruct s. Qed.

(** The pair in use, with its candidates. *)
Record inUse (a : Agent) (i : nat) (p : CandidatePair) (lc rc : Candidate) : Prop := {
  iu_pair : pairs_ a !! i = Some p; iu_local : localCand a (local p) = Some lc; iu_remote : remoteCand a (remote p) = Some rc }.

Lemma inv_inUse a i : AgentInv.inv a -> selectedPair_ a = Some i -> exists p lc rc, inUse a i p lc rc.
Proof.
  intros Ha Hi. pose proof (inv_sel a Ha) as Hr. rewrite Hi in Hr.
  destruct (lookup_lt_is_Some_2 (pairs_ a) i) as [p Ep]; [by apply Hr|].
  assert (Hp : pair_ok a p) by (destruct Ha as [[Hp _ _ _ _ _ _ _ _ _] _]; by eapply Forall_lookup_1).
  destruct Hp as (Hg & Hl & Hg' & rc & Er & _). destruct (lookup_lt_is_Some_2 _ _ Hl) as [lc El].
  exists p, lc, rc. split; [done| |]; [unfold localCand|unfold remoteCand]; by rewrite decide_True.
Qed.

Definition isTcp (lc rc : Candidate) : bool := negb (bool_decide (transport lc = UDP)) && negb (bool_decide (transport rc = UDP)).
Definition relayed (a : Agent) (lc rc : Candidate) : bool :=
  bool_decide (type lc = Relayed) || (bool_decide (type rc = Relayed) && bool_decide (is_Some (firstRelay (entries_ a)))).

Section Reads.
Context (a : Agent) (i : nat) (p : CandidatePair) (lc rc : Candidate) (H : inUse a i p lc rc).

Lemma getPair_run : getPair i a = Some (p, a).
Proof. unfold getPair. by rewrite (iu_pair _ _ _ _ _ H). Qed.
Lemma derefLocal_run : derefLocal (local p) a = Some (lc, a).
Proof. unfold derefLocal. by rewrite (iu_local _ _ _ _ _ H). Qed.
Lemma derefRemote_run : derefRemote (remote p) a = Some (rc, a).
Proof. unfold derefRemote. by rewrite (iu_remote _ _ _ _ _ H). Qed.
Lemma tcpRelay_run : pairIsTurnTcpRelay (Some i) a = Some (candIsTcpRelay lc, a).
Proof. unfold pairIsTurnTcpRelay, pairIsTcpRelay. by rewrite (run_bind _ _ _ _ _ getPair_run), (run_bind _ _ _ _ _ derefLocal_run). Qed.
Lemma isTcp_run : pairIsTcp (Some i) a = Some (isTcp lc rc, a).
Proof.
  unfold pairIsTcp, isTcp. rewrite (run_bind _ _ _ _ _ getPair_run), (run_bind _ _ _ _ _ derefLocal_run).
  case_bool_decide; [done|]. by rewrite (run_bind _ _ _ _ _ derefRemote_run).
Qed.
End Reads.

(** The agent's part: the time is noted, and the data goes one of four ways. *)
Definition noted (a : Agent) : Agent := a <| lastAppDataAt_ := clock a |>.

Lemma noted_inUse a i p lc rc : inUse a i p lc rc -> inUse (noted a) i p lc rc.
Proof. by intros []. Qed.

Section Agent.
Context (env : Env).

Lemma agent_send_run a i p lc rc data :
  selectedPair_ a = Some i -> inUse a i p lc rc ->
  AgentLoop.send env data a =
    (if candIsTcpRelay lc then sendTurnDataConn env data
     else if isTcp lc rc then sendTcp env data (Some i)
     else if relayed a lc rc then
       match firstRelay (entries_ a) with
       | Some k => emit (OTurnSend k (resolved rc) data);; mret (Z.of_nat (length data))
       | None => mret STICE_ERR_FAILED
       end
     else sendUdp env data (resolved rc) false) (noted a).
Proof.
  intros Hi H%noted_inUse. unfold AgentLoop.send. rewrite run_modify. change (_ <| _ := _ |>) with (noted a).
  unfold sendViaSelectedPair. rewrite run_gets. unfold id. change (selectedPair_ (noted a)) with (selectedPair_ a). rewrite Hi.
  rewrite (run_bind _ _ _ _ _ (getPair_run _ _ _ _ _ H)), (run_bind _ _ _ _ _ (derefLocal_run _ _ _ _ _ H)),
    (run_bind _ _ _ _ _ (tcpRelay_run _ _ _ _ _ H)). destruct (candIsTcpRelay lc); [done|].
  rewrite (run_bind _ _ _ _ _ (isTcp_run _ _ _ _ _ H)). destruct (isTcp lc rc); [done|].
  by rewrite (run_bind _ _ _ _ _ (derefRemote_run _ _ _ _ _ H)).
Qed.

Lemma agent_send_none a data : selectedPair_ a = None -> AgentLoop.send env data a = Some (STICE_ERR_FAILED, noted a).
Proof.
  intros Hi. unfold AgentLoop.send. rewrite run_modify. unfold sendViaSelectedPair. rewrite run_gets. unfold id.
  change (_ <| _ := _ |>) with (noted a). change (selectedPair_ (noted a)) with (selectedPair_ a). by rewrite Hi.
Qed.
End Agent.

(** ** The calls return *)

Lemma isMessage_some data : exists b, isMessage data = Some b.
Proof.
  unfold isMessage, MessageHeaderSize. destruct (Nat.ltb_spec (length data) 20) as [|Hl]; [by eexists|].
  assert (Hat : forall i, (i < 20)%nat -> is_Some (data !! i)) by (intros i Hi; apply lookup_lt_is_Some_2; lia).
  destruct (Hat 0%nat) as [d0 ->]; [lia|]. cbn [mbind option_bind]. destruct (negb _); [by eexists|].
  unfold readU32Be, readU16Be. repeat (match goal with |- context [data !! ?i] => destruct (Hat i) as [? ->]; [lia|] end; cbn [mbind option_bind Nat.add]).
  repeat case_match; by eexists.
Qed.

(** The ways that do not call a client. *)
Definition calls (a : Agent) : list (nat * AddrRecord * bytes) := turnSends (outs a).

Lemma turnSends_app l l' : turnSends (l ++ l') = turnSends l ++ turnSends l'.
Proof. apply omap_app. Qed.
Lemma rawFrames_app l l' : rawFrames (l ++ l') = rawFrames l ++ rawFrames l'.
Proof. apply omap_app. Qed.

Lemma pres_emit_calls o : turnSends [o] = [] -> preserves calls (emit o).
Proof. intros H. unfold emit. apply pres_modify. intros a. unfold calls. upd. by rewrite turnSends_app, H, app_nil_r. Qed.
Lemma pres_calls_nextSend : preserves calls nextSend.
Proof. by intros a x a' [= <- <-]. Qed.
#[local] Hint Resolve pres_emit_calls pres_calls_nextSend pres_emit_calls : pres.

Lemma calls_sendUdp env data dst control : preserves calls (sendUdp env data dst control).
Proof.
  unfold sendUdp. apply pres_bind; [apply pres_calls_nextSend|]. intros k. destruct (udpSend env k dst data) as [r b].
  destruct (0 <=? r); [apply pres_bind; [by apply pres_emit_calls|intros; apply pres_ret]|].
  destruct (control && b); [|apply pres_ret]. apply pres_bind; [by apply pres_modify|intros; apply pres_ret].
Qed.

Lemma calls_tcp env data o : preserves calls (sendTcp env data o).
Proof. unfold sendTcp, getPair, derefLocal, derefRemote. preserve; by apply pres_emit_calls. Qed.

Lemma calls_turnData env data : preserves calls (sendTurnDataConn env data).
Proof. unfold sendTurnDataConn. preserve; by apply pres_emit_calls. Qed.

(** ** The client's part *)

Lemma setRaw_back f c : setRaw (TurnClient.sendRaw (sink_ c)) (setRaw f c) = c.
Proof. by destruct c as [? []]. Qed.

Lemma cinv_setRaw f c : cinv c -> cinv (setRaw f c).
Proof. by intros []. Qed.

(** A ready channel to [peer] whose frame holds the data. *)
Record channelTo (c : Client) (peer : AddrRecord) (data f : bytes) : Prop := {
  ct_state : TurnClient.state_ c = Allocated;
  ct_binding : exists i b n, bindingAt peer (bindings_ c) = Some i /\ bindings_ c !! i = Some b /\ channelReady b = true /\
                 wrapChannelData (channel b) data [] = Some (n, f) /\ n <> 0%nat }.

Lemma prepare_run peer data c :
  TurnClient.state_ c = Allocated ->
  exists r, prepareChannelData peer data [] c = Some (r, c) /\ (r.1 = 1 -> channelTo c peer data r.2).
Proof.
  intros Es. unfold prepareChannelData. unfold inState. rewrite run_gets, Es. cbn [negb bool_decide]. rewrite bool_decide_true by done. cbn [negb].
  rewrite run_gets. destruct (bindingAt peer (bindings_ c)) as [i|] eqn:Ei; [|by eexists].
  destruct (bindingAt_Some _ _ _ Ei) as (b & Eb & _). rewrite (run_lift _ _ _ _ Eb).
  destruct (channelReady b) eqn:Er; cbn [negb]; [|by eexists].
  destruct (wrapChannelData_total (channel b) data []) as (n & f & Ew & _). rewrite (run_lift _ _ _ _ Ew). cbn [fst snd].
  destruct (Nat.eqb_spec n 0); [by eexists|]. eexists. split; [done|]. intros _. split; [done|]. by exists i, b, n.
Qed.

Lemma frame_no_message c peer data f : channelTo c peer data f -> isMessage f = Some false.
Proof.
  intros [_ (i & b & n & _ & _ & _ & Ew & Hn)]. destruct (wrapChannelData_total (channel b) data []) as (n' & f' & Ew' & Hf).
  rewrite Ew in Ew'. injection Ew' as <- <-. destruct (Hf Hn) as (Hc & Hp & ->).
  destruct (channelFrame_head (channel b) data [] Hc Hp) as (b0 & b1 & b2 & b3 & tl & E & B0 & _ & _ & _ & Hr & _).
  rewrite app_nil_r in E. rewrite E. destruct (isMessage_some (b0 :: b1 :: b2 :: b3 :: tl)) as [[] Em]; [|done].
  assert (Hat : (b0 :: b1 :: b2 :: b3 :: tl) !! 0%nat = Some b0) by done. pose proof (isMessage_first _ b0 B0 Hat Em). lia.
Qed.

Lemma sendData_ready rng peer data f c g :
  channelTo c peer data f -> existsb (permitsPeer peer) (bindings_ c) = true -> TurnClient.sendRaw (sink_ c) = Some g ->
  sendData rng peer data c =
    Some (g (TurnClient.sends c) f, c <| TurnClient.sends := S (TurnClient.sends c) |> <| TurnClient.outs ::= (fun l => l ++ [OSendRaw f]) |>).
Proof.
  intros [Es (i & b & n & Ei & Eb & Er & Ew & Hn)] Hp Hg. unfold sendData, inState. rewrite run_gets, bool_decide_true by done. cbn [negb].
  unfold getBinding. rewrite run_assoc, run_gets, Ei. unfold refAt. rewrite run_assoc, run_gets, run_ret.
  unfold hasPermission. rewrite run_gets, Hp. cbn [negb].
  unfold TurnClient.deref. rewrite run_assoc, run_gets, run_assoc, run_gets. cbn [r_gen r_idx]. rewrite decide_True by done.
  rewrite (run_lift _ _ _ _ Eb), Er, (run_lift _ _ _ _ Ew). cbn [fst snd].
  rewrite (proj2 (Nat.eqb_neq _ _)) by done. unfold rawSend. rewrite run_assoc, run_gets, Hg, run_assoc, run_gets, run_assoc, run_modify.
  unfold TurnClient.emit. by rewrite run_assoc, run_modify, run_ret.
Qed.

(** ** The shortcut and the way it replaces *)

(** The agent without the calls of clients among its outputs. *)
Definition uncalled (a : Agent) : Agent :=
  a <| outs ::= List.filter (fun o => match o with OTurnSend _ _ _ => false | _ => true end) |>.

(** The same datagrams and frames were written, and agent and clients are left the same. *)
Record same_wire (s1 s2 : Sender) : Prop := {
  sw_agent : uncalled (sa s1) = uncalled (sa s2); sw_writes : tcpWrites s1 = tcpWrites s2; sw_tcp : tcpOut s1 = tcpOut s2;
  sw_clients : bindings_ <$> clients s1 = bindings_ <$> clients s2 }.

Lemma sendUdp_run env d dst a q b :
  udpSend env (sends a) dst d = (q, b) ->
  sendUdp env d dst false a =
    Some (q, if 0 <=? q then a <| sends := S (sends a) |> <| outs ::= (fun l => l ++ [OUdp dst d]) |> else a <| sends := S (sends a) |>).
Proof.
  intros E. unfold sendUdp. rewrite (run_bind _ _ a (sends a) (a <| sends := S (sends a) |>)) by done. rewrite E. by destruct (0 <=? q).
Qed.

Lemma uncalled_sends a n : uncalled (a <| sends := n |>) = uncalled a <| sends := n |>.
Proof. done. Qed.
Lemma uncalled_udp a n dst d :
  uncalled (a <| sends := n |> <| outs ::= (fun l => l ++ [OUdp dst d]) |>) = uncalled a <| sends := n |> <| outs ::= (fun l => l ++ [OUdp dst d]) |>.
Proof. unfold uncalled. destruct a. unfold field_update. cbn. by rewrite List.filter_app. Qed.
Lemma uncalled_call a k dst d : uncalled (a <| outs ::= (fun l => l ++ [OTurnSend k dst d]) |>) = uncalled a.
Proof. unfold uncalled. destruct a. unfold field_update. cbn. by rewrite List.filter_app, app_nil_r. Qed.

Lemma same_wire_refl s : same_wire s s.
Proof. done. Qed.

Section Same.
Context (env : Env) (rng : nat -> nat -> option bytes) (hasMux : bool) (wouldBlock : Z).
Context (relayTcp : nat -> nat -> bytes -> option bool).

Abbreviation tcpWrite := (tcpWrite wouldBlock relayTcp).
Abbreviation sendRaw := (sendRaw env wouldBlock relayTcp).
Abbreviation callClient := (callClient env wouldBlock relayTcp).
Abbreviation slowSend := (slowSend env rng wouldBlock relayTcp).
Abbreviation shortcut := (shortcut env hasMux wouldBlock relayTcp).
Abbreviation send := (send env rng hasMux wouldBlock relayTcp).

(** The lookup leaves the client as it is. *)
Lemma callClient_prepare k peer data s c :
  clients s !! k = Some c -> TurnClient.state_ c = Allocated ->
  exists r, callClient k (prepareChannelData peer data []) s = Some (r, s) /\ (r.1 = 1 -> channelTo c peer data r.2).
Proof.
  intros Ec Es. unfold AgentSend.callClient. rewrite run_gets. unfold id. rewrite (run_lift _ _ _ _ Ec).
  match goal with |- context [setRaw ?f c] => destruct (prepare_run peer data (setRaw f c) Es) as (r & E & Hr) end.
  rewrite (run_lift _ _ _ _ E), run_modify. exists r. split; [|by intros H; destruct (Hr H)].
  rewrite drop_ge by done. cbn [forM]. rewrite run_skip, setRaw_back. unfold mret, SM_ret. do 2 f_equal.
  destruct s. unfold field_update. cbn in *. by rewrite insert_id.
Qed.

(** One write of a frame, by the shortcut and by the client's way. *)
Definition write (e : StunEntry) (k : nat) (frame : bytes) : SenderM Z :=
  if e_tcpTurn e then tcpWrite k Data frame (- wouldBlock) else onA (sendUdp env frame (e_record e) false).

(** What both make of a write: its result, and the states that differ in the calls and the
    clients only. *)
Lemma write_same e k frame s s' :
  entries_ (sa s) !! k = Some e -> isMessage frame = Some false -> 0 < wouldBlock ->
  (e_tcpTurn e = true -> relayTcp k (tcpWrites s) frame <> None) ->
  uncalled (sa s') = uncalled (sa s) -> tcpWrites s' = tcpWrites s -> tcpOut s' = tcpOut s ->
  exists r r' s1 s2, write e k frame s = Some (r, s1) /\ sendRaw k frame s' = Some (r', s2) /\
    answer env wouldBlock relayTcp s k 0 frame = r' /\ (r' < 0 <-> r < 0) /\ (r' < 0 -> r = r') /\
    clients s1 = clients s /\ clients s2 = clients s' /\
    uncalled (sa s1) = uncalled (sa s2) /\ tcpWrites s1 = tcpWrites s2 /\ tcpOut s1 = tcpOut s2.
Proof.
  intros Ee Em Hw Hup Ha Hn Ho.
  assert (Ee' : entries_ (sa s') !! k = Some e) by (change (entries_ (sa s')) with (entries_ (uncalled (sa s'))); by rewrite Ha).
  assert (Hs : sends (sa s') = sends (sa s)) by (change (sends (sa s')) with (sends (uncalled (sa s'))); by rewrite Ha).
  unfold write, AgentSend.sendRaw, answer. rewrite Ee, Em, !Nat.add_0_r.
  rewrite (run_bind _ _ s' e s') by (apply onA_read; unfold getEntry; by rewrite Ee'). rewrite (run_lift _ _ _ _ eq_refl).
  destruct (e_tcpTurn e).
  - unfold AgentSend.tcpWrite. rewrite !run_gets, !run_modify, Hn. destruct (relayTcp k (tcpWrites s) frame) as [[]|] eqn:Er; [| |by destruct (Hup eq_refl)].
    + rewrite !run_modify. do 4 eexists. split; [done|]. split; [done|]. split; [done|]. split_and!; try done; upd; congruence.
    + do 4 eexists. split; [done|]. split; [done|]. split; [done|]. split_and!; try done; upd; congruence.
  - destruct (udpSend env (sends (sa s)) (e_record e) frame) as [q b] eqn:Eq.
    rewrite (onA_run _ s _ _ (sendUdp_run env frame (e_record e) (sa s) q b Eq)). rewrite <- Hs in Eq.
    rewrite (onA_run _ s' _ _ (sendUdp_run env frame (e_record e) (sa s') q b Eq)).
    do 4 eexists. split; [done|]. split; [done|]. split; [by destruct (0 <=? q)|]. split_and!; try done; upd.
    destruct (0 <=? q); [rewrite !uncalled_udp|rewrite !uncalled_sends]; by rewrite Ha, Hs.
Qed.

Lemma slow_plain data s r a' :
  AgentLoop.send env data (sa s) = Some (r, a') -> calls a' = calls (sa s) -> slowSend data s = Some (r, s <| sa := a' |>).
Proof.
  intros E Hc. unfold AgentSend.slowSend. rewrite run_gets, (run_bind _ _ _ _ _ (onA_run _ _ _ _ E)), run_gets. upd.
  change (turnSends (outs a')) with (calls a'). rewrite Hc. by rewrite drop_ge by done.
Qed.

Lemma slow_call data s r a' k dst d :
  AgentLoop.send env data (sa s) = Some (r, a') -> calls a' = calls (sa s) ++ [(k, dst, d)] ->
  slowSend data s = (callClient k (sendData rng dst d) ≫= (fun q => mret (if q <? 0 then q else r))) (s <| sa := a' |>).
Proof.
  intros E Hc. unfold AgentSend.slowSend. rewrite run_gets, (run_bind _ _ _ _ _ (onA_run _ _ _ _ E)), run_gets. upd.
  change (turnSends (outs a')) with (calls a'). rewrite Hc. by rewrite drop_app_length.
Qed.

(** The agent with the clients of its relays. *)
Record sender_ok (s : Sender) : Prop := {
  so_agent : AgentInv.inv (sa s);
  so_client : forall k, firstRelay (entries_ (sa s)) = Some k -> exists c, clients s !! k = Some c /\ cinv c /\ TurnClient.state_ c = Allocated;
  so_peer : forall i p lc rc, selectedPair_ (sa s) = Some i -> inUse (sa s) i p lc rc -> TurnClientInv.good (resolved rc) }.

(** What the shortcut takes for granted: a channel is used under a permission, and a control
    connection with an allocation is connected. *)
Record settled (s : Sender) : Prop := {
  se_permitted : forall k c peer i b, clients s !! k = Some c -> bindingAt peer (bindings_ c) = Some i -> bindings_ c !! i = Some b ->
    channelReady b = true -> existsb (permitsPeer peer) (bindings_ c) = true;
  se_up : forall k e n frame, entries_ (sa s) !! k = Some e -> e_tcpTurn e = true -> relayTcp k n frame <> None }.

Lemma firstRelay_entry a k : firstRelay (entries_ a) = Some k -> is_Some (entries_ a !! k).
Proof.
  unfold firstRelay. destruct (list_find _ _) as [[j e]|] eqn:E; [|done]. cbn. intros [= <-].
  apply list_find_Some in E as (E & _). by eexists.
Qed.

Lemma wp_onA {A} (m : M A) (Q : A -> Sender -> Prop) s : wp m (fun x a => Q x (s <| sa := a |>)) (sa s) -> wp (onA m) Q s.
Proof. intros (x & a & E & H). exists x, (s <| sa := a |>). split; [by apply onA_run|done]. Qed.

Lemma wp_sendRaw k d s :
  AgentInv.inv (sa s) -> (k < length (entries_ (sa s)))%nat ->
  wp (sendRaw k d) (fun _ s' => AgentInv.inv (sa s') /\ (k < length (entries_ (sa s')))%nat) s.
Proof.
  intros Ha Hk. unfold AgentSend.sendRaw. apply wp_bind, wp_onA, wp_getEntry; [done..|]. intros e _ _.
  destruct (isMessage_some d) as [b Eb]. apply wp_bind. eapply wp_lift; [exact Eb|]. destruct (e_tcpTurn e).
  - unfold AgentSend.tcpWrite. apply wp_bind, wp_gets, wp_bind, wp_modify. destruct (relayTcp _ _ _) as [[]|]; [|by apply wp_ret..].
    by apply wp_bind, wp_modify, wp_ret.
  - apply wp_onA. eapply wp_mono; [apply good_sendUdp, Ha|]. intros ? a [Hi [_ Hg]]. split; [done|]. exact (Nat.lt_le_trans _ _ _ Hk Hg).
Qed.

Lemma callClient_total k c dst d s :
  AgentInv.inv (sa s) -> (k < length (entries_ (sa s)))%nat -> clients s !! k = Some c -> cinv c ->
  (forall j n b, rng j n = Some b -> length b = n /\ bytes_ok b) -> TurnClientInv.good dst -> sized d ->
  wp (callClient k (sendData rng dst d)) (fun _ _ => True) s.
Proof.
  intros Ha Hk Ec Hc Hrng Hg Hd. unfold AgentSend.callClient. apply wp_bind, wp_gets, wp_bind. unfold id. eapply wp_lift; [exact Ec|].
  match goal with |- context [setRaw ?f c] => destruct (wp_sendData rng Hrng (setRaw f c) dst d (fun _ _ => True)) as (q & c' & E & _); [by apply cinv_setRaw|done..|] end.
  apply wp_bind. eapply wp_lift; [exact E|]. apply wp_bind, wp_modify, wp_bind.
  eapply wp_mono; [apply (wp_forM _ _ (fun s => AgentInv.inv (sa s) /\ (k < length (entries_ (sa s)))%nat))|].
  - intros f s1 _ [H1 H2]. apply wp_bind. eapply wp_mono; [by apply wp_sendRaw|]. intros ? s2 H. by apply wp_ret.
  - by split.
  - intros ? s1 _. by apply wp_ret.
Qed.

(** Both return whatever way the data goes. *)
Lemma slow_total data s :
  sender_ok s -> (forall j n b, rng j n = Some b -> length b = n /\ bytes_ok b) -> sized data ->
  exists r s', slowSend data s = Some (r, s').
Proof.
  intros [Ha Hcl Hpeer] Hrng Hd. destruct (selectedPair_ (sa s)) as [i|] eqn:Ei.
  2: { eexists _, _. apply (slow_plain data s STICE_ERR_FAILED (noted (sa s))); [|done].
       by apply agent_send_none. }
  destruct (inv_inUse _ _ Ha Ei) as (p & lc & rc & Hu).
  pose proof (agent_send_run env (sa s) i p lc rc data Ei Hu) as E. set (a1 := noted (sa s)) in *.
  assert (Ha1 : AgentInv.inv a1) by (by eapply (inv_frame (sa s))).
  assert (Hplain : forall m : M Z, AgentLoop.send env data (sa s) = m a1 -> preserves calls m -> wp m (fun _ _ => True) a1 ->
            exists r s', slowSend data s = Some (r, s')).
  { intros m Em Hp (r & a' & Er & _). rewrite Er in Em. eexists _, _. apply (slow_plain data s r a' Em). by rewrite (Hp _ _ _ Er). }
  assert (Hgood : forall m : M Z, wp m (fun _ => keeps a1) a1 -> wp m (fun _ _ => True) a1) by (intros m Hm; by eapply wp_mono).
  destruct (candIsTcpRelay lc); [apply (Hplain _ E); [apply calls_turnData|by apply Hgood, good_sendTurnDataConn]|].
  destruct (isTcp lc rc).
  { apply (Hplain _ E); [apply calls_tcp|]. apply Hgood, wp_agentSendTcp; [done|]. intros j [= <-]. eapply lookup_lt_Some, (iu_pair _ _ _ _ _ Hu). }
  destruct (relayed (sa s) lc rc); [|apply (Hplain _ E); [apply calls_sendUdp|by apply Hgood, good_sendUdp]].
  destruct (firstRelay (entries_ (sa s))) as [k|] eqn:Ek; [|by apply (Hplain _ E); [apply pres_ret|apply wp_ret]].
  destruct (Hcl k eq_refl) as (c & Ec & Hc & _). rewrite (slow_call data s _ _ k (resolved rc) data E).
  2: { unfold calls, noted. upd. by rewrite turnSends_app. }
  destruct (firstRelay_entry _ _ Ek) as [e He]. pose proof (lookup_lt_Some _ _ _ He) as Hl.
  match goal with |- exists r s', (_ ≫= _) ?x = _ => set (s1 := x) end.
  destruct (callClient_total k c (resolved rc) data s1) as (q & s2 & Eq & _); try done; [|by eapply Hpeer|].
  - eapply (inv_frame (sa s)); try done. change (states (outs (sa s) ++ [OTurnSend k (resolved rc) data]) = states (outs (sa s))).
    by rewrite states_app, app_nil_r.
  - rewrite (run_bind _ _ _ _ _ Eq). by eexists _, _.
Qed.

(** The write of the shortcut, and the client's call it stands for. *)
Lemma relay_same k c e peer data f s s' n :
  clients s !! k = Some c -> entries_ (sa s) !! k = Some e -> channelTo c peer data f -> 0 < wouldBlock -> settled s ->
  s' = s <| sa ::= (fun a => a <| outs ::= (fun l => l ++ [OTurnSend k peer data]) |>) |> ->
  exists r s1 s2,
    (write e k f ≫= (fun r => mret (if r <? 0 then r else n))) s = Some (r, s1) /\
    (callClient k (sendData rng peer data) ≫= (fun q => mret (if q <? 0 then q else n))) s' = Some (r, s2) /\ same_wire s1 s2.
Proof.
  intros Ec Ee Hc Hw [Hperm Hup] Es'. pose proof (frame_no_message _ _ _ _ Hc) as Em.
  assert (Hp : existsb (permitsPeer peer) (bindings_ c) = true).
  { destruct (ct_binding _ _ _ _ Hc) as (i & b & m & Ei & Eb & Er & _). by eapply Hperm. }
  set (g := fun (j : nat) (d : bytes) => answer env wouldBlock relayTcp s' k (j - TurnClient.sends c) d).
  set (c0 := setRaw (Some g) c). assert (Hc0 : channelTo c0 peer data f) by (by destruct Hc).
  pose proof (sendData_ready rng peer data f c0 g Hc0 Hp eq_refl) as Esend.
  match type of Esend with _ = Some (_, ?x) => set (c1 := x) in Esend end.
  set (s2 := s' <| clients ::= <[k := setRaw (TurnClient.sendRaw (sink_ c)) c1]> |>).
  destruct (write_same e k f s s2) as (r & r' & s3 & s4 & Ew & Eraw & Ha & Hneg & Heq & C3 & C4 & Hu & Hn & Ho); try done.
  { intros Ht. by eapply Hup. }
  { unfold s2. rewrite Es'. apply uncalled_call. }
  { by unfold s2; rewrite Es'. } { by unfold s2; rewrite Es'. }
  exists (if r <? 0 then r else n), s3, s4. split; [by rewrite (run_bind _ _ _ _ _ Ew)|]. split.
  - unfold AgentSend.callClient. rewrite run_assoc, run_gets, run_assoc. unfold id.
    assert (Ec' : clients s' !! k = Some c) by (by rewrite Es'). rewrite (run_lift _ _ _ _ Ec'), run_assoc.
    rewrite (run_lift _ _ _ _ Esend), run_assoc, run_modify, run_assoc. change (s' <| clients ::= _ |>) with s2.
    assert (Hf : drop (length (rawFrames (TurnClient.outs c))) (rawFrames (TurnClient.outs c1)) = [f]).
    { change (TurnClient.outs c1) with (TurnClient.outs c ++ [OSendRaw f]). by rewrite rawFrames_app, drop_app_length. }
    rewrite Hf. cbn [forM]. rewrite run_assoc, (run_bind _ _ _ _ _ (run_bind _ _ _ _ _ Eraw)). rewrite run_skip, run_ret.
    assert (Hg : g (TurnClient.sends c0) f = r').
    { rewrite <- Ha. unfold g. change (TurnClient.sends c0) with (TurnClient.sends c). rewrite Nat.sub_diag. by rewrite Es'. }
    rewrite Hg. unfold mret, SM_ret. do 2 f_equal. destruct (Z.ltb_spec r' 0) as [H0|H0].
    + rewrite (proj2 (Z.ltb_lt r 0)) by tauto. symmetry. by apply Heq.
    + destruct (Z.ltb_spec r 0) as [H1|]; [|done]. apply Hneg in H1. lia.
  - split; try done. rewrite C3, C4. unfold s2. rewrite Es'. upd. rewrite fmap_insert, insert_id; [done|].
    rewrite lookup_fmap, Ec. done.
Qed.

Lemma slow_noted data s : slowSend data (s <| sa := noted (sa s) |>) = slowSend data s.
Proof.
  unfold AgentSend.slowSend. rewrite !run_gets. unfold onA, mbind, SM_bind, gets, lift. cbn.
  change (AgentLoop.send env data (sa (s <| sa := noted (sa s) |>))) with (AgentLoop.send env data (sa s)).
  by destruct (AgentLoop.send env data (sa s)) as [[r a]|].
Qed.

(** What the lookup finds. *)
Inductive found (data : bytes) (s : Sender) : Shortcut -> Prop :=
| found_none : selectedPair_ (sa s) = None -> found data s NoPair
| found_slow : found data s NoShortcut
| found_direct i p lc rc : selectedPair_ (sa s) = Some i -> inUse (sa s) i p lc rc -> candIsTcpRelay lc = false ->
    isTcp lc rc = false -> relayed (sa s) lc rc = false -> found data s (Direct (resolved rc))
| found_relay i p lc rc k c f : selectedPair_ (sa s) = Some i -> inUse (sa s) i p lc rc -> candIsTcpRelay lc = false ->
    isTcp lc rc = false -> relayed (sa s) lc rc = true -> firstRelay (entries_ (sa s)) = Some k ->
    clients s !! k = Some c -> channelTo c (resolved rc) data f -> found data s (ViaRelay k f).

Lemma shortcut_found data s :
  sender_ok s -> exists x, shortcut data s = Some (x, s <| sa := noted (sa s) |>) /\ found data s x.
Proof.
  intros [Ha Hcl _]. unfold AgentSend.shortcut. set (s0 := s <| sa := noted (sa s) |>).
  rewrite (run_bind _ _ s tt s0) by (by apply onA_run). rewrite run_gets. change (selectedPair_ (sa s0)) with (selectedPair_ (sa s)).
  destruct (selectedPair_ (sa s)) as [i|] eqn:Ei; [|exists NoPair; split; [done|by constructor]].
  destruct (inv_inUse _ _ Ha Ei) as (p & lc & rc & Hu). pose proof (noted_inUse _ _ _ _ _ Hu) as Hu0. change (noted (sa s)) with (sa s0) in Hu0.
  rewrite (run_bind _ _ _ _ _ (onA_read _ _ _ (getPair_run _ _ _ _ _ Hu0))), (run_bind _ _ _ _ _ (onA_read _ _ _ (derefLocal_run _ _ _ _ _ Hu0))),
    (run_bind _ _ _ _ _ (onA_read _ _ _ (derefRemote_run _ _ _ _ _ Hu0))), (run_bind _ _ _ _ _ (onA_read _ _ _ (tcpRelay_run _ _ _ _ _ Hu0))),
    (run_bind _ _ _ _ _ (onA_read _ _ _ (isTcp_run _ _ _ _ _ Hu0))).
  destruct (hasMux || candIsTcpRelay lc || isTcp lc rc) eqn:Eb; [exists NoShortcut; split; [done|constructor]|].
  apply orb_false_iff in Eb as [[_ Et]%orb_false_iff Ei']. change (entries_ (sa s0)) with (entries_ (sa s)).
  change (bool_decide (type lc = Relayed) || _) with (relayed (sa s) lc rc).
  destruct (relayed (sa s) lc rc) eqn:Er; [|eexists; split; [done|by eapply found_direct]].
  destruct (firstRelay (entries_ (sa s))) as [k|] eqn:Ek; [|exists NoShortcut; split; [done|constructor]].
  destruct (Hcl k eq_refl) as (c & Ec & _ & Es). destruct (callClient_prepare k (resolved rc) data s0 c Ec Es) as (r & E & Hr).
  rewrite (run_bind _ _ _ _ _ E). eexists. split; [reflexivity|]. destruct (Z.eqb_spec r.1 1) as [H1|]; [|constructor].
  eapply found_relay; eauto.
Qed.

(** C28: The shortcut of [send] comes to the same as the way through [sendViaSelectedPair] and the
    TURN client.  Both return; they give the application the same result, write the same
    datagrams and the same frames on the control connections in the same order, and leave the
    agent and the bindings of its clients the same, when the selected pair's peer has an
    address, a channel that is ready has its permission, and the control connection of an
    allocation is connected. *)
Theorem send_shortcut_equivalent data s :
  sender_ok s -> settled s -> (forall j n b, rng j n = Some b -> length b = n /\ bytes_ok b) -> sized data -> 0 < wouldBlock ->
  exists r s1 s2, send data s = Some (r, s1) /\ slowSend data s = Some (r, s2) /\ same_wire s1 s2.
Proof.
  intros Hs Hse Hrng Hd Hw. destruct (shortcut_found data s Hs) as (x & E & Hx). unfold AgentSend.send. rewrite (run_bind _ _ _ _ _ E).
  set (s0 := s <| sa := noted (sa s) |>). destruct Hx as [Ei| |i p lc rc Ei Hu E1 E2 E3|i p lc rc k c f Ei Hu E1 E2 E3 Ek Ec Hc].
  - exists STICE_ERR_FAILED, s0, s0. split; [done|]. split; [|done]. apply slow_plain; [by apply agent_send_none|done].
  - destruct (slow_total data s Hs Hrng Hd) as (r & s1 & Es). exists r, s1, s1. split; [|done]. unfold s0. by rewrite slow_noted.
  - pose proof (agent_send_run env (sa s) i p lc rc data Ei Hu) as Ea. rewrite E1, E2, E3 in Ea.
    destruct (udpSend env (sends (noted (sa s))) (resolved rc) data) as [q b] eqn:Eq.
    pose proof (sendUdp_run env data (resolved rc) (noted (sa s)) q b Eq) as Er. rewrite Er in Ea.
    exists q. eexists _, _. split; [exact (onA_run _ s0 _ _ Er)|]. split; [apply (slow_plain _ _ _ _ Ea)|done].
    by rewrite (calls_sendUdp _ _ _ _ _ _ _ Er).
  - pose proof (agent_send_run env (sa s) i p lc rc data Ei Hu) as Ea. rewrite E1, E2, E3, Ek in Ea.
    destruct (firstRelay_entry _ _ Ek) as [e Ee].
    destruct (relay_same k c e (resolved rc) data f s0 _ (Z.of_nat (length data)) Ec Ee Hc Hw (Build_settled s0 (se_permitted _ Hse) (se_up _ Hse)) eq_refl)
      as (r & s1 & s2 & H1 & H2 & H3).
    exists r, s1, s2. split; [|split; [|exact H3]].
    + rewrite (run_bind _ _ s0 e s0) by (apply onA_read; unfold getEntry; change (entries_ (sa s0)) with (entries_ (sa s)); by rewrite Ee). exact H1.
    + rewrite (slow_call data s _ _ k (resolved rc) data Ea); [exact H2|]. unfold calls, noted. upd. by rewrite turnSends_app.
Qed.
End Same.

(** ** A sample: agent A behind its relay *)

Definition relayEntry (tcp : bool) : StunEntry :=
  newEntry <| e_type := Relay |> <| e_record := mkAddrRecord (SockIn 3478 [192; 0; 2; 1]) 16 SOCK_DGRAM |>
    <| e_turn := Some (mkTurnView Allocated false (fun _ => true)) |> <| e_tcpTurn := tcp |>.
Definition relayLocal : Candidate :=
  mkCandidate Relayed UDP 100 1 (lit "r") (lit "192.0.2.1") (lit "50000") (mkAddrRecord (SockIn 50000 [192; 0; 2; 1]) 16 SOCK_DGRAM) false emptyAddr.
Definition withRelay (tcp : bool) (a : Agent) : Agent :=
  a <| selectedPair_ := Some 0%nat |> <| entries_ := [relayEntry tcp] |>
    <| local_ := mkDescription (lit "aaaa") (lit "passwordpasswordpassAA") false [relayLocal] true |>.
Definition sendA (tcp : bool) : Agent := withRelay tcp connectingA.

(** Its client has bound a channel to B; [permitted]: it has the permission. *)
Definition channelB (permitted : bool) : PeerBinding :=
  mkPeerBinding addrB 0x4001 permitted true 0 0 (replicate 12 0) (replicate 12 0) false false [].
Definition clientA (permitted : bool) : Client :=
  mkClient (mkTurnConfig "192.0.2.1" 3478 "alice" "secret" TurnUDP "" 600 false) (mkTurnSink None true true true true true true)
    Allocated None 0 false emptyAddr 600 0 false 0 (replicate 12 0) ∅ [channelB permitted] 0 false 0 0 0 [].
Definition senderA (tcp permitted : bool) : Sender := mkSender (sendA tcp) {[0%nat := clientA permitted]} 0 [].
Definition sampleRng (k n : nat) : option bytes := Some (replicate n 7).
Definition sampleSend (up : bool) : bytes -> SenderM Z :=
  send (agentEnv 50) sampleRng false 11 (fun _ _ _ => if up then Some true else None).
Definition sampleSlow (up : bool) : bytes -> SenderM Z :=
  slowSend (agentEnv 50) sampleRng 11 (fun _ _ _ => if up then Some true else None).

Definition udpOf (a : Agent) : list (AddrRecord * bytes) := omap (fun o => match o with OUdp d x => Some (d, x) | _ => None end) (outs a).
Definition written (s : Sender) : list (AddrRecord * bytes) * list (nat * Chan * bytes) := (udpOf (sa s), tcpOut s).

Lemma connectingA_facts :
  length (candidates (local_ connectingA)) = 1%nat /\ length (pairs_ connectingA) = 1%nat /\
  (fun p => remoteCand connectingA (remote p)) <$> pairs_ connectingA !! 0%nat = Some (candidates (remote_ connectingA) !! 0%nat) /\
  (fun c => normalize (addr (resolved c))) <$> candidates (remote_ connectingA) !! 0%nat = Some (normalize (addr addrB)).
Proof. split_and!; vm_compute; reflexivity. Qed.

Lemma relayEntry_ok n tcp : entry_ok n (relayEntry tcp).
Proof. by split. Qed.

Lemma withRelay_inv tcp a :
  AgentInv.inv a -> length (candidates (local_ a)) = 1%nat -> length (pairs_ a) = 1%nat -> AgentInv.inv (withRelay tcp a).
Proof.
  intros [[H1 H2 H3 H4 H5 H6 H7 H8 H9 H10] Ho] Fl Fp. unfold withRelay. split; [split|exact Ho]; upd; try done.
  - eapply Forall_impl; [exact H1|]. intros p (G1 & G2 & G3). split; [exact G1|]. split; [|exact G3]. rewrite Fl in G2. exact G2.
  - apply Forall_singleton, relayEntry_ok.
  - unfold MaxStunEntries. cbn. lia.
  - constructor.
  - intros i [= <-]. rewrite Fp. lia.
  - split; [cbn; lia|apply H10].
Qed.

Lemma sendA_inv tcp : AgentInv.inv (sendA tcp).
Proof. destruct connectingA_facts as (Fl & Fp & _). exact (withRelay_inv tcp connectingA connectingA_inv Fl Fp). Qed.

Lemma clientA_inv permitted : cinv (clientA permitted).
Proof.
  split; [done|done|]. split.
  - apply Forall_singleton. split; [by eexists|by right|done|unfold kMaxPendingDataPkts; cbn; lia|constructor].
  - intros [|i] [|j] b c H1 H2; [done| | |]; cbn in *; by rewrite ?lookup_nil in *.
  - by intros [|].
  - split; cbn; intros *; by rewrite ?lookup_empty.
  - done.
Qed.

Lemma withRelay_fields tcp a :
  pairs_ (withRelay tcp a) = pairs_ a /\ (forall r, remoteCand (withRelay tcp a) r = remoteCand a r) /\
  selectedPair_ (withRelay tcp a) = Some 0%nat /\ entries_ (withRelay tcp a) = [relayEntry tcp].
Proof. done. Qed.

Lemma senderA_ok tcp permitted : sender_ok (senderA tcp permitted).
Proof.
  destruct connectingA_facts as (_ & _ & Fr & Fa), (withRelay_fields tcp connectingA) as (W1 & W2 & W3 & W4). fold (sendA tcp) in W1, W2, W3, W4.
  unfold senderA. set (a := sendA tcp) in *. split; cbn [sa clients]; [apply sendA_inv| |].
  - intros k Hk. rewrite W4 in Hk. assert (Hk0 : k = 0%nat) by (destruct tcp; vm_compute in Hk; congruence). subst k.
    exists (clientA permitted). split; [apply lookup_singleton_eq|]. split; [apply clientA_inv|reflexivity].
  - intros i p lc rc Hi [Hp _ Hr]. rewrite W3 in Hi. injection Hi as <-. rewrite W1 in Hp. rewrite W2 in Hr.
    clear -Fr Fa Hp Hr. revert Fr Fa Hp Hr. generalize (candidates (remote_ connectingA)) (pairs_ connectingA). intros cs ps Fr Fa Hp Hr.
    rewrite Hp in Fr. cbn [fmap option_fmap option_map] in Fr. rewrite Hr in Fr. apply (inj Some) in Fr. rewrite <- Fr in Fa.
    apply (inj Some) in Fa. unfold TurnClientInv.good. rewrite Fa. by eexists.
Qed.

Lemma equal_without_port a b : addrRecordEq a b = true -> addrEqualNoPort a b = true.
Proof.
  unfold addrRecordEq, addrEqualNoPort, isEqual, addrEqual. repeat case_match; try done.
Qed.

Lemma senderA_settled tcp : settled (fun _ _ _ => Some true) (senderA tcp true).
Proof.
  split; [|done]. intros k c peer i b Hc Hi Hb Hr. cbn [senderA clients] in Hc. apply lookup_singleton_Some in Hc as [_ <-].
  destruct (bindingAt_Some _ _ _ Hi) as (b' & Hb' & He). destruct i as [|i]; [|by destruct i].
  injection Hb' as <-. cbn [existsb bindings_ clientA]. unfold permitsPeer. by rewrite (equal_without_port _ _ He).
Qed.

Lemma send_shortcut_equivalent_witness :
  exists r s1 s2, sampleSend true [1; 2; 3] (senderA false true) = Some (r, s1) /\
    sampleSlow true [1; 2; 3] (senderA false true) = Some (r, s2) /\ same_wire s1 s2.
Proof.
  apply (send_shortcut_equivalent (agentEnv 50) sampleRng false 11 (fun _ _ _ => Some true) [1; 2; 3] (senderA false true)).
  - apply senderA_ok.
  - apply senderA_settled.
  - intros j n b [= <-]. split; [apply length_replicate|]. apply Forall_replicate. unfold fits. lia.
  - unfold sized. cbn. lia.
  - lia.
Defined.

(** What the sample sends, with and without the shortcut: one ChannelData frame. *)
Lemma sample_sends :
  (written <$> (snd <$> sampleSend true [1; 2; 3] (senderA false true))) =
  Some ([(mkAddrRecord (SockIn 3478 [192; 0; 2; 1]) 16 SOCK_DGRAM, [0x40; 1; 0; 3; 1; 2; 3; 0])], []).
Proof. vm_compute. reflexivity. Qed.

(** Without the permission the client keeps the data until it has one; the shortcut sends. *)
Lemma shortcut_without_permission :
  (written <$> (snd <$> sampleSend true [1; 2; 3] (senderA true false))) = Some ([], [(0%nat, Data, [0x40; 1; 0; 3; 1; 2; 3; 0])]) /\
  (fmap (pendingData) <$> (c ← clients <$> (snd <$> sampleSlow true [1; 2; 3] (senderA true false)); bindings_ <$> c !! 0%nat)) = Some [[[1; 2; 3]]].
Proof. split; vm_compute; reflexivity. Qed.

(** On a control connection that is not connected the shortcut reports that the call would
    block, and the client's way that it was invalid. *)
Lemma shortcut_not_connected :
  (fst <$> sampleSend false [1; 2; 3] (senderA true true)) = Some (-11) /\
  (fst <$> sampleSlow false [1; 2; 3] (senderA true true)) = Some STICE_ERR_INVALID.
Proof. split; vm_compute; reflexivity. Qed.

(** ** The selected pair as text

    [getSelectedCandidates] and [getSelectedAddresses]: a buffer is its size, [None] for a null
    pointer, and what is written to it the text with its terminator. *)

Definition STICE_ERR_NOT_AVAIL : Z := -3.
Definition STICE_ERR_TOO_LARGE : Z := -6.
Definition nul : ascii := Ascii.zero.

Definition tooLarge (buf : option nat) (s : text) : bool := match buf with Some n => (n <? length s + 1)%nat | None => false end.
Definition copyOut (buf : option nat) (s : text) : option text := (fun _ => s ++ [nul]) <$> buf.

Definition fillBuffers (bl br : option nat) (l r : text) : Z * option text * option text :=
  if tooLarge bl l then (STICE_ERR_TOO_LARGE, None, None)
  else if tooLarge br r then (STICE_ERR_TOO_LARGE, None, None)
  else (STICE_ERR_SUCCESS, copyOut bl l, copyOut br r).

Section Selected.
Context (raddrHack : option text) (getnameinfo : sockaddr -> option (string * string)) (inet_ntop : sockaddr -> option string).

Definition getSelectedCandidates (bl br : option nat) : M (Z * option text * option text) :=
  sel ← gets selectedPair_;
  match sel with
  | None => mret (STICE_ERR_NOT_AVAIL, None, None)
  | Some i =>
      p ← getPair i; lc ← derefLocal (local p); rc ← derefRemote (remote p);
      mret (fillBuffers bl br (toSdp raddrHack lc) (toSdp raddrHack rc))
  end.

Definition getSelectedAddresses (bl br : option nat) : M (Z * option text * option text) :=
  sel ← gets selectedPair_;
  match sel with
  | None => mret (STICE_ERR_NOT_AVAIL, None, None)
  | Some i =>
      p ← getPair i; lc ← derefLocal (local p); rc ← derefRemote (remote p);
      let show a := String.list_ascii_of_string (toString getnameinfo inet_ntop (resolved a)) in
      mret (fillBuffers bl br (show lc) (show rc))
  end.

(** A buffer holds what is written to it. *)
Definition within (buf : option nat) (out : option text) : Prop := forall s, out = Some s -> exists n, buf = Some n /\ (length s <= n)%nat.

Lemma fillBuffers_within bl br l r :
  within bl (fillBuffers bl br l r).1.2 /\ within br (fillBuffers bl br l r).2.
Proof.
  unfold fillBuffers. destruct (tooLarge bl l) eqn:El; [by split|]. destruct (tooLarge br r) eqn:Er; [by split|].
  assert (Hc : forall b t, tooLarge b t = false -> within b (copyOut b t)).
  { intros [n|] t Ht s E; [|done]. injection E as <-. exists n. split; [done|]. apply Nat.ltb_ge in Ht. rewrite length_app. cbn. lia. }
  split; by apply Hc.
Qed.

(** Both calls return, and write only inside the buffers they are given. *)
Lemma selected_within bl br s :
  AgentInv.inv s ->
  wp (getSelectedCandidates bl br) (fun r s' => s' = s /\ within bl r.1.2 /\ within br r.2) s /\
  wp (getSelectedAddresses bl br) (fun r s' => s' = s /\ within bl r.1.2 /\ within br r.2) s.
Proof.
  intros Hs. unfold getSelectedCandidates, getSelectedAddresses. split; apply wp_bind, wp_gets;
    (destruct (selectedPair_ s) as [i|] eqn:Ei; [|by apply wp_ret]); pose proof (inv_sel s Hs) as Hi; rewrite Ei in Hi;
    apply wp_bind, wp_getPair; [done|by apply Hi| |done|by apply Hi|]; intros p _ Hp;
    (apply wp_bind, wp_derefLocal; [done|]; intros lc _; apply wp_bind, wp_derefRemote; [done|]; intros rc _; apply wp_ret);
    split; try done; apply fillBuffers_within.
Qed.

(** The buffer [toSdp] itself writes to is large enough. *)
Lemma candidates_fit s :
  AgentInv.inv s -> is_Some (selectedPair_ s) ->
  wp (getSelectedCandidates (Some 512%nat) (Some 512%nat)) (fun r _ => r.1.1 = STICE_ERR_SUCCESS) s.
Proof.
  intros Hs [i Ei]. unfold getSelectedCandidates. apply wp_bind, wp_gets. rewrite Ei. pose proof (inv_sel s Hs) as Hi. rewrite Ei in Hi.
  apply wp_bind, wp_getPair; [done|by apply Hi|]. intros p _ Hp. apply wp_bind, wp_derefLocal; [done|]. intros lc _.
  apply wp_bind, wp_derefRemote; [done|]. intros rc _. apply wp_ret.
  assert (Hlen : forall c, tooLarge (Some 512%nat) (toSdp raddrHack c) = false).
  { intros c. apply Nat.ltb_ge. unfold toSdp. rewrite length_take. lia. }
  unfold fillBuffers. by rewrite !Hlen.
Qed.
End Selected.
